(* ===== verification/_CoqProject ===== *)
-Q . S2P
Prelude.v
Bits.v
Klibc.v
Containers.v
Fields.v
Frames.v
Pmm.v
Paging.v
Pcid.v
Initrd.v
Heap.v
Ipc.v
KernelVfs.v
Kbus.v
Process.v
Scheduler.v
Elf.v
Boot.v
Vfs.v
Lock.v
Descriptors.v
Fault.v
Support.v
Acpi.v
Loader.v
Console.v
Apic.v
Pci.v
Device.v
SlPaging.v
Iommu.v
Tables.v
Regions.v
Nvme.v
NvmeInfo.v
Virt.v
Syscall.v
Video.v
Xhci.v
Ahci.v
Hpet.v
Lai.v
Cpu.v
Identify.v
Simd.v
Smp.v
Ata.v
Devfs.v
