(* ===== verification/Prelude.v ===== *)
(** * Sigma: a verification development of the Sigma operating system

    Sigma is a 64-bit kernel in C++ (src/kernel), with a server for file systems
    (src/zeta) and drivers (src/drivers) in user space.  The boot loader hands
    over a memory map, a ramdisk and the firmware's tables; the kernel takes the
    physical memory under its control, builds page tables and a heap on top of it,
    finds CPUs, interrupt controllers and devices, and then schedules threads that
    call it for memory, messages, files of the ramdisk and devices.

    ** The files and what they model

    Foundations.
    - Prelude.v (this file): outcomes of code ([res]), machine integers, loops,
      automation ([inv_res], [wrap_lia], [by_compute], the hint database [sigma]).
    - Bits.v: misc/bitops.h, types/bitmap.hpp and the helpers of misc/misc.h.
    - Fields.v: C++ bit fields, structures of them ([layout]) and packed structures,
      used by the hardware files.
    - Containers.v: types/vector.h, queue.h, linked_list.h, hash_map.hpp,
      minimal_array.h and lazy_initializer, each refining lists or maps.
    - Klibc.v: klibc (memory and string functions, itoa, printf) and the command
      line of misc.cpp.
    - Lock.v: spinlocks at the level of instructions, interrupt locks, lock guards.
    - Support.v: cpp_support.cpp, panic.cpp, hmm.cpp, vmm.cpp and the smart pointers of
      klibcxx; the heap of Heap.v implements the interface of their deleters.

    Memory.
    - Frames.v: the interface [FrameAllocator] with its laws.
    - Pmm.v: mm/pmm.cpp, the instance of that interface.
    - Paging.v: the page tables of arch/x86_64/paging.cpp, over any allocator that
      meets the interface; [translate] is their abstract value.
    - Pcid.v: the switch of address spaces in paging.cpp.
    - Heap.v: mm/alloc.cpp, on Paging.v.
    - SlPaging.v, Iommu.v: intel/sl_paging.cpp and intel/vt-d.cpp, the tables that
      restrict what devices reach; [dma_translate] is their abstract value, and a rig
      adds the IOTLB that caches it.
    - Tables.v: the packed structures of the firmware's tables and of the IOMMU, with
      the proof that the other files use the places of their fields.

    Processes.
    - Process.v: proc/process.cpp; threads, scheduler, fork.
    - Scheduler.v: the CPUs that run those functions at the same time, as a step
      relation over the state of Process.v and the word of [scheduler_mutex].
    - Simd.v: proc/simd.cpp with process_low.asm; the save areas on the heap, which
      implement the values that Process.v keeps for each thread.
    - Elf.v: proc/elf.cpp, on Process.v, Initrd.v and Paging.v.
    - Initrd.v: proc/initrd.cpp.
    - Ipc.v: generic/event.hpp, generic/user_handle.hpp and proc/ipc.cpp.
    - Syscall.v: proc/syscall.cpp, the dispatcher and all calls over Process.v, Ipc.v,
      Initrd.v, Device.v, Regions.v and Virt.v, and libs/libsigma on the other side.
    - KernelVfs.v: the thread of syscall.cpp that serves the standard streams, on Ipc.v.
    - Regions.v: the memory that process.cpp gives to drivers, on Iommu.v.
    - Virt.v: generic/virt.cpp, arch/x86_64/amd/svm.cpp and svm_low.asm; virtual
      machines, with a processor that runs a guest as a parameter.

    Hardware.
    - Loader.v: subprojects/multiboot_loader; Boot.v: the address space that
      kernel_main.cpp and elf.cpp build.
    - Descriptors.v: arch/x86_64/gdt, tss and idt; Fault.v: the reports of exceptions and
      page faults in idt.cpp, and the stack trace and sanitizer of misc/debug.
    - Console.v: drivers/vga.cpp, serial.cpp and pic.cpp.
    - Acpi.v: acpi/acpi.cpp and acpi/madt.cpp.
    - Lai.v: acpi/laihost.cpp, the services for the AML interpreter, and the calls that
      acpi.cpp makes to it.
    - Apic.v: drivers/apic.cpp, fed with what Acpi.v finds.
    - Cpu.v: arch/x86_64/cpu.cpp, the protections and the page attribute table; with
      Paging.v it gives the memory type of a page.  Identify.v: the report of the
      processor in cpu.cpp.
    - Hpet.v: drivers/hpet.cpp; Smp.v: smp/smp.cpp and smp/ipi.cpp, on Apic.v.
    - Pci.v: drivers/pci.cpp; Device.v: generic/device.cpp, the call [devctl] on
      Pci.v, Descriptors.v and Ipc.v.

    User space.
    - Vfs.v: zeta/source/vfs.cpp; Devfs.v: zeta/include/Zeta/devfs.h on top of it.
    - Nvme.v, NvmeInfo.v, Ahci.v, Ata.v: drivers/storage/nvme, ahci and ata.
    - Xhci.v: drivers/usb/xhci.
    - Video.v: drivers/video/bga and vbe, the latter with the firmware in a virtual
      machine, on the calls of Syscall.v.
    - Kbus.v: libs/libkbus, on the rings of Ipc.v.

    ** How code becomes definitions

    A function is a definition with the name it has in the source, in a module with
    the name of its namespace or class.  State is passed explicitly; code that can
    panic, run into undefined behaviour or not return yields a [res].  Integers are
    [Z] with the wrap-around of their width written out ([u64], [u32], [u16],
    [u8]).  Kernel memory is a function from addresses to bytes or, for page
    tables, to 64-bit words; objects reached through pointers live in stores
    indexed by their address.  Hardware (registers, ports, configuration space,
    controllers for disks and USB) and code outside of the repository (the AML
    interpreter) are parameters: classes such as [RegHw], [ConfigHw], [Controller],
    [XhciHw] and [AhciHw], with a second class for the laws where a theorem relies on
    some, and an instance that shows that the laws can hold.

    Loops whose bound is a value of the state recurse on that value.  Loops without
    one take fuel and return [NoFuel] when it is used up; a theorem that says what
    such code does also says how much fuel is enough (the pages between the bounds
    of a search, the bytes of a table, the levels of bridges, the latency of a
    controller), so that [NoFuel] is excluded and the code returns.

    ** What is proved

    - Physical memory: allocation and release refine a list of free pages; no page
      is handed out twice.  Paging: [map_page] is the update of one page of one
      address space, lookups read back what was mapped, tear-down frees each table
      once, searches return unmapped ranges.  Heap: alloc and realloc refine a map of
      blocks; in a session of any actions the regions in use never overlap and keep
      their bytes.
    - Threads: the invariant of the scheduler over all interleaved steps of the CPUs up
      to two hazards of the code, exact save and restore of a thread's context, no
      starvation; mutual exclusion of the spinlock under any interleaving.  Loading: the segments of an executable and
      the sections of the kernel end up where they belong, with their bytes.
    - Messages and handles: rings refine stacks of messages, end to end through
      the calls; a handle is found under its number at its type only.  Ramdisk and
      MADT: reading inverts encoding; parsing ends exactly when no record that is
      reached has length zero.
    - Devices: the enumeration of the PCI bus finds exactly the functions that are
      there; a window is sized and restored; an interrupt that is enabled reaches
      its handle; a device has one driver; interrupt gates and ISA interrupts are
      set up as they should be; a device reaches by DMA, through the tables or the
      IOTLB, only memory that was granted for its domain; NVMe commands are executed
      once and in order, commands of a USB controller complete in the first lap of its
      event ring, and a SATA drive is asked for exactly the sector that the caller
      wants, whose bytes are returned, until its first error.
    - Processor: pages have the memory type that was asked for, the protections that
      are supported are on, sleeping takes the time it should; running a virtual
      machine restores the state of the host, and the assembly around VMRUN does what
      its model says.
    - Files: descriptors are fresh while dup2 keeps to numbers given out, a path is resolved by its longest mount point, and
      a new thread's output reaches the log.
    - Start: the tags of the boot loader are found, the kernel's address space maps its
      image and the memory, the tables of the firmware and of the hardware are read and
      written at the places of their fields (Tables.v), the video modes of the firmware are listed.
    - Support: registers of a thread survive in its save area, objects behind smart
      pointers are neither lost nor deleted twice, reports show what happened.
    - Behaviour that is not intended is stated too, as theorems about what the code
      does: a thread that runs on two CPUs ([block_race]), a mutex that is opened under
      its owner ([kill_opens_mutex]), a device that reaches another one's memory through
      the IOTLB ([iotlb_leak]), a port that never works again after an error
      ([stopped_port_fails]), a failed command that counts as success
      ([code_type_ignored]), an event ring that gets out of step
      ([event_ring_lost]) and a command ring with stale commands, a register that
      yield overwrites, one byte too many in [read_file], a bridge whose bus numbers
      change, stale completions in queues of 65536 entries, a sleep that never ends
      and a timer that divides by zero, a shootdown that is lost, a drive that is
      never detected, guest registers that stop the host, static variables that are
      initialised on every pass, an answer of the message bus that belongs to another
      request, a generator of constants that ends at 0.

    ** What is not modelled

    - The TLB and caches of the CPU; the contents of kernel stacks; the time that passes
      in waits other than as steps of the hardware.  Locks make operations atomic
      (Lock.v shows why); for the scheduler, which takes and gives up its locks within
      its operations, Scheduler.v has the steps in between.
    - Layout of output: consoles and reports are modelled, but most progress messages,
      and indentation and punctuation of the others, are not.
    - The sequence of the initialisations in kernel_main.cpp as a whole (the parts are
      modelled), the assembly that enters long mode and that further CPUs start with.
    - Code outside of the repository or generated: the AML interpreter, the formats of
      messages, the C library, what a guest or a device does.
    - Single instructions (msr, io); pairs and functions of klibcxx; zeta/tree.h, which no
      file uses; the request loops of kbus and zeta, which are commented out. *)

From Stdlib Require Export ZArith Lia.
From stdpp Require Export base tactics list gmap numbers strings.

Declare Scope sigma_scope.
Delimit Scope sigma_scope with sigma.
Global Open Scope Z_scope.

(** ** Outcomes of kernel code

    - [Ret a]: the code returns [a];
    - [Panic m]: the code reached [PANIC(m)] or a failing [ASSERT];
    - [Undef]: the C++ code has undefined behaviour (it dereferences a null
      pointer or indexes past the end of an array);
    - [NoFuel]: the bound put on a loop of the model was too small. *)
Inductive res (A : Type) : Type :=
| Ret (a : A)
| Panic (msg : string)
| Undef
| NoFuel.

Arguments Ret {A} a.
Arguments Panic {A} msg.
Arguments Undef {A}.
Arguments NoFuel {A}.

Global Instance res_ret : MRet res := fun A a => Ret a.
Global Instance res_bind : MBind res := fun A B f m =>
  match m with
  | Ret a => f a
  | Panic msg => Panic msg
  | Undef => Undef
  | NoFuel => NoFuel
  end.

(** [ASSERT(condition)] of Sigma/common.h. *)
Definition ASSERT (b : bool) (msg : string) : res unit :=
  if b then Ret tt else Panic msg.

(** An access that is undefined behaviour when the location is missing. *)
Definition access {A} (o : option A) : res A :=
  match o with Some a => Ret a | None => Undef end.

(** A counted loop [for(i = from; i < from + n; i++) body(i)]. *)
Fixpoint for_loop {A} (n : nat) (i : Z) (body : Z -> A -> res A) (s : A) : res A :=
  match n with
  | O => mret s
  | S n => s ← body i s; for_loop n (i + 1) body s
  end.

(** ** Machine integers *)

Definition u64 (x : Z) : Z := x mod 18446744073709551616.
Definition u32 (x : Z) : Z := x mod 4294967296.
Definition u16 (x : Z) : Z := x mod 65536.
Definition u8 (x : Z) : Z := x mod 256.
Definition u64_max : Z := 18446744073709551615.

(** [~x] on a [uint64_t]. *)
Definition not64 (x : Z) : Z := u64 (Z.lnot x).

(** [1ULL << bit]. *)
Definition bit64 (bit : Z) : Z := u64 (Z.shiftl 1 bit).

(** A value that a [uint64_t] can hold. *)
Definition is_u64 (x : Z) : Prop := 0 <= x < 18446744073709551616.

(** [ALIGN_DOWN] and [ALIGN_UP] of Sigma/common.h. *)
Definition ALIGN_DOWN (n a : Z) : Z := Z.land (u64 n) (not64 (u64 (a - 1))).
Definition ALIGN_UP (n a : Z) : Z := ALIGN_DOWN (u64 (u64 (u64 n + a) - 1)) a.

Definition KERNEL_PHYSICAL_VIRTUAL_MAPPING_BASE : Z := 0xffff800000000000.
Definition KERNEL_VBASE : Z := 0xffffffff80000000.
Definition block_size : Z := 0x1000.

(** ** Automation *)

Create HintDb sigma discriminated.

(** Split a hypothesis [x ≫= f = Ret b] into the two steps. *)
Ltac inv_res :=
  repeat match goal with
  | H : @mbind res _ _ _ _ ?m = Ret _ |- _ =>
      let E := fresh "E" in
      destruct m eqn:E; cbn [mbind res_bind] in H; try discriminate H
  | H : Ret _ = Ret _ |- _ => injection H; clear H; intros; subst
  | H : Panic _ = Ret _ |- _ => discriminate H
  | H : Undef = Ret _ |- _ => discriminate H
  | H : NoFuel = Ret _ |- _ => discriminate H
  | H : mret ?x = Ret ?y |- _ => change (Ret x = Ret y) in H
  | H : access ?o = Ret _ |- _ =>
      let E := fresh "E" in
      destruct o eqn:E; cbn [access] in H; try discriminate H
  | H : ASSERT ?b _ = Ret _ |- _ =>
      let E := fresh "E" in
      destruct b eqn:E; cbn [ASSERT] in H; try discriminate H
  | H : context [let '(_, _) := ?p in _] |- _ => is_var p; destruct p
  end.

(** Linear arithmetic with division and modulo by constants. *)
Ltac wrap_lia :=
  unfold u64, u32, u16, u8, u64_max, is_u64, block_size in *;
  Z.to_euclidean_division_equations; lia.

(** Close a goal by running the decision procedure of its proposition. *)
Ltac by_compute :=
  lazymatch goal with |- ?P => refine (bool_decide_unpack P _) end; vm_compute; exact I.

(** ** Shared lemmas: machine integers *)

Lemma u64_small x : is_u64 x -> u64 x = x.
Proof. intros H. apply Z.mod_small. exact H. Qed.

Lemma u64_range x : is_u64 (u64 x).
Proof. apply Z.mod_pos_bound. lia. Qed.

Lemma u64_pow x : u64 x = x mod 2 ^ 64.
Proof. reflexivity. Qed.

Lemma u64_idem x : u64 (u64 x) = u64 x.
Proof. apply u64_small, u64_range. Qed.

Lemma u64_land x : u64 x = Z.land x (Z.ones 64).
Proof. rewrite Z.land_ones by lia. reflexivity. Qed.

Lemma testbit_u64 x i : 0 <= i -> Z.testbit (u64 x) i = (i <? 64) && Z.testbit x i.
Proof.
  intros Hi. rewrite u64_pow. destruct (Z.ltb_spec i 64).
  - rewrite Z.mod_pow2_bits_low by lia. reflexivity.
  - rewrite Z.mod_pow2_bits_high by lia. reflexivity.
Qed.

Lemma testbit_not64 x i : 0 <= i -> Z.testbit (not64 x) i = (i <? 64) && negb (Z.testbit x i).
Proof. intros Hi. unfold not64. rewrite testbit_u64 by lia. rewrite Z.lnot_spec by lia. reflexivity. Qed.

Lemma testbit_bit64 b i : 0 <= b < 64 -> 0 <= i -> Z.testbit (bit64 b) i = (i =? b).
Proof.
  intros Hb Hi. unfold bit64. rewrite testbit_u64, Z.shiftl_1_l by lia.
  rewrite Z.pow2_bits_eqb by lia. rewrite (Z.eqb_sym b i).
  destruct (Z.eqb_spec i b), (Z.ltb_spec i 64); simpl; try reflexivity; lia.
Qed.

Lemma testbit_high x i : is_u64 x -> 64 <= i -> Z.testbit x i = false.
Proof.
  intros Hx Hi. rewrite <- (u64_small x Hx), testbit_u64 by lia.
  destruct (Z.ltb_spec i 64); [lia | reflexivity].
Qed.

Lemma is_u64_bits x : 0 <= x -> (forall i, 64 <= i -> Z.testbit x i = false) -> is_u64 x.
Proof.
  intros Hx Hb. replace x with (u64 x); [apply u64_range |].
  apply Z.bits_inj'. intros i Hi. rewrite testbit_u64 by lia.
  destruct (Z.ltb_spec i 64); [reflexivity |]. rewrite Hb by lia. reflexivity.
Qed.

Lemma is_u64_land x y : is_u64 x -> is_u64 y -> is_u64 (Z.land x y).
Proof.
  intros Hx Hy. apply is_u64_bits.
  - apply Z.land_nonneg. left. apply Hx.
  - intros i Hi. rewrite Z.land_spec, (testbit_high x) by assumption. reflexivity.
Qed.

Lemma is_u64_lor x y : is_u64 x -> is_u64 y -> is_u64 (Z.lor x y).
Proof.
  intros Hx Hy. apply is_u64_bits.
  - apply Z.lor_nonneg. split; [apply Hx | apply Hy].
  - intros i Hi. rewrite Z.lor_spec, (testbit_high x), (testbit_high y) by assumption. reflexivity.
Qed.

Lemma land_nonneg_l x y : 0 <= x -> 0 <= Z.land x y.
Proof. intros H. apply Z.land_nonneg. left. exact H. Qed.

(** Clearing the low bits with [ALIGN_DOWN] rounds down to a multiple. *)
Lemma ALIGN_DOWN_pow2 n k :
  is_u64 n -> 0 <= k < 64 -> ALIGN_DOWN n (2 ^ k) = n - n mod 2 ^ k.
Proof.
  intros Hn Hk. unfold ALIGN_DOWN. rewrite (u64_small n) by exact Hn.
  assert (Hp : 1 <= 2 ^ k < 18446744073709551616).
  { split; [pose proof (Z.pow_pos_nonneg 2 k); lia |].
    change 18446744073709551616 with (2 ^ 64). apply Z.pow_lt_mono_r; lia. }
  rewrite (u64_small (2 ^ k - 1)) by (unfold is_u64; lia).
  replace (2 ^ k - 1) with (Z.ones k) by (rewrite Z.ones_equiv; lia).
  replace (n - n mod 2 ^ k) with (Z.ldiff n (Z.ones k)).
  - apply Z.bits_inj'. intros i Hi.
    rewrite Z.land_spec, testbit_not64, Z.ldiff_spec by lia.
    destruct (Z.ltb_spec i 64); [reflexivity |].
    rewrite (testbit_high n) by (exact Hn || lia). reflexivity.
  - rewrite Z.ldiff_ones_r, Z.shiftl_mul_pow2, Z.shiftr_div_pow2 by lia.
    pose proof (Z.div_mod n (2 ^ k)). lia.
Qed.

Lemma ALIGN_UP_pow2 n k :
  0 <= n -> 0 <= k < 64 -> n + 2 ^ k <= 18446744073709551616 ->
  let r := ALIGN_UP n (2 ^ k) in n <= r < n + 2 ^ k /\ r mod 2 ^ k = 0.
Proof.
  intros Hn Hk Hb. cbv zeta. unfold ALIGN_UP.
  assert (Hp : 1 <= 2 ^ k) by (pose proof (Z.pow_pos_nonneg 2 k); lia).
  assert (E : u64 (u64 (u64 n + 2 ^ k) - 1) = n + 2 ^ k - 1) by wrap_lia.
  rewrite E, ALIGN_DOWN_pow2 by (unfold is_u64; lia).
  pose proof (Z.mod_pos_bound (n + 2 ^ k - 1) (2 ^ k)) as Hm.
  split; [lia |].
  rewrite Zminus_mod_idemp_r, Z.sub_diag. apply Z.mod_0_l. lia.
Qed.

(** ** Shared lemmas: outcomes *)

Lemma bind_Ret {A B} (m : res A) (f : A -> res B) b :
  m ≫= f = Ret b <-> exists a, m = Ret a /\ f a = Ret b.
Proof.
  split.
  - destruct m; try discriminate. eauto.
  - intros (a & -> & H). exact H.
Qed.

Lemma bind_mret {A B} (a : A) (f : A -> res B) : mret a ≫= f = f a.
Proof. reflexivity. Qed.

(** A loop keeps what each of its rounds keeps, and it returns. *)
Lemma for_loop_inv {A} (P : Z -> A -> Prop) n i body s :
  P i s -> (forall j s, i <= j < i + Z.of_nat n -> P j s -> exists s', body j s = Ret s' /\ P (j + 1) s') ->
  exists s', for_loop n i body s = Ret s' /\ P (i + Z.of_nat n) s'.
Proof.
  revert i s. induction n as [| n IH]; intros i s H0 Hstep; cbn [for_loop].
  - exists s. split; [reflexivity |]. by rewrite Z.add_0_r.
  - destruct (Hstep i s) as (s1 & -> & H1); [lia | exact H0 |]. cbn [mbind res_bind].
    destruct (IH (i + 1) s1 H1) as (s' & Hs & H'); [intros j s2 Hj; apply Hstep; lia |].
    exists s'. split; [exact Hs |]. by replace (i + Z.of_nat (S n)) with (i + 1 + Z.of_nat n) by lia.
Qed.

Lemma access_Some {A} (o : option A) a : access o = Ret a <-> o = Some a.
Proof. destruct o; simpl; split; intros H; congruence. Qed.

#[export] Hint Resolve u64_range is_u64_land is_u64_lor : sigma.
