(* ===== verification/Bits.v ===== *)
(** * Bits: [bitops], [types::bitmap] and the arithmetic helpers of [misc]

    Models include/Sigma/misc/bitops.h, include/Sigma/types/bitmap.hpp and the
    [constexpr] helpers of include/Sigma/misc/misc.h.  The bitmap is shown to
    implement a set of bit numbers, [get_free_bit] to return its least absent
    element. *)

From S2P Require Import Prelude.

(** ** misc.h *)

Definition div_ceil (val div : Z) : Z := u64 (u64 (val + div) - 1) / div.

Definition is_canonical (addr : Z) : bool :=
  (addr <=? 0x00007fffffffffff) ||
  ((0xffff800000000000 <=? addr) && (addr <=? 0xffffffffffffffff)).

(** The loop [for(i = 0; i < pow; i++) tmp *= base]. *)
Fixpoint pow_loop (base : Z) (n : nat) (tmp : Z) : Z :=
  match n with O => tmp | S n => pow_loop base n (u64 (tmp * base)) end.
Definition pow (base pow : Z) : Z := pow_loop base (Z.to_nat pow) 1.

Definition min (a b : Z) : Z := if a <? b then a else b.

(** [misc::id_generator]: the state is [next_id]. *)
Definition id_generator_id (next_id : Z) : Z * Z := (next_id, u64 (next_id + 1)).

(** ** bitops<T>, for an unsigned type [T] of [w] bits *)

Module bitops.
Definition bit_test (w item bit : Z) : bool :=
  negb (Z.land item (bit64 bit) mod 2 ^ w =? 0).

Definition bit_set (w item bit : Z) : Z * bool :=
  (Z.lor item (bit64 bit) mod 2 ^ w, bit_test w item bit).

Definition bit_clear (w item bit : Z) : Z * bool :=
  (Z.land item (not64 (bit64 bit)) mod 2 ^ w, bit_test w item bit).
End bitops.

(** ** types::bitmap *)

Module bitmap.
Record t := mk { n_bytes : Z; array : list Z }.

Definition create (n_bits : Z) : t :=
  let n := div_ceil n_bits 8 in mk n (replicate (Z.to_nat n) 0).

(** [operator=]: a copy of the other bitmap's bytes. *)
Definition assign (other : t) : t :=
  mk (n_bytes other) (take (Z.to_nat (n_bytes other)) (array other)).

Definition set (m : t) (bit : Z) : res t :=
  let index := bit / 8 in
  let offset := bit mod 8 in
  v ← access (array m !! Z.to_nat index);
  mret (mk (n_bytes m) (<[Z.to_nat index := u8 (Z.lor v (bit64 offset))]> (array m))).

Definition clear (m : t) (bit : Z) : res t :=
  let index := bit / 8 in
  let offset := bit mod 8 in
  v ← access (array m !! Z.to_nat index);
  mret (mk (n_bytes m) (<[Z.to_nat index := u8 (Z.land v (not64 (bit64 offset)))]> (array m))).

Definition test (m : t) (bit : Z) : res bool :=
  let index := bit / 8 in
  let offset := bit mod 8 in
  v ← access (array m !! Z.to_nat index);
  mret (negb (Z.land v (bit64 offset) =? 0)).

(** The inner loop of [get_free_bit]: [n] values of [j] are left to try. *)
Fixpoint free_in_byte (v j : Z) (n : nat) : option Z :=
  match n with
  | O => None
  | S n => if Z.land v (bit64 j) =? 0 then Some j else free_in_byte v (j + 1) n
  end.

(** The outer loop of [get_free_bit]: [n] values of [i] are left to try. *)
Fixpoint free_from (m : t) (i : Z) (n : nat) : res Z :=
  match n with
  | O => mret u64_max
  | S n =>
      v ← access (array m !! Z.to_nat i);
      if v =? 0xFF then free_from m (i + 1) n
      else match free_in_byte v 0 8 with
           | Some j => mret (u64 (i * 8 + j))
           | None => free_from m (i + 1) n
           end
  end.

Definition get_free_bit (m : t) : res Z := free_from m 0 (Z.to_nat (n_bytes m)).

(** Well-formedness: [n_bytes] bytes are allocated, each one a [uint8_t]. *)
Definition wf (m : t) : Prop :=
  0 <= n_bytes m < 2 ^ 60 /\ length (array m) = Z.to_nat (n_bytes m) /\
  Forall (fun v => 0 <= v < 256) (array m).

(** The abstract value of a bitmap: the set of its bits, as a predicate. *)
Definition member (m : t) (bit : Z) : bool :=
  match array m !! Z.to_nat (bit / 8) with
  | Some v => Z.testbit v (bit mod 8)
  | None => false
  end.

Definition in_range (m : t) (bit : Z) : Prop := 0 <= bit < 8 * n_bytes m.
End bitmap.

(** ** Lemmas *)

Lemma land_bit64_eqb x b : 0 <= b < 64 -> (Z.land x (bit64 b) =? 0) = negb (Z.testbit x b).
Proof.
  intros Hb. destruct (Z.testbit x b) eqn:E; simpl.
  - apply Z.eqb_neq. intros H. apply (f_equal (fun z => Z.testbit z b)) in H.
    rewrite Z.land_spec, E, testbit_bit64, Z.eqb_refl, Z.bits_0 in H by lia. discriminate.
  - apply Z.eqb_eq, Z.bits_inj'. intros i Hi.
    rewrite Z.land_spec, testbit_bit64, Z.bits_0 by lia.
    destruct (Z.eqb_spec i b) as [-> | _]; [by rewrite E | apply andb_false_r].
Qed.

Lemma bit64_range b : is_u64 (bit64 b).
Proof. apply u64_range. Qed.

#[export] Hint Resolve bit64_range : sigma.

Lemma bit_test_64 item bit :
  is_u64 item -> 0 <= bit < 64 -> bitops.bit_test 64 item bit = Z.testbit item bit.
Proof.
  intros Hi Hb. unfold bitops.bit_test. rewrite <- u64_pow, u64_small by eauto with sigma.
  rewrite land_bit64_eqb by lia. apply negb_involutive.
Qed.

Lemma bit_set_64 item bit :
  is_u64 item -> (bitops.bit_set 64 item bit).1 = Z.lor item (bit64 bit).
Proof. intros Hi. unfold bitops.bit_set. simpl fst. apply u64_small. eauto with sigma. Qed.

Lemma testbit_u8 x i : 0 <= i -> Z.testbit (u8 x) i = (i <? 8) && Z.testbit x i.
Proof.
  intros Hi. change (u8 x) with (x mod 2 ^ 8). destruct (Z.ltb_spec i 8).
  - rewrite Z.mod_pow2_bits_low by lia. reflexivity.
  - rewrite Z.mod_pow2_bits_high by lia. reflexivity.
Qed.

Lemma u8_range x : 0 <= u8 x < 256.
Proof. apply Z.mod_pos_bound. lia. Qed.

Lemma div_ceil_spec val d :
  0 < d -> 0 <= val -> val + d <= 18446744073709551616 ->
  d * (div_ceil val d - 1) < val <= d * div_ceil val d \/ (val = 0 /\ div_ceil val d = 0).
Proof.
  intros Hd Hv Hb. unfold div_ceil.
  destruct (Z.eq_dec (val + d) 18446744073709551616) as [E | E].
  - rewrite E. change (u64 18446744073709551616) with 0. change (u64 (0 - 1)) with 18446744073709551615.
    replace 18446744073709551615 with (val + d - 1) by lia.
    pose proof (Z.div_mod (val + d - 1) d). pose proof (Z.mod_pos_bound (val + d - 1) d).
    destruct (Z.eq_dec val 0) as [-> |]; [right | left]; [| nia].
    split; [reflexivity |]. apply Z.div_small. lia.
  - rewrite (u64_small (val + d)) by (unfold is_u64; lia).
    rewrite (u64_small (val + d - 1)) by (unfold is_u64; lia).
    pose proof (Z.div_mod (val + d - 1) d). pose proof (Z.mod_pos_bound (val + d - 1) d).
    destruct (Z.eq_dec val 0) as [-> |]; [right | left]; [| nia].
    split; [reflexivity |]. apply Z.div_small. lia.
Qed.

Section bitmap_lemmas.
Import bitmap.
Implicit Types (m : t) (b : Z).

Lemma in_range_lookup m b :
  wf m -> in_range m b ->
  exists v, array m !! Z.to_nat (b / 8) = Some v /\ 0 <= v < 256.
Proof.
  intros (Hn & Hl & Hf) Hb. unfold in_range in Hb.
  destruct (lookup_lt_is_Some_2 (array m) (Z.to_nat (b / 8))) as [v Hv].
  { rewrite Hl. wrap_lia. }
  exists v. split; [exact Hv |]. by eapply Forall_lookup_1 in Hf.
Qed.

Lemma test_member m b : wf m -> in_range m b -> test m b = Ret (member m b).
Proof.
  intros Hw Hb. destruct (in_range_lookup m b Hw Hb) as (v & Hv & Hr).
  unfold test, member. rewrite Hv. simpl. f_equal.
  rewrite land_bit64_eqb by wrap_lia. apply negb_involutive.
Qed.

(** Updating byte [b / 8] by [f] changes bit [j] by [g] and nothing else. *)
Lemma member_update m b v' (g : bool) :
  wf m -> in_range m b -> 0 <= v' < 256 ->
  (forall v i, array m !! Z.to_nat (b / 8) = Some v -> 0 <= i < 8 ->
     Z.testbit v' i = if i =? b mod 8 then g else Z.testbit v i) ->
  let m' := mk (n_bytes m) (<[Z.to_nat (b / 8) := v']> (array m)) in
  wf m' /\ (forall j, in_range m j -> member m' j = if j =? b then g else member m j).
Proof.
  intros Hw Hb Hv' Hbits m'. destruct (in_range_lookup m b Hw Hb) as (v & Hv & Hr).
  destruct Hw as (Hn & Hl & Hf). split.
  - repeat split; simpl; [apply Hn.. | by rewrite length_insert |].
    by apply Forall_insert.
  - intros j Hj. unfold member, in_range in *. simpl.
    destruct (decide (Z.to_nat (b / 8) = Z.to_nat (j / 8))) as [E | E].
    + assert (Ej : j / 8 = b / 8) by wrap_lia.
      rewrite Ej, list_lookup_insert_eq by (eapply lookup_lt_Some; eauto). rewrite Hv.
      rewrite (Hbits v) by (done || wrap_lia).
      destruct (Z.eqb_spec (j mod 8) (b mod 8)), (Z.eqb_spec j b); try reflexivity; wrap_lia.
    + rewrite list_lookup_insert_ne by done.
      destruct (Z.eqb_spec j b); [subst; done | reflexivity].
Qed.

Lemma free_in_byte_Some v n j r :
  0 <= j -> j + Z.of_nat n <= 64 -> free_in_byte v j n = Some r ->
  j <= r < j + Z.of_nat n /\ Z.testbit v r = false /\
  (forall i, j <= i < r -> Z.testbit v i = true).
Proof.
  revert j. induction n as [| n IH]; intros j Hj Hn H; simpl in H; [discriminate |].
  rewrite land_bit64_eqb in H by lia. destruct (Z.testbit v j) eqn:E; simpl in H.
  - apply IH in H as (H1 & H2 & H3); [| lia..]. split; [lia |]. split; [done |].
    intros i Hi. destruct (Z.eq_dec i j) as [-> |]; [done |]. apply H3. lia.
  - injection H as ->. split; [lia |]. split; [done |]. lia.
Qed.

Lemma free_in_byte_None v n j :
  0 <= j -> j + Z.of_nat n <= 64 -> free_in_byte v j n = None ->
  forall i, j <= i < j + Z.of_nat n -> Z.testbit v i = true.
Proof.
  revert j. induction n as [| n IH]; intros j Hj Hn H i Hi; simpl in H; [lia |].
  rewrite land_bit64_eqb in H by lia. destruct (Z.testbit v j) eqn:E; simpl in H; [| discriminate].
  destruct (Z.eq_dec i j) as [-> |]; [done |]. apply (IH (j + 1)); try lia. done.
Qed.

Lemma byte_full i : 0 <= i < 8 -> Z.testbit 0xFF i = true.
Proof.
  intros Hi. change 0xFF with (Z.ones 8). apply Z.ones_spec_low. lia.
Qed.

Lemma member_byte m i v j :
  0 <= i -> 0 <= j < 8 -> array m !! Z.to_nat i = Some v -> member m (i * 8 + j) = Z.testbit v j.
Proof.
  intros Hi Hj Hv. unfold member.
  replace ((i * 8 + j) / 8) with i by wrap_lia. replace ((i * 8 + j) mod 8) with j by wrap_lia.
  by rewrite Hv.
Qed.

Lemma free_from_spec m n i :
  wf m -> 0 <= i -> i + Z.of_nat n = n_bytes m ->
  (forall b, 0 <= b < 8 * i -> member m b = true) ->
  exists r, free_from m i n = Ret r /\
    ((r = u64_max /\ forall b, in_range m b -> member m b = true) \/
     (in_range m r /\ member m r = false /\ forall b, 0 <= b < r -> member m b = true)).
Proof.
  intros Hw. revert i. induction n as [| n IH]; intros i Hi Hn Hall; cbn [free_from].
  { exists u64_max. split; [done |]. left. split; [done |].
    intros b Hb. apply Hall. unfold in_range in Hb. lia. }
  destruct (in_range_lookup m (i * 8) Hw) as (v & Hv & Hr); [unfold in_range; lia |].
  replace (i * 8 / 8) with i in Hv by wrap_lia. rewrite Hv. cbn [access mbind res_bind].
  assert (Hnext : (forall j, 0 <= j < 8 -> Z.testbit v j = true) ->
                  forall b, 0 <= b < 8 * (i + 1) -> member m b = true).
  { intros Hfull b Hb. destruct (Z.lt_ge_cases b (8 * i)) as [| Hge]; [apply Hall; lia |].
    replace b with (i * 8 + (b - i * 8)) by lia. rewrite (member_byte m i v) by (done || lia).
    apply Hfull. lia. }
  destruct (Z.eqb_spec v 0xFF) as [-> | Hne].
  { apply IH; [lia.. |]. apply Hnext. apply byte_full. }
  destruct (free_in_byte v 0 8) as [j |] eqn:E.
  - apply free_in_byte_Some in E as (Hj & Hfree & Hlow); [| lia..].
    assert (Hw60 := proj1 Hw). exists (i * 8 + j). split.
    { cbn [mret res_ret]. f_equal. apply u64_small. unfold is_u64. lia. }
    right. unfold in_range. split; [lia |]. split; [by rewrite (member_byte m i v) by (done || lia) |].
    intros b Hb. destruct (Z.lt_ge_cases b (8 * i)); [apply Hall; lia |].
    replace b with (i * 8 + (b - i * 8)) by lia. rewrite (member_byte m i v) by (done || lia).
    apply Hlow. lia.
  - apply IH; [lia.. |]. apply Hnext. intros j Hj. eapply (free_in_byte_None v 8 0); try lia. done.
Qed.

End bitmap_lemmas.

(** ** Theorems *)

(** [get_free_bit] of a well-formed bitmap always returns; the result is
    the least bit that is not in the set, or [(uint64_t)-1] when every bit of
    the bitmap is set. *)
Theorem get_free_bit_least (m : bitmap.t) :
  bitmap.wf m ->
  exists r, bitmap.get_free_bit m = Ret r /\
    ((r = u64_max /\ forall b, bitmap.in_range m b -> bitmap.test m b = Ret true) \/
     (bitmap.in_range m r /\ bitmap.test m r = Ret false /\
      forall b, 0 <= b < r -> bitmap.test m b = Ret true)).
Proof.
  intros Hw. destruct (free_from_spec m (Z.to_nat (bitmap.n_bytes m)) 0) as (r & Hr & Hs);
    [done | lia | | lia |].
  { destruct Hw as ((? & ?) & _). lia. }
  exists r. split; [exact Hr |]. destruct Hs as [(-> & Hall) | (Hi & Hf & Hlow)]; [left | right].
  - split; [done |]. intros b Hb. by rewrite test_member, Hall.
  - split; [done |]. split; [by rewrite test_member, Hf |].
    intros b Hb. rewrite test_member, Hlow; [done.. |]. unfold bitmap.in_range in *. lia.
Qed.

Lemma get_free_bit_least_witness :
  bitmap.get_free_bit (bitmap.mk 2 [0xFF; 0x07]) = Ret 11 /\
  exists r, bitmap.get_free_bit (bitmap.mk 2 [0xFF; 0x07]) = Ret r /\
    ((r = u64_max /\ forall b, bitmap.in_range (bitmap.mk 2 [0xFF; 0x07]) b ->
        bitmap.test (bitmap.mk 2 [0xFF; 0x07]) b = Ret true) \/
     (bitmap.in_range (bitmap.mk 2 [0xFF; 0x07]) r /\
      bitmap.test (bitmap.mk 2 [0xFF; 0x07]) r = Ret false /\
      forall b, 0 <= b < r -> bitmap.test (bitmap.mk 2 [0xFF; 0x07]) b = Ret true)).
Proof.
  split; [vm_compute; reflexivity |]. apply get_free_bit_least.
  split; [simpl; lia |]. split; [reflexivity |]. repeat constructor; lia.
Defined.

(** [set] and [clear] implement insertion and removal on the set of bits:
    on a bit in range they return a well-formed bitmap of the same size in which
    that bit, and no other, has changed. *)
Theorem bitmap_set_clear_refine (m : bitmap.t) (b : Z) :
  bitmap.wf m -> bitmap.in_range m b ->
  (exists m', bitmap.set m b = Ret m' /\ bitmap.wf m' /\
     bitmap.n_bytes m' = bitmap.n_bytes m /\
     forall j, bitmap.in_range m j ->
       bitmap.test m' j = if j =? b then Ret true else bitmap.test m j) /\
  (exists m', bitmap.clear m b = Ret m' /\ bitmap.wf m' /\
     bitmap.n_bytes m' = bitmap.n_bytes m /\
     forall j, bitmap.in_range m j ->
       bitmap.test m' j = if j =? b then Ret false else bitmap.test m j).
Proof.
  intros Hw Hb. destruct (in_range_lookup m b Hw Hb) as (v & Hv & Hr).
  unfold bitmap.set, bitmap.clear. rewrite Hv. cbn [access mbind res_bind mret res_ret].
  split; eexists; (split; [reflexivity |]).
  - destruct (member_update m b (u8 (Z.lor v (bit64 (b mod 8)))) true Hw Hb) as [Hw' Hm].
    { apply u8_range. }
    { intros v0 i Hv0 Hi. assert (v0 = v) as -> by congruence.
      rewrite testbit_u8, Z.lor_spec, testbit_bit64 by wrap_lia.
      destruct (Z.ltb_spec i 8), (Z.eqb_spec i (b mod 8)); try lia; simpl;
        auto using orb_true_r, orb_false_r. }
    split; [exact Hw' |]. split; [reflexivity |]. intros j Hj.
    rewrite !test_member, Hm by done. by destruct (j =? b).
  - destruct (member_update m b (u8 (Z.land v (not64 (bit64 (b mod 8))))) false Hw Hb) as [Hw' Hm].
    { apply u8_range. }
    { intros v0 i Hv0 Hi. assert (v0 = v) as -> by congruence.
      rewrite testbit_u8, Z.land_spec, testbit_not64, testbit_bit64 by wrap_lia.
      destruct (Z.ltb_spec i 8), (Z.ltb_spec i 64), (Z.eqb_spec i (b mod 8)); try lia; simpl;
        auto using andb_false_r, andb_true_r. }
    split; [exact Hw' |]. split; [reflexivity |]. intros j Hj.
    rewrite !test_member, Hm by done. by destruct (j =? b).
Qed.

Lemma bitmap_set_clear_refine_witness :
  (exists m', bitmap.set (bitmap.create 10) 9 = Ret m' /\ bitmap.wf m' /\
     bitmap.n_bytes m' = bitmap.n_bytes (bitmap.create 10) /\
     forall j, bitmap.in_range (bitmap.create 10) j ->
       bitmap.test m' j = if j =? 9 then Ret true else bitmap.test (bitmap.create 10) j) /\
  (exists m', bitmap.clear (bitmap.create 10) 9 = Ret m' /\ bitmap.wf m' /\
     bitmap.n_bytes m' = bitmap.n_bytes (bitmap.create 10) /\
     forall j, bitmap.in_range (bitmap.create 10) j ->
       bitmap.test m' j = if j =? 9 then Ret false else bitmap.test (bitmap.create 10) j).
Proof.
  apply bitmap_set_clear_refine.
  - split; [vm_compute; intuition discriminate |]. split; [reflexivity |].
    vm_compute. repeat constructor; discriminate.
  - vm_compute. intuition discriminate.
Defined.
