(* ===== verification/Klibc.v ===== *)
(** * Klibc: the kernel's C library

    Models source/klibc/string.cpp, [itoa] and [htoa] of source/klibc/stdlib.cpp,
    [printf_internal] of source/klibc/stdio.cpp and the kernel command line of
    source/misc/misc.cpp.  Memory is a function from addresses to bytes; a C
    string is read from it up to its null byte, with fuel for the scan. *)

From S2P Require Import Prelude.

Definition bmem := Z -> Z.
Definition write (m : bmem) (a v : Z) : bmem := fun x => if x =? a then v else m x.

Module string.
Definition memset (s c n : Z) (m : bmem) : res bmem :=
  for_loop (Z.to_nat n) 0 (fun i m => mret (write m (s + i) (u8 c))) m.

Definition memcpy (dest src n : Z) (m : bmem) : res bmem :=
  for_loop (Z.to_nat n) 0 (fun i m => mret (write m (dest + i) (m (src + i)))) m.

(** [for(size_t i = size; i != 0; i--)]. *)
Fixpoint copy_down (n : nat) (dst src : Z) (m : bmem) : bmem :=
  match n with
  | O => m
  | S n' => copy_down n' dst src (write m (dst + (Z.of_nat n - 1)) (m (src + (Z.of_nat n - 1))))
  end.

Definition memmove (dst src n : Z) (m : bmem) : res bmem :=
  if dst <? src then for_loop (Z.to_nat n) 0 (fun i m => mret (write m (dst + i) (m (src + i)))) m
  else mret (copy_down (Z.to_nat n) dst src m).

Fixpoint memcmp_loop (n : nat) (i s1 s2 : Z) (m : bmem) : Z :=
  match n with
  | O => 0
  | S n =>
      if m (s1 + i) <? m (s2 + i) then -1
      else if m (s2 + i) <? m (s1 + i) then 1
      else memcmp_loop n (i + 1) s1 s2 m
  end.
Definition memcmp (s1 s2 n : Z) (m : bmem) : Z := memcmp_loop (Z.to_nat n) 0 s1 s2 m.

Fixpoint strlen_loop (fuel : nat) (s len : Z) (m : bmem) : res Z :=
  match fuel with
  | O => NoFuel
  | S fuel => if m (s + len) =? 0 then mret len else strlen_loop fuel s (len + 1) m
  end.
Definition strlen (fuel : nat) (s : Z) (m : bmem) : res Z := strlen_loop fuel s 0 m.

Definition strcpy (fuel : nat) (dest src : Z) (m : bmem) : res bmem :=
  len ← strlen fuel src m; memcpy dest src (len + 1) m.

Fixpoint strcmp (fuel : nat) (s1 s2 : Z) (m : bmem) : res Z :=
  match fuel with
  | O => NoFuel
  | S fuel =>
      if (m s1 =? m s2) && negb (m s1 =? 0) then strcmp fuel (s1 + 1) (s2 + 1) m
      else mret (m s1 - m s2)
  end.
End string.

Module stdlib.
(** The digit table of [itoa], indexed by [35 + value % base]. *)
Definition digit_table : string := "zyxwvutsrqponmlkjihgfedcba9876543210123456789abcdefghijklmnopqrstuvwxyz".
Definition digit_char (r : Z) : Z :=
  match String.get (Z.to_nat (35 + r)) digit_table with
  | Some c => Z.of_N (Ascii.N_of_ascii c)
  | None => 0
  end.

(** The [do ... while(value)] loop; division truncates towards zero. *)
Fixpoint itoa_digits (fuel : nat) (value base ptr : Z) (m : bmem) : res (Z * bmem) :=
  match fuel with
  | O => NoFuel
  | S fuel =>
      let m := write m ptr (digit_char (Z.rem value base)) in
      let value := Z.quot value base in
      if value =? 0 then mret (ptr + 1, m) else itoa_digits fuel value base (ptr + 1) m
  end.

(** The loop that reverses the digits in place. *)
Fixpoint itoa_reverse (fuel : nat) (low ptr : Z) (m : bmem) : res bmem :=
  match fuel with
  | O => NoFuel
  | S fuel =>
      if low <? ptr then
        let tmp := m low in
        let m := write m low (m ptr) in
        let m := write m ptr tmp in
        itoa_reverse fuel (low + 1) (ptr - 1) m
      else mret m
  end.

(** An [int64_t] has at most 64 digits. *)
Definition itoa (value str base : Z) (m : bmem) : res bmem :=
  if (base <? 2) || (36 <? base) then mret (write m str 0)
  else
    let ptr := str in
    let '(ptr, m) := if (value <? 0) && (base =? 10) then (ptr + 1, write m ptr 45) else (ptr, m) in
    let low := ptr in
    '(ptr, m) ← itoa_digits 64 value base ptr m;
    itoa_reverse 64 low (ptr - 1) (write m ptr 0).

Definition hex_char (tmp : Z) : Z := if 10 <=? tmp then tmp - 10 + 97 else tmp + 48.

(** The loop of [htoa] over the nibbles above the lowest; [shown] is
    [zeros != 0]. *)
Fixpoint htoa_loop (steps : nat) (n i str : Z) (shown : bool) (m : bmem) : Z * bmem :=
  match steps with
  | O => (str, m)
  | S steps =>
      let tmp := Z.land (Z.shiftr n i) 15 in
      if (tmp =? 0) && negb shown then htoa_loop steps n (i - 4) str shown m
      else htoa_loop steps n (i - 4) (str + 1) true (write m str (hex_char tmp))
  end.
Definition htoa (n str : Z) (m : bmem) : bmem :=
  let m := write m str 48 in
  let m := write m (str + 1) 120 in
  let '(str, m) := htoa_loop 15 n 60 (str + 2) false m in
  write m str (hex_char (Z.land n 15)).
End stdlib.

Module stdio.
Definition INT_MAX : Z := 2147483647.

(** An argument of a variadic call: an [int], a [uint64_t] or a [const char*].
    Reading one at another type is undefined. *)
Inductive arg := Aint (v : Z) | Au64 (v : Z) | Aptr (a : Z).

(** [print(data, length)]: the bytes sent to the writer. *)
Definition print (data length : Z) (m : bmem) : list Z := (fun i => m (data + i)) <$> seqZ 0 length.

Section printf.
(** A bound for the scans of strings. *)
Context (max : nat).

(** [while(format[amount] && format[amount] != '%') amount++]. *)
Fixpoint literal (fuel : nat) (format amount : Z) (m : bmem) : res Z :=
  match fuel with
  | O => NoFuel
  | S fuel =>
      if negb (m (format + amount) =? 0) && negb (m (format + amount) =? 37)
      then literal fuel format (amount + 1) m
      else mret amount
  end.

(** The text of a number, in the zero-initialised [char str[32]]. *)
Definition itoa_text (item : Z) : res (list Z) :=
  str ← stdlib.itoa item 0 10 (fun _ => 0); len ← string.strlen 80 0 str; mret (print 0 len str).
Definition htoa_text (item : Z) : res (list Z) :=
  let str := stdlib.htoa item 0 (fun _ => 0) in len ← string.strlen 80 0 str; mret (print 0 len str).

(** The loop of [printf_internal]; returns the result and the bytes printed. *)
Fixpoint printf_loop (fuel : nat) (format : Z) (args : list arg) (written : Z) (out : list Z) (m : bmem)
  : res (Z * list Z) :=
  match fuel with
  | O => NoFuel
  | S fuel =>
      if m format =? 0 then mret (written, out)
      else
        let maxrem := u64 (INT_MAX - written) in
        if negb (m format =? 37) || (m (format + 1) =? 37) then
          let format := if m format =? 37 then format + 1 else format in
          amount ← literal max format 1 m;
          if maxrem <? amount then mret (-1, out)
          else printf_loop fuel (format + amount) args (written + amount) (out ++ print format amount m) m
        else
          let format_begun_at := format in
          let format := format + 1 in
          if m format =? 99 then
            match args with
            | Aint c :: args =>
                if maxrem =? 0 then mret (-1, out)
                else printf_loop fuel (format + 1) args (written + 1) (out ++ [u8 c]) m
            | _ => Undef
            end
          else if m format =? 115 then
            match args with
            | Aptr str :: args =>
                len ← string.strlen max str m;
                if maxrem <? len then mret (-1, out)
                else printf_loop fuel (format + 1) args (written + len) (out ++ print str len m) m
            | _ => Undef
            end
          else if (m format =? 105) || (m format =? 100) then
            match args with
            | Aint item :: args =>
                text ← itoa_text item;
                let len := Z.of_nat (length text) in
                if maxrem <? len then mret (-1, out)
                else printf_loop fuel (format + 1) args (written + len) (out ++ text) m
            | _ => Undef
            end
          else if m format =? 120 then
            match args with
            | Au64 item :: args =>
                text ← htoa_text item;
                let len := Z.of_nat (length text) in
                if maxrem <? len then mret (-1, out)
                else printf_loop fuel (format + 1) args (written + len) (out ++ text) m
            | _ => Undef
            end
          else
            let format := format_begun_at in
            len ← string.strlen max format m;
            if maxrem <? len then mret (-1, out)
            else printf_loop fuel (format + len) args (written + len) (out ++ print format len m) m
  end.

Definition printf_internal (format : Z) (args : list arg) (m : bmem) : res (Z * list Z) :=
  printf_loop max format args 0 [] m.
End printf.
End stdio.

Module kernel_args.
(** [str_int] and [n_pairs]. *)
Record t := mk { str_int : Z; n_pairs : Z }.

Section args.
Context (max : nat).

(** Splitting the command line at its spaces, in place. *)
Definition init (str : Z) (m : bmem) : res (t * bmem) :=
  len ← string.strlen max str m;
  '(n_pairs, m) ← for_loop (Z.to_nat len) 0 (fun i s =>
    let '(n_pairs, m) := s in
    if (m (str + i) =? 32) || (m (str + i) =? 0)
    then mret (u64 (n_pairs + 1), write m (str + i) 0)
    else mret (n_pairs, m)) (0, m);
  mret (mk str (if len =? 0 then n_pairs else u64 (n_pairs + 1)), m).

(** The loop of [get_bool] and [get_str]: the first entry that matches, 0 if
    there is none. *)
Fixpoint find (n : nat) (current key : Z) (m : bmem) : res Z :=
  match n with
  | O => mret 0
  | S n =>
      len ← string.strlen max current m;
      klen ← string.strlen max key m;
      if string.memcmp current key (Z.min len klen) m =? 0 then mret current
      else find n (current + len + 1) key m
  end.

Definition get_bool (key : Z) (a : t) (m : bmem) : res bool :=
  r ← find (Z.to_nat (n_pairs a)) (str_int a) key m; mret (negb (r =? 0)).

Definition get_str (key : Z) (a : t) (m : bmem) : res Z :=
  r ← find (Z.to_nat (n_pairs a)) (str_int a) key m;
  if r =? 0 then mret 0 else klen ← string.strlen max key m; mret (r + klen + 1).
End args.
End kernel_args.

(** [debug_printf] (with DEBUG defined): the "debug" entry of the command line
    selects the writer; without one, output goes to the serial port, through a
    second copy of the loop of [printf_internal]. *)
Inductive writer := vga_writer | serial_writer.

(** The addresses of the string literals of [debug_printf]. *)
Record literals := mk_literals { lit_debug : Z; lit_vga : Z; lit_serial : Z; lit_unknown : Z }.

Definition debug_printf (max : nat) (lits : literals) (a : kernel_args.t) (format : Z) (args : list stdio.arg)
    (m : bmem) : res (writer * (Z * list Z)) :=
  log ← kernel_args.get_str max (lit_debug lits) a m;
  if log =? 0 then
    r ← stdio.printf_internal max format args m; mret (serial_writer, r)
  else
    is_vga ← string.strcmp max log (lit_vga lits) m;
    if is_vga =? 0 then r ← stdio.printf_internal max format args m; mret (vga_writer, r)
    else
      is_serial ← string.strcmp max log (lit_serial lits) m;
      if is_serial =? 0 then r ← stdio.printf_internal max format args m; mret (serial_writer, r)
      else r ← stdio.printf_internal max (lit_unknown lits) [stdio.Aptr log] m; mret (vga_writer, r).

(** ** Strings in memory *)

(** [m] holds the bytes [l] at [a]. *)
Definition bytes_at (m : bmem) (a : Z) (l : list Z) : Prop :=
  forall i c, l !! i = Some c -> m (a + Z.of_nat i) = c.

(** [m] holds the C string [s] at [a]. *)
Definition cstr (m : bmem) (a : Z) (s : list Z) : Prop :=
  bytes_at m a (s ++ [0]) /\ Forall (fun c => c <> 0) s.

(** [m'] differs from [m] at most in [n] bytes from [a]. *)
Definition only_at (a n : Z) (m m' : bmem) : Prop := forall x, ~ (a <= x < a + n) -> m' x = m x.

(** ** Lemmas *)

Section klibc_lemmas.
Implicit Types m : bmem.

Lemma write_eq m a v : write m a v a = v.
Proof. unfold write. by rewrite Z.eqb_refl. Qed.

Lemma write_ne m a v x : x <> a -> write m a v x = m x.
Proof. intros H. unfold write. by rewrite (proj2 (Z.eqb_neq x a) H). Qed.

Lemma only_at_refl a n m : only_at a n m m.
Proof. done. Qed.

Lemma only_at_trans a n m1 m2 m3 : only_at a n m1 m2 -> only_at a n m2 m3 -> only_at a n m1 m3.
Proof. intros H1 H2 x Hx. by rewrite H2, H1. Qed.

Lemma only_at_write a n b v m : a <= b < a + n -> only_at a n m (write m b v).
Proof. intros Hb x Hx. apply write_ne. lia. Qed.

Lemma only_at_mono a n b k m m' : only_at a n m m' -> b <= a -> a + n <= b + k -> only_at b k m m'.
Proof. intros H H1 H2 x Hx. apply H. lia. Qed.

Lemma bytes_at_cons m a c l : bytes_at m a (c :: l) <-> m a = c /\ bytes_at m (a + 1) l.
Proof.
  split.
  - intros H. split; [specialize (H 0%nat c eq_refl); by rewrite Z.add_0_r in H |].
    intros i d Hi. specialize (H (S i) d Hi). rewrite Nat2Z.inj_succ in H. rewrite <- H. f_equal. lia.
  - intros [H1 H2] [| i] d Hi; cbn in Hi.
    + injection Hi as <-. by rewrite Z.add_0_r.
    + specialize (H2 i d Hi). rewrite <- H2. f_equal. lia.
Qed.

Lemma bytes_at_app m a l1 l2 : bytes_at m a (l1 ++ l2) <-> bytes_at m a l1 /\ bytes_at m (a + Z.of_nat (length l1)) l2.
Proof.
  revert a. induction l1 as [| c l1 IH]; intros a; cbn [app length].
  - rewrite Z.add_0_r. split; [intros H; split; [by intros [] | done] | by intros [_ H]].
  - rewrite !bytes_at_cons, IH. replace (a + 1 + Z.of_nat (length l1)) with (a + Z.of_nat (S (length l1))) by lia.
    tauto.
Qed.

Lemma bytes_at_only m m' a l b n :
  bytes_at m a l -> only_at b n m m' -> a + Z.of_nat (length l) <= b \/ b + n <= a -> bytes_at m' a l.
Proof.
  intros H Ho Hd i c Hi. rewrite Ho; [by apply H |]. apply lookup_lt_Some in Hi. lia.
Qed.

(** An upward copy is correct when no byte is overwritten before it is read. *)
Lemma copy_up_ok n i dst src m :
  (forall j j', i <= j < j' -> j' < i + Z.of_nat n -> dst + j <> src + j') ->
  exists m', for_loop n i (fun i m => mret (write m (dst + i) (m (src + i)))) m = Ret m' /\
    forall x, m' x = if bool_decide (dst + i <= x < dst + i + Z.of_nat n) then m (src + (x - dst)) else m x.
Proof.
  revert i m. induction n as [| n IH]; intros i m Hno; cbn [for_loop].
  - exists m. split; [done |]. intros x. by rewrite bool_decide_false by lia.
  - cbn [mbind res_bind mret res_ret].
    destruct (IH (i + 1) (write m (dst + i) (m (src + i)))) as (m' & Hr & Hm').
    { intros j j' H1 H2. apply Hno; lia. }
    exists m'. split; [exact Hr |]. intros x. rewrite Hm'.
    destruct (decide (dst + (i + 1) <= x < dst + (i + 1) + Z.of_nat n)) as [Hx | Hx].
    + rewrite !bool_decide_true by lia. rewrite write_ne; [done |].
      intros E. apply (Hno i (x - dst)); lia.
    + rewrite bool_decide_false by done. destruct (decide (x = dst + i)) as [-> | Hne].
      * rewrite bool_decide_true by lia. rewrite write_eq. f_equal. lia.
      * rewrite bool_decide_false by lia. by rewrite write_ne.
Qed.

Lemma copy_down_ok n dst src m :
  src <= dst ->
  forall x, string.copy_down n dst src m x =
    if bool_decide (dst <= x < dst + Z.of_nat n) then m (src + (x - dst)) else m x.
Proof.
  intros Hle. revert m. induction n as [| n IH]; intros m x; cbn [string.copy_down].
  - by rewrite bool_decide_false by lia.
  - rewrite IH. destruct (decide (dst <= x < dst + Z.of_nat n)) as [Hx | Hx].
    + rewrite !bool_decide_true by lia. apply write_ne. lia.
    + rewrite bool_decide_false by done. destruct (decide (x = dst + (Z.of_nat (S n) - 1))) as [-> | Hne].
      * rewrite bool_decide_true by lia. rewrite write_eq. f_equal. lia.
      * rewrite bool_decide_false by lia. by rewrite write_ne.
Qed.

Lemma strlen_loop_ok fuel s a len m :
  cstr m (a + len) s -> (length s < fuel)%nat -> string.strlen_loop fuel a len m = Ret (len + Z.of_nat (length s)).
Proof.
  revert len s. induction fuel as [| fuel IH]; intros len s [Hb Hn] Hf; [lia |].
  cbn [string.strlen_loop]. destruct s as [| c s]; cbn [app length] in *; apply bytes_at_cons in Hb as [Hc Hb].
  - rewrite Hc. cbn. by rewrite Z.add_0_r.
  - apply Forall_cons in Hn as [Hc0 Hn]. rewrite Hc, (proj2 (Z.eqb_neq c 0) Hc0).
    rewrite (IH _ s); [f_equal; lia | | lia]. split; [by rewrite Z.add_assoc | done].
Qed.

Lemma strlen_ok fuel s a m : cstr m a s -> (length s < fuel)%nat -> string.strlen fuel a m = Ret (Z.of_nat (length s)).
Proof. intros H Hf. unfold string.strlen. by rewrite (strlen_loop_ok _ s) by (by rewrite ?Z.add_0_r). Qed.

(** The value of a list of digits, the lowest first. *)
Fixpoint number (base : Z) (ds : list Z) : Z :=
  match ds with [] => 0 | d :: ds => d + base * number base ds end.

Lemma digit_char_abs r : -36 < r < 36 -> stdlib.digit_char r = stdlib.digit_char (Z.abs r) /\ stdlib.digit_char r <> 0.
Proof.
  intros Hr. assert (Hin : r ∈ seqZ (-35) 71) by (apply elem_of_seqZ; lia). revert r Hin Hr.
  assert (H : Forall (fun r => stdlib.digit_char r = stdlib.digit_char (Z.abs r) /\ stdlib.digit_char r <> 0) (seqZ (-35) 71))
    by by_compute.
  rewrite Forall_forall in H. intros r Hin _. by apply H.
Qed.

Lemma itoa_digits_ok fuel v base ptr m :
  2 <= base <= 36 -> Z.abs v < 2 ^ Z.of_nat fuel -> (0 < fuel)%nat ->
  exists ds m', stdlib.itoa_digits fuel v base ptr m = Ret (ptr + Z.of_nat (length ds), m') /\
    (0 < length ds <= fuel)%nat /\ bytes_at m' ptr (stdlib.digit_char <$> ds) /\
    only_at ptr (Z.of_nat (length ds)) m m' /\ number base ds = Z.abs v /\ Forall (fun d => 0 <= d < base) ds.
Proof.
  revert v ptr m. induction fuel as [| fuel IH]; intros v ptr m Hb Hv Hf; [lia |]. cbn [stdlib.itoa_digits].
  assert (Hrem : Z.abs (Z.rem v base) < base) by (pose proof (Z.rem_bound_abs v base); lia).
  assert (Hqr : Z.abs v = Z.abs (Z.rem v base) + base * Z.abs (Z.quot v base)).
  { rewrite <- !Z.rem_abs, <- Z.quot_abs by lia. rewrite (Z.abs_eq base) by lia.
    rewrite Z.add_comm. apply Z.quot_rem'. }
  destruct (digit_char_abs (Z.rem v base)) as [Hd _]; [lia |].
  destruct (Z.eqb_spec (Z.quot v base) 0) as [E | E].
  - exists [Z.abs (Z.rem v base)]. eexists. split_and!; [reflexivity | cbn; lia.. | | | |].
    + cbn. apply bytes_at_cons. split; [by rewrite write_eq | by intros []].
    + apply only_at_write. cbn. lia.
    + cbn. lia.
    + constructor; [lia | constructor].
  - assert (Hq : Z.abs (Z.quot v base) < 2 ^ Z.of_nat fuel).
    { rewrite Nat2Z.inj_succ, Z.pow_succ_r in Hv by lia. nia. }
    assert (Hf' : (0 < fuel)%nat) by (destruct fuel; [cbn in Hq; lia | lia]).
    destruct (IH (Z.quot v base) (ptr + 1) (write m ptr (stdlib.digit_char (Z.rem v base))) Hb Hq Hf')
      as (ds & m' & Hr & Hl & Hby & Ho & Hn & Hds).
    exists (Z.abs (Z.rem v base) :: ds), m'. cbn [length fmap list_fmap number]. split_and!.
    + rewrite Hr. do 2 f_equal. lia.
    + lia.
    + lia.
    + apply bytes_at_cons. split; [| done]. rewrite Ho, write_eq by lia. done.
    + eapply (only_at_trans _ _ _ (write m ptr (stdlib.digit_char (Z.rem v base))));
        [apply only_at_write; lia |]. eapply only_at_mono; [exact Ho | lia..].
    + lia.
    + constructor; [lia | done].
Qed.

Lemma itoa_reverse_ok fuel low l m :
  bytes_at m low l -> (length l < 2 * fuel)%nat ->
  exists m', stdlib.itoa_reverse fuel low (low + Z.of_nat (length l) - 1) m = Ret m' /\
    bytes_at m' low (reverse l) /\ only_at low (Z.of_nat (length l)) m m'.
Proof.
  revert low l m. induction fuel as [| fuel IH]; intros low l m Hl Hf; [lia |]. cbn [stdlib.itoa_reverse].
  destruct l as [| x l]; [exists m; by rewrite (proj2 (Z.ltb_ge _ _)) by (cbn; lia) |].
  destruct l as [| y l _] using rev_ind.
  { exists m. rewrite (proj2 (Z.ltb_ge _ _)) by (cbn; lia). split_and!; done. }
  cbn [length] in *. rewrite length_app in *. cbn [length] in *.
  rewrite (proj2 (Z.ltb_lt _ _)) by lia.
  set (p := low + Z.of_nat (S (length l + 1)) - 1) in *.
  apply bytes_at_cons in Hl as [Hx Hl]. apply bytes_at_app in Hl as [Hl Hy]. apply bytes_at_cons in Hy as [Hy _].
  assert (Hp : p = low + 1 + Z.of_nat (length l)) by lia. rewrite <- Hp in Hy.
  set (m1 := write (write m low (m p)) p (m low)).
  assert (Hl1 : bytes_at m1 (low + 1) l).
  { intros i c Hi. unfold m1. assert (Hlt := lookup_lt_Some _ _ _ Hi). rewrite !write_ne by lia. by apply Hl. }
  destruct (decide (l = [])) as [-> | Hne].
  - exists m1. cbn in Hp. split_and!.
    + destruct fuel; cbn [length] in *; [lia |]. cbn [stdlib.itoa_reverse].
      by rewrite (proj2 (Z.ltb_ge _ _)) by lia.
    + cbn. apply bytes_at_cons. unfold m1. split; [rewrite write_ne, write_eq by lia; done |].
      apply bytes_at_cons. split; [| by intros []]. replace (low + 1) with p by lia. by rewrite write_eq.
    + intros z Hz. unfold m1. cbn in Hz. rewrite !write_ne by lia. done.
  - assert (1 <= length l)%nat by (destruct l; [done | cbn; lia]).
    destruct (IH (low + 1) l m1 Hl1) as (m' & Hr & Hrev & Ho); [lia |].
    exists m'. replace (p - 1) with (low + 1 + Z.of_nat (length l) - 1) by lia. split_and!; [exact Hr | |].
    + rewrite reverse_cons, reverse_snoc. cbn [app]. apply bytes_at_cons.
      rewrite Ho by lia. unfold m1 at 1. rewrite write_ne, write_eq by lia. split; [done |].
      apply bytes_at_app. split; [done |]. rewrite length_reverse, <- Hp. apply bytes_at_cons.
      split; [| by intros []]. rewrite Ho by lia. unfold m1. by rewrite write_eq.
    + intros z Hz. rewrite Ho by lia. unfold m1. rewrite !write_ne by lia. done.
Qed.

(** The text of [itoa]: an optional sign and the digits, highest first. *)
Lemma itoa_ok v str base m :
  - 2 ^ 63 <= v < 2 ^ 63 -> 2 <= base <= 36 ->
  exists m' ds, stdlib.itoa v str base m = Ret m' /\
    cstr m' str ((if (v <? 0) && (base =? 10) then [45] else []) ++ (stdlib.digit_char <$> reverse ds)) /\
    (0 < length ds <= 64)%nat /\ number base ds = Z.abs v /\ Forall (fun d => 0 <= d < base) ds /\
    only_at str 66 m m'.
Proof.
  intros Hv Hb. unfold stdlib.itoa. rewrite (proj2 (Z.ltb_ge base 2)), (proj2 (Z.ltb_ge 36 base)) by lia. cbn [orb].
  set (sign := if (v <? 0) && (base =? 10) then [45] else []).
  set (pm := if (v <? 0) && (base =? 10) then (str + 1, write m str 45) else (str, m)).
  assert (Hpm : exists m1, pm = (str + Z.of_nat (length sign), m1) /\ bytes_at m1 str sign /\
                  only_at str (Z.of_nat (length sign)) m m1 /\ (length sign <= 1)%nat).
  { unfold pm, sign. destruct (_ && _); eexists; (split; [f_equal; cbn; lia |]); split_and!; try (cbn; lia).
    - apply bytes_at_cons. split; [by rewrite write_eq | by intros []].
    - apply only_at_write. cbn. lia.
    - by intros [].
    - done. }
  destruct Hpm as (m1 & -> & Hs & Ho1 & Hl1). set (low := str + Z.of_nat (length sign)) in *.
  destruct (itoa_digits_ok 64 v base low m1) as (ds & m2 & Hd & Hl & Hby & Ho2 & Hn & Hds); [done | lia | lia |].
  rewrite Hd. cbn [mbind res_bind].
  set (p := low + Z.of_nat (length ds)) in *.
  destruct (itoa_reverse_ok 64 low (stdlib.digit_char <$> ds) (write m2 p 0)) as (m' & Hr & Hrev & Ho3).
  { eapply bytes_at_only; [exact Hby | apply (only_at_write p 1); lia | left; rewrite length_fmap; lia]. }
  { rewrite length_fmap. lia. }
  rewrite length_fmap in Hr, Ho3. exists m', ds. rewrite fmap_reverse. split_and!; try done; try lia.
  - split.
    + rewrite <- app_assoc. apply bytes_at_app. split.
      * eapply bytes_at_only; [| exact Ho3 | lia].
        eapply bytes_at_only; [| apply (only_at_write p 1); lia | lia].
        eapply bytes_at_only; [exact Hs | exact Ho2 | lia].
      * apply bytes_at_app. split; [done |]. rewrite length_reverse, length_fmap. apply bytes_at_cons.
        split; [| by intros []]. rewrite Ho3 by lia. apply write_eq.
    + apply Forall_app. split; [unfold sign; destruct (_ && _); by repeat constructor |].
      apply Forall_reverse, Forall_fmap. eapply Forall_impl; [exact Hds |]. intros d Hdd. cbn in Hdd.
      by apply digit_char_abs; lia.
  - intros x Hx. rewrite Ho3, write_ne, Ho2, Ho1 by lia. done.
Qed.

(** The text of [htoa]: the digits of [n] without leading zeros. *)
Lemma hex_char_nonzero d : 0 <= d -> stdlib.hex_char d <> 0.
Proof. intros Hd. unfold stdlib.hex_char. destruct (10 <=? d); lia. Qed.

Lemma land_15 x : Z.land x 15 = x mod 16.
Proof. change 15 with (Z.ones 4). by rewrite Z.land_ones by lia. Qed.

Lemma htoa_loop_ok k n str ds a m :
  bytes_at m a ([48; 120] ++ (stdlib.hex_char <$> reverse ds)) -> str = a + 2 + Z.of_nat (length ds) ->
  number 16 ds = n / 16 ^ (Z.of_nat k + 1) -> Forall (fun d => 0 <= d < 16) ds ->
  (number 16 ds = 0 -> ds = []) -> 0 <= n ->
  exists ds' m', stdlib.htoa_loop k n (4 * Z.of_nat k) str (bool_decide (ds <> [])) m
                 = (a + 2 + Z.of_nat (length ds'), m') /\
    bytes_at m' a ([48; 120] ++ (stdlib.hex_char <$> reverse ds')) /\ number 16 ds' = n / 16 /\
    Forall (fun d => 0 <= d < 16) ds' /\ (length ds <= length ds' <= length ds + k)%nat /\
    only_at a (2 + Z.of_nat (length ds')) m m'.
Proof.
  revert str ds m. induction k as [| k IH]; intros str ds m Hby -> Hn Hds Hz Hn0; cbn [stdlib.htoa_loop].
  - exists ds, m. rewrite Hn. split_and!; try done; try lia.
  - rewrite land_15. rewrite Z.shiftr_div_pow2 by lia.
    replace (2 ^ (4 * Z.of_nat (S k))) with (16 ^ (Z.of_nat k + 1))
      by (rewrite Z.pow_mul_r by lia; change (2 ^ 4) with 16; f_equal; lia).
    set (tmp := (n / 16 ^ (Z.of_nat k + 1)) mod 16).
    assert (Ht : 0 <= tmp < 16) by (apply Z.mod_pos_bound; lia).
    assert (Hnext : tmp + 16 * number 16 ds = n / 16 ^ (Z.of_nat k + 1)).
    { rewrite Hn. replace (Z.of_nat (S k) + 1) with (Z.of_nat k + 1 + 1) by lia.
      rewrite (Z.pow_add_r 16 (Z.of_nat k + 1) 1), Z.pow_1_r, <- Z.div_div by lia. unfold tmp.
      pose proof (Z.div_mod (n / 16 ^ (Z.of_nat k + 1)) 16). lia. }
    replace (4 * Z.of_nat (S k) - 4) with (4 * Z.of_nat k) by lia.
    assert (Hnum : 0 <= number 16 ds) by (rewrite Hn; apply Z.div_pos; lia).
    destruct ((tmp =? 0) && negb (bool_decide (ds <> []))) eqn:E.
    + apply andb_true_iff in E as [E1%Z.eqb_eq E2].
      assert (ds = []) as -> by (destruct ds; [done | cbn in E2; done]).
      destruct (IH (a + 2 + Z.of_nat (length (@nil Z))) [] m) as (ds' & m' & H1 & H2 & H3 & H4 & H5 & H6); try done.
      { cbn in Hnext |- *. lia. }
      exists ds', m'. split_and!; try done; cbn in *; lia.
    + set (m1 := write m (a + 2 + Z.of_nat (length ds)) (stdlib.hex_char tmp)).
      assert (Hlen : length ([48; 120] ++ (stdlib.hex_char <$> reverse ds)) = (2 + length ds)%nat)
        by (rewrite length_app, length_fmap, length_reverse; done).
      destruct (IH (a + 2 + Z.of_nat (length ds) + 1) (tmp :: ds) m1) as (ds' & m' & H1 & H2 & H3 & H4 & H5 & H6).
      * rewrite reverse_cons, fmap_app, (assoc_L (++)). apply bytes_at_app. rewrite Hlen. split.
        { eapply bytes_at_only; [exact Hby | apply (only_at_write (a + 2 + Z.of_nat (length ds)) 1); lia | left; rewrite Hlen; lia]. }
        cbn. apply bytes_at_cons. split; [| by intros []]. unfold m1.
        replace (a + Z.of_nat (S (S (length ds)))) with (a + 2 + Z.of_nat (length ds)) by lia. apply write_eq.
      * cbn. lia.
      * cbn [number]. exact Hnext.
      * by constructor.
      * cbn [number]. intros H0. exfalso. apply andb_false_iff in E as [E%Z.eqb_neq | E]; [lia |].
        apply negb_false_iff, bool_decide_eq_true in E. apply E, Hz. lia.
      * done.
      * rewrite bool_decide_true in H1 by done. exists ds', m'. split_and!; try done; [cbn in H5; lia.. |].
        intros x Hx. rewrite H6 by done. unfold m1.
        cbn in H5.
        apply write_ne. lia.
Qed.

Lemma htoa_ok n str m :
  0 <= n < 2 ^ 64 ->
  exists ds, bytes_at (stdlib.htoa n str m) str ([48; 120] ++ (stdlib.hex_char <$> reverse ds)) /\
    number 16 ds = n /\ Forall (fun d => 0 <= d < 16) ds /\ (0 < length ds <= 16)%nat /\
    only_at str (2 + Z.of_nat (length ds)) m (stdlib.htoa n str m).
Proof.
  intros Hn. unfold stdlib.htoa.
  set (m0 := write (write m str 48) (str + 1) 120).
  assert (Hb0 : bytes_at m0 str [48; 120]).
  { apply bytes_at_cons. unfold m0. split; [by rewrite write_ne, write_eq by lia |].
    apply bytes_at_cons. split; [apply write_eq | by intros []]. }
  destruct (htoa_loop_ok 15 n (str + 2) [] str m0) as (ds & m' & Hl & Hby & Hnum & Hds & Hlen & Ho);
    [done | cbn; lia | | done | done | lia |].
  { cbn [number]. rewrite Z.div_small; [done |]. change (16 ^ (Z.of_nat 15 + 1)) with (2 ^ 64). lia. }
  change (4 * Z.of_nat 15) with 60 in Hl. rewrite bool_decide_false in Hl by (intros H; by apply H). rewrite Hl.
  exists (Z.land n 15 :: ds). cbn [length] in Hlen |- *. rewrite reverse_cons, fmap_app, (assoc_L (++)).
  rewrite land_15. assert (0 <= n mod 16 < 16) by (apply Z.mod_pos_bound; lia).
  assert (Hlen2 : length ([48; 120] ++ (stdlib.hex_char <$> reverse ds)) = (2 + length ds)%nat)
    by (rewrite length_app, length_fmap, length_reverse; done).
  split_and!; try lia.
  - apply bytes_at_app. rewrite Hlen2. split.
    + eapply bytes_at_only; [exact Hby | apply (only_at_write (str + 2 + Z.of_nat (length ds)) 1); lia | left; rewrite Hlen2; lia].
    + cbn. apply bytes_at_cons. split; [| by intros []].
      replace (str + Z.of_nat (S (S (length ds)))) with (str + 2 + Z.of_nat (length ds)) by lia. apply write_eq.
  - cbn [number]. rewrite Hnum. pose proof (Z.div_mod n 16). lia.
  - by constructor.
  - intros x Hx. rewrite write_ne, Ho by lia. unfold m0. rewrite !write_ne by lia. done.
Qed.

(** ** Lemmas: formatted output *)

Lemma print_bytes m a l : bytes_at m a l -> stdio.print a (Z.of_nat (length l)) m = l.
Proof.
  intros H. unfold stdio.print. apply list_eq. intros i. rewrite list_lookup_fmap.
  destruct (decide (i < length l)%nat) as [Hi | Hi].
  - rewrite lookup_seqZ_lt by lia. cbn. destruct (lookup_lt_is_Some_2 _ _ Hi) as [c Hc].
    rewrite Hc. f_equal. by apply H.
  - rewrite lookup_seqZ_ge by lia. symmetry. apply lookup_ge_None. lia.
Qed.

(** The decimal text of an [int] and the hexadecimal text of a [uint64_t]. *)
Definition dec_text (v : Z) (t : list Z) : Prop :=
  exists ds, t = (if v <? 0 then [45] else []) ++ (stdlib.digit_char <$> reverse ds) /\
    number 10 ds = Z.abs v /\ Forall (fun d => 0 <= d < 10) ds.
Definition hex_text (v : Z) (t : list Z) : Prop :=
  exists ds, t = [48; 120] ++ (stdlib.hex_char <$> reverse ds) /\ number 16 ds = v /\ Forall (fun d => 0 <= d < 16) ds.

Lemma itoa_text_ok v : - 2 ^ 63 <= v < 2 ^ 63 -> exists t, stdio.itoa_text v = Ret t /\ dec_text v t.
Proof.
  intros Hv. destruct (itoa_ok v 0 10 (fun _ => 0)) as (m' & ds & Hi & Hc & Hl & Hn & Hd & _); [done | lia |].
  unfold stdio.itoa_text. rewrite Hi. cbn [mbind res_bind]. rewrite andb_true_r in Hc.
  set (s := _ ++ _) in Hc. assert (Hs : (length s < 80)%nat).
  { unfold s. rewrite length_app, length_fmap, length_reverse. destruct (v <? 0); cbn; lia. }
  rewrite (strlen_ok 80 s) by done. cbn [mbind res_bind].
  exists s. split; [| by exists ds]. f_equal. apply print_bytes. destruct Hc as [Hc _].
  by apply bytes_at_app in Hc as [Hc _].
Qed.

Lemma htoa_text_ok v : 0 <= v < 2 ^ 64 -> exists t, stdio.htoa_text v = Ret t /\ hex_text v t.
Proof.
  intros Hv. destruct (htoa_ok v 0 (fun _ => 0)) as (ds & Hb & Hn & Hd & Hl & Ho); [done |].
  unfold stdio.htoa_text. set (s := _ ++ _) in Hb.
  assert (Hs : length s = (2 + length ds)%nat) by (unfold s; rewrite length_app, length_fmap, length_reverse; done).
  rewrite (strlen_ok 80 s); [| split | lia].
  - cbn [mbind res_bind]. exists s. split; [| by exists ds]. f_equal. by apply print_bytes.
  - apply bytes_at_app. split; [done |]. rewrite Hs. apply bytes_at_cons. split; [| by intros []]. apply Ho. lia.
  - unfold s. apply Forall_app. split; [by repeat constructor |]. apply Forall_fmap, Forall_reverse.
    eapply Forall_impl; [exact Hd |]. intros d Hdd. apply hex_char_nonzero. cbn in Hdd. lia.
Qed.

(** The reference: what a format and its arguments stand for, character by
    character.  An unknown conversion prints the rest of the format. *)
Inductive rarg := Rint (v : Z) | Ru64 (v : Z) | Rstr (s : list Z).

Definition text_of (r : res (list Z)) : option (list Z) := match r with Ret t => Some t | _ => None end.

Fixpoint render (f : list Z) (args : list rarg) : option (list Z) :=
  match f with
  | [] => Some []
  | c :: f' =>
      if c =? 37 then
        match f' with
        | [] => Some [37]
        | d :: f'' =>
            if d =? 37 then cons 37 <$> render f'' args
            else if d =? 99 then
              match args with Rint v :: args => cons (u8 v) <$> render f'' args | _ => None end
            else if d =? 115 then
              match args with Rstr s :: args => app s <$> render f'' args | _ => None end
            else if (d =? 105) || (d =? 100) then
              match args with
              | Rint v :: args => t ← text_of (stdio.itoa_text v); app t <$> render f'' args
              | _ => None
              end
            else if d =? 120 then
              match args with
              | Ru64 v :: args => t ← text_of (stdio.htoa_text v); app t <$> render f'' args
              | _ => None
              end
            else Some (c :: f')
        end
      else cons c <$> render f' args
  end.

(** The concrete arguments of a call: strings are in memory. *)
Definition arg_in (max : nat) m (a : stdio.arg) (r : rarg) : Prop :=
  match a, r with
  | stdio.Aint v, Rint w => v = w
  | stdio.Au64 v, Ru64 w => v = w
  | stdio.Aptr p, Rstr s => cstr m p s /\ (length s < max)%nat
  | _, _ => False
  end.

Lemma cstr_tail m a l s : cstr m a (l ++ s) -> cstr m (a + Z.of_nat (length l)) s.
Proof.
  intros [H1 H2]. rewrite <- app_assoc in H1. apply bytes_at_app in H1 as [_ H1].
  apply Forall_app in H2 as [_ H2]. by split.
Qed.

Lemma cstr_head m a l s : cstr m a (l ++ s) -> bytes_at m a l.
Proof. intros [H1 _]. rewrite <- app_assoc in H1. by apply bytes_at_app in H1 as [H1 _]. Qed.

Lemma cstr_at m a s : cstr m a s -> m a = match s with c :: _ => c | [] => 0 end.
Proof. intros [H _]. destruct s; by apply bytes_at_cons in H as [H _]. Qed.

Lemma cstr_cons m a c s : cstr m a (c :: s) -> m a = c /\ c <> 0 /\ cstr m (a + 1) s.
Proof.
  intros H. split_and!; [exact (cstr_at _ _ _ H) | by destruct H as [_ [? _]%Forall_cons] |].
  exact (cstr_tail m a [c] s H).
Qed.

Lemma literal_ok fuel m format k lit rest :
  cstr m (format + k) (lit ++ rest) -> Forall (fun c => c <> 37) lit ->
  match rest with [] => True | c :: _ => c = 37 end -> (length lit < fuel)%nat ->
  stdio.literal fuel format k m = Ret (k + Z.of_nat (length lit)).
Proof.
  revert k fuel. induction lit as [| c lit IH]; intros k [| fuel] Hc Hl Hr Hf; cbn [length] in *; try lia;
    cbn [stdio.literal].
  - rewrite (cstr_at _ _ _ Hc). cbn [app]. rewrite Z.add_0_r. destruct rest as [| d rest]; [done |]. by subst.
  - cbn [app] in Hc. apply cstr_cons in Hc as (Hm & H0 & Hc). apply Forall_cons in Hl as [H37 Hl].
    rewrite Hm, (proj2 (Z.eqb_neq c 0) H0), (proj2 (Z.eqb_neq c 37) H37). cbn [negb andb].
    rewrite IH; [f_equal; lia | by rewrite Z.add_assoc | done | done | lia].
Qed.

(** A format splits into a literal run and a rest that starts with a percent sign. *)
Lemma literal_split (f : list Z) :
  exists lit rest, f = lit ++ rest /\ Forall (fun c => c <> 37) lit /\ match rest with [] => True | c :: _ => c = 37 end.
Proof.
  induction f as [| c f (lit & rest & -> & Hl & Hr)]; [by exists [], [] |].
  destruct (decide (c = 37)) as [-> | Hc]; [by exists [], (37 :: lit ++ rest) |].
  exists (c :: lit), rest. split_and!; [done | by constructor | done].
Qed.

Lemma render_app lit rest args :
  Forall (fun c => c <> 37) lit -> render (lit ++ rest) args = app lit <$> render rest args.
Proof.
  induction lit as [| c lit IH]; intros Hl; cbn [app].
  - by destruct (render rest args).
  - apply Forall_cons in Hl as [Hc Hl]. cbn [render]. rewrite (proj2 (Z.eqb_neq c 37) Hc), IH by done.
    by destruct (render rest args).
Qed.

Lemma maxrem_ok written len :
  0 <= written -> 0 <= len -> written + len <= stdio.INT_MAX -> (u64 (stdio.INT_MAX - written) <? len) = false.
Proof. intros H1 H2 H3. apply Z.ltb_ge. unfold stdio.INT_MAX in *. rewrite u64_small; unfold is_u64; lia. Qed.

Lemma fmap_app_Some (t : list Z) (o : option (list Z)) out :
  app t <$> o = Some out -> exists out', o = Some out' /\ out = t ++ out'.
Proof. destruct o as [out' |]; [| done]. intros [= <-]. eauto. Qed.

(** The statement that the loop proof carries, for formats shorter than [n]. *)
Definition printf_correct (max : nat) m (n : nat) : Prop :=
  forall f format args rargs written acc out,
    (length f < n)%nat -> (length f < max)%nat -> cstr m format f -> Forall2 (arg_in max m) args rargs ->
    render f rargs = Some out -> 0 <= written -> written + Z.of_nat (length out) <= stdio.INT_MAX ->
    stdio.printf_loop max n format args written acc m = Ret (written + Z.of_nat (length out), acc ++ out).

(** Continuing after a chunk [t] was printed. *)
Lemma printf_continue max m n f format args rargs written acc t out len :
  printf_correct max m n -> (length f < n)%nat -> (length f < max)%nat -> cstr m format f ->
  Forall2 (arg_in max m) args rargs -> app t <$> render f rargs = Some out -> 0 <= written ->
  written + Z.of_nat (length out) <= stdio.INT_MAX -> len = Z.of_nat (length t) ->
  (u64 (stdio.INT_MAX - written) <? len) = false /\ (u64 (stdio.INT_MAX - written) =? 0) = bool_decide (written = stdio.INT_MAX) /\
  stdio.printf_loop max n format args (written + len) (acc ++ t) m = Ret (written + Z.of_nat (length out), acc ++ out).
Proof.
  intros IH H1 H2 Hc Ha Hr Hw Hmax ->. apply fmap_app_Some in Hr as (out' & Hr & ->). rewrite length_app in Hmax.
  split_and!.
  - apply maxrem_ok; lia.
  - unfold stdio.INT_MAX in *. rewrite u64_small by (unfold is_u64; lia). case_bool_decide; lia.
  - rewrite (IH f format args rargs _ _ out') by (done || lia). rewrite length_app, (assoc_L (++)). do 2 f_equal. lia.
Qed.

(** A literal chunk: the character at [format] and the run after it. *)
Lemma printf_literal max m n c f format args rargs written acc out :
  printf_correct max m n -> (S (length f) <= n)%nat -> (length f < max)%nat -> cstr m format (c :: f) ->
  Forall2 (arg_in max m) args rargs -> cons c <$> render f rargs = Some out -> 0 <= written ->
  written + Z.of_nat (length out) <= stdio.INT_MAX ->
  (amount ← stdio.literal max format 1 m;
   if u64 (stdio.INT_MAX - written) <? amount then mret (-1, acc)
   else stdio.printf_loop max n (format + amount) args (written + amount) (acc ++ stdio.print format amount m) m)
  = Ret (written + Z.of_nat (length out), acc ++ out).
Proof.
  intros IH Hn Hmax Hc Ha Hr Hw Hout. destruct (literal_split f) as (lit & rest & -> & Hl & Hrest).
  rewrite length_app in *. assert (Hc' := proj2 (proj2 (cstr_cons _ _ _ _ Hc))).
  rewrite (literal_ok max m format 1 lit rest) by (done || lia). cbn [mbind res_bind].
  assert (Hlen : 1 + Z.of_nat (length lit) = Z.of_nat (length (c :: lit))) by (cbn; lia). rewrite Hlen.
  rewrite (print_bytes m format (c :: lit)) by (by apply (cstr_head _ _ (c :: lit) rest)).
  rewrite render_app in Hr by done.
  destruct (printf_continue max m n rest (format + Z.of_nat (length (c :: lit))) args rargs written acc (c :: lit) out
              (Z.of_nat (length (c :: lit)))) as (H1 & _ & H2); try done; try lia.
  - by apply (cstr_tail _ _ (c :: lit) rest).
  - rewrite <- Hr. by destruct (render rest rargs).
  - by rewrite H1.
Qed.

Lemma printf_loop_ok max m n : printf_correct max m n.
Proof.
  induction n as [| n IH]; intros f format args rargs written acc out Hf Hmax Hc Ha Hr Hw Hout; [lia |].
  cbn [stdio.printf_loop]. destruct f as [| c f].
  { rewrite (cstr_at _ _ _ Hc). cbn. injection Hr as <-. cbn. by rewrite Z.add_0_r, app_nil_r. }
  destruct (cstr_cons _ _ _ _ Hc) as (Hm & H0 & Hc1). rewrite Hm, (proj2 (Z.eqb_neq c 0) H0). cbn [length] in *.
  cbn [render] in Hr. destruct (Z.eqb_spec c 37) as [-> | Hc37]; cbn [negb orb].
  2:{ eapply printf_literal; eauto; lia. }
  rewrite (cstr_at _ _ _ Hc1). destruct f as [| d f]; cbn [Z.eqb].
  { cbn. injection Hr as <-. rewrite (strlen_ok max [37]) by (done || cbn in *; lia). cbn [mbind res_bind].
    rewrite (print_bytes m format [37]) by (by apply (cstr_head _ _ [37] [])).
    destruct (printf_continue max m n [] (format + 1) args rargs written acc [37] [37] 1) as (H1 & _ & H2);
      try done; cbn in *; try lia. change (Z.of_nat 1) with 1 in *. by rewrite H1. }
  destruct (cstr_cons _ _ _ _ Hc1) as (Hd & Hd0 & Hc2). cbn [length] in *.
  destruct (Z.eqb_spec d 37) as [-> | Hd37]; [eapply printf_literal; eauto; cbn in *; lia |].
  destruct (Z.eqb_spec d 99) as [-> | Hd99].
  { destruct Ha as [| [v | |] [w | |] args rargs Ha1 Ha]; try done. cbn in Ha1. subst w.
    destruct (printf_continue max m n f (format + 1 + 1) args rargs written acc [u8 v] out 1) as (H1 & H2 & H3);
      try done; try lia. rewrite H2. destruct (bool_decide_reflect (written = stdio.INT_MAX)) as [-> |]; [| done].
    apply (fmap_app_Some [u8 v]) in Hr as (out' & _ & ->). cbn in Hout. lia. }
  destruct (Z.eqb_spec d 115) as [-> | Hd115].
  { destruct Ha as [| [| | p] [| | s] args rargs Ha1 Ha]; try done. destruct Ha1 as [Hs Hlen].
    rewrite (strlen_ok max s) by done. cbn [mbind res_bind].
    rewrite (print_bytes m p s) by (by apply (cstr_head _ _ s []); rewrite app_nil_r).
    destruct (printf_continue max m n f (format + 1 + 1) args rargs written acc s out (Z.of_nat (length s)))
      as (H1 & _ & H3); try done; try lia. by rewrite H1. }
  destruct ((d =? 105) || (d =? 100)).
  { destruct Ha as [| [v | |] [w | |] args rargs Ha1 Ha]; try done. cbn in Ha1. subst w.
    destruct (stdio.itoa_text v) as [t | | |]; try done. cbn [mbind res_bind option_bind text_of] in Hr |- *.
    destruct (printf_continue max m n f (format + 1 + 1) args rargs written acc t out (Z.of_nat (length t)))
      as (H1 & _ & H3); try done; try lia. by rewrite H1. }
  destruct (Z.eqb_spec d 120) as [-> | Hd120].
  { destruct Ha as [| [| v |] [| w |] args rargs Ha1 Ha]; try done. cbn in Ha1. subst w.
    destruct (stdio.htoa_text v) as [t | | |]; try done. cbn [mbind res_bind option_bind text_of] in Hr |- *.
    destruct (printf_continue max m n f (format + 1 + 1) args rargs written acc t out (Z.of_nat (length t)))
      as (H1 & _ & H3); try done; try lia. by rewrite H1. }
  injection Hr as <-. rewrite (strlen_ok max (37 :: d :: f)) by (done || cbn; lia). cbn [mbind res_bind].
  rewrite (print_bytes m format (37 :: d :: f)) by (by apply (cstr_head _ _ _ []); rewrite app_nil_r).
  destruct (printf_continue max m n [] (format + Z.of_nat (length (37 :: d :: f))) args rargs written acc
              (37 :: d :: f) (37 :: d :: f) (Z.of_nat (length (37 :: d :: f)))) as (H1 & _ & H3); try done; cbn [length] in *; try lia.
  - apply (cstr_tail _ _ (37 :: d :: f) []). by rewrite app_nil_r.
  - cbn. by rewrite app_nil_r.
  - by rewrite H1.
Qed.

(** ** Lemmas: the kernel command line *)

Lemma memcmp_loop_ok n i a b m :
  string.memcmp_loop n i a b m = 0 <-> (forall j, i <= j < i + Z.of_nat n -> m (a + j) = m (b + j)).
Proof.
  revert i. induction n as [| n IH]; intros i; cbn [string.memcmp_loop].
  - split; [lia | done].
  - destruct (Z.ltb_spec (m (a + i)) (m (b + i))); [| destruct (Z.ltb_spec (m (b + i)) (m (a + i)))].
    + split; [done |]. intros H1. specialize (H1 i). lia.
    + split; [done |]. intros H1. specialize (H1 i). lia.
    + rewrite IH. split; intros Hj j Hr; [| apply Hj; lia].
      destruct (decide (j = i)) as [-> |]; [lia | apply Hj; lia].
Qed.

(** An entry matches a key when one of the two is a prefix of the other. *)
Definition matches (w k : list Z) : Prop := w `prefix_of` k \/ k `prefix_of` w.

#[local] Instance matches_dec w k : Decision (matches w k).
Proof. unfold matches. apply _. Defined.

Lemma prefix_lookup_all (w k : list Z) :
  (length w <= length k)%nat ->
  w `prefix_of` k <-> (forall i c d, w !! i = Some c -> k !! i = Some d -> c = d).
Proof.
  intros Hl. split.
  - intros [l ->] i c d Hc. rewrite lookup_app_l by (by eapply lookup_lt_Some). congruence.
  - intros H. exists (drop (length w) k). rewrite <- (take_drop (length w) k) at 1. f_equal.
    apply list_eq. intros i. destruct (decide (i < length w)%nat) as [Hi | Hi].
    + rewrite lookup_take_lt by done. destruct (lookup_lt_is_Some_2 _ _ Hi) as [c Hc].
      destruct (lookup_lt_is_Some_2 k i) as [d Hd]; [lia |]. rewrite Hc, Hd. f_equal. symmetry. by eapply H.
    + rewrite lookup_take_ge by lia. symmetry. apply lookup_ge_None. lia.
Qed.

Lemma memcmp_prefix m a b w k :
  cstr m a w -> cstr m b k -> (length w <= length k)%nat ->
  (forall j, 0 <= j < Z.of_nat (length w) -> m (a + j) = m (b + j)) <-> w `prefix_of` k.
Proof.
  intros [Hw _] [Hk _] Hl. apply bytes_at_app in Hw as [Hw _], Hk as [Hk _].
  rewrite prefix_lookup_all by done. split.
  - intros H i c d Hc Hd. rewrite <- (Hw _ _ Hc), <- (Hk _ _ Hd). apply H. apply lookup_lt_Some in Hc. lia.
  - intros H j Hj. destruct (lookup_lt_is_Some_2 w (Z.to_nat j)) as [c Hc]; [lia |].
    destruct (lookup_lt_is_Some_2 k (Z.to_nat j)) as [d Hd]; [lia |].
    assert (H1 := Hw _ _ Hc). assert (H2 := Hk _ _ Hd). rewrite Z2Nat.id in H1, H2 by lia.
    rewrite H1, H2. by eapply H.
Qed.

Lemma memcmp_matches m a b w k :
  cstr m a w -> cstr m b k ->
  string.memcmp a b (Z.min (Z.of_nat (length w)) (Z.of_nat (length k))) m = 0 <-> matches w k.
Proof.
  intros Hw Hk. unfold string.memcmp. rewrite memcmp_loop_ok, Z2Nat.id, Z.add_0_l by lia. unfold matches.
  destruct (decide (length w <= length k)%nat) as [Hl | Hl].
  - rewrite Z.min_l by lia. rewrite (memcmp_prefix m a b w k) by done. split; [by left |]. intros [H | H]; [done |].
    assert (Hlen := prefix_length _ _ H). destruct H as [l ->]. rewrite length_app in Hlen, Hl.
    destruct l; [by rewrite app_nil_r | cbn in Hl; lia].
  - rewrite Z.min_r by lia. split.
    + intros H. right. rewrite <- (memcmp_prefix m b a k w) by (done || lia). intros j Hj. symmetry. by apply H.
    + intros [H | H] j Hj; symmetry; [apply prefix_length in H; lia |].
      by apply (proj2 (memcmp_prefix m b a k w Hk Hw ltac:(lia)) H).
Qed.

(** The entries of a command line after [init], one after the other. *)
Fixpoint words_at m (a : Z) (ws : list (list Z)) : Prop :=
  match ws with
  | [] => True
  | w :: ws => cstr m a w /\ words_at m (a + Z.of_nat (length w) + 1) ws
  end.

Fixpoint first_match (a : Z) (ws : list (list Z)) (k : list Z) : Z :=
  match ws with
  | [] => 0
  | w :: ws => if decide (matches w k) then a else first_match (a + Z.of_nat (length w) + 1) ws k
  end.

Lemma find_ok max m a ws key k :
  words_at m a ws -> Forall (fun w => length w < max)%nat ws -> cstr m key k -> (length k < max)%nat ->
  kernel_args.find max (length ws) a key m = Ret (first_match a ws k).
Proof.
  intros Hws Hlen Hk Hkl. revert a Hws. induction Hlen as [| w ws Hw _ IH]; intros a Hws; [done |].
  destruct Hws as [Hc Hws]. cbn [length kernel_args.find first_match].
  rewrite (strlen_ok max w a m) by done. cbn [mbind res_bind].
  rewrite (strlen_ok max k key m) by done. cbn [mbind res_bind].
  destruct (decide (matches w k)) as [Hm | Hm].
  - rewrite (proj2 (Z.eqb_eq _ _)); [done |]. by apply memcmp_matches.
  - rewrite (proj2 (Z.eqb_neq _ _)); [by apply IH |]. by rewrite memcmp_matches.
Qed.

(** The command line: words separated by one space. *)
Fixpoint join (ws : list (list Z)) : list Z :=
  match ws with
  | [] => []
  | [w] => w
  | w :: ws => w ++ 32 :: join ws
  end.

Definition blank (c : Z) : Z := if c =? 32 then 0 else c.
Definition clean (w : list Z) : Prop := Forall (fun c => c <> 0 /\ c <> 32) w.
Definition spaces (l : list Z) : nat := length (filter (fun c => c = 32) l).

Lemma args_init_loop_ok str l : forall i n m,
  bytes_at m (str + i) l -> Forall (fun c => c <> 0) l -> 0 <= n -> n + Z.of_nat (length l) < 2 ^ 64 ->
  exists m', for_loop (length l) i (fun i s =>
      let '(n_pairs, m) := s in
      if (m (str + i) =? 32) || (m (str + i) =? 0)
      then mret (u64 (n_pairs + 1), write m (str + i) 0) else mret (n_pairs, m)) (n, m)
    = Ret (n + Z.of_nat (spaces l), m') /\
    bytes_at m' (str + i) (blank <$> l) /\ only_at (str + i) (Z.of_nat (length l)) m m'.
Proof.
  induction l as [| c l IH]; intros i n m Hb Hn Hn0 Hmax; cbn [length for_loop].
  { exists m. rewrite Z.add_0_r. split_and!; [done | by intros [] | done]. }
  apply bytes_at_cons in Hb as [Hc Hb]. apply Forall_cons in Hn as [Hc0 Hn]. cbn [length] in Hmax.
  rewrite Hc, (proj2 (Z.eqb_neq c 0) Hc0), orb_false_r. rewrite <- Z.add_assoc in Hb.
  unfold spaces. rewrite filter_cons. cbn [fmap list_fmap]. unfold blank at 1.
  destruct (Z.eqb_spec c 32) as [-> | Hc32].
  - rewrite (decide_True (P := 32 = 32)) by done. rewrite bind_mret, u64_small by (unfold is_u64; lia).
    destruct (IH (i + 1) (n + 1) (write m (str + i) 0)) as (m' & Hr & Hb' & Ho); [| done | lia | lia |].
    { eapply bytes_at_only; [exact Hb | apply (only_at_write (str + i) 1); lia | lia]. }
    exists m'. split_and!.
    + rewrite Hr. f_equal. f_equal. unfold spaces. cbn [length]. lia.
    + apply bytes_at_cons. rewrite Ho, write_eq, <- Z.add_assoc by lia. done.
    + intros x Hx. rewrite Ho, write_ne by lia. done.
  - rewrite decide_False by done. rewrite bind_mret.
    destruct (IH (i + 1) n m) as (m' & Hr & Hb' & Ho); [done | done | lia | lia |].
    exists m'. split_and!; [done | |].
    + apply bytes_at_cons. rewrite Ho, <- Z.add_assoc by lia. done.
    + intros x Hx. apply Ho. lia.
Qed.

Lemma blank_clean w : clean w -> blank <$> w = w.
Proof.
  intros H. rewrite <- (list_fmap_id w) at 2. apply list_fmap_ext. intros i c Hi.
  assert (Hc := Forall_lookup_1 _ _ _ _ H Hi). unfold blank. cbn in *. by rewrite (proj2 (Z.eqb_neq c 32)) by lia.
Qed.

Lemma words_join m a ws :
  ws <> [] -> Forall clean ws -> bytes_at m a ((blank <$> join ws) ++ [0]) -> words_at m a ws.
Proof.
  intros _ Hc. revert a. induction Hc as [| w ws Hw Hc IH]; intros a Hb; [done |].
  assert (Hnz : Forall (fun c => c <> 0) w) by (eapply Forall_impl; [exact Hw |]; by intros c [? _]).
  destruct ws as [| w2 ws].
  - cbn [join] in Hb. rewrite blank_clean in Hb by done. cbn. done.
  - change (join (w :: w2 :: ws)) with (w ++ 32 :: join (w2 :: ws)) in Hb.
    rewrite fmap_app, blank_clean in Hb by done. cbn [fmap list_fmap] in Hb. change (blank 32) with 0 in Hb.
    rewrite <- app_assoc in Hb. cbn [app] in Hb.
    apply bytes_at_app in Hb as [Hb1 Hb]. apply bytes_at_cons in Hb as [Hb2 Hb3].
    split; [split; [| done] | by apply IH].
    apply bytes_at_app. split; [done |]. apply bytes_at_cons. split; [done | by intros []].
Qed.

Lemma spaces_join ws : ws <> [] -> Forall clean ws -> (spaces (join ws) + 1 = length ws)%nat.
Proof.
  intros Hne Hc. induction Hc as [| w ws Hw Hc IH]; [done |]. unfold spaces in *.
  assert (H0 : filter (fun c => c = 32) w = []).
  { clear -Hw. induction Hw as [| c w [_ Hc] _ IHw]; [done |]. by rewrite filter_cons, decide_False. }
  destruct ws as [| w2 ws]; [cbn [join]; by rewrite H0 |].
  change (join (w :: w2 :: ws)) with (w ++ 32 :: join (w2 :: ws)).
  rewrite filter_app, H0, filter_cons, decide_True by done. specialize (IH ltac:(done)). cbn [app length] in *. lia.
Qed.

Lemma join_nonzero ws : Forall clean ws -> Forall (fun c => c <> 0) (join ws).
Proof.
  induction 1 as [| w ws Hw Hc IH]; [constructor |].
  assert (Hnz : Forall (fun c => c <> 0) w) by (eapply Forall_impl; [exact Hw |]; by intros c [? _]).
  destruct ws; [done |]. apply Forall_app. split; [done |]. by constructor.
Qed.

Lemma first_match_zero a ws k : 0 < a -> first_match a ws k = 0 <-> ~ Exists (fun w => matches w k) ws.
Proof.
  revert a. induction ws as [| w ws IH]; intros a Ha; cbn [first_match]; [rewrite Exists_nil; tauto |].
  rewrite Exists_cons. destruct (decide (matches w k)); [split; [lia | tauto] |].
  rewrite IH by lia. tauto.
Qed.
End klibc_lemmas.

(** ** Theorems *)

(** A memory that holds the bytes [l] at [a] and zeros elsewhere. *)
Definition mem_of (a : Z) (l : list Z) : bmem :=
  fun x => if x <? a then 0 else default 0 (l !! Z.to_nat (x - a)).

Lemma mem_of_bytes a l : bytes_at (mem_of a l) a l.
Proof.
  intros i c Hi. unfold mem_of. rewrite (proj2 (Z.ltb_ge _ _)) by lia.
  replace (Z.to_nat (a + Z.of_nat i - a)) with i by lia. by rewrite Hi.
Qed.

(** [memmove] copies the source as it was before the call, for every overlap
    of the two regions, and changes nothing else; [memcpy] does so when the
    destination does not start inside the source. *)
Theorem memmove_correct (dst src n : Z) (m : bmem) :
  0 <= n ->
  (exists m', string.memmove dst src n m = Ret m' /\
     forall x, m' x = if bool_decide (dst <= x < dst + n) then m (src + (x - dst)) else m x) /\
  (dst <= src \/ src + n <= dst ->
   exists m', string.memcpy dst src n m = Ret m' /\
     forall x, m' x = if bool_decide (dst <= x < dst + n) then m (src + (x - dst)) else m x).
Proof.
  intros Hn.
  assert (Hup : dst <= src \/ src + n <= dst -> exists m',
    for_loop (Z.to_nat n) 0 (fun i m => mret (write m (dst + i) (m (src + i)))) m = Ret m' /\
     forall x, m' x = if bool_decide (dst <= x < dst + n) then m (src + (x - dst)) else m x).
  { intros Hd. destruct (copy_up_ok (Z.to_nat n) 0 dst src m) as (m' & Hr & Hm'); [lia |].
    exists m'. split; [done |]. intros x. by rewrite Hm', Z.add_0_r, Z2Nat.id by lia. }
  split; [| exact Hup]. unfold string.memmove. destruct (Z.ltb_spec dst src); [apply Hup; lia |].
  eexists. split; [reflexivity |]. intros x. by rewrite copy_down_ok, Z2Nat.id by lia.
Qed.

Lemma memmove_correct_witness :
  (exists m', string.memmove 102 100 5 (fun x => x) = Ret m' /\
     forall x, m' x = if bool_decide (102 <= x < 102 + 5) then 100 + (x - 102) else x) /\
  (102 <= 100 \/ 100 + 5 <= 102 ->
   exists m', string.memcpy 102 100 5 (fun x => x) = Ret m' /\
     forall x, m' x = if bool_decide (102 <= x < 102 + 5) then 100 + (x - 102) else x).
Proof. apply (memmove_correct 102 100 5 (fun x => x)). lia. Defined.

(** [itoa] terminates for every 64-bit value and base, and writes a
    terminated string of at most 65 characters: a minus sign (in base ten only)
    and the digits of the absolute value, highest first; it writes nowhere
    else. *)
Theorem itoa_correct (v str base : Z) (m : bmem) :
  - 2 ^ 63 <= v < 2 ^ 63 -> 2 <= base <= 36 ->
  exists m' ds, stdlib.itoa v str base m = Ret m' /\
    cstr m' str ((if (v <? 0) && (base =? 10) then [45] else []) ++ (stdlib.digit_char <$> reverse ds)) /\
    (0 < length ds <= 64)%nat /\ number base ds = Z.abs v /\ Forall (fun d => 0 <= d < base) ds /\
    only_at str 66 m m'.
Proof. apply itoa_ok. Qed.

Lemma itoa_correct_witness :
  exists m' ds, stdlib.itoa (-2147483648) 16 10 (fun _ => 7) = Ret m' /\
    cstr m' 16 ((if (-2147483648 <? 0) && (10 =? 10) then [45] else []) ++ (stdlib.digit_char <$> reverse ds)) /\
    (0 < length ds <= 64)%nat /\ number 10 ds = Z.abs (-2147483648) /\ Forall (fun d => 0 <= d < 10) ds /\
    only_at 16 66 (fun _ => 7) m'.
Proof. apply (itoa_correct (-2147483648) 16 10 (fun _ => 7)); lia. Defined.

(** [printf_internal] prints exactly the rendering of its format: literal
    text, "%%", characters, strings, signed decimal and unsigned hexadecimal
    numbers in order, the rest of the format verbatim from an unknown conversion
    on; it returns the number of characters.  (The rendering is undefined only
    when an argument is missing or has another type.) *)
Theorem printf_renders (max : nat) (m : bmem) (format : Z) (f : list Z) (args : list stdio.arg)
    (rargs : list rarg) (out : list Z) :
  cstr m format f -> (length f < max)%nat -> Forall2 (arg_in max m) args rargs ->
  render f rargs = Some out -> Z.of_nat (length out) <= stdio.INT_MAX ->
  stdio.printf_internal max format args m = Ret (Z.of_nat (length out), out).
Proof.
  intros Hc Hl Ha Hr Ho. unfold stdio.printf_internal.
  by rewrite (printf_loop_ok max m max f format args rargs 0 [] out) by (done || lia).
Qed.

(** [render "x=%d%%" [-42]]. *)
Lemma printf_renders_witness :
  stdio.printf_internal 10 100 [stdio.Aint (-42)] (mem_of 100 [120; 61; 37; 100; 37; 37; 0])
  = Ret (Z.of_nat 6, [120; 61; 45; 52; 50; 37]).
Proof.
  apply (printf_renders 10 (mem_of 100 [120; 61; 37; 100; 37; 37; 0]) 100 [120; 61; 37; 100; 37; 37]
           [stdio.Aint (-42)] [Rint (-42)] [120; 61; 45; 52; 50; 37]).
  - split; [apply mem_of_bytes | by_compute].
  - cbn. lia.
  - repeat constructor.
  - vm_compute. reflexivity.
  - unfold stdio.INT_MAX. cbn. lia.
Defined.

(** The kernel command line: after [init] on words separated by single
    spaces, a key is found exactly when some word is a prefix of the key or the
    key a prefix of the word (so "d" on the command line enables "debug"), and
    [get_str] returns the address one past the key in the first such word. *)
Theorem kernel_args_matches (max : nat) (m : bmem) (str key : Z) (ws : list (list Z)) (k : list Z) :
  0 < str -> Forall clean ws -> join ws <> [] -> (length (join ws) < max)%nat ->
  Z.of_nat (length (join ws)) + 1 < 2 ^ 64 -> Forall (fun w => length w < max)%nat ws ->
  cstr m str (join ws) -> cstr m key k -> (length k < max)%nat ->
  key + Z.of_nat (length k) < str \/ str + Z.of_nat (length (join ws)) <= key ->
  exists a m', kernel_args.init max str m = Ret (a, m') /\
    kernel_args.get_bool max key a m' = Ret (negb (first_match str ws k =? 0)) /\
    (first_match str ws k = 0 <-> ~ Exists (fun w => matches w k) ws) /\
    kernel_args.get_str max key a m' =
      Ret (if first_match str ws k =? 0 then 0 else first_match str ws k + Z.of_nat (length k) + 1).
Proof.
  intros Hstr Hcl Hne Hlen H64 Hws Hline Hkey Hk Hd. assert (Hws0 : ws <> []) by (by intros ->).
  unfold kernel_args.init. rewrite (strlen_ok max (join ws)) by done. cbn [mbind res_bind]. rewrite Nat2Z.id.
  assert (Hl := Hline). destruct Hl as [Hb Hnz]. apply bytes_at_app in Hb as [Hb Hend].
  destruct (args_init_loop_ok str (join ws) 0 0 m) as (m' & Hr & Hb' & Ho); [by rewrite Z.add_0_r | done | lia | lia |].
  rewrite Hr. cbn [mbind res_bind]. rewrite Z.add_0_r in Hb', Ho.
  assert (Hpos : (0 < length (join ws))%nat) by (destruct (join ws); [done | cbn; lia]).
  rewrite (proj2 (Z.eqb_neq _ _)) by lia. assert (Hsp := spaces_join ws Hws0 Hcl).
  rewrite u64_small by (unfold is_u64; pose proof (length_filter (fun c => c = 32) (join ws)); unfold spaces; lia).
  eexists _, m'. split; [reflexivity |].
  assert (Hfind : kernel_args.find max (length ws) str key m' = Ret (first_match str ws k)).
  { apply find_ok; [| done | | done].
    - apply words_join; [done | done |]. apply bytes_at_app. split; [done |]. rewrite length_fmap.
      eapply bytes_at_only; [exact Hend | exact Ho | lia].
    - destruct Hkey as [Hkb Hkn]. split; [| done]. eapply bytes_at_only; [exact Hkb | exact Ho |].
      rewrite length_app. cbn. lia. }
  assert (Hn : Z.to_nat (0 + Z.of_nat (spaces (join ws)) + 1) = length ws) by lia.
  unfold kernel_args.get_bool, kernel_args.get_str. cbn [kernel_args.n_pairs kernel_args.str_int].
  rewrite Hn, Hfind. cbn [mbind res_bind]. split_and!; [done | by apply first_match_zero |].
  destruct (first_match str ws k =? 0); [done |].
  rewrite (strlen_ok max k); [done | | done].
  destruct Hkey as [Hkb Hkn]. split; [| done]. eapply bytes_at_only; [exact Hkb | exact Ho |].
  rewrite length_app. cbn. lia.
Qed.

(** The words "a" and "d" with the key "debug". *)
Lemma kernel_args_matches_witness :
  let m := mem_of 100 ([97; 32; 100] ++ [0] ++ [100; 101; 98; 117; 103] ++ [0]) in
  exists a m', kernel_args.init 10 100 m = Ret (a, m') /\
    kernel_args.get_bool 10 104 a m' = Ret (negb (first_match 100 [[97]; [100]] [100; 101; 98; 117; 103] =? 0)) /\
    (first_match 100 [[97]; [100]] [100; 101; 98; 117; 103] = 0 <->
       ~ Exists (fun w => matches w [100; 101; 98; 117; 103]) [[97]; [100]]) /\
    kernel_args.get_str 10 104 a m' =
      Ret (if first_match 100 [[97]; [100]] [100; 101; 98; 117; 103] =? 0 then 0
           else first_match 100 [[97]; [100]] [100; 101; 98; 117; 103] + Z.of_nat 5 + 1).
Proof.
  intros m. apply (kernel_args_matches 10 m 100 104 [[97]; [100]] [100; 101; 98; 117; 103]).
  - lia.
  - by_compute.
  - discriminate.
  - cbn. lia.
  - cbn. lia.
  - by_compute.
  - split; [| by_compute]. apply (bytes_at_app m 100 [97; 32; 100; 0] [100; 101; 98; 117; 103; 0]). apply mem_of_bytes.
  - split; [| by_compute]. change 104 with (100 + Z.of_nat (length [97; 32; 100; 0])).
    apply (bytes_at_app m 100 [97; 32; 100; 0] [100; 101; 98; 117; 103; 0]). apply mem_of_bytes.
  - cbn. lia.
  - cbn. lia.
Defined.
