(* ===== verification/Containers.v ===== *)
(** * Containers: [types::vector], [types::queue], [types::linked_list],
      [types::hash_map], [types::minimal_array] and [misc::lazy_initializer]

    Models include/Sigma/types/*.h and [lazy_initializer] of misc.h.  Raw
    storage is a list of optional cells ([None] is memory in which no object
    lives), so that reading a cell outside the live part is visible as [Undef].
    The nodes of a linked list live in a store of addresses with explicit [prev]
    and [next] pointers; [rep] relates them to the list of items they hold.
    Sizes are unbounded here: a [size_t] counts objects that fit in memory. *)

From S2P Require Import Prelude Bits.

(** ** vector<T> *)

Module vector.
Record t (T : Type) := mk { _length : nat; _offset : nat; _data : list (option T) }.
Arguments mk {T}.
Arguments _length {T}.
Arguments _offset {T}.
Arguments _data {T}.

Section ops.
Context {T : Type}.
Implicit Types (v : t T) (x : T).

(** The constructor: 16 cells, an object is constructed in the first one. *)
Definition create (dflt : T) : t T :=
  mk 16 0 (Some dflt :: replicate 15 None).

Definition ensure_capacity v (c : nat) : t T :=
  if decide (c <= _length v)%nat then v
  else
    let new_len := (_length v + c + 16)%nat in
    mk new_len (_offset v) (take (_length v) (_data v) ++ replicate (new_len - _length v) None).

(** Cells [from, from + n) get the object [c] ([None] after a destructor). *)
Definition fill (from n : nat) (c : option T) (d : list (option T)) : list (option T) :=
  take from d ++ replicate n c ++ drop (from + n) d.

Definition resize (dflt : T) v (size : nat) : t T :=
  let v := ensure_capacity v (size + 1) in
  let d :=
    if decide (size < _offset v)%nat
    then fill size (_offset v - size) None (_data v)
    else fill (_offset v) (size - _offset v) (Some dflt) (_data v) in
  mk (_length v) size d.

Definition push_back v x : t T :=
  let v := ensure_capacity v (_offset v + 1) in
  mk (_length v) (_offset v + 1) (<[_offset v := Some x]> (_data v)).

(** [empty_entry] returns the address of the new object, its index. *)
Definition empty_entry (dflt : T) v : nat * t T :=
  let v := ensure_capacity v (_offset v + 1) in
  (_offset v, mk (_length v) (_offset v + 1) (<[_offset v := Some dflt]> (_data v))).

(** [operator[]] returns a reference: reading and writing through it. *)
Definition get v (index : nat) : res T :=
  if decide (_offset v <= index)%nat then Panic "Tried to access vector out of bounds"
  else c ← access (_data v !! index); access c.

Definition put v (index : nat) x : res (t T) :=
  if decide (_offset v <= index)%nat then Panic "Tried to access vector out of bounds"
  else mret (mk (_length v) (_offset v) (<[index := Some x]> (_data v))).

Definition size v : nat := _offset v.

Definition back v : res T :=
  match _offset v with
  | O => Undef
  | S i => c ← access (_data v !! i); access c
  end.

(** The copy constructor runs [ensure_capacity] on the members of the object
    under construction, which it has not initialised: [junk]. *)
Definition copy_construct (junk b : t T) : t T :=
  let v := ensure_capacity junk (_offset b) in
  mk (_length v) (_offset b) (take (_offset b) (_data b) ++ drop (_offset b) (_data v)).

(** [operator=] swaps the two vectors. *)
Definition assign (this other : t T) : t T * t T := (other, this).

(** Abstraction to a list: the live cells. *)
Definition wf v : Prop :=
  length (_data v) = _length v /\ (_offset v <= _length v)%nat /\
  Forall is_Some (take (_offset v) (_data v)).

Definition contents v : list T := omap id (take (_offset v) (_data v)).
End ops.
End vector.

(** ** queue<T>: the same storage, with [push], [pop] and [back] at [_offset] *)

Module queue.
Definition t (T : Type) := vector.t T.

Section ops.
Context {T : Type}.
Implicit Types (q : t T) (x : T).

Definition create : t T := vector.mk 0 0 [].

Definition ensure_capacity q (c : nat) : t T := vector.ensure_capacity q c.

Definition push q x : t T :=
  let q := ensure_capacity q (vector._offset q + 1) in
  vector.mk (vector._length q) (vector._offset q + 1)
            (<[vector._offset q := Some x]> (vector._data q)).

Definition pop q : res (T * t T) :=
  match vector._offset q with
  | O => Panic "Tried to pop from queue with 0 elements"
  | S i =>
      c ← access (vector._data q !! i);
      x ← access c;
      mret (x, vector.mk (vector._length q) i (<[i := None]> (vector._data q)))
  end.

Definition back q : res T :=
  match vector._offset q with
  | O => Panic "Tried to get back of queue with 0 elements"
  | S i => c ← access (vector._data q !! i); access c
  end.

Definition length q : nat := vector._offset q.
End ops.
End queue.

(** ** linked_list<T> *)

Module linked_list.
Record entry (T : Type) := mk_entry { item : T; prev : option nat; next : option nat }.
Arguments mk_entry {T}.
Arguments item {T}.
Arguments prev {T}.
Arguments next {T}.

(** [nodes] is the part of the heap that holds the list's nodes; [fresh] bounds
    the addresses [new] has handed out. *)
Record t (T : Type) := mk {
  nodes : gmap nat (entry T); fresh : nat;
  head : option nat; tail : option nat; _length : nat }.
Arguments mk {T}.
Arguments nodes {T}.
Arguments fresh {T}.
Arguments head {T}.
Arguments tail {T}.
Arguments _length {T}.

Section ops.
Context {T : Type}.
Implicit Types (l : t T) (x : T).

Definition create : t T := mk ∅ 0 None None 0.

(** [push_back], and [emplace_back] and [empty_entry], whose bodies differ only
    in how the item is constructed.  Returns the address of the node. *)
Definition push_back l x : res (nat * t T) :=
  let new_entry := fresh l in
  if decide (_length l = 0)%nat then
    mret (new_entry,
      mk (<[new_entry := mk_entry x None None]> (nodes l)) (S (fresh l))
         (Some new_entry) (Some new_entry) (S (_length l)))
  else
    tl ← access (tail l);
    tle ← access (nodes l !! tl);
    let nodes1 := <[tl := mk_entry (item tle) (prev tle) (Some new_entry)]> (nodes l) in
    mret (new_entry,
      mk (<[new_entry := mk_entry x (Some tl) None]> nodes1) (S (fresh l))
         (head l) (Some new_entry) (S (_length l))).

(** Walk the [next] pointers from [p] until [f] says stop; [n] bounds the walk. *)
Fixpoint walk {A} l (f : nat -> entry T -> nat -> option A) (n : nat) (i : nat) (p : option nat)
  : res (option A) :=
  match p with
  | None => mret None
  | Some a =>
      match n with
      | O => NoFuel
      | S n =>
          e ← access (nodes l !! a);
          match f a e i with
          | Some r => mret (Some r)
          | None => walk l f n (S i) (next e)
          end
      end
  end.

(** A loop visits each node once, so the number of nodes bounds it. *)
Definition bound l : nat := Datatypes.S (size (nodes l)).

Definition get_entry_for_item l (p : nat) : res (option nat) :=
  walk l (fun a _ _ => if decide (a = p) then Some a else None) (bound l) 0 (head l).

Definition at_index l (index : nat) : res T :=
  r ← walk l (fun _ e i => if decide (i = index) then Some (item e) else None) (bound l) 0 (head l);
  match r with
  | Some x => mret x
  | None => Panic "Index does not exist in linked_lsit"
  end.

Definition length l : nat := _length l.

(** [operator=] builds a fresh copy by pushing every item of [other]. *)
Fixpoint copy_items l (p : option nat) (n : nat) (acc : t T) : res (t T) :=
  match p with
  | None => mret acc
  | Some a =>
      match n with
      | O => NoFuel
      | S n =>
          e ← access (nodes l !! a);
          '(_, acc) ← push_back acc (item e);
          copy_items l (next e) n acc
      end
  end.

Definition assign (other : t T) : res (t T) := copy_items other (head other) (bound other) create.

(** The destructor frees every node, reading [next] before each [delete]. *)
Fixpoint delete_nodes (m : gmap nat (entry T)) (p : option nat) (n : nat) : res (gmap nat (entry T)) :=
  match p with
  | None => mret m
  | Some a =>
      match n with
      | O => NoFuel
      | S n => e ← access (m !! a); delete_nodes (delete a m) (next e) n
      end
  end.

Definition destroy l : res (gmap nat (entry T)) :=
  if bool_decide (is_Some (head l)) && bool_decide (is_Some (tail l)) && negb (_length l =? 0)%nat
  then delete_nodes (nodes l) (head l) (bound l) else mret (nodes l).

(** [seg nodes pr ids xs]: the nodes at [ids] hold [xs] and are chained both
    ways; [pr] is the [prev] of the first one and the last [next] is null. *)
Fixpoint seg (m : gmap nat (entry T)) (pr : option nat) (ids : list nat) (xs : list T) : Prop :=
  match ids, xs with
  | [], [] => True
  | a :: ids, x :: xs =>
      m !! a = Some (mk_entry x pr (list.head ids)) /\ seg m (Some a) ids xs
  | _, _ => False
  end.

Record rep l (ids : list nat) (xs : list T) : Prop := {
  rep_seg : seg (nodes l) None ids xs;
  rep_dom : dom (nodes l) = list_to_set ids;
  rep_nodup : NoDup ids;
  rep_fresh : Forall (fun a => a < fresh l)%nat ids;
  rep_head : head l = list.head ids;
  rep_tail : tail l = last ids;
  rep_length : _length l = Datatypes.length ids }.
End ops.
End linked_list.

(** ** hash_map<Key, Value, Hasher>: a linked list of (hash, value) pairs *)

Module hash_map.
Section ops.
Context {K H V : Type} `{!EqDecision H} (hasher : K -> H).
Definition t := linked_list.t (H * V).

Definition push_back (m : t) (key : K) (value : V) : res t :=
  '(_, m') ← linked_list.push_back m (hasher key, value); mret m'.

(** The move constructor and the move assignment: [linked_list] has a copy assignment
    only, so that [std::move] copies the entries.  The result is the new map; the
    other map keeps its own. *)
Definition move (other : t) : res t := linked_list.assign other.

(** [operator[]]: the value of the first entry whose hash matches. *)
Definition get (m : t) (key : K) : res V :=
  r ← linked_list.walk m
        (fun _ e _ => if decide ((linked_list.item e).1 = hasher key)
                      then Some (linked_list.item e).2 else None)
        (linked_list.bound m) 0 (linked_list.head m);
  match r with Some v => mret v | None => Panic "Hash not in map" end.
End ops.
End hash_map.

(** [types::nop_hasher]. *)
Definition nop_hasher {K : Type} (k : K) : K := k.

(** ** lazy_initializer<T> *)

Module lazy_initializer.
Record t (T : Type) := mk { _initialized : bool; _storage : option T }.
Arguments mk {T}.
Arguments _initialized {T}.
Arguments _storage {T}.

Section ops.
Context {T : Type}.
Definition create : t T := mk false None.
Definition init (l : t T) (x : T) : t T := if _initialized l then l else mk true (Some x).
Definition deinit (l : t T) : t T := mk false (_storage l).
Definition get (l : t T) : res T :=
  if _initialized l then access (_storage l) else Panic "Tried to access uninitialized lazy variable".
End ops.
End lazy_initializer.

(** ** minimal_array<NStaticElements, T> *)

Module minimal_array.
Record t (T : Type) := mk {
  current_index : nat; static_elements : list T;
  dynamic_elements : lazy_initializer.t (linked_list.t T) }.
Arguments mk {T}.
Arguments current_index {T}.
Arguments static_elements {T}.
Arguments dynamic_elements {T}.

Section ops.
Context {T : Type} (NStaticElements : nat) (dflt : T).

Definition create : t T := mk 0 (replicate NStaticElements dflt) lazy_initializer.create.

Definition at_index (a : t T) (index : nat) : res (T * t T) :=
  if decide (index < NStaticElements)%nat then
    x ← access (static_elements a !! index); mret (x, a)
  else
    let d := lazy_initializer.init (dynamic_elements a) linked_list.create in
    l ← lazy_initializer.get d;
    x ← linked_list.at_index l (index - NStaticElements);
    mret (x, mk (current_index a) (static_elements a) d).

Definition length (a : t T) : nat := current_index a.

(** The new entry is returned by reference; [inr] is its node address. *)
Definition empty_entry (a : t T) : res ((nat + nat) * t T) :=
  if decide (current_index a < NStaticElements)%nat then
    mret (inl (current_index a), mk (S (current_index a)) (static_elements a) (dynamic_elements a))
  else
    let d := lazy_initializer.init (dynamic_elements a) linked_list.create in
    l ← lazy_initializer.get d;
    '(p, l') ← linked_list.push_back l dflt;
    mret (inr p, mk (S (current_index a)) (static_elements a) (lazy_initializer.mk true (Some l'))).
End ops.
End minimal_array.

(** ** Lemmas: vector and queue *)

Section vector_lemmas.
Import vector.
Context {T : Type}.
Implicit Types (v : t T) (x : T) (xs : list T) (rest : list (option T)).

Lemma omap_id_Some xs : omap id (Some <$> xs) = xs.
Proof. induction xs as [| y ys IH]; [done |]. csimpl. by rewrite IH. Qed.

(** The storage of a well-formed vector: the items, then the spare cells. *)
Definition vrep v xs : Prop :=
  exists rest, _data v = (Some <$> xs) ++ rest /\ _offset v = length xs /\
               _length v = (length xs + length rest)%nat.

Lemma vrep_wf v xs : vrep v xs <-> wf v /\ contents v = xs.
Proof.
  split.
  - intros (rest & Hd & Ho & Hl). unfold wf, contents. rewrite Hd, Ho.
    rewrite take_app_length' by (by rewrite length_fmap).
    split; [split; [| split] |].
    + rewrite length_app, length_fmap. lia.
    + lia.
    + apply Forall_fmap, Forall_true. intros x. eexists. reflexivity.
    + apply omap_id_Some.
  - intros ((Hlen & Hle & Hall) & Hc). exists (drop (_offset v) (_data v)).
    assert (Htake : take (_offset v) (_data v) = Some <$> xs).
    { rewrite <- Hc. unfold contents. clear Hc. induction Hall as [| c cs [y ->] _ IH]; [done |].
      csimpl. by rewrite <- IH. }
    assert (Hn : _offset v = length xs).
    { apply (f_equal length) in Htake. rewrite length_fmap, length_take in Htake. lia. }
    rewrite <- Htake, take_drop. split; [done |]. split; [done |]. rewrite length_drop. lia.
Qed.

Lemma vrep_ensure_capacity v xs c :
  vrep v xs -> vrep (ensure_capacity v c) xs /\ (c <= _length (ensure_capacity v c))%nat.
Proof.
  intros (rest & Hd & Ho & Hl). unfold ensure_capacity. case_decide; [by split; [eexists |] |].
  split; [| simpl; lia].
  exists (rest ++ replicate (_length v + c + 16 - _length v) None). simpl. rewrite Hd.
  rewrite take_ge by (rewrite length_app, length_fmap; lia).
  rewrite <- app_assoc. split; [done |]. split; [done |].
  rewrite length_app, length_replicate. lia.
Qed.

(** Writing the cell at [_offset] and advancing it appends an item. *)
Lemma vrep_snoc v xs x :
  vrep v xs -> (length xs < _length v)%nat ->
  vrep (mk (_length v) (_offset v + 1) (<[_offset v := Some x]> (_data v))) (xs ++ [x]).
Proof.
  intros (rest & Hd & Ho & Hl) Hlt. destruct rest as [| c rest]; [simpl in Hl; lia |].
  exists rest. simpl in *. rewrite Hd, Ho.
  rewrite insert_app_r_alt by (rewrite length_fmap; lia).
  rewrite length_fmap, Nat.sub_diag. simpl. rewrite fmap_app, <- app_assoc.
  rewrite length_app. simpl. split; [done |]. lia.
Qed.

Lemma vrep_push_back v xs x : vrep v xs -> vrep (push_back v x) (xs ++ [x]).
Proof.
  intros Hv. destruct (vrep_ensure_capacity v xs (_offset v + 1) Hv) as [Hv' Hc].
  apply vrep_snoc; [done |]. destruct Hv as (rest & _ & Ho & _). lia.
Qed.

Lemma vrep_lookup v xs i : vrep v xs -> (i < length xs)%nat -> _data v !! i = Some (xs !! i).
Proof.
  intros (rest & Hd & _ & _) Hi. rewrite Hd, lookup_app_l by (by rewrite length_fmap).
  rewrite list_lookup_fmap. destruct (lookup_lt_is_Some_2 xs i Hi) as [y Hy]. by rewrite Hy.
Qed.

Lemma vrep_get v xs i :
  vrep v xs ->
  get v i = match xs !! i with
            | Some x => Ret x
            | None => Panic "Tried to access vector out of bounds"
            end.
Proof.
  intros Hv. pose proof Hv as (rest & _ & Ho & _). unfold get. case_decide as Hi.
  - rewrite lookup_ge_None_2 by lia. done.
  - rewrite (vrep_lookup v xs) by (done || lia).
    destruct (lookup_lt_is_Some_2 xs i) as [y ->]; [lia |]. done.
Qed.

Lemma fill_lookup (from n : nat) (c : option T) d i :
  (from + n <= length d)%nat ->
  fill from n c d !! i = if decide (from <= i < from + n)%nat then Some c else d !! i.
Proof.
  intros Hn. unfold fill. case_decide as Hi.
  - rewrite lookup_app_r by (rewrite length_take; lia). rewrite length_take.
    rewrite lookup_app_l by (rewrite length_replicate; lia).
    apply lookup_replicate_2. lia.
  - destruct (decide (i < from)%nat).
    + rewrite lookup_app_l by (rewrite length_take; lia). by rewrite lookup_take_lt.
    + rewrite lookup_app_r by (rewrite length_take; lia). rewrite length_take.
      rewrite lookup_app_r by (rewrite length_replicate; lia). rewrite length_replicate.
      rewrite lookup_drop. f_equal. lia.
Qed.

Lemma fill_prefix (xs : list T) rest x n :
  (n <= length rest)%nat ->
  fill (length xs) n (Some x) ((Some <$> xs) ++ rest)
  = (Some <$> xs ++ replicate n x) ++ drop n rest.
Proof.
  intros Hn. unfold fill.
  rewrite take_app_length' by (by rewrite length_fmap).
  rewrite drop_app_ge by (rewrite length_fmap; lia). rewrite length_fmap.
  replace (length xs + n - length xs)%nat with n by lia.
  by rewrite fmap_app, fmap_replicate, <- app_assoc.
Qed.

Lemma fill_suffix xs rest n :
  (n <= length xs)%nat ->
  fill n (length xs - n) None ((Some <$> xs) ++ rest)
  = (Some <$> take n xs) ++ replicate (length xs - n) None ++ rest.
Proof.
  intros Hn. unfold fill. rewrite take_app_le by (by rewrite length_fmap).
  replace (n + (length xs - n))%nat with (length xs) by lia.
  rewrite drop_app_length' by (by rewrite length_fmap). by rewrite fmap_take.
Qed.

Lemma vrep_resize dflt v xs n :
  vrep v xs -> vrep (resize dflt v n) (take n xs ++ replicate (n - length xs) dflt).
Proof.
  intros Hv. unfold resize. destruct (vrep_ensure_capacity v xs (n + 1) Hv) as [Hv' Hc].
  set (w := ensure_capacity v (n + 1)) in *. destruct Hv' as (rest & Hd & Ho & Hl).
  rewrite Ho, Hd. case_decide as Hlt.
  - replace (n - length xs)%nat with 0%nat by lia. simpl. rewrite app_nil_r.
    exists (replicate (length xs - n) None ++ rest). simpl.
    rewrite fill_suffix, length_app, length_replicate, length_take by lia. split; [done |]. lia.
  - rewrite take_ge by lia. exists (drop (n - length xs) rest). simpl.
    rewrite fill_prefix, length_app, length_replicate, length_drop by lia. split; [done |]. lia.
Qed.

End vector_lemmas.

Section queue_lemmas.
Context {T : Type}.
Implicit Types (q : queue.t T) (x : T) (xs : list T).

Lemma qrep_create : vrep (@queue.create T) [].
Proof. by exists []. Qed.

Lemma qrep_push q xs x : vrep q xs -> vrep (queue.push q x) (xs ++ [x]).
Proof. apply vrep_push_back. Qed.

Lemma qrep_pop_nil q : vrep q [] -> queue.pop q = Panic "Tried to pop from queue with 0 elements".
Proof. intros (rest & _ & Ho & _). unfold queue.pop. by rewrite Ho. Qed.

Lemma qrep_pop_snoc q xs x :
  vrep q (xs ++ [x]) -> exists q', queue.pop q = Ret (x, q') /\ vrep q' xs.
Proof.
  intros Hq. pose proof Hq as (rest & Hd & Ho & Hl). unfold queue.pop.
  rewrite Ho, length_app. simpl. rewrite Nat.add_1_r.
  rewrite (vrep_lookup q (xs ++ [x])) by (done || (rewrite length_app; simpl; lia)).
  rewrite lookup_app_r, Nat.sub_diag by lia. simpl.
  eexists. split; [reflexivity |]. exists (None :: rest). simpl.
  rewrite Hd, fmap_app. simpl. rewrite <- app_assoc.
  rewrite insert_app_r_alt by (by rewrite length_fmap).
  rewrite length_fmap, Nat.sub_diag. simpl. split; [done |]. split; [done |].
  rewrite length_app in Hl. simpl in Hl. lia.
Qed.

Lemma qrep_length q xs : vrep q xs -> queue.length q = length xs.
Proof. intros (rest & _ & Ho & _). exact Ho. Qed.

Lemma qrep_back q xs :
  vrep q xs ->
  queue.back q = match last xs with
                 | Some x => Ret x
                 | None => Panic "Tried to get back of queue with 0 elements"
                 end.
Proof.
  intros Hq. pose proof Hq as (rest & Hd & Ho & Hl). unfold queue.back.
  destruct xs as [| x xs _] using rev_ind; [by rewrite Ho |].
  rewrite Ho, length_app. simpl. rewrite Nat.add_1_r.
  rewrite (vrep_lookup q (xs ++ [x])) by (done || (rewrite length_app; simpl; lia)).
  rewrite lookup_app_r, Nat.sub_diag by lia. simpl. by rewrite last_snoc.
Qed.

End queue_lemmas.

(** ** Lemmas: linked_list and hash_map *)

Section linked_list_lemmas.
Import linked_list.
Local Abbreviation length := Datatypes.length.
Context {T : Type}.
Implicit Types (l : t T) (x : T) (xs : list T) (m : gmap nat (entry T)).

Lemma seg_length m pr ids xs : seg m pr ids xs -> length ids = length xs.
Proof.
  revert pr xs. induction ids as [| a ids IH]; intros pr [| x xs] H; try done.
  destruct H as [_ H]. simpl. by rewrite (IH _ _ H).
Qed.

Lemma seg_ext m m' pr ids xs :
  (forall a, a ∈ ids -> m' !! a = m !! a) -> seg m pr ids xs -> seg m' pr ids xs.
Proof.
  revert pr xs. induction ids as [| a ids IH]; intros pr [| x xs] Hm H; try done.
  destruct H as [Ha H]. split.
  - rewrite Hm by set_solver. done.
  - apply IH; [set_solver | done].
Qed.

(** Linking a new node [b] behind the last node [a]. *)
Lemma seg_snoc m pr ids a xs y x b :
  seg m pr (ids ++ [a]) (xs ++ [y]) -> NoDup (ids ++ [a]) -> b ∉ ids ++ [a] ->
  exists pa, m !! a = Some (mk_entry y pa None) /\
  seg (<[b := mk_entry x (Some a) None]> (<[a := mk_entry y pa (Some b)]> m)) pr
      ((ids ++ [a]) ++ [b]) ((xs ++ [y]) ++ [x]).
Proof.
  revert pr xs. induction ids as [| c ids IH]; intros pr xs H Hnd Hb.
  - destruct xs as [| z xs]; [| destruct xs; simpl in H; naive_solver].
    simpl in H. destruct H as [Ha _]. exists pr. simpl. split; [done |].
    rewrite lookup_insert_ne by set_solver. rewrite !lookup_insert_eq. done.
  - destruct xs as [| z xs].
    { destruct H as [_ H]. apply seg_length in H. rewrite length_app in H. simpl in H. lia. }
    simpl in H, Hnd, Hb. destruct H as [Hc H]. apply NoDup_cons in Hnd as [Hca Hnd].
    destruct (IH (Some c) xs H Hnd) as (pa & Ha & Hseg); [set_solver |].
    exists pa. split; [done |]. simpl. split; [| exact Hseg].
    rewrite !lookup_insert_ne by set_solver. rewrite Hc.
    f_equal. f_equal. by destruct ids.
Qed.

Lemma rep_create : rep (@create T) [] [].
Proof. split; simpl; try done; constructor. Qed.

Lemma rep_fresh_notin l ids xs : rep l ids xs -> fresh l ∉ ids.
Proof. intros [] Hin. rewrite Forall_forall in rep_fresh0. apply rep_fresh0 in Hin. lia. Qed.

Lemma rep_push_back l ids xs x :
  rep l ids xs ->
  exists l', push_back l x = Ret (fresh l, l') /\ rep l' (ids ++ [fresh l]) (xs ++ [x]).
Proof.
  intros Hr. pose proof (rep_fresh_notin _ _ _ Hr) as Hnew.
  pose proof Hr as [Hseg Hdom Hnd Hfr Hhd Htl Hlen]. unfold push_back.
  assert (Hnd' : NoDup (ids ++ [fresh l])).
  { apply NoDup_app. split; [done |]. split; [set_solver | apply NoDup_singleton]. }
  assert (Hfr' : Forall (fun a => a < S (fresh l))%nat (ids ++ [fresh l])).
  { apply Forall_app. split; [| repeat constructor]. eapply Forall_impl; [exact Hfr |]. simpl. lia. }
  case_decide as H0.
  - destruct ids; [| simpl in Hlen; lia]. destruct xs; [| done].
    eexists. split; [reflexivity |]. split; simpl; try done.
    + by rewrite lookup_insert_eq.
    + rewrite dom_insert_L, Hdom. set_solver.
    + by rewrite Hlen.
  - destruct ids as [| a ids _] using rev_ind; [simpl in Hlen; lia |].
    destruct xs as [| y xs _] using rev_ind.
    { apply seg_length in Hseg. rewrite length_app in Hseg. simpl in Hseg. lia. }
    destruct (seg_snoc _ _ _ _ _ _ x (fresh l) Hseg Hnd Hnew) as (pa & Ha & Hseg').
    rewrite Htl, last_snoc. simpl. rewrite Ha. simpl.
    eexists. split; [reflexivity |]. split; simpl; try done.
    + rewrite !dom_insert_L, Hdom. set_solver.
    + rewrite Hhd. by destruct ids.
    + by rewrite last_snoc.
    + rewrite Hlen, !length_app. simpl. lia.
Qed.

(** The reference for a walk: search the items in order. *)
Fixpoint search {A} (g : nat -> T -> nat -> option A) (ids : list nat) xs (i : nat) : option A :=
  match ids, xs with
  | a :: ids, x :: xs =>
      match g a x i with Some r => Some r | None => search g ids xs (S i) end
  | _, _ => None
  end.

Lemma walk_seg {A} (f : nat -> entry T -> nat -> option A) (g : nat -> T -> nat -> option A) l n i pr ids xs :
  (forall a e j, f a e j = g a (item e) j) ->
  seg (nodes l) pr ids xs -> (length ids <= n)%nat ->
  walk l f n i (list.head ids) = Ret (search g ids xs i).
Proof.
  intros Hfg. revert n i pr xs.
  induction ids as [| a ids IH]; intros n i pr [| x xs] H Hn; try done; [by destruct n |].
  destruct H as [Ha H]. destruct n as [| n]; [simpl in Hn; lia |]. simpl in *.
  rewrite Ha. simpl. rewrite Hfg. simpl. destruct (g a x i); [done |].
  apply (IH _ _ (Some a)); [done | lia].
Qed.

Lemma rep_bound l ids xs : rep l ids xs -> (length ids <= bound l)%nat.
Proof.
  intros [_ Hdom Hnd _ _ _ _]. unfold bound.
  rewrite <- size_dom, Hdom, size_list_to_set by done. lia.
Qed.

Lemma walk_rep {A} (f : nat -> entry T -> nat -> option A) g l ids xs :
  (forall a e j, f a e j = g a (item e) j) -> rep l ids xs ->
  walk l f (bound l) 0 (head l) = Ret (search g ids xs 0).
Proof.
  intros Hfg Hr. rewrite (rep_head _ _ _ Hr).
  eapply walk_seg; [done | apply Hr | by eapply rep_bound].
Qed.

Lemma search_index ids xs k i :
  length ids = length xs -> (i <= k)%nat ->
  search (fun _ x j => if decide (j = k) then Some x else None) ids xs i = xs !! (k - i)%nat.
Proof.
  revert xs i. induction ids as [| a ids IH]; intros [| x xs] i Hl Hi; try done.
  simpl. case_decide as E.
  - subst. by rewrite Nat.sub_diag.
  - rewrite IH by (simpl in Hl; lia). by replace (k - i)%nat with (S (k - S i))%nat by lia.
Qed.

Lemma rep_at_index l ids xs k :
  rep l ids xs ->
  at_index l k = match xs !! k with
                 | Some x => Ret x
                 | None => Panic "Index does not exist in linked_lsit"
                 end.
Proof.
  intros Hr. unfold at_index.
  rewrite (walk_rep _ (fun _ x j => if decide (j = k) then Some x else None) _ _ _) by done.
  simpl. rewrite search_index, Nat.sub_0_r; [by destruct (xs !! k) | | lia].
  eapply seg_length, Hr.
Qed.

Lemma search_addr ids xs p i :
  length ids = length xs ->
  search (fun a _ _ => if decide (a = p) then Some a else None) ids xs i
  = if decide (p ∈ ids) then Some p else None.
Proof.
  revert xs i. induction ids as [| a ids IH]; intros [| x xs] i Hl; try done.
  simpl. destruct (decide (a = p)) as [-> | E].
  - rewrite decide_True by left. done.
  - rewrite IH by (simpl in Hl; lia). apply decide_ext. rewrite elem_of_cons. naive_solver.
Qed.

Lemma rep_get_entry_for_item l ids xs p :
  rep l ids xs -> get_entry_for_item l p = Ret (if decide (p ∈ ids) then Some p else None).
Proof.
  intros Hr. unfold get_entry_for_item.
  rewrite (walk_rep _ (fun a _ _ => if decide (a = p) then Some a else None) _ _ _) by done.
  rewrite search_addr; [done |]. eapply seg_length, Hr.
Qed.

Lemma copy_items_rep l n pr ids xs acc ids' ys :
  seg (nodes l) pr ids xs -> (length ids <= n)%nat -> rep acc ids' ys ->
  exists acc' ids'', copy_items l (list.head ids) n acc = Ret acc' /\ rep acc' ids'' (ys ++ xs).
Proof.
  revert n pr xs acc ids' ys.
  induction ids as [| a ids IH]; intros n pr [| x xs] acc ids' ys H Hn Hacc; try done.
  { exists acc, ids'. rewrite app_nil_r. destruct n; done. }
  destruct H as [Ha H]. destruct n as [| n]; [simpl in Hn; lia |]. simpl in *.
  rewrite Ha. simpl. destruct (rep_push_back acc ids' ys x Hacc) as (acc1 & -> & Hacc1). simpl.
  destruct (IH n (Some a) xs acc1 _ _ H ltac:(lia) Hacc1) as (acc2 & ids2 & Hc & Hr).
  exists acc2, ids2. rewrite <- app_assoc in Hr. done.
Qed.

Lemma rep_assign l ids xs :
  rep l ids xs -> exists l' ids', assign l = Ret l' /\ rep l' ids' xs.
Proof.
  intros Hr. unfold assign. rewrite (rep_head _ _ _ Hr).
  destruct (copy_items_rep l (bound l) None ids xs create [] []) as (l' & ids' & H & Hr');
    eauto using rep_create, rep_bound. apply Hr.
Qed.

Lemma delete_nodes_seg n m pr ids xs :
  seg m pr ids xs -> NoDup ids -> (length ids <= n)%nat ->
  exists m', delete_nodes m (list.head ids) n = Ret m' /\ dom m' = dom m ∖ list_to_set ids.
Proof.
  revert n m pr xs. induction ids as [| a ids IH]; intros n m pr [| x xs] H Hnd Hn; try done.
  { exists m. split; [by destruct n | set_solver]. }
  destruct H as [Ha H]. destruct n as [| n]; [simpl in Hn; lia |]. simpl in *.
  rewrite Ha. simpl. apply NoDup_cons in Hnd as [Hin Hnd].
  destruct (IH n (delete a m) (Some a) xs) as (m' & Hm & Hd); [| done | lia |].
  { eapply seg_ext; [| exact H]. intros b Hb. apply lookup_delete_ne. set_solver. }
  exists m'. split; [done |]. rewrite Hd, dom_delete_L. set_solver.
Qed.

Lemma rep_destroy l ids xs : rep l ids xs -> destroy l = Ret ∅.
Proof.
  intros Hr. pose proof Hr as [Hseg Hdom Hnd _ Hhd Htl Hlen]. unfold destroy.
  destruct ids as [| a ids].
  { assert (Hn : nodes l = ∅) by (apply dom_empty_inv_L; rewrite Hdom; done).
    rewrite Hn, Hhd. simpl. done. }
  rewrite Htl, Hhd, Hlen. destruct (last (a :: ids)) eqn:E; [| apply last_None in E; done].
  destruct (delete_nodes_seg (bound l) (nodes l) None (a :: ids) xs)
    as (m' & Hm & Hd); eauto using rep_bound.
  cbn [list.head] in *. rewrite !bool_decide_true by eauto.
  cbn [Datatypes.length Nat.eqb negb andb]. rewrite Hm.
  f_equal. apply dom_empty_inv_L. rewrite Hd, Hdom. set_solver.
Qed.

End linked_list_lemmas.

Section hash_map_lemmas.
Context {K H V : Type} `{!EqDecision H} (hasher : K -> H).

(** The association list a map stands for: the first binding of a hash wins. *)
Fixpoint assoc (h : H) (kvs : list (H * V)) : option V :=
  match kvs with
  | [] => None
  | (h', v) :: kvs => if decide (h' = h) then Some v else assoc h kvs
  end.

Lemma assoc_app h kvs1 kvs2 :
  assoc h (kvs1 ++ kvs2) = match assoc h kvs1 with Some v => Some v | None => assoc h kvs2 end.
Proof. induction kvs1 as [| [h' v] kvs1 IH]; simpl; [done |]. by case_decide. Qed.

Lemma search_assoc ids (kvs : list (H * V)) h i :
  length ids = length kvs ->
  search (fun _ x _ => if decide (x.1 = h) then Some x.2 else None) ids kvs i = assoc h kvs.
Proof.
  revert kvs i. induction ids as [| a ids IH]; intros [| [h' v] kvs] i Hl; try done.
  simpl. case_decide; [done |]. apply IH. simpl in Hl. lia.
Qed.

Lemma hash_map_get_rep m ids kvs key :
  linked_list.rep m ids kvs ->
  hash_map.get hasher m key = match assoc (hasher key) kvs with
                              | Some v => Ret v
                              | None => Panic "Hash not in map"
                              end.
Proof.
  intros Hr. unfold hash_map.get.
  rewrite (walk_rep _ (fun _ x _ => if decide (x.1 = hasher key) then Some x.2 else None) _ _ _ ltac:(done) Hr).
  rewrite search_assoc by (eapply seg_length, Hr). simpl. by destruct (assoc _ _).
Qed.

Lemma hash_map_push_rep m ids (kvs : list (H * V)) key value :
  linked_list.rep m ids kvs ->
  exists m', hash_map.push_back hasher m key value = Ret m' /\
    linked_list.rep m' (ids ++ [linked_list.fresh m]) (kvs ++ [(hasher key, value)]).
Proof.
  intros Hr. destruct (rep_push_back _ _ _ (hasher key, value) Hr) as (m' & Hp & Hr').
  exists m'. unfold hash_map.push_back. rewrite Hp. done.
Qed.
End hash_map_lemmas.

(** ** Theorems *)

(** [types::vector] implements a list: [push_back] appends, [operator[]]
    returns the item at the index or panics past the end, [resize] truncates or
    pads with [T{}], and every operation keeps the storage well-formed, also
    when it reallocates. *)
Theorem vector_refines_list {T : Type} (dflt : T) (v : vector.t T) :
  vector.wf v ->
  (forall x, vector.wf (vector.push_back v x) /\
     vector.contents (vector.push_back v x) = vector.contents v ++ [x]) /\
  (forall n, vector.wf (vector.resize dflt v n) /\
     vector.contents (vector.resize dflt v n) =
       take n (vector.contents v) ++ replicate (n - length (vector.contents v)) dflt) /\
  (forall i, vector.get v i =
     match vector.contents v !! i with
     | Some x => Ret x
     | None => Panic "Tried to access vector out of bounds"
     end) /\
  vector.size v = length (vector.contents v).
Proof.
  intros Hw. assert (Hr : vrep v (vector.contents v)) by (apply vrep_wf; done).
  split; [| split; [| split]].
  - intros x. apply vrep_wf, vrep_push_back, Hr.
  - intros n. apply vrep_wf, vrep_resize, Hr.
  - intros i. apply vrep_get, Hr.
  - destruct Hr as (rest & _ & Ho & _). exact Ho.
Qed.

Lemma vector_refines_list_witness :
  let v := vector.push_back (vector.push_back (vector.create 0) 7) 9 in
  vector.contents v = [7; 9] /\
  (forall x, vector.wf (vector.push_back v x) /\
     vector.contents (vector.push_back v x) = vector.contents v ++ [x]) /\
  (forall n, vector.wf (vector.resize 0 v n) /\
     vector.contents (vector.resize 0 v n) =
       take n (vector.contents v) ++ replicate (n - length (vector.contents v)) 0) /\
  (forall i, vector.get v i =
     match vector.contents v !! i with
     | Some x => Ret x
     | None => Panic "Tried to access vector out of bounds"
     end) /\
  vector.size v = length (vector.contents v).
Proof.
  cbv zeta. split; [reflexivity |]. apply vector_refines_list.
  split; [reflexivity |]. split; [vm_compute; lia |].
  vm_compute. repeat constructor; eexists; reflexivity.
Defined.

(** [types::queue] implements a stack, not a first-in first-out queue:
    [pop] and [back] return the item pushed last; [pop] after [push] gives back
    the pushed item and the previous contents, and panics exactly on the empty
    queue. *)
Theorem queue_is_lifo {T : Type} (q : queue.t T) (xs : list T) :
  vrep q xs ->
  (forall x, exists q', queue.pop (queue.push q x) = Ret (x, q') /\ vrep q' xs) /\
  (forall x, queue.back (queue.push q x) = Ret x) /\
  queue.length q = length xs /\
  (queue.pop q = Panic "Tried to pop from queue with 0 elements" <-> xs = []).
Proof.
  intros Hq. split; [| split; [| split]].
  - intros x. by apply qrep_pop_snoc, qrep_push.
  - intros x. rewrite (qrep_back _ (xs ++ [x])) by (by apply qrep_push). by rewrite last_snoc.
  - by apply qrep_length.
  - split; [| intros ->; by apply qrep_pop_nil].
    destruct xs as [| x xs _] using rev_ind; [done |].
    destruct (qrep_pop_snoc _ _ _ Hq) as (q' & -> & _). done.
Qed.

Lemma queue_is_lifo_witness :
  let q := queue.push (queue.push queue.create 1) 2 in
  (forall x, exists q', queue.pop (queue.push q x) = Ret (x, q') /\ vrep q' [1; 2]) /\
  (forall x, queue.back (queue.push q x) = Ret x) /\
  queue.length q = length [1; 2] /\
  (queue.pop q = Panic "Tried to pop from queue with 0 elements" <-> [1; 2] = []).
Proof.
  cbv zeta. apply queue_is_lifo. exists (replicate 15 None). split; [reflexivity |].
  split; reflexivity.
Defined.

(** [types::linked_list] implements a list: when the nodes are correctly
    linked in both directions, [push_back] links one fresh node at the end and
    keeps them so, [operator[]] finds the item at the index or panics, the copy
    assignment produces a list with the same items, and the destructor
    terminates and frees every node. *)
Theorem linked_list_refines_list {T : Type} (l : linked_list.t T) (ids : list nat) (xs : list T) :
  linked_list.rep l ids xs ->
  (forall x, exists l', linked_list.push_back l x = Ret (linked_list.fresh l, l') /\
     linked_list.rep l' (ids ++ [linked_list.fresh l]) (xs ++ [x])) /\
  (forall i, linked_list.at_index l i =
     match xs !! i with
     | Some x => Ret x
     | None => Panic "Index does not exist in linked_lsit"
     end) /\
  (exists l' ids', linked_list.assign l = Ret l' /\ linked_list.rep l' ids' xs) /\
  linked_list.length l = length xs /\
  linked_list.destroy l = Ret ∅.
Proof.
  intros Hr. split; [| split; [| split; [| split]]].
  - intros x. by apply rep_push_back.
  - intros i. by apply (rep_at_index l ids).
  - by apply (rep_assign l ids).
  - rewrite <- (seg_length _ _ _ _ (linked_list.rep_seg _ _ _ Hr)). apply Hr.
  - by apply (rep_destroy l ids xs).
Qed.

Lemma linked_list_refines_list_witness :
  let l := linked_list.create in
  (forall x : Z, exists l', linked_list.push_back l x = Ret (linked_list.fresh l, l') /\
     linked_list.rep l' ([] ++ [linked_list.fresh l]) ([] ++ [x])) /\
  (forall i, linked_list.at_index l i =
     match (@nil Z) !! i with
     | Some x => Ret x
     | None => Panic "Index does not exist in linked_lsit"
     end) /\
  (exists l' ids', linked_list.assign l = Ret l' /\ linked_list.rep l' ids' []) /\
  linked_list.length l = length (@nil Z) /\
  linked_list.destroy l = Ret ∅.
Proof. cbv zeta. apply (linked_list_refines_list linked_list.create [] []). apply rep_create. Defined.

(** [types::hash_map] is an association map in which the first binding of a
    hash wins: a pushed key is found unless its hash was already bound, lookups
    of other hashes do not change, and a lookup that matches nothing panics. *)
Theorem hash_map_lookup {K H V : Type} `{!EqDecision H} (hasher : K -> H)
    (m : hash_map.t) (ids : list nat) (kvs : list (H * V)) (key key' : K) (value : V) :
  linked_list.rep m ids kvs ->
  exists m', hash_map.push_back hasher m key value = Ret m' /\
  hash_map.get hasher m' key' =
    if decide (hasher key' = hasher key)
    then Ret (default value (assoc (hasher key) kvs)) else hash_map.get hasher m key'.
Proof.
  intros Hr. destruct (hash_map_push_rep hasher m ids kvs key value Hr) as (m' & Hp & Hr').
  exists m'. split; [done |]. rewrite (hash_map_get_rep hasher _ _ _ _ Hr'), (hash_map_get_rep hasher _ _ _ _ Hr).
  rewrite assoc_app. simpl. destruct (decide (hasher key' = hasher key)) as [E | E].
  - rewrite E, decide_True by done. by destruct (assoc (hasher key) kvs).
  - rewrite decide_False by congruence. by destruct (assoc (hasher key') kvs).
Qed.

Lemma hash_map_lookup_witness :
  exists m', hash_map.push_back (H := Z) nop_hasher linked_list.create 4 "a"%string = Ret m' /\
  hash_map.get nop_hasher m' 4 =
    if decide (nop_hasher 4 = nop_hasher 4)
    then Ret (default "a"%string (assoc (nop_hasher 4) [])) else hash_map.get nop_hasher linked_list.create 4.
Proof. apply (hash_map_lookup nop_hasher linked_list.create [] []). apply rep_create. Defined.

(** A map that is moved is found in the new place with all its entries. *)
Theorem hash_map_move {K H V : Type} `{!EqDecision H} (hasher : K -> H) (m : hash_map.t) (ids : list nat) (kvs : list (H * V)) :
  linked_list.rep m ids kvs ->
  exists m' ids', hash_map.move m = Ret m' /\ linked_list.rep m' ids' kvs /\ forall key, hash_map.get hasher m' key = hash_map.get hasher m key.
Proof.
  intros Hr. destruct (rep_assign m ids kvs Hr) as (m' & ids' & Ha & Hr'). exists m', ids'. split_and!; [exact Ha | exact Hr' |].
  intros key. by rewrite (hash_map_get_rep hasher _ _ _ _ Hr'), (hash_map_get_rep hasher _ _ _ _ Hr).
Qed.

Lemma hash_map_move_witness :
  exists m' ids', hash_map.move (linked_list.create : hash_map.t (H := Z) (V := Z)) = Ret m' /\ linked_list.rep m' ids' [] /\
    forall key : Z, hash_map.get nop_hasher m' key = hash_map.get nop_hasher linked_list.create key.
Proof. apply (hash_map_move nop_hasher linked_list.create [] []). apply rep_create. Defined.
