(* ===== verification/Fields.v ===== *)
(** * Fields: bit fields and packed structures

    What the files on hardware share: the reads and writes of C++ bit fields and
    of little-endian fields of packed structures, the lemmas that a field reads
    back what was written to it and that other fields are kept, and a tactic for
    equations between words that are built from masks and shifts. *)

From S2P Require Import Prelude Bits.

(** ** Bit fields *)

(** The field of [n] bits at bit [lo]. *)
Definition bits (lo n v : Z) : Z := Z.land (Z.shiftr v lo) (Z.ones n).

(** Assigning [x] to that field truncates it. *)
Definition set_bits (lo n x v : Z) : Z :=
  Z.lor (Z.ldiff v (Z.shiftl (Z.ones n) lo)) (Z.shiftl (Z.land x (Z.ones n)) lo).

(** A structure of bit fields: their names and widths, from the lowest bit on. *)
Definition layout : Type := list (string * Z).

Fixpoint find_field (l : layout) (name : string) (lo : Z) : Z * Z :=
  match l with
  | [] => (lo, 0)
  | (m, n) :: l => if String.eqb m name then (lo, n) else find_field l name (lo + n)
  end.

(** Reading and assigning a member; its first byte; the size in bits. *)
Definition getf (l : layout) (name : string) (v : Z) : Z := let '(lo, n) := find_field l name 0 in bits lo n v.
Definition putf (l : layout) (name : string) (x v : Z) : Z := let '(lo, n) := find_field l name 0 in set_bits lo n x v.
Definition offset_of (l : layout) (name : string) : Z := (find_field l name 0).1 / 8.
Definition layout_size (l : layout) : Z := foldr (fun f n => f.2 + n) 0 l.

(** A list of assignments, in order, and the last value given to a member. *)
Fixpoint puts (l : layout) (xs : list (string * Z)) (v : Z) : Z :=
  match xs with [] => v | (name, x) :: xs => puts l xs (putf l name x v) end.
Fixpoint assigned (name : string) (xs : list (string * Z)) : option Z :=
  match xs with
  | [] => None
  | (m, x) :: xs => match assigned name xs with Some y => Some y | None => if String.eqb m name then Some x else None end
  end.

(** ** Packed structures *)

(** The little-endian number in [n] bytes at address [a] of a byte memory. *)
Fixpoint le_at (m : Z -> Z) (a : Z) (n : nat) : Z :=
  match n with O => 0 | S n => m a + 256 * le_at m (a + 1) n end.

(** The bytes of a number. *)
Fixpoint le_bytes (n : nat) (v : Z) : list Z :=
  match n with O => [] | S n => v mod 256 :: le_bytes n (v / 256) end.

(** ** Lemmas: words of a fixed width *)

Lemma testbit_u32 x i : 0 <= i -> Z.testbit (u32 x) i = (i <? 32) && Z.testbit x i.
Proof.
  intros Hi. change (u32 x) with (x mod 2 ^ 32). destruct (Z.ltb_spec i 32).
  - by rewrite Z.mod_pow2_bits_low by lia.
  - by rewrite Z.mod_pow2_bits_high by lia.
Qed.

Lemma testbit_u16 x i : 0 <= i -> Z.testbit (u16 x) i = (i <? 16) && Z.testbit x i.
Proof.
  intros Hi. change (u16 x) with (x mod 2 ^ 16). destruct (Z.ltb_spec i 16).
  - by rewrite Z.mod_pow2_bits_low by lia.
  - by rewrite Z.mod_pow2_bits_high by lia.
Qed.

Lemma u32_range x : 0 <= u32 x < 2 ^ 32.
Proof. apply Z.mod_pos_bound. lia. Qed.

Lemma u16_range x : 0 <= u16 x < 2 ^ 16.
Proof. apply Z.mod_pos_bound. lia. Qed.

Lemma testbit_small x n i : 0 <= x < 2 ^ n -> 0 <= n <= i -> Z.testbit x i = false.
Proof. intros Hx Hi. rewrite <- (Z.mod_small x (2 ^ n)) by lia. apply Z.mod_pow2_bits_high. lia. Qed.

(** Two words are equal when their bits are; the bits are checked one by one. *)
Lemma bits_ext (n : nat) x y :
  0 <= x < 2 ^ Z.of_nat n -> 0 <= y < 2 ^ Z.of_nat n ->
  Forall (fun i => Z.testbit x i = Z.testbit y i) (seqZ 0 (Z.of_nat n)) -> x = y.
Proof.
  intros Hx Hy H. apply Z.bits_inj'. intros i Hi. destruct (Z.lt_ge_cases i (Z.of_nat n)) as [Hlt | Hge].
  - rewrite Forall_forall in H. apply H, elem_of_seqZ. lia.
  - by rewrite (testbit_small x (Z.of_nat n) i), (testbit_small y (Z.of_nat n) i) by lia.
Qed.

Lemma word_land n x y : 0 <= x < 2 ^ n -> 0 <= n -> 0 <= Z.land x y < 2 ^ n.
Proof.
  intros Hx Hn. assert (H0 : 0 <= Z.land x y) by (apply Z.land_nonneg; lia). split; [done |].
  destruct (Z.eq_dec (Z.land x y) 0) as [-> | Hne]; [lia |]. apply Z.log2_lt_pow2; [lia |].
  destruct (Z.lt_ge_cases (Z.log2 (Z.land x y)) n) as [| Hge]; [done | exfalso].
  assert (Hb := Z.bit_log2 (Z.land x y)). rewrite Z.land_spec, (testbit_small x n) in Hb by lia. discriminate Hb. lia.
Qed.

Lemma word_lor n x y : 0 <= x < 2 ^ n -> 0 <= y < 2 ^ n -> 0 <= n -> 0 <= Z.lor x y < 2 ^ n.
Proof.
  intros Hx Hy Hn. assert (H0 : 0 <= Z.lor x y) by (apply Z.lor_nonneg; lia). split; [done |].
  destruct (Z.eq_dec (Z.lor x y) 0) as [-> | Hne]; [lia |]. apply Z.log2_lt_pow2; [lia |].
  destruct (Z.lt_ge_cases (Z.log2 (Z.lor x y)) n) as [| Hge]; [done | exfalso].
  assert (Hb := Z.bit_log2 (Z.lor x y)).
  rewrite Z.lor_spec, (testbit_small x n), (testbit_small y n) in Hb by lia. discriminate Hb. lia.
Qed.

(** Evaluate the bit of a word at a constant position. *)
Ltac bit_step :=
  match goal with
  | |- context [Z.testbit (Z.lor ?a ?b) ?i] => rewrite (Z.lor_spec a b i)
  | |- context [Z.testbit (Z.land ?a ?b) ?i] => rewrite (Z.land_spec a b i)
  | |- context [Z.testbit (Z.ldiff ?a ?b) ?i] => rewrite (Z.ldiff_spec a b i)
  | |- context [Z.testbit (Z.shiftl ?a ?n) ?i] => rewrite (Z.shiftl_spec a n i) by lia
  | |- context [Z.testbit (Z.shiftr ?a ?n) ?i] => rewrite (Z.shiftr_spec a n i) by lia
  | |- context [Z.testbit (u64 ?a) ?i] => rewrite (testbit_u64 a i) by lia
  | |- context [Z.testbit (u32 ?a) ?i] => rewrite (testbit_u32 a i) by lia
  | |- context [Z.testbit (u16 ?a) ?i] => rewrite (testbit_u16 a i) by lia
  | |- context [Z.testbit (u8 ?a) ?i] => rewrite (testbit_u8 a i) by lia
  end.

Ltac bit_consts :=
  repeat match goal with
  | |- context [Z.testbit ?c ?i] =>
      let b := eval vm_compute in (Z.testbit c i) in
      match b with true => change (Z.testbit c i) with true | false => change (Z.testbit c i) with false end
  | |- context [Z.ltb ?a ?b] =>
      let r := eval vm_compute in (Z.ltb a b) in
      match r with true => change (Z.ltb a b) with true | false => change (Z.ltb a b) with false end
  end.

(** Normalise the constant positions [16 - 8] and [3 + 32]. *)
Ltac bit_indices :=
  repeat match goal with
  | |- context [Z.testbit ?x (?a + ?b)] => let c := eval vm_compute in (a + b) in progress change (Z.testbit x (a + b)) with (Z.testbit x c)
  | |- context [Z.testbit ?x (?a - ?b)] => let c := eval vm_compute in (a - b) in progress change (Z.testbit x (a - b)) with (Z.testbit x c)
  end.

Ltac bit_neg :=
  repeat match goal with
  | |- context [Z.testbit ?x (Z.neg ?p)] => change (Z.testbit x (Z.neg p)) with (Z.testbit x (Z.neg p)); rewrite (Z.testbit_neg_r x (Z.neg p)) by lia
  end.

(** Close an equation between words of [n] bits; the bounds are left. *)
Ltac bitwise n :=
  apply (bits_ext n);
  [ | | let l := eval vm_compute in (seqZ 0 (Z.of_nat n)) in change (seqZ 0 (Z.of_nat n)) with l;
        repeat apply Forall_cons_2; [.. | apply Forall_nil_2];
        repeat (bit_step; bit_indices; bit_neg); bit_consts; rewrite ?andb_true_r, ?andb_false_r, ?orb_false_r, ?orb_true_r; cbn [andb orb negb];
        try reflexivity ].

(** ** Lemmas: fields *)

Lemma word_shiftl n k w x : 0 <= x < 2 ^ n -> 0 <= k -> 0 <= n -> n + k <= w -> 0 <= Z.shiftl x k < 2 ^ w.
Proof.
  intros Hx Hk Hn Hw. rewrite Z.shiftl_mul_pow2 by lia. assert (0 < 2 ^ k) by (apply Z.pow_pos_nonneg; lia).
  assert (2 ^ n * 2 ^ k <= 2 ^ w) by (rewrite <- Z.pow_add_r by lia; apply Z.pow_le_mono_r; lia). nia.
Qed.

Lemma bits_range lo n v w : 0 <= n <= w -> 0 <= bits lo n v < 2 ^ w.
Proof.
  intros Hn. unfold bits. rewrite Z.land_ones by lia. pose proof (Z.mod_pos_bound (Z.shiftr v lo) (2 ^ n)).
  assert (0 < 2 ^ n) by (apply Z.pow_pos_nonneg; lia). assert (2 ^ n <= 2 ^ w) by (apply Z.pow_le_mono_r; lia). lia.
Qed.

Lemma bits_mod lo n v : 0 <= lo -> 0 <= n -> bits lo n v = (v / 2 ^ lo) mod 2 ^ n.
Proof. intros Hl Hn. unfold bits. by rewrite Z.land_ones, Z.shiftr_div_pow2 by lia. Qed.

Lemma testbit_bits lo n v i : 0 <= lo -> 0 <= n -> 0 <= i -> Z.testbit (bits lo n v) i = (i <? n) && Z.testbit v (i + lo).
Proof.
  intros Hl Hn Hi. unfold bits. rewrite Z.land_spec, Z.shiftr_spec, Z.testbit_ones_nonneg by lia. apply andb_comm.
Qed.

Lemma testbit_set_bits lo n x v i :
  0 <= lo -> 0 <= n -> 0 <= i ->
  Z.testbit (set_bits lo n x v) i = if decide (lo <= i < lo + n) then Z.testbit x (i - lo) else Z.testbit v i.
Proof.
  intros Hl Hn Hi. unfold set_bits. rewrite Z.lor_spec, Z.ldiff_spec, !Z.shiftl_spec, Z.land_spec by lia.
  destruct (Z.lt_ge_cases i lo) as [Hlt | Hge].
  - rewrite decide_False by lia. rewrite !(Z.testbit_neg_r _ (i - lo)) by lia. by rewrite andb_true_r, orb_false_r.
  - rewrite !Z.testbit_ones_nonneg by lia. destruct (Z.ltb_spec (i - lo) n).
    + rewrite decide_True by lia. by rewrite andb_false_r, andb_true_r.
    + rewrite decide_False by lia. by rewrite andb_true_r, andb_false_r, orb_false_r.
Qed.

(** A field reads back what was written, truncated; other fields are kept. *)
Lemma bits_set_same lo n x v : 0 <= lo -> 0 <= n -> bits lo n (set_bits lo n x v) = x mod 2 ^ n.
Proof.
  intros Hl Hn. rewrite <- Z.land_ones by lia. apply Z.bits_inj'. intros i Hi.
  rewrite testbit_bits, testbit_set_bits, Z.land_spec, Z.testbit_ones_nonneg by lia.
  destruct (Z.ltb_spec i n); cbn.
  - rewrite decide_True by lia. rewrite andb_true_r. f_equal. lia.
  - by rewrite andb_false_r.
Qed.

Lemma bits_set_other lo n lo' n' x v :
  0 <= lo -> 0 <= n -> 0 <= lo' -> 0 <= n' -> lo + n <= lo' \/ lo' + n' <= lo -> bits lo n (set_bits lo' n' x v) = bits lo n v.
Proof.
  intros Hl Hn Hl' Hn' Hd. apply Z.bits_inj'. intros i Hi. rewrite !testbit_bits, testbit_set_bits by lia.
  destruct (Z.ltb_spec i n); [| done]. rewrite decide_False by lia. done.
Qed.

Lemma set_bits_range lo n x v w : 0 <= lo -> 0 <= n -> lo + n <= w -> 0 <= v < 2 ^ w -> 0 <= set_bits lo n x v < 2 ^ w.
Proof.
  intros Hl Hn Hw Hv. unfold set_bits. apply word_lor; [| | lia].
  - replace (Z.ldiff v (Z.shiftl (Z.ones n) lo)) with (Z.land v (Z.lnot (Z.shiftl (Z.ones n) lo))) by (symmetry; apply Z.ldiff_land).
    apply word_land; lia.
  - rewrite Z.land_ones, Z.shiftl_mul_pow2 by lia. assert (Hx := Z.mod_pos_bound x (2 ^ n)).
    assert (0 < 2 ^ n) by (apply Z.pow_pos_nonneg; lia). assert (0 < 2 ^ lo) by (apply Z.pow_pos_nonneg; lia).
    assert (2 ^ n * 2 ^ lo <= 2 ^ w) by (rewrite <- Z.pow_add_r by lia; apply Z.pow_le_mono_r; lia). nia.
Qed.

(** Members of a structure.  The conditions on the layout are decided by running
    [find_field]. *)
Lemma getf_putf l name x v lo n :
  find_field l name 0 = (lo, n) -> 0 <= lo -> 0 <= n -> getf l name (putf l name x v) = x mod 2 ^ n.
Proof. intros E Hl Hn. unfold getf, putf. rewrite E. by apply bits_set_same. Qed.

Lemma getf_putf_other l name l' name' x v lo n lo' n' :
  find_field l name 0 = (lo, n) -> find_field l' name' 0 = (lo', n') -> 0 <= lo -> 0 <= n -> 0 <= lo' -> 0 <= n' ->
  lo + n <= lo' \/ lo' + n' <= lo -> getf l name (putf l' name' x v) = getf l name v.
Proof. intros E E' ? ? ? ? ?. unfold getf, putf. rewrite E, E'. by apply bits_set_other. Qed.

Lemma putf_range l name x v lo n w :
  find_field l name 0 = (lo, n) -> 0 <= lo -> 0 <= n -> lo + n <= w -> 0 <= v < 2 ^ w -> 0 <= putf l name x v < 2 ^ w.
Proof. intros E ? ? ? ?. unfold putf. rewrite E. by apply set_bits_range. Qed.

(** [getf] after assignments to members with constant names. *)
Ltac fields :=
  repeat match goal with
  | |- context [getf ?l ?m (putf ?l ?m ?x ?v)] => rewrite (getf_putf l m x v _ _ eq_refl) by lia
  | |- context [getf ?l ?m (putf ?l' ?m' ?x ?v)] => rewrite (getf_putf_other l m l' m' x v _ _ _ _ eq_refl eq_refl) by lia
  end.

(** Members with different names do not overlap. *)
Lemma find_field_disjoint l name name' lo0 :
  Forall (fun f => 0 <= f.2) l -> name <> name' ->
  let '(lo, n) := find_field l name lo0 in let '(lo', n') := find_field l name' lo0 in
  lo0 <= lo /\ 0 <= n /\ (lo + n <= lo' \/ lo' + n' <= lo).
Proof.
  intros Hl Hne. revert lo0. induction Hl as [| [m k] l Hk Hl IH]; intros lo0; cbn; [lia |]. cbn in Hk.
  assert (Hge : forall nm lo, lo <= (find_field l nm lo).1 /\ 0 <= (find_field l nm lo).2).
  { clear IH. intros nm. induction Hl as [| [m' k'] l Hk' Hl IH]; intros lo; cbn; [lia |]. cbn in Hk'.
    destruct (String.eqb m' nm); cbn; [lia |]. specialize (IH (lo + k')). lia. }
  destruct (String.eqb_spec m name) as [E1 | H1], (String.eqb_spec m name') as [E2 | H2]; [congruence | | |].
  - specialize (Hge name' (lo0 + k)). destruct (find_field l name' (lo0 + k)). cbn in *. lia.
  - specialize (Hge name (lo0 + k)). destruct (find_field l name (lo0 + k)). cbn in *. lia.
  - specialize (IH (lo0 + k)). destruct (find_field l name (lo0 + k)), (find_field l name' (lo0 + k)). lia.
Qed.

Lemma getf_at l name lo n v : find_field l name 0 = (lo, n) -> bits lo n v = getf l name v.
Proof. intros E. unfold getf. by rewrite E. Qed.

(** Reading a member after a list of assignments. *)
Lemma getf_puts l name xs v lo n :
  Forall (fun f => 0 <= f.2) l -> find_field l name 0 = (lo, n) -> 0 <= lo -> 0 <= n ->
  getf l name (puts l xs v) = match assigned name xs with Some x => x mod 2 ^ n | None => getf l name v end.
Proof.
  intros Hl E Hlo Hn. revert v. induction xs as [| [m x] xs IH]; intros v; cbn; [done |]. rewrite IH.
  destruct (assigned name xs); [done |]. destruct (String.eqb_spec m name) as [-> | Hne]; [by eapply getf_putf |].
  assert (H1 := find_field_disjoint l name m 0 Hl ltac:(congruence)). assert (H2 := find_field_disjoint l m name 0 Hl Hne).
  rewrite E in *. destruct (find_field l m 0) as [lo' n'] eqn:E'. eapply getf_putf_other; [done.. | lia | lia | lia].
Qed.

(** ** Lemmas: packed structures *)

Lemma length_le_bytes n v : length (le_bytes n v) = n.
Proof. revert v. induction n; intros v; cbn; auto. Qed.

Lemma le_at_ext m m' a n : (forall x, a <= x < a + Z.of_nat n -> m x = m' x) -> le_at m a n = le_at m' a n.
Proof.
  revert a. induction n as [| n IH]; intros a H; [done |]. cbn. rewrite (H a) by lia. rewrite (IH (a + 1)); [done |]. intros x Hx. apply H. lia.
Qed.

(** Reading the bytes of a number gives the number back. *)
Lemma le_at_bytes m a n v :
  0 <= v < 256 ^ Z.of_nat n -> (forall i b, le_bytes n v !! i = Some b -> m (a + Z.of_nat i) = b) -> le_at m a n = v.
Proof.
  revert a v. induction n as [| n IH]; intros a v Hv H; [cbn in *; lia |].
  assert (H0 := H 0%nat (v mod 256) eq_refl). rewrite Z.add_0_r in H0. cbn [le_at]. rewrite H0, (IH (a + 1) (v / 256)).
  - pose proof (Z.div_mod v 256). lia.
  - rewrite Nat2Z.inj_succ, Z.pow_succ_r in Hv by lia. split; [apply Z.div_pos; lia | apply Z.div_lt_upper_bound; lia].
  - intros i b Hi. replace (a + 1 + Z.of_nat i) with (a + Z.of_nat (S i)) by lia. by apply H.
Qed.

(** The bits of a number in memory are the bits of its bytes. *)
Lemma testbit_le_at m a n i :
  (forall x, 0 <= m x < 256) -> 0 <= i -> Z.testbit (le_at m a n) i = (i <? 8 * Z.of_nat n) && Z.testbit (m (a + i / 8)) (i mod 8).
Proof.
  intros Hm. revert a i. induction n as [| n IH]; intros a i Hi.
  { cbn [le_at]. rewrite Z.bits_0. destruct (Z.ltb_spec i (8 * Z.of_nat 0)); [lia | done]. }
  cbn [le_at]. specialize (Hm a). destruct (Z.lt_ge_cases i 8) as [Hlt | Hge].
  - rewrite <- (Z.mod_pow2_bits_low _ 8) by lia. change (2 ^ 8) with 256. rewrite (Z.mul_comm 256), Z.mod_add, (Z.mod_small (m a)) by lia.
    rewrite (Z.div_small i), (Z.mod_small i), Z.add_0_r by lia. destruct (Z.ltb_spec i (8 * Z.of_nat (S n))); [done | lia].
  - replace i with (i - 8 + 8) at 1 by lia. rewrite <- Z.div_pow2_bits by lia. change (2 ^ 8) with 256.
    rewrite (Z.mul_comm 256), Z.div_add, (Z.div_small (m a)), Z.add_0_l, IH by lia.
    assert (Hd : i = (i - 8) + 1 * 8) by lia. assert (Hq : i / 8 = (i - 8) / 8 + 1) by (rewrite Hd at 1; rewrite Z.div_add by lia; done).
    assert (Hr : i mod 8 = (i - 8) mod 8) by (rewrite Hd at 1; by rewrite Z.mod_add by lia).
    rewrite Hq, Hr. replace (a + ((i - 8) / 8 + 1)) with (a + 1 + (i - 8) / 8) by lia. f_equal.
    destruct (Z.ltb_spec (i - 8) (8 * Z.of_nat n)), (Z.ltb_spec i (8 * Z.of_nat (S n))); (done || lia).
Qed.

(** A field is its lower and its upper part. *)
Lemma bits_split lo a b v : 0 <= lo -> 0 <= a -> 0 <= b -> bits lo (a + b) v = bits lo a v + 2 ^ a * bits (lo + a) b v.
Proof.
  intros Hl Ha Hb. rewrite !bits_mod, !Z.pow_add_r by lia. rewrite <- Z.div_div by (try apply Z.pow_nonzero; try apply Z.pow_pos_nonneg; lia).
  apply Z.rem_mul_r; [apply Z.pow_nonzero | apply Z.pow_pos_nonneg]; lia.
Qed.
