(* ===== verification/Frames.v ===== *)
(** * Frames: the interface of the physical memory manager

    What the rest of the kernel relies on when it calls [mm::pmm::alloc_block]
    and [mm::pmm::free_block].  [fa_pages] is the abstract value of a state, the
    list of the free frames; Pmm.v gives the instance and discharges the laws,
    Paging.v and Heap.v are proved against the interface. *)

From S2P Require Import Prelude.

Class FrameAllocator (S : Type) := {
  fa_alloc : S -> res (Z * S);
  fa_free : Z -> S -> res S;
  fa_pages : S -> list Z;
  fa_wf : S -> Prop
}.

(** An address a frame can have. *)
Definition frame_addr (a : Z) : Prop := 0 <= a /\ a + block_size < 18446744073709551616.

Class FrameAllocatorLaws (S : Type) `{!FrameAllocator S} := {
  fa_alloc_law s :
    fa_wf s ->
    (fa_pages s = [] /\ exists msg, fa_alloc s = Panic msg) \/
    (exists a s', fa_alloc s = Ret (a, s') /\ fa_wf s' /\ fa_pages s ≡ₚ a :: fa_pages s');
  fa_free_law a s s' :
    fa_wf s -> frame_addr a -> fa_free a s = Ret s' ->
    fa_wf s' /\ fa_pages s' ≡ₚ a :: fa_pages s
}.

Section laws.
Context {S : Type} `{FA : FrameAllocatorLaws S}.

(** The form clients use: what a successful allocation gives. *)
Lemma fa_alloc_Ret s a s' :
  fa_wf s -> fa_alloc s = Ret (a, s') -> fa_wf s' /\ fa_pages s ≡ₚ a :: fa_pages s'.
Proof.
  intros Hw Ha. destruct (fa_alloc_law s Hw) as [[_ (m & Hm)] | (a2 & s2 & H2 & Hw2 & Hp2)];
    [congruence |]. rewrite Ha in H2. injection H2 as -> ->. done.
Qed.

(** An allocation succeeds while a frame is free. *)
Lemma fa_alloc_success s :
  fa_wf s -> fa_pages s <> [] -> exists a s', fa_alloc s = Ret (a, s').
Proof.
  intros Hw Hn. destruct (fa_alloc_law s Hw) as [[H _] | (a & s' & H & _)]; [done | eauto].
Qed.
End laws.
