(* ===== verification/Pmm.v ===== *)
(** * Pmm: the physical memory manager

    Models source/mm/pmm.cpp.  Free memory is kept as a stack of run-length
    entries [{base, n_pages}] in the memory behind the kernel image.  The state
    holds every slot between [stack_base] and [stack_top] — also the stale ones
    above the stack pointer, which [sorted_insert] reads — and the number of
    live entries.  The abstract value of a state is the list of its free pages,
    [free_pages]; the operations are specified by what they do to it. *)

From S2P Require Import Prelude Bits Frames.

Module pmm.
Record rle_stack_entry := mk_entry { base : Z; n_pages : Z }.

(** [slots]: the memory from [stack_base] to [stack_top]; [sp]:
    [stack_pointer - stack_base] in entries. *)
Record state := mk { slots : list rle_stack_entry; sp : nat }.

(** [stack_top - stack_base]. *)
Definition top (st : state) : nat := length (slots st).

(** [rle_stack_entry::operator<]. *)
Definition entry_lt (x y : rle_stack_entry) : bool := base x <? base y.

Definition pop (st : state) : res (rle_stack_entry * state) :=
  match sp st with
  | O => Panic "[PMM]: RLE Stack underflow"
  | S i => ent ← access (slots st !! i); mret (ent, mk (slots st) i)
  end.

Definition push (entry : rle_stack_entry) (st : state) : res state :=
  if decide (sp st + 2 = top st)%nat then Panic "[PMM]: RLE Stack overflow"
  else if decide (sp st < top st)%nat
       then mret (mk (<[sp st := entry]> (slots st)) (S (sp st)))
       else Undef.

(** [sorted_insert] and [sort_stack]: each recursive call runs with one entry
    less on the stack, so the number of entries bounds the recursion ([fuel]). *)
Fixpoint sorted_insert (fuel : nat) (x : rle_stack_entry) (st : state) : res state :=
  match fuel with
  | O => NoFuel
  | S fuel =>
      b ← (if decide (sp st = 0)%nat then mret true
           else e ← access (slots st !! sp st); mret (entry_lt x e));
      if (b : bool) then push x st
      else
        '(temp, st) ← pop st;
        st ← sorted_insert fuel x st;
        push temp st
  end.

Fixpoint sort_stack_loop (fuel : nat) (st : state) : res state :=
  match fuel with
  | O => NoFuel
  | S fuel =>
      if decide (sp st = 0)%nat then mret st
      else
        '(entry, st) ← pop st;
        st ← sort_stack_loop fuel st;
        if n_pages entry =? 0 then mret st else sorted_insert (S (sp st)) entry st
  end.

Definition sort_stack (st : state) : res state := sort_stack_loop (S (sp st)) st.

(** [alloc_block]: the loop pops one entry per round. *)
Fixpoint pop_nonempty (fuel : nat) (st : state) : res (rle_stack_entry * state) :=
  match fuel with
  | O => NoFuel
  | S fuel =>
      '(ent, st) ← pop st;
      if n_pages ent =? 0 then pop_nonempty fuel st else mret (ent, st)
  end.

Definition alloc_block (st : state) : res (Z * state) :=
  '(ent, st) ← pop_nonempty (S (sp st)) st;
  let addr := base ent in
  let ent := mk_entry (u64 (base ent + block_size)) (u64 (n_pages ent - 1)) in
  if n_pages ent =? 0 then mret (addr, st)
  else st ← push ent st; mret (addr, st).

(** [alloc_n_blocks]: the loop over the live entries has no [break]. *)
Fixpoint take_n (n : Z) (es : list rle_stack_entry) (acc : Z) : Z * list rle_stack_entry :=
  match es with
  | [] => (acc, [])
  | e :: es =>
      if n <=? n_pages e then
        let '(acc', es') := take_n n es (base e) in
        (acc', mk_entry (u64 (base e + u64 (block_size * n))) (u64 (n_pages e - n)) :: es')
      else
        let '(acc', es') := take_n n es acc in (acc', e :: es')
  end.

(** The live entries, and the state with them replaced in place. *)
Definition live (st : state) : list rle_stack_entry := take (sp st) (slots st).
Definition set_live (es : list rle_stack_entry) (st : state) : state :=
  mk (es ++ drop (sp st) (slots st)) (sp st).

Definition alloc_n_blocks (n : Z) (st : state) : res (Z * state) :=
  let '(b, es) := take_n n (live st) 0 in
  if b =? 0 then Panic "[PMM]: Out of memory" else mret (b, set_live es st).

(** [free_block]: extend the first entry that touches the page, if any. *)
Fixpoint merge (addr : Z) (es : list rle_stack_entry) : option (list rle_stack_entry) :=
  match es with
  | [] => None
  | e :: es =>
      if u64 (addr + block_size) =? base e then
        Some (mk_entry (u64 (base e - block_size)) (u64 (n_pages e + 1)) :: es)
      else if u64 (base e + u64 (n_pages e * block_size)) =? addr then
        Some (mk_entry (base e) (u64 (n_pages e + 1)) :: es)
      else match merge addr es with Some es' => Some (e :: es') | None => None end
  end.

Definition free_block (addr : Z) (st : state) : res state :=
  match merge addr (live st) with
  | Some es => mret (set_live es st)
  | None => push (mk_entry addr 1) st
  end.

(** [reserve_block], the lambda of [init]: [i] runs over the live entries. *)
Fixpoint reserve_from (n i : nat) (addr : Z) (st : state) : res state :=
  match n with
  | O => mret st
  | S n =>
      e ← access (slots st !! i);
      if (base e <=? addr) && (addr <=? u64 (base e + u64 (n_pages e * block_size)))
         && negb (n_pages e =? 0)
      then
        let low_offset := u64 (addr - base e) in
        let high_offset := u64 (u64 (base e + u64 (n_pages e * block_size)) - u64 (addr + block_size)) in
        let first := mk_entry (base e) (low_offset / block_size) in
        let second := mk_entry (u64 (addr + block_size)) (high_offset / block_size) in
        if n_pages first =? 0 then mret (mk (<[i := second]> (slots st)) (sp st))
        else
          let st := mk (<[i := first]> (slots st)) (sp st) in
          if n_pages second =? 0 then mret st else push second st
      else reserve_from n (S i) addr st
  end.

Definition reserve_block (addr : Z) (st : state) : res state := reserve_from (sp st) 0 addr st.

(** [for(addr = a; addr <= last; addr += block_size) reserve_block(addr)]. *)
Fixpoint reserve_loop (fuel : nat) (addr last : Z) (st : state) : res state :=
  match fuel with
  | O => NoFuel
  | S fuel =>
      if addr <=? last then
        st ← reserve_block addr st; reserve_loop fuel (u64 (addr + block_size)) last st
      else mret st
  end.

(** Enough rounds for every loop that ends before the address wraps around. *)
Definition reserve_range (addr last : Z) (st : state) : res state :=
  reserve_loop (S (S (Z.to_nat ((last - addr) / block_size)))) addr last st.

(** The memory map of the boot protocol. *)
Record mmap_entry := mk_mmap { m_addr : Z; m_len : Z; m_type : Z }.
Definition MULTIBOOT_MEMORY_AVAILABLE : Z := 1.

Record boot_protocol := mk_boot {
  mmap : list mmap_entry; reserve_start : Z; reserve_length : Z;
  kernel_initrd_ptr : Z; kernel_initrd_size : Z }.

Definition count_blocks (es : list mmap_entry) : Z :=
  foldl (fun n e => if m_type e =? MULTIBOOT_MEMORY_AVAILABLE
                    then u64 (n + m_len e / block_size) else n) 0 es.

Definition MiB : Z := 1024 * 1024.

(** The second loop of [init]: push the available memory above 1 MiB. *)
Fixpoint push_available (es : list mmap_entry) (st : state) : res state :=
  match es with
  | [] => mret st
  | e :: es =>
      if negb (m_type e =? MULTIBOOT_MEMORY_AVAILABLE) then push_available es st
      else if u64 (m_addr e + m_len e) <? MiB then push_available es st
      else
        st ← (if m_addr e <? MiB
              then push (mk_entry MiB (u64 (m_len e - (MiB - m_addr e)) / block_size)) st
              else push (mk_entry (m_addr e) (m_len e / block_size)) st);
        push_available es st
  end.

Fixpoint alloc_times (n : nat) (st : state) : res state :=
  match n with
  | O => mret st
  | S n => '(_, st) ← alloc_block st; alloc_times n st
  end.

(** [init]: [ram] is what the memory behind the kernel image holds, [zones] the
    result of [proc::elf::get_symbol_pmm_exclusion_zones]. *)
Definition init (kernel_start kernel_end : Z) (ram : nat -> list rle_stack_entry)
    (boot : boot_protocol) (zones : (Z * Z) * (Z * Z)) : res state :=
  let n_blocks := count_blocks (mmap boot) in
  let worst_case_size := u64 (n_blocks * 16) in
  let kernel_end := u64 (kernel_end + worst_case_size) in
  let mbd_start := Z.land (reserve_start boot) (not64 (block_size - 1)) in
  let mbd_end := u64 (Z.land (u64 (reserve_start boot + reserve_length boot))
                             (not64 (block_size - 1)) + block_size) in
  let initrd_start := kernel_initrd_ptr boot in
  let initrd_end := u64 (kernel_initrd_size boot + initrd_start) in
  let '((symtab_base, symtab_size), (strtab_base, strtab_size)) := zones in
  st ← push_available (mmap boot) (mk (ram (Z.to_nat (worst_case_size / 16))) 0);
  st ← sort_stack st;
  st ← reserve_range (u64 (kernel_start - KERNEL_VBASE)) (u64 (kernel_end - KERNEL_VBASE)) st;
  st ← reserve_range (u64 (mbd_start - KERNEL_VBASE)) (u64 (mbd_end - KERNEL_VBASE)) st;
  st ← reserve_range initrd_start initrd_end st;
  st ← reserve_range (ALIGN_DOWN symtab_base block_size)
                     (ALIGN_UP (u64 (symtab_base + symtab_size)) block_size) st;
  st ← reserve_range (ALIGN_DOWN strtab_base block_size)
                     (ALIGN_UP (u64 (strtab_base + strtab_size)) block_size) st;
  st ← sort_stack st;
  alloc_times 10 st.

(** ** Specification *)

(** The pages of an entry, and the free pages of a state. *)
Definition pages (e : rle_stack_entry) : list Z :=
  (fun i => base e + i * block_size) <$> seqZ 0 (n_pages e).
Definition free_pages (st : state) : list Z := live st ≫= pages.

Definition entry_ok (e : rle_stack_entry) : Prop :=
  0 <= base e /\ 0 <= n_pages e /\ base e + n_pages e * block_size < 18446744073709551616.

Definition wf (st : state) : Prop :=
  (sp st + 2 <= top st)%nat /\ Forall entry_ok (live st).

(** A page address that can be handed to [free_block]. *)
Definition page_ok (a : Z) : Prop := 0 <= a /\ a + block_size < 18446744073709551616.

#[export] Instance entry_ok_dec e : Decision (entry_ok e).
Proof. unfold entry_ok. apply _. Defined.
#[export] Instance wf_dec st : Decision (wf st).
Proof. unfold wf. apply _. Defined.
#[export] Instance page_ok_dec a : Decision (page_ok a).
Proof. unfold page_ok. apply _. Defined.
#[export] Instance entry_eq_dec : EqDecision rle_stack_entry.
Proof. solve_decision. Defined.
End pmm.
Export (hints) pmm.

(** ** Lemmas *)

Section pmm_lemmas.
Import pmm.
Implicit Types (st : state) (e x : rle_stack_entry) (es : list rle_stack_entry) (a : Z).

Lemma pages_zero b : pages (mk_entry b 0) = [].
Proof. reflexivity. Qed.

Lemma pages_app b n m :
  0 <= n -> 0 <= m ->
  pages (mk_entry b (n + m)) = pages (mk_entry b n) ++ pages (mk_entry (b + n * block_size) m).
Proof.
  intros Hn Hm. unfold pages. simpl. rewrite seqZ_app, fmap_app by lia. f_equal.
  rewrite (Z.add_comm 0 n), <- (fmap_add_seqZ n 0 m), <- list_fmap_compose.
  apply list_fmap_ext. intros i y _. simpl. lia.
Qed.

Lemma pages_one b : pages (mk_entry b 1) = [b].
Proof. unfold pages. simpl. f_equal. lia. Qed.

Lemma pages_cons b n :
  0 < n -> pages (mk_entry b n) = b :: pages (mk_entry (b + block_size) (n - 1)).
Proof.
  intros Hn. replace n with (1 + (n - 1)) at 1 by lia. rewrite pages_app, pages_one by lia.
  done.
Qed.

Lemma pages_snoc b n :
  0 <= n -> pages (mk_entry b (n + 1)) = pages (mk_entry b n) ++ [b + n * block_size].
Proof. intros Hn. by rewrite pages_app, pages_one by lia. Qed.

Lemma elem_of_pages a e :
  a ∈ pages e <-> exists i, 0 <= i < n_pages e /\ a = base e + i * block_size.
Proof.
  unfold pages. rewrite list_elem_of_fmap. setoid_rewrite elem_of_seqZ.
  split; intros (i & H1 & H2); exists i; split; try done; lia.
Qed.

Lemma live_length st : (sp st <= top st)%nat -> length (live st) = sp st.
Proof. intros H. unfold live. rewrite length_take. unfold top in H. lia. Qed.

Lemma push_ok e st :
  (sp st + 2 < top st)%nat ->
  exists st', push e st = Ret st' /\ live st' = live st ++ [e] /\
              sp st' = S (sp st) /\ top st' = top st.
Proof.
  intros H. unfold push. rewrite decide_False, decide_True by lia.
  eexists. split; [reflexivity |]. unfold live, top in *. simpl. rewrite length_insert.
  split; [| done].
  rewrite (take_S_r _ _ e) by (by apply list_lookup_insert_eq; lia).
  by rewrite take_insert_ge by lia.
Qed.

Lemma push_full e st : (sp st + 2 = top st)%nat -> push e st = Panic "[PMM]: RLE Stack overflow".
Proof. intros H. unfold push. by rewrite decide_True. Qed.

Lemma live_snoc_lookup st es e :
  (sp st <= top st)%nat -> live st = es ++ [e] ->
  sp st = S (length es) /\ slots st !! length es = Some e /\ take (length es) (slots st) = es.
Proof.
  intros Hle Hl. pose proof (live_length st Hle) as Hn. rewrite Hl, length_app in Hn. simpl in Hn.
  split; [lia |]. unfold live in Hl. split.
  - rewrite <- (lookup_take_lt _ (sp st) (length es)) by lia. rewrite Hl.
    by rewrite lookup_app_r, Nat.sub_diag by lia.
  - rewrite <- (take_app_length es [e]) at 2. rewrite <- Hl, take_take. f_equal. lia.
Qed.

Lemma pop_ok st es e :
  (sp st <= top st)%nat -> live st = es ++ [e] ->
  exists st', pop st = Ret (e, st') /\ live st' = es /\ slots st' = slots st /\
              sp st = S (sp st').
Proof.
  intros Hle Hl. destruct (live_snoc_lookup st es e Hle Hl) as (Hsp & He & Ht).
  unfold pop. rewrite Hsp, He. simpl. eexists. split; [reflexivity |].
  split; [exact Ht |]. done.
Qed.

Lemma live_nonempty st :
  (sp st <= top st)%nat -> sp st <> 0%nat -> exists es e, live st = es ++ [e].
Proof.
  intros Hle H0. pose proof (live_length st Hle) as Hn.
  destruct (live st) as [| e es _] using rev_ind; [simpl in Hn; lia | by eauto].
Qed.

Lemma sorted_insert_perm fuel x st :
  (sp st < fuel)%nat -> (sp st + 2 < top st)%nat ->
  exists st', sorted_insert fuel x st = Ret st' /\ live st' ≡ₚ x :: live st /\
              sp st' = S (sp st) /\ top st' = top st.
Proof.
  revert st. induction fuel as [| fuel IH]; intros st Hf Ht; [lia |]. cbn [sorted_insert].
  destruct (lookup_lt_is_Some_2 (slots st) (sp st)) as [e He]; [unfold top in Ht; lia |].
  assert (Hpush : exists st', push x st = Ret st' /\ live st' ≡ₚ x :: live st /\
              sp st' = S (sp st) /\ top st' = top st).
  { destruct (push_ok x st Ht) as (st' & -> & Hl & Hs). exists st'. split; [done |].
    split; [| done]. rewrite Hl. by rewrite Permutation_app_comm. }
  case_decide as H0; [exact Hpush |]. rewrite He. cbn.
  destruct (entry_lt x e); [exact Hpush |].
  destruct (live_nonempty st ltac:(lia) H0) as (es & y & Hl).
  destruct (pop_ok st es y ltac:(lia) Hl) as (st1 & -> & Hl1 & Hs1 & Hsp1). cbn.
  destruct (IH st1) as (st2 & -> & Hl2 & Hsp2 & Ht2); [lia | unfold top in *; rewrite Hs1; lia |]. cbn.
  destruct (push_ok y st2) as (st3 & -> & Hl3 & Hsp3 & Ht3); [unfold top in *; rewrite Hs1 in *; lia |].
  exists st3. split; [done |]. split; [| unfold top in *; rewrite Hs1 in *; lia].
  rewrite Hl3, Hl2, Hl1, Hl. done.
Qed.

Lemma sort_stack_loop_perm fuel st :
  (sp st < fuel)%nat -> (sp st + 2 <= top st)%nat ->
  exists st', sort_stack_loop fuel st = Ret st' /\
    live st' ≡ₚ filter (fun e => n_pages e <> 0) (live st) /\
    (sp st' <= sp st)%nat /\ top st' = top st.
Proof.
  revert st. induction fuel as [| fuel IH]; intros st Hf Ht; [lia |]. cbn [sort_stack_loop].
  case_decide as H0.
  { exists st. unfold live. rewrite H0. done. }
  destruct (live_nonempty st ltac:(lia) H0) as (es & y & Hl).
  destruct (pop_ok st es y ltac:(lia) Hl) as (st1 & -> & Hl1 & Hs1 & Hsp1). cbn.
  assert (Ht1 : top st1 = top st) by (unfold top; by rewrite Hs1).
  destruct (IH st1) as (st2 & -> & Hl2 & Hsp2 & Ht2); [lia.. |]. cbn.
  rewrite Hl, filter_app. destruct (Z.eqb_spec (n_pages y) 0) as [E | E].
  - exists st2. split; [done |]. rewrite filter_cons_False, filter_nil, app_nil_r by tauto.
    rewrite Hl2, Hl1. split; [done | lia].
  - destruct (sorted_insert_perm (S (sp st2)) y st2) as (st3 & H3 & Hl3 & Hsp3 & Ht3); [lia.. |].
    exists st3. split; [exact H3 |]. rewrite filter_cons_True, filter_nil by done.
    split; [| lia]. rewrite Hl3, Hl2, Hl1. by rewrite Permutation_app_comm.
Qed.

Lemma free_pages_filter es : filter (fun e => n_pages e <> 0) es ≫= pages = es ≫= pages.
Proof.
  induction es as [| e es IH]; [done |]. rewrite filter_cons. case_decide as H; csimpl; rewrite IH; [done |].
  destruct e as [b n]. simpl in H. assert (n = 0) as -> by lia. done.
Qed.

(** [alloc_block] finds the last entry that has pages left. *)
Lemma pop_nonempty_ok fuel st :
  (sp st < fuel)%nat -> (sp st <= top st)%nat -> Forall entry_ok (live st) ->
  (free_pages st = [] /\ pop_nonempty fuel st = Panic "[PMM]: RLE Stack underflow") \/
  (exists e es st', pop_nonempty fuel st = Ret (e, st') /\ live st' = es /\
     top st' = top st /\ (sp st' < sp st)%nat /\ Forall entry_ok (es ++ [e]) /\
     0 < n_pages e /\ free_pages st = (es ≫= pages) ++ pages e).
Proof.
  revert st. induction fuel as [| fuel IH]; intros st Hf Ht Hok; [lia |]. cbn [pop_nonempty].
  destruct (decide (sp st = 0)%nat) as [H0 | H0].
  { left. unfold free_pages, live, pop. by rewrite H0. }
  destruct (live_nonempty st Ht H0) as (es & y & Hl).
  destruct (pop_ok st es y Ht Hl) as (st1 & -> & Hl1 & Hs1 & Hsp1). cbn.
  assert (Ht1 : top st1 = top st) by (unfold top; by rewrite Hs1).
  assert (Hfree : free_pages st = (es ≫= pages) ++ pages y).
  { unfold free_pages. rewrite Hl, bind_app. csimpl. by rewrite app_nil_r. }
  rewrite Hl in Hok. destruct (Z.eqb_spec (n_pages y) 0) as [E | E].
  - assert (Hy : pages y = []) by (destruct y; simpl in E; by subst).
    rewrite Hy, app_nil_r in Hfree.
    destruct (IH st1) as [[Hn Hp] | (e & es' & st' & Hp & Hl' & Ht' & Hs' & Hok' & Hn & Hfr)];
      [lia.. | rewrite Hl1; by apply Forall_app in Hok as [? _] | |].
    + left. split; [| done]. rewrite Hfree. unfold free_pages in Hn. by rewrite Hl1 in Hn.
    + right. exists e, es', st'. repeat (split; [done || lia |]).
      rewrite Hfree, <- Hfr. unfold free_pages. by rewrite Hl1.
  - right. exists y, es, st1. repeat (split; [done || lia |]). split; [| done].
    apply Forall_app in Hok as [_ Hy]. apply Forall_singleton in Hy as (_ & ? & _). lia.
Qed.

Lemma alloc_block_ok st :
  wf st ->
  (free_pages st = [] /\ alloc_block st = Panic "[PMM]: RLE Stack underflow") \/
  (exists a st', alloc_block st = Ret (a, st') /\ wf st' /\ top st' = top st /\
     free_pages st ≡ₚ a :: free_pages st').
Proof.
  intros [Ht Hok]. unfold alloc_block.
  destruct (pop_nonempty_ok (S (sp st)) st) as
    [[Hn Hp] | ([b n] & es & st1 & Hp & Hl & Ht1 & Hs1 & Hoke & Hn & Hfr)]; [lia.. | done | |].
  { left. by rewrite Hp. }
  right. rewrite Hp. cbn. simpl in Hn. apply Forall_app in Hoke as [Hes He].
  apply Forall_singleton in He as (Hb & _ & Hu). simpl in Hb, Hu.
  rewrite (u64_small (n - 1)), (u64_small (b + block_size)) by (unfold is_u64, block_size in *; lia).
  rewrite Hfr, (pages_cons b n) by lia.
  destruct (Z.eqb_spec (n - 1) 0) as [E | E].
  - rewrite E. exists b, st1. split; [done |]. unfold wf, free_pages. rewrite Hl.
    split; [split; [lia | done] |]. split; [done |].
    rewrite pages_zero. symmetry. apply Permutation_cons_append.
  - destruct (push_ok (mk_entry (b + block_size) (n - 1)) st1) as (st2 & -> & Hl2 & Hsp2 & Ht2); [lia |].
    cbn. exists b, st2. split; [done |]. unfold wf, free_pages. rewrite Hl2, Hl.
    split; [| split; [lia |]].
    + split; [lia |]. apply Forall_app. split; [done |]. apply Forall_singleton.
      unfold entry_ok, block_size in *. simpl. lia.
    + rewrite bind_app. csimpl. rewrite app_nil_r. by rewrite Permutation_middle.
Qed.

Lemma live_set_live es st :
  (sp st <= top st)%nat -> length es = sp st ->
  live (set_live es st) = es /\ top (set_live es st) = top st.
Proof.
  intros Hle Hl. unfold live, set_live, top in *. simpl. split.
  - by rewrite take_app_length'.
  - rewrite length_app, length_drop. lia.
Qed.

Lemma merge_ok a es es' :
  page_ok a -> Forall entry_ok es -> merge a es = Some es' ->
  length es' = length es /\ Forall entry_ok es' /\ es' ≫= pages ≡ₚ a :: (es ≫= pages).
Proof.
  intros [Ha Hau] Hes. revert es'. induction Hes as [| [b n] es He Hes IH]; intros es' H; [done |].
  cbn [merge base n_pages] in H. destruct He as (Hb & Hn & Hu). cbn [base n_pages] in *.
  unfold block_size in *.
  rewrite (u64_small (a + 0x1000)) in H by (unfold is_u64; lia).
  rewrite (u64_small (n * 0x1000)), (u64_small (b + n * 0x1000)) in H by (unfold is_u64; lia).
  rewrite (u64_small (n + 1)) in H by (unfold is_u64; lia).
  destruct (Z.eqb_spec (a + 0x1000) b) as [E | E].
  - injection H as <-. subst b. rewrite (u64_small (a + 0x1000 - 0x1000)) by (unfold is_u64; lia).
    split; [done |]. split; [constructor; [| done]; unfold entry_ok, block_size; simpl; lia |].
    csimpl. rewrite (pages_cons _ (n + 1)) by lia. unfold block_size. simpl.
    replace (a + 4096 - 4096) with a by lia. replace (n + 1 - 1) with n by lia. done.
  - destruct (Z.eqb_spec (b + n * 0x1000) a) as [E2 | E2].
    + injection H as <-. split; [done |].
      split; [constructor; [| done]; unfold entry_ok, block_size; simpl; lia |].
      csimpl. rewrite pages_snoc by lia. unfold block_size. rewrite E2, <- app_assoc. simpl.
      by rewrite Permutation_middle.
    + destruct (merge a es) as [es1 |]; [| done]. injection H as <-.
      destruct (IH es1 eq_refl) as (Hl & Hok & Hp). split; [simpl; by rewrite Hl |].
      split; [constructor; [split; [done |]; split; done | done] |].
      csimpl. rewrite Hp. by rewrite Permutation_middle.
Qed.

Lemma free_block_ok a st :
  wf st -> page_ok a -> (sp st + 2 < top st)%nat ->
  exists st', free_block a st = Ret st' /\ wf st' /\ top st' = top st /\
    (sp st <= sp st' <= S (sp st))%nat /\ free_pages st' ≡ₚ a :: free_pages st.
Proof.
  intros [Ht Hok] Ha Hroom. unfold free_block.
  destruct (merge a (live st)) as [es |] eqn:E.
  - apply merge_ok in E as (Hl & Hes & Hp); [| done..].
    rewrite live_length in Hl by lia.
    destruct (live_set_live es st ltac:(lia) Hl) as [Hlive Htop].
    exists (set_live es st). split; [done |]. unfold wf, free_pages. rewrite Hlive, Htop.
    cbn [set_live sp]. split; [done |]. split; [done |]. split; [lia |]. exact Hp.
  - destruct (push_ok (mk_entry a 1) st Hroom) as (st' & -> & Hl & Hsp & Htop).
    exists st'. split; [done |]. unfold wf, free_pages. rewrite Hl, Htop, bind_app.
    split; [| split; [done |]; split; [lia |]].
    + split; [lia |]. apply Forall_app. split; [done |]. apply Forall_singleton.
      destruct Ha. unfold entry_ok, block_size in *. simpl. lia.
    + change ([mk_entry a 1] ≫= pages) with (pages (mk_entry a 1) ++ []).
      rewrite pages_one. symmetry. apply Permutation_cons_append.
Qed.

(** An entry that [reserve_block] would pick for [a]. *)
Definition touches a e : Prop :=
  base e <= a <= base e + n_pages e * block_size /\ n_pages e <> 0.

Lemma touches_test a e :
  entry_ok e ->
  (base e <=? a) && (a <=? u64 (base e + u64 (n_pages e * block_size)))
    && negb (n_pages e =? 0) = true <-> touches a e.
Proof.
  intros (Hb & Hn & Hu). unfold touches, block_size in *.
  rewrite (u64_small (n_pages e * 0x1000)), (u64_small (base e + _)) by (unfold is_u64; lia).
  rewrite !andb_true_iff, !Z.leb_le, negb_true_iff, Z.eqb_neq. tauto.
Qed.

Lemma live_insert i x st :
  (sp st <= top st)%nat -> (i < sp st)%nat ->
  live (mk (<[i := x]> (slots st)) (sp st)) = <[i := x]> (live st).
Proof. intros Hle Hi. unfold live. simpl. by rewrite take_insert_lt. Qed.

Lemma insert_middle {A} (l1 l2 : list A) (x y : A) :
  <[length l1 := y]> (l1 ++ x :: l2) = l1 ++ y :: l2.
Proof. induction l1 as [| z l1 IH]; simpl; [done |]. by rewrite <- IH. Qed.

(** The split of an entry around one of its pages. *)
Lemma pages_split b n k :
  0 <= k < n ->
  pages (mk_entry b n) = pages (mk_entry b k) ++ (b + k * block_size) ::
    pages (mk_entry (b + k * block_size + block_size) (n - k - 1)).
Proof.
  intros Hk. replace n with (k + (n - k)) at 1 by lia.
  rewrite pages_app, (pages_cons _ (n - k)) by lia. done.
Qed.

(** The three ways in which an entry is replaced, with the entry at hand. *)
Lemma reserve_hit st es1 es2 b n k i :
  (sp st + 2 < top st)%nat -> Forall entry_ok (live st) ->
  live st = es1 ++ mk_entry b n :: es2 -> i = length es1 -> 0 <= k < n ->
  let first := mk_entry b k in
  let second := mk_entry (b + k * block_size + block_size) (n - k - 1) in
  let st1 := mk (<[i := first]> (slots st)) (sp st) in
  exists st',
    (if k =? 0 then mret (mk (<[i := second]> (slots st)) (sp st))
     else if n - k - 1 =? 0 then mret st1 else push second st1) = Ret st' /\
    wf st' /\ top st' = top st /\ free_pages st ≡ₚ (b + k * block_size) :: free_pages st'.
Proof.
  intros Ht Hok Hl -> Hk first second st1.
  assert (Hlen : (length es1 < sp st)%nat).
  { rewrite <- live_length by lia. rewrite Hl, length_app. simpl. lia. }
  assert (Hins : forall y, live (mk (<[length es1 := y]> (slots st)) (sp st)) = es1 ++ y :: es2).
  { intros y. rewrite live_insert by lia. by rewrite Hl, insert_middle. }
  assert (Htop : forall y, top (mk (<[length es1 := y]> (slots st)) (sp st)) = top st).
  { intros y. unfold top. simpl. apply length_insert. }
  rewrite Hl in Hok. apply Forall_app in Hok as [Hok1 Hok2].
  apply Forall_cons in Hok2 as [He Hok2]. unfold entry_ok in He. cbn [base n_pages] in He.
  assert (Hfree : free_pages st = (es1 ≫= pages) ++ pages (mk_entry b n) ++ (es2 ≫= pages)).
  { unfold free_pages. rewrite Hl, bind_app. done. }
  rewrite Hfree, (pages_split b n k) by lia.
  assert (Hoks : entry_ok first /\ entry_ok second).
  { unfold entry_ok, first, second, block_size in *. simpl. lia. }
  destruct Hoks as [Hokf Hoksd].
  destruct (Z.eqb_spec k 0) as [-> | Hk0].
  - eexists. split; [reflexivity |]. unfold wf, free_pages. rewrite Hins, Htop, bind_app.
    split; [split; [simpl; lia |]; apply Forall_app; split; [done | by constructor] |].
    split; [done |]. rewrite pages_zero. cbn [app]. csimpl. by rewrite <- Permutation_middle.
  - destruct (Z.eqb_spec (n - k - 1) 0) as [E | E].
    + eexists. split; [reflexivity |]. unfold wf, free_pages, st1. rewrite Hins, Htop, bind_app.
      split; [split; [simpl; lia |]; apply Forall_app; split; [done | by constructor] |].
      split; [done |]. rewrite E, pages_zero. csimpl. rewrite <- app_assoc. cbn [app].
      by rewrite <- !Permutation_middle.
    + destruct (push_ok second st1) as (st' & -> & Hl' & Hsp' & Ht'); [unfold st1; rewrite Htop; simpl; lia |].
      exists st'. split; [done |]. unfold wf, free_pages. rewrite Hl', Ht'. unfold st1. rewrite Hins, Htop.
      split; [split; [rewrite Hsp'; unfold st1; simpl; lia |] |].
      { rewrite !Forall_app, Forall_cons, Forall_singleton. done. }
      split; [done |]. rewrite !bind_app. csimpl. rewrite app_nil_r.
      fold first. fold second. rewrite <- !app_assoc. cbn [app].
      rewrite <- !Permutation_middle. f_equiv. f_equiv. f_equiv.
      apply Permutation_app_comm.
Qed.

Lemma reserve_from_ok st es0 es1 es2 e a :
  (sp st + 2 < top st)%nat -> Forall entry_ok (live st) ->
  live st = es0 ++ es1 ++ e :: es2 -> Forall (fun e' => ~ touches a e') es1 -> a ∈ pages e ->
  exists st', reserve_from (length (es1 ++ e :: es2)) (length es0) a st = Ret st' /\
    wf st' /\ top st' = top st /\ free_pages st ≡ₚ a :: free_pages st'.
Proof.
  intros Ht Hok. revert es0. induction es1 as [| y es1 IH]; intros es0 Hl Hnt Ha.
  - cbn [app length reserve_from].
    assert (He : slots st !! length es0 = Some e).
    { rewrite <- (lookup_take_lt _ (sp st)).
      - fold (live st). rewrite Hl. cbn [app]. by rewrite lookup_app_r, Nat.sub_diag by lia.
      - rewrite <- live_length, Hl by lia. rewrite length_app. simpl. lia. }
    rewrite He. cbn [access mbind res_bind].
    assert (Hoke : entry_ok e). { rewrite Hl in Hok. cbn [app] in Hok. rewrite Forall_app, Forall_cons in Hok. tauto. }
    apply elem_of_pages in Ha as (k & Hk & ->). destruct e as [b n]. cbn [base n_pages] in *.
    rewrite (proj2 (touches_test _ (mk_entry b n) Hoke)); cycle 1.
    { unfold touches, block_size. simpl. lia. }
    destruct Hoke as (Hb & Hn & Hu). cbn [base n_pages] in *. unfold block_size in *.
    rewrite (u64_small (b + k * 0x1000 - b)), (u64_small (n * 0x1000)), (u64_small (b + n * 0x1000)),
      (u64_small (b + k * 0x1000 + 0x1000)), (u64_small (b + n * 0x1000 - _)) by (unfold is_u64; lia).
    replace ((b + k * 0x1000 - b) / 0x1000) with k by wrap_lia.
    replace ((b + n * 0x1000 - (b + k * 0x1000 + 0x1000)) / 0x1000) with (n - k - 1) by wrap_lia.
    by apply (reserve_hit st es0 es2 b n k (length es0)).
  - cbn [app length reserve_from].
    assert (He : slots st !! length es0 = Some y).
    { rewrite <- (lookup_take_lt _ (sp st)).
      - fold (live st). rewrite Hl. cbn [app]. by rewrite lookup_app_r, Nat.sub_diag by lia.
      - rewrite <- live_length, Hl by lia. rewrite length_app. simpl. lia. }
    rewrite He. cbn [access mbind res_bind].
    apply Forall_cons in Hnt as [Hy Hnt].
    assert (Hoky : entry_ok y).
    { rewrite Hl in Hok. rewrite Forall_app in Hok. cbn [app] in Hok. rewrite Forall_cons in Hok. tauto. }
    destruct ((base y <=? a) && _ && _) eqn:E; [by apply touches_test in E |].
    destruct (IH (es0 ++ [y])) as (st' & Hr & Hrest); [by rewrite <- app_assoc | done | done |].
    exists st'. split; [| done]. 
    replace (length (es0 ++ [y])) with (S (length es0)) in Hr by (rewrite length_app; simpl; lia).
    exact Hr.
Qed.

Lemma reserve_block_ok st es1 es2 e a :
  wf st -> (sp st + 2 < top st)%nat -> live st = es1 ++ e :: es2 ->
  Forall (fun e' => ~ touches a e') es1 -> a ∈ pages e ->
  exists st', reserve_block a st = Ret st' /\ wf st' /\ top st' = top st /\
    free_pages st ≡ₚ a :: free_pages st'.
Proof.
  intros [_ Hok] Ht Hl Hnt Ha. unfold reserve_block.
  destruct (reserve_from_ok st [] es1 es2 e a) as (st' & Hr & Hrest); try done.
  exists st'. split; [| done]. rewrite <- Hl, live_length in Hr by lia. exact Hr.
Qed.

(** ** alloc_n_blocks *)

(** What [alloc_n_blocks] removes from the entries that are big enough. *)
Definition fits (n : Z) es : list rle_stack_entry := filter (fun e => n <= n_pages e) es.

Lemma take_n_ok n es acc :
  0 < n -> Forall entry_ok es ->
  let '(b, es') := take_n n es acc in
  b = default acc (base <$> last (fits n es)) /\ length es' = length es /\
  Forall entry_ok es' /\
  es ≫= pages ≡ₚ (fits n es ≫= (fun e => pages (mk_entry (base e) n))) ++ (es' ≫= pages).
Proof.
  intros Hn Hes. revert acc. induction Hes as [| [b m] es He Hes IH]; intros acc; [done |].
  cbn [take_n n_pages base]. unfold fits. rewrite filter_cons. cbn [n_pages].
  destruct He as (Hb & Hm & Hu). cbn [base n_pages] in *.
  destruct (Z.leb_spec n m) as [Hle | Hgt].
  - rewrite decide_True by done. specialize (IH b).
    destruct (take_n n es b) as [b' es']. destruct IH as (IHb & IHl & IHok & IHp).
    fold (fits n es). split; [| split; [| split]].
    + rewrite IHb, last_cons. by destruct (last (fits n es)).
    + simpl. by rewrite IHl.
    + constructor; [| done]. unfold entry_ok, block_size in *. cbn [base n_pages].
      rewrite !u64_small by (unfold is_u64; rewrite ?u64_small; unfold is_u64; lia). lia.
    + csimpl. rewrite IHp. replace m with (n + (m - n)) at 1 by lia. rewrite pages_app by lia.
      unfold block_size in *.
      rewrite (u64_small (0x1000 * n)), (u64_small (b + 0x1000 * n)), (u64_small (m - n)) by (unfold is_u64; lia).
      rewrite (Z.mul_comm 0x1000 n), <- !app_assoc. f_equiv. rewrite !app_assoc. f_equiv.
      apply Permutation_app_comm.
  - rewrite decide_False by lia. specialize (IH acc).
    destruct (take_n n es acc) as [b' es']. destruct IH as (IHb & IHl & IHok & IHp).
    fold (fits n es). split; [done |]. split; [simpl; by rewrite IHl |].
    split; [constructor; [split; [done |]; split; done | done] |].
    csimpl. rewrite IHp. rewrite !app_assoc. f_equiv. apply Permutation_app_comm.
Qed.

(** ** Loops of [init] *)

Lemma push_fuel e st : push e st <> NoFuel.
Proof. unfold push. by repeat case_decide. Qed.

Lemma reserve_block_fuel a st : reserve_block a st <> NoFuel.
Proof.
  unfold reserve_block. generalize (sp st) at 1. generalize 0%nat.
  intros i n. revert i. induction n as [| n IH]; intros i; [done |]. cbn [reserve_from].
  destruct (slots st !! i) as [e |]; [| done]. cbn [access mbind res_bind].
  destruct ((base e <=? a) && _ && _); [| apply IH].
  destruct (n_pages _ =? 0); [done |]. destruct (n_pages _ =? 0); [done |]. apply push_fuel.
Qed.

Lemma reserve_loop_fuel fuel a last st :
  0 <= a -> last + block_size < 18446744073709551616 ->
  Z.max 0 ((last - a) / block_size + 1) < Z.of_nat fuel ->
  reserve_loop fuel a last st <> NoFuel.
Proof.
  intros Ha Hl. revert a st Ha. induction fuel as [| fuel IH]; intros a st Ha Hf.
  { lia. }
  cbn [reserve_loop]. destruct (Z.leb_spec a last); [| done].
  destruct (reserve_block a st) eqn:E; try done; [| by apply reserve_block_fuel in E].
  cbn [mbind res_bind]. unfold block_size in *. rewrite u64_small by (unfold is_u64; lia).
  apply IH; [lia |]. wrap_lia.
Qed.

(** ** The allocator as a state machine *)

(** A state of the machine: the allocator and the pages its clients own. *)
Inductive step : state * list Z -> state * list Z -> Prop :=
| step_alloc st st' a owned :
    alloc_block st = Ret (a, st') -> step (st, owned) (st', a :: owned)
| step_free st st' a owned owned' :
    owned ≡ₚ a :: owned' -> free_block a st = Ret st' -> step (st, owned) (st', owned').

Lemma wf_page_ok st a : wf st -> a ∈ free_pages st -> page_ok a.
Proof.
  intros [_ Hok] Ha. unfold free_pages in Ha. apply list_elem_of_bind in Ha as (e & Ha & He).
  rewrite Forall_forall in Hok. apply Hok in He as (Hb & Hn & Hu).
  apply elem_of_pages in Ha as (i & Hi & ->). unfold page_ok, block_size in *. lia.
Qed.

Lemma free_block_Ret a st st' :
  wf st -> page_ok a -> free_block a st = Ret st' ->
  wf st' /\ top st' = top st /\ free_pages st' ≡ₚ a :: free_pages st.
Proof.
  intros [Ht Hok] Ha Hf. destruct (decide (sp st + 2 = top st)%nat) as [Hfull | Hroom].
  - unfold free_block in Hf. destruct (merge a (live st)) as [es |] eqn:E;
      [| by rewrite push_full in Hf].
    apply merge_ok in E as (Hl & Hes & Hp); [| done..]. rewrite live_length in Hl by lia.
    destruct (live_set_live es st ltac:(lia) Hl) as [Hlive Htop].
    injection Hf as <-. unfold wf, free_pages. rewrite Hlive, Htop. done.
  - destruct (free_block_ok a st) as (st2 & Hf2 & Hw & Htop & _ & Hp); [done.. | lia |].
    rewrite Hf2 in Hf. inv_res. done.
Qed.

(** What every step keeps: well-formedness and the collection of all pages. *)
Definition inv (all : list Z) (s : state * list Z) : Prop :=
  wf s.1 /\ free_pages s.1 ++ s.2 ≡ₚ all /\ Forall page_ok all.

Lemma step_inv all s s' : inv all s -> step s s' -> inv all s'.
Proof.
  intros (Hw & Hp & Hall) Hs. destruct Hs as [st st' a owned H | st st' a owned owned' Ho H]; simpl in *.
  - destruct (alloc_block_ok st Hw) as [[_ Hn] | (a' & st2 & Ha & Hw2 & _ & Hp2)]; [congruence |].
    rewrite Ha in H. injection H as -> ->. split; [done |]. split; [| done].
    simpl. rewrite <- Hp, Hp2. simpl. by rewrite Permutation_middle.
  - assert (Hok : page_ok a).
    { rewrite Forall_forall in Hall. apply Hall. rewrite <- Hp, Ho. set_solver. }
    destruct (free_block_Ret a st st' Hw Hok H) as (Hw2 & _ & Hp2). split; [done |]. split; [| done].
    simpl. rewrite Hp2, <- Hp, Ho. simpl. by rewrite Permutation_middle.
Qed.

Lemma rtc_inv all s s' : inv all s -> rtc step s s' -> inv all s'.
Proof. intros Hi Hr. induction Hr; eauto using step_inv. Qed.

End pmm_lemmas.

(** ** The instance of the interface *)

#[export] Instance pmm_frames : FrameAllocator pmm.state := {
  fa_alloc := pmm.alloc_block;
  fa_free := pmm.free_block;
  fa_pages := pmm.free_pages;
  fa_wf := pmm.wf }.

#[export] Instance pmm_frames_laws : FrameAllocatorLaws pmm.state.
Proof.
  split.
  - intros st Hw. destruct (alloc_block_ok st Hw) as [[Hn Hp] | (a & st' & H & Hw' & _ & Hp)];
      [left | right]; eauto 6.
  - intros a st st' Hw Ha Hf. destruct (free_block_Ret a st st' Hw Ha Hf) as (? & _ & ?). done.
Qed.

(** ** Theorems *)

(** A small allocator state used by the witnesses: two free runs, the second
    one on top, and room for six more entries. *)
Definition pmm_example : pmm.state :=
  pmm.mk ([pmm.mk_entry 0x100000 4; pmm.mk_entry 0x200000 1] ++ replicate 6 (pmm.mk_entry 0 0)) 2.

Lemma pmm_example_wf : pmm.wf pmm_example.
Proof.
  by_compute.
Qed.

(** C18: [alloc_block] removes one page from the free memory and returns it, or
    panics exactly when no page is free; in every case it terminates. *)
Theorem alloc_block_refines (st : pmm.state) :
  pmm.wf st ->
  (pmm.free_pages st = [] /\ pmm.alloc_block st = Panic "[PMM]: RLE Stack underflow") \/
  (exists a st', pmm.alloc_block st = Ret (a, st') /\ pmm.wf st' /\
     pmm.free_pages st ≡ₚ a :: pmm.free_pages st').
Proof.
  intros Hw. destruct (alloc_block_ok st Hw) as [H | (a & st' & Ha & Hw' & _ & Hp)]; [by left |].
  right. eauto.
Qed.

Lemma alloc_block_refines_witness :
  (pmm.free_pages pmm_example = [] /\
   pmm.alloc_block pmm_example = Panic "[PMM]: RLE Stack underflow") \/
  (exists a st', pmm.alloc_block pmm_example = Ret (a, st') /\ pmm.wf st' /\
     pmm.free_pages pmm_example ≡ₚ a :: pmm.free_pages st').
Proof. apply alloc_block_refines. apply pmm_example_wf. Defined.

(** [free_block] adds exactly the given page to the free memory, whether it
    extends an entry below or above or pushes a new one, and keeps the state
    well-formed; it returns whenever the stack has a slot left. *)
Theorem free_block_refines (a : Z) (st : pmm.state) :
  pmm.wf st -> pmm.page_ok a -> (pmm.sp st + 2 < pmm.top st)%nat ->
  exists st', pmm.free_block a st = Ret st' /\ pmm.wf st' /\
    pmm.free_pages st' ≡ₚ a :: pmm.free_pages st.
Proof.
  intros Hw Ha Ht. destruct (free_block_ok a st Hw Ha Ht) as (st' & H & Hw' & _ & _ & Hp). eauto.
Qed.

Lemma free_block_refines_witness :
  exists st', pmm.free_block 0x104000 pmm_example = Ret st' /\ pmm.wf st' /\
    pmm.free_pages st' ≡ₚ 0x104000 :: pmm.free_pages pmm_example.
Proof.
  apply free_block_refines; [apply pmm_example_wf | by_compute | vm_compute; lia].
Defined.

(** C1: No page is ever lost or owned twice: along every sequence of
    [alloc_block] and of [free_block] of owned pages, the free pages and the
    owned pages together are the pages that were free at the start, each one
    once. *)
Theorem pmm_no_double_allocation (st0 st : pmm.state) (owned : list Z) :
  pmm.wf st0 -> NoDup (pmm.free_pages st0) -> rtc step (st0, []) (st, owned) ->
  pmm.free_pages st ++ owned ≡ₚ pmm.free_pages st0 /\
  NoDup (pmm.free_pages st ++ owned) /\
  (forall a st', pmm.alloc_block st = Ret (a, st') -> a ∉ owned).
Proof.
  intros Hw Hnd Hr.
  assert (Hi : inv (pmm.free_pages st0) (st0, [])).
  { split; [done |]. simpl. rewrite app_nil_r. split; [done |].
    apply Forall_forall. intros a. by apply wf_page_ok. }
  destruct (rtc_inv _ _ _ Hi Hr) as (Hw' & Hp & _). simpl in Hw', Hp.
  assert (Hnd' : NoDup (pmm.free_pages st ++ owned)) by (by rewrite Hp).
  split; [done |]. split; [done |]. intros a st' Ha Hin.
  destruct (alloc_block_ok st Hw') as [[_ Hn] | (a2 & st2 & Ha2 & _ & _ & Hp2)]; [congruence |].
  rewrite Ha in Ha2. injection Ha2 as <- <-. apply NoDup_app in Hnd' as (_ & Hd & _).
  apply (Hd a); [| done]. rewrite Hp2. left.
Qed.

Lemma pmm_no_double_allocation_witness :
  exists st, rtc step (pmm_example, []) (st, [0x200000]) /\
  pmm.free_pages st ++ [0x200000] ≡ₚ pmm.free_pages pmm_example /\
  NoDup (pmm.free_pages st ++ [0x200000]) /\
  (forall a st', pmm.alloc_block st = Ret (a, st') -> a ∉ [0x200000]).
Proof.
  eexists. split; [eapply rtc_l; [apply step_alloc; vm_compute; reflexivity | apply rtc_refl] |].
  apply (pmm_no_double_allocation pmm_example).
  - apply pmm_example_wf.
  - by_compute.
  - eapply rtc_l; [apply step_alloc; vm_compute; reflexivity | apply rtc_refl].
Defined.

(** [sort_stack] terminates, drops exactly the entries without pages and
    keeps every other entry, so it loses no free memory. *)
Theorem sort_stack_permutes (st : pmm.state) :
  pmm.wf st ->
  exists st', pmm.sort_stack st = Ret st' /\ pmm.wf st' /\
    pmm.live st' ≡ₚ filter (fun e => pmm.n_pages e <> 0) (pmm.live st) /\
    pmm.free_pages st' ≡ₚ pmm.free_pages st.
Proof.
  intros [Ht Hok].
  destruct (sort_stack_loop_perm (S (pmm.sp st)) st) as (st' & H & Hp & Hsp & Htop); [lia | done |].
  exists st'. split; [exact H |]. split; [| split; [done |]].
  - split; [lia |]. rewrite Hp. rewrite Forall_forall in *. intros e He.
    apply Hok. by apply list_elem_of_filter in He as [_ He].
  - unfold pmm.free_pages. rewrite Hp. by rewrite free_pages_filter.
Qed.

Lemma sort_stack_permutes_witness :
  exists st', pmm.sort_stack pmm_example = Ret st' /\ pmm.wf st' /\
    pmm.live st' ≡ₚ filter (fun e => pmm.n_pages e <> 0) (pmm.live pmm_example) /\
    pmm.free_pages st' ≡ₚ pmm.free_pages pmm_example.
Proof. apply sort_stack_permutes. apply pmm_example_wf. Defined.

(** [sort_stack] does not sort: [sorted_insert] compares with the slot above
    the stack pointer instead of the top entry, so three entries end up neither
    in increasing nor in decreasing order of their base. *)
Theorem sort_stack_unsorted :
  exists st st', pmm.wf st /\ pmm.sort_stack st = Ret st' /\
    pmm.base <$> pmm.live st = [0x3000; 0x2000; 0x1000] /\
    pmm.base <$> pmm.live st' = [0x2000; 0x1000; 0x3000].
Proof.
  exists (pmm.mk ([pmm.mk_entry 0x3000 1; pmm.mk_entry 0x2000 1; pmm.mk_entry 0x1000 1]
                  ++ replicate 3 (pmm.mk_entry 0 0)) 3).
  eexists. split; [by_compute | vm_compute; done].
Qed.

(** [reserve_block] takes exactly the reserved page out of the free memory
    when the first entry that [reserve_block] picks contains it. *)
Theorem reserve_block_removes (st : pmm.state) es1 es2 e (a : Z) :
  pmm.wf st -> (pmm.sp st + 2 < pmm.top st)%nat -> pmm.live st = es1 ++ e :: es2 ->
  Forall (fun e' => ~ touches a e') es1 -> a ∈ pmm.pages e ->
  exists st', pmm.reserve_block a st = Ret st' /\ pmm.wf st' /\
    pmm.free_pages st ≡ₚ a :: pmm.free_pages st'.
Proof.
  intros Hw Ht Hl Hnt Ha.
  destruct (reserve_block_ok st es1 es2 e a Hw Ht Hl Hnt Ha) as (st' & H & Hw' & _ & Hp). eauto.
Qed.

Lemma reserve_block_removes_witness :
  exists st', pmm.reserve_block 0x102000 pmm_example = Ret st' /\ pmm.wf st' /\
    pmm.free_pages pmm_example ≡ₚ 0x102000 :: pmm.free_pages st'.
Proof.
  apply (reserve_block_removes pmm_example [] [pmm.mk_entry 0x200000 1] (pmm.mk_entry 0x100000 4)).
  - apply pmm_example_wf.
  - vm_compute. lia.
  - reflexivity.
  - constructor.
  - by_compute.
Defined.

(** Reserving the page that starts where an entry ends (for instance a page
    that was reserved before) is not a no-op: the bound of the test is inclusive,
    the length of the upper part wraps around, and an entry of 2^52 - 1 pages of
    memory that does not exist becomes free. *)
Theorem reserve_block_twice_corrupts :
  exists st st1 st2, pmm.wf st /\
    pmm.reserve_block 0x102000 st = Ret st1 /\ pmm.wf st1 /\
    pmm.reserve_block 0x102000 st1 = Ret st2 /\
    pmm.mk_entry 0x103000 (2 ^ 52 - 1) ∈ pmm.live st2 /\ ~ pmm.wf st2.
Proof.
  exists pmm_example. do 2 eexists. split; [apply pmm_example_wf |].
  split; [vm_compute; reflexivity |]. split; [by_compute |].
  split; [vm_compute; reflexivity |]. split; by_compute.
Qed.

(** [alloc_n_blocks] returns [n] contiguous free pages, those of the last
    entry that is big enough, and panics when no entry is; but it takes [n] pages
    out of {e every} entry that is big enough, so with more than one such entry
    the pages taken from the others are lost. *)
Theorem alloc_n_blocks_takes (n : Z) (st : pmm.state) :
  pmm.wf st -> 0 < n -> Forall (fun e => pmm.base e <> 0) (pmm.live st) ->
  match last (fits n (pmm.live st)) with
  | None => pmm.alloc_n_blocks n st = Panic "[PMM]: Out of memory"
  | Some e => exists st', pmm.alloc_n_blocks n st = Ret (pmm.base e, st') /\ pmm.wf st' /\
      pmm.free_pages st ≡ₚ
        (fits n (pmm.live st) ≫= (fun e => pmm.pages (pmm.mk_entry (pmm.base e) n)))
        ++ pmm.free_pages st'
  end.
Proof.
  intros [Ht Hok] Hn Hnz. unfold pmm.alloc_n_blocks.
  pose proof (take_n_ok n (pmm.live st) 0 Hn Hok) as H.
  destruct (pmm.take_n n (pmm.live st) 0) as [b es']. destruct H as (Hb & Hl & Hok' & Hp).
  destruct (last (fits n (pmm.live st))) as [e |] eqn:E; simpl in Hb; subst b; [| done].
  assert (He : pmm.base e <> 0).
  { apply last_Some_elem_of in E. unfold fits in E. apply list_elem_of_filter in E as [_ E].
    rewrite Forall_forall in Hnz. by apply Hnz. }
  rewrite (proj2 (Z.eqb_neq _ 0) He). eexists. split; [reflexivity |].
  rewrite live_length in Hl by lia.
  destruct (live_set_live es' st ltac:(lia) Hl) as [Hlive Htop].
  unfold pmm.wf, pmm.free_pages. rewrite Hlive, Htop. split; [done | exact Hp].
Qed.

Lemma alloc_n_blocks_takes_witness :
  match last (fits 1 (pmm.live pmm_example)) with
  | None => pmm.alloc_n_blocks 1 pmm_example = Panic "[PMM]: Out of memory"
  | Some e => exists st', pmm.alloc_n_blocks 1 pmm_example = Ret (pmm.base e, st') /\ pmm.wf st' /\
      pmm.free_pages pmm_example ≡ₚ
        (fits 1 (pmm.live pmm_example) ≫= (fun e => pmm.pages (pmm.mk_entry (pmm.base e) 1)))
        ++ pmm.free_pages st'
  end.
Proof.
  apply alloc_n_blocks_takes; [apply pmm_example_wf | lia | by_compute].
Defined.

(** The reservation loops of [init] terminate: a loop whose last address is
    not in the topmost page of the address space ends within the rounds the
    model gives it, whatever the state. *)
Theorem reserve_range_terminates (a last : Z) (st : pmm.state) :
  0 <= a -> last + block_size < 18446744073709551616 -> pmm.reserve_range a last st <> NoFuel.
Proof.
  intros Ha Hl. apply reserve_loop_fuel; [done.. |]. wrap_lia.
Qed.

Lemma reserve_range_terminates_witness : pmm.reserve_range 0x100000 0x102000 pmm_example <> NoFuel.
Proof. apply reserve_range_terminates; [lia | unfold block_size; lia]. Defined.
