(* ===== verification/Paging.v ===== *)
(** * Paging: the four-level page tables

    Models source/arch/x86_64/paging.cpp (the table part; the PCID part is in
    Pcid.v) and the constants of paging.h.  The machine state is the frame
    allocator, through the interface of Frames.v, and the physical memory, a
    total function from the address of a 64-bit word to its value.  Kernel code
    reaches physical memory through the direct mapping at
    [KERNEL_PHYSICAL_VIRTUAL_MAPPING_BASE]; [load] and [store] take such virtual
    addresses.  The TLB is not modelled ([invalidate_addr] has no effect here).

    The abstract value of an address space is the partial function
    [translate] from virtual addresses to page-table entries. *)

From S2P Require Import Prelude Bits Frames Pmm.

(** ** Constants and entry layout *)

Definition map_page_flags_present : Z := 1.
Definition map_page_flags_writable : Z := 2.
Definition map_page_flags_user : Z := 4.
Definition map_page_flags_no_execute : Z := 8.
Definition map_page_flags_global : Z := 16.

Inductive map_page_cache_types := normal | uncacheable | write_through | write_back | write_combining.

Definition paging_structures_n_entries : nat := 512.
Definition page_entry_present : Z := 0.
Definition page_entry_writeable : Z := 1.
Definition page_entry_user : Z := 2.
Definition page_entry_write_through : Z := 3.
Definition page_entry_cache_disable : Z := 4.
Definition page_entry_huge : Z := 7.
Definition page_entry_pat : Z := 7.
Definition page_entry_global : Z := 8.
Definition page_entry_no_execute : Z := 63.

Definition pml4_index (address : Z) : Z := Z.land (Z.shiftr address 39) 0x1FF.
Definition pdpt_index (address : Z) : Z := Z.land (Z.shiftr address 30) 0x1FF.
Definition pd_index (address : Z) : Z := Z.land (Z.shiftr address 21) 0x1FF.
Definition pt_index (address : Z) : Z := Z.land (Z.shiftr address 12) 0x1FF.

Definition indicies_to_addr (pml4_index pdpt_index pd_index index : Z) : Z :=
  Z.lor (Z.lor (Z.lor (Z.lor 0 (u64 (Z.shiftl pml4_index 39))) (u64 (Z.shiftl pdpt_index 30)))
               (u64 (Z.shiftl pd_index 21))) (u64 (Z.shiftl index 12)).

Definition frame_mask : Z := 0x000FFFFFFFFFF000.
Definition flags_mask : Z := 0xFFF0000000000FFF.

Definition set_frame (entry phys : Z) : Z := Z.lor entry (Z.land phys frame_mask).
Definition get_frame (entry : Z) : Z := Z.land entry frame_mask.
Definition set_flags (entry flags : Z) : Z := Z.lor entry (Z.land flags flags_mask).
Definition get_flags (entry : Z) : Z := Z.land entry flags_mask.

(** [bitops<uint64_t>::bit_set] and [bit_test] on an entry. *)
Definition set_bit (entry bit : Z) : Z := (bitops.bit_set 64 entry bit).1.
Definition test_bit (entry bit : Z) : bool := bitops.bit_test 64 entry bit.

Definition get_pat_flags (types : map_page_cache_types) : Z :=
  match types with
  | normal | write_back => 0
  | write_combining => set_bit 0 page_entry_write_through
  | write_through => set_bit 0 page_entry_cache_disable
  | uncacheable => set_bit (set_bit 0 page_entry_write_through) page_entry_pat
  end.

(** [if(flags & flag) bit_set(entry, bit)]. *)
Definition set_if (flags flag bit entry : Z) : Z :=
  if Z.land flags flag =? 0 then entry else set_bit entry bit.

(** The sequence of tests at the start of [map_page]. *)
Definition entry_flags_of (flags : Z) : Z :=
  set_if flags map_page_flags_writable page_entry_writeable
  (set_if flags map_page_flags_global page_entry_global
  (set_if flags map_page_flags_no_execute page_entry_no_execute
  (set_if flags map_page_flags_user page_entry_user
  (set_if flags map_page_flags_present page_entry_present 0)))).

(** The page-table entry [map_page] writes. *)
Definition make_pte (phys flags : Z) (cache : map_page_cache_types) : Z :=
  Z.lor (set_flags (set_frame 0 phys) (entry_flags_of flags)) (get_pat_flags cache).

(** The entry that points to a new table at [frame]. *)
Definition make_table_entry (frame : Z) : Z :=
  set_bit (set_bit (set_bit (set_frame 0 frame) page_entry_present) page_entry_writeable)
          page_entry_user.

(** ** Physical memory *)

Definition memory := Z -> Z.
Definition write_word (m : memory) (a v : Z) : memory := fun x => if x =? a then v else m x.
Definition zero_frame (m : memory) (f : Z) : memory :=
  fun x => if (f <=? x) && (x <? f + block_size) then 0 else m x.
Definition copy_frame (m : memory) (dst src : Z) : memory :=
  fun x => if (dst <=? x) && (x <? dst + block_size) then m (src + (x - dst)) else m x.

Definition to_virt (phys : Z) : Z := u64 (phys + KERNEL_PHYSICAL_VIRTUAL_MAPPING_BASE).
Definition to_phys (virt : Z) : Z := u64 (virt - KERNEL_PHYSICAL_VIRTUAL_MAPPING_BASE).

Module paging.
Section ops.
Context {S : Type} `{FA : FrameAllocator S}.

Record kernel := mk { frames : S; mem : memory }.

(** [table->entries[i]] for a table at a virtual address. *)
Definition load (k : kernel) (table i : Z) : Z := mem k (to_phys (u64 (table + 8 * i))).
Definition store (k : kernel) (table i v : Z) : kernel :=
  mk (frames k) (write_word (mem k) (to_phys (u64 (table + 8 * i))) v).

(** [mm::pmm::alloc_block()] followed by [memset_aligned_4k] of the frame. *)
Definition alloc_zeroed (k : kernel) : res (Z * kernel) :=
  '(f, fr) ← fa_alloc (frames k);
  mret (f, mk fr (zero_frame (mem k) (to_phys (to_virt f)))).

Definition free_frame (f : Z) (k : kernel) : res kernel :=
  fr ← fa_free f (frames k); mret (mk fr (mem k)).

(** The block "entry not present, create one" that [map_page] has for each of
    the three upper levels: returns the entry in place afterwards. *)
Definition ensure_table (table index : Z) (k : kernel) : res (Z * kernel) :=
  let entry := load k table index in
  if test_bit entry page_entry_present then mret (entry, k)
  else
    '(f, k) ← alloc_zeroed k;
    let new_entry := make_table_entry f in
    mret (new_entry, store k table index new_entry).

Definition map_page (paging_info phys virt flags : Z) (cache : map_page_cache_types) (k : kernel)
  : res kernel :=
  '(pml4_entry, k) ← ensure_table paging_info (pml4_index virt) k;
  '(pdpt_entry, k) ← ensure_table (to_virt (get_frame pml4_entry)) (pdpt_index virt) k;
  '(pd_entry, k) ← ensure_table (to_virt (get_frame pdpt_entry)) (pd_index virt) k;
  mret (store k (to_virt (get_frame pd_entry)) (pt_index virt) (make_pte phys flags cache)).

(** The nested tests of [get_entry], [get_phys] and [set_page_protection]: the
    page table and the entry in it, when every level is present. *)
Definition find_entry (paging_info virt : Z) (k : kernel) : option (Z * Z) :=
  let pml4_entry := load k paging_info (pml4_index virt) in
  if test_bit pml4_entry page_entry_present then
    let pdpt := to_virt (get_frame pml4_entry) in
    let pdpt_entry := load k pdpt (pdpt_index virt) in
    if test_bit pdpt_entry page_entry_present then
      let pd := to_virt (get_frame pdpt_entry) in
      let pd_entry := load k pd (pd_index virt) in
      if test_bit pd_entry page_entry_present then
        let pt := to_virt (get_frame pd_entry) in
        let pt_entry := load k pt (pt_index virt) in
        if test_bit pt_entry page_entry_present then Some (pt, pt_entry) else None
      else None
    else None
  else None.

Definition get_phys (paging_info virt : Z) (k : kernel) : Z :=
  match find_entry paging_info virt k with
  | Some (_, pt_entry) => get_frame pt_entry
  | None => u64_max
  end.

Definition get_entry (paging_info virt : Z) (k : kernel) : Z :=
  match find_entry paging_info virt k with Some (_, pt_entry) => pt_entry | None => 0 end.

(** The flags are or-ed into the entry; [map_page_flags_global] directly. *)
Definition protected_entry (pt_entry flags : Z) (cache : map_page_cache_types) : Z :=
  let entry_flags :=
    set_if flags map_page_flags_writable page_entry_writeable
    (set_if flags map_page_flags_no_execute page_entry_no_execute
    (set_if flags map_page_flags_user page_entry_user
    (set_if flags map_page_flags_present page_entry_present 0))) in
  let pt_entry := set_if flags map_page_flags_global page_entry_global pt_entry in
  Z.lor (set_flags pt_entry entry_flags) (get_pat_flags cache).

Definition set_page_protection (paging_info virt flags : Z) (cache : map_page_cache_types)
    (k : kernel) : bool * kernel :=
  match find_entry paging_info virt k with
  | Some (pt, pt_entry) => (true, store k pt (pt_index virt) (protected_entry pt_entry flags cache))
  | None => (false, k)
  end.

(** [get_free_range]: [fuel] bounds the number of pages that are looked at. *)
Fixpoint free_range_loop (fuel : nat) (paging_info ptr search_end needed : Z) (k : kernel)
    (current_addr count : Z) : res Z :=
  match fuel with
  | O => NoFuel
  | Datatypes.S fuel =>
      if ptr <? search_end then
        if get_phys paging_info ptr k =? u64_max then
          let current_addr := if current_addr =? u64_max then ptr else current_addr in
          let count := u64 (count + 1) in
          if count =? needed then mret current_addr
          else free_range_loop fuel paging_info (u64 (ptr + block_size)) search_end needed k
                 current_addr count
        else free_range_loop fuel paging_info (u64 (ptr + block_size)) search_end needed k u64_max 0
      else mret current_addr
  end.

Definition get_free_range (fuel : nat) (paging_info search_base_hint search_end_hint size : Z)
    (k : kernel) : res Z :=
  free_range_loop fuel paging_info search_base_hint search_end_hint (div_ceil size block_size) k
    u64_max 0.

(** Freeing the tables of the lower half of an address space. *)
Definition clean_pd (pd : Z) (k : kernel) : res kernel :=
  for_loop paging_structures_n_entries 0 (fun i k =>
    let pt_entry := load k pd i in
    if test_bit pt_entry page_entry_present && negb (test_bit pt_entry page_entry_huge)
    then free_frame (Z.land pt_entry frame_mask) k
    else mret k) k.

Definition clean_pdpt (pdpt : Z) (k : kernel) : res kernel :=
  for_loop paging_structures_n_entries 0 (fun i k =>
    let pd_entry := load k pdpt i in
    if test_bit pd_entry page_entry_present && negb (test_bit pd_entry page_entry_huge)
    then
      k ← clean_pd (to_virt (Z.land pd_entry frame_mask)) k;
      free_frame (Z.land pd_entry frame_mask) k
    else mret k) k.

Definition deinit (paging_info : Z) (k : kernel) : res kernel :=
  if paging_info =? 0 then mret k
  else
    k ← for_loop (paging_structures_n_entries / 2) 0 (fun i k =>
      let pdpt_entry := load k paging_info i in
      if test_bit pdpt_entry page_entry_present && negb (test_bit pdpt_entry page_entry_huge)
      then
        k ← clean_pdpt (to_virt (Z.land pdpt_entry frame_mask)) k;
        free_frame (Z.land pdpt_entry frame_mask) k
      else mret k) k;
    free_frame (to_phys paging_info) k.

(** [init] returns the new [paging_info]; [deinit] does not clear the old one. *)
Definition init (paging_info : Z) (k : kernel) : res (Z * kernel) :=
  k ← (if paging_info =? 0 then mret k else deinit paging_info k);
  '(f, k) ← alloc_zeroed k;
  mret (to_virt f, k).

(** Copying the tables of the lower half: [clone_pt], [clone_pd], [clone_pdpt]
    return the physical address of the copy. *)
Definition clone_pt (pt : Z) (k : kernel) : res (Z * kernel) :=
  '(f, k) ← alloc_zeroed k;
  let new_info_pt := to_virt f in
  k ← for_loop paging_structures_n_entries 0 (fun i k => mret (store k new_info_pt i (load k pt i))) k;
  mret (to_phys new_info_pt, k).

(** The loop body shared by [clone_pd], [clone_pdpt] and [clone_paging_info]:
    present entries that are not huge point to a copy, huge ones are copied. *)
Definition clone_entry (clone_table : Z -> kernel -> res (Z * kernel)) (old new i : Z) (k : kernel)
  : res kernel :=
  let old_entry := load k old i in
  let entry_flags := get_flags old_entry in
  if test_bit entry_flags page_entry_present then
    if negb (test_bit entry_flags page_entry_huge) then
      '(table, k) ← clone_table (to_virt (get_frame old_entry)) k;
      mret (store k new i (set_flags (set_frame 0 table) (get_flags old_entry)))
    else mret (store k new i old_entry)
  else mret k.

Definition clone_pd (pd : Z) (k : kernel) : res (Z * kernel) :=
  '(f, k) ← alloc_zeroed k;
  let new_info_pd := to_virt f in
  k ← for_loop paging_structures_n_entries 0 (clone_entry clone_pt pd new_info_pd) k;
  mret (to_phys new_info_pd, k).

Definition clone_pdpt (pdpt : Z) (k : kernel) : res (Z * kernel) :=
  '(f, k) ← alloc_zeroed k;
  let new_info_pdpt := to_virt f in
  k ← for_loop paging_structures_n_entries 0 (clone_entry clone_pd pdpt new_info_pdpt) k;
  mret (to_phys new_info_pdpt, k).

(** [clone_paging_info(new_info)]: returns the new [paging_info] of [new_info]. *)
Definition clone_paging_info (paging_info new_info : Z) (k : kernel) : res (Z * kernel) :=
  k ← deinit new_info k;
  '(new_info, k) ← init new_info k;
  k ← for_loop (paging_structures_n_entries / 2) 0 (clone_entry clone_pdpt paging_info new_info) k;
  k ← for_loop (paging_structures_n_entries / 2) (Z.of_nat (paging_structures_n_entries / 2))
        (fun i k => mret (store k new_info i (load k paging_info i))) k;
  mret (new_info, k).

(** The flags of a page as [map_page] takes them. *)
Definition flags_of_entry (pt_entry : Z) : Z :=
  let add bit flag flags := if test_bit pt_entry bit then Z.lor flags flag else flags in
  add page_entry_global map_page_flags_global
  (add page_entry_no_execute map_page_flags_no_execute
  (add page_entry_user map_page_flags_user
  (add page_entry_writeable map_page_flags_writable map_page_flags_present))).

Definition kernel_map_flags : Z :=
  Z.lor (Z.lor (Z.lor map_page_flags_global map_page_flags_present) map_page_flags_writable)
        map_page_flags_no_execute.

(** Cloning one page for [fork_address_space]: the kernel maps both pages into
    the direct mapping, copies, and maps the copy in the child. *)
Definition fork_page (kernel_info child_info i j l m : Z) (pt_entry : Z)
    (s : kernel * list Z) : res (kernel * list Z) :=
  let '(k, child_frames) := s in
  '(new_page_phys, fr) ← fa_alloc (frames k);
  let k := mk fr (mem k) in
  let new_page_virt := indicies_to_addr i j l m in
  let flags := flags_of_entry pt_entry in
  k ← map_page kernel_info (get_frame pt_entry) (to_virt (get_frame pt_entry)) kernel_map_flags normal k;
  k ← map_page kernel_info new_page_phys (to_virt new_page_phys) kernel_map_flags normal k;
  let k := mk (frames k) (copy_frame (mem k) (to_phys (to_virt new_page_phys))
                                     (to_phys (to_virt (get_frame pt_entry)))) in
  k ← map_page child_info new_page_phys new_page_virt flags normal k;
  mret (k, child_frames ++ [new_page_phys]).

(** One level of the nested loops of [fork_address_space]. *)
Definition fork_level (n : nat) (table : Z) (body : Z -> Z -> kernel * list Z -> res (kernel * list Z))
    (s : kernel * list Z) : res (kernel * list Z) :=
  for_loop n 0 (fun i s =>
    let entry := load s.1 table i in
    if test_bit entry page_entry_present then body i entry s else mret s) s.

Definition fork_address_space (paging_info kernel_info child_info : Z) (child_frames : list Z)
    (k : kernel) : res (Z * list Z * kernel) :=
  '(child_info, k) ← clone_paging_info kernel_info child_info k;
  '(k, child_frames) ←
    fork_level (paging_structures_n_entries / 2) paging_info (fun i pml4_entry =>
    fork_level paging_structures_n_entries (to_virt (get_frame pml4_entry)) (fun j pdpt_entry =>
    fork_level paging_structures_n_entries (to_virt (get_frame pdpt_entry)) (fun l pd_entry =>
    fork_level paging_structures_n_entries (to_virt (get_frame pd_entry)) (fun m pt_entry =>
      fork_page kernel_info child_info i j l m pt_entry)))) (k, child_frames);
  mret (child_info, child_frames, k).
End ops.
Arguments kernel S : clear implicits.
End paging.

(** ** Specification *)

(** An address that [set_frame] stores without loss. *)
Definition frame_ok (f : Z) : Prop := 0 <= f < 2 ^ 52 /\ f mod block_size = 0.

(** The page number of a virtual address. *)
Definition vpn (v : Z) : Z := v / 4096 mod 2 ^ 36.

Definition present (e : Z) : bool := Z.testbit e 0.

(** The index of a page in a level-[n] table, and the entry a walk of [n] levels
    finds for it, starting at the table at [t]. *)
Definition page_index (n : nat) (page : Z) : Z := page / 512 ^ (Z.of_nat n - 1) mod 512.

Fixpoint page_walk (n : nat) (m : memory) (t page : Z) : option Z :=
  match n with
  | O => None
  | S n' =>
      let e := m (t + 8 * page_index n page) in
      if present e then
        match n' with O => Some e | S _ => page_walk n' m (get_frame e) page end
      else None
  end.

(** The same for a virtual address. *)
Definition index_at (n : nat) (v : Z) : Z := page_index n (vpn v).
Definition walk (n : nat) (m : memory) (t v : Z) : option Z := page_walk n m t (vpn v).

(** The translation of an address space: the present page-table entry of [v]. *)
Definition translate (m : memory) (root v : Z) : option Z := walk 4 m root v.

(** The typing of table frames: [own] gives each frame in use as a table its
    level and the page-number prefix it serves.  [tables_ok] says that entries of
    typed tables lead to tables typed one level below, that table frames are not
    free, and that words are 64 bits wide. *)
Record tables_ok (own : gmap Z (nat * Z)) (m : memory) (free : list Z) : Prop := {
  t_frame : forall f n p, own !! f = Some (n, p) -> frame_ok f /\ f ∉ free;
  t_child : forall f n p i, own !! f = Some (S (S n), p) -> 0 <= i < 512 ->
              present (m (f + 8 * i)) = true ->
              own !! get_frame (m (f + 8 * i)) = Some (S n, p * 512 + i);
  t_word : forall a, is_u64 (m a) }.

(** The invariant of an address space with its top-level table at [root]. *)
Record space_ok {S} `{FrameAllocator S} (own : gmap Z (nat * Z)) (root : Z) (k : paging.kernel S)
  : Prop := {
  s_tables : tables_ok own (paging.mem k) (fa_pages (paging.frames k));
  s_root : own !! root = Some (4%nat, 0);
  s_wf : fa_wf (paging.frames k);
  s_nodup : NoDup (fa_pages (paging.frames k));
  s_free : Forall frame_ok (fa_pages (paging.frames k)) }.

(** ** Lemmas: entries *)

Lemma testbit_frame_mask i : 0 <= i -> Z.testbit frame_mask i = (12 <=? i) && (i <? 52).
Proof.
  intros Hi. change frame_mask with (Z.shiftl (Z.ones 40) 12). rewrite Z.shiftl_spec by lia.
  destruct (Z.leb_spec 12 i); simpl.
  - rewrite Z.testbit_ones_nonneg by lia. apply eq_true_iff_eq. rewrite !Z.ltb_lt. lia.
  - rewrite Z.testbit_neg_r by lia. reflexivity.
Qed.

Lemma testbit_flags_mask i :
  0 <= i -> Z.testbit flags_mask i = (i <? 12) || ((52 <=? i) && (i <? 64)).
Proof.
  intros Hi. change flags_mask with (not64 frame_mask). rewrite testbit_not64, testbit_frame_mask by lia.
  destruct (Z.ltb_spec i 64), (Z.leb_spec 12 i), (Z.ltb_spec i 52), (Z.ltb_spec i 12), (Z.leb_spec 52 i);
    simpl; try reflexivity; lia.
Qed.

Lemma testbit_get_frame e i : 0 <= i -> Z.testbit (get_frame e) i = (12 <=? i) && (i <? 52) && Z.testbit e i.
Proof. intros Hi. unfold get_frame. rewrite Z.land_spec, testbit_frame_mask by lia. apply andb_comm. Qed.

Lemma get_frame_ok e : 0 <= e -> frame_ok (get_frame e).
Proof.
  intros He. assert (Hn : 0 <= get_frame e) by (by apply land_nonneg_l). split.
  - split; [done |]. replace (get_frame e) with (get_frame e mod 2 ^ 52).
    { apply Z.mod_pos_bound. lia. }
    apply Z.bits_inj'. intros i Hi. rewrite testbit_get_frame by lia.
    destruct (Z.ltb_spec i 52).
    + rewrite Z.mod_pow2_bits_low, testbit_get_frame by lia.
      destruct (Z.ltb_spec i 52); [reflexivity | lia].
    + rewrite Z.mod_pow2_bits_high by lia. by rewrite andb_false_r.
  - change block_size with (2 ^ 12). apply Z.bits_inj'. intros i Hi. rewrite Z.bits_0.
    destruct (Z.lt_ge_cases i 12).
    + rewrite Z.mod_pow2_bits_low, testbit_get_frame by lia.
      destruct (Z.leb_spec 12 i); [lia | reflexivity].
    + by rewrite Z.mod_pow2_bits_high by lia.
Qed.

Lemma get_frame_id f : frame_ok f -> get_frame f = f.
Proof.
  intros [Hf Hm]. apply Z.bits_inj'. intros i Hi. rewrite testbit_get_frame by lia.
  destruct (Z.leb_spec 12 i); simpl.
  - destruct (Z.ltb_spec i 52); [reflexivity |].
    rewrite <- (Z.mod_small f (2 ^ 52)), Z.mod_pow2_bits_high by lia. reflexivity.
  - change block_size with (2 ^ 12) in Hm.
    rewrite <- (Z.mod_pow2_bits_low f 12) by lia. by rewrite Hm, Z.bits_0.
Qed.

Lemma testbit_set_bit e b i :
  is_u64 e -> 0 <= b < 64 -> 0 <= i -> Z.testbit (set_bit e b) i = Z.testbit e i || (i =? b).
Proof.
  intros He Hb Hi. unfold set_bit. rewrite bit_set_64 by done.
  by rewrite Z.lor_spec, testbit_bit64 by lia.
Qed.

Lemma is_u64_set_bit e b : is_u64 e -> is_u64 (set_bit e b).
Proof. intros He. unfold set_bit. rewrite bit_set_64 by done. auto with sigma. Qed.

Lemma is_u64_0 : is_u64 0.
Proof. unfold is_u64. lia. Qed.

Lemma is_u64_frame_mask x : is_u64 (Z.land x frame_mask).
Proof. rewrite Z.land_comm. split; [by apply land_nonneg_l |].
  pose proof (get_frame_ok (Z.land frame_mask x)) as [? _]; [by apply land_nonneg_l |].
  replace (Z.land frame_mask x) with (get_frame (Z.land frame_mask x)); [lia |].
  unfold get_frame. by rewrite <- Z.land_assoc, (Z.land_comm x), Z.land_assoc, Z.land_diag.
Qed.

Lemma is_u64_flags_mask x : is_u64 (Z.land x flags_mask).
Proof.
  apply is_u64_bits; [rewrite Z.land_comm; by apply land_nonneg_l |].
  intros i Hi. rewrite Z.land_spec, testbit_flags_mask by lia.
  destruct (Z.ltb_spec i 12), (Z.ltb_spec i 64); try lia; simpl; by rewrite ?andb_false_r.
Qed.

Lemma is_u64_set_if flags flag b e : is_u64 e -> is_u64 (set_if flags flag b e).
Proof. intros He. unfold set_if. destruct (_ =? 0); [done | by apply is_u64_set_bit]. Qed.

Lemma is_u64_set_frame e f : is_u64 e -> is_u64 (set_frame e f).
Proof. intros He. unfold set_frame. auto using is_u64_lor, is_u64_frame_mask. Qed.

#[export] Hint Resolve is_u64_set_bit is_u64_0 is_u64_frame_mask is_u64_flags_mask is_u64_set_if
  is_u64_set_frame : sigma.

Lemma is_u64_pat c : is_u64 (get_pat_flags c).
Proof. destruct c; cbn [get_pat_flags]; auto with sigma. Qed.

#[export] Hint Resolve is_u64_pat : sigma.

Lemma test_bit_testbit e b : is_u64 e -> 0 <= b < 64 -> test_bit e b = Z.testbit e b.
Proof. apply bit_test_64. Qed.

Lemma test_present e : is_u64 e -> test_bit e page_entry_present = present e.
Proof. intros He. apply test_bit_testbit; [done |]. unfold page_entry_present. lia. Qed.

(** Bits of a frame pointer: the entry of a new table and of a page. *)
Lemma testbit_set_frame_0 f i :
  0 <= i -> Z.testbit (set_frame 0 f) i = (12 <=? i) && (i <? 52) && Z.testbit f i.
Proof. intros Hi. unfold set_frame. rewrite Z.lor_0_l. by apply testbit_get_frame. Qed.

Lemma table_entry_u64 f : is_u64 (make_table_entry f).
Proof. unfold make_table_entry. auto with sigma. Qed.

Lemma testbit_table_entry f i :
  0 <= i -> Z.testbit (make_table_entry f) i =
    (12 <=? i) && (i <? 52) && Z.testbit f i || (i =? 0) || (i =? 1) || (i =? 2).
Proof.
  intros Hi. unfold make_table_entry, page_entry_present, page_entry_writeable, page_entry_user.
  rewrite !testbit_set_bit, testbit_set_frame_0 by (auto with sigma || lia). done.
Qed.

Lemma table_entry_present f : present (make_table_entry f) = true.
Proof. unfold present. by rewrite testbit_table_entry. Qed.

Lemma table_entry_frame f : frame_ok f -> get_frame (make_table_entry f) = f.
Proof.
  intros Hf. rewrite <- (get_frame_id f) at 2 by done. apply Z.bits_inj'. intros i Hi.
  rewrite !testbit_get_frame, testbit_table_entry by lia.
  destruct (Z.leb_spec 12 i); [simpl | reflexivity].
  rewrite (proj2 (Z.eqb_neq i 0)), (proj2 (Z.eqb_neq i 1)), (proj2 (Z.eqb_neq i 2)) by lia.
  rewrite !orb_false_r. by destruct (i <? 52).
Qed.

Lemma land_flag flags j : 0 <= j -> (Z.land flags (2 ^ j) =? 0) = negb (Z.testbit flags j).
Proof.
  intros Hj. destruct (Z.testbit flags j) eqn:E; simpl.
  - apply Z.eqb_neq. intros H. apply (f_equal (fun z => Z.testbit z j)) in H.
    rewrite Z.land_spec, E, Z.pow2_bits_true, Z.bits_0 in H by lia. discriminate.
  - apply Z.eqb_eq, Z.bits_inj'. intros i Hi. rewrite Z.land_spec, Z.bits_0, Z.pow2_bits_eqb by lia.
    destruct (Z.eqb_spec j i) as [-> | _]; [by rewrite E | apply andb_false_r].
Qed.

Lemma testbit_set_if flags j b e i :
  is_u64 e -> 0 <= j -> 0 <= b < 64 -> 0 <= i ->
  Z.testbit (set_if flags (2 ^ j) b e) i = Z.testbit e i || (Z.testbit flags j && (i =? b)).
Proof.
  intros He Hj Hb Hi. unfold set_if. rewrite land_flag by lia. destruct (Z.testbit flags j); simpl.
  - by apply testbit_set_bit.
  - by rewrite orb_false_r.
Qed.

Lemma pat_flags_bits c i : 0 <= i -> i <> 3 -> i <> 4 -> i <> 7 -> Z.testbit (get_pat_flags c) i = false.
Proof.
  intros Hi H3 H4 H7.
  destruct c; cbn [get_pat_flags]; rewrite ?Z.bits_0; try done;
    unfold page_entry_write_through, page_entry_cache_disable, page_entry_pat;
    rewrite !testbit_set_bit, Z.bits_0 by (auto with sigma || lia);
    rewrite ?(proj2 (Z.eqb_neq i 3)), ?(proj2 (Z.eqb_neq i 4)), ?(proj2 (Z.eqb_neq i 7)) by done; done.
Qed.

Lemma testbit_entry_flags flags i :
  0 <= i -> Z.testbit (entry_flags_of flags) i =
    Z.testbit flags 0 && (i =? 0) || Z.testbit flags 2 && (i =? 2) || Z.testbit flags 3 && (i =? 63)
    || Z.testbit flags 4 && (i =? 8) || Z.testbit flags 1 && (i =? 1).
Proof.
  intros Hi. unfold entry_flags_of.
  change map_page_flags_writable with (2 ^ 1). change map_page_flags_global with (2 ^ 4).
  change map_page_flags_no_execute with (2 ^ 3). change map_page_flags_user with (2 ^ 2).
  change map_page_flags_present with (2 ^ 0).
  rewrite !testbit_set_if by (auto with sigma || (unfold page_entry_writeable, page_entry_global,
    page_entry_no_execute, page_entry_user, page_entry_present; lia)).
  rewrite Z.bits_0. done.
Qed.

Lemma make_pte_u64 phys flags c : is_u64 (make_pte phys flags c).
Proof. unfold make_pte, set_flags. auto with sigma. Qed.

Lemma testbit_make_pte phys flags c i :
  0 <= i -> Z.testbit (make_pte phys flags c) i =
    (12 <=? i) && (i <? 52) && Z.testbit phys i
    || Z.testbit (entry_flags_of flags) i && Z.testbit flags_mask i || Z.testbit (get_pat_flags c) i.
Proof.
  intros Hi. unfold make_pte, set_flags.
  by rewrite !Z.lor_spec, Z.land_spec, testbit_set_frame_0 by lia.
Qed.

Lemma make_pte_present phys flags c : present (make_pte phys flags c) = Z.testbit flags 0.
Proof.
  unfold present. rewrite testbit_make_pte, testbit_entry_flags, testbit_flags_mask, pat_flags_bits by lia.
  simpl. rewrite !andb_false_r, !andb_true_r, !orb_false_r. done.
Qed.

Lemma make_pte_frame phys flags c : get_frame (make_pte phys flags c) = get_frame phys.
Proof.
  apply Z.bits_inj'. intros i Hi. rewrite !testbit_get_frame, testbit_make_pte by lia.
  destruct (Z.leb_spec 12 i), (Z.ltb_spec i 52); try reflexivity.
  rewrite testbit_flags_mask, pat_flags_bits by lia.
  destruct (Z.ltb_spec i 12), (Z.leb_spec 52 i); try lia. simpl.
  by rewrite andb_false_r, !orb_false_r.
Qed.

(** ** Lemmas: walks *)

Lemma index_range n v : 0 <= index_at n v < 512.
Proof. apply Z.mod_pos_bound. lia. Qed.

Lemma land_1FF x : Z.land x 0x1FF = x mod 512.
Proof. change 0x1FF with (Z.ones 9). by rewrite Z.land_ones by lia. Qed.

Lemma index_eqs v :
  pml4_index v = index_at 4 v /\ pdpt_index v = index_at 3 v /\
  pd_index v = index_at 2 v /\ pt_index v = index_at 1 v.
Proof.
  unfold pml4_index, pdpt_index, pd_index, pt_index, index_at, page_index, vpn.
  rewrite !land_1FF, !Z.shiftr_div_pow2 by lia.
  change (2 ^ 39) with 549755813888. change (2 ^ 30) with 1073741824. change (2 ^ 21) with 2097152.
  change (2 ^ 12) with 4096. change (2 ^ 36) with 68719476736.
  change (512 ^ (Z.of_nat 4 - 1)) with 134217728. change (512 ^ (Z.of_nat 3 - 1)) with 262144.
  change (512 ^ (Z.of_nat 2 - 1)) with 512. change (512 ^ (Z.of_nat 1 - 1)) with 1.
  repeat split; Z.to_euclidean_division_equations; lia.
Qed.

(** A page number is determined by its prefix and its last index. *)
Definition page_prefix (n : nat) (page : Z) : Z := page / 512 ^ Z.of_nat n.
Definition prefix (n : nat) (v : Z) : Z := page_prefix n (vpn v).

Lemma page_index_range n page : 0 <= page_index n page < 512.
Proof. apply Z.mod_pos_bound. lia. Qed.

Lemma page_prefix_index n page : page_prefix (S n) page * 512 + page_index (S n) page = page_prefix n page.
Proof.
  unfold page_prefix, page_index. rewrite Nat2Z.inj_succ, <- Z.add_1_r, Z.add_simpl_r.
  rewrite Z.pow_add_r, Z.pow_1_r, <- Z.div_div by lia.
  pose proof (Z.div_mod (page / 512 ^ Z.of_nat n) 512). lia.
Qed.

Lemma page_prefix_0 page : page_prefix 0 page = page.
Proof. unfold page_prefix. simpl. apply Z.div_1_r. Qed.

Lemma prefix_index n v : prefix (S n) v * 512 + index_at (S n) v = prefix n v.
Proof. apply page_prefix_index. Qed.

Lemma prefix_0 v : prefix 0 v = vpn v.
Proof. apply page_prefix_0. Qed.

Lemma prefix_4 v : prefix 4 v = 0.
Proof.
  unfold prefix, page_prefix, vpn. apply Z.div_small. change (512 ^ Z.of_nat 4) with (2 ^ 36).
  apply Z.mod_pos_bound. lia.
Qed.

(** Words of two different frames, or two different words of one frame. *)
Lemma word_inj f g i j :
  frame_ok f -> frame_ok g -> 0 <= i < 512 -> 0 <= j < 512 -> f + 8 * i = g + 8 * j -> f = g /\ i = j.
Proof. intros [Hf Hfm] [Hg Hgm] Hi Hj E. unfold block_size in *. wrap_lia. Qed.

Lemma word_in_frame f g i :
  frame_ok f -> frame_ok g -> 0 <= i < 512 ->
  (g <=? f + 8 * i) && (f + 8 * i <? g + block_size) = bool_decide (f = g).
Proof.
  intros [Hf Hfm] [Hg Hgm] Hi. unfold block_size in *. case_bool_decide as E.
  - subst. apply andb_true_iff. rewrite Z.leb_le, Z.ltb_lt. lia.
  - apply andb_false_iff. rewrite Z.leb_gt, Z.ltb_ge. wrap_lia.
Qed.

(** Different frames have no address in common. *)
Lemma frames_disjoint f g x :
  frame_ok f -> frame_ok g -> f <> g -> f <= x < f + block_size -> ~ (g <= x < g + block_size).
Proof. intros [Hf Hfm] [Hg Hgm] Hne Hx Hx2. unfold block_size in *. wrap_lia. Qed.

Section walks.
Context (own : gmap Z (nat * Z)) (m : memory) (free : list Z) (OK : tables_ok own m free).

(** Two memories that agree on the entries of typed tables walk alike. *)
Lemma page_walk_ext m' n t p page :
  own !! t = Some (n, p) ->
  (forall f l q i, own !! f = Some (l, q) -> 0 <= i < 512 -> m' (f + 8 * i) = m (f + 8 * i)) ->
  page_walk n m' t page = page_walk n m t page.
Proof.
  intros Ht Hm. revert t p Ht. induction n as [| n IH]; intros t p Ht; [done |].
  cbn [page_walk]. rewrite (Hm t (S n) p) by (done || apply page_index_range).
  destruct (present _) eqn:E; [| done]. destruct n as [| n]; [done |].
  eapply IH. eapply (t_child _ _ _ OK); eauto using page_index_range.
Qed.

(** Linking a zeroed frame at an absent entry does not change any walk. *)
Lemma page_walk_link m' n t p page f l q i e :
  own !! t = Some (n, p) -> own !! f = Some (S (S l), q) -> 0 <= i < 512 ->
  present (m (f + 8 * i)) = false -> m' (f + 8 * i) = e -> present e = true ->
  (forall j, 0 <= j < 512 -> m' (get_frame e + 8 * j) = 0) ->
  (forall t l q j, own !! t = Some (l, q) -> 0 <= j < 512 -> t + 8 * j <> f + 8 * i -> m' (t + 8 * j) = m (t + 8 * j)) ->
  page_walk n m' t page = page_walk n m t page.
Proof.
  intros Ht Hf Hi Habs Hm' He Hzero Hval. revert t p Ht. induction n as [| n IH]; intros t p Ht; [done |].
  pose proof (proj1 (t_frame _ _ _ OK _ _ _ Ht)) as Htok.
  pose proof (proj1 (t_frame _ _ _ OK _ _ _ Hf)) as Hfok. cbn [page_walk].
  destruct (decide (t + 8 * page_index (S n) page = f + 8 * i)) as [E | E].
  - rewrite E, Hm', Habs, He. apply word_inj in E as [-> E2]; try done; [| apply page_index_range].
    assert (n = S l) as -> by congruence. cbn [page_walk]. by rewrite Hzero by apply page_index_range.
  - rewrite (Hval _ _ _ _ Ht) by (done || apply page_index_range).
    destruct (present (m (t + 8 * page_index (S n) page))) eqn:Ep; [| done].
    destruct n as [| n]; [done |]. eapply IH. eapply (t_child _ _ _ OK); eauto using page_index_range.
Qed.

(** Writing a page-table entry changes the walks of its page only. *)
Lemma page_walk_leaf n t p page t1 q j e :
  own !! t = Some (n, p) -> page_prefix n page = p -> own !! t1 = Some (1%nat, q) -> 0 <= j < 512 ->
  page <> q * 512 + j ->
  page_walk n (write_word m (t1 + 8 * j) e) t page = page_walk n m t page.
Proof.
  intros Ht Hp Ht1 Hj Hv. revert t p Ht Hp. induction n as [| n IH]; intros t p Ht Hp; [done |].
  pose proof (proj1 (t_frame _ _ _ OK _ _ _ Ht)) as Htok.
  pose proof (proj1 (t_frame _ _ _ OK _ _ _ Ht1)) as Ht1ok.
  cbn [page_walk]. destruct (decide (t + 8 * page_index (S n) page = t1 + 8 * j)) as [E | E].
  - apply word_inj in E as [-> E2]; try done; [| apply page_index_range].
    rewrite Ht in Ht1. injection Ht1 as -> ->. exfalso. apply Hv.
    rewrite <- (page_prefix_0 page), <- page_prefix_index. congruence.
  - replace (write_word m (t1 + 8 * j) e (t + 8 * page_index (S n) page)) with (m (t + 8 * page_index (S n) page))
      by (unfold write_word; by rewrite (proj2 (Z.eqb_neq _ _) E)).
    destruct (present (m (t + 8 * page_index (S n) page))) eqn:Ep; [| done].
    destruct n as [| n]; [done |].
    eapply (IH _ (p * 512 + page_index (S (S n)) page)).
    + eapply (t_child _ _ _ OK); eauto using page_index_range.
    + by rewrite <- Hp, page_prefix_index.
Qed.

(** The words of a memory after zeroing [g] and writing one word elsewhere. *)
Lemma linked_word f i g e t j :
  frame_ok f -> frame_ok g -> frame_ok t -> 0 <= j < 512 ->
  write_word (zero_frame m g) (f + 8 * i) e (t + 8 * j) =
    if t + 8 * j =? f + 8 * i then e else if bool_decide (t = g) then 0 else m (t + 8 * j).
Proof. intros Hf Hg Ht Hj. unfold write_word, zero_frame. by rewrite word_in_frame by done. Qed.

Lemma walk_link n t p page f l q i g e :
  own !! t = Some (n, p) -> own !! f = Some (S (S l), q) -> 0 <= i < 512 ->
  present (m (f + 8 * i)) = false -> frame_ok g -> own !! g = None ->
  present e = true -> get_frame e = g ->
  page_walk n (write_word (zero_frame m g) (f + 8 * i) e) t page = page_walk n m t page.
Proof.
  intros Ht Hf Hi Habs Hg Hgo He <-. assert (Hfok := proj1 (t_frame _ _ _ OK _ _ _ Hf)).
  eapply page_walk_link; [exact Ht | exact Hf | done | done | | exact He | |].
  - unfold write_word. by rewrite Z.eqb_refl.
  - intros j Hj. rewrite linked_word, bool_decide_true by done. destruct (Z.eqb_spec (get_frame e + 8 * j) (f + 8 * i)) as [E |]; [| done].
    apply word_inj in E as [E _]; congruence || done.
  - intros t' l' q' j Ht' Hj Hne. assert (Ht'ok := proj1 (t_frame _ _ _ OK _ _ _ Ht')).
    rewrite linked_word by done. rewrite (proj2 (Z.eqb_neq _ _) Hne). rewrite bool_decide_false by congruence. done.
Qed.
End walks.

Lemma walk_unfold n m t v :
  walk (S n) m t v =
    if present (m (t + 8 * index_at (S n) v)) then
      match n with O => Some (m (t + 8 * index_at (S n) v)) | S _ => walk n m (get_frame (m (t + 8 * index_at (S n) v))) v end
    else None.
Proof. done. Qed.

Lemma walk_present m n t v e : walk n m t v = Some e -> present e = true.
Proof.
  revert t. induction n as [| n IH]; intros t; [done |]. rewrite walk_unfold.
  destruct (present (m _)) eqn:E; [| done]. destruct n; [by intros [= <-] | apply IH].
Qed.

Lemma walk_word m n t v e : (forall a, is_u64 (m a)) -> walk n m t v = Some e -> is_u64 e.
Proof.
  intros Hm. revert t. induction n as [| n IH]; intros t; [done |]. rewrite walk_unfold.
  destruct (present (m _)) eqn:E; [| done]. destruct n; [by intros [= <-] | apply IH].
Qed.

Lemma walk_vpn n m t v v' : vpn v = vpn v' -> walk n m t v = walk n m t v'.
Proof. unfold walk. by intros ->. Qed.

(** ** Lemmas: the kernel's accesses *)

Lemma direct_map_word f i : frame_ok f -> 0 <= i < 512 -> to_phys (u64 (to_virt f + 8 * i)) = f + 8 * i.
Proof.
  intros [Hf _] Hi. unfold to_phys, to_virt, KERNEL_PHYSICAL_VIRTUAL_MAPPING_BASE. wrap_lia.
Qed.

Lemma direct_map_frame f : frame_ok f -> to_phys (to_virt f) = f.
Proof. intros [Hf _]. unfold to_phys, to_virt, KERNEL_PHYSICAL_VIRTUAL_MAPPING_BASE. wrap_lia. Qed.

Section spaces.
Context {S : Type} `{FA : FrameAllocatorLaws S}.
Implicit Types (k : paging.kernel S) (own : gmap Z (nat * Z)).

Lemma load_word k f i : frame_ok f -> 0 <= i < 512 -> paging.load k (to_virt f) i = paging.mem k (f + 8 * i).
Proof. intros Hf Hi. unfold paging.load. by rewrite direct_map_word. Qed.

Lemma store_word k f i v :
  frame_ok f -> 0 <= i < 512 ->
  paging.store k (to_virt f) i v = paging.mk (paging.frames k) (write_word (paging.mem k) (f + 8 * i) v).
Proof. intros Hf Hi. unfold paging.store. by rewrite direct_map_word. Qed.

(** A frame fresh from the allocator is in no table and becomes a typed table. *)
Lemma alloc_zeroed_spec own root k g k' :
  space_ok own root k -> paging.alloc_zeroed k = Ret (g, k') ->
  frame_ok g /\ own !! g = None /\ paging.mem k' = zero_frame (paging.mem k) g /\
  fa_wf (paging.frames k') /\ fa_pages (paging.frames k) ≡ₚ g :: fa_pages (paging.frames k').
Proof.
  intros OK H. unfold paging.alloc_zeroed in H. inv_res.
  apply fa_alloc_Ret in E as [Hw Hp]; [| apply OK]. simpl.
  assert (Hin : g ∈ fa_pages (paging.frames k)) by (rewrite Hp; set_solver).
  assert (Hg : frame_ok g) by (eapply Forall_forall; [apply OK | done]).
  repeat split; try done; try apply Hg.
  - destruct (own !! g) as [[n p] |] eqn:Eg; [| done].
    apply (t_frame _ _ _ (s_tables _ _ _ OK)) in Eg as [_ Hf]. done.
  - by rewrite direct_map_frame.
Qed.

(** A zeroed frame that is linked at an absent entry becomes a typed table. *)
Lemma tables_link_entry own m m' free free' f l q i e :
  tables_ok own m free -> (forall x, x ∈ free' -> x ∈ free) -> get_frame e ∉ free' -> frame_ok (get_frame e) -> own !! get_frame e = None ->
  own !! f = Some (Datatypes.S (Datatypes.S l), q) -> 0 <= i < 512 -> m' (f + 8 * i) = e ->
  (forall j, 0 <= j < 512 -> m' (get_frame e + 8 * j) = 0) ->
  (forall t l q j, own !! t = Some (l, q) -> 0 <= j < 512 -> t + 8 * j <> f + 8 * i -> m' (t + 8 * j) = m (t + 8 * j)) ->
  (forall a, is_u64 (m' a)) -> tables_ok (<[get_frame e := (Datatypes.S l, q * 512 + i)]> own) m' free'.
Proof.
  intros OK Hfree Hgn Hg Hgo Hf Hi He Hzero Hval Hu. set (g := get_frame e) in *.
  assert (Hfok : frame_ok f) by apply (t_frame _ _ _ OK _ _ _ Hf). constructor; [| | done].
  - intros f' n p. destruct (decide (f' = g)) as [-> | Hne]; [done |].
    rewrite lookup_insert_ne by done. intros [H1 H2]%(t_frame _ _ _ OK). split; [done |]. auto.
  - intros f' n p j Hf' Hj. destruct (decide (f' = g)) as [-> | Hne]; [by rewrite Hzero |].
    rewrite lookup_insert_ne in Hf' by done. assert (Hf'ok := proj1 (t_frame _ _ _ OK _ _ _ Hf')).
    destruct (decide (f' + 8 * j = f + 8 * i)) as [E | E].
    + intros _. rewrite E, He. apply word_inj in E as [-> ->]; try done. fold g. rewrite lookup_insert_eq. congruence.
    + rewrite (Hval _ _ _ _ Hf') by done. intros H. apply (t_child _ _ _ OK _ _ _ _ Hf') in H; [| done].
      rewrite lookup_insert_ne; [done | congruence].
Qed.

Lemma tables_link own m free free' f l q i g :
  tables_ok own m free -> free ≡ₚ g :: free' -> NoDup free ->
  own !! f = Some (Datatypes.S (Datatypes.S l), q) -> 0 <= i < 512 -> frame_ok g -> own !! g = None ->
  tables_ok (<[g := (Datatypes.S l, q * 512 + i)]> own)
    (write_word (zero_frame m g) (f + 8 * i) (make_table_entry g)) free'.
Proof.
  intros OK Hp Hnd Hf Hi Hg Hgo. rewrite Hp in Hnd. apply NoDup_cons in Hnd as [Hgn _].
  assert (Hfok : frame_ok f) by apply (t_frame _ _ _ OK _ _ _ Hf). assert (Hfg : f <> g) by congruence.
  assert (Eg := table_entry_frame g Hg). rewrite <- Eg at 1. eapply tables_link_entry; rewrite ?Eg; try done.
  - intros x Hx. rewrite Hp. set_solver.
  - unfold write_word. by rewrite Z.eqb_refl.
  - intros j Hj. rewrite linked_word, bool_decide_true by done.
    destruct (Z.eqb_spec (g + 8 * j) (f + 8 * i)) as [E |]; [| done]. apply word_inj in E as [E _]; congruence || done.
  - intros t l' q' j Ht Hj Hne. assert (Htok := proj1 (t_frame _ _ _ OK _ _ _ Ht)).
    rewrite linked_word by done. rewrite (proj2 (Z.eqb_neq _ _) Hne), bool_decide_false by congruence. done.
  - intros a. unfold write_word, zero_frame. destruct (_ =? _); [apply table_entry_u64 |].
    destruct (_ && _); [apply is_u64_0 | apply OK].
Qed.

(** A frame that is neither a table nor free: it holds data. *)
Definition data_frame own k (f : Z) : Prop :=
  frame_ok f /\ own !! f = None /\ f ∉ fa_pages (paging.frames k).
Definition frame_kept (f : Z) k k' : Prop :=
  forall x, f <= x < f + block_size -> paging.mem k' x = paging.mem k x.

(** What one level of [map_page] does: the entry at [i] is present and leads to
    a table of the next level; present entries and all walks are unchanged. *)
Record grows (own own' : gmap Z (nat * Z)) k k' : Prop := {
  g_own : own ⊆ own';
  g_entry : forall f l q j, own !! f = Some (l, q) -> 0 <= j < 512 ->
      present (paging.mem k (f + 8 * j)) = true ->
      paging.mem k' (f + 8 * j) = paging.mem k (f + 8 * j);
  g_walk : forall n t p page, own !! t = Some (n, p) -> page_walk n (paging.mem k') t page = page_walk n (paging.mem k) t page;
  g_data : forall f, data_frame own k f -> data_frame own' k' f /\ frame_kept f k k' }.

(** At most [n] frames were taken from the allocator, and none was given back. *)
Definition uses (n : nat) k k' : Prop :=
  exists used, (length used <= n)%nat /\
    fa_pages (paging.frames k) ≡ₚ used ++ fa_pages (paging.frames k').

Lemma uses_trans n n' k1 k2 k3 : uses n k1 k2 -> uses n' k2 k3 -> uses (n + n') k1 k3.
Proof.
  intros (u1 & L1 & P1) (u2 & L2 & P2). exists (u1 ++ u2). rewrite length_app. split; [lia |].
  by rewrite P1, P2, (assoc_L (++)).
Qed.

Lemma uses_length n k k' :
  uses n k k' -> (length (fa_pages (paging.frames k)) <= n + length (fa_pages (paging.frames k')))%nat.
Proof. intros (u & L & P). rewrite P, length_app. lia. Qed.

Lemma uses_elem n k k' f : uses n k k' -> f ∈ fa_pages (paging.frames k') -> f ∈ fa_pages (paging.frames k).
Proof. intros (u & _ & P) H. rewrite P. set_solver. Qed.

Lemma ensure_table_spec own root k t n p i e k' :
  space_ok own root k -> own !! t = Some (Datatypes.S (Datatypes.S n), p) -> 0 <= i < 512 ->
  paging.ensure_table (to_virt t) i k = Ret (e, k') ->
  exists own', grows own own' k k' /\ space_ok own' root k' /\ paging.mem k' (t + 8 * i) = e /\
    present e = true /\ own' !! get_frame e = Some (Datatypes.S n, p * 512 + i) /\ uses 1 k k'.
Proof.
  intros OK Ht Hi H. pose proof (s_tables _ _ _ OK) as T.
  assert (Htok : frame_ok t) by apply (t_frame _ _ _ T _ _ _ Ht).
  unfold paging.ensure_table in H. rewrite load_word, test_present in H by (done || apply T).
  destruct (present (paging.mem k (t + 8 * i))) eqn:Ep.
  - inv_res. exists own. split_and!; try done; [by eapply (t_child _ _ _ T) |].
    exists []. split; [simpl; lia | done].
  - inv_res. destruct (alloc_zeroed_spec _ _ _ _ _ OK E) as (Hg & Hgo & Hm & Hw & Hp).
    rename z into g. rewrite store_word by done. cbn [paging.mem paging.frames]. rewrite Hm.
    assert (Hnd : NoDup (g :: fa_pages (paging.frames k0))) by (rewrite <- Hp; apply OK).
    assert (Hfr : Forall frame_ok (g :: fa_pages (paging.frames k0))) by (rewrite <- Hp; apply OK).
    assert (Htg : t <> g) by congruence.
    exists (<[g := (Datatypes.S n, p * 512 + i)]> own). split_and!.
    + constructor; cbn [paging.mem].
      * by apply insert_subseteq.
      * intros f l q j Hf Hj Hpr. unfold write_word, zero_frame.
        assert (frame_ok f) by apply (t_frame _ _ _ T _ _ _ Hf).
        destruct (Z.eqb_spec (f + 8 * j) (t + 8 * i)) as [E2 | E2].
        { apply word_inj in E2 as [-> ->]; congruence. }
        rewrite word_in_frame, bool_decide_false by (done || congruence). done.
      * intros l f q v Hf. eapply walk_link; eauto using table_entry_present, table_entry_frame.
      * intros f (Hfok & Hfo & Hff). assert (Hfg : f <> g) by (intros ->; apply Hff; rewrite Hp; set_solver).
        split.
        { split_and!; [done | by rewrite lookup_insert_ne | rewrite Hp in Hff; set_solver]. }
        intros x Hx. cbn [paging.mem]. unfold write_word, zero_frame.
        assert (Hxt : ~ (t <= x < t + block_size)) by (apply (frames_disjoint f); congruence || done).
        assert (Hxg : ~ (g <= x < g + block_size)) by (by apply (frames_disjoint f)).
        rewrite (proj2 (Z.eqb_neq x (t + 8 * i))) by (unfold block_size in Hxt; lia).
        destruct (Z.leb_spec g x), (Z.ltb_spec x (g + block_size)); cbn; try done. lia.
    + constructor; cbn [paging.mem paging.frames].
      * eapply tables_link; try done. apply OK.
      * rewrite lookup_insert_ne; [apply OK |]. intros ->. rewrite (s_root _ _ _ OK) in Hgo. done.
      * done.
      * by apply NoDup_cons in Hnd as [_ ?].
      * by apply Forall_cons in Hfr as [_ ?].
    + unfold write_word. by rewrite Z.eqb_refl.
    + apply table_entry_present.
    + by rewrite table_entry_frame, lookup_insert_eq.
    + exists [g]. split; [simpl; lia | done].
Qed.

Lemma grows_trans own1 own2 own3 k1 k2 k3 : grows own1 own2 k1 k2 -> grows own2 own3 k2 k3 -> grows own1 own3 k1 k3.
Proof.
  intros [A1 B1 C1 D1] [A2 B2 C2 D2].
  assert (A : forall f x, own1 !! f = Some x -> own2 !! f = Some x) by (by apply map_subseteq_spec).
  constructor.
  - by transitivity own2.
  - intros f l q j Hf Hj Hp. rewrite <- (B1 f l q j) in Hp |- * by done.
    eapply B2; eauto.
  - intros n t p v Ht. erewrite C2, C1; eauto.
  - intros f Hf. destruct (D1 f Hf) as [Hf2 K1]. destruct (D2 f Hf2) as [Hf3 K2]. split; [done |].
    intros x Hx. by rewrite K2, K1.
Qed.

(** Writing an entry of a page table keeps the typing of the tables. *)
Lemma tables_leaf own m free t q j e :
  tables_ok own m free -> own !! t = Some (1%nat, q) -> 0 <= j < 512 -> is_u64 e ->
  tables_ok own (write_word m (t + 8 * j) e) free.
Proof.
  intros OK Ht Hj He. constructor; [apply OK | |].
  - intros f n p i Hf Hi. unfold write_word. destruct (Z.eqb_spec (f + 8 * i) (t + 8 * j)) as [E | E].
    + apply word_inj in E as [-> ->]; try done; [congruence | by eapply t_frame | by eapply t_frame].
    + by apply (t_child _ _ _ OK).
  - intros a. unfold write_word. destruct (_ =? _); [done | apply OK].
Qed.

Lemma space_leaf own root k t q j e :
  space_ok own root k -> own !! t = Some (1%nat, q) -> 0 <= j < 512 -> is_u64 e ->
  space_ok own root (paging.mk (paging.frames k) (write_word (paging.mem k) (t + 8 * j) e)).
Proof. intros [T R W N F] Ht Hj He. constructor; try done. by eapply tables_leaf. Qed.

(** One step of a walk through a present entry. *)
Lemma walk_step n m t v e :
  m (t + 8 * index_at (Datatypes.S (Datatypes.S n)) v) = e -> present e = true ->
  walk (Datatypes.S (Datatypes.S n)) m t v = walk (Datatypes.S n) m (get_frame e) v.
Proof. intros E P. by rewrite walk_unfold, E, P. Qed.

(** Two memories that agree on the tables above the page tables. *)
Definition same_upper own (m m' : memory) : Prop :=
  forall f n p j, own !! f = Some (Datatypes.S (Datatypes.S n), p) -> 0 <= j < 512 -> m' (f + 8 * j) = m (f + 8 * j).

Lemma same_upper_leaf own m free t q i e :
  tables_ok own m free -> own !! t = Some (1%nat, q) -> 0 <= i < 512 ->
  same_upper own m (write_word m (t + 8 * i) e).
Proof.
  intros OK Ht Hi f n p j Hf Hj. unfold write_word.
  destruct (Z.eqb_spec (f + 8 * j) (t + 8 * i)) as [E2 | E2]; [| done].
  apply word_inj in E2 as [-> _]; try done; [congruence | |]; by eapply (t_frame _ _ _ OK).
Qed.

(** The three upper levels of [map_page]: they lead to the page table of [virt]. *)
Lemma upper_levels own root k virt e4 k1 e3 k2 e2 k3 :
  space_ok own root k ->
  paging.ensure_table (to_virt root) (pml4_index virt) k = Ret (e4, k1) ->
  paging.ensure_table (to_virt (get_frame e4)) (pdpt_index virt) k1 = Ret (e3, k2) ->
  paging.ensure_table (to_virt (get_frame e3)) (pd_index virt) k2 = Ret (e2, k3) ->
  exists own', grows own own' k k3 /\ space_ok own' root k3 /\ uses 3 k k3 /\
    own' !! get_frame e2 = Some (1%nat, prefix 1 virt) /\
    (forall v m, vpn v = vpn virt -> same_upper own' (paging.mem k3) m ->
      walk 4 m root v = walk 1 m (get_frame e2) v).
Proof.
  destruct (index_eqs virt) as (-> & -> & -> & _). intros OK H4 H3 H2.
  eapply ensure_table_spec in H4 as (own1 & G1 & OK1 & M4 & P4 & O4 & U4); eauto using index_range, s_root.
  eapply ensure_table_spec in H3 as (own2 & G2 & OK2 & M3 & P3 & O3 & U3); eauto using index_range.
  eapply ensure_table_spec in H2 as (own3 & G3 & OK3 & M2 & P2 & O2 & U2); eauto using index_range.
  pose proof (grows_trans _ _ _ _ _ _ G2 G3) as G23.
  exists own3. split_and!; [exact (grows_trans _ _ _ _ _ _ G1 G23) | exact OK3 | exact (uses_trans _ _ _ _ _ U4 (uses_trans _ _ _ _ _ U3 U2)) | |].
  - rewrite O2. do 2 f_equal. by rewrite <- (prefix_index 1), <- (prefix_index 2), <- (prefix_index 3), prefix_4.
  - intros v m Hv Hm. rewrite !(walk_vpn _ _ _ v virt) by done.
    assert (R1 : own1 !! root = Some (4%nat, 0)) by apply OK1.
    rewrite (walk_step 2 m root virt e4), (walk_step 1 m _ virt e3), (walk_step 0 m _ virt e2);
      [done | | exact P2 | | exact P3 | | exact P4].
    + rewrite (Hm _ _ _ _ (lookup_weaken _ _ _ _ O3 (g_own _ _ _ _ G3))) by apply index_range. exact M2.
    + rewrite (Hm _ _ _ _ (lookup_weaken _ _ _ _ O4 (g_own _ _ _ _ G23))) by apply index_range.
      erewrite (g_entry _ _ _ _ G3); [exact M3 | exact (lookup_weaken _ _ _ _ O4 (g_own _ _ _ _ G2)) | apply index_range | congruence].
    + rewrite (Hm _ _ _ _ (lookup_weaken _ _ _ _ R1 (g_own _ _ _ _ G23))) by apply index_range.
      erewrite (g_entry _ _ _ _ G23); [exact M4 | exact R1 | apply index_range | congruence].
Qed.

(** The code's walk finds the entry of the abstract translation, in the page
    table that serves the page. *)
Lemma find_entry_translate own root k v :
  space_ok own root k ->
  match paging.find_entry (to_virt root) v k with
  | Some (pt, e) => translate (paging.mem k) root v = Some e /\
      exists t, pt = to_virt t /\ own !! t = Some (1%nat, prefix 1 v) /\ paging.mem k (t + 8 * index_at 1 v) = e /\
        (forall m, same_upper own (paging.mem k) m -> translate m root v = walk 1 m t v)
  | None => translate (paging.mem k) root v = None
  end.
Proof.
  intros OK. pose proof (s_tables _ _ _ OK) as T. pose proof (s_root _ _ _ OK) as O4.
  destruct (index_eqs v) as (E4 & E3 & E2 & E1). unfold paging.find_entry, translate. rewrite E4, E3, E2, E1.
  assert (F : forall t n p, own !! t = Some (n, p) -> frame_ok t) by (intros; by eapply (t_frame _ _ _ T)).
  rewrite load_word, test_present by eauto using index_range, t_word. rewrite walk_unfold.
  set (e4 := paging.mem k (root + 8 * index_at 4 v)). destruct (present e4) eqn:P4; [| done].
  pose proof (t_child _ _ _ T _ _ _ _ O4 (index_range _ _) P4) as O3. fold e4 in O3.
  rewrite load_word, test_present by eauto using index_range, t_word. rewrite walk_unfold.
  set (e3 := paging.mem k (get_frame e4 + 8 * index_at 3 v)). destruct (present e3) eqn:P3; [| done].
  pose proof (t_child _ _ _ T _ _ _ _ O3 (index_range _ _) P3) as O2. fold e3 in O2.
  rewrite load_word, test_present by eauto using index_range, t_word. rewrite walk_unfold.
  set (e2 := paging.mem k (get_frame e3 + 8 * index_at 2 v)). destruct (present e2) eqn:P2; [| done].
  pose proof (t_child _ _ _ T _ _ _ _ O2 (index_range _ _) P2) as O1. fold e2 in O1.
  rewrite load_word, test_present by eauto using index_range, t_word. rewrite walk_unfold.
  set (e1 := paging.mem k (get_frame e2 + 8 * index_at 1 v)). destruct (present e1) eqn:P1; [| done].
  split; [done |]. eexists. split_and!; [done | | done |].
  - rewrite O1. do 2 f_equal. by rewrite <- (prefix_index 1), <- (prefix_index 2), <- (prefix_index 3), prefix_4.
  - intros m Hm. unfold translate.
    rewrite (walk_step 2 m root v e4), (walk_step 1 m _ v e3), (walk_step 0 m _ v e2);
      [done | | exact P2 | | exact P3 | | exact P4]; erewrite Hm; eauto using index_range.
Qed.

Lemma get_phys_translate own root k v :
  space_ok own root k ->
  paging.get_phys (to_virt root) v k =
    match translate (paging.mem k) root v with Some e => get_frame e | None => u64_max end.
Proof.
  intros OK. pose proof (find_entry_translate own root k v OK) as H. unfold paging.get_phys.
  destruct (paging.find_entry _ _ _) as [[pt e] |]; [destruct H as [-> _] | rewrite H]; done.
Qed.

(** [map_page] as an update of the translation. *)
Lemma map_page_ok own root k phys virt flags cache k' :
  space_ok own root k -> paging.map_page (to_virt root) phys virt flags cache k = Ret k' ->
  exists own', own ⊆ own' /\ space_ok own' root k' /\
    (forall r v, own !! r = Some (4%nat, 0) -> vpn v <> vpn virt ->
       translate (paging.mem k') r v = translate (paging.mem k) r v) /\
    (forall v, vpn v = vpn virt ->
       translate (paging.mem k') root v =
         if Z.testbit flags 0 then Some (make_pte phys flags cache) else None) /\
    uses 3 k k' /\
    (forall f, data_frame own k f -> data_frame own' k' f /\ frame_kept f k k').
Proof.
  intros OK H. unfold paging.map_page in H. inv_res.
  destruct (upper_levels own root k virt z k0 z0 k1 z1 k2) as (own' & G & OK' & U & O1 & W); try done.
  pose proof (s_tables _ _ _ OK') as T. destruct (index_eqs virt) as (_ & _ & _ & E1').
  assert (Hpt : frame_ok (get_frame z1)) by apply (t_frame _ _ _ T _ _ _ O1).
  rewrite E1', store_word by (done || apply index_range).
  exists own'. split_and!; [apply G | eapply space_leaf; eauto using index_range, make_pte_u64 | | | exact U |].
  - intros r v Hr Hv. cbn [paging.mem]. unfold translate.
    unfold walk. rewrite <- (g_walk _ _ _ _ G 4 r 0 (vpn v) Hr). eapply page_walk_leaf; eauto using index_range.
    + change (page_prefix 4 (vpn v)) with (prefix 4 v). rewrite prefix_4. by eapply lookup_weaken; [| apply G].
    + by rewrite prefix_index, prefix_0.
  - intros v Hv. cbn [paging.mem]. unfold translate. rewrite W; [| done |].
    + rewrite (walk_vpn _ _ _ v virt) by done. rewrite walk_unfold. unfold write_word.
      rewrite Z.eqb_refl, make_pte_present. done.
    + eapply same_upper_leaf; eauto using index_range.
  - intros f Hf. destruct (g_data _ _ _ _ G f Hf) as [Hf2 K]. split; [done |].
    intros x Hx. rewrite <- K by done. cbn [paging.mem]. unfold write_word.
    rewrite (proj2 (Z.eqb_neq _ _)); [done |]. pose proof (index_range 1 virt).
    assert (~ (get_frame z1 <= x < get_frame z1 + block_size)); [| unfold block_size in *; lia].
    destruct Hf2 as (? & ? & _). apply (frames_disjoint f); congruence || done.
Qed.

Lemma ensure_table_success own root k t n p i :
  space_ok own root k -> own !! t = Some (Datatypes.S (Datatypes.S n), p) -> 0 <= i < 512 ->
  (0 < length (fa_pages (paging.frames k)))%nat -> exists e k', paging.ensure_table (to_virt t) i k = Ret (e, k').
Proof.
  intros OK Ht Hi Hl. unfold paging.ensure_table. destruct (test_bit _ _); [by eauto |].
  destruct (fa_alloc_success (paging.frames k)) as (a & s' & E); [apply OK | intros Hn; rewrite Hn in Hl; simpl in Hl; lia |].
  unfold paging.alloc_zeroed. rewrite E. cbn. eauto.
Qed.

(** Three free frames are enough for one mapping. *)
Lemma map_page_success own root k phys virt flags cache :
  space_ok own root k -> (3 <= length (fa_pages (paging.frames k)))%nat ->
  exists k', paging.map_page (to_virt root) phys virt flags cache k = Ret k'.
Proof.
  intros OK Hl. unfold paging.map_page. destruct (index_eqs virt) as (-> & -> & -> & _).
  destruct (ensure_table_success own root k root 2 0 (index_at 4 virt)) as (e4 & k1 & E4);
    eauto using index_range, s_root; [lia |]. rewrite E4.
  eapply ensure_table_spec in E4 as (own1 & _ & OK1 & _ & _ & O4 & L4%uses_length); eauto using index_range, s_root.
  cbn [mbind res_bind].
  destruct (ensure_table_success own1 root k1 (get_frame e4) 1 (0 * 512 + index_at 4 virt) (index_at 3 virt)) as (e3 & k2 & E3);
    eauto using index_range; [lia |]. rewrite E3.
  eapply ensure_table_spec in E3 as (own2 & _ & OK2 & _ & _ & O3 & L3%uses_length); eauto using index_range.
  cbn [mbind res_bind].
  edestruct (ensure_table_success own2 root k2 (get_frame e3) 0) as (e2 & k3 & E2);
    eauto using index_range; [lia |]. rewrite E2. cbn. eauto.
Qed.

(** A loop that maps the pages [j0 ... j0 + n): each of them translates to its
    entry (the last one where pages coincide), other addresses as before. *)
Lemma map_loop_ok n j0 (phys virt : Z -> Z) flags cache own root k :
  space_ok own root k -> (3 * n <= length (fa_pages (paging.frames k)))%nat -> Z.testbit flags 0 = true ->
  exists k' own', for_loop n j0 (fun j k => paging.map_page (to_virt root) (phys j) (virt j) flags cache k) k = Ret k' /\
    space_ok own' root k' /\ uses (3 * n) k k' /\
    forall v, (exists j, j0 <= j < j0 + Z.of_nat n /\ vpn v = vpn (virt j) /\
        translate (paging.mem k') root v = Some (make_pte (phys j) flags cache)) \/
      ((forall j, j0 <= j < j0 + Z.of_nat n -> vpn v <> vpn (virt j)) /\
       translate (paging.mem k') root v = translate (paging.mem k) root v).
Proof.
  revert j0 own k. induction n as [| n IH]; intros j0 own k OK Hl Hf; cbn [for_loop].
  - exists k, own. split_and!; [done | done | by exists [] |]. intros v. right. split; [lia | done].
  - destruct (map_page_success own root k (phys j0) (virt j0) flags cache OK) as (k1 & E1); [lia |].
    destruct (map_page_ok _ _ _ _ _ _ _ _ OK E1) as (own1 & _ & OK1 & Ho & Hp & U1 & _). rewrite E1. cbn [mbind res_bind].
    assert (L1 := uses_length _ _ _ U1). destruct (IH (j0 + 1) own1 k1 OK1) as (k2 & own2 & E2 & OK2 & U2 & Hv); [lia | done |].
    exists k2, own2. split_and!; [exact E2 | done | replace (3 * Datatypes.S n)%nat with (3 + 3 * n)%nat by lia; by eapply uses_trans |].
    intros v. destruct (Hv v) as [(j & Hj & Hjv & Ht) | [Hno Ht]]; [left; exists j; split_and!; (lia || done) |].
    rewrite Ht. destruct (decide (vpn v = vpn (virt j0))) as [E | E].
    + left. exists j0. split_and!; [lia | lia | done |]. rewrite Hp by done. by rewrite Hf.
    + right. split; [| apply Ho; [apply OK | done]]. intros j Hj. destruct (decide (j = j0)) as [-> |]; [done | apply Hno; lia].
Qed.

(** Taking a frame for other uses than tables. *)
Lemma space_alloc own root k f fr :
  space_ok own root k -> fa_alloc (paging.frames k) = Ret (f, fr) ->
  let k' := paging.mk fr (paging.mem k) in
  space_ok own root k' /\ uses 1 k k' /\ frame_ok f /\ f ∈ fa_pages (paging.frames k).
Proof.
  intros OK H k'. apply fa_alloc_Ret in H as [W P]; [| apply OK].
  assert (Hin : f ∈ fa_pages (paging.frames k)) by (rewrite P; set_solver).
  split_and!; [| by exists [f] | eapply Forall_forall; [apply OK | done] | done].
  destruct OK as [[T1 T2 T3] R _ N F]. rewrite P in N, F.
  apply NoDup_cons in N as [_ N]. apply Forall_cons in F as [_ F].
  constructor; try done. constructor; try done.
  intros g n p Hg. destruct (T1 g n p Hg) as [? Hn]. split; [done |]. rewrite P in Hn. set_solver.
Qed.

(** A frame just allocated holds data. *)
Lemma alloc_data own root k f fr :
  space_ok own root k -> fa_alloc (paging.frames k) = Ret (f, fr) -> data_frame own (paging.mk fr (paging.mem k)) f.
Proof.
  intros OK H. destruct (space_alloc own root k f fr OK H) as (OK' & _ & Hf & Hin). split_and!; [done | |].
  - destruct (own !! f) as [[n p] |] eqn:E; [| done]. exfalso. by apply (t_frame _ _ _ (s_tables _ _ _ OK) f n p E).
  - apply fa_alloc_Ret in H as [_ P]; [| apply OK]. assert (N := s_nodup _ _ _ OK). rewrite P in N.
    by apply NoDup_cons in N as [? _].
Qed.

(** [set_page_protection] only adds bits. *)
Lemma testbit_protected_entry e flags cache i :
  is_u64 e -> 0 <= i ->
  Z.testbit (paging.protected_entry e flags cache) i =
    Z.testbit e i || Z.testbit flags 4 && (i =? 8)
    || (Z.testbit flags 0 && (i =? 0) || Z.testbit flags 2 && (i =? 2) || Z.testbit flags 3 && (i =? 63)
        || Z.testbit flags 1 && (i =? 1)) && Z.testbit flags_mask i
    || Z.testbit (get_pat_flags cache) i.
Proof.
  intros He Hi. unfold paging.protected_entry, set_flags.
  change map_page_flags_writable with (2 ^ 1). change map_page_flags_global with (2 ^ 4).
  change map_page_flags_no_execute with (2 ^ 3). change map_page_flags_user with (2 ^ 2).
  change map_page_flags_present with (2 ^ 0).
  rewrite !Z.lor_spec, Z.land_spec.
  rewrite !testbit_set_if by (auto with sigma || (unfold page_entry_writeable, page_entry_global,
    page_entry_no_execute, page_entry_user, page_entry_present; lia)).
  by rewrite Z.bits_0.
Qed.

Lemma protected_entry_u64 e flags cache : is_u64 e -> is_u64 (paging.protected_entry e flags cache).
Proof. intros He. unfold paging.protected_entry, set_flags. auto with sigma. Qed.

Lemma protected_entry_frame e flags cache :
  is_u64 e -> get_frame (paging.protected_entry e flags cache) = get_frame e.
Proof.
  intros He. apply Z.bits_inj'. intros i Hi. rewrite !testbit_get_frame by lia.
  destruct (Z.leb_spec 12 i), (Z.ltb_spec i 52); try reflexivity.
  rewrite testbit_protected_entry, testbit_flags_mask, pat_flags_bits by (done || lia).
  rewrite (proj2 (Z.eqb_neq i 8)), (proj2 (Z.ltb_ge i 12)), (proj2 (Z.leb_gt 52 i)) by lia.
  by rewrite !andb_false_r, !orb_false_r.
Qed.

Lemma set_page_protection_ok own root k virt flags cache :
  space_ok own root k ->
  let '(r, k') := paging.set_page_protection (to_virt root) virt flags cache k in
  r = bool_decide (is_Some (translate (paging.mem k) root virt)) /\ space_ok own root k' /\
  (forall v, translate (paging.mem k') root v =
     if decide (vpn v = vpn virt)
     then (fun e => paging.protected_entry e flags cache) <$> translate (paging.mem k) root v
     else translate (paging.mem k) root v).
Proof.
  intros OK. pose proof (find_entry_translate own root k virt OK) as H. unfold paging.set_page_protection.
  pose proof (s_tables _ _ _ OK) as T. destruct (index_eqs virt) as (_ & _ & _ & E1).
  destruct (paging.find_entry _ _ _) as [[pt e] |].
  - destruct H as (Htr & t & -> & Ht & He & Hw). subst e.
    rewrite E1, store_word by (apply index_range || by eapply (t_frame _ _ _ T)). cbn [paging.mem].
    split_and!; [by rewrite Htr | eapply space_leaf; eauto using index_range, protected_entry_u64, t_word |].
    intros v. destruct (decide (vpn v = vpn virt)) as [Hv | Hv].
    + unfold translate in *. rewrite !(walk_vpn _ _ _ v virt), Htr by done.
      rewrite Hw by (eapply same_upper_leaf; eauto using index_range). rewrite walk_unfold. unfold write_word.
      rewrite Z.eqb_refl. apply walk_present in Htr. unfold present in *.
      rewrite testbit_protected_entry, Htr by (lia || apply T). done.
    + eapply page_walk_leaf; eauto using index_range, s_root; [| by rewrite prefix_index, prefix_0].
      apply prefix_4.
  - split_and!; [by rewrite H | done |]. intros v. destruct (decide _) as [Hv |]; [| done].
    unfold translate in *. by rewrite (walk_vpn _ _ _ v virt), H by done.
Qed.

Lemma set_page_protection_data own root k virt flags cache f :
  space_ok own root k -> data_frame own k f ->
  let k' := (paging.set_page_protection (to_virt root) virt flags cache k).2 in
  data_frame own k' f /\ frame_kept f k k'.
Proof.
  intros OK Hf. pose proof (find_entry_translate own root k virt OK) as H. unfold paging.set_page_protection.
  destruct (paging.find_entry _ _ _) as [[pt e] |]; [| done].
  destruct H as (_ & t & -> & Ht & _). destruct (index_eqs virt) as (_ & _ & _ & ->).
  assert (Htok : frame_ok t) by (by eapply (t_frame _ _ _ (s_tables _ _ _ OK))).
  rewrite store_word by (done || apply index_range). split; [done |].
  intros x Hx. cbn. unfold write_word. rewrite (proj2 (Z.eqb_neq _ _)); [done |]. pose proof (index_range 1 virt).
  assert (~ (t <= x < t + block_size)); [| unfold block_size in *; lia].
  destruct Hf as (? & ? & _). apply (frames_disjoint f); congruence || done.
Qed.

(** Memory of data frames can change without any effect on the tables. *)
Lemma space_data own root k f m' :
  space_ok own root k -> data_frame own k f ->
  (forall x, ~ (f <= x < f + block_size) -> m' x = paging.mem k x) -> (forall x, is_u64 (m' x)) ->
  space_ok own root (paging.mk (paging.frames k) m') /\
  forall v, translate m' root v = translate (paging.mem k) root v.
Proof.
  intros OK (Hf & Ho & Hff) Hm Hu. pose proof (s_tables _ _ _ OK) as T.
  assert (Hsame : forall g l q i, own !! g = Some (l, q) -> 0 <= i < 512 -> m' (g + 8 * i) = paging.mem k (g + 8 * i)).
  { intros g l q i Hg Hi. apply Hm. apply (frames_disjoint g); try done; [by eapply (t_frame _ _ _ T) | congruence |].
    unfold block_size. lia. }
  split.
  - destruct OK as [_ R W N F]. constructor; try done. constructor; [apply T | | done].
    intros g n p i Hg Hi. cbn. rewrite (Hsame g _ _ i Hg Hi). by apply (t_child _ _ _ T).
  - intros v. unfold translate. eapply (page_walk_ext own (paging.mem k)); [exact T | apply OK | exact Hsame].
Qed.

(** ** Lemmas: searching a free range *)

Lemma free_range_loop_ok fuel pi ptr stop needed k cur count :
  0 <= ptr < stop + 4096 -> stop + 4096 < u64_max -> 1 <= needed < 2 ^ 64 ->
  stop + 4096 <= ptr + 4096 * Z.of_nat fuel ->
  (cur = u64_max /\ count = 0) \/
    (1 <= count < needed /\ 0 <= cur < stop /\ cur = ptr - 4096 * count /\
     forall j, 0 <= j < count -> paging.get_phys pi (cur + 4096 * j) k = u64_max) ->
  exists r, paging.free_range_loop fuel pi ptr stop needed k cur count = Ret r /\
    (r = u64_max \/
     0 <= r < stop /\ (r - ptr) mod 4096 = 0 /\
     forall j, 0 <= j < needed -> r + 4096 * j < stop -> paging.get_phys pi (r + 4096 * j) k = u64_max).
Proof.
  revert ptr cur count. induction fuel as [| fuel IH]; intros ptr cur count Hp Hs Hn Hf Hc; [lia |].
  cbn [paging.free_range_loop]. destruct (Z.ltb_spec ptr stop) as [Hlt | Hge].
  - assert (Hmove : u64 (ptr + block_size) = ptr + 4096) by (unfold u64_max in *; wrap_lia).
    assert (Hmod : forall r, (r - (ptr + 4096)) mod 4096 = 0 -> (r - ptr) mod 4096 = 0) by (intros; wrap_lia).
    destruct (Z.eqb_spec (paging.get_phys pi ptr k) u64_max) as [Hfree | Hused].
    + set (cur' := if cur =? u64_max then ptr else cur).
      assert (Hcur : 0 <= cur' < stop /\ cur' = ptr - 4096 * count /\ 0 <= count < needed /\
                forall j, 0 <= j < count + 1 -> paging.get_phys pi (cur' + 4096 * j) k = u64_max).
      { unfold cur'. destruct Hc as [[-> ->] | (Hc1 & Hc2 & Hc3 & Hc4)].
        - simpl. split_and!; try lia. intros j Hj. by replace (ptr + 4096 * j) with ptr by lia.
        - rewrite (proj2 (Z.eqb_neq cur u64_max)) by (unfold u64_max in *; lia). split_and!; try lia.
          intros j Hj. destruct (decide (j = count)) as [-> | Hne]; [| apply Hc4; lia].
          by replace (cur + 4096 * count) with ptr by lia. }
      destruct Hcur as (H1 & H2 & H3 & H4). rewrite (u64_small (count + 1)) by (unfold is_u64; lia).
      destruct (Z.eqb_spec (count + 1) needed) as [He | He].
      * exists cur'. split; [done |]. right. split_and!; [lia | lia | rewrite H2; wrap_lia |].
        intros j Hj _. apply H4. lia.
      * rewrite Hmove. edestruct (IH (ptr + 4096) cur' (count + 1)) as (r & Hr & Hres); try lia.
        { right. split_and!; try lia. done. }
        exists r. split; [done |]. destruct Hres as [-> | (R1 & R2 & R3)]; [by left | right; auto].
    + rewrite Hmove. edestruct (IH (ptr + 4096) u64_max 0) as (r & Hr & Hres); try lia.
      exists r. split; [done |]. destruct Hres as [-> | (R1 & R2 & R3)]; [by left | right; auto].
  - exists cur. split; [done |]. destruct Hc as [[-> _] | (Hc1 & Hc2 & Hc3 & Hc4)]; [by left | right].
    split_and!; [lia | lia | wrap_lia |]. intros j Hj Hj2. apply Hc4. lia.
Qed.

(** ** Lemmas: freeing the tables *)

(** The frames of the tables that the first [n] entries of the table at [t] lead
    to, with the frames [sub] gives for each of them. *)
Definition children (m : memory) (t : Z) (n : nat) (sub : Z -> list Z) : list Z :=
  seqZ 0 (Z.of_nat n) ≫= (fun i =>
    let e := m (t + 8 * i) in
    if present e && negb (Z.testbit e 7) then get_frame e :: sub (get_frame e) else []).

(** All table frames below a table of level [n]. *)
Fixpoint sub_tables (n : nat) (m : memory) (t : Z) : list Z :=
  match n with
  | Datatypes.S (Datatypes.S _ as n') => children m t 512 (sub_tables n' m)
  | _ => []
  end.

(** The frames that [deinit] frees: the tables of the lower half and the root. *)
Definition lower_tables (m : memory) (root : Z) : list Z := root :: children m root 256 (sub_tables 3 m).

(** The effect of a loop that frees the frames [L] and does not touch memory. *)
Definition adds (L : list Z) k k' : Prop :=
  paging.mem k' = paging.mem k /\
  (fa_wf (paging.frames k) -> fa_wf (paging.frames k') /\
     fa_pages (paging.frames k') ≡ₚ L ++ fa_pages (paging.frames k)).

Lemma adds_nil k : adds [] k k.
Proof. by split. Qed.

Lemma adds_trans L1 L2 k1 k2 k3 : adds L1 k1 k2 -> adds L2 k2 k3 -> adds (L1 ++ L2) k1 k3.
Proof.
  intros [M1 P1] [M2 P2]. split; [congruence |]. intros W. destruct (P1 W) as [W2 E1].
  destruct (P2 W2) as [W3 E2]. split; [done |]. rewrite E2, E1. by rewrite !(assoc_L (++)), (comm (++) L2).
Qed.

Lemma free_frame_adds f k k' : frame_ok f -> paging.free_frame f k = Ret k' -> adds [f] k k'.
Proof.
  intros [Hf _] H. unfold paging.free_frame in H. inv_res. split; [done |]. intros W.
  apply fa_free_law in E; [done | done | unfold frame_addr, block_size; lia].
Qed.

Lemma for_loop_adds n i body F m k k' :
  (forall j k k', i <= j < i + Z.of_nat n -> paging.mem k = m -> body j k = Ret k' -> adds (F j) k k') ->
  paging.mem k = m -> for_loop n i body k = Ret k' -> adds (seqZ i (Z.of_nat n) ≫= F) k k'.
Proof.
  revert i k. induction n as [| n IH]; intros i k Hb Hm H; cbn [for_loop] in H.
  - inv_res. apply adds_nil.
  - apply bind_Ret in H as (k1 & H1 & H2). assert (A1 : adds (F i) k k1) by (apply Hb; [lia | done..]).
    rewrite (seqZ_cons i (Z.of_nat (Datatypes.S n))) by lia. cbn [mbind list_bind].
    eapply adds_trans; [done |]. replace (Z.pred (Z.of_nat (Datatypes.S n))) with (Z.of_nat n) by lia.
    apply IH; [intros; apply Hb; [lia | done..] | | done]. destruct A1 as [-> _]. done.
Qed.

(** The three freeing loops have one shape. *)
Lemma free_children n t k k' clean sub :
  frame_ok t -> (n <= 512)%nat -> (forall a, is_u64 (paging.mem k a)) ->
  (forall f k1 k2, frame_ok f -> paging.mem k1 = paging.mem k -> clean (to_virt f) k1 = Ret k2 ->
     adds (sub f) k1 k2) ->
  for_loop n 0 (fun i k =>
    let e := paging.load k (to_virt t) i in
    if test_bit e page_entry_present && negb (test_bit e page_entry_huge)
    then k ← clean (to_virt (Z.land e frame_mask)) k; paging.free_frame (Z.land e frame_mask) k
    else mret k) k = Ret k' ->
  adds (children (paging.mem k) t n sub) k k'.
Proof.
  intros Ht Hn Hw Hc H. unfold children.
  eapply (for_loop_adds n 0 _ _ (paging.mem k)); [| done | exact H].
  intros j k1 k2 Hj Hm Hb. cbv beta zeta in Hb. rewrite load_word in Hb by (done || lia).
  rewrite Hm in Hb. set (e := paging.mem k (t + 8 * j)) in *.
  rewrite test_present, test_bit_testbit in Hb by (apply Hw || (unfold page_entry_huge; lia)).
  change page_entry_huge with 7 in Hb. destruct (present e && negb (Z.testbit e 7)).
  - apply bind_Ret in Hb as (k3 & H1 & H2).
    assert (Hf : frame_ok (get_frame e)) by (apply get_frame_ok, Hw).
    apply Hc in H1; [| done | done]. apply free_frame_adds in H2; [| done].
    destruct (adds_trans _ _ _ _ _ H1 H2) as [M P]. split; [done |].
    intros W. destruct (P W) as [W' P']. split; [done |]. rewrite P'.
    by rewrite (comm (++) (sub _)).
  - inv_res. apply adds_nil.
Qed.

Lemma clean_pd_adds f k k' :
  frame_ok f -> (forall a, is_u64 (paging.mem k a)) -> paging.clean_pd (to_virt f) k = Ret k' ->
  adds (sub_tables 2 (paging.mem k) f) k k'.
Proof.
  intros Hf Hw H. apply (free_children 512 f k k' (fun _ k => Ret k)); [done | lia | done | | exact H].
  intros ? ? ? _ _ [= ->]. apply adds_nil.
Qed.

Lemma clean_pdpt_adds f k k' :
  frame_ok f -> (forall a, is_u64 (paging.mem k a)) -> paging.clean_pdpt (to_virt f) k = Ret k' ->
  adds (sub_tables 3 (paging.mem k) f) k k'.
Proof.
  intros Hf Hw H. apply (free_children 512 f k k' paging.clean_pd); [done | lia | done | | exact H].
  intros g k1 k2 Hg Hm Hc. change (adds (sub_tables 2 (paging.mem k) g) k1 k2).
  rewrite <- Hm. apply clean_pd_adds; [done | by rewrite Hm | done].
Qed.

Lemma to_virt_nonzero f : frame_ok f -> f < 2 ^ 47 -> (to_virt f =? 0) = false.
Proof.
  intros [Hf _] Hlow. apply Z.eqb_neq. unfold to_virt, KERNEL_PHYSICAL_VIRTUAL_MAPPING_BASE. wrap_lia.
Qed.

Lemma deinit_adds root k k' :
  frame_ok root -> root < 2 ^ 47 -> (forall a, is_u64 (paging.mem k a)) -> paging.deinit (to_virt root) k = Ret k' ->
  adds (lower_tables (paging.mem k) root) k k'.
Proof.
  intros Hr Hlow Hw H. unfold paging.deinit in H. rewrite to_virt_nonzero in H by done.
  apply bind_Ret in H as (k1 & H1 & H2). rewrite direct_map_frame in H2 by done.
  apply (free_children 256 root k k1 paging.clean_pdpt (sub_tables 3 (paging.mem k))) in H1;
    [| done | lia | done |].
  - apply free_frame_adds in H2; [| done]. destruct (adds_trans _ _ _ _ _ H1 H2) as [M P]. split; [done |].
    intros W. destruct (P W) as [W' P']. split; [done |]. rewrite P'. unfold lower_tables.
    by rewrite (comm (++) (children _ _ _ _)).
  - intros g k2 k3 Hg Hm Hc. rewrite <- Hm. apply clean_pdpt_adds; [done | by rewrite Hm | done].
Qed.

(** In a typed tree of tables every frame occurs once: the level and the prefix
    of a frame say where it is. *)
Definition below own (n : nat) (p x : Z) : Prop :=
  exists l q, own !! x = Some (l, q) /\ (1 <= l <= n)%nat /\ q / 512 ^ Z.of_nat (n - l) = p.

Lemma below_up own n p i x : 0 <= i < 512 -> below own n (p * 512 + i) x -> below own (Datatypes.S n) p x.
Proof.
  intros Hi (l & q & H & Hl & Hq). exists l, q. split_and!; [done | lia | lia |].
  replace (Z.of_nat (Datatypes.S n - l)) with (Z.of_nat (n - l) + 1) by lia.
  rewrite Z.pow_add_r, Z.pow_1_r, <- Z.div_div, Hq by lia. wrap_lia.
Qed.

Lemma below_inj own n p i j x : below own n (p * 512 + i) x -> below own n (p * 512 + j) x -> i = j.
Proof. intros (l & q & H1 & _ & H2) (l' & q' & H1' & _ & H2'). simplify_eq. lia. Qed.

Lemma children_nodup own m free t n p N sub :
  tables_ok own m free -> own !! t = Some (Datatypes.S n, p) -> (1 <= n)%nat -> (N <= 512)%nat ->
  (forall f i, own !! f = Some (n, p * 512 + i) ->
     NoDup (sub f) /\ (forall x, x ∈ sub f -> below own n (p * 512 + i) x) /\ f ∉ sub f) ->
  NoDup (children m t N sub) /\
  forall x, x ∈ children m t N sub -> exists i, 0 <= i < 512 /\ below own n (p * 512 + i) x.
Proof.
  intros OK Ht Hn HN Hsub. destruct n as [| n]; [lia |].
  assert (Hin : forall i x, 0 <= i < 512 -> present (m (t + 8 * i)) = true ->
            x ∈ get_frame (m (t + 8 * i)) :: sub (get_frame (m (t + 8 * i))) ->
            below own (Datatypes.S n) (p * 512 + i) x).
  { intros i x Hi Hp Hx. pose proof (t_child _ _ _ OK _ _ _ _ Ht Hi Hp) as Hc.
    apply elem_of_cons in Hx as [-> | Hx]; [| by apply (Hsub _ i Hc)].
    exists (Datatypes.S n), (p * 512 + i). split_and!; [done | lia | lia |].
    by rewrite Nat.sub_diag, Z.div_1_r. }
  unfold children. split.
  - apply NoDup_bind; [| | apply NoDup_seqZ].
    + intros i j x Hi%elem_of_seqZ Hj%elem_of_seqZ Hx Hy.
      destruct (present (m (t + 8 * i))) eqn:Pi; [| by apply elem_of_nil in Hx].
      destruct (present (m (t + 8 * j))) eqn:Pj; [| by apply elem_of_nil in Hy]. cbn [andb] in *.
      destruct (negb (Z.testbit (m (t + 8 * i)) 7)); [| by apply elem_of_nil in Hx].
      destruct (negb (Z.testbit (m (t + 8 * j)) 7)); [| by apply elem_of_nil in Hy].
      eapply below_inj; eapply Hin; eauto; lia.
    + intros i Hi%elem_of_seqZ. cbv zeta. destruct (_ && _) eqn:P; [| constructor].
      apply andb_true_iff in P as [P _]. assert (Hi' : 0 <= i < 512) by lia.
      destruct (Hsub _ i (t_child _ _ _ OK _ _ _ _ Ht Hi' P)) as (N1 & _ & N2). by constructor.
  - intros x (i & Hx & Hi%elem_of_seqZ)%list_elem_of_bind. exists i. split; [lia |].
    cbv zeta in Hx. destruct (_ && _) eqn:P; [| by apply elem_of_nil in Hx].
    apply andb_true_iff in P as [P _]. apply Hin; [lia | done | done].
Qed.

Lemma sub_tables_nodup own m free n t p :
  tables_ok own m free -> own !! t = Some (n, p) ->
  NoDup (sub_tables n m t) /\ (forall x, x ∈ sub_tables n m t -> below own n p x) /\ t ∉ sub_tables n m t.
Proof.
  intros OK. revert t p. induction n as [| [| n] IH]; intros t p Ht; [by split_and!; [constructor | set_solver..] .. |].
  destruct (children_nodup own m free t (Datatypes.S n) p 512 (sub_tables (Datatypes.S n) m)) as [N1 N2];
    [done | done | lia | lia | intros; by apply IH |].
  split_and!; [exact N1 | |].
  - intros x Hx. destruct (N2 x Hx) as (i & Hi & Hb). by eapply below_up.
  - intros Hx. destruct (N2 t Hx) as (i & Hi & l & q & H & Hl & _). rewrite Ht in H. injection H as <- _. lia.
Qed.

Lemma lower_tables_nodup own root k : space_ok own root k -> NoDup (lower_tables (paging.mem k) root).
Proof.
  intros OK. pose proof (s_tables _ _ _ OK) as T.
  destruct (children_nodup own (paging.mem k) (fa_pages (paging.frames k)) root 3 0 256 (sub_tables 3 (paging.mem k))) as [N1 N2];
    [done | apply OK | lia | lia | intros; by eapply sub_tables_nodup |].
  constructor; [| done]. intros Hx. destruct (N2 root Hx) as (i & Hi & l & q & H & Hl & _).
  rewrite (s_root _ _ _ OK) in H. injection H as <- _. lia.
Qed.
End spaces.

(** ** Theorems *)

(** A machine for the witnesses: the allocator of Pmm.v with twelve free frames,
    zeroed memory and an empty top-level table at [0x300000]. *)
Definition paging_example : paging.kernel pmm.state :=
  paging.mk (pmm.mk ([pmm.mk_entry 0x100000 12] ++ replicate 6 (pmm.mk_entry 0 0)) 1) (fun _ => 0).
Definition root_example : Z := 0x300000.
Definition own_example : gmap Z (nat * Z) := {[ root_example := (4%nat, 0) ]}.

#[export] Instance frame_ok_dec f : Decision (frame_ok f).
Proof. unfold frame_ok. apply _. Defined.

Lemma paging_example_ok : space_ok own_example root_example paging_example.
Proof.
  constructor; [constructor | ..].
  - unfold own_example. intros f n p [<- _]%lookup_singleton_Some. by_compute.
  - done.
  - intros a. apply is_u64_0.
  - done.
  - change (pmm.wf (paging.frames paging_example)). by_compute.
  - by_compute.
  - by_compute.
Qed.

(** C2: [map_page] refines the update of the translation.  When it returns, the
    page of [virt] translates to the entry made of [phys], the flags and the
    cache type (or is unmapped when the present flag is missing), every other
    page of this and of every other address space translates as before, the
    tables stay well-typed, and no frame in use as a table is free; with three
    free frames it does return. *)
Theorem map_page_refines {S} `{FA : FrameAllocatorLaws S} (own : gmap Z (nat * Z)) (root : Z)
    (k : paging.kernel S) (phys virt flags : Z) (cache : map_page_cache_types) :
  space_ok own root k ->
  ((3 <= length (fa_pages (paging.frames k)))%nat ->
     exists k', paging.map_page (to_virt root) phys virt flags cache k = Ret k') /\
  (forall k', paging.map_page (to_virt root) phys virt flags cache k = Ret k' ->
   exists own', own ⊆ own' /\ space_ok own' root k' /\
    (forall r v, own !! r = Some (4%nat, 0) -> vpn v <> vpn virt ->
       translate (paging.mem k') r v = translate (paging.mem k) r v) /\
    (forall v, vpn v = vpn virt ->
       translate (paging.mem k') root v =
         if Z.testbit flags 0 then Some (make_pte phys flags cache) else None)).
Proof.
  intros OK. split; [by eapply map_page_success |]. intros k' H.
  destruct (map_page_ok _ _ _ _ _ _ _ _ OK H) as (own' & ? & ? & ? & ? & _). eauto.
Qed.

Lemma map_page_refines_witness :
  ((3 <= length (fa_pages (paging.frames paging_example)))%nat ->
     exists k', paging.map_page (to_virt root_example) 0x5000 0x400000 7 normal paging_example = Ret k') /\
  (forall k', paging.map_page (to_virt root_example) 0x5000 0x400000 7 normal paging_example = Ret k' ->
   exists own', own_example ⊆ own' /\ space_ok own' root_example k' /\
    (forall r v, own_example !! r = Some (4%nat, 0) -> vpn v <> vpn 0x400000 ->
       translate (paging.mem k') r v = translate (paging.mem paging_example) r v) /\
    (forall v, vpn v = vpn 0x400000 ->
       translate (paging.mem k') root_example v =
         if Z.testbit 7 0 then Some (make_pte 0x5000 7 normal) else None)).
Proof. apply map_page_refines. apply paging_example_ok. Defined.

(** The page tables read back what was mapped: after [map_page] with the
    present flag, [get_phys] of every address of the page is the frame, the
    entry returned by [get_entry] has exactly the permissions asked for, and
    [get_phys] of an unmapped page is the error value -1. *)
Theorem get_phys_map_page {S} `{FA : FrameAllocatorLaws S} (own : gmap Z (nat * Z)) (root : Z)
    (k k' : paging.kernel S) (phys virt flags : Z) (cache : map_page_cache_types) (v : Z) :
  space_ok own root k -> frame_ok phys -> Z.testbit flags 0 = true -> vpn v = vpn virt ->
  paging.map_page (to_virt root) phys virt flags cache k = Ret k' ->
  paging.get_phys (to_virt root) v k' = phys /\
  let e := paging.get_entry (to_virt root) v k' in
  Z.testbit e page_entry_writeable = Z.testbit flags 1 /\ Z.testbit e page_entry_user = Z.testbit flags 2 /\
  Z.testbit e page_entry_no_execute = Z.testbit flags 3 /\ Z.testbit e page_entry_global = Z.testbit flags 4.
Proof.
  intros OK Hp Hf Hv H. apply (map_page_ok own) in H as (own' & _ & OK' & _ & Ht & _); [| done].
  specialize (Ht v Hv). rewrite Hf in Ht. rewrite (get_phys_translate own') by done. rewrite Ht.
  rewrite make_pte_frame, get_frame_id by done. split; [done |]. cbv zeta.
  pose proof (find_entry_translate own' root k' v OK') as He. unfold paging.get_entry.
  destruct (paging.find_entry _ _ _) as [[pt e] |]; [| congruence].
  destruct He as [He _]. assert (e = make_pte phys flags cache) as -> by congruence.
  unfold page_entry_writeable, page_entry_user, page_entry_no_execute, page_entry_global.
  rewrite !testbit_make_pte, !testbit_entry_flags, !testbit_flags_mask, !pat_flags_bits by lia. simpl.
  by rewrite !andb_false_r, !andb_true_r, !orb_false_r.
Qed.

Lemma get_phys_map_page_witness :
  exists k', paging.map_page (to_virt root_example) 0x5000 0x400000 5 normal paging_example = Ret k' /\
  paging.get_phys (to_virt root_example) 0x400123 k' = 0x5000 /\
  let e := paging.get_entry (to_virt root_example) 0x400123 k' in
  Z.testbit e page_entry_writeable = Z.testbit 5 1 /\ Z.testbit e page_entry_user = Z.testbit 5 2 /\
  Z.testbit e page_entry_no_execute = Z.testbit 5 3 /\ Z.testbit e page_entry_global = Z.testbit 5 4.
Proof.
  destruct (map_page_success own_example root_example paging_example 0x5000 0x400000 5 normal) as [k' E];
    [apply paging_example_ok | by_compute |].
  exists k'. split; [exact E |].
  apply (get_phys_map_page own_example root_example paging_example k' 0x5000 0x400000 5 normal 0x400123);
    [apply paging_example_ok | by_compute | reflexivity | reflexivity | exact E].
Defined.

(** [set_page_protection] changes the entry of a mapped page only (and
    reports whether there was one), keeps its frame, and only ever adds
    permission bits: a page that was writable stays writable whatever flags are
    asked for. *)
Theorem set_page_protection_adds {S} `{FA : FrameAllocatorLaws S} (own : gmap Z (nat * Z)) (root : Z)
    (k : paging.kernel S) (virt flags : Z) (cache : map_page_cache_types) :
  space_ok own root k ->
  let '(r, k') := paging.set_page_protection (to_virt root) virt flags cache k in
  r = bool_decide (is_Some (translate (paging.mem k) root virt)) /\ space_ok own root k' /\
  (forall v, vpn v <> vpn virt -> translate (paging.mem k') root v = translate (paging.mem k) root v) /\
  (forall v e, vpn v = vpn virt -> translate (paging.mem k) root v = Some e ->
     exists e', translate (paging.mem k') root v = Some e' /\ get_frame e' = get_frame e /\
       (forall i, 0 <= i -> Z.testbit e i = true -> Z.testbit e' i = true)).
Proof.
  intros OK. pose proof (set_page_protection_ok own root k virt flags cache OK) as H.
  destruct (paging.set_page_protection _ _ _ _ _) as [r k']. destruct H as (Hr & OK' & H).
  split_and!; [done | done | |].
  - intros v Hv. rewrite H. by destruct (decide _).
  - intros v e Hv He. rewrite H, He. destruct (decide _); [| done]. eexists. split_and!; [done | |].
    + apply protected_entry_frame. eapply walk_word, He. apply OK.
    + intros i Hi Hb. rewrite testbit_protected_entry, Hb; [done | | done].
      eapply walk_word, He. apply OK.
Qed.

Lemma set_page_protection_adds_witness :
  exists k1, paging.map_page (to_virt root_example) 0x5000 0x400000 7 normal paging_example = Ret k1 /\
  (exists own, let '(r, k') := paging.set_page_protection (to_virt root_example) 0x400000 5 normal k1 in
  r = bool_decide (is_Some (translate (paging.mem k1) root_example 0x400000)) /\ space_ok own root_example k' /\
  (forall v, vpn v <> vpn 0x400000 ->
     translate (paging.mem k') root_example v = translate (paging.mem k1) root_example v) /\
  (forall v e, vpn v = vpn 0x400000 -> translate (paging.mem k1) root_example v = Some e ->
     exists e', translate (paging.mem k') root_example v = Some e' /\ get_frame e' = get_frame e /\
       (forall i, 0 <= i -> Z.testbit e i = true -> Z.testbit e' i = true))).
Proof.
  destruct (map_page_success own_example root_example paging_example 0x5000 0x400000 7 normal) as [k1 E];
    [apply paging_example_ok | by_compute |].
  exists k1. split; [exact E |].
  destruct (map_page_ok own_example _ _ _ _ _ _ _ paging_example_ok E) as (own & _ & OK & _).
  exists own. apply (set_page_protection_adds own root_example k1 0x400000 5 normal). exact OK.
Defined.

(** C22: [get_free_range] terminates and only returns unmapped memory: the result
    is -1 or a page of the search range, a whole number of pages above its
    start, such that every page of the requested size that lies in the range is
    unmapped.  (The part of the request beyond the end of the range is not
    looked at, see [get_free_range_short].) *)
Theorem get_free_range_unmapped {S} `{FA : FrameAllocatorLaws S} (own : gmap Z (nat * Z)) (root : Z)
    (k : paging.kernel S) (base stop size : Z) (fuel : nat) :
  space_ok own root k -> 0 <= base <= stop -> stop + 4096 < u64_max ->
  1 <= div_ceil size block_size < 2 ^ 64 -> stop + 4096 <= base + 4096 * Z.of_nat fuel ->
  exists r, paging.get_free_range fuel (to_virt root) base stop size k = Ret r /\
    (r = u64_max \/
     0 <= r < stop /\ (r - base) mod 4096 = 0 /\
     forall j, 0 <= j < div_ceil size block_size -> r + 4096 * j < stop ->
       translate (paging.mem k) root (r + 4096 * j) = None).
Proof.
  intros OK Hb Hs Hn Hf.
  destruct (free_range_loop_ok fuel (to_virt root) base stop (div_ceil size block_size) k u64_max 0)
    as (r & Hr & Hres); [lia | done | done | done | by left |].
  exists r. split; [exact Hr |]. destruct Hres as [-> | (R1 & R2 & R3)]; [by left | right].
  split_and!; [lia | lia | done |]. intros j Hj Hlt. specialize (R3 j Hj Hlt).
  rewrite (get_phys_translate own) in R3 by done.
  destruct (translate _ _ _) as [e |] eqn:E; [| done]. exfalso.
  assert (He : is_u64 e) by (eapply walk_word, E; apply OK).
  destruct (get_frame_ok e) as [? _]; [apply He |]. unfold u64_max in R3. lia.
Qed.

Lemma get_free_range_unmapped_witness :
  exists r, paging.get_free_range 4 (to_virt root_example) 0x1000 0x4000 0x1800 paging_example = Ret r /\
    (r = u64_max \/
     0 <= r < 0x4000 /\ (r - 0x1000) mod 4096 = 0 /\
     forall j, 0 <= j < div_ceil 0x1800 block_size -> r + 4096 * j < 0x4000 ->
       translate (paging.mem paging_example) root_example (r + 4096 * j) = None).
Proof.
  apply (get_free_range_unmapped own_example); [apply paging_example_ok | by_compute ..].
Defined.

(** A search that reaches the end of its range returns the start of the last
    free run even when the run is too short, here two pages for a request of
    four. *)
Lemma get_free_range_short :
  paging.get_free_range 4 (to_virt root_example) 0x1000 0x3000 0x4000 paging_example = Ret 0x1000.
Proof. vm_compute. reflexivity. Qed.

(** C20: [deinit] gives back exactly the frames of the lower-half tables and of
    the top-level table, each one once, and does not touch memory. *)
Theorem deinit_frees_tables {S} `{FA : FrameAllocatorLaws S} (own : gmap Z (nat * Z)) (root : Z)
    (k k' : paging.kernel S) :
  space_ok own root k -> root < 2 ^ 47 -> paging.deinit (to_virt root) k = Ret k' ->
  NoDup (lower_tables (paging.mem k) root) /\ paging.mem k' = paging.mem k /\ fa_wf (paging.frames k') /\
  fa_pages (paging.frames k') ≡ₚ lower_tables (paging.mem k) root ++ fa_pages (paging.frames k).
Proof.
  intros OK Hlow H. assert (Hr : frame_ok root) by eapply (t_frame _ _ _ (s_tables _ _ _ OK)), OK.
  apply deinit_adds in H as [Hm Ha]; [| done | done | apply OK].
  destruct (Ha (s_wf _ _ _ OK)). split_and!; [by eapply lower_tables_nodup | done..].
Qed.

Lemma deinit_frees_tables_witness :
  exists k', paging.deinit (to_virt root_example) paging_example = Ret k' /\
  NoDup (lower_tables (paging.mem paging_example) root_example) /\
  paging.mem k' = paging.mem paging_example /\ fa_wf (paging.frames k') /\
  fa_pages (paging.frames k') ≡ₚ
    lower_tables (paging.mem paging_example) root_example ++ fa_pages (paging.frames paging_example).
Proof.
  eexists. split; [vm_compute; reflexivity |].
  apply (deinit_frees_tables own_example); [apply paging_example_ok | by_compute | vm_compute; reflexivity].
Defined.

(** [deinit] leaves [paging_info] set, so [init] after [deinit] (the first
    two lines of [clone_paging_info]) frees the tables a second time: here the
    new top-level table is a frame that the allocator still lists as free. *)
Theorem init_after_deinit_double_free :
  space_ok own_example root_example paging_example /\
  exists k1 paging_info k2,
    paging.deinit (to_virt root_example) paging_example = Ret k1 /\
    paging.init (to_virt root_example) k1 = Ret (paging_info, k2) /\
    to_phys paging_info ∈ pmm.free_pages (paging.frames k2).
Proof.
  split; [apply paging_example_ok |].
  assert (H : match paging.deinit (to_virt root_example) paging_example with
              | Ret k1 => match paging.init (to_virt root_example) k1 with
                          | Ret (p, k2) => bool_decide (to_phys p ∈ pmm.free_pages (paging.frames k2))
                          | _ => false
                          end
              | _ => false
              end = true) by (vm_compute; reflexivity).
  destruct (paging.deinit _ _) as [k1 | | |]; try done. exists k1.
  destruct (paging.init _ _) as [[p k2] | | |]; try done. exists p, k2.
  split_and!; [done | done | by apply bool_decide_eq_true in H].
Qed.
