(* ===== verification/Pcid.v ===== *)
(** * Pcid: switching address spaces

    Models the PCID part of source/arch/x86_64/paging.cpp ([set_current_info],
    [pcid_context]) and [pcid_cpu_context] of paging.h.  Each CPU caches eight
    address spaces, one per process-context identifier; a switch reuses the
    identifier of the address space or takes the one used longest ago.  A
    [paging::context*] is its address, null is 0; [paging_info] gives the
    [paging_info] member of the context at an address. *)

From S2P Require Import Prelude Bits Frames Pmm Paging.

Definition n_pcids : nat := 8.

Module pcid.
Record pcid_context := mk_ctx { id : Z; context : Z; timestamp : Z }.

(** The [pcid_context] member of a CPU, its [features.pcid] and its CR3. *)
Record cpu := mk {
  contexts : list pcid_context; active_context : Z; next_timestamp : Z;
  feature : bool; cr3 : Z }.

(** [pcid_cpu_context()]; the per-CPU data is zero-initialised. *)
Definition boot (feature : bool) : cpu :=
  mk ((fun i => mk_ctx i 0 0) <$> seqZ 0 (Z.of_nat n_pcids)) 0 0 feature 0.

Section switch.
Context (paging_info : Z -> Z).

Definition is_active (c : cpu) (p : pcid_context) : bool := id p =? active_context c.

(** [set_context()] when [keep] is true, [set_context(context)] otherwise, of
    [contexts[i]]. *)
Definition load_context (keep : bool) (i : nat) (ctx : Z) (c : cpu) : res cpu :=
  p ← access (contexts c !! i);
  let table_phys := to_phys (paging_info ctx) in
  let cr3 := Z.lor table_phys (id p) in
  let cr3 := if keep && feature c then set_bit cr3 63 else cr3 in
  mret (mk (<[i := mk_ctx (id p) ctx (next_timestamp c)]> (contexts c)) (id p)
           (u64 (next_timestamp c + 1)) (feature c) cr3).

Definition set_context (i : nat) (c : cpu) : res cpu :=
  p ← access (contexts c !! i); load_context true i (context p) c.
Definition set_context_to (i : nat) (ctx : Z) (c : cpu) : res cpu := load_context false i ctx c.

(** The search loop of [set_current_info]: [inl i] when [contexts[i]] holds
    [info], [inr pcid] with the identifier to take otherwise. *)
Fixpoint search (l : list pcid_context) (i : nat) (info : Z) (c : cpu) (pcid : nat) : res (nat + nat) :=
  match l with
  | [] => mret (inr pcid)
  | p :: l =>
      if negb (context p =? 0) && (context p =? info) then mret (inl i)
      else
        q ← access (contexts c !! pcid);
        search l (S i) info c (if timestamp p <? timestamp q then i else pcid)
  end.

Definition set_current_info (info : Z) (c : cpu) : res cpu :=
  if feature c then
    r ← search (contexts c) 0 info c 0;
    match r with
    | inl i =>
        p ← access (contexts c !! i);
        if is_active c p then mret c else set_context i c
    | inr i => set_context_to i info c
    end
  else set_context_to 0 info c.

(** ** Invariant *)

(** Identifiers are the indices, a cached context has a timestamp below the next
    one, no context is cached twice, and CR3 (apart from the no-flush bit) points
    to the table of the active identifier's context. *)
Record wf (c : cpu) : Prop := {
  w_len : length (contexts c) = n_pcids;
  w_ids : forall i p, contexts c !! i = Some p -> id p = Z.of_nat i;
  w_time : forall i p, contexts c !! i = Some p -> 0 <= timestamp p <= next_timestamp c;
  w_uniq : forall i j p q, contexts c !! i = Some p -> contexts c !! j = Some q ->
             context p <> 0 -> context p = context q -> i = j;
  w_active : 0 <= active_context c < Z.of_nat n_pcids;
  w_cr3 : forall p, contexts c !! Z.to_nat (active_context c) = Some p -> context p <> 0 ->
            Z.land (cr3 c) (not64 (bit64 63)) = Z.lor (to_phys (paging_info (context p))) (id p) }.
End switch.
End pcid.

(** ** Lemmas *)

Section pcid_lemmas.
Import pcid.
Context (paging_info : Z -> Z).

(** What a search without a hit finds: a slot with the least timestamp. *)
Lemma search_miss l i info c pcid r :
  (forall j p, l !! j = Some p -> contexts c !! (i + j)%nat = Some p) ->
  (exists q, contexts c !! pcid = Some q /\ forall j p, (j < i)%nat -> contexts c !! j = Some p ->
      timestamp q <= timestamp p /\ (context p <> info \/ context p = 0)) ->
  search l i info c pcid = Ret (inr r) ->
  exists q, contexts c !! r = Some q /\ forall j p, (j < i + length l)%nat -> contexts c !! j = Some p ->
      timestamp q <= timestamp p /\ (context p <> info \/ context p = 0).
Proof.
  revert i pcid. induction l as [| p l IH]; intros i pcid Hl Hq Hs; cbn [search] in Hs.
  - inv_res. rewrite Nat.add_0_r. done.
  - destruct (negb (context p =? 0) && (context p =? info)) eqn:E; [done |].
    destruct Hq as (q & Hq & Hmin). rewrite Hq in Hs. cbn [access mbind res_bind] in Hs.
    pose proof (Hl 0%nat p eq_refl) as Hp. rewrite Nat.add_0_r in Hp.
    assert (Hc : context p <> info \/ context p = 0) by lia.
    apply IH in Hs as (q' & Hq' & Hmin').
    + exists q'. split; [done |]. intros j p' Hj Hp'. apply (Hmin' j p'); [simpl in Hj; lia | done].
    + intros j p' Hj. replace (S i + j)%nat with (i + S j)%nat by lia. by apply Hl.
    + destruct (Z.ltb_spec (timestamp p) (timestamp q)).
      * exists p. split; [done |]. intros j p' Hj Hp'. destruct (decide (j = i)) as [-> |].
        { by rewrite Hp in Hp'; injection Hp' as <-. }
        destruct (Hmin j p') as [H1 H2]; [lia | done |]. split; [lia | done].
      * exists q. split; [done |]. intros j p' Hj Hp'. destruct (decide (j = i)) as [-> |].
        { by rewrite Hp in Hp'; injection Hp' as <-. }
        apply (Hmin j p'); [lia | done].
Qed.

Lemma search_hit l i info c pcid r :
  (forall j p, l !! j = Some p -> contexts c !! (i + j)%nat = Some p) ->
  search l i info c pcid = Ret (inl r) ->
  exists p, contexts c !! r = Some p /\ context p = info /\ info <> 0.
Proof.
  revert i pcid. induction l as [| p l IH]; intros i pcid Hl Hs; cbn [search] in Hs; [done |].
  destruct (negb (context p =? 0) && (context p =? info)) eqn:E.
  - inv_res. exists p. pose proof (Hl 0%nat p eq_refl) as Hp. rewrite Nat.add_0_r in Hp. split; [done | lia].
  - inv_res. eapply IH; [| done]. intros j p' Hj. replace (S i + j)%nat with (i + S j)%nat by lia. by apply Hl.
Qed.

Lemma search_total l i info c pcid :
  (forall j p, l !! j = Some p -> contexts c !! (i + j)%nat = Some p) ->
  is_Some (contexts c !! pcid) -> exists r, search l i info c pcid = Ret r.
Proof.
  revert i pcid. induction l as [| p l IH]; intros i pcid Hl [q Hq]; cbn [search]; [by eauto |].
  destruct (_ && _); [by eauto |]. rewrite Hq. cbn [access mbind res_bind].
  apply IH; [intros j p' Hj; replace (S i + j)%nat with (i + S j)%nat by lia; by apply Hl |].
  destruct (_ <? _); [| by eauto]. pose proof (Hl 0%nat p eq_refl) as Hp. rewrite Nat.add_0_r in Hp. eauto.
Qed.

Lemma cr3_low f i (b : bool) :
  frame_ok f -> 0 <= i < 8 ->
  Z.land (if b then set_bit (Z.lor f i) 63 else Z.lor f i) (not64 (bit64 63)) = Z.lor f i.
Proof.
  intros [Hf _] Hi.
  assert (Hu : is_u64 (Z.lor f i)) by (apply is_u64_lor; unfold is_u64; lia).
  apply Z.bits_inj'. intros j Hj. rewrite Z.land_spec, testbit_not64, testbit_bit64 by lia.
  assert (H63 : j = 63 -> Z.testbit (Z.lor f i) j = false).
  { intros ->. rewrite Z.lor_spec. apply orb_false_iff. split.
    - rewrite <- (Z.mod_small f (2 ^ 63)), Z.mod_pow2_bits_high by lia. done.
    - rewrite <- (Z.mod_small i (2 ^ 63)), Z.mod_pow2_bits_high by lia. done. }
  destruct b; [rewrite testbit_set_bit by (done || lia) |].
  all: destruct (Z.eqb_spec j 63) as [-> | Hne];
    [rewrite H63 by done; by rewrite ?andb_false_r |];
    destruct (Z.ltb_spec j 64); rewrite ?orb_false_r, ?andb_true_r; try done;
    by rewrite (testbit_high _ _ Hu) by lia.
Qed.

Hypothesis Hinfo : forall ctx, frame_ok (to_phys (paging_info ctx)).

(** Loading [ctx] into slot [i], when no other slot has it. *)
Lemma load_context_wf keep i ctx c :
  wf paging_info c -> (i < n_pcids)%nat -> next_timestamp c + 1 < 2 ^ 64 ->
  (forall j p, contexts c !! j = Some p -> context p = ctx -> ctx <> 0 -> j = i) ->
  exists c', load_context paging_info keep i ctx c = Ret c' /\ wf paging_info c' /\
    active_context c' = Z.of_nat i /\ feature c' = feature c /\ next_timestamp c' = next_timestamp c + 1 /\
    (exists p, contexts c' !! i = Some p /\ context p = ctx /\ timestamp p = next_timestamp c) /\
    (forall j, j <> i -> contexts c' !! j = contexts c !! j) /\
    Z.land (cr3 c') (not64 (bit64 63)) = Z.lor (to_phys (paging_info ctx)) (Z.of_nat i) /\
    (keep = false -> cr3 c' = Z.lor (to_phys (paging_info ctx)) (Z.of_nat i)).
Proof.
  intros W Hi Hn Hu. destruct (lookup_lt_is_Some_2 (contexts c) i) as [p Hp]; [by rewrite (w_len _ _ W) |].
  assert (Hid : id p = Z.of_nat i) by (by apply (w_ids _ _ W)).
  assert (Ht : 0 <= timestamp p <= next_timestamp c) by (by eapply (w_time _ _ W)).
  assert (H8 : 0 <= Z.of_nat i < 8) by (unfold n_pcids in Hi; lia).
  assert (Hts : u64 (next_timestamp c + 1) = next_timestamp c + 1) by (apply u64_small; unfold is_u64; lia).
  unfold load_context. rewrite Hp. cbn [access mbind res_bind]. rewrite Hid, Hts.
  assert (Hlk : forall j q, <[i := mk_ctx (Z.of_nat i) ctx (next_timestamp c)]> (contexts c) !! j = Some q ->
     (j = i /\ q = mk_ctx (Z.of_nat i) ctx (next_timestamp c)) \/ (j <> i /\ contexts c !! j = Some q)).
  { intros j q [(-> & <- & _) | [? ?]]%list_lookup_insert_Some; [by left | right; split; [congruence | done]]. }
  assert (Hii : <[i := mk_ctx (Z.of_nat i) ctx (next_timestamp c)]> (contexts c) !! i
                = Some (mk_ctx (Z.of_nat i) ctx (next_timestamp c))).
  { apply list_lookup_insert_eq. by eapply lookup_lt_Some. }
  eexists. split; [reflexivity |]. split_and!; cbn; try done.
  - constructor; cbn.
    + by rewrite length_insert, (w_len _ _ W).
    + intros j q [[-> ->] | [_ H]]%Hlk; [done | by apply (w_ids _ _ W)].
    + intros j q [[-> ->] | [_ H]]%Hlk; cbn; [lia |]. apply (w_time _ _ W) in H. lia.
    + intros j1 j2 q1 q2 [[-> ->] | [N1 H1]]%Hlk [[-> ->] | [N2 H2]]%Hlk H0 He; cbn in *; try done.
      * symmetry. eapply Hu; [exact H2 | by symmetry | done].
      * eapply Hu; [exact H1 | done | congruence].
      * eapply (w_uniq _ _ W); eauto.
    + unfold n_pcids. lia.
    + intros q. rewrite Nat2Z.id, Hii. intros [= <-] _. cbn. by apply cr3_low.
  - by exists (mk_ctx (Z.of_nat i) ctx (next_timestamp c)).
  - intros j Hj. by rewrite list_lookup_insert_ne by congruence.
  - by apply cr3_low.
  - by intros ->.
Qed.
End pcid_lemmas.

(** ** Theorems *)

(** Switching to the address space [info] on a CPU with PCIDs always
    succeeds, keeps the cache consistent, and leaves CR3 pointing to the
    top-level table of [info] under the active identifier.  If [info] was cached
    its identifier is kept; otherwise it gets, with its stale translations
    flushed, the identifier that was used longest ago, and the other cached
    address spaces stay. *)
Theorem set_current_info_switches (paging_info : Z -> Z) (info : Z) (c : pcid.cpu) :
  (forall ctx, frame_ok (to_phys (paging_info ctx))) ->
  pcid.wf paging_info c -> pcid.feature c = true -> info <> 0 -> pcid.next_timestamp c + 1 < 2 ^ 64 ->
  exists c' i p,
    pcid.set_current_info paging_info info c = Ret c' /\ pcid.wf paging_info c' /\
    pcid.active_context c' = Z.of_nat i /\ pcid.contexts c' !! i = Some p /\ pcid.context p = info /\
    Z.land (pcid.cr3 c') (not64 (bit64 63)) = Z.lor (to_phys (paging_info info)) (Z.of_nat i) /\
    (forall j, j <> i -> pcid.contexts c' !! j = pcid.contexts c !! j) /\
    ((exists q, pcid.contexts c !! i = Some q /\ pcid.context q = info) \/
     (exists q, pcid.contexts c !! i = Some q /\
        (forall j r, pcid.contexts c !! j = Some r -> pcid.timestamp q <= pcid.timestamp r) /\
        pcid.cr3 c' = Z.lor (to_phys (paging_info info)) (Z.of_nat i))).
Proof.
  intros Hpi W Hf Hinfo Hn. unfold pcid.set_current_info. rewrite Hf.
  assert (Hall : forall j p, pcid.contexts c !! j = Some p -> pcid.contexts c !! (0 + j)%nat = Some p) by done.
  assert (Hlen := pcid.w_len _ _ W). destruct (lookup_lt_is_Some_2 (pcid.contexts c) 0) as [p0 H0];
    [rewrite Hlen; unfold n_pcids; lia |].
  destruct (search_total (pcid.contexts c) 0 info c 0 Hall) as [[i | i] Hs]; [by eauto | |]; rewrite Hs; cbn.
  - apply search_hit in Hs as (p & Hp & Hc & _); [| done]. rewrite Hp. cbn.
    assert (Hid := pcid.w_ids _ _ W _ _ Hp). assert (Hi : (i < n_pcids)%nat).
    { rewrite <- Hlen. by eapply lookup_lt_Some. }
    destruct (pcid.is_active c p) eqn:Ea.
    + unfold pcid.is_active in Ea. exists c, i, p. split_and!; try done; [lia | | by left; eauto].
      rewrite (pcid.w_cr3 _ _ W p); [by rewrite Hc, Hid | | congruence].
      by replace (Z.to_nat (pcid.active_context c)) with i by lia.
    + unfold pcid.set_context. rewrite Hp. cbn. rewrite Hc.
      destruct (load_context_wf paging_info Hpi true i info c) as (c' & Hl & W' & Ha & _ & _ & (q & Hq & Hq2 & _) & Hj & Hcr & _);
        [done | done | done | |].
      { intros j r Hr Hrc _. eapply (pcid.w_uniq _ _ W); [done | done | congruence | congruence]. }
      rewrite Hl. exists c', i, q. split_and!; try done. left. eauto.
  - eapply search_miss in Hs as (q & Hq & Hmin); [| done | by exists p0; split; [done | intros; lia]].
    assert (Hi : (i < n_pcids)%nat) by (rewrite <- Hlen; by eapply lookup_lt_Some).
    assert (Hmin' : forall j r, pcid.contexts c !! j = Some r ->
        pcid.timestamp q <= pcid.timestamp r /\ (pcid.context r <> info \/ pcid.context r = 0)).
    { intros j r Hr. apply (Hmin j r); [apply lookup_lt_Some in Hr; lia | done]. }
    destruct (load_context_wf paging_info Hpi false i info c) as (c' & Hl & W' & Ha & _ & _ & (r & Hr & Hr2 & _) & Hj & Hcr & Hcr');
      [done | done | done | |].
    { intros j r Hr Hrc _. destruct (Hmin' j r Hr) as [_ [? | ?]]; congruence. }
    unfold pcid.set_context_to. rewrite Hl. exists c', i, r. split_and!; try done. right.
    exists q. split_and!; [done | | by apply Hcr']. intros j r' Hr'. by apply (Hmin' j r').
Qed.

(** A CPU for the witness: PCIDs enabled, nothing cached. *)
Lemma pcid_boot_wf paging_info : pcid.wf paging_info (pcid.boot true).
Proof.
  assert (H : forall i p, pcid.contexts (pcid.boot true) !! i = Some p ->
             pcid.id p = Z.of_nat i /\ pcid.context p = 0 /\ pcid.timestamp p = 0).
  { intros i p Hp. do 8 (destruct i as [| i]; [by injection Hp as <- |]). done. }
  constructor; [done | | | | done |].
  - intros i p Hp. by apply H.
  - intros i p Hp. destruct (H i p Hp) as (_ & _ & ->). done.
  - intros i j p q Hp _ Hn. by destruct (H i p Hp) as (_ & ? & _).
  - intros p Hp Hn. by destruct (H _ p Hp) as (_ & ? & _).
Qed.

Lemma set_current_info_switches_witness :
  exists c' i p,
    pcid.set_current_info (fun _ => to_virt 0x3000) 0x10 (pcid.boot true) = Ret c' /\
    pcid.wf (fun _ => to_virt 0x3000) c' /\
    pcid.active_context c' = Z.of_nat i /\ pcid.contexts c' !! i = Some p /\ pcid.context p = 0x10 /\
    Z.land (pcid.cr3 c') (not64 (bit64 63)) = Z.lor (to_phys (to_virt 0x3000)) (Z.of_nat i) /\
    (forall j, j <> i -> pcid.contexts c' !! j = pcid.contexts (pcid.boot true) !! j) /\
    ((exists q, pcid.contexts (pcid.boot true) !! i = Some q /\ pcid.context q = 0x10) \/
     (exists q, pcid.contexts (pcid.boot true) !! i = Some q /\
        (forall j r, pcid.contexts (pcid.boot true) !! j = Some r -> pcid.timestamp q <= pcid.timestamp r) /\
        pcid.cr3 c' = Z.lor (to_phys (to_virt 0x3000)) (Z.of_nat i))).
Proof.
  apply (set_current_info_switches (fun _ => to_virt 0x3000)).
  - intros _. by_compute.
  - apply pcid_boot_wf.
  - reflexivity.
  - discriminate.
  - reflexivity.
Defined.
