(* ===== verification/Initrd.v ===== *)
(** * Initrd: the initial ramdisk

    Models source/proc/initrd.cpp: the scan of the TAR archive the boot loader
    leaves in memory, and reading files from it.  The specification is an encoder
    of archives; the theorems say that the scan and the read functions invert
    it. *)

From S2P Require Import Prelude Klibc Containers.

Module initrd.

(** Offsets of [tar_header]: [filename] is first, [size] follows 100 + 3 * 8 bytes. *)
Definition filename_offset : Z := 0.
Definition size_offset : Z := 124.

(** A [char] is signed. *)
Definition schar (c : Z) : Z := if c <? 128 then c else c - 256.

(** The loop [for(j = 11; j > 0; j--, count *= 8)]. *)
Fixpoint number_loop (j : nat) (field size count : Z) (m : bmem) : Z :=
  match j with
  | O => size
  | S j =>
      number_loop j field (u64 (size + (schar (m (field + Z.of_nat j)) - 48) * count)) (u64 (count * 8)) m
  end.
Definition get_header_number (field : Z) (m : bmem) : Z := number_loop 11 field 0 1 m.

(** The loop of [init]. *)
Fixpoint init_loop (n : nat) (address : Z) (headers : vector.t Z) (m : bmem) : vector.t Z :=
  match n with
  | O => headers
  | S n =>
      if m (address + filename_offset) =? 0 then headers
      else
        let entry_size := get_header_number (address + size_offset) m in
        let headers := vector.push_back headers address in
        let address := u64 (address + u64 ((entry_size / 512 + 1) * 512)) in
        let address := if entry_size mod 512 =? 0 then address else u64 (address + 512) in
        init_loop n address headers m
  end.
Definition init (address size : Z) (m : bmem) : vector.t Z :=
  init_loop (Z.to_nat size) address (vector.create 0) m.

(** The loops over [*headers]: the first header with the name.  [fuel] bounds the
    comparison of two names. *)
Fixpoint find_header (fuel : nat) (l : list Z) (file_name : Z) (m : bmem) : res (option Z) :=
  match l with
  | [] => mret None
  | header :: l =>
      c ← string.strcmp fuel (header + filename_offset) file_name m;
      if c =? 0 then mret (Some header) else find_header fuel l file_name m
  end.

Definition get_size (fuel : nat) (file_name : Z) (headers : vector.t Z) (m : bmem) : res Z :=
  r ← find_header fuel (vector.contents headers) file_name m;
  match r with
  | Some header => mret (get_header_number (header + size_offset) m)
  | None => mret 0
  end.

(** The data address [read_file] copies from; [None] when it returns false. *)
Definition file_data (fuel : nat) (file_name offset size : Z) (headers : vector.t Z) (m : bmem) : res (option Z) :=
  total ← get_size fuel file_name headers m;
  if u64 (total + 1) <? u64 (size + offset) then mret None
  else
    r ← find_header fuel (vector.contents headers) file_name m;
    mret ((fun header => u64 (header + 512 + offset)) <$> r).

Definition read_file (fuel : nat) (file_name buf offset size : Z) (headers : vector.t Z) (m : bmem) : res (bool * bmem) :=
  r ← file_data fuel file_name offset size headers m;
  match r with
  | Some data => m ← string.memcpy buf data size m; mret (true, m)
  | None => mret (false, m)
  end.
End initrd.

(** ** Specification: an encoder of archives *)

(** A file, with the fields of its header that the code does not read: mode, owner
    and group in front of the size, and the end of the size, time, checksum, type
    and what else the writer of the archive puts there behind it. *)
Record file := mk_file { name : list Z; ids : list Z; rest : list Z; data : list Z }.

(** [k] octal digits of [n], highest first. *)
Fixpoint octal (k : nat) (n : Z) : list Z :=
  match k with O => [] | S k => octal k (n / 8) ++ [48 + n mod 8] end.

Definition pad (n : nat) (l : list Z) : list Z := l ++ replicate (n - length l) 0.

(** The number of bytes from one header to the next. *)
Definition stride (f : file) : nat := (512 + 512 * ((length (data f) + 511) / 512))%nat.

Definition encode_file (f : file) : list Z :=
  (pad 100 (name f) ++ ids f ++ octal 11 (Z.of_nat (length (data f))) ++ rest f) ++ pad (stride f - 512) (data f).

(** The files, then a header with an empty name. *)
Fixpoint encode (fs : list file) : list Z :=
  match fs with [] => [0] | f :: fs => encode_file f ++ encode fs end.

Definition file_ok (f : file) : Prop :=
  name f <> [] /\ Forall (fun c => c <> 0) (name f) /\ (length (name f) < 100)%nat /\
  Z.of_nat (length (data f)) < 8 ^ 11 /\ length (ids f) = 24%nat /\ length (rest f) = 377%nat.

#[export] Instance file_ok_dec f : Decision (file_ok f).
Proof. unfold file_ok. apply _. Defined.

(** The header addresses of an archive at [a]. *)
Fixpoint header_addresses (a : Z) (fs : list file) : list Z :=
  match fs with [] => [] | f :: fs => a :: header_addresses (a + Z.of_nat (stride f)) fs end.

(** The first file with a name, and the address of its header. *)
Fixpoint lookup_file (a : Z) (fs : list file) (s : list Z) : option (Z * file) :=
  match fs with
  | [] => None
  | f :: fs => if decide (name f = s) then Some (a, f) else lookup_file (a + Z.of_nat (stride f)) fs s
  end.

(** ** Lemmas *)

Section initrd_lemmas.
Implicit Types m : bmem.

Lemma length_octal k n : length (octal k n) = k.
Proof. revert n. induction k as [| k IH]; intros n; cbn; [done |]. rewrite length_app, IH. cbn. lia. Qed.

Lemma length_pad n l : (length l <= n)%nat -> length (pad n l) = n.
Proof. intros H. unfold pad. rewrite length_app, length_replicate. lia. Qed.

(** The loop reads the digits from the last one up. *)
Lemma number_loop_octal k m a n size count :
  bytes_at m a (octal k n) -> 0 <= n -> 0 <= size < count -> count * 8 ^ Z.of_nat k < 2 ^ 64 ->
  initrd.number_loop k a size count m = size + count * (n mod 8 ^ Z.of_nat k).
Proof.
  revert n size count. induction k as [| k IH]; intros n size count Hb Hn Hs Hc; cbn [initrd.number_loop octal] in *.
  - rewrite Z.mod_1_r. lia.
  - rewrite Nat2Z.inj_succ, Z.pow_succ_r in * by lia. assert (Hp := Z.pow_pos_nonneg 8 (Z.of_nat k)).
    apply bytes_at_app in Hb as [Hb Hd]. rewrite length_octal in Hd. apply bytes_at_cons in Hd as [-> _].
    assert (Hm := Z.mod_pos_bound n 8).
    assert (Hsc : initrd.schar (48 + n mod 8) = 48 + n mod 8) by (unfold initrd.schar; destruct (Z.ltb_spec (48 + n mod 8) 128); lia).
    rewrite Hsc. rewrite !u64_small by (unfold is_u64; nia).
    rewrite (IH (n / 8)); [| done | apply Z.div_pos; lia | nia | lia].
    rewrite Z.rem_mul_r by lia. nia.
Qed.

Lemma get_header_number_octal m a n :
  bytes_at m a (octal 11 n) -> 0 <= n < 8 ^ 11 -> initrd.get_header_number a m = n.
Proof.
  intros Hb Hn. unfold initrd.get_header_number. rewrite (number_loop_octal 11 m a n) by (done || lia).
  rewrite Z.mod_small by (cbn; lia). lia.
Qed.

Lemma length_header f : (length (name f) < 100)%nat -> length (ids f) = 24%nat -> length (rest f) = 377%nat ->
  length (pad 100 (name f) ++ ids f ++ octal 11 (Z.of_nat (length (data f))) ++ rest f) = 512%nat.
Proof. intros Hl Hi Hr. rewrite !length_app, length_pad, length_octal, Hi, Hr by lia. done. Qed.

(** What [m] holds at an encoded file. *)
Lemma bytes_at_file m a f :
  file_ok f -> bytes_at m a (encode_file f) ->
  cstr m a (name f) /\ initrd.get_header_number (a + initrd.size_offset) m = Z.of_nat (length (data f)) /\
  bytes_at m (a + 512) (data f).
Proof.
  intros (Hne & Hz & Hl & Hd & Hi & Hr) H. assert (Hlen := length_header f Hl Hi Hr). unfold encode_file in H. apply bytes_at_app in H as [Hh Hdat].
  assert (L1 : length (pad 100 (name f)) = 100%nat) by (apply length_pad; lia). rewrite Hlen in Hdat.
  apply bytes_at_app in Hh as [Hn Hh]. apply bytes_at_app in Hh as [_ Hh]. apply bytes_at_app in Hh as [Ho _].
  rewrite L1, Hi in Ho. unfold pad in Hdat. apply bytes_at_app in Hdat as [Hdat _]. split_and!; [| | done].
  - split; [| done]. unfold pad in Hn. apply bytes_at_app in Hn as [H1 H2]. apply bytes_at_app. split; [done |].
    replace (100 - length (name f))%nat with (S (99 - length (name f))) in H2 by lia. cbn [replicate] in H2.
    apply bytes_at_cons in H2 as [H2 _]. apply bytes_at_cons. split; [done | by intros []].
  - apply get_header_number_octal; [| lia]. by rewrite <- Z.add_assoc in Ho.
Qed.

Lemma stride_ge f : (512 + length (data f) <= stride f)%nat.
Proof. unfold stride. assert (H := Nat.div_mod (length (data f) + 511) 512). assert (H' := Nat.mod_upper_bound (length (data f) + 511) 512). lia. Qed.

Lemma length_encode_file f : file_ok f -> length (encode_file f) = stride f.
Proof.
  intros (_ & _ & Hl & _ & Hi & Hr). assert (Hs := stride_ge f). unfold encode_file.
  rewrite length_app, (length_header f Hl Hi Hr), length_pad by lia. lia.
Qed.

(** The step of the scan is the distance to the next header. *)
Lemma next_address a f :
  0 <= a -> a + Z.of_nat (stride f) < 2 ^ 64 ->
  let n := Z.of_nat (length (data f)) in
  let b := u64 (a + u64 ((n / 512 + 1) * 512)) in
  (if n mod 512 =? 0 then b else u64 (b + 512)) = a + Z.of_nat (stride f).
Proof.
  intros Ha Hb n b. unfold b, stride in *.
  assert (E : Z.of_nat (512 + 512 * ((length (data f) + 511) / 512)) = 512 + 512 * ((n + 511) / 512)).
  { unfold n. rewrite Nat2Z.inj_add, Nat2Z.inj_mul, Nat2Z.inj_div, Nat2Z.inj_add. done. }
  rewrite E in *. assert (0 <= n) by lia.
  destruct (Z.eqb_spec (n mod 512) 0) as [Hm | Hm]; wrap_lia.
Qed.

Lemma bytes_at_mono m a l l' : bytes_at m a (l ++ l') -> bytes_at m a l.
Proof. rewrite bytes_at_app. by intros [? _]. Qed.

(** An archive holds its files at the header addresses. *)
Lemma encode_cons m a f fs :
  file_ok f -> bytes_at m a (encode (f :: fs)) ->
  bytes_at m a (encode_file f) /\ bytes_at m (a + Z.of_nat (stride f)) (encode fs).
Proof. intros Hf H. cbn in H. apply bytes_at_app in H as [H1 H2]. by rewrite length_encode_file in H2. Qed.

Lemma initrd_init_loop_ok n m a fs v xs :
  vrep v xs -> Forall file_ok fs -> bytes_at m a (encode fs) -> (length fs < n)%nat ->
  0 <= a -> a + Z.of_nat (length (encode fs)) < 2 ^ 64 ->
  vrep (initrd.init_loop n a v m) (xs ++ header_addresses a fs).
Proof.
  intros Hv Hfs. revert n a v xs Hv. induction Hfs as [| f fs Hf Hfs IH]; intros n a v xs Hv Hb Hn Ha Hlen;
    (destruct n as [| n]; [cbn in Hn; lia |]); cbn [initrd.init_loop].
  - unfold initrd.filename_offset. cbn in Hb. apply bytes_at_cons in Hb as [Hb _]. rewrite Z.add_0_r, Hb. cbn. by rewrite app_nil_r.
  - destruct (encode_cons m a f fs Hf Hb) as [Hb1 Hb2].
    destruct (bytes_at_file m a f Hf Hb1) as (Hname & Hsize & _).
    unfold initrd.filename_offset. rewrite Z.add_0_r, (cstr_at m a (name f) Hname).
    assert (Hf2 := Hf). destruct Hf2 as (Hne & Hz & _ & _). destruct (name f) as [| c s] eqn:En; [done |].
    rewrite (proj2 (Z.eqb_neq c 0)) by (by inversion Hz). rewrite Hsize.
    cbn [encode length] in Hlen. rewrite length_app, length_encode_file in Hlen by done.
    rewrite next_address by lia. cbn [header_addresses]. rewrite cons_middle, app_assoc.
    apply IH; [by apply vrep_push_back | done | cbn in Hn; lia | lia | lia].
Qed.

Lemma strcmp_cstr fuel m a b s t :
  cstr m a s -> cstr m b t -> (length s < fuel)%nat ->
  exists c, string.strcmp fuel a b m = Ret c /\ (c = 0 <-> s = t).
Proof.
  revert fuel a b t. induction s as [| x s IH]; intros fuel a b t Ha Hb Hf;
    (destruct fuel as [| fuel]; [cbn in Hf; lia |]); cbn [string.strcmp];
    rewrite (cstr_at m a _ Ha), (cstr_at m b _ Hb).
  - cbn [Z.eqb]. rewrite andb_false_r. eexists. split; [reflexivity |].
    destruct t as [| y t]; [done |]. split; [| done]. intros E.
    destruct (cstr_cons m b y t Hb) as (_ & Hy & _). lia.
  - destruct (cstr_cons m a x s Ha) as (_ & Hx & Ha'). rewrite (proj2 (Z.eqb_neq x 0)) by done.
    rewrite andb_true_r. destruct t as [| y t].
    + rewrite (proj2 (Z.eqb_neq x 0)) by done. eexists. split; [reflexivity |]. split; [lia | done].
    + destruct (cstr_cons m b y t Hb) as (_ & Hy & Hb'). destruct (Z.eqb_spec x y) as [-> | Hne].
      * destruct (IH fuel (a + 1) (b + 1) t Ha' Hb' ltac:(cbn in Hf; lia)) as (c & Hc & Hiff).
        exists c. split; [done |]. rewrite Hiff. split; [by intros -> | by intros [= ->]].
      * eexists. split; [reflexivity |]. split; [lia | by intros [= ->]].
Qed.

Lemma find_header_ok fuel m a fs p s :
  Forall file_ok fs -> bytes_at m a (encode fs) -> cstr m p s -> (100 <= fuel)%nat ->
  initrd.find_header fuel (header_addresses a fs) p m = Ret (fst <$> lookup_file a fs s).
Proof.
  intros Hfs. revert a. induction Hfs as [| f fs Hf Hfs IH]; intros a Hb Hp Hfuel; [done |].
  destruct (encode_cons m a f fs Hf Hb) as [Hb1 Hb2]. cbn [header_addresses initrd.find_header lookup_file].
  destruct (bytes_at_file m a f Hf Hb1) as (Hname & _). unfold initrd.filename_offset. rewrite Z.add_0_r.
  destruct (strcmp_cstr fuel m a p (name f) s Hname Hp) as (c & -> & Hiff); [destruct Hf as (_ & _ & ? & _); lia |].
  cbn [mbind res_bind]. destruct (decide (name f = s)) as [E | E].
  - rewrite (proj2 (Z.eqb_eq c 0)) by tauto. done.
  - rewrite (proj2 (Z.eqb_neq c 0)) by tauto. by apply IH.
Qed.

Lemma length_fs_encode fs : Forall file_ok fs -> (length fs < length (encode fs))%nat.
Proof.
  induction 1 as [| f fs Hf _ IH]; cbn; [lia |]. rewrite length_app, length_encode_file by done.
  assert (H := stride_ge f). lia.
Qed.
(** What the memory holds at the file that a look-up finds. *)
Lemma lookup_file_at m a fs s h f :
  Forall file_ok fs -> bytes_at m a (encode fs) -> 0 <= a -> lookup_file a fs s = Some (h, f) ->
  file_ok f /\ bytes_at m h (encode_file f) /\ 0 <= h /\ h + Z.of_nat (stride f) < a + Z.of_nat (length (encode fs)).
Proof.
  intros Hfs. revert a. induction Hfs as [| g fs Hg Hfs IH]; intros a Hb Ha Hl; [done |].
  destruct (encode_cons m a g fs Hg Hb) as [Hb1 Hb2]. cbn [lookup_file encode] in *.
  rewrite length_app, length_encode_file by done. destruct (decide (name g = s)).
  - injection Hl as <- <-. assert (Hlen := length_fs_encode fs Hfs). split_and!; [done | done | lia | lia].
  - destruct (IH _ Hb2 ltac:(lia) Hl) as (? & ? & ? & ?). split_and!; [done | done | done | lia].
Qed.

End initrd_lemmas.

(** ** The archive in memory *)

Section archive.
Context (m : bmem) (a size p : Z) (fs : list file) (s : list Z) (fuel : nat).
Context (Hfs : Forall file_ok fs) (Hm : bytes_at m a (encode fs)) (Ha : 0 <= a).
Context (Hend : a + Z.of_nat (length (encode fs)) < 2 ^ 64) (Hsize : Z.of_nat (length (encode fs)) <= size).
Context (Hp : cstr m p s) (Hfuel : (100 <= fuel)%nat).

Lemma init_archive : vrep (initrd.init a size m) (header_addresses a fs).
Proof.
  unfold initrd.init. change (header_addresses a fs) with ([] ++ header_addresses a fs).
  apply initrd_init_loop_ok; try done.
  - exists (Some 0 :: replicate 15 None). done.
  - assert (H := length_fs_encode fs Hfs). lia.
Qed.

Lemma find_archive :
  initrd.find_header fuel (vector.contents (initrd.init a size m)) p m = Ret (fst <$> lookup_file a fs s).
Proof. rewrite (proj2 (proj1 (vrep_wf _ _) init_archive)). by apply find_header_ok. Qed.

Lemma get_size_archive :
  initrd.get_size fuel p (initrd.init a size m) m =
    Ret (match lookup_file a fs s with Some (_, f) => Z.of_nat (length (data f)) | None => 0 end).
Proof.
  unfold initrd.get_size. rewrite find_archive. cbn [mbind res_bind].
  destruct (lookup_file a fs s) as [[h f] |] eqn:E; [| done].
  change (Ret (initrd.get_header_number (h + initrd.size_offset) m) = Ret (Z.of_nat (length (data f)))).
  destruct (lookup_file_at m a fs s h f Hfs Hm Ha E) as (Hf & Hb & _ & _).
  destruct (bytes_at_file m h f Hf Hb) as (_ & -> & _). done.
Qed.

Lemma file_data_archive offset n :
  initrd.file_data fuel p offset n (initrd.init a size m) m =
    Ret (match lookup_file a fs s with
         | Some (h, f) => if Z.of_nat (length (data f)) + 1 <? u64 (n + offset) then None else Some (u64 (h + 512 + offset))
         | None => None
         end).
Proof.
  unfold initrd.file_data. rewrite get_size_archive, find_archive. cbn [mbind res_bind].
  destruct (lookup_file a fs s) as [[h f] |] eqn:E.
  - destruct (lookup_file_at m a fs s h f Hfs Hm Ha E) as ((_ & _ & _ & Hd & _) & _).
    rewrite u64_small by (unfold is_u64; lia). by destruct (Z.ltb_spec (Z.of_nat (length (data f)) + 1) (u64 (n + offset))).
  - cbn. by destruct (_ <? _).
Qed.

Lemma read_file_archive h f buf offset n :
  lookup_file a fs s = Some (h, f) -> 0 <= offset -> 0 <= n -> offset + n <= Z.of_nat (length (data f)) ->
  buf + n <= h \/ h + Z.of_nat (stride f) <= buf ->
  exists m', initrd.read_file fuel p buf offset n (initrd.init a size m) m = Ret (true, m') /\
    bytes_at m' buf (take (Z.to_nat n) (drop (Z.to_nat offset) (data f))) /\ only_at buf n m m'.
Proof.
  intros E Ho Hn Hle Hbuf. destruct (lookup_file_at m a fs s h f Hfs Hm Ha E) as (Hf & Hb & Hh & Hlast).
  assert (Hs := stride_ge f). assert (Hf2 := Hf). destruct Hf2 as (_ & _ & _ & Hd & _).
  destruct (bytes_at_file m h f Hf Hb) as (_ & _ & Hdata).
  unfold initrd.read_file. rewrite file_data_archive, E. cbn [mbind res_bind].
  rewrite !u64_small by (unfold is_u64; lia). rewrite (proj2 (Z.ltb_ge _ _)) by lia.
  destruct (copy_up_ok (Z.to_nat n) 0 buf (h + 512 + offset) m) as (m' & Hr & Hm'); [lia |].
  unfold string.memcpy. rewrite Hr. exists m'. split; [done |]. split.
  - intros i c Hi. apply lookup_take_Some in Hi as [Hi Hlt]. rewrite lookup_drop in Hi.
    rewrite Hm', bool_decide_true by lia. rewrite <- (Hdata _ _ Hi). f_equal. lia.
  - intros x Hx. rewrite Hm', bool_decide_false by lia. done.
Qed.
End archive.

(** ** Theorems *)

(** C30: The ramdisk is read back exactly.  When memory holds a TAR archive of files
    (with distinct or repeated names, whatever the other fields of their headers),
    the scan terminates, [get_size] is the
    length of the first file with the name (0 when there is none), [read_file]
    copies exactly the requested bytes of that file into the buffer and changes
    nothing else, and it fails without changing memory when the file does not
    exist or the range ends more than one byte after its end. *)
Theorem initrd_roundtrip (m : bmem) (a size p buf offset n : Z) (fs : list file) (s : list Z) (fuel : nat) :
  Forall file_ok fs -> bytes_at m a (encode fs) -> 0 <= a -> a + Z.of_nat (length (encode fs)) < 2 ^ 64 ->
  Z.of_nat (length (encode fs)) <= size -> cstr m p s -> (100 <= fuel)%nat ->
  0 <= offset -> 0 <= n -> offset + n < 2 ^ 64 ->
  let headers := initrd.init a size m in
  match lookup_file a fs s with
  | Some (h, f) =>
      initrd.get_size fuel p headers m = Ret (Z.of_nat (length (data f))) /\
      (offset + n <= Z.of_nat (length (data f)) -> buf + n <= h \/ h + Z.of_nat (stride f) <= buf ->
       exists m', initrd.read_file fuel p buf offset n headers m = Ret (true, m') /\
         bytes_at m' buf (take (Z.to_nat n) (drop (Z.to_nat offset) (data f))) /\ only_at buf n m m') /\
      (Z.of_nat (length (data f)) + 1 < offset + n ->
       initrd.read_file fuel p buf offset n headers m = Ret (false, m))
  | None =>
      initrd.get_size fuel p headers m = Ret 0 /\ initrd.read_file fuel p buf offset n headers m = Ret (false, m)
  end.
Proof.
  intros Hfs Hm Ha Hend Hsize Hp Hfuel Ho Hn Hw headers. unfold headers.
  assert (Hg := get_size_archive m a size p fs s fuel Hfs Hm Ha Hend Hsize Hp Hfuel).
  assert (Hd := file_data_archive m a size p fs s fuel Hfs Hm Ha Hend Hsize Hp Hfuel offset n).
  destruct (lookup_file a fs s) as [[h f] |] eqn:E.
  - split_and!; [done | |].
    + intros Hle Hbuf. by eapply read_file_archive.
    + intros Hgt. unfold initrd.read_file. rewrite Hd. cbn [mbind res_bind].
      rewrite u64_small by (unfold is_u64; lia). by rewrite (proj2 (Z.ltb_lt _ _)) by lia.
  - split; [done |]. unfold initrd.read_file. by rewrite Hd.
Qed.

(** Headers as tar writes them: permissions, owner and group; the end of the size, the
    time, a checksum, a plain file, "ustar", and zeros. *)
Definition ids_example : list Z := [48; 48; 48; 48; 54; 52; 52; 0; 48; 48; 48; 49; 55; 53; 48; 0; 48; 48; 48; 49; 55; 53; 48; 0].
Definition rest_example : list Z :=
  [0; 49; 51; 54; 53; 51; 48; 52; 55; 55; 51; 50; 0; 48; 49; 48; 55; 53; 52; 0; 32; 48] ++ replicate 100 0 ++
  [117; 115; 116; 97; 114; 32; 32; 0] ++ replicate 247 0.
Definition tar_example (name data : list Z) : file := mk_file name ids_example rest_example data.
Definition files_example : list file := [tar_example [97] (replicate 600 7); tar_example [98; 99] [1; 2; 3]].
(** The archive at 0x1000, then the name "bc". *)
Definition initrd_example : bmem :=
  mem_of 0x1000 (encode files_example ++ [98; 99; 0]).

Lemma initrd_example_ok :
  bytes_at initrd_example 0x1000 (encode files_example) /\ cstr initrd_example 0x1a01 [98; 99].
Proof.
  assert (H := mem_of_bytes 0x1000 (encode files_example ++ [98; 99; 0])).
  apply bytes_at_app in H as [H1 H2]. split; [exact H1 |]. split; [| repeat constructor; done].
  replace (Z.of_nat (length (encode files_example))) with 0xa01 in H2 by (vm_compute; reflexivity). exact H2.
Qed.

Lemma initrd_roundtrip_witness :
  let headers := initrd.init 0x1000 0x1000 initrd_example in
  exists h f, lookup_file 0x1000 files_example [98; 99] = Some (h, f) /\
    initrd.get_size 100 0x1a01 headers initrd_example = Ret 3 /\
    exists m', initrd.read_file 100 0x1a01 0x9000 1 2 headers initrd_example = Ret (true, m') /\
      bytes_at m' 0x9000 [2; 3] /\ only_at 0x9000 2 initrd_example m'.
Proof.
  intros headers. destruct initrd_example_ok as [H1 H2].
  assert (H := initrd_roundtrip initrd_example 0x1000 0x1000 0x1a01 0x9000 1 2 files_example [98; 99] 100
    ltac:(by_compute) H1 ltac:(lia) ltac:(vm_compute; reflexivity) ltac:(vm_compute; discriminate) H2
    ltac:(lia) ltac:(lia) ltac:(lia) ltac:(lia)).
  fold headers in H.
  assert (E : lookup_file 0x1000 files_example [98; 99] = Some (0x1600, tar_example [98; 99] [1; 2; 3])) by (vm_compute; reflexivity).
  rewrite E in H. destruct H as (Hg & Hr & _). exists 0x1600, (tar_example [98; 99] [1; 2; 3]).
  split; [done |]. split; [exact Hg |]. apply Hr; [vm_compute; discriminate |]. right. vm_compute. discriminate.
Defined.

(** Which reads of an existing file [read_file] accepts: the check compares
    the wrapped sum of offset and size with the length plus one.  So the byte
    behind the file can be read, and a size close to 2^64 passes the check. *)
Theorem read_file_bound (m : bmem) (a size p offset n : Z) (fs : list file) (s : list Z) (fuel : nat) (h : Z) (f : file) :
  Forall file_ok fs -> bytes_at m a (encode fs) -> 0 <= a -> a + Z.of_nat (length (encode fs)) < 2 ^ 64 ->
  Z.of_nat (length (encode fs)) <= size -> cstr m p s -> (100 <= fuel)%nat ->
  lookup_file a fs s = Some (h, f) ->
  let data_of o k := initrd.file_data fuel p o k (initrd.init a size m) m in
  (data_of offset n = Ret (Some (u64 (h + 512 + offset))) <-> u64 (n + offset) <= Z.of_nat (length (data f)) + 1) /\
  data_of (Z.of_nat (length (data f))) 1 = Ret (Some (h + 512 + Z.of_nat (length (data f)))) /\
  data_of 1 (2 ^ 64 - 1) = Ret (Some (h + 512 + 1)).
Proof.
  intros Hfs Hm Ha Hend Hsize Hp Hfuel E data_of.
  assert (Hd : forall o k, data_of o k = Ret (if Z.of_nat (length (data f)) + 1 <? u64 (k + o) then None else Some (u64 (h + 512 + o)))).
  { intros o k. unfold data_of. rewrite (file_data_archive m a size p fs s fuel) by done. by rewrite E. }
  destruct (lookup_file_at m a fs s h f Hfs Hm Ha E) as (Hf & _ & Hh & Hlast). assert (Hs := stride_ge f).
  split_and!.
  - rewrite Hd. destruct (Z.ltb_spec (Z.of_nat (length (data f)) + 1) (u64 (n + offset))); split; intros; (done || lia).
  - rewrite Hd, !u64_small by (unfold is_u64; lia). by rewrite (proj2 (Z.ltb_ge _ _)) by lia.
  - rewrite Hd. change (u64 (2 ^ 64 - 1 + 1)) with 0. rewrite !u64_small by (unfold is_u64; lia).
    by rewrite (proj2 (Z.ltb_ge _ _)) by lia.
Qed.

Lemma read_file_bound_witness :
  initrd.file_data 100 0x1a01 3 1 (initrd.init 0x1000 0x1000 initrd_example) initrd_example = Ret (Some 0x1803).
Proof.
  destruct initrd_example_ok as [H1 H2].
  apply (read_file_bound initrd_example 0x1000 0x1000 0x1a01 0 0 files_example [98; 99] 100 0x1600 (tar_example [98; 99] [1; 2; 3]));
    [by_compute | exact H1 | lia | vm_compute; reflexivity | vm_compute; discriminate | exact H2 | lia | vm_compute; reflexivity].
Defined.
