(* ===== verification/Heap.v ===== *)
(** * Heap: the kernel heap

    Models source/mm/alloc.cpp and include/Sigma/mm/alloc.h.  A block is a 64-byte header followed by its bytes; the
    headers form a list through [next] and are never removed from it.  The model
    keeps the headers in a map from their address, and the bytes of the heap, as
    the kernel sees them at virtual addresses, in a function.  New memory comes
    from the frame allocator (Frames.v) and is mapped with [map_page]
    (Paging.v). *)

From S2P Require Import Prelude Bits Frames Pmm Paging.

Module alloc.
Definition magic_low : Z := 0xBEEF.
Definition magic_high : Z := 0xC0DE.
Definition sizeof_header : Z := 64.
Definition heap_base : Z := 0xffffffffd0000000.

Record header := mk_header { h_magic_low : Z; next : Z; size : Z; is_free : bool; h_magic_high : Z }.

Definition check_magic (hd : header) : bool :=
  (h_magic_low hd =? magic_low) && (h_magic_high hd =? magic_high).

(** The header that [alloc] and [alloc_a] write, after [set_magic]. *)
Definition new_header (sz : Z) : header := mk_header magic_low 0 sz false magic_high.
Definition with_next (n : Z) (hd : header) : header :=
  mk_header (h_magic_low hd) n (size hd) (is_free hd) (h_magic_high hd).
Definition with_free (b : bool) (hd : header) : header :=
  mk_header (h_magic_low hd) (next hd) (size hd) b (h_magic_high hd).

Section ops.
Context {S : Type} `{FA : FrameAllocator S}.

(** [kernel_info]: the [paging_info] of the kernel's address space. *)
Record heap := mk {
  kern : paging.kernel S; kernel_info : Z;
  head : Z; tail : Z;
  current_heap_page_offset : Z; current_heap_offset : Z;
  headers : gmap Z header; bytes : Z -> Z }.

Definition set_kern (k : paging.kernel S) (h : heap) : heap :=
  mk k (kernel_info h) (head h) (tail h) (current_heap_page_offset h) (current_heap_offset h)
     (headers h) (bytes h).
Definition set_offset (o : Z) (h : heap) : heap :=
  mk (kern h) (kernel_info h) (head h) (tail h) (current_heap_page_offset h) o (headers h) (bytes h).
Definition set_page_offset (o : Z) (h : heap) : heap :=
  mk (kern h) (kernel_info h) (head h) (tail h) o (current_heap_offset h) (headers h) (bytes h).
Definition set_list (hd tl : Z) (h : heap) : heap :=
  mk (kern h) (kernel_info h) hd tl (current_heap_page_offset h) (current_heap_offset h)
     (headers h) (bytes h).
Definition set_headers (m : gmap Z header) (h : heap) : heap :=
  mk (kern h) (kernel_info h) (head h) (tail h) (current_heap_page_offset h) (current_heap_offset h)
     m (bytes h).
Definition set_bytes (b : Z -> Z) (h : heap) : heap :=
  mk (kern h) (kernel_info h) (head h) (tail h) (current_heap_page_offset h) (current_heap_offset h)
     (headers h) b.

Definition heap_flags : Z :=
  Z.lor (Z.lor (Z.lor map_page_flags_present map_page_flags_writable) map_page_flags_global)
        map_page_flags_no_execute.

(** [get_free_block]: first fit along [next]; 0 for [nullptr]. *)
Fixpoint free_block_loop (fuel : nat) (curr sz : Z) (m : gmap Z header) : res Z :=
  match fuel with
  | O => NoFuel
  | Datatypes.S fuel =>
      if curr =? 0 then mret 0
      else
        hd ← access (m !! curr);
        if is_free hd && (sz <=? size hd) then mret curr else free_block_loop fuel (next hd) sz m
  end.
Definition get_free_block (sz : Z) (h : heap) : res Z :=
  free_block_loop (Datatypes.S (length (map_to_list (headers h)))) (head h) sz (headers h).

(** [memset_aligned_4k] of the page at [p]: a header in the page would be erased. *)
Definition zero_page (p : Z) (h : heap) : heap :=
  set_headers (filter (fun ah => ~ (p <= ah.1 < p + block_size)) (headers h))
    (set_bytes (fun x => if (p <=? x) && (x <? p + block_size) then 0 else bytes h x) h).

(** The mapping loop of [morecore]: [false] when the frame is the null pointer. *)
Fixpoint morecore_loop (fuel : nat) (h : heap) : res (bool * heap) :=
  match fuel with
  | O => NoFuel
  | Datatypes.S fuel =>
      if current_heap_page_offset h <=? current_heap_offset h then
        '(block, fr) ← fa_alloc (paging.frames (kern h));
        let h := set_kern (paging.mk fr (paging.mem (kern h))) h in
        if block =? 0 then mret (false, h)
        else
          k ← paging.map_page (kernel_info h) block (current_heap_page_offset h) heap_flags normal (kern h);
          let h := zero_page (current_heap_page_offset h) (set_kern k h) in
          morecore_loop fuel (set_page_offset (u64 (current_heap_page_offset h + block_size)) h)
      else mret (true, h)
  end.

(** The number of pages the loop of [morecore] maps, and one more step. *)
Definition morecore_fuel (h : heap) : nat :=
  Z.to_nat (Z.max 0 ((current_heap_offset h - current_heap_page_offset h) / block_size + 1) + 1).

Definition morecore (sz align : Z) (h : heap) : res (Z * heap) :=
  let h := set_offset (ALIGN_UP (current_heap_offset h) align) h in
  let ret := current_heap_offset h in
  let h := set_offset (u64 (current_heap_offset h + sz)) h in
  '(ok, h) ← morecore_loop (morecore_fuel h) h;
  mret (if (ok : bool) then ret else 0, h).

(** The end of [alloc] and [alloc_a]: write the header and append it. *)
Definition add_block (block sz : Z) (h : heap) : res heap :=
  let h := set_headers (<[block := new_header sz]> (headers h)) h in
  let h := if head h =? 0 then set_list block (tail h) h else h in
  h ← (if tail h =? 0 then mret h
       else hd ← access (headers h !! tail h);
            mret (set_headers (<[tail h := with_next block hd]> (headers h)) h));
  mret (set_list (head h) block h).

Definition alloc_a (sz align : Z) (h : heap) : res (Z * heap) :=
  let total_size := u64 (sz + sizeof_header) in
  '(block, h) ← morecore total_size align h;
  if block =? 0 then mret (0, h)
  else
    h ← add_block block sz h;
    mret (u64 (block + sizeof_header), h).

Definition alloc (sz : Z) (h : heap) : res (Z * heap) :=
  if sz =? 0 then mret (0, h)
  else
    hdr ← get_free_block sz h;
    if hdr =? 0 then
      let total_size := u64 (sz + sizeof_header) in
      '(block, h) ← morecore total_size 64 h;
      if block =? 0 then mret (0, h)
      else
        h ← add_block block sz h;
        mret (u64 (block + sizeof_header), h)
    else
      hd ← access (headers h !! hdr);
      if negb (check_magic hd) then mret (0, h)
      else mret (u64 (hdr + sizeof_header),
                 set_headers (<[hdr := with_free false hd]> (headers h)) h).

Definition free (ptr : Z) (h : heap) : res heap :=
  if ptr =? 0 then mret h
  else
    let hdr := u64 (ptr - sizeof_header) in
    hd ← access (headers h !! hdr);
    if negb (check_magic hd) then mret h
    else if is_free hd then mret h
    else mret (set_headers (<[hdr := with_free true hd]> (headers h)) h).

(** [memcpy(dst, src, n)] on the heap's bytes. *)
Definition copy_bytes (dst src n : Z) (b : Z -> Z) : Z -> Z :=
  fun x => if (dst <=? x) && (x <? dst + n) then b (src + (x - dst)) else b x.

Definition realloc (ptr sz : Z) (h : heap) : res (Z * heap) :=
  if (ptr =? 0) && (sz =? 0) then mret (0, h)
  else if sz =? 0 then h ← free ptr h; mret (0, h)
  else if ptr =? 0 then alloc sz h
  else
    let hdr := u64 (ptr - sizeof_header) in
    hd ← access (headers h !! hdr);
    if is_free hd then mret (0, h)
    else if negb (check_magic hd) then mret (0, h)
    else if sz <=? size hd then mret (ptr, h)
    else
      '(ret, h) ← alloc sz h;
      if ret =? 0 then mret (0, h)
      else
        hd ← access (headers h !! hdr);
        h ← free ptr (set_bytes (copy_bytes ret ptr (size hd) (bytes h)) h);
        mret (ret, h).

(** [init]: map the first four pages (they are not zeroed). *)
Definition init (h : heap) : res heap :=
  for_loop 4 0 (fun _ h =>
    '(block, fr) ← fa_alloc (paging.frames (kern h));
    k ← paging.map_page (kernel_info h) block (current_heap_page_offset h) heap_flags normal
          (paging.mk fr (paging.mem (kern h)));
    mret (set_page_offset (u64 (current_heap_page_offset h + block_size)) (set_kern k h))) h.

(** [check_for_corruption]: [true] when a header is broken. *)
Fixpoint corruption_loop (fuel : nat) (curr : Z) (m : gmap Z header) : res bool :=
  match fuel with
  | O => NoFuel
  | Datatypes.S fuel =>
      if curr =? 0 then mret false
      else
        hd ← access (m !! curr);
        if ((next hd <? 0xffffffffd0000000 - 1) && negb (next hd =? 0))
           || (next hd =? 0xffffffffffffffff) || negb (check_magic hd)
        then mret true
        else corruption_loop fuel (next hd) m
  end.
Definition check_for_corruption (h : heap) : res bool :=
  corruption_loop (Datatypes.S (length (map_to_list (headers h)))) (head h) (headers h).

(** The static state before [init], on a machine [k]. *)
Definition boot (k : paging.kernel S) (info : Z) : heap :=
  mk k info 0 0 heap_base heap_base ∅ (fun _ => 0).
End ops.
Arguments heap S : clear implicits.
End alloc.

(** ** Specification *)

(** The list of blocks in the order of the [next] pointers: the headers with
    their addresses. *)
Definition first (L : list (Z * alloc.header)) : Z := match L with (a, _) :: _ => a | [] => 0 end.

Fixpoint linked (L : list (Z * alloc.header)) : Prop :=
  match L with
  | [] => True
  | (_, hd) :: L => alloc.next hd = first L /\ linked L
  end.

(** The blocks lie between [lo] and [hi], in order and without overlap. *)
Fixpoint spans (lo : Z) (L : list (Z * alloc.header)) (hi : Z) : Prop :=
  match L with
  | [] => lo <= hi
  | (a, hd) :: L =>
      lo <= a /\ 0 <= alloc.size hd /\ alloc.check_magic hd = true /\
      spans (a + alloc.sizeof_header + alloc.size hd) L hi
  end.

(** The regions handed out: start and size of the blocks that are not free. *)
Definition live (L : list (Z * alloc.header)) : list (Z * Z) :=
  (fun ah => (ah.1 + alloc.sizeof_header, alloc.size ah.2)) <$>
    filter (fun ah => alloc.is_free ah.2 = false) L.

(** The mapped part of the heap: every page below [current_heap_page_offset]. *)
Record mapped_ok {S} `{FrameAllocator S} (own : gmap Z (nat * Z)) (root : Z) (h : alloc.heap S) : Prop := {
  m_space : space_ok own root (alloc.kern h);
  m_info : alloc.kernel_info h = to_virt root;
  m_page : alloc.heap_base <= alloc.current_heap_page_offset h <= 2 ^ 64 - 4096 /\
           alloc.current_heap_page_offset h mod 4096 = 0;
  m_mapped : forall v, alloc.heap_base <= v < alloc.current_heap_page_offset h ->
               is_Some (translate (paging.mem (alloc.kern h)) root v) }.

(** The invariant of the heap, with the abstract list of its blocks. *)
Record heap_ok {S} `{FrameAllocator S} (own : gmap Z (nat * Z)) (root : Z) (h : alloc.heap S)
    (L : list (Z * alloc.header)) : Prop := {
  ok_mapped : mapped_ok own root h;
  ok_headers : alloc.headers h = list_to_map L;
  ok_linked : linked L;
  ok_head : alloc.head h = first L;
  ok_tail : alloc.tail h = default 0 (fst <$> last L);
  ok_spans : spans alloc.heap_base L (alloc.current_heap_offset h);
  ok_page : alloc.current_heap_offset h < alloc.current_heap_page_offset h }.

(** ** Lemmas *)

Section lists.
Implicit Types L : list (Z * alloc.header).

Lemma spans_le lo L hi : spans lo L hi -> lo <= hi.
Proof.
  revert lo. induction L as [| [a hd] L IH]; intros lo; cbn [spans]; [done |].
  intros (? & ? & _ & ?%IH). unfold alloc.sizeof_header in *. lia.
Qed.

Lemma spans_elem lo L hi a hd :
  spans lo L hi -> (a, hd) ∈ L ->
  lo <= a /\ 0 <= alloc.size hd /\ alloc.check_magic hd = true /\ a + 64 + alloc.size hd <= hi.
Proof.
  revert lo. induction L as [| [b hb] L IH]; intros lo; cbn [spans]; [set_solver |].
  intros (H1 & H2 & H3 & H4) [[= -> ->] | Hin]%elem_of_cons.
  - apply spans_le in H4. unfold alloc.sizeof_header in *. split_and!; done || lia.
  - apply IH in H4 as (? & ? & ? & ?); [| done]. unfold alloc.sizeof_header in *. split_and!; done || lia.
Qed.

Lemma spans_mono lo L hi hi' : spans lo L hi -> hi <= hi' -> spans lo L hi'.
Proof.
  revert lo. induction L as [| [b hb] L IH]; intros lo; cbn [spans]; [lia |].
  intros (H1 & H2 & H3 & H4) Hle. eauto.
Qed.

Lemma spans_app lo L1 mid L2 hi : spans lo L1 mid -> spans mid L2 hi -> spans lo (L1 ++ L2) hi.
Proof.
  revert lo. induction L1 as [| [b hb] L IH]; intros lo; cbn [spans app].
  - intros H. destruct L2 as [| [a ha] L2]; cbn [spans]; [lia |]. intros (? & ? & ? & ?). split_and!; done || lia.
  - intros (H1 & H2 & H3 & H4) H5. eauto.
Qed.

Lemma spans_nodup lo L hi : spans lo L hi -> NoDup L.*1.
Proof.
  revert lo. induction L as [| [b hb] L IH]; intros lo; cbn [spans fmap list_fmap]; [constructor |].
  intros (H1 & H2 & H3 & H4). constructor; [| by eapply IH].
  intros ([b' hb'] & E & Hin)%list_elem_of_fmap. simpl in E. subst b'.
  destruct (spans_elem _ _ _ _ _ H4 Hin) as (Hle & _). unfold alloc.sizeof_header in Hle. lia.
Qed.

(** A change of the fields other than [size] and the magic keeps the layout. *)
Lemma spans_update lo L hi i a hd hd' :
  spans lo L hi -> L !! i = Some (a, hd) -> alloc.size hd' = alloc.size hd ->
  alloc.check_magic hd' = true -> spans lo (<[i := (a, hd')]> L) hi.
Proof.
  revert lo i. induction L as [| [b hb] L IH]; intros lo i; cbn [spans]; [done |].
  intros (H1 & H2 & H3 & H4) Hi Hs Hm. destruct i as [| i]; cbn in Hi |- *.
  - injection Hi as -> ->. rewrite Hs. done.
  - split_and!; try done. by eapply IH.
Qed.

Lemma linked_update L i a hd b : L !! i = Some (a, hd) -> linked L -> linked (<[i := (a, alloc.with_free b hd)]> L).
Proof.
  revert i. induction L as [| [c hc] L IH]; intros [| i] Hi; cbn [linked] in *; try done.
  - intros [H1 H2]. injection Hi as -> ->. done.
  - intros [H1 H2]. cbn in Hi |- *. split; [| by apply IH]. rewrite H1. destruct L as [| [d hd'] L]; [done |].
    destruct i; cbn in Hi |- *; [by injection Hi as -> -> | done].
Qed.

Lemma first_update L i a hd hd' : L !! i = Some (a, hd) -> first (<[i := (a, hd')]> L) = first L.
Proof. destruct L as [| [c hc] L], i; cbn; try done. by intros [= -> ->]. Qed.

Lemma fst_update L i a hd hd' : L !! i = Some (a, hd) -> (<[i := (a, hd')]> L).*1 = L.*1.
Proof.
  intros Hi. rewrite list_fmap_insert. apply list_insert_id. by rewrite list_lookup_fmap, Hi.
Qed.

Lemma last_fst L : fst <$> last L = last L.*1.
Proof. by rewrite fmap_last. Qed.

Lemma map_update L i a hd hd' :
  NoDup L.*1 -> L !! i = Some (a, hd) ->
  list_to_map (<[i := (a, hd')]> L) =@{gmap Z alloc.header} <[a := hd']> (list_to_map L).
Proof.
  intros Hn Hi. apply map_eq. intros x. apply option_eq. intros y.
  assert (Hn' : NoDup (<[i := (a, hd')]> L).*1) by (by erewrite fst_update).
  rewrite <- elem_of_list_to_map by done. rewrite lookup_insert_Some, <- elem_of_list_to_map by done.
  rewrite !list_elem_of_lookup. assert (Hlen := lookup_lt_Some _ _ _ Hi). split.
  - intros (j & Hj). apply list_lookup_insert_Some in Hj as [(-> & [= <- <-] & _) | [Hne Hj]]; [by left | right].
    split; [| by eauto]. intros ->. apply Hne. eapply (NoDup_lookup L.*1 i j); [done | |];
      rewrite list_lookup_fmap; [by rewrite Hi | by rewrite Hj].
  - intros [[-> ->] | [Hne (j & Hj)]]; [exists i; by apply list_lookup_insert_eq |].
    exists j. rewrite list_lookup_insert_ne; [done |]. intros ->. congruence.
Qed.
End lists.

Section blocks.
Implicit Types L : list (Z * alloc.header).

Definition fits (sz : Z) (ah : Z * alloc.header) : Prop :=
  alloc.is_free ah.2 = true /\ sz <= alloc.size ah.2.

#[local] Instance fits_dec sz ah : Decision (fits sz ah).
Proof. unfold fits. apply _. Defined.

(** First fit: the search returns the first block that fits, or null. *)
Lemma free_block_loop_ok fuel sz m L :
  (length L < fuel)%nat -> linked L -> Forall (fun ah => ah.1 <> 0 /\ m !! ah.1 = Some ah.2) L ->
  alloc.free_block_loop fuel (first L) sz m =
    Ret (match list_find (fits sz) L with Some (_, ah) => ah.1 | None => 0 end).
Proof.
  revert fuel. induction L as [| [a hd] L IH]; intros [| fuel] Hf Hl Hm; cbn [length] in Hf; try lia; [done |].
  cbn [alloc.free_block_loop first]. apply Forall_cons in Hm as [[Ha Hm0] Hm]. cbn in Ha, Hm0.
  rewrite (proj2 (Z.eqb_neq a 0) Ha), Hm0. cbn [access mbind res_bind list_find].
  destruct Hl as [Hn Hl]. rewrite Hn. destruct (decide (fits sz (a, hd))) as [[Hfr Hsz] | Hno]; cbn in *.
  - rewrite Hfr, (proj2 (Z.leb_le _ _) Hsz). done.
  - replace (alloc.is_free hd && (sz <=? alloc.size hd)) with false.
    + rewrite IH by (done || lia). by destruct (list_find _ L) as [[i [b hb]] |].
    + symmetry. apply not_true_is_false. intros [H1 H2%Z.leb_le]%andb_true_iff. by apply Hno.
Qed.

Lemma chain_lookup lo L hi :
  0 < lo -> spans lo L hi ->
  Forall (fun ah => ah.1 <> 0 /\ (list_to_map L : gmap Z alloc.header) !! ah.1 = Some ah.2) L.
Proof.
  intros Hlo Hs. apply Forall_forall. intros [a hd] Hin. cbn.
  split; [destruct (spans_elem _ _ _ _ _ Hs Hin); lia |].
  by apply elem_of_list_to_map_1; [eapply spans_nodup |].
Qed.

Lemma chain_length L : NoDup L.*1 -> length (map_to_list (list_to_map L : gmap Z alloc.header)) = length L.
Proof. intros Hn. by rewrite map_to_list_to_map. Qed.

(** Marking a block changes the live regions by that block. *)
Lemma live_mark L i a hd :
  L !! i = Some (a, hd) -> alloc.is_free hd = true ->
  live (<[i := (a, alloc.with_free false hd)]> L) ≡ₚ (a + alloc.sizeof_header, alloc.size hd) :: live L.
Proof.
  intros Hi Hf. assert (Hlen := lookup_lt_Some _ _ _ Hi).
  rewrite insert_take_drop by done. rewrite <- (take_drop_middle L i (a, hd) Hi) at 3.
  unfold live. rewrite !filter_app, !filter_cons. cbn. rewrite Hf. cbn.
  rewrite !fmap_app. cbn. by rewrite Permutation_middle.
Qed.

Lemma live_free L i a hd :
  L !! i = Some (a, hd) -> alloc.is_free hd = false ->
  live L ≡ₚ (a + alloc.sizeof_header, alloc.size hd) :: live (<[i := (a, alloc.with_free true hd)]> L).
Proof.
  intros Hi Hf. assert (Hlen := lookup_lt_Some _ _ _ Hi).
  rewrite insert_take_drop by done. rewrite <- (take_drop_middle L i (a, hd) Hi) at 1.
  unfold live. rewrite !filter_app, !filter_cons. cbn. rewrite Hf. cbn.
  rewrite !fmap_app. cbn. by rewrite Permutation_middle.
Qed.

(** The list after [add_block]: the old last block points to the new one. *)
Definition append (L : list (Z * alloc.header)) (b : Z) (hd : alloc.header) : list (Z * alloc.header) :=
  match last L with
  | Some (a, ha) => <[pred (length L) := (a, alloc.with_next b ha)]> L ++ [(b, hd)]
  | None => [(b, hd)]
  end.

Lemma append_snoc L a ha b hd : append (L ++ [(a, ha)]) b hd = L ++ [(a, alloc.with_next b ha); (b, hd)].
Proof.
  unfold append. rewrite last_snoc, length_app. cbn. rewrite Nat.add_1_r. cbn.
  rewrite insert_app_r_alt, Nat.sub_diag by lia. cbn. by rewrite <- app_assoc.
Qed.

Lemma first_app L a ha L' : first (L ++ (a, ha) :: L') = match L with [] => a | (c, _) :: _ => c end.
Proof. by destruct L as [| [c hc] L]. Qed.

Lemma linked_append L b sz : linked L -> linked (append L b (alloc.new_header sz)).
Proof.
  destruct L as [| [a ha] L _] using rev_ind; [done |]. rewrite append_snoc.
  induction L as [| [c hc] L IH]; cbn; [done |]. intros [H1 H2]. split; [| by apply IH].
  rewrite H1, !first_app. done.
Qed.

Lemma spans_append lo L hi b sz hi' :
  spans lo L hi -> hi <= b -> 0 <= sz -> b + 64 + sz <= hi' -> spans lo (append L b (alloc.new_header sz)) hi'.
Proof.
  intros Hs Hb Hsz Hhi. destruct L as [| [a ha] L _] using rev_ind.
  - cbn in *. unfold alloc.sizeof_header. split_and!; done || lia.
  - rewrite append_snoc. change (spans lo (L ++ [(a, ha)]) hi) in Hs. revert lo Hs.
    induction L as [| [c hc] L IH]; intros lo; cbn.
    + unfold alloc.sizeof_header. intros (H1 & H2 & H3 & H4). split_and!; done || lia.
    + intros (H1 & H2 & H3 & H4). eauto.
Qed.

Lemma live_append L b sz : live (append L b (alloc.new_header sz)) ≡ₚ (b + alloc.sizeof_header, sz) :: live L.
Proof.
  destruct L as [| [a ha] L _] using rev_ind; [done |]. rewrite append_snoc.
  unfold live. rewrite !filter_app, !filter_cons. cbn. rewrite !fmap_app. cbn.
  destruct (alloc.is_free ha) eqn:E; cbn.
  - rewrite app_nil_r. symmetry. apply Permutation_cons_append.
  - rewrite !(decide_True (P := false = false)) by done. cbn.
    etransitivity; [| symmetry; apply Permutation_cons_append]. by rewrite <- app_assoc.
Qed.

Lemma map_append L b hd lo hi :
  spans lo L hi -> hi <= b ->
  (list_to_map (append L b hd) : gmap Z alloc.header) =
    match last L with
    | Some (a, ha) => <[a := alloc.with_next b ha]> (<[b := hd]> (list_to_map L))
    | None => <[b := hd]> (list_to_map L)
    end.
Proof.
  intros Hs Hb. destruct L as [| [a ha] L _] using rev_ind; [done |].
  rewrite append_snoc, last_snoc. assert (Hn := spans_nodup _ _ _ Hs).
  destruct (spans_elem _ _ _ a ha Hs) as (_ & H0 & _ & Ha); [set_solver |].
  rewrite fmap_app in Hn. apply NoDup_app in Hn as (_ & Hd & _).
  assert (HL : forall x, x ∈ L.*1 -> x <> a /\ x <> b).
  { intros x Hx. split; [intros ->; apply (Hd a Hx); set_solver |]. intros ->.
    apply list_elem_of_fmap in Hx as ([b' hb] & E & Hin). cbn in E. subst b'.
    destruct (spans_elem _ _ _ b hb Hs) as (_ & ? & _ & ?); [set_solver | lia]. }
  rewrite !list_to_map_app. cbn. apply map_eq. intros x.
  destruct (decide (x ∈ L.*1)) as [Hx | Hx].
  - destruct (HL x Hx). rewrite !lookup_insert_ne by done.
    apply list_elem_of_fmap in Hx as ([x' hx] & -> & Hin). cbn in *.
    destruct ((list_to_map L : gmap Z alloc.header) !! x') eqn:E;
      [by rewrite !(lookup_union_Some_l _ _ _ _ E) |].
    apply not_elem_of_list_to_map in E. exfalso. apply E. apply list_elem_of_fmap. by exists (x', hx).
  - apply not_elem_of_list_to_map in Hx. rewrite lookup_union_r by done.
    destruct (decide (x = a)) as [-> |]; [by rewrite !lookup_insert_eq |].
    rewrite !(lookup_insert_ne _ a) by done. destruct (decide (x = b)) as [-> |].
    + by rewrite !lookup_insert_eq.
    + rewrite !lookup_insert_ne by done. rewrite lookup_union_r by done.
      by rewrite lookup_insert_ne by done.
Qed.
End blocks.

Section heap_lemmas.
Context {S : Type} `{FA : FrameAllocatorLaws S}.
Implicit Types (h : alloc.heap S) (own : gmap Z (nat * Z)) (L : list (Z * alloc.header)).

Definition free_frames (h : alloc.heap S) : list Z := fa_pages (paging.frames (alloc.kern h)).

(** Mapping one more page at the end of the heap. *)
Lemma extend_ok own root h f fr :
  mapped_ok own root h -> alloc.current_heap_page_offset h <= 2 ^ 64 - 8192 ->
  (4 <= length (free_frames h))%nat -> fa_alloc (paging.frames (alloc.kern h)) = Ret (f, fr) ->
  exists k' own',
    paging.map_page (alloc.kernel_info h) f (alloc.current_heap_page_offset h) alloc.heap_flags normal
      (paging.mk fr (paging.mem (alloc.kern h))) = Ret k' /\
    space_ok own' root k' /\ uses 4 (alloc.kern h) k' /\
    (forall v, alloc.heap_base <= v < alloc.current_heap_page_offset h + 4096 ->
       is_Some (translate (paging.mem k') root v)).
Proof.
  intros [OK Hi [Hp Hal] Hm] Hhi Hfr Ha.
  destruct (space_alloc _ _ _ _ _ OK Ha) as (OK1 & U1 & _ & _).
  set (k1 := paging.mk fr _) in *. assert (HU := uses_length _ _ _ U1). unfold free_frames in Hfr.
  destruct (map_page_success own root k1 f (alloc.current_heap_page_offset h) alloc.heap_flags normal)
    as (k' & Hk); [done | lia |].
  destruct (map_page_ok own root k1 _ _ _ _ k' OK1 Hk) as (own' & _ & OK' & Hother & Hpage & U & _).
  exists k', own'. rewrite Hi. split_and!; [done | done | exact (uses_trans _ _ _ _ _ U1 U) |].
  intros v Hv. unfold alloc.heap_base in *.
  destruct (decide (v < alloc.current_heap_page_offset h)).
  - rewrite Hother; [apply Hm; lia | apply OK |]. unfold vpn. change (2 ^ 36) with 68719476736.
    change (2 ^ 64) with 18446744073709551616 in *. wrap_lia.
  - rewrite Hpage; [cbn; by eauto |]. unfold vpn. change (2 ^ 64) with 18446744073709551616 in *.
    f_equal. wrap_lia.
Qed.

(** The mapping loop of [morecore] with enough free frames. *)
Lemma morecore_loop_ok n fuel own root h :
  mapped_ok own root h -> 0 ∉ free_frames h ->
  alloc.current_heap_offset h < alloc.current_heap_page_offset h + 4096 * Z.of_nat n ->
  alloc.current_heap_offset h <= 2 ^ 64 - 8192 ->
  (4 * n <= length (free_frames h))%nat -> (n < fuel)%nat ->
  (forall a, is_Some (alloc.headers h !! a) -> a < alloc.current_heap_page_offset h) ->
  exists h' own', alloc.morecore_loop fuel h = Ret (true, h') /\ mapped_ok own' root h' /\
    alloc.head h' = alloc.head h /\ alloc.tail h' = alloc.tail h /\ alloc.headers h' = alloc.headers h /\
    alloc.current_heap_offset h' = alloc.current_heap_offset h /\
    alloc.current_heap_offset h' < alloc.current_heap_page_offset h' /\
    (forall x, x < alloc.current_heap_page_offset h -> alloc.bytes h' x = alloc.bytes h x) /\
    (forall f, f ∈ free_frames h' -> f ∈ free_frames h).
Proof.
  revert fuel own h. induction n as [| n IH]; intros [| fuel] own h M H0 Hoff Hhi Hfr Hfuel Hhd; try lia;
    cbn [alloc.morecore_loop]; destruct (Z.leb_spec (alloc.current_heap_page_offset h) (alloc.current_heap_offset h)) as [Hle | Hgt];
    try lia; try (exists h, own; split_and!; by done || lia).
  destruct (fa_alloc_success (paging.frames (alloc.kern h))) as (f & fr & Ha);
    [apply M | intros Hn; unfold free_frames in Hfr; rewrite Hn in Hfr; cbn in Hfr; lia |].
  rewrite Ha. cbn [mbind res_bind].
  destruct (space_alloc _ _ _ _ _ (m_space _ _ _ M) Ha) as (_ & _ & _ & Hin).
  rewrite (proj2 (Z.eqb_neq f 0)) by (intros ->; by apply H0).
  destruct (extend_ok own root h f fr) as (k' & own' & Hk & OK' & U & Hm); [done | lia | lia | done |].
  cbn [alloc.kernel_info alloc.kern alloc.set_kern alloc.current_heap_page_offset]. rewrite Hk.
  cbn [mbind res_bind]. destruct M as [_ Hi [Hp Hal] _].
  assert (Hpo : u64 (alloc.current_heap_page_offset h + block_size) = alloc.current_heap_page_offset h + 4096)
    by (unfold alloc.heap_base in *; wrap_lia).
  set (h1 := alloc.set_page_offset _ _).
  assert (E : alloc.current_heap_page_offset h1 = alloc.current_heap_page_offset h + 4096) by exact Hpo.
  assert (Hh : alloc.headers h1 = alloc.headers h).
  { cbn. apply map_filter_id. intros a hd Hl. cbn. intros Hc. specialize (Hhd a (mk_is_Some _ _ Hl)). lia. }
  assert (Hfr1 : (length (free_frames h) <= 4 + length (free_frames h1))%nat) by exact (uses_length _ _ _ U).
  destruct (IH fuel own' h1) as (h' & own'' & Hr & M' & R1 & R2 & R3 & R4 & R5 & R6 & R7);
    [| | change (alloc.current_heap_offset h1) with (alloc.current_heap_offset h); lia
     | exact Hhi | lia | lia | |].
  - constructor; [done | done | |].
    + rewrite E. split; [split; lia | wrap_lia].
    + rewrite E. exact Hm.
  - intros Hz. apply H0. exact (uses_elem _ _ _ _ U Hz).
  - rewrite Hh, E. intros a Has. specialize (Hhd a Has). lia.
  - exists h', own''. split_and!; try done; [by rewrite R3, Hh | |].
    + intros x Hx. rewrite R6 by lia. cbn. by rewrite (proj2 (Z.leb_gt _ _)) by lia.
    + intros g Hg. exact (uses_elem _ _ _ _ U (R7 g Hg)).
Qed.

(** There is address space and there are frames for [total] bytes at alignment
    [2 ^ k], and the frame at address 0, which the code takes for a failure, is
    not free. *)
Definition room (k total : Z) h : Prop :=
  (0 ∉ free_frames h) /\ alloc.current_heap_offset h + 2 ^ k + total <= 2 ^ 64 - 8192 /\
  (4 * Z.to_nat ((2 ^ k + total) / 4096 + 1) <= length (free_frames h))%nat.

(** What no heap operation changes: the bytes below [hi] (and the kernel's root). *)
Definition same_bytes (hi : Z) h h' : Prop := forall x, x < hi -> alloc.bytes h' x = alloc.bytes h x.

Lemma morecore_ok own root h L k total :
  heap_ok own root h L -> 0 <= k < 64 -> 0 <= total -> room k total h ->
  exists b h' own', alloc.morecore total (2 ^ k) h = Ret (b, h') /\ mapped_ok own' root h' /\
    alloc.current_heap_offset h <= b /\ b mod 2 ^ k = 0 /\ alloc.current_heap_offset h' = b + total /\
    alloc.head h' = alloc.head h /\ alloc.tail h' = alloc.tail h /\ alloc.headers h' = alloc.headers h /\
    alloc.current_heap_offset h' < alloc.current_heap_page_offset h' /\
    same_bytes (alloc.current_heap_offset h) h h'.
Proof.
  intros OK Hk Ht (H0 & Hhi & Hfr). destruct OK as [M Hh _ _ _ Hs Hpg].
  pose proof (spans_le _ _ _ Hs) as Hlo. unfold alloc.heap_base in Hlo.
  assert (Hpow : 1 <= 2 ^ k) by (pose proof (Z.pow_pos_nonneg 2 k); lia).
  destruct (ALIGN_UP_pow2 (alloc.current_heap_offset h) k) as [Hb Hbm]; [lia | lia | lia |].
  set (b := ALIGN_UP (alloc.current_heap_offset h) (2 ^ k)) in *.
  unfold alloc.morecore. fold b. cbn [alloc.current_heap_offset alloc.set_offset].
  rewrite (u64_small (b + total)) by (unfold is_u64; lia).
  set (h1 := alloc.set_offset (b + total) _).
  assert (Hq : (b + total - alloc.current_heap_page_offset h) / 4096 <= (2 ^ k + total) / 4096)
    by (apply Z.div_le_mono; lia).
  set (n := Z.to_nat (Z.max 0 ((b + total - alloc.current_heap_page_offset h) / 4096 + 1))).
  assert (Hn : b + total < alloc.current_heap_page_offset h + 4096 * Z.of_nat n) by (unfold n; wrap_lia).
  destruct (morecore_loop_ok n (alloc.morecore_fuel h1) own root h1)
    as (h' & own' & Hr & M' & R1 & R2 & R3 & R4 & R5 & R6 & _).
  - destruct M as [A B C D]. constructor; done.
  - exact H0.
  - exact Hn.
  - cbn. lia.
  - change (free_frames h1) with (free_frames h). unfold n. lia.
  - unfold alloc.morecore_fuel, h1, n, block_size. cbn. lia.
  - intros a [hd Ha]. cbn in Ha. rewrite Hh in Ha. apply elem_of_list_to_map_2 in Ha.
    destruct (spans_elem _ _ _ _ _ Hs Ha) as (_ & ? & _ & ?). cbn. lia.
  - rewrite Hr. cbn [mbind res_bind]. exists b, h', own'. split_and!; try done; [lia | ..].
    intros x Hx. apply R6. cbn. lia.
Qed.

Lemma add_block_ok h L b sz hi :
  alloc.headers h = list_to_map L -> alloc.head h = first L -> alloc.tail h = default 0 (fst <$> last L) ->
  spans alloc.heap_base L hi -> hi <= b ->
  alloc.add_block b sz h =
    Ret (alloc.set_headers (list_to_map (append L b (alloc.new_header sz)))
           (alloc.set_list (first (append L b (alloc.new_header sz))) b h)).
Proof.
  intros Hh Hhd Htl Hs Hb. rewrite (map_append L b _ _ _ Hs Hb). unfold alloc.add_block.
  cbn [alloc.head alloc.tail alloc.headers alloc.set_headers alloc.set_list]. rewrite Hhd, Htl, Hh.
  pose proof (spans_le _ _ _ Hs) as Hlo. unfold alloc.heap_base in Hlo.
  destruct L as [| [a ha] L _] using rev_ind; [done |]. rewrite append_snoc, last_snoc.
  assert (Hpos : forall c hc, (c, hc) ∈ L ++ [(a, ha)] -> c <> 0 /\ c < b).
  { intros c hc Hc. destruct (spans_elem _ _ _ _ _ Hs Hc) as (? & ? & _ & ?). unfold alloc.heap_base in *. lia. }
  destruct (Hpos a ha) as [Ha Hab]; [set_solver |].
  rewrite !first_app. assert (Hf : match L with [] => a | (c, _) :: _ => c end <> 0).
  { destruct L as [| [c hc] L]; [done |]. apply (Hpos c hc). set_solver. }
  rewrite (proj2 (Z.eqb_neq _ _) Hf). cbn. rewrite Htl, last_snoc. cbn. rewrite (proj2 (Z.eqb_neq _ _) Ha).
  cbn. rewrite lookup_insert_ne by lia.
  rewrite (elem_of_list_to_map_1 _ a ha) by ((eapply spans_nodup, Hs) || set_solver).
  cbn. by rewrite Hhd, first_app.
Qed.

(** Allocating from fresh memory, the common part of [alloc] and [alloc_a]. *)
Lemma fresh_ok own root h L k sz :
  heap_ok own root h L -> 0 <= k < 64 -> 0 <= sz -> room k (sz + alloc.sizeof_header) h ->
  exists b h1 h' own',
    alloc.morecore (u64 (sz + alloc.sizeof_header)) (2 ^ k) h = Ret (b, h1) /\ b <> 0 /\
    alloc.add_block b sz h1 = Ret h' /\ u64 (b + alloc.sizeof_header) = b + alloc.sizeof_header /\
    b mod 2 ^ k = 0 /\ heap_ok own' root h' (append L b (alloc.new_header sz)) /\
    same_bytes (alloc.current_heap_offset h) h h'.
Proof.
  intros OK Hk Hsz Hroom. assert (Hr2 := Hroom). destruct Hr2 as (_ & Hhi & _).
  assert (Hpow : 1 <= 2 ^ k) by (pose proof (Z.pow_pos_nonneg 2 k); lia).
  assert (Hlo := spans_le _ _ _ (ok_spans _ _ _ _ OK)). unfold alloc.sizeof_header, alloc.heap_base in *.
  rewrite (u64_small (sz + 64)) by (unfold is_u64; lia).
  destruct (morecore_ok own root h L k (sz + 64)) as (b & h1 & own' & Hm & M & Hb & Hal & Hoff & R1 & R2 & R3 & R4 & R5);
    [done | done | lia | done |].
  destruct OK as [_ Hh Hl Hhd Htl Hs _].
  rewrite <- R3 in Hh. rewrite <- R1 in Hhd. rewrite <- R2 in Htl.
  assert (Hmp := m_page _ _ _ M).
  exists b, h1. eexists. exists own'. split_and!; [done | lia | by eapply add_block_ok | | done | | done].
  - apply u64_small. unfold is_u64. lia.
  - constructor; cbn; try done.
    + destruct M as [A B C D]. by constructor.
    + by apply linked_append.
    + destruct L as [| [a ha] L _] using rev_ind; [done |].
      rewrite append_snoc. change ([(a, alloc.with_next b ha); (b, alloc.new_header sz)])
        with ([(a, alloc.with_next b ha)] ++ [(b, alloc.new_header sz)]).
      by rewrite (assoc_L (++)), last_snoc.
    + eapply spans_append; [done | done | done | lia].
Qed.

(** Changing the [is_free] field of a block. *)
Lemma mark_ok own root h L i a hd f :
  heap_ok own root h L -> L !! i = Some (a, hd) ->
  heap_ok own root (alloc.set_headers (<[a := alloc.with_free f hd]> (alloc.headers h)) h)
    (<[i := (a, alloc.with_free f hd)]> L).
Proof.
  intros [[A B C D] Hh Hl Hhd Htl Hs Hp] Hi. assert (Hn := spans_nodup _ _ _ Hs).
  constructor; cbn [alloc.headers alloc.head alloc.tail alloc.current_heap_offset alloc.set_headers
                    alloc.current_heap_page_offset].
  - by constructor.
  - rewrite (map_update L i a hd) by done. by rewrite Hh.
  - by apply linked_update.
  - by rewrite (first_update _ _ _ hd) by done.
  - rewrite last_fst, (fst_update _ _ _ hd), <- last_fst by done. done.
  - eapply spans_update; [done | done | done |].
    by apply (spans_elem _ _ _ _ _ Hs (list_elem_of_lookup_2 _ _ _ Hi)).
  - done.
Qed.

Lemma headers_lookup own root h L a hd :
  heap_ok own root h L -> (a, hd) ∈ L ->
  alloc.headers h !! a = Some hd /\ alloc.check_magic hd = true /\
  alloc.heap_base <= a /\ u64 (a + alloc.sizeof_header) = a + alloc.sizeof_header /\
  a + alloc.sizeof_header + alloc.size hd <= alloc.current_heap_offset h.
Proof.
  intros OK Hin. destruct (spans_elem _ _ _ _ _ (ok_spans _ _ _ _ OK) Hin) as (H1 & H2 & H3 & H4).
  assert (Hmp := m_page _ _ _ (ok_mapped _ _ _ _ OK)). assert (Hpg := ok_page _ _ _ _ OK).
  rewrite (ok_headers _ _ _ _ OK).
  split_and!; [apply elem_of_list_to_map_1; [eapply spans_nodup, OK | done] | done | done | | ];
    unfold alloc.sizeof_header, alloc.heap_base in *; [apply u64_small; unfold is_u64; lia | lia].
Qed.

(** [get_free_block]: a block that fits, or null when there is none. *)
Lemma get_free_block_ok own root h L sz :
  heap_ok own root h L ->
  alloc.get_free_block sz h = Ret (match list_find (fits sz) L with Some (_, ah) => ah.1 | None => 0 end).
Proof.
  intros OK. assert (Hs := ok_spans _ _ _ _ OK). unfold alloc.get_free_block.
  rewrite (ok_head _ _ _ _ OK), (ok_headers _ _ _ _ OK), chain_length by (by eapply spans_nodup).
  apply free_block_loop_ok; [lia | apply OK |].
  eapply chain_lookup; [| exact Hs]. unfold alloc.heap_base. lia.
Qed.

Lemma alloc_ok own root h L sz :
  heap_ok own root h L -> 0 < sz -> room 6 (sz + alloc.sizeof_header) h ->
  exists p n h' own' L', alloc.alloc sz h = Ret (p, h') /\ heap_ok own' root h' L' /\
    p <> 0 /\ sz <= n /\ live L' ≡ₚ (p, n) :: live L /\
    same_bytes (alloc.current_heap_offset h) h h'.
Proof.
  intros OK Hsz Hroom. unfold alloc.alloc. rewrite (proj2 (Z.eqb_neq sz 0)) by lia.
  rewrite (get_free_block_ok own root h L) by done. cbn [mbind res_bind].
  destruct (list_find (fits sz) L) as [[i [a hd]] |] eqn:E.
  - apply list_find_Some in E as (Hi & [Hfree Hfit] & _). cbn in Hfree, Hfit |- *.
    destruct (headers_lookup own root h L a hd) as (Hl & Hm & Ha & Hu & _);
      [done | by eapply list_elem_of_lookup_2 |].
    rewrite (proj2 (Z.eqb_neq a 0)) by (unfold alloc.heap_base in Ha; lia). rewrite Hl. cbn. rewrite Hm. cbn.
    rewrite Hu. eexists _, (alloc.size hd), _, own, _. split_and!; [reflexivity | by eapply mark_ok | | done | | done].
    + unfold alloc.sizeof_header, alloc.heap_base in *. lia.
    + by apply live_mark.
  - cbn. destruct (fresh_ok own root h L 6 sz) as (b & h1 & h' & own' & Hm & Hb & Ha & Hu & _ & OK' & Hby);
      [done | lia | lia | done |].
    change (2 ^ 6) with 64 in Hm. rewrite Hm. cbn. rewrite (proj2 (Z.eqb_neq b 0) Hb), Ha. cbn. rewrite Hu.
    eexists _, sz, _, own', _. split_and!; [reflexivity | done | | lia | apply live_append | done].
    rewrite <- Hu. intros Hz. assert (Hin : (b, alloc.new_header sz) ∈ append L b (alloc.new_header sz)).
    { unfold append. destruct (last L) as [[? ?] |]; set_solver. }
    destruct (headers_lookup _ _ _ _ _ _ OK' Hin) as (_ & _ & H1 & H2 & _).
    unfold alloc.sizeof_header, alloc.heap_base in *. lia.
Qed.

(** A live region belongs to a block of the list that is not free. *)
Lemma live_elem L p n :
  (p, n) ∈ live L -> exists i hd, L !! i = Some (p - alloc.sizeof_header, hd) /\ alloc.size hd = n /\ alloc.is_free hd = false.
Proof.
  intros ([a hd] & [= -> ->] & [Hf Hin]%list_elem_of_filter)%list_elem_of_fmap. cbn in *.
  apply list_elem_of_lookup in Hin as [i Hi]. exists i, hd. by rewrite Z.add_simpl_r.
Qed.

Lemma free_ok own root h L p n :
  heap_ok own root h L -> (p, n) ∈ live L ->
  exists h' L', alloc.free p h = Ret h' /\ heap_ok own root h' L' /\ live L ≡ₚ (p, n) :: live L' /\
    alloc.bytes h' = alloc.bytes h.
Proof.
  intros OK Hin. apply live_elem in Hin as (i & hd & Hi & Hn & Hf).
  destruct (headers_lookup own root h L (p - alloc.sizeof_header) hd) as (Hl & Hm & Ha & Hu & _);
    [done | by eapply list_elem_of_lookup_2 |].
  rewrite Z.sub_add in Hu. assert (Hp := u64_range p). rewrite Hu in Hp.
  unfold alloc.free. rewrite (proj2 (Z.eqb_neq p 0)) by (unfold alloc.heap_base, alloc.sizeof_header in Ha; lia).
  rewrite (u64_small (p - alloc.sizeof_header)) by (unfold is_u64, alloc.heap_base, alloc.sizeof_header in *; lia).
  rewrite Hl. cbn. rewrite Hm, Hf. cbn.
  eexists _, _. split_and!; [reflexivity | by eapply mark_ok | | done].
  rewrite (live_free L i _ hd) by done. by rewrite Z.sub_add, Hn.
Qed.

(** Live regions are in order, separated by their headers. *)
Lemma live_sorted lo L hi i j p n q m :
  spans lo L hi -> live L !! i = Some (p, n) -> live L !! j = Some (q, m) -> (i < j)%nat -> p + n + 64 <= q.
Proof.
  revert lo i j. induction L as [| [a hd] L IH]; intros lo i j; [done |]. cbn [spans].
  intros (H1 & H2 & H3 & H4). unfold live. rewrite filter_cons. cbn [snd].
  destruct (decide (alloc.is_free hd = false)); [| by apply (IH _ i j H4)].
  destruct i as [| i], j as [| j]; intros Hi Hj Hij; try lia.
  - cbn in Hi. injection Hi as <- <-. change (live L !! j = Some (q, m)) in Hj.
    apply list_elem_of_lookup_2, live_elem in Hj as (l & hq & Hl & _).
    destruct (spans_elem _ _ _ _ _ H4 (list_elem_of_lookup_2 _ _ _ Hl)) as (Hle & _).
    unfold alloc.sizeof_header in *. lia.
  - eapply (IH _ i j H4); [exact Hi | exact Hj | lia].
Qed.

Lemma live_bounds lo L hi p n : spans lo L hi -> (p, n) ∈ live L -> lo + 64 <= p /\ 0 <= n /\ p + n <= hi.
Proof.
  intros Hs (i & hd & Hi & <- & _)%live_elem.
  destruct (spans_elem _ _ _ _ _ Hs (list_elem_of_lookup_2 _ _ _ Hi)) as (? & ? & _ & ?).
  unfold alloc.sizeof_header in *. lia.
Qed.

Lemma live_nodup lo L hi : spans lo L hi -> NoDup (live L).*1.
Proof.
  intros Hs. apply NoDup_alt. intros i j x Hi Hj. rewrite !list_lookup_fmap in Hi, Hj.
  destruct (live L !! i) as [[p n] |] eqn:Ei; [| done]. destruct (live L !! j) as [[q m] |] eqn:Ej; [| done].
  cbn in Hi, Hj. simplify_eq.
  assert (0 <= n /\ 0 <= m) as [? ?].
  { split; eapply (live_bounds _ _ _ x); eauto using list_elem_of_lookup_2. }
  destruct (Nat.lt_trichotomy i j) as [? | [? | ?]]; [| done |].
  - pose proof (live_sorted _ _ _ _ _ _ _ _ _ Hs Ei Ej). lia.
  - pose proof (live_sorted _ _ _ _ _ _ _ _ _ Hs Ej Ei). lia.
Qed.

(** Two live regions do not overlap. *)
Lemma live_disjoint lo L hi q m R r l :
  spans lo L hi -> live L ≡ₚ (q, m) :: R -> (r, l) ∈ R -> r + l + 64 <= q \/ q + m + 64 <= r.
Proof.
  intros Hs HP Hin. assert (Hne : r <> q).
  { intros ->. assert (Hn := live_nodup _ _ _ Hs). rewrite HP in Hn. apply NoDup_cons in Hn as [Hn _].
    apply Hn. apply list_elem_of_fmap. by exists (q, l). }
  assert (Hq : (q, m) ∈ live L) by (rewrite HP; set_solver).
  assert (Hr : (r, l) ∈ live L) by (rewrite HP; set_solver).
  apply list_elem_of_lookup in Hq as [i Hi], Hr as [j Hj].
  destruct (Nat.lt_trichotomy i j) as [? | [-> | ?]]; [| congruence |].
  - right. by eapply live_sorted.
  - left. by eapply live_sorted.
Qed.

Lemma set_bytes_ok own root h L b : heap_ok own root h L -> heap_ok own root (alloc.set_bytes b h) L.
Proof. intros [[A B C D] ? ? ? ? ? ?]. by constructor. Qed.

Lemma realloc_ok own root h L p n sz R :
  heap_ok own root h L -> live L ≡ₚ (p, n) :: R -> 0 < sz -> room 6 (sz + alloc.sizeof_header) h ->
  exists q m h' own' L', alloc.realloc p sz h = Ret (q, h') /\ heap_ok own' root h' L' /\
    q <> 0 /\ sz <= m /\ live L' ≡ₚ (q, m) :: R /\
    (forall i, 0 <= i < n -> i < sz -> alloc.bytes h' (q + i) = alloc.bytes h (p + i)) /\
    (forall r l i, (r, l) ∈ R -> 0 <= i < l -> alloc.bytes h' (r + i) = alloc.bytes h (r + i)).
Proof.
  intros OK HP Hsz Hroom. assert (Hs := ok_spans _ _ _ _ OK).
  assert (Hin : (p, n) ∈ live L) by (rewrite HP; set_solver).
  destruct (live_bounds _ _ _ _ _ Hs Hin) as (Hp & Hn & Hpn).
  assert (Hin' := Hin). apply live_elem in Hin' as (i & hd & Hi & Hsize & Hfree).
  destruct (headers_lookup own root h L (p - alloc.sizeof_header) hd) as (Hl & Hm & Ha & Hu & _);
    [done | by eapply list_elem_of_lookup_2 |].
  rewrite Z.sub_add in Hu. assert (Hpr := u64_range p). rewrite Hu in Hpr. unfold alloc.heap_base in Hp.
  unfold alloc.realloc. rewrite (proj2 (Z.eqb_neq p 0)), (proj2 (Z.eqb_neq sz 0)) by lia. cbn [andb].
  rewrite (u64_small (p - _)) by (unfold is_u64, alloc.sizeof_header in *; lia).
  rewrite Hl. cbn [access mbind res_bind]. rewrite Hfree, Hm. cbn [negb]. rewrite Hsize.
  destruct (Z.leb_spec sz n) as [Hle | Hgt].
  - eexists p, n, h, own, L. split_and!; [reflexivity | done | lia | done | done | done | done].
  - destruct (alloc_ok own root h L sz) as (q & m & h1 & own1 & L1 & Hal & OK1 & Hq & Hqm & HP1 & Hby);
      [done | done | done |].
    rewrite Hal. cbn [mbind res_bind]. rewrite (proj2 (Z.eqb_neq q 0) Hq).
    assert (Hin1 : (p, n) ∈ live L1) by (rewrite HP1, HP; set_solver).
    assert (Hin1' := Hin1). apply live_elem in Hin1' as (i1 & hd1 & Hi1 & Hsize1 & Hfree1).
    destruct (headers_lookup own1 root h1 L1 (p - alloc.sizeof_header) hd1) as (Hl1 & _);
      [done | by eapply list_elem_of_lookup_2 |].
    rewrite Hl1. cbn [access mbind res_bind]. rewrite Hsize1.
    destruct (free_ok own1 root (alloc.set_bytes (alloc.copy_bytes q p n (alloc.bytes h1)) h1) L1 p n)
      as (h2 & L2 & Hfr & OK2 & HP2 & Hb2); [by apply set_bytes_ok | done |].
    rewrite Hfr. cbn [mbind res_bind]. assert (HR : live L2 ≡ₚ (q, m) :: R).
    { apply (Permutation_cons_inv (a := (p, n))). rewrite <- HP2, HP1, HP. apply Permutation_swap. }
    eexists q, m, h2, own1, L2. split_and!; [reflexivity | done | done | done | done | |].
    + intros j Hj _. rewrite Hb2. cbn. unfold alloc.copy_bytes.
      rewrite (proj2 (Z.leb_le _ _)), (proj2 (Z.ltb_lt _ _)) by lia. cbn.
      replace (p + (q + j - q)) with (p + j) by lia. apply Hby. lia.
    + intros r l j Hr Hj. rewrite Hb2. cbn. unfold alloc.copy_bytes.
      destruct (live_disjoint _ _ _ _ _ _ _ _ (ok_spans _ _ _ _ OK2) HR Hr) as [Hd | Hd].
      * rewrite (proj2 (Z.leb_gt q (r + j))) by lia. cbn. apply Hby.
        assert ((r, l) ∈ live L) as Hrl by (rewrite HP; set_solver).
        destruct (live_bounds _ _ _ _ _ Hs Hrl). lia.
      * rewrite (proj2 (Z.ltb_ge (r + j) (q + n))) by lia. rewrite andb_false_r. apply Hby.
        assert ((r, l) ∈ live L) as Hrl by (rewrite HP; set_solver).
        destruct (live_bounds _ _ _ _ _ Hs Hrl). lia.
Qed.

(** [init] on a machine with sixteen free frames. *)
Lemma heap_init_loop_ok n i own root h :
  mapped_ok own root h -> alloc.current_heap_page_offset h + 4096 * Z.of_nat n <= 2 ^ 64 - 4096 ->
  (4 * n <= length (free_frames h))%nat ->
  exists h' own', for_loop n i (fun _ h =>
    '(block, fr) ← fa_alloc (paging.frames (alloc.kern h));
    k ← paging.map_page (alloc.kernel_info h) block (alloc.current_heap_page_offset h) alloc.heap_flags normal
          (paging.mk fr (paging.mem (alloc.kern h)));
    mret (alloc.set_page_offset (u64 (alloc.current_heap_page_offset h + block_size)) (alloc.set_kern k h))) h
    = Ret h' /\ mapped_ok own' root h' /\ uses (4 * n) (alloc.kern h) (alloc.kern h') /\
    alloc.head h' = alloc.head h /\ alloc.tail h' = alloc.tail h /\ alloc.headers h' = alloc.headers h /\
    alloc.current_heap_offset h' = alloc.current_heap_offset h /\
    alloc.current_heap_page_offset h' = alloc.current_heap_page_offset h + 4096 * Z.of_nat n.
Proof.
  revert i own h. induction n as [| n IH]; intros i own h M Hhi Hfr; cbn [for_loop].
  - exists h, own. split_and!; try done; [by exists [] | lia].
  - destruct (fa_alloc_success (paging.frames (alloc.kern h))) as (f & fr & Ha);
      [apply M | intros Hn; unfold free_frames in Hfr; rewrite Hn in Hfr; cbn in Hfr; lia |].
    rewrite Ha. cbn [mbind res_bind].
    destruct (extend_ok own root h f fr) as (k' & own' & Hk & OK' & U & Hm); [done | lia | lia | done |].
    rewrite Hk. cbn [mbind res_bind]. destruct M as [_ Hi [Hp Hal] _].
    assert (Hpo : u64 (alloc.current_heap_page_offset h + block_size) = alloc.current_heap_page_offset h + 4096)
      by (unfold alloc.heap_base in *; wrap_lia).
    rewrite Hpo. set (h1 := alloc.set_page_offset _ _).
    assert (Hu := uses_length _ _ _ U). unfold free_frames in Hfr.
    edestruct (IH (i + 1) own' h1) as (h' & own'' & Hr & M' & U' & R1 & R2 & R3 & R4 & R5).
    + constructor; cbn; [done | done | split; [lia | wrap_lia] | done].
    + cbn. lia.
    + unfold free_frames. cbn. lia.
    + exists h', own''. split_and!; try done; [| rewrite R5; cbn; lia].
      replace (4 * Datatypes.S n)%nat with (4 + 4 * n)%nat by lia. exact (uses_trans _ _ _ _ _ U U').
Qed.

Lemma init_ok own root (k : paging.kernel S) :
  space_ok own root k -> (16 <= length (fa_pages (paging.frames k)))%nat ->
  exists h own', alloc.init (alloc.boot k (to_virt root)) = Ret h /\ heap_ok own' root h [] /\
    alloc.current_heap_offset h = alloc.heap_base /\
    alloc.current_heap_page_offset h = alloc.heap_base + 16384 /\ uses 16 k (alloc.kern h).
Proof.
  intros OK Hfr.
  destruct (heap_init_loop_ok 4 0 own root (alloc.boot k (to_virt root)))
    as (h & own' & Hr & M & U & R1 & R2 & R3 & R4 & R5).
  - constructor; cbn; [done | done | by_compute | lia].
  - by_compute.
  - unfold free_frames. cbn. lia.
  - exists h, own'. split_and!; [exact Hr | | done | done | done]. constructor; try done.
    + rewrite R4. cbn. lia.
    + rewrite R4, R5. cbn. unfold alloc.heap_base. lia.
Qed.
End heap_lemmas.

(** ** Theorems *)

(** A machine with forty free frames, for the witnesses. *)
Definition heap_machine : paging.kernel pmm.state :=
  paging.mk (pmm.mk ([pmm.mk_entry 0x100000 40] ++ replicate 6 (pmm.mk_entry 0 0)) 1) (fun _ => 0).

Lemma heap_machine_ok : space_ok own_example root_example heap_machine.
Proof.
  constructor; [constructor | ..].
  - unfold own_example. intros f n p [<- _]%lookup_singleton_Some. by_compute.
  - done.
  - intros a. apply is_u64_0.
  - done.
  - change (pmm.wf (paging.frames heap_machine)). by_compute.
  - by_compute.
  - by_compute.
Qed.

(** Heaps of that machine: after [init], and with one block of 100 bytes. *)
Lemma heap_example :
  exists h own, heap_ok own root_example h [] /\
    alloc.current_heap_offset h = alloc.heap_base /\
    alloc.current_heap_page_offset h = alloc.heap_base + 16384 /\
    forall k total, 0 <= k <= 12 -> 0 <= total <= 8192 -> room k total h.
Proof.
  destruct (init_ok own_example root_example heap_machine) as (h & own & _ & OK & Ho & Hp & U);
    [apply heap_machine_ok | by_compute |].
  exists h, own. split_and!; [done | done | done |]. intros k total Hk Ht.
  assert (H2 : 1 <= 2 ^ k <= 4096).
  { split; [pose proof (Z.pow_pos_nonneg 2 k); lia |]. change 4096 with (2 ^ 12). apply Z.pow_le_mono_r; lia. }
  split_and!.
  - intros H0. apply (uses_elem _ _ _ _ U) in H0.
    assert (Hno : 0 ∉ fa_pages (paging.frames heap_machine)) by by_compute. done.
  - rewrite Ho. unfold alloc.heap_base. lia.
  - assert (Hl := uses_length _ _ _ U). unfold free_frames.
    replace (length (fa_pages (paging.frames heap_machine))) with 40%nat in Hl by (vm_compute; reflexivity).
    assert ((2 ^ k + total) / 4096 <= 3) by (apply Z.div_le_upper_bound; lia). lia.
Qed.

Definition block_example : Z * alloc.header := (alloc.heap_base, alloc.new_header 100).

Lemma heap_example_block :
  exists h own, heap_ok own root_example h [block_example] /\
    forall k total, 0 <= k <= 12 -> 0 <= total <= 8192 -> room k total h.
Proof.
  destruct heap_example as (h & own & [[A B C D] _ _ _ _ _ _] & Ho & Hp & Hr).
  exists (alloc.set_offset (alloc.heap_base + 164)
            (alloc.set_headers {[ alloc.heap_base := alloc.new_header 100 ]}
               (alloc.set_list alloc.heap_base alloc.heap_base h))), own. split.
  - constructor; try done. cbn. rewrite Hp. lia.
  - intros k total Hk Ht. destruct (Hr k total Hk Ht) as (R1 & R2 & R3). split_and!; [exact R1 | | exact R3].
    assert (2 ^ k <= 4096) by (change 4096 with (2 ^ 12); apply Z.pow_le_mono_r; lia).
    cbn. unfold alloc.heap_base. lia.
Qed.

(** ** Clients *)

(** What the kernel does with its heap: it asks for memory, gives regions back,
    resizes them, and writes bytes to them.  A client knows the address of each of its
    regions and the bytes it has written there, [None] for the others. *)
Inductive action := Malloc (sz : Z) | Release (i : nat) | Resize (i : nat) (sz : Z) | Write (i off : nat) (b : Z).

Local Notation regions := (list (Z * list (option Z))).

Section clients.
Context {S : Type} `{FA : FrameAllocatorLaws S}.

#[global] Instance room_dec k total (h : alloc.heap S) : Decision (room k total h).
Proof. unfold room. apply _. Defined.

(** The client asks for at least a byte, and only when there is room; it uses its own
    regions, within their bounds. *)
Definition permitted (a : action) (h : alloc.heap S) (g : regions) : bool :=
  let enough sz := (0 <? sz) && bool_decide (room 6 (sz + alloc.sizeof_header) h) in
  match a with
  | Malloc sz => enough sz
  | Release i => (i <? length g)%nat
  | Resize i sz => (i <? length g)%nat && enough sz
  | Write i off _ => (off <? length (default [] (snd <$> g !! i)))%nat
  end.

Definition perform (a : action) (h : alloc.heap S) (g : regions) : res (alloc.heap S * regions) :=
  match a with
  | Malloc sz => '(p, h) ← alloc.alloc sz h; mret (h, (p, replicate (Z.to_nat sz) None) :: g)
  | Release i =>
      h ← alloc.free (default 0 (fst <$> g !! i)) h;
      mret (h, delete i g)
  | Resize i sz =>
      '(p, h) ← alloc.realloc (default 0 (fst <$> g !! i)) sz h;
      mret (h, <[i := (p, resize (Z.to_nat sz) None (default [] (snd <$> g !! i)))]> g)
  | Write i off b =>
      match g !! i with
      | Some (p, bs) =>
          mret (alloc.set_bytes (fun x => if x =? p + Z.of_nat off then b else alloc.bytes h x) h, <[i := (p, <[off := Some b]> bs)]> g)
      | None => mret (h, g)
      end
  end.

(** A sequence of them. *)
Fixpoint perform_all (l : list action) (h : alloc.heap S) (g : regions) : res (alloc.heap S * regions) :=
  match l with
  | [] => mret (h, g)
  | a :: l =>
      _ ← ASSERT (permitted a h g) "permitted";
      '(h, g) ← perform a h g;
      perform_all l h g
  end.

(** The states that are reached from the heap that [init] makes. *)
Inductive session (k : paging.kernel S) (root : Z) : alloc.heap S -> regions -> Prop :=
| session_start h : alloc.init (alloc.boot k (to_virt root)) = Ret h -> session k root h []
| session_next a h g h' g' :
    session k root h g -> permitted a h g = true -> perform a h g = Ret (h', g') -> session k root h' g'.

(** A region of the client lies in a live region of the heap, and has its bytes. *)
Definition holds (h : alloc.heap S) (e : Z * list (option Z)) : Prop :=
  forall (j : nat) b, e.2 !! j = Some (Some b) -> alloc.bytes h (e.1 + Z.of_nat j) = b.

Record session_ok (root : Z) (h : alloc.heap S) (g : regions) : Prop := {
  so_heap : exists own L l, heap_ok own root h L /\ live L ≡ₚ l /\
    Forall2 (fun e r => e.1 = r.1 /\ Z.of_nat (length e.2) <= r.2) g l;
  so_bytes : Forall (holds h) g }.

Lemma insert_Permutation {A} (l : list A) i x : (i < length l)%nat -> <[i := x]> l ≡ₚ x :: delete i l.
Proof.
  intros Hi. rewrite (delete_Permutation (<[i := x]> l) i x) by by apply list_lookup_insert_eq. f_equiv.
  revert i Hi. induction l as [| y l IH]; intros [| i] Hi; cbn in *; [lia | lia | done |]. f_equiv. apply IH. lia.
Qed.

Implicit Types (g : regions) (h : alloc.heap S).

(** The region of an entry, and the regions of the others. *)
Lemma session_entry own root h L l g i e :
  heap_ok own root h L -> live L ≡ₚ l -> Forall2 (fun e r => e.1 = r.1 /\ Z.of_nat (length e.2) <= r.2) g l -> g !! i = Some e ->
  exists n, Z.of_nat (length e.2) <= n /\ l !! i = Some (e.1, n) /\ live L ≡ₚ (e.1, n) :: delete i l /\
    alloc.heap_base + 64 <= e.1 /\ e.1 + n <= alloc.current_heap_offset h.
Proof.
  intros OK HP HF Hi. destruct (Forall2_lookup_l _ _ _ _ _ HF Hi) as ([q n] & Hl & Hq & Hn). cbn in Hq, Hn. subst q.
  exists n. assert (HP' : live L ≡ₚ (e.1, n) :: delete i l) by (by rewrite HP; apply delete_Permutation).
  assert (Hin : (e.1, n) ∈ live L) by (rewrite HP'; set_solver).
  destruct (live_bounds _ _ _ _ _ (ok_spans _ _ _ _ OK) Hin) as (? & ? & ?). by split_and!.
Qed.

(** Bytes that stay, for the regions of the client. *)
Lemma holds_kept h h' e n : holds h e -> Z.of_nat (length e.2) <= n ->
  (forall j, 0 <= j < n -> alloc.bytes h' (e.1 + j) = alloc.bytes h (e.1 + j)) -> holds h' e.
Proof. intros H Hn Hk j b Hj. rewrite Hk; [by apply H | apply lookup_lt_Some in Hj; lia]. Qed.

Lemma holds_fresh h p n : holds h (p, replicate n None).
Proof. intros j b Hj. apply lookup_replicate in Hj as [Hj _]. done. Qed.

Lemma malloc_ok root h g sz :
  session_ok root h g -> 0 < sz -> room 6 (sz + alloc.sizeof_header) h ->
  exists p h', alloc.alloc sz h = Ret (p, h') /\ session_ok root h' ((p, replicate (Z.to_nat sz) None) :: g).
Proof.
  intros [(own & L & l & OK & HP & HF) HB] Hsz Hroom.
  destruct (alloc_ok own root h L sz OK Hsz Hroom) as (p & n & h' & own' & L' & E & OK' & Hp & Hn & HP' & Hby).
  exists p, h'. split; [done |]. constructor.
  - exists own', L', ((p, n) :: l). split_and!; [done | by rewrite HP', HP | constructor; [| done]]. cbn. rewrite length_replicate. lia.
  - constructor; [apply holds_fresh |]. apply Forall_lookup. intros i e Hi.
    destruct (session_entry own root h L l g i e OK HP HF Hi) as (m & Hm & _ & _ & _ & Hb).
    eapply holds_kept; [by eapply Forall_lookup_1 | exact Hm |]. intros j Hj. apply Hby. lia.
Qed.

Lemma release_ok root h g i e :
  session_ok root h g -> g !! i = Some e -> exists h', alloc.free e.1 h = Ret h' /\ session_ok root h' (delete i g).
Proof.
  intros [(own & L & l & OK & HP & HF) HB] Hi. destruct (session_entry own root h L l g i e OK HP HF Hi) as (n & _ & Hl & HP1 & _).
  destruct (free_ok own root h L e.1 n OK) as (h' & L' & E & OK' & HP' & Hby); [rewrite HP1; set_solver |]. exists h'. split; [done |]. constructor.
  - exists own, L', (delete i l). split_and!; [done | | by apply Forall2_delete].
    apply (Permutation_cons_inv (a := (e.1, n))). by rewrite <- HP', HP1.
  - apply Forall_delete. eapply Forall_impl; [exact HB |]. intros x Hx j b Hj. rewrite Hby. by apply Hx.
Qed.

(** Two entries of the client do not overlap. *)
Lemma entries_disjoint root h g i j e e' :
  session_ok root h g -> g !! i = Some e -> g !! j = Some e' -> i <> j ->
  exists n m, Z.of_nat (length e.2) <= n /\ Z.of_nat (length e'.2) <= m /\ (e.1 + n + 64 <= e'.1 \/ e'.1 + m + 64 <= e.1).
Proof.
  intros [(own & L & l & OK & HP & HF) _] Hi Hj Hne. destruct (session_entry own root h L l g i e OK HP HF Hi) as (n & Hn & Hl & HP1 & _).
  destruct (session_entry own root h L l g j e' OK HP HF Hj) as (m & Hm & Hl' & _). exists n, m. split; [done |]. split; [done |].
  assert (Hin : (e'.1, m) ∈ delete i l).
  { destruct (decide (j < i)%nat); apply list_elem_of_lookup; [exists j; by rewrite list_lookup_delete_lt | exists (pred j)].
    rewrite list_lookup_delete_ge by lia. by replace (Datatypes.S (pred j)) with j by lia. }
  destruct (live_disjoint _ _ _ _ _ _ _ _ (ok_spans _ _ _ _ OK) HP1 Hin); lia.
Qed.

Lemma resize_ok root h g i e sz :
  session_ok root h g -> g !! i = Some e -> 0 < sz -> room 6 (sz + alloc.sizeof_header) h ->
  exists p h', alloc.realloc e.1 sz h = Ret (p, h') /\ session_ok root h' (<[i := (p, resize (Z.to_nat sz) None e.2)]> g).
Proof.
  intros [(own & L & l & OK & HP & HF) HB] Hi Hsz Hroom. destruct (session_entry own root h L l g i e OK HP HF Hi) as (n & Hn & Hl & HP1 & _).
  destruct (realloc_ok own root h L e.1 n sz _ OK HP1 Hsz Hroom) as (q & m & h' & own' & L' & E & OK' & Hq & Hm & HP' & Hby & Hother).
  exists q, h'. split; [done |]. constructor.
  - exists own', L', (<[i := (q, m)]> l). split_and!; [done | | apply Forall2_insert; [done |]; cbn; rewrite length_resize; lia].
    rewrite HP', insert_Permutation; [done |]. by eapply lookup_lt_Some.
  - apply Forall_lookup. intros k x Hk. apply list_lookup_insert_Some in Hk as [(<- & <- & _) | [Hne Hk]].
    + intros j b Hj. cbn in *. destruct (decide (j < length e.2)%nat) as [Hjl | Hjl].
      * assert (j < Z.to_nat sz)%nat by (apply lookup_lt_Some in Hj; by rewrite length_resize in Hj).
        rewrite lookup_resize in Hj by lia. rewrite Hby by lia. by apply (Forall_lookup_1 _ _ _ _ HB Hi).
      * apply lookup_lt_Some in Hj as Hj'. rewrite length_resize in Hj'. by rewrite lookup_resize_new in Hj by lia.
    + destruct (session_entry own root h L l g k x OK HP HF Hk) as (n' & Hn' & Hl' & _).
      eapply holds_kept; [by eapply Forall_lookup_1 | exact Hn' |]. intros j Hj. apply (Hother x.1 n'); [| lia].
      destruct (decide (k < i)%nat); apply list_elem_of_lookup; [exists k; by rewrite list_lookup_delete_lt | exists (pred k)].
      rewrite list_lookup_delete_ge by lia. by replace (Datatypes.S (pred k)) with k by lia.
Qed.

Lemma client_write_ok root h g i off b p bs :
  session_ok root h g -> g !! i = Some (p, bs) -> (off < length bs)%nat ->
  session_ok root (alloc.set_bytes (fun x => if x =? p + Z.of_nat off then b else alloc.bytes h x) h) (<[i := (p, <[off := Some b]> bs)]> g).
Proof.
  intros SO Hi Ho. assert (SO' := SO). destruct SO' as [(own & L & l & OK & HP & HF) HB]. constructor.
  - exists own, L, l. split_and!; [by apply set_bytes_ok | done |].
    destruct (session_entry own root h L l g i (p, bs) OK HP HF Hi) as (n & Hn & Hl & _).
    rewrite <- (list_insert_id l i (p, n)) by done. apply Forall2_insert; [done |]. cbn in *. by rewrite length_insert.
  - apply Forall_lookup. intros k x Hk. apply list_lookup_insert_Some in Hk as [(<- & <- & _) | [Hne Hk]]; intros j c Hj; cbn in *.
    + apply list_lookup_insert_Some in Hj as [(<- & [= ->] & _) | [Hne Hj]]; [by rewrite Z.eqb_refl |].
      rewrite (proj2 (Z.eqb_neq _ _)) by lia. by apply (Forall_lookup_1 _ _ _ _ HB Hi).
    + destruct (entries_disjoint root h g i k _ _ SO Hi Hk Hne) as (n & m & Hn & Hm & Hd). cbn in *. apply lookup_lt_Some in Hj as Hj'.
      rewrite (proj2 (Z.eqb_neq _ _)) by lia. by apply (Forall_lookup_1 _ _ _ _ HB Hk).
Qed.

(** Every action that is permitted succeeds. *)
Lemma perform_ok root a h g :
  session_ok root h g -> permitted a h g = true -> exists h' g', perform a h g = Ret (h', g') /\ session_ok root h' g'.
Proof.
  intros SO Hp. destruct a as [sz | i | i sz | i off b]; cbn [permitted perform] in Hp |- *.
  - apply andb_prop in Hp as [Hsz%Z.ltb_lt Hroom%bool_decide_eq_true]. destruct (malloc_ok root h g sz) as (p & h' & -> & SO'); [done.. |]. eauto.
  - apply Nat.ltb_lt in Hp. destruct (lookup_lt_is_Some_2 _ _ Hp) as [e He]. rewrite He. cbn [fmap option_fmap option_map default from_option id].
    destruct (release_ok root h g i e) as (h' & -> & SO'); [done.. |]. cbn [mbind res_bind]. eauto.
  - apply andb_prop in Hp as [Hp [Hsz%Z.ltb_lt Hroom%bool_decide_eq_true]%andb_prop]. apply Nat.ltb_lt in Hp. destruct (lookup_lt_is_Some_2 _ _ Hp) as [e He].
    rewrite He. cbn [fmap option_fmap option_map default from_option id]. destruct (resize_ok root h g i e sz) as (q & h' & -> & SO'); [done.. |]. cbn [mbind res_bind]. eauto.
  - apply Nat.ltb_lt in Hp. destruct (g !! i) as [[p bs] |] eqn:He; cbn in Hp; [| by apply Nat.nlt_0_r in Hp]. eexists _, _. split; [reflexivity |]. by apply client_write_ok.
Qed.

Lemma session_all k root l h g h' g' : session k root h g -> perform_all l h g = Ret (h', g') -> session k root h' g'.
Proof.
  revert h g. induction l as [| a l IH]; intros h g HS E; cbn in E; [by injection E as <- <- |].
  destruct (permitted a h g) eqn:Ep; [| done]. destruct (perform a h g) as [[h1 g1] | | |] eqn:E1; [| done..].
  eapply IH; [by eapply session_next | exact E].
Qed.

Lemma session_invariant k own root h g :
  space_ok own root k -> (16 <= length (fa_pages (paging.frames k)))%nat -> session k root h g -> session_ok root h g.
Proof.
  intros OK Hfr. induction 1 as [h Hi | a h g h' g' _ IH Hp E].
  - destruct (init_ok own root k OK Hfr) as (h' & own' & E & OK' & _). assert (h' = h) as -> by congruence.
    constructor; [| done]. by exists own', [], [].
  - destruct (perform_ok root a h g IH Hp) as (h1 & g1 & E1 & H). rewrite E in E1. by injection E1 as -> ->.
Qed.
End clients.

(** C27: A session of the kernel with its heap, from its set-up on: any sequence of
    allocations, releases, resizes and writes to the regions handed out.  As long as
    there is room, every action succeeds.  At every time the regions in use are mapped
    and pairwise disjoint, with room for a header in front of each, and every byte
    that was written is still there, across all the other actions and across the
    resizes that move its region. *)
Theorem heap_session {S} `{FA : FrameAllocatorLaws S} (k : paging.kernel S) (own : gmap Z (nat * Z)) (root : Z)
    (h : alloc.heap S) (g : regions) :
  space_ok own root k -> (16 <= length (fa_pages (paging.frames k)))%nat -> session k root h g ->
  (forall a, permitted a h g = true -> exists h' g', perform a h g = Ret (h', g')) /\
  (forall i p bs, g !! i = Some (p, bs) ->
     (forall (j : nat) b, bs !! j = Some (Some b) -> alloc.bytes h (p + Z.of_nat j) = b) /\
     (forall v, p - alloc.sizeof_header <= v < p + Z.of_nat (length bs) -> is_Some (translate (paging.mem (alloc.kern h)) root v)) /\
     (forall i' q bs', g !! i' = Some (q, bs') -> i' <> i ->
        p + Z.of_nat (length bs) + alloc.sizeof_header <= q \/ q + Z.of_nat (length bs') + alloc.sizeof_header <= p)).
Proof.
  intros OK Hfr HS. assert (SO := session_invariant k own root h g OK Hfr HS). split.
  { intros a Ha. destruct (perform_ok root a h g SO Ha) as (h' & g' & E & _). eauto. }
  intros i p bs Hi. split_and!.
  - exact (Forall_lookup_1 _ _ _ _ (so_bytes _ _ _ SO) Hi).
  - intros v Hv. destruct (so_heap _ _ _ SO) as (own' & L & l & OK' & HP & HF).
    destruct (session_entry own' root h L l g i _ OK' HP HF Hi) as (n & Hn & _ & _ & Hb & Ht). cbn in *. unfold alloc.sizeof_header in Hv.
    apply (m_mapped _ _ _ (ok_mapped _ _ _ _ OK')). pose proof (ok_page _ _ _ _ OK'). lia.
  - intros i' q bs' Hi' Hne. destruct (entries_disjoint root h g i i' _ _ SO Hi Hi') as (n & m & Hn & Hm & Hd); [done |]. cbn in *. unfold alloc.sizeof_header. lia.
Qed.

(** Two regions; the first is written to and has to move when it grows; the other is
    given back, and its memory is used again. *)
Definition actions_example : list action :=
  [Malloc 100; Write 0 5 42; Malloc 5000; Write 0 4999 7; Resize 1 300; Malloc 80; Release 1; Malloc 4000; Write 0 0 9].
Definition session_example : res (alloc.heap pmm.state * regions) :=
  h ← alloc.init (alloc.boot heap_machine (to_virt root_example));
  perform_all actions_example h [].

Lemma heap_session_witness :
  exists h g, session_example = Ret (h, g) /\
    (exists p bs, g !! 2%nat = Some (p, bs) /\ length bs = 300%nat /\ alloc.bytes h (p + 5) = 42 /\
       is_Some (translate (paging.mem (alloc.kern h)) root_example (p + 299))) /\
    (exists h' g', perform (Release 0) h g = Ret (h', g')).
Proof.
  assert (Hg : match session_example with
               | Ret (_, g) => (fun e => (length e.2, e.2 !! 5%nat)) <$> g = [(4000%nat, Some None); (80%nat, Some None); (300%nat, Some (Some 42))]
               | _ => False
               end) by (vm_compute; reflexivity).
  destruct session_example as [[h g] | | |] eqn:E; [| destruct Hg..]. exists h, g. split; [reflexivity |].
  assert (Hl : length g = 3%nat) by (rewrite <- (length_fmap (fun e => (length e.2, e.2 !! 5%nat))), Hg; reflexivity).
  assert (Hp := f_equal (fun l => l !! 2%nat) Hg). cbn beta in Hp. rewrite list_lookup_fmap in Hp.
  destruct (g !! 2%nat) as [[p bs] |] eqn:Hp2; [| done]. injection Hp as Hbs H5. cbn in Hbs, H5.
  destruct (heap_session heap_machine own_example root_example h g heap_machine_ok) as [Hgo Hr].
  - by_compute.
  - unfold session_example in E. destruct (alloc.init _) as [h0 | | |] eqn:E0; [| done..]. cbn [mbind res_bind] in E.
    eapply session_all; [by apply session_start | exact E].
  - split.
    + destruct (Hr 2%nat p bs Hp2) as (Hb & Hm & _). exists p, bs. split_and!; [done | done | by apply (Hb 5%nat) | apply Hm; unfold alloc.sizeof_header; lia].
    + apply Hgo. cbn [permitted]. by rewrite Hl.
Defined.

(** C4: [alloc] returns a new live region of at least the requested size (a
    reused block, or fresh memory that it maps), keeps every other region with
    its contents, and keeps the heap well-formed; given address space and free
    frames it always succeeds. *)
Theorem alloc_refines {S} `{FA : FrameAllocatorLaws S} (own : gmap Z (nat * Z)) (root : Z)
    (h : alloc.heap S) (L : list (Z * alloc.header)) (sz : Z) :
  heap_ok own root h L -> 0 < sz -> room 6 (sz + alloc.sizeof_header) h ->
  exists p n h' own' L', alloc.alloc sz h = Ret (p, h') /\ heap_ok own' root h' L' /\
    p <> 0 /\ sz <= n /\ live L' ≡ₚ (p, n) :: live L /\
    (forall q m i, (q, m) ∈ live L -> 0 <= i < m -> alloc.bytes h' (q + i) = alloc.bytes h (q + i)).
Proof.
  intros OK Hsz Hr. destruct (alloc_ok own root h L sz OK Hsz Hr) as (p & n & h' & own' & L' & H & OK' & Hp & Hn & HP & Hb).
  exists p, n, h', own', L'. split_and!; try done. intros q m i Hin Hi. apply Hb.
  destruct (live_bounds _ _ _ _ _ (ok_spans _ _ _ _ OK) Hin). lia.
Qed.

Lemma alloc_refines_witness :
  exists h own, heap_ok own root_example h [] /\
  exists p n h' own' L', alloc.alloc 5000 h = Ret (p, h') /\ heap_ok own' root_example h' L' /\
    p <> 0 /\ 5000 <= n /\ live L' ≡ₚ (p, n) :: live [] /\
    (forall q m i, (q, m) ∈ live [] -> 0 <= i < m -> alloc.bytes h' (q + i) = alloc.bytes h (q + i)).
Proof.
  destruct heap_example as (h & own & OK & _ & _ & Hr). exists h, own. split; [exact OK |].
  apply (alloc_refines own); [exact OK | lia | apply Hr; unfold alloc.sizeof_header; lia].
Defined.

(** [free] of a live region removes exactly that region from the live ones;
    freeing the same pointer again, as well as freeing null, changes nothing. *)
Theorem free_refines {S} `{FA : FrameAllocatorLaws S} (own : gmap Z (nat * Z)) (root : Z)
    (h : alloc.heap S) (L : list (Z * alloc.header)) (p n : Z) :
  heap_ok own root h L -> (p, n) ∈ live L ->
  exists h' L', alloc.free p h = Ret h' /\ heap_ok own root h' L' /\ live L ≡ₚ (p, n) :: live L' /\
    alloc.bytes h' = alloc.bytes h /\ alloc.free p h' = Ret h' /\ alloc.free 0 h' = Ret h'.
Proof.
  intros OK Hin. destruct (free_ok own root h L p n OK Hin) as (h' & L' & H & OK' & HP & Hb).
  exists h', L'. split_and!; try done. unfold alloc.free in H |- *. destruct (p =? 0); [done |].
  destruct (alloc.headers h !! _) as [hd |] eqn:E; [| done]. cbn [access mbind res_bind] in H.
  destruct (alloc.check_magic hd) eqn:Em; cbn [negb] in H.
  - destruct (alloc.is_free hd) eqn:Ef; inv_res; [rewrite E; cbn; by rewrite Em, Ef |].
    cbn. rewrite lookup_insert_eq. cbn. unfold alloc.check_magic in *. cbn. by rewrite Em.
  - inv_res. rewrite E. cbn. by rewrite Em.
Qed.

Lemma free_refines_witness :
  exists h own, heap_ok own root_example h [block_example] /\
  exists h' L', alloc.free (alloc.heap_base + 64) h = Ret h' /\ heap_ok own root_example h' L' /\
    live [block_example] ≡ₚ (alloc.heap_base + 64, 100) :: live L' /\
    alloc.bytes h' = alloc.bytes h /\ alloc.free (alloc.heap_base + 64) h' = Ret h' /\ alloc.free 0 h' = Ret h'.
Proof.
  destruct heap_example_block as (h & own & OK & _). exists h, own. split; [exact OK |].
  apply (free_refines own root_example h [block_example] (alloc.heap_base + 64) 100); [exact OK | by_compute].
Defined.

(** [realloc] of a live region returns a live region of the new size whose
    first bytes are those of the old one, and leaves every other region and its
    contents alone. *)
Theorem realloc_refines {S} `{FA : FrameAllocatorLaws S} (own : gmap Z (nat * Z)) (root : Z)
    (h : alloc.heap S) (L : list (Z * alloc.header)) (p n sz : Z) (R : list (Z * Z)) :
  heap_ok own root h L -> live L ≡ₚ (p, n) :: R -> 0 < sz -> room 6 (sz + alloc.sizeof_header) h ->
  exists q m h' own' L', alloc.realloc p sz h = Ret (q, h') /\ heap_ok own' root h' L' /\
    q <> 0 /\ sz <= m /\ live L' ≡ₚ (q, m) :: R /\
    (forall i, 0 <= i < n -> i < sz -> alloc.bytes h' (q + i) = alloc.bytes h (p + i)) /\
    (forall r l i, (r, l) ∈ R -> 0 <= i < l -> alloc.bytes h' (r + i) = alloc.bytes h (r + i)).
Proof. apply realloc_ok. Qed.

Lemma realloc_refines_witness :
  exists h own, heap_ok own root_example h [block_example] /\
  exists q m h' own' L', alloc.realloc (alloc.heap_base + 64) 200 h = Ret (q, h') /\
    heap_ok own' root_example h' L' /\ q <> 0 /\ 200 <= m /\ live L' ≡ₚ [(q, m)] /\
    (forall i, 0 <= i < 100 -> i < 200 ->
       alloc.bytes h' (q + i) = alloc.bytes h (alloc.heap_base + 64 + i)) /\
    (forall r l i, (r, l) ∈ [] -> 0 <= i < l -> alloc.bytes h' (r + i) = alloc.bytes h (r + i)).
Proof.
  destruct heap_example_block as (h & own & OK & Hr). exists h, own. split; [exact OK |].
  apply (realloc_refines own root_example h [block_example] (alloc.heap_base + 64) 100 200 []);
    [exact OK | reflexivity | lia | apply Hr; unfold alloc.sizeof_header; lia].
Defined.

(** [alloc_a] aligns the header instead of the memory it returns: for every
    alignment above 64 the pointer is 64 past a multiple, never a multiple. *)
Theorem alloc_a_misaligned {S} `{FA : FrameAllocatorLaws S} (own : gmap Z (nat * Z)) (root : Z)
    (h : alloc.heap S) (L : list (Z * alloc.header)) (sz k : Z) :
  heap_ok own root h L -> 0 <= sz -> 6 < k < 64 -> room k (sz + alloc.sizeof_header) h ->
  exists p h' own' L', alloc.alloc_a sz (2 ^ k) h = Ret (p, h') /\ heap_ok own' root h' L' /\
    live L' ≡ₚ (p, sz) :: live L /\ p mod 2 ^ k = 64.
Proof.
  intros OK Hsz Hk Hr.
  destruct (fresh_ok own root h L k sz) as (b & h1 & h' & own' & Hm & Hb & Ha & Hu & Hal & OK' & _);
    [done | lia | done | done |].
  unfold alloc.alloc_a. rewrite Hm. cbn [mbind res_bind]. rewrite (proj2 (Z.eqb_neq b 0) Hb), Ha. cbn [mbind res_bind].
  rewrite Hu. eexists _, h', own', _. split_and!; [reflexivity | done | apply live_append |].
  assert (64 < 2 ^ k) by (change 64 with (2 ^ 6); apply Z.pow_lt_mono_r; lia).
  unfold alloc.sizeof_header. rewrite <- Zplus_mod_idemp_l, Hal, Z.add_0_l. apply Z.mod_small. lia.
Qed.

Lemma alloc_a_misaligned_witness :
  exists h own, heap_ok own root_example h [] /\
  exists p h' own' L', alloc.alloc_a 100 (2 ^ 12) h = Ret (p, h') /\ heap_ok own' root_example h' L' /\
    live L' ≡ₚ (p, 100) :: live [] /\ p mod 2 ^ 12 = 64.
Proof.
  destruct heap_example as (h & own & OK & _ & _ & Hr). exists h, own. split; [exact OK |].
  apply (alloc_a_misaligned own); [exact OK | lia | lia | apply Hr; unfold alloc.sizeof_header; lia].
Defined.

(** A request close to 2^64 bytes wraps the heap offset around: [alloc] returns a
    block although it mapped nothing, and the next allocation starts below the
    heap. *)
Lemma alloc_size_overflow :
  match h ← alloc.init (alloc.boot heap_machine (to_virt root_example)); alloc.alloc 0xfffffffffffff000 h with
  | Ret (p, h) => negb (p =? 0) && (alloc.current_heap_offset h <? alloc.heap_base)
  | _ => false
  end = true.
Proof. vm_compute. reflexivity. Qed.
