(* ===== verification/Ipc.v ===== *)
(** * Ipc: events, user handles and message rings

    Models include/Sigma/generic/event.hpp, include/Sigma/generic/user_handle.hpp
    and source/proc/ipc.cpp with include/Sigma/proc/ipc.hpp.  A message is the
    list of its bytes (the kernel's private copy); the messages of a queue are in
    a [types::queue] (Containers.v), the handles of a thread in a
    [types::hash_map].  Objects reached through pointers live in stores indexed
    by their address; the null pointer is 0.  Locks make each operation atomic. *)

From S2P Require Import Prelude Klibc Containers.

(** ** generic::event *)

Module event.
(** The atomic [count]. *)
Definition t := Z.
Definition create : Z := 0.
Definition trigger (count : Z) : Z := u64 (count + 1).
Definition untrigger (count : Z) : Z := if count =? 0 then count else u64 (count - 1).
(** [compare_exchange_strong] with 0, then [fetch_sub]. *)
Definition has_triggered (count : Z) : bool * Z :=
  if count =? 0 then (false, count) else (true, u64 (count - 1)).
End event.

(** ** proc::ipc::queue and proc::ipc::ring *)

Module ipc.
Record message := mk_message { size : Z; data : list Z }.

Record queue := mk_queue {
  _receive_event : event.t; _queue : queue.t message; _sender : Z; _receiver : Z }.

Definition new_queue (sender receiver : Z) : queue :=
  mk_queue event.create queue.create sender receiver.

(** [queue::send]: [new std::byte[0]] is null, so an empty message is refused. *)
Definition queue_send (ptr sz : Z) (m : bmem) (q : queue) : bool * queue :=
  if sz =? 0 then (false, q)
  else
    let packet := mk_message sz (stdio.print ptr sz m) in
    (true, mk_queue (event.trigger (_receive_event q)) (queue.push (_queue q) packet)
             (_sender q) (_receiver q)).

(** [memcpy(data, msg.data, msg.size)] from the private copy. *)
Definition write_bytes (ptr : Z) (l : list Z) (m : bmem) : bmem :=
  fun x => if (ptr <=? x) && (x <? ptr + Z.of_nat (length l)) then default 0 (l !! Z.to_nat (x - ptr)) else m x.

Definition queue_receive (ptr : Z) (m : bmem) (q : queue) : res (bool * bmem * queue) :=
  if decide (queue.length (_queue q) = 0%nat) then mret (false, m, q)
  else
    '(msg, q') ← queue.pop (_queue q);
    mret (true, write_bytes ptr (data msg) m, mk_queue (_receive_event q) q' (_sender q) (_receiver q)).

Definition queue_get_top_message_size (q : queue) : res Z :=
  if decide (queue.length (_queue q) = 0%nat) then mret 0
  else msg ← queue.back (_queue q); mret (size msg).

Definition queue_get_n_messages (q : queue) : nat := queue.length (_queue q).

Record ring := mk_ring { a : Z; b : Z; _a_queue : queue; _b_queue : queue }.

Definition new_ring (a b : Z) : ring := mk_ring a b (new_queue b a) (new_queue a b).

(** The operations of [ring] for the calling thread [tid]. *)
Definition ring_send (tid ptr sz : Z) (m : bmem) (r : ring) : res (bool * ring) :=
  if tid =? a r then
    let '(ok, q) := queue_send ptr sz m (_b_queue r) in mret (ok, mk_ring (a r) (b r) (_a_queue r) q)
  else if tid =? b r then
    let '(ok, q) := queue_send ptr sz m (_a_queue r) in mret (ok, mk_ring (a r) (b r) q (_b_queue r))
  else Panic "Tried to send message on non-owned IPC ring".

Definition ring_receive (tid ptr : Z) (m : bmem) (r : ring) : res (bool * bmem * ring) :=
  if tid =? a r then
    '(ok, m, q) ← queue_receive ptr m (_a_queue r); mret (ok, m, mk_ring (a r) (b r) q (_b_queue r))
  else if tid =? b r then
    '(ok, m, q) ← queue_receive ptr m (_b_queue r); mret (ok, m, mk_ring (a r) (b r) (_a_queue r) q)
  else Panic "Tried to receive message on non-owned IPC ring".

Definition ring_get_top_message_size (tid : Z) (r : ring) : res Z :=
  if tid =? a r then queue_get_top_message_size (_a_queue r)
  else if tid =? b r then queue_get_top_message_size (_b_queue r)
  else Panic "".

Definition ring_get_n_messages (tid : Z) (r : ring) : res nat :=
  if tid =? a r then mret (queue_get_n_messages (_a_queue r))
  else if tid =? b r then mret (queue_get_n_messages (_b_queue r))
  else Panic "".

Definition ring_get_receive_event (tid : Z) (r : ring) : res event.t :=
  if tid =? a r then mret (_receive_event (_a_queue r))
  else if tid =? b r then mret (_receive_event (_b_queue r))
  else Panic "Tried to get event size on non-owned IPC ring".

Definition ring_get_recipients (r : ring) : Z * Z := (a r, b r).
End ipc.

(** ** generic::handles *)

Module handles.
Inductive handle_type := vCpu | vSpace | irq | ipcRing.

Inductive handle :=
| vcpu_handle (cpu : Z)
| vspace_handle (space : Z)
| irq_handle (vector : Z) (ev : event.t)
| ipc_ring_handle (ring : Z).

Definition type (h : handle) : handle_type :=
  match h with
  | vcpu_handle _ => vCpu
  | vspace_handle _ => vSpace
  | irq_handle _ _ => irq
  | ipc_ring_handle _ => ipcRing
  end.

#[export] Instance handle_type_eq_dec : EqDecision handle_type.
Proof. solve_decision. Defined.

(** [handle_catalogue]; the handles themselves are in the store [objs]. *)
Record handle_catalogue := mk { id_gen : Z; catalogue : linked_list.t (Z * Z) }.

Definition create : handle_catalogue := mk 0 linked_list.create.

Definition push (handle : Z) (c : handle_catalogue) : res (Z * handle_catalogue) :=
  let id := id_gen c in
  l ← hash_map.push_back nop_hasher (catalogue c) id handle;
  mret (id, mk (u64 (id_gen c + 1)) l).

(** [get<T>(id)] with [T::default_type = ty]. *)
Definition get (objs : gmap Z handle) (ty : handle_type) (id : Z) (c : handle_catalogue) : res (option handle) :=
  p ← hash_map.get nop_hasher (catalogue c) id;
  if p =? 0 then mret None
  else
    h ← access (objs !! p);
    _ ← ASSERT (bool_decide (type h = ty)) "handle->type == T::default_type";
    mret (Some h).
End handles.
Export (hints) handles.

(** ** The IPC calls of a thread *)

Module ipc_calls.
(** The shared objects and the caller: its thread id and its handles. *)
Record store := mk { objs : gmap Z handles.handle; rings : gmap Z ipc.ring; mem : bmem }.
Record caller := mk_caller { tid : Z; cat : handles.handle_catalogue }.

Definition set_ring (p : Z) (r : ipc.ring) (s : store) : store := mk (objs s) (<[p := r]> (rings s)) (mem s).

(** [get_ring]: the address of the ring and the ring. *)
Definition get_ring (ring : Z) (c : caller) (s : store) : res (Z * ipc.ring) :=
  handle ← handles.get (objs s) handles.ipcRing ring (cat c);
  match handle with
  | Some (handles.ipc_ring_handle p) =>
      _ ← ASSERT (negb (p =? 0)) "ipc_ring";
      r ← access (rings s !! p);
      mret (p, r)
  | _ => Panic "handle"
  end.

Definition send (ring ptr sz : Z) (c : caller) (s : store) : res (bool * store) :=
  '(p, r) ← get_ring ring c s;
  '(ok, r) ← ipc.ring_send (tid c) ptr sz (mem s) r;
  mret (ok, set_ring p r s).

Definition receive (ring ptr : Z) (c : caller) (s : store) : res (bool * store) :=
  '(p, r) ← get_ring ring c s;
  '(ok, m, r) ← ipc.ring_receive (tid c) ptr (mem s) r;
  mret (ok, mk (objs s) (<[p := r]> (rings s)) m).

Definition get_message_size (ring : Z) (c : caller) (s : store) : res Z :=
  '(_, r) ← get_ring ring c s; ipc.ring_get_top_message_size (tid c) r.

Definition get_n_messages (ring : Z) (c : caller) (s : store) : res nat :=
  '(_, r) ← get_ring ring c s; ipc.ring_get_n_messages (tid c) r.

Definition get_receive_event (ring : Z) (c : caller) (s : store) : res event.t :=
  '(_, r) ← get_ring ring c s; ipc.ring_get_receive_event (tid c) r.

Definition get_recipients (ring : Z) (c : caller) (s : store) : res (Z * Z) :=
  '(_, r) ← get_ring ring c s; mret (ipc.ring_get_recipients r).
End ipc_calls.

(** ** Specification *)

(** The two ends of a ring, the thread at each end and its incoming queue. *)
Inductive side := A | B.
Definition other (s : side) : side := match s with A => B | B => A end.
Definition owner (r : ipc.ring) (s : side) : Z := match s with A => ipc.a r | B => ipc.b r end.
Definition incoming (r : ipc.ring) (s : side) : ipc.queue :=
  match s with A => ipc._a_queue r | B => ipc._b_queue r end.

Definition message_ok (msg : ipc.message) : Prop := ipc.size msg = Z.of_nat (length (ipc.data msg)).

(** A ring between two different threads; [inbox s] lists the messages on their
    way to the thread at [s], in the order they were sent. *)
Record ring_ok (r : ipc.ring) (inbox : side -> list ipc.message) : Prop := {
  r_distinct : ipc.a r <> ipc.b r;
  r_queue : forall s, vrep (ipc._queue (incoming r s)) (inbox s);
  r_sizes : forall s, Forall message_ok (inbox s) }.

Definition put_inbox (inbox : side -> list ipc.message) (s : side) (l : list ipc.message) : side -> list ipc.message :=
  fun s' => match s, s' with A, A | B, B => l | _, _ => inbox s' end.

(** The handles of a thread: the association list behind its catalogue. *)
Record catalogue_ok (c : handles.handle_catalogue) (kvs : list (Z * Z)) : Prop := {
  c_rep : exists ids, linked_list.rep (handles.catalogue c) ids kvs;
  c_ids : kvs.*1 = seqZ 0 (handles.id_gen c);
  c_range : 0 <= handles.id_gen c < 2 ^ 64 }.

(** ** Lemmas *)

Section ipc_lemmas.
Implicit Types (r : ipc.ring) (m : bmem).

Lemma print_length ptr sz m : 0 <= sz -> Z.of_nat (length (stdio.print ptr sz m)) = sz.
Proof. intros H. unfold stdio.print. rewrite length_fmap, length_seqZ. lia. Qed.

Lemma owner_inj r s : ipc.a r <> ipc.b r -> owner r s <> owner r (other s).
Proof. destruct s; cbn; congruence. Qed.

Lemma queue_send_ok ptr sz m q l :
  0 < sz -> vrep (ipc._queue q) l ->
  exists q', ipc.queue_send ptr sz m q = (true, q') /\
    vrep (ipc._queue q') (l ++ [ipc.mk_message sz (stdio.print ptr sz m)]) /\
    ipc._receive_event q' = event.trigger (ipc._receive_event q).
Proof.
  intros Hsz Hq. unfold ipc.queue_send. rewrite (proj2 (Z.eqb_neq sz 0)) by lia.
  eexists. split_and!; [reflexivity | by apply qrep_push | done].
Qed.

Lemma queue_receive_nil ptr m q : vrep (ipc._queue q) [] -> ipc.queue_receive ptr m q = Ret (false, m, q).
Proof. intros Hq. unfold ipc.queue_receive. by rewrite (qrep_length _ _ Hq). Qed.

Lemma queue_receive_snoc ptr m q l msg :
  vrep (ipc._queue q) (l ++ [msg]) ->
  exists q', ipc.queue_receive ptr m q = Ret (true, ipc.write_bytes ptr (ipc.data msg) m, q') /\ vrep (ipc._queue q') l.
Proof.
  intros Hq. unfold ipc.queue_receive. rewrite (qrep_length _ _ Hq), length_app. cbn [length].
  destruct (decide _); [lia |]. destruct (qrep_pop_snoc _ _ _ Hq) as (q' & Hp & Hq'). rewrite Hp.
  eexists. split; [reflexivity | done].
Qed.

Lemma queue_top_size q l :
  vrep (ipc._queue q) l -> ipc.queue_get_top_message_size q = Ret (default 0 (ipc.size <$> last l)).
Proof.
  intros Hq. unfold ipc.queue_get_top_message_size. rewrite (qrep_length _ _ Hq).
  destruct l as [| x l _] using rev_ind; [done |]. rewrite length_app. cbn [length].
  destruct (decide _); [lia |]. rewrite (qrep_back _ _ Hq), last_snoc. done.
Qed.

Lemma owner_test r s :
  ipc.a r <> ipc.b r ->
  (owner r s =? ipc.a r) = (match s with A => true | B => false end) /\
  (s = B -> (owner r s =? ipc.b r) = true).
Proof. intros H. destruct s; cbn; rewrite ?Z.eqb_refl; split; try done. apply Z.eqb_neq. congruence. Qed.

Lemma ring_send_ok r inbox s ptr sz m :
  ring_ok r inbox -> 0 < sz ->
  exists r', ipc.ring_send (owner r s) ptr sz m r = Ret (true, r') /\
    ring_ok r' (put_inbox inbox (other s) (inbox (other s) ++ [ipc.mk_message sz (stdio.print ptr sz m)])) /\
    (forall s', owner r' s' = owner r s') /\
    ipc._receive_event (incoming r' (other s)) = event.trigger (ipc._receive_event (incoming r (other s))) /\
    incoming r' s = incoming r s.
Proof.
  intros OK Hsz. destruct OK as [Hd Hq Hs].
  assert (Hmsg : message_ok (ipc.mk_message sz (stdio.print ptr sz m))) by (unfold message_ok; cbn; by rewrite print_length by lia).
  destruct (queue_send_ok ptr sz m (incoming r (other s)) (inbox (other s)) Hsz (Hq _)) as (q' & Hsend & Hq' & He).
  destruct (owner_test r s Hd) as [E1 E2]. unfold ipc.ring_send. rewrite E1.
  destruct s; cbn in *; [| rewrite E2 by done]; rewrite Hsend; eexists; (split; [reflexivity |]);
    (split_and!; [constructor; [done | intros []; cbn; first [done | exact (Hq A) | exact (Hq B)] | intros []; cbn; first [exact (Hs A) | exact (Hs B) | by apply Forall_app; split; [apply Hs | constructor]]] | by intros [] | done | done]).
Qed.

Lemma ring_receive_ok r inbox s ptr m :
  ring_ok r inbox ->
  match last (inbox s) with
  | None => ipc.ring_receive (owner r s) ptr m r = Ret (false, m, r)
  | Some msg => exists r', ipc.ring_receive (owner r s) ptr m r = Ret (true, ipc.write_bytes ptr (ipc.data msg) m, r') /\
      ring_ok r' (put_inbox inbox s (removelast (inbox s))) /\ (forall s', owner r' s' = owner r s') /\
      incoming r' (other s) = incoming r (other s)
  end.
Proof.
  intros [Hd Hq Hs]. destruct (owner_test r s Hd) as [E1 E2]. unfold ipc.ring_receive. rewrite E1.
  assert (Hqs := Hq s). assert (Hss := Hs s). destruct (inbox s) as [| msg l _] eqn:El using rev_ind.
  - destruct s; cbn in *; [| rewrite E2 by done]; rewrite queue_receive_nil by done; by destruct r.
  - rewrite last_snoc, removelast_last. apply Forall_app in Hss as [Hss _].
    destruct (queue_receive_snoc ptr m _ _ _ Hqs) as (q' & Hr & Hq').
    destruct s; cbn in *; [| rewrite E2 by done]; rewrite Hr; eexists; (split; [reflexivity |]);
      (split_and!; [constructor; [done | intros []; cbn; first [done | exact (Hq A) | exact (Hq B)] | intros []; cbn; first [done | exact (Hs A) | exact (Hs B)]] | by intros [] | done]).
Qed.

(** The number of messages for an end and the announced size. *)
Lemma ring_refines_ops r inbox s :
  ring_ok r inbox ->
  ipc.ring_get_n_messages (owner r s) r = Ret (length (inbox s)) /\
  ipc.ring_get_top_message_size (owner r s) r =
    Ret (match last (inbox s) with Some msg => Z.of_nat (length (ipc.data msg)) | None => 0 end).
Proof.
  intros [Hd Hq Hs]. destruct (owner_test r s Hd) as [E1 E2]. split.
  - unfold ipc.ring_get_n_messages, ipc.queue_get_n_messages. rewrite E1.
    destruct s; [| rewrite E2 by done]; f_equal; [exact (qrep_length _ _ (Hq A)) | exact (qrep_length _ _ (Hq B))].
  - assert (Ht : ipc.ring_get_top_message_size (owner r s) r = Ret (default 0 (ipc.size <$> last (inbox s)))).
    { unfold ipc.ring_get_top_message_size. rewrite E1.
      destruct s; [exact (queue_top_size _ _ (Hq A)) |]. rewrite E2 by done. exact (queue_top_size _ _ (Hq B)). }
    rewrite Ht. destruct (last (inbox s)) as [msg |] eqn:El; [| done]. cbn. f_equal.
    apply last_Some in El as [l El]. assert (Hm := Hs s). rewrite El in Hm. apply Forall_app in Hm as [_ Hm].
    by apply Forall_cons in Hm as [Hm _].
Qed.
End ipc_lemmas.

Section handle_lemmas.
Implicit Types c : handles.handle_catalogue.

Lemma assoc_lookup id (kvs : list (Z * Z)) n :
  kvs.*1 = seqZ 0 n -> 0 <= id -> assoc id kvs = snd <$> kvs !! Z.to_nat id.
Proof.
  revert id n. induction kvs as [| [k v] kvs IH] using rev_ind; intros id n Hk Hid; [done |].
  rewrite fmap_app in Hk. cbn in Hk. assert (Hlen := f_equal length Hk).
  rewrite length_app, length_seqZ, length_fmap in Hlen. cbn in Hlen.
  destruct (Z.to_nat n) as [| n'] eqn:En; [lia |]. replace n with (Z.of_nat n' + 1) in Hk by lia.
  rewrite seqZ_app in Hk by lia. cbn in Hk. apply app_inj_tail in Hk as [Hk ->].
  rewrite assoc_app, (IH id (Z.of_nat n') Hk Hid). assert (Hl : length kvs = n') by lia.
  destruct (decide (id < Z.of_nat n')) as [Hlt | Hge].
  - rewrite lookup_app_l by lia. destruct (lookup_lt_is_Some_2 kvs (Z.to_nat id)) as [x ->]; [lia | done].
  - rewrite (lookup_ge_None_2 kvs) by lia. cbn. rewrite lookup_app_r by lia.
    destruct (decide (Z.of_nat n' = id)) as [<- | Hne].
    + rewrite decide_True by done. by replace (Z.to_nat (Z.of_nat n') - length kvs)%nat with 0%nat by lia.
    + rewrite decide_False by lia. by rewrite (lookup_ge_None_2 [_]) by (cbn; lia).
Qed.

Lemma handle_push_ok c kvs p :
  catalogue_ok c kvs -> handles.id_gen c + 1 < 2 ^ 64 ->
  exists c', handles.push p c = Ret (handles.id_gen c, c') /\ catalogue_ok c' (kvs ++ [(handles.id_gen c, p)]).
Proof.
  intros [[ids Hr] Hk Hb] Hn. unfold handles.push.
  destruct (hash_map_push_rep nop_hasher _ _ _ (handles.id_gen c) p Hr) as (l & -> & Hl).
  eexists. split; [reflexivity |]. constructor; cbn [handles.catalogue handles.id_gen].
  - eexists. exact Hl.
  - rewrite u64_small by (unfold is_u64; lia). rewrite fmap_app, Hk, seqZ_app by lia. done.
  - rewrite u64_small by (unfold is_u64; lia). lia.
Qed.

Lemma get_ok c kvs objs ty id :
  catalogue_ok c kvs -> 0 <= id ->
  handles.get objs ty id c =
    match snd <$> kvs !! Z.to_nat id with
    | None => Panic "Hash not in map"
    | Some p =>
        if p =? 0 then Ret None
        else match objs !! p with
             | None => Undef
             | Some h => if decide (handles.type h = ty) then Ret (Some h) else Panic "handle->type == T::default_type"
             end
    end.
Proof.
  intros [[ids Hr] Hk Hb] Hid. unfold handles.get. rewrite (hash_map_get_rep nop_hasher _ _ _ _ Hr).
  change (nop_hasher id) with id. rewrite (assoc_lookup _ _ _ Hk Hid).
  destruct (snd <$> kvs !! Z.to_nat id) as [p |]; [| done]. cbn [mbind res_bind].
  destruct (p =? 0); [done |]. destruct (objs !! p) as [h |]; [| done]. cbn [access mbind res_bind].
  destruct (decide (handles.type h = ty)) as [E | E]; [by rewrite bool_decide_true | by rewrite bool_decide_false].
Qed.
End handle_lemmas.

(** ** Theorems *)

(** C10: An IPC ring between two threads is two message stacks.  A send by one
    end puts the whole message, and nothing else, on top of the stack of the
    other end and triggers the receive event there once; a receive takes the
    message sent last (the announced top size is its size) and copies it out
    unchanged, or reports that there is none; a third thread cannot do either. *)
Theorem ring_refines_stacks (r : ipc.ring) (inbox : side -> list ipc.message) :
  ring_ok r inbox ->
  (forall s ptr sz m, 0 < sz ->
     exists r', ipc.ring_send (owner r s) ptr sz m r = Ret (true, r') /\
       ring_ok r' (put_inbox inbox (other s) (inbox (other s) ++ [ipc.mk_message sz (stdio.print ptr sz m)])) /\
       (forall s', owner r' s' = owner r s') /\
       ipc._receive_event (incoming r' (other s)) = event.trigger (ipc._receive_event (incoming r (other s))) /\
       incoming r' s = incoming r s) /\
  (forall s ptr m,
     match last (inbox s) with
     | None => ipc.ring_receive (owner r s) ptr m r = Ret (false, m, r) /\
               ipc.ring_get_top_message_size (owner r s) r = Ret 0
     | Some msg =>
         ipc.ring_get_top_message_size (owner r s) r = Ret (Z.of_nat (length (ipc.data msg))) /\
         exists r', ipc.ring_receive (owner r s) ptr m r = Ret (true, ipc.write_bytes ptr (ipc.data msg) m, r') /\
           ring_ok r' (put_inbox inbox s (removelast (inbox s))) /\ (forall s', owner r' s' = owner r s') /\
           incoming r' (other s) = incoming r (other s)
     end) /\
  (forall s, ipc.ring_get_n_messages (owner r s) r = Ret (length (inbox s))) /\
  (forall tid ptr sz m, tid <> ipc.a r -> tid <> ipc.b r ->
     exists msg1 msg2, ipc.ring_send tid ptr sz m r = Panic msg1 /\ ipc.ring_receive tid ptr m r = Panic msg2).
Proof.
  intros OK. split_and!.
  - intros s ptr sz m Hsz. by apply ring_send_ok.
  - intros s ptr m. assert (H := ring_receive_ok r inbox s ptr m OK). destruct (ring_refines_ops r inbox s OK) as [_ Ht].
    by destruct (last (inbox s)).
  - intros s. by apply ring_refines_ops.
  - intros tid ptr sz m Ha Hb. unfold ipc.ring_send, ipc.ring_receive.
    rewrite (proj2 (Z.eqb_neq _ _) Ha), (proj2 (Z.eqb_neq _ _) Hb). eauto.
Qed.

Lemma new_ring_ok a b : a <> b -> ring_ok (ipc.new_ring a b) (fun _ => []).
Proof. intros H. constructor; [done | intros []; apply qrep_create | done]. Qed.

Lemma ring_refines_stacks_witness :
  exists r', ipc.ring_send (owner (ipc.new_ring 1 2) A) 100 4 (fun x => x) (ipc.new_ring 1 2) = Ret (true, r') /\
    ring_ok r' (put_inbox (fun _ => []) B ([] ++ [ipc.mk_message 4 (stdio.print 100 4 (fun x => x))])).
Proof.
  destruct (ring_refines_stacks (ipc.new_ring 1 2) (fun _ => [])) as [H _]; [apply new_ring_ok; discriminate |].
  destruct (H A 100 4 (fun x => x) ltac:(lia)) as (r' & H1 & H2 & _). exists r'. split; [exact H1 | exact H2].
Defined.

(** C19: Handles are numbered in the order in which they are added: a new handle
    gets the next number, every earlier number keeps its handle, an unknown
    number panics and so does a handle of another type. *)
Theorem handle_catalogue_correct (c : handles.handle_catalogue) (kvs : list (Z * Z)) (p : Z) :
  catalogue_ok c kvs -> handles.id_gen c + 1 < 2 ^ 64 ->
  exists c', handles.push p c = Ret (handles.id_gen c, c') /\
    catalogue_ok c' (kvs ++ [(handles.id_gen c, p)]) /\
    (forall objs ty h, p <> 0 -> objs !! p = Some h -> handles.type h = ty ->
       handles.get objs ty (handles.id_gen c) c' = Ret (Some h)) /\
    (forall objs ty h, p <> 0 -> objs !! p = Some h -> handles.type h <> ty ->
       handles.get objs ty (handles.id_gen c) c' = Panic "handle->type == T::default_type") /\
    (forall objs ty id, 0 <= id < handles.id_gen c -> handles.get objs ty id c' = handles.get objs ty id c) /\
    (forall objs ty id, handles.id_gen c < id -> handles.get objs ty id c' = Panic "Hash not in map").
Proof.
  intros OK Hn. destruct (handle_push_ok c kvs p OK Hn) as (c' & Hp & OK'). exists c'.
  assert (Hlen : length kvs = Z.to_nat (handles.id_gen c)).
  { rewrite <- (length_fmap fst kvs), (c_ids _ _ OK), length_seqZ. done. }
  assert (Hpos := c_range _ _ OK).
  assert (Hnew : (kvs ++ [(handles.id_gen c, p)]) !! Z.to_nat (handles.id_gen c) = Some (handles.id_gen c, p))
    by (by rewrite lookup_app_r, Hlen, Nat.sub_diag by lia).
  split_and!; [done | done | ..].
  - intros objs ty h H0 Hh Ht. rewrite (get_ok _ _ _ _ _ OK') by lia. rewrite Hnew. cbn.
    by rewrite (proj2 (Z.eqb_neq p 0) H0), Hh, decide_True.
  - intros objs ty h H0 Hh Ht. rewrite (get_ok _ _ _ _ _ OK') by lia. rewrite Hnew. cbn.
    by rewrite (proj2 (Z.eqb_neq p 0) H0), Hh, decide_False.
  - intros objs ty id Hid. rewrite (get_ok _ _ _ _ _ OK'), (get_ok _ _ _ _ _ OK) by lia.
    by rewrite lookup_app_l by lia.
  - intros objs ty id Hid. rewrite (get_ok _ _ _ _ _ OK') by lia.
    by rewrite lookup_ge_None_2 by (rewrite length_app; cbn; lia).
Qed.

Lemma create_catalogue_ok : catalogue_ok handles.create [].
Proof. constructor; [exists []; apply rep_create | done | cbn; lia]. Qed.

Lemma handle_catalogue_correct_witness :
  exists c', handles.push 0x40 handles.create = Ret (0, c') /\
    catalogue_ok c' ([] ++ [(0, 0x40)]) /\
    (forall objs ty h, 0x40 <> 0 -> objs !! 0x40 = Some h -> handles.type h = ty ->
       handles.get objs ty 0 c' = Ret (Some h)) /\
    (forall objs ty h, 0x40 <> 0 -> objs !! 0x40 = Some h -> handles.type h <> ty ->
       handles.get objs ty 0 c' = Panic "handle->type == T::default_type") /\
    (forall objs ty id, 0 <= id < 0 -> handles.get objs ty id c' = handles.get objs ty id handles.create) /\
    (forall objs ty id, 0 < id -> handles.get objs ty id c' = Panic "Hash not in map").
Proof. apply (handle_catalogue_correct handles.create [] 0x40); [apply create_catalogue_ok | cbn; lia]. Defined.

(** C28: End to end: when both threads of a ring have a handle for it, a message
    that one sends is what the other one receives next, byte for byte, and the
    receiver's other memory is untouched. *)
Theorem ipc_end_to_end (ca cb : ipc_calls.caller) (ha hb p ptr ptr' sz : Z) (s : ipc_calls.store)
    (r : ipc.ring) (inbox : side -> list ipc.message) :
  ipc_calls.get_ring ha ca s = Ret (p, r) -> handles.get (ipc_calls.objs s) handles.ipcRing hb (ipc_calls.cat cb)
    = Ret (Some (handles.ipc_ring_handle p)) -> p <> 0 ->
  ring_ok r inbox -> ipc_calls.tid ca = ipc.a r -> ipc_calls.tid cb = ipc.b r -> 0 < sz ->
  exists s1 s2, ipc_calls.send ha ptr sz ca s = Ret (true, s1) /\
    ipc_calls.get_message_size hb cb s1 = Ret sz /\
    ipc_calls.receive hb ptr' cb s1 = Ret (true, s2) /\
    (forall x, ipc_calls.mem s2 x =
       if bool_decide (ptr' <= x < ptr' + sz) then ipc_calls.mem s (ptr + (x - ptr')) else ipc_calls.mem s x).
Proof.
  intros Hra Hhb Hp0 OK Ha Hb Hsz.
  destruct (ring_send_ok r inbox A ptr sz (ipc_calls.mem s) OK Hsz) as (r' & Hs & OK' & Ho & _). cbn in Hs.
  set (bytes := stdio.print ptr sz (ipc_calls.mem s)) in *.
  assert (Hlen : Z.of_nat (length bytes) = sz) by (apply print_length; lia).
  assert (Hr := ring_receive_ok _ _ B ptr' (ipc_calls.mem s) OK'). cbn [put_inbox other] in Hr.
  rewrite last_snoc in Hr. destruct Hr as (r'' & Hr & _).
  assert (Ht := queue_top_size _ _ (r_queue _ _ OK' B)). cbn [put_inbox other] in Ht. rewrite last_snoc in Ht. cbn in Ht.
  assert (Hb' : ipc.b r' = ipc.b r) by exact (Ho B).
  eexists (ipc_calls.set_ring p r' s), (ipc_calls.mk _ _ _).
  assert (Hget : ipc_calls.get_ring hb cb (ipc_calls.set_ring p r' s) = Ret (p, r')).
  { unfold ipc_calls.get_ring. cbn [ipc_calls.objs ipc_calls.set_ring]. rewrite Hhb. cbn [mbind res_bind].
    rewrite (proj2 (Z.eqb_neq p 0) Hp0). cbn. by rewrite lookup_insert_eq. }
  split_and!.
  - unfold ipc_calls.send. rewrite Hra. cbn [mbind res_bind]. rewrite Ha, Hs. done.
  - unfold ipc_calls.get_message_size. rewrite Hget. cbn [mbind res_bind].
    unfold ipc.ring_get_top_message_size. rewrite Hb, <- Hb'.
    rewrite (proj2 (Z.eqb_neq (ipc.b r') (ipc.a r'))) by (pose proof (r_distinct _ _ OK'); congruence).
    by rewrite Z.eqb_refl, Ht.
  - unfold ipc_calls.receive. rewrite Hget. cbn [mbind res_bind]. rewrite Hb, <- Hb'.
    cbn [owner] in Hr. cbn [ipc_calls.mem ipc_calls.set_ring]. rewrite Hr. cbn [mbind res_bind]. reflexivity.
  - intros x. cbn. unfold ipc.write_bytes. rewrite Hlen. case_bool_decide as Hx.
    + rewrite (proj2 (Z.leb_le _ _)), (proj2 (Z.ltb_lt _ _)) by lia. cbn. unfold bytes, stdio.print.
      rewrite list_lookup_fmap, lookup_seqZ_lt by lia. cbn. f_equal. lia.
    + destruct (Z.leb_spec ptr' x), (Z.ltb_spec x (ptr' + sz)); try lia; done.
Qed.

(** Two threads, 1 and 2, with handle 0 for a fresh ring at 0x80. *)
Definition catalogue_example : handles.handle_catalogue :=
  handles.mk 1 (match linked_list.push_back linked_list.create (0, 0x40) with Ret (_, l) => l | _ => linked_list.create end).
Definition store_example : ipc_calls.store :=
  ipc_calls.mk {[ 0x40 := handles.ipc_ring_handle 0x80 ]} {[ 0x80 := ipc.new_ring 1 2 ]} (fun x => x).

Lemma ipc_end_to_end_witness :
  exists s1 s2,
    ipc_calls.send 0 100 4 (ipc_calls.mk_caller 1 catalogue_example) store_example = Ret (true, s1) /\
    ipc_calls.get_message_size 0 (ipc_calls.mk_caller 2 catalogue_example) s1 = Ret 4 /\
    ipc_calls.receive 0 200 (ipc_calls.mk_caller 2 catalogue_example) s1 = Ret (true, s2) /\
    (forall x, ipc_calls.mem s2 x =
       if bool_decide (200 <= x < 200 + 4) then ipc_calls.mem store_example (100 + (x - 200))
       else ipc_calls.mem store_example x).
Proof.
  apply (ipc_end_to_end (ipc_calls.mk_caller 1 catalogue_example) (ipc_calls.mk_caller 2 catalogue_example)
           0 0 0x80 100 200 4 store_example (ipc.new_ring 1 2) (fun _ => [])).
  - vm_compute. reflexivity.
  - vm_compute. reflexivity.
  - discriminate.
  - apply new_ring_ok. discriminate.
  - reflexivity.
  - reflexivity.
  - lia.
Defined.
