(* ===== verification/KernelVfs.v ===== *)
(** * KernelVfs: the file server inside the kernel

    Models [proc::syscall::serve_kernel_vfs] of source/proc/syscall.cpp: a kernel
    thread answers the requests for the standard streams that a process sends over
    its ring.  The format of the messages is generated from a protocol file that is
    not part of the sources: its parser and builder are a parameter
    ([VfsProtocol]).

    The loop never ends; one round of it is [serve], which does nothing while there
    is no message.  Objects from operator new are at the addresses that are given. *)

From S2P Require Import Prelude Klibc Containers Ipc.

(** A request and a response by their fields; [None] is a field that is absent. *)
Record request := mk_request {
  command : option Z; fd : option Z; count : option Z; buffer : option (list Z); whence : option Z; offset : option Z }.
Record response := mk_response { status : option Z; r_offset : option Z }.

(** [client_request_parser], [server_response_builder::serialize] and the values of
    [client_request_type]. *)
Class VfsProtocol := {
  parse_request : list Z -> request;
  serialize_response : response -> list Z;
  Write : Z; Seek : Z; Tell : Z }.

Module kernel_vfs.
Section serve.
Context `{VfsProtocol}.

(** [ASSERT(parser.has_x())] followed by [parser.get_x()]. *)
Definition field {A} (o : option A) (msg : string) : res A := match o with Some a => mret a | None => Panic msg end.

(** What [printf("%s", tmp)] shows of a zero-terminated copy of [l]. *)
Fixpoint text (l : list Z) : list Z := match l with [] => [] | c :: l => if c =? 0 then [] else c :: text l end.

(** [send_return]: [buf] is the address of the serialized response. *)
Definition send_return (ring buf : Z) (r : response) (c : ipc_calls.caller) (st : ipc_calls.store) : res ipc_calls.store :=
  let data := serialize_response r in
  let st := ipc_calls.mk (ipc_calls.objs st) (ipc_calls.rings st) (ipc.write_bytes buf data (ipc_calls.mem st)) in
  '(ok, st) ← ipc_calls.send ring buf (Z.of_nat (length data)) c st;
  _ ← ASSERT ok "proc::ipc::send(ring, buf, len)";
  mret st.

(** The switch over the command: the text that is printed and the store. *)
Definition handle (ring buf : Z) (q : request) (c : ipc_calls.caller) (st : ipc_calls.store) : res (list Z * ipc_calls.store) :=
  cmd ← field (command q) "parser.has_command()";
  if cmd =? Write then
    f ← field (fd q) "parser.has_fd()";
    n ← field (count q) "parser.has_count()";
    b ← field (buffer q) "parser.has_buffer()";
    if (f =? 1) || (f =? 2) then
      _ ← ASSERT (n <=? Z.of_nat (length b)) "parser.get_buffer().size() >= parser.get_count()";
      st ← send_return ring buf (mk_response (Some 0) None) c st;
      mret (text (take (Z.to_nat n) b), st)
    else Panic "Unknown FD"
  else if cmd =? Seek then
    _ ← field (fd q) "parser.has_fd()";
    _ ← field (whence q) "parser.has_whence()";
    _ ← field (offset q) "parser.has_offset()";
    st ← send_return ring buf (mk_response (Some 0) None) c st;
    mret ([], st)
  else if cmd =? Tell then
    _ ← field (fd q) "parser.has_fd()";
    st ← send_return ring buf (mk_response (Some 0) (Some 0)) c st;
    mret ([], st)
  else mret ([], st).

(** One round of the loop; [None] when there is no message. *)
Definition serve (ring array buf : Z) (c : ipc_calls.caller) (st : ipc_calls.store) : res (option (list Z) * ipc_calls.store) :=
  n ← ipc_calls.get_n_messages ring c st;
  if decide (n = 0%nat) then mret (None, st)
  else
    size ← ipc_calls.get_message_size ring c st;
    let zeroed := ipc.write_bytes array (replicate (Z.to_nat size) 0) (ipc_calls.mem st) in
    '(ok, st) ← ipc_calls.receive ring array c (ipc_calls.mk (ipc_calls.objs st) (ipc_calls.rings st) zeroed);
    if negb ok then Panic "Failed to recieve kernel VFS message"
    else
      '(out, st) ← handle ring buf (parse_request (stdio.print array size (ipc_calls.mem st))) c st;
      mret (Some out, st).
End serve.
End kernel_vfs.

(** ** Lemmas *)

Lemma print_write_bytes ptr l m : stdio.print ptr (Z.of_nat (length l)) (ipc.write_bytes ptr l m) = l.
Proof.
  unfold stdio.print. apply list_eq. intros i. rewrite list_lookup_fmap. destruct (decide (i < length l)%nat) as [Hi | Hi].
  - rewrite lookup_seqZ_lt by lia. cbn [fmap option_fmap option_map]. unfold ipc.write_bytes.
    destruct (Z.leb_spec ptr (ptr + (0 + Z.of_nat i))); [| lia]. destruct (Z.ltb_spec (ptr + (0 + Z.of_nat i)) (ptr + Z.of_nat (length l))); [| lia].
    cbn [andb]. replace (Z.to_nat _) with i by lia. by destruct (lookup_lt_is_Some_2 l i Hi) as [x ->].
  - rewrite lookup_seqZ_ge by lia. symmetry. apply lookup_ge_None. lia.
Qed.

Section lemmas.
Context (ring p : Z) (rg : ipc.ring) (c : ipc_calls.caller) (sd : side) (inbox : side -> list ipc.message).

(** The thread [c] is at the end [sd] of the ring behind its handle. *)
Definition serves (st : ipc_calls.store) : Prop :=
  ipc_calls.get_ring ring c st = Ret (p, rg) /\ ipc_calls.tid c = owner rg sd /\ ring_ok rg inbox.

Lemma get_ring_same (rg' : ipc.ring) m st :
  serves st -> ipc_calls.get_ring ring c (ipc_calls.mk (ipc_calls.objs st) (<[p := rg']> (ipc_calls.rings st)) m) = Ret (p, rg').
Proof.
  intros [Hg _]. unfold ipc_calls.get_ring in *. cbn [ipc_calls.objs ipc_calls.rings].
  destruct (handles.get _ _ _ _) as [[h |] | | |]; cbn [mbind res_bind] in *; try done. destruct h; try done.
  destruct (ASSERT _ _); cbn [mbind res_bind] in *; try done.
  destruct (ipc_calls.rings st !! ring0) as [x |] eqn:E; cbn [access mbind res_bind] in Hg; [| done].
  injection Hg as -> ->. by rewrite lookup_insert_eq.
Qed.

Lemma get_ring_mem m st : serves st -> ipc_calls.get_ring ring c (ipc_calls.mk (ipc_calls.objs st) (ipc_calls.rings st) m) = Ret (p, rg).
Proof. intros [Hg _]. exact Hg. Qed.
End lemmas.

Section spec.
Context `{VfsProtocol}.
Import kernel_vfs.

(** What the server owes for a request: what it prints and what it answers. *)
Definition answer (q : request) : option (list Z * response) :=
  match q with
  | mk_request (Some cmd) (Some f) cn bu wh off =>
      if cmd =? Write then
        match cn, bu with
        | Some n, Some b => if bool_decide ((f = 1 \/ f = 2) /\ 0 <= n <= Z.of_nat (length b)) then Some (text (take (Z.to_nat n) b), mk_response (Some 0) None) else None
        | _, _ => None
        end
      else if cmd =? Seek then match wh, off with Some _, Some _ => Some ([], mk_response (Some 0) None) | _, _ => None end
      else if cmd =? Tell then Some ([], mk_response (Some 0) (Some 0)) else None
  | _ => None
  end.

Lemma send_return_ok ring p rg c sd inbox buf r st :
  serves ring p rg c sd inbox st -> serialize_response r <> [] ->
  exists st' rg', send_return ring buf r c st = Ret st' /\ ipc_calls.rings st' !! p = Some rg' /\
    ring_ok rg' (put_inbox inbox (other sd) (inbox (other sd) ++ [ipc.mk_message (Z.of_nat (length (serialize_response r))) (serialize_response r)])) /\
    (forall s', owner rg' s' = owner rg s') /\
    ipc._receive_event (incoming rg' (other sd)) = event.trigger (ipc._receive_event (incoming rg (other sd))).
Proof.
  intros Hs Hr. assert (Hl : 0 < Z.of_nat (length (serialize_response r))) by (destruct (serialize_response r); [done | cbn; lia]).
  set (m := ipc.write_bytes buf (serialize_response r) (ipc_calls.mem st)).
  destruct Hs as (Hg & Ht & OK). destruct (ring_send_ok rg inbox sd buf _ m OK Hl) as (rg' & Hsend & OK' & Hown & Hev & _).
  unfold m in OK' at 1. rewrite print_write_bytes in OK'.
  eexists _, rg'. split; [| split_and!; [| exact OK' | exact Hown | exact Hev]].
  - unfold send_return, ipc_calls.send. rewrite (get_ring_mem ring p rg c sd inbox) by (by split_and!). cbn [mbind res_bind ipc_calls.mem].
    fold m. rewrite Ht, Hsend. reflexivity.
  - cbn. by rewrite lookup_insert_eq.
Qed.

Lemma handle_answer ring buf q c st out r :
  answer q = Some (out, r) -> handle ring buf q c st = (st ← send_return ring buf r c st; mret (out, st)).
Proof.
  destruct q as [[cmd |] [f |] cn bu wh off]; cbn [answer]; try done. unfold handle. cbn [command fd count buffer whence offset field mbind res_bind mret res_ret].
  destruct (cmd =? Write).
  - destruct cn as [n |], bu as [b |]; try done. cbn [field mbind res_bind mret res_ret]. case_bool_decide as Hd; [| done]. intros [= <- <-].
    destruct Hd as [Hf Hn]. replace ((f =? 1) || (f =? 2)) with true by (destruct Hf as [-> | ->]; done). rewrite (proj2 (Z.leb_le n _)) by lia. done.
  - destruct (cmd =? Seek); [destruct wh, off; try done; by intros [= <- <-] |]. destruct (cmd =? Tell); [by intros [= <- <-] | done].
Qed.

(** A round of the server takes the message on top and handles it. *)
Lemma serve_top ring p rg c sd inbox msg array buf st :
  serves ring p rg c sd inbox st -> last (inbox sd) = Some msg ->
  exists st1 rg1, serves ring p rg1 c sd (put_inbox inbox sd (removelast (inbox sd))) st1 /\
    incoming rg1 (other sd) = incoming rg (other sd) /\ ipc_calls.rings st1 !! p = Some rg1 /\
    serve ring array buf c st = ('(out, st) ← handle ring buf (parse_request (ipc.data msg)) c st1; mret (Some out, st)).
Proof.
  intros Hs Hl. destruct (Hs) as (Hg & Ht & OK). destruct (ring_refines_ops rg inbox sd OK) as [Hn Htop].
  set (z := ipc.write_bytes array (replicate (Z.to_nat (Z.of_nat (length (ipc.data msg)))) 0) (ipc_calls.mem st)).
  assert (Hrec := ring_receive_ok rg inbox sd array z OK). rewrite Hl in Hrec, Htop. destruct Hrec as (rg1 & Hrec & OK1 & Hown & Hin).
  exists (ipc_calls.mk (ipc_calls.objs st) (<[p := rg1]> (ipc_calls.rings st)) (ipc.write_bytes array (ipc.data msg) z)), rg1. split_and!.
  - split_and!; [by eapply get_ring_same | by rewrite Hown | done].
  - done.
  - cbn. by rewrite lookup_insert_eq.
  - unfold serve, ipc_calls.get_n_messages, ipc_calls.get_message_size, ipc_calls.receive. rewrite Hg. cbn [mbind res_bind]. rewrite Ht, Hn.
    cbn [mbind res_bind]. rewrite decide_False by (destruct (inbox sd); done). rewrite Htop. cbn [mbind res_bind]. fold z.
    rewrite (get_ring_mem ring p rg c sd inbox) by done. cbn [mbind res_bind ipc_calls.mem]. rewrite Hrec. cbn [mbind res_bind mret res_ret negb ipc_calls.mem ipc_calls.objs ipc_calls.rings].
    by rewrite print_write_bytes.
Qed.

End spec.

(** A protocol with one byte per field: 1 writes the rest of the message to stream
    1, 2 and 3 seek and tell. *)
#[export] Instance protocol_example : VfsProtocol := {|
  parse_request l := mk_request (head l) (Some 1) (Some (Z.of_nat (length (tail l)))) (Some (tail l)) (Some 0) (Some 0);
  serialize_response r := [default 7 (status r); default 7 (r_offset r)];
  Write := 1; Seek := 2; Tell := 3 |}.

Definition vfs_ring_example : ipc.ring :=
  match ipc.ring_send 1 100 4 (fun x => if x =? 100 then 1 else x) (ipc.new_ring 1 2) with Ret (_, r) => r | _ => ipc.new_ring 1 2 end.

Definition vfs_cat_example : handles.handle_catalogue :=
  match handles.push 0x900 handles.create with Ret (_, c) => c | _ => handles.create end.

