(* ===== verification/Kbus.v ===== *)
(** * Kbus: the client of the message bus

    Models libs/libkbus: a driver creates objects on the bus, looks for devices and
    reads and writes attributes of an object.  Each call is one message to the server
    over the ring of Ipc.v and one answer.  The format of the messages is generated
    from a protocol file that is not part of the sources ([KbusProtocol]); what
    happens while the thread is blocked is a parameter ([wait]).  The server of this
    commit is commented out: the theorems are about any server that answers. *)

From S2P Require Import Prelude Klibc Containers Ipc KernelVfs.

(** A request and an answer by their fields; [None] is a field that is absent. *)
Record request := mk_request { q_command : Z; q_device : option Z; q_query : option (list Z); q_key : option (list Z); q_value : option (list Z) }.
Record response := mk_response { r_status : option Z; r_device : option Z; r_results : option (list Z); r_value : option (list Z) }.

(** [client_request_builder::serialize], [server_response_parser] and the values of
    the enumerations of the protocol. *)
Class KbusProtocol := {
  serialize_request : request -> list Z;
  parse_response : list Z -> response;
  CreateDevice : Z; FindDevices : Z; GetAttribute : Z; AddAttribute : Z; Success : Z }.

Module kbus.
Section client.
Context `{KbusProtocol} (AT_KBUS_SERVER : Z) (wait : Z -> ipc_calls.store -> res ipc_calls.store).

(** [kbus_ring] is 0 until the first call. *)
Definition get_kbus_ring (kbus_ring : Z) : Z := if kbus_ring =? 0 then AT_KBUS_SERVER else kbus_ring.

Definition with_mem (m : bmem) (st : ipc_calls.store) : ipc_calls.store := ipc_calls.mk (ipc_calls.objs st) (ipc_calls.rings st) m.

(** What all the calls share: send the request, wait and receive the answer; a
    message for the console when that fails.  [out] is the address of the serialized
    request, [buf] the one of the vector for the answer. *)
Definition transact (name : string) (q : request) (ring out buf : Z) (c : ipc_calls.caller) (st : ipc_calls.store) : res ((string + response) * ipc_calls.store) :=
  let data := serialize_request q in
  '(ok, st) ← ipc_calls.send ring out (Z.of_nat (length data)) c (with_mem (ipc.write_bytes out data (ipc_calls.mem st)) st);
  if negb ok then mret (inl ("libkbus: Failed to send " +:+ name +:+ " message"), st)
  else
    st ← wait ring st;
    res_size ← ipc_calls.get_message_size ring c st;
    let zeroed := ipc.write_bytes buf (replicate (Z.to_nat res_size) 0) (ipc_calls.mem st) in
    '(ok, st) ← ipc_calls.receive ring buf c (with_mem zeroed st);
    if negb ok then mret (inl ("libkbus: Failed to receive " +:+ name +:+ " response"), st)
    else mret (inr (parse_response (stdio.print buf res_size (ipc_calls.mem st))), st).

(** [CHECK_VALUE] for the status and for the field that the call returns, and the
    assertion: the result, what is printed, and the store. *)
Definition conclude {A} (none : A) (name : string) (value : response -> option A) (x : (string + response) * ipc_calls.store)
    : res (A * list string * ipc_calls.store) :=
  let missing name := "libkbus: response does not have" +:+ name in
  match x with
  | (inl msg, st) => mret (none, [msg], st)
  | (inr p, st) =>
      match r_status p with
      | None => mret (none, [missing "status"], st)
      | Some s =>
          match value p with
          | None => mret (none, [missing name], st)
          | Some a => _ ← ASSERT (s =? Success) "parser.get_status() == Success"; mret (a, [], st)
          end
      end
  end.

Definition create_request : request := mk_request CreateDevice None None None None.
Definition find_request (query : list Z) : request := mk_request FindDevices None (Some query) None None.
Definition get_request (id : Z) (key : list Z) : request := mk_request GetAttribute (Some id) None (Some key) None.
Definition set_request (id : Z) (key value : list Z) : request := mk_request AddAttribute (Some id) None (Some key) (Some value).

Definition allocate_object (kbus_ring out buf : Z) (c : ipc_calls.caller) (st : ipc_calls.store) : res (Z * list string * ipc_calls.store) :=
  x ← transact "CreateDevice" create_request (get_kbus_ring kbus_ring) out buf c st;
  conclude u64_max "device" r_device x.

(** The objects are their numbers. *)
Definition find_devices (query : list Z) (kbus_ring out buf : Z) (c : ipc_calls.caller) (st : ipc_calls.store) : res (list Z * list string * ipc_calls.store) :=
  x ← transact "FindDevices" (find_request query) (get_kbus_ring kbus_ring) out buf c st;
  conclude [] "results" r_results x.

Definition get_attribute (id : Z) (key : list Z) (kbus_ring out buf : Z) (c : ipc_calls.caller) (st : ipc_calls.store) : res (list Z * list string * ipc_calls.store) :=
  x ← transact "GetAttribute" (get_request id key) (get_kbus_ring kbus_ring) out buf c st;
  conclude [] "value" r_value x.

Definition set_attribute (id : Z) (key value : list Z) (kbus_ring out buf : Z) (c : ipc_calls.caller) (st : ipc_calls.store) : res (unit * list string * ipc_calls.store) :=
  x ← transact "AddAttribute" (set_request id key value) (get_kbus_ring kbus_ring) out buf c st;
  conclude tt "" (fun _ => Some tt) x.
End client.
End kbus.

(** ** Specification *)

(** A server that takes one message and answers it with [f] of its bytes. *)
Definition answer_one (f : list Z -> list Z) (ring array buf : Z) (c : ipc_calls.caller) (st : ipc_calls.store) : res ipc_calls.store :=
  size ← ipc_calls.get_message_size ring c st;
  '(ok, st) ← ipc_calls.receive ring array c st;
  if negb ok then mret st
  else
    let data := f (stdio.print array size (ipc_calls.mem st)) in
    '(_, st) ← ipc_calls.send ring buf (Z.of_nat (length data)) c (kbus.with_mem (ipc.write_bytes buf data (ipc_calls.mem st)) st);
    mret st.

(** ** Lemmas *)

Lemma ring_ok_ext r inbox inbox' : (forall s, inbox s = inbox' s) -> ring_ok r inbox -> ring_ok r inbox'.
Proof. intros E [H1 H2 H3]. constructor; [done | intros s; rewrite <- E; apply H2 | intros s; rewrite <- E; apply H3]. Qed.

Section ends.
Context (hc hs p : Z) (cc cs : ipc_calls.caller) (sd : side).

(** The client is at one end of the ring at [p], the server at the other. *)
Definition ends (rg : ipc.ring) (inbox : side -> list ipc.message) (st : ipc_calls.store) : Prop :=
  serves hc p rg cc sd inbox st /\ serves hs p rg cs (other sd) inbox st.

Lemma serves_update h c s rg rg' inbox inbox' m st :
  serves h p rg c s inbox st -> ring_ok rg' inbox' -> (forall s', owner rg' s' = owner rg s') ->
  serves h p rg' c s inbox' (ipc_calls.mk (ipc_calls.objs st) (<[p := rg']> (ipc_calls.rings st)) m).
Proof. intros Hs OK Hown. split_and!; [by eapply get_ring_same | rewrite Hown; apply Hs | done]. Qed.

Lemma ends_update rg rg' inbox inbox' m st :
  ends rg inbox st -> ring_ok rg' inbox' -> (forall s', owner rg' s' = owner rg s') ->
  ends rg' inbox' (ipc_calls.mk (ipc_calls.objs st) (<[p := rg']> (ipc_calls.rings st)) m).
Proof. intros [H1 H2] OK Hown. split; by eapply serves_update. Qed.
End ends.

(** Sending the bytes of [l], and taking the message on top, at one end. *)
Lemma send_at ring p rg c sd inbox buf l st :
  serves ring p rg c sd inbox st -> l <> [] ->
  exists rg', ipc_calls.send ring buf (Z.of_nat (length l)) c (kbus.with_mem (ipc.write_bytes buf l (ipc_calls.mem st)) st)
      = Ret (true, ipc_calls.mk (ipc_calls.objs st) (<[p := rg']> (ipc_calls.rings st)) (ipc.write_bytes buf l (ipc_calls.mem st))) /\
    ring_ok rg' (put_inbox inbox (other sd) (inbox (other sd) ++ [ipc.mk_message (Z.of_nat (length l)) l])) /\
    (forall s', owner rg' s' = owner rg s').
Proof.
  intros Hs Hl. destruct (Hs) as (Hg & Ht & OK). assert (Hp : 0 < Z.of_nat (length l)) by (destruct l; [done | cbn; lia]).
  destruct (ring_send_ok rg inbox sd buf _ (ipc.write_bytes buf l (ipc_calls.mem st)) OK Hp) as (rg' & Hsend & OK' & Hown & _).
  rewrite print_write_bytes in OK'. exists rg'. split_and!; [| done | done].
  unfold ipc_calls.send, kbus.with_mem. rewrite (get_ring_mem ring p rg c sd inbox) by done. cbn [mbind res_bind ipc_calls.mem].
  by rewrite Ht, Hsend.
Qed.

Lemma receive_at ring p rg c sd inbox msg buf m st :
  serves ring p rg c sd inbox st -> last (inbox sd) = Some msg ->
  ipc_calls.get_message_size ring c st = Ret (Z.of_nat (length (ipc.data msg))) /\
  exists rg', ipc_calls.receive ring buf c (kbus.with_mem m st)
      = Ret (true, ipc_calls.mk (ipc_calls.objs st) (<[p := rg']> (ipc_calls.rings st)) (ipc.write_bytes buf (ipc.data msg) m)) /\
    ring_ok rg' (put_inbox inbox sd (removelast (inbox sd))) /\ (forall s', owner rg' s' = owner rg s').
Proof.
  intros Hs Hl. destruct (Hs) as (Hg & Ht & OK). destruct (ring_refines_ops rg inbox sd OK) as [_ Htop]. rewrite Hl in Htop. split.
  - unfold ipc_calls.get_message_size. rewrite Hg. cbn [mbind res_bind]. by rewrite Ht.
  - assert (Hrec := ring_receive_ok rg inbox sd buf m OK). rewrite Hl in Hrec. destruct Hrec as (rg' & Hrec & OK' & Hown & _).
    exists rg'. split_and!; [| done | done]. unfold ipc_calls.receive, kbus.with_mem. rewrite (get_ring_mem ring p rg c sd inbox) by done.
    cbn [mbind res_bind ipc_calls.mem]. by rewrite Ht, Hrec.
Qed.

Section transactions.
Context `{KbusProtocol} (f : list Z -> list Z) (hc hs p : Z) (cc cs : ipc_calls.caller) (sd : side) (sarray sbuf : Z).

Local Notation answer := (fun _ => answer_one f hs sarray sbuf cs).

(** The answer of the server: the message is taken and the reply is on top. *)
Lemma answer_one_ok rg inbox msg st :
  ends hc hs p cc cs sd rg inbox st -> last (inbox (other sd)) = Some msg -> f (ipc.data msg) <> [] ->
  exists st' rg', answer_one f hs sarray sbuf cs st = Ret st' /\
    ends hc hs p cc cs sd rg' (put_inbox (put_inbox inbox (other sd) (removelast (inbox (other sd)))) sd
      (inbox sd ++ [ipc.mk_message (Z.of_nat (length (f (ipc.data msg)))) (f (ipc.data msg))])) st'.
Proof.
  intros He Hl Hf. destruct (receive_at hs p rg cs (other sd) inbox msg sarray (ipc_calls.mem st) st (proj2 He) Hl) as (Hsz & rg1 & Hrec & OK1 & Hown1).
  unfold answer_one. rewrite Hsz. cbn [mbind res_bind]. replace (kbus.with_mem (ipc_calls.mem st) st) with st in Hrec by (by destruct st).
  rewrite Hrec. cbn [mbind res_bind negb ipc_calls.mem]. rewrite print_write_bytes.
  assert (E1 := ends_update hc hs p cc cs sd rg rg1 inbox _ (ipc.write_bytes sarray (ipc.data msg) (ipc_calls.mem st)) st He OK1 Hown1).
  destruct (send_at hs p rg1 cs (other sd) _ sbuf (f (ipc.data msg)) _ (proj2 E1) Hf) as (rg2 & Hsend & OK2 & Hown2).
  cbn [ipc_calls.mem] in Hsend. rewrite Hsend. cbn [mbind res_bind mret res_ret].
  eexists _, rg2. split; [reflexivity |]. eapply ends_update; [exact E1 | | exact Hown2].
  by destruct sd.
Qed.

(** A whole transaction: the parsed reply of the server to the bytes of the request;
    no message is left over and none is taken that was there before. *)
Lemma transact_ok name q out buf rg inbox st :
  ends hc hs p cc cs sd rg inbox st -> serialize_request q <> [] -> f (serialize_request q) <> [] ->
  exists st' rg', kbus.transact answer name q hc out buf cc st = Ret (inr (parse_response (f (serialize_request q))), st') /\
    ends hc hs p cc cs sd rg' inbox st'.
Proof.
  intros He Hq Hf. destruct (send_at hc p rg cc sd inbox out (serialize_request q) st (proj1 He) Hq) as (rg1 & Hsend & OK1 & Hown1).
  unfold kbus.transact. rewrite Hsend. cbn [mbind res_bind negb].
  assert (E1 := ends_update hc hs p cc cs sd rg rg1 inbox _ (ipc.write_bytes out (serialize_request q) (ipc_calls.mem st)) st He OK1 Hown1).
  destruct (answer_one_ok rg1 _ (ipc.mk_message (Z.of_nat (length (serialize_request q))) (serialize_request q)) _ E1) as (st2 & rg2 & Ha & E2).
  { replace (put_inbox _ _ _ (other sd)) with (inbox (other sd) ++ [ipc.mk_message (Z.of_nat (length (serialize_request q))) (serialize_request q)])
      by (by destruct sd). apply last_snoc. }
  { exact Hf. }
  rewrite Ha. cbn [mbind res_bind]. cbn [ipc.data] in E2. set (reply := f (serialize_request q)) in *.
  destruct (receive_at hc p rg2 cc sd _ (ipc.mk_message (Z.of_nat (length reply)) reply) buf
    (ipc.write_bytes buf (replicate (Z.to_nat (Z.of_nat (length reply))) 0) (ipc_calls.mem st2)) st2 (proj1 E2)) as (Hsz & rg3 & Hrec & OK3 & Hown3).
  { destruct sd; cbn; apply last_snoc. }
  rewrite Hsz. cbn [mbind res_bind ipc.data] in *. rewrite Hrec. cbn [mbind res_bind negb ipc_calls.mem mret res_ret].
  rewrite print_write_bytes. eexists _, rg3. split; [reflexivity |].
  eapply ends_update; [exact E2 | | exact Hown3]. eapply ring_ok_ext; [| exact OK3].
  intros s. destruct sd, s; cbn; rewrite ?removelast_last; done.
Qed.

Definition reply (q : request) : response := parse_response (f (serialize_request q)).

(** A call of which [value] is the result field returns that field of the reply. *)
Lemma call_ok {A} (none : A) field (value : response -> option A) name q out buf rg inbox st a :
  ends hc hs p cc cs sd rg inbox st -> serialize_request q <> [] -> f (serialize_request q) <> [] ->
  r_status (reply q) = Some Success -> value (reply q) = Some a ->
  exists st' rg', (x ← kbus.transact answer name q hc out buf cc st; kbus.conclude none field value x) = Ret (a, [], st') /\
    ends hc hs p cc cs sd rg' inbox st'.
Proof.
  intros He Hq Hf Hs Hv. destruct (transact_ok name q out buf rg inbox st He Hq Hf) as (st' & rg' & Ht & E').
  exists st', rg'. split; [| exact E']. rewrite Ht. cbn [mbind res_bind]. unfold kbus.conclude. fold (reply q). rewrite Hs, Hv, Z.eqb_refl. done.
Qed.

(** A reply without the field gives the value for failures and one message. *)
Lemma call_missing {A} (none : A) field (value : response -> option A) name q out buf rg inbox st :
  ends hc hs p cc cs sd rg inbox st -> serialize_request q <> [] -> f (serialize_request q) <> [] ->
  r_status (reply q) = None \/ value (reply q) = None ->
  exists st' rg' msg, (x ← kbus.transact answer name q hc out buf cc st; kbus.conclude none field value x) = Ret (none, [msg], st') /\
    ends hc hs p cc cs sd rg' inbox st'.
Proof.
  intros He Hq Hf Hv. destruct (transact_ok name q out buf rg inbox st He Hq Hf) as (st' & rg' & Ht & E').
  exists st', rg'. rewrite Ht. cbn [mbind res_bind]. unfold kbus.conclude. fold (reply q).
  destruct (r_status (reply q)) as [s |], (value (reply q)) as [a |]; try (eexists; split; [reflexivity | exact E']). by destruct Hv.
Qed.
End transactions.

(** ** Theorems *)

(** The calls of the message bus over a ring between the client and a server, each of
    which may have other messages waiting.  Against a server that answers requests
    with [f], a new object has the number that the server gives it, a search returns
    the objects of the answer, attributes are read and written with the key and value
    of the call; every call takes exactly its own answer and leaves the waiting
    messages as they are.  An answer without the field is a failure. *)
Theorem kbus_calls `{KbusProtocol} (f : list Z -> list Z) (hc hs p : Z) (cc cs : ipc_calls.caller) (sd : side)
    (sarray sbuf out buf : Z) (rg : ipc.ring) (inbox : side -> list ipc.message) (st : ipc_calls.store) (id : Z) (query key value : list Z) :
  let srv := fun _ => answer_one f hs sarray sbuf cs in
  let says q := parse_response (f (serialize_request q)) in
  let done (st' : ipc_calls.store) := exists rg', ends hc hs p cc cs sd rg' inbox st' in
  ends hc hs p cc cs sd rg inbox st ->
  (forall q, serialize_request q <> [] /\ f (serialize_request q) <> []) ->
  (forall q, r_status (says q) = Some Success) ->
  (forall d, r_device (says kbus.create_request) = Some d ->
     exists st', kbus.allocate_object hc srv 0 out buf cc st = Ret (d, [], st') /\ done st') /\
  (forall l, r_results (says (kbus.find_request query)) = Some l ->
     exists st', kbus.find_devices hc srv query 0 out buf cc st = Ret (l, [], st') /\ done st') /\
  (forall v, r_value (says (kbus.get_request id key)) = Some v ->
     exists st', kbus.get_attribute hc srv id key 0 out buf cc st = Ret (v, [], st') /\ done st') /\
  (exists st', kbus.set_attribute hc srv id key value 0 out buf cc st = Ret (tt, [], st') /\ done st') /\
  (r_device (says kbus.create_request) = None ->
     exists st' msg, kbus.allocate_object hc srv 0 out buf cc st = Ret (u64_max, [msg], st') /\ done st').
Proof.
  intros srv says done He Hne Hs. unfold kbus.allocate_object, kbus.find_devices, kbus.get_attribute, kbus.set_attribute. cbn [kbus.get_kbus_ring Z.eqb].
  split_and!.
  - intros d Hd. destruct (call_ok f hc hs p cc cs sd sarray sbuf u64_max "device" r_device "CreateDevice" kbus.create_request out buf rg inbox st d)
      as (st' & rg' & H1 & H2); [done | apply Hne | apply Hne | apply Hs | done |]. exists st'. split; [exact H1 | by exists rg'].
  - intros l Hd. destruct (call_ok f hc hs p cc cs sd sarray sbuf [] "results" r_results "FindDevices" (kbus.find_request query) out buf rg inbox st l)
      as (st' & rg' & H1 & H2); [done | apply Hne | apply Hne | apply Hs | done |]. exists st'. split; [exact H1 | by exists rg'].
  - intros v Hd. destruct (call_ok f hc hs p cc cs sd sarray sbuf [] "value" r_value "GetAttribute" (kbus.get_request id key) out buf rg inbox st v)
      as (st' & rg' & H1 & H2); [done | apply Hne | apply Hne | apply Hs | done |]. exists st'. split; [exact H1 | by exists rg'].
  - destruct (call_ok f hc hs p cc cs sd sarray sbuf tt "" (fun _ => Some tt) "AddAttribute" (kbus.set_request id key value) out buf rg inbox st tt)
      as (st' & rg' & H1 & H2); [done | apply Hne | apply Hne | apply Hs | done |]. exists st'. split; [exact H1 | by exists rg'].
  - intros Hd. destruct (call_missing f hc hs p cc cs sd sarray sbuf u64_max "device" r_device "CreateDevice" kbus.create_request out buf rg inbox st)
      as (st' & rg' & msg & H1 & H2); [done | apply Hne | apply Hne | by right |]. exists st', msg. split; [exact H1 | by exists rg'].
Qed.

(** A call that is woken up before the server answers: without a message it fails
    with a report, and a message that was already waiting is taken for the answer. *)
Theorem kbus_woken_early `{KbusProtocol} (hc p : Z) (c : ipc_calls.caller) (sd : side) (out buf : Z)
    (rg : ipc.ring) (inbox : side -> list ipc.message) (st : ipc_calls.store) :
  serves hc p rg c sd inbox st -> serialize_request kbus.create_request <> [] ->
  match last (inbox sd) with
  | None => exists st', kbus.allocate_object hc (fun _ => Ret) 0 out buf c st = Ret (u64_max, ["libkbus: Failed to receive CreateDevice response"%string], st')
  | Some msg => forall d, r_status (parse_response (ipc.data msg)) = Some Success -> r_device (parse_response (ipc.data msg)) = Some d ->
      exists st', kbus.allocate_object hc (fun _ => Ret) 0 out buf c st = Ret (d, [], st')
  end.
Proof.
  intros Hs Hq. destruct (send_at hc p rg c sd inbox out _ st Hs Hq) as (rg1 & Hsend & OK1 & Hown1).
  unfold kbus.allocate_object, kbus.transact. cbn [kbus.get_kbus_ring Z.eqb]. rewrite Hsend. cbn [mbind res_bind negb].
  assert (S1 := serves_update p hc c sd rg rg1 inbox _ (ipc.write_bytes out (serialize_request kbus.create_request) (ipc_calls.mem st)) st Hs OK1 Hown1).
  set (st1 := ipc_calls.mk _ _ _) in *. set (inbox1 := put_inbox inbox _ _) in *. assert (Hin : inbox1 sd = inbox sd) by (by destruct sd).
  destruct (last (inbox sd)) as [msg |] eqn:E.
  - intros d Hst Hd. rewrite <- Hin in E.
    destruct (receive_at hc p rg1 c sd inbox1 msg buf (ipc.write_bytes buf (replicate (Z.to_nat (Z.of_nat (length (ipc.data msg)))) 0) (ipc_calls.mem st1)) st1 S1 E)
      as (Hsz & rg2 & Hrec & _ & _).
    rewrite Hsz. cbn [mbind res_bind]. rewrite Hrec. cbn [mbind res_bind negb ipc_calls.mem mret res_ret]. rewrite print_write_bytes.
    unfold kbus.conclude. rewrite Hst, Hd, Z.eqb_refl. eexists. reflexivity.
  - destruct (S1) as (Hg & Ht & OK). destruct (ring_refines_ops rg1 inbox1 sd OK) as [_ Htop]. rewrite Hin, E in Htop.
    unfold ipc_calls.get_message_size. rewrite Hg. cbn [mbind res_bind]. rewrite Ht, Htop. cbn [mbind res_bind].
    unfold ipc_calls.receive, kbus.with_mem. rewrite (get_ring_mem hc p rg1 c sd inbox1) by done. cbn [mbind res_bind ipc_calls.mem]. rewrite Ht.
    assert (Hrec := ring_receive_ok rg1 inbox1 sd buf (ipc.write_bytes buf (replicate (Z.to_nat 0) 0) (ipc_calls.mem st1)) OK). rewrite Hin, E in Hrec.
    rewrite Hrec. cbn. eexists. reflexivity.
Qed.

(** ** Witnesses *)

(** One byte for each field of a request; the server says success and repeats the
    request. *)
#[export] Instance kbus_example : KbusProtocol := {|
  serialize_request q := [q_command q; default 0 (q_device q)] ++ default [] (q_query q) ++ default [] (q_key q) ++ default [] (q_value q);
  parse_response l := mk_response (head l) (l !! 2%nat) (Some (drop 3 l)) (Some (drop 3 l));
  CreateDevice := 1; FindDevices := 2; GetAttribute := 3; AddAttribute := 4; Success := 0 |}.

Definition kbus_store_example : ipc_calls.store :=
  ipc_calls.mk {[ 0x900 := handles.ipc_ring_handle 0x180 ]} {[ 0x180 := ipc.new_ring 1 2 ]} (fun _ => 0).

Lemma kbus_ends_example :
  ends 0 0 0x180 (ipc_calls.mk_caller 1 vfs_cat_example) (ipc_calls.mk_caller 2 vfs_cat_example) A (ipc.new_ring 1 2) (fun _ => []) kbus_store_example.
Proof. split; (split; [vm_compute; reflexivity | split; [reflexivity | apply new_ring_ok; discriminate]]). Qed.

Lemma kbus_calls_witness :
  exists st', kbus.find_devices 0 (fun _ => answer_one (cons 0) 0 0x2000 0x3000 (ipc_calls.mk_caller 2 vfs_cat_example)) [7; 8] 0 0x4000 0x5000
    (ipc_calls.mk_caller 1 vfs_cat_example) kbus_store_example = Ret ([7; 8], [], st').
Proof.
  destruct (kbus_calls (cons 0) 0 0 0x180 (ipc_calls.mk_caller 1 vfs_cat_example) (ipc_calls.mk_caller 2 vfs_cat_example) A 0x2000 0x3000 0x4000 0x5000
    (ipc.new_ring 1 2) (fun _ => []) kbus_store_example 0 [7; 8] [] [] kbus_ends_example) as (_ & H & _).
  - intros q. split; intros E; cbn in E; discriminate.
  - intros q. reflexivity.
  - destruct (H [7; 8]) as (st' & Hr & _); [reflexivity |]. exists st'. exact Hr.
Defined.

Lemma kbus_woken_early_witness :
  exists st', kbus.allocate_object 0 (fun _ => Ret) 0 0x4000 0x5000 (ipc_calls.mk_caller 1 vfs_cat_example) kbus_store_example =
    Ret (u64_max, ["libkbus: Failed to receive CreateDevice response"%string], st').
Proof.
  assert (Hn : serialize_request kbus.create_request <> []) by (intros E; cbn in E; discriminate).
  exact (kbus_woken_early 0 0x180 (ipc_calls.mk_caller 1 vfs_cat_example) A 0x4000 0x5000 (ipc.new_ring 1 2) (fun _ => []) kbus_store_example
    (proj1 kbus_ends_example) Hn).
Defined.
