(* ===== verification/Process.v ===== *)
(** * Process: threads and the scheduler

    Models source/proc/process.cpp and include/Sigma/proc/process.h.  Entries of
    [thread_list] are never removed, so a thread pointer is the position of the
    thread in the list; a CPU is its position in [cpus].  Registers, the address
    space, FS base and SIMD state of the CPU that runs the code are explicit
    ([registers], [hw]).  The definitions are what one CPU does; where the code gives
    up its locks within an operation, the parts are definitions of their own
    ([block_mark], [switch_to], [kill_thread]), which Scheduler.v interleaves with
    those of the other CPUs.  The contents of kernel stacks are not
    modelled; the memory of drivers is in Regions.v, the SIMD state on the heap in
    Simd.v. *)

From S2P Require Import Prelude Bits Klibc Containers Frames Pmm Paging Ipc.

(** The save area of the SIMD registers, as a little-endian number. *)
Module simd.
Definition bits (l : list Z) : Z := fold_left (fun a n => Z.lor a (Z.shiftl 1 n)) l 0.

(** The area [simd::init] prepares and [simd_state::init] copies: the control
    word at offset 0 and [mxcsr] at offset 24 of the legacy area. *)
Definition default_state : Z :=
  let fcw := Z.lor (bits [0; 1; 2; 3; 4; 5]) (bits [8; 9]) in
  let mxcsr := bits [7; 8; 9; 10; 11; 12] in
  Z.lor fcw (Z.shiftl mxcsr (8 * 24)).
End simd.

Module process.

(** The general, control and segment registers of an interrupt frame. *)
Record registers := mk_regs {
  rax : Z; rbx : Z; rcx : Z; rdx : Z; rsi : Z; rdi : Z; rbp : Z; rsp : Z;
  r8 : Z; r9 : Z; r10 : Z; r11 : Z; r12 : Z; r13 : Z; r14 : Z; r15 : Z;
  rip : Z; rflags : Z; ss : Z; ds : Z; cs : Z }.

Definition zero_regs : registers := mk_regs 0 0 0 0 0 0 0 0 0 0 0 0 0 0 0 0 0 0 0 0 0.

(** [thread_context]: the registers, CR3, FS base and the SIMD state. *)
Record thread_context := mk_ctx { regs : registers; cr3 : Z; fs : Z; simd_state : Z }.
Definition empty_context : thread_context := mk_ctx zero_regs 0 0 simd.default_state.

Definition default_stack_top : Z := 0x800000000.
Definition mmap_top : Z := 0x7FFFFFFFFFFF.
Definition mmap_bottom : Z := 0x900000000.
Record thread_image := mk_image { stack_top : Z; stack_bottom : Z }.
Definition new_image : thread_image := mk_image default_stack_top default_stack_top.

Inductive thread_state := DISABLED | IDLE | RUNNING | BLOCKED | SILENT.
Inductive thread_privilege_level := APPLICATION | DRIVER | KERNEL.

#[export] Instance thread_state_eq_dec : EqDecision thread_state.
Proof. solve_decision. Defined.

(** [vmm]: the [paging_info] of the thread's address space; [event]: the address
    of the event it waits for; [frames]: [resources.frames]. *)
Record thread := mk_thread {
  context : thread_context; frames : list Z; image : thread_image; state : thread_state;
  privilege : thread_privilege_level; vmm : Z; tid : Z; event : Z;
  handle_catalogue : handles.handle_catalogue }.

(** [thread()]. *)
Definition new_thread : thread :=
  mk_thread empty_context [] new_image DISABLED APPLICATION 0 0 0 handles.create.

Definition set_state (s : thread_state) (t : thread) : thread :=
  mk_thread (context t) (frames t) (image t) s (privilege t) (vmm t) (tid t) (event t) (handle_catalogue t).
Definition set_context (c : thread_context) (t : thread) : thread :=
  mk_thread c (frames t) (image t) (state t) (privilege t) (vmm t) (tid t) (event t) (handle_catalogue t).
Definition set_event (e : Z) (t : thread) : thread :=
  mk_thread (context t) (frames t) (image t) (state t) (privilege t) (vmm t) (tid t) e (handle_catalogue t).
Definition set_privilege (p : thread_privilege_level) (t : thread) : thread :=
  mk_thread (context t) (frames t) (image t) (state t) p (vmm t) (tid t) (event t) (handle_catalogue t).
Definition set_vmm (v : Z) (t : thread) : thread :=
  mk_thread (context t) (frames t) (image t) (state t) (privilege t) v (tid t) (event t) (handle_catalogue t).
Definition set_image (i : thread_image) (t : thread) : thread :=
  mk_thread (context t) (frames t) i (state t) (privilege t) (vmm t) (tid t) (event t) (handle_catalogue t).
Definition set_frames (f : list Z) (t : thread) : thread :=
  mk_thread (context t) f (image t) (state t) (privilege t) (vmm t) (tid t) (event t) (handle_catalogue t).
Definition set_tid (n : Z) (t : thread) : thread :=
  mk_thread (context t) (frames t) (image t) (state t) (privilege t) (vmm t) n (event t) (handle_catalogue t).
Definition set_handles (h : handles.handle_catalogue) (t : thread) : thread :=
  mk_thread (context t) (frames t) (image t) (state t) (privilege t) (vmm t) (tid t) (event t) h.

Record managed_cpu := mk_cpu { lapic_id : Z; enabled : bool; current_thread : option nat }.

(** The CPU the code runs on: CR3 (the physical address of the table; with
    process-context identifiers, modelled in Pcid.v, it also has the identifier),
    FS base and SIMD registers. *)
Record hw := mk_hw { hw_cr3 : Z; hw_fs : Z; hw_simd : Z }.

Section ops.
Context {S : Type} `{FA : FrameAllocator S}.

(** The statics of process.cpp, the events by address, and the machine. *)
Record sys := mk {
  threads : list thread; current_thread_list_offset : Z; cpus : list managed_cpu;
  scheduling_queue : queue.t Z; events : gmap Z Z;
  kern : paging.kernel S; kernel_info : Z }.

Definition set_threads (l : list thread) (s : sys) : sys :=
  mk l (current_thread_list_offset s) (cpus s) (scheduling_queue s) (events s) (kern s) (kernel_info s).
Definition set_cpus (l : list managed_cpu) (s : sys) : sys :=
  mk (threads s) (current_thread_list_offset s) l (scheduling_queue s) (events s) (kern s) (kernel_info s).
Definition set_queue (q : queue.t Z) (s : sys) : sys :=
  mk (threads s) (current_thread_list_offset s) (cpus s) q (events s) (kern s) (kernel_info s).
Definition set_events (e : gmap Z Z) (s : sys) : sys :=
  mk (threads s) (current_thread_list_offset s) (cpus s) (scheduling_queue s) e (kern s) (kernel_info s).
Definition set_kern (k : paging.kernel S) (s : sys) : sys :=
  mk (threads s) (current_thread_list_offset s) (cpus s) (scheduling_queue s) (events s) k (kernel_info s).

(** [thread->field = ...] through a thread pointer. *)
Definition upd (i : nat) (f : thread -> thread) (s : sys) : sys := set_threads (alter f i (threads s)) s.
Definition set_current (c : nat) (t : option nat) (s : sys) : sys :=
  set_cpus (alter (fun e => mk_cpu (lapic_id e) (enabled e) t) c (cpus s)) s.

(** [get_current_managed_cpu]: the position of the CPU with this APIC id. *)
Definition get_current_managed_cpu (apic_id : Z) (s : sys) : option nat :=
  fst <$> list_find (fun e => lapic_id e = apic_id) (cpus s).

(** *** Scheduling *)

Definition check_thread (i : nat) (s : sys) : res (bool * sys) :=
  t ← access (threads s !! i);
  match state t with
  | IDLE => mret (true, s)
  | BLOCKED =>
      count ← access (events s !! event t);
      let '(triggered, count) := event.has_triggered count in
      let s := set_events (<[event t := count]> (events s)) s in
      mret (triggered, if triggered : bool then upd i (set_state IDLE) s else s)
  | _ => mret (false, s)
  end.

(** A loop over [n] entries of [thread_list] from position [i]. *)
Fixpoint check_range (n i : nat) (s : sys) : res (option nat * sys) :=
  match n with
  | O => mret (None, s)
  | Datatypes.S n =>
      '(ok, s) ← check_thread i s;
      if ok : bool then mret (Some i, s) else check_range n (Datatypes.S i) s
  end.

Definition round_robin (current : option nat) (s : sys) : res (option nat * sys) :=
  match current with
  | None => check_range (length (threads s)) 0 s
  | Some cur =>
      if decide (cur < length (threads s))%nat then
        '(r, s) ← check_range (length (threads s) - cur) cur s;
        match r with Some i => mret (Some i, s) | None => check_range cur 0 s end
      else mret (None, s)
  end.

Definition schedule (current : option nat) (s : sys) : res (option nat * sys) :=
  if decide (1 <= queue.length (scheduling_queue s))%nat then
    '(id, q) ← queue.pop (scheduling_queue s);
    let s := set_queue q s in
    match list_find (fun t => tid t = id) (threads s) with
    | Some (i, _) => mret (Some i, s)
    | None => Panic "Couldn't find thread referenced in queue"
    end
  else round_robin current s.

(** *** Context switching *)

Definition save_context (r : registers) (h : hw) (t : thread) : thread :=
  set_context (mk_ctx
    (mk_regs (rax r) (rbx r) (rcx r) (rdx r) (rsi r) (rdi r) (rbp r) (rsp r)
             (r8 r) (r9 r) (r10 r) (r11 r) (r12 r) (r13 r) (r14 r) (r15 r)
             (rip r) (rflags r) (ss r) (ds r) (cs r))
    (hw_cr3 h) (hw_fs h) (hw_simd h)) t.

Definition load_registers (c : thread_context) : registers :=
  let r := regs c in
  mk_regs (rax r) (rbx r) (rcx r) (rdx r) (rsi r) (rdi r) (rbp r) (rsp r)
          (r8 r) (r9 r) (r10 r) (r11 r) (r12 r) (r13 r) (r14 r) (r15 r)
          (rip r) (rflags r) (ss r) (ds r) (cs r).

(** [switch_context]: the new frame and CPU state; [vmm.set()] loads the address
    space of the new thread. *)
Definition switch_context (r : registers) (h : hw) (new : nat) (old : option nat) (s : sys)
  : res (registers * hw * sys) :=
  let s := match old with Some o => upd o (save_context r h) s | None => s end in
  n ← access (threads s !! new);
  same ← (match old with
          | Some o => t ← access (threads s !! o); mret (cr3 (context t) =? cr3 (context n))
          | None => mret false
          end);
  mret (load_registers (context n),
        mk_hw (if same : bool then hw_cr3 h else to_phys (vmm n)) (fs (context n)) (simd_state (context n)), s).

(** How an interrupt handler ends: in the frame of a thread, or in the idle loop. *)
Inductive outcome := Resume (r : registers) (h : hw) | Idle (h : hw).

Definition idle_cpu (r : registers) (h : hw) (c : nat) (s : sys) : res (outcome * sys) :=
  cpu ← access (cpus s !! c);
  let s := match current_thread cpu with
           | Some t =>
               let s := upd t (save_context r h) s in
               let s := upd t (fun t => if decide (state t = RUNNING) then set_state IDLE t else t) s in
               set_current c None s
           | None => s
           end in
  mret (Idle (mk_hw (to_phys (kernel_info s)) (hw_fs h) (hw_simd h)), s).

(** The rest of [timer_handler] after [schedule] chose [new] on CPU [c], whose
    thread was [old]. *)
Definition switch_to (c : nat) (old new : option nat) (r : registers) (h : hw) (s : sys) : res (outcome * sys) :=
  match new with
  | None => idle_cpu r h c s
  | Some new =>
      '(r, h, s) ← switch_context r h new old s;
      let s := match old with
               | Some o => upd o (fun t => if decide (state t = RUNNING) then set_state IDLE t else t) s
               | None => s
               end in
      let s := set_current c (Some new) s in
      mret (Resume r h, upd new (set_state RUNNING) s)
  end.

(** [timer_handler] on the CPU with this APIC id, without the other CPUs; [None]
    when the CPU is not managed. *)
Definition timer_handler (apic_id : Z) (r : registers) (h : hw) (s : sys) : res (outcome * sys) :=
  match get_current_managed_cpu apic_id s with
  | None => mret (Resume r h, s)
  | Some c =>
      cpu ← access (cpus s !! c);
      let old := current_thread cpu in
      '(new, s) ← schedule old s;
      switch_to c old new r h s
  end.

Definition yield := timer_handler.

(** [thread::block] gives up its locks between [block_mark] and the switch; [block]
    is the call without the other CPUs, the relation [step] below lets them run in
    between. *)
Definition block_mark (i : nat) (await : Z) (s : sys) : sys :=
  upd i (fun t => set_state BLOCKED (set_event await t)) s.
Definition block (i : nat) (await : Z) (apic_id : Z) (r : registers) (h : hw) (s : sys) : res (outcome * sys) :=
  timer_handler apic_id r h (block_mark i await s).

Definition wake (i : nat) (s : sys) : sys := upd i (set_state IDLE) s.
Definition is_blocked (i : nat) (s : sys) : res bool :=
  t ← access (threads s !! i); mret (bool_decide (state t = BLOCKED)).

(** *** Creation *)

Definition kernel_code_selector : Z := 0x08.
Definition kernel_data_selector : Z := 0x0.
Definition user_code_selector : Z := 0x10.
Definition user_data_selector : Z := 0x18.

(** The register part of [create_thread_int]. *)
Definition initial_regs (p : thread_privilege_level) : registers :=
  let rf := Z.lor (Z.shiftl 1 1) (Z.shiftl 1 9) in
  let frame rf ss ds cs := mk_regs 0 0 0 0 0 0 0 0 0 0 0 0 0 0 0 0 0 rf ss ds cs in
  let user rf := frame rf (Z.lor user_data_selector 3) (Z.lor user_data_selector 3) (Z.lor user_code_selector 3) in
  match p with
  | KERNEL => frame rf kernel_data_selector kernel_data_selector kernel_code_selector
  | DRIVER => user (Z.lor rf (Z.lor (Z.shiftl 1 12) (Z.shiftl 1 13)))
  | APPLICATION => user rf
  end.

Definition create_thread_int (i : nat) (p : thread_privilege_level) (st : thread_state) (s : sys) : sys :=
  upd i (fun t =>
    let t := set_handles handles.create t in
    let t := set_context (mk_ctx (initial_regs p) 0 0 simd.default_state) t in
    set_state st (set_privilege p t)) s.

Definition create_blocked_thread (p : thread_privilege_level) (s : sys) : nat * sys :=
  match list_find (fun t => state t = DISABLED) (threads s) with
  | Some (i, _) => (i, create_thread_int i p SILENT s)
  | None =>
      let i := length (threads s) in
      let t := set_tid (current_thread_list_offset s) new_thread in
      let s := mk (threads s ++ [t]) (u64 (current_thread_list_offset s + 1)) (cpus s)
                  (scheduling_queue s) (events s) (kern s) (kernel_info s) in
      (i, create_thread_int i p SILENT s)
  end.

Definition set_regs (f : registers -> registers) (t : thread) : thread :=
  set_context (mk_ctx (f (regs (context t))) (cr3 (context t)) (fs (context t)) (simd_state (context t))) t.
Definition set_cr3 (v : Z) (t : thread) : thread :=
  set_context (mk_ctx (regs (context t)) v (fs (context t)) (simd_state (context t))) t.

(** [make_kernel_thread]: [trampoline] and [stack] are the addresses of the
    trampoline function and of the top of the thread's kernel stack. *)
Definition make_kernel_thread (trampoline stack function userptr : Z) (i : nat) (s : sys) : res sys :=
  t ← access (threads s !! i);
  '(info, k) ← paging.clone_paging_info (kernel_info s) (vmm t) (kern s);
  mret (upd i (fun t =>
    let t := set_cr3 (to_phys info) (set_vmm info t) in
    let t := set_regs (fun r =>
      mk_regs (rax r) (rbx r) (rcx r) (rdx r) userptr function (rbp r) stack
              (r8 r) (r9 r) (r10 r) (r11 r) (r12 r) (r13 r) (r14 r) (r15 r)
              trampoline (rflags r) (ss r) (ds r) (cs r)) t in
    set_state IDLE (set_privilege KERNEL t)) (set_kern k s)).

(** [thread_for_tid], [block_thread], [wake_thread] and [is_blocked] by thread id. *)
Definition thread_for_tid (id : Z) (s : sys) : option nat :=
  fst <$> list_find (fun t => tid t = id) (threads s).

Definition get_current_thread (apic_id : Z) (s : sys) : res (option nat) :=
  c ← access (get_current_managed_cpu apic_id s);
  cpu ← access (cpus s !! c);
  mret (current_thread cpu).

Definition get_current_tid (apic_id : Z) (s : sys) : res Z :=
  cur ← get_current_thread apic_id s;
  i ← access cur;
  t ← access (threads s !! i);
  mret (tid t).

Definition block_thread (id await apic_id : Z) (r : registers) (h : hw) (s : sys) : res (outcome * sys) :=
  i ← access (thread_for_tid id s); block i await apic_id r h s.
Definition wake_thread (id : Z) (s : sys) : res sys :=
  i ← access (thread_for_tid id s); mret (wake i s).
Definition is_blocked_tid (id : Z) (s : sys) : res bool :=
  i ← access (thread_for_tid id s); is_blocked i s.

(** *** Termination and fork *)

Fixpoint free_frames (l : list Z) (k : paging.kernel S) : res (paging.kernel S) :=
  match l with
  | [] => mret k
  | f :: l => k ← paging.free_frame f k; free_frames l k
  end.

(** The part of [kill] under [scheduler_mutex]; [resources.frames] keeps the freed
    frames. *)
Definition kill_thread (apic_id : Z) (s : sys) : res (nat * sys) :=
  c ← access (get_current_managed_cpu apic_id s);
  cpu ← access (cpus s !! c);
  i ← access (current_thread cpu);
  t ← access (threads s !! i);
  k ← free_frames (frames t) (kern s);
  k ← paging.deinit (vmm t) k;
  '(info, k) ← paging.init (vmm t) k;
  let s := upd i (fun t =>
    let t := set_context empty_context (set_state DISABLED t) in
    set_vmm info (set_image new_image (set_privilege APPLICATION t))) (set_kern k s) in
  mret (c, set_current c None s).

(** [kill] without the other CPUs: [idle_cpu] runs after the mutex is given up. *)
Definition kill (apic_id : Z) (r : registers) (h : hw) (s : sys) : res (outcome * sys) :=
  '(c, s) ← kill_thread apic_id s; idle_cpu r h c s.

Definition set_rax (v : Z) (r : registers) : registers :=
  mk_regs v (rbx r) (rcx r) (rdx r) (rsi r) (rdi r) (rbp r) (rsp r)
          (r8 r) (r9 r) (r10 r) (r11 r) (r12 r) (r13 r) (r14 r) (r15 r)
          (rip r) (rflags r) (ss r) (ds r) (cs r).

(** [fork]: returns the thread id of the child. *)
Definition fork (apic_id : Z) (r : registers) (h : hw) (s : sys) : res (Z * sys) :=
  cur ← get_current_thread apic_id s;
  match cur with
  | None => mret (0, s)
  | Some parent =>
      pt ← access (threads s !! parent);
      let '(child, s) := create_blocked_thread (privilege pt) s in
      let s := upd parent (save_context r h) s in
      pt ← access (threads s !! parent);
      ct ← access (threads s !! child);
      '(info, child_frames, k) ← paging.fork_address_space (vmm pt) (kernel_info s) (vmm ct) (frames ct) (kern s);
      let s := upd child (fun t =>
        let t := set_image (image pt) (set_context (context pt) t) in
        let t := set_frames child_frames (set_vmm info t) in
        set_regs (set_rax 0) (set_cr3 (to_phys info) t)) (set_kern k s) in
      mret (tid ct, wake child s)
  end.

(** *** Memory of a thread *)

(** [memset_aligned_4k] of a user page through the active address space
    [active]: a page that is not mapped there faults. *)
Definition zero_user_page (active virt : Z) (k : paging.kernel S) : res (paging.kernel S) :=
  match paging.find_entry active virt k with
  | Some (_, e) => mret (paging.mk (paging.frames k) (zero_frame (paging.mem k) (get_frame e)))
  | None => Panic "Page fault"
  end.

Definition stack_flags : Z :=
  Z.lor (Z.lor (Z.lor map_page_flags_present map_page_flags_writable) map_page_flags_user)
        map_page_flags_no_execute.

Definition expand_thread_stack (active : Z) (pages : nat) (i : nat) (s : sys) : res sys :=
  for_loop pages 0 (fun _ s =>
    t ← access (threads s !! i);
    '(phys, fr) ← fa_alloc (paging.frames (kern s));
    if phys =? 0 then Panic "Couldn't allocate extra pages for thread stack"
    else
      let bottom := u64 (stack_bottom (image t) - block_size) in
      k ← paging.map_page (vmm t) phys bottom stack_flags normal (paging.mk fr (paging.mem (kern s)));
      k ← zero_user_page active bottom k;
      mret (upd i (fun t => set_image (mk_image (stack_top (image t)) bottom) (set_frames (frames t ++ [phys]) t))
                (set_kern k s))) s.

Definition PROT_READ : Z := 1.
Definition PROT_WRITE : Z := 2.
Definition PROT_EXEC : Z := 4.

Definition prot_flags (prot : Z) : Z :=
  Z.lor (Z.lor (Z.lor (if Z.land prot PROT_READ =? 0 then 0 else map_page_flags_present)
                      (if Z.land prot PROT_WRITE =? 0 then 0 else map_page_flags_writable))
               (if Z.land prot PROT_EXEC =? 0 then map_page_flags_no_execute else 0))
        map_page_flags_user.

(** The loop of [map_anonymous]. *)
Fixpoint map_pages (n : nat) (active : Z) (allocate_phys : bool) (virt phys map_flags : Z) (i : nat) (s : sys) : res sys :=
  match n with
  | O => mret s
  | Datatypes.S n =>
      t ← access (threads s !! i);
      s ← (if allocate_phys then
             '(block, fr) ← fa_alloc (paging.frames (kern s));
             if block =? 0 then Panic "Couldn't allocate pages for map_anonymous"
             else
               k ← paging.map_page (vmm t) block virt map_flags normal (paging.mk fr (paging.mem (kern s)));
               k ← zero_user_page active virt k;
               mret (upd i (fun t => set_frames (frames t ++ [block]) t) (set_kern k s))
           else
             k ← paging.map_page (vmm t) phys virt map_flags normal (kern s);
             mret (set_kern k s));
      map_pages n active allocate_phys (u64 (virt + block_size)) (u64 (phys + block_size)) map_flags i s
  end.

(** [map_anonymous]: a null [virt_base] asks for a free range; the search never
    returns null, on failure it is -1.  [fuel] bounds the search. *)
Definition map_anonymous (fuel : nat) (active size virt_base phys_base prot : Z) (i : nat) (s : sys) : res (Z * sys) :=
  t ← access (threads s !! i);
  virt_base ← (if virt_base =? 0 then paging.get_free_range fuel (vmm t) mmap_bottom mmap_top size (kern s)
               else mret virt_base);
  if virt_base =? 0 then mret (0, s)
  else
    s ← map_pages (Z.to_nat (div_ceil size block_size)) active (phys_base =? 0) virt_base phys_base (prot_flags prot) i s;
    mret (virt_base, s).

(** [set_fsbase]. *)
Definition set_fsbase (v : Z) (i : nat) (h : hw) (s : sys) : res (hw * sys) :=
  if is_canonical v then
    mret (mk_hw (hw_cr3 h) v (hw_simd h),
          upd i (fun t => set_context (mk_ctx (regs (context t)) (cr3 (context t)) v (simd_state (context t))) t) s)
  else Panic "Tried to set non canonical FS for thread".

(** *** Initialisation *)

(** [init_multitasking] with the APIC ids of the MADT. *)
Definition init_multitasking (apic_ids : list Z) (s : sys) : sys :=
  let i := length (threads s) in
  let t := set_state SILENT (set_tid (current_thread_list_offset s) new_thread) in
  mk (threads s ++ [t]) (u64 (current_thread_list_offset s + 1))
     ((fun id => mk_cpu id false None) <$> apic_ids) (scheduling_queue s) (events s) (kern s) (kernel_info s).

(** [init_cpu]: the CPU starts with the kernel's thread. *)
Definition init_cpu (apic_id : Z) (kernel_thread : nat) (s : sys) : sys :=
  match get_current_managed_cpu apic_id s with
  | Some c => set_cpus (alter (fun e => mk_cpu (lapic_id e) true (Some kernel_thread)) c (cpus s)) s
  | None => s
  end.
End ops.
Arguments sys S : clear implicits.
End process.
Export (hints) process.

(** ** Specification *)

Section spec.
Import process.
Context {S : Type}.
Implicit Types s : sys S.

Definition cur s (c : nat) : option nat := cpus s !! c ≫= current_thread.

(** A thread that the scheduler may pick: idle, or blocked on a triggered event. *)
Definition ready s (i : nat) : bool :=
  match threads s !! i with
  | Some t =>
      match state t with
      | IDLE => true
      | BLOCKED => match events s !! event t with Some n => negb (n =? 0) | None => false end
      | _ => false
      end
  | None => false
  end.

(** What picking a ready thread changes: a blocked one uses up its event. *)
Definition pick (i : nat) s : sys S :=
  match threads s !! i with
  | Some t =>
      match state t, events s !! event t with
      | BLOCKED, Some n => upd i (set_state IDLE) (set_events (<[event t := u64 (n - 1)]> (events s)) s)
      | _, _ => s
      end
  | None => s
  end.

Definition events_ok s : Prop :=
  forall i t, threads s !! i = Some t -> state t = BLOCKED -> is_Some (events s !! event t).

(** The threads in the order in which the round robin looks at them. *)
Definition rr_order (current : option nat) (n : nat) : list nat :=
  match current with None => seq 0 n | Some c => seq c (n - c) ++ seq 0 c end.

Definition first_ready s (l : list nat) : option nat := snd <$> list_find (fun i => ready s i = true) l.

(** The invariant of the scheduler.  It is weaker for the CPUs in [own], which are
    about to switch: their current thread may have been marked as blocked, or be
    the choice of their own search. *)
Record sched_weak (own : nat -> Prop) s : Prop := {
  so_queue : queue.length (scheduling_queue s) = 0%nat;
  so_valid : forall c i, cur s c = Some i -> (i < length (threads s))%nat;
  so_unique : forall c1 c2 i t, cur s c1 = Some i -> cur s c2 = Some i ->
                threads s !! i = Some t -> state t <> SILENT -> c1 = c2;
  so_running : forall i t, threads s !! i = Some t -> state t = RUNNING -> exists c, cur s c = Some i;
  so_free : forall c i t, cur s c = Some i -> threads s !! i = Some t ->
                state t = RUNNING \/ state t = SILENT \/ (own c /\ (state t = BLOCKED \/ state t = IDLE));
  so_events : events_ok s }.

(** No thread is on two CPUs, the running threads are exactly the current ones
    (apart from silent ones), and threads that can be picked are on no CPU. *)
Definition sched_ok s : Prop := sched_weak (fun _ => False) s.
End spec.

(** ** Lemmas *)

Section process_lemmas.
Import process.
Context {S : Type}.
Implicit Types s : sys S.

Lemma set_events_id s k n : events s !! k = Some n -> set_events (<[k := n]> (events s)) s = s.
Proof. intros H. rewrite insert_id by done. by destruct s. Qed.

Lemma check_thread_eq s i :
  events_ok s -> (i < length (threads s))%nat ->
  check_thread i s = Ret (ready s i, if ready s i then pick i s else s).
Proof.
  intros He Hi. destruct (lookup_lt_is_Some_2 _ _ Hi) as [t Ht]. unfold check_thread, ready, pick. rewrite Ht.
  cbn [access mbind res_bind]. destruct (state t) eqn:Es; try done.
  destruct (He i t Ht Es) as [n Hn]. rewrite !Hn. cbn [access mbind res_bind].
  unfold event.has_triggered. destruct (Z.eqb_spec n 0) as [-> | Hn0]; cbn [negb]; [| done].
  by rewrite set_events_id by done.
Qed.

Lemma check_range_eq s n i :
  events_ok s -> (i + n <= length (threads s))%nat ->
  check_range n i s = Ret (match first_ready s (seq i n) with
                           | Some j => (Some j, pick j s)
                           | None => (None, s)
                           end).
Proof.
  intros He. revert i. induction n as [| n IH]; intros i Hi; [done |]. cbn [check_range].
  rewrite check_thread_eq by (done || lia). cbn [mbind res_bind seq].
  unfold first_ready. cbn [list_find]. destruct (ready s i) eqn:Er.
  - rewrite decide_True by done. done.
  - rewrite decide_False by done. rewrite IH by lia. unfold first_ready.
    by destruct (list_find _ (seq (Datatypes.S i) n)) as [[k j] |].
Qed.

Lemma first_ready_app s l1 l2 :
  first_ready s (l1 ++ l2) = match first_ready s l1 with Some j => Some j | None => first_ready s l2 end.
Proof.
  unfold first_ready. induction l1 as [| x l1 IH]; [done |]. cbn [app list_find].
  destruct (decide (ready s x = true)); [done |].
  destruct (list_find _ l1) as [[k j] |] eqn:E1; cbn in IH |- *.
  - destruct (list_find _ (l1 ++ l2)) as [[k' j'] |]; cbn in *; congruence.
  - destruct (list_find _ (l1 ++ l2)) as [[k' j'] |]; cbn in *; done.
Qed.

(** [schedule] is a search for the first ready thread in cyclic order. *)
Lemma schedule_eq s current :
  events_ok s -> queue.length (scheduling_queue s) = 0%nat ->
  (forall i, current = Some i -> (i < length (threads s))%nat) ->
  schedule current s = Ret (match first_ready s (rr_order current (length (threads s))) with
                            | Some j => (Some j, pick j s)
                            | None => (None, s)
                            end).
Proof.
  intros He Hq Hc. unfold schedule. rewrite Hq. destruct (decide _); [lia |]. unfold round_robin, rr_order.
  destruct current as [i |].
  - specialize (Hc i eq_refl). rewrite decide_True by done. rewrite check_range_eq by (done || lia).
    rewrite first_ready_app. cbn [mbind res_bind].
    destruct (first_ready s (seq i _)) as [j |]; [done |]. rewrite check_range_eq by (done || lia). done.
  - rewrite check_range_eq by (done || lia). done.
Qed.

Lemma first_ready_Some s l j :
  first_ready s l = Some j -> ready s j = true /\ exists l1 l2, l = l1 ++ j :: l2 /\ Forall (fun i => ready s i = false) l1.
Proof.
  unfold first_ready. intros H. destruct (list_find _ l) as [[k j'] |] eqn:E; [| done]. injection H as ->.
  apply list_find_Some in E as (Hk & Hr & Hb). split; [done |].
  exists (take k l), (drop (Datatypes.S k) l). split; [by rewrite take_drop_middle |].
  apply Forall_forall. intros x (i & Hi)%list_elem_of_lookup. apply lookup_take_Some in Hi as [Hi Hlt].
  apply not_true_is_false. by eapply Hb.
Qed.

Lemma first_ready_None s l : first_ready s l = None <-> Forall (fun i => ready s i = false) l.
Proof.
  unfold first_ready. rewrite fmap_None, list_find_None. split; intros H; (eapply Forall_impl; [exact H |]); intros x Hx; cbn in *.
  - by apply not_true_is_false.
  - by rewrite Hx.
Qed.

(** Projections of the updates. *)
Lemma threads_upd i f s j : threads (upd i f s) !! j = if decide (i = j) then f <$> threads s !! j else threads s !! j.
Proof.
  cbn. destruct (decide (i = j)) as [-> | Hne]; [apply list_lookup_alter_eq | by apply list_lookup_alter_ne].
Qed.

Lemma length_upd i f s : length (threads (upd i f s)) = length (threads s).
Proof. apply length_alter. Qed.

Lemma cur_set_current c t s c' :
  cur (set_current c t s) c' = if decide (c = c') then (cpus s !! c' ≫= fun _ => t) else cur s c'.
Proof.
  unfold cur. cbn. destruct (decide (c = c')) as [-> | Hne].
  - rewrite list_lookup_alter_eq. by destruct (cpus s !! c').
  - by rewrite list_lookup_alter_ne.
Qed.

(** Two thread tables that agree up to the given per-thread relation. *)
Lemma pick_threads i s j t :
  threads (pick i s) !! j = Some t ->
  exists t0, threads s !! j = Some t0 /\
    (t = t0 \/ (j = i /\ state t0 = BLOCKED /\ t = set_state IDLE t0)).
Proof.
  unfold pick. destruct (threads s !! i) as [ti |] eqn:Ei; [| by eauto].
  destruct (state ti) eqn:Es; try by eauto. destruct (events s !! event ti); [| by eauto].
  rewrite threads_upd. cbn [threads set_events]. destruct (decide (i = j)) as [<- | Hne]; [| by eauto].
  rewrite Ei. intros [= <-]. eauto 6.
Qed.

Lemma pick_cpus i s : cpus (pick i s) = cpus s.
Proof. unfold pick. destruct (threads s !! i) as [t |]; [| done]. destruct (state t), (events s !! event t); done. Qed.

Lemma pick_queue i s : scheduling_queue (pick i s) = scheduling_queue s.
Proof. unfold pick. destruct (threads s !! i) as [t |]; [| done]. destruct (state t), (events s !! event t); done. Qed.

Lemma pick_length i s : length (threads (pick i s)) = length (threads s).
Proof.
  unfold pick. destruct (threads s !! i) as [t |]; [| done].
  destruct (state t), (events s !! event t); rewrite ?length_upd; done.
Qed.

Lemma pick_events i s j n : events s !! j = Some n -> is_Some (events (pick i s) !! j).
Proof.
  intros H. unfold pick. destruct (threads s !! i) as [t |]; [| by eauto].
  destruct (state t), (events s !! event t); try by eauto. cbn.
  destruct (decide (event t = j)) as [-> |]; [rewrite lookup_insert_eq | rewrite lookup_insert_ne by done]; eauto.
Qed.

Lemma events_ok_pick i s : events_ok s -> events_ok (pick i s).
Proof.
  intros He j t Hj Hs. destruct (pick_threads i s j t Hj) as (t0 & H0 & [-> | (_ & _ & ->)]); [| done].
  destruct (He j t0 H0 Hs) as [n Hn]. by eapply pick_events.
Qed.

(** A ready thread exists, and after the pick it is idle. *)
Lemma pick_ready i s : ready s i = true -> exists t, threads (pick i s) !! i = Some t /\ state t = IDLE.
Proof.
  unfold ready, pick. destruct (threads s !! i) as [t |] eqn:Ei; [| done].
  destruct (state t) eqn:Es; try done; [by eauto |].
  destruct (events s !! event t); [| done]. intros _. rewrite threads_upd, decide_True by done.
  cbn [threads set_events]. rewrite Ei. eexists. split; [reflexivity | done].
Qed.

Lemma ready_state i s t : ready s i = true -> threads s !! i = Some t -> state t = IDLE \/ state t = BLOCKED.
Proof. unfold ready. intros H Ht. rewrite Ht in H. destruct (state t); auto; done. Qed.

(** The part of the state that the invariant talks about. *)
Definition st s (i : nat) : option thread_state := state <$> threads s !! i.

(** [s'] has the threads of [s], with the states [g] and the current threads [cu]. *)
Record relabels s s' (g : nat -> thread_state -> thread_state) (cu : nat -> option nat) : Prop := {
  rl_length : length (threads s') = length (threads s);
  rl_thread : forall i t', threads s' !! i = Some t' -> exists t, threads s !! i = Some t /\
                event t' = event t /\ state t' = g i (state t);
  rl_cur : forall c, cur s' c = cu c;
  rl_queue : queue.length (scheduling_queue s') = queue.length (scheduling_queue s);
  rl_events : forall e, is_Some (events s !! e) -> is_Some (events s' !! e) }.

(** What a switch of CPU [c] away from [old] does to the states; [new] is the
    thread that runs next, if any. *)
Definition switched (old new : option nat) (i : nat) (x : thread_state) : thread_state :=
  if decide (new = Some i) then RUNNING
  else if decide (old = Some i /\ x = RUNNING) then IDLE else x.

(** The threads, CPUs and events that a switch leaves usable. *)
Lemma relabel_base own s s' c new :
  sched_weak own s -> (forall j, new = Some j -> ready s j = true) ->
  relabels s s' (switched (cur s c) new) (fun c' => if decide (c' = c) then new else cur s c') ->
  queue.length (scheduling_queue s') = 0%nat /\ (forall c i, cur s' c = Some i -> (i < length (threads s'))%nat) /\ events_ok s'.
Proof.
  intros [Hq Hv _ _ _ He] Hnew [Hl Ht Hcu Hq' Hev]. split_and!; [congruence | |].
  - intros c' i Hi. rewrite Hl. rewrite Hcu in Hi. destruct (decide (c' = c)) as [-> | Hne]; [| by eapply Hv].
    specialize (Hnew i Hi). unfold ready in Hnew. destruct (threads s !! i) eqn:E; [| done]. by eapply lookup_lt_Some.
  - intros i t' Hi Hs. destruct (Ht i t' Hi) as (t & Hit & Hev' & Hst). rewrite Hev'.
    apply Hev. apply (He i t Hit). rewrite Hst in Hs. unfold switched in Hs.
    destruct (decide (new = Some i)); [done |]. destruct (decide (cur s c = Some i /\ state t = RUNNING)); done.
Qed.

Lemma relabel_ok own s s' c new :
  sched_weak own s ->
  (forall j, new = Some j -> ready s j = true /\ forall c', cur s c' = Some j -> c' = c) ->
  relabels s s' (switched (cur s c) new) (fun c' => if decide (c' = c) then new else cur s c') ->
  sched_weak (fun x => own x /\ x <> c) s'.
Proof.
  intros W Hnew Hrel. destruct (relabel_base own s s' c new W) as (Hq & Hv & He); [naive_solver | done |].
  destruct W as [_ _ Hu Hr Hf _], Hrel as [Hl Ht Hcu _ _]. constructor; [done | done | .. | done].
  - intros c1 c2 i t' H1 H2 Hi Hs. rewrite Hcu in H1, H2. destruct (Ht i t' Hi) as (t & Hit & _ & Hst).
    destruct (decide (new = Some i)) as [En | En].
    + destruct (Hnew i En) as [_ Hx]. destruct (decide (c1 = c)), (decide (c2 = c)); try congruence;
        [rewrite (Hx c2) by done | rewrite (Hx c1) by done | rewrite (Hx c1), (Hx c2) by done]; congruence.
    + destruct (decide (c1 = c)) as [-> | N1]; [congruence |]. destruct (decide (c2 = c)) as [-> | N2]; [congruence |].
      apply (Hu c1 c2 i t); [done .. |]. intros E. apply Hs. rewrite Hst, E. unfold switched.
      rewrite decide_False by done. by rewrite decide_False by (intros [_ ?]; done).
  - intros i t' Hi Hs. destruct (Ht i t' Hi) as (t & Hit & _ & Hst). rewrite Hst in Hs. unfold switched in Hs.
    destruct (decide (new = Some i)) as [En | En]; [exists c; by rewrite Hcu, decide_True |].
    destruct (decide (cur s c = Some i /\ state t = RUNNING)) as [| Hn]; [done |].
    destruct (Hr i t Hit Hs) as [c' Hc']. exists c'. rewrite Hcu, decide_False; [done |]. intros ->. by apply Hn.
  - intros c' i t' Hi Hit'. rewrite Hcu in Hi. destruct (Ht i t' Hit') as (t & Hit & _ & Hst). rewrite Hst.
    unfold switched. destruct (decide (new = Some i)) as [En | En]; [by left |].
    destruct (decide (c' = c)) as [-> | Hne]; [congruence |]. destruct (decide (cur s c = Some i /\ state t = RUNNING)) as [[Hc Hs] | _].
    + exfalso. apply Hne. apply (Hu c' c i t); [done .. |]. by rewrite Hs.
    + destruct (Hf c' i t Hi Hit) as [? | [? | [? ?]]]; auto.
Qed.

Lemma sched_mono (own own' : nat -> Prop) s : (forall c, own c -> own' c) -> sched_weak own s -> sched_weak own' s.
Proof.
  intros H [Hq Hv Hu Hr Hf He]. constructor; try done. intros c i t H1 H2. destruct (Hf c i t H1 H2) as [? | [? | [? ?]]]; auto.
Qed.

Lemma current_state s c i t : sched_ok s -> cur s c = Some i -> threads s !! i = Some t -> state t = RUNNING \/ state t = SILENT.
Proof. intros OK Hc Ht. destruct (so_free _ _ OK c i t Hc Ht) as [? | [? | [[] _]]]; auto. Qed.

(** A ready thread is at most on the CPU that is about to switch. *)
Lemma ready_elsewhere c s j c' : sched_weak (eq c) s -> ready s j = true -> cur s c' = Some j -> c' = c.
Proof.
  intros W Hj Hc'. destruct (lookup_lt_is_Some_2 _ _ (so_valid _ _ W c' j Hc')) as [t Ht].
  destruct (ready_state j s t Hj Ht) as [E | E]; destruct (so_free _ _ W c' j t Hc' Ht) as [F | [F | [F _]]]; congruence.
Qed.

(** The context a thread has after CPU state [r], [h] was saved for it. *)
Definition saved (r : registers) (h : hw) : thread_context := mk_ctx r (hw_cr3 h) (hw_fs h) (hw_simd h).

Lemma save_context_saved r h t : save_context r h t = set_context (saved r h) t.
Proof. unfold save_context, saved. by destruct r. Qed.

Lemma load_registers_id c : load_registers c = regs c.
Proof. unfold load_registers. by destruct (regs c). Qed.

(** The contexts after a switch of CPU [c]: only the old thread's changes. *)
Definition contexts_kept s s' (old : option nat) (ctx : thread_context) : Prop :=
  forall i t', threads s' !! i = Some t' -> exists t, threads s !! i = Some t /\ vmm t' = vmm t /\ frames t' = frames t /\
    context t' = if decide (old = Some i) then ctx else context t.

(** One field update of one thread, as seen by a look-up. *)
Lemma lookup_upd i f s j t' :
  threads (upd i f s) !! j = Some t' -> exists t, threads s !! j = Some t /\ t' = if decide (i = j) then f t else t.
Proof.
  rewrite threads_upd. destruct (decide (i = j)); [| by eauto].
  destruct (threads s !! j) as [t |]; [| done]. intros [= <-]. eauto.
Qed.

Definition idle_if_running (t : thread) : thread := if decide (state t = RUNNING) then set_state IDLE t else t.

(** The state after a switch to [new] (or to the idle loop). *)
Definition after_switch s (c : nat) (old new : option nat) (ctx : thread_context) : sys S :=
  let s := match new with Some j => pick j s | None => s end in
  let s := match old with Some o => upd o (set_context ctx) s | None => s end in
  let s := match old with Some o => upd o idle_if_running s | None => s end in
  let s := set_current c new s in
  match new with Some j => upd j (set_state RUNNING) s | None => s end.

Lemma after_switch_lookup s c old new ctx i t' :
  (forall j, new = Some j -> ready s j = true) ->
  threads (after_switch s c old new ctx) !! i = Some t' ->
  exists t, threads s !! i = Some t /\ event t' = event t /\ vmm t' = vmm t /\ frames t' = frames t /\
    state t' = switched old new i (state t) /\
    context t' = if decide (old = Some i) then ctx else context t.
Proof.
  intros Hnew. unfold after_switch. set (s1 := match new with Some j => pick j s | None => s end).
  set (s2 := match old with Some o => upd o (set_context ctx) s1 | None => s1 end).
  set (s3 := match old with Some o => upd o idle_if_running s2 | None => s2 end). intros H.
  assert (H3 : exists t3, threads s3 !! i = Some t3 /\
            t' = if decide (new = Some i) then set_state RUNNING t3 else t3).
  { destruct new as [j |]; cbn in H.
    - apply (lookup_upd j _ (set_current c (Some j) s3)) in H as (t3 & H & ->). exists t3. split; [done |].
      destruct (decide (j = i)) as [-> |]; [by rewrite decide_True | by rewrite decide_False by congruence].
    - exists t'. by rewrite decide_False. }
  destruct H3 as (t3 & H3 & ->). assert (H1 : exists t1, threads s1 !! i = Some t1 /\
            t3 = if decide (old = Some i) then idle_if_running (set_context ctx t1) else t1).
  { destruct old as [o |]; cbn in s2, s3; [| exists t3; by rewrite decide_False].
    apply lookup_upd in H3 as (t2 & H2 & ->). apply lookup_upd in H2 as (t1 & H1 & ->). exists t1. split; [done |].
    destruct (decide (o = i)) as [-> |]; [by rewrite decide_True | by rewrite decide_False by congruence]. }
  destruct H1 as (t1 & H1 & ->). assert (H0 : exists t, threads s !! i = Some t /\
            (t1 = t \/ (new = Some i /\ state t = BLOCKED /\ t1 = set_state IDLE t))).
  { destruct new as [j |]; [| by eauto]. apply pick_threads in H1 as (t & Ht & [-> | (-> & Hs & ->)]); eauto 6. }
  destruct H0 as (t & Ht & Hcase). exists t. split; [done |]. unfold switched.
  destruct (decide (new = Some i)) as [En | En], (decide (old = Some i)) as [Eo | Eo];
    destruct Hcase as [-> | (Hn & Hs & ->)]; try (exfalso; done); unfold idle_if_running; cbn;
    repeat (destruct (decide _)); cbn; split_and!; try done; naive_solver.
Qed.

Lemma after_switch_relabels s c old new ctx :
  (forall j, new = Some j -> ready s j = true) -> is_Some (cpus s !! c) ->
  relabels s (after_switch s c old new ctx) (switched old new) (fun c' => if decide (c' = c) then new else cur s c').
Proof.
  intros Hnew Hc. constructor.
  - unfold after_switch. destruct new, old; rewrite ?length_upd; cbn [threads set_current set_cpus];
      rewrite ?length_upd, ?pick_length; done.
  - intros i t' H. apply after_switch_lookup in H as (t & ? & ? & _ & _ & ? & _); eauto.
  - intros c'. unfold after_switch. set (s1 := match new with Some j => pick j s | None => s end).
    set (s3 := match old with Some o => upd o idle_if_running _ | None => _ end).
    assert (E : cpus s3 = cpus s).
    { unfold s3, s1. destruct old, new; cbn; rewrite ?pick_cpus; done. }
    transitivity (cur (set_current c new s3) c'); [by destruct new |].
    rewrite cur_set_current. unfold cur. rewrite E. destruct (decide (c = c')) as [<- |].
    + rewrite decide_True by done. by destruct Hc as [x ->].
    + by rewrite decide_False by congruence.
  - unfold after_switch. destruct new, old; cbn; rewrite ?pick_queue; done.
  - intros e [n Hn]. unfold after_switch. destruct new, old; cbn; by (eauto || eapply pick_events).
Qed.

Lemma set_current_id s c cpu :
  cpus s !! c = Some cpu -> set_current c (current_thread cpu) s = s.
Proof.
  intros H. unfold set_current, set_cpus.
  replace (alter _ c (cpus s)) with (cpus s); [by destruct s |].
  apply list_eq. intros j. destruct (decide (c = j)) as [<- |].
  - rewrite list_lookup_alter_eq, H. by destruct cpu.
  - by rewrite list_lookup_alter_ne.
Qed.

(** The frame and the CPU state after a switch. *)
Definition resumed (new old : option nat) (h : hw) s' (o : outcome) : Prop :=
  match new with
  | None => exists h', o = Idle h'
  | Some j => exists t, threads s' !! j = Some t /\
      o = Resume (regs (context t))
            (mk_hw (if match old with Some i => from_option (fun t0 => cr3 (context t0) =? cr3 (context t)) false (threads s' !! i) | None => false end
                    then hw_cr3 h else to_phys (vmm t)) (fs (context t)) (simd_state (context t)))
  end.

(** The second half of [timer_handler] with the choice [new]. *)
Lemma switch_to_eq c cpu new r h s :
  cpus s !! c = Some cpu -> (forall i, current_thread cpu = Some i -> (i < length (threads s))%nat) ->
  (forall j, new = Some j -> ready s j = true) ->
  let old := current_thread cpu in
  let s' := after_switch s c old new (saved r h) in
  exists o, switch_to c old new r h (match new with Some j => pick j s | None => s end) = Ret (o, s') /\ resumed new old h s' o.
Proof.
  intros Hc Hv Hready old s'. unfold switch_to, resumed.
  assert (Eold : current_thread cpu = old) by done. rewrite Eold in *. clearbody old.
  assert (Hsave : forall o s0, upd o (save_context r h) s0 = upd o (set_context (saved r h)) s0) by (by destruct r).
  destruct new as [j |].
  - destruct (pick_ready j s (Hready j eq_refl)) as (tj & Htj & _).
    assert (Hlen : (j < length (threads (pick j s)))%nat) by (by eapply lookup_lt_Some).
    set (s2 := match old with Some o => upd o (set_context (saved r h)) (pick j s) | None => pick j s end).
    destruct (lookup_lt_is_Some_2 (threads s2) j) as [n2 Hn2].
    { unfold s2. destruct old; rewrite ?length_upd; done. }
    assert (Hsw : exists same, switch_context r h j old (pick j s) = Ret (regs (context n2),
              mk_hw (if same : bool then hw_cr3 h else to_phys (vmm n2)) (fs (context n2)) (simd_state (context n2)), s2) /\
              same = match old with Some i => from_option (fun t0 => cr3 (context t0) =? cr3 (context n2)) false (threads s2 !! i) | None => false end).
    { unfold switch_context. destruct old as [o |] eqn:Eo; cbn in s2.
      - rewrite Hsave. fold s2. rewrite Hn2. cbn [access mbind res_bind].
        destruct (lookup_lt_is_Some_2 (threads s2) o) as [t2 Ht2].
        { unfold s2. rewrite length_upd, pick_length. by apply Hv. }
        rewrite Ht2. cbn. rewrite load_registers_id. eauto.
      - fold s2. rewrite Hn2. cbn. rewrite load_registers_id. by exists false. }
    destruct Hsw as (same & -> & Hsame). cbn [mbind res_bind].
    assert (Hs' : s' = upd j (set_state RUNNING) (set_current c (Some j)
                    (match old with Some o => upd o idle_if_running s2 | None => s2 end))) by done.
    assert (Hproj : forall i t2, threads s2 !! i = Some t2 -> exists t', threads s' !! i = Some t' /\
              context t' = context t2 /\ vmm t' = vmm t2).
    { intros i t2 Hi. rewrite Hs', threads_upd. cbn [threads set_current set_cpus].
      assert (Hx : exists t3, threads (match old with Some o => upd o idle_if_running s2 | None => s2 end) !! i = Some t3 /\
                context t3 = context t2 /\ vmm t3 = vmm t2).
      { destruct old as [o |]; [| by eauto]. rewrite threads_upd, Hi. unfold idle_if_running.
        destruct (decide (o = i)); [| by eauto]. eexists. split; [reflexivity |]. by destruct (decide _). }
      destruct Hx as (t3 & Hx1 & Hx2 & Hx3). rewrite Hx1.
      destruct (decide (j = i)); cbn; eexists; (split; [reflexivity |]); done. }
    eexists. split; [rewrite Hs'; reflexivity |].
    destruct (Hproj j n2 Hn2) as (t' & Ht' & Hctx & Hvmm). exists t'. split; [exact Ht' |].
    rewrite Hctx, Hvmm. do 2 f_equal. rewrite Hsame. destruct old as [o |]; [| done].
    destruct (threads s2 !! o) as [t2 |] eqn:E2.
    + destruct (Hproj o t2 E2) as (t3 & Ht3 & Hc3 & _). rewrite Ht3. cbn. by rewrite Hc3.
    + exfalso. apply lookup_ge_None in E2. unfold s2 in E2. rewrite length_upd, pick_length in E2.
      specialize (Hv o eq_refl). lia.
  - unfold idle_cpu. rewrite Hc. cbn [access mbind res_bind]. rewrite Eold.
    destruct old as [o |]; unfold s', after_switch.
    + rewrite Hsave. eexists. split; [reflexivity | by eauto].
    + rewrite <- Eold, (set_current_id s c cpu) by done. eexists. split; [reflexivity | by eauto].
Qed.

(** [timer_handler] as a switch to the first ready thread in cyclic order. *)
Lemma timer_handler_eq apic c cpu r h s :
  get_current_managed_cpu apic s = Some c -> cpus s !! c = Some cpu ->
  events_ok s -> queue.length (scheduling_queue s) = 0%nat ->
  (forall i, current_thread cpu = Some i -> (i < length (threads s))%nat) ->
  let old := current_thread cpu in
  let new := first_ready s (rr_order old (length (threads s))) in
  let s' := after_switch s c old new (saved r h) in
  (forall j, new = Some j -> ready s j = true) /\
  exists o, timer_handler apic r h s = Ret (o, s') /\ resumed new old h s' o.
Proof.
  intros Hcpu Hc He Hq Hv old new s'.
  assert (Hready : forall j, new = Some j -> ready s j = true) by (intros j Hj; by apply first_ready_Some in Hj as [? _]).
  split; [done |]. unfold timer_handler. rewrite Hcpu, Hc. cbn [access mbind res_bind].
  rewrite schedule_eq by done. fold old. fold new.
  destruct (switch_to_eq c cpu new r h s Hc Hv Hready) as (o & Ho & Hres). exists o. split; [| exact Hres].
  fold old in Ho. destruct new; exact Ho.
Qed.

(** ** Lemmas: one tick *)

Lemma sched_weaken s c : sched_ok s -> sched_weak (eq c) s.
Proof. by apply sched_mono. Qed.

Lemma managed_lookup s apic c : get_current_managed_cpu apic s = Some c -> exists cpu, cpus s !! c = Some cpu /\ cur s c = current_thread cpu.
Proof.
  unfold get_current_managed_cpu, cur. destruct (list_find _ (cpus s)) as [[c' cpu] |] eqn:E; [| done].
  intros [= ->]. apply list_find_Some in E as (Hc & _ & _). exists cpu. by rewrite Hc.
Qed.

(** The scheduler looks up CPUs by APIC id, which a switch does not change. *)
Lemma managed_lapic s s' apic :
  lapic_id <$> cpus s' = lapic_id <$> cpus s -> get_current_managed_cpu apic s' = get_current_managed_cpu apic s.
Proof.
  intros E. unfold get_current_managed_cpu.
  assert (H : forall l, fst <$> list_find (fun e => lapic_id e = apic) l = fst <$> list_find (fun x => x = apic) (lapic_id <$> l)).
  { induction l as [| e l IH]; [done |]. cbn [fmap list_fmap list_find].
    destruct (decide (lapic_id e = apic)); [done |].
    destruct (list_find _ l) as [[k x] |], (list_find (fun x => x = apic) (lapic_id <$> l)) as [[k' x'] |];
      cbn in *; congruence. }
  by rewrite !H, E.
Qed.

Lemma after_switch_lapic s c old new ctx : lapic_id <$> cpus (after_switch s c old new ctx) = lapic_id <$> cpus s.
Proof.
  assert (H : forall (l : list managed_cpu) t, lapic_id <$> alter (fun e => mk_cpu (lapic_id e) (enabled e) t) c l = lapic_id <$> l).
  { intros l t. apply list_eq. intros j. rewrite !list_lookup_fmap. destruct (decide (c = j)) as [<- |].
    - rewrite list_lookup_alter_eq. by destruct (l !! c).
    - by rewrite list_lookup_alter_ne. }
  unfold after_switch. destruct new, old; cbn; rewrite H, ?pick_cpus; done.
Qed.

(** What a timer tick does, from a state where the CPU's own thread may be
    marked as blocked. *)
Lemma tick_ok apic c r h s :
  sched_weak (eq c) s -> get_current_managed_cpu apic s = Some c ->
  let new := first_ready s (rr_order (cur s c) (length (threads s))) in
  let s' := after_switch s c (cur s c) new (saved r h) in
  exists o, timer_handler apic r h s = Ret (o, s') /\ sched_ok s' /\
    relabels s s' (switched (cur s c) new) (fun c' => if decide (c' = c) then new else cur s c') /\
    (forall j, new = Some j -> ready s j = true) /\ get_current_managed_cpu apic s' = Some c.
Proof.
  intros W Hm new s'. destruct (managed_lookup s apic c Hm) as (cpu & Hc & Hcur).
  destruct (timer_handler_eq apic c cpu r h s) as (Hready & o & Ho & _); try done; try apply W.
  { intros i Hi. apply (so_valid _ _ W c). by rewrite Hcur. }
  rewrite <- Hcur in Ho, Hready. exists o.
  assert (Hrel := after_switch_relabels s c (cur s c) new (saved r h) Hready ltac:(by rewrite Hc)).
  split_and!; [done | | done | done |].
  { eapply sched_mono; [| eapply relabel_ok; [exact W | | exact Hrel]]; [intros x [-> ?]; done |].
    intros j Hj. split; [by apply Hready |]. intros c'. by apply (ready_elsewhere c s); [| apply Hready]. }
  rewrite (managed_lapic s) by apply after_switch_lapic. done.
Qed.

(** ** Lemmas: the other operations *)

Lemma sched_ext own s s' :
  threads s' = threads s -> cpus s' = cpus s -> scheduling_queue s' = scheduling_queue s ->
  (forall e, is_Some (events s !! e) -> is_Some (events s' !! e)) -> sched_weak own s -> sched_weak own s'.
Proof.
  intros E1 E2 E3 E4 [Hq Hv Hu Hr Hf He]. unfold cur in *. constructor; unfold cur, events_ok; rewrite ?E1, ?E2, ?E3; try done.
  intros i t H1 H2. apply E4. by eapply He.
Qed.

(** A change of the counter of an event. *)
Lemma event_ok own s e n : sched_weak own s -> sched_weak own (set_events (<[e := n]> (events s)) s).
Proof.
  apply sched_ext; try done. intros e'. cbn. destruct (decide (e = e')) as [-> |];
    [rewrite lookup_insert_eq; eauto | by rewrite lookup_insert_ne].
Qed.

(** Changing a thread that is on no CPU. *)
Lemma upd_free_ok own s i f :
  sched_weak own s -> (forall c, cur s c <> Some i) ->
  (forall t, state (f t) = IDLE \/ state (f t) = SILENT \/ state (f t) = DISABLED) -> sched_weak own (upd i f s).
Proof.
  intros [Hq Hv Hu Hr Hf He] Hfree Hst.
  assert (Hcur : forall c, cur (upd i f s) c = cur s c) by done.
  assert (Hne : forall c j, cur s c = Some j -> i <> j) by (intros c j Hj ->; by apply (Hfree c)).
  constructor; [done | ..].
  - intros c j Hj. rewrite length_upd. by eapply Hv.
  - intros c1 c2 j t H1 H2 Ht Hs. rewrite threads_upd, decide_False in Ht by (by eapply Hne). by eapply Hu.
  - intros j t Ht Hs. apply lookup_upd in Ht as (t0 & Ht & ->). destruct (decide (i = j)); [| by eapply Hr].
    destruct (Hst t0) as [E | [E | E]]; congruence.
  - intros c j t Hc Ht. rewrite threads_upd, decide_False in Ht by (by eapply Hne). by eapply Hf.
  - intros j t Ht Hs. apply lookup_upd in Ht as (t0 & Ht & ->). destruct (decide (i = j)); [| by eapply He].
    destruct (Hst t0) as [E | [E | E]]; congruence.
Qed.

Lemma append_ok own s t s' :
  sched_weak own s -> state t <> RUNNING -> state t <> BLOCKED ->
  threads s' = threads s ++ [t] -> cpus s' = cpus s -> scheduling_queue s' = scheduling_queue s ->
  events s' = events s -> sched_weak own s' /\ forall c, cur s' c <> Some (length (threads s)).
Proof.
  intros [Hq Hv Hu Hr Hf He] N1 N2 E1 E2 E3 E4.
  assert (Hcur : forall c, cur s' c = cur s c) by (intros c; unfold cur; by rewrite E2).
  assert (Hlook : forall j t', threads s' !! j = Some t' -> threads s !! j = Some t' \/ t' = t).
  { intros j t' Hj. rewrite E1 in Hj. apply lookup_app_Some in Hj as [Hj | [_ Hj]]; [by left | right].
    by apply list_lookup_singleton_Some in Hj as [_ <-]. }
  assert (Hold : forall c j t', cur s c = Some j -> threads s' !! j = Some t' -> threads s !! j = Some t').
  { intros c j t' Hc Hj. rewrite E1, lookup_app_l in Hj; [done | by eapply Hv]. }
  split.
  - constructor; rewrite ?E3; try done.
    + intros c j Hj. rewrite E1, length_app. cbn. rewrite Hcur in Hj. specialize (Hv c j Hj). lia.
    + intros c1 c2 j t' H1 H2 Ht Hs. rewrite Hcur in H1, H2. eapply Hu; eauto.
    + intros j t' Hj Hs. destruct (Hlook j t' Hj) as [H | ->]; [| done].
      destruct (Hr j t' H Hs) as [c Hc]. exists c. by rewrite Hcur.
    + intros c j t' Hc Hj. rewrite Hcur in Hc. eapply Hf; eauto.
    + intros j t' Hj Hs. rewrite E4. destruct (Hlook j t' Hj) as [H | ->]; [by eapply He | done].
  - intros c Hc. rewrite Hcur in Hc. specialize (Hv c _ Hc). lia.
Qed.

Lemma create_ok own p s :
  sched_weak own s ->
  let '(i, s') := create_blocked_thread p s in
  sched_weak own s' /\ (forall c, cur s' c <> Some i) /\ (i < length (threads s'))%nat.
Proof.
  intros OK. unfold create_blocked_thread.
  destruct (list_find _ (threads s)) as [[i t] |] eqn:E.
  - apply list_find_Some in E as (Hi & Hs & _).
    assert (Hfree : forall c, cur s c <> Some i).
    { intros c Hc. destruct (so_free _ _ OK c i t Hc Hi) as [H | [H | [_ [H | H]]]]; congruence. }
    split_and!; [apply upd_free_ok; try done; by right; left | done |].
    unfold create_thread_int. rewrite length_upd. by eapply lookup_lt_Some.
  - edestruct (append_ok own s (set_tid (current_thread_list_offset s) new_thread)
      (mk (threads s ++ [set_tid (current_thread_list_offset s) new_thread]) (u64 (current_thread_list_offset s + 1))
          (cpus s) (scheduling_queue s) (events s) (kern s) (kernel_info s))) as [OK' Hfree]; try done.
    split_and!; [apply upd_free_ok; try done; by right; left | done |].
    unfold create_thread_int. rewrite length_upd. cbn. rewrite length_app. cbn. lia.
Qed.
End process_lemmas.

Section step_lemmas.
Import process.
Context {S : Type} `{FA : FrameAllocator S}.
Implicit Types s : sys S.

Lemma upd_same_ok own s i f :
  (forall t, state (f t) = state t /\ event (f t) = event t) -> sched_weak own s -> sched_weak own (upd i f s).
Proof.
  intros Hf [Hq Hv Hu Hr Hfr He].
  assert (Hl : forall j t, threads (upd i f s) !! j = Some t -> exists t0, threads s !! j = Some t0 /\
            state t = state t0 /\ event t = event t0).
  { intros j t Hj. apply lookup_upd in Hj as (t0 & Hj & ->). exists t0. split; [done |]. destruct (decide (i = j)); auto. }
  constructor; [done | ..].
  - intros c j Hj. rewrite length_upd. by eapply Hv.
  - intros c1 c2 j t H1 H2 Ht Hs. destruct (Hl j t Ht) as (t0 & Ht0 & E & _). eapply Hu; eauto. congruence.
  - intros j t Ht Hs. destruct (Hl j t Ht) as (t0 & Ht0 & E & _). eapply Hr; eauto. congruence.
  - intros c j t Hc Ht. destruct (Hl j t Ht) as (t0 & Ht0 & E & _). rewrite E. eapply Hfr; eauto.
  - intros j t Ht Hs. destruct (Hl j t Ht) as (t0 & Ht0 & E & E'). rewrite E'. eapply He; eauto. congruence.
Qed.

(** Taking the current thread off its CPU for good. *)
Lemma disable_ok own s c i t f :
  sched_weak own s -> cur s c = Some i -> threads s !! i = Some t -> state t <> SILENT ->
  (forall t, state (f t) = DISABLED) -> sched_weak own (set_current c None (upd i f s)).
Proof.
  intros [Hq Hv Hu Hr Hf He] Hc Ht Hns Hst.
  assert (Hcur : forall c' j, cur (set_current c None (upd i f s)) c' = Some j -> c' <> c /\ cur s c' = Some j).
  { intros c' j Hj. rewrite cur_set_current in Hj. destruct (decide (c = c')) as [<- | Hne]; [| done].
    by destruct (cpus (upd i f s) !! c). }
  assert (Hnoti : forall c' j, c' <> c -> cur s c' = Some j -> i <> j).
  { intros c' j Hne Hj ->. apply Hne. by eapply Hu. }
  constructor; [done | ..].
  - intros c' j Hj. destruct (Hcur c' j Hj) as [_ Hj']. cbn [threads set_current set_cpus]. rewrite length_upd. by eapply Hv.
  - intros c1 c2 j t' H1 H2 Ht' Hs. destruct (Hcur _ _ H1) as [N1 H1'], (Hcur _ _ H2) as [N2 H2'].
    cbn [threads set_current set_cpus] in Ht'. rewrite threads_upd, decide_False in Ht' by (by eapply Hnoti). by eapply Hu.
  - intros j t' Hj Hs. cbn [threads set_current set_cpus] in Hj. apply lookup_upd in Hj as (t0 & Hj & ->).
    destruct (decide (i = j)) as [-> | Hne]; [rewrite Hst in Hs; done |].
    destruct (Hr j t0 Hj Hs) as [c' Hc']. exists c'. rewrite cur_set_current.
    destruct (decide (c = c')) as [<- |]; [congruence | done].
  - intros c' j t' Hj Ht'. destruct (Hcur _ _ Hj) as [N1 H1'].
    cbn [threads set_current set_cpus] in Ht'. rewrite threads_upd, decide_False in Ht' by (by eapply Hnoti). by eapply Hf.
  - intros j t' Hj Hs. cbn [threads set_current set_cpus] in Hj. apply lookup_upd in Hj as (t0 & Hj & ->).
    destruct (decide (i = j)) as [-> | Hne]; [rewrite Hst in Hs; done |]. by eapply He.
Qed.

Lemma kill_thread_ok own apic c i t s x s' :
  sched_weak own s -> get_current_managed_cpu apic s = Some c -> cur s c = Some i -> threads s !! i = Some t ->
  state t = RUNNING -> kill_thread apic s = Ret (x, s') ->
  x = c /\ sched_weak own s' /\ forall c', cur s' c' = if decide (c' = c) then None else cur s c'.
Proof.
  intros OK Hm Hc Ht Hs Hk. unfold kill_thread in Hk. rewrite Hm in Hk. cbn [access mbind res_bind] in Hk.
  destruct (managed_lookup s apic c Hm) as (cpu & Hcpu & Hcur). rewrite Hcpu in Hk. cbn [access mbind res_bind] in Hk.
  rewrite <- Hcur, Hc in Hk. cbn [access mbind res_bind] in Hk. rewrite Ht in Hk. cbn [access mbind res_bind] in Hk.
  apply bind_Ret in Hk as (k1 & _ & Hk). apply bind_Ret in Hk as (k2 & _ & Hk). apply bind_Ret in Hk as ([info k3] & _ & Hk).
  inv_res. split; [done |]. split.
  - eapply (disable_ok own (set_kern k3 s) x i t); [| exact Hc | exact Ht | congruence | done].
    eapply sched_ext; [| | | | exact OK]; done.
  - intros c'. rewrite cur_set_current. destruct (decide (x = c')) as [<- | Hne].
    + rewrite decide_True by done. cbn. by rewrite Hcpu.
    + by rewrite decide_False by congruence.
Qed.

End step_lemmas.

(** ** Lemmas: the first half of [block] and the start of the CPUs *)

Section steps.
Import process.
Context {S : Type} `{FA : FrameAllocator S}.
Implicit Types s : sys S.

Lemma block_mark_weak own c i t e s :
  sched_weak own s -> cur s c = Some i -> threads s !! i = Some t -> state t = RUNNING -> is_Some (events s !! e) ->
  sched_weak (fun x => own x \/ x = c) (block_mark i e s).
Proof.
  intros [Hq Hv Hu Hr Hf He] Hc Ht Hs Hev. unfold block_mark. set (f := fun t => set_state BLOCKED (set_event e t)).
  constructor; [done | ..].
  - intros c' j Hj. rewrite length_upd. by eapply Hv.
  - intros c1 c2 j t' H1 H2 Ht' Hs'. apply lookup_upd in Ht' as (t0 & Ht0 & ->).
    destruct (decide (i = j)) as [<- | Hne].
    + rewrite Ht in Ht0. injection Ht0 as <-. eapply (Hu c1 c2 i t); eauto. congruence.
    + eapply (Hu c1 c2 j t0); eauto.
  - intros j t' Hj Hs'. apply lookup_upd in Hj as (t0 & Hj & ->). destruct (decide (i = j)); [done | by eapply Hr].
  - intros c' j t' Hc' Ht'. apply lookup_upd in Ht' as (t0 & Ht0 & ->). destruct (decide (i = j)) as [<- | Hne].
    + right; right. split; [| by left]. right. eapply (Hu c' c i t); eauto. congruence.
    + destruct (Hf c' j t0 Hc' Ht0) as [? | [? | [? ?]]]; auto.
  - intros j t' Hj Hs'. apply lookup_upd in Hj as (t0 & Hj & ->). destruct (decide (i = j)); [done | by eapply He].
Qed.

(** [block] of one CPU while no other is in the middle of it. *)
Lemma block_mark_own c i t e s :
  sched_ok s -> cur s c = Some i -> threads s !! i = Some t -> state t = RUNNING -> is_Some (events s !! e) ->
  sched_weak (eq c) (block_mark i e s).
Proof. intros OK Hc Ht Hs He. eapply sched_mono; [| by eapply block_mark_weak]. by intros x [[] | ->]. Qed.

Lemma init_cpu_ok own apic c i t s :
  sched_weak own s -> get_current_managed_cpu apic s = Some c -> cur s c = None -> threads s !! i = Some t ->
  state t = SILENT -> sched_weak own (init_cpu apic i s).
Proof.
  intros [Hq Hv Hu Hr Hf He] Hm Hc Ht Hs. unfold init_cpu. rewrite Hm.
  set (f := fun e => mk_cpu (lapic_id e) true (Some i)).
  assert (Hcur : forall c' j, cur (set_cpus (alter f c (cpus s)) s) c' = Some j ->
            cur s c' = Some j \/ (c' = c /\ j = i)).
  { intros c' j. unfold cur. cbn. destruct (decide (c = c')) as [<- | Hne].
    - rewrite list_lookup_alter_eq. destruct (cpus s !! c); [| done]. intros [= <-]. by right.
    - rewrite list_lookup_alter_ne by done. by left. }
  constructor; [done | ..].
  - intros c' j Hj. destruct (Hcur _ _ Hj) as [H | [_ ->]]; [by eapply Hv | by eapply lookup_lt_Some].
  - intros c1 c2 j t' H1 H2 Ht' Hs'. cbn in Ht'.
    destruct (Hcur _ _ H1) as [H1' | [-> ->]], (Hcur _ _ H2) as [H2' | [-> E]]; try subst j;
      try (by eapply Hu); congruence.
  - intros j t' Hj Hs'. destruct (Hr j t' Hj Hs') as [c' Hc']. exists c'. unfold cur. cbn.
    rewrite list_lookup_alter_ne; [done |]. congruence.
  - intros c' j t' Hj Ht'. destruct (Hcur _ _ Hj) as [H | [_ ->]]; [by eapply Hf |].
    cbn in Ht'. right; left. congruence.
  - done.
Qed.

(** The state after boot satisfies the invariant. *)
Lemma init_multitasking_ok ids s :
  threads s = [] -> queue.length (scheduling_queue s) = 0%nat -> sched_ok (init_multitasking ids s).
Proof.
  intros Ht Hq.
  assert (Hcur : forall c, cur (init_multitasking ids s) c = None).
  { intros c. unfold cur. cbn. rewrite list_lookup_fmap. by destruct (ids !! c). }
  assert (Hst : forall i t, threads (init_multitasking ids s) !! i = Some t -> state t = SILENT).
  { intros i t. cbn. rewrite Ht. cbn. intros [_ <-]%list_lookup_singleton_Some. done. }
  constructor; [done | intros c i; by rewrite Hcur | intros c1 c2 i t; by rewrite Hcur | |
    intros c i t; by rewrite Hcur |]; intros i t Hi; by rewrite (Hst i t Hi).
Qed.

End steps.

(** ** Lemmas: the order of the round robin *)

Section fairness.
Import process.
Context {S : Type} `{FA : FrameAllocator S}.
Implicit Types s : sys S.

(** How many threads the round robin looks at before [i]. *)
Definition distance (current : option nat) (n i : nat) : nat :=
  match current with
  | None => i
  | Some c => if decide (c <= i)%nat then i - c else n - c + i
  end.

Lemma rr_order_lookup current n p i :
  (forall c, current = Some c -> (c < n)%nat) -> rr_order current n !! p = Some i -> (i < n)%nat /\ p = distance current n i.
Proof.
  intros Hc H. unfold rr_order, distance in *. destruct current as [c |].
  - specialize (Hc c eq_refl). apply lookup_app_Some in H as [H | [Hl H]]; apply lookup_seq in H as [-> H].
    + rewrite decide_True by lia. lia.
    + rewrite length_seq in *. rewrite decide_False by lia. lia.
  - apply lookup_seq in H as [-> H]. lia.
Qed.

Lemma rr_order_elem current n i : (forall c, current = Some c -> (c < n)%nat) -> (i < n)%nat -> i ∈ rr_order current n.
Proof.
  intros Hc Hi. unfold rr_order. destruct current as [c |]; [| apply elem_of_seq; lia].
  specialize (Hc c eq_refl). apply elem_of_app. destruct (decide (c <= i)%nat); [left | right]; apply elem_of_seq; lia.
Qed.

(** The first ready thread is at most as far away as any other ready thread. *)
Lemma first_ready_distance s current i :
  let n := length (threads s) in
  (forall c, current = Some c -> (c < n)%nat) -> ready s i = true -> (i < n)%nat ->
  exists j, first_ready s (rr_order current n) = Some j /\ ready s j = true /\ (j < n)%nat /\
    (distance current n j <= distance current n i)%nat.
Proof.
  intros n Hc Hr Hi. assert (Hin := rr_order_elem current n i Hc Hi).
  destruct (first_ready s (rr_order current n)) as [j |] eqn:E.
  - exists j. apply first_ready_Some in E as (Hj & l1 & l2 & El & Hl1).
    assert (Hpj : rr_order current n !! length l1 = Some j) by (by rewrite El, list_lookup_middle).
    apply rr_order_lookup in Hpj as [Hjn Hpj]; [| done]. split_and!; [done | done | done |]. rewrite <- Hpj.
    apply list_elem_of_lookup in Hin as [p Hp]. assert (Hp' := Hp). apply rr_order_lookup in Hp' as [_ ->]; [| done].
    destruct (decide (distance current n i < length l1)%nat) as [Hlt |]; [| lia]. exfalso.
    rewrite El, lookup_app_l in Hp by done. rewrite Forall_lookup in Hl1. specialize (Hl1 _ _ Hp). cbn in Hl1. congruence.
  - apply first_ready_None in E. rewrite Forall_forall in E. specialize (E i Hin). cbn in E. congruence.
Qed.

(** A run of timer ticks on one CPU, each with the frame and the CPU state it
    interrupts. *)
Fixpoint run_ticks (apic : Z) (l : list (registers * hw)) s : res (sys S) :=
  match l with
  | [] => mret s
  | (r, h) :: l => '(_, s) ← timer_handler apic r h s; run_ticks apic l s
  end.

(** One tick brings an idle thread onto the CPU or nearer to it. *)
Lemma tick_progress apic c r h s o s1 i :
  sched_ok s -> get_current_managed_cpu apic s = Some c -> st s i = Some IDLE ->
  timer_handler apic r h s = Ret (o, s1) ->
  sched_ok s1 /\ get_current_managed_cpu apic s1 = Some c /\ length (threads s1) = length (threads s) /\
  (cur s1 c = Some i \/
   (st s1 i = Some IDLE /\ exists j, cur s1 c = Some j /\
      (distance (cur s1 c) (length (threads s)) i < match cur s c with None => Datatypes.S i | Some _ => distance (cur s c) (length (threads s)) i end)%nat)).
Proof.
  intros OK Hm Hi Ht. assert (W := sched_weaken s c OK).
  destruct (tick_ok apic c r h s W Hm) as (o' & Ho & OK' & Hrel & Hready & Hm'). rewrite Ht in Ho. injection Ho as -> ->.
  unfold st in Hi. destruct (threads s !! i) as [t |] eqn:Eti; [| done]. injection Hi as Hst.
  assert (Hin : (i < length (threads s))%nat) by (by eapply lookup_lt_Some).
  assert (Hri : ready s i = true) by (unfold ready; by rewrite Eti, Hst).
  assert (Hv : forall c0, cur s c = Some c0 -> (c0 < length (threads s))%nat) by (intros c0; apply (so_valid _ _ OK)).
  destruct (first_ready_distance s (cur s c) i Hv Hri Hin) as (j & Hj & Hrj & Hjn & Hd). rewrite Hj in *.
  split_and!; [done | done | apply Hrel |].
  assert (Hc1 : cur (after_switch s c (cur s c) (Some j) (saved r h)) c = Some j)
    by (rewrite (rl_cur _ _ _ _ Hrel); by rewrite decide_True).
  rewrite Hc1. destruct (decide (j = i)) as [-> | Hne]; [by left | right]. split.
  - destruct (lookup_lt_is_Some_2 (threads (after_switch s c (cur s c) (Some j) (saved r h))) i) as [t' Ht'].
    { rewrite (rl_length _ _ _ _ Hrel). done. }
    destruct (rl_thread _ _ _ _ Hrel i t' Ht') as (t0 & Ht0 & _ & Hs'). unfold st. rewrite Ht'. cbn. f_equal.
    rewrite Eti in Ht0. injection Ht0 as <-. rewrite Hs', Hst. unfold switched.
    rewrite decide_False by congruence. rewrite decide_False by (intros [_ ?]; done). done.
  - exists j. split; [done |]. destruct (cur s c) as [c0 |] eqn:Ec; unfold distance in *.
    + assert (Hjc : j <> c0).
      { intros ->. destruct (lookup_lt_is_Some_2 (threads s) c0 (Hv c0 eq_refl)) as [tc Htc].
        destruct (ready_state c0 s tc Hrj Htc) as [E | E];
          destruct (current_state _ _ _ _ OK Ec Htc) as [F | F]; congruence. }
      specialize (Hv c0 eq_refl). repeat destruct (decide _); lia.
    + repeat destruct (decide _); lia.
Qed.

Lemma ticks_reach apic c l d s i :
  sched_ok s -> get_current_managed_cpu apic s = Some c -> st s i = Some IDLE ->
  (match cur s c with None => Datatypes.S i | Some _ => distance (cur s c) (length (threads s)) i end <= d)%nat ->
  (d <= length l)%nat -> (0 < d)%nat ->
  exists k s1, (1 <= k <= d)%nat /\ run_ticks apic (take k l) s = Ret s1 /\ cur s1 c = Some i.
Proof.
  revert d s. induction l as [| [r h] l IH]; intros d s OK Hm Hi Hd Hdk Hd0; cbn in Hdk; [lia |].
  destruct (tick_ok apic c r h s (sched_weaken _ _ OK) Hm) as (o & Ht & _).
  set (s1 := after_switch s c _ _ _) in Ht. clearbody s1.
  destruct (tick_progress apic c r h s o s1 i OK Hm Hi Ht) as (OK1 & Hm1 & Hl1 & [Hc1 | (Hi1 & j & Hj & Hlt)]).
  - exists 1%nat, s1. cbn. rewrite Ht. cbn. by rewrite take_0.
  - destruct (decide (d = 1%nat)) as [-> | Hd1].
    { exfalso. rewrite Hj in Hlt. assert (Hz : distance (Some j) (length (threads s)) i = 0%nat) by lia.
      assert (Hjn : (j < length (threads s1))%nat) by (by eapply (so_valid _ _ OK1 c)). rewrite Hl1 in Hjn.
      unfold distance in Hz. destruct (decide (j <= i)%nat); [| lia]. assert (j = i) as -> by lia.
      unfold st in Hi1. destruct (threads s1 !! i) as [t |] eqn:Et; [| done]. injection Hi1 as Hs.
      destruct (current_state _ _ _ _ OK1 Hj Et) as [F | F]; congruence. }
    destruct (IH (d - 1)%nat s1) as (k & s2 & Hk & Ht1 & Hc2); try done; try lia.
    { rewrite Hj, Hl1. rewrite Hj in Hlt. lia. }
    exists (Datatypes.S k), s2. cbn. rewrite Ht. cbn. split_and!; [lia | lia | done | done].
Qed.
End fairness.

(** ** Lemmas: the context of a thread that does not run *)

Section contexts.
Import process.
Context {S : Type} `{FA : FrameAllocator S}.
Implicit Types s : sys S.

(** The steps that leave thread [i] alone: ticks of the CPUs it is not on, other
    threads that block, events and the creation of threads. *)
Inductive elsewhere (i : nat) : sys S -> sys S -> Prop :=
| el_tick apic c r h s o s' :
    get_current_managed_cpu apic s = Some c -> cur s c <> Some i -> timer_handler apic r h s = Ret (o, s') ->
    elsewhere i s s'
| el_block apic c j t e r h s o s' :
    get_current_managed_cpu apic s = Some c -> cur s c = Some j -> j <> i -> threads s !! j = Some t ->
    state t = RUNNING -> is_Some (events s !! e) -> block j e apic r h s = Ret (o, s') -> elsewhere i s s'
| el_trigger e n s :
    events s !! e = Some n -> elsewhere i s (set_events (<[e := event.trigger n]> (events s)) s)
| el_create p s : elsewhere i s (create_blocked_thread p s).2.

Lemma elsewhere_ok i s s' : elsewhere i s s' -> sched_ok s -> sched_ok s'.
Proof.
  intros H OK. destruct H as [apic c r h s o s' Hm _ Ht | apic c j t e r h s o s' Hm Hc _ Ht Hs He Hb | e n s He | p s].
  - destruct (tick_ok apic c r h s (sched_weaken _ _ OK) Hm) as (o' & Ho & OK' & _). rewrite Ht in Ho. by injection Ho as -> ->.
  - assert (W := block_mark_own c j t e s OK Hc Ht Hs He). unfold block in Hb.
    destruct (tick_ok apic c r h (block_mark j e s) W Hm) as (o' & Ho & OK' & _). rewrite Hb in Ho. by injection Ho as -> ->.
  - by apply event_ok.
  - assert (H := create_ok _ p s OK). destruct (create_blocked_thread p s) as [j s']. apply H.
Qed.

(** The part of a thread that the scheduler must not lose. *)
Definition keeps (ctx : thread_context) (v : Z) (i : nat) s : Prop :=
  exists t, threads s !! i = Some t /\ context t = ctx /\ vmm t = v /\ state t <> DISABLED.

Lemma after_switch_keeps ctx v i s c old new ctx' :
  (forall j, new = Some j -> ready s j = true) -> is_Some (cpus s !! c) -> old <> Some i ->
  keeps ctx v i s -> keeps ctx v i (after_switch s c old new ctx').
Proof.
  intros Hr Hc Ho (t & Ht & Hctx & Hv & Hs).
  destruct (lookup_lt_is_Some_2 (threads (after_switch s c old new ctx')) i) as [t' Ht'].
  { rewrite (rl_length _ _ _ _ (after_switch_relabels s c old new ctx' Hr Hc)). by eapply lookup_lt_Some. }
  destruct (after_switch_lookup s c old new ctx' i t' Hr Ht') as (t0 & Ht0 & _ & Ev & _ & Es & Ec).
  rewrite Ht in Ht0. injection Ht0 as <-. rewrite decide_False in Ec by done.
  exists t'. split_and!; [done | congruence | congruence |]. rewrite Es. unfold switched.
  destruct (decide (new = Some i)); [done |]. by rewrite decide_False by (intros [? _]; done).
Qed.

Lemma tick_keeps ctx v i apic c r h s o s' :
  sched_weak (eq c) s -> get_current_managed_cpu apic s = Some c -> cur s c <> Some i ->
  timer_handler apic r h s = Ret (o, s') -> keeps ctx v i s -> keeps ctx v i s'.
Proof.
  intros W Hm Hc Ht Hk. destruct (tick_ok apic c r h s W Hm) as (o' & Ho & _ & _ & Hr & _).
  rewrite Ht in Ho. injection Ho as -> ->. apply after_switch_keeps; [done | | done | done].
  destruct (managed_lookup s apic c Hm) as (cpu & -> & _). eauto.
Qed.

Lemma upd_keeps ctx v i j f s : j <> i -> keeps ctx v i s -> keeps ctx v i (upd j f s).
Proof. intros Hne (t & Ht & H). exists t. by rewrite threads_upd, decide_False by done. Qed.

Lemma create_keeps ctx v i p s : keeps ctx v i s -> keeps ctx v i (create_blocked_thread p s).2.
Proof.
  intros (t & Ht & Hctx & Hv & Hs). unfold create_blocked_thread.
  destruct (list_find _ (threads s)) as [[j tj] |] eqn:E; cbn [snd].
  - apply list_find_Some in E as (Hj & Hsj & _). apply upd_keeps; [| by exists t]. intros ->. congruence.
  - apply upd_keeps.
    + intros E'. apply lookup_lt_Some in Ht. lia.
    + exists t. cbn. split; [| done]. rewrite lookup_app_l; [done | by eapply lookup_lt_Some].
Qed.

Lemma elsewhere_keeps ctx v i s s' :
  elsewhere i s s' -> sched_ok s -> keeps ctx v i s -> keeps ctx v i s'.
Proof.
  intros H OK Hk. destruct H as [apic c r h s o s' Hm Hc Ht | apic c j t e r h s o s' Hm Hc Hne Ht Hs He Hb | e n s He | p s].
  - eapply tick_keeps; eauto. by apply sched_weaken.
  - unfold block in Hb. eapply tick_keeps; [by eapply block_mark_own | exact Hm | | exact Hb |].
    + replace (cur (block_mark j e s) c) with (cur s c) by done. rewrite Hc. congruence.
    + by apply upd_keeps.
  - destruct Hk as (t & Ht & Hk). by exists t.
  - by apply create_keeps.
Qed.

Lemma elsewhere_run ctx v i s s' :
  rtc (elsewhere i) s s' -> sched_ok s -> keeps ctx v i s -> sched_ok s' /\ keeps ctx v i s'.
Proof.
  induction 1 as [s | s s1 s' H1 _ IH]; intros OK Hk; [done |]. apply IH.
  - by eapply elsewhere_ok.
  - by eapply elsewhere_keeps.
Qed.

(** A tick saves the interrupted state of the thread that ran. *)
Lemma tick_saves apic c i r h s o s' t :
  sched_ok s -> get_current_managed_cpu apic s = Some c -> cur s c = Some i -> threads s !! i = Some t ->
  timer_handler apic r h s = Ret (o, s') -> sched_ok s' /\ keeps (saved r h) (vmm t) i s'.
Proof.
  intros OK Hm Hc Ht Htick. destruct (tick_ok apic c r h s (sched_weaken _ _ OK) Hm) as (o' & Ho & OK' & Hrel & Hr & _).
  rewrite Htick in Ho. injection Ho as -> ->. split; [done |].
  destruct (lookup_lt_is_Some_2 (threads (after_switch s c (cur s c)
    (first_ready s (rr_order (cur s c) (length (threads s)))) (saved r h))) i) as [t' Ht'].
  { rewrite (rl_length _ _ _ _ Hrel). by eapply lookup_lt_Some. }
  destruct (after_switch_lookup _ _ _ _ _ i t' Hr Ht') as (t0 & Ht0 & _ & Ev & _ & Es & Ec).
  rewrite Ht in Ht0. injection Ht0 as <-. rewrite decide_True in Ec by done.
  exists t'. split_and!; [done | done | done |]. rewrite Es. unfold switched.
  destruct (decide _); [done |]. destruct (decide _) as [| Hn]; [done |].
  destruct (current_state _ _ _ _ OK Hc Ht) as [E | E]; congruence.
Qed.

(** A tick that picks a thread resumes it from its stored context. *)
Lemma tick_resumes apic c i r h ctx v s o s' :
  sched_ok s -> get_current_managed_cpu apic s = Some c -> keeps ctx v i s -> to_phys v = cr3 ctx ->
  timer_handler apic r h s = Ret (o, s') -> cur s' c = Some i ->
  o = Resume (regs ctx) (mk_hw (cr3 ctx) (fs ctx) (simd_state ctx)).
Proof.
  intros OK Hm (t & Ht & Hctx & Hv & Hs) Hcr Htick Hc'. destruct (managed_lookup s apic c Hm) as (cpu & Hcpu & Hcur).
  destruct (timer_handler_eq apic c cpu r h s) as (Hr & o' & Ho & Hcase); try done; try apply OK.
  { intros j Hj. apply (so_valid _ _ OK c). by rewrite Hcur. }
  rewrite Htick in Ho. injection Ho as -> ->. set (old := current_thread cpu) in *.
  set (new := first_ready s (rr_order old (length (threads s)))) in *.
  assert (Hrel := after_switch_relabels s c old new (saved r h) Hr ltac:(by rewrite Hcpu)).
  assert (Hnew : new = Some i) by (by rewrite (rl_cur _ _ _ _ Hrel), decide_True in Hc').
  assert (Hold : old <> Some i).
  { intros Eo. rewrite Eo in Hcur. specialize (Hr i Hnew).
    destruct (ready_state i s t Hr Ht) as [E | E];
      destruct (current_state _ _ _ _ OK Hcur Ht) as [F | F]; congruence. }
  rewrite Hnew in Hcase. destruct Hcase as (t' & Ht' & ->). rewrite <- Hnew in Ht'.
  destruct (after_switch_lookup s c old new (saved r h) i t' Hr Ht') as (t0 & Ht0 & _ & Ev & _ & _ & Ec).
  rewrite Ht in Ht0. injection Ht0 as <-. rewrite decide_False in Ec by done. rewrite Ec, Ev, Hctx, Hv, Hcr, <- Hnew.
  destruct old as [j |]; [| done].
  destruct (threads (after_switch s c (Some j) new (saved r h)) !! j) as [tj |] eqn:Ej; [| done]. cbn.
  destruct (after_switch_lookup s c (Some j) new (saved r h) j tj Hr Ej) as (tj0 & _ & _ & _ & _ & _ & Ecj).
  rewrite decide_True in Ecj by done. rewrite Ecj. cbn.
  destruct (Z.eqb_spec (hw_cr3 h) (cr3 ctx)) as [-> |]; done.
Qed.
End contexts.

(** ** Theorems *)

Section kill_lemmas.
Import process.
Context {S : Type} `{FA : FrameAllocatorLaws S}.

Lemma free_frames_pages l (k k' : paging.kernel S) :
  fa_wf (paging.frames k) -> Forall frame_addr l -> free_frames l k = Ret k' ->
  fa_wf (paging.frames k') /\ fa_pages (paging.frames k') ≡ₚ l ++ fa_pages (paging.frames k).
Proof.
  revert k. induction l as [| f l IH]; intros k Hw Hl H; cbn in H; [by inv_res |].
  apply bind_Ret in H as (k1 & H1 & H). unfold paging.free_frame in H1. apply bind_Ret in H1 as (fr & Hfr & H1). inv_res.
  apply Forall_cons in Hl as [Hf Hl]. destruct (fa_free_law _ _ _ Hw Hf Hfr) as [Hw1 Hp1].
  destruct (IH (paging.mk fr (paging.mem k)) Hw1 Hl H) as [Hw2 Hp2]. split; [done |]. rewrite Hp2. cbn. by rewrite Hp1, <- Permutation_middle.
Qed.
End kill_lemmas.

(** A machine with two CPUs: thread 0 is the kernel's, thread 1 runs on CPU 0,
    thread 2 on CPU 1, thread 3 is idle and thread 4 waits for the event 0x500. *)
Section example.
Import process.

Definition thread_example (id : Z) (x : thread_state) : thread :=
  let t := set_state x (set_tid id new_thread) in
  let t := set_vmm (to_virt (0x400000 + 0x1000 * id)) (set_event 0x500 t) in
  set_context (mk_ctx (initial_regs APPLICATION) (0x400000 + 0x1000 * id) id simd.default_state) t.

Definition boot_example : sys pmm.state :=
  mk [] 0 [] queue.create ∅ paging_example (to_virt 0x300000).

Definition sys_example : sys pmm.state :=
  mk [thread_example 0 SILENT; thread_example 1 RUNNING; thread_example 2 RUNNING; thread_example 3 IDLE;
      thread_example 4 BLOCKED] 5
     [mk_cpu 0 true (Some 1%nat); mk_cpu 1 true (Some 2%nat)] queue.create {[0x500 := 0; 0x600 := 0]}
     paging_example (to_virt 0x300000).

Definition hw_example (i : Z) : hw := mk_hw (0x400000 + 0x1000 * i) i simd.default_state.

Lemma sys_example_ok : sched_ok sys_example.
Proof.
  assert (Hcur : forall c i, cur sys_example c = Some i -> (c = 0 /\ i = 1 \/ c = 1 /\ i = 2)%nat).
  { intros [| [| c]] i; unfold cur; cbn; intros [= <-]; auto. }
  assert (Hlook : forall i t, threads sys_example !! i = Some t ->
            (i < 5)%nat /\ event t = 0x500 /\ (state t = RUNNING -> i = 1 \/ i = 2)%nat).
  { intros [| [| [| [| [| i]]]]] t; cbn; intros [= <-]; cbn; split_and!; (lia || auto || done). }
  constructor.
  - by_compute.
  - intros c i H. cbn. destruct (Hcur c i H); lia.
  - intros c1 c2 i t H1 H2 _ _. destruct (Hcur _ _ H1), (Hcur _ _ H2); lia.
  - intros i t Ht Hs. destruct (Hlook i t Ht) as (_ & _ & Hi). destruct (Hi Hs) as [-> | ->]; [by exists 0%nat | by exists 1%nat].
  - intros c i t H Ht. left. destruct (Hcur c i H) as [[_ ->] | [_ ->]]; cbn in Ht; by injection Ht as <-.
  - intros i t Ht _. destruct (Hlook i t Ht) as (_ & -> & _). by exists 0.
Qed.
End example.

(** [schedule] is a fair search: it picks the ready thread that comes first
    in the cyclic order from the current thread, using up the event the thread
    waited for, and returns null exactly when no thread is ready; the thread that
    runs is not ready, so it is never picked again at once. *)
Theorem schedule_round_robin {S} (s : process.sys S) (current : option nat) :
  events_ok s -> queue.length (process.scheduling_queue s) = 0%nat ->
  (forall i, current = Some i -> (i < length (process.threads s))%nat) ->
  let n := length (process.threads s) in
  exists r s', process.schedule current s = Ret (r, s') /\
    match r with
    | Some j => ready s j = true /\ s' = pick j s /\ (j < n)%nat /\
        forall i, (i < n)%nat -> ready s i = true -> (distance current n j <= distance current n i < n)%nat
    | None => s' = s /\ forall i, ready s i = false
    end.
Proof.
  intros He Hq Hc n.
  assert (Hlt : forall i, ready s i = true -> (i < n)%nat).
  { intros i. unfold ready. destruct (process.threads s !! i) eqn:E; [intros _; by eapply lookup_lt_Some | done]. }
  rewrite schedule_eq by done. fold n. destruct (first_ready s (rr_order current n)) as [j |] eqn:E.
  - exists (Some j), (pick j s). destruct (first_ready_Some s _ j E) as (Hj & _). split_and!; auto.
    intros i Hi Hri. destruct (first_ready_distance s current i Hc Hri Hi) as (j' & E' & _ & _ & Hd).
    fold n in E', Hd. rewrite E' in E. injection E as ->. split; [done |].
    unfold distance. destruct current as [c |]; [specialize (Hc c eq_refl) |]; [| done]. destruct (decide _); lia.
  - exists None, s. split; [done |]. split; [done |]. intros i. apply not_true_is_false. intros Hi.
    destruct (first_ready_distance s current i Hc Hi (Hlt i Hi)) as (j' & E' & _).
    fold n in E'. congruence.
Qed.

Lemma schedule_round_robin_witness :
  exists r s', process.schedule (Some 1%nat) sys_example = Ret (r, s') /\
    match r with
    | Some j => ready sys_example j = true /\ s' = pick j sys_example /\ (j < 5)%nat /\
        forall i, (i < 5)%nat -> ready sys_example i = true ->
          (distance (Some 1%nat) 5 j <= distance (Some 1%nat) 5 i < 5)%nat
    | None => s' = sys_example /\ forall i, ready sys_example i = false
    end.
Proof.
  apply (schedule_round_robin sys_example (Some 1%nat)); [apply sys_example_ok | vm_compute; reflexivity |].
  intros i [= <-]. vm_compute. lia.
Defined.

(** C5: A thread resumes exactly where it was interrupted.  If a timer interrupt
    takes thread [i] off a CPU that was in the state [h] with the frame [r] (the
    address space being the thread's own), then after any number of steps that
    leave the thread alone, the interrupt that puts it on a CPU again, whichever
    that is and whatever ran there, returns to the same frame, address space, FS
    base and SIMD state. *)
Theorem context_switch_exact {S} `{FA : FrameAllocator S} (apic apic' : Z) (c c' i : nat) (t : process.thread)
    (r r' : process.registers) (h h' : process.hw) (s s1 s2 s3 : process.sys S) (o o' : process.outcome) :
  sched_ok s -> process.get_current_managed_cpu apic s = Some c -> cur s c = Some i ->
  process.threads s !! i = Some t -> to_phys (process.vmm t) = process.hw_cr3 h ->
  process.timer_handler apic r h s = Ret (o, s1) ->
  rtc (elsewhere i) s1 s2 ->
  process.get_current_managed_cpu apic' s2 = Some c' ->
  process.timer_handler apic' r' h' s2 = Ret (o', s3) -> cur s3 c' = Some i ->
  o' = process.Resume r h.
Proof.
  intros OK Hm Hc Ht Hcr H1 Hrun Hm' H2 Hc'.
  destruct (tick_saves apic c i r h s o s1 t OK Hm Hc Ht H1) as [OK1 Hk1].
  destruct (elsewhere_run _ _ i s1 s2 Hrun OK1 Hk1) as [OK2 Hk2].
  rewrite (tick_resumes apic' c' i r' h' (saved r h) (process.vmm t) s2 o' s3 OK2 Hm' Hk2 Hcr H2 Hc').
  cbn. by destruct h.
Qed.

(** Thread 1 is interrupted on CPU 0, the event of thread 4 is triggered, an
    interrupt on CPU 1 starts thread 4 and the next one there resumes thread 1. *)
Definition r_example : process.registers := process.set_rax 42 process.zero_regs.
Definition tick_example (apic i : Z) (s : process.sys pmm.state) : process.sys pmm.state :=
  match process.timer_handler apic r_example (hw_example i) s with Ret (_, s) => s | _ => s end.
Definition outcome_example (apic i : Z) (s : process.sys pmm.state) : process.outcome :=
  match process.timer_handler apic r_example (hw_example i) s with Ret (o, _) => o | _ => process.Idle (hw_example i) end.
Definition trigger_example (e : Z) (s : process.sys pmm.state) : process.sys pmm.state :=
  process.set_events (<[e := event.trigger 0]> (process.events s)) s.

Lemma context_switch_exact_witness :
  outcome_example 1 4 (tick_example 1 2 (trigger_example 0x500 (tick_example 0 1 sys_example))) =
    process.Resume r_example (hw_example 1).
Proof.
  set (s1 := tick_example 0 1 sys_example). set (s2 := tick_example 1 2 (trigger_example 0x500 s1)).
  apply (context_switch_exact 0 1 0 1 1 (thread_example 1 process.RUNNING) r_example r_example
    (hw_example 1) (hw_example 4) sys_example s1 s2 (tick_example 1 4 s2) (outcome_example 0 1 sys_example)
    (outcome_example 1 4 s2)); try (vm_compute; reflexivity); [apply sys_example_ok |].
  eapply rtc_l; [eapply (el_trigger 1 0x500 0 s1); vm_compute; reflexivity |]. fold (trigger_example 0x500 s1).
  eapply rtc_l; [| apply rtc_refl].
  apply (el_tick 1 1 1 r_example (hw_example 2) (trigger_example 0x500 s1) (outcome_example 1 2 (trigger_example 0x500 s1)));
    [vm_compute; reflexivity | vm_compute; discriminate | vm_compute; reflexivity].
Defined.

(** C23: Nothing starves: an idle thread is put on the CPU by one of the next
    [n] timer interrupts of that CPU, where [n] is the number of threads. *)
Theorem no_starvation {S} (apic : Z) (c i : nat) (s : process.sys S) (l : list (process.registers * process.hw)) :
  sched_ok s -> process.get_current_managed_cpu apic s = Some c -> st s i = Some process.IDLE ->
  (length (process.threads s) <= length l)%nat ->
  exists k s', (1 <= k <= length (process.threads s))%nat /\ run_ticks apic (take k l) s = Ret s' /\ cur s' c = Some i.
Proof.
  intros OK Hm Hi Hl. assert (Hi' := Hi). unfold st in Hi'. apply fmap_Some in Hi' as (t & Ht & _).
  apply lookup_lt_Some in Ht. apply ticks_reach; try done; [| lia].
  destruct (cur s c) as [c0 |] eqn:Ec; [| lia].
  assert (Hc0 := so_valid _ _ OK c c0 Ec). unfold distance. destruct (decide _); lia.
Qed.

Lemma no_starvation_witness :
  exists k s', (1 <= k <= 5)%nat /\ run_ticks 1 (take k (replicate 5 (r_example, hw_example 2))) sys_example = Ret s' /\ cur s' 1%nat = Some 3%nat.
Proof.
  apply (no_starvation 1 1 3 sys_example); [apply sys_example_ok | reflexivity | reflexivity | vm_compute; lia].
Defined.

(** [kill] frees every frame in [resources.frames] but leaves the list as it
    is, and the next thread created in the same slot keeps it: the list of the
    new thread names frames it does not own, which its own [kill] frees again. *)
Theorem kill_keeps_freed_frames {S} `{FA : FrameAllocatorLaws S} (apic : Z) (c i : nat) (t : process.thread)
    (p : process.thread_privilege_level) (r : process.registers) (h : process.hw) (s s' : process.sys S)
    (o : process.outcome) :
  process.get_current_managed_cpu apic s = Some c -> cur s c = Some i -> process.threads s !! i = Some t ->
  fa_wf (paging.frames (process.kern s)) -> Forall frame_addr (process.frames t) ->
  (forall j, (j < i)%nat -> st s j <> Some process.DISABLED) ->
  process.kill apic r h s = Ret (o, s') ->
  (exists k, process.free_frames (process.frames t) (process.kern s) = Ret k /\
     fa_pages (paging.frames k) ≡ₚ process.frames t ++ fa_pages (paging.frames (process.kern s))) /\
  (process.create_blocked_thread p s').1 = i /\
  exists t', process.threads (process.create_blocked_thread p s').2 !! i = Some t' /\
    process.state t' = process.SILENT /\ process.frames t' = process.frames t.
Proof.
  intros Hm Hc Ht Hw Hfr Hfirst Hk. unfold process.kill in Hk.
  apply bind_Ret in Hk as ([x s2] & Hkt & Hk). unfold process.kill_thread in Hkt.
  destruct (managed_lookup s apic c Hm) as (cpu & Hcpu & Hcur). rewrite Hm in Hkt. cbn [access mbind res_bind] in Hkt.
  rewrite Hcpu in Hkt. cbn [access mbind res_bind] in Hkt. rewrite <- Hcur, Hc in Hkt. cbn [access mbind res_bind] in Hkt.
  rewrite Ht in Hkt. cbn [access mbind res_bind] in Hkt.
  apply bind_Ret in Hkt as (k1 & Hk1 & Hkt). apply bind_Ret in Hkt as (k2 & _ & Hkt). apply bind_Ret in Hkt as ([info k3] & _ & Hkt).
  injection Hkt as <- <-.
  split; [exists k1; split; [done | by eapply free_frames_pages] |].
  unfold process.idle_cpu in Hk. apply bind_Ret in Hk as (cpu1 & Hcpu1 & Hk). apply access_Some in Hcpu1. cbn in Hcpu1.
  rewrite list_lookup_alter_eq, Hcpu in Hcpu1. injection Hcpu1 as <-. cbn in Hk. inv_res.
  unfold process.create_blocked_thread. cbn [process.threads process.set_current process.set_cpus].
  set (s1 := process.upd i _ _). destruct (list_find _ _) as [[j tj] |] eqn:E.
  - assert (j = i) as ->.
    { apply list_find_Some in E as (Hj & Hs & Hmin). destruct (decide (j = i)) as [| Hne]; [done | exfalso].
      destruct (decide (j < i)%nat) as [Hlt |].
      - apply (Hfirst j Hlt). unfold st. apply lookup_upd in Hj as (t0 & Hj & ->). cbn in Hj. rewrite Hj. cbn.
        rewrite decide_False in Hs by congruence. by rewrite Hs.
      - eapply (Hmin i); [unfold s1; rewrite threads_upd, decide_True by done; cbn; by rewrite Ht | lia | done]. }
    split; [done |]. eexists. cbn [snd]. split.
    + unfold process.create_thread_int. rewrite threads_upd, decide_True by done.
      cbn [process.threads process.set_current process.set_cpus]. unfold s1.
      rewrite threads_upd, decide_True by done. cbn. rewrite Ht. reflexivity.
    + done.
  - exfalso. apply list_find_None in E. rewrite Forall_lookup in E. eapply (E i);
      [unfold s1; rewrite threads_upd, decide_True by done; cbn; by rewrite Ht | done].
Qed.

Definition kill_example : process.sys pmm.state := process.upd 1 (process.set_frames [0x104000; 0x105000]) sys_example.

Lemma kill_keeps_freed_frames_witness :
  match process.kill 0 r_example (hw_example 1) kill_example with
  | Ret (_, s') => exists t', process.threads (process.create_blocked_thread process.APPLICATION s').2 !! 1%nat = Some t' /\
      process.state t' = process.SILENT /\ process.frames t' = [0x104000; 0x105000]
  | _ => False
  end.
Proof.
  assert (F : match process.kill 0 r_example (hw_example 1) kill_example with Ret _ => true | _ => false end = true)
    by (vm_compute; reflexivity).
  destruct (process.kill 0 r_example (hw_example 1) kill_example) as [[o s'] | | |] eqn:E; try discriminate F.
  apply (kill_keeps_freed_frames 0 0 1 (process.set_frames [0x104000; 0x105000] (thread_example 1 process.RUNNING))
    process.APPLICATION r_example (hw_example 1) kill_example s' o); try reflexivity; try exact E.
  - change (pmm.wf (paging.frames paging_example)). by_compute.
  - repeat constructor; vm_compute; try discriminate; reflexivity.
  - intros [| j] Hj; [vm_compute; discriminate | lia].
Defined.
