(* ===== verification/Scheduler.v ===== *)
(** * Scheduler: the CPUs of the scheduler interleaved

    Models how the CPUs run the functions of source/proc/process.cpp at the same
    time.  Process.v has these functions for one CPU; here [timer_handler] is cut at
    each look of [schedule] at a thread, [thread::block] between its two halves and
    [kill] where it gives up [scheduler_mutex], and the word of that mutex is part of
    the state.  [machine] is the state, [step] one step of one CPU.  Two hazards of
    the code break the invariant: [early_pick] (see [block_race]) and [opened] (see
    [kill_opens_mutex]); [scheduler_invariant] holds up to the first of them, and
    without condition on one CPU.  The thread locks are not modelled: what runs
    under one of them is one step.  A thread that declared itself silent makes no
    further blocking call before its CPU switches. *)

From S2P Require Import Prelude Bits Klibc Containers Frames Pmm Paging Ipc Process.

(** ** The state and the steps *)

Section steps.
Import process.
Context {S : Type} `{FA : FrameAllocator S}.
Implicit Types s : sys S.

(** Where a CPU is: in a thread or in the idle loop; in [thread::block] between its
    two halves; in [timer_handler], inside [scheduler_mutex], with the threads that
    [schedule] still has to look at, or with its choice; or in [kill], between its
    unlock of the mutex and the one in [idle_cpu]. *)
Inductive pc := Outside | Marked | Scanning (old : option nat) (l : list nat) | Chosen (old new : option nat) | Killed.

(** All CPUs: the shared state, the word of [scheduler_mutex] and where they are. *)
Record machine := mk_machine { m_sys : sys S; m_locked : bool; m_pcs : gmap nat pc }.

Definition pc_at (m : machine) (c : nat) : pc := default Outside (m_pcs m !! c).

Definition inside (p : pc) : bool := match p with Scanning _ _ | Chosen _ _ => true | _ => false end.

(** The CPUs whose current thread is not just running. *)
Definition loose (p : pc) : bool := match p with Marked => true | _ => inside p end.

(** The threads [round_robin] looks at, in its order. *)
Definition scan_order (current : option nat) (n : nat) : list nat :=
  match current with Some c => if decide (c < n)%nat then rr_order (Some c) n else [] | None => rr_order None n end.

(** One step of one CPU.  [timer_handler] (the timer interrupt, [yield] and the
    second half of [block]) is cut at each look at a thread, which is all it does
    under that thread's lock; [block] is cut behind its first half and [kill]
    where it gives up the mutex.  The steps that do not take [scheduler_mutex] can
    happen at any time: an event is made or triggered, the context, memory or
    privileges of a thread change, a silent thread that is on no CPU is woken, a
    running thread declares itself silent, a CPU is started on a silent thread. *)
Inductive step : machine -> machine -> Prop :=
| step_lock apic c s pcs :
    get_current_managed_cpu apic s = Some c -> inside (pc_at (mk_machine s false pcs) c) = false ->
    queue.length (scheduling_queue s) = 0%nat ->
    step (mk_machine s false pcs)
         (mk_machine s true (<[c := Scanning (cur s c) (scan_order (cur s c) (length (threads s)))]> pcs))
| step_lock_queue apic c s pcs new s' :
    get_current_managed_cpu apic s = Some c -> inside (pc_at (mk_machine s false pcs) c) = false ->
    (1 <= queue.length (scheduling_queue s))%nat -> schedule (cur s c) s = Ret (new, s') ->
    step (mk_machine s false pcs) (mk_machine s' true (<[c := Chosen (cur s c) new]> pcs))
| step_check c s lk pcs old i l b s' :
    pcs !! c = Some (Scanning old (i :: l)) -> check_thread i s = Ret (b, s') ->
    step (mk_machine s lk pcs)
         (mk_machine s' lk (<[c := if b then Chosen old (Some i) else Scanning old l]> pcs))
| step_exhausted c s lk pcs old :
    pcs !! c = Some (Scanning old []) -> step (mk_machine s lk pcs) (mk_machine s lk (<[c := Chosen old None]> pcs))
| step_switch c s lk pcs old new r h o s' :
    pcs !! c = Some (Chosen old new) -> switch_to c old new r h s = Ret (o, s') ->
    step (mk_machine s lk pcs) (mk_machine s' false (<[c := Outside]> pcs))
| step_block apic c i t e s lk pcs :
    get_current_managed_cpu apic s = Some c -> pc_at (mk_machine s lk pcs) c = Outside ->
    cur s c = Some i -> threads s !! i = Some t -> state t = RUNNING -> is_Some (events s !! e) ->
    step (mk_machine s lk pcs) (mk_machine (block_mark i e s) lk (<[c := Marked]> pcs))
| step_kill apic c i t s pcs x s' :
    get_current_managed_cpu apic s = Some c -> pc_at (mk_machine s false pcs) c = Outside ->
    cur s c = Some i -> threads s !! i = Some t -> state t = RUNNING -> kill_thread apic s = Ret (x, s') ->
    step (mk_machine s false pcs) (mk_machine s' false (<[x := Killed]> pcs))
| step_killed c s lk pcs r h o s' :
    pcs !! c = Some Killed -> idle_cpu r h c s = Ret (o, s') ->
    step (mk_machine s lk pcs) (mk_machine s' false (<[c := Outside]> pcs))
| step_create p s pcs : step (mk_machine s false pcs) (mk_machine (create_blocked_thread p s).2 false pcs)
| step_event e n s lk pcs :
    step (mk_machine s lk pcs) (mk_machine (set_events (<[e := n]> (events s)) s) lk pcs)
| step_update i f s lk pcs :
    (forall t, state (f t) = state t /\ event (f t) = event t) ->
    step (mk_machine s lk pcs) (mk_machine (upd i f s) lk pcs)
| step_memory k s lk pcs : step (mk_machine s lk pcs) (mk_machine (set_kern k s) lk pcs)
| step_wake i t s lk pcs :
    threads s !! i = Some t -> state t = SILENT -> (forall c, cur s c <> Some i) ->
    step (mk_machine s lk pcs) (mk_machine (wake i s) lk pcs)
| step_silence c i s lk pcs :
    pc_at (mk_machine s lk pcs) c = Outside -> cur s c = Some i ->
    step (mk_machine s lk pcs) (mk_machine (upd i (set_state SILENT) s) lk pcs)
| step_init_cpu apic c i t s lk pcs :
    get_current_managed_cpu apic s = Some c -> pc_at (mk_machine s lk pcs) c = Outside ->
    cur s c = None -> threads s !! i = Some t -> state t = SILENT ->
    step (mk_machine s lk pcs) (mk_machine (init_cpu apic i s) lk pcs).

(** A CPU chose a thread that is in the middle of [block] on another one. *)
Definition early_pick (m : machine) : Prop :=
  exists c c' old i, c <> c' /\ pc_at m c = Chosen old (Some i) /\ cur (m_sys m) c' = Some i.

(** The mutex was opened while a CPU is inside. *)
Definition opened (m : machine) : Prop := m_locked m = false /\ exists c, inside (pc_at m c) = true.

(** A step after which neither has happened. *)
Definition safe_step (m m' : machine) : Prop := step m m' /\ ~ early_pick m' /\ ~ opened m'.

(** What holds as long as neither has happened. *)
Record machine_ok (m : machine) : Prop := {
  mo_sched : sched_weak (fun c => loose (pc_at m c) = true) (m_sys m);
  mo_inside : forall c, inside (pc_at m c) = true -> m_locked m = true;
  mo_locked : m_locked m = true -> exists c, inside (pc_at m c) = true;
  mo_one : forall c1 c2, inside (pc_at m c1) = true -> inside (pc_at m c2) = true -> c1 = c2;
  mo_old : forall c old, (exists l, pc_at m c = Scanning old l) \/ (exists new, pc_at m c = Chosen old new) ->
             cur (m_sys m) c = old /\ is_Some (cpus (m_sys m) !! c);
  mo_scan : forall c old l i, pc_at m c = Scanning old l -> i ∈ l -> (i < length (threads (m_sys m)))%nat;
  mo_chosen : forall c old i, pc_at m c = Chosen old (Some i) ->
                st (m_sys m) i = Some IDLE /\ forall c', cur (m_sys m) c' = Some i -> c' = c;
  mo_killed : forall c, pc_at m c = Killed -> cur (m_sys m) c = None }.

(** ** Lemmas *)

Lemma pc_insert s s' lk lk' pcs c p c' :
  pc_at (mk_machine s lk (<[c := p]> pcs)) c' = if decide (c = c') then p else pc_at (mk_machine s' lk' pcs) c'.
Proof.
  unfold pc_at. cbn. destruct (decide (c = c')) as [<- |]; [by rewrite lookup_insert_eq | by rewrite lookup_insert_ne].
Qed.

Lemma pc_singleton s lk c p c' : pc_at (mk_machine s lk {[c := p]}) c' = if decide (c = c') then p else Outside.
Proof. unfold pc_at. cbn. destruct (decide (c = c')) as [<- |]; [by rewrite lookup_singleton_eq | by rewrite lookup_singleton_ne]. Qed.

Lemma pc_lookup s lk pcs c p : pcs !! c = Some p -> pc_at (mk_machine s lk pcs) c = p.
Proof. unfold pc_at. cbn. by intros ->. Qed.

Lemma inside_loose p : inside p = true -> loose p = true.
Proof. by destruct p. Qed.

(** A step that leaves no CPU inside the mutex. *)
Lemma left_ok s pcs :
  ~ opened (mk_machine s false pcs) ->
  sched_weak (fun c => loose (pc_at (mk_machine s false pcs) c) = true) s ->
  (forall c, pc_at (mk_machine s false pcs) c = Killed -> cur s c = None) -> machine_ok (mk_machine s false pcs).
Proof.
  set (m := mk_machine s false pcs). intros Ho W Hk.
  assert (N : forall c, inside (pc_at m c) = true -> False) by (intros c Hc; apply Ho; split; [done | by exists c]).
  constructor; try done.
  - intros c Hc. by destruct (N c).
  - intros c1 c2 Hc. by destruct (N c1).
  - intros c old H. destruct (N c). by destruct H as [[? ->] | [? ->]].
  - intros c old l i H. destruct (N c). by rewrite H.
  - intros c old i H. destruct (N c). by rewrite H.
Qed.

(** A step of the only CPU inside, which stays inside. *)
Lemma inside_ok s s' lk pcs c p :
  machine_ok (mk_machine s lk pcs) ->
  (forall c', inside (pc_at (mk_machine s lk pcs) c') = true -> c' = c) ->
  inside p = true ->
  sched_weak (fun x => loose (pc_at (mk_machine s' true (<[c := p]> pcs)) x) = true) s' ->
  (forall old, (exists l, p = Scanning old l) \/ (exists new, p = Chosen old new) -> cur s' c = old /\ is_Some (cpus s' !! c)) ->
  (forall old l i, p = Scanning old l -> i ∈ l -> (i < length (threads s'))%nat) ->
  (forall old i, p = Chosen old (Some i) -> st s' i = Some IDLE /\ forall c', cur s' c' = Some i -> c' = c) ->
  (forall c', cur s c' = None -> cur s' c' = None) ->
  machine_ok (mk_machine s' true (<[c := p]> pcs)).
Proof.
  intros OK Honly Hp W Hold Hscan Hch Hkill. set (m' := mk_machine s' true _) in *.
  assert (E : forall x, pc_at m' x = if decide (c = x) then p else pc_at (mk_machine s lk pcs) x) by (intros x; apply pc_insert).
  assert (N : forall x, inside (pc_at m' x) = true -> x = c).
  { intros x. rewrite E. destruct (decide (c = x)) as [<- |]; [done | apply Honly]. }
  assert (Ec : pc_at m' c = p) by (rewrite E; by rewrite decide_True).
  constructor; try done.
  - intros _. exists c. by rewrite Ec.
  - intros c1 c2 H1 H2. by rewrite (N c1 H1), (N c2 H2).
  - intros x old H. assert (x = c) as -> by (apply N; by destruct H as [[? ->] | [? ->]]). rewrite Ec in H. by apply Hold.
  - intros x old l i H. assert (x = c) as -> by (apply N; by rewrite H). rewrite Ec in H. by eapply Hscan.
  - intros x old i H. assert (x = c) as -> by (apply N; by rewrite H). rewrite Ec in H. by eapply Hch.
  - intros x H. rewrite E in H. destruct (decide (c = x)) as [<- |]; [by rewrite H in Hp |].
    apply Hkill. by apply (mo_killed _ OK).
Qed.

(** A step that changes the shared state only. *)
Lemma state_ok s s' lk pcs :
  machine_ok (mk_machine s lk pcs) ->
  sched_weak (fun x => loose (pc_at (mk_machine s lk pcs) x) = true) s' ->
  (forall c, pc_at (mk_machine s lk pcs) c <> Outside -> cur s' c = cur s c) ->
  (length (threads s) <= length (threads s'))%nat ->
  (forall c, is_Some (cpus s !! c) -> is_Some (cpus s' !! c)) ->
  (forall c old i, pc_at (mk_machine s lk pcs) c = Chosen old (Some i) ->
     st s i = Some IDLE -> (forall c', cur s c' = Some i -> c' = c) ->
     st s' i = Some IDLE /\ forall c', cur s' c' = Some i -> c' = c) ->
  machine_ok (mk_machine s' lk pcs).
Proof.
  intros [_ Hi Hl Ho Hold Hsc Hch Hk] W Hcur Hlen Hcpu Hidle. change (pc_at (mk_machine s lk pcs)) with (pc_at (mk_machine s' lk pcs)) in *.
  constructor; try done; cbn [m_sys m_locked] in *.
  - intros c old H. destruct (Hold c old H) as [<- Hs]. split; [| by apply Hcpu]. apply Hcur. by destruct H as [[? ->] | [? ->]].
  - intros c old l i H1 H2. specialize (Hsc c old l i H1 H2). lia.
  - intros c old i H. destruct (Hch c old i H). by eapply Hidle.
  - intros c H. rewrite Hcur; [by apply Hk | by rewrite H].
Qed.

Lemma st_upd i f s j : st (upd i f s) j = if decide (i = j) then (fun t => state (f t)) <$> threads s !! j else st s j.
Proof. unfold st. rewrite threads_upd. destruct (decide (i = j)); [| done]. by destruct (threads s !! j). Qed.

Lemma silence_ok own s c i :
  sched_weak own s -> cur s c = Some i -> sched_weak own (upd i (set_state SILENT) s).
Proof.
  intros [Hq Hv Hu Hr Hf He] Hc. constructor; [done | ..].
  - intros c' j Hj. rewrite length_upd. by eapply Hv.
  - intros c1 c2 j t H1 H2 Ht Hs. apply lookup_upd in Ht as (t0 & Ht & ->). destruct (decide (i = j)); [done | by eapply Hu].
  - intros j t Ht Hs. apply lookup_upd in Ht as (t0 & Ht & ->). destruct (decide (i = j)); [done | by eapply Hr].
  - intros c' j t Hj Ht. apply lookup_upd in Ht as (t0 & Ht & ->). destruct (decide (i = j)); [by right; left | by eapply Hf].
  - intros j t Ht Hs. apply lookup_upd in Ht as (t0 & Ht & ->). destruct (decide (i = j)); [done | by eapply He].
Qed.

(** [check_thread] of a thread that is on no other CPU. *)
Lemma check_ok own s c i b s' :
  sched_weak own s -> check_thread i s = Ret (b, s') ->
  (b = true -> own c /\ forall c', cur s c' = Some i -> c' = c) ->
  sched_weak own s' /\ (b = true -> st s' i = Some IDLE) /\ cpus s' = cpus s /\ length (threads s') = length (threads s).
Proof.
  intros W Hch Hb. assert (W' := W). destruct W as [Hq Hv Hu Hr Hf He]. unfold check_thread in Hch.
  apply bind_Ret in Hch as (t & Ht & Hch). apply access_Some in Ht. destruct (state t) eqn:Es; try (inv_res; done).
  - inv_res. split_and!; [done | intros _; unfold st; rewrite Ht; cbn; by rewrite Es | done | done].
  - apply bind_Ret in Hch as (n & Hn & Hch). apply access_Some in Hn. destruct (event.has_triggered n) as [b' n'] eqn:Et. inv_res.
    assert (W1 := event_ok own s (event t) n' W').
    destruct b; [| done]. destruct (Hb eq_refl) as [Hown Honly]. set (s1 := set_events _ s) in *. clear Hq Hv Hu Hr Hf He.
    destruct W1 as [Hq Hv Hu Hr Hf He]. split_and!; [| intros _; rewrite st_upd, decide_True by done; unfold s1; cbn; by rewrite Ht | done | by rewrite length_upd].
    constructor; [done | ..].
    + intros c' j Hj. rewrite length_upd. by eapply Hv.
    + intros c1 c2 j t' H1 H2 Ht' Hs. apply lookup_upd in Ht' as (t0 & Ht' & ->). destruct (decide (i = j)) as [<- |]; [| by eapply Hu].
      by rewrite (Honly c1), (Honly c2).
    + intros j t' Ht' Hs. apply lookup_upd in Ht' as (t0 & Ht' & ->). destruct (decide (i = j)); [done | by eapply Hr].
    + intros c' j t' Hj Ht'. apply lookup_upd in Ht' as (t0 & Ht' & ->). destruct (decide (i = j)) as [<- |]; [| by eapply Hf].
      right; right. rewrite (Honly c') by done. auto.
    + intros j t' Ht' Hs. apply lookup_upd in Ht' as (t0 & Ht' & ->). destruct (decide (i = j)); [done | by eapply He].
Qed.

Lemma step_inside_ok m c p s lk pcs :
  m = mk_machine s lk pcs -> machine_ok m -> pcs !! c = Some p -> inside p = true ->
  lk = true /\ (forall c', inside (pc_at m c') = true -> c' = c) /\ pc_at m c = p.
Proof.
  intros -> OK Hc Hp. assert (Ec : pc_at (mk_machine s lk pcs) c = p) by by apply pc_lookup.
  split_and!; [by apply (mo_inside _ OK c); rewrite Ec | | done]. intros c' Hc'. apply (mo_one _ OK); [done | by rewrite Ec].
Qed.
Lemma check_frame i s b s' : check_thread i s = Ret (b, s') -> cpus s' = cpus s /\ length (threads s') = length (threads s).
Proof.
  unfold check_thread. intros Hch. apply bind_Ret in Hch as (t & _ & Hch). destruct (state t); try (inv_res; done).
  apply bind_Ret in Hch as (n & _ & Hch). destruct (event.has_triggered n) as [[] n']; inv_res; rewrite ?length_upd; done.
Qed.

Lemma loose_insert s s' lk lk' pcs c p x :
  loose p = true -> loose (pc_at (mk_machine s lk pcs) x) = true -> loose (pc_at (mk_machine s' lk' (<[c := p]> pcs)) x) = true.
Proof. intros Hp Hx. rewrite (pc_insert _ s _ lk). by destruct (decide (c = x)). Qed.

(** Two program points of a CPU that are loose to the same extent. *)
Lemma loose_same s s' lk lk' pcs c p x :
  loose p = loose (pc_at (mk_machine s lk pcs) c) ->
  loose (pc_at (mk_machine s lk pcs) x) = true -> loose (pc_at (mk_machine s' lk' (<[c := p]> pcs)) x) = true.
Proof. intros Hp Hx. rewrite (pc_insert _ s _ lk). destruct (decide (c = x)) as [<- |]; [by rewrite Hp | done]. Qed.

Lemma scan_order_lt current n i : i ∈ scan_order current n -> (i < n)%nat.
Proof.
  unfold scan_order, rr_order. destruct current as [c |]; [destruct (decide _) |]; rewrite ?elem_of_app, ?elem_of_seq, ?elem_of_nil; lia.
Qed.

Lemma create_cpus p s : cpus (create_blocked_thread p s).2 = cpus s.
Proof. unfold create_blocked_thread. by destruct (list_find _ (threads s)) as [[i t] |]. Qed.

Lemma pick_idle i s : st s i = Some IDLE -> pick i s = s /\ ready s i = true.
Proof. unfold st, pick, ready. destruct (threads s !! i) as [t |]; [| done]. cbn. by intros [= ->]. Qed.

Lemma idle_cpu_none c r h s o s' : cur s c = None -> idle_cpu r h c s = Ret (o, s') -> s' = s.
Proof.
  unfold idle_cpu, cur. intros Hc H. apply bind_Ret in H as (cpu & Hcpu & H). apply access_Some in Hcpu.
  rewrite Hcpu in Hc. cbn in Hc. rewrite Hc in H. by inv_res.
Qed.

Lemma lock_ok apic c s pcs :
  machine_ok (mk_machine s false pcs) -> get_current_managed_cpu apic s = Some c ->
  machine_ok (mk_machine s true (<[c := Scanning (cur s c) (scan_order (cur s c) (length (threads s)))]> pcs)).
Proof.
  intros OK Hm. eapply inside_ok; [exact OK | | done | | | | done | done].
  - intros c' Hc'. by apply (mo_inside _ OK) in Hc'.
  - eapply sched_mono; [| apply (mo_sched _ OK)]. intros x. by apply loose_insert.
  - intros old [[l [= <- _]] | [new ?]]; [| done]. split; [done |]. destruct (managed_lookup s apic c Hm) as (cpu & -> & _). eauto.
  - intros old l i [= <- <-]. apply scan_order_lt.
Qed.

Lemma check_step_ok c s lk pcs old i l b s' :
  machine_ok (mk_machine s lk pcs) -> pcs !! c = Some (Scanning old (i :: l)) -> check_thread i s = Ret (b, s') ->
  let p := if b then Chosen old (Some i) else Scanning old l in
  ~ early_pick (mk_machine s' lk (<[c := p]> pcs)) -> machine_ok (mk_machine s' lk (<[c := p]> pcs)).
Proof.
  intros OK Hc Hch p Hearly. destruct (step_inside_ok _ c _ s lk pcs eq_refl OK Hc eq_refl) as (-> & Honly & Ec).
  destruct (check_frame i s b s' Hch) as [Hcpu Hlen].
  assert (Hcur : forall x, cur s' x = cur s x) by (intros x; unfold cur; by rewrite Hcpu).
  destruct (mo_old _ OK c old) as [Hold Hsome]; [left; eauto |]. cbn [m_sys] in *.
  assert (Hb : b = true -> loose (pc_at (mk_machine s true pcs) c) = true /\ forall c', cur s c' = Some i -> c' = c).
  { intros ->. split; [by rewrite Ec |]. intros c' Hc'. destruct (decide (c' = c)) as [| Hne]; [done |]. exfalso.
    apply Hearly. exists c, c', old, i. split_and!; [done | | by rewrite <- Hc']. by rewrite (pc_insert _ s _ true), decide_True. }
  destruct (check_ok _ s c i b s' (mo_sched _ OK) Hch Hb) as (W & Hst & _).
  eapply inside_ok; [exact OK | exact Honly | by destruct b | | | | | ].
  - eapply sched_mono; [| exact W]. intros x. apply loose_insert. by destruct b.
  - intros o [[l' H] | [n H]]; unfold p in H; destruct b; try done; injection H as <- _; rewrite Hcur, Hcpu; done.
  - intros o l' j H Hj. unfold p in H. destruct b; [done |]. injection H as <- <-. rewrite Hlen. eapply (mo_scan _ OK c); [exact Ec | by right].
  - intros o j H. unfold p in H. destruct b; [| done]. injection H as <- <-. split; [by apply Hst |]. intros c'. rewrite Hcur. by apply Hb.
  - intros c'. by rewrite Hcur.
Qed.

Lemma exhausted_ok c s lk pcs old :
  machine_ok (mk_machine s lk pcs) -> pcs !! c = Some (Scanning old []) ->
  machine_ok (mk_machine s lk (<[c := Chosen old None]> pcs)).
Proof.
  intros OK Hc. destruct (step_inside_ok _ c _ s lk pcs eq_refl OK Hc eq_refl) as (-> & Honly & Ec).
  eapply inside_ok; [exact OK | exact Honly | done | | | done | done | done].
  - eapply sched_mono; [| apply (mo_sched _ OK)]. intros x. by apply loose_insert.
  - intros o [[l' H] | [n [= <- _]]]; [done |]. apply (mo_old _ OK c). eauto.
Qed.

Lemma switch_ok c s lk pcs old new r h o s' :
  machine_ok (mk_machine s lk pcs) -> pcs !! c = Some (Chosen old new) -> switch_to c old new r h s = Ret (o, s') ->
  ~ opened (mk_machine s' false (<[c := Outside]> pcs)) -> machine_ok (mk_machine s' false (<[c := Outside]> pcs)).
Proof.
  intros OK Hc Hsw Hopen. assert (Ec := pc_lookup s lk pcs c _ Hc).
  destruct (mo_old _ OK c old) as [Hold [cpu Hcpu]]; [right; eauto |]. cbn [m_sys] in *.
  assert (Hnew : forall j, new = Some j -> pick j s = s /\ ready s j = true /\ forall c', cur s c' = Some j -> c' = c).
  { intros j ->. destruct (mo_chosen _ OK c old j Ec) as [Hj Hx]. by destruct (pick_idle j s Hj). }
  assert (Hcu : current_thread cpu = old) by (unfold cur in Hold; by rewrite Hcpu in Hold).
  destruct (switch_to_eq c cpu new r h s) as (o' & Ho & _); [done | | naive_solver |].
  { intros i Hi. apply (so_valid _ _ (mo_sched _ OK) c). cbn. congruence. }
  assert (Hpick : match new with Some j => pick j s | None => s end = s) by (destruct new; [by apply Hnew | done]).
  rewrite Hpick, Hcu, Hsw in Ho. injection Ho as -> ->.
  assert (Hrel : relabels s (after_switch s c old new (saved r h)) (switched old new) (fun c' => if decide (c' = c) then new else cur s c'))
    by (apply after_switch_relabels; [naive_solver | by rewrite Hcpu]).
  apply left_ok; [done | |].
  - eapply sched_mono; [| apply (relabel_ok _ s _ c new (mo_sched _ OK)); [naive_solver |]]; cbn [m_sys]; [| by rewrite Hold].
    intros x [Hx Hne]. by rewrite (pc_insert _ s _ lk), decide_False by congruence.
  - intros x Hx. rewrite (pc_insert _ s _ lk) in Hx. destruct (decide (c = x)) as [| Hne]; [done |].
    rewrite (rl_cur _ _ _ _ Hrel), decide_False by congruence. by apply (mo_killed _ OK).
Qed.

Lemma block_step_ok c i t e s lk pcs :
  machine_ok (mk_machine s lk pcs) -> pc_at (mk_machine s lk pcs) c = Outside ->
  cur s c = Some i -> threads s !! i = Some t -> state t = RUNNING -> is_Some (events s !! e) ->
  machine_ok (mk_machine (block_mark i e s) lk (<[c := Marked]> pcs)).
Proof.
  intros OK Ec Hc Ht Hs He.
  assert (E : forall x, pc_at (mk_machine s lk (<[c := Marked]> pcs)) x = if decide (c = x) then Marked else pc_at (mk_machine s lk pcs) x)
    by (intros x; apply pc_insert).
  assert (Hin : forall x, inside (pc_at (mk_machine s lk (<[c := Marked]> pcs)) x) = inside (pc_at (mk_machine s lk pcs) x)).
  { intros x. rewrite E. destruct (decide (c = x)) as [<- |]; [by rewrite Ec | done]. }
  apply (state_ok s).
  - destruct OK as [W Hi Hl Ho Hold Hsc Hch Hk]. constructor; cbn [m_sys m_locked] in *.
    + eapply sched_mono; [| exact W]. intros x. by apply loose_insert.
    + intros x. rewrite Hin. apply Hi.
    + intros Hlk. destruct (Hl Hlk) as [x Hx]. exists x. by rewrite Hin.
    + intros x y. rewrite !Hin. apply Ho.
    + intros x o H. apply (Hold x o). rewrite E in H. destruct (decide (c = x)); [by destruct H as [[? ?] | [? ?]] | done].
    + intros x o l j H. rewrite E in H. destruct (decide (c = x)); [done | by eapply Hsc].
    + intros x o j H. rewrite E in H. destruct (decide (c = x)); [done | by eapply Hch].
    + intros x H. rewrite E in H. destruct (decide (c = x)); [done | by apply Hk].
  - eapply sched_mono; [| eapply block_mark_weak; [apply (mo_sched _ OK) | done ..]]. cbn.
    intros x [Hx | ->]; [by apply (loose_insert s _ lk) | by rewrite (pc_insert _ s _ lk), decide_True].
  - done.
  - unfold block_mark. by rewrite length_upd.
  - done.
  - intros c' o j _ Hj Hx. split; [| done]. unfold block_mark. rewrite st_upd, decide_False; [done |]. intros ->.
    unfold st in Hj. rewrite Ht in Hj. cbn in Hj. congruence.
Qed.

Lemma kill_step_ok apic c i t s pcs x s' :
  machine_ok (mk_machine s false pcs) -> get_current_managed_cpu apic s = Some c ->
  pc_at (mk_machine s false pcs) c = Outside -> cur s c = Some i -> threads s !! i = Some t -> state t = RUNNING ->
  kill_thread apic s = Ret (x, s') -> ~ opened (mk_machine s' false (<[x := Killed]> pcs)) ->
  machine_ok (mk_machine s' false (<[x := Killed]> pcs)).
Proof.
  intros OK Hm Ec Hc Ht Hs Hk Hopen. destruct (kill_thread_ok _ apic c i t s x s' (mo_sched _ OK) Hm Hc Ht Hs Hk) as (-> & W & Hcur).
  apply left_ok; [done | |].
  - eapply sched_mono; [| exact W]. intros y. apply (loose_same s). by rewrite Ec.
  - intros y Hy. rewrite Hcur. destruct (decide (y = c)) as [| Hne]; [done |].
    rewrite (pc_insert _ s _ false), decide_False in Hy by congruence. by apply (mo_killed _ OK).
Qed.

Lemma killed_step_ok c s lk pcs r h o s' :
  machine_ok (mk_machine s lk pcs) -> pcs !! c = Some Killed -> idle_cpu r h c s = Ret (o, s') ->
  ~ opened (mk_machine s' false (<[c := Outside]> pcs)) -> machine_ok (mk_machine s' false (<[c := Outside]> pcs)).
Proof.
  intros OK Hc Hi Hopen. assert (Ec := pc_lookup s lk pcs c _ Hc).
  assert (s' = s) as -> by (eapply idle_cpu_none; [apply (mo_killed _ OK c Ec) | exact Hi]).
  apply left_ok; [done | |].
  - eapply sched_mono; [| apply (mo_sched _ OK)]. intros y. apply (loose_same s). by rewrite Ec.
  - intros y Hy. rewrite (pc_insert _ s _ lk) in Hy. destruct (decide (c = y)); [done |]. by apply (mo_killed _ OK).
Qed.

Lemma init_cpu_cur apic c i s x :
  get_current_managed_cpu apic s = Some c -> x <> c -> cur (init_cpu apic i s) x = cur s x.
Proof. intros Hm Hne. unfold init_cpu, cur. rewrite Hm. cbn. by rewrite list_lookup_alter_ne. Qed.

(** The invariant holds after every step that leaves neither hazard behind. *)
Lemma machine_step_ok m m' : safe_step m m' -> machine_ok m -> machine_ok m'.
Proof.
  intros (Hstep & Hearly & Hopen) OK. destruct Hstep as [apic c s pcs Hm _ Hq | apic c s pcs new s' Hm _ Hq _
    | c s lk pcs old i l b s' Hc Hch | c s lk pcs old Hc | c s lk pcs old new r h o s' Hc Hsw
    | apic c i t e s lk pcs Hm Ec Hc Ht Hs He | apic c i t s pcs x s' Hm Ec Hc Ht Hs Hk | c s lk pcs r h o s' Hc Hi
    | p s pcs | e n s lk pcs | i f s lk pcs Hf | k s lk pcs | i t s lk pcs Ht Hs Hfree | c i s lk pcs Ec Hc
    | apic c i t s lk pcs Hm Ec Hc Ht Hs].
  - by eapply lock_ok.
  - assert (H := so_queue _ _ (mo_sched _ OK)). cbn in H. lia.
  - by eapply check_step_ok.
  - by apply exhausted_ok.
  - by eapply switch_ok.
  - by eapply block_step_ok.
  - by eapply kill_step_ok.
  - by eapply killed_step_ok.
  - apply left_ok; [done | |].
    + assert (H := create_ok _ p s (mo_sched _ OK)). destruct (create_blocked_thread p s) as [j s']. apply H.
    + intros c Hc. unfold cur. rewrite create_cpus. by apply (mo_killed _ OK).
  - apply (state_ok s); [done | apply event_ok, (mo_sched _ OK) | done ..].
  - apply (state_ok s); [done | apply upd_same_ok; [done | apply (mo_sched _ OK)] | done | by rewrite length_upd | done |].
    intros c o j _ Hj Hx. split; [| done]. rewrite st_upd. destruct (decide (i = j)); [| done]. unfold st in Hj.
    destruct (threads s !! j) as [t |]; [| done]. cbn in *. by rewrite (proj1 (Hf t)).
  - apply (state_ok s); [done | | done ..]. eapply sched_ext; [| | | | apply (mo_sched _ OK)]; done.
  - apply (state_ok s); [done | apply upd_free_ok; [apply (mo_sched _ OK) | done | by left] | done | unfold wake; by rewrite length_upd | done |].
    intros c o j _ Hj Hx. split; [| done]. unfold wake. rewrite st_upd. destruct (decide (i = j)) as [<- |]; [by rewrite Ht | done].
  - apply (state_ok s); [done | eapply silence_ok; [apply (mo_sched _ OK) | exact Hc] | done | by rewrite length_upd | done |].
    intros c' o j Hc' Hj Hx. split; [| done]. rewrite st_upd, decide_False; [done |]. intros ->.
    specialize (Hx c Hc) as ->. congruence.
  - apply (state_ok s); [done | eapply init_cpu_ok; [apply (mo_sched _ OK) | done ..] | | | |].
    + intros x Hx. apply (init_cpu_cur apic c); [done |]. congruence.
    + unfold init_cpu. by rewrite Hm.
    + intros x Hx. unfold init_cpu. rewrite Hm. cbn. destruct (decide (c = x)) as [<- |];
        [rewrite list_lookup_alter_eq; by destruct Hx as [y ->] | by rewrite list_lookup_alter_ne].
    + intros x o j Hx Hj Hy. assert (Hne : i <> j) by (intros ->; unfold st in Hj; rewrite Ht in Hj; cbn in Hj; congruence).
      split; [unfold init_cpu; by rewrite Hm |]. intros c' Hc'. destruct (decide (c' = c)) as [-> | N]; [| apply Hy; by rewrite (init_cpu_cur apic c) in Hc'].
      unfold init_cpu, cur in Hc'. rewrite Hm in Hc'. cbn in Hc'. rewrite list_lookup_alter_eq in Hc'.
      destruct (cpus s !! c); cbn in Hc'; congruence.
Qed.
(** A look at all threads in [l], without the other CPUs. *)
Lemma scan_run s lk pcs c old l :
  events_ok s -> (forall i, i ∈ l -> (i < length (threads s))%nat) ->
  rtc step (mk_machine s lk (<[c := Scanning old l]> pcs))
    (mk_machine (match first_ready s l with Some j => pick j s | None => s end) lk (<[c := Chosen old (first_ready s l)]> pcs)).
Proof.
  intros He. induction l as [| i l IH]; intros Hl.
  - apply rtc_once. rewrite <- (insert_insert_eq pcs c (Chosen old (first_ready s [])) (Scanning old [])).
    apply step_exhausted. by rewrite lookup_insert_eq.
  - assert (Hi := check_thread_eq s i He (Hl i ltac:(by left))). unfold first_ready. cbn [list_find].
    assert (Hs := step_check c s lk (<[c := Scanning old (i :: l)]> pcs) old i l _ _ (lookup_insert_eq _ _ _) Hi).
    rewrite insert_insert_eq in Hs. destruct (ready s i) eqn:Er.
    + rewrite decide_True by done. by apply rtc_once.
    + rewrite decide_False by done. eapply rtc_l; [exact Hs |].
      assert (IH' := IH (fun j Hj => Hl j (list_elem_of_further _ _ _ Hj))). unfold first_ready in IH'.
      by destruct (list_find _ l) as [[k j] |].
Qed.

(** [timer_handler] is the run of the CPU without the other CPUs. *)
Lemma timer_steps apic c r h s pcs :
  get_current_managed_cpu apic s = Some c -> inside (pc_at (mk_machine s false pcs) c) = false ->
  events_ok s -> queue.length (scheduling_queue s) = 0%nat -> (forall i, cur s c = Some i -> (i < length (threads s))%nat) ->
  exists o s', timer_handler apic r h s = Ret (o, s') /\
    s' = after_switch s c (cur s c) (first_ready s (rr_order (cur s c) (length (threads s)))) (saved r h) /\
    rtc step (mk_machine s false pcs) (mk_machine s' false (<[c := Outside]> pcs)).
Proof.
  intros Hm Hin He Hq Hv. destruct (managed_lookup s apic c Hm) as (cpu & Hcpu & Hcur).
  assert (Ht := fun H => timer_handler_eq apic c cpu r h s Hm Hcpu He Hq H). rewrite <- Hcur in Ht. destruct (Ht Hv) as (Hready & o & Ho & _).
  set (new := first_ready s _) in *. exists o, (after_switch s c (cur s c) new (saved r h)). split_and!; [done | done |].
  assert (Eo : scan_order (cur s c) (length (threads s)) = rr_order (cur s c) (length (threads s))).
  { unfold scan_order. destruct (cur s c) as [i |]; [by rewrite decide_True by by apply Hv | done]. }
  eapply rtc_l; [by eapply step_lock |]. etrans.
  { apply scan_run; [done |]. intros i. apply scan_order_lt. }
  rewrite Eo. fold new.
  destruct (switch_to_eq c cpu new r h s) as (o' & Ho' & _); [done | by rewrite <- Hcur | done |]. rewrite <- Hcur in Ho'.
  apply rtc_once. rewrite <- (insert_insert_eq pcs c Outside (Chosen (cur s c) new)).
  eapply step_switch; [apply lookup_insert_eq | exact Ho'].
Qed.

Lemma create_silent p s : st (create_blocked_thread p s).2 (create_blocked_thread p s).1 = Some SILENT.
Proof.
  unfold create_blocked_thread. destruct (list_find _ (threads s)) as [[i t] |] eqn:E; cbn [fst snd]; unfold create_thread_int; rewrite st_upd, decide_True by done.
  - apply list_find_Some in E as (-> & _). done.
  - cbn. by rewrite lookup_app_r, Nat.sub_diag by lia.
Qed.

(** A new thread is set up and woken. *)
Lemma started_steps i f s pcs :
  (forall t, state (f t) = state t /\ event (f t) = event t) -> st s i = Some SILENT -> (forall c, cur s c <> Some i) ->
  rtc step (mk_machine s false pcs) (mk_machine (wake i (upd i f s)) false pcs).
Proof.
  intros Hf Hs Hfree. eapply rtc_l; [by apply (step_update i f) |]. apply rtc_once.
  unfold st in Hs. destruct (threads s !! i) as [t |] eqn:Et; [| done]. injection Hs as Hs.
  eapply (step_wake i (f t)); [by rewrite threads_upd, Et, decide_True | by rewrite (proj1 (Hf t)) | done].
Qed.

(** [fork] is a run of these steps. *)
Lemma fork_steps own apic r h s id s' pcs :
  sched_weak own s -> fork apic r h s = Ret (id, s') -> rtc step (mk_machine s false pcs) (mk_machine s' false pcs).
Proof.
  intros W Hf. unfold fork in Hf. apply bind_Ret in Hf as (cu & _ & Hf). destruct cu as [parent |]; [| inv_res; apply rtc_refl].
  apply bind_Ret in Hf as (pt & Hpt & Hf).
  assert (Hcr := create_ok own (privilege pt) s W). assert (Hsi := create_silent (privilege pt) s).
  assert (Hst := step_create (privilege pt) s pcs).
  destruct (create_blocked_thread (privilege pt) s) as [child s1]. destruct Hcr as (_ & Hfree & _). cbn [fst snd] in *.
  apply bind_Ret in Hf as (pt2 & _ & Hf). apply bind_Ret in Hf as (ct & _ & Hf).
  apply bind_Ret in Hf as ([[info fr] k] & _ & Hf). inv_res.
  eapply rtc_l; [exact Hst |]. eapply rtc_l; [apply (step_update parent (save_context r h)); done |].
  eapply rtc_l; [apply (step_memory k) |]. apply started_steps; [done | | done].
  change (st (upd parent (save_context r h) s1) child = Some SILENT). rewrite st_upd.
  destruct (decide (parent = child)) as [-> |]; [| done]. unfold st in Hsi. by destruct (threads s1 !! child).
Qed.

(** ** One CPU *)

Lemma switch_to_cpus c old new r h s o s' : switch_to c old new r h s = Ret (o, s') -> length (cpus s') = length (cpus s).
Proof.
  assert (Hset : forall t s0, length (cpus (set_current c t s0)) = length (cpus s0)) by (intros; cbn; by rewrite length_alter).
  unfold switch_to. destruct new as [j |]; intros H.
  - apply bind_Ret in H as ([[r1 h1] s1] & H1 & H). inv_res. change (length (cpus (set_current c (Some j)
      (match old with Some o => upd o (fun t => if decide (state t = RUNNING) then set_state IDLE t else t) s1 | None => s1 end))) = length (cpus s)).
    rewrite Hset. unfold switch_context in H1. apply bind_Ret in H1 as (n & _ & H1). apply bind_Ret in H1 as (same & _ & H1).
    inv_res. by destruct old.
  - unfold idle_cpu in H. apply bind_Ret in H as (cpu & _ & H). inv_res. destruct (current_thread cpu); [| done]. by rewrite Hset.
Qed.

(** The machine has one CPU, which is the only one that is somewhere. *)
Definition one_cpu (m : machine) : Prop :=
  (length (cpus (m_sys m)) <= 1)%nat /\ forall c p, m_pcs m !! c = Some p -> c = 0%nat.

Lemma managed_zero s apic c : (length (cpus s) <= 1)%nat -> get_current_managed_cpu apic s = Some c -> c = 0%nat.
Proof. intros Hl Hm. destruct (managed_lookup s apic c Hm) as (cpu & Hc & _). apply lookup_lt_Some in Hc. lia. Qed.

Lemma one_cpu_insert s s' lk lk' pcs c p :
  one_cpu (mk_machine s lk pcs) -> length (cpus s') = length (cpus s) -> c = 0%nat -> one_cpu (mk_machine s' lk' (<[c := p]> pcs)).
Proof.
  intros [Hl Hp] E ->. split; cbn in *; [lia |]. intros x q. destruct (decide (0 = x)%nat) as [<- |]; [done |].
  rewrite lookup_insert_ne by done. apply Hp.
Qed.

Lemma one_cpu_kept s s' lk lk' pcs :
  one_cpu (mk_machine s lk pcs) -> length (cpus s') = length (cpus s) -> one_cpu (mk_machine s' lk' pcs).
Proof. intros [Hl Hp] E. split; cbn in *; [lia | done]. Qed.

Lemma one_cpu_early m : one_cpu m -> ~ early_pick m.
Proof.
  intros [Hl Hp] (c & c' & old & i & Hne & Hc & Hi). apply Hne. unfold pc_at in Hc.
  destruct (m_pcs m !! c) as [p |] eqn:E; [| done]. rewrite (Hp c p E). unfold cur in Hi.
  destruct (cpus (m_sys m) !! c') eqn:E'; [| done]. apply lookup_lt_Some in E'. lia.
Qed.

Lemma one_cpu_step m m' : step m m' -> machine_ok m -> one_cpu m -> one_cpu m' /\ ~ opened m'.
Proof.
  intros Hstep OK One. assert (N : forall s lk pcs c p x q, one_cpu (mk_machine s lk pcs) -> pcs !! c = Some p -> pcs !! x = Some q -> x = c).
  { intros s lk pcs c p x q [_ H] Hc Hx. by rewrite (H c p Hc), (H x q Hx). }
  assert (Hfresh : forall s s' lk pcs c p, one_cpu (mk_machine s lk pcs) -> c = 0%nat -> inside p = false ->
            ~ opened (mk_machine s' lk (<[c := p]> pcs)) /\ ~ opened (mk_machine s' false (<[c := p]> pcs))).
  { intros s s' lk pcs c p [_ H] -> Hp. split; intros [_ [x Hx]]; unfold pc_at in Hx; cbn in Hx;
      (destruct (decide (0 = x)%nat) as [<- |]; [rewrite lookup_insert_eq in Hx; cbn in Hx; congruence |]);
      rewrite lookup_insert_ne in Hx by done; (destruct (pcs !! x) as [q |] eqn:E; [| done]); specialize (H x q E); lia. }
  assert (Hsame : forall s s' lk pcs, machine_ok (mk_machine s lk pcs) -> ~ opened (mk_machine s' lk pcs)).
  { intros s s' lk pcs H [Hl [x Hx]]. cbn in Hl. subst lk. by assert (Hf := mo_inside _ H x Hx). }
  assert (Hz : forall s lk pcs apic c, one_cpu (mk_machine s lk pcs) -> get_current_managed_cpu apic s = Some c -> c = 0%nat)
    by (intros s lk pcs apic c [Hl _]; by apply managed_zero).
  destruct Hstep as [apic c s pcs Hm _ Hq | apic c s pcs new s' Hm _ Hq _
    | c s lk pcs old i l b s' Hc Hch | c s lk pcs old Hc | c s lk pcs old new r h o s' Hc Hsw
    | apic c i t e s lk pcs Hm Ec Hc Ht Hs He | apic c i t s pcs x s' Hm Ec Hc Ht Hs Hk | c s lk pcs r h o s' Hc Hi
    | p s pcs | e n s lk pcs | i f s lk pcs Hf | k s lk pcs | i t s lk pcs Ht Hs Hfree | c i s lk pcs Ec Hc
    | apic c i t s lk pcs Hm Ec Hc Ht Hs].
  - split; [eapply one_cpu_insert; eauto | by intros [? _]].
  - assert (H := so_queue _ _ (mo_sched _ OK)). cbn in H. lia.
  - destruct (step_inside_ok _ c _ s lk pcs eq_refl OK Hc eq_refl) as (-> & _ & _).
    split; [eapply one_cpu_insert; [exact One | by destruct (check_frame i s b s' Hch) as [-> _] | by eapply One] | by intros [? _]].
  - destruct (step_inside_ok _ c _ s lk pcs eq_refl OK Hc eq_refl) as (-> & _ & _).
    split; [eapply one_cpu_insert; [exact One | done | by eapply One] | by intros [? _]].
  - split; [eapply one_cpu_insert; [exact One | by eapply switch_to_cpus | by eapply One] |].
    eapply Hfresh; [exact One | by eapply One | done].
  - split; [eapply one_cpu_insert; eauto |]. eapply Hfresh; eauto.
  - destruct (kill_thread_ok _ apic c i t s x s' (mo_sched _ OK) Hm Hc Ht Hs Hk) as (-> & _ & _).
    split; [| eapply Hfresh; eauto]. eapply one_cpu_insert; [exact One | | eauto].
    unfold kill_thread in Hk. repeat (apply bind_Ret in Hk as (? & _ & Hk)). destruct x4. inv_res. cbn. by rewrite length_alter.
  - assert (Hs := idle_cpu_none c r h s o s' (mo_killed _ OK c (pc_lookup _ _ _ _ _ Hc)) Hi). subst s'.
    split; [eapply one_cpu_insert; [exact One | done | by eapply One] |]. eapply Hfresh; [exact One | by eapply One | done].
  - split; [eapply one_cpu_kept; [exact One | by rewrite create_cpus] | by eapply Hsame].
  - split; [by eapply one_cpu_kept | by eapply Hsame].
  - split; [by eapply one_cpu_kept | by eapply Hsame].
  - split; [by eapply one_cpu_kept | by eapply Hsame].
  - split; [by eapply one_cpu_kept | by eapply Hsame].
  - split; [by eapply one_cpu_kept | by eapply Hsame].
  - split; [| by eapply Hsame]. eapply one_cpu_kept; [exact One |]. unfold init_cpu. rewrite Hm. cbn. by rewrite length_alter.
Qed.

Lemma safe_run_ok m m' : rtc safe_step m m' -> machine_ok m -> machine_ok m'.
Proof. induction 1 as [m | m m1 m' H1 _ IH]; intros OK; [done |]. apply IH. by eapply machine_step_ok. Qed.

(** The machine after boot. *)
Definition boot (ids : list Z) s : machine := mk_machine (init_multitasking ids s) false ∅.

Lemma boot_ok ids s : threads s = [] -> queue.length (scheduling_queue s) = 0%nat -> machine_ok (boot ids s).
Proof.
  intros Ht Hq. apply left_ok; [by intros [_ [c Hc]] | | done].
  eapply sched_mono; [| by apply init_multitasking_ok]. done.
Qed.

(** With one CPU every run is free of the hazards. *)
Lemma one_cpu_safe ids s m :
  threads s = [] -> queue.length (scheduling_queue s) = 0%nat -> (length ids <= 1)%nat ->
  rtc step (boot ids s) m -> rtc safe_step (boot ids s) m.
Proof.
  intros Ht Hq Hl. assert (OK := boot_ok ids s Ht Hq).
  assert (One : one_cpu (boot ids s)) by (split; cbn; [by rewrite length_fmap | done]).
  generalize dependent (boot ids s). intros m0 OK One. induction 1 as [m | m m1 m' H1 _ IH]; [apply rtc_refl |].
  destruct (one_cpu_step m m1 H1 OK One) as [One1 Hop].
  assert (Hsafe : safe_step m m1) by (split_and!; [done | by apply one_cpu_early | done]).
  eapply rtc_l; [exact Hsafe |]. apply IH; [by eapply machine_step_ok | done].
Qed.
End steps.

(** ** Theorems *)


(** Two CPUs: the first is started on the kernel's thread and takes the mutex. *)
Definition running_example : machine :=
  mk_machine (process.init_cpu 7 0 (process.init_multitasking [7; 8] boot_example)) true {[0%nat := Scanning (Some 0%nat) [0%nat]]}.


(** C40: [thread::block] gives up its locks between marking the thread as blocked
    and switching away from it.  If thread [i], which runs on CPU [c'], waits for an
    event that has already triggered, and it is the next thread in the order of
    another CPU [c] whose timer interrupt comes in between, then [c] resumes [i]
    from the context of its last switch while [i] is still the current thread of
    [c']; and when [c'] goes on with its half of [block], it saves its own registers
    over that context and leaves [i] ready for the other CPUs although it runs on
    [c]. *)
Theorem block_race {S} `{FA : FrameAllocator S} (apic apic' : Z) (c c' i : nat) (t : process.thread) (e : Z)
    (r r' : process.registers) (h h' : process.hw) (s : process.sys S) :
  sched_ok s -> c <> c' -> process.get_current_managed_cpu apic s = Some c -> process.get_current_managed_cpu apic' s = Some c' ->
  cur s c' = Some i -> process.threads s !! i = Some t -> process.state t = process.RUNNING -> is_Some (process.events s !! e) ->
  let marked := process.block_mark i e s in
  first_ready marked (rr_order (cur s c) (length (process.threads s))) = Some i ->
  exists s1 s2 h1 o' t2,
    step (mk_machine s false ∅) (mk_machine marked false {[c' := Marked]}) /\
    rtc step (mk_machine marked false {[c' := Marked]}) (mk_machine s1 false (<[c := Outside]> {[c' := Marked]})) /\
    process.timer_handler apic r h marked = Ret (process.Resume (process.regs (process.context t)) h1, s1) /\
    cur s1 c = Some i /\ cur s1 c' = Some i /\ st s1 i = Some process.RUNNING /\
    rtc step (mk_machine s1 false (<[c := Outside]> {[c' := Marked]}))
      (mk_machine s2 false (<[c' := Outside]> (<[c := Outside]> {[c' := Marked]}))) /\
    process.timer_handler apic' r' h' s1 = Ret (o', s2) /\
    cur s2 c = Some i /\ st s2 i = Some process.IDLE /\ process.threads s2 !! i = Some t2 /\ process.context t2 = saved r' h'.
Proof.
  intros OK Hne Hm Hm' Hc Ht Hs He marked Hfirst.
  assert (W := block_mark_own c' i t e s OK Hc Ht Hs He). fold marked in W.
  assert (Hlen : length (process.threads marked) = length (process.threads s)) by apply length_upd.
  assert (Hmt : process.threads marked !! i = Some (process.set_state process.BLOCKED (process.set_event e t)))
    by (unfold marked, process.block_mark; by rewrite threads_upd, decide_True, Ht).
  assert (Hnc : cur s c <> Some i).
  { intros E. apply Hne. eapply (so_unique _ _ OK c c' i t); [done .. |]. by rewrite Hs. }
  destruct (timer_steps apic c r h marked {[c' := Marked]}) as (o & s1 & Ho & Es1 & Hrun1); [done | | apply W | apply W | apply W |].
  { by rewrite pc_singleton, decide_False by congruence. }
  change (cur marked) with (cur s) in *. rewrite Hlen, Hfirst in Es1.
  destruct (managed_lookup marked apic c Hm) as (cpu & Hcpu & Hcur). change (cur marked) with (cur s) in Hcur.
  assert (Hready : forall j, Some i = Some j -> ready marked j = true) by (intros j [= <-]; by apply first_ready_Some in Hfirst as [? _]).
  assert (Hrel := after_switch_relabels marked c (cur s c) (Some i) (saved r h) Hready ltac:(by rewrite Hcpu)). rewrite <- Es1 in Hrel.
  destruct (relabel_base _ marked s1 c (Some i) W Hready Hrel) as (Hq1 & Hv1 & He1).
  assert (Hc1 : forall x, cur s1 x = if decide (x = c) then Some i else cur s x) by apply (rl_cur _ _ _ _ Hrel).
  assert (Hlook1 : forall t', process.threads s1 !! i = Some t' -> process.state t' = process.RUNNING /\ process.context t' = process.context t).
  { intros t' Hi. rewrite Es1 in Hi. apply after_switch_lookup in Hi as (t0 & Ht0 & _ & _ & _ & E & Ec); [| done].
    rewrite Hmt in Ht0. injection Ht0 as <-. rewrite decide_False in Ec by done. split; [| done]. rewrite E. unfold switched. by rewrite decide_True. }
  destruct (lookup_lt_is_Some_2 (process.threads s1) i) as [t1 Ht1]; [apply (Hv1 c); by rewrite Hc1, decide_True |].
  destruct (Hlook1 t1 Ht1) as [Hs1 Hx1].
  assert (Hm1 : process.get_current_managed_cpu apic' s1 = Some c') by (rewrite (managed_lapic marked) by (rewrite Es1; apply after_switch_lapic); done).
  destruct (timer_steps apic' c' r' h' s1 (<[c := Outside]> {[c' := Marked]})) as (o' & s2 & Ho' & Es2 & Hrun2); [done | | done | done | apply Hv1 |].
  { by rewrite (pc_insert _ s1 _ false), decide_False, pc_singleton, decide_True by congruence. }
  rewrite (Hc1 c'), decide_False, Hc in Es2 by congruence. set (new := first_ready s1 _) in Es2.
  assert (Hready2 : forall j, new = Some j -> ready s1 j = true) by (intros j Hj; by apply first_ready_Some in Hj as [? _]).
  assert (Hni : new <> Some i) by (intros E; apply Hready2 in E; unfold ready in E; by rewrite Ht1, Hs1 in E).
  destruct (managed_lookup s1 apic' c' Hm1) as (cpu' & Hcpu' & _).
  assert (Hrel2 := after_switch_relabels s1 c' (Some i) new (saved r' h') Hready2 ltac:(by rewrite Hcpu')). rewrite <- Es2 in Hrel2.
  destruct (lookup_lt_is_Some_2 (process.threads s2) i) as [t2 Ht2]; [rewrite (rl_length _ _ _ _ Hrel2); by eapply lookup_lt_Some |].
  assert (H2 := Ht2). rewrite Es2 in H2. apply after_switch_lookup in H2 as (t0 & Ht0 & _ & _ & _ & E2 & Ex2); [| done].
  rewrite Ht1 in Ht0. injection Ht0 as <-.
  destruct (timer_handler_eq apic c cpu r h marked) as (_ & o1 & Ho1 & Hres); [done | done | apply W | apply W | rewrite <- Hcur; apply W |].
  rewrite <- Hcur, Hlen, Hfirst, <- Es1 in Ho1, Hres. destruct Hres as (t' & Ht' & ->). rewrite (proj2 (Hlook1 t' Ht')) in Ho1.
  exists s1, s2. eexists _, o', t2. split_and!.
  - apply (step_block apic' c' i t); done.
  - done.
  - exact Ho1.
  - by rewrite Hc1, decide_True.
  - rewrite Hc1, decide_False by congruence. done.
  - unfold st. rewrite Ht1. cbn. by rewrite Hs1.
  - done.
  - done.
  - rewrite (rl_cur _ _ _ _ Hrel2), decide_False by done. by rewrite Hc1, decide_True.
  - unfold st. rewrite Ht2. cbn. rewrite E2, Hs1. unfold switched. rewrite decide_False by done. by rewrite decide_True.
  - done.
  - rewrite Ex2. by rewrite decide_True.
Qed.

(** Thread 1 waits on CPU 0 for the event 0x600 that has triggered; CPU 1 takes two
    timer interrupts before CPU 0 goes on. *)
Lemma block_race_witness :
  let s := tick_example 1 2 (trigger_example 0x600 sys_example) in
  exists s1 h1, process.timer_handler 1 r_example (hw_example 3) (process.block_mark 1 0x600 s) =
      Ret (process.Resume (process.initial_regs process.APPLICATION) h1, s1) /\
    cur s1 0%nat = Some 1%nat /\ cur s1 1%nat = Some 1%nat.
Proof.
  intros s.
  destruct (block_race 1 0 1 0 1 (thread_example 1 process.RUNNING) 0x600 r_example r_example (hw_example 3) (hw_example 1) s)
    as (s1 & s2 & h1 & o' & t2 & _ & _ & Ho & Hc1 & Hc2 & _); try (vm_compute; reflexivity).
  - assert (OK : sched_ok (trigger_example 0x600 sys_example)) by apply event_ok, sys_example_ok.
    destruct (tick_ok 1 1 r_example (hw_example 2) (trigger_example 0x600 sys_example)) as (o & Ho & OK' & _);
      [by apply sched_weaken | reflexivity |]. unfold s, tick_example. by rewrite Ho.
  - discriminate.
  - vm_compute. by eexists.
  - exists s1, h1. split_and!; [exact Ho | exact Hc2 | exact Hc1].
Defined.

(** The second unlock of [kill], in [idle_cpu]: a CPU [c'] that took the mutex in
    between is not alone inside once the killing CPU takes its next timer
    interrupt. *)
Theorem kill_opens_mutex {S} `{FA : FrameAllocator S} (apic : Z) (c c' : nat) (s : process.sys S) (pcs : gmap nat pc) :
  process.get_current_managed_cpu apic s = Some c -> cur s c = None -> queue.length (process.scheduling_queue s) = 0%nat ->
  pcs !! c = Some Killed -> inside (pc_at (mk_machine s true pcs) c') = true ->
  opened (mk_machine s false (<[c := Outside]> pcs)) /\ step (mk_machine s true pcs) (mk_machine s false (<[c := Outside]> pcs)) /\
  exists m, rtc step (mk_machine s true pcs) m /\ c <> c' /\ inside (pc_at m c) = true /\ inside (pc_at m c') = true.
Proof.
  intros Hm Hc Hq Hk Hin. assert (Hne : c <> c') by (intros ->; by rewrite (pc_lookup _ _ _ _ _ Hk) in Hin).
  assert (E : forall lk p, pc_at (mk_machine s lk (<[c := p]> pcs)) c' = pc_at (mk_machine s true pcs) c')
    by (intros lk p; by rewrite (pc_insert _ s _ true), decide_False).
  assert (Hs : step (mk_machine s true pcs) (mk_machine s false (<[c := Outside]> pcs))).
  { destruct (managed_lookup s apic c Hm) as (cpu & Hcpu & Hcur).
    eapply (step_killed c s true pcs process.zero_regs (process.mk_hw 0 0 0)); [done |].
    unfold process.idle_cpu. rewrite Hcpu. cbn [access mbind res_bind]. by rewrite <- Hcur, Hc. }
  split_and!; [split; [done |]; exists c'; by rewrite E | done |].
  exists (mk_machine s true (<[c := Scanning (cur s c) (scan_order (cur s c) (length (process.threads s)))]> pcs)). split_and!; [| done | | by rewrite E].
  - eapply rtc_l; [exact Hs |]. apply rtc_once.
    rewrite <- (insert_insert_eq pcs c (Scanning (cur s c) (scan_order (cur s c) (length (process.threads s)))) Outside).
    eapply step_lock; [done | | done]. by rewrite (pc_insert _ s _ true), decide_True.
  - by rewrite (pc_insert _ s _ true), decide_True.
Qed.

Lemma kill_opens_mutex_witness :
  opened (mk_machine (process.set_current 0 None sys_example) false
    (<[0%nat := Outside]> {[0%nat := Killed; 1%nat := Scanning (Some 2%nat) [3%nat]]})).
Proof. apply (kill_opens_mutex 0 0 1); reflexivity. Defined.
