(* ===== verification/Elf.v ===== *)
(** * Elf: the program loader

    Models source/proc/elf.cpp and include/Sigma/proc/elf.h: loading an executable
    of the ramdisk into the address space of a new thread, mapping the kernel's
    own sections, and the symbol table of the kernel.  Kernel memory (the ramdisk,
    names and the kernel's ELF sections) is bytes; memory of a thread is reached
    through the page tables of its address space, byte by byte. *)

From S2P Require Import Prelude Bits Klibc Containers Frames Pmm Paging Initrd Ipc Process.

(** ** Bytes of physical memory and of an address space *)

Definition read_byte (m : memory) (p : Z) : Z := Z.shiftr (m (8 * (p / 8))) (8 * (p mod 8)) mod 256.
Definition write_byte (m : memory) (p b : Z) : memory :=
  let sh := 8 * (p mod 8) in
  write_word m (8 * (p / 8)) (Z.lor (Z.ldiff (m (8 * (p / 8))) (Z.shiftl 255 sh)) (Z.shiftl b sh)).

Section user_memory.
Context {S : Type} `{FA : FrameAllocator S}.

(** The physical address that [virt] has in the address space [active]. *)
Definition user_phys (active virt : Z) (k : paging.kernel S) : option Z :=
  match paging.find_entry active virt k with
  | Some (_, e) => Some (get_frame e + virt mod block_size)
  | None => None
  end.

(** Stores through the active address space; a page that is not mapped faults. *)
Definition user_access (active virt : Z) (k : paging.kernel S) : res Z :=
  match user_phys active virt k with Some p => mret p | None => Panic "Page fault" end.

Definition store_byte (active virt b : Z) (k : paging.kernel S) : res (paging.kernel S) :=
  p ← user_access active virt k; mret (paging.mk (paging.frames k) (write_byte (paging.mem k) p b)).
Definition store_user_word (active virt v : Z) (k : paging.kernel S) : res (paging.kernel S) :=
  p ← user_access active virt k; mret (paging.mk (paging.frames k) (write_word (paging.mem k) p v)).

(** [memcpy] from kernel memory to a thread's memory. *)
Definition copy_to_user (active virt data : Z) (n : nat) (m : bmem) (k : paging.kernel S) : res (paging.kernel S) :=
  for_loop n 0 (fun i k => store_byte active (u64 (virt + i)) (m (data + i)) k) k.
End user_memory.

Module elf.

(** ** The file format *)

(** Little-endian fields of a packed structure. *)
Definition le (l : list Z) : Z := foldr (fun b acc => b + 256 * acc) 0 l.
Definition field (offset size : nat) (l : list Z) : Z := le (take size (drop offset l)).
Definition bytes (m : bmem) (a n : Z) : list Z := (fun i => m (a + i)) <$> seqZ 0 n.

Record Elf64_Ehdr := mk_ehdr {
  e_ident : list Z; e_type : Z; e_machine : Z; e_version : Z; e_entry : Z; e_phoff : Z; e_shoff : Z;
  e_flags : Z; e_ehsize : Z; e_phentsize : Z; e_phnum : Z; e_shentsize : Z; e_shnum : Z; e_shstrndx : Z }.
Definition sizeof_Ehdr : Z := 64.
Definition parse_ehdr (l : list Z) : Elf64_Ehdr :=
  mk_ehdr (take 16 l) (field 16 2 l) (field 18 2 l) (field 20 4 l) (field 24 8 l) (field 32 8 l) (field 40 8 l)
    (field 48 4 l) (field 52 2 l) (field 54 2 l) (field 56 2 l) (field 58 2 l) (field 60 2 l) (field 62 2 l).

Record Elf64_Phdr := mk_phdr {
  p_type : Z; p_flags : Z; p_offset : Z; p_vaddr : Z; p_paddr : Z; p_filesz : Z; p_memsz : Z; p_align : Z }.
Definition sizeof_Phdr : Z := 56.
Definition parse_phdr (l : list Z) : Elf64_Phdr :=
  mk_phdr (field 0 4 l) (field 4 4 l) (field 8 8 l) (field 16 8 l) (field 24 8 l) (field 32 8 l) (field 40 8 l)
    (field 48 8 l).

Record Elf64_Shdr := mk_shdr {
  sh_name : Z; sh_type : Z; sh_flags : Z; sh_addr : Z; sh_offset : Z; sh_size : Z; sh_link : Z; sh_info : Z;
  sh_addralign : Z; sh_entsize : Z }.
Definition sizeof_Shdr : Z := 64.
Definition parse_shdr (l : list Z) : Elf64_Shdr :=
  mk_shdr (field 0 4 l) (field 4 4 l) (field 8 8 l) (field 16 8 l) (field 24 8 l) (field 32 8 l) (field 40 4 l)
    (field 44 4 l) (field 48 8 l) (field 56 8 l).

#[export] Instance Elf64_Shdr_eq_dec : EqDecision Elf64_Shdr.
Proof. solve_decision. Defined.

Record Elf64_Sym := mk_sym { st_name : Z; st_info : Z; st_other : Z; st_shndx : Z; st_value : Z; st_size : Z }.
Definition sizeof_Sym : Z := 24.
Definition parse_sym (l : list Z) : Elf64_Sym :=
  mk_sym (field 0 4 l) (field 4 1 l) (field 5 1 l) (field 6 2 l) (field 8 8 l) (field 16 8 l).

Definition elfclass64 : Z := 2.
Definition elfdata2lsb : Z := 1.
Definition elfosabi_sysv : Z := 0.
Definition et_exec : Z := 2.
Definition sht_symtab : Z := 2.
Definition sht_strtab : Z := 3.
Definition shf_write : Z := 0x1.
Definition shf_alloc : Z := 0x2.
Definition shf_execinstr : Z := 0x4.
Definition stt_func : Z := 2.
Definition pt_load : Z := 1.
Definition pt_interp : Z := 3.
Definition pt_phdr : Z := 6.
Definition pf_x : Z := 1.
Definition pf_w : Z := 2.

(** The members of [auxvals] that the loader sets. *)
Record auxvals := mk_aux { at_phdr : Z; at_phent : Z; at_phnum : Z; at_entry : Z }.
Definition no_aux : auxvals := mk_aux 0 0 0 0.
Definition set_phdr (v : Z) (a : auxvals) : auxvals := mk_aux v (at_phent a) (at_phnum a) (at_entry a).
Definition set_entry (v : Z) (a : auxvals) : auxvals := mk_aux (at_phdr a) (at_phent a) (at_phnum a) v.

(** The tests of magic number, class, data encoding and OS ABI. *)
Definition check_elf_executable (h : Elf64_Ehdr) : bool :=
  let ident i := default 0 (e_ident h !! i) in
  if negb (ident 0%nat =? 0x7f) || negb (ident 1%nat =? 69) || negb (ident 2%nat =? 76) || negb (ident 3%nat =? 70)
  then false
  else if negb (ident 4%nat =? elfclass64) then false
  else if negb (ident 5%nat =? elfdata2lsb) then false
  else if negb (ident 7%nat =? elfosabi_sysv) then false
  else true.

(** ** Loading *)

Section loading.
Context {S : Type} `{FA : FrameAllocator S}.

(** The ramdisk: its headers, and the bound on the length of names. *)
Context (headers : vector.t Z) (fuel : nat).

(** [initrd::read_file] into a local variable. *)
Definition read_local (name offset size : Z) (m : bmem) : res (option (list Z)) :=
  r ← initrd.file_data fuel name offset size headers m;
  match r with Some d => mret (Some (bytes m d size)) | None => mret None end.

(** What [load_executable] changes: the auxiliary values, [*ld_out_path], kernel
    memory and the system. *)
Record loader := mk_loader { l_aux : auxvals; l_ld : option Z; l_mem : bmem; l_sys : process.sys S }.
Definition set_sys (s : process.sys S) (l : loader) : loader := mk_loader (l_aux l) (l_ld l) (l_mem l) s.

(** The first loop over the pages of a segment; false when memory runs out. *)
Fixpoint map_segment (n : nat) (virt : Z) (active : Z) (i : nat) (s : process.sys S) : res (bool * process.sys S) :=
  match n with
  | O => mret (true, s)
  | Datatypes.S n =>
      t ← access (process.threads s !! i);
      '(frame, fr) ← fa_alloc (paging.frames (process.kern s));
      let k := paging.mk fr (paging.mem (process.kern s)) in
      if frame =? 0 then mret (false, process.set_kern k s)
      else
        k ← paging.map_page (process.vmm t) frame virt (Z.lor map_page_flags_present map_page_flags_writable) normal k;
        k ← process.zero_user_page active (Z.land virt (not64 (block_size - 1))) k;
        let s := process.upd i (fun t => process.set_frames (process.frames t ++ [frame]) t) (process.set_kern k s) in
        map_segment n (u64 (virt + block_size)) active i s
  end.

Definition segment_flags (p_flags : Z) : Z :=
  let flags := Z.lor map_page_flags_present map_page_flags_user in
  let flags := if Z.land p_flags pf_x =? 0 then Z.lor flags map_page_flags_no_execute else flags in
  if Z.land p_flags pf_w =? 0 then flags else Z.lor flags map_page_flags_writable.

(** The second loop over the pages. *)
Fixpoint protect_segment (n : nat) (virt info flags : Z) (k : paging.kernel S) : paging.kernel S :=
  match n with
  | O => k
  | Datatypes.S n => protect_segment n (u64 (virt + block_size)) info flags (paging.set_page_protection info virt flags normal k).2
  end.

(** The branch for [pt_load]. *)
Definition load_segment (name base active : Z) (ph : Elf64_Phdr) (i : nat) (m : bmem) (s : process.sys S)
  : res (bool * process.sys S) :=
  if p_memsz ph =? 0 then mret (true, s)
  else
    let n_pages := Z.to_nat (div_ceil (p_memsz ph) block_size) in
    let virt := u64 (base + p_vaddr ph) in
    '(ok, s) ← map_segment n_pages virt active i s;
    if ok : bool then
      r ← initrd.file_data fuel name (p_offset ph) (p_filesz ph) headers m;
      match r with
      | None => mret (false, s)
      | Some data =>
          k ← copy_to_user active virt data (Z.to_nat (p_filesz ph)) m (process.kern s);
          t ← access (process.threads s !! i);
          mret (true, process.set_kern (protect_segment n_pages virt (process.vmm t) (segment_flags (p_flags ph)) k) s)
      end
    else mret (false, s).

(** The branch for [pt_interp]; [ld_buf] is the address [new char[]] returns. *)
Definition load_interp (name ld_buf : Z) (ph : Elf64_Phdr) (l : loader) : res (bool * loader) :=
  m ← string.memset ld_buf 0 (u64 (p_filesz ph + 1)) (l_mem l);
  '(ok, m) ← initrd.read_file fuel name ld_buf (p_offset ph) (p_filesz ph) headers m;
  mret (ok, mk_loader (l_aux l) (if ok : bool then Some ld_buf else l_ld l) m (l_sys l)).

Definition load_header (name base active : Z) (ld_out : option Z) (ph : Elf64_Phdr) (i : nat) (l : loader)
  : res (bool * loader) :=
  if p_type ph =? pt_interp then
    match ld_out with None => mret (true, l) | Some ld_buf => load_interp name ld_buf ph l end
  else if p_type ph =? pt_phdr then
    mret (true, mk_loader (set_phdr (u64 (base + p_vaddr ph)) (l_aux l)) (l_ld l) (l_mem l) (l_sys l))
  else if p_type ph =? pt_load then
    '(ok, s) ← load_segment name base active ph i (l_mem l) (l_sys l); mret (ok, set_sys s l)
  else mret (true, l).

(** The loop over the program headers. *)
Fixpoint load_headers (n : nat) (index phoff : Z) (name base active : Z) (ld_out : option Z) (i : nat) (l : loader)
  : res (bool * loader) :=
  match n with
  | O => mret (true, l)
  | Datatypes.S n =>
      r ← read_local name (u64 (phoff + sizeof_Phdr * index)) sizeof_Phdr (l_mem l);
      match r with
      | None => mret (false, l)
      | Some b =>
          '(ok, l) ← load_header name base active ld_out (parse_phdr b) i l;
          if ok : bool then load_headers n (index + 1) phoff name base active ld_out i l else mret (false, l)
      end
  end.

(** [ld_out]: the buffer for the interpreter's path, [None] when [ld_out_path] is null. *)
Definition load_executable (name base active : Z) (ld_out : option Z) (i : nat) (l : loader) : res (bool * loader) :=
  r ← read_local name 0 sizeof_Ehdr (l_mem l);
  match r with
  | None => mret (false, l)
  | Some b =>
      let h := parse_ehdr b in
      let l := mk_loader (mk_aux 0 sizeof_Phdr (e_phnum h) (at_entry (l_aux l))) (l_ld l) (l_mem l) (l_sys l) in
      '(ok, l) ← load_headers (Z.to_nat (e_phnum h)) 0 (e_phoff h) name base active ld_out i l;
      if ok : bool then
        mret (true, mk_loader (set_entry (u64 (base + e_entry h)) (l_aux l)) (l_ld l) (l_mem l) (l_sys l))
      else mret (false, l)
  end.

Definition set_rsp (v : Z) (r : process.registers) : process.registers :=
  process.mk_regs (process.rax r) (process.rbx r) (process.rcx r) (process.rdx r) (process.rsi r) (process.rdi r)
    (process.rbp r) v (process.r8 r) (process.r9 r) (process.r10 r) (process.r11 r) (process.r12 r) (process.r13 r)
    (process.r14 r) (process.r15 r) (process.rip r) (process.rflags r) (process.ss r) (process.ds r) (process.cs r).
Definition set_rip (v : Z) (r : process.registers) : process.registers :=
  process.mk_regs (process.rax r) (process.rbx r) (process.rcx r) (process.rdx r) (process.rsi r) (process.rdi r)
    (process.rbp r) (process.rsp r) (process.r8 r) (process.r9 r) (process.r10 r) (process.r11 r) (process.r12 r)
    (process.r13 r) (process.r14 r) (process.r15 r) v (process.rflags r) (process.ss r) (process.ds r) (process.cs r).

(** The [push] lambda: the stack pointer moves down and the word is stored. *)
Definition push (active value : Z) (i : nat) (s : process.sys S) : res (process.sys S) :=
  t ← access (process.threads s !! i);
  let rsp := u64 (process.rsp (process.regs (process.context t)) - 8) in
  k ← store_user_word active rsp value (process.kern s);
  mret (process.upd i (process.set_regs (set_rsp rsp)) (process.set_kern k s)).
Fixpoint push_all (active : Z) (l : list Z) (i : nat) (s : process.sys S) : res (process.sys S) :=
  match l with [] => mret s | v :: l => s ← push active v i s; push_all active l i s end.

(** The words pushed for a static and for a dynamic executable. *)
Definition static_stack (vfs_handle : Z) : list Z := [0; 0; 0; vfs_handle; 0x1000; 0; 0; 0].
Definition dynamic_stack (vfs_handle : Z) (aux : auxvals) : list Z :=
  [0; 0; 0; vfs_handle; 0x1000; at_phdr aux; 3; at_phent aux; 4; at_phnum aux; 5; at_entry aux; 9; 0; 0; 0].

(** Addresses chosen outside this file: the results of [new] for the interpreter's
    path, the ring and its two handles, and the trampoline, stack and functor of
    the kernel thread that serves the file system. *)
Record placement := mk_placement {
  at_ld_path : Z; at_ring : Z; at_kernel_handle : Z; at_user_handle : Z;
  at_trampoline : Z; at_kernel_stack : Z; at_function : Z; at_functor : Z }.

(** Pushing a ring handle into the catalogue of a thread. *)
Definition give_ring (handle ring : Z) (i : nat) (st : ipc_calls.store) (s : process.sys S)
  : res (Z * ipc_calls.store * process.sys S) :=
  t ← access (process.threads s !! i);
  '(id, c) ← handles.push handle (process.handle_catalogue t);
  mret (id, ipc_calls.mk (<[handle := handles.ipc_ring_handle ring]> (ipc_calls.objs st)) (ipc_calls.rings st) (ipc_calls.mem st),
        process.upd i (process.set_handles c) s).

(** The case [et_exec]: the new thread, or [None] when the function returns false
    with the thread left as it is. *)
Definition start_exec (name : Z) (p : process.thread_privilege_level) (a : placement)
    (st : ipc_calls.store) (s : process.sys S) : res (option nat * ipc_calls.store * process.sys S) :=
  let '(i, s) := process.create_blocked_thread p s in
  t ← access (process.threads s !! i);
  '(info, k) ← paging.clone_paging_info (process.kernel_info s) (process.vmm t) (process.kern s);
  let s := process.upd i (process.set_vmm info) (process.set_kern k s) in
  '(_, l) ← load_executable name 0 info (Some (at_ld_path a)) i (mk_loader no_aux None (ipc_calls.mem st) s);
  let st := ipc_calls.mk (ipc_calls.objs st) (ipc_calls.rings st) (l_mem l) in
  s ← process.expand_thread_stack info 10 i (l_sys l);
  let s := process.upd i (fun t =>
    process.set_cr3 (to_phys info) (process.set_regs (set_rsp (process.stack_top (process.image t))) t)) s in
  let '(vfs, s) := process.create_blocked_thread process.KERNEL s in
  tv ← access (process.threads s !! vfs);
  t ← access (process.threads s !! i);
  let st := ipc_calls.set_ring (at_ring a) (ipc.new_ring (process.tid tv) (process.tid t)) st in
  '(_, st, s) ← give_ring (at_kernel_handle a) (at_ring a) vfs st s;
  '(user_handle, st, s) ← give_ring (at_user_handle a) (at_ring a) i st s;
  s ← process.make_kernel_thread (at_trampoline a) (at_kernel_stack a) (at_function a) (at_functor a) vfs s;
  r ← (match l_ld l with
       | None =>
           let s := process.upd i (process.set_regs (set_rip (at_entry (l_aux l)))) s in
           s ← push_all info (static_stack user_handle) i s;
           mret (Some s, st)
       | Some ld_path =>
           r ← read_local ld_path 0 sizeof_Ehdr (ipc_calls.mem st);
           match r with
           | None => mret (None, st)
           | Some _ =>
               '(_, ld) ← load_executable ld_path 0x800000000 info None i (mk_loader no_aux None (ipc_calls.mem st) s);
               let s := process.upd i (process.set_regs (set_rip (at_entry (l_aux ld)))) (l_sys ld) in
               s ← push_all info (dynamic_stack user_handle (l_aux l)) i s;
               mret (Some s, ipc_calls.mk (ipc_calls.objs st) (ipc_calls.rings st) (l_mem ld))
           end
       end);
  match r with
  | (Some s, st) => mret (Some i, st, process.upd i (process.set_state process.IDLE) s)
  | (None, st) => mret (None, st, s)
  end.

Definition start_elf_executable (name : Z) (p : process.thread_privilege_level) (a : placement)
    (st : ipc_calls.store) (s : process.sys S) : res (option nat * ipc_calls.store * process.sys S) :=
  r ← read_local name 0 sizeof_Ehdr (ipc_calls.mem st);
  match r with
  | None => mret (None, st, s)
  | Some b =>
      if check_elf_executable (parse_ehdr b) then
        if e_type (parse_ehdr b) =? et_exec then start_exec name p a st s else mret (None, st, s)
      else mret (None, st, s)
  end.

(** ** The kernel's own sections *)

Definition section (sections i : Z) (m : bmem) : Elf64_Shdr :=
  parse_shdr (bytes m (u64 (sections + i * sizeof_Shdr)) sizeof_Shdr).

Definition section_flags (sh_flags : Z) : Z :=
  let flags := Z.lor map_page_flags_present map_page_flags_global in
  let flags := if Z.land sh_flags shf_write =? 0 then flags else Z.lor flags map_page_flags_writable in
  if Z.land sh_flags shf_execinstr =? 0 then Z.lor flags map_page_flags_no_execute else flags.

(** The pages of one section: [for(j = 0; j < sh_size; j += block_size)]. *)
Definition map_section (kernel_info : Z) (h : Elf64_Shdr) (k : paging.kernel S) : res (paging.kernel S) :=
  for_loop (Z.to_nat ((sh_size h + (block_size - 1)) / block_size)) 0 (fun j k =>
    let virt := u64 (sh_addr h + j * block_size) in
    let phys := u64 (virt - KERNEL_VBASE) in
    paging.map_page kernel_info phys virt (section_flags (sh_flags h)) normal k) k.

Definition map_kernel (sections n : Z) (kernel_info : Z) (m : bmem) (k : paging.kernel S) : res (paging.kernel S) :=
  for_loop (Z.to_nat n) 0 (fun i k =>
    let h := section sections i m in
    if Z.land (sh_flags h) shf_alloc =? 0 then mret k else map_section kernel_info h k) k.
End loading.

(** ** Symbols *)

(** The statics [symtab], [strtab], [n_symbols] and [initialized]. *)
Record symbols := mk_symbols { symtab : option Elf64_Shdr; strtab : option Elf64_Shdr; n_symbols : Z; initialized : bool }.
Definition no_symbols : symbols := mk_symbols None None 0 false.

Fixpoint find_tables (n : nat) (sections i : Z) (m : bmem) (sym str : option Elf64_Shdr)
  : option Elf64_Shdr * option Elf64_Shdr :=
  match n with
  | O => (sym, str)
  | S n =>
      let shdr := section sections i m in
      let sym := if bool_decide (sym = None) && (sh_type shdr =? sht_symtab) then Some shdr else sym in
      let str := if bool_decide (str = None) && (sh_type shdr =? sht_strtab) then Some shdr else str in
      if negb (bool_decide (sym = None)) && negb (bool_decide (str = None)) then (sym, str)
      else find_tables n sections (i + 1) m sym str
  end.

(** A section with [sh_entsize = 0] divides by zero. *)
Definition init_symbol_list (sections n : Z) (m : bmem) (s : symbols) : res symbols :=
  let '(sym, str) := find_tables (Z.to_nat n) sections 0 m (symtab s) (strtab s) in
  match sym, str with
  | Some t, Some _ =>
      if sh_entsize t =? 0 then Undef
      else mret (mk_symbols sym str (sh_size t / sh_entsize t) true)
  | _, _ => mret (mk_symbols sym str (n_symbols s) (initialized s))
  end.

Definition get_symbol_pmm_exclusion_zones (s : symbols) : res ((Z * Z) * (Z * Z)) :=
  _ ← ASSERT (initialized s) "initialized";
  sym ← access (symtab s);
  str ← access (strtab s);
  mret ((sh_addr sym, sh_size sym), (sh_addr str, sh_size str)).

Definition symbol_at (symtab : Elf64_Shdr) (i : Z) (m : bmem) : Elf64_Sym :=
  parse_sym (bytes m (u64 (sh_addr symtab + KERNEL_VBASE + i * sizeof_Sym)) sizeof_Sym).

(** The loop of [get_symbol]. *)
Fixpoint symbol_loop (n : nat) (i : Z) (sym str : Elf64_Shdr) (address : Z) (m : bmem) : option (Z * Z) :=
  match n with
  | O => None
  | S n =>
      let s := symbol_at sym i m in
      if negb (Z.land (st_info s) 0xf =? stt_func) then symbol_loop n (i + 1) sym str address m
      else if (st_value s <=? address) && (address <=? u64 (st_value s + st_size s)) then
        Some (u64 (sh_addr str + KERNEL_VBASE + st_name s), st_value s)
      else symbol_loop n (i + 1) sym str address m
  end.

(** The address of the name and of the symbol; [None] is [{"Unknown", 0}]. *)
Definition get_symbol (address : Z) (s : symbols) (m : bmem) : res (option (Z * Z)) :=
  if initialized s then
    sym ← access (symtab s);
    str ← access (strtab s);
    mret (symbol_loop (Z.to_nat (n_symbols s)) 0 sym str address m)
  else mret None.
End elf.

(** ** Lemmas: bytes of words *)

Lemma write_byte_bits w b sh i :
  0 <= sh -> 0 <= i -> 0 <= b < 256 ->
  Z.testbit (Z.lor (Z.ldiff w (Z.shiftl 255 sh)) (Z.shiftl b sh)) i =
    if (sh <=? i) && (i <? sh + 8) then Z.testbit b (i - sh) else Z.testbit w i.
Proof.
  intros Hs Hi Hb. rewrite Z.lor_spec, Z.ldiff_spec, !Z.shiftl_spec by lia. change 255 with (Z.ones 8).
  destruct (Z.leb_spec sh i); cbn [andb].
  - rewrite Z.testbit_ones_nonneg by lia. destruct (Z.ltb_spec i (sh + 8)), (Z.ltb_spec (i - sh) 8); try lia; cbn.
    + by rewrite andb_false_r.
    + rewrite andb_true_r. rewrite (Z.bits_above_log2 b); [by rewrite orb_false_r | lia |].
      destruct (decide (b = 0)) as [-> |]; [cbn; lia |]. assert (Z.log2 b < 8) by (apply Z.log2_lt_pow2; lia). lia.
  - rewrite !(Z.testbit_neg_r _ (i - sh)) by lia. cbn. by rewrite andb_true_r, orb_false_r.
Qed.

Lemma read_byte_bits m p i :
  0 <= p -> 0 <= i -> Z.testbit (read_byte m p) i = (i <? 8) && Z.testbit (m (8 * (p / 8))) (i + 8 * (p mod 8)).
Proof.
  intros Hp Hi. unfold read_byte. change 256 with (2 ^ 8). assert (Hm := Z.mod_pos_bound p 8).
  destruct (Z.ltb_spec i 8).
  - rewrite Z.mod_pow2_bits_low, Z.shiftr_spec by lia. done.
  - by rewrite Z.mod_pow2_bits_high by lia.
Qed.

Lemma read_write_byte m p q b :
  0 <= p -> 0 <= q -> 0 <= b < 256 ->
  read_byte (write_byte m p b) q = if decide (q = p) then b else read_byte m q.
Proof.
  intros Hp Hq Hb. assert (Hmp := Z.mod_pos_bound p 8). assert (Hmq := Z.mod_pos_bound q 8).
  assert (Ep := Z.div_mod p 8). assert (Eq := Z.div_mod q 8).
  apply Z.bits_inj'. intros i Hi. rewrite read_byte_bits by lia. unfold write_byte, write_word.
  destruct (Z.eqb_spec (8 * (q / 8)) (8 * (p / 8))) as [E | E].
  - rewrite write_byte_bits by lia. destruct (decide (q = p)) as [-> | Hne].
    + destruct (Z.ltb_spec i 8); cbn.
      * rewrite (proj2 (Z.leb_le _ _)), (proj2 (Z.ltb_lt _ _)) by lia. cbn. f_equal. lia.
      * symmetry. destruct (decide (b = 0)) as [-> |]; [apply Z.bits_0 |]. apply Z.bits_above_log2; [lia |].
        assert (Z.log2 b < 8) by (apply Z.log2_lt_pow2; lia). lia.
    + rewrite read_byte_bits by lia. destruct (Z.ltb_spec i 8); [| done]. cbn. rewrite E.
      destruct (Z.leb_spec (8 * (p mod 8)) (i + 8 * (q mod 8))),
        (Z.ltb_spec (i + 8 * (q mod 8)) (8 * (p mod 8) + 8)); cbn; try done. exfalso. lia.
  - rewrite decide_False by (intros ->; done). by rewrite read_byte_bits by lia.
Qed.

Lemma write_byte_u64 m p b x : (forall a, is_u64 (m a)) -> 0 <= b < 256 -> is_u64 (write_byte m p b x).
Proof.
  intros Hm Hb. assert (Hmp := Z.mod_pos_bound p 8). unfold write_byte, write_word. destruct (_ =? _); [| done].
  apply is_u64_bits.
  - apply Z.lor_nonneg. split; [apply Z.ldiff_nonneg; left; apply Hm | apply Z.shiftl_nonneg; lia].
  - intros i Hi. rewrite write_byte_bits by lia. rewrite (proj2 (Z.ltb_ge i (8 * (p mod 8) + 8))) by lia.
    rewrite andb_false_r. apply testbit_high; [apply Hm | lia].
Qed.

Lemma write_byte_kept m f p b x :
  frame_ok f -> f <= p < f + block_size -> ~ (f <= x < f + block_size) -> write_byte m p b x = m x.
Proof.
  intros [_ Hf] Hp Hx. unfold write_byte, write_word. rewrite (proj2 (Z.eqb_neq _ _)); [done |].
  unfold block_size in *. wrap_lia.
Qed.

(** ** Lemmas: loading a segment *)

Lemma page_align virt : is_u64 virt -> virt mod block_size = 0 -> Z.land virt (not64 (block_size - 1)) = virt.
Proof.
  intros Hv Hm. assert (H := ALIGN_DOWN_pow2 virt 12 Hv ltac:(lia)). unfold ALIGN_DOWN in H.
  change (2 ^ 12) with block_size in H. rewrite (u64_small virt Hv) in H.
  replace (u64 (block_size - 1)) with (block_size - 1) in H by done. rewrite H, Hm. lia.
Qed.

(** Page numbers below the top of the lower half. *)
Lemma vpn_small v : 0 <= v < 2 ^ 48 -> vpn v = v / 4096.
Proof. intros Hv. unfold vpn. apply Z.mod_small. wrap_lia. Qed.

Section segments.
Import elf.
Context {S : Type} `{FA : FrameAllocatorLaws S}.
Implicit Types (k : paging.kernel S) (own : gmap Z (nat * Z)) (s : process.sys S).

Definition rw_flags : Z := Z.lor map_page_flags_present map_page_flags_writable.

(** The pages from [virt] on are mapped to the data frames [fs] with the entries
    [pte f]. *)
Record segment own root k (virt : Z) (fs : list Z) (pte : Z -> Z) : Prop := {
  seg_space : space_ok own root k;
  seg_nodup : NoDup fs;
  seg_data : forall f, f ∈ fs -> data_frame own k f;
  seg_map : forall j f v, fs !! j = Some f -> vpn v = vpn (virt + 4096 * Z.of_nat j) ->
              translate (paging.mem k) root v = Some (pte f);
  seg_frame : forall f, f ∈ fs -> get_frame (pte f) = f }.

(** The byte at an offset of the segment. *)
Definition seg_byte (fs : list Z) (m : memory) (off : Z) : Z :=
  read_byte m (default 0 (fs !! Z.to_nat (off / 4096)) + off mod 4096).

Lemma make_rw_frame f : frame_ok f -> get_frame (make_pte f rw_flags normal) = f.
Proof. intros Hf. rewrite make_pte_frame. by apply get_frame_id. Qed.

(** Clearing the page that was just mapped. *)
Lemma zero_page own root k virt f :
  space_ok own root k -> data_frame own k f ->
  translate (paging.mem k) root virt = Some (make_pte f rw_flags normal) ->
  process.zero_user_page (to_virt root) virt k = Ret (paging.mk (paging.frames k) (zero_frame (paging.mem k) f)) /\
  space_ok own root (paging.mk (paging.frames k) (zero_frame (paging.mem k) f)) /\
  forall v, translate (zero_frame (paging.mem k) f) root v = translate (paging.mem k) root v.
Proof.
  intros OK Hf Ht. assert (H := find_entry_translate own root k virt OK). unfold process.zero_user_page.
  destruct (paging.find_entry _ _ _) as [[pt e] |]; [| congruence]. destruct H as [H _].
  assert (e = make_pte f rw_flags normal) as -> by congruence. rewrite make_rw_frame by apply Hf.
  split; [done |]. apply (space_data own root k f); [done | done | |].
  - intros x Hx. unfold zero_frame. destruct (Z.leb_spec f x), (Z.ltb_spec x (f + block_size)); try done. lia.
  - intros x. unfold zero_frame. destruct (_ && _); [apply is_u64_0 | apply (t_word _ _ _ (s_tables _ _ _ OK))].
Qed.

(** What the first loop of [load_executable] changes. *)
Record mapped own s own' s' root (virt : Z) (i : nat) (fs : list Z) : Prop := {
  mp_own : own ⊆ own';
  mp_seg : segment own' root (process.kern s') virt fs (fun f => make_pte f rw_flags normal);
  mp_free : forall f, f ∈ fs -> f ∈ fa_pages (paging.frames (process.kern s));
  mp_zero : forall f x, f ∈ fs -> f <= x < f + block_size -> paging.mem (process.kern s') x = 0;
  mp_other : forall v, (forall j, (j < length fs)%nat -> vpn v <> vpn (virt + 4096 * Z.of_nat j)) ->
               translate (paging.mem (process.kern s')) root v = translate (paging.mem (process.kern s)) root v;
  mp_kept : forall f, data_frame own (process.kern s) f ->
               data_frame own' (process.kern s') f /\ frame_kept f (process.kern s) (process.kern s');
  mp_thread : exists t t', process.threads s !! i = Some t /\ process.threads s' !! i = Some t' /\
               t' = process.set_frames (process.frames t ++ fs) t;
  mp_threads : forall j, j <> i -> process.threads s' !! j = process.threads s !! j }.

(** The state after one page of the segment: allocated, mapped and cleared. *)
Lemma map_one own root virt i t s :
  space_ok own root (process.kern s) -> process.threads s !! i = Some t -> process.vmm t = to_virt root ->
  0 <= virt < 2 ^ 48 -> virt mod block_size = 0 ->
  (4 <= length (fa_pages (paging.frames (process.kern s))))%nat -> 0 ∉ fa_pages (paging.frames (process.kern s)) ->
  exists own' s' f, (forall n, map_segment (Datatypes.S n) virt (to_virt root) i s =
      map_segment n (u64 (virt + block_size)) (to_virt root) i s') /\
    mapped own s own' s' root virt i [f] /\
    (length (fa_pages (paging.frames (process.kern s))) <= 4 + length (fa_pages (paging.frames (process.kern s'))))%nat /\
    (forall g, g ∈ fa_pages (paging.frames (process.kern s')) -> g ∈ fa_pages (paging.frames (process.kern s))).
Proof.
  intros OK Ht Hvm Hv Hal Hlen H0. set (k := process.kern s) in *.
  destruct (fa_alloc_success (paging.frames k)) as (f & fr & Ea); [apply OK | by intros E; rewrite E in Hlen; cbn in Hlen; lia |].
  destruct (space_alloc own root k f fr OK Ea) as (OK1 & U1 & Hf & Hin).
  assert (Hd1 := alloc_data own root k f fr OK Ea). set (k1 := paging.mk fr (paging.mem k)) in *.
  assert (L1 := uses_length _ _ _ U1).
  destruct (map_page_success own root k1 f virt rw_flags normal OK1) as (k2 & Em); [lia |].
  destruct (map_page_ok own root k1 f virt rw_flags normal k2 OK1 Em) as (own' & Hsub & OK2 & Hother & Hpage & U2 & Hdata).
  assert (Hpv : forall v, vpn v = vpn virt -> translate (paging.mem k2) root v = Some (make_pte f rw_flags normal))
    by (intros v E; by rewrite Hpage).
  destruct (Hdata f Hd1) as [Hd2 _].
  destruct (zero_page own' root k2 virt f OK2 Hd2 (Hpv virt eq_refl)) as (Ez & OK3 & Htr).
  set (k3 := paging.mk (paging.frames k2) (zero_frame (paging.mem k2) f)) in *.
  exists own', (process.upd i (fun t => process.set_frames (process.frames t ++ [f]) t) (process.set_kern k3 s)), f.
  split_and!.
  - intros n. cbn [map_segment]. rewrite Ht. cbn [access mbind res_bind]. fold k. rewrite Ea. cbn [mbind res_bind].
    fold k1. rewrite (proj2 (Z.eqb_neq f 0)) by (intros ->; done). rewrite Hvm. fold rw_flags. rewrite Em. cbn [mbind res_bind].
    rewrite page_align by (done || (unfold is_u64; lia)). rewrite Ez. done.
  - constructor; cbn [process.kern process.upd process.set_threads process.set_kern process.threads].
    + done.
    + constructor; [done | apply NoDup_singleton | | | ].
      * intros g ->%list_elem_of_singleton. done.
      * intros j g v Hj Hvp. apply list_lookup_singleton_Some in Hj as [-> <-]. rewrite Z.add_0_r in Hvp.
        unfold k3. cbn [paging.mem]. rewrite Htr. by apply Hpv.
      * intros g ->%list_elem_of_singleton. by apply make_rw_frame.
    + intros g ->%list_elem_of_singleton. done.
    + intros g x ->%list_elem_of_singleton Hx. unfold k3. cbn. unfold zero_frame.
      by rewrite (proj2 (Z.leb_le _ _)), (proj2 (Z.ltb_lt _ _)) by lia.
    + intros v Hne. unfold k3. cbn [paging.mem]. rewrite Htr. rewrite Hother; [done | apply OK1 |].
      specialize (Hne 0%nat ltac:(cbn; lia)). by rewrite Z.add_0_r in Hne.
    + intros g (Hg & Hgo & Hgf). assert (Hgne : g <> f) by (intros ->; done).
      destruct (Hdata g) as [Hg2 K]. { split_and!; [done | done |]. intros E. apply Hgf. by eapply uses_elem. }
      split; [done |]. intros x Hx. transitivity (paging.mem k2 x); [| exact (K x Hx)]. unfold k3. cbn. unfold zero_frame.
      assert (N := frames_disjoint g f x Hg Hf Hgne Hx).
      destruct (Z.leb_spec f x), (Z.ltb_spec x (f + block_size)); try done. lia.
    + exists t. eexists. split; [done |]. split; [| reflexivity]. by rewrite list_lookup_alter_eq, Ht.
    + intros j Hj. by rewrite list_lookup_alter_ne.
  - assert (L2 := uses_length _ _ _ U2). cbn. lia.
  - intros g Hg. eapply uses_elem; [exact U1 |]. eapply uses_elem; [exact U2 | done].
Qed.

Lemma pages_differ virt j j' :
  0 <= virt -> virt + 4096 * Z.of_nat j < 2 ^ 48 -> virt + 4096 * Z.of_nat j' < 2 ^ 48 -> j <> j' ->
  vpn (virt + 4096 * Z.of_nat j) <> vpn (virt + 4096 * Z.of_nat j').
Proof. intros Hv H1 H2 Hne. rewrite !vpn_small by lia. wrap_lia. Qed.

(** One page, then the rest of the segment. *)
Lemma mapped_cons own s own1 s1 own2 s2 root virt i f fs :
  mapped own s own1 s1 root virt i [f] -> mapped own1 s1 own2 s2 root (virt + block_size) i fs ->
  0 <= virt -> virt + 4096 * Z.of_nat (length fs) < 2 ^ 48 ->
  (forall g, g ∈ fa_pages (paging.frames (process.kern s1)) -> g ∈ fa_pages (paging.frames (process.kern s))) ->
  mapped own s own2 s2 root virt i (f :: fs).
Proof.
  intros [A1 [B1 B2 B3 B4 B5] C1 D1 E1 F1 (t & t1 & T1 & T1' & ->) H1] [A2 [G1 G2 G3 G4 G5] C2 D2 E2 F2 (u1 & u2 & T2 & T2' & ->) H2] Hv Hlen Hfree.
  assert (Hf : data_frame own1 (process.kern s1) f) by (apply B3, list_elem_of_here).
  destruct (F2 f Hf) as [Hf2 Kf]. assert (Hfn : f ∉ fs).
  { intros Hin. destruct Hf as (_ & _ & Hn). apply Hn. by apply C2. }
  assert (Hshift : forall j, virt + block_size + 4096 * Z.of_nat j = virt + 4096 * Z.of_nat (Datatypes.S j))
    by (intros j; unfold block_size; lia).
  constructor.
  - by transitivity own1.
  - constructor; [done | by constructor | | |].
    + intros g [-> | Hg]%elem_of_cons; [done | by apply G3].
    + intros [| j] g v Hj Hvp; cbn in Hj.
      * injection Hj as <-. rewrite E2; [apply (B4 0%nat); done |]. intros j Hj. rewrite Hshift, Hvp.
        apply pages_differ; lia.
      * apply (G4 j); [done |]. by rewrite Hshift.
    + intros g [-> | Hg]%elem_of_cons; [apply B5, list_elem_of_here | by apply G5].
  - intros g [-> | Hg]%elem_of_cons; [apply C1, list_elem_of_here | by apply Hfree, C2].
  - intros g x [-> | Hg]%elem_of_cons Hx; [rewrite (Kf x Hx); apply (D1 f); [apply list_elem_of_here | done] | by apply (D2 g)].
  - intros v Hne. rewrite E2, E1; [done | |].
    + intros j Hj. apply (Hne j). cbn in Hj |- *. lia.
    + intros j Hj. rewrite Hshift. apply Hne. cbn. lia.
  - intros g Hg. destruct (F1 g Hg) as [Hg1 K1]. destruct (F2 g Hg1) as [Hg2 K2]. split; [done |].
    intros x Hx. by rewrite (K2 x Hx), (K1 x Hx).
  - exists t. eexists. split; [done |]. split; [exact T2' |]. rewrite T1' in T2. injection T2 as <-. cbn.
    by rewrite <- app_assoc.
  - intros j Hj. by rewrite H2, H1.
Qed.

Lemma map_segment_ok n own root virt i t s :
  space_ok own root (process.kern s) -> process.threads s !! i = Some t -> process.vmm t = to_virt root ->
  0 <= virt -> virt + 4096 * Z.of_nat n < 2 ^ 48 -> virt mod block_size = 0 ->
  (4 * n <= length (fa_pages (paging.frames (process.kern s))))%nat -> 0 ∉ fa_pages (paging.frames (process.kern s)) ->
  exists own' s' fs, map_segment n virt (to_virt root) i s = Ret (true, s') /\ length fs = n /\
    mapped own s own' s' root virt i fs.
Proof.
  revert own virt t s. induction n as [| n IH]; intros own virt t s OK Ht Hvm Hv Hend Hal Hlen H0.
  - exists own, s, []. split; [done |]. split; [done |]. constructor; try done; try set_solver.
    + constructor; try done; try set_solver. constructor.
    + exists t, t. split; [done |]. split; [done |]. rewrite app_nil_r. by destruct t.
  - destruct (map_one own root virt i t s OK Ht Hvm ltac:(lia) Hal ltac:(lia) H0) as (own1 & s1 & f & Hstep & M1 & L1 & Hin).
    assert (M1' := M1). destruct M1' as [_ [OK1 _ _ _ _] _ _ _ _ (t0 & t1 & T0 & T1 & ->) _].
    rewrite Ht in T0. injection T0 as <-.
    assert (Hu : u64 (virt + block_size) = virt + block_size) by (apply u64_small; unfold is_u64, block_size; lia).
    destruct (IH own1 (virt + block_size) _ s1 OK1 T1 Hvm) as (own2 & s2 & fs & Hrun & Hl & M2).
    + unfold block_size. lia.
    + unfold block_size. lia.
    + unfold block_size in *. wrap_lia.
    + lia.
    + auto.
    + exists own2, s2, (f :: fs). rewrite Hstep, Hu. split; [done |]. split; [cbn; lia |].
      eapply mapped_cons; [exact M1 | exact M2 | lia | rewrite Hl; lia | done].
Qed.

(** Storing one byte through the address space. *)
Lemma store_byte_ok own root k virt fs pte off b :
  segment own root k virt fs pte -> 0 <= virt -> virt mod block_size = 0 -> 
  0 <= off < 4096 * Z.of_nat (length fs) -> virt + off < 2 ^ 48 -> 0 <= b < 256 ->
  exists k', store_byte (to_virt root) (virt + off) b k = Ret k' /\ segment own root k' virt fs pte /\
    (forall o, 0 <= o < 4096 * Z.of_nat (length fs) ->
       seg_byte fs (paging.mem k') o = if decide (o = off) then b else seg_byte fs (paging.mem k) o) /\
    (forall g, data_frame own k g -> g ∉ fs -> frame_kept g k k') /\
    paging.frames k' = paging.frames k /\ (forall v, translate (paging.mem k') root v = translate (paging.mem k) root v).
Proof.
  intros [OK N D M F] Hv Hal Hoff Hend Hb.
  assert (Hj : (Z.to_nat (off / 4096) < length fs)%nat) by wrap_lia.
  destruct (lookup_lt_is_Some_2 fs _ Hj) as [f Hf]. assert (Hin : f ∈ fs) by (by eapply list_elem_of_lookup_2).
  assert (Hp : vpn (virt + off) = vpn (virt + 4096 * Z.of_nat (Z.to_nat (off / 4096)))).
  { rewrite !vpn_small by wrap_lia. unfold block_size in *. wrap_lia. }
  assert (Htr := M _ _ _ Hf Hp). assert (H := find_entry_translate own root k (virt + off) OK).
  unfold store_byte, user_access, user_phys. destruct (paging.find_entry _ _ _) as [[pt e] |]; [| congruence].
  destruct H as [H _]. assert (e = pte f) as -> by congruence. rewrite (F f Hin). cbn [mbind res_bind].
  assert (Hmod : (virt + off) mod block_size = off mod 4096) by (unfold block_size in *; wrap_lia).
  rewrite Hmod. set (p := f + off mod 4096). assert (Hd := D f Hin). assert (Hfok : frame_ok f) by apply Hd.
  assert (Hpf : f <= p < f + block_size) by (unfold p, block_size; wrap_lia).
  assert (H0f : forall g, frame_ok g -> 0 <= g) by (intros g [? _]; lia).
  destruct (space_data own root k f (write_byte (paging.mem k) p b) OK Hd) as [OK' Htr'].
  { intros x Hx. by apply (write_byte_kept _ f). }
  { intros x. apply write_byte_u64; [apply (t_word _ _ _ (s_tables _ _ _ OK)) | done]. }
  eexists. split; [reflexivity |]. split_and!; [| | | done | exact Htr'].
  - constructor; try done. intros j g v Hjg Hvp. cbn [paging.mem]. rewrite Htr'. by eapply M.
  - intros o Ho. unfold seg_byte. cbn [paging.mem].
    assert (Hjo : (Z.to_nat (o / 4096) < length fs)%nat) by wrap_lia.
    destruct (lookup_lt_is_Some_2 fs _ Hjo) as [g Hg]. rewrite Hg. cbn.
    assert (Hgok : frame_ok g) by (apply D; by eapply list_elem_of_lookup_2).
    rewrite read_write_byte; [| specialize (H0f f Hfok); unfold p; wrap_lia | specialize (H0f g Hgok); wrap_lia | done].
    destruct (decide (o = off)) as [-> | Hne].
    + rewrite Hf in Hg. injection Hg as <-. by rewrite decide_True.
    + rewrite decide_False; [done |]. unfold p. intros E. apply Hne.
      assert (g = f) as -> by (unfold frame_ok, block_size in *; wrap_lia).
      assert (Z.to_nat (o / 4096) = Z.to_nat (off / 4096)) by (by eapply NoDup_lookup). wrap_lia.
  - intros g Hg Hgn x Hx. cbn. apply (write_byte_kept _ f); [done | done |].
    apply (frames_disjoint g); [apply Hg | done | intros ->; done | done].
Qed.

Lemma copy_ok n i0 own root k virt fs pte data m :
  segment own root k virt fs pte -> 0 <= virt -> virt mod block_size = 0 -> virt + 4096 * Z.of_nat (length fs) < 2 ^ 48 ->
  0 <= i0 -> i0 + Z.of_nat n <= 4096 * Z.of_nat (length fs) -> (forall x, 0 <= m x < 256) ->
  exists k', for_loop n i0 (fun i k => store_byte (to_virt root) (u64 (virt + i)) (m (data + i)) k) k = Ret k' /\
    segment own root k' virt fs pte /\
    (forall o, 0 <= o < 4096 * Z.of_nat (length fs) -> seg_byte fs (paging.mem k') o =
       if bool_decide (i0 <= o < i0 + Z.of_nat n) then m (data + o) else seg_byte fs (paging.mem k) o) /\
    (forall g, data_frame own k g -> g ∉ fs -> frame_kept g k k') /\
    paging.frames k' = paging.frames k /\ (forall v, translate (paging.mem k') root v = translate (paging.mem k) root v).
Proof.
  intros Sg Hv Hal Hend. revert i0 k Sg. induction n as [| n IH]; intros i0 k Sg Hi Hn Hm; cbn [for_loop].
  - exists k. split_and!; try done. intros o _. by rewrite bool_decide_false by lia.
  - rewrite u64_small by (unfold is_u64; lia).
    destruct (store_byte_ok own root k virt fs pte i0 (m (data + i0)) Sg Hv Hal) as (k1 & -> & Sg1 & B1 & K1 & F1 & T1);
      [lia | lia | done |]. cbn [mbind res_bind].
    destruct (IH (i0 + 1) k1 Sg1) as (k2 & -> & Sg2 & B2 & K2 & F2 & T2); [lia | lia | done |].
    exists k2. split_and!; [done | done | | | congruence |].
    + intros o Ho. rewrite B2, B1 by done. destruct (decide (o = i0)) as [-> | Hne].
      * by rewrite bool_decide_false, bool_decide_true by lia.
      * destruct (decide (i0 <= o < i0 + Z.of_nat (Datatypes.S n))) as [Hin | Hout];
          [rewrite !bool_decide_true by lia | rewrite !bool_decide_false by lia]; done.
    + intros g Hg Hgn x Hx. rewrite (K2 g) by (done || (unfold data_frame in *; by rewrite F1)). by apply (K1 g).
    + intros v. by rewrite T2, T1.
Qed.

Lemma protect_ok n own root virt flags k :
  space_ok own root k -> 0 <= virt -> virt + 4096 * Z.of_nat n < 2 ^ 48 ->
  let k' := protect_segment n virt (to_virt root) flags k in
  space_ok own root k' /\
  (forall j v, (j < n)%nat -> vpn v = vpn (virt + 4096 * Z.of_nat j) ->
     translate (paging.mem k') root v = (fun e => paging.protected_entry e flags normal) <$> translate (paging.mem k) root v) /\
  (forall v, (forall j, (j < n)%nat -> vpn v <> vpn (virt + 4096 * Z.of_nat j)) ->
     translate (paging.mem k') root v = translate (paging.mem k) root v) /\
  (forall f, data_frame own k f -> data_frame own k' f /\ frame_kept f k k').
Proof.
  revert virt k. induction n as [| n IH]; intros virt k OK Hv Hend; cbn [protect_segment].
  - split_and!; try done. intros j v Hj. lia.
  - assert (H := set_page_protection_ok own root k virt flags normal OK).
    assert (Hd := set_page_protection_data own root k virt flags normal).
    destruct (paging.set_page_protection (to_virt root) virt flags normal k) as [r k1]. destruct H as (_ & OK1 & T1).
    cbn [snd] in *. rewrite u64_small by (unfold is_u64, block_size; lia).
    destruct (IH (virt + block_size) k1 OK1) as (OK2 & P2 & O2 & D2); [unfold block_size; lia | unfold block_size; lia |].
    assert (Hshift : forall j, virt + block_size + 4096 * Z.of_nat j = virt + 4096 * Z.of_nat (Datatypes.S j))
      by (intros j; unfold block_size; lia).
    split_and!; [done | | |].
    + intros [| j] v Hj Hvp.
      * rewrite O2; [rewrite T1, decide_True; [done |]; by rewrite Z.add_0_r in Hvp |].
        intros j Hj'. rewrite Hshift, Hvp. apply pages_differ; lia.
      * rewrite (P2 j v), T1, decide_False; [done | | lia | by rewrite Hshift].
        rewrite Hvp. intros E. apply (pages_differ virt (Datatypes.S j) 0); [lia | lia | lia | done |]. by rewrite E, Z.add_0_r.
    + intros v Hne. rewrite O2, T1, decide_False; [done | |].
      * specialize (Hne 0%nat ltac:(lia)). by rewrite Z.add_0_r in Hne.
      * intros j Hj. rewrite Hshift. apply Hne. lia.
    + intros f Hf. destruct (Hd f OK Hf) as [Hf1 K1]. destruct (D2 f Hf1) as [Hf2 K2]. split; [done |].
      intros x Hx. by rewrite (K2 x Hx), (K1 x Hx).
Qed.
End segments.

(** ** Lemmas: mapping the kernel *)

(** The number of pages that [map_section] maps. *)
Definition section_pages (h : elf.Elf64_Shdr) : nat := Z.to_nat ((elf.sh_size h + (block_size - 1)) / block_size).
Definition section_alloc (h : elf.Elf64_Shdr) : bool := negb (Z.land (elf.sh_flags h) elf.shf_alloc =? 0).

(** [e] is the entry that the section [h] asks for at the page of [v]. *)
Definition section_maps (h : elf.Elf64_Shdr) (v e : Z) : Prop :=
  exists j, 0 <= j < Z.of_nat (section_pages h) /\ vpn v = vpn (u64 (elf.sh_addr h + j * block_size)) /\
    e = make_pte (u64 (u64 (elf.sh_addr h + j * block_size) - KERNEL_VBASE)) (elf.section_flags (elf.sh_flags h)) normal.

Lemma section_flags_bits fl i :
  0 <= i -> Z.testbit (elf.section_flags fl) i =
    (i =? 0) || (i =? 4) || (i =? 1) && negb (Z.land fl elf.shf_write =? 0) || (i =? 3) && (Z.land fl elf.shf_execinstr =? 0).
Proof.
  intros Hi. unfold elf.section_flags.
  change map_page_flags_present with (2 ^ 0). change map_page_flags_global with (2 ^ 4).
  change map_page_flags_no_execute with (2 ^ 3). change map_page_flags_writable with (2 ^ 1).
  destruct (Z.land fl elf.shf_write =? 0), (Z.land fl elf.shf_execinstr =? 0);
    rewrite ?Z.lor_spec, !Z.pow2_bits_eqb by lia; rewrite ?(Z.eqb_sym _ i);
    destruct (i =? 0), (i =? 1), (i =? 3), (i =? 4); done.
Qed.

(** A kernel page is never a user page, is writable or executable exactly when
    its section is, and is global. *)
Lemma section_maps_bits h v e :
  section_maps h v e ->
  present e = true /\ Z.testbit e 2 = false /\ Z.testbit e 8 = true /\
  Z.testbit e 1 = negb (Z.land (elf.sh_flags h) elf.shf_write =? 0) /\
  Z.testbit e 63 = (Z.land (elf.sh_flags h) elf.shf_execinstr =? 0).
Proof.
  intros (j & _ & _ & ->). unfold present.
  rewrite !testbit_make_pte, !testbit_entry_flags, !testbit_flags_mask, !section_flags_bits by lia.
  change (get_pat_flags normal) with 0. rewrite !Z.bits_0. cbn.
  destruct (Z.land (elf.sh_flags h) elf.shf_write =? 0), (Z.land (elf.sh_flags h) elf.shf_execinstr =? 0); done.
Qed.

Section kernel_map.
Import elf.
Context {S : Type} `{FA : FrameAllocatorLaws S}.
Implicit Types (k : paging.kernel S) (own : gmap Z (nat * Z)).

Lemma map_section_ok own root h k :
  space_ok own root k -> (3 * section_pages h <= length (fa_pages (paging.frames k)))%nat ->
  exists k' own', map_section (to_virt root) h k = Ret k' /\ space_ok own' root k' /\ uses (3 * section_pages h) k k' /\
    forall v, (exists e, section_maps h v e /\ translate (paging.mem k') root v = Some e) \/
      ((forall e, ~ section_maps h v e) /\ translate (paging.mem k') root v = translate (paging.mem k) root v).
Proof.
  intros OK Hl. destruct (map_loop_ok (section_pages h) 0 (fun j => u64 (u64 (sh_addr h + j * block_size) - KERNEL_VBASE))
    (fun j => u64 (sh_addr h + j * block_size)) (section_flags (sh_flags h)) normal own root k OK Hl)
    as (k' & own' & E & OK' & U & Hv); [by rewrite section_flags_bits by lia |].
  exists k', own'. split_and!; [exact E | done | done |]. intros v. destruct (Hv v) as [(j & Hj & Hjv & Ht) | [Hno Ht]].
  - left. eexists. split; [| exact Ht]. exists j. split_and!; (lia || done).
  - right. split; [| done]. intros e (j & Hj & Hjv & _). by apply (Hno j ltac:(lia)).
Qed.

(** The pages of the sections [i ... i + n) that are loaded. *)
Fixpoint total_pages (n : nat) (sections i : Z) (m : bmem) : nat :=
  match n with
  | O => 0
  | Datatypes.S n =>
      (if section_alloc (section sections i m) then section_pages (section sections i m) else 0) + total_pages n sections (i + 1) m
  end.

Lemma map_kernel_ok n i own root sections m k :
  space_ok own root k -> (3 * total_pages n sections i m <= length (fa_pages (paging.frames k)))%nat ->
  exists k' own', for_loop n i (fun i k =>
      if Z.land (sh_flags (section sections i m)) shf_alloc =? 0 then mret k
      else map_section (to_virt root) (section sections i m) k) k = Ret k' /\ space_ok own' root k' /\
    forall v,
      (exists x e, i <= x < i + Z.of_nat n /\ section_alloc (section sections x m) = true /\
         section_maps (section sections x m) v e /\ translate (paging.mem k') root v = Some e /\
         forall y e', x < y < i + Z.of_nat n -> section_alloc (section sections y m) = true ->
           ~ section_maps (section sections y m) v e') \/
      ((forall x e, i <= x < i + Z.of_nat n -> section_alloc (section sections x m) = true ->
          ~ section_maps (section sections x m) v e) /\
       translate (paging.mem k') root v = translate (paging.mem k) root v).
Proof.
  revert i own k. induction n as [| n IH]; intros i own k OK Hl; cbn [for_loop total_pages] in *.
  - exists k, own. split_and!; [done | done |]. intros v. right. split; [lia | done].
  - assert (Hone : exists k1 own1, (if Z.land (sh_flags (section sections i m)) shf_alloc =? 0 then mret k
        else map_section (to_virt root) (section sections i m) k) = Ret k1 /\ space_ok own1 root k1 /\
        (3 * total_pages n sections (i + 1) m <= length (fa_pages (paging.frames k1)))%nat /\
        forall v, (section_alloc (section sections i m) = true /\ exists e, section_maps (section sections i m) v e /\
            translate (paging.mem k1) root v = Some e) \/
          ((section_alloc (section sections i m) = true -> forall e, ~ section_maps (section sections i m) v e) /\
           translate (paging.mem k1) root v = translate (paging.mem k) root v)).
    { unfold section_alloc in *. destruct (Z.land (sh_flags (section sections i m)) shf_alloc =? 0); cbn [negb] in *.
      - exists k, own. split_and!; [done | done | lia |]. by right.
      - destruct (map_section_ok own root (section sections i m) k OK) as (k1 & own1 & E & OK1 & U & Hv); [lia |].
        exists k1, own1. assert (L := uses_length _ _ _ U). split_and!; [done | done | lia |].
        intros v. destruct (Hv v) as [H | [H1 H2]]; [left | right]; auto. }
    destruct Hone as (k1 & own1 & -> & OK1 & Hl1 & Hv1). cbn [mbind res_bind].
    destruct (IH (i + 1) own1 k1 OK1 Hl1) as (k2 & own2 & E2 & OK2 & Hv2). exists k2, own2. split_and!; [exact E2 | done |].
    intros v. destruct (Hv2 v) as [(x & e & Hx & Ha & Hm & Ht & Hlast) | [Hno Ht]].
    + left. exists x, e. split_and!; (lia || done || (intros y e' Hy; apply Hlast; lia)).
    + rewrite Ht. destruct (Hv1 v) as [(Ha & e & Hm & Ht1) | [Hno1 Ht1]].
      * left. exists i, e. split_and!; [lia | lia | done | done | done |]. intros y e' Hy. apply Hno. lia.
      * right. split; [| done]. intros x e Hx Ha. destruct (decide (x = i)) as [-> |]; [by apply Hno1 | apply Hno; [lia | done]].
Qed.
End kernel_map.

(** ** Theorems *)

(** The byte at a virtual address of an address space. *)
Definition user_byte {S} (root v : Z) (k : paging.kernel S) : option Z :=
  (fun e => read_byte (paging.mem k) (get_frame e + v mod block_size)) <$> translate (paging.mem k) root v.

Section load_lemmas.
Import elf.
Context {S : Type} `{FA : FrameAllocatorLaws S}.

Lemma n_pages_bound sz : 0 < sz < 2 ^ 48 ->
  let n := Z.of_nat (Z.to_nat (div_ceil sz block_size)) in sz <= 4096 * n < sz + 4096.
Proof. intros Hs n. unfold n, div_ceil, block_size. wrap_lia. Qed.

(** The bits of a page of a loaded segment. *)
Lemma segment_pte_bits f p_flags :
  let e := paging.protected_entry (make_pte f rw_flags normal) (segment_flags p_flags) normal in
  present e = true /\ Z.testbit e 1 = true /\ Z.testbit e 2 = true /\ Z.testbit e 63 = (Z.land p_flags pf_x =? 0).
Proof.
  intros e. assert (Hf : forall i, 0 <= i -> Z.testbit (segment_flags p_flags) i =
    (i =? 0) || (i =? 2) || (i =? 3) && (Z.land p_flags pf_x =? 0) || (i =? 1) && negb (Z.land p_flags pf_w =? 0)).
  { intros i Hi. unfold segment_flags. 
    change map_page_flags_present with (2 ^ 0). change map_page_flags_user with (2 ^ 2).
    change map_page_flags_no_execute with (2 ^ 3). change map_page_flags_writable with (2 ^ 1).
    destruct (Z.land p_flags pf_x =? 0), (Z.land p_flags pf_w =? 0); rewrite ?Z.lor_spec, !Z.pow2_bits_eqb by lia;
      rewrite ?(Z.eqb_sym _ i); destruct (i =? 0), (i =? 1), (i =? 2), (i =? 3); done. }
  unfold e, present. rewrite !testbit_protected_entry by (lia || apply make_pte_u64).
  rewrite !Hf, !testbit_make_pte, !testbit_entry_flags, !testbit_flags_mask by lia.
  change (get_pat_flags normal) with 0. rewrite !Z.bits_0. cbn.
  destruct (Z.land p_flags pf_x =? 0), (Z.land p_flags pf_w =? 0); done.
Qed.
End load_lemmas.

(** C7: Loading a segment.  For a page-aligned segment of an existing file, with
    four free frames per page, [load_segment] succeeds; afterwards every byte of
    the segment in the thread's address space is the byte of the file, or zero
    behind the file's part, its pages are user pages, executable exactly when the
    header says so, all other pages translate as before, and memory that was in
    use by others is unchanged.  The pages stay writable whether or not the header
    asks for it. *)
Theorem load_segment_correct {S} `{FA : FrameAllocatorLaws S} (headers : vector.t Z) (fuel : nat)
    (name base data root : Z) (ph : elf.Elf64_Phdr) (i : nat) (t : process.thread) (m : bmem)
    (own : gmap Z (nat * Z)) (s : process.sys S) :
  let virt := base + elf.p_vaddr ph in
  let k := process.kern s in
  space_ok own root k -> process.threads s !! i = Some t -> process.vmm t = to_virt root ->
  (forall x, 0 <= m x < 256) ->
  initrd.file_data fuel name (elf.p_offset ph) (elf.p_filesz ph) headers m = Ret (Some data) ->
  0 <= virt -> virt mod block_size = 0 -> virt + elf.p_memsz ph + 4096 < 2 ^ 48 ->
  0 < elf.p_memsz ph -> 0 <= elf.p_filesz ph <= elf.p_memsz ph ->
  (4 * Z.to_nat (div_ceil (elf.p_memsz ph) block_size) <= length (fa_pages (paging.frames k)))%nat ->
  0 ∉ fa_pages (paging.frames k) ->
  exists s', elf.load_segment headers fuel name base (to_virt root) ph i m s = Ret (true, s') /\
    (forall o, 0 <= o < elf.p_memsz ph ->
       user_byte root (virt + o) (process.kern s') = Some (if o <? elf.p_filesz ph then m (data + o) else 0) /\
       exists e, translate (paging.mem (process.kern s')) root (virt + o) = Some e /\
         present e = true /\ Z.testbit e 2 = true /\ Z.testbit e 63 = (Z.land (elf.p_flags ph) elf.pf_x =? 0) /\
         Z.testbit e 1 = true) /\
    (forall v, (forall o, 0 <= o < elf.p_memsz ph -> vpn v <> vpn (virt + o)) ->
       translate (paging.mem (process.kern s')) root v = translate (paging.mem k) root v) /\
    (forall f, data_frame own k f -> frame_kept f k (process.kern s')).
Proof.
  intros virt k OK Ht Hvm Hm Hdata Hv Hal Hend Hsz Hfsz Hlen H0.
  set (n := Z.to_nat (div_ceil (elf.p_memsz ph) block_size)) in *.
  assert (Hn := n_pages_bound (elf.p_memsz ph) ltac:(lia)). cbv zeta in Hn. fold n in Hn.
  unfold elf.load_segment. rewrite (proj2 (Z.eqb_neq _ 0)) by lia. rewrite u64_small by (unfold is_u64; lia). fold virt n.
  destruct (map_segment_ok n own root virt i t s OK Ht Hvm Hv ltac:(lia) Hal Hlen H0) as (own1 & s1 & fs & -> & Hfs & M1).
  destruct M1 as [Hsub Sg1 Hfree Hz Ho1 Hk1 (t0 & t1 & T0 & T1 & ->) _]. rewrite Ht in T0. injection T0 as <-.
  cbn [mbind res_bind]. rewrite Hdata. cbn [mbind res_bind]. unfold copy_to_user.
  destruct (copy_ok (Z.to_nat (elf.p_filesz ph)) 0 own1 root (process.kern s1) virt fs _ data m Sg1) as (k2 & -> & Sg2 & B2 & K2 & F2 & Tr2);
    [done | done | lia | lia | lia | done |]. cbn [mbind res_bind]. rewrite T1. cbn [access mbind res_bind process.vmm process.set_frames].
  rewrite Hvm. set (fl := elf.segment_flags (elf.p_flags ph)).
  destruct (protect_ok n own1 root virt fl k2 (seg_space _ _ _ _ _ _ Sg2)) as (OK3 & P3 & O3 & D3); [done | lia |].
  set (k3 := elf.protect_segment n virt (to_virt root) fl k2) in *.
  eexists. split; [reflexivity |]. cbn [process.kern process.set_kern]. split_and!.
  - intros o Ho. assert (Hj : (Z.to_nat (o / 4096) < length fs)%nat) by wrap_lia.
    destruct (lookup_lt_is_Some_2 fs _ Hj) as [f Hf]. assert (Hin : f ∈ fs) by (by eapply list_elem_of_lookup_2).
    assert (Hp : vpn (virt + o) = vpn (virt + 4096 * Z.of_nat (Z.to_nat (o / 4096)))).
    { rewrite !vpn_small by wrap_lia. unfold block_size in *. wrap_lia. }
    assert (Htr : translate (paging.mem k3) root (virt + o) = Some (paging.protected_entry (make_pte f rw_flags normal) fl normal)).
    { rewrite (P3 (Z.to_nat (o / 4096)) _ ltac:(by rewrite <- Hfs) Hp), Tr2. by rewrite (seg_map _ _ _ _ _ _ Sg1 _ _ _ Hf Hp). }
    split.
    + unfold user_byte. rewrite Htr. cbn [fmap option_fmap option_map]. f_equal.
      rewrite protected_entry_frame by apply make_pte_u64. rewrite (seg_frame _ _ _ _ _ _ Sg1 f Hin).
      assert (Hmod : (virt + o) mod block_size = o mod 4096) by (unfold block_size in *; wrap_lia). rewrite Hmod.
      assert (Hd2 := seg_data _ _ _ _ _ _ Sg2 f Hin). destruct (D3 f Hd2) as [_ K3].
      assert (Hdf : frame_ok f) by apply Hd2.
      assert (E3 : read_byte (paging.mem k3) (f + o mod 4096) = read_byte (paging.mem k2) (f + o mod 4096)).
      { unfold read_byte. rewrite K3; [done |]. unfold frame_ok, block_size in *. wrap_lia. }
      rewrite E3. assert (E2 := B2 o ltac:(lia)). unfold seg_byte in E2. rewrite Hf in E2.
      change (default 0 (Some f)) with f in E2. rewrite E2.
      destruct (Z.ltb_spec o (elf.p_filesz ph)); [by rewrite bool_decide_true by lia | rewrite bool_decide_false by lia].
      unfold read_byte. rewrite (Hz f) by (done || (unfold frame_ok, block_size in *; wrap_lia)).
      by rewrite Z.shiftr_0_l.
    + destruct (segment_pte_bits f (elf.p_flags ph)) as (? & ? & ? & ?). eexists. split; [exact Htr |]. done.
  - intros v Hne. assert (Hv' : forall j, (j < n)%nat -> vpn v <> vpn (virt + 4096 * Z.of_nat j)).
    { intros j Hj. apply Hne. lia. }
    rewrite O3, Tr2, Ho1; [done | by rewrite Hfs | done].
  - intros f Hf. destruct (Hk1 f Hf) as [Hf1 K1].
    assert (Hfn : f ∉ fs) by (intros Hin; destruct Hf as (_ & _ & Hf); by apply Hf, Hfree).
    intros x Hx. assert (Hf2 : data_frame own1 k2 f) by (unfold data_frame in *; by rewrite F2).
    destruct (D3 f Hf2) as [_ K3]. rewrite (K3 x Hx), (K2 f Hf1 Hfn x Hx). by apply K1.
Qed.

(** The file "bc" of the example ramdisk as a segment of five bytes at 0x400000,
    of which the file has three. *)
Definition phdr_example : elf.Elf64_Phdr := elf.mk_phdr elf.pt_load 5 0 0x400000 0 3 5 0x1000.
Definition loader_example : process.sys pmm.state :=
  process.upd 1 (process.set_vmm (to_virt root_example)) sys_example.

Lemma initrd_example_bytes x : 0 <= initrd_example x < 256.
Proof.
  unfold initrd_example, mem_of. destruct (x <? 0x1000); [lia |].
  destruct (_ !! _) as [c |] eqn:E; cbn; [| lia].
  assert (H : Forall (fun c => 0 <= c < 256) (encode files_example ++ [98; 99; 0])) by by_compute.
  rewrite Forall_lookup in H. apply (H _ _ E).
Qed.

Lemma load_segment_correct_witness :
  exists s', elf.load_segment (initrd.init 0x1000 0x1000 initrd_example) 100 0x1a01 0 (to_virt root_example) phdr_example 1
      initrd_example loader_example = Ret (true, s') /\
    user_byte root_example 0x400001 (process.kern s') = Some 2 /\
    user_byte root_example 0x400004 (process.kern s') = Some 0.
Proof.
  destruct (load_segment_correct (initrd.init 0x1000 0x1000 initrd_example) 100 0x1a01 0 0x1800 root_example phdr_example 1
    (process.set_vmm (to_virt root_example) (thread_example 1 process.RUNNING)) initrd_example own_example loader_example)
    as (s' & Hs & Hb & _);
    [apply paging_example_ok | reflexivity | reflexivity | apply initrd_example_bytes | vm_compute; reflexivity
    | vm_compute; discriminate | reflexivity | reflexivity | reflexivity | split; vm_compute; discriminate
    | vm_compute; lia | by_compute |].
  assert (E1 : (if 1 <? elf.p_filesz phdr_example then initrd_example (0x1800 + 1) else 0) = 2) by (vm_compute; reflexivity).
  assert (E4 : (if 4 <? elf.p_filesz phdr_example then initrd_example (0x1800 + 4) else 0) = 0) by (vm_compute; reflexivity).
  exists s'. split; [exact Hs |]. rewrite <- E1. split.
  - apply (Hb 1). cbn. lia.
  - rewrite <- E4. apply (Hb 4). cbn. lia.
Defined.

(** Mapping the kernel.  With three free frames per page, [map_kernel]
    finishes, and every page of a section that is loaded is mapped to the physical
    address below the kernel's base, as a global kernel page that is writable
    exactly when the section is and executable exactly when it holds code (the
    last section wins where two share a page); all other pages translate as
    before. *)
Theorem map_kernel_correct {S} `{FA : FrameAllocatorLaws S} (own : gmap Z (nat * Z)) (root sections n : Z) (m : bmem)
    (k : paging.kernel S) :
  space_ok own root k -> 0 <= n ->
  (3 * total_pages (Z.to_nat n) sections 0 m <= length (fa_pages (paging.frames k)))%nat ->
  exists k', elf.map_kernel sections n (to_virt root) m k = Ret k' /\ (exists own', space_ok own' root k') /\
    forall v,
      (exists i e, 0 <= i < n /\ section_alloc (elf.section sections i m) = true /\
         section_maps (elf.section sections i m) v e /\ translate (paging.mem k') root v = Some e /\
         (forall y e', i < y < n -> section_alloc (elf.section sections y m) = true ->
            ~ section_maps (elf.section sections y m) v e') /\
         Z.testbit e 2 = false /\
         Z.testbit e 1 = negb (Z.land (elf.sh_flags (elf.section sections i m)) elf.shf_write =? 0) /\
         Z.testbit e 63 = (Z.land (elf.sh_flags (elf.section sections i m)) elf.shf_execinstr =? 0)) \/
      ((forall i e, 0 <= i < n -> section_alloc (elf.section sections i m) = true ->
          ~ section_maps (elf.section sections i m) v e) /\
       translate (paging.mem k') root v = translate (paging.mem k) root v).
Proof.
  intros OK Hn Hl. destruct (map_kernel_ok (Z.to_nat n) 0 own root sections m k OK Hl) as (k' & own' & E & OK' & Hv).
  exists k'. split_and!; [exact E | eauto |]. rewrite Z2Nat.id in Hv by lia. intros v.
  destruct (Hv v) as [(x & e & Hx & Ha & Hm & Ht & Hlast) | H]; [left | by right].
  destruct (section_maps_bits _ _ _ Hm) as (_ & ? & _ & ? & ?). exists x, e. split_and!; (lia || done).
Qed.

(** One section header at 0x2000: code of 0x10 bytes at KERNEL_VBASE + 0x1000. *)
Definition sections_example : bmem :=
  mem_of 0x2000 (replicate 8 0 ++ [6; 0; 0; 0; 0; 0; 0; 0] ++ [0; 0x10; 0; 0x80; 0xff; 0xff; 0xff; 0xff] ++ replicate 8 0 ++ [0x10]).

Lemma map_kernel_correct_witness :
  exists k', elf.map_kernel 0x2000 1 (to_virt root_example) sections_example paging_example = Ret k' /\
    exists e, translate (paging.mem k') root_example 0xffffffff80001000 = Some e /\ Z.testbit e 1 = false /\ Z.testbit e 63 = false.
Proof.
  destruct (map_kernel_correct own_example root_example 0x2000 1 sections_example paging_example) as (k' & Hk & _ & Hv);
    [apply paging_example_ok | lia | vm_compute; lia |].
  exists k'. split; [exact Hk |]. destruct (Hv 0xffffffff80001000) as [(i & e & Hi & Ha & Hm & Ht & _ & _ & Hw & Hx) | [Hno _]].
  - assert (i = 0) as -> by lia. exists e. split; [exact Ht |]. rewrite Hw, Hx. split; vm_compute; reflexivity.
  - exfalso. eapply (Hno 0); [lia | vm_compute; reflexivity |]. exists 0. split; [vm_compute; split; (discriminate || reflexivity) |].
    split; [vm_compute; reflexivity | reflexivity].
Defined.

(** The number of pages is computed from the size alone: a segment that starts
    two bytes before a page boundary and is five bytes long gets one page, and
    copying its third byte faults. *)
Lemma load_segment_unaligned :
  elf.load_segment (initrd.init 0x1000 0x1000 initrd_example) 100 0x1a01 0 (to_virt root_example)
    (elf.mk_phdr elf.pt_load 5 0 0x400ffe 0 3 5 0x1000) 1 initrd_example loader_example = Panic "Page fault".
Proof. vm_compute. reflexivity. Qed.
