(* ===== verification/Boot.v ===== *)
(** * Boot: the address space of the kernel

    Models the part of source/kernel_main.cpp that builds the address space the
    kernel runs in: the window at KERNEL_VBASE, the map of the physical memory, the
    sections of the kernel (Elf.v) and, once the heap is there, the ramdisk.

    The other calls of [kernel_main] are modelled in their files. *)

From S2P Require Import Prelude Bits Klibc Frames Pmm Paging Initrd Ipc Process Fields Elf.

Module boot.
Definition window_pages : nat := Z.to_nat (1024 * 20).

(** The flags of everything but the sections of the kernel, and of the ramdisk. *)
Definition boot_flags : Z :=
  Z.lor (Z.lor (Z.lor map_page_flags_present map_page_flags_writable) map_page_flags_global) map_page_flags_no_execute.
Definition initrd_flags : Z := Z.lor (Z.lor map_page_flags_present map_page_flags_global) map_page_flags_no_execute.

Section maps.
Context {S : Type} `{FA : FrameAllocator S}.

(** The loop over [virt_start] and [phys_start]. *)
Definition map_window (info : Z) (k : paging.kernel S) : res (paging.kernel S) :=
  '(_, _, k) ← for_loop window_pages 0 (fun _ '(phys_start, virt_start, k) =>
    k ← paging.map_page info phys_start virt_start boot_flags normal k;
    mret (u64 (phys_start + 0x1000), u64 (virt_start + 0x1000), k)) (0, KERNEL_VBASE, k);
  mret k.

(** The pages from [bottom] to [top] of an entry, which are aligned: the loop runs
    [(top - bottom) / block_size] times. *)
Definition entry_bottom (e : pmm.mmap_entry) : Z := ALIGN_DOWN (pmm.m_addr e) block_size.
Definition entry_top (e : pmm.mmap_entry) : Z := ALIGN_UP (u64 (pmm.m_addr e + pmm.m_len e)) block_size.
Definition entry_pages (e : pmm.mmap_entry) : nat := Z.to_nat ((entry_top e - entry_bottom e) / block_size).

Definition map_entry (info : Z) (e : pmm.mmap_entry) (k : paging.kernel S) : res (paging.kernel S) :=
  for_loop (entry_pages e) 0 (fun i k =>
    let bottom := entry_bottom e + i * block_size in
    paging.map_page info bottom (u64 (bottom + KERNEL_PHYSICAL_VIRTUAL_MAPPING_BASE)) boot_flags normal k) k.

Fixpoint map_memory (info : Z) (l : list pmm.mmap_entry) (k : paging.kernel S) : res (paging.kernel S) :=
  match l with
  | [] => mret k
  | e :: l =>
      k ← (if pmm.m_type e =? pmm.MULTIBOOT_MEMORY_AVAILABLE then map_entry info e k else mret k);
      map_memory info l k
  end.

(** Everything that is mapped before the address space is used. *)
Definition early_maps (info : Z) (l : list pmm.mmap_entry) (sections n : Z) (m : bmem) (k : paging.kernel S) : res (paging.kernel S) :=
  k ← map_window info k;
  k ← map_memory info l k;
  elf.map_kernel sections n info m k.

Definition map_initrd (info ptr size : Z) (k : paging.kernel S) : res (paging.kernel S) :=
  for_loop (Z.to_nat (div_ceil size block_size)) 0 (fun j k =>
    let i := j * block_size in
    paging.map_page info (u64 (ptr + i)) (u64 (ptr + KERNEL_PHYSICAL_VIRTUAL_MAPPING_BASE + i)) initrd_flags normal k) k.
End maps.
End boot.

(** ** Lemmas *)

(** Pages in the half of the kernel. *)
Lemma vpn_kernel a : KERNEL_PHYSICAL_VIRTUAL_MAPPING_BASE <= a < 2 ^ 64 -> vpn a = a / 4096 - (2 ^ 52 - 2 ^ 36).
Proof.
  unfold KERNEL_PHYSICAL_VIRTUAL_MAPPING_BASE, vpn. intros H.
  assert (E : a / 4096 = (a / 4096 - (2 ^ 52 - 2 ^ 36)) + (2 ^ 16 - 1) * 2 ^ 36) by lia. rewrite E at 1.
  rewrite Z.mod_add by lia. apply Z.mod_small. Z.to_euclidean_division_equations. lia.
Qed.

(** Different pages have different numbers. *)
Lemma vpn_kernel_inj a b :
  KERNEL_PHYSICAL_VIRTUAL_MAPPING_BASE <= a < 2 ^ 64 -> KERNEL_PHYSICAL_VIRTUAL_MAPPING_BASE <= b < 2 ^ 64 ->
  a mod 4096 = 0 -> b mod 4096 = 0 -> vpn a = vpn b -> a = b.
Proof. intros Ha Hb H1 H2. rewrite !vpn_kernel by done. Z.to_euclidean_division_equations. lia. Qed.

Section boot_lemmas.
Context {S : Type} `{FA : FrameAllocatorLaws S}.
Implicit Types (k : paging.kernel S) (own : gmap Z (nat * Z)).

Lemma for_loop_same {A} (f g : Z -> A -> res A) n i s : (forall j s, f j s = g j s) -> for_loop n i f s = for_loop n i g s.
Proof.
  intros H. revert i s. induction n as [| n IH]; intros i s; [done |]. cbn [for_loop]. rewrite H. by destruct (g i s); cbn [mbind res_bind].
Qed.

(** The window as an indexed loop. *)
Lemma window_loop n i info phys virt k :
  0 <= phys -> phys + Z.of_nat n * 0x1000 < 2 ^ 64 -> 0 <= virt -> virt + Z.of_nat n * 0x1000 < 2 ^ 64 ->
  for_loop n i (fun _ '(p, v, k) => k ← paging.map_page info p v boot.boot_flags normal k; mret (u64 (p + 0x1000), u64 (v + 0x1000), k)) (phys, virt, k) =
  (k ← for_loop n i (fun j k => paging.map_page info (phys + (j - i) * 0x1000) (virt + (j - i) * 0x1000) boot.boot_flags normal k) k;
   mret (phys + Z.of_nat n * 0x1000, virt + Z.of_nat n * 0x1000, k)).
Proof.
  revert i phys virt k. induction n as [| n IH]; intros i phys virt k Hp Hp' Hv Hv'; cbn [for_loop].
  - cbn. by rewrite !Z.add_0_r.
  - rewrite Z.sub_diag, !Z.mul_0_l, !Z.add_0_r. destruct (paging.map_page info phys virt _ _ k) as [k1 | | |]; try done. cbn [mbind res_bind mret res_ret].
    rewrite !u64_small by (unfold is_u64; lia). rewrite IH by lia.
    replace (for_loop n (i + 1) (fun j k => paging.map_page info (phys + 0x1000 + (j - (i + 1)) * 0x1000) (virt + 0x1000 + (j - (i + 1)) * 0x1000) boot.boot_flags normal k) k1)
      with (for_loop n (i + 1) (fun j k => paging.map_page info (phys + (j - i) * 0x1000) (virt + (j - i) * 0x1000) boot.boot_flags normal k) k1).
    2: { apply for_loop_same. intros j k2. f_equal; lia. }
    destruct (for_loop n (i + 1) _ k1) as [k2 | | |]; cbn [mbind res_bind mret res_ret]; try done.
    assert (Ep : phys + 0x1000 + Z.of_nat n * 0x1000 = phys + Z.of_nat (Datatypes.S n) * 0x1000) by lia.
    assert (Ev : virt + 0x1000 + Z.of_nat n * 0x1000 = virt + Z.of_nat (Datatypes.S n) * 0x1000) by lia. by rewrite Ep, Ev.
Qed.

Lemma map_window_ok own root k :
  space_ok own root k -> (3 * boot.window_pages <= length (fa_pages (paging.frames k)))%nat ->
  exists k' own', boot.map_window (to_virt root) k = Ret k' /\ space_ok own' root k' /\ uses (3 * boot.window_pages) k k' /\
    forall v,
      (exists j, 0 <= j < 20480 /\ vpn v = vpn (KERNEL_VBASE + j * 4096) /\
         translate (paging.mem k') root v = Some (make_pte (j * 4096) boot.boot_flags normal)) \/
      ((forall j, 0 <= j < 20480 -> vpn v <> vpn (KERNEL_VBASE + j * 4096)) /\
       translate (paging.mem k') root v = translate (paging.mem k) root v).
Proof.
  intros OK Hl. unfold boot.map_window. assert (Hw : Z.of_nat boot.window_pages = 20480) by reflexivity.
  rewrite window_loop by (unfold KERNEL_VBASE; lia).
  destruct (map_loop_ok boot.window_pages 0 (fun j => 0 + (j - 0) * 0x1000) (fun j => KERNEL_VBASE + (j - 0) * 0x1000) boot.boot_flags normal
    own root k OK Hl eq_refl) as (k' & own' & E & OK' & U & Hv).
  rewrite E. cbn [mbind res_bind mret res_ret]. exists k', own'. split_and!; [done | done | done |].
  intros v. destruct (Hv v) as [(j & Hj & Hjv & Ht) | [Hno Ht]]; [left | right].
  - exists j. rewrite Z.add_0_l, Z.sub_0_r in *. split_and!; [lia | lia | done | done].
  - split; [| done]. intros j Hj. specialize (Hno j). rewrite Z.sub_0_r in Hno. apply Hno. lia.
Qed.

(** The entries of the memory map that are mapped. *)
Definition available (e : pmm.mmap_entry) : Prop := pmm.m_type e = pmm.MULTIBOOT_MEMORY_AVAILABLE.
Definition entry_ok (e : pmm.mmap_entry) : Prop :=
  0 <= pmm.m_addr e /\ 0 <= pmm.m_len e /\ pmm.m_addr e + pmm.m_len e <= 2 ^ 46.

(** A page of physical memory that an entry has a byte of. *)
Definition in_entry (p : Z) (e : pmm.mmap_entry) : Prop := p mod 4096 = 0 /\ boot.entry_bottom e <= p < boot.entry_top e.

Definition memory_pages (l : list pmm.mmap_entry) : nat :=
  foldr (fun e n => ((if Z.eqb (pmm.m_type e) pmm.MULTIBOOT_MEMORY_AVAILABLE then boot.entry_pages e else 0) + n)%nat) 0%nat l.

Definition map_virt (p : Z) : Z := p + KERNEL_PHYSICAL_VIRTUAL_MAPPING_BASE.

Lemma entry_bounds e : entry_ok e -> 0 <= boot.entry_bottom e /\ boot.entry_bottom e mod 4096 = 0 /\ boot.entry_top e mod 4096 = 0 /\
  boot.entry_top e <= 2 ^ 46 /\ boot.entry_bottom e <= pmm.m_addr e /\ pmm.m_addr e + pmm.m_len e <= boot.entry_top e.
Proof.
  intros (H1 & H2 & H3). unfold boot.entry_bottom, boot.entry_top. rewrite u64_small by (unfold is_u64; lia). unfold block_size. change 0x1000 with (2 ^ 12).
  rewrite ALIGN_DOWN_pow2 by (unfold is_u64; lia). change (2 ^ 12) with 4096.
  destruct (ALIGN_UP_pow2 (pmm.m_addr e + pmm.m_len e) 12) as [Hu Hm]; [lia | lia | lia |]. change (2 ^ 12) with 4096 in *.
  pose proof (Z.mod_pos_bound (pmm.m_addr e) 4096). split_and!; [| | done | | lia | lia]; Z.to_euclidean_division_equations; lia.
Qed.

Lemma map_entry_ok e own root k :
  entry_ok e -> space_ok own root k -> (3 * boot.entry_pages e <= length (fa_pages (paging.frames k)))%nat ->
  exists k' own', boot.map_entry (to_virt root) e k = Ret k' /\ space_ok own' root k' /\ uses (3 * boot.entry_pages e) k k' /\
    forall v,
      (exists p, in_entry p e /\ vpn v = vpn (map_virt p) /\ translate (paging.mem k') root v = Some (make_pte p boot.boot_flags normal)) \/
      ((forall p, in_entry p e -> vpn v <> vpn (map_virt p)) /\ translate (paging.mem k') root v = translate (paging.mem k) root v).
Proof.
  intros He OK Hl. destruct (entry_bounds e He) as (B1 & B2 & B3 & B4 & B5 & B6).
  destruct (map_loop_ok (boot.entry_pages e) 0 (fun j => boot.entry_bottom e + j * block_size)
    (fun j => u64 (boot.entry_bottom e + j * block_size + KERNEL_PHYSICAL_VIRTUAL_MAPPING_BASE)) boot.boot_flags normal
    own root k OK Hl eq_refl) as (k' & own' & E & OK' & U & Hv).
  exists k', own'. split_and!; [exact E | done | done |].
  assert (Hn : forall j, 0 <= j < 0 + Z.of_nat (boot.entry_pages e) -> boot.entry_bottom e + j * 4096 < boot.entry_top e).
  { intros j Hj. unfold boot.entry_pages, block_size in Hj. Z.to_euclidean_division_equations. lia. }
  assert (Hu : forall j, 0 <= j < 0 + Z.of_nat (boot.entry_pages e) -> u64 (boot.entry_bottom e + j * block_size + KERNEL_PHYSICAL_VIRTUAL_MAPPING_BASE) =
    map_virt (boot.entry_bottom e + j * 4096)).
  { intros j Hj. specialize (Hn j Hj). apply u64_small. unfold is_u64, map_virt, KERNEL_PHYSICAL_VIRTUAL_MAPPING_BASE. lia. }
  intros v. destruct (Hv v) as [(j & Hj & Hjv & Ht) | [Hno Ht]].
  - left. exists (boot.entry_bottom e + j * 4096). rewrite (Hu j Hj) in Hjv. specialize (Hn j Hj). split_and!; [| done | done].
    split; [| lia]. rewrite Z.mod_add by lia. done.
  - right. split; [| done]. intros p [Hp1 Hp2] E2.
    assert (Hj : 0 <= (p - boot.entry_bottom e) / 4096 < 0 + Z.of_nat (boot.entry_pages e)).
    { unfold boot.entry_pages, block_size. Z.to_euclidean_division_equations. lia. }
    apply (Hno _ Hj). rewrite (Hu _ Hj), E2. f_equal. f_equal. Z.to_euclidean_division_equations. lia.
Qed.

Lemma map_memory_ok l own root k :
  Forall (fun e => available e -> entry_ok e) l -> space_ok own root k -> (3 * memory_pages l <= length (fa_pages (paging.frames k)))%nat ->
  exists k' own', boot.map_memory (to_virt root) l k = Ret k' /\ space_ok own' root k' /\ uses (3 * memory_pages l) k k' /\
    forall v,
      (exists e p, e ∈ l /\ available e /\ in_entry p e /\ vpn v = vpn (map_virt p) /\
         translate (paging.mem k') root v = Some (make_pte p boot.boot_flags normal)) \/
      ((forall e p, e ∈ l -> available e -> in_entry p e -> vpn v <> vpn (map_virt p)) /\
       translate (paging.mem k') root v = translate (paging.mem k) root v).
Proof.
  intros Hf. revert own k. induction Hf as [| e l He Hf IH]; intros own k OK Hl; cbn [boot.map_memory memory_pages foldr] in *.
  - exists k, own. split_and!; [done | done | by exists [] |]. intros v. right. split; [| done]. by intros e p ?%not_elem_of_nil.
  - destruct (Z.eqb_spec (pmm.m_type e) pmm.MULTIBOOT_MEMORY_AVAILABLE) as [Ha | Ha].
    + destruct (map_entry_ok e own root k (He Ha) OK) as (k1 & own1 & -> & OK1 & U1 & Hv1); [lia |]. cbn [mbind res_bind].
      assert (L1 := uses_length _ _ _ U1). destruct (IH own1 k1 OK1) as (k2 & own2 & -> & OK2 & U2 & Hv2); [unfold memory_pages; lia |].
      exists k2, own2. split_and!; [done | done | rewrite Nat.mul_add_distr_l; by eapply uses_trans |].
      intros v. destruct (Hv2 v) as [(e2 & p & Hin & H2) | [Hno Ht]].
      * left. exists e2, p. split; [by constructor | done].
      * rewrite Ht. destruct (Hv1 v) as [(p & Hp & Hpv & Hpt) | [Hno1 Ht1]].
        -- left. exists e, p. split_and!; [constructor | done..].
        -- right. split; [| done]. intros e2 p [-> | Hin]%elem_of_cons Ha2 Hp2; [by apply Hno1 | by eapply Hno].
    + cbn [mbind res_bind mret res_ret]. destruct (IH own k OK Hl) as (k2 & own2 & -> & OK2 & U2 & Hv2).
      exists k2, own2. split_and!; [done | done | exact U2 |]. intros v. destruct (Hv2 v) as [(e2 & p & Hin & H2) | [Hno Ht]].
      * left. exists e2, p. split; [by constructor | done].
      * right. split; [| done]. intros e2 p [-> | Hin]%elem_of_cons Ha2 Hp2; [done | by eapply Hno].
Qed.
End boot_lemmas.

(** ** Theorems *)

(** Page [v] is page [j] of a section, and belongs to a section that is loaded. *)
Definition page_of (h : elf.Elf64_Shdr) (j v : Z) : Prop :=
  0 <= j < Z.of_nat (section_pages h) /\ vpn v = vpn (elf.sh_addr h + j * 4096).
Definition in_section (sections n : Z) (m : bmem) (v : Z) : Prop :=
  exists i j, 0 <= i < n /\ section_alloc (elf.section sections i m) = true /\ page_of (elf.section sections i m) j v.

(** The sections are linked to addresses from KERNEL_VBASE on. *)
Definition linked_high (sections n : Z) (m : bmem) : Prop :=
  forall i, 0 <= i < n -> section_alloc (elf.section sections i m) = true ->
    KERNEL_VBASE <= elf.sh_addr (elf.section sections i m) /\ 0 <= elf.sh_size (elf.section sections i m) /\
    elf.sh_addr (elf.section sections i m) + elf.sh_size (elf.section sections i m) <= 2 ^ 64 - 4096.

Lemma page_of_maps h v : KERNEL_VBASE <= elf.sh_addr h -> 0 <= elf.sh_size h -> elf.sh_addr h + elf.sh_size h <= 2 ^ 64 - 4096 ->
  (forall j, page_of h j v -> section_maps h v (make_pte (elf.sh_addr h + j * 4096 - KERNEL_VBASE) (elf.section_flags (elf.sh_flags h)) normal)) /\
  (forall j e, page_of h j v -> section_maps h v e -> e = make_pte (elf.sh_addr h + j * 4096 - KERNEL_VBASE) (elf.section_flags (elf.sh_flags h)) normal) /\
  (forall e, section_maps h v e -> exists j, page_of h j v).
Proof.
  unfold KERNEL_VBASE, block_size. intros H1 H0 H2.
  assert (Hu : forall j, 0 <= j < Z.of_nat (section_pages h) -> KERNEL_VBASE <= elf.sh_addr h + j * 4096 < 2 ^ 64 /\
      u64 (elf.sh_addr h + j * block_size) = elf.sh_addr h + j * 4096 /\
      u64 (elf.sh_addr h + j * 4096 - KERNEL_VBASE) = elf.sh_addr h + j * 4096 - KERNEL_VBASE).
  { intros j Hj. unfold section_pages, block_size in *. rewrite Z2Nat.id in Hj by (apply Z.div_pos; lia).
    assert (elf.sh_addr h + j * 4096 < 2 ^ 64) by (Z.to_euclidean_division_equations; lia). unfold KERNEL_VBASE. rewrite !u64_small by (unfold is_u64; lia). lia. }
  split_and!.
  - intros j [Hj Hv]. exists j. destruct (Hu j Hj) as (_ & E1 & E2). rewrite E1, E2. done.
  - intros j e [Hj Hv] (j' & Hj' & Hv' & ->). destruct (Hu j Hj) as (B & _ & _), (Hu j' Hj') as (B' & E1 & E2). rewrite E1 in Hv' |- *. rewrite E2.
    rewrite Hv in Hv'. rewrite !vpn_kernel in Hv' by (unfold KERNEL_PHYSICAL_VIRTUAL_MAPPING_BASE, KERNEL_VBASE in *; lia).
    assert (j = j') as -> by (Z.to_euclidean_division_equations; lia). done.
  - intros e (j & Hj & Hv & _). destruct (Hu j Hj) as (_ & E1 & _). rewrite E1 in Hv. by exists j.
Qed.

Lemma boot_flags_bits p : let e := make_pte p boot.boot_flags normal in
  Z.testbit e 0 = true /\ Z.testbit e 1 = true /\ Z.testbit e 2 = false /\ Z.testbit e 63 = true.
Proof.
  cbv zeta. rewrite !testbit_make_pte, !testbit_entry_flags, !testbit_flags_mask by lia. cbn. rewrite ?andb_false_r. done.
Qed.


(** The ramdisk, which the boot loader puts on a page boundary, is mapped read-only:
    every byte of it translates to its own frame, and no page outside of it changes. *)
Theorem initrd_mapped {S} `{FA : FrameAllocatorLaws S} (own : gmap Z (nat * Z)) (root ptr size : Z) (k : paging.kernel S) :
  space_ok own root k -> 0 <= ptr -> ptr mod 4096 = 0 -> 0 <= size -> ptr + size <= 2 ^ 46 ->
  (3 * Z.to_nat (div_ceil size block_size) <= length (fa_pages (paging.frames k)))%nat ->
  exists k', boot.map_initrd (to_virt root) ptr size k = Ret k' /\ (exists own', space_ok own' root k') /\
    (forall i, 0 <= i < size ->
       translate (paging.mem k') root (map_virt (ptr + i)) = Some (make_pte (ptr + i - i mod 4096) boot.initrd_flags normal) /\
       Z.testbit (make_pte (ptr + i - i mod 4096) boot.initrd_flags normal) 1 = false) /\
    (forall v, (forall i, 0 <= i < size -> vpn v <> vpn (map_virt (ptr + i))) ->
       translate (paging.mem k') root v = translate (paging.mem k) root v).
Proof.
  intros OK Hp Hal Hs Hb Hl. set (n := div_ceil size block_size) in *.
  assert (Hn : 0 <= n /\ size <= n * 4096 < size + 4096) by (unfold n, div_ceil, block_size; wrap_lia).
  destruct (map_loop_ok (Z.to_nat n) 0 (fun j => u64 (ptr + j * block_size)) (fun j => u64 (ptr + KERNEL_PHYSICAL_VIRTUAL_MAPPING_BASE + j * block_size))
    boot.initrd_flags normal own root k OK Hl eq_refl) as (k' & own' & E & OK' & _ & Hv). rewrite Z2Nat.id, Z.add_0_l in Hv by lia.
  assert (Hu : forall j, 0 <= j < n -> u64 (ptr + j * block_size) = ptr + j * 4096 /\
    u64 (ptr + KERNEL_PHYSICAL_VIRTUAL_MAPPING_BASE + j * block_size) = map_virt (ptr + j * 4096)).
  { intros j Hj. unfold map_virt. split; (rewrite u64_small; [unfold block_size; lia |]); unfold is_u64, KERNEL_PHYSICAL_VIRTUAL_MAPPING_BASE, block_size; lia. }
  assert (Hpage : forall i j, 0 <= i < size -> 0 <= j < n -> vpn (map_virt (ptr + i)) = vpn (map_virt (ptr + j * 4096)) <-> j = i / 4096).
  { intros i j Hi Hj. unfold map_virt. rewrite !vpn_kernel by (unfold KERNEL_PHYSICAL_VIRTUAL_MAPPING_BASE; lia).
    unfold KERNEL_PHYSICAL_VIRTUAL_MAPPING_BASE. Z.to_euclidean_division_equations. lia. }
  exists k'. split_and!; [exact E | by exists own' | |].
  - intros i Hi. assert (Hd : 0 <= i / 4096 < n) by (split; [apply Z.div_pos; lia | apply Z.div_lt_upper_bound; lia]). split.
    + destruct (Hv (map_virt (ptr + i))) as [(j & Hj & Hjv & ->) | [Hno _]].
      * destruct (Hu j Hj) as [E1 E2]. rewrite E2 in Hjv. apply Hpage in Hjv as ->; [| done | done]. rewrite E1. do 2 f_equal.
        pose proof (Z.div_mod i 4096). lia.
      * exfalso. apply (Hno (i / 4096) Hd). destruct (Hu (i / 4096) Hd) as [_ ->]. by apply Hpage.
    + rewrite testbit_make_pte, testbit_entry_flags, testbit_flags_mask by lia. cbn. by rewrite ?andb_false_r.
  - intros v Hno. destruct (Hv v) as [(j & Hj & Hjv & _) | [_ Ht]]; [| done]. destruct (Hu j Hj) as [_ E2]. rewrite E2 in Hjv.
    exfalso. apply (Hno (j * 4096)); [lia | done].
Qed.

(** ** Witnesses *)

(** A machine with 100000 free frames. *)
Definition boot_example : paging.kernel pmm.state :=
  paging.mk (pmm.mk ([pmm.mk_entry 0x1000000 100000] ++ replicate 6 (pmm.mk_entry 0 0)) 1) (fun _ => 0).

Lemma boot_example_pages : fa_pages (paging.frames boot_example) = pmm.pages (pmm.mk_entry 0x1000000 100000).
Proof.
  change (pmm.pages (pmm.mk_entry 0x1000000 100000) ++ [] = pmm.pages (pmm.mk_entry 0x1000000 100000)). apply app_nil_r.
Qed.

Lemma boot_example_length : length (fa_pages (paging.frames boot_example)) = Z.to_nat 100000.
Proof. rewrite boot_example_pages. unfold pmm.pages. by rewrite length_fmap, length_seqZ. Qed.

Lemma boot_example_ok : space_ok own_example root_example boot_example.
Proof.
  assert (Hf : forall f, f ∈ fa_pages (paging.frames boot_example) -> 0x1000000 <= f < 0x1000000 + 100000 * 4096 /\ f mod 4096 = 0).
  { rewrite boot_example_pages. intros f (i & -> & Hi)%list_elem_of_fmap. apply elem_of_seqZ in Hi. cbn [pmm.base pmm.n_pages] in *.
    unfold block_size. split; [lia |]. Z.to_euclidean_division_equations. lia. }
  constructor; [constructor | ..].
  - unfold own_example. intros f n p [<- _]%lookup_singleton_Some. split; [by_compute |]. intros H. apply Hf in H. unfold root_example in H. lia.
  - done.
  - intros a. apply is_u64_0.
  - done.
  - change (pmm.wf (paging.frames boot_example)). by_compute.
  - rewrite boot_example_pages. apply NoDup_fmap_2; [| apply NoDup_seqZ]. intros i j E. unfold block_size in E. cbn [pmm.base] in E. lia.
  - apply Forall_forall. intros f [H1 H2]%Hf. unfold frame_ok. split; [lia | exact H2].
Qed.

(** 2 MB of memory, of which the second half is in use, and one section of code. *)
Definition mmap_example : list pmm.mmap_entry := [pmm.mk_mmap 0 0x100000 1; pmm.mk_mmap 0x100000 0x100000 2].


Lemma initrd_mapped_witness :
  exists k', boot.map_initrd (to_virt root_example) 0x5000 0x1800 paging_example = Ret k' /\
    translate (paging.mem k') root_example (map_virt 0x6700) = Some (make_pte 0x6000 boot.initrd_flags normal).
Proof.
  destruct (initrd_mapped own_example root_example 0x5000 0x1800 paging_example) as (k' & E & _ & Ht & _);
    [apply paging_example_ok | lia | reflexivity | lia | vm_compute; discriminate | vm_compute; lia |].
  exists k'. split; [exact E |]. apply (Ht 0x1700). lia.
Defined.

(** The number of pages is computed from the size alone: a ramdisk that starts in the
    middle of a page loses its end. *)
Example initrd_unaligned :
  match boot.map_initrd (to_virt root_example) 0x5800 0x1000 paging_example with
  | Ret k' => translate (paging.mem k') root_example (map_virt 0x6400) = None
  | _ => False
  end.
Proof. vm_compute. reflexivity. Qed.
