(* ===== verification/Vfs.v ===== *)
(** * Vfs: the virtual file system server

    Models zeta/source/vfs.cpp and zeta/include/Zeta/vfs.h, the user-space server
    that resolves paths, mount points and file descriptors.  Paths are lists of
    characters; the vector iterators of [make_path_absolute] are positions in the
    list of parts, and going past the end is undefined.  The operations of the
    mounted file systems are arguments. *)

From S2P Require Import Prelude.
From Stdlib Require Import Ascii.

Definition path := list ascii.
Definition path_separator : ascii := "/"%char.
Definition root_char : ascii := "/"%char.
Definition str (s : string) : path := String.list_ascii_of_string s.

Module vfs.

(** ** Paths *)

(** The characters up to the next separator. *)
Fixpoint next_part (l : path) : path :=
  match l with
  | [] => []
  | c :: l => if decide (c = path_separator) then [] else c :: next_part l
  end.

(** The outer loop of [split_path] looks at every position. *)
Fixpoint split_path (l : path) : list path :=
  match l with
  | [] => []
  | c :: l =>
      if decide (c = path_separator) then
        if decide (next_part l = []) then split_path l else next_part l :: split_path l
      else split_path l
  end.

(** The loop that resolves "." and "..": [it] is a position, the result of
    [parts.erase] is ignored, and [++it] runs after each round.  In the branch for
    "..", [it - 1] is the position before the erased part; [it -= 1] and [++it]
    cancel, also at the beginning. *)
Fixpoint resolve (fuel : nat) (parts : list path) (it : nat) : res (list path) :=
  match fuel with
  | O => NoFuel
  | S fuel =>
      if decide (it = length parts) then mret parts
      else
        item ← access (parts !! it);
        if decide (item = str ".") then resolve fuel (delete it parts) (S it)
        else if decide (item = str "..") then
          let parts := delete it parts in
          if decide (it = 0%nat) then resolve fuel parts 0
          else resolve fuel (delete (it - 1)%nat parts) it
        else resolve fuel parts (S it)
  end.

Fixpoint join (parts : list path) : path :=
  match parts with [] => [] | p :: parts => root_char :: p ++ join parts end.

(** [make_path_absolute] with the working directory of the thread; indexing an
    empty string is undefined. *)
Definition make_path_absolute (cwd p : path) : res path :=
  first ← access (p !! 0%nat);
  prefix ← (if decide (first = root_char) then mret []
            else
              c ← access (last cwd);
              mret (if decide (c = root_char) then cwd else cwd ++ [root_char]));
  let parts := split_path (prefix ++ p) in
  parts ← resolve (2 * length parts + 1) parts 0;
  mret (join parts).

(** ** State *)

Record fd_data := mk_fd { open_ : bool; fd : Z; node : Z; mode : Z; offset : Z }.
Definition no_fd : fd_data := mk_fd false 0 0 0 0.

Record thread_vfs_entry := mk_entry {
  tid : Z; free_fd : Z; fd_map : gmap Z fd_data; cwd : path; enabled : bool }.
Definition new_entry : thread_vfs_entry := mk_entry 0 3 ∅ [] false.

(** [thread_vfs_entry::init]. *)
Definition init (t : Z) (e : thread_vfs_entry) : thread_vfs_entry := mk_entry t (free_fd e) ∅ (cwd e) true.

(** The pointer to the [fs_calls] of a mount point: to an object of the caller, or
    to the element of [filesystems] under a name, which [register_fs] overwrites
    in place.  The field [device] of a mount point is never used. *)
Inductive fs_ref := At (calls : Z) | Registered (fs_name : string).
Record vfs_entry := mk_mount { name : path; file : Z; fs : fs_ref }.

Record t := mk { mount_list : list vfs_entry; thread_data : gmap Z thread_vfs_entry; filesystems : gmap string Z }.
Definition create : t := mk [] ∅ ∅.

(** What the pointer points to. *)
Definition deref (f : fs_ref) (v : t) : res Z :=
  match f with At calls => mret calls | Registered fs_name => access (filesystems v !! fs_name) end.

(** [thread_data[tid]] and [fd_map[fd]]: a missing key gives a new element. *)
Definition entry (i : Z) (v : t) : thread_vfs_entry := default new_entry (thread_data v !! i).
Definition set_entry (i : Z) (e : thread_vfs_entry) (v : t) : t :=
  mk (mount_list v) (<[i := e]> (thread_data v)) (filesystems v).
Definition descriptor (n : Z) (e : thread_vfs_entry) : fd_data := default no_fd (fd_map e !! n).
Definition set_descriptor (n : Z) (d : fd_data) (e : thread_vfs_entry) : thread_vfs_entry :=
  mk_entry (tid e) (free_fd e) (<[n := d]> (fd_map e)) (cwd e) (enabled e).

(** ** Mount points *)

(** [absolute[n]]: the null character behind the end. *)
Definition char_at (p : path) (n : nat) : ascii := default zero (p !! n).

Definition mount_matches (absolute : path) (m : vfs_entry) (guess_size : nat) : bool :=
  let mount_len := length (name m) in
  negb (bool_decide (length absolute < mount_len)%nat) &&
  bool_decide (take mount_len absolute = name m) &&
  ((bool_decide (char_at absolute mount_len = path_separator) || bool_decide (char_at absolute mount_len = zero) ||
    bool_decide (name m = str "/")) && bool_decide (guess_size < mount_len)%nat).

Fixpoint find_mount (l : list vfs_entry) (absolute : path) (guess : option vfs_entry) (guess_size : nat)
  : option vfs_entry * nat :=
  match l with
  | [] => (guess, guess_size)
  | m :: l =>
      if mount_matches absolute m guess_size then find_mount l absolute (Some m) (length (name m))
      else find_mount l absolute guess guess_size
  end.

(** The local path is cut out of the path as it was given; [substr] throws when
    that path is too short, and writing to [out_local_path[0]] of an empty string
    is undefined. *)
Definition local_path (p : path) (guess_size : nat) : res path :=
  l ← (if decide (1 < guess_size)%nat then
         if decide (length p < guess_size)%nat then Panic "out_of_range" else mret (drop guess_size p)
       else mret p);
  match l with
  | [] => Undef
  | c :: rest => mret (if decide (c = zero) then root_char :: rest else l)
  end.

Definition get_mountpoint (cwd p : path) (v : t) : res (option fs_ref * path) :=
  absolute ← make_path_absolute cwd p;
  let '(guess, guess_size) := find_mount (mount_list v) absolute None 0 in
  l ← local_path p guess_size;
  mret (fs <$> guess, l).

Definition mount (file_node : Z) (p : path) (calls : Z) (v : t) : res t :=
  first ← access (p !! 0%nat);
  if decide (first = root_char) then
    mret (mk (mount_list v ++ [mk_mount p file_node (At calls)]) (thread_data v) (filesystems v))
  else mret v.

Definition mount_type (file_node : Z) (p : path) (fs_type : string) (v : t) : res t :=
  first ← access (p !! 0%nat);
  if decide (first = root_char) then
    match filesystems v !! fs_type with
    | None => mret v
    | Some _ => mret (mk (mount_list v ++ [mk_mount p file_node (Registered fs_type)]) (thread_data v) (filesystems v))
    end
  else mret v.

Definition register_fs (fs_name : string) (calls : Z) (v : t) : t :=
  mk (mount_list v) (thread_data v) (<[fs_name := calls]> (filesystems v)).

(** ** Descriptors *)

Section calls.
(** The operations of the file systems and their nodes: [fs_open] returns the
    result and the node. *)
Context (fs_open : Z -> path -> Z -> Z * Z).
Context (node_read node_write : Z -> Z -> Z -> Z -> Z).
Context (node_is_file : Z -> bool) (node_length : Z -> Z).

(** Constants of the C library. *)
Context (O_WRONLY SEEK_CUR SEEK_END SEEK_SET : Z).

(** [open] of a thread whose entry is enabled. *)
Definition open_enabled (i : Z) (p : path) (md : Z) (v : t) : res (Z * t) :=
  let e := entry i v in
  '(point, local) ← get_mountpoint (cwd e) p v;
  match point with
  | None => mret (-1, v)
  | Some point =>
      calls ← deref point v;
      let '(r, real_node) := fs_open calls local md in
      if r =? -1 then mret (-1, v)
      else
        let n := free_fd e in
        let e := mk_entry (tid e) (n + 1) (<[n := mk_fd true n real_node md 0]> (fd_map e)) (cwd e) (enabled e) in
        mret (n, set_entry i e v)
  end.

(** [close] and [dup2] of a thread whose entry is enabled; [calls.close] of a node
    has no effect here. *)
Definition close_enabled (i n : Z) (v : t) : t :=
  let e := entry i v in
  let d := descriptor n e in
  if open_ d then set_entry i (set_descriptor n (mk_fd false (fd d) (node d) (mode d) (offset d)) e) v else v.

Definition dup2_enabled (i oldfd newfd : Z) (v : t) : Z * t :=
  let e := entry i v in
  if negb (open_ (descriptor oldfd e)) then (-1, v)
  else if oldfd =? newfd then (newfd, v)
  else
    let v := if open_ (descriptor newfd e) then close_enabled i newfd v else v in
    let e := entry i v in
    let d := descriptor oldfd e in
    (newfd, set_entry i (set_descriptor newfd (mk_fd (open_ d) newfd (node d) (mode d) (offset d)) e) v).

(** [get_thread_entry]: a new thread gets its standard output and error. *)
Definition get_thread_entry (i : Z) (v : t) : res t :=
  if enabled (entry i v) then mret v
  else
    let v := set_entry i (init i (entry i v)) v in
    '(n, v) ← open_enabled i (str "/dev/stdout") O_WRONLY v;
    let v := (dup2_enabled i n 1 v).2 in
    '(n, v) ← open_enabled i (str "/dev/stderr") O_WRONLY v;
    mret (dup2_enabled i n 2 v).2.

Definition open (i : Z) (p : path) (md : Z) (v : t) : res (Z * t) :=
  v ← get_thread_entry i v; open_enabled i p md v.

Definition read (i n buf count : Z) (v : t) : res (Z * t) :=
  v ← get_thread_entry i v;
  let d := descriptor n (entry i v) in
  mret (if open_ d then node_read (node d) buf count (offset d) else -1, v).

Definition write (i n buf count : Z) (v : t) : res (Z * t) :=
  v ← get_thread_entry i v;
  let d := descriptor n (entry i v) in
  mret (if open_ d then node_write (node d) buf count (offset d) else -1, v).

(** [seek] returns 0 always; the second result is the reference argument [ret]. *)
Definition seek (i n off whence ret : Z) (v : t) : Z * Z * t :=
  let e := entry i v in
  let d := descriptor n e in
  if open_ d && node_is_file (node d) then
    let set o := set_entry i (set_descriptor n (mk_fd (open_ d) (fd d) (node d) (mode d) o) e) v in
    if whence =? SEEK_SET then (0, off, set off)
    else if whence =? SEEK_CUR then (0, offset d, v)
    else if whence =? SEEK_END then (0, node_length (node d), set (node_length (node d)))
    else (0, ret, v)
  else (0, ret, v).

Definition tell (i n : Z) (v : t) : Z :=
  let d := descriptor n (entry i v) in if open_ d then offset d else u64_max.

Definition dup2 (i oldfd newfd : Z) (v : t) : res (Z * t) :=
  v ← get_thread_entry i v; mret (dup2_enabled i oldfd newfd v).

Definition close (i n : Z) (v : t) : res (Z * t) :=
  v ← get_thread_entry i v; mret (0, close_enabled i n v).
End calls.
End vfs.

(** ** Lemmas: splitting and joining *)

(** A part that is neither "." nor "..". *)
Definition normal (p : path) : Prop := p <> str "." /\ p <> str "..".

(** A part of a path: not empty and without separators. *)
Definition part_ok (p : path) : Prop := p <> [] /\ path_separator ∉ p.

#[export] Instance normal_dec p : Decision (normal p).
Proof. unfold normal. apply _. Defined.
#[export] Instance part_ok_dec p : Decision (part_ok p).
Proof. unfold part_ok. apply _. Defined.

Section vfs_lemmas.
Import vfs.

Lemma next_part_app p l : path_separator ∉ p -> next_part (p ++ l) = p ++ next_part l.
Proof.
  induction p as [| c p IH]; intros H; [done |]. cbn. rewrite decide_False by (intros ->; apply H; left).
  f_equal. apply IH. intros Hin. apply H. by right.
Qed.

Lemma next_part_ok l : path_separator ∉ next_part l.
Proof. induction l as [| c l IH]; cbn; [by apply not_elem_of_nil |]. destruct (decide _); [by apply not_elem_of_nil |].
  apply not_elem_of_cons. by split. Qed.

Lemma split_path_ok l : Forall part_ok (split_path l).
Proof.
  induction l as [| c l IH]; [constructor |]. cbn. destruct (decide _); [| done].
  destruct (decide (next_part l = [])); [done |]. constructor; [| done]. split; [done | apply next_part_ok].
Qed.

Lemma split_skip p l : path_separator ∉ p -> split_path (p ++ l) = split_path l.
Proof.
  induction p as [| c p IH]; intros H; [done |]. cbn. rewrite decide_False by (intros ->; apply H; left).
  apply IH. intros Hin. apply H. by right.
Qed.

Lemma next_join parts : next_part (join parts) = [].
Proof. destruct parts; [done |]. cbn. by rewrite decide_True. Qed.

Lemma split_join parts : Forall part_ok parts -> split_path (join parts) = parts.
Proof.
  induction 1 as [| p parts [Hp1 Hp2] _ IH]; [done |]. cbn. rewrite decide_True by done.
  rewrite next_part_app, next_join, app_nil_r by done. rewrite decide_False by done. by rewrite split_skip, IH.
Qed.

(** Splitting at a separator. *)
Lemma next_part_sep l l' : next_part (l ++ path_separator :: l') = next_part l.
Proof. induction l as [| c l IH]; cbn; [by rewrite decide_True |]. destruct (decide _); [done | by rewrite IH]. Qed.

Lemma split_app l l' : split_path (l ++ path_separator :: l') = split_path l ++ split_path (path_separator :: l').
Proof.
  induction l as [| c l IH]; [done |]. cbn [app split_path]. rewrite next_part_sep.
  destruct (decide (c = path_separator)); [| done]. destruct (decide (next_part l = [])); [done |]. by rewrite IH.
Qed.

(** The loop does not stop at normal parts. *)
Lemma resolve_skip fuel pre rest :
  Forall normal pre -> resolve (length pre + fuel) (pre ++ rest) 0 = resolve fuel (pre ++ rest) (length pre).
Proof.
  intros H. assert (G : forall pre2 pre1, pre = pre1 ++ pre2 ->
    resolve (length pre2 + fuel) (pre ++ rest) (length pre1) = resolve fuel (pre ++ rest) (length pre)).
  { induction pre2 as [| x pre2 IH]; intros pre1 E; [by rewrite E, app_nil_r |].
    cbn [length Nat.add resolve]. rewrite decide_False by (rewrite E, !length_app; cbn; lia).
    assert (Hx : (pre ++ rest) !! length pre1 = Some x) by (rewrite E, <- app_assoc; by apply list_lookup_middle).
    rewrite Hx. cbn [access mbind res_bind].
    assert (Hn : normal x) by (rewrite E in H; apply Forall_app in H as [_ H]; by apply Forall_cons in H as [? _]).
    destruct Hn as [N1 N2]. rewrite decide_False, decide_False by done.
    rewrite <- (IH (pre1 ++ [x])); [| by rewrite <- app_assoc]. f_equal. rewrite length_app. cbn. lia. }
  apply (G pre []). done.
Qed.

Lemma resolve_normal fuel parts : Forall normal parts -> (length parts < fuel)%nat -> resolve fuel parts 0 = Ret parts.
Proof.
  intros H Hf. rewrite <- (app_nil_r parts) at 1. replace fuel with (length parts + (fuel - length parts))%nat by lia.
  rewrite resolve_skip by done. rewrite app_nil_r. destruct (fuel - length parts)%nat as [| k] eqn:E; [lia |].
  cbn. by rewrite decide_True.
Qed.

Lemma delete_mid {A} (l1 l2 : list A) x : delete (length l1) (l1 ++ x :: l2) = l1 ++ l2.
Proof. apply delete_middle. Qed.

(** What the loop does at the first "." and at the first "..". *)
Lemma resolve_dot fuel pre rest :
  Forall normal pre ->
  resolve (length pre + S fuel) (pre ++ str "." :: rest) 0 = resolve fuel (pre ++ rest) (S (length pre)).
Proof.
  intros H. rewrite resolve_skip by done. cbn [resolve]. rewrite decide_False by (rewrite length_app; cbn; lia).
  rewrite list_lookup_middle by done. cbn [access mbind res_bind]. rewrite decide_True by done. by rewrite delete_mid.
Qed.

Lemma resolve_dotdot fuel pre x rest :
  Forall normal (pre ++ [x]) ->
  resolve (length pre + S (S fuel)) (pre ++ x :: str ".." :: rest) 0 = resolve fuel (pre ++ rest) (S (length pre)).
Proof.
  intros H. assert (E : pre ++ x :: str ".." :: rest = (pre ++ [x]) ++ str ".." :: rest) by (by rewrite <- app_assoc).
  rewrite E. replace (length pre + S (S fuel))%nat with (length (pre ++ [x]) + S fuel)%nat by (rewrite length_app; cbn; lia).
  rewrite resolve_skip by done. cbn [resolve]. rewrite decide_False by (rewrite !length_app; cbn; lia).
  rewrite list_lookup_middle by done. cbn [access mbind res_bind]. rewrite decide_False, decide_True by done.
  rewrite delete_mid. rewrite decide_False by (rewrite length_app; cbn; lia).
  replace (length (pre ++ [x]) - 1)%nat with (length pre) by (rewrite length_app; cbn; lia).
  rewrite <- app_assoc. cbn [app]. rewrite delete_mid. rewrite length_app. cbn. by rewrite Nat.add_1_r.
Qed.

Lemma resolve_end fuel parts it : (length parts < it)%nat -> (0 < fuel)%nat -> resolve fuel parts it = Undef.
Proof.
  intros Hi Hf. destruct fuel; [lia |]. cbn. rewrite decide_False by lia. by rewrite lookup_ge_None_2 by lia.
Qed.

(** From any position on, normal parts are kept. *)
Lemma resolve_tail fuel l post :
  Forall normal post -> (length post < fuel)%nat -> resolve fuel (l ++ post) (length l) = Ret (l ++ post).
Proof.
  intros H. revert fuel l. induction H as [| x post [N1 N2] _ IH]; intros fuel l Hf; (destruct fuel as [| fuel]; [cbn in Hf; lia |]);
    cbn [resolve].
  - by rewrite app_nil_r, decide_True.
  - rewrite decide_False by (rewrite length_app; cbn; lia). rewrite list_lookup_middle by done. cbn [access mbind res_bind].
    rewrite decide_False, decide_False by done. rewrite cons_middle, app_assoc.
    replace (S (length l)) with (length (l ++ [x])) by (rewrite length_app; cbn; lia). apply IH. cbn in Hf. lia.
Qed.

(** Every path of at least one part is an absolute one. *)
Lemma absolute_join cwd parts :
  Forall part_ok parts -> parts <> [] ->
  make_path_absolute cwd (join parts) =
    (parts ← resolve (2 * length parts + 1) parts 0; mret (join parts)).
Proof.
  intros H Hne. unfold make_path_absolute. destruct parts as [| p parts]; [done |].
  replace (join (p :: parts) !! 0%nat) with (Some root_char) by done. cbn [access mbind res_bind].
  rewrite decide_True by done. rewrite bind_mret, app_nil_l, split_join by done. done.
Qed.

(** ** Lemmas: mount points *)

(** [m] is a mount point above the absolute path. *)
Definition covers (absolute : path) (m : vfs_entry) : Prop :=
  name m `prefix_of` absolute /\
  (name m = absolute \/ char_at absolute (length (name m)) = path_separator \/
   char_at absolute (length (name m)) = zero \/ name m = str "/").

Lemma mount_matches_spec absolute m g :
  mount_matches absolute m g = true <-> covers absolute m /\ (g < length (name m))%nat.
Proof.
  unfold mount_matches, covers. rewrite !andb_true_iff, !orb_true_iff, negb_true_iff, bool_decide_eq_false, !bool_decide_eq_true.
  split.
  - intros [[Hlen Htake] [Hb Hg]]. split; [| done]. split; [exists (drop (length (name m)) absolute); by rewrite <- Htake at 1; rewrite take_drop | tauto].
  - intros [[[k Hk] Hb] Hg]. rewrite Hk in *. rewrite length_app. split_and!; [lia | by rewrite take_app_length | | done].
    destruct Hb as [Hb | Hb]; [| tauto]. left; right.
    assert (k = []) as ->. { apply (f_equal length) in Hb. rewrite length_app in Hb. destruct k; [done | cbn in Hb; lia]. }
    assert (E : name m !! length (name m) = None) by (by apply lookup_ge_None_2).
    unfold char_at. by rewrite app_nil_r, E.
Qed.

(** The search keeps the longest mount point seen so far. *)
Lemma find_mount_ok l absolute guess g :
  let '(r, n) := find_mount l absolute guess g in
  (g <= n)%nat /\
  (forall m, m ∈ l -> covers absolute m -> (length (name m) <= n)%nat) /\
  ((r = guess /\ n = g) \/ exists m, r = Some m /\ m ∈ l /\ covers absolute m /\ n = length (name m) /\ (g < n)%nat).
Proof.
  revert guess g. induction l as [| m l IH]; intros guess g; cbn [find_mount].
  - split_and!; [done | set_solver | by left].
  - destruct (mount_matches absolute m g) eqn:E.
    + apply mount_matches_spec in E as [Hc Hg]. specialize (IH (Some m) (length (name m))).
      destruct (find_mount l absolute (Some m) (length (name m))) as [r n]. destruct IH as (Hn & Hmax & Hcase).
      split_and!; [lia | intros m' [-> | Hm]%elem_of_cons Hcov; [done | by apply Hmax] |].
      right. destruct Hcase as [[-> ->] | (m' & -> & Hin & Hcov & -> & Hlt)].
      * exists m. split_and!; [done | by left | done | done | lia].
      * exists m'. split_and!; [done | by right | done | done | lia].
    + specialize (IH guess g). destruct (find_mount l absolute guess g) as [r n]. destruct IH as (Hn & Hmax & Hcase).
      split_and!; [done | |].
      * intros m' [-> | Hm]%elem_of_cons Hcov; [| by apply Hmax]. destruct (decide (g < length (name m))%nat) as [Hlt |]; [| lia].
        assert (mount_matches absolute m g = true) by (by apply mount_matches_spec). congruence.
      * destruct Hcase as [? | (m' & -> & Hin & ?)]; [by left | right; exists m'; split_and!; try tauto; by right].
Qed.
End vfs_lemmas.

(** ** Theorems *)

(** Path normalisation.  A path without "." and ".." is resolved to its
    non-empty parts, each with a single separator in front; a relative path is
    resolved below the working directory; resolving the result again changes
    nothing.  A relative path while the working directory is empty, which it
    always is, is undefined behaviour. *)
Theorem path_absolute_normal (cwd p : path) :
  (p !! 0%nat = Some root_char -> Forall normal (vfs.split_path p) ->
     vfs.make_path_absolute cwd p = Ret (vfs.join (vfs.split_path p)) /\
     (vfs.split_path p <> [] ->
        vfs.make_path_absolute cwd (vfs.join (vfs.split_path p)) = Ret (vfs.join (vfs.split_path p)))) /\
  (forall c, p !! 0%nat = Some c -> c <> root_char ->
     Forall normal (vfs.split_path cwd ++ vfs.split_path (root_char :: p)) ->
     vfs.make_path_absolute cwd p =
       if decide (cwd = []) then Undef else Ret (vfs.join (vfs.split_path cwd ++ vfs.split_path (root_char :: p)))).
Proof.
  split.
  - intros Hp Hn. split.
    + unfold vfs.make_path_absolute. rewrite Hp. cbn [access mbind res_bind]. rewrite decide_True by done.
      rewrite bind_mret, app_nil_l. rewrite resolve_normal by (done || lia). done.
    + intros Hne. rewrite absolute_join by (done || apply split_path_ok). rewrite resolve_normal by (done || lia). done.
  - intros c Hp Hc Hn. unfold vfs.make_path_absolute. rewrite Hp. cbn [access mbind res_bind]. rewrite decide_False by done.
    destruct (decide (cwd = [])) as [-> | Hcwd]; [done |].
    destruct (exists_last Hcwd) as (l & x & ->). rewrite last_snoc. cbn [access mbind res_bind]. rewrite bind_mret.
    assert (E : vfs.split_path ((if decide (x = root_char) then l ++ [x] else (l ++ [x]) ++ [root_char]) ++ p) =
                vfs.split_path (l ++ [x]) ++ vfs.split_path (root_char :: p)).
    { destruct (decide (x = root_char)) as [-> |].
      - rewrite <- app_assoc. cbn [app]. change root_char with path_separator.
        rewrite (split_app l p), (split_app l []). cbn. by rewrite app_nil_r.
      - rewrite <- app_assoc. cbn [app]. apply (split_app (l ++ [x]) p). }
    match goal with |- context [vfs.resolve _ (vfs.split_path ?X) _] =>
      replace (vfs.split_path X) with (vfs.split_path (l ++ [x]) ++ vfs.split_path (root_char :: p)) by (symmetry; exact E) end.
    by rewrite resolve_normal by (done || lia).
Qed.

Lemma path_absolute_normal_witness :
  vfs.make_path_absolute [] (str "//dev///stdout/") = Ret (str "/dev/stdout").
Proof.
  destruct (path_absolute_normal [] (str "//dev///stdout/")) as [H _].
  destruct (H eq_refl ltac:(by_compute)) as [H1 _]. rewrite H1. vm_compute. reflexivity.
Defined.


(** Dots in paths.  A ".." or a "." is resolved when a normal part follows it;
    at the end of a path it makes the loop run past the end of the vector; and the
    part right behind it is never looked at, so that a second ".." or "." stays in
    the result, also when that leads out of the root. *)
Theorem path_dots (cwd x y : path) (pre post : list path) :
  Forall part_ok (pre ++ x :: y :: post) -> Forall normal (pre ++ x :: y :: post) ->
  vfs.make_path_absolute cwd (vfs.join (pre ++ x :: str ".." :: y :: post)) = Ret (vfs.join (pre ++ y :: post)) /\
  vfs.make_path_absolute cwd (vfs.join (pre ++ str "." :: y :: post)) = Ret (vfs.join (pre ++ y :: post)) /\
  vfs.make_path_absolute cwd (vfs.join (pre ++ [x; str ".."])) = Undef /\
  vfs.make_path_absolute cwd (vfs.join (pre ++ [str "."])) = Undef /\
  vfs.make_path_absolute cwd (vfs.join (pre ++ [x; str ".."; str ".."])) = Ret (vfs.join (pre ++ [str ".."])).
Proof.
  intros Hok Hn.
  assert (D1 : part_ok (str ".")) by (split; [done | by_compute]).
  assert (D2 : part_ok (str "..")) by (split; [done | by_compute]).
  apply Forall_app in Hok as [Opre Ok2]. apply Forall_cons in Ok2 as [Ox Ok2]. apply Forall_cons in Ok2 as [Oy Opost].
  apply Forall_app in Hn as [Npre Nn2]. apply Forall_cons in Nn2 as [Nx Nn2]. apply Forall_cons in Nn2 as [Ny Npost].
  assert (Npx : Forall normal (pre ++ [x])) by (rewrite Forall_app, Forall_singleton; done).
  assert (Hend : forall fuel q, Forall normal post -> (length post < fuel)%nat ->
            vfs.resolve fuel (pre ++ q :: post) (S (length pre)) = Ret (pre ++ q :: post)).
  { intros fuel q Hp Hf. rewrite cons_middle, app_assoc. replace (S (length pre)) with (length (pre ++ [q])) by (rewrite length_app; cbn; lia).
    by apply resolve_tail. }
  split_and!; (rewrite absolute_join; [| rewrite Forall_app, ?Forall_cons; split_and!; by (done || constructor) | by destruct pre]).
  - rewrite length_app. cbn [length].
    replace (2 * (length pre + S (S (S (length post)))) + 1)%nat
      with (length pre + S (S (length pre + 2 * length post + 5)))%nat by lia.
    rewrite resolve_dotdot by done. rewrite Hend by (done || lia). done.
  - rewrite length_app. cbn [length].
    replace (2 * (length pre + S (S (length post))) + 1)%nat with (length pre + S (length pre + 2 * length post + 4))%nat by lia.
    rewrite resolve_dot by done. rewrite Hend by (done || lia). done.
  - rewrite length_app. cbn [length]. replace (2 * (length pre + 2) + 1)%nat with (length pre + S (S (length pre + 3)))%nat by lia.
    rewrite resolve_dotdot by done. rewrite resolve_end; [done | rewrite app_nil_r; lia | lia].
  - rewrite length_app. cbn [length]. replace (2 * (length pre + 1) + 1)%nat with (length pre + S (length pre + 2))%nat by lia.
    rewrite resolve_dot by done. rewrite resolve_end; [done | rewrite app_nil_r; lia | lia].
  - rewrite length_app. cbn [length]. replace (2 * (length pre + 3) + 1)%nat with (length pre + S (S (length pre + 5)))%nat by lia.
    rewrite resolve_dotdot by done. replace (S (length pre)) with (length (pre ++ [str ".."])) by (rewrite length_app; cbn; lia).
    rewrite <- (app_nil_r (pre ++ [str ".."])) at 1. rewrite resolve_tail; [by rewrite app_nil_r | constructor | cbn; lia].
Qed.

Lemma path_dots_witness :
  vfs.make_path_absolute [] (vfs.join ([] ++ [str "a"; str ".."; str ".."])) = Ret (vfs.join ([] ++ [str ".."])).
Proof.
  apply (path_dots [] (str "a") (str "b") [] []); by_compute.
Defined.

(** Mount points.  A normalised path is served by the longest mount point
    above it, and the file system gets the rest of the path behind the mount
    point; a path that is itself a mount point other than the root has no rest,
    which is undefined behaviour; without a mount point above it there is no file
    system. *)
Theorem mountpoint_longest (v : vfs.t) (cwd p : path) :
  vfs.make_path_absolute cwd p = Ret p -> zero ∉ p ->
  match vfs.get_mountpoint cwd p v with
  | Ret (Some f, l) =>
      exists m, m ∈ vfs.mount_list v /\ vfs.fs m = f /\ covers p m /\
        (forall m', m' ∈ vfs.mount_list v -> covers p m' -> (length (vfs.name m') <= length (vfs.name m))%nat) /\
        p = (if decide (1 < length (vfs.name m))%nat then vfs.name m else []) ++ l
  | Ret (None, l) => l = p /\ forall m, m ∈ vfs.mount_list v -> covers p m -> vfs.name m = []
  | Undef => exists m, m ∈ vfs.mount_list v /\ vfs.name m = p
  | _ => False
  end.
Proof.
  intros Habs Hz. unfold vfs.get_mountpoint. rewrite Habs. cbn [mbind res_bind].
  assert (H := find_mount_ok (vfs.mount_list v) p None 0).
  destruct (vfs.find_mount (vfs.mount_list v) p None 0) as [r n]. destruct H as (_ & Hmax & Hcase).
  assert (Hp : exists c q, p = c :: q).
  { destruct p as [| c q]; [| eauto]. unfold vfs.make_path_absolute in Habs. cbn in Habs. done. }
  assert (Hloc : forall l, l <> [] -> zero ∉ l -> (match l with [] => Undef | c :: rest => mret (if decide (c = zero) then root_char :: rest else l) end) = Ret l).
  { intros [| c rest] Hl Hzl; [done |]. rewrite decide_False; [done |]. intros ->. apply Hzl. left. }
  destruct Hcase as [[-> ->] | (m & -> & Hin & [[k Hk] Hcov] & -> & Hlt)].
  - unfold vfs.local_path. rewrite decide_False by lia. rewrite bind_mret, Hloc; [| by destruct Hp as (c & q & ->) | done].
    cbn. split; [done |]. intros m Hm Hc. specialize (Hmax m Hm Hc). apply nil_length_inv. lia.
  - unfold vfs.local_path. destruct (decide (1 < length (vfs.name m))%nat) as [Hl | Hl].
    + rewrite decide_False by (rewrite Hk, length_app; lia). rewrite bind_mret, Hk, drop_app_length.
      destruct (decide (k = [])) as [-> | Hkn].
      * cbn. exists m. split; [done |]. by rewrite app_nil_r.
      * rewrite Hloc; [| done | intros Hink; apply Hz; rewrite Hk; apply elem_of_app; by right]. cbn. rewrite <- Hk. exists m.
        rewrite decide_True by done. split_and!; [done | done | split; [by exists k | done] | done | done].
    + rewrite bind_mret, Hloc; [| by destruct Hp as (c & q & ->) | done]. cbn. exists m. rewrite decide_False by done.
      split_and!; [done | done | split; [by exists k | done] | done | done].
Qed.

Definition mounts_example : vfs.t :=
  vfs.mk [vfs.mk_mount (str "/") 0 (vfs.At 1); vfs.mk_mount (str "/dev") 0 (vfs.Registered "devfs");
          vfs.mk_mount (str "/devices") 0 (vfs.At 3)] ∅ {["devfs"%string := 2]}.

Lemma mountpoint_longest_witness :
  exists m, m ∈ vfs.mount_list mounts_example /\ vfs.fs m = vfs.Registered "devfs" /\ covers (str "/dev/stdout") m.
Proof.
  assert (H := mountpoint_longest mounts_example [] (str "/dev/stdout") ltac:(vm_compute; reflexivity) ltac:(by_compute)).
  replace (vfs.get_mountpoint [] (str "/dev/stdout") mounts_example) with (Ret (Some (vfs.Registered "devfs"), str "/stdout")) in H
    by (vm_compute; reflexivity).
  destruct H as (m & H1 & H2 & H3 & _). exists m. split; [exact H1 |]. split; [exact H2 | exact H3].
Defined.

(** The descriptors of a thread: open ones have the number they are stored under,
    below the next free number. *)
Definition fd_ok (e : vfs.thread_vfs_entry) : Prop :=
  3 <= vfs.free_fd e /\
  forall n d, vfs.fd_map e !! n = Some d -> vfs.open_ d = true -> n < vfs.free_fd e /\ vfs.fd d = n.

Lemma entry_set i e v : vfs.entry i (vfs.set_entry i e v) = e.
Proof. unfold vfs.entry, vfs.set_entry. cbn. by rewrite lookup_insert_eq. Qed.

Lemma descriptor_insert m n n' d t f c b :
  vfs.descriptor n' (vfs.mk_entry t f (<[n := d]> m) c b) = if decide (n = n') then d else default vfs.no_fd (m !! n').
Proof. unfold vfs.descriptor. cbn. destruct (decide (n = n')) as [-> |]; [by rewrite lookup_insert_eq | by rewrite lookup_insert_ne]. Qed.

Lemma fd_ok_insert e n d f :
  fd_ok e -> vfs.free_fd e <= f -> (vfs.open_ d = true -> n < f /\ vfs.fd d = n) ->
  fd_ok (vfs.mk_entry (vfs.tid e) f (<[n := d]> (vfs.fd_map e)) (vfs.cwd e) (vfs.enabled e)).
Proof.
  intros [H3 H] Hf Hd. split; cbn; [lia |]. intros n' d' Hl Ho. apply lookup_insert_Some in Hl as [[<- <-] | [_ Hl]]; [by apply Hd |].
  destruct (H n' d' Hl Ho). split; [lia | done].
Qed.

Lemma fd_ok_free e n : fd_ok e -> vfs.free_fd e <= n -> vfs.open_ (vfs.descriptor n e) = false.
Proof.
  intros [_ H] Hn. unfold vfs.descriptor. destruct (vfs.fd_map e !! n) as [d |] eqn:E; [| done]. cbn.
  destruct (vfs.open_ d) eqn:Eo; [| done]. destruct (H n d E Eo). lia.
Qed.

Section descriptors.
Context (fs_open : Z -> path -> Z -> Z * Z) (wronly i : Z).
Implicit Types v : vfs.t.

Lemma open_enabled_ok p md n v v' :
  fd_ok (vfs.entry i v) -> vfs.open_enabled fs_open i p md v = Ret (n, v') ->
  fd_ok (vfs.entry i v') /\
  (n <> -1 ->
     vfs.open_ (vfs.descriptor n (vfs.entry i v)) = false /\ vfs.open_ (vfs.descriptor n (vfs.entry i v')) = true /\
     forall n', n' <> n -> vfs.descriptor n' (vfs.entry i v') = vfs.descriptor n' (vfs.entry i v)).
Proof.
  intros Hok H. unfold vfs.open_enabled in H. apply bind_Ret in H as ([point local] & _ & H).
  destruct point as [point |]; [| inv_res; done]. apply bind_Ret in H as (calls & _ & H).
  destruct (fs_open calls local md) as [r node]. destruct (r =? -1); [inv_res; done |]. injection H as <- <-. rewrite entry_set.
  split; [apply fd_ok_insert; [done | lia |]; cbn; intros _; lia |]. intros _. split_and!.
  - apply fd_ok_free; [done | lia].
  - by rewrite descriptor_insert, decide_True.
  - intros n' Hne. by rewrite descriptor_insert, decide_False.
Qed.

Lemma close_enabled_ok n v :
  fd_ok (vfs.entry i v) ->
  fd_ok (vfs.entry i (vfs.close_enabled i n v)) /\
  vfs.free_fd (vfs.entry i (vfs.close_enabled i n v)) = vfs.free_fd (vfs.entry i v) /\
  vfs.open_ (vfs.descriptor n (vfs.entry i (vfs.close_enabled i n v))) = false /\
  (forall n', n' <> n -> vfs.descriptor n' (vfs.entry i (vfs.close_enabled i n v)) = vfs.descriptor n' (vfs.entry i v)).
Proof.
  intros Hok. unfold vfs.close_enabled.
  destruct (vfs.open_ (vfs.descriptor n (vfs.entry i v))) eqn:En; [| done]. rewrite entry_set. unfold vfs.set_descriptor. split_and!.
  - by apply fd_ok_insert.
  - done.
  - by rewrite descriptor_insert, decide_True.
  - intros n' Hne. by rewrite descriptor_insert, decide_False.
Qed.

Lemma dup2_enabled_ok old new v :
  fd_ok (vfs.entry i v) -> new < vfs.free_fd (vfs.entry i v) ->
  let '(r, v') := vfs.dup2_enabled i old new v in
  fd_ok (vfs.entry i v') /\
  if vfs.open_ (vfs.descriptor old (vfs.entry i v)) then
    r = new /\ vfs.open_ (vfs.descriptor new (vfs.entry i v')) = true /\
    vfs.node (vfs.descriptor new (vfs.entry i v')) = vfs.node (vfs.descriptor old (vfs.entry i v)) /\
    vfs.offset (vfs.descriptor new (vfs.entry i v')) = vfs.offset (vfs.descriptor old (vfs.entry i v))
  else r = -1 /\ v' = v.
Proof.
  intros Hok Hnew. unfold vfs.dup2_enabled. set (e := vfs.entry i v) in *.
  destruct (vfs.open_ (vfs.descriptor old e)) eqn:Eo; cbn [negb]; [| done].
  destruct (Z.eqb_spec old new) as [-> | Hne]; [done |].
  set (v1 := if vfs.open_ (vfs.descriptor new e) then vfs.close_enabled i new v else v).
  assert (H1 : fd_ok (vfs.entry i v1) /\ vfs.free_fd (vfs.entry i v1) = vfs.free_fd e /\
               vfs.descriptor old (vfs.entry i v1) = vfs.descriptor old e).
  { unfold v1. destruct (vfs.open_ (vfs.descriptor new e)); [| done].
    destruct (close_enabled_ok new v Hok) as (H1 & H2 & _ & H3). split_and!; [done | done | by apply H3]. }
  destruct H1 as (Hok1 & Hf1 & Hd1). rewrite entry_set. unfold vfs.set_descriptor. split.
  - apply fd_ok_insert; [done | done |]. cbn. intros _. split; [lia | done].
  - rewrite descriptor_insert, decide_True by done. cbn. rewrite Hd1. done.
Qed.

Lemma get_thread_entry_ok v v' :
  fd_ok (vfs.entry i v) -> vfs.get_thread_entry fs_open wronly i v = Ret v' -> fd_ok (vfs.entry i v').
Proof.
  intros Hok H. unfold vfs.get_thread_entry in H. destruct (vfs.enabled (vfs.entry i v)); [by injection H as <- |].
  assert (H0 : fd_ok (vfs.entry i (vfs.set_entry i (vfs.init i (vfs.entry i v)) v))).
  { rewrite entry_set. split; [apply Hok |]. intros n d Hn. cbn in Hn. by rewrite lookup_empty in Hn. }
  assert (Hstd : forall v n w, fd_ok (vfs.entry i v) -> n < 3 -> fd_ok (vfs.entry i (vfs.dup2_enabled i w n v).2)).
  { intros v0 n w H1 Hn. assert (H2 := dup2_enabled_ok w n v0 H1 ltac:(destruct H1; lia)).
    destruct (vfs.dup2_enabled i w n v0). apply H2. }
  apply bind_Ret in H as ([n1 v1] & H1 & H). apply bind_Ret in H as ([n2 v2] & H2 & H). injection H as <-.
  apply Hstd; [| lia]. eapply open_enabled_ok; [| exact H2]. apply Hstd; [| lia]. eapply open_enabled_ok; [| exact H1]. exact H0.
Qed.
End descriptors.

(** C17: File descriptors, in a consistent table: every number that is open has been
    given out before, that is, it is below the next number to give out.  The set-up of
    a thread's table with its standard output and error gives a consistent one.
    [open] keeps it consistent; it gives a number that was not open, and only adds
    that descriptor.  [dup2] to a number that was given out before keeps it consistent
    and makes both descriptors name the same node at the same offset, and it fails for
    a descriptor that is not open; [dup2] to a higher number is excluded, since it
    leaves a table that is not consistent, in which a later [open] overwrites the open
    descriptor ([open_overwrites]).  [close] closes exactly its descriptor and keeps
    the table consistent. *)
Theorem descriptors_fresh (fs_open : Z -> path -> Z -> Z * Z) (wronly i : Z) (v : vfs.t) :
  fd_ok (vfs.entry i v) ->
  (forall v', vfs.get_thread_entry fs_open wronly i v = Ret v' -> fd_ok (vfs.entry i v')) /\
  (vfs.enabled (vfs.entry i v) = true ->
   (forall p md n v', vfs.open fs_open wronly i p md v = Ret (n, v') ->
     fd_ok (vfs.entry i v') /\
     (n <> -1 ->
        vfs.open_ (vfs.descriptor n (vfs.entry i v)) = false /\ vfs.open_ (vfs.descriptor n (vfs.entry i v')) = true /\
        forall n', n' <> n -> vfs.descriptor n' (vfs.entry i v') = vfs.descriptor n' (vfs.entry i v))) /\
   (forall old new, new < vfs.free_fd (vfs.entry i v) ->
     exists r v', vfs.dup2 fs_open wronly i old new v = Ret (r, v') /\ fd_ok (vfs.entry i v') /\
     if vfs.open_ (vfs.descriptor old (vfs.entry i v)) then
       r = new /\ vfs.open_ (vfs.descriptor new (vfs.entry i v')) = true /\
       vfs.node (vfs.descriptor new (vfs.entry i v')) = vfs.node (vfs.descriptor old (vfs.entry i v)) /\
       vfs.offset (vfs.descriptor new (vfs.entry i v')) = vfs.offset (vfs.descriptor old (vfs.entry i v))
     else r = -1 /\ v' = v) /\
   (forall n, exists v', vfs.close fs_open wronly i n v = Ret (0, v') /\ fd_ok (vfs.entry i v') /\
     vfs.open_ (vfs.descriptor n (vfs.entry i v')) = false /\
     (forall n', n' <> n -> vfs.descriptor n' (vfs.entry i v') = vfs.descriptor n' (vfs.entry i v)))).
Proof.
  intros Hok. split; [intros v'; by apply get_thread_entry_ok |]. intros He.
  unfold vfs.open, vfs.dup2, vfs.close, vfs.get_thread_entry. rewrite He. split_and!.
  - intros p md n v' H. rewrite bind_mret in H. by eapply open_enabled_ok.
  - intros old new Hnew. rewrite bind_mret. assert (H := dup2_enabled_ok i old new v Hok Hnew).
    destruct (vfs.dup2_enabled i old new v) as [r v']. exists r, v'. by split.
  - intros n. rewrite bind_mret. eexists. split; [done |]. destruct (close_enabled_ok i n v Hok) as (? & _ & ? & ?). done.
Qed.

Definition table_example : vfs.t :=
  vfs.mk (vfs.mount_list mounts_example)
    {[5 := vfs.mk_entry 5 4 {[3 := vfs.mk_fd true 3 0x700 0 16]} (str "/") true]} (vfs.filesystems mounts_example).

Lemma descriptors_fresh_witness :
  exists n v', vfs.open (fun _ _ _ => (0, 0x800)) 2 5 (str "/dev/x") 0 table_example = Ret (n, v') /\
    vfs.open_ (vfs.descriptor n (vfs.entry 5 table_example)) = false /\ vfs.open_ (vfs.descriptor n (vfs.entry 5 v')) = true.
Proof.
  destruct (vfs.open (fun _ _ _ => (0, 0x800)) 2 5 (str "/dev/x") 0 table_example) as [[n v'] | | |] eqn:E;
    try (exfalso; vm_compute in E; discriminate E).
  exists n, v'. split; [reflexivity |].
  destruct (descriptors_fresh (fun _ _ _ => (0, 0x800)) 2 5 table_example) as (_ & H).
  - split; [vm_compute; discriminate |]. intros k d Hk _.
    change (({[3 := vfs.mk_fd true 3 0x700 0 16]} : gmap Z vfs.fd_data) !! k = Some d) in Hk. apply lookup_singleton_Some in Hk as [<- <-]. split; reflexivity.
  - destruct (H eq_refl) as (Hopen & _). destruct (Hopen _ _ _ _ E) as (_ & Hn).
    destruct Hn as (H1 & H2 & _); [vm_compute in E; injection E as <- _; discriminate |]. split; [exact H1 | exact H2].
Defined.

(** [dup2] to a number that was not given out yet: a later [open] overwrites the
    open descriptor. *)
Lemma open_overwrites :
  match vfs.dup2 (fun _ _ _ => (0, 0x800)) 2 5 3 4 table_example with
  | Ret (_, v) =>
      vfs.open_ (vfs.descriptor 4 (vfs.entry 5 v)) = true /\ vfs.node (vfs.descriptor 4 (vfs.entry 5 v)) = 0x700 /\
      match vfs.open (fun _ _ _ => (0, 0x800)) 2 5 (str "/dev/x") 0 v with
      | Ret (n, v) => n = 4 /\ vfs.node (vfs.descriptor 4 (vfs.entry 5 v)) = 0x800
      | _ => False
      end
  | _ => False
  end.
Proof. vm_compute. done. Qed.
