(* ===== verification/Lock.v ===== *)
(** * Lock: spinlocks, interrupt locks and guards

    Models include/Sigma/arch/x86_64/misc/spinlock.h with the routines of
    source/arch/x86_64/misc/spinlock.asm, and include/klibcxx/mutex.hpp.  A
    spinlock is the 16-bit word of its mutex; the instructions of [acquire] are
    steps, so that CPUs interleave between them.  The interrupt lock of a CPU is
    its counter together with the interrupt flag of that CPU. *)

From S2P Require Import Prelude Bits.

(** ** The spinlock *)

Module spinlock.
(** [lock bts word [rdi], 0] and [lock btr word [rdi], 0]: the old bit, which goes
    to the carry flag, and the new word. *)
Definition bts (lock : Z) : bool * Z := (Z.testbit lock 0, Z.setbit lock 0).
Definition btr (lock : Z) : Z := Z.clearbit lock 0.

Definition new_mutex : Z := 0.

(** The instructions of [acquire]: the first [bts], the [bt] at [.retry] and the
    [bts] behind it. *)
Inductive pc := Start | Retry | Again.

(** One instruction of [acquire]: the next one, or [None] at [.acquired]. *)
Definition acquire_step (p : pc) (lock : Z) : option pc * Z :=
  match p with
  | Start | Again => let '(c, lock) := bts lock in (if c then Some Retry else None, lock)
  | Retry => (if Z.testbit lock 0 then Some Retry else Some Again, lock)
  end.

Definition release (lock : Z) : Z := btr lock.

Definition try_acquire (lock : Z) : bool * Z := let '(c, lock) := bts lock in (negb c, lock).

(** [lock] of a mutex that no other CPU touches; [fuel] bounds the instructions. *)
Fixpoint acquire (fuel : nat) (p : pc) (lock : Z) : res Z :=
  match fuel with
  | O => NoFuel
  | S fuel =>
      match acquire_step p lock with
      | (Some p, lock) => acquire fuel p lock
      | (None, lock) => mret lock
      end
  end.

(** [std::lock_guard]: the constructor locks, the destructor unlocks. *)
Definition lock_guard {A} (fuel : nat) (body : A -> res A) (s : Z * A) : res (Z * A) :=
  lock ← acquire fuel Start s.1;
  a ← body s.2;
  mret (release lock, a).

(** ** CPUs that share a spinlock *)

(** What a CPU does with the lock. *)
Inductive activity := Outside | Acquiring (p : pc) | Holding.

Record system := mk { word : Z; cpus : list activity }.

Inductive step : system -> system -> Prop :=
| step_lock i w l : l !! i = Some Outside -> step (mk w l) (mk w (<[i := Acquiring Start]> l))
| step_acquire i w l p p' w' :
    l !! i = Some (Acquiring p) -> acquire_step p w = (Some p', w') ->
    step (mk w l) (mk w' (<[i := Acquiring p']> l))
| step_acquired i w l p w' :
    l !! i = Some (Acquiring p) -> acquire_step p w = (None, w') ->
    step (mk w l) (mk w' (<[i := Holding]> l))
| step_try i w l b w' :
    l !! i = Some Outside -> try_acquire w = (b, w') ->
    step (mk w l) (mk w' (<[i := if b then Holding else Outside]> l))
| step_unlock i w l : l !! i = Some Holding -> step (mk w l) (mk (release w) (<[i := Outside]> l)).

(** No CPU uses a new mutex. *)
Definition initial (n : nat) : system := mk new_mutex (replicate n Outside).
End spinlock.

(** ** The interrupt lock *)

Module irq_lock.
(** [_count] and the interrupt flag of the CPU. *)
Record t := mk { _count : Z; interrupts : bool }.

Definition old_irq_flag : Z := 0x8000000000000000.

Definition create (interrupts : bool) : t := mk 0 interrupts.

(** The nested locks: [c & ~old_irq_flag]. *)
Definition depth (c : Z) : Z := Z.land c (not64 old_irq_flag).

Definition lock (s : t) : res t :=
  let c := _count s in
  if c =? 0 then
    if interrupts s then mret (mk (Z.lor old_irq_flag 1) false)
    else mret (mk 1 (interrupts s))
  else
    _ ← ASSERT (negb (depth c =? 0)) "c & ~old_irq_flag";
    mret (mk (u64 (c + 1)) (interrupts s)).

Definition unlock (s : t) : res t :=
  let c := _count s in
  _ ← ASSERT (negb (depth c =? 0)) "c & ~old_irq_flag";
  if depth c =? 1 then
    mret (mk 0 (if Z.land c old_irq_flag =? 0 then interrupts s else true))
  else mret (mk (u64 (c - 1)) (interrupts s)).

(** A sequence of calls: [true] is [lock]. *)
Fixpoint run (ops : list bool) (s : t) : res t :=
  match ops with
  | [] => mret s
  | true :: ops => s ← lock s; run ops s
  | false :: ops => s ← unlock s; run ops s
  end.

(** The state with [d] nested locks, taken while the interrupt flag was [i]. *)
Definition nested (d : nat) (i : bool) : t :=
  match d with
  | O => mk 0 i
  | _ => mk (Z.of_nat d + (if i then old_irq_flag else 0)) false
  end.

(** The nesting after some calls; [None] when [unlock] was called too often. *)
Fixpoint level (ops : list bool) (d : nat) : option nat :=
  match ops with
  | [] => Some d
  | true :: ops => level ops (S d)
  | false :: ops => match d with O => None | S d => level ops d end
  end.
End irq_lock.

(** ** Lemmas *)

#[local] Arguments Z.testbit : simpl never.
#[local] Arguments Z.setbit : simpl never.
#[local] Arguments Z.clearbit : simpl never.

Section spinlock_lemmas.
Import spinlock.

Definition holds (l : list activity) (i : nat) : Prop := l !! i = Some Holding.

(** The lock bit says whether a CPU is inside, and at most one is. *)
Definition lock_inv (s : system) : Prop :=
  (forall i j, holds (cpus s) i -> holds (cpus s) j -> i = j) /\
  (Z.testbit (word s) 0 = true <-> exists i, holds (cpus s) i).

Lemma holds_insert l i j a : holds (<[i := a]> l) j -> (i = j /\ a = Holding) \/ (i <> j /\ holds l j).
Proof. unfold holds. intros [(-> & -> & _) | [? ?]]%list_lookup_insert_Some; auto. Qed.

Lemma holds_other l i j a : i <> j -> holds l j -> holds (<[i := a]> l) j.
Proof. unfold holds. intros Hne Hj. by rewrite list_lookup_insert_ne. Qed.

Lemma holds_new l i a : l !! i = Some a -> holds (<[i := Holding]> l) i.
Proof. intros H. unfold holds. apply list_lookup_insert_eq. by eapply lookup_lt_Some. Qed.

(** A CPU that did not hold the lock and still does not. *)
Lemma inv_keep w l i a b : l !! i = Some a -> a <> Holding -> b <> Holding -> lock_inv (mk w l) -> lock_inv (mk w (<[i := b]> l)).
Proof.
  intros Hi Ha Hb [Hu Hw]. cbn in *.
  assert (E : forall j, holds (<[i := b]> l) j <-> holds l j).
  { intros j. split; [intros [[_ ?] | [_ ?]]%holds_insert; [done | done] |].
    intros Hj. apply holds_other; [| done]. intros ->. unfold holds in Hj. congruence. }
  split; cbn; [intros j k; rewrite !E; apply Hu |]. rewrite Hw. by setoid_rewrite E.
Qed.

(** A CPU that takes the free lock, and one that gives it back. *)
Lemma inv_take w l i a : l !! i = Some a -> Z.testbit w 0 = false -> lock_inv (mk w l) -> lock_inv (mk (Z.setbit w 0) (<[i := Holding]> l)).
Proof.
  intros Hi Hw [_ Hb]. cbn in *.
  assert (Hno : forall j, ~ holds l j) by (intros j Hj; assert (Z.testbit w 0 = true) by (apply Hb; eauto); congruence).
  split; cbn.
  - intros j k [[<- _] | [_ Hj]]%holds_insert [[<- _] | [_ Hk]]%holds_insert; [done | by apply Hno in Hk | by apply Hno in Hj ..].
  - split; [intros _; exists i; by eapply holds_new | intros _; by apply Z.setbit_eq].
Qed.

Lemma inv_give w l i : holds l i -> lock_inv (mk w l) -> lock_inv (mk (Z.clearbit w 0) (<[i := Outside]> l)).
Proof.
  intros Hi [Hu _]. cbn in *.
  assert (Hno : forall j, ~ holds (<[i := Outside]> l) j).
  { intros j [[_ ?] | [Hne Hj]]%holds_insert; [done |]. by apply Hne, Hu. }
  split; cbn; [intros j k Hj; by apply Hno in Hj |].
  split; [intros H; by rewrite Z.clearbit_eq in H | intros [j Hj]; by apply Hno in Hj].
Qed.

Lemma setbit_same w : Z.testbit w 0 = true -> Z.setbit w 0 = w.
Proof.
  intros H. apply Z.bits_inj'. intros n Hn. rewrite Z.setbit_eqb by lia. destruct (Z.eqb_spec 0 n) as [<- |]; [by rewrite H | done].
Qed.

Lemma mutex_step_inv s s' : step s s' -> lock_inv s -> lock_inv s'.
Proof.
  intros Hs Hinv. destruct Hs as [i w l Hi | i w l p p' w' Hi Ha | i w l p w' Hi Ha | i w l b w' Hi Ha | i w l Hi].
  - by eapply inv_keep.
  - assert (w' = w) as ->.
    { destruct p; cbn in Ha; [| destruct (Z.testbit w 0); congruence |];
        (destruct (Z.testbit w 0) eqn:E; [injection Ha as _ <-; by apply setbit_same | done]). }
    by eapply inv_keep.
  - assert (Z.testbit w 0 = false /\ w' = Z.setbit w 0) as [? ->].
    { destruct p; cbn in Ha; destruct (Z.testbit w 0) eqn:E; try congruence; by injection Ha as <-. }
    by eapply inv_take.
  - unfold try_acquire, bts in Ha. destruct (Z.testbit w 0) eqn:E; injection Ha as <- <-; cbn.
    + rewrite setbit_same by done. by eapply inv_keep.
    + by eapply inv_take.
  - by apply inv_give.
Qed.

Lemma initial_inv n : lock_inv (initial n).
Proof.
  assert (Hno : forall j, ~ holds (replicate n Outside) j) by (intros j [? _]%lookup_replicate; done).
  split; cbn; [intros i j Hi; by apply Hno in Hi | split; [done | intros [i Hi]; by apply Hno in Hi]].
Qed.

Lemma acquire_free p w : Z.testbit w 0 = false -> acquire 2 p w = Ret (Z.setbit w 0).
Proof. intros H. destruct p; cbn; rewrite H; cbn; by rewrite ?H. Qed.
End spinlock_lemmas.

Section irq_lemmas.
Import irq_lock.

Lemma depth_mod c : depth c = c mod 2 ^ 63.
Proof. unfold depth. change (not64 old_irq_flag) with (Z.ones 63). by rewrite Z.land_ones by lia. Qed.

Lemma flag_test c : 0 <= c < 2 ^ 63 -> (Z.land c old_irq_flag =? 0) = true /\ (Z.land (c + old_irq_flag) old_irq_flag =? 0) = false.
Proof.
  intros Hc. change old_irq_flag with (bit64 63). rewrite !land_bit64_eqb by lia. change (bit64 63) with (2 ^ 63).
  rewrite !Z.testbit_eqb by lia. rewrite Z.div_small by lia.
  replace ((c + 2 ^ 63) / 2 ^ 63) with 1; [done |]. apply (Z.div_unique_pos _ _ 1 c); lia.
Qed.

Lemma nested_depth d i : (0 < d)%nat -> Z.of_nat d < 2 ^ 63 -> depth (_count (nested d i)) = Z.of_nat d.
Proof.
  intros Hd Hb. destruct d; [lia |]. unfold nested. cbn [_count]. rewrite depth_mod. destruct i.
  - change old_irq_flag with (1 * 2 ^ 63). rewrite Z.mod_add by lia. apply Z.mod_small. lia.
  - rewrite Z.add_0_r. apply Z.mod_small. lia.
Qed.

Lemma lock_nested d i : Z.of_nat d + 1 < 2 ^ 63 -> lock (nested d i) = Ret (nested (S d) i).
Proof.
  intros Hb. destruct d as [| d]; [by destruct i |]. unfold lock.
  rewrite (nested_depth (S d) i) by lia. cbn [nested _count interrupts].
  assert (E : (Z.of_nat (S d) + (if i then old_irq_flag else 0) =? 0) = false) by (apply Z.eqb_neq; destruct i; unfold old_irq_flag; lia).
  rewrite E. assert ((Z.of_nat (S d) =? 0) = false) as -> by (apply Z.eqb_neq; lia). cbn. f_equal. f_equal.
  rewrite u64_small; [lia |]. unfold is_u64. destruct i; unfold old_irq_flag; lia.
Qed.

Lemma unlock_nested d i : Z.of_nat d + 1 < 2 ^ 63 -> unlock (nested (S d) i) = Ret (nested d i).
Proof.
  intros Hb. unfold unlock. rewrite (nested_depth (S d) i) by lia. cbn [nested _count interrupts].
  assert ((Z.of_nat (S d) =? 0) = false) as -> by (apply Z.eqb_neq; lia). cbn [negb ASSERT mbind res_bind].
  destruct (flag_test (Z.of_nat (S d))) as [F1 F2]; [lia |].
  destruct (Z.eqb_spec (Z.of_nat (S d)) 1) as [E | E].
  - assert (d = 0%nat) as -> by lia. destruct i; by vm_compute.
  - assert (Hd : exists e, d = S e) by (destruct d; [lia | eauto]). destruct Hd as [e ->]. cbn. f_equal. f_equal.
    rewrite u64_small; [lia |]. unfold is_u64. destruct i; unfold old_irq_flag; lia.
Qed.

Lemma run_nested ops d i :
  Z.of_nat d + Z.of_nat (length ops) < 2 ^ 63 ->
  run ops (nested d i) = match level ops d with Some d' => Ret (nested d' i) | None => Panic "c & ~old_irq_flag" end.
Proof.
  revert d. induction ops as [| [] ops IH]; intros d Hb; [done | |]; cbn [run level length] in *.
  - rewrite lock_nested by lia. cbn [mbind res_bind]. apply IH. lia.
  - destruct d as [| d]; [by destruct i |]. rewrite unlock_nested by lia. cbn [mbind res_bind]. apply IH. lia.
Qed.
End irq_lemmas.

(** ** Theorems *)

(** C6: Mutual exclusion.  However the instructions of any number of CPUs that
    lock, try to lock and unlock a mutex interleave, at most one CPU is between
    lock and unlock; the lock bit is clear exactly when none is; a CPU that waits
    takes a free lock within two instructions; and [try_lock] succeeds exactly
    when no CPU holds the lock: it then takes it, and otherwise leaves the word
    as it is. *)
Theorem mutex_exclusive (n : nat) (s : spinlock.system) :
  rtc spinlock.step (spinlock.initial n) s ->
  (forall i j, holds (spinlock.cpus s) i -> holds (spinlock.cpus s) j -> i = j) /\
  (Z.testbit (spinlock.word s) 0 = false <-> forall i, ~ holds (spinlock.cpus s) i) /\
  ((forall i, ~ holds (spinlock.cpus s) i) ->
     forall p, exists w, spinlock.acquire 2 p (spinlock.word s) = Ret w /\ Z.testbit w 0 = true) /\
  ((forall i, ~ holds (spinlock.cpus s) i) ->
     exists w, spinlock.try_acquire (spinlock.word s) = (true, w) /\ Z.testbit w 0 = true) /\
  ((exists i, holds (spinlock.cpus s) i) -> spinlock.try_acquire (spinlock.word s) = (false, spinlock.word s)).
Proof.
  intros Hrun. assert (Hinv : lock_inv s).
  { assert (H0 := initial_inv n). induction Hrun as [| s1 s2 s3 H12 _ IH]; [done |]. apply IH. by eapply mutex_step_inv. }
  destruct Hinv as [Hu Hw].
  assert (Hfree : Z.testbit (spinlock.word s) 0 = false <-> forall i, ~ holds (spinlock.cpus s) i).
  { rewrite <- not_true_iff_false, Hw. split; [intros H i Hi; apply H; eauto | intros H [i Hi]; by apply (H i)]. }
  split_and!; [done | done | | |].
  - intros Hno p. eexists. split; [by apply acquire_free, Hfree |]. by apply Z.setbit_eq.
  - intros Hno. apply Hfree in Hno. eexists. unfold spinlock.try_acquire, spinlock.bts. rewrite Hno.
    split; [reflexivity |]. by apply Z.setbit_eq.
  - intros Hi. apply Hw in Hi. unfold spinlock.try_acquire, spinlock.bts. by rewrite Hi, setbit_same.
Qed.

Definition lock_run_example : spinlock.system := spinlock.mk 1 [spinlock.Holding; spinlock.Acquiring spinlock.Retry].

Lemma mutex_exclusive_witness :
  spinlock.try_acquire (spinlock.word lock_run_example) = (false, 1) /\
  exists w, spinlock.try_acquire (spinlock.word (spinlock.initial 2)) = (true, w) /\ Z.testbit w 0 = true.
Proof.
  split.
  - apply (mutex_exclusive 2 lock_run_example); [| exists 0%nat; reflexivity].
    eapply rtc_l; [apply (spinlock.step_lock 0); reflexivity |].
    eapply rtc_l; [apply (spinlock.step_lock 1); reflexivity |].
    eapply rtc_l; [eapply (spinlock.step_acquired 0); reflexivity |].
    eapply rtc_l; [eapply (spinlock.step_acquire 1); reflexivity |].
    apply rtc_refl.
  - apply (mutex_exclusive 2 (spinlock.initial 2)); [apply rtc_refl |].
    intros i Hi. apply lookup_replicate in Hi as [Hi _]. discriminate Hi.
Defined.

(** An unlock by a CPU that does not hold the lock: a waiting CPU gets in beside
    the holder. *)
Lemma unlock_twice_breaks (s : spinlock.system) (i j : nat) (p : spinlock.pc) :
  lock_inv s -> holds (spinlock.cpus s) i -> spinlock.cpus s !! j = Some (spinlock.Acquiring p) ->
  exists s', rtc spinlock.step (spinlock.mk (spinlock.release (spinlock.word s)) (spinlock.cpus s)) s' /\
    holds (spinlock.cpus s') i /\ holds (spinlock.cpus s') j /\ i <> j.
Proof.
  intros _ Hi Hj. destruct s as [w l]. cbn in *.
  assert (Hne : i <> j) by (intros ->; unfold holds in Hi; congruence).
  assert (Hw : Z.testbit (spinlock.release w) 0 = false) by (by apply Z.clearbit_eq).
  set (w1 := spinlock.release w) in *.
  exists (spinlock.mk (Z.setbit w1 0) (<[j := spinlock.Holding]> l)). cbn. split_and!; [| by apply holds_other | by eapply holds_new | done].
  assert (Htake : forall l2 q, l2 !! j = Some (spinlock.Acquiring q) -> q <> spinlock.Retry ->
            spinlock.step (spinlock.mk w1 l2) (spinlock.mk (Z.setbit w1 0) (<[j := spinlock.Holding]> l2))).
  { intros l2 q Hl Hq. eapply spinlock.step_acquired; [exact Hl |]. destruct q; [| done |]; cbn; by rewrite Hw. }
  destruct p; [apply rtc_once; by eapply Htake | | apply rtc_once; by eapply Htake].
  eapply rtc_l; [eapply (spinlock.step_acquire j _ _ _ spinlock.Again); [exact Hj | cbn; by rewrite Hw] |].
  apply rtc_once. rewrite <- (list_insert_insert_eq l j spinlock.Holding (spinlock.Acquiring spinlock.Again)).
  apply (Htake _ spinlock.Again); [| done]. apply list_lookup_insert_eq. by eapply lookup_lt_Some.
Qed.

(** The interrupt lock of a CPU nests.  After any sequence of calls with fewer
    than 2^63 of them, interrupts are off as long as a lock is open; closing the
    last one gives back the interrupt flag from before the first lock; and an
    unlock without a lock panics. *)
Theorem irq_lock_nests (ops : list bool) (i : bool) :
  Z.of_nat (length ops) < 2 ^ 63 ->
  match irq_lock.level ops 0 with
  | Some d =>
      exists s, irq_lock.run ops (irq_lock.create i) = Ret s /\
        irq_lock.interrupts s = (if decide (d = 0%nat) then i else false) /\
        irq_lock.depth (irq_lock._count s) = Z.of_nat d /\ (d = 0%nat -> s = irq_lock.create i)
  | None => exists msg, irq_lock.run ops (irq_lock.create i) = Panic msg
  end.
Proof.
  intros Hb. assert (H := run_nested ops 0 i Hb). change (irq_lock.nested 0 i) with (irq_lock.create i) in H.
  assert (Hd : forall l k d, irq_lock.level l k = Some d -> (d <= k + length l)%nat).
  { induction l as [| [] l IH]; intros k d E; cbn in *; [injection E as <-; lia | apply IH in E; lia |].
    destruct k; [done |]. apply IH in E. lia. }
  destruct (irq_lock.level ops 0) as [d |] eqn:E; [| eauto]. apply Hd in E. eexists. split; [exact H |].
  destruct d as [| d]; [destruct i; by vm_compute |]. rewrite nested_depth by lia. done.
Qed.

Lemma irq_lock_nests_witness :
  exists s, irq_lock.run [true; true; false; true; false; false] (irq_lock.create true) = Ret s /\ irq_lock.interrupts s = true.
Proof.
  destruct (irq_lock_nests [true; true; false; true; false; false] true) as (s & H1 & H2 & _); [vm_compute; reflexivity |].
  exists s. split; [exact H1 | exact H2].
Defined.
