(* ===== verification/Descriptors.v ===== *)
(** * Descriptors: segments, task state and interrupts

    Models include/Sigma/arch/x86_64/gdt.h and source/arch/x86_64/gdt.cpp,
    include/Sigma/arch/x86_64/tss.h, and include/Sigma/arch/x86_64/idt.h with
    source/arch/x86_64/idt.cpp.  The instructions that load the tables and the
    assembly stubs are hardware; the addresses of the stubs are an argument.  The
    reports of exceptions are in Fault.v. *)

From S2P Require Import Prelude Bits Fields Frames.

(** ** The global descriptor table *)

Module gdt.
Definition entry_read_write_bit : Z := bit64 41.
Definition entry_executable_bit : Z := bit64 43.
Definition entry_descriptor_type_bit : Z := bit64 44.
Definition entry_present_bit : Z := bit64 47.
Definition entry_64bit_code_bit : Z := bit64 53.
Definition max_entries : nat := 10.

Definition kernel_code_selector : Z := 0x08.
Definition user_data_selector : Z := 0x18.
Definition user_code_selector : Z := 0x10.

Record t := mk { entries : list Z; entry_index : Z }.

Definition create : t := mk (replicate max_entries 0) 0.

Definition get_offset_by_index (index : Z) : Z := u64 (index * 8).

Definition get_entry_by_offset (offset : Z) (g : t) : res Z := access (entries g !! Z.to_nat (offset / 8)).

(** [entries[index] = value]. *)
Definition put (index value : Z) (g : t) : res t :=
  _ ← access (entries g !! Z.to_nat index);
  mret (mk (<[Z.to_nat index := value]> (entries g)) (entry_index g)).

Definition add_entry (flags : Z) (g : t) : res (Z * t) :=
  let index := entry_index g in
  g ← put index flags (mk (entries g) (u64 (index + 1)));
  mret (get_offset_by_index (u64 (entry_index g - 1)), g).

Definition sizeof_tss : Z := 104.

(** The two entries of a task state segment. *)
Definition tss_descriptor (tss_address : Z) : Z * Z :=
  let tss_size := u32 (sizeof_tss - 1) in
  let ent1_low := u32 (Z.lor (Z.land tss_size 0xFFFF) (Z.shiftl (Z.land tss_address 0xFFFF) 16)) in
  let ent1_high :=
    u32 (Z.lor (Z.lor (Z.lor (Z.land (Z.shiftr tss_address 16) 0xFF) (Z.lor (Z.lor (bit64 8) (bit64 11)) (bit64 15)))
                      (Z.land tss_size 0x000F0000)) (Z.land tss_address 0xFF000000)) in
  let ent2_low := u32 (Z.shiftr tss_address 32) in
  (Z.lor ent1_low (u64 (Z.shiftl ent1_high 32)), Z.lor ent2_low (u64 (Z.shiftl 0 32))).

Definition add_tss (tss_address : Z) (g : t) : res (Z * t) :=
  let '(ent1, ent2) := tss_descriptor tss_address in
  let offset := entry_index g in
  g ← put offset ent1 g;
  g ← put (offset + 1) ent2 g;
  mret (get_offset_by_index offset, mk (entries g) (u64 (entry_index g + 2))).

Definition user_bits : Z := Z.lor (bit64 45) (bit64 46).

Definition init (g : t) : res t :=
  '(_, g) ← add_entry 0 g;
  let code := Z.lor (Z.lor (Z.lor entry_executable_bit entry_descriptor_type_bit) entry_present_bit) entry_64bit_code_bit in
  '(_, g) ← add_entry code g;
  '(_, g) ← add_entry (Z.lor code user_bits) g;
  '(_, g) ← add_entry (Z.lor (Z.lor (Z.lor entry_read_write_bit entry_descriptor_type_bit) entry_present_bit) user_bits) g;
  mret g.
End gdt.

(** ** The task state *)

Module tss.
(** A table is the list of its interrupt stacks; the other fields are zero. *)
Section stacks.
Context {S : Type} `{FA : FrameAllocator S}.

(** [alloc_block() + block_size + KERNEL_PHYSICAL_VIRTUAL_MAPPING_BASE]. *)
Definition alloc_stack (s : S) : res (Z * S) :=
  '(f, s) ← fa_alloc s; mret (u64 (u64 (f + block_size) + KERNEL_PHYSICAL_VIRTUAL_MAPPING_BASE), s).

Fixpoint alloc_stacks (n : nat) (s : S) : res (list Z * S) :=
  match n with
  | O => mret ([], s)
  | Datatypes.S n => '(a, s) ← alloc_stack s; '(l, s) ← alloc_stacks n s; mret (a :: l, s)
  end.

Definition ist_n_entries : nat := 7.

(** [ist_stack1] to [ist_stack7] in order. *)
Definition init (s : S) : res (list Z * S) := alloc_stacks ist_n_entries s.

Fixpoint deinit (l : list Z) (s : S) : res S :=
  match l with
  | [] => mret s
  | a :: l =>
      s ← fa_free (u64 (u64 (a - block_size) - KERNEL_PHYSICAL_VIRTUAL_MAPPING_BASE)) s;
      deinit l s
  end.
End stacks.
End tss.

(** ** The interrupt descriptor table *)

Module idt.
Record idt_entry := mk_entry {
  pointer_low : Z; gdt_sel : Z; entry_options : Z; pointer_mid : Z; pointer_high : Z; reserved : Z }.

Definition idt_entry_option_present : Z := 15.
Definition normal_ist_index : Z := 0.
Definition double_fault_ist_index : Z := 1.
Definition page_fault_ist_index : Z := 2.
Definition nmi_ist_index : Z := 3.
Definition preemption_ist_index : Z := 4.
Definition idt_max_entries : nat := 256.

Definition set16 (v bit : Z) : Z := (bitops.bit_set 16 v bit).1.

(** The options with and without a privilege level. *)
Definition make_options (present : bool) (ist_number : Z) (dpl : option Z) : Z :=
  let flags := Z.lor 0 (Z.land ist_number 0x7) in
  let flags := set16 (set16 (set16 flags 9) 10) 11 in
  let flags := match dpl with Some d => u16 (Z.lor flags (Z.shiftl (Z.land d 0x3) 13)) | None => flags end in
  if present then set16 flags idt_entry_option_present else flags.

(** The constructors leave the entry as it is for an invalid stack number; [junk]
    is that entry. *)
Definition make_entry (junk : idt_entry) (function selector : Z) (present : bool) (ist_number : Z) (dpl : option Z) : idt_entry :=
  if Z.of_nat tss.ist_n_entries <? ist_number then junk
  else
    mk_entry (Z.land function 0xFFFF) selector (make_options present ist_number dpl)
      (Z.land (Z.shiftr function 16) 0xFFFF) (Z.land (Z.shiftr function 32) 0xFFFFFFFF) 0.

Definition empty_entry (junk : idt_entry) : idt_entry := make_entry junk 0 gdt.kernel_code_selector false 0 None.
Definition new_table (junk : idt_entry) : list idt_entry := replicate idt_max_entries (empty_entry junk).

Definition set_entry (junk : idt_entry) (n function selector ist_index : Z) (dpl : option Z) (t : list idt_entry) : res (list idt_entry) :=
  _ ← access (t !! Z.to_nat n);
  mret (<[Z.to_nat n := make_entry junk function selector true ist_index dpl]> t).

(** The stack and the privilege level that [init] gives to vector [n]. *)
Definition ist_of (n : Z) : Z :=
  if n =? 2 then nmi_ist_index else if n =? 8 then double_fault_ist_index
  else if n =? 14 then page_fault_ist_index else if n =? 248 then preemption_ist_index else normal_ist_index.
Definition dpl_of (n : Z) : option Z := if n =? 249 then Some 3 else None.

(** [init]: one [set_entry] for each vector; [isr n] is the address of the stub. *)
Definition init (junk : idt_entry) (isr : Z -> Z) (t : list idt_entry) : res (list idt_entry) :=
  for_loop idt_max_entries 0
    (fun n t => set_entry junk n (isr n) gdt.kernel_code_selector (ist_of n) (dpl_of n) t) t.

(** ** Handlers *)

(** A callback is its address, 0 for none. *)
Record handler := mk_handler {
  vector : Z; callback : Z; userptr : Z; is_irq : bool; should_iret : bool }.

Definition no_handler : handler := mk_handler 0 0 0 false false.

Definition register_interrupt_handler (h : handler) (l : list handler) : res (list handler) :=
  _ ← access (l !! Z.to_nat (vector h));
  mret (<[Z.to_nat (vector h) := h]> l).

Definition register_irq_status (n : Z) (irq : bool) (l : list handler) : res (list handler) :=
  h ← access (l !! Z.to_nat n);
  mret (<[Z.to_nat n := mk_handler (vector h) (callback h) (userptr h) irq (should_iret h)]> l).

Definition page_fault_vector : Z := 14.

Definition register_generic_handlers (page_fault_handler : Z) (l : list handler) : res (list handler) :=
  register_interrupt_handler (mk_handler page_fault_vector page_fault_handler 0 false false)
    (replicate idt_max_entries no_handler).

(** [for(uint8_t i = 246; i > 0; i--)]. *)
Fixpoint free_vector_loop (i : nat) (l : list handler) : res Z :=
  match i with
  | O => mret (u8 (-1))
  | S j =>
      h ← access (l !! i);
      if callback h =? 0 then mret (Z.of_nat i) else free_vector_loop j l
  end.

Definition get_free_vector (l : list handler) : res Z := free_vector_loop 246 l.

(** What [sigma_isr_handler] does in order: the callback with its argument, the
    end-of-interrupt message, and the endless loop. *)
Inductive action := Call (callback userptr : Z) | Eoi | Hang.

(** The table is read again after the callback, which may have changed it: the
    result of the callback is [after]. *)
Definition sigma_isr_handler (int_number : Z) (before after : list handler) : res (list action) :=
  let n := Z.land int_number 0xFF in
  h ← access (before !! Z.to_nat n);
  let calls := if callback h =? 0 then [] else [Call (callback h) (userptr h)] in
  h ← access ((if callback h =? 0 then before else after) !! Z.to_nat n);
  mret (calls ++ (if is_irq h then [Eoi] else []) ++ (if negb (should_iret h) && negb (is_irq h) then [Hang] else [])).
End idt.

(** ** What the processor reads from a descriptor *)

Definition seg_present (d : Z) : bool := Z.testbit d 47.
Definition seg_dpl (d : Z) : Z := bits 45 2 d.
Definition seg_is_code64 (d : Z) : bool := Z.testbit d 43 && Z.testbit d 44 && Z.testbit d 53.
Definition seg_is_writable_data (d : Z) : bool := negb (Z.testbit d 43) && Z.testbit d 44 && Z.testbit d 41.

(** The base, the limit and the type of a system segment of two entries. *)
Definition sys_base (d1 d2 : Z) : Z :=
  Z.lor (Z.lor (bits 16 24 d1) (Z.shiftl (bits 56 8 d1) 24)) (Z.shiftl (bits 0 32 d2) 32).
Definition sys_limit (d1 : Z) : Z := Z.lor (bits 0 16 d1) (Z.shiftl (bits 48 4 d1) 16).
Definition sys_type (d1 : Z) : Z := bits 40 4 d1.

(** The entry point of a gate, its stack, privilege level and type. *)
Definition gate_offset (e : idt.idt_entry) : Z :=
  Z.lor (Z.lor (idt.pointer_low e) (Z.shiftl (idt.pointer_mid e) 16)) (Z.shiftl (idt.pointer_high e) 32).
Definition gate_present (e : idt.idt_entry) : bool := Z.testbit (idt.entry_options e) 15.
Definition gate_ist (e : idt.idt_entry) : Z := bits 0 3 (idt.entry_options e).
Definition gate_dpl (e : idt.idt_entry) : Z := bits 13 2 (idt.entry_options e).
Definition gate_type (e : idt.idt_entry) : Z := bits 8 4 (idt.entry_options e).

(** ** Lemmas *)

Lemma tss_descriptor_base a : is_u64 a -> sys_base (gdt.tss_descriptor a).1 (gdt.tss_descriptor a).2 = a.
Proof.
  intros Ha. assert (Hr : 0 <= sys_base (gdt.tss_descriptor a).1 (gdt.tss_descriptor a).2 < 2 ^ 64).
  { unfold sys_base. apply word_lor; [apply word_lor | |]; try lia; [apply bits_range; lia | |].
    - eapply (word_shiftl 8); [apply bits_range | ..]; lia.
    - eapply (word_shiftl 32); [apply bits_range | ..]; lia. }
  revert Hr. unfold sys_base, gdt.tss_descriptor, bits. cbn [fst snd]. intros Hr. bitwise 64%nat; [exact Hr | exact Ha].
Qed.

(** The limit and the type do not depend on the address. *)
Lemma tss_descriptor_type a :
  is_u64 a -> sys_limit (gdt.tss_descriptor a).1 = gdt.sizeof_tss - 1 /\ sys_type (gdt.tss_descriptor a).1 = 9 /\
    seg_present (gdt.tss_descriptor a).1 = true.
Proof.
  intros Ha. unfold sys_limit, sys_type, seg_present, gdt.tss_descriptor, bits. cbn [fst snd]. split_and!.
  - change (gdt.sizeof_tss - 1) with 103. bitwise 20%nat; [| lia]. apply word_lor; [| | lia].
    + rewrite Z.land_ones by lia. match goal with |- 0 <= ?x mod _ < _ => pose proof (Z.mod_pos_bound x (2 ^ 16)) end. lia.
    + eapply (word_shiftl 4); [| lia..]. rewrite Z.land_ones by lia. apply Z.mod_pos_bound. lia.
  - bitwise 4%nat; [| lia]. rewrite Z.land_ones by lia. apply Z.mod_pos_bound. lia.
  - repeat (bit_step; bit_indices; bit_neg). bit_consts. by rewrite ?andb_false_r, ?orb_true_r.
Qed.

Lemma gate_offset_entry junk f sel p ist dpl : is_u64 f -> 0 <= ist <= 7 -> gate_offset (idt.make_entry junk f sel p ist dpl) = f.
Proof.
  intros Hf Hi. unfold gate_offset, idt.make_entry. destruct (Z.ltb_spec (Z.of_nat tss.ist_n_entries) ist); [unfold tss.ist_n_entries in *; lia |].
  cbn [idt.pointer_low idt.pointer_mid idt.pointer_high]. bitwise 64%nat; [| exact Hf].
  change 65535 with (Z.ones 16). change 4294967295 with (Z.ones 32).
  apply word_lor; [apply word_lor | |]; try lia.
  - apply (bits_range 0 16 f 64). lia.
  - eapply (word_shiftl 16); [apply (bits_range 16 16 f 16) | ..]; lia.
  - eapply (word_shiftl 32); [apply (bits_range 32 32 f 32) | ..]; lia.
Qed.

Lemma idt_init_loop junk isr k i t :
  0 <= i -> i + Z.of_nat k <= Z.of_nat (length t) ->
  exists t', for_loop k i
      (fun n t => idt.set_entry junk n (isr n) gdt.kernel_code_selector (idt.ist_of n) (idt.dpl_of n) t) t = Ret t' /\
    length t' = length t /\
    forall j, 0 <= j -> t' !! Z.to_nat j =
      if decide (i <= j < i + Z.of_nat k)
      then Some (idt.make_entry junk (isr j) gdt.kernel_code_selector true (idt.ist_of j) (idt.dpl_of j)) else t !! Z.to_nat j.
Proof.
  revert i t. induction k as [| k IH]; intros i t Hi Hk.
  - exists t. split_and!; [done | done |]. intros j Hj. by rewrite decide_False by lia.
  - destruct (lookup_lt_is_Some_2 t (Z.to_nat i)) as [e He]; [lia |].
    assert (Hs : forall f sel ist d, idt.set_entry junk i f sel ist d t = Ret (<[Z.to_nat i := idt.make_entry junk f sel true ist d]> t))
      by (intros; unfold idt.set_entry; by rewrite He).
    cbn [for_loop]. rewrite Hs. cbn [mbind res_bind].
    destruct (IH (i + 1) (<[Z.to_nat i := idt.make_entry junk (isr i) gdt.kernel_code_selector true (idt.ist_of i) (idt.dpl_of i)]> t))
      as (t' & Ht & Hlen & Hl); [lia | rewrite length_insert; lia |].
    exists t'. split_and!; [done | by rewrite Hlen, length_insert |]. intros j Hj. rewrite Hl by done.
    destruct (decide (i + 1 <= j < i + 1 + Z.of_nat k)); [by rewrite decide_True by lia |].
    destruct (decide (i = j)) as [<- | Hne].
    + rewrite decide_True by lia. apply list_lookup_insert_eq. lia.
    + rewrite list_lookup_insert_ne by lia. by rewrite decide_False by lia.
Qed.

(** The options of each vector, by evaluation. *)
Definition options_ok (n : Z) : bool :=
  let o := idt.make_options true (idt.ist_of n) (idt.dpl_of n) in
  Z.testbit o 15 && (bits 8 4 o =? 14) && (bits 0 3 o =? idt.ist_of n) && (bits 13 2 o =? if n =? 249 then 3 else 0) &&
  (0 <=? idt.ist_of n) && (idt.ist_of n <=? 4).

Lemma options_all n : 0 <= n < 256 -> options_ok n = true.
Proof.
  intros Hn. assert (H : Forall (fun n => options_ok n = true) (seqZ 0 256)) by by_compute.
  rewrite Forall_forall in H. apply H, elem_of_seqZ. lia.
Qed.

(** The search for a free vector goes down. *)
Lemma free_vector_loop_ok i l :
  (i < length l)%nat ->
  exists v, idt.free_vector_loop i l = Ret v /\
    ((exists k h, v = Z.of_nat k /\ (1 <= k <= i)%nat /\ l !! k = Some h /\ idt.callback h = 0 /\
        forall j h', (k < j <= i)%nat -> l !! j = Some h' -> idt.callback h' <> 0) \/
     (v = 255 /\ forall j h', (1 <= j <= i)%nat -> l !! j = Some h' -> idt.callback h' <> 0)).
Proof.
  induction i as [| i IH]; intros Hl; [exists 255; split; [done |]; right; split; [done | lia] |].
  cbn [idt.free_vector_loop]. destruct (lookup_lt_is_Some_2 l (S i) Hl) as [h Hh]. rewrite Hh. cbn [access mbind res_bind].
  destruct (Z.eqb_spec (idt.callback h) 0) as [E | E].
  - exists (Z.of_nat (S i)). split; [done |]. left. exists (S i), h. split_and!; (done || lia).
  - destruct IH as (v & Hv & Hcase); [lia |]. exists v. split; [done |].
    destruct Hcase as [(k & h0 & -> & Hk & Hl0 & Hc & Hgap) | [-> Hgap]]; [left; exists k, h0; split_and!; (done || lia || idtac) | right; split; [done |]].
    + intros j h' Hj Hj'. destruct (decide (j = S i)) as [-> |]; [congruence | apply (Hgap j); [lia | done]].
    + intros j h' Hj Hj'. destruct (decide (j = S i)) as [-> |]; [congruence | apply (Hgap j); [lia | done]].
Qed.

Section stack_lemmas.
Context {S : Type} `{FL : FrameAllocatorLaws S}.

Lemma stack_frame f : frame_addr f -> u64 (u64 (u64 (u64 (f + block_size) + KERNEL_PHYSICAL_VIRTUAL_MAPPING_BASE) - block_size) - KERNEL_PHYSICAL_VIRTUAL_MAPPING_BASE) = f.
Proof. unfold frame_addr, KERNEL_PHYSICAL_VIRTUAL_MAPPING_BASE. intros Hf. wrap_lia. Qed.

(** The stacks are the frames that left the allocator. *)
Lemma alloc_stacks_ok n s l s' :
  fa_wf s -> Forall frame_addr (fa_pages s) -> tss.alloc_stacks n s = Ret (l, s') ->
  exists fs, length fs = n /\ fa_wf s' /\ fa_pages s ≡ₚ fs ++ fa_pages s' /\
    l = (fun f => u64 (u64 (f + block_size) + KERNEL_PHYSICAL_VIRTUAL_MAPPING_BASE)) <$> fs.
Proof.
  revert s l s'. induction n as [| n IH]; intros s l s' Hw Hp H; cbn in H; [injection H as <- <-; by exists [] |].
  unfold tss.alloc_stack in H. apply bind_Ret in H as ([a s1] & H1 & H). apply bind_Ret in H1 as ([f s2] & Hf & H1).
  injection H1 as <- <-. apply bind_Ret in H as ([l1 s3] & H1 & H). injection H as <- <-.
  destruct (fa_alloc_Ret _ _ _ Hw Hf) as [Hw2 Hp2].
  destruct (IH s2 l1 s3) as (fs & Hlen & Hw3 & Hp3 & ->); [done | by rewrite Hp2 in Hp; apply Forall_cons in Hp as [_ ?] | done |].
  exists (f :: fs). split_and!; [by cbn; rewrite Hlen | done | by rewrite Hp2, Hp3 | done].
Qed.

Lemma deinit_ok fs s s' :
  fa_wf s -> Forall frame_addr fs ->
  tss.deinit ((fun f => u64 (u64 (f + block_size) + KERNEL_PHYSICAL_VIRTUAL_MAPPING_BASE)) <$> fs) s = Ret s' ->
  fa_wf s' /\ fa_pages s' ≡ₚ fs ++ fa_pages s.
Proof.
  revert s. induction fs as [| f fs IH]; intros s Hw Hf H; cbn in H; [by injection H as <- |].
  apply Forall_cons in Hf as [Hf Hfs]. rewrite stack_frame in H by done. apply bind_Ret in H as (s1 & H1 & H).
  destruct (fa_free_law f s s1 Hw Hf H1) as [Hw1 Hp1]. destruct (IH s1 Hw1 Hfs H) as [Hw' Hp']. split; [done |].
  rewrite Hp', Hp1. cbn. by rewrite Permutation_middle.
Qed.
End stack_lemmas.

(** ** Theorems *)

(** The segment descriptors.  After [gdt.init] the selectors of gdt.h name
    present descriptors of the right kind: 64-bit code for the kernel and for user
    programs, writable data for user programs, with privilege levels 0 and 3;
    adding the task state segment succeeds, gives the selector behind them, and
    the processor reads from it exactly the address and size of the table. *)
Theorem gdt_setup (tss_address : Z) :
  is_u64 tss_address ->
  exists g g' kc uc ud d1 d2,
    gdt.init gdt.create = Ret g /\ gdt.add_tss tss_address g = Ret (0x20, g') /\ gdt.entry_index g' = 6 /\
    gdt.get_entry_by_offset gdt.kernel_code_selector g' = Ret kc /\ seg_present kc = true /\ seg_is_code64 kc = true /\ seg_dpl kc = 0 /\
    gdt.get_entry_by_offset gdt.user_code_selector g' = Ret uc /\ seg_present uc = true /\ seg_is_code64 uc = true /\ seg_dpl uc = 3 /\
    gdt.get_entry_by_offset gdt.user_data_selector g' = Ret ud /\ seg_present ud = true /\ seg_is_writable_data ud = true /\ seg_dpl ud = 3 /\
    gdt.get_entry_by_offset 0x20 g' = Ret d1 /\ gdt.get_entry_by_offset 0x28 g' = Ret d2 /\
    sys_base d1 d2 = tss_address /\ sys_limit d1 = gdt.sizeof_tss - 1 /\ sys_type d1 = 9 /\ seg_present d1 = true.
Proof.
  intros Ha. destruct (tss_descriptor_type tss_address Ha) as (Hl & Ht & Hp). assert (Hb := tss_descriptor_base tss_address Ha).
  destruct (gdt.tss_descriptor tss_address) as [d1 d2] eqn:Ed. cbn [fst snd] in *.
  destruct (gdt.init gdt.create) as [g | | |] eqn:Eg; try (vm_compute in Eg; discriminate Eg).
  vm_compute in Eg. injection Eg as <-.
  eexists _, _, _, _, _, d1, d2. split; [done |]. split; [unfold gdt.add_tss; rewrite Ed; vm_compute; reflexivity |].
  split_and!; try done; vm_compute; reflexivity.
Qed.

Lemma gdt_setup_witness :
  exists g g', gdt.init gdt.create = Ret g /\ gdt.add_tss 0xffffffff80123450 g = Ret (0x20, g').
Proof.
  destruct (gdt_setup 0xffffffff80123450) as (g & g' & _ & _ & _ & _ & _ & H1 & H2 & _);
    [split; vm_compute; (discriminate || reflexivity) |].
  exists g, g'. split; [exact H1 | exact H2].
Defined.

(** The interrupt gates.  After [idt.init] every one of the 256 vectors has a
    present interrupt gate in the kernel's code segment that enters its own stub;
    only the system call gate can be called from user programs; and the non-maskable
    interrupt, the double fault, the page fault and the preemption timer run on
    their own stacks. *)
Theorem idt_gates (junk : idt.idt_entry) (isr : Z -> Z) :
  (forall n, 0 <= n < 256 -> is_u64 (isr n)) ->
  exists t, idt.init junk isr (idt.new_table junk) = Ret t /\ length t = 256%nat /\
    forall n, 0 <= n < 256 -> exists e, t !! Z.to_nat n = Some e /\
      gate_present e = true /\ gate_type e = 14 /\ idt.gdt_sel e = gdt.kernel_code_selector /\ gate_offset e = isr n /\
      gate_dpl e = (if n =? 249 then 3 else 0) /\ gate_ist e = idt.ist_of n.
Proof.
  intros Hisr. destruct (idt_init_loop junk isr 256 0 (idt.new_table junk)) as (t & Ht & Hlen & Hl); [lia | done |].
  exists t. split; [exact Ht |]. split; [by rewrite Hlen |]. intros n Hn. eexists.
  rewrite Hl by lia. rewrite decide_True by (cbn; lia). split; [reflexivity |].
  assert (Ho := options_all n Hn). unfold options_ok in Ho. rewrite !andb_true_iff, !Z.eqb_eq, !Z.leb_le in Ho.
  destruct Ho as (((((H1 & H2) & H3) & H4) & H5) & H6).
  assert (Hoff := gate_offset_entry junk (isr n) gdt.kernel_code_selector true (idt.ist_of n) (idt.dpl_of n) (Hisr n Hn) ltac:(lia)).
  revert Hoff. unfold gate_present, gate_type, gate_dpl, gate_ist, gate_offset, idt.make_entry.
  destruct (Z.ltb_spec (Z.of_nat tss.ist_n_entries) (idt.ist_of n)); [unfold tss.ist_n_entries in *; lia |].
  cbn [idt.pointer_low idt.pointer_mid idt.pointer_high idt.entry_options idt.gdt_sel]. auto 10.
Qed.

Lemma idt_gates_witness :
  exists t e, idt.init (idt.mk_entry 0 0 0 0 0 0) (fun n => 0xffffffff80100000 + 16 * n) (idt.new_table (idt.mk_entry 0 0 0 0 0 0)) = Ret t /\
    t !! 249%nat = Some e /\ gate_dpl e = 3.
Proof.
  destruct (idt_gates (idt.mk_entry 0 0 0 0 0 0) (fun n => 0xffffffff80100000 + 16 * n)) as (t & H1 & _ & H2);
    [intros n Hn; unfold is_u64; lia |].
  destruct (H2 249) as (e & He & _ & _ & _ & _ & Hd & _); [lia |]. exists t, e. split; [exact H1 |]. split; [exact He | exact Hd].
Defined.

(** Free interrupt vectors.  [get_free_vector] returns the largest vector up to
    246 without a handler, never one of the fixed vectors above; once a handler is
    registered for it, the next call returns another vector; when every vector is
    taken it returns 255. *)
Theorem free_vector_largest (l : list idt.handler) :
  length l = idt.idt_max_entries ->
  exists v, idt.get_free_vector l = Ret v /\
    ((1 <= v <= 246 /\
      (exists h, l !! Z.to_nat v = Some h /\ idt.callback h = 0) /\
      (forall j h, v < j <= 246 -> l !! Z.to_nat j = Some h -> idt.callback h <> 0) /\
      (forall h, idt.vector h = v -> idt.callback h <> 0 ->
         exists l' v', idt.register_interrupt_handler h l = Ret l' /\ idt.get_free_vector l' = Ret v' /\ v' <> v)) \/
     (v = 255 /\ forall j h, 1 <= j <= 246 -> l !! Z.to_nat j = Some h -> idt.callback h <> 0)).
Proof.
  intros Hlen. unfold idt.idt_max_entries in Hlen. destruct (free_vector_loop_ok 246 l) as (v & Hv & Hcase); [lia |].
  exists v. split; [exact Hv |]. destruct Hcase as [(k & h & -> & Hk & Hl & Hc & Hgap) | [-> Hgap]]; [left | right].
  - split_and!; [lia | lia | exists h; by rewrite Nat2Z.id | |].
    + intros j h' Hj Hj'. apply (Hgap (Z.to_nat j)); [lia | done].
    + intros h' Hv' Hc'. exists (<[k := h']> l). unfold idt.register_interrupt_handler. rewrite Hv', Nat2Z.id, Hl.
      destruct (free_vector_loop_ok 246 (<[k := h']> l)) as (v' & Hf & Hcase'); [rewrite length_insert; lia |].
      exists v'. split_and!; [done | exact Hf |]. destruct Hcase' as [(k' & h0 & -> & _ & Hl' & Hc0 & _) | [-> _]]; [| lia].
      intros E%Nat2Z.inj. subst k'. rewrite list_lookup_insert_eq in Hl' by lia. congruence.
  - split; [done |]. intros j h' Hj Hj'. apply (Hgap (Z.to_nat j)); [lia | done].
Qed.

Lemma free_vector_largest_witness :
  exists l, idt.register_generic_handlers 0x1000 [] = Ret l /\ exists v, idt.get_free_vector l = Ret v.
Proof.
  destruct (idt.register_generic_handlers 0x1000 []) as [l | | |] eqn:E; try (vm_compute in E; discriminate E).
  exists l. split; [reflexivity |]. destruct (free_vector_largest l) as (v & Hv & _); [| exists v; exact Hv].
  vm_compute in E. injection E as <-. vm_compute. reflexivity.
Defined.

(** Initialising and freeing the interrupt stacks gives all frames back. *)
Lemma tss_stacks_returned {S} `{FL : FrameAllocatorLaws S} (s s1 s2 : S) (l : list Z) :
  fa_wf s -> Forall frame_addr (fa_pages s) -> tss.init s = Ret (l, s1) -> tss.deinit l s1 = Ret s2 ->
  length l = 7%nat /\ fa_wf s2 /\ fa_pages s2 ≡ₚ fa_pages s.
Proof.
  intros Hw Hp Hi Hd. destruct (alloc_stacks_ok _ _ _ _ Hw Hp Hi) as (fs & Hlen & Hw1 & Hp1 & ->).
  destruct (deinit_ok fs s1 s2 Hw1) as [Hw2 Hp2]; [rewrite Hp1 in Hp; by apply Forall_app in Hp as [? _] | done |].
  split_and!; [by rewrite length_fmap | done | by rewrite Hp2, <- Hp1].
Qed.
