(* ===== verification/Fault.v ===== *)
(** * Fault: exceptions, stack traces and the undefined-behaviour sanitizer

    Models the part of source/arch/x86_64/idt.cpp that reports exceptions and page
    faults, with the dispatch of Descriptors.v behind it ([fault]), the stack trace of
    source/misc/debug.cpp over the symbols of Elf.v ([debug]), and the handlers of the
    sanitizer in debug.h and debug.cpp ([ubsan]), as they are in a build with DEBUG
    and SIGMA_UBSAN and without PANIC_ON_UBSAN_ERROR.

    Output is a list of [out]: the format, without indentation and line breaks, and
    the arguments; a number is printed in the way the format says. *)

From S2P Require Import Prelude Bits Klibc Fields Descriptors Paging Ipc Process Elf.

Inductive arg := Num (v : Z) | Text (s : string) | Chars (p : Z).
Inductive out := Out (format : string) (args : list arg).

Definition say (format : string) (l : list Z) : out := Out format (Num <$> l).

(** ** debug::trace_stack *)

Module debug.
(** [frame] at an address: the saved base pointer and the return address. *)
Definition saved_rbp (p : Z) (m : bmem) : Z := le_at m p 8.
Definition saved_rip (p : Z) (m : bmem) : Z := le_at m (p + 8) 8.

Definition last_user_address : Z := 0x00007fffffffffff.

(** The condition that ends the trace. *)
Definition outside (p : Z) : bool := negb (is_canonical p) || (p =? 0) || (p <=? last_user_address).
Definition stops (p : Z) (m : bmem) : bool := outside (saved_rbp p m) || outside (saved_rip p m).

Definition trace_line (i rip : Z) (s : option (Z * Z)) : out :=
  match s with
  | Some (name, addr) => if addr =? 0 then Out "%d: RIP [%x]" [Num i; Num rip]
                         else Out "%d: RIP [%x] -> %s+%x" [Num i; Num rip; Chars name; Num (u64 (rip - addr))]
  | None => Out "%d: RIP [%x]" [Num i; Num rip]
  end.

Fixpoint trace_loop (fuel : nat) (i current : Z) (s : elf.symbols) (m : bmem) : res (list out) :=
  match fuel with
  | O => NoFuel
  | S fuel =>
      if (i <? u64_max) && negb (current =? 0) && negb (stops current m) then
        let rip := saved_rip current m in
        sym ← elf.get_symbol rip s m;
        l ← trace_loop fuel (i + 1) (saved_rbp current m) s m;
        mret (trace_line i rip sym :: l)
      else mret []
  end.

Definition trace_stack (fuel : nat) (rbp : Z) (s : elf.symbols) (m : bmem) : res (list out) :=
  l ← trace_loop fuel 0 rbp s m;
  mret (Out "Starting Stack Trace" [] :: l ++ [Out "End of Stack Trace" []]).
End debug.

(** ** Exceptions *)

Module fault.
Definition exceptions : list (string * string) :=
  [("DE", "Division By Zero"); ("DB", "Debug"); ("NMI", "Non Maskable Interrupt"); ("BP", "Breakpoint"); ("OF", "Overflow");
   ("BR", "Out of Bounds"); ("UD", "Invalid Opcode"); ("NM", "No Coprocessor"); ("DF", "Double Fault"); ("-", "Coprocessor Segment Overrun");
   ("TS", "Invalid TSS"); ("NP", "Segment Not Present"); ("SS", "Stack Fault"); ("GP", "General Protection Fault"); ("PF", "Page Fault");
   ("-", "Reserved"); ("MF", "x87 Floating-Point Exception"); ("AC", "Alignment Check"); ("MC", "Machine Check");
   ("XM/XF", "SIMD Floating-Point Exception"); ("VE", "Virtualization Exception"); ("CP", "Control Protection Exception");
   ("-", "Reserved"); ("-", "Reserved"); ("-", "Reserved"); ("-", "Reserved"); ("-", "Reserved"); ("-", "Reserved"); ("-", "Reserved");
   ("-", "Reserved"); ("SX", "Security Exception"); ("-", "Reserved")]%string.

(** The texts that [sigma_page_fault_handler] prints for the error code, and all that
    it does before it halts the CPU. *)
Definition bit (e i : Z) : bool := bitops.bit_test 64 e i.
Definition conditions (e : Z) : list string :=
  [if bit e 0 then "Page level protection violation, " else "Non-present page, ";
   if bit e 1 then "Write, " else "Read, ";
   if bit e 2 then "User access, " else "Supervisor access, "]%string ++
  (if bit e 3 then ["Reserved bit set, "] else [])%string ++ (if bit e 4 then ["Instruction fetch, "] else [])%string ++
  (if bit e 5 then ["Protection key violation, "] else [])%string ++ (if bit e 15 then ["SGX violation, "] else [])%string.

Definition sigma_page_fault_handler (cr2 error_code : Z) : list out :=
  say "Linear Address: %x" [cr2] :: Out "Conditions: " [] :: ((fun c => Out c []) <$> conditions error_code).

(** The registers of the interrupt as they are printed; [lapic_id] is the CPU. *)
Import process.
Definition report (n error_code lapic_id fsbase gsbase kgsbase : Z) (tid : option Z) (r : registers) : res (list out) :=
  e ← access (exceptions !! Z.to_nat n);
  mret ([Out "[IDT]: Received interrupt %d, #%s: %s, Error Code: %x" [Num n; Text e.1; Text e.2; Num error_code];
         say "RIP: %x, RSP: %x, CPU: %d" [rip r; rsp r; lapic_id];
         say "RAX: %x, RBX: %x, RCX: %x, RDX: %x" [rax r; rbx r; rcx r; rbx r];
         say "RSI: %x, RDI: %x, RSP: %x, RBP: %x" [rsi r; rdi r; rsp r; rbp r];
         say "R8: %x, R9: %x, R10: %x, R11: %x" [r8 r; r9 r; r10 r; r11 r];
         say "R12: %x, R12: %x, R13: %x, R14: %x" [r12 r; r13 r; r13 r; r14 r];
         say "R15: %x, CS: %x, DS: %x, SS: %x" [r15 r; cs r; ds r; ss r];
         say "FSBASE: %x, GSBASE: %x, KERNEL_GSBASE: %x" [fsbase; gsbase; kgsbase]] ++
        match tid with Some t => [say "Current TID: %x" [t]] | None => [] end).

(** [sigma_isr_handler]: the report and the stack trace for an exception, then the
    dispatch.  [tid] is the thread to name: that of the CPU, if it is running. *)
Definition sigma_isr_handler (fuel : nat) (int_number error_code lapic_id fsbase gsbase kgsbase : Z) (tid : option Z) (r : registers)
    (s : elf.symbols) (m : bmem) (before after : list idt.handler) : res (list out * list idt.action) :=
  let n := Z.land int_number 0xFF in
  l ← (if n <? 32 then l ← report n error_code lapic_id fsbase gsbase kgsbase tid r; t ← debug.trace_stack fuel (rbp r) s m; mret (l ++ t)
       else mret []);
  a ← idt.sigma_isr_handler int_number before after;
  mret (l, a).
End fault.

(** ** The sanitizer *)

Module ubsan.
Definition TK_INTEGER : Z := 0.
Definition TK_FLOAT : Z := 1.
Definition TK_UNKNOWN : Z := 0xFFFF.

Record type_descriptor := mk_type { kind : Z; type_info : Z; type_name : string }.
Record source_location := mk_loc { filename : string; line : Z; column : Z }.

Definition kind_line (k : Z) : out :=
  if k =? TK_INTEGER then Out "Type: Integer" [] else if k =? TK_FLOAT then Out "Type: Float" []
  else if k =? TK_UNKNOWN then Out "Type: Unknown" [] else say "Type: Undefined [%x]" [k].
Definition print_type (t : type_descriptor) : list out :=
  [Out "Type Descriptor: name: %s, info: %x, " [Text (type_name t); Num (type_info t)]; kind_line (kind t)].
Definition print_loc (l : source_location) : list out :=
  [Out "Location Descriptor: file: %s, line: %d, column: %d" [Text (filename l); Num (line l); Num (column l)]].

Record overflow_data := mk_overflow { o_loc : source_location; o_type : type_descriptor }.
Record shift_out_of_bounds_data := mk_shift { s_loc : source_location; s_lhs : type_descriptor; s_rhs : type_descriptor }.
Record out_of_bounds_data := mk_bounds { b_loc : source_location; b_array : type_descriptor; b_index : type_descriptor }.
Record type_mismatch_data_v1 := mk_v1 { v_loc : source_location; v_type : type_descriptor; v_log_alignment : Z; v_kind : Z }.
Record type_mismatch_data := mk_mismatch { m_loc : source_location; m_type : type_descriptor; m_alignment : Z; m_kind : Z }.

Definition print_overflow (d : overflow_data) : list out := print_type (o_type d) ++ print_loc (o_loc d).
Definition print_shift (d : shift_out_of_bounds_data) : list out :=
  Out "rhs: " [] :: print_type (s_rhs d) ++ Out "lhs: " [] :: print_type (s_lhs d) ++ print_loc (s_loc d).
Definition print_bounds (d : out_of_bounds_data) : list out :=
  Out "Array: " [] :: print_type (b_array d) ++ Out "Index: " [] :: print_type (b_array d) ++ print_loc (b_loc d).

(** [vla_bound_data] and [invalid_value_data] have a location and a type, the rest a
    location. *)
Definition print_located (d : overflow_data) : list out := print_loc (o_loc d) ++ print_type (o_type d).

Definition type_check_kind : list string :=
  ["load of"; "store to"; "reference binding to"; "member access within"; "member call on"; "constructor call on"; "downcast of";
   "downcast of"; "upcast of"; "cast to virtual base of"]%string.

Definition binary (title : string) (d : overflow_data) (lhs rhs : Z) : list out :=
  Out title [] :: print_overflow d ++ [say "lhs: %x, rhs: %x" [lhs; rhs]].
Definition handle_add_overflow := binary "[UBSan]: Add overflow".
Definition handle_sub_overflow := binary "[UBSan]: Sub overflow".
Definition handle_pointer_overflow := binary "[UBSan]: Pointer overflow".
Definition handle_mul_overflow := binary "[UBSan]: Mul overflow".
Definition handle_divrem_overflow := binary "[UBSan]: Divide Remainder overflow".
Definition handle_negate_overflow (d : overflow_data) (old : Z) : list out :=
  Out "[UBSan]: Negate overflow" [] :: print_overflow d ++ [say "lhs: %x" [old]].
Definition handle_shift_out_of_bounds (d : shift_out_of_bounds_data) (lhs rhs : Z) : list out :=
  Out "[UBSan]: Shift out of bounds overflow" [] :: print_shift d ++ [say "lhs: %x, rhs: %x" [lhs; rhs]].
Definition handle_out_of_bounds (d : out_of_bounds_data) (index : Z) : list out :=
  Out "[UBSan]: Shift out of bounds overflow" [] :: print_bounds d ++ [say "index: %x" [index]].
Definition handle_nonnull_return (attribute_loc loc : source_location) : list out :=
  Out "[UBSan]: Nonnull return" [] :: print_loc attribute_loc ++ Out "Return loc: " [] :: print_loc loc ++ [Out "" []].
Definition handle_vla_bound_not_positive (d : overflow_data) (bound : Z) : list out :=
  Out "[UBSan]: vla bound not positive" [] :: print_located d ++ [say "bound: %x" [bound]].
Definition handle_load_invalid_value (d : overflow_data) (val : Z) : list out :=
  Out "[UBSan]: load invalid value" [] :: print_located d ++ [say "value: %x" [val]].
Definition handle_builtin_unreachable (loc : source_location) : list out := Out "[UBSan]: builtin unreachable" [] :: print_loc loc.
Definition handle_nonnull_arg (loc : source_location) : list out := Out "[UBSan]: nonnull arg" [] :: print_loc loc.

(** The part for an object that is too small; the table is indexed with the number
    from the compiler. *)
Definition insufficient (k ptr : Z) (t : type_descriptor) : res (list out) :=
  name ← access (type_check_kind !! Z.to_nat k);
  mret (Out "Insufficient size" [] ::
        Out "%s address %x with insufficient space for object of type" [Text name; Num ptr] :: print_type t).

(** [1 << log_alignment] is a shift of an int. *)
Definition handle_type_mismatch_v1 (trace : res (list out)) (d : type_mismatch_data_v1) (ptr : Z) : res (list out) :=
  l ← (if ptr =? 0 then t ← trace; mret (Out "Null pointer access" [] :: t)
       else
         mask ← (if v_log_alignment d <? 31 then mret (Z.shiftl 1 (v_log_alignment d) - 1) else Undef);
         if negb (Z.land ptr mask =? 0) then mret [Out "Unaligned memory access" []; say "ptr: %x" [ptr]]
         else insufficient (v_kind d) ptr (v_type d));
  mret (Out "[UBSan]: Type Mismatch" [] :: l ++ print_loc (v_loc d) ++ [say "aligned at: %x" [pow 2 (v_log_alignment d)]]).

Definition handle_type_mismatch (d : type_mismatch_data) (ptr : Z) : res (list out) :=
  l ← (if ptr =? 0 then mret [Out "Null pointer access" []]
       else if negb (Z.land ptr (u64 (m_alignment d - 1)) =? 0) then mret [Out "Unaligned memory access" []; say "ptr: %x" [ptr]]
       else insufficient (m_kind d) ptr (m_type d));
  mret (Out "[UBSan]: Type Mismatch" [] :: l ++ print_loc (m_loc d) ++ [say "aligned at: %x" [m_alignment d]]).
End ubsan.

(** ** Lemmas *)

Lemma pow_two a : 0 <= a < 64 -> pow 2 a = 2 ^ a.
Proof.
  intros Ha. unfold pow. assert (H : forall n t, 0 <= t -> t * 2 ^ Z.of_nat n < 2 ^ 64 -> pow_loop 2 n t = t * 2 ^ Z.of_nat n).
  { induction n as [| n IH]; intros t Ht Hb; cbn [pow_loop]; [by rewrite Z.mul_1_r |].
    rewrite Nat2Z.inj_succ, Z.pow_succ_r in * by lia. assert (0 < 2 ^ Z.of_nat n) by (apply Z.pow_pos_nonneg; lia).
    rewrite u64_small by (unfold is_u64; nia). rewrite IH by nia. ring. }
  rewrite H; [rewrite Z2Nat.id by lia; lia | lia |]. rewrite Z2Nat.id, Z.mul_1_l by lia. apply Z.pow_lt_mono_r; lia.
Qed.

(** ** Theorems: the stack trace *)

(** The frames from [p] on, by their return addresses, up to the first that ends the
    trace. *)
Fixpoint chain (m : bmem) (p : Z) (rips : list Z) : Prop :=
  match rips with
  | [] => p = 0 \/ debug.stops p m = true
  | rip :: rips => p <> 0 /\ debug.stops p m = false /\ debug.saved_rip p m = rip /\ chain m (debug.saved_rbp p m) rips
  end.

Definition trace_lines (i : Z) (l : list (Z * option (Z * Z))) : list out :=
  imap (fun j x => debug.trace_line (i + Z.of_nat j) x.1 x.2) l.

Lemma trace_loop_chain fuel i p rips syms s m :
  chain m p rips -> Forall2 (fun rip sym => elf.get_symbol rip s m = Ret sym) rips syms ->
  (length rips < fuel)%nat -> i + Z.of_nat (length rips) < u64_max ->
  debug.trace_loop fuel i p s m = Ret (trace_lines i (zip rips syms)).
Proof.
  intros Hc Hs. revert fuel i p Hc. induction Hs as [| rip sym rips syms Hr Hs IH]; intros fuel i p Hc Hf Hi;
    (destruct fuel as [| fuel]; [lia |]); cbn [debug.trace_loop chain length] in *.
  - destruct Hc as [-> | ->]; [by rewrite andb_false_r | by rewrite !andb_false_r].
  - destruct Hc as (Hp & Hst & Hrip & Hc). rewrite Hst, (proj2 (Z.eqb_neq p 0)), (proj2 (Z.ltb_lt i u64_max)) by (done || lia). cbn [negb andb].
    rewrite Hrip, Hr. cbn [mbind res_bind]. rewrite (IH fuel (i + 1)) by (done || lia). cbn [mbind res_bind mret res_ret zip zip_with].
    unfold trace_lines. rewrite imap_cons. cbn [fst snd]. rewrite Z.add_0_r. do 2 f_equal. apply imap_ext. intros j x _. cbn. f_equal. lia.
Qed.

(** The trace prints the frames of the stack: one line for each, in order and
    numbered from 0, with the return address and the symbol that the kernel has for
    it, up to the first frame that does not come from the kernel. *)
Theorem trace_stack_prints (fuel : nat) (p : Z) (rips : list Z) (syms : list (option (Z * Z))) (s : elf.symbols) (m : bmem) :
  chain m p rips -> Forall2 (fun rip sym => elf.get_symbol rip s m = Ret sym) rips syms ->
  (length rips < fuel)%nat -> Z.of_nat (length rips) < u64_max ->
  debug.trace_stack fuel p s m =
    Ret (Out "Starting Stack Trace" [] :: trace_lines 0 (zip rips syms) ++ [Out "End of Stack Trace" []]).
Proof. intros Hc Hs Hf Hi. unfold debug.trace_stack. by rewrite (trace_loop_chain _ _ _ rips syms). Qed.

(** Frames that lead to each other in a circle, which a damaged stack can have, keep
    the trace busy for 2^64 - 1 lines. *)
Theorem trace_stack_circle (fuel : nat) (p : Z) (frames : list Z) (s : elf.symbols) (m : bmem) :
  p ∈ frames -> Z.of_nat fuel < u64_max ->
  Forall (fun f => f <> 0 /\ debug.stops f m = false /\ debug.saved_rbp f m ∈ frames) frames ->
  (forall a, exists sym, elf.get_symbol a s m = Ret sym) ->
  debug.trace_stack fuel p s m = NoFuel.
Proof.
  intros Hp Hb Hf Hs. unfold debug.trace_stack.
  assert (H : forall i p, p ∈ frames -> i + Z.of_nat fuel < u64_max -> debug.trace_loop fuel i p s m = NoFuel).
  { clear p Hp Hb. induction fuel as [| fuel IH]; intros i p Hp Hi; [done |]. cbn [debug.trace_loop]. rewrite Forall_forall in Hf.
    destruct (Hf p Hp) as (H1 & H2 & H3). rewrite H2, (proj2 (Z.eqb_neq p 0)), (proj2 (Z.ltb_lt i u64_max)) by (done || lia). cbn [negb andb].
    destruct (Hs (debug.saved_rip p m)) as [sym ->]. cbn [mbind res_bind]. rewrite IH by (done || lia). done. }
  by rewrite H.
Qed.

(** ** Theorems: reports *)

(** All lists of [n] booleans. *)
Fixpoint vectors (n : nat) : list (list bool) :=
  match n with O => [[]] | S n => (cons true <$> vectors n) ++ (cons false <$> vectors n) end.

Lemma vectors_all l : l ∈ vectors (length l).
Proof.
  induction l as [| b l IH]; [left |]. cbn [vectors length]. apply elem_of_app.
  destruct b; [left | right]; by apply list_elem_of_fmap_2.
Qed.

(** What each text says of the error code. *)
Definition meanings : list (string * Z * bool) :=
  [("Page level protection violation, ", 0, true); ("Non-present page, ", 0, false); ("Write, ", 1, true); ("Read, ", 1, false);
   ("User access, ", 2, true); ("Supervisor access, ", 2, false); ("Reserved bit set, ", 3, true); ("Instruction fetch, ", 4, true);
   ("Protection key violation, ", 5, true); ("SGX violation, ", 15, true)]%string.

(** The report of a page fault is exact: each text is printed exactly when the bit of
    the error code that it describes has the value it describes, and nothing else is
    printed. *)
Theorem page_fault_report (e : Z) :
  is_u64 e ->
  Forall (fun x => bool_decide (x.1.1 ∈ fault.conditions e) = Bool.eqb (Z.testbit e x.1.2) x.2) meanings /\
  Forall (fun c => c ∈ meanings.*1.*1) (fault.conditions e) /\ NoDup (fault.conditions e).
Proof.
  intros He.
  set (texts := fun b : list bool =>
    let bit i := nth i b false in
    [if bit 0%nat then "Page level protection violation, " else "Non-present page, ";
     if bit 1%nat then "Write, " else "Read, "; if bit 2%nat then "User access, " else "Supervisor access, "]%string ++
    (if bit 3%nat then ["Reserved bit set, "] else [])%string ++ (if bit 4%nat then ["Instruction fetch, "] else [])%string ++
    (if bit 5%nat then ["Protection key violation, "] else [])%string ++ (if bit 6%nat then ["SGX violation, "] else [])%string).
  set (value := fun (b : list bool) (i : Z) => nth (if i =? 15 then 6%nat else Z.to_nat i) b false).
  assert (H : Forall (fun b => Forall (fun x => bool_decide (x.1.1 ∈ texts b) = Bool.eqb (value b x.1.2) x.2) meanings /\
      Forall (fun c => c ∈ meanings.*1.*1) (texts b) /\ NoDup (texts b)) (vectors 7)) by by_compute.
  rewrite Forall_forall in H.
  specialize (H (Z.testbit e <$> [0; 1; 2; 3; 4; 5; 15]) (vectors_all _)).
  unfold fault.conditions, fault.bit. rewrite !bit_test_64 by (done || lia).
  destruct H as [H1 H2]. split; [| exact H2].
  assert (Hv : Forall (fun x => value (Z.testbit e <$> [0; 1; 2; 3; 4; 5; 15]) x.1.2 = Z.testbit e x.1.2) meanings) by (repeat constructor).
  rewrite Forall_forall in H1, Hv |- *. intros x Hx. rewrite <- (Hv x Hx). exact (H1 x Hx).
Qed.

Definition with_rdx (v : Z) (r : process.registers) : process.registers :=
  process.mk_regs (process.rax r) (process.rbx r) (process.rcx r) v (process.rsi r) (process.rdi r) (process.rbp r) (process.rsp r)
    (process.r8 r) (process.r9 r) (process.r10 r) (process.r11 r) (process.r12 r) (process.r13 r) (process.r14 r) (process.r15 r)
    (process.rip r) (process.rflags r) (process.ss r) (process.ds r) (process.cs r).

(** Every exception is reported: the vector names one of the 32 entries.  The report
    does not show rdx: under its name it shows rbx. *)
Theorem exception_reported (n error_code lapic_id fsbase gsbase kgsbase v : Z) (tid : option Z) (r : process.registers) :
  0 <= n < 32 ->
  exists name text l,
    fault.exceptions !! Z.to_nat n = Some (name, text) /\
    fault.report n error_code lapic_id fsbase gsbase kgsbase tid r =
      Ret (Out "[IDT]: Received interrupt %d, #%s: %s, Error Code: %x" [Num n; Text name; Text text; Num error_code] :: l) /\
    fault.report n error_code lapic_id fsbase gsbase kgsbase tid (with_rdx v r) =
      fault.report n error_code lapic_id fsbase gsbase kgsbase tid r.
Proof.
  intros Hn. destruct (lookup_lt_is_Some_2 fault.exceptions (Z.to_nat n)) as [[name text] E]; [change (length fault.exceptions) with 32%nat; lia |].
  unfold fault.report. rewrite E. cbn [access mbind res_bind mret res_ret]. by eexists name, text, _.
Qed.

(** An interrupt that is no exception prints nothing and is dispatched. *)
Theorem interrupt_silent (fuel : nat) (i ec cpu fsb gsb kgsb : Z) (tid : option Z) (r : process.registers) (s : elf.symbols) (m : bmem)
    (before after : list idt.handler) :
  32 <= i < 256 ->
  fault.sigma_isr_handler fuel i ec cpu fsb gsb kgsb tid r s m before after =
    ('a ← idt.sigma_isr_handler i before after; Ret ([], a)).
Proof.
  intros Hi. unfold fault.sigma_isr_handler. change 0xFF with (Z.ones 8). rewrite Z.land_ones by lia. change (2 ^ 8) with 256.
  rewrite Z.mod_small, (proj2 (Z.ltb_ge i 32)) by lia. done.
Qed.

(** ** Theorems: the sanitizer *)

(** The two handlers for accesses of the wrong type agree, apart from the stack trace
    that the newer one prints for a null pointer, and both are right: null, not a
    multiple of the alignment, or too small an object. *)
Theorem type_mismatch_classified (trace : list out) (loc : ubsan.source_location) (t : ubsan.type_descriptor) (a k ptr : Z) (name : string) :
  0 <= a < 31 -> is_u64 ptr -> ubsan.type_check_kind !! Z.to_nat k = Some name ->
  let body tr :=
    if ptr =? 0 then Out "Null pointer access" [] :: tr
    else if negb (ptr mod 2 ^ a =? 0) then [Out "Unaligned memory access" []; say "ptr: %x" [ptr]]
    else Out "Insufficient size" [] :: Out "%s address %x with insufficient space for object of type" [Text name; Num ptr] :: ubsan.print_type t in
  let report tr := Out "[UBSan]: Type Mismatch" [] :: body tr ++ ubsan.print_loc loc ++ [say "aligned at: %x" [2 ^ a]] in
  ubsan.handle_type_mismatch_v1 (Ret trace) (ubsan.mk_v1 loc t a k) ptr = Ret (report trace) /\
  ubsan.handle_type_mismatch (ubsan.mk_mismatch loc t (2 ^ a) k) ptr = Ret (report []).
Proof.
  intros Ha Hp Hk body report. unfold ubsan.handle_type_mismatch_v1, ubsan.handle_type_mismatch, ubsan.insufficient.
  cbn [ubsan.v_log_alignment ubsan.v_kind ubsan.v_type ubsan.v_loc ubsan.m_alignment ubsan.m_kind ubsan.m_type ubsan.m_loc].
  rewrite Hk, pow_two, (proj2 (Z.ltb_lt a 31)) by lia. cbn [access mbind res_bind mret res_ret].
  assert (H2 : 1 <= 2 ^ a < 2 ^ 31) by (split; [pose proof (Z.pow_pos_nonneg 2 a); lia | apply Z.pow_lt_mono_r; lia]).
  assert (El : Z.land ptr (2 ^ a - 1) = ptr mod 2 ^ a) by (rewrite <- Z.land_ones, Z.ones_equiv by lia; f_equal; lia).
  rewrite Z.shiftl_1_l, u64_small, !El by (unfold is_u64; lia). unfold report, body.
  destruct (ptr =? 0), (ptr mod 2 ^ a =? 0); split; reflexivity.
Qed.

(** The report for an index out of bounds shows the type of the array twice and never
    that of the index. *)
Theorem bounds_index_lost (loc : ubsan.source_location) (arr i1 i2 : ubsan.type_descriptor) (index : Z) :
  ubsan.handle_out_of_bounds (ubsan.mk_bounds loc arr i1) index = ubsan.handle_out_of_bounds (ubsan.mk_bounds loc arr i2) index.
Proof. reflexivity. Qed.

(** The compiler has more kinds of accesses than the table: number 10 is outside. *)
Example dynamic_operation_kind ptr t : ubsan.insufficient 10 ptr t = Undef.
Proof. reflexivity. Qed.

(** ** Witnesses *)

(** Two frames: the second was called from address 0. *)
Definition stack_example : bmem := fun a =>
  if (0xffff800000001000 <=? a) && (a <? 0xffff800000001008) then Z.land (Z.shiftr 0xffff800000002000 (8 * (a - 0xffff800000001000))) 0xFF
  else if (0xffff800000001008 <=? a) && (a <? 0xffff800000001010) then Z.land (Z.shiftr 0xffffffff80001234 (8 * (a - 0xffff800000001008))) 0xFF
  else 0.

Lemma trace_stack_prints_witness :
  debug.trace_stack 2 0xffff800000001000 elf.no_symbols stack_example =
    Ret [Out "Starting Stack Trace" []; Out "%d: RIP [%x]" [Num 0; Num 0xffffffff80001234]; Out "End of Stack Trace" []].
Proof.
  apply (trace_stack_prints 2 0xffff800000001000 [0xffffffff80001234] [None]).
  - split; [discriminate |]. split; [vm_compute; reflexivity |]. split; [vm_compute; reflexivity |]. right. vm_compute. reflexivity.
  - by repeat constructor.
  - cbn. lia.
  - reflexivity.
Defined.

Definition circle_example : bmem := fun a =>
  if (0xffff800000001000 <=? a) && (a <? 0xffff800000001008) then Z.land (Z.shiftr 0xffff800000001000 (8 * (a - 0xffff800000001000))) 0xFF
  else if (0xffff800000001008 <=? a) && (a <? 0xffff800000001010) then Z.land (Z.shiftr 0xffffffff80001234 (8 * (a - 0xffff800000001008))) 0xFF
  else 0.

Lemma trace_stack_circle_witness : debug.trace_stack 1000 0xffff800000001000 elf.no_symbols circle_example = NoFuel.
Proof.
  apply (trace_stack_circle 1000 0xffff800000001000 [0xffff800000001000]); [left | reflexivity | | by eexists].
  apply Forall_cons; split; [| by apply Forall_nil]. split; [discriminate |]. split; [vm_compute; reflexivity |].
  assert (E : debug.saved_rbp 0xffff800000001000 circle_example = 0xffff800000001000) by (vm_compute; reflexivity). rewrite E. left.
Defined.

Lemma page_fault_report_witness : fault.conditions 0x6 = ["Non-present page, "; "Write, "; "User access, "]%string /\ NoDup (fault.conditions 0x6).
Proof. split; [reflexivity |]. apply (page_fault_report 0x6). unfold is_u64. lia. Defined.

Lemma exception_reported_witness :
  exists l, fault.report 14 2 0 0 0 0 None process.zero_regs =
    Ret (Out "[IDT]: Received interrupt %d, #%s: %s, Error Code: %x" [Num 14; Text "PF"; Text "Page Fault"; Num 2] :: l).
Proof.
  destruct (exception_reported 14 2 0 0 0 0 7 None process.zero_regs) as (name & text & l & E & H & _); [lia |].
  injection E as <- <-. exists l. exact H.
Defined.

Lemma interrupt_silent_witness :
  fault.sigma_isr_handler 0 33 0 0 0 0 0 None process.zero_regs elf.no_symbols stack_example
    (replicate idt.idt_max_entries (idt.mk_handler 33 0 0 true false)) [] = Ret ([], [idt.Eoi]).
Proof. rewrite interrupt_silent; [reflexivity | lia]. Defined.

Lemma type_mismatch_classified_witness :
  ubsan.handle_type_mismatch (ubsan.mk_mismatch (ubsan.mk_loc "a.c" 1 2) (ubsan.mk_type 0 0 "int") 4 1) 0x1002 =
    Ret [Out "[UBSan]: Type Mismatch" []; Out "Unaligned memory access" []; say "ptr: %x" [0x1002];
         Out "Location Descriptor: file: %s, line: %d, column: %d" [Text "a.c"; Num 1; Num 2]; say "aligned at: %x" [4]].
Proof.
  apply (type_mismatch_classified [] (ubsan.mk_loc "a.c" 1 2) (ubsan.mk_type 0 0 "int") 2 1 0x1002 "store to"); [lia | unfold is_u64; lia | reflexivity].
Defined.
