(* ===== verification/Support.v ===== *)
(** * Support: what the C++ compiler expects of the kernel, and klibcxx

    Models source/misc/cpp_support.cpp ([cxxabi]: the guards of static variables;
    [operator_new] and [operator_delete]) with malloc, realloc and free of klibc and
    the names of source/mm/hmm.cpp, all on the heap of Heap.v; source/misc/panic.cpp
    with klibcxx/experimental/source_location.hpp and abort; the generator of
    include/Sigma/misc/misc.h; and [std::unique_ptr] of klibcxx/memory.hpp with the
    functions of klibcxx/algorithm.hpp.

    A smart pointer is a variable in a store, so that an assignment of a pointer to
    itself is one object and not two.  Its deleter is an interface ([Deleter]); the
    heap with operator delete is an instance of it. *)

From S2P Require Import Prelude Bits Klibc Containers Frames Pmm Paging Lock Ipc Process Elf Fault Heap.

(** ** The heap under its other names *)

Module hmm.
Section ops.
Context {S : Type} `{FA : FrameAllocator S}.
Implicit Types h : alloc.heap S.
Definition init h : res (alloc.heap S) := alloc.init h.
Definition kmalloc (size : Z) h : res (Z * alloc.heap S) := alloc.alloc size h.
Definition kmalloc_a (size align : Z) h : res (Z * alloc.heap S) := alloc.alloc_a size align h.
Definition kfree (ptr : Z) h : res (alloc.heap S) := alloc.free ptr h.
Definition realloc (ptr size : Z) h : res (Z * alloc.heap S) := alloc.realloc ptr size h.
End ops.
End hmm.

(** ** The address space of the kernel *)

Module kernel_vmm.
(** [_instance]: the context, which is its [paging_info], and the global object. *)
Definition _instance {S} `{FA : FrameAllocator S} (instance : lazy_initializer.t Z) (k : paging.kernel S)
    : res (Z * lazy_initializer.t Z * paging.kernel S) :=
  if lazy_initializer._initialized instance then
    p ← lazy_initializer.get instance; mret (p, instance, k)
  else
    let instance := lazy_initializer.init instance 0 in
    p ← lazy_initializer.get instance;
    '(p, k) ← paging.init p k;
    mret (p, lazy_initializer.mk (lazy_initializer._initialized instance) (Some p), k).
End kernel_vmm.

Module cpp_support.
Section ops.
Context {S : Type} `{FA : FrameAllocator S}.
Implicit Types h : alloc.heap S.
Definition malloc (size : Z) h : res (Z * alloc.heap S) := hmm.kmalloc size h.
Definition realloc (ptr size : Z) h : res (Z * alloc.heap S) := hmm.realloc ptr size h.
Definition free (ptr : Z) h : res (alloc.heap S) := hmm.kfree ptr h.

(** All the forms of the operators; the size given to [delete] is not used. *)
Definition operator_new (size : Z) h : res (Z * alloc.heap S) := malloc size h.
Definition operator_delete (p : Z) h : res (alloc.heap S) := free p h.
End ops.
End cpp_support.

(** ** Guards of static variables *)

Module cxxabi.
(** A guard has 64 bits; the lock is in the lowest 16. *)
Definition with_word (g w : Z) : Z := g - g mod 65536 + w.

Definition guard_acquire (fuel : nat) (g : Z) : res (Z * Z) :=
  w ← spinlock.acquire fuel spinlock.Start (g mod 65536);
  let g := with_word g w in
  mret (u32 g, g).
Definition guard_release (g : Z) : Z := with_word g (spinlock.release (g mod 65536)).
Definition guard_abort {A} : res A := Panic "__cxa_guard_abort was called".

Definition atexit (func arg dso_handle : Z) : Z := 1.

(** The code that a compiler generates for a static variable inside a function: the
    first byte of the guard tells that the variable is initialised. *)
Definition enter {A} (fuel : nat) (init : A -> A) (s : Z * A) : res (Z * A) :=
  let '(g, a) := s in
  if u8 g =? 0 then
    '(r, g) ← guard_acquire fuel g;
    if r =? 0 then mret (g, a) else mret (guard_release g, init a)
  else mret (g, a).

Fixpoint enters {A} (n fuel : nat) (init : A -> A) (s : Z * A) : res (Z * A) :=
  match n with O => mret s | S n => s ← enter fuel init s; enters n fuel init s end.
End cxxabi.

(** ** compile_time_prng *)

Module prng.
Definition iterate (r x : Z) : Z := u64 (u64 (r * x) * u64 (1 - x)).

Fixpoint iterations_loop (n : nat) (r x : Z) : Z := match n with O => x | S n => iterations_loop n r (iterate r x) end.
Definition compile_time_prng (r seed iterations : Z) : Z := iterations_loop (Z.to_nat iterations) r seed.
End prng.

(** ** panic *)

Module panic.
Record source_location := mk_location { _line : Z; _column : Z; _file_name : string; _function_name : string }.
Definition unknown : source_location := mk_location 0 0 "Unknown" "Unknown".
Definition current (file func : string) (line col : Z) : source_location :=
  let loc := unknown in mk_location line col file func.

Definition abort : list out := [Out "Kernel panic, abort" []].

Definition report (message func : string) (loc : source_location) : out :=
  Out "KERNEL PANIC in file: %s in function %s on line: %d: %s"
    [Text (_file_name loc); Text func; Num (_line loc); Text message].

(** Both functions: the name of the function is the one of [loc] or is given. *)
Definition panic_m (fuel : nat) (message : string) (function_override : option string) (loc : source_location)
    (rbp : Z) (s : elf.symbols) (m : bmem) : res (list out) :=
  let func := match function_override with Some f => f | None => _function_name loc end in
  l ← debug.trace_stack fuel rbp s m;
  mret (report message func loc :: l ++ abort).
End panic.

(** ** std::unique_ptr *)

(** [get_deleter()(p)], on the objects of the program. *)
Class Deleter (M : Type) := { del : Z -> M -> res M }.

(** What a deleter promises: [rep m X] when [X] are the objects that exist. *)
Class DeleterOk (M : Type) `{Deleter M} (rep : M -> gset Z -> Prop) := {
  del_ok : forall m X p, rep m X -> p ∈ X -> exists m', del p m = Ret m' /\ rep m' (X ∖ {[p]}) }.

Module memory.
Section unique_ptr.
Context {M : Type} `{D : Deleter M}.

(** The variables; [None] is a pointer that is not initialised. *)
Record t := mk { _ptr : gmap nat (option Z); objects : M }.

Definition get (i : nat) (s : t) : res Z := v ← access (_ptr s !! i); access v.
Definition put (i : nat) (p : Z) (s : t) : t := mk (<[i := Some p]> (_ptr s)) (objects s).
Definition call_deleter (p : Z) (s : t) : res t := m ← del p (objects s); mret (mk (_ptr s) m).

Definition construct_default (i : nat) (s : t) : t := mk (<[i := None]> (_ptr s)) (objects s).
Definition construct_null (i : nat) (s : t) : t := put i 0 s.
Definition construct (i : nat) (p : Z) (s : t) : t := put i p s.

Definition release (i : nat) (s : t) : res (Z * t) := p ← get i s; mret (p, put i 0 s).
Definition reset (i : nat) (p : Z) (s : t) : res t :=
  _p ← get i s;
  let s := put i p s in
  if _p =? 0 then mret s else call_deleter _p s.

Definition construct_move (i j : nat) (s : t) : res t := '(p, s) ← release j s; mret (put i p s).
Definition assign_move (i j : nat) (s : t) : res t := '(p, s) ← release j s; reset i p s.
Definition assign_null (i : nat) (s : t) : res t := reset i 0 s.
Definition swap (i j : nat) (s : t) : res t := a ← get i s; b ← get j s; mret (put j a (put i b s)).

(** The destructor, after which the variable is gone. *)
Definition destroy (i : nat) (s : t) : res t :=
  p ← get i s;
  s ← (if p =? 0 then mret s else call_deleter p s);
  mret (mk (delete i (_ptr s)) (objects s)).

Definition make_unique (new : M -> res (Z * M)) (i : nat) (s : t) : res t :=
  '(p, m) ← new (objects s); mret (construct i p (mk (_ptr s) m)).

Definition operator_bool (i : nat) (s : t) : res bool := p ← get i s; mret (negb (p =? 0)).
Definition dereference (i : nat) (s : t) : res Z := p ← get i s; if p =? 0 then Undef else mret p.
End unique_ptr.
Arguments t M : clear implicits.

(** The comparisons, on the pointers of initialised variables. *)
Definition eq (x y : Z) : bool := x =? y.
Definition ne (x y : Z) : bool := negb (x =? y).
Definition lt (x y : Z) : bool := x <? y.
Definition le (x y : Z) : bool := negb (lt y x).
Definition gt (x y : Z) : bool := lt y x.
Definition ge (x y : Z) : bool := negb (lt x y).

(** The same with [nullptr] on the right and on the left. *)
Definition eq_null (x : Z) : bool := negb (negb (x =? 0)).
Definition ne_null (x : Z) : bool := negb (x =? 0).
Definition lt_null (x : Z) : bool := x <? 0.
Definition null_lt (y : Z) : bool := 0 <? y.
Definition le_null (x : Z) : bool := negb (null_lt x).
Definition null_le (y : Z) : bool := negb (lt_null y).
Definition gt_null (x : Z) : bool := null_lt x.
Definition null_gt (y : Z) : bool := lt_null y.
Definition ge_null (x : Z) : bool := negb (lt_null x).
Definition null_ge (y : Z) : bool := negb (null_lt y).
End memory.

(** ** klibcxx/algorithm.hpp, on the elements between two iterators *)

Module algorithm.
Fixpoint for_each {A S} (l : list A) (f : A -> S -> res S) (s : S) : res S :=
  match l with [] => mret s | a :: l => s ← f a s; for_each l f s end.

(** The iterator that is returned, as its distance from [first]. *)
Fixpoint find_if {A} (l : list A) (p : A -> bool) : nat :=
  match l with [] => 0 | a :: l => if p a then 0 else S (find_if l p) end.
End algorithm.

#[export] Instance heap_deleter {S} `{FA : FrameAllocator S} : Deleter (alloc.heap S) := {| del := cpp_support.operator_delete |}.

(** ** Specification of the smart pointers *)

Section owners.
Context {M : Type} `{D : Deleter M} (rep : M -> gset Z -> Prop).
Import memory.
Implicit Types (raw : gset Z) (s : t M).

(** The objects that exist are those in [raw], which the program holds through plain
    pointers, and those that exactly one variable points to. *)
Record owns (raw : gset Z) (s : t M) : Prop := {
  o_objects : exists X, rep (objects s) X /\
    forall p, p ∈ X <-> p ∈ raw \/ p <> 0 /\ exists i, _ptr s !! i = Some (Some p);
  o_unique : forall i j p, p <> 0 -> _ptr s !! i = Some (Some p) -> _ptr s !! j = Some (Some p) -> i = j;
  o_apart : forall i p, p ∈ raw -> _ptr s !! i <> Some (Some p);
  o_null : 0 ∉ raw }.

(** What a program does with the variables. *)
Inductive op :=
| Default (i : nat) | Null (i : nat) | Construct (i : nat) (p : Z) | ConstructMove (i j : nat) | Release (i : nat) | Reset (i : nat) (p : Z)
| AssignMove (i j : nat) | AssignNull (i : nat) | Swap (i j : nat) | Destroy (i : nat).

(** The plain pointers that the program is left with, and the variables. *)
Definition exec (o : op) (x : gset Z * t M) : res (gset Z * t M) :=
  let '(raw, s) := x in
  match o with
  | Default i => mret (raw, construct_default i s)
  | Null i => mret (raw, construct_null i s)
  | Construct i p => mret (raw ∖ {[p]}, construct i p s)
  | ConstructMove i j => s ← construct_move i j s; mret (raw, s)
  | Release i => '(p, s) ← release i s; mret (raw ∪ ({[p]} ∖ {[0]}), s)
  | Reset i p => s ← reset i p s; mret (raw ∖ {[p]}, s)
  | AssignMove i j => s ← assign_move i j s; mret (raw, s)
  | AssignNull i => s ← assign_null i s; mret (raw, s)
  | Swap i j => s ← swap i j s; mret (raw, s)
  | Destroy i => s ← destroy i s; mret (raw, s)
  end.

(** Constructors make new variables, the other operations use those that there are.
    The default constructor leaves its variable without a value, and no operation may
    read it, not even the destructor.  A variable takes only a plain pointer that the
    program holds, or null.  With [by_ref] the type of the deleter is a reference:
    for a deleter that is held by value the moves do not compile. *)
Definition valid (by_ref : bool) (o : op) (x : gset Z * t M) : Prop :=
  let '(raw, s) := x in
  let new i := _ptr s !! i = None in
  let old i := exists p, _ptr s !! i = Some (Some p) in
  match o with
  | Default i | Null i => new i
  | Construct i p => new i /\ (p = 0 \/ p ∈ raw)
  | ConstructMove i j => by_ref = true /\ new i /\ old j
  | Release i | AssignNull i | Destroy i => old i
  | Reset i p => old i /\ (p = 0 \/ p ∈ raw)
  | AssignMove i j => by_ref = true /\ old i /\ old j
  | Swap i j => old i /\ old j
  end.

Fixpoint valids (by_ref : bool) (l : list op) (x : gset Z * t M) : Prop :=
  match l with [] => True | o :: l => valid by_ref o x /\ forall x', exec o x = Ret x' -> valids by_ref l x' end.

Fixpoint run (l : list op) (x : gset Z * t M) : res (gset Z * t M) :=
  match l with [] => mret x | o :: l => x ← exec o x; run l x end.

Context {OK : DeleterOk M rep}.

Lemma get_old i p s : _ptr s !! i = Some (Some p) -> get i s = Ret p.
Proof. intros Hp. unfold get. by rewrite Hp. Qed.

(** A variable without a value. *)
Lemma owns_default i raw s : owns raw s -> _ptr s !! i = None -> owns raw (construct_default i s).
Proof.
  intros [(X & HX & Hin) Hu Ha H0] Hi.
  assert (Hv : forall j p, _ptr (construct_default i s) !! j = Some (Some p) <-> _ptr s !! j = Some (Some p)).
  { intros j p. cbn [_ptr construct_default]. rewrite lookup_insert_Some. split; [by intros [[_ [=]] | [_ Hj]] |]. intros Hj. right. split; [congruence | done]. }
  constructor; [| | | done].
  - exists X. split; [exact HX |]. intros p. rewrite Hin. by setoid_rewrite Hv.
  - intros j k p Hp. rewrite !Hv. by apply Hu.
  - intros j p Hp. rewrite Hv. by apply Ha.
Qed.

(** The four changes that the operations consist of: a pointer leaves a variable, a
    plain pointer goes to a variable that has none, an object is deleted, and a
    variable without pointer goes away. *)
Lemma owns_take i p raw s : owns raw s -> _ptr s !! i = Some (Some p) -> owns (raw ∪ ({[p]} ∖ {[0]})) (put i 0 s).
Proof.
  intros [(X & HX & Hin) Hu Ha H0] Hp. constructor; cbn [_ptr put objects].
  - exists X. split; [exact HX |]. intros q. rewrite Hin. setoid_rewrite lookup_insert_Some. split.
    + intros [Hq | (Hq & j & Hj)]; [left; set_solver |]. destruct (decide (i = j)) as [<- | Hn]; [left; set_solver | right; eauto].
    + intros [Hq | (Hq & j & [[_ [= <-]] | [_ Hj]])]; [| done | eauto].
      apply elem_of_union in Hq as [Hq | Hq]; [by left |]. right. split; [set_solver |]. exists i. set_solver.
  - intros j k q Hq [[_ [= <-]] | [_ Hj]]%lookup_insert_Some [[_ [=]] | [_ Hk]]%lookup_insert_Some; try done. eauto.
  - intros j q Hq [[_ [= <-]] | [Hn Hj]]%lookup_insert_Some; [set_solver |].
    apply elem_of_union in Hq as [Hq | Hq]; [by eapply Ha |]. assert (q = p) as -> by set_solver. apply Hn, (Hu i j p); set_solver.
  - set_solver.
Qed.

Lemma owns_give i p raw s :
  owns raw s -> _ptr s !! i = None \/ _ptr s !! i = Some (Some 0) -> p = 0 \/ p ∈ raw -> owns (raw ∖ {[p]}) (put i p s).
Proof.
  intros [(X & HX & Hin) Hu Ha H0] Hv Hp.
  assert (Hno : forall q, q <> 0 -> _ptr s !! i <> Some (Some q)) by (intros q Hq E; destruct Hv as [Hv | Hv]; congruence).
  assert (Hpr : forall j, p <> 0 -> _ptr s !! j <> Some (Some p)) by (intros j Hq; destruct Hp; [done | by apply Ha]).
  constructor; cbn [_ptr put objects].
  - exists X. split; [exact HX |]. intros q. rewrite Hin. setoid_rewrite lookup_insert_Some. split.
    + intros [Hq | (Hq & j & Hj)].
      * destruct (decide (q = p)) as [-> | Hn]; [right | left; set_solver]. split; [congruence | eauto].
      * right. split; [done |]. exists j. right. split; [intros -> | done]. by apply (Hno q).
    + intros [Hq | (Hq & j & [[_ [= ->]] | [_ Hj]])]; [left; set_solver | left; tauto | right; eauto].
  - intros j k q Hq [[<- [= ->]] | [_ Hj]]%lookup_insert_Some [[<- E] | [_ Hk]]%lookup_insert_Some; [done | | | eauto].
    + by apply Hpr in Hk.
    + injection E as ->. by apply Hpr in Hj.
  - intros j q Hq [[_ [= ->]] | [Hn Hj]]%lookup_insert_Some; [set_solver | apply (Ha j q); set_solver].
  - set_solver.
Qed.

Lemma owns_delete p raw s : owns raw s -> p ∈ raw -> exists s', call_deleter p s = Ret s' /\ _ptr s' = _ptr s /\ owns (raw ∖ {[p]}) s'.
Proof.
  intros [(X & HX & Hin) Hu Ha H0] Hp. destruct (del_ok (objects s) X p HX) as (m & Hd & Hm); [apply Hin; by left |].
  exists (mk (_ptr s) m). unfold call_deleter. rewrite Hd. split_and!; [done | done |]. constructor; cbn [_ptr objects]; [| done | | set_solver].
  - exists (X ∖ {[p]}). split; [exact Hm |]. intros q. rewrite !elem_of_difference, elem_of_singleton, Hin. split; [tauto |].
    intros [[Hq Hn] | (Hq & j & Hj)]; [tauto |]. split; [eauto |]. intros ->. by apply (Ha j p Hp).
  - intros j q Hq. apply Ha. set_solver.
Qed.

Lemma owns_drop i raw s : owns raw s -> _ptr s !! i = Some (Some 0) -> owns raw (mk (delete i (_ptr s)) (objects s)).
Proof.
  intros [(X & HX & Hin) Hu Ha H0] Hp. constructor; cbn [_ptr objects]; [| | | done].
  - exists X. split; [exact HX |]. intros q. rewrite Hin. setoid_rewrite lookup_delete_Some. split.
    + intros [Hq | (Hq & j & Hj)]; [by left |]. right. split; [done |]. exists j. split; [congruence | done].
    + intros [Hq | (Hq & j & _ & Hj)]; eauto.
  - intros j k q Hq [_ Hj]%lookup_delete_Some [_ Hk]%lookup_delete_Some. eauto.
  - intros j q Hq [_ Hj]%lookup_delete_Some. by apply (Ha j q).
Qed.

Lemma reset_ok i p raw s :
  owns raw s -> (exists q, _ptr s !! i = Some (Some q)) -> p = 0 \/ p ∈ raw -> exists s', reset i p s = Ret s' /\ owns (raw ∖ {[p]}) s'.
Proof.
  intros O [q Hq] Hp. unfold reset. rewrite (get_old i q s Hq). cbn [mbind res_bind].
  assert (Hqr : q ∉ raw \/ q = 0) by (left; intros Hin; by apply (o_apart _ _ O i q)). assert (H0 := o_null _ _ O).
  assert (O' : owns ((raw ∪ ({[q]} ∖ {[0]})) ∖ {[p]}) (put i p s)).
  { replace (put i p s) with (put i p (put i 0 s)) by (unfold put; cbn; by rewrite insert_insert_eq).
    apply owns_give; [by apply owns_take | right; apply lookup_insert_eq | set_solver]. }
  destruct (Z.eqb_spec q 0) as [-> | Hq0].
  - eexists. split; [reflexivity |]. replace (raw ∖ {[p]}) with ((raw ∪ ({[0]} ∖ {[0]})) ∖ {[p]}) by set_solver. exact O'.
  - assert (q <> p) by (intros ->; set_solver). destruct (owns_delete q _ _ O') as (s' & Hd & _ & O''); [set_solver |].
    exists s'. split; [exact Hd |]. replace (raw ∖ {[p]}) with ((raw ∪ ({[q]} ∖ {[0]})) ∖ {[p]} ∖ {[q]}) by set_solver. exact O''.
Qed.

Lemma take_give p raw s i : owns raw s -> _ptr s !! i = Some (Some p) -> (raw ∪ ({[p]} ∖ {[0]})) ∖ {[p]} = raw.
Proof. intros O Hp. assert (p ∉ raw) by (intros Hin; by apply (o_apart _ _ O i p)). set_solver. Qed.

Lemma swap_ok i j a b raw s : owns raw s -> _ptr s !! i = Some (Some a) -> _ptr s !! j = Some (Some b) -> exists s', swap i j s = Ret s' /\ owns raw s'.
Proof.
  intros O Ha Hb. unfold swap. rewrite (get_old i a s Ha), (get_old j b s Hb). cbn [mbind res_bind]. eexists. split; [reflexivity |].
  assert (O1 := owns_take i a raw s O Ha). destruct (decide (i = j)) as [<- | Hn].
  - assert (b = a) as -> by congruence.
    assert (O2 := owns_give i a _ _ O1 (or_intror (lookup_insert_eq _ _ _)) ltac:(destruct (decide (a = 0)); set_solver)). rewrite (take_give a raw s i O Ha) in O2.
    unfold put in *. cbn in *. by rewrite insert_insert_eq in O2 |- *.
  - assert (O2 : owns (raw ∪ ({[a]} ∖ {[0]}) ∪ ({[b]} ∖ {[0]})) (put j 0 (put i 0 s))) by (apply owns_take; [done |]; cbn; by rewrite lookup_insert_ne).
    apply (owns_give i b) in O2; [| right; cbn; rewrite lookup_insert_ne, lookup_insert_eq by done; done | destruct (decide (b = 0)); set_solver].
    assert (Hab : b <> 0 -> a <> b) by (intros Hb0 ->; by apply Hn, (o_unique _ _ O i j b)).
    apply (owns_give j a) in O2; [| right; cbn; rewrite lookup_insert_ne, lookup_insert_eq by done; done | destruct (decide (a = 0)); set_solver].
    replace ((raw ∪ ({[a]} ∖ {[0]}) ∪ ({[b]} ∖ {[0]})) ∖ {[b]} ∖ {[a]}) with raw in O2.
    + replace (put j a (put i b s)) with (put j a (put i b (put j 0 (put i 0 s)))); [exact O2 |]. unfold put. cbn. f_equal.
      rewrite (insert_insert_ne _ i j) by done. rewrite !insert_insert_eq. by rewrite insert_insert_ne by done.
    + assert (a ∉ raw) by (intros Hin; by apply (o_apart _ _ O i a)). assert (b ∉ raw) by (intros Hin; by apply (o_apart _ _ O j b)). set_solver.
Qed.

Lemma destroy_ok i p raw s : owns raw s -> _ptr s !! i = Some (Some p) -> exists s', destroy i s = Ret s' /\ owns raw s'.
Proof.
  intros O Hp. unfold destroy. rewrite (get_old i p s Hp). cbn [mbind res_bind].
  assert (O1 := owns_take i p raw s O Hp). assert (Hnr := take_give p raw s i O Hp).
  assert (Hd : forall f : gmap nat (option Z), delete i (<[i := Some 0]> f) = delete i f) by (intros f; apply delete_insert_eq).
  destruct (Z.eqb_spec p 0) as [-> | Hp0].
  - eexists. split; [reflexivity |]. cbn. apply (owns_drop i) in O1; [| apply lookup_insert_eq]. cbn in O1. rewrite Hd in O1.
    by replace (raw ∪ ({[0]} ∖ {[0]})) with raw in O1 by set_solver.
  - destruct (owns_delete p _ _ O1) as (s' & Hc & Hf & O2); [set_solver |]. rewrite Hnr in O2.
    unfold call_deleter in Hc |- *. cbn [objects put] in Hc. destruct (del p (objects s)) as [m | | |]; try done. injection Hc as <-.
    eexists. split; [reflexivity |]. cbn. apply (owns_drop i) in O2; [| apply lookup_insert_eq]. cbn in O2. by rewrite Hd in O2.
Qed.

Lemma exec_ok by_ref o raw s : owns raw s -> valid by_ref o (raw, s) -> exists raw' s', exec o (raw, s) = Ret (raw', s') /\ owns raw' s'.
Proof.
  intros O. assert (H0 := o_null _ _ O). assert (Hraw : raw ∖ {[0]} = raw) by set_solver.
  destruct o as [i | i | i p | i j | i | i p | i j | i | i j | i]; cbn [valid exec]; intros Hv.
  - eexists _, _. split; [reflexivity | by apply owns_default].
  - eexists _, _. split; [reflexivity |]. apply (owns_give i 0) in O; [| by left | by left]. by rewrite Hraw in O.
  - eexists _, _. split; [reflexivity |]. apply owns_give; [done | left; tauto | tauto].
  - destruct Hv as (_ & Hi & p & Hp). unfold construct_move, release. rewrite (get_old j p s Hp).
    eexists _, _. split; [reflexivity |]. rewrite <- (take_give p raw s j O Hp). apply owns_give; [by apply owns_take | | destruct (decide (p = 0)); set_solver].
    left. cbn. rewrite lookup_insert_ne by congruence. exact Hi.
  - destruct Hv as [p Hp]. unfold release. rewrite (get_old i p s Hp). eexists _, _. split; [reflexivity |]. by apply owns_take.
  - destruct (reset_ok i p raw s O) as (s' & -> & O'); [tauto | tauto |]. eauto.
  - destruct Hv as (_ & [q Hq] & p & Hp). unfold assign_move, release. rewrite (get_old j p s Hp). cbn [mbind res_bind mret res_ret].
    destruct (reset_ok i p _ _ (owns_take j p raw s O Hp)) as (s' & -> & O'); [| destruct (decide (p = 0)); set_solver |].
    { cbn. destruct (decide (i = j)) as [-> | Hn]; [rewrite lookup_insert_eq; eauto | rewrite lookup_insert_ne by done; eauto]. }
    rewrite (take_give p raw s j O Hp) in O'. eexists _, _. split; [reflexivity | exact O'].
  - unfold assign_null. destruct (reset_ok i 0 raw s O) as (s' & -> & O'); [done | by left |]. rewrite Hraw in O'. eauto.
  - destruct Hv as [[a Ha] [b Hb]]. destruct (swap_ok i j a b raw s O Ha Hb) as (s' & -> & O'). eauto.
  - destruct Hv as [p Hp]. destruct (destroy_ok i p raw s O Hp) as (s' & -> & O'). eauto.
Qed.
End owners.

(** ** The heap as the objects of the smart pointers *)

(** The heap is well formed and its live regions are at the addresses in [X]. *)
Definition heap_rep {S} `{FA : FrameAllocator S} (h : alloc.heap S) (X : gset Z) : Prop :=
  exists own root L, heap_ok own root h L /\ X = list_to_set (live L).*1.

#[export] Instance heap_deleter_ok {S} `{FA : FrameAllocatorLaws S} : DeleterOk (alloc.heap S) heap_rep.
Proof.
  constructor. intros h X p (own & root & L & OK & ->) Hp.
  apply elem_of_list_to_set, list_elem_of_fmap in Hp as ([q n] & -> & Hin). cbn [fst].
  destruct (free_ok own root h L q n OK Hin) as (h' & L' & Hf & OK' & HP & _). exists h'. split; [exact Hf |].
  exists own, root, L'. split; [exact OK' |]. assert (Hn := live_nodup _ _ _ (ok_spans _ _ _ _ OK)).
  rewrite HP in Hn |- *. rewrite fmap_cons in Hn |- *. cbn [fst] in *. apply NoDup_cons in Hn as [Hn _].
  apply set_eq. intros x. rewrite elem_of_difference, !elem_of_list_to_set, elem_of_singleton, elem_of_cons.
  split; [tauto | intros Hx; split; [by right | by intros ->]].
Qed.

(** ** Theorems: new and delete *)

(** new returns an object that did not exist before; delete of an existing object
    removes this object only; deleting a null pointer does nothing; and new with a
    size of 0 returns a null pointer. *)
Theorem new_delete_exact {S} `{FA : FrameAllocatorLaws S} (own : gmap Z (nat * Z)) (root : Z)
    (h : alloc.heap S) (L : list (Z * alloc.header)) (sz : Z) :
  heap_ok own root h L -> 0 < sz -> room 6 (sz + alloc.sizeof_header) h ->
  cpp_support.operator_new 0 h = Ret (0, h) /\ cpp_support.operator_delete 0 h = Ret h /\
  exists p h', cpp_support.operator_new sz h = Ret (p, h') /\ p ∉ (list_to_set (live L).*1 : gset Z) /\ p <> 0 /\
    heap_rep h' ({[p]} ∪ list_to_set (live L).*1) /\
    forall q, q ∈ ({[p]} ∪ list_to_set (live L).*1 : gset Z) ->
      exists h'', cpp_support.operator_delete q h' = Ret h'' /\ heap_rep h'' (({[p]} ∪ list_to_set (live L).*1) ∖ {[q]}).
Proof.
  intros OK Hsz Hr. split_and!; [done | done |].
  destruct (alloc_ok own root h L sz OK Hsz Hr) as (p & n & h' & own' & L' & Ha & OK' & Hp & _ & HP & _).
  assert (Hrep : heap_rep h' ({[p]} ∪ list_to_set (live L).*1)) by (exists own', root, L'; split; [exact OK' | by rewrite HP]).
  exists p, h'. split_and!; [exact Ha | | exact Hp | exact Hrep |].
  - assert (Hn := live_nodup _ _ _ (ok_spans _ _ _ _ OK')). rewrite HP in Hn. cbn in Hn. apply NoDup_cons in Hn as [Hn _].
    by rewrite elem_of_list_to_set.
  - intros q Hq. exact (del_ok h' _ q Hrep Hq).
Qed.

Lemma new_delete_exact_witness :
  exists (h : alloc.heap pmm.state) p h', cpp_support.operator_new 24 h = Ret (p, h') /\ heap_rep h' ({[p]} ∪ list_to_set (live []).*1).
Proof.
  destruct heap_example as (h & own & OK & _ & _ & Hr).
  destruct (new_delete_exact own root_example h [] 24) as (_ & _ & p & h' & H1 & _ & _ & H2 & _);
    [exact OK | lia | apply Hr; unfold alloc.sizeof_header; lia |]. exists h, p, h'. split; [exact H1 | exact H2].
Defined.

(** The first use of the address space of the kernel makes its table; every later use
    gives the same table and leaves the memory alone. *)
Theorem kernel_vmm_once {S} `{FA : FrameAllocator S} (k k' : paging.kernel S) (p : Z) :
  paging.init 0 k = Ret (p, k') ->
  exists instance, kernel_vmm._instance lazy_initializer.create k = Ret (p, instance, k') /\
    forall k2 : paging.kernel S, kernel_vmm._instance instance k2 = Ret (p, instance, k2).
Proof.
  intros H. exists (lazy_initializer.mk true (Some p)). split; [| done].
  unfold kernel_vmm._instance, lazy_initializer.init, lazy_initializer.get.
  cbn [lazy_initializer._initialized lazy_initializer._storage lazy_initializer.create access mbind res_bind mret res_ret]. by rewrite H.
Qed.

Lemma kernel_vmm_once_witness :
  exists p k' instance, kernel_vmm._instance lazy_initializer.create heap_machine = Ret (p, instance, k') /\
    forall k2, kernel_vmm._instance instance k2 = Ret (p, instance, k2).
Proof.
  assert (Hb : match paging.init 0 heap_machine with Ret _ => true | _ => false end = true) by (vm_compute; reflexivity).
  destruct (paging.init 0 heap_machine) as [[p k'] | | |] eqn:E; [| discriminate Hb ..].
  destruct (kernel_vmm_once heap_machine k' p E) as (instance & H1 & H2). exists p, k', instance. split; [exact H1 | exact H2].
Defined.

(** ** Theorems: smart pointers *)

(** C39: Objects behind smart pointers are neither lost nor deleted twice.  A program
    makes, moves, swaps, resets and destroys variables in any order; it does not read a
    variable that the default constructor has made, which is undefined, and it moves
    only pointers whose deleter is a reference, since other moves do not compile.
    Then every operation returns, each object is in one place (a variable, or a plain
    pointer the program holds), and the deleter is called for objects that exist only;
    when no variable points to an object any more, what exists is what the program
    holds plain pointers to. *)
Theorem unique_ptr_owns {M} `{D : Deleter M} (rep : M -> gset Z -> Prop) {OK : DeleterOk M rep}
    (by_ref : bool) (l : list op) (raw : gset Z) (s : memory.t M) :
  owns rep raw s -> valids by_ref l (raw, s) ->
  exists raw' s', run l (raw, s) = Ret (raw', s') /\ owns rep raw' s' /\
    ((forall i p, memory._ptr s' !! i = Some (Some p) -> p = 0) -> rep (memory.objects s') raw').
Proof.
  intros O Hv. assert (H : exists raw' s', run l (raw, s) = Ret (raw', s') /\ owns rep raw' s').
  { revert raw s O Hv. induction l as [| o l IH]; intros raw s O Hv; cbn [run valids] in *; [eauto |]. destruct Hv as [Ho Hv].
    destruct (exec_ok rep by_ref o raw s O Ho) as (raw1 & s1 & He & O1). rewrite He. cbn [mbind res_bind]. by apply IH, Hv. }
  destruct H as (raw' & s' & Hr & O'). exists raw', s'. split_and!; [done | done |]. intros E.
  destruct (o_objects _ _ _ O') as (X & HX & Hin). replace raw' with X; [exact HX |]. apply set_eq. intros p. rewrite Hin. split; [| tauto].
  intros [? | (Hp & i & Hi)]; [done |]. by apply E in Hi.
Qed.

(** Objects that are only counted: deleting one that does not exist is undefined. *)
#[export] Instance set_deleter : Deleter (gset Z) := {| del p X := if decide (p ∈ X) then Ret (X ∖ {[p]}) else Undef |}.

#[export] Instance set_deleter_ok : DeleterOk (gset Z) eq.
Proof. constructor. intros X ? p <- Hp. cbn. rewrite decide_True by done. eauto. Qed.

(** One object goes from variable to variable, and to itself, until it is destroyed; a
    second one is released and stays; a variable is never given a value. *)
Definition pointers_example : list op :=
  [Construct 1 5; ConstructMove 2 1; AssignMove 2 2; Null 3; Swap 2 3; Construct 4 7; Release 4; AssignMove 1 3;
   Default 5; Reset 1 0; AssignNull 2; Destroy 1; Destroy 2; Destroy 3; Destroy 4].

Lemma unique_ptr_owns_witness :
  exists raw' s', run pointers_example ({[5; 7]}, memory.mk ∅ {[5; 7]}) = Ret (raw', s') /\ owns eq raw' s' /\
    ((forall i p, memory._ptr s' !! i = Some (Some p) -> p = 0) -> memory.objects s' = raw').
Proof.
  apply (unique_ptr_owns eq true).
  - constructor; cbn [memory._ptr memory.objects]; [| by intros i j p _ [=] | by intros i p _ [=] | by_compute].
    exists {[5; 7]}. split; [reflexivity |]. intros p. split; [by left |]. intros [H | (_ & i & [=])]. exact H.
  - unfold pointers_example.
    repeat (split; [vm_compute; intuition eauto | let E := fresh "E" in intros ? E; vm_compute in E; injection E as <-]). exact I.
Defined.

Example pointers_example_run :
  run pointers_example ({[5; 7]}, memory.mk ∅ {[5; 7]}) = Ret ({[7]}, memory.mk {[5%nat := None]} {[7]}).
Proof. vm_compute. reflexivity. Qed.

(** The default constructor leaves the pointer without a value: the destructor of
    such a variable, and every other operation that reads it, is undefined. *)
Theorem default_pointer_undefined {M} `{D : Deleter M} (i : nat) (p : Z) (s : memory.t M) :
  memory.destroy i (memory.construct_default i s) = Undef /\ memory.reset i p (memory.construct_default i s) = Undef /\
  memory.operator_bool i (memory.construct_default i s) = Undef /\ memory.release i (memory.construct_default i s) = Undef.
Proof.
  unfold memory.destroy, memory.reset, memory.operator_bool, memory.release, memory.get, memory.construct_default. cbn [memory._ptr].
  by rewrite lookup_insert_eq.
Qed.

(** The comparisons are those of the addresses, and a comparison with [nullptr] is
    the one with a null pointer, on both sides. *)
Theorem unique_ptr_comparisons (x y : Z) :
  memory.eq x y = bool_decide (x = y) /\ memory.ne x y = bool_decide (x <> y) /\
  memory.lt x y = bool_decide (x < y) /\ memory.le x y = bool_decide (x <= y) /\
  memory.gt x y = bool_decide (x > y) /\ memory.ge x y = bool_decide (x >= y) /\
  memory.eq_null x = memory.eq x 0 /\ memory.ne_null x = memory.ne x 0 /\
  memory.lt_null x = memory.lt x 0 /\ memory.le_null x = memory.le x 0 /\ memory.gt_null x = memory.gt x 0 /\ memory.ge_null x = memory.ge x 0 /\
  memory.null_lt y = memory.lt 0 y /\ memory.null_le y = memory.le 0 y /\ memory.null_gt y = memory.gt 0 y /\ memory.null_ge y = memory.ge 0 y.
Proof.
  unfold memory.eq, memory.ne, memory.lt, memory.le, memory.gt, memory.ge, memory.eq_null, memory.ne_null, memory.lt_null, memory.le_null,
    memory.gt_null, memory.ge_null, memory.null_lt, memory.null_le, memory.null_gt, memory.null_ge, memory.le, memory.lt, memory.gt.
  split_and!; try done; try (case_bool_decide; lia). by rewrite negb_involutive.
Qed.

Lemma find_if_spec {A} (l : list A) (p : A -> bool) :
  algorithm.find_if l p = match list_find (fun a => p a = true) l with Some (i, _) => i | None => length l end.
Proof.
  induction l as [| a l IH]; [done |]. cbn. destruct (p a) eqn:E; [by rewrite decide_True |]. rewrite decide_False by congruence.
  rewrite IH. by destruct (list_find _ l) as [[i b] |].
Qed.

(** ** Theorems: guards *)

(** The guard of a static variable is used as a lock only.  While one CPU runs the
    initialisation the first byte of the guard is 1, which means that it is done:
    every other CPU goes on without waiting.  Afterwards the byte is 0 again, so
    that each later pass runs the initialisation once more. *)
Theorem static_guard_inverted {A} (init : A -> A) (a : A) (fuel n : nat) :
  (0 < fuel)%nat ->
  cxxabi.guard_acquire fuel 0 = Ret (1, 1) /\ cxxabi.enter fuel init (1, a) = Ret (1, a) /\
  cxxabi.guard_release 1 = 0 /\ cxxabi.enters n fuel init (0, a) = Ret (0, Nat.iter n init a).
Proof.
  intros Hf. destruct fuel as [| fuel]; [lia |]. split_and!; [done.. |].
  revert a. induction n as [| n IH]; intros a; [done |]. cbn [cxxabi.enters]. change (cxxabi.enter (S fuel) init (0, a)) with (Ret (0, init a)).
  cbn [mbind res_bind]. rewrite IH. by rewrite Nat.iter_succ_r.
Qed.

Lemma static_guard_inverted_witness : cxxabi.enters 3 1 (fun x => x + 1) (0, 0) = Ret (0, 3).
Proof. apply (static_guard_inverted (fun x => x + 1) 0 1 3). lia. Defined.

(** ** Theorems: the generator *)

Lemma iterate_divides r x k : 0 <= k < 64 -> (2 | r) -> (2 ^ k | x) -> (2 ^ (k + 1) | prng.iterate r x).
Proof.
  intros Hk [a ->] [b ->]. unfold prng.iterate, u64. rewrite <- Z.mul_mod by lia. change 18446744073709551616 with (2 ^ 64).
  apply Z.mod_divide; [lia |]. rewrite <- Znumtheory.Zmod_div_mod; [| lia | lia |].
  - apply Z.mod_divide; [lia |]. exists (a * b * (1 - b * 2 ^ k)). rewrite Z.pow_add_r by lia. ring.
  - exists (2 ^ (64 - (k + 1))). rewrite <- Z.pow_add_r by lia. f_equal. lia.
Qed.

Lemma iterations_divide n r x k :
  0 <= k -> k + Z.of_nat n <= 64 -> (2 | r) -> (2 ^ k | x) -> (2 ^ (k + Z.of_nat n) | prng.iterations_loop n r x).
Proof.
  revert x k. induction n as [| n IH]; intros x k Hk Hb Hr Hx; cbn [prng.iterations_loop]; [by rewrite Z.add_0_r |].
  replace (k + Z.of_nat (S n)) with (k + 1 + Z.of_nat n) by lia. apply IH; [lia | lia | done |]. apply iterate_divides; [lia | done | done].
Qed.

(** The generator for constants is not chaotic on integers: for every even [r], and
    from every seed, its value is 0 from the 64th iteration on. *)
Theorem prng_collapses (r seed iterations : Z) :
  (2 | r) -> 64 <= iterations -> prng.compile_time_prng r seed iterations = 0.
Proof.
  intros Hr Hi. unfold prng.compile_time_prng. replace (Z.to_nat iterations) with (64 + Z.to_nat (iterations - 64))%nat by lia.
  set (n := Z.to_nat (iterations - 64)).
  assert (Hz : forall k, prng.iterations_loop k r 0 = 0).
  { induction k as [| k IH]; [done |]. cbn [prng.iterations_loop]. replace (prng.iterate r 0) with 0; [done |].
    unfold prng.iterate. by rewrite Z.mul_0_r. }
  assert (Happ : forall k m x, prng.iterations_loop (k + m) r x = prng.iterations_loop m r (prng.iterations_loop k r x)).
  { induction k as [| k IH]; intros m x; [done |]. apply IH. }
  rewrite Happ. replace (prng.iterations_loop 64 r seed) with 0; [apply Hz |].
  assert (Hd := iterations_divide 64 r seed 0 ltac:(lia) ltac:(lia) Hr (Z.divide_1_l seed)).
  assert (Hu : 0 <= prng.iterations_loop 64 r seed < 2 ^ 64).
  { change (prng.iterations_loop 64 r seed) with (prng.iterations_loop (63 + 1) r seed). rewrite Happ. apply u64_range. }
  destruct Hd as [q Hq]. rewrite Hq in *. change (0 + Z.of_nat 64) with 64 in *. nia.
Qed.

Lemma prng_collapses_witness : prng.compile_time_prng 43244 0xC6AF8B7718FFF628 64 = 0.
Proof. apply prng_collapses; [by exists 21622 | lia]. Defined.

(** ** Theorems: panic *)

(** A panic prints where it happened, in the function that the location or the
    caller names, the frames of the stack and that the kernel stops. *)
Theorem panic_reports (fuel : nat) (message file func : string) (line : Z) (override : option string)
    (p : Z) (rips : list Z) (syms : list (option (Z * Z))) (s : elf.symbols) (m : bmem) :
  chain m p rips -> Forall2 (fun rip sym => elf.get_symbol rip s m = Ret sym) rips syms ->
  (length rips < fuel)%nat -> Z.of_nat (length rips) < u64_max ->
  panic.panic_m fuel message override (panic.current file func line 0) p s m =
    Ret (Out "KERNEL PANIC in file: %s in function %s on line: %d: %s" [Text file; Text (default func override); Num line; Text message]
         :: Out "Starting Stack Trace" [] :: trace_lines 0 (zip rips syms) ++ [Out "End of Stack Trace" []; Out "Kernel panic, abort" []]).
Proof.
  intros Hc Hs Hf Hi. unfold panic.panic_m, debug.trace_stack. rewrite (trace_loop_chain fuel 0 p rips syms s m) by (done || lia).
  cbn [mbind res_bind mret res_ret]. unfold panic.report, panic.abort, panic.current. cbn [panic._file_name panic._line panic._function_name app].
  rewrite <- app_assoc. cbn [app]. by destruct override.
Qed.

Lemma panic_reports_witness :
  panic.panic_m 2 "Unknown FD" None (panic.current "syscall.cpp" "serve_kernel_vfs" 7 0) 0xffff800000001000 elf.no_symbols stack_example =
    Ret [Out "KERNEL PANIC in file: %s in function %s on line: %d: %s" [Text "syscall.cpp"; Text "serve_kernel_vfs"; Num 7; Text "Unknown FD"];
         Out "Starting Stack Trace" []; Out "%d: RIP [%x]" [Num 0; Num 0xffffffff80001234]; Out "End of Stack Trace" [];
         Out "Kernel panic, abort" []].
Proof.
  apply (panic_reports 2 "Unknown FD" "syscall.cpp" "serve_kernel_vfs" 7 None 0xffff800000001000 [0xffffffff80001234] [None]).
  - split; [discriminate |]. split; [vm_compute; reflexivity |]. split; [vm_compute; reflexivity |]. right. vm_compute. reflexivity.
  - by repeat constructor.
  - cbn. lia.
  - reflexivity.
Defined.
