(* ===== verification/Acpi.v ===== *)
(** * Acpi: the tables of the firmware

    Models source/acpi/acpi.cpp (the collection and lookup of tables), the table
    layouts of include/Sigma/acpi/tables.h and fadt.h, and source/acpi/madt.cpp
    with include/Sigma/acpi/madt.h.  The tables are bytes of the memory that the
    kernel sees through its direct mapping.  The linked lists of tables, CPUs and
    interrupt controllers are lists ([Containers.linked_list_refines_list]).  The
    addresses that the AML interpreter finds are arguments; how it is started is in
    Lai.v. *)

From S2P Require Import Prelude Bits Klibc Fields Frames Pmm Paging Containers Initrd.

(** ** Tables *)

Module acpi.
(** Offsets in [sdt_header], [rsdt]/[xsdt] and [fadt]. *)
Definition length_offset : Z := 4.
Definition sizeof_sdt_header : Z := 36.
Definition dsdt_offset : Z := 40.
Definition sci_int_offset : Z := 46.
Definition iapc_boot_arch_offset : Z := 109.
Definition x_dsdt_offset : Z := 140.

Definition dsdt_signature : list Z := [68; 83; 68; 84].
Definition fadt_signature : list Z := [70; 65; 67; 80].

Definition table_length (header : Z) (m : bmem) : Z := le_at m (header + length_offset) 4.

(** [sum += ((uint8_t* )header)[i]] for the first [n] bytes. *)
Fixpoint checksum (n : nat) (header : Z) (m : bmem) (sum : Z) : Z :=
  match n with O => sum | S n => checksum n (header + 1) m (u8 (sum + m header)) end.

Definition do_checksum (header : Z) (m : bmem) : bool :=
  checksum (Z.to_nat (table_length header m)) header m 0 =? 0.

Section mapping.
Context {S : Type} `{FA : FrameAllocator S}.

Definition table_flags : Z := Z.lor map_page_flags_present map_page_flags_no_execute.

(** [map_table]: the page of the header, then the pages around the table. *)
Definition map_table (paging_info phys : Z) (m : bmem) (k : paging.kernel S) : res (Z * paging.kernel S) :=
  k ← paging.map_page paging_info phys (to_virt phys) table_flags uncacheable k;
  let h := to_virt phys in
  let addr := u64 (phys - block_size) in
  let n_pages := u64 (div_ceil (table_length h m) block_size + 2) in
  k ← for_loop (Z.to_nat n_pages) 0 (fun j k =>
        let phys := u64 (addr + j * block_size) in
        paging.map_page paging_info phys (to_virt phys) table_flags uncacheable k) k;
  mret (h, k).

(** The state of acpi.cpp. *)
Record state := mk { revision : Z; acpi_tables : list Z; dsdt_override : Z }.

(** The comparison of the first four characters. *)
Definition has_signature (signature : list Z) (header : Z) (m : bmem) : bool :=
  bool_decide (Forall (fun i => nth (Z.to_nat i) signature 0 = m (header + i)) [0; 1; 2; 3]).

(** The loop over the tables. *)
Fixpoint find_table (l : list Z) (signature : list Z) (index curr : Z) (m : bmem) : Z :=
  match l with
  | [] => 0
  | header :: l =>
      if has_signature signature header m then
        if curr =? index then header else find_table l signature index (u64 (curr + 1)) m
      else find_table l signature index curr m
  end.

(** [get_table]; [override] is the result of [kernel_args::get_str("dsdt_override")].
    A missing FADT is a null pointer that the code reads through. *)
Definition get_table (paging_info override : Z) (signature : list Z) (index : Z) (st : state) (m : bmem)
    (k : paging.kernel S) : res (Z * paging.kernel S) :=
  if bool_decide (take 4 signature = dsdt_signature) then
    if override =? 0 then
      let fadt := find_table (acpi_tables st) fadt_signature 0 0 m in
      if fadt =? 0 then Undef
      else
        let x_dsdt := le_at m (fadt + x_dsdt_offset) 8 in
        let dsdt_phys_addr :=
          if is_canonical x_dsdt && negb (revision st =? 1) then x_dsdt else le_at m (fadt + dsdt_offset) 4 in
        map_table paging_info dsdt_phys_addr m k
    else mret (dsdt_override st, k)
  else mret (find_table (acpi_tables st) signature index 0 m, k).

Definition get_arch_boot_flags (st : state) (m : bmem) : res Z :=
  let fadt := find_table (acpi_tables st) fadt_signature 0 0 m in
  if fadt =? 0 then Undef else mret (le_at m (fadt + iapc_boot_arch_offset) 2).

(** The entries of the root table: [n] of them from [tables] on, [width] bytes wide. *)
Fixpoint read_entries (n : nat) (paging_info width tables : Z) (m : bmem) (acc : list Z) (k : paging.kernel S)
  : res (list Z * paging.kernel S) :=
  match n with
  | O => mret (acc, k)
  | Datatypes.S n =>
      let entry := le_at m tables (Z.to_nat width) in
      if entry =? 0 then read_entries n paging_info width (tables + width) m acc k
      else
        '(h, k) ← map_table paging_info entry m k;
        read_entries n paging_info width (tables + width) m (if do_checksum h m then acc ++ [h] else acc) k
  end.

(** What [lai_bios_detect_rsdp] reports. *)
Record rsdp_info := mk_info { acpi_version : Z; rsdp_address : Z; rsdt_address : Z; xsdt_address : Z }.

(** [init] up to the AML interpreter: the root table and its entries, and the file
    that overrides the DSDT, read to [buffer]. *)
Definition init (paging_info : Z) (info : option rsdp_info) (fuel : nat) (override buffer : Z) (headers : vector.t Z)
    (st : state) (m : bmem) (k : paging.kernel S) : res (state * bmem * paging.kernel S) :=
  match info with
  | None => mret (st, m, k)
  | Some info =>
      k ← paging.map_page paging_info (rsdp_address info) (to_virt (rsdp_address info)) table_flags normal k;
      let st := mk (acpi_version info) (acpi_tables st) (dsdt_override st) in
      '(tables, k) ← map_table paging_info (if 1 <? revision st then xsdt_address info else rsdt_address info) m k;
      if negb (do_checksum tables m) then mret (st, m, k)
      else
        let width := if 1 <? revision st then 8 else 4 in
        let entries := u64 (table_length tables m - sizeof_sdt_header) / width in
        '(l, k) ← read_entries (Z.to_nat entries) paging_info width (tables + sizeof_sdt_header) m (acpi_tables st) k;
        let st := mk (revision st) l (dsdt_override st) in
        if override =? 0 then mret (st, m, k)
        else
          size ← initrd.get_size fuel override headers m;
          if size =? 0 then Panic "Supplied DSDT override size is 0"
          else
            '(_, m) ← initrd.read_file fuel override buffer 0 size headers m;
            mret (mk (revision st) l buffer, m, k)
  end.
End mapping.
End acpi.

(** ** The MADT *)

Module madt.
Record cpu_entry := mk_cpu { lapic_id : Z; x2apic : bool; bsp : bool }.
Record interrupt_override := mk_iso { source : Z; gsi : Z; iso_flags : Z }.

Record t := mk {
  legacy_pic : bool; lapic_addr : Z; cpus : list cpu_entry; ioapics : list (Z * Z); isos : list interrupt_override }.

Definition create : t := mk false 0 [] [] [].

Definition sizeof_madt_header : Z := 44.
Definition lapic_addr_offset : Z := 36.
Definition flags_offset : Z := 40.

Definition flags_pc_at_compatibility : Z := 0.
Definition type_lapic : Z := 0.
Definition type_ioapic : Z := 1.
Definition type_interrupt_source_override : Z := 2.
Definition type_lapic_address_override : Z := 5.
Definition type_x2apic : Z := 9.
Definition madt_lapic_flags_enabled : Z := 0.
Definition madt_lapic_flags_online_capable : Z := 1.

Section parse.
(** [cpuid] leaf 1 register [ebx] and leaf 0xB register [edx] of the CPU that
    parses, [None] when the leaf is missing. *)
Context (cpuid1 cpuidB : option Z).

Definition usable (flags : Z) : bool :=
  let enabled := bitops.bit_test 32 flags madt_lapic_flags_enabled in
  enabled || (negb enabled && bitops.bit_test 32 flags madt_lapic_flags_online_capable).

Definition parse_lapic (item : Z) (m : bmem) (s : t) : t :=
  let apic_id := m (item + 3) in
  if usable (le_at m (item + 4) 4) then
    let b := match cpuid1 with Some b => Z.land (Z.shiftr b 24) 0xFF =? apic_id | None => false end in
    mk (legacy_pic s) (lapic_addr s) (cpus s ++ [mk_cpu apic_id false b]) (ioapics s) (isos s)
  else s.

Definition parse_x2apic (item : Z) (m : bmem) (s : t) : t :=
  let x2apic_id := le_at m (item + 4) 4 in
  if usable (le_at m (item + 8) 4) then
    let b := match cpuidB with Some d => d =? x2apic_id | None => false end in
    mk (legacy_pic s) (lapic_addr s) (cpus s ++ [mk_cpu x2apic_id true b]) (ioapics s) (isos s)
  else s.

Definition parse_ioapic (item : Z) (m : bmem) (s : t) : t :=
  mk (legacy_pic s) (lapic_addr s) (cpus s) (ioapics s ++ [(le_at m (item + 4) 4, le_at m (item + 8) 4)]) (isos s).

Definition parse_iso (item : Z) (m : bmem) (s : t) : t :=
  mk (legacy_pic s) (lapic_addr s) (cpus s) (ioapics s)
    (isos s ++ [mk_iso (m (item + 3)) (le_at m (item + 4) 4) (le_at m (item + 8) 2)]).

Definition parse_lapic_address_override (item : Z) (m : bmem) (s : t) : t :=
  mk (legacy_pic s) (le_at m (item + 4) 8) (cpus s) (ioapics s) (isos s).

Definition parse_item (item : Z) (m : bmem) (s : t) : t :=
  let type := m item in
  if type =? type_lapic then parse_lapic item m s
  else if type =? type_ioapic then parse_ioapic item m s
  else if type =? type_interrupt_source_override then parse_iso item m s
  else if type =? type_x2apic then parse_x2apic item m s
  else if type =? type_lapic_address_override then parse_lapic_address_override item m s
  else s.

(** [while((list + offset) < (list + table_size))]. *)
Fixpoint parse_loop (fuel : nat) (list table_size offset : Z) (m : bmem) (s : t) : res t :=
  match fuel with
  | O => NoFuel
  | S fuel =>
      if u64 (list + offset) <? u64 (list + table_size) then
        let item := u64 (list + offset) in
        parse_loop fuel list table_size (u64 (offset + m (item + 1))) m (parse_item item m s)
      else mret s
  end.

Definition parse (fuel : nat) (table : Z) (m : bmem) (s : t) : res t :=
  let s := mk (bitops.bit_test 32 (le_at m (table + flags_offset) 4) flags_pc_at_compatibility)
              (Z.land (le_at m (table + lapic_addr_offset) 4) 0xFFFFFFFF) (cpus s) (ioapics s) (isos s) in
  let table_size := u64 (acpi.table_length table m - sizeof_madt_header) in
  parse_loop fuel (u64 (table + sizeof_madt_header)) table_size 0 m s.
End parse.
End madt.

(** ** Specification: an encoder of MADTs *)

Inductive madt_record :=
| Lapic (uid id flags : Z)
| Ioapic (id addr gsi : Z)
| Iso (bus source gsi flags : Z)
| LapicAddress (address : Z)
| X2apic (id flags uid : Z)
| OtherRecord (type : Z) (payload : list Z).

Definition encode_record (r : madt_record) : list Z :=
  match r with
  | Lapic uid id flags => [0; 8; uid; id] ++ le_bytes 4 flags
  | Ioapic id addr gsi => [1; 12; id; 0] ++ le_bytes 4 addr ++ le_bytes 4 gsi
  | Iso bus source gsi flags => [2; 10; bus; source] ++ le_bytes 4 gsi ++ le_bytes 2 flags
  | LapicAddress address => [5; 12; 0; 0] ++ le_bytes 8 address
  | X2apic id flags uid => [9; 16; 0; 0] ++ le_bytes 4 id ++ le_bytes 4 flags ++ le_bytes 4 uid
  | OtherRecord type payload => type :: (2 + Z.of_nat (length payload)) :: payload
  end.

Definition is_u32 (x : Z) : Prop := 0 <= x < 256 ^ 4.

(** The numbers fit their fields; other records have other types. *)
Definition record_ok (r : madt_record) : Prop :=
  match r with
  | Lapic _ _ flags => is_u32 flags
  | Ioapic _ addr gsi => is_u32 addr /\ is_u32 gsi
  | Iso _ _ gsi flags => is_u32 gsi /\ 0 <= flags < 256 ^ 2
  | LapicAddress address => 0 <= address < 256 ^ 8
  | X2apic id flags uid => is_u32 id /\ is_u32 flags /\ is_u32 uid
  | OtherRecord type payload => type ∉ [0; 1; 2; 5; 9] /\ (length payload <= 253)%nat
  end.

#[export] Instance record_ok_dec r : Decision (record_ok r).
Proof. destruct r; unfold record_ok, is_u32; apply _. Defined.

Definition cpu_usable (flags : Z) : bool := Z.testbit flags 0 || Z.testbit flags 1.

(** What a record adds: usable CPUs, interrupt controllers and overrides, in
    order; the CPU that parses is the boot processor. *)
Definition add_record (cpuid1 cpuidB : option Z) (s : madt.t) (r : madt_record) : madt.t :=
  let 'madt.mk pic addr cpus ioapics isos := s in
  match r with
  | Lapic _ id flags =>
      if cpu_usable flags then
        madt.mk pic addr
          (cpus ++ [madt.mk_cpu id false (bool_decide (bits 24 8 <$> cpuid1 = Some id))]) ioapics isos
      else s
  | X2apic id flags _ =>
      if cpu_usable flags then
        madt.mk pic addr (cpus ++ [madt.mk_cpu id true (bool_decide (cpuidB = Some id))]) ioapics isos
      else s
  | Ioapic _ a gsi => madt.mk pic addr cpus (ioapics ++ [(a, gsi)]) isos
  | Iso _ source gsi flags => madt.mk pic addr cpus ioapics (isos ++ [madt.mk_iso source gsi flags])
  | LapicAddress a => madt.mk pic a cpus ioapics isos
  | OtherRecord _ _ => s
  end.

(** ** Lemmas *)

Lemma bit_test_32 item b : 0 <= item < 2 ^ 32 -> 0 <= b < 64 -> bitops.bit_test 32 item b = Z.testbit item b.
Proof.
  intros Hi Hb. unfold bitops.bit_test. rewrite Z.mod_small by (apply word_land; lia). rewrite land_bit64_eqb by lia. apply negb_involutive.
Qed.

Lemma usable_flags flags : is_u32 flags -> madt.usable flags = cpu_usable flags.
Proof.
  intros Hf. unfold madt.usable, cpu_usable. rewrite !bit_test_32 by (unfold is_u32 in Hf; lia || done).
  change madt.madt_lapic_flags_enabled with 0. change madt.madt_lapic_flags_online_capable with 1. by destruct (Z.testbit flags 0).
Qed.

(** The numbers inside encoded bytes. *)
Lemma le_at_in m a l1 n v l2 k :
  bytes_at m a (l1 ++ le_bytes n v ++ l2) -> 0 <= v < 256 ^ Z.of_nat n -> k = Z.of_nat (length l1) -> le_at m (a + k) n = v.
Proof.
  intros Hb Hv ->. apply le_at_bytes; [done |]. intros i b Hi. rewrite <- Z.add_assoc, <- Nat2Z.inj_add. apply Hb.
  rewrite lookup_app_r by lia. replace (length l1 + i - length l1)%nat with i by lia. apply lookup_app_l_Some. exact Hi.
Qed.

Lemma byte_in m a l i b : bytes_at m a l -> l !! Z.to_nat i = Some b -> 0 <= i -> m (a + i) = b.
Proof. intros Hb Hi Hp. rewrite <- (Z2Nat.id i) by lia. by apply Hb. Qed.

Lemma length_record r : record_ok r -> Z.of_nat (length (encode_record r)) = default 0 (encode_record r !! 1%nat) /\ (2 <= length (encode_record r) <= 255)%nat.
Proof. destruct r; cbn; rewrite ?length_app, ?length_le_bytes; cbn; lia. Qed.

Lemma eqb_bool_decide (a b : Z) : (a =? b) = bool_decide (a = b).
Proof. destruct (Z.eqb_spec a b); case_bool_decide; congruence. Qed.

Lemma parse_record c1 cB a r m s :
  record_ok r -> bytes_at m a (encode_record r) -> madt.parse_item c1 cB a m s = add_record c1 cB s r.
Proof.
  intros Hok Hb. assert (Ht : m a = default 0 (encode_record r !! 0%nat)).
  { rewrite <- (Z.add_0_r a). apply (byte_in m a (encode_record r)); [done | by destruct r | lia]. }
  unfold madt.parse_item. rewrite Ht.
  destruct s as [pic addr cpus ioapics isos], r as [uid id flags | id ad g | bus src g flags | ad | id flags uid | ty p].
  - change (madt.parse_lapic c1 a m (madt.mk pic addr cpus ioapics isos) = add_record c1 cB (madt.mk pic addr cpus ioapics isos) (Lapic uid id flags)).
    unfold madt.parse_lapic. rewrite (byte_in m a _ 3 id Hb) by (done || lia).
    rewrite (le_at_in m a [0; 8; uid; id] 4 flags [] 4) by (rewrite ?app_nil_r; done). rewrite usable_flags by done.
    cbn. destruct (cpu_usable flags); [| done]. do 4 f_equal. destruct c1 as [b |]; [| done]. cbn.
    rewrite eqb_bool_decide. apply bool_decide_ext. split; [intros E; f_equal; exact E | intros [= E]; exact E].
  - destruct Hok as [Ha Hg]. cbn. unfold madt.parse_ioapic.
    rewrite (le_at_in m a [1; 12; id; 0] 4 ad (le_bytes 4 g) 4) by done.
    rewrite (le_at_in m a ([1; 12; id; 0] ++ le_bytes 4 ad) 4 g [] 8) by (rewrite ?app_nil_r, <- ?app_assoc; done). done.
  - destruct Hok as [Hg Hf]. cbn. unfold madt.parse_iso. rewrite (byte_in m a _ 3 src Hb) by (done || lia).
    rewrite (le_at_in m a [2; 10; bus; src] 4 g (le_bytes 2 flags) 4) by done.
    rewrite (le_at_in m a ([2; 10; bus; src] ++ le_bytes 4 g) 2 flags [] 8) by (rewrite ?app_nil_r, <- ?app_assoc; done). done.
  - cbn. unfold madt.parse_lapic_address_override.
    rewrite (le_at_in m a [5; 12; 0; 0] 8 ad [] 4) by (rewrite ?app_nil_r; done). done.
  - destruct Hok as (Hi & Hf & Hu).
    change (madt.parse_x2apic cB a m (madt.mk pic addr cpus ioapics isos) = add_record c1 cB (madt.mk pic addr cpus ioapics isos) (X2apic id flags uid)).
    unfold madt.parse_x2apic. rewrite (le_at_in m a [9; 16; 0; 0] 4 id (le_bytes 4 flags ++ le_bytes 4 uid) 4) by done.
    rewrite (le_at_in m a ([9; 16; 0; 0] ++ le_bytes 4 id) 4 flags (le_bytes 4 uid) 8) by (rewrite <- ?app_assoc; done).
    rewrite usable_flags by done. cbn. destruct (cpu_usable flags); [| done]. do 4 f_equal. destruct cB as [d |]; [| done].
    rewrite eqb_bool_decide. apply bool_decide_ext. split; [intros E; f_equal; exact E | intros [= E]; exact E].
  - destruct Hok as [Hty _]. cbn. rewrite !not_elem_of_cons in Hty. destruct Hty as (H0 & H1 & H2 & H5 & H9 & _).
    unfold madt.type_lapic, madt.type_ioapic, madt.type_interrupt_source_override, madt.type_x2apic, madt.type_lapic_address_override.
    by rewrite !(proj2 (Z.eqb_neq ty _)) by done.
Qed.

(** The loop over encoded records. *)
Lemma parse_loop_records c1 cB rs list size offset m s fuel :
  Forall record_ok rs -> 0 <= list -> 0 <= offset -> list + size + 256 <= 2 ^ 64 ->
  bytes_at m (list + offset) (concat (encode_record <$> rs)) -> size = offset + Z.of_nat (length (concat (encode_record <$> rs))) ->
  (length rs < fuel)%nat ->
  madt.parse_loop c1 cB fuel list size offset m s = Ret (fold_left (add_record c1 cB) rs s).
Proof.
  revert offset s fuel. induction rs as [| r rs IH]; intros offset s fuel Hok Hl Ho Hb Hm Hs Hf;
    (destruct fuel as [| fuel]; [cbn in Hf; lia |]); cbn [madt.parse_loop].
  - cbn in Hs. replace size with offset by lia. by rewrite Z.ltb_irrefl.
  - apply Forall_cons in Hok as [Hr Hok]. cbn [fmap list_fmap concat] in Hm, Hs. rewrite length_app in Hs.
    destruct (length_record r Hr) as [Hlen Hlr]. apply bytes_at_app in Hm as [Hm1 Hm2].
    rewrite !u64_small by (unfold is_u64; lia). destruct (Z.ltb_spec (list + offset) (list + size)); [| lia].
    assert (Hn : m (list + offset + 1) = Z.of_nat (length (encode_record r))).
    { rewrite Hlen. apply (byte_in m _ (encode_record r)); [done | by destruct r | lia]. }
    rewrite Hn, (parse_record c1 cB _ r) by done. rewrite u64_small by (unfold is_u64; lia). cbn [fold_left].
    apply IH; [done | done | lia | done | by rewrite Z.add_assoc | lia | cbn in Hf; lia].
Qed.

(** One round of the loop while the addresses do not wrap. *)
Lemma parse_loop_round c1 cB fuel list size offset m s :
  0 <= list -> 0 <= size -> list + size + 256 <= 2 ^ 64 -> (forall x, 0 <= m x < 256) -> 0 <= offset <= size + 255 ->
  madt.parse_loop c1 cB (S fuel) list size offset m s =
    if offset <? size
    then madt.parse_loop c1 cB fuel list size (offset + m (list + offset + 1)) m (madt.parse_item c1 cB (list + offset) m s)
    else Ret s.
Proof.
  intros Hl Hs Hb Hm Ho. cbn [madt.parse_loop]. assert (Hx := Hm (list + offset + 1)).
  rewrite (u64_small (list + offset)), (u64_small (list + size)) by (unfold is_u64; lia).
  destruct (Z.ltb_spec (list + offset) (list + size)), (Z.ltb_spec offset size); try lia; [| done].
  by rewrite u64_small by (unfold is_u64; lia).
Qed.

(** The offsets of the records of a table of [size] bytes at [base], from an offset on:
    the second byte of a record leads to the next one. *)
Inductive walk (m : bmem) (base size : Z) : Z -> list Z -> Prop :=
| walk_end o : size <= o -> walk m base size o []
| walk_record o l : o < size -> m (base + o + 1) <> 0 -> walk m base size (o + m (base + o + 1)) l -> walk m base size o (o :: l).

(** They lead to a record of length zero. *)
Inductive leads_to_zero (m : bmem) (base size : Z) : Z -> Prop :=
| zero_here o : o < size -> m (base + o + 1) = 0 -> leads_to_zero m base size o
| zero_later o : o < size -> m (base + o + 1) <> 0 -> leads_to_zero m base size (o + m (base + o + 1)) -> leads_to_zero m base size o.

Section rounds.
Context (c1 cB : option Z) (base size : Z) (m : bmem).
Context (Hl : 0 <= base) (Hsz : 0 <= size) (Hb : base + size + 256 <= 2 ^ 64) (Hm : forall x, 0 <= m x < 256).

Lemma parse_loop_walk o l : walk m base size o l -> forall fuel s, 0 <= o <= size + 255 -> (Z.to_nat (size - o) < fuel)%nat ->
  madt.parse_loop c1 cB fuel base size o m s = Ret (foldl (fun s o => madt.parse_item c1 cB (base + o) m s) s l).
Proof using Hl Hsz Hb Hm.
  induction 1 as [o Ho | o l Ho Hne _ IH]; intros [| fuel] s Hr Hf; [lia | | lia |]; rewrite parse_loop_round by done.
  - by rewrite (proj2 (Z.ltb_ge o size)) by lia.
  - rewrite (proj2 (Z.ltb_lt o size)) by lia. assert (Hx := Hm (base + o + 1)). apply IH; lia.
Qed.

Lemma parse_loop_zero o : leads_to_zero m base size o -> forall fuel s, 0 <= o -> madt.parse_loop c1 cB fuel base size o m s = NoFuel.
Proof using Hl Hsz Hb Hm.
  induction 1 as [o Ho E | o Ho Hne _ IH]; intros fuel s Hr.
  - revert s. induction fuel as [| fuel IH]; intros s; [done |]. rewrite parse_loop_round by (done || lia).
    rewrite (proj2 (Z.ltb_lt o size)), E, Z.add_0_r by lia. apply IH.
  - destruct fuel as [| fuel]; [done |]. rewrite parse_loop_round by (done || lia). rewrite (proj2 (Z.ltb_lt o size)) by lia.
    assert (Hx := Hm (base + o + 1)). apply IH. lia.
Qed.

Lemma walk_or_zero (n : nat) : forall o, size - o <= Z.of_nat n -> leads_to_zero m base size o \/ exists l, walk m base size o l.
Proof using Hm.
  induction n as [| n IH]; intros o Ho; (destruct (Z.lt_ge_cases o size) as [Hlt | Hge]; [| right; exists []; by constructor]); [lia |].
  assert (Hx := Hm (base + o + 1)). destruct (Z.eq_dec (m (base + o + 1)) 0) as [E | E]; [left; by constructor |].
  destruct (IH (o + m (base + o + 1)) ltac:(lia)) as [Hz | [l Hw]]; [left; by constructor | right; exists (o :: l); by constructor].
Qed.
End rounds.

(** The search for a table goes through the matching ones in order. *)
Lemma find_table_nth l sig index curr m :
  0 <= curr <= index -> index < 2 ^ 64 ->
  acpi.find_table l sig index curr m =
    default 0 (filter (fun h => acpi.has_signature sig h m = true) l !! Z.to_nat (index - curr)).
Proof.
  revert curr. induction l as [| h l IH]; intros curr Hc Hi; [done |]. cbn [acpi.find_table]. rewrite filter_cons.
  destruct (acpi.has_signature sig h m) eqn:E.
  - rewrite decide_True by done. destruct (Z.eqb_spec curr index) as [-> |]; [by rewrite Z.sub_diag |].
    rewrite u64_small, IH by (unfold is_u64; lia). replace (Z.to_nat (index - curr)) with (S (Z.to_nat (index - (curr + 1)))) by lia. done.
  - rewrite decide_False by done. by apply IH.
Qed.

Lemma checksum_sum n h m sum : 0 <= sum < 256 -> acpi.checksum n h m sum = (sum + foldr Z.add 0 ((fun i => m (h + i)) <$> seqZ 0 (Z.of_nat n))) mod 256.
Proof.
  revert h sum. induction n as [| n IH]; intros h sum Hs; [cbn; rewrite Z.add_0_r; by rewrite Z.mod_small |].
  cbn [acpi.checksum]. rewrite IH by apply u8_range. rewrite (seqZ_cons 0 (Z.of_nat (S n))) by lia. cbn [fmap list_fmap foldr].
  rewrite Z.add_0_r. replace (Z.pred (Z.of_nat (S n))) with (Z.of_nat n) by lia.
  replace ((fun i => m (h + i)) <$> seqZ (Z.succ 0) (Z.of_nat n)) with ((fun i => m (h + 1 + i)) <$> seqZ 0 (Z.of_nat n)).
  - unfold u8. rewrite Zplus_mod_idemp_l. f_equal. lia.
  - change (Z.succ 0) with (1 + 0). rewrite <- fmap_add_seqZ, <- list_fmap_compose. apply list_fmap_ext. intros i x _. cbn. f_equal. lia.
Qed.

Lemma le_at_range m a n : (forall x, 0 <= m x < 256) -> 0 <= le_at m a n < 2 ^ (8 * Z.of_nat n).
Proof.
  intros Hm. revert a. induction n as [| n IH]; intros a; cbn [le_at]; [lia |]. assert (Hx := Hm a). specialize (IH (a + 1)).
  replace (8 * Z.of_nat (S n)) with (8 * Z.of_nat n + 8) by lia. rewrite Z.pow_add_r by lia. change (2 ^ 8) with 256. lia.
Qed.

Lemma mem_of_range a l : Forall (fun c => 0 <= c < 256) l -> forall x, 0 <= mem_of a l x < 256.
Proof.
  intros Hl x. unfold mem_of. destruct (x <? a); [lia |]. destruct (l !! Z.to_nat (x - a)) as [c |] eqn:E; cbn; [| lia].
  by eapply Forall_lookup_1 in Hl.
Qed.

(** ** Theorems *)

(** The MADT.  For every list of records laid out in a table, parsing finds
    exactly the usable CPUs with the boot processor marked, the interrupt
    controllers and the overrides, in the order of the table, and the last address
    override of the local controllers; unknown records are skipped. *)
Theorem madt_roundtrip (c1 cB : option Z) (rs : list madt_record) (table flags addr : Z) (m : bmem) :
  Forall record_ok rs -> is_u32 flags -> is_u32 addr ->
  0 <= table -> table + 44 + Z.of_nat (length (concat (encode_record <$> rs))) + 256 <= 2 ^ 64 ->
  le_at m (table + madt.flags_offset) 4 = flags -> le_at m (table + madt.lapic_addr_offset) 4 = addr ->
  acpi.table_length table m = 44 + Z.of_nat (length (concat (encode_record <$> rs))) ->
  bytes_at m (table + 44) (concat (encode_record <$> rs)) ->
  madt.parse c1 cB (S (length rs)) table m madt.create =
    Ret (fold_left (add_record c1 cB) rs (madt.mk (Z.testbit flags 0) addr [] [] [])).
Proof.
  intros Hok Hf Ha Ht Hend Ef Ea El Hm. unfold madt.parse. rewrite Ef, Ea, El, bit_test_32 by (unfold is_u32 in *; lia || done).
  change 0xFFFFFFFF with (Z.ones 32). rewrite Z.land_ones, Z.mod_small by (unfold is_u32 in *; lia).
  unfold madt.sizeof_madt_header. rewrite !u64_small by (unfold is_u64; lia).
  apply parse_loop_records; [done | lia | lia | lia | by rewrite Z.add_0_r | lia | lia].
Qed.

Definition madt_example : list madt_record :=
  [Lapic 0 3 1; Lapic 1 4 0; Ioapic 2 0xFEC00000 0; OtherRecord 4 [255; 0; 0; 1]; Iso 0 0 2 0; X2apic 0x150 1 7].
Definition madt_memory : bmem :=
  mem_of 0x1000 (replicate 4 0 ++ le_bytes 4 (44 + Z.of_nat (length (concat (encode_record <$> madt_example)))) ++ replicate 28 0 ++
    le_bytes 4 0xFEE00000 ++ le_bytes 4 1 ++ concat (encode_record <$> madt_example)).

Lemma madt_roundtrip_witness :
  madt.parse (Some 0x3000000) None 7 0x1000 madt_memory madt.create =
    Ret (madt.mk true 0xFEE00000 [madt.mk_cpu 3 false true; madt.mk_cpu 0x150 true false] [(0xFEC00000, 0)] [madt.mk_iso 0 2 0]).
Proof.
  change 7%nat with (S (length madt_example)).
  rewrite (madt_roundtrip (Some 0x3000000) None madt_example 0x1000 1 0xFEE00000 madt_memory);
    [vm_compute; reflexivity | by_compute | by_compute | by_compute | by_compute | by_compute
     | vm_compute; reflexivity | vm_compute; reflexivity | vm_compute; reflexivity |].
  - intros i c Hi. assert (Hb := mem_of_bytes 0x1000 (replicate 4 0 ++ le_bytes 4 (44 + Z.of_nat (length (concat (encode_record <$> madt_example)))) ++ replicate 28 0 ++
    le_bytes 4 0xFEE00000 ++ le_bytes 4 1 ++ concat (encode_record <$> madt_example)) (44 + i)%nat c).
    replace (0x1000 + 44 + Z.of_nat i) with (0x1000 + Z.of_nat (44 + i)) by lia. apply Hb. exact Hi.
Defined.

(** C33: Termination of the MADT parser, on any memory.  The length bytes of the
    records either lead from the first record past the end of the table, or to a
    record of length zero.  In the first case parsing ends within as many rounds as
    the table has bytes, and has handled each of these records once, in their order;
    in the second case it never ends. *)
Theorem madt_parse_terminates (c1 cB : option Z) (table size : Z) (m : bmem) (s : madt.t) :
  0 <= table -> 0 <= size -> acpi.table_length table m = 44 + size -> table + 44 + size + 256 <= 2 ^ 64 -> (forall x, 0 <= m x < 256) ->
  (forall l, walk m (table + 44) size 0 l -> madt.parse c1 cB (S (Z.to_nat size)) table m s =
     Ret (foldl (fun s o => madt.parse_item c1 cB (table + 44 + o) m s)
            (madt.mk (Z.testbit (le_at m (table + 40) 4) 0) (le_at m (table + 36) 4) (madt.cpus s) (madt.ioapics s) (madt.isos s)) l)) /\
  (leads_to_zero m (table + 44) size 0 -> forall fuel, madt.parse c1 cB fuel table m s = NoFuel) /\
  (leads_to_zero m (table + 44) size 0 \/ exists l, walk m (table + 44) size 0 l).
Proof.
  intros Ht Hs El Hb Hm. unfold madt.parse. change madt.flags_offset with 40. change madt.lapic_addr_offset with 36.
  assert (H40 := le_at_range m (table + 40) 4 Hm). assert (H36 := le_at_range m (table + 36) 4 Hm). change (8 * Z.of_nat 4) with 32 in H40, H36.
  change madt.flags_pc_at_compatibility with 0. rewrite bit_test_32 by lia. change 0xFFFFFFFF with (Z.ones 32). rewrite Z.land_ones, Z.mod_small by lia.
  rewrite El. unfold madt.sizeof_madt_header. rewrite !u64_small by (unfold is_u64; lia). replace (44 + size - 44) with size by lia. split_and!.
  - intros l Hw. apply parse_loop_walk; (done || lia).
  - intros Hz fuel. apply parse_loop_zero; (done || lia).
  - apply (walk_or_zero _ _ _ Hm (Z.to_nat size)). lia.
Qed.

(** The table above, which ends, and one whose second record has length zero. *)
Definition madt_stuck : bmem := mem_of 0x1000 (replicate 4 0 ++ le_bytes 4 64 ++ replicate 36 0 ++ [4; 10; 0; 0; 0; 0; 0; 0; 0; 0; 1; 0]).

Lemma madt_parse_terminates_witness :
  (exists s, madt.parse (Some 0x3000000) None 61 0x1000 madt_memory madt.create = Ret s /\ length (madt.cpus s) = 2%nat) /\
  (forall fuel, madt.parse None None fuel 0x1000 madt_stuck madt.create = NoFuel).
Proof.
  split.
  - destruct (madt_parse_terminates (Some 0x3000000) None 0x1000 60 madt_memory madt.create) as (H & _ & _).
    + lia.
    + lia.
    + vm_compute. reflexivity.
    + lia.
    + apply mem_of_range. by_compute.
    + eexists. split; [apply (H [0; 8; 16; 28; 34; 44]) |].
      * repeat first [apply walk_record; [by_compute | by_compute |] | apply walk_end; by_compute].
      * by vm_compute.
  - destruct (madt_parse_terminates None None 0x1000 20 madt_stuck madt.create) as (_ & H & _).
    + lia.
    + lia.
    + by vm_compute.
    + lia.
    + apply mem_of_range. by_compute.
    + apply H. apply zero_later; [by_compute | by_compute |]. apply zero_here; by_compute.
Defined.

(** Looking up tables.  [get_table] returns the table with the given number
    among those with the signature, in the order of the root table, and null when
    there are not that many; a table passes the checksum exactly when its bytes
    add up to a multiple of 256. *)
Theorem get_table_nth {S} `{FA : FrameAllocator S} (paging_info override index : Z) (sig : list Z) (st : acpi.state) (m : bmem)
    (k : paging.kernel S) :
  take 4 sig <> acpi.dsdt_signature -> 0 <= index < 2 ^ 64 ->
  acpi.get_table paging_info override sig index st m k =
    Ret (default 0 (filter (fun h => acpi.has_signature sig h m = true) (acpi.acpi_tables st) !! Z.to_nat index), k) /\
  forall h, acpi.do_checksum h m = true <->
    (256 | foldr Z.add 0 ((fun i => m (h + i)) <$> seqZ 0 (acpi.table_length h m))).
Proof.
  intros Hs Hi. split.
  - unfold acpi.get_table. rewrite bool_decide_eq_false_2 by done. rewrite find_table_nth by lia. by rewrite Z.sub_0_r.
  - intros h. unfold acpi.do_checksum. rewrite Z.eqb_eq, checksum_sum, Z.add_0_l by lia. rewrite <- Z.mod_divide by lia.
    destruct (Z.le_gt_cases 0 (acpi.table_length h m)); [by rewrite Z2Nat.id |].
    rewrite !seqZ_nil by lia. done.
Qed.

Lemma get_table_nth_witness :
  acpi.get_table 0 0 [65; 80; 73; 67] 1 (acpi.mk 2 [0x1000; 0x2000; 0x3000] 0)
    (mem_of 0x1000 ([65; 80; 73; 67] ++ replicate 0xffc 0 ++ [70; 65; 67; 80] ++ replicate 0xffc 0 ++ [65; 80; 73; 67])) paging_example =
    Ret (0x3000, paging_example).
Proof.
  destruct (get_table_nth 0 0 1 [65; 80; 73; 67] (acpi.mk 2 [0x1000; 0x2000; 0x3000] 0)
    (mem_of 0x1000 ([65; 80; 73; 67] ++ replicate 0xffc 0 ++ [70; 65; 67; 80] ++ replicate 0xffc 0 ++ [65; 80; 73; 67])) paging_example) as [H _];
    [vm_compute; discriminate | lia |]. rewrite H. vm_compute. reflexivity.
Defined.
