(* ===== verification/Loader.v ===== *)
(** * Loader: what the boot loader leaves for the kernel

    Models the multiboot loader (src/kernel/subprojects/multiboot_loader): the walk
    over the tags of the boot information in multiboot.cpp, the class around it in
    loader/multiboot.h and the boot protocol that loader_main.cpp fills in.  The
    layout of the tags is the one of the header multiboot.h.  Memory is a function
    from addresses to bytes; the loop over the tags takes fuel. *)

From S2P Require Import Prelude Bits Klibc Fields Acpi.

Module multiboot.
Definition MULTIBOOT2_BOOTLOADER_MAGIC : Z := 0x36d76289.
Definition TAG_TYPE_END : Z := 0.
Definition TAG_TYPE_CMDLINE : Z := 1.
Definition TAG_TYPE_MODULE : Z := 3.
Definition TAG_TYPE_BASIC_MEMINFO : Z := 4.
Definition TAG_TYPE_MMAP : Z := 6.
Definition TAG_TYPE_ELF_SECTIONS : Z := 9.
Definition TAG_TYPE_ACPI_OLD : Z := 14.
Definition TAG_TYPE_ACPI_NEW : Z := 15.

(** [memcmp] with a string literal. *)
Fixpoint memcmp (p : Z) (lit : list Z) (m : bmem) : Z :=
  match lit with
  | [] => 0
  | c :: lit => if m p <? c then -1 else if c <? m p then 1 else memcmp (p + 1) lit m
  end.

(** "initrd.tar". *)
Definition initrd_tar : list Z := [105; 110; 105; 116; 114; 100; 46; 116; 97; 114].

(** [class multiboot]; the constructor does not initialise [kernel_cmdline]. *)
Record t := mk {
  mem_low : Z; mem_high : Z; rsdp : Z; elf_sections : Z; n_elf_sections : Z; initrd_ptr : Z; initrd_size : Z;
  mmap_entry : Z; kernel_cmdline : option Z; mbd : Z }.

Definition start (p : Z) : t := mk 0 0 0 0 0 0 0 0 None p.

Definition set_cmdline (v : Z) (b : t) : t :=
  mk (mem_low b) (mem_high b) (rsdp b) (elf_sections b) (n_elf_sections b) (initrd_ptr b) (initrd_size b) (mmap_entry b) (Some v) (mbd b).
Definition set_mem (lo hi : Z) (b : t) : t :=
  mk lo hi (rsdp b) (elf_sections b) (n_elf_sections b) (initrd_ptr b) (initrd_size b) (mmap_entry b) (kernel_cmdline b) (mbd b).
Definition set_mmap (v : Z) (b : t) : t :=
  mk (mem_low b) (mem_high b) (rsdp b) (elf_sections b) (n_elf_sections b) (initrd_ptr b) (initrd_size b) v (kernel_cmdline b) (mbd b).
Definition set_rsdp (v : Z) (b : t) : t :=
  mk (mem_low b) (mem_high b) v (elf_sections b) (n_elf_sections b) (initrd_ptr b) (initrd_size b) (mmap_entry b) (kernel_cmdline b) (mbd b).
Definition set_elf (v n : Z) (b : t) : t :=
  mk (mem_low b) (mem_high b) (rsdp b) v n (initrd_ptr b) (initrd_size b) (mmap_entry b) (kernel_cmdline b) (mbd b).
Definition set_initrd (v n : Z) (b : t) : t :=
  mk (mem_low b) (mem_high b) (rsdp b) (elf_sections b) (n_elf_sections b) v n (mmap_entry b) (kernel_cmdline b) (mbd b).

(** The switch over the type of the tag at [tag]. *)
Definition handle_tag (tag : Z) (m : bmem) (b : t) : t :=
  let type := le_at m tag 4 in
  if type =? TAG_TYPE_CMDLINE then set_cmdline (tag + 8) b
  else if type =? TAG_TYPE_BASIC_MEMINFO then set_mem (le_at m (tag + 8) 4) (le_at m (tag + 12) 4) b
  else if type =? TAG_TYPE_MMAP then set_mmap tag b
  else if (type =? TAG_TYPE_ACPI_OLD) || (type =? TAG_TYPE_ACPI_NEW) then if rsdp b =? 0 then set_rsdp (tag + 8) b else b
  else if type =? TAG_TYPE_ELF_SECTIONS then if elf_sections b =? 0 then set_elf (tag + 20) (le_at m (tag + 8) 4) b else b
  else if type =? TAG_TYPE_MODULE then
    if memcmp (tag + 16) initrd_tar m =? 0 then
      set_initrd (le_at m (tag + 8) 4) (u32 (le_at m (tag + 12) 4 - le_at m (tag + 8) 4)) b
    else b
  else b.

(** [if((add_size % 8) != 0) add_size += (8 - add_size % 8)]. *)
Definition padded (size : Z) : Z := if size mod 8 =? 0 then size else size + (8 - size mod 8).

Fixpoint parse_loop (fuel : nat) (total_size i : Z) (m : bmem) (b : t) : res t :=
  match fuel with
  | O => NoFuel
  | S fuel =>
      if i <? total_size then
        let tag := mbd b + i in
        if le_at m tag 4 =? TAG_TYPE_END then mret b
        else parse_loop fuel total_size (i + padded (le_at m (tag + 4) 4)) m (handle_tag tag m b)
      else mret b
  end.

Definition parse_mbd (fuel : nat) (m : bmem) (b : t) : res t := parse_loop fuel (le_at m (mbd b) 4) 8 m b.

(** The constructor; [None] when it aborts. *)
Definition create (fuel : nat) (p magic : Z) (m : bmem) : res (option t) :=
  if negb (magic =? MULTIBOOT2_BOOTLOADER_MAGIC) then mret None else b ← parse_mbd fuel m (start p); mret (Some b).

(** The members [mem_low] and [mem_high] are 32 bits wide, and so is the sum. *)
Definition get_memsize_mb (b : t) : Z := (u32 (u32 (mem_low b * 1024) + u32 (mem_high b * 1024)) / 1024) / 1024 + 1.
Definition get_mbd_size (m : bmem) (b : t) : Z := le_at m (mbd b) 4.
End multiboot.

(** ** The boot protocol *)

Record boot_protocol := mk_boot {
  acpi_pointer : Z; memsize : Z; mmap : Z; reserve_start : Z; reserve_length : Z;
  kernel_elf_sections : Z; kernel_n_elf_sections : Z; kernel_initrd_ptr : Z; kernel_initrd_size : Z; cmdline : option Z }.

(** [kernel_loader_main] up to the jump to the kernel. *)
Definition kernel_loader_main (fuel : nat) (information magic : Z) (m : bmem) : res (option boot_protocol) :=
  b ← multiboot.create fuel information magic m;
  mret (match b with
        | None => None
        | Some b => Some (mk_boot (multiboot.rsdp b) (multiboot.get_memsize_mb b) (multiboot.mmap_entry b) (multiboot.mbd b)
                            (multiboot.get_mbd_size m b) (multiboot.elf_sections b) (multiboot.n_elf_sections b)
                            (multiboot.initrd_ptr b) (multiboot.initrd_size b) (multiboot.kernel_cmdline b))
        end).

(** ** Specification *)

(** A tag: its type and what follows the eight bytes of its header. *)
Record tag := mk_tag { t_type : Z; t_body : list Z }.

Definition tag_size (t : tag) : Z := 8 + Z.of_nat (length (t_body t)).
Definition pad (n : Z) : list Z := replicate (Z.to_nat (multiboot.padded n - n)) 0.
Definition encode_tag (t : tag) : list Z := le_bytes 4 (t_type t) ++ le_bytes 4 (tag_size t) ++ t_body t ++ pad (tag_size t).

(** The boot information: its size, a reserved word, the tags and an end tag. *)
Definition encode_tags (l : list tag) : list Z := concat (encode_tag <$> l).
Definition total (l : list tag) : Z := 8 + Z.of_nat (length (encode_tags l)) + 8.
Definition encode_information (l : list tag) : list Z :=
  le_bytes 4 (total l) ++ le_bytes 4 0 ++ encode_tags l ++ le_bytes 4 0 ++ le_bytes 4 8.

(** The tags with the addresses at which they start. *)
Fixpoint placed (a : Z) (l : list tag) : list (Z * tag) :=
  match l with [] => [] | t :: l => (a, t) :: placed (a + multiboot.padded (tag_size t)) l end.

Fixpoint le_list (l : list Z) : Z := match l with [] => 0 | b :: l => b + 256 * le_list l end.
(** The 32-bit number at an offset of the body. *)
Definition word (t : tag) (k : nat) : Z := le_list (take 4 (drop k (t_body t))).

(** What the loader looks for in a tag. *)
Definition cmdline_of (x : Z * tag) : option Z := if t_type x.2 =? multiboot.TAG_TYPE_CMDLINE then Some (x.1 + 8) else None.
Definition mmap_of (x : Z * tag) : option Z := if t_type x.2 =? multiboot.TAG_TYPE_MMAP then Some x.1 else None.
Definition mem_of (x : Z * tag) : option (Z * Z) :=
  if t_type x.2 =? multiboot.TAG_TYPE_BASIC_MEMINFO then Some (word x.2 0, word x.2 4) else None.
Definition rsdp_of (x : Z * tag) : option Z :=
  if (t_type x.2 =? multiboot.TAG_TYPE_ACPI_OLD) || (t_type x.2 =? multiboot.TAG_TYPE_ACPI_NEW) then Some (x.1 + 8) else None.
Definition elf_of (x : Z * tag) : option (Z * Z) := if t_type x.2 =? multiboot.TAG_TYPE_ELF_SECTIONS then Some (x.1 + 20, word x.2 0) else None.
Definition initrd_of (x : Z * tag) : option (Z * Z) :=
  if (t_type x.2 =? multiboot.TAG_TYPE_MODULE) && bool_decide (take 10 (drop 8 (t_body x.2)) = multiboot.initrd_tar)
  then Some (word x.2 0, u32 (word x.2 4 - word x.2 0)) else None.

(** The tag has a type of its own and the fields that its type asks for; the name
    of a module ends with a zero byte. *)
Definition tag_ok (t : tag) : Prop :=
  1 <= t_type t < 2 ^ 32 /\ tag_size t < 2 ^ 32 /\ Forall (fun b => 0 <= b < 256) (t_body t) /\
  (t_type t = multiboot.TAG_TYPE_BASIC_MEMINFO -> (8 <= length (t_body t))%nat) /\
  (t_type t = multiboot.TAG_TYPE_ELF_SECTIONS -> (12 <= length (t_body t))%nat) /\
  (t_type t = multiboot.TAG_TYPE_MODULE -> 0 ∈ drop 8 (t_body t)).

(** ** Lemmas *)

Lemma le_at_list m a l : bytes_at m a l -> le_at m a (length l) = le_list l.
Proof.
  revert a. induction l as [| b l IH]; intros a H; [done |]. apply bytes_at_cons in H as [H1 H2]. cbn. by rewrite H1, IH.
Qed.

Lemma bytes_at_drop m a l k : bytes_at m a l -> bytes_at m (a + Z.of_nat k) (drop k l).
Proof. intros H i c Hi. rewrite lookup_drop in Hi. rewrite <- Z.add_assoc, <- Nat2Z.inj_add. by apply H. Qed.

Lemma bytes_at_take m a l k : bytes_at m a l -> bytes_at m a (take k l).
Proof. intros H i c Hi. apply lookup_take_Some in Hi as [Hi _]. by apply H. Qed.

Lemma word_at m a t k : bytes_at m a (t_body t) -> (k + 4 <= length (t_body t))%nat -> le_at m (a + Z.of_nat k) 4 = word t k.
Proof.
  intros H Hk. unfold word. rewrite <- (le_at_list m (a + Z.of_nat k)) by (by apply bytes_at_take, bytes_at_drop).
  rewrite length_take, length_drop. by replace (4 `min` (length (t_body t) - k))%nat with 4%nat by lia.
Qed.

Lemma memcmp_zero p lit m : (multiboot.memcmp p lit m =? 0) = true <-> bytes_at m p lit.
Proof.
  revert p. induction lit as [| c lit IH]; intros p; cbn [multiboot.memcmp]; [by split; [intros _ [] |] |]. rewrite bytes_at_cons, <- IH.
  destruct (Z.ltb_spec (m p) c); [split; [done | lia] |]. destruct (Z.ltb_spec c (m p)); [split; [done | lia] |].
  split; [intros H1; split; [lia | done] | tauto].
Qed.

(** Two strings of bytes at the same place agree. *)
Lemma bytes_at_agree m a l1 l2 : bytes_at m a l1 -> bytes_at m a l2 -> length l1 = length l2 -> l1 = l2.
Proof.
  revert a l2. induction l1 as [| b l1 IH]; intros a l2 H1 H2 Hl; destruct l2 as [| b2 l2]; try done.
  apply bytes_at_cons in H1 as [H1 H1'], H2 as [H2 H2']. f_equal; [congruence | by eapply IH, (f_equal pred Hl)].
Qed.

(** A name that ends before the literal does not match it. *)
Lemma memcmp_name m p name :
  bytes_at m p name -> 0 ∈ name -> (multiboot.memcmp p multiboot.initrd_tar m =? 0) = bool_decide (take 10 name = multiboot.initrd_tar).
Proof.
  intros Hn H0. apply eq_iff_eq_true. rewrite memcmp_zero, bool_decide_eq_true. split.
  - intros Hb. destruct (decide (10 <= length name)%nat) as [Hl | Hl].
    + apply (bytes_at_agree m p); [by apply bytes_at_take | done | rewrite length_take; change (length multiboot.initrd_tar) with 10%nat; lia].
    + exfalso. apply list_elem_of_lookup_1 in H0 as [i Hi]. assert (Hm := Hn i 0 Hi). apply lookup_lt_Some in Hi.
      assert (Hall : Forall (fun c => c <> 0) multiboot.initrd_tar) by (repeat constructor; done).
      destruct (lookup_lt_is_Some_2 multiboot.initrd_tar i) as [c Hc]; [cbn; lia |]. rewrite Forall_lookup in Hall.
      apply (Hall i c Hc). rewrite <- (Hb i c Hc). exact Hm.
  - intros <-. by apply bytes_at_take.
Qed.

(** The effect of a tag, one field at a time. *)
Definition apply_tag (b : multiboot.t) (x : Z * tag) : multiboot.t :=
  let b := match cmdline_of x with Some v => multiboot.set_cmdline v b | None => b end in
  let b := match mem_of x with Some (lo, hi) => multiboot.set_mem lo hi b | None => b end in
  let b := match mmap_of x with Some v => multiboot.set_mmap v b | None => b end in
  let b := match rsdp_of x with Some v => if multiboot.rsdp b =? 0 then multiboot.set_rsdp v b else b | None => b end in
  let b := match elf_of x with Some (v, n) => if multiboot.elf_sections b =? 0 then multiboot.set_elf v n b else b | None => b end in
  match initrd_of x with Some (v, n) => multiboot.set_initrd v n b | None => b end.

Lemma tag_header m a t : tag_ok t -> bytes_at m a (encode_tag t) ->
  le_at m a 4 = t_type t /\ le_at m (a + 4) 4 = tag_size t /\ bytes_at m (a + 8) (t_body t).
Proof.
  intros (Ht & Hs & _) Hb. unfold encode_tag in Hb. split_and!.
  - rewrite <- (Z.add_0_r a). apply (le_at_in m a [] 4 _ (le_bytes 4 (tag_size t) ++ t_body t ++ pad (tag_size t))); [done | lia | done].
  - apply (le_at_in m a (le_bytes 4 (t_type t)) 4 _ (t_body t ++ pad (tag_size t))); [done | unfold tag_size in *; lia | by rewrite length_le_bytes].
  - apply bytes_at_app in Hb as [_ Hb]. apply bytes_at_app in Hb as [_ Hb]. apply bytes_at_app in Hb as [Hb _].
    rewrite !length_le_bytes in Hb. by replace (a + 8) with (a + Z.of_nat 4 + Z.of_nat 4) by lia.
Qed.

Lemma handle_tag_ok m a t b : tag_ok t -> bytes_at m a (encode_tag t) -> multiboot.handle_tag a m b = apply_tag b (a, t).
Proof.
  intros Hok Hb. destruct (tag_header m a t Hok Hb) as (H1 & _ & Hbody). destruct Hok as (_ & _ & _ & Hmem & Helf & Hmod).
  unfold multiboot.handle_tag, apply_tag, cmdline_of, mem_of, mmap_of, rsdp_of, elf_of, initrd_of. rewrite H1. cbn [fst snd].
  assert (H0 : (4 <= length (t_body t))%nat -> le_at m (a + 8) 4 = word t 0).
  { intros Hk. rewrite <- (word_at m (a + 8) t 0) by (done || lia). by rewrite Z.add_0_r. }
  assert (H4 : (8 <= length (t_body t))%nat -> le_at m (a + 12) 4 = word t 4).
  { intros Hk. rewrite <- (word_at m (a + 8) t 4) by (done || lia). f_equal. lia. }
  destruct (Z.eqb_spec (t_type t) multiboot.TAG_TYPE_CMDLINE) as [-> | _]; [done |].
  destruct (Z.eqb_spec (t_type t) multiboot.TAG_TYPE_BASIC_MEMINFO) as [E | _].
  { rewrite E. cbn -[le_at word]. rewrite H0, H4 by (specialize (Hmem E); lia). done. }
  destruct (Z.eqb_spec (t_type t) multiboot.TAG_TYPE_MMAP) as [-> | _]; [done |].
  destruct ((t_type t =? multiboot.TAG_TYPE_ACPI_OLD) || (t_type t =? multiboot.TAG_TYPE_ACPI_NEW)) eqn:Ea.
  { apply orb_true_iff in Ea as [Ea | Ea]; apply Z.eqb_eq in Ea; rewrite Ea; done. }
  destruct (Z.eqb_spec (t_type t) multiboot.TAG_TYPE_ELF_SECTIONS) as [E | _].
  { rewrite E. cbn -[le_at word]. rewrite H0 by (specialize (Helf E); lia). done. }
  destruct (Z.eqb_spec (t_type t) multiboot.TAG_TYPE_MODULE) as [E | _]; [| done].
  specialize (Hmod E). assert (Hn : bytes_at m (a + 16) (drop 8 (t_body t))).
  { replace (a + 16) with (a + 8 + Z.of_nat 8) by lia. by apply bytes_at_drop. }
  rewrite (memcmp_name m (a + 16) _ Hn Hmod). cbn [andb]. case_bool_decide; [| done].
  assert (Hl : (8 < length (t_body t))%nat).
  { destruct (decide (8 < length (t_body t))%nat) as [| Hl]; [done |]. rewrite drop_ge in Hmod by lia. by apply not_elem_of_nil in Hmod. }
  by rewrite H0, H4 by lia.
Qed.

Lemma padded_ge n : 0 <= n -> n <= multiboot.padded n < n + 8 /\ multiboot.padded n mod 8 = 0.
Proof. intros Hn. unfold multiboot.padded. destruct (Z.eqb_spec (n mod 8) 0); wrap_lia. Qed.

Lemma length_encode_tag t : Z.of_nat (length (encode_tag t)) = multiboot.padded (tag_size t).
Proof.
  assert (Hs : 0 <= tag_size t) by (unfold tag_size; lia). destruct (padded_ge _ Hs) as [Hp _].
  unfold encode_tag, pad. rewrite !length_app, !length_le_bytes, length_replicate. unfold tag_size in *. lia.
Qed.

(** The loop walks over the tags and stops at the end tag. *)
Lemma parse_loop_tags m l : forall fuel size i b,
  Forall tag_ok l -> 0 <= i -> bytes_at m (multiboot.mbd b + i) (encode_tags l ++ le_bytes 4 0) ->
  i + Z.of_nat (length (encode_tags l)) < size -> (length l < fuel)%nat ->
  multiboot.parse_loop fuel size i m b = Ret (foldl apply_tag b (placed (multiboot.mbd b + i) l)).
Proof.
  induction l as [| t l IH]; intros fuel size i b Hok Hi Hb Hs Hf; (destruct fuel as [| fuel]; [cbn in Hf; lia |]); cbn [multiboot.parse_loop].
  - cbn in Hs. rewrite (proj2 (Z.ltb_lt i size)) by lia.
    rewrite (le_at_list m _ (le_bytes 4 0) Hb : le_at m (multiboot.mbd b + i) 4 = 0). done.
  - apply Forall_cons in Hok as [Ht Hok]. unfold encode_tags in *. cbn [fmap list_fmap concat] in Hb, Hs. rewrite <- app_assoc in Hb.
    apply bytes_at_app in Hb as [Hb Hb']. rewrite length_app, Nat2Z.inj_add, length_encode_tag in Hs. rewrite length_encode_tag in Hb'.
    destruct (tag_header m _ t Ht Hb) as (H1 & H2 & _). assert (Htp : 1 <= t_type t) by apply Ht.
    assert (Hp : 0 <= multiboot.padded (tag_size t)) by (assert (Hz : 0 <= tag_size t) by (unfold tag_size; lia); destruct (padded_ge _ Hz); lia).
    rewrite (proj2 (Z.ltb_lt i size)) by lia. rewrite H1, H2. change multiboot.TAG_TYPE_END with 0. rewrite (proj2 (Z.eqb_neq (t_type t) 0)) by lia.
    rewrite (handle_tag_ok m _ t b Ht Hb). cbn [placed foldl].
    assert (Em : multiboot.mbd (apply_tag b (multiboot.mbd b + i, t)) = multiboot.mbd b).
    { unfold apply_tag. by repeat case_match. }
    rewrite IH; try done; rewrite ?Em, ?Z.add_assoc; try done; try lia. cbn in Hf. lia.
Qed.

(** The last and the first value that is found in the tags. *)
Definition last_of {A} (f : Z * tag -> option A) (l : list (Z * tag)) (d : A) : A := default d (last (omap f l)).
Definition first_of {A} (f : Z * tag -> option A) (l : list (Z * tag)) (d : A) : A := default d (head (omap f l)).

Lemma last_of_cons {A} (f : Z * tag -> option A) x l d : last_of f (x :: l) d = last_of f l (default d (f x)).
Proof.
  unfold last_of. cbn. destruct (f x) as [v |]; [| done]. rewrite last_cons. by destruct (last (omap f l)).
Qed.

Lemma first_of_cons {A} (f : Z * tag -> option A) x l d : first_of f (x :: l) d = match f x with Some v => v | None => first_of f l d end.
Proof. unfold first_of. cbn. by destruct (f x). Qed.

(** What the loader knows after the tags [l], from what it knew before. *)
Record summary (b b' : multiboot.t) (l : list (Z * tag)) : Prop := {
  s_mem : (multiboot.mem_low b', multiboot.mem_high b') = last_of mem_of l (multiboot.mem_low b, multiboot.mem_high b);
  s_rsdp : multiboot.rsdp b' = if multiboot.rsdp b =? 0 then first_of rsdp_of l 0 else multiboot.rsdp b;
  s_elf : (multiboot.elf_sections b', multiboot.n_elf_sections b') =
    if multiboot.elf_sections b =? 0 then first_of elf_of l (0, multiboot.n_elf_sections b) else (multiboot.elf_sections b, multiboot.n_elf_sections b);
  s_initrd : (multiboot.initrd_ptr b', multiboot.initrd_size b') = last_of initrd_of l (multiboot.initrd_ptr b, multiboot.initrd_size b);
  s_mmap : multiboot.mmap_entry b' = last_of mmap_of l (multiboot.mmap_entry b);
  s_cmdline : multiboot.kernel_cmdline b' = last_of (fun x => Some <$> cmdline_of x) l (multiboot.kernel_cmdline b);
  s_mbd : multiboot.mbd b' = multiboot.mbd b }.

Lemma apply_fields b x :
  let b' := apply_tag b x in
  (multiboot.mem_low b', multiboot.mem_high b') = default (multiboot.mem_low b, multiboot.mem_high b) (mem_of x) /\
  multiboot.rsdp b' = (if multiboot.rsdp b =? 0 then default (multiboot.rsdp b) (rsdp_of x) else multiboot.rsdp b) /\
  (multiboot.elf_sections b', multiboot.n_elf_sections b') =
    (if multiboot.elf_sections b =? 0 then default (multiboot.elf_sections b, multiboot.n_elf_sections b) (elf_of x)
     else (multiboot.elf_sections b, multiboot.n_elf_sections b)) /\
  (multiboot.initrd_ptr b', multiboot.initrd_size b') = default (multiboot.initrd_ptr b, multiboot.initrd_size b) (initrd_of x) /\
  multiboot.mmap_entry b' = default (multiboot.mmap_entry b) (mmap_of x) /\
  multiboot.kernel_cmdline b' = default (multiboot.kernel_cmdline b) (Some <$> cmdline_of x) /\ multiboot.mbd b' = multiboot.mbd b.
Proof.
  unfold apply_tag. destruct b as [a1 a2 a3 a4 a5 a6 a7 a8 a9 a10]. destruct (a3 =? 0) eqn:E3, (a4 =? 0) eqn:E4;
    destruct (cmdline_of x), (mem_of x) as [[] |], (mmap_of x), (initrd_of x) as [[] |], (rsdp_of x), (elf_of x) as [[] |];
    repeat (cbn; rewrite ?E3, ?E4); split_and!; reflexivity.
Qed.

Lemma fold_summary l b : Forall (fun x => 0 < x.1) l -> summary b (foldl apply_tag b l) l.
Proof.
  intros Hf. revert b. induction Hf as [| x l Hx Hf IH]; intros b; cbn [foldl].
  - constructor; unfold last_of, first_of; cbn; try done; [by destruct (Z.eqb_spec (multiboot.rsdp b) 0) as [-> |] | by destruct (Z.eqb_spec (multiboot.elf_sections b) 0) as [-> |]].
  - destruct (IH (apply_tag b x)) as [H1 H2 H3 H4 H5 H6 H7]. destruct (apply_fields b x) as (A1 & A2 & A3 & A4 & A5 & A6 & A7).
    rewrite A1 in H1. rewrite A4 in H4. rewrite A5 in H5. rewrite A6 in H6. rewrite A7 in H7.
    constructor; rewrite ?last_of_cons, ?first_of_cons; try done.
    + rewrite H2, A2. unfold rsdp_of. destruct (multiboot.rsdp b =? 0) eqn:E; [| by rewrite E].
      destruct (_ || _); cbn; [by rewrite (proj2 (Z.eqb_neq (x.1 + 8) 0)) by lia | by rewrite E].
    + rewrite H3. destruct (multiboot.elf_sections b =? 0) eqn:E; [| injection A3 as -> ->; by rewrite E].
      unfold elf_of in A3 |- *. destruct (t_type x.2 =? _); cbn in A3; injection A3 as -> ->; [| by rewrite E].
      by rewrite (proj2 (Z.eqb_neq (x.1 + 20) 0)) by lia.
Qed.

Lemma placed_pos a l : 0 < a -> Forall (fun x => 0 < x.1) (placed a l).
Proof.
  revert a. induction l as [| t l IH]; intros a Ha; cbn [placed]; constructor; [done |]. apply IH.
  assert (Hz : 0 <= tag_size t) by (unfold tag_size; lia). destruct (padded_ge _ Hz). lia.
Qed.

Lemma memsize_exact b :
  multiboot.get_memsize_mb b = ((multiboot.mem_low b + multiboot.mem_high b) * 1024) mod 2 ^ 32 / 2 ^ 20 + 1.
Proof.
  unfold multiboot.get_memsize_mb, u32. rewrite Z.div_div by lia. rewrite <- Z.add_mod, <- Z.mul_add_distr_r by lia. done.
Qed.

(** ** Theorems *)

(** C31: The loader finds what the firmware passes on.  For boot information that
    encodes any list of well-formed tags, the walk over it ends and leaves the kernel
    the place of the command line and of the memory map from the last tags of their
    kind, the ACPI pointer and the ELF sections from the first ones, and the range of
    the module whose name starts with initrd.tar; tags of other kinds are skipped.
    Lower and upper memory are those of the last tag with memory sizes, in KiB, and the
    size of the memory that is passed on is their sum in MiB, plus one, where the sum
    in bytes wraps at 4 GiB. *)
Theorem loader_finds_tags (fuel : nat) (p : Z) (l : list tag) (m : bmem) :
  0 < p -> Forall tag_ok l -> total l < 2 ^ 32 -> bytes_at m p (encode_information l) -> (length l < fuel)%nat ->
  exists o b, multiboot.create fuel p multiboot.MULTIBOOT2_BOOTLOADER_MAGIC m = Ret (Some o) /\
    kernel_loader_main fuel p multiboot.MULTIBOOT2_BOOTLOADER_MAGIC m = Ret (Some b) /\
    let x := placed (p + 8) l in
    acpi_pointer b = first_of rsdp_of x 0 /\ (kernel_elf_sections b, kernel_n_elf_sections b) = first_of elf_of x (0, 0) /\
    (kernel_initrd_ptr b, kernel_initrd_size b) = last_of initrd_of x (0, 0) /\ mmap b = last_of mmap_of x 0 /\
    cmdline b = last_of (fun x => Some <$> cmdline_of x) x None /\ reserve_start b = p /\ reserve_length b = total l /\
    (multiboot.mem_low o, multiboot.mem_high o) = last_of mem_of x (0, 0) /\
    memsize b = ((multiboot.mem_low o + multiboot.mem_high o) * 1024) mod 2 ^ 32 / 2 ^ 20 + 1.
Proof.
  intros Hp Hok Ht Hb Hf. unfold encode_information in Hb.
  assert (Hsize : le_at m p 4 = total l).
  { rewrite <- (Z.add_0_r p). apply (le_at_in m p [] 4 _ _ 0 Hb); [unfold total in *; lia | done]. }
  assert (Htags : bytes_at m (p + 8) (encode_tags l ++ le_bytes 4 0)).
  { apply bytes_at_app in Hb as [_ Hb]. apply bytes_at_app in Hb as [_ Hb]. rewrite !length_le_bytes, !app_assoc in Hb.
    apply bytes_at_app in Hb as [Hb _]. by replace (p + 8) with (p + Z.of_nat 4 + Z.of_nat 4) by lia. }
  unfold kernel_loader_main, multiboot.create, multiboot.parse_mbd. rewrite Z.eqb_refl. cbn [negb multiboot.mbd multiboot.start]. rewrite Hsize.
  rewrite (parse_loop_tags m l); try done; [| unfold total; lia]. cbn [mbind res_bind mret res_ret multiboot.mbd multiboot.start].
  destruct (fold_summary (placed (p + 8) l) (multiboot.start p)) as [H1 H2 H3 H4 H5 H6 H7]; [apply placed_pos; lia |].
  set (b := foldl apply_tag _ _) in *. cbn in H1, H2, H3, H4, H5, H6, H7. eexists b, _. split; [reflexivity |]. split; [reflexivity |].
  cbn. split_and!; try done; [unfold multiboot.get_mbd_size; by rewrite H7 | apply memsize_exact].
Qed.

(** The size of the memory is computed with 32 bits: it is right below 4 GiB, and
    never more than 4096 MiB. *)
Theorem memsize_wraps (b : multiboot.t) :
  0 <= multiboot.mem_low b -> 0 <= multiboot.mem_high b ->
  (multiboot.mem_low b + multiboot.mem_high b < 2 ^ 22 ->
   multiboot.get_memsize_mb b = (multiboot.mem_low b + multiboot.mem_high b) / 1024 + 1) /\
  multiboot.get_memsize_mb b <= 4096.
Proof.
  intros H1 H2. unfold multiboot.get_memsize_mb. split.
  - intros H. unfold u32. rewrite (Z.mod_small (multiboot.mem_low b * 1024)), (Z.mod_small (multiboot.mem_high b * 1024)), Z.mod_small by lia.
    rewrite <- Z.mul_add_distr_r, Z.div_mul by lia. done.
  - unfold u32. wrap_lia.
Qed.

(** A tag of size 0 keeps the loader busy forever. *)
Theorem loader_stuck (fuel : nat) (size i : Z) (m : bmem) (b : multiboot.t) :
  i < size -> le_at m (multiboot.mbd b + i) 4 <> 0 -> le_at m (multiboot.mbd b + i + 4) 4 = 0 ->
  multiboot.parse_loop fuel size i m b = NoFuel.
Proof.
  intros Hi Ht Hs. revert b Ht Hs. induction fuel as [| fuel IH]; intros b Ht Hs; [done |]. cbn [multiboot.parse_loop].
  rewrite (proj2 (Z.ltb_lt i size)) by lia. change multiboot.TAG_TYPE_END with 0. rewrite (proj2 (Z.eqb_neq _ 0)) by done.
  rewrite Hs. change (multiboot.padded 0) with 0. rewrite Z.add_0_r.
  assert (Em : multiboot.mbd (multiboot.handle_tag (multiboot.mbd b + i) m b) = multiboot.mbd b) by (unfold multiboot.handle_tag; by repeat case_match).
  apply IH; by rewrite Em.
Qed.

(** ** Witnesses *)

(** A command line, the size of the memory, the ramdisk and a tag of another kind. *)
Definition tags_example : list tag :=
  [mk_tag 1 [97; 98; 0]; mk_tag 4 (le_bytes 4 640 ++ le_bytes 4 0x10000); mk_tag 2 [71; 0];
   mk_tag 3 (le_bytes 4 0x200000 ++ le_bytes 4 0x280000 ++ multiboot.initrd_tar ++ [0]); mk_tag 15 [1; 2; 3]].

Lemma loader_finds_tags_witness :
  exists b, kernel_loader_main 9 0x1000 multiboot.MULTIBOOT2_BOOTLOADER_MAGIC (Klibc.mem_of 0x1000 (encode_information tags_example)) = Ret (Some b) /\
    (kernel_initrd_ptr b, kernel_initrd_size b) = (0x200000, 0x80000) /\ cmdline b = Some 0x1010 /\ acpi_pointer b = 0x1060 /\ memsize b = 65.
Proof.
  destruct (loader_finds_tags 9 0x1000 tags_example (Klibc.mem_of 0x1000 (encode_information tags_example)))
    as (o & b & _ & Hb & H1 & _ & H3 & _ & H5 & _ & _ & H8 & H9).
  - lia.
  - unfold tags_example, tag_ok. repeat constructor; cbn; try lia; try discriminate; try (intros _; by_compute).
  - vm_compute. reflexivity.
  - apply mem_of_bytes.
  - cbn. lia.
  - assert (E : last_of mem_of (placed (0x1000 + 8) tags_example) (0, 0) = (640, 0x10000)) by (vm_compute; reflexivity).
    rewrite E in H8. injection H8 as Hlo Hhi. exists b. split_and!; [exact Hb | rewrite H3; vm_compute; reflexivity | rewrite H5; vm_compute; reflexivity
      | rewrite H1; vm_compute; reflexivity | rewrite H9, Hlo, Hhi; vm_compute; reflexivity].
Defined.

(** A machine with 8 GiB of memory. *)
Definition big_example : multiboot.t := multiboot.set_mem 640 (8 * 1024 * 1024) (multiboot.start 0x1000).

Lemma memsize_wraps_witness : multiboot.get_memsize_mb big_example = 1 /\ multiboot.get_memsize_mb big_example <= 4096.
Proof. split; [vm_compute; reflexivity |]. apply (memsize_wraps big_example); vm_compute; discriminate. Defined.

Lemma loader_stuck_witness : multiboot.parse_loop 1000 64 8 (fun x => if x =? 0x1008 then 1 else 0) (multiboot.start 0x1000) = NoFuel.
Proof. apply (loader_stuck 1000 64 8 (fun x => if x =? 0x1008 then 1 else 0) (multiboot.start 0x1000)); [lia | vm_compute; discriminate | vm_compute; reflexivity]. Defined.
