(* ===== verification/Console.v ===== *)
(** * Console: text output and the legacy interrupt controllers

    Models arch/x86_64/drivers/vga.cpp and vga.h (the text console), drivers/serial.h
    (the serial port), drivers/pic.cpp and pic.h (the pair of 8259 controllers) and
    the serial output of the boot loader (multiboot_loader/source/common.cpp).  The
    screen is memory; ports are hardware, [IoPorts], with one class of laws for each
    of the devices behind them. *)

From S2P Require Import Prelude Bits Klibc.

(** [inb] and [outb] of arch/x86_64/io.cpp. *)
Class IoPorts (D : Type) := { io_inb : Z -> D -> Z * D; io_outb : Z -> Z -> D -> D }.

(** A value as an [int8_t]. *)
Definition i8 (x : Z) : Z := (x + 128) mod 256 - 128.
Definition i16 (x : Z) : Z := (x + 32768) mod 65536 - 32768.

(** ** The text console *)

Module vga.
Definition black : Z := 0.
Definition white : Z := 15.

(** [text_entry_t(ascii, foreground, background)]. *)
Record text_entry_t := mk_entry { ascii : Z; colour : Z }.
Definition text_entry (c foreground background : Z) : text_entry_t :=
  mk_entry (u8 c) (u8 (Z.lor (Z.shiftl background 4) foreground)).

Definition mmio : Z := 0xb8000 + KERNEL_VBASE.
Definition terminal_width : Z := 80.
Definition terminal_height : Z := 25.
Definition vga_hardware_cursor_command_port : Z := 0x3D4.
Definition vga_hardware_cursor_data_port : Z := 0x3D5.

Definition write_entry (e : text_entry_t) (x y : Z) (m : bmem) : bmem :=
  let offset := u32 (u8 y * terminal_width + u8 x) in
  let entry := mmio + offset * 2 in
  write (write m entry (ascii e)) (entry + 1) (colour e).

Section writer.
Context {D : Type} `{IO : IoPorts D}.

(** [class writer] with the memory of the screen and the ports. *)
Record writer := mk { x : Z; y : Z; foreground : Z; background : Z; screen : bmem; ports : D }.

Definition create (m : bmem) (d : D) : writer := mk 0 0 white black m d.
Definition set_xy (a b : Z) (w : writer) : writer := mk a b (foreground w) (background w) (screen w) (ports w).
Definition set_screen (m : bmem) (w : writer) : writer := mk (x w) (y w) (foreground w) (background w) m (ports w).
Definition set_ports (d : D) (w : writer) : writer := mk (x w) (y w) (foreground w) (background w) (screen w) d.

Definition update_hardware_cursor (w : writer) : writer :=
  let pos := u16 (y w * terminal_width + x w) in
  let d := io_outb vga_hardware_cursor_command_port 0x0F (ports w) in
  let d := io_outb vga_hardware_cursor_data_port (Z.land pos 0xFF) d in
  let d := io_outb vga_hardware_cursor_command_port 0x0E d in
  set_ports (io_outb vga_hardware_cursor_data_port (Z.land (Z.shiftr pos 8) 0xFF) d) w.

Definition get_hardware_cursor (d : D) : (Z * Z) * D :=
  let d := io_outb vga_hardware_cursor_command_port 0x0F d in
  let '(lo, d) := io_inb vga_hardware_cursor_data_port d in
  let d := io_outb vga_hardware_cursor_command_port 0x0E d in
  let '(hi, d) := io_inb vga_hardware_cursor_data_port d in
  let pos := i16 (i16 lo + Z.shiftl hi 8) in
  let q := Z.quot pos terminal_width in
  ((i8 q, i8 (pos - q * terminal_height)), d).

Definition scroll (w : writer) : res writer :=
  m ← for_loop 24 1 (fun i m =>
        string.memcpy (2 * ((i - 1) * terminal_width) + mmio) (2 * (i * terminal_width) + mmio) (terminal_width * 2) m) (screen w);
  m ← for_loop 80 0 (fun i m => mret (write_entry (text_entry 32 white black) i (terminal_height - 1) m)) m;
  mret (set_xy 0 25 (set_screen m w)).

(** [y >= 25]: scroll, then one line up again. *)
Definition scroll_if_full (w : writer) : res writer :=
  if 25 <=? y w then w ← scroll w; mret (set_xy (x w) (i8 (y w - 1)) w) else mret w.

Definition print_char (c : Z) (w : writer) : res writer :=
  if c =? 10 then
    w ← scroll_if_full (set_xy 0 (i8 (y w + 1)) w);
    mret (update_hardware_cursor w)
  else if c =? 13 then mret (update_hardware_cursor (set_xy 0 (y w) w))
  else if c =? 8 then
    let w := set_xy (i8 (x w - 1)) (y w) w in
    let w := if x w <? 0 then let w := set_xy 0 (i8 (y w - 1)) w in if y w <? 0 then set_xy (x w) 0 w else w else w in
    let w := set_screen (write_entry (text_entry 32 (foreground w) (background w)) (x w) (y w) (screen w)) w in
    mret (update_hardware_cursor w)
  else
    let w := set_screen (write_entry (text_entry c (foreground w) (background w)) (x w) (y w) (screen w)) w in
    let w := set_xy (i8 (x w + 1)) (y w) w in
    w ← (if 80 <=? x w then scroll_if_full (set_xy 0 (i8 (y w + 1)) w) else mret w);
    mret (update_hardware_cursor w).

(** [print(str, n)]: the characters are the bytes of [str]. *)
Fixpoint print (str : list Z) (w : writer) : res writer :=
  match str with [] => mret w | c :: str => w ← print_char c w; print str w end.

Definition set_foreground (c : Z) (w : writer) : writer := mk (x w) (y w) c (background w) (screen w) (ports w).
Definition set_background (c : Z) (w : writer) : writer := mk (x w) (y w) (foreground w) c (screen w) (ports w).

Definition set_cursor (a b : Z) (w : writer) : res writer :=
  let w := set_xy (i8 a) (i8 b) w in
  w ← (if 80 <=? x w then scroll_if_full (set_xy 0 (i8 (y w + 1)) w) else mret w);
  mret (update_hardware_cursor w).

Definition set_cursor_to_hw (w : writer) : writer :=
  let '((a, b), d) := get_hardware_cursor (ports w) in set_ports d (set_xy a b w).

Definition enable_hardware_cursor (d : D) : D :=
  let d := io_outb vga_hardware_cursor_command_port 0x0A d in
  let '(v, d) := io_inb vga_hardware_cursor_data_port d in
  let d := io_outb vga_hardware_cursor_data_port (Z.lor (Z.land v 0xC0) 0) d in
  let d := io_outb vga_hardware_cursor_command_port 0x0B d in
  let '(v, d) := io_inb vga_hardware_cursor_data_port d in
  io_outb vga_hardware_cursor_data_port (Z.lor (Z.land v 0xE0) 15) d.

Definition disable_hardware_cursor (d : D) : D :=
  io_outb vga_hardware_cursor_data_port 0x20 (io_outb vga_hardware_cursor_command_port 0x0A d).
End writer.
Arguments writer D : clear implicits.
End vga.

(** ** What the screen shows *)

(** A terminal of 25 lines: the position and the characters. *)
Record display := mk_display { cx : Z; cy : Z; cells : Z -> Z -> vga.text_entry_t }.

Definition on_screen (a b : Z) : Prop := 0 <= a < 80 /\ 0 <= b < 25.
Definition blank : vga.text_entry_t := vga.text_entry 32 vga.white vga.black.

Definition put_cell (e : vga.text_entry_t) (a b : Z) (f : Z -> Z -> vga.text_entry_t) : Z -> Z -> vga.text_entry_t :=
  fun a' b' => if bool_decide (a' = a /\ b' = b) then e else f a' b'.

(** The next line: the last one is at the bottom, where the lines move up. *)
Definition new_line (d : display) : display :=
  if cy d =? 24 then mk_display 0 24 (fun a b => if b <? 24 then cells d a (b + 1) else blank)
  else mk_display 0 (cy d + 1) (cells d).

Definition type_char (fg bg c : Z) (d : display) : display :=
  if c =? 10 then new_line d
  else if c =? 13 then mk_display 0 (cy d) (cells d)
  else if c =? 8 then
    let '(a, b) := if cx d =? 0 then (0, Z.max 0 (cy d - 1)) else (cx d - 1, cy d) in
    mk_display a b (put_cell (vga.text_entry 32 fg bg) a b (cells d))
  else
    let d' := mk_display (cx d + 1) (cy d) (put_cell (vga.text_entry c fg bg) (cx d) (cy d) (cells d)) in
    if cx d =? 79 then new_line d' else d'.

(** The cell at a position in the memory of the screen. *)
Definition address (a b : Z) : Z := vga.mmio + (b * 80 + a) * 2.
Definition cell (m : bmem) (a b : Z) : vga.text_entry_t := vga.mk_entry (m (address a b)) (m (address a b + 1)).
Definition in_text (p : Z) : Prop := vga.mmio <= p < vga.mmio + 4000.

(** The CRT controller: the command port selects the register of the data port. *)
Class CrtcLaws (D : Type) `{IO : IoPorts D} := {
  crtc_reg : Z -> D -> Z;
  crtc_write : forall i j v d,
    crtc_reg i (io_outb vga.vga_hardware_cursor_data_port v (io_outb vga.vga_hardware_cursor_command_port j d)) =
    if i =? j then v else crtc_reg i d;
  crtc_read : forall j d, (io_inb vga.vga_hardware_cursor_data_port (io_outb vga.vga_hardware_cursor_command_port j d)).1 = crtc_reg j d;
  crtc_keep : forall i j d, crtc_reg i (io_inb vga.vga_hardware_cursor_data_port (io_outb vga.vga_hardware_cursor_command_port j d)).2 = crtc_reg i d }.

Definition hardware_cursor {D} `{CrtcLaws D} (d : D) : Z := crtc_reg 0x0E d * 256 + crtc_reg 0x0F d.

Section screen.
Lemma write_entry_cell e a b a' b' m :
  on_screen a b -> on_screen a' b' -> cell (vga.write_entry e a b m) a' b' = put_cell e a b (cell m) a' b'.
Proof.
  intros [Ha Hb] [Ha' Hb']. unfold vga.write_entry, cell, put_cell, address, write.
  assert (E : u32 (u8 b * vga.terminal_width + u8 a) = b * 80 + a) by (unfold vga.terminal_width; wrap_lia). rewrite E.
  case_bool_decide as Hd.
  - destruct Hd as [-> ->]. rewrite !Z.eqb_refl. destruct (Z.eqb_spec (vga.mmio + (b * 80 + a) * 2) (vga.mmio + (b * 80 + a) * 2 + 1)); [lia |]. by destruct e.
  - assert (Hne : b' * 80 + a' <> b * 80 + a) by (intros Heq; apply Hd; lia).
    rewrite !(proj2 (Z.eqb_neq _ _)) by lia. done.
Qed.

Lemma write_entry_outside e a b p m : on_screen a b -> ~ in_text p -> vga.write_entry e a b m p = m p.
Proof.
  intros [Ha Hb] Hp. unfold vga.write_entry, write, in_text in *.
  assert (E : u32 (u8 b * vga.terminal_width + u8 a) = b * 80 + a) by (unfold vga.terminal_width; wrap_lia). rewrite E.
  rewrite !(proj2 (Z.eqb_neq _ _)) by lia. done.
Qed.

(** The lines move up. *)
Lemma scroll_lines m :
  exists m', for_loop 24 1 (fun i m => string.memcpy (2 * ((i - 1) * vga.terminal_width) + vga.mmio) (2 * (i * vga.terminal_width) + vga.mmio)
                                         (vga.terminal_width * 2) m) m = Ret m' /\
    forall p, m' p = if bool_decide (vga.mmio <= p < vga.mmio + 3840) then m (p + 160) else m p.
Proof.
  destruct (for_loop_inv (fun i m' => forall p, m' p = if bool_decide (vga.mmio <= p < vga.mmio + 160 * (i - 1)) then m (p + 160) else m p)
    24 1 (fun i m => string.memcpy (2 * ((i - 1) * vga.terminal_width) + vga.mmio) (2 * (i * vga.terminal_width) + vga.mmio)
                       (vga.terminal_width * 2) m) m) as (m' & Hr & Hm').
  - intros p. rewrite bool_decide_false by lia. done.
  - intros j mj Hj Hm. unfold string.memcpy, vga.terminal_width.
    destruct (copy_up_ok (Z.to_nat (80 * 2)) 0 (2 * ((j - 1) * 80) + vga.mmio) (2 * (j * 80) + vga.mmio) mj) as (m' & Hr & Hm'); [lia |].
    exists m'. split; [exact Hr |]. intros p. rewrite Hm'. rewrite Z2Nat.id by lia. case_bool_decide as H1.
    + rewrite Hm, bool_decide_false, bool_decide_true by lia. f_equal. lia.
    + rewrite Hm. case_bool_decide; case_bool_decide; (lia || reflexivity).
  - exists m'. split; [exact Hr |]. intros p. rewrite Hm'. done.
Qed.

Lemma address_add a b : address a b + 160 = address a (b + 1).
Proof. unfold address. lia. Qed.

Lemma address_in a b : on_screen a b -> in_text (address a b) /\ in_text (address a b + 1) /\
  (b < 24 -> vga.mmio <= address a b < vga.mmio + 3840 /\ vga.mmio <= address a b + 1 < vga.mmio + 3840) /\
  (b = 24 -> vga.mmio + 3840 <= address a b).
Proof. unfold on_screen, in_text, address. lia. Qed.

(** The last line is cleared. *)
Lemma clear_line m :
  exists m', for_loop 80 0 (fun i m => mret (vga.write_entry blank i (vga.terminal_height - 1) m)) m = Ret m' /\
    (forall a b, on_screen a b -> cell m' a b = if b <? 24 then cell m a b else blank) /\ (forall p, ~ in_text p -> m' p = m p).
Proof.
  destruct (for_loop_inv (fun i m' => (forall a b, on_screen a b -> cell m' a b = if (b =? 24) && (a <? i) then blank else cell m a b) /\
      (forall p, ~ in_text p -> m' p = m p)) 80 0 (fun i m => mret (vga.write_entry blank i (vga.terminal_height - 1) m)) m) as (m' & Hr & Hc & Ho).
  - split; [| done]. intros a b [Ha _]. rewrite (proj2 (Z.ltb_ge a 0)) by lia. by rewrite andb_false_r.
  - intros j mj Hj [Hc Ho]. eexists. split; [reflexivity |]. assert (Hs : on_screen j 24) by (unfold on_screen; lia). split.
    + intros a b Hab. change (vga.terminal_height - 1) with 24. rewrite write_entry_cell by done. unfold put_cell.
      case_bool_decide as Hd; [destruct Hd as [-> ->]; rewrite (proj2 (Z.ltb_lt j (j + 1))) by lia; done |].
      rewrite Hc by done. destruct (Z.eqb_spec b 24) as [-> |]; [| done]. cbn [andb].
      destruct (Z.ltb_spec a j), (Z.ltb_spec a (j + 1)); try done; lia.
    + intros p Hp. change (vga.terminal_height - 1) with 24. rewrite write_entry_outside by done. by apply Ho.
  - exists m'. split_and!; [exact Hr | | exact Ho]. intros a b Hab. rewrite Hc by done. destruct Hab as [Ha Hb].
    destruct (Z.ltb_spec b 24), (Z.eqb_spec b 24), (Z.ltb_spec a (0 + Z.of_nat 80)); try done; lia.
Qed.
End screen.

Section console.
Context {D : Type} `{CL : CrtcLaws D}.
Import vga.
Implicit Types w : writer D.

(** The writer shows the display. *)
Definition shows w (d : display) : Prop :=
  x w = cx d /\ y w = cy d /\ forall a b, on_screen a b -> cell (screen w) a b = cells d a b.

(** What a character leaves alone: the colours, and the memory next to the screen. *)
Definition same_rest w w' : Prop :=
  foreground w' = foreground w /\ background w' = background w /\ forall p, ~ in_text p -> screen w' p = screen w p.

Lemma scroll_ok w : exists m', scroll w = Ret (set_xy 0 25 (set_screen m' w)) /\
  (forall a b, on_screen a b -> cell m' a b = if b <? 24 then cell (screen w) a (b + 1) else blank) /\ (forall p, ~ in_text p -> m' p = screen w p).
Proof.
  destruct (scroll_lines (screen w)) as (m1 & H1 & Hm1). destruct (clear_line m1) as (m2 & H2 & Hc & Ho).
  exists m2. unfold scroll. rewrite H1. cbn [mbind res_bind]. fold blank. rewrite H2. cbn [mbind res_bind]. split_and!; [done | |].
  - intros a b Hab. rewrite Hc by done. destruct (Z.ltb_spec b 24); [| done]. unfold cell. rewrite !Hm1.
    destruct (address_in a b Hab) as (_ & _ & Hlt & _). rewrite !bool_decide_true by (apply Hlt; lia).
    rewrite <- address_add. f_equal; f_equal; lia.
  - intros p Hp. rewrite Ho, Hm1, bool_decide_false by (unfold in_text in *; lia). done.
Qed.

Lemma next_line_ok w d :
  on_screen 0 (cy d) -> shows w d ->
  exists w', scroll_if_full (set_xy 0 (i8 (y w + 1)) w) = Ret w' /\ shows w' (new_line d) /\ same_rest w w' /\ on_screen (x w') (y w').
Proof.
  intros [_ Hy] (Ex & Ey & Hc). assert (Ei : i8 (y w + 1) = cy d + 1) by (rewrite Ey; unfold i8; wrap_lia).
  unfold scroll_if_full, new_line. rewrite Ei. cbn [y set_xy]. destruct (Z.eqb_spec (cy d) 24) as [E24 | E24].
  - rewrite E24. cbn [Z.leb Z.compare Z.add Pos.compare Pos.compare_cont]. change (25 <=? 24 + 1) with true. cbn iota.
    destruct (scroll_ok (set_xy 0 (24 + 1) w)) as (m' & -> & Hm & Ho). cbn [mbind res_bind].
    eexists. split; [reflexivity |]. split_and!; [split_and!; [done | done |] | split_and!; done | by vm_compute].
    intros a b Hab. cbn [screen set_xy set_screen cells]. rewrite Hm by done. cbn [screen set_xy]. destruct (Z.ltb_spec b 24); [| done].
    apply Hc. unfold on_screen in *. lia.
  - rewrite (proj2 (Z.leb_gt 25 (cy d + 1))) by lia. eexists. split; [reflexivity |].
    split_and!; [split_and!; done | split_and!; done | unfold on_screen; cbn; lia].
Qed.

Lemma cursor_shows w d : shows w d -> shows (update_hardware_cursor w) d.
Proof. done. Qed.

Lemma cursor_set w : on_screen (x w) (y w) -> hardware_cursor (ports (update_hardware_cursor w)) = y w * 80 + x w.
Proof.
  intros [Hx Hy]. unfold hardware_cursor, update_hardware_cursor. cbn [ports set_ports]. rewrite !crtc_write.
  change (0x0E =? 0x0E) with true. change (0x0F =? 0x0E) with false. change (0x0F =? 0x0F) with true. cbn iota.
  change 0xFF with (Z.ones 8). rewrite !Z.land_ones, Z.shiftr_div_pow2 by lia. change (2 ^ 8) with 256. unfold terminal_width. wrap_lia.
Qed.

Lemma print_char_ok c w d :
  on_screen (x w) (y w) -> 0 <= c < 256 -> shows w d ->
  exists w', print_char c w = Ret w' /\ shows w' (type_char (foreground w) (background w) c d) /\ same_rest w w' /\
    on_screen (x w') (y w') /\ hardware_cursor (ports w') = y w' * 80 + x w'.
Proof.
  intros Hs Hc Hd. destruct (Hd) as (Ex & Ey & Hcell). assert (Hs' := Hs). destruct Hs' as [Hx Hy]. unfold print_char, type_char.
  assert (Hfin : forall w1 d1, shows w1 d1 -> same_rest w w1 -> on_screen (x w1) (y w1) ->
    exists w', mret (update_hardware_cursor w1) = Ret w' /\ shows w' d1 /\ same_rest w w' /\ on_screen (x w') (y w') /\
      hardware_cursor (ports w') = y w' * 80 + x w').
  { intros w1 d1 H1 H2 H3. eexists. split_and!; [reflexivity | done | done | done |]. exact (cursor_set w1 H3). }
  destruct (c =? 10).
  - destruct (next_line_ok w d) as (w' & -> & H1 & H2 & H3); [unfold on_screen in *; lia | done |]. cbn [mbind res_bind]. by apply Hfin.
  - destruct (c =? 13); [apply Hfin; [done | done | unfold on_screen in *; cbn; lia] |].
    destruct (c =? 8).
    + set (w1 := if x _ <? 0 then _ else _).
      assert (E1 : exists a b, w1 = set_xy a b w /\ on_screen a b /\ (a, b) = if cx d =? 0 then (0, Z.max 0 (cy d - 1)) else (cx d - 1, cy d)).
      { unfold w1. cbn [x y set_xy foreground background screen ports]. assert (Ei : i8 (x w - 1) = cx d - 1) by (unfold i8; wrap_lia).
        assert (Ej : i8 (y w - 1) = cy d - 1) by (unfold i8; wrap_lia). rewrite Ei, Ej.
        destruct (Z.ltb_spec (cx d - 1) 0), (Z.eqb_spec (cx d) 0); try lia.
        - destruct (Z.ltb_spec (cy d - 1) 0); eexists _, _; (split_and!; [reflexivity | unfold on_screen; lia | f_equal; lia]).
        - exists (cx d - 1), (cy d). rewrite Ey. split_and!; [reflexivity | unfold on_screen; lia | done]. }
      destruct E1 as (a & b & -> & Hab & <-). apply Hfin; [| | done].
      * split_and!; [done | done |]. intros a' b' Hab'. cbn. rewrite write_entry_cell by done. unfold put_cell.
        case_bool_decide; [done | by apply Hcell].
      * split_and!; [done | done |]. intros p Hp. cbn. by rewrite write_entry_outside.
    + assert (Hput : forall v, shows (set_xy v (y w) (set_screen (write_entry (text_entry c (foreground w) (background w)) (x w) (y w) (screen w)) w))
               (mk_display v (cy d) (put_cell (text_entry c (foreground w) (background w)) (cx d) (cy d) (cells d)))).
      { intros v. split_and!; [done | done |]. intros a' b' Hab'. cbn. rewrite write_entry_cell by done. rewrite <- Ex, <- Ey. unfold put_cell.
        case_bool_decide; [done | by apply Hcell]. }
      assert (Hrest : forall v, same_rest w (set_xy v (y w) (set_screen (write_entry (text_entry c (foreground w) (background w)) (x w) (y w) (screen w)) w))).
      { intros v. split_and!; [done | done |]. intros p Hp. cbn. by rewrite write_entry_outside. }
      cbn [x y set_screen foreground background screen ports]. assert (Ei : i8 (x w + 1) = cx d + 1) by (unfold i8; wrap_lia). rewrite Ei.
      cbn [x set_xy]. destruct (Z.leb_spec 80 (cx d + 1)), (Z.eqb_spec (cx d) 79); try lia.
      * assert (H0 : on_screen 0 (cy d)) by (unfold on_screen; lia).
        edestruct next_line_ok as (w' & Hn & H1 & H2 & H3); [| exact (Hput (cx d + 1)) |]; [exact H0 |].
        rewrite Hn. cbn [mbind res_bind]. apply Hfin; [done | | done].
        destruct (Hrest (cx d + 1)) as (R1 & R2 & R3), H2 as (R4 & R5 & R6). split_and!; [by rewrite R4 | by rewrite R5 |].
        intros p Hp. by rewrite R6, R3.
      * cbn [mbind res_bind mret res_ret]. apply Hfin; [done | done | unfold on_screen; cbn; lia].
Qed.

(** C32: The text console shows what is printed.  Printing a string, whatever it
    contains, leaves the cursor on the screen and changes the memory of the screen
    as a terminal of 25 lines would: characters appear at the cursor in the current
    colours, the line wraps after 80 of them, and at the bottom the lines move up
    and a blank one appears.  Memory next to the screen is not touched, and the
    cursor of the hardware is where the writer is. *)
Theorem console_refines (str : list Z) w d :
  on_screen (x w) (y w) -> Forall (fun c => 0 <= c < 256) str -> shows w d ->
  exists w', print str w = Ret w' /\ shows w' (foldl (fun d c => type_char (foreground w) (background w) c d) d str) /\
    on_screen (x w') (y w') /\ (forall p, ~ in_text p -> screen w' p = screen w p) /\
    (str <> [] -> hardware_cursor (ports w') = y w' * 80 + x w').
Proof.
  intros Hs Hf. revert w d Hs. induction Hf as [| c str Hc Hf IH]; intros w d Hs Hd; cbn [print foldl].
  - exists w. split_and!; done.
  - destruct (print_char_ok c w d Hs Hc Hd) as (w1 & -> & H1 & (R1 & R2 & R3) & Hs1 & Hcur). cbn [mbind res_bind].
    destruct (IH w1 _ Hs1 H1) as (w' & Hp & H' & Hs' & Ho & Hc'). rewrite R1, R2 in H'. exists w'. split_and!; [done | done | done | |].
    + intros p Hp'. by rewrite Ho, R3.
    + intros _. destruct str; [| by apply Hc']. injection Hp as <-. done.
Qed.

(** Reading the position back from the hardware is wrong: line and column are
    exchanged, and the column is computed with the height of the screen.  From line
    2 on, the writer ends up below the screen. *)
Theorem hardware_cursor_misread w :
  on_screen (x w) (y w) -> hardware_cursor (ports w) = y w * 80 + x w -> (forall i, 0 <= crtc_reg i (ports w) < 256) ->
  x (set_cursor_to_hw w) = y w /\ y (set_cursor_to_hw w) = i8 (x w + 55 * y w) /\
  (2 <= y w -> x w + 55 * y w < 128 -> ~ on_screen (x (set_cursor_to_hw w)) (y (set_cursor_to_hw w))).
Proof.
  intros [Hx Hy] Hh Hb. unfold set_cursor_to_hw, get_hardware_cursor. unfold hardware_cursor in Hh.
  assert (Hlo := crtc_read 0x0F (ports w)). assert (Hk := crtc_keep 0x0E 0x0F (ports w)).
  destruct (io_inb _ (io_outb _ 0x0F _)) as [lo d1]. cbn [fst snd] in *.
  assert (Hhi := crtc_read 0x0E d1). destruct (io_inb _ (io_outb _ 0x0E d1)) as [hi d2]. cbn [fst] in Hhi. rewrite Hk in Hhi. subst lo hi.
  assert (B1 := Hb 0x0E). assert (B2 := Hb 0x0F). set (hi := crtc_reg 0x0E (ports w)) in *. set (lo := crtc_reg 0x0F (ports w)) in *.
  assert (Ep : i16 (i16 lo + Z.shiftl hi 8) = y w * 80 + x w).
  { rewrite Z.shiftl_mul_pow2 by lia. change (2 ^ 8) with 256. unfold i16. wrap_lia. }
  assert (Eq : Z.quot (y w * 80 + x w) terminal_width = y w).
  { unfold terminal_width. rewrite Z.quot_div_nonneg by lia. symmetry. apply (Z.div_unique _ 80 _ (x w)); lia. }
  rewrite Ep, Eq. unfold terminal_height. cbn [x y set_ports set_xy]. unfold on_screen, i8.
  replace (y w * 80 + x w - y w * 25) with (x w + 55 * y w) by lia.
  split_and!; [| done |]; [wrap_lia |]. intros H2 Hs [_ H]. revert H. wrap_lia.
Qed.
End console.

(** [set_cursor] does not check the line. *)
Example set_cursor_below {D} `{IoPorts D} (m : bmem) (d : D) :
  exists w, vga.set_cursor 0 30 (vga.create m d) = Ret w /\ ~ on_screen (vga.x w) (vga.y w).
Proof. eexists. split; [reflexivity |]. intros [_ H']. cbn in H'. change (i8 30) with 30 in H'. lia. Qed.

(** ** The serial port *)

Module serial.
Definition com1_base : Z := 0x3F8.
Definition com2_base : Z := 0x2F8.
Definition interrupt_enable : Z := 1.
Definition line_control : Z := 3.
Definition modem_control : Z := 4.
Definition line_status : Z := 5.
Definition line_control_dlab : Z := 7.

Section writer.
Context {D : Type} `{IO : IoPorts D}.
Context (base : Z).

Definition configure_baud_rate (divisor : Z) (d : D) : D :=
  let '(cmd, d) := io_inb (base + line_control) d in
  let d := io_outb (base + line_control) (Z.lor cmd (Z.shiftl 1 line_control_dlab)) d in
  let d := io_outb base (Z.land (Z.shiftr divisor 8) 0xFF) d in
  let d := io_outb base (Z.land divisor 0xFF) d in
  let '(cmd, d) := io_inb (base + line_control) d in
  io_outb (base + line_control) (Z.land cmd (u8 (Z.lnot (Z.shiftl 1 line_control_dlab)))) d.

(** [writer(base)]. *)
Definition create (d : D) : D :=
  let d := io_outb (base + line_control) 0x03 d in
  let d := io_outb (base + interrupt_enable) 0 d in
  configure_baud_rate 3 d.

(** [while((inb(base + line_status) & mask) == 0);] *)
Fixpoint wait (fuel : nat) (mask : Z) (d : D) : res D :=
  match fuel with
  | O => NoFuel
  | S fuel => let '(v, d) := io_inb (base + line_status) d in if Z.land v mask =? 0 then wait fuel mask d else mret d
  end.

Definition print_char (fuel : nat) (c : Z) (d : D) : res D := d ← wait fuel 0x20 d; mret (io_outb base c d).

Definition get_char (fuel : nat) (d : D) : res (Z * D) := d ← wait fuel 0x1 d; mret (io_inb base d).

Fixpoint nprint (fuel : nat) (str : list Z) (d : D) : res D :=
  match str with [] => mret d | c :: str => d ← print_char fuel (u8 c) d; nprint fuel str d end.
End writer.
End serial.

(** The serial output of the boot loader. *)
Module loader_common.
Section ops.
Context {D : Type} `{IO : IoPorts D}.
Definition com1_base : Z := 0x3F8.

Definition init (d : D) : D :=
  let d := io_outb (com1_base + 3) 0x03 d in
  let d := io_outb (com1_base + 1) 0 d in
  let '(cmd, d) := io_inb (com1_base + 3) d in
  let d := io_outb (com1_base + 3) (Z.lor cmd (Z.shiftl 1 7)) d in
  let d := io_outb com1_base (Z.land (Z.shiftr 3 8) 0xFF) d in
  let d := io_outb com1_base (Z.land 3 0xFF) d in
  let '(cmd, d) := io_inb (com1_base + 3) d in
  io_outb (com1_base + 3) (Z.land cmd (u8 (Z.lnot (Z.shiftl 1 7)))) d.

Fixpoint wait_empty (fuel : nat) (d : D) : res D :=
  match fuel with
  | O => NoFuel
  | S fuel => let '(v, d) := io_inb (com1_base + 5) d in if Z.land v 0x20 =? 0 then wait_empty fuel d else mret d
  end.

Definition print_char (fuel : nat) (c : Z) (d : D) : res D := d ← wait_empty fuel d; mret (io_outb com1_base c d).

Fixpoint debug_printf (fuel : nat) (str : list Z) (d : D) : res D :=
  match str with [] => mret d | c :: str => d ← print_char fuel c d; debug_printf fuel str d end.
End ops.
End loader_common.

(** The chip behind the serial port, as its data sheet describes it: the line control
    register, the two bytes of the divisor, the enabled interrupts, the bytes that
    went out, and how often the status has to be read until it is ready for more. *)
Record uart := mk_uart { lcr : Z; dll : Z; dlm : Z; ier : Z; sent : list Z; busy : nat }.

Definition dlab (u : uart) : bool := Z.testbit (lcr u) 7.

Class UartLaws (D : Type) (base : Z) `{IO : IoPorts D} := {
  uart_of : D -> uart;
  latency : nat;
  uart_lcr : forall v d, uart_of (io_outb (base + 3) v d) = let u := uart_of d in mk_uart v (dll u) (dlm u) (ier u) (sent u) (busy u);
  uart_ier : forall v d, uart_of (io_outb (base + 1) v d) =
    let u := uart_of d in if dlab u then mk_uart (lcr u) (dll u) v (ier u) (sent u) (busy u) else mk_uart (lcr u) (dll u) (dlm u) v (sent u) (busy u);
  uart_divisor : forall v d, dlab (uart_of d) = true -> uart_of (io_outb base v d) =
    let u := uart_of d in mk_uart (lcr u) v (dlm u) (ier u) (sent u) (busy u);
  uart_send : forall v d, dlab (uart_of d) = false -> busy (uart_of d) = 0%nat -> exists n, (n <= latency)%nat /\
    uart_of (io_outb base v d) = let u := uart_of d in mk_uart (lcr u) (dll u) (dlm u) (ier u) (sent u ++ [v]) n;
  uart_read_lcr : forall d, (io_inb (base + 3) d).1 = lcr (uart_of d) /\ uart_of (io_inb (base + 3) d).2 = uart_of d;
  uart_status : forall d, ((Z.land (io_inb (base + 5) d).1 0x20 =? 0) = negb (busy (uart_of d) =? 0)%nat) /\
    uart_of (io_inb (base + 5) d).2 = let u := uart_of d in mk_uart (lcr u) (dll u) (dlm u) (ier u) (sent u) (pred (busy u)) }.

Section serial_port.
Context {D : Type} (base : Z) `{UL : UartLaws D base}.

(** The port is set up for 8 bits without interrupts.  Both bytes of the divisor
    go to its low byte, the high byte keeps what it had before. *)
Theorem serial_setup (d : D) :
  uart_of (serial.create base d) =
  mk_uart 3 3 (dlm (uart_of d)) 0 (sent (uart_of d)) (busy (uart_of d)).
Proof.
  unfold serial.create, serial.configure_baud_rate, serial.line_control, serial.interrupt_enable.
  set (d1 := io_outb (base + 1) 0 _).
  assert (E1 : uart_of d1 = mk_uart 3 (dll (uart_of d)) (dlm (uart_of d)) 0 (sent (uart_of d)) (busy (uart_of d))).
  { unfold d1. by rewrite uart_ier, uart_lcr. }
  destruct (uart_read_lcr d1) as [Hv Hd]. destruct (io_inb (base + 3) d1) as [v d2]. cbn [fst snd] in Hv, Hd. rewrite E1 in Hv, Hd. cbn [lcr] in Hv. subst v.
  set (d3 := io_outb base _ (io_outb base _ _)).
  assert (E3 : uart_of d3 = mk_uart 0x83 3 (dlm (uart_of d)) 0 (sent (uart_of d)) (busy (uart_of d))).
  { unfold d3. assert (Hb : dlab (uart_of (io_outb (base + 3) (Z.lor 3 (Z.shiftl 1 serial.line_control_dlab)) d2)) = true) by (by rewrite uart_lcr).
    rewrite uart_divisor; rewrite uart_divisor by exact Hb; by rewrite uart_lcr, Hd. }
  destruct (uart_read_lcr d3) as [Hv Hd3]. destruct (io_inb (base + 3) d3) as [v d4]. cbn [fst snd] in Hv, Hd3. rewrite E3 in Hv, Hd3. cbn [lcr] in Hv. subst v.
  by rewrite uart_lcr, Hd3.
Qed.

Lemma serial_wait fuel (d : D) :
  (busy (uart_of d) < fuel)%nat ->
  exists d', serial.wait base fuel 0x20 d = Ret d' /\ uart_of d' = let u := uart_of d in mk_uart (lcr u) (dll u) (dlm u) (ier u) (sent u) 0.
Proof.
  revert d. induction fuel as [| fuel IH]; intros d Hf; [lia |]. cbn [serial.wait]. destruct (uart_status d) as [Hs Hd].
  change serial.line_status with 5. destruct (io_inb (base + 5) d) as [v d1]. cbn [fst snd] in Hs, Hd. rewrite Hs.
  destruct (busy (uart_of d)) as [| n] eqn:Eb; cbn [Nat.eqb negb].
  - exists d1. split; [done |]. by rewrite Hd.
  - destruct (IH d1) as (d' & H1 & H2); [rewrite Hd; cbn; lia |]. exists d'. split; [done |]. by rewrite H2, Hd.
Qed.

(** Everything that is printed goes out, in order. *)
Theorem serial_prints (fuel : nat) (str : list Z) (d : D) :
  dlab (uart_of d) = false -> (busy (uart_of d) <= latency)%nat -> (latency < fuel)%nat ->
  exists d', serial.nprint base fuel str d = Ret d' /\ sent (uart_of d') = sent (uart_of d) ++ (u8 <$> str).
Proof.
  revert d. induction str as [| c str IH]; intros d Hd Hb Hf; cbn [serial.nprint].
  - exists d. split; [done |]. by rewrite app_nil_r.
  - unfold serial.print_char. destruct (serial_wait fuel d) as (d1 & -> & H1); [lia |]. cbn [mbind res_bind mret res_ret].
    destruct (uart_send (u8 c) d1) as (n & Hn & H2); [by rewrite H1 | by rewrite H1 |].
    destruct (IH (io_outb base (u8 c) d1)) as (d' & -> & H'); [by rewrite H2, H1 | by rewrite H2, H1 | done |].
    exists d'. split; [done |]. rewrite H', H2, H1. cbn. by rewrite <- app_assoc.
Qed.
End serial_port.

(** The boot loader sets the first port up and prints to it as the kernel does. *)
Theorem loader_serial {D} `{IO : IoPorts D} (fuel : nat) (str : list Z) (d : D) :
  Forall (fun c => 0 <= c < 256) str ->
  loader_common.init d = serial.create serial.com1_base d /\
  loader_common.debug_printf fuel str d = serial.nprint serial.com1_base fuel str d.
Proof.
  intros Hf. split; [reflexivity |]. assert (Hw : forall d, loader_common.wait_empty fuel d = serial.wait serial.com1_base fuel 0x20 d).
  { induction fuel as [| fuel IH]; intros d0; [done |]. cbn. destruct (io_inb _ d0). by rewrite IH. }
  revert d. induction Hf as [| c str Hc Hf IH]; intros d; [done |]. cbn [loader_common.debug_printf serial.nprint].
  unfold loader_common.print_char, serial.print_char. rewrite Hw. change loader_common.com1_base with serial.com1_base.
  replace (u8 c) with c by wrap_lia. destruct (serial.wait _ _ _ _); cbn [mbind res_bind mret res_ret]; try done.
Qed.

(** ** The legacy interrupt controllers *)

Module pic.
Definition pic1_cmd_port : Z := 0x20.
Definition pic1_data_port : Z := 0x21.
Definition pic2_cmd_port : Z := 0xA0.
Definition pic2_data_port : Z := 0xA1.
Definition eoi_cmd : Z := 0x20.
Definition read_irr : Z := 0xa.
Definition read_isr : Z := 0xb.
Definition icw1_icw4 : Z := 0x1.
Definition icw1_init : Z := 0x10.
Definition icw4_8086 : Z := 0x1.

Section ops.
Context {D : Type} `{IO : IoPorts D}.

(** The ports with the two static variables. *)
Record state := mk { pic1_int_base : Z; pic2_int_base : Z; hw : D }.

Definition get_irq_reg (ocw3 : Z) (d : D) : Z * D :=
  let d := io_outb pic1_cmd_port ocw3 d in
  let d := io_outb pic2_cmd_port ocw3 d in
  let '(hi, d) := io_inb pic2_cmd_port d in
  let '(lo, d) := io_inb pic1_cmd_port d in
  (u16 (Z.lor (Z.shiftl hi 8) lo), d).

Definition get_isr (d : D) : Z * D := get_irq_reg read_isr d.

Definition remap (pic1_base pic2_base : Z) (s : state) : state :=
  let '(pic1_mask, d) := io_inb pic1_data_port (hw s) in
  let '(pic2_mask, d) := io_inb pic2_data_port d in
  let d := io_outb pic1_cmd_port (Z.lor icw1_init icw1_icw4) d in
  let d := io_outb pic2_cmd_port (Z.lor icw1_init icw1_icw4) d in
  let d := io_outb pic1_data_port pic1_base d in
  let d := io_outb pic2_data_port pic2_base d in
  let d := io_outb pic1_data_port 4 d in
  let d := io_outb pic2_data_port 2 d in
  let d := io_outb pic1_data_port icw4_8086 d in
  let d := io_outb pic2_data_port icw4_8086 d in
  let d := io_outb pic1_data_port pic1_mask d in
  let d := io_outb pic2_data_port pic2_mask d in
  mk pic1_base pic2_base d.

Definition send_eoi (d : D) : D :=
  let '(isr, d) := get_isr d in
  if isr =? 0 then d
  else if Z.testbit isr 2 && (Z.land (Z.shiftr isr 8) 0xFF =? 0) then io_outb pic1_cmd_port eoi_cmd d
  else
    let d := if Z.testbit isr 2 then io_outb pic2_cmd_port eoi_cmd d else d in
    io_outb pic1_cmd_port eoi_cmd d.

Definition set_base_vector (base : Z) (s : state) : state := remap (u8 base) (u8 (base + 8)) s.

Definition disable (s : state) : state :=
  mk (pic1_int_base s) (pic2_int_base s) (io_outb pic2_data_port 0xFF (io_outb pic1_data_port 0xFF (hw s))).
Definition enable (s : state) : state :=
  mk (pic1_int_base s) (pic2_int_base s) (io_outb pic2_data_port 0x0 (io_outb pic1_data_port 0x0 (hw s))).
End ops.
Arguments state D : clear implicits.
End pic.

(** One of the two chips, as its data sheet describes it: the mask, the first vector,
    which initialisation word it expects next (none: 0), the interrupts in service,
    and whether the command port reads as those. *)
Inductive chip := Master | Slave.
#[export] Instance chip_eq_dec : EqDecision chip.
Proof. solve_decision. Defined.

Record controller := mk_controller { mask : Z; first_vector : Z; icw : nat; in_service : Z; reads_service : bool }.

Definition cmd_port (c : chip) : Z := match c with Master => pic.pic1_cmd_port | Slave => pic.pic2_cmd_port end.
Definition data_port (c : chip) : Z := match c with Master => pic.pic1_data_port | Slave => pic.pic2_data_port end.

(** The end of the interrupt with the highest priority, the lowest bit. *)
Definition acknowledge (isr : Z) : Z := Z.land isr (isr - 1).

Definition write_cmd (v : Z) (c : controller) : controller :=
  if Z.testbit v 4 then mk_controller 0 (first_vector c) 1 0 false
  else if v =? 0x20 then mk_controller (mask c) (first_vector c) (icw c) (acknowledge (in_service c)) (reads_service c)
  else if v =? 0xb then mk_controller (mask c) (first_vector c) (icw c) (in_service c) true
  else c.

Definition write_data (v : Z) (c : controller) : controller :=
  match icw c with
  | 1%nat => mk_controller (mask c) (Z.land v 0xF8) 2 (in_service c) (reads_service c)
  | 2%nat => mk_controller (mask c) (first_vector c) 3 (in_service c) (reads_service c)
  | 3%nat => mk_controller (mask c) (first_vector c) 0 (in_service c) (reads_service c)
  | _ => mk_controller v (first_vector c) (icw c) (in_service c) (reads_service c)
  end.

Class PicLaws (D : Type) `{IO : IoPorts D} := {
  chip_of : chip -> D -> controller;
  pic_cmd : forall c c' v d, chip_of c (io_outb (cmd_port c') v d) = if decide (c = c') then write_cmd v (chip_of c d) else chip_of c d;
  pic_data : forall c c' v d, chip_of c (io_outb (data_port c') v d) = if decide (c = c') then write_data v (chip_of c d) else chip_of c d;
  pic_read_data : forall c d, icw (chip_of c d) = 0%nat ->
    (io_inb (data_port c) d).1 = mask (chip_of c d) /\ forall c', chip_of c' (io_inb (data_port c) d).2 = chip_of c' d;
  pic_read_cmd : forall c d, reads_service (chip_of c d) = true ->
    (io_inb (cmd_port c) d).1 = in_service (chip_of c d) /\ forall c', chip_of c' (io_inb (cmd_port c) d).2 = chip_of c' d }.

Section pic_theorems.
Context {D : Type} `{PL : PicLaws D}.

Ltac ports :=
  change pic.pic1_cmd_port with (cmd_port Master) in *; change pic.pic2_cmd_port with (cmd_port Slave) in *;
  change pic.pic1_data_port with (data_port Master) in *; change pic.pic2_data_port with (data_port Slave) in *.
Ltac steps := repeat first [rewrite pic_cmd | rewrite pic_data | rewrite decide_True by reflexivity | rewrite decide_False by discriminate].

(** The legacy controllers are moved out of the way.  Giving them a base vector
    takes both through their initialisation and leaves the masks as they were; the
    first chip gets the vectors from the base on and the second the next eight.
    Disabling them masks all sixteen interrupts. *)
Theorem pic_remap (base : Z) (s : pic.state D) :
  (forall c, icw (chip_of c (pic.hw s)) = 0%nat) -> 0 <= base -> base + 8 < 256 -> base mod 8 = 0 ->
  let s1 := pic.set_base_vector base s in
  (forall c, chip_of c (pic.hw s1) =
     mk_controller (mask (chip_of c (pic.hw s))) (match c with Master => base | Slave => base + 8 end) 0 0 false) /\
  pic.pic1_int_base s1 = base /\ pic.pic2_int_base s1 = base + 8 /\
  (forall c, chip_of c (pic.hw (pic.disable s1)) = mk_controller 0xFF (match c with Master => base | Slave => base + 8 end) 0 0 false).
Proof.
  intros Hi H0 Hb Hm s1.
  assert (Hv : forall v, 0 <= v < 256 -> v mod 8 = 0 -> Z.land v 0xF8 = v).
  { intros v H1 H2. assert (Hall : forallb (fun k => Z.land (8 * k) 0xF8 =? 8 * k) (seqZ 0 32) = true) by (vm_compute; reflexivity).
    rewrite forallb_forall in Hall. specialize (Hall (v / 8)). rewrite <- list_elem_of_In, elem_of_seqZ, Z.eqb_eq in Hall.
    replace v with (8 * (v / 8)) by wrap_lia. apply Hall. wrap_lia. }
  assert (E1 : u8 base = base) by wrap_lia. assert (E2 : u8 (base + 8) = base + 8) by wrap_lia.
  assert (H1 : forall c, chip_of c (pic.hw s1) =
     mk_controller (mask (chip_of c (pic.hw s))) (match c with Master => base | Slave => base + 8 end) 0 0 false).
  { unfold s1, pic.set_base_vector, pic.remap. rewrite E1, E2. ports.
    destruct (pic_read_data Master (pic.hw s) (Hi Master)) as [Hm1 Hd1]. destruct (io_inb (data_port Master) (pic.hw s)) as [m1 d1].
    destruct (pic_read_data Slave d1) as [Hm2 Hd2]; [by rewrite Hd1, Hi |]. destruct (io_inb (data_port Slave) d1) as [m2 d2]. cbn [fst snd] in *.
    intros c. cbn [pic.hw]. destruct c; steps; rewrite Hd2, Hd1.
    - change (write_cmd _ ?x) with (mk_controller 0 (first_vector x) 1 0 false). unfold write_data. cbn [icw mask first_vector in_service reads_service].
      rewrite (Hv base) by (done || lia). by rewrite <- Hm1.
    - change (write_cmd _ ?x) with (mk_controller 0 (first_vector x) 1 0 false). unfold write_data. cbn [icw mask first_vector in_service reads_service].
      rewrite (Hv (base + 8)) by wrap_lia. by rewrite Hm2, Hd1. }
  split_and!; [exact H1 | | |].
  - unfold s1, pic.set_base_vector, pic.remap. by destruct (io_inb _ _), (io_inb _ _).
  - unfold s1, pic.set_base_vector, pic.remap. by destruct (io_inb _ _), (io_inb _ _).
  - intros c. unfold pic.disable. cbn [pic.hw]. ports. destruct c; steps; rewrite H1; done.
Qed.

(** The end of an interrupt goes to the chips that serve one: to none when the
    interrupt was spurious, only to the first one when the second has none. *)
Theorem pic_send_eoi (d : D) :
  let m := in_service (chip_of Master d) in let s := in_service (chip_of Slave d) in
  0 <= m < 256 -> 0 <= s < 256 ->
  let d' := pic.send_eoi d in
  in_service (chip_of Master d') = (if (m =? 0) && (s =? 0) then m else acknowledge m) /\
  in_service (chip_of Slave d') = (if Z.testbit m 2 && negb (s =? 0) then acknowledge s else s).
Proof.
  intros m s Hm Hs d'. unfold d', pic.send_eoi, pic.get_isr, pic.get_irq_reg. ports.
  set (d1 := io_outb _ _ (io_outb _ _ d)).
  assert (E1 : forall c, chip_of c d1 = write_cmd pic.read_isr (chip_of c d)) by (intros []; unfold d1; steps; done).
  destruct (pic_read_cmd Slave d1) as [Hv1 Hd1]; [by rewrite E1 |]. destruct (io_inb (cmd_port Slave) d1) as [hi d2].
  destruct (pic_read_cmd Master d2) as [Hv2 Hd2]; [by rewrite Hd1, E1 |]. destruct (io_inb (cmd_port Master) d2) as [lo d3].
  cbn [fst snd] in *. rewrite E1 in Hv1. rewrite Hd1, E1 in Hv2. cbn in Hv1, Hv2. fold s in Hv1. fold m in Hv2. subst hi lo.
  assert (E3 : forall c, chip_of c d3 = write_cmd pic.read_isr (chip_of c d)) by (intros c; by rewrite Hd2, Hd1, E1).
  assert (Hl : forall i, 8 <= i -> Z.testbit m i = false).
  { intros i Hi. rewrite <- (Z.mod_small m (2 ^ 8)) by lia. apply Z.mod_pow2_bits_high. lia. }
  assert (Ei : u16 (Z.lor (Z.shiftl s 8) m) = s * 256 + m).
  { assert (Hz : Z.land m (Z.shiftl s 8) = 0).
    { apply Z.bits_inj'. intros i Hi. rewrite Z.land_spec, Z.shiftl_spec, Z.bits_0 by lia.
      destruct (Z.ltb_spec i 8); [rewrite (Z.testbit_neg_r s) by lia; by rewrite andb_false_r | by rewrite Hl]. }
    assert (Ha := Z.add_lor_land m (Z.shiftl s 8)). rewrite Hz in Ha. rewrite Z.lor_comm. rewrite Z.shiftl_mul_pow2 in * by lia.
    change (2 ^ 8) with 256 in *. wrap_lia. }
  rewrite Ei. assert (Et : Z.testbit (s * 256 + m) 2 = Z.testbit m 2).
  { rewrite <- (Z.mod_pow2_bits_low (s * 256 + m) 8), <- (Z.mod_pow2_bits_low m 8) by lia. f_equal. change (2 ^ 8) with 256. wrap_lia. }
  assert (Es : Z.land (Z.shiftr (s * 256 + m) 8) 0xFF = s).
  { change 0xFF with (Z.ones 8). rewrite Z.land_ones, Z.shiftr_div_pow2 by lia. change (2 ^ 8) with 256. wrap_lia. }
  rewrite Et, Es. destruct (Z.eqb_spec (s * 256 + m) 0) as [Ez | Ez].
  - rewrite !E3. assert (m = 0) by lia. assert (s = 0) by lia. cbn. fold m s. subst m s. rewrite H, H0. done.
  - replace ((m =? 0) && (s =? 0)) with false by (destruct (Z.eqb_spec m 0), (Z.eqb_spec s 0); cbn; (done || lia)).
    destruct (Z.testbit m 2), (Z.eqb_spec s 0); cbn [andb negb]; steps; rewrite !E3; done.
Qed.
End pic_theorems.

(** ** Witnesses *)

(** A machine with the three devices. *)
Record board := mk_board { b_index : Z; b_regs : Z -> Z; b_uart : uart; b_master : controller; b_slave : controller }.

Definition board_out (port v : Z) (d : board) : board :=
  let u := b_uart d in
  let put_uart u := mk_board (b_index d) (b_regs d) u (b_master d) (b_slave d) in
  if port =? 0x3D4 then mk_board v (b_regs d) u (b_master d) (b_slave d)
  else if port =? 0x3D5 then mk_board (b_index d) (fun i => if i =? b_index d then v else b_regs d i) u (b_master d) (b_slave d)
  else if port =? 0x3F8 then
    put_uart (if dlab u then mk_uart (lcr u) v (dlm u) (ier u) (sent u) (busy u)
              else if (busy u =? 0)%nat then mk_uart (lcr u) (dll u) (dlm u) (ier u) (sent u ++ [v]) 2 else u)
  else if port =? 0x3F9 then
    put_uart (if dlab u then mk_uart (lcr u) (dll u) v (ier u) (sent u) (busy u) else mk_uart (lcr u) (dll u) (dlm u) v (sent u) (busy u))
  else if port =? 0x3FB then put_uart (mk_uart v (dll u) (dlm u) (ier u) (sent u) (busy u))
  else if port =? 0x20 then mk_board (b_index d) (b_regs d) u (write_cmd v (b_master d)) (b_slave d)
  else if port =? 0x21 then mk_board (b_index d) (b_regs d) u (write_data v (b_master d)) (b_slave d)
  else if port =? 0xA0 then mk_board (b_index d) (b_regs d) u (b_master d) (write_cmd v (b_slave d))
  else if port =? 0xA1 then mk_board (b_index d) (b_regs d) u (b_master d) (write_data v (b_slave d))
  else d.

Definition board_in (port : Z) (d : board) : Z * board :=
  let u := b_uart d in
  if port =? 0x3D5 then (b_regs d (b_index d), d)
  else if port =? 0x3FB then (lcr u, d)
  else if port =? 0x3FD then
    (if (busy u =? 0)%nat then 0x60 else 0,
     mk_board (b_index d) (b_regs d) (mk_uart (lcr u) (dll u) (dlm u) (ier u) (sent u) (pred (busy u))) (b_master d) (b_slave d))
  else if port =? 0x20 then (if reads_service (b_master d) then in_service (b_master d) else 0, d)
  else if port =? 0x21 then (mask (b_master d), d)
  else if port =? 0xA0 then (if reads_service (b_slave d) then in_service (b_slave d) else 0, d)
  else if port =? 0xA1 then (mask (b_slave d), d)
  else (0, d).

#[export] Instance board_ports : IoPorts board := {| io_inb := board_in; io_outb := board_out |}.
#[export] Instance board_crtc : CrtcLaws board.
Proof. refine {| crtc_reg i d := b_regs d i |}; reflexivity. Defined.
#[export] Instance board_serial : UartLaws board 0x3F8.
Proof.
  refine {| uart_of := b_uart; latency := 2 |}; try reflexivity.
  - intros v d H. cbn in H |- *. unfold board_out. cbn [Z.eqb Pos.eqb]. by rewrite H.
  - intros v d H Hb. exists 2%nat. split; [done |]. cbn in H, Hb |- *. unfold board_out. cbn [Z.eqb Pos.eqb]. by rewrite H, Hb.
  - done.
  - intros [i r [a b c e f n] m s]. destruct n; split; reflexivity.
Defined.
#[export] Instance board_pic : PicLaws board.
Proof.
  refine {| chip_of c d := match c with Master => b_master d | Slave => b_slave d end |}.
  - by intros [] [] v d.
  - by intros [] [] v d.
  - by intros [] d _.
  - intros [] d H; (split; [cbn in H |- *; by rewrite H | intros []; reflexivity]).
Defined.

Definition board_example : board :=
  mk_board 0 (fun _ => 0) (mk_uart 0x80 1 7 1 [] 1) (mk_controller 0xB8 0x8 0 0 false) (mk_controller 0x8F 0x70 0 0 false).

(** A line that scrolls the screen. *)
Definition writer_example : vga.writer board := vga.set_xy 79 24 (vga.create (fun _ => 32) board_example).

Lemma console_refines_witness :
  exists w', vga.print [65; 66] writer_example = Ret w' /\ vga.x w' = 1 /\ vga.y w' = 24 /\
    cell (vga.screen w') 79 23 = vga.text_entry 65 15 0 /\ cell (vga.screen w') 0 24 = vga.text_entry 66 15 0 /\
    hardware_cursor (vga.ports w') = 24 * 80 + 1.
Proof.
  destruct (console_refines [65; 66] writer_example (mk_display 79 24 (fun _ _ => vga.mk_entry 32 32))) as (w' & Hp & (Hx & Hy & Hc) & _ & _ & Hh).
  - split; split; vm_compute; (discriminate || reflexivity).
  - repeat constructor; vm_compute; (discriminate || reflexivity).
  - split_and!; [reflexivity | reflexivity |]. intros a b _. reflexivity.
  - exists w'. split_and!; [exact Hp | rewrite Hx; vm_compute; reflexivity | rewrite Hy; vm_compute; reflexivity | | |].
    + refine (eq_trans (Hc 79 23 _) _); [unfold on_screen; lia | vm_compute; reflexivity].
    + refine (eq_trans (Hc 0 24 _) _); [unfold on_screen; lia | vm_compute; reflexivity].
    + rewrite Hh by discriminate. rewrite Hx, Hy. vm_compute. reflexivity.
Defined.

Definition below_example : vga.writer board := vga.update_hardware_cursor (vga.set_xy 5 2 (vga.create (fun _ => 0) board_example)).

Lemma hardware_cursor_misread_witness :
  vga.x (vga.set_cursor_to_hw below_example) = 2 /\ vga.y (vga.set_cursor_to_hw below_example) = 115.
Proof.
  destruct (hardware_cursor_misread below_example) as (H1 & H2 & _); [split; split; vm_compute; (discriminate || reflexivity) | vm_compute; reflexivity | |].
  - intros i. cbn. destruct (i =? 14); [vm_compute; split; (discriminate || reflexivity) |]. destruct (i =? 15); vm_compute; split; (discriminate || reflexivity).
  - split; [exact H1 | exact H2].
Defined.

Lemma serial_prints_witness :
  exists d', serial.nprint 0x3F8 5 [72; 105] (serial.create 0x3F8 board_example) = Ret d' /\ sent (uart_of d') = [72; 105].
Proof.
  destruct (serial_prints 0x3F8 5 [72; 105] (serial.create 0x3F8 board_example)) as (d' & H1 & H2);
    [reflexivity | vm_compute; lia | vm_compute; lia |]. exists d'. split; [exact H1 | exact H2].
Defined.

Lemma loader_serial_witness :
  loader_common.debug_printf 5 [72; 105] board_example = serial.nprint serial.com1_base 5 [72; 105] board_example.
Proof. apply (loader_serial 5 [72; 105] board_example). repeat constructor; vm_compute; (discriminate || reflexivity). Defined.

Lemma pic_remap_witness :
  chip_of Slave (pic.hw (pic.set_base_vector 32 (pic.mk 0 0 board_example))) = mk_controller 0x8F 40 0 0 false /\
  chip_of Master (pic.hw (pic.disable (pic.set_base_vector 32 (pic.mk 0 0 board_example)))) = mk_controller 0xFF 32 0 0 false.
Proof.
  destruct (pic_remap 32 (pic.mk 0 0 board_example)) as (H1 & _ & _ & H2); [by intros [] | lia | lia | reflexivity |].
  split; [exact (H1 Slave) | exact (H2 Master)].
Defined.

Definition serving_example : board :=
  mk_board 0 (fun _ => 0) (mk_uart 0 0 0 0 [] 0) (mk_controller 0 32 0 4 false) (mk_controller 0 40 0 1 false).

Lemma pic_send_eoi_witness :
  in_service (chip_of Master (pic.send_eoi serving_example)) = 0 /\ in_service (chip_of Slave (pic.send_eoi serving_example)) = 0.
Proof.
  destruct (pic_send_eoi serving_example) as [H1 H2]; [vm_compute; split; (discriminate || reflexivity) | vm_compute; split; (discriminate || reflexivity) |].
  split; [exact H1 | exact H2].
Defined.
