(* ===== verification/Apic.v ===== *)
(** * Apic: the interrupt controllers

    Models source/arch/x86_64/drivers/apic.cpp with the constants of
    include/Sigma/arch/x86_64/drivers/apic.h, and the interrupt set-up of
    [acpi::init_sci].  The registers of the controllers are hardware: a state of
    type [D] with reads and writes, [RegHw]; what the code relies on, that the
    registers it reads back keep what was written, is [RegHwLaws].  An access to a
    register of an I/O APIC, a write to the select register followed by an access
    to the data register, is one access to [Ioapic_reg base reg].  What the
    hardware does while the code waits, in the calibration of the timer and while it
    polls for the delivery of an interrupt, is an argument. *)

From S2P Require Import Prelude Bits Fields Frames Paging Descriptors Acpi.

(** ** Registers *)

Inductive loc := Mmio (address : Z) | Msr (number : Z) | Ioapic_reg (base reg : Z).

#[export] Instance loc_eq_dec : EqDecision loc.
Proof. solve_decision. Defined.

Class RegHw (D : Type) := {
  hw_rd : loc -> D -> Z;
  hw_wr : loc -> Z -> D -> D;
  (** The registers that keep what is written to them. *)
  hw_storage : loc -> Prop
}.

Class RegHwLaws (D : Type) `{!RegHw D} := {
  hw_rd_wr l v d : hw_storage l -> hw_rd l (hw_wr l v d) = u32 v;
  hw_rd_other l l' v d : l <> l' -> hw_storage l -> hw_rd l (hw_wr l' v d) = hw_rd l d;
  hw_rd_range l d : 0 <= hw_rd l d < 2 ^ 32
}.

(** ** The local APIC *)

Module lapic.
Definition lapic_id : Z := 0x20.
Definition lapic_version : Z := 0x30.
Definition lapic_tpr : Z := 0x80.
Definition lapic_eoi : Z := 0xB0.
Definition lapic_ldr : Z := 0xD0.
Definition lapic_dfr : Z := 0xE0.
Definition lapic_spurious : Z := 0xF0.
Definition lapic_icr_low : Z := 0x300.
Definition lapic_icr_high : Z := 0x310.
Definition lapic_lvt_timer : Z := 0x320.
Definition lapic_timer_initial_count : Z := 0x380.
Definition lapic_timer_current_count : Z := 0x390.
Definition lapic_timer_divide_configuration : Z := 0x3E0.
Definition lapic_spurious_software_enable : Z := 8.
Definition lapic_icr_status_pending : Z := 0x1000.
Definition lapic_lvt_mask : Z := 16.
Definition x2apic_base : Z := 0x800.

Inductive lapic_timer_modes := ONE_SHOT | PERIODIC | TSC_DEADLINE.
Definition mode_number (m : lapic_timer_modes) : Z := match m with ONE_SHOT => 0 | PERIODIC => 1 | TSC_DEADLINE => 2 end.

Record t := mk { base : Z; id : Z; version : Z; max_lvt_entries : Z; timer_ticks_per_ms : Z; x2apic : bool }.

(** [msr::apic_base] and [cpuid_bits::x2APIC]. *)
Definition apic_base : Z := 0x1b.
Definition cpuid_x2APIC : Z := 0x00200000.

Definition lapic_reg_to_x2apic (reg : Z) : Z := Z.shiftr reg 4.

(** Where a register is. *)
Definition at_ (reg : Z) (l : t) : loc :=
  if x2apic l then Msr (x2apic_base + lapic_reg_to_x2apic reg)
  else Mmio (u64 (base l + KERNEL_PHYSICAL_VIRTUAL_MAPPING_BASE + reg)).

Section device.
Context {D : Type} `{HW : RegHw D}.

Definition read (reg : Z) (l : t) (d : D) : Z := hw_rd (at_ reg l) d.
Definition write (reg v : Z) (l : t) (d : D) : D := hw_wr (at_ reg l) v d.

(** The flags with which a page of registers is mapped. *)
Definition mmio_flags : Z := Z.lor (Z.lor map_page_flags_present map_page_flags_writable) map_page_flags_no_execute.

(** [init]; [msr] is the value of the base register, [ecx] what [cpuid] leaf 1
    gives, [nox2apic] the kernel argument.  The first loads of a register follow
    the write of the base register, which may switch the mode. *)
Definition init {S} `{FA : FrameAllocator S} (paging_info msr : Z) (ecx : option Z) (nox2apic : bool) (l : t) (k : paging.kernel S) (d : D)
  : res (t * paging.kernel S * D) :=
  let b := Z.land msr 0xFFFFFFFFFFFFF000 in
  let msr := (bitops.bit_set 64 msr 11).1 in
  let l := mk b (id l) (version l) (max_lvt_entries l) (timer_ticks_per_ms l) (x2apic l) in
  '(l, msr, k) ← match ecx with
    | Some c =>
        if negb (Z.land c cpuid_x2APIC =? 0) && negb nox2apic then
          mret (mk b (id l) (version l) (max_lvt_entries l) (timer_ticks_per_ms l) true, (bitops.bit_set 64 msr 10).1, k)
        else
          k ← paging.map_page paging_info b (to_virt b) mmio_flags uncacheable k;
          mret (l, msr, k)
    | None => mret (l, msr, k)
    end;
  let d := hw_wr (Msr apic_base) msr d in
  let id := if x2apic l then read lapic_id l d else Z.land (Z.shiftr (read lapic_id l d) 24) 0xFF in
  let version_reg := read lapic_version l d in
  let l := mk b id (Z.land version_reg 0xFF) (u8 (Z.land (Z.shiftr version_reg 16) 0xFF + 1)) (timer_ticks_per_ms l) (x2apic l) in
  let d := write lapic_tpr 0 l d in
  let d := if x2apic l then d
           else write lapic_ldr (Z.shiftl (u8 id) 16) l (write lapic_dfr 0xFFFFFFFF l d) in
  let d := write lapic_spurious (bitops.bit_set 32 (Z.lor 0 0xFF) lapic_spurious_software_enable).1 l d in
  mret (l, k, d).

(** [while(read(lapic_icr_low) & lapic_icr_status_pending)]: [tick] is what the
    hardware does between two reads. *)
Fixpoint poll (fuel : nat) (tick : D -> D) (l : t) (d : D) : res D :=
  match fuel with
  | O => NoFuel
  | Datatypes.S fuel => if Z.land (read lapic_icr_low l d) lapic_icr_status_pending =? 0 then mret d else poll fuel tick l (tick d)
  end.

Definition send_ipi_raw (fuel : nat) (tick : D -> D) (target_lapic_id flags : Z) (l : t) (d : D) : res D :=
  if x2apic l then mret (hw_wr (Msr (x2apic_base + 0x30)) (Z.lor (u64 (Z.shiftl target_lapic_id 32)) flags) d)
  else
    let d := write lapic_icr_high (u32 (Z.shiftl target_lapic_id 24)) l d in
    poll fuel tick l (write lapic_icr_low flags l d).

Definition send_ipi (fuel : nat) (tick : D -> D) (target_lapic_id vector : Z) (l : t) (d : D) : res D :=
  send_ipi_raw fuel tick target_lapic_id vector l d.

Definition send_eoi (l : t) (d : D) : D := write lapic_eoi 0 l d.

Definition set_timer_mode (mode : lapic_timer_modes) (l : t) (d : D) : D :=
  let lint_entry := read lapic_lvt_timer l d in
  let lint_entry := Z.land lint_entry (u32 (Z.lnot (Z.shiftl 3 17))) in
  write lapic_lvt_timer (Z.lor lint_entry (Z.shiftl (mode_number mode) 17)) l d.

Definition set_timer_vector (vector : Z) (l : t) (d : D) : D :=
  write lapic_lvt_timer (Z.lor (Z.land (read lapic_lvt_timer l d) 0xFFFFFF00) vector) l d.

Definition set_timer_mask (state : bool) (l : t) (d : D) : D :=
  let lint_entry := read lapic_lvt_timer l d in
  write lapic_lvt_timer
    (if state then (bitops.bit_set 32 lint_entry lapic_lvt_mask).1 else (bitops.bit_clear 32 lint_entry lapic_lvt_mask).1) l d.

(** The calibration; [sleep] is what the hardware does during [hpet::poll_sleep(10)]. *)
Definition calibrate (sleep : D -> D) (l : t) (d : D) : t * D :=
  let d := write lapic_timer_divide_configuration 0x3 l d in
  let d := write lapic_timer_initial_count 0xFFFFFFFF l d in
  let d := set_timer_mask false l d in
  let d := sleep d in
  let d := set_timer_mask true l d in
  let ticks_per_second := u32 (0xFFFFFFFF - read lapic_timer_current_count l d) in
  (mk (base l) (id l) (version l) (max_lvt_entries l) (ticks_per_second / 10) (x2apic l), d).

(** [enable_timer] after the calibration. *)
Definition start_timer (vector ms : Z) (mode : lapic_timer_modes) (l : t) (d : D) : D :=
  let d := write lapic_timer_divide_configuration 0x3 l d in
  let d := set_timer_mode mode l d in
  let d := set_timer_vector vector l d in
  let d := write lapic_timer_initial_count (u32 (timer_ticks_per_ms l * ms)) l d in
  set_timer_mask false l d.

Definition enable_timer (sleep : D -> D) (vector ms : Z) (mode : lapic_timer_modes) (l : t) (d : D) : t * D :=
  let '(l, d) := if timer_ticks_per_ms l =? 0 then calibrate sleep l d else (l, d) in
  (l, start_timer vector ms mode l d).
End device.
End lapic.

(** ** The I/O APICs *)

Module ioapic.
Definition ioapic_id : Z := 0.
Definition ioapic_ver : Z := 1.
Definition ioapic_redirection_table : Z := 0x10.

Inductive delivery_modes := FIXED | LOW_PRIORITY | SMI | NMI | INIT | EXTINT.
Definition delivery_number (m : delivery_modes) : Z :=
  match m with FIXED => 0 | LOW_PRIORITY => 1 | SMI => 2 | NMI => 4 | INIT => 5 | EXTINT => 7 end.
Inductive destination_modes := PHYSICAL | LOGICAL.
Definition destination_number (m : destination_modes) : Z := match m with PHYSICAL => 0 | LOGICAL => 1 end.

(** [ioapic_device]. *)
Record device := mk_device { id : Z; max_redirection_entries : Z; version : Z; base : Z }.

Definition get_redirection_entry (entry : Z) : Z := u32 (ioapic_redirection_table + entry * 2).

Definition mask_bit : Z := Z.shiftl 1 16.

(** The entry that [set_entry] with a vector builds. *)
Definition make_entry (vector : Z) (dm : delivery_modes) (dst : destination_modes) (flags destination : Z) : Z :=
  let data := Z.lor 0 vector in
  let data := Z.lor data (Z.shiftl (delivery_number dm) 8) in
  let data := Z.lor data (Z.shiftl (destination_number dst) 11) in
  let data := if Z.land flags 2 =? 0 then data else Z.lor data (Z.shiftl 1 13) in
  let data := if Z.land flags 8 =? 0 then data else Z.lor data (Z.shiftl 1 15) in
  Z.lor data (u64 (Z.shiftl destination 56)).

Definition too_big : string := "Tried to set I/OAPIC redirection with lAPIC id > 0xFF, this is currently unsupported, pass `nox2apic` to kernel args to disable x2apic".

Section device.
Context {D : Type} `{HW : RegHw D}.

Definition read (reg : Z) (e : device) (d : D) : Z := hw_rd (Ioapic_reg (base e) reg) d.
Definition write (reg v : Z) (e : device) (d : D) : D := hw_wr (Ioapic_reg (base e) reg) v d.

(** The index and the register number are [uint8_t]. *)
Definition dev_read_entry (index : Z) (e : device) (d : D) : Z :=
  let offset := u8 (get_redirection_entry (u8 index)) in
  let low := read offset e d in
  let high := read (offset + 1) e d in
  Z.lor low (u64 (Z.shiftl high 32)).

Definition dev_set_raw (index data : Z) (e : device) (d : D) : D :=
  let offset := u8 (get_redirection_entry (u8 index)) in
  let d := write offset (Z.land data 0xFFFFFFFF) e d in
  write (offset + 1) (Z.land (Z.shiftr data 32) 0xFFFFFFFF) e d.

Definition dev_set_entry (index vector : Z) (dm : delivery_modes) (dst : destination_modes) (flags destination : Z)
    (e : device) (d : D) : res D :=
  if negb (Z.land destination (u32 (Z.lnot 0xFF)) =? 0) then Panic too_big
  else mret (dev_set_raw index (make_entry (u8 vector) dm dst flags destination) e d).

Definition dev_unmask (index : Z) (e : device) (d : D) : D :=
  dev_set_raw index (Z.land (dev_read_entry index e d) (not64 mask_bit)) e d.

(** [init]: the registers are mapped and every entry is masked. *)
Definition dev_init {S} `{FA : FrameAllocator S} (paging_info base : Z) (k : paging.kernel S) (d : D) : res (device * paging.kernel S * D) :=
  let e := mk_device 0 0 0 base in
  k ← paging.map_page paging_info base (to_virt base) lapic.mmio_flags uncacheable k;
  let id := Z.land (Z.shiftr (read ioapic_id e d) 24) 0xF in
  let ver := read ioapic_ver e d in
  let e := mk_device id (u8 (Z.land (Z.shiftr ver 16) 0xFF + 1)) (Z.land ver 0xFF) base in
  mret (e, k, foldl (fun d i => dev_set_raw i (Z.lor 0 mask_bit) e d) d (seqZ 0 (max_redirection_entries e))).

(** The list [ioapics]: each controller with the first interrupt it serves. *)
Definition serves (gsi : Z) (e : device * Z) : bool := (e.2 <=? gsi) && (gsi <? u32 (max_redirection_entries e.1 + e.2)).

(** The loop that the functions on interrupts share. *)
Fixpoint find_ioapic (gsi : Z) (l : list (device * Z)) : option (device * Z) :=
  match l with [] => None | e :: l => if serves gsi e then Some e else find_ioapic gsi l end.

Definition set_entry (gsi vector : Z) (dm : delivery_modes) (dst : destination_modes) (flags destination : Z)
    (l : list (device * Z)) (d : D) : res D :=
  match find_ioapic gsi l with
  | Some (e, gsi_base) => dev_set_entry (gsi - gsi_base) vector dm dst flags destination e d
  | None => mret d
  end.

Definition set_raw (gsi data : Z) (l : list (device * Z)) (d : D) : D :=
  match find_ioapic gsi l with Some (e, gsi_base) => dev_set_raw (gsi - gsi_base) data e d | None => d end.

Definition read_entry (gsi : Z) (l : list (device * Z)) (d : D) : Z :=
  match find_ioapic gsi l with Some (e, gsi_base) => dev_read_entry (gsi - gsi_base) e d | None => 0 end.

Definition mask_gsi (gsi : Z) (l : list (device * Z)) (d : D) : D :=
  match find_ioapic gsi l with
  | Some (e, gsi_base) => dev_set_raw (gsi - gsi_base) (Z.lor (dev_read_entry (gsi - gsi_base) e d) mask_bit) e d
  | None => d
  end.

Definition unmask_gsi (gsi : Z) (l : list (device * Z)) (d : D) : D :=
  match find_ioapic gsi l with Some (e, gsi_base) => dev_unmask (gsi - gsi_base) e d | None => d end.

(** The override of an ISA interrupt, and its interrupt number. *)
Definition find_override (irq : Z) (isos : list madt.interrupt_override) : option madt.interrupt_override :=
  head (filter (fun o => madt.source o = irq) isos).

Definition unmask_irq (irq : Z) (isos : list madt.interrupt_override) (l : list (device * Z)) (d : D) : D :=
  match find_override irq isos with Some o => unmask_gsi (madt.gsi o) l d | None => unmask_gsi irq l d end.

(** [init]: the controllers, then the routes of the ISA interrupts, masked, whose
    vectors are marked in the handler table [hs]. *)
Fixpoint init_devices {S} `{FA : FrameAllocator S} (paging_info : Z) (entries : list (Z * Z)) (l : list (device * Z)) (k : paging.kernel S) (d : D)
  : res (list (device * Z) * paging.kernel S * D) :=
  match entries with
  | [] => mret (l, k, d)
  | (base, gsi_base) :: entries =>
      '(e, k, d) ← dev_init paging_info base k d;
      init_devices paging_info entries (l ++ [(e, gsi_base)]) k d
  end.

Definition route_irq (i lapic_id : Z) (isos : list madt.interrupt_override) (l : list (device * Z)) (d : D) : res D :=
  match find_override i isos with
  | Some o =>
      d ← set_entry (madt.gsi o) (madt.source o + 0x20) FIXED PHYSICAL (madt.iso_flags o) lapic_id l d;
      mret (mask_gsi (madt.gsi o) l d)
  | None =>
      d ← set_entry i (i + 0x20) FIXED PHYSICAL 0 lapic_id l d;
      mret (mask_gsi i l d)
  end.

Fixpoint route_irqs (irqs : list Z) (lapic_id : Z) (isos : list madt.interrupt_override) (l : list (device * Z))
    (hs : list idt.handler) (d : D) : res (list idt.handler * D) :=
  match irqs with
  | [] => mret (hs, d)
  | i :: irqs =>
      if i =? 2 then route_irqs irqs lapic_id isos l hs d
      else
        d ← route_irq i lapic_id isos l d;
        hs ← idt.register_irq_status (i + 0x20) true hs;
        route_irqs irqs lapic_id isos l hs d
  end.

Definition init {S} `{FA : FrameAllocator S} (paging_info lapic_id : Z) (m : madt.t) (hs : list idt.handler) (k : paging.kernel S) (d : D)
  : res (list idt.handler * list (device * Z) * paging.kernel S * D) :=
  '(l, k, d) ← init_devices paging_info (madt.ioapics m) [] k d;
  if madt.legacy_pic m then
    '(hs, d) ← route_irqs (seqZ 0 16) lapic_id (madt.isos m) l hs d;
    mret (hs, l, k, d)
  else mret (hs, l, k, d).

(** [acpi::init_sci] up to the AML interpreter: the route and the handler of the
    system control interrupt. *)
Definition init_sci (sci_int sci_handler lapic_id : Z) (m : madt.t) (l : list (device * Z)) (hs : list idt.handler) (d : D)
  : res (list idt.handler * D) :=
  d ← (if madt.legacy_pic m then mret d
       else set_entry sci_int (sci_int + 0x20) FIXED PHYSICAL (u16 (Z.lor (Z.shiftl 1 13) (Z.shiftl 1 15))) lapic_id l d);
  hs ← idt.register_interrupt_handler (idt.mk_handler (u16 (sci_int + 0x20)) sci_handler 0 true false) hs;
  mret (hs, unmask_irq sci_int (madt.isos m) l d).
End device.
End ioapic.

(** ** Lemmas *)

Section ioapic_lemmas.
Context {D : Type} `{HL : RegHwLaws D}.
Import ioapic.

(** A controller whose redirection entries have register numbers that fit a byte
    and keep what is written to them. *)
Definition device_ok (e : device) : Prop :=
  0 <= max_redirection_entries e <= 120 /\ forall r, 0x10 <= r < 0x100 -> hw_storage (Ioapic_reg (base e) r).

Lemma entry_reg i : 0 <= i < 120 -> u8 (get_redirection_entry (u8 i)) = 0x10 + 2 * i.
Proof. intros Hi. unfold get_redirection_entry, ioapic_redirection_table. wrap_lia. Qed.

Lemma halves data : is_u64 data -> Z.lor (u32 (Z.land data 0xFFFFFFFF)) (u64 (Z.shiftl (u32 (Z.land (Z.shiftr data 32) 0xFFFFFFFF)) 32)) = data.
Proof.
  intros Hd. bitwise 64%nat; [| exact Hd]. apply word_lor; [| apply u64_range | lia].
  pose proof (u32_range (Z.land data 4294967295)). split; [lia |]. change (2 ^ Z.of_nat 64) with 18446744073709551616. lia.
Qed.

(** Reading an entry after writing one. *)
Lemma entry_same i data e d : device_ok e -> 0 <= i < 120 -> is_u64 data -> dev_read_entry i e (dev_set_raw i data e d) = data.
Proof.
  intros [_ Hs] Hi Hd. unfold dev_read_entry, dev_set_raw, read, write. rewrite entry_reg by done.
  rewrite (hw_rd_other (Ioapic_reg (base e) (0x10 + 2 * i))) by (intros [= ?]; lia) || (apply Hs; lia).
  rewrite !hw_rd_wr by (apply Hs; lia). by apply halves.
Qed.

Lemma entry_other i j data e e' d :
  device_ok e -> device_ok e' -> 0 <= i < 120 -> 0 <= j < 120 -> base e <> base e' \/ i <> j ->
  dev_read_entry j e' (dev_set_raw i data e d) = dev_read_entry j e' d.
Proof.
  intros [_ He] [_ Hs] Hi Hj Hne. unfold dev_read_entry, dev_set_raw, read, write. rewrite !entry_reg by done.
  rewrite !hw_rd_other; try done; try (apply Hs; lia); intros [= E1 E2]; destruct Hne; (congruence || lia).
Qed.

Lemma read_entry_range i e d : is_u64 (dev_read_entry i e d).
Proof.
  unfold dev_read_entry, read. apply is_u64_lor; [| apply u64_range]. pose proof (hw_rd_range (Ioapic_reg (base e) (u8 (get_redirection_entry (u8 i)))) d).
  unfold is_u64. lia.
Qed.

(** The list of controllers: different ones are at different addresses. *)
Definition ioapics_ok (l : list (device * Z)) : Prop :=
  Forall (fun e => device_ok e.1 /\ 0 <= e.2 < 2 ^ 31) l /\ NoDup ((fun e => base e.1) <$> l).

Lemma find_ioapic_Some gsi l e b : find_ioapic gsi l = Some (e, b) -> (e, b) ∈ l /\ serves gsi (e, b) = true.
Proof.
  induction l as [| x l IH]; [done |]. cbn. destruct (serves gsi x) eqn:E.
  - intros [= ->]. split; [by left | done].
  - intros H. destruct (IH H). split; [by right | done].
Qed.

(** The controller of an interrupt and the index there. *)
Lemma find_ioapic_index gsi l e b :
  ioapics_ok l -> find_ioapic gsi l = Some (e, b) -> device_ok e /\ 0 <= gsi - b < 120.
Proof.
  intros [Hok _] H. apply find_ioapic_Some in H as [Hin Hs]. rewrite Forall_forall in Hok. destruct (Hok _ Hin) as [[Hm Hst] Hb].
  split; [done |]. unfold serves in Hs. cbn [fst snd] in *. apply andb_true_iff in Hs as [H1 H2]. rewrite Z.leb_le in H1. rewrite Z.ltb_lt in H2.
  unfold u32 in H2. rewrite Z.mod_small in H2 by lia. lia.
Qed.

(** Different interrupts have different entries. *)
Lemma find_ioapic_other g g' l e b e' b' :
  ioapics_ok l -> g <> g' -> find_ioapic g l = Some (e, b) -> find_ioapic g' l = Some (e', b') ->
  base e <> base e' \/ g - b <> g' - b'.
Proof.
  intros [_ Hnd] Hne H H'. apply find_ioapic_Some in H as [Hin _], H' as [Hin' _].
  destruct (Z.eq_dec (base e) (base e')) as [E |]; [| by left]. right.
  apply list_elem_of_lookup in Hin as [i Hi], Hin' as [j Hj].
  assert (i = j) as ->. { eapply NoDup_lookup; [exact Hnd | |]; rewrite list_lookup_fmap, ?Hi, ?Hj; cbn; by rewrite ?E. }
  rewrite Hi in Hj. injection Hj as -> ->. lia.
Qed.

(** Interrupts as slots: writing one leaves the others alone. *)
Lemma read_set_same gsi data l d :
  ioapics_ok l -> is_Some (find_ioapic gsi l) -> is_u64 data -> read_entry gsi l (set_raw gsi data l d) = data.
Proof.
  intros Hl [[e b] H] Hd. unfold read_entry, set_raw. rewrite H. destruct (find_ioapic_index _ _ _ _ Hl H). by apply entry_same.
Qed.

Lemma read_set_other g g' data l d :
  ioapics_ok l -> g <> g' -> read_entry g' l (set_raw g data l d) = read_entry g' l d.
Proof.
  intros Hl Hne. unfold read_entry, set_raw. destruct (find_ioapic g l) as [[e b] |] eqn:H; [| done].
  destruct (find_ioapic g' l) as [[e' b'] |] eqn:H'; [| done].
  destruct (find_ioapic_index _ _ _ _ Hl H), (find_ioapic_index _ _ _ _ Hl H'). apply entry_other; try done. by eapply find_ioapic_other.
Qed.

Lemma mask_is_set gsi l d : mask_gsi gsi l d = set_raw gsi (Z.lor (read_entry gsi l d) mask_bit) l d.
Proof. unfold mask_gsi, set_raw, read_entry. by destruct (find_ioapic gsi l) as [[e b] |]. Qed.

Lemma unmask_is_set gsi l d : unmask_gsi gsi l d = set_raw gsi (Z.land (read_entry gsi l d) (not64 mask_bit)) l d.
Proof. unfold unmask_gsi, dev_unmask, set_raw, read_entry. by destruct (find_ioapic gsi l) as [[e b] |]. Qed.

Lemma read_range gsi l d : is_u64 (read_entry gsi l d).
Proof. unfold read_entry. destruct (find_ioapic gsi l) as [[e b] |]; [apply read_entry_range | by split]. Qed.

Lemma destination_small n : 0 <= n < 256 -> (Z.land n (u32 (Z.lnot 0xFF)) =? 0) = true.
Proof.
  intros Hn. apply Z.eqb_eq, Z.bits_inj'. intros i Hi. rewrite Z.land_spec, Z.bits_0, testbit_u32, Z.lnot_spec by lia.
  change 255 with (Z.ones 8). rewrite Z.testbit_ones_nonneg by lia. destruct (Z.ltb_spec i 8); [by rewrite !andb_false_r |].
  by rewrite (testbit_small n 8) by lia.
Qed.

Lemma set_entry_is_set gsi v dm dst flags n l d :
  0 <= n < 256 -> set_entry gsi v dm dst flags n l d = Ret (set_raw gsi (make_entry (u8 v) dm dst flags n) l d).
Proof.
  intros Hn. unfold set_entry, set_raw, dev_set_entry. destruct (find_ioapic gsi l) as [[e b] |]; [| done].
  by rewrite destination_small.
Qed.
End ioapic_lemmas.

(** ** What the controller reads from an entry *)

Definition entry_vector (e : Z) : Z := bits 0 8 e.
Definition entry_delivery (e : Z) : Z := bits 8 3 e.
Definition entry_active_low (e : Z) : bool := Z.testbit e 13.
Definition entry_level (e : Z) : bool := Z.testbit e 15.
Definition entry_masked (e : Z) : bool := Z.testbit e 16.
Definition entry_destination (e : Z) : Z := bits 56 8 e.

(** The fields of an entry, with the bits of the firmware's flags. *)
Record entry_is (vector destination : Z) (low level masked : bool) (e : Z) : Prop := {
  ei_vector : entry_vector e = vector;
  ei_delivery : entry_delivery e = 0;
  ei_low : entry_active_low e = low;
  ei_level : entry_level e = level;
  ei_masked : entry_masked e = masked;
  ei_destination : entry_destination e = destination
}.

Section route_lemmas.
Context {D : Type} `{HL : RegHwLaws D}.
Import ioapic.

(** The interrupt number of an ISA interrupt and the flags of its override. *)
Definition gsi_of (isos : list madt.interrupt_override) (irq : Z) : Z :=
  match find_override irq isos with Some o => madt.gsi o | None => irq end.
Definition flags_of (isos : list madt.interrupt_override) (irq : Z) : Z :=
  match find_override irq isos with Some o => madt.iso_flags o | None => 0 end.

Lemma make_entry_range v dm dst f n : 0 <= v < 256 -> is_u64 (make_entry v dm dst f n).
Proof.
  intros Hv. assert (is_u64 v) by (unfold is_u64; lia). unfold make_entry.
  destruct (Z.land f 2 =? 0), (Z.land f 8 =? 0); repeat apply is_u64_lor;
    first [done | apply u64_range | by destruct dm | by destruct dst].
Qed.

Lemma flag_bit f j : 0 <= j -> (Z.land f (2 ^ j) =? 0) = negb (Z.testbit f j).
Proof.
  intros Hj. destruct (Z.testbit f j) eqn:E; cbn.
  - apply Z.eqb_neq. intros H. apply (f_equal (fun z => Z.testbit z j)) in H.
    rewrite Z.land_spec, E, Z.pow2_bits_true, Z.bits_0 in H by lia. discriminate.
  - apply Z.eqb_eq, Z.bits_inj'. intros i Hi. rewrite Z.land_spec, Z.bits_0, Z.pow2_bits_eqb by lia.
    destruct (Z.eqb_spec j i) as [<- |]; [by rewrite E | apply andb_false_r].
Qed.

(** Setting the mask bit of a new entry. *)
Lemma make_entry_fields v f n :
  0 <= v < 256 -> 0 <= n < 256 -> entry_is v n (Z.testbit f 1) (Z.testbit f 3) true (Z.lor (make_entry v FIXED PHYSICAL f n) mask_bit).
Proof.
  intros Hv Hn. assert (H2 := flag_bit f 1 ltac:(lia)). assert (H8 := flag_bit f 3 ltac:(lia)).
  change (2 ^ 1) with 2 in H2. change (2 ^ 3) with 8 in H8. unfold make_entry, mask_bit. rewrite H2, H8. clear H2 H8.
  assert (Hb : forall x : Z, 0 <= Z.land x (Z.ones 8) < 2 ^ 8) by (intros x; rewrite Z.land_ones by lia; apply Z.mod_pos_bound; lia).
  assert (Hvb : forall i, 8 <= i -> Z.testbit v i = false) by (intros i Hi; apply (testbit_small v 8); lia).
  assert (Hnb : forall i, 8 <= i -> Z.testbit n i = false) by (intros i Hi; apply (testbit_small n 8); lia).
  destruct (Z.testbit f 1), (Z.testbit f 3); cbn [negb delivery_number destination_number];
    (constructor; unfold entry_vector, entry_delivery, entry_active_low, entry_level, entry_masked, entry_destination, bits;
     [bitwise 8%nat; [apply Hb | lia] | bitwise 3%nat; [rewrite Z.land_ones by lia; apply Z.mod_pos_bound; lia | lia |..] |
      repeat (bit_step; bit_indices; bit_neg); bit_consts .. | bitwise 8%nat; [apply Hb | lia |..]];
     rewrite ?Hvb, ?Hnb by lia; rewrite ?andb_true_r, ?andb_false_r, ?orb_false_r, ?orb_true_r; try done).
Qed.
(** The masked entry of an ISA interrupt. *)
Definition isa_entry (isos : list madt.interrupt_override) (irq n : Z) : Z :=
  Z.lor (make_entry (u8 (irq + 0x20)) FIXED PHYSICAL (flags_of isos irq) n) mask_bit.

Lemma isa_entry_range isos irq n : is_u64 (isa_entry isos irq n).
Proof. apply is_u64_lor; [apply make_entry_range, u8_range | by split]. Qed.

Lemma find_override_source irq isos o : find_override irq isos = Some o -> madt.source o = irq.
Proof.
  unfold find_override. intros H. assert (Hin : o ∈ filter (fun o => madt.source o = irq) isos).
  { destruct (filter _ isos) as [| x l]; [done |]. injection H as ->. by left. }
  by apply list_elem_of_filter in Hin as [? _].
Qed.

Lemma route_irq_ok i n isos l d :
  ioapics_ok l -> 0 <= n < 256 -> is_Some (find_ioapic (gsi_of isos i) l) ->
  exists d', route_irq i n isos l d = Ret d' /\ read_entry (gsi_of isos i) l d' = isa_entry isos i n /\
    forall g, g <> gsi_of isos i -> read_entry g l d' = read_entry g l d.
Proof.
  intros Hl Hn Hs. unfold route_irq.
  assert (E : forall g v f, g = gsi_of isos i -> v = i + 0x20 -> f = flags_of isos i ->
    exists d', (d ← set_entry g v FIXED PHYSICAL f n l d; mret (mask_gsi g l d)) = Ret d' /\
      read_entry (gsi_of isos i) l d' = isa_entry isos i n /\
      forall g, g <> gsi_of isos i -> read_entry g l d' = read_entry g l d).
  { intros g v f -> -> ->. rewrite set_entry_is_set by done. cbn [mbind res_bind]. eexists. split; [done |].
    rewrite mask_is_set. split.
    - rewrite read_set_same; [| done | done |]; (rewrite read_set_same; [| done | done | apply make_entry_range, u8_range]); [done |].
      apply isa_entry_range.
    - intros g Hg. by rewrite !read_set_other. }
  unfold gsi_of, flags_of in *. destruct (find_override i isos) as [o |] eqn:Ho; [| by apply E].
  apply E; [done | | done]. by rewrite (find_override_source _ _ _ Ho).
Qed.

(** The interrupts among [irqs] that are routed, and the handler table with their
    vectors marked. *)
Definition routed (irqs : list Z) : list Z := filter (fun i => i <> 2) irqs.

Definition mark_irq (h : idt.handler) : idt.handler :=
  idt.mk_handler (idt.vector h) (idt.callback h) (idt.userptr h) true (idt.should_iret h).

Definition marked (irqs : list Z) (hs hs' : list idt.handler) : Prop :=
  length hs' = length hs /\
  forall v h, hs !! v = Some h -> hs' !! v = Some (if decide (Z.of_nat v - 0x20 ∈ irqs) then mark_irq h else h).

Lemma marked_nil hs : marked [] hs hs.
Proof. split; [done |]. intros v h Hv. by rewrite decide_False by apply not_elem_of_nil. Qed.

Lemma marked_cons i irqs hs hs' :
  0 <= i < 16 -> (48 <= length hs)%nat ->
  exists hs1, idt.register_irq_status (i + 0x20) true hs = Ret hs1 /\ (length hs1 = length hs)%nat /\ (marked irqs hs1 hs' -> marked (i :: irqs) hs hs').
Proof.
  intros Hi Hl. unfold idt.register_irq_status. destruct (lookup_lt_is_Some_2 hs (Z.to_nat (i + 0x20))) as [h Hh]; [lia |].
  rewrite Hh. cbn [access mbind res_bind]. eexists. split; [reflexivity |]. rewrite length_insert. split; [done |].
  intros [Hlen H]. rewrite length_insert in Hlen. split; [done |]. intros v x Hx. destruct (decide (v = Z.to_nat (i + 0x20))) as [-> | Hv].
  - rewrite Hh in Hx. injection Hx as <-. rewrite (H _ (mark_irq h)) by (apply list_lookup_insert_eq; lia).
    rewrite (decide_True _ _ (P := _ ∈ i :: irqs)) by (rewrite elem_of_cons; left; lia). by destruct (decide _).
  - rewrite (H _ x) by by rewrite list_lookup_insert_ne. f_equal. apply decide_ext. rewrite elem_of_cons.
    split; [by right | intros [? | ?]; [lia | done]].
Qed.

Lemma route_irqs_ok irqs n isos l hs d :
  ioapics_ok l -> 0 <= n < 256 -> NoDup (gsi_of isos <$> routed irqs) -> (48 <= length hs)%nat ->
  (forall i, i ∈ irqs -> 0 <= i < 16) ->
  (forall i, i ∈ irqs -> i <> 2 -> is_Some (find_ioapic (gsi_of isos i) l)) ->
  exists hs' d', route_irqs irqs n isos l hs d = Ret (hs', d') /\ marked (routed irqs) hs hs' /\
    (forall i, i ∈ irqs -> i <> 2 -> read_entry (gsi_of isos i) l d' = isa_entry isos i n) /\
    (forall g, g ∉ gsi_of isos <$> routed irqs -> read_entry g l d' = read_entry g l d).
Proof.
  intros Hl Hn. unfold routed. revert hs d. induction irqs as [| i irqs IH]; intros hs d Hnd Hlen Hr Hs; cbn [route_irqs].
  { exists hs, d. split_and!; [done | apply marked_nil | intros i Hi; by apply not_elem_of_nil in Hi | done]. }
  rewrite filter_cons in *. destruct (decide (i <> 2)) as [Hi | Hi].
  - rewrite (proj2 (Z.eqb_neq i 2) Hi). cbn [fmap list_fmap] in *. apply NoDup_cons in Hnd as [Hni Hnd].
    destruct (route_irq_ok i n isos l d Hl Hn) as (d1 & H1 & He1 & Ho1); [apply Hs; [by left | done] |]. rewrite H1. cbn [mbind res_bind].
    destruct (marked_cons i (filter (fun i => i <> 2) irqs) hs hs) as (hs1 & Hh1 & Hlen1 & _); [apply Hr; by left | done |].
    rewrite Hh1. cbn [mbind res_bind].
    destruct (IH hs1 d1 Hnd) as (hs2 & d2 & H2 & Hm2 & He2 & Ho2); [lia | intros j Hj; apply Hr; by right | intros j Hj; apply Hs; by right |].
    exists hs2, d2. split_and!; [done | | |].
    + destruct (marked_cons i (filter (fun i => i <> 2) irqs) hs hs2) as (? & Hh1' & _ & Hm); [apply Hr; by left | done |].
      rewrite Hh1 in Hh1'. injection Hh1' as <-. by apply Hm.
    + intros j [-> | Hj]%elem_of_cons Hj2; [by rewrite Ho2 | by apply He2].
    + intros g [Hg1 Hg2]%not_elem_of_cons. by rewrite Ho2, Ho1.
  - apply dec_stable in Hi. subst i. rewrite Z.eqb_refl.
    destruct (IH hs d Hnd Hlen) as (hs2 & d2 & H2 & Hm2 & He2 & Ho2); [intros j Hj; apply Hr; by right | intros j Hj; apply Hs; by right |].
    exists hs2, d2. split_and!; [done | done | | done]. intros j [-> | Hj]%elem_of_cons Hj2; [done | by apply He2].
Qed.

Lemma unmask_irq_is i isos l d : unmask_irq i isos l d = unmask_gsi (gsi_of isos i) l d.
Proof. unfold unmask_irq, gsi_of. by destruct (find_override i isos). Qed.

Lemma unmasked_entry v n low level e :
  entry_is v n low level true e -> is_u64 e -> entry_is v n low level false (Z.land e (not64 mask_bit)).
Proof.
  intros [H1 H2 H3 H4 H5 H6] He. change (not64 mask_bit) with 0xFFFFFFFFFFFEFFFF.
  assert (Hk : forall lo k, (forall i, lo <= i < lo + k -> Z.testbit 0xFFFFFFFFFFFEFFFF i = true) -> 0 <= lo -> 0 <= k ->
            bits lo k (Z.land e 0xFFFFFFFFFFFEFFFF) = bits lo k e).
  { intros lo k Hm Hlo Hkk. apply Z.bits_inj'. intros i Hi. rewrite !testbit_bits, Z.land_spec by lia.
    destruct (Z.ltb_spec i k); [| done]. rewrite Hm by lia. by rewrite andb_true_r. }
  assert (Hr : forall lo k, Forall (fun i => Z.testbit 0xFFFFFFFFFFFEFFFF i = true) (seqZ lo k) ->
            forall i, lo <= i < lo + k -> Z.testbit 0xFFFFFFFFFFFEFFFF i = true).
  { intros lo k H i Hi. rewrite Forall_forall in H. apply H, elem_of_seqZ. lia. }
  constructor; unfold entry_vector, entry_delivery, entry_active_low, entry_level, entry_masked, entry_destination in *.
  - rewrite Hk; [done | apply Hr; by_compute | lia | lia].
  - rewrite Hk; [done | apply Hr; by_compute | lia | lia].
  - by rewrite Z.land_spec, H3, andb_true_r.
  - by rewrite Z.land_spec, H4, andb_true_r.
  - by rewrite Z.land_spec, andb_false_r.
  - rewrite Hk; [done | apply Hr; by_compute | lia | lia].
Qed.
End route_lemmas.

Section lapic_lemmas.
Context {D : Type} `{HL : RegHwLaws D}.
Import lapic.

(** The registers of the timer are storage. *)
Definition timer_ok (l : t) : Prop :=
  hw_storage (at_ lapic_lvt_timer l) /\ hw_storage (at_ lapic_timer_initial_count l) /\
  hw_storage (at_ lapic_timer_divide_configuration l).

(** Different registers are at different places. *)
Lemma at_inj r r' l : 0 <= r < 0x1000 -> 0 <= r' < 0x1000 -> r / 16 <> r' / 16 -> at_ r l <> at_ r' l.
Proof.
  intros Hr Hr' Hne. unfold at_, lapic_reg_to_x2apic. rewrite !Z.shiftr_div_pow2 by lia. change (2 ^ 4) with 16.
  destruct (x2apic l); intros [= E]; [lia |].
  assert (r <> r') by congruence. clear Hne. unfold u64 in E. revert E. Z.to_euclidean_division_equations. lia.
Qed.

(** What the timer functions leave in the registers. *)
Lemma write_read reg v l d : hw_storage (at_ reg l) -> read reg l (write reg v l d) = u32 v.
Proof. apply hw_rd_wr. Qed.

Lemma write_other reg reg' v l d :
  0 <= reg < 0x1000 -> 0 <= reg' < 0x1000 -> reg / 16 <> reg' / 16 -> hw_storage (at_ reg l) ->
  read reg l (write reg' v l d) = read reg l d.
Proof. intros H H' Hne Hs. apply hw_rd_other; [by apply at_inj | done]. Qed.

(** The three changes to the timer's entry, as one word. *)
Definition timer_entry (v mode e : Z) : Z :=
  (bitops.bit_clear 32
    (u32 (Z.lor (Z.land (u32 (Z.lor (Z.land e (u32 (Z.lnot (Z.shiftl 3 17)))) (Z.shiftl mode 17))) 0xFFFFFF00) v)) lapic_lvt_mask).1.

Lemma timer_entry_fields v mode e :
  0 <= v < 256 -> 0 <= mode < 4 ->
  bits 0 8 (u32 (timer_entry v mode e)) = v /\ bits 17 2 (u32 (timer_entry v mode e)) = mode /\
  Z.testbit (u32 (timer_entry v mode e)) 16 = false.
Proof.
  intros Hv Hm. unfold timer_entry, bitops.bit_clear. cbn [fst].
  change (not64 (bit64 lapic_lvt_mask)) with 0xFFFFFFFFFFFEFFFF. change (u32 (Z.lnot (Z.shiftl 3 17))) with 0xFFF9FFFF.
  assert (E : forall x : Z, x mod 2 ^ 32 = u32 x) by done. rewrite !E. clear E. unfold bits.
  assert (Hvb : forall i, 8 <= i -> Z.testbit v i = false) by (intros i Hi; apply (testbit_small v 8); lia).
  split_and!.
  - bitwise 8%nat; [rewrite Z.land_ones by lia; apply Z.mod_pos_bound; lia | lia].
  - bitwise 2%nat; [rewrite Z.land_ones by lia; apply Z.mod_pos_bound; lia | lia | ..]; rewrite ?Hvb by lia; by rewrite ?orb_false_r.
  - repeat (bit_step; bit_indices; bit_neg). bit_consts. by rewrite ?andb_false_r.
Qed.
Lemma start_timer_ok vector ms mode l d :
  timer_ok l -> 0 <= vector < 256 ->
  let d' := start_timer vector ms mode l d in
  bits 0 8 (read lapic_lvt_timer l d') = vector /\ bits 17 2 (read lapic_lvt_timer l d') = mode_number mode /\
  Z.testbit (read lapic_lvt_timer l d') 16 = false /\
  read lapic_timer_initial_count l d' = u32 (timer_ticks_per_ms l * ms) /\
  read lapic_timer_divide_configuration l d' = 3.
Proof.
  intros (H1 & H2 & H3) Hv. cbv zeta. unfold start_timer, set_timer_mask, set_timer_vector, set_timer_mode.
  assert (Ho : forall reg reg' v d, reg ∈ [lapic_lvt_timer; lapic_timer_initial_count; lapic_timer_divide_configuration] ->
    reg' ∈ [lapic_lvt_timer; lapic_timer_initial_count; lapic_timer_divide_configuration] -> reg <> reg' ->
    hw_storage (at_ reg l) -> read (D := D) reg l (write reg' v l d) = read reg l d).
  { intros reg reg' v d0 Hr Hr' Hne Hs. rewrite !elem_of_cons, elem_of_nil in Hr, Hr'.
    apply write_other; [..| done]; destruct_or?; subst; try done; vm_compute; (done || split; done). }
  rewrite !write_read, !(Ho lapic_timer_initial_count), !(Ho lapic_timer_divide_configuration), !write_read by (done || by_compute).
  rewrite !(Ho lapic_lvt_timer), !write_read, !(Ho lapic_lvt_timer) by (done || by_compute).
  set (e := read lapic_lvt_timer l d). fold (timer_entry vector (mode_number mode) e).
  destruct (timer_entry_fields vector (mode_number mode) e) as (F1 & F2 & F3); [done | by destruct mode |].
  split_and!; [done | done | done | apply Z.mod_mod; lia | done].
Qed.
End lapic_lemmas.

(** ** Theorems *)

(** C34: Routing of the ISA interrupts.  When the controllers serve them and the
    overrides do not collide, the set-up succeeds: every ISA interrupt but the
    cascade ends masked at its overridden number, with vector 0x20 plus the
    interrupt, fixed delivery to the boot processor and the polarity and trigger
    of the override; no other entry changes; exactly these vectors are marked as
    interrupts in the handler table; and unmasking an interrupt later
    clears exactly the mask of its entry. *)
Theorem isa_irqs_routed {D} `{HL : RegHwLaws D} (n : Z) (isos : list madt.interrupt_override) (l : list (ioapic.device * Z))
    (hs : list idt.handler) (d : D) :
  ioapics_ok l -> 0 <= n < 256 -> (length hs = idt.idt_max_entries)%nat ->
  NoDup (gsi_of isos <$> routed (seqZ 0 16)) ->
  (forall i, 0 <= i < 16 -> i <> 2 -> is_Some (ioapic.find_ioapic (gsi_of isos i) l)) ->
  exists hs' d', ioapic.route_irqs (seqZ 0 16) n isos l hs d = Ret (hs', d') /\ marked (routed (seqZ 0 16)) hs hs' /\
    (forall i, 0 <= i < 16 -> i <> 2 ->
       entry_is (i + 0x20) n (Z.testbit (flags_of isos i) 1) (Z.testbit (flags_of isos i) 3) true (ioapic.read_entry (gsi_of isos i) l d')) /\
    (forall g, g ∉ gsi_of isos <$> routed (seqZ 0 16) -> ioapic.read_entry g l d' = ioapic.read_entry g l d) /\
    (forall i, 0 <= i < 16 -> i <> 2 ->
       let d2 := ioapic.unmask_irq i isos l d' in
       entry_is (i + 0x20) n (Z.testbit (flags_of isos i) 1) (Z.testbit (flags_of isos i) 3) false (ioapic.read_entry (gsi_of isos i) l d2) /\
       forall g, g <> gsi_of isos i -> ioapic.read_entry g l d2 = ioapic.read_entry g l d').
Proof.
  intros Hl Hn Hlen Hnd Hs. unfold idt.idt_max_entries in Hlen.
  destruct (route_irqs_ok (seqZ 0 16) n isos l hs d Hl Hn Hnd) as (hs' & d' & H & Hm & He & Ho); [lia | intros i Hi; apply elem_of_seqZ in Hi; lia | |].
  { intros i Hi Hi2. apply Hs; [apply elem_of_seqZ in Hi; lia | done]. }
  exists hs', d'. split; [exact H |].
  assert (Hent : forall i, 0 <= i < 16 -> i <> 2 ->
    entry_is (i + 0x20) n (Z.testbit (flags_of isos i) 1) (Z.testbit (flags_of isos i) 3) true (ioapic.read_entry (gsi_of isos i) l d')).
  { intros i Hi Hi2. rewrite He by (done || (apply elem_of_seqZ; lia)). unfold isa_entry.
    replace (u8 (i + 0x20)) with (i + 0x20) by wrap_lia. apply make_entry_fields; lia. }
  split_and!; [exact Hm | exact Hent | exact Ho |]. intros i Hi Hi2. cbv zeta. rewrite unmask_irq_is, unmask_is_set. split.
  - rewrite read_set_same; [| done | by apply Hs | apply is_u64_land; [apply read_range | by split]].
    apply unmasked_entry; [by apply Hent | apply read_range].
  - intros g Hg. by apply read_set_other.
Qed.

(** A register file as a function, for examples. *)
#[export] Instance hw_example_fun : RegHw (loc -> Z) :=
  {| hw_rd l d := u32 (d l); hw_wr l v d := fun x => if decide (x = l) then v else d x; hw_storage _ := True |}.

#[export] Instance hw_example_laws : RegHwLaws (loc -> Z).
Proof.
  split; cbn.
  - intros l v d _. by rewrite decide_True.
  - intros l l' v d Hne _. by rewrite decide_False.
  - intros l d. apply u32_range.
Qed.

Definition ioapics_example : list (ioapic.device * Z) := [(ioapic.mk_device 0 24 0x20 0xFEC00000, 0)].
Definition isos_example : list madt.interrupt_override := [madt.mk_iso 0 2 0; madt.mk_iso 9 9 0xF].

Lemma isa_irqs_routed_witness :
  exists d', entry_is 0x29 3 true true true (ioapic.read_entry (D := loc -> Z) 9 ioapics_example d').
Proof.
  destruct (isa_irqs_routed (D := loc -> Z) 3 isos_example ioapics_example (replicate 256 idt.no_handler) (fun _ => 0)) as (hs & d' & _ & _ & H & _).
  - split; [| by_compute]. constructor; [| constructor]. split; [split; [cbn; lia | done] | cbn; lia].
  - lia.
  - reflexivity.
  - by_compute.
  - intros i Hi Hi2. assert (Hall : Forall (fun i => i <> 2 -> is_Some (ioapic.find_ioapic (gsi_of isos_example i) ioapics_example)) (seqZ 0 16))
      by by_compute.
    rewrite Forall_forall in Hall. apply Hall; [apply elem_of_seqZ; lia | exact Hi2].
  - exists d'. apply (H 9); [lia | discriminate].
Defined.

(** The timer of a CPU.  In both modes of the local controller, with the speed
    of the timer known or measured by the call, [enable_timer] leaves the timer
    unmasked with the given vector and mode, divider 16, and the count for the
    given number of milliseconds, truncated to 32 bits; a known speed is kept. *)
Theorem timer_programmed {D} `{HL : RegHwLaws D} (sleep : D -> D) (vector ms : Z) (mode : lapic.lapic_timer_modes) (l : lapic.t) (d : D) :
  timer_ok l -> 0 <= vector < 256 ->
  let '(l', d') := lapic.enable_timer sleep vector ms mode l d in
  (lapic.timer_ticks_per_ms l <> 0 -> l' = l) /\
  bits 0 8 (lapic.read lapic.lapic_lvt_timer l' d') = vector /\
  bits 17 2 (lapic.read lapic.lapic_lvt_timer l' d') = lapic.mode_number mode /\
  Z.testbit (lapic.read lapic.lapic_lvt_timer l' d') 16 = false /\
  lapic.read lapic.lapic_timer_initial_count l' d' = u32 (lapic.timer_ticks_per_ms l' * ms) /\
  lapic.read lapic.lapic_timer_divide_configuration l' d' = 3.
Proof.
  intros Hok Hv. unfold lapic.enable_timer. destruct (Z.eqb_spec (lapic.timer_ticks_per_ms l) 0) as [H0 | H0].
  - destruct (lapic.calibrate sleep l d) as [l' d'] eqn:E. split; [done |]. apply start_timer_ok; [| done].
    by injection E as <- _.
  - split; [done | by apply start_timer_ok].
Qed.

Definition timer_example : lapic.t := lapic.mk 0xFEE00000 0 0x14 7 1000 true.

Lemma timer_programmed_witness :
  lapic.read lapic.lapic_timer_initial_count timer_example
    (lapic.enable_timer (D := loc -> Z) id 248 20 lapic.PERIODIC timer_example (fun _ => 0)).2 = 20000.
Proof.
  destruct (timer_programmed (D := loc -> Z) id 248 20 lapic.PERIODIC timer_example (fun _ => 0)) as (_ & _ & _ & _ & H & _);
    [done | lia | exact H].
Defined.

(** The system control interrupt.  Without legacy interrupt controllers,
    [init_sci] routes the interrupt as edge-triggered and active-high: the flags
    it passes are positions in the entry, but [set_entry] takes the bits of a
    MADT override.  The specification asks for a level-triggered, active-low
    interrupt, as the comment there says. *)
Theorem sci_wrong_trigger {D} `{HL : RegHwLaws D} (sci_int sci_handler n : Z) (m : madt.t) (l : list (ioapic.device * Z))
    (hs : list idt.handler) (d : D) :
  ioapics_ok l -> 0 <= n < 256 -> (length hs = idt.idt_max_entries)%nat -> 0 <= sci_int -> sci_int + 0x20 < 256 -> madt.legacy_pic m = false ->
  is_Some (ioapic.find_ioapic sci_int l) -> ioapic.find_override sci_int (madt.isos m) = None ->
  exists d', ioapic.init_sci sci_int sci_handler n m l hs d =
      Ret (<[Z.to_nat (sci_int + 0x20) := idt.mk_handler (sci_int + 0x20) sci_handler 0 true false]> hs, d') /\
    entry_is (sci_int + 0x20) n false false false (ioapic.read_entry sci_int l d').
Proof.
  intros Hl Hn Hlen Hs1 Hs2 Hp Hs Ho. unfold ioapic.init_sci, ioapic.unmask_irq, idt.register_interrupt_handler. cbn [idt.vector].
  rewrite Hp, set_entry_is_set by done. cbn [mbind res_bind]. replace (u16 (sci_int + 32)) with (sci_int + 32) by wrap_lia.
  destruct (lookup_lt_is_Some_2 hs (Z.to_nat (sci_int + 32))) as [h Hh]; [unfold idt.idt_max_entries in Hlen; lia |].
  rewrite Hh. cbn [access mbind res_bind]. eexists. split; [done |]. rewrite Ho, unmask_is_set.
  assert (Hr : is_u64 (ioapic.make_entry (u8 (sci_int + 32)) ioapic.FIXED ioapic.PHYSICAL 0xA000 n)) by apply make_entry_range, u8_range.
  change (u16 (Z.lor (Z.shiftl 1 13) (Z.shiftl 1 15))) with 0xA000.
  rewrite !read_set_same; try done; [| rewrite read_set_same by done; apply is_u64_land; [done | by split]].
  assert (Hf := make_entry_fields (u8 (sci_int + 32)) 0xA000 n (u8_range _) Hn). replace (u8 (sci_int + 32)) with (sci_int + 32) in * by wrap_lia.
  set (e := ioapic.make_entry (sci_int + 32) ioapic.FIXED ioapic.PHYSICAL 0xA000 n) in *.
  replace (Z.land e (not64 ioapic.mask_bit)) with (Z.land (Z.lor e ioapic.mask_bit) (not64 ioapic.mask_bit)).
  - apply unmasked_entry; [exact Hf | apply is_u64_lor; [done | by split]].
  - rewrite Z.land_lor_distr_l. change (Z.land ioapic.mask_bit (not64 ioapic.mask_bit)) with 0. apply Z.lor_0_r.
Qed.

Lemma sci_wrong_trigger_witness :
  exists hs' d', ioapic.init_sci (D := loc -> Z) 9 1 0 madt.create ioapics_example (replicate 256 idt.no_handler) (fun _ => 0) = Ret (hs', d') /\
    entry_is 0x29 0 false false false (ioapic.read_entry 9 ioapics_example d').
Proof.
  eexists. apply (sci_wrong_trigger 9 1 0 madt.create ioapics_example (replicate 256 idt.no_handler) (fun _ => 0)); try reflexivity; try lia.
  - split; [| by_compute]. constructor; [| constructor]. split; [split; [cbn; lia | done] | cbn; lia].
  - eexists. reflexivity.
Defined.
