(* ===== verification/Pci.v ===== *)
(** * Pci: the PCI bus

    Models source/arch/x86_64/drivers/pci.cpp with include/Sigma/arch/x86_64/drivers/pci.h,
    and the list of devices of source/generic/device.cpp to which the enumeration
    adds.  The two ways to reach the configuration space are the two instances of
    [PciAccess], the function pointers [internal_read] and [internal_write].  The
    configuration space itself is hardware, [ConfigHw]; [PciAccessOk] says that an
    access method reaches it, [port_access_ok] proves it for the port method.  The
    linked list of devices is a list whose nodes are named by their positions, as
    [Containers.linked_list_refines_list] allows; the namespace of the AML
    interpreter is an argument. *)

From S2P Require Import Prelude Bits Fields Frames Paging Acpi.

(** ** Configuration space *)

(** The position of a function. *)
Record coord := mk_coord { c_seg : Z; c_bus : Z; c_slot : Z; c_func : Z }.

#[export] Instance coord_eq_dec : EqDecision coord.
Proof. solve_decision. Defined.

(** Reads and writes of [size] bytes of the configuration space of a function. *)
Class ConfigHw (V : Type) := {
  cfg_rd : coord -> Z -> Z -> V -> Z;
  cfg_wr : coord -> Z -> Z -> Z -> V -> V;
  cfg_rd_range co off v : 0 <= cfg_rd co off 4 v < 2 ^ 32
}.

(** [internal_read] and [internal_write] on a machine state [C]. *)
Class PciAccess (C : Type) := {
  internal_read : coord -> Z -> Z -> C -> res (Z * C);
  internal_write : coord -> Z -> Z -> Z -> C -> res C
}.

(** What an access method promises: in the states [acc_ok], for functions in
    [acc_reach] and accesses inside a double word of the first 256 bytes, it does
    what the hardware does. *)
Definition aligned_access (off size : Z) : Prop := 0 <= off < 256 /\ size ∈ [1; 2; 4] /\ off mod 4 + size <= 4.

Class PciAccessOk (C V : Type) `{!ConfigHw V, !PciAccess C} := {
  acc_view : C -> V;
  acc_ok : C -> Prop;
  acc_reach : Z -> Prop;
  acc_rd co off size c :
    acc_ok c -> acc_reach (c_seg co) -> 0 <= c_bus co < 256 -> 0 <= c_slot co < 32 -> 0 <= c_func co < 8 -> aligned_access off size ->
    exists c', internal_read co off size c = Ret (cfg_rd co off size (acc_view c), c') /\ acc_ok c' /\ acc_view c' = acc_view c;
  acc_wr co off size x c :
    acc_ok c -> acc_reach (c_seg co) -> 0 <= c_bus co < 256 -> 0 <= c_slot co < 32 -> 0 <= c_func co < 8 -> aligned_access off size ->
    exists c', internal_write co off size x c = Ret c' /\ acc_ok c' /\ acc_view c' = cfg_wr co off size x (acc_view c)
}.

(** ** Access through ports *)

Module legacy.
Definition config_addr : Z := 0xCF8.
Definition config_data : Z := 0xCFC.

(** [make_pci_address] on [uint32_t]. *)
Definition make_pci_address (bus slot function offset : Z) : Z :=
  Z.lor (Z.lor (Z.lor (Z.lor (u32 (Z.shiftl bus 16)) (u32 (Z.shiftl slot 11))) (u32 (Z.shiftl function 8))) (Z.land offset 0xFC)) (u32 (Z.shiftl 1 31)).

(** The ports of the machine. *)
Class PortHw (P : Type) := {
  port_in : Z -> Z -> P -> Z;
  port_out : Z -> Z -> Z -> P -> P
}.

Section access.
Context {P : Type} `{HP : PortHw P}.

Definition legacy_read (co : coord) (offset access_size : Z) (p : P) : res (Z * P) :=
  let p := port_out config_addr 4 (make_pci_address (c_bus co) (c_slot co) (c_func co) offset) p in
  mret (if bool_decide (access_size ∈ [1; 2; 4]) then port_in (config_data + offset mod 4) access_size p else 0, p).

Definition legacy_write (co : coord) (offset access_size value : Z) (p : P) : res P :=
  let p := port_out config_addr 4 (make_pci_address (c_bus co) (c_slot co) (c_func co) offset) p in
  mret (if bool_decide (access_size ∈ [1; 2; 4]) then port_out (config_data + offset mod 4) access_size value p else p).
End access.

#[global] Instance port_access {P} `{HP : PortHw P} : PciAccess P :=
  {| internal_read := legacy_read; internal_write := legacy_write |}.
End legacy.

(** ** Access through memory *)

Module mcfg.
Record entry := mk_entry { base : Z; seg : Z; start_bus_number : Z; end_bus_number : Z }.

Definition table_signature : list Z := [77; 67; 70; 71].
Definition sizeof_entry : Z := 16.

(** One entry of the table, and [init_pci]'s loop over all of them. *)
Definition read_entry (a : Z) (m : Z -> Z) : entry :=
  mk_entry (le_at m a 8) (le_at m (a + 8) 2) (m (a + 10)) (m (a + 11)).

Definition init_pci (table : Z) (m : Z -> Z) : option (list entry) :=
  if table =? 0 then None
  else
    let n_entries := u64 (le_at m (table + 4) 4 - (acpi.sizeof_sdt_header + 8)) / sizeof_entry in
    Some ((fun i => read_entry (table + acpi.sizeof_sdt_header + 8 + i * sizeof_entry) m) <$> seqZ 0 n_entries).

(** The registers in memory. *)
Class MmioHw (V : Type) := {
  mmio_rd : Z -> Z -> V -> Z;
  mmio_wr : Z -> Z -> Z -> V -> V
}.

Section access.
Context {S V : Type} `{FA : FrameAllocator S} `{HM : MmioHw V}.

(** The page tables of the kernel with the table entries, and the registers. *)
Record t := mk { paging_info : Z; mcfg_entries : list entry; kernel : paging.kernel S; registers : V }.

Definition page_flags : Z :=
  Z.lor (Z.lor (Z.lor map_page_flags_present map_page_flags_writable) map_page_flags_no_execute) map_page_flags_global.

(** The position of a function in the window of an entry. *)
Definition window (co : coord) (e : entry) : Z :=
  base e + Z.lor (Z.lor (Z.shiftl (c_bus co - start_bus_number e) 20) (Z.shiftl (c_slot co) 15)) (Z.shiftl (c_func co) 12).

Definition covers (co : coord) (e : entry) : bool :=
  (seg e =? c_seg co) && ((start_bus_number e <=? c_bus co) && (c_bus co <=? end_bus_number e)).

(** The loop of [mcfg_pci_read]; an unknown size goes on to the next entry. *)
Fixpoint read_loop (l : list entry) (co : coord) (offset access_size : Z) (c : t) : res (Z * t) :=
  match l with
  | [] => mret (0, c)
  | e :: l =>
      if covers co e then
        let addr := Z.lor (u64 (window co e)) offset in
        k ← paging.map_page (paging_info c) addr (to_virt addr) page_flags uncacheable (kernel c);
        let c := mk (paging_info c) (mcfg_entries c) k (registers c) in
        if bool_decide (access_size ∈ [1; 2; 4]) then mret (mmio_rd addr access_size (registers c), c)
        else read_loop l co offset access_size c
      else read_loop l co offset access_size c
  end.

Fixpoint write_loop (l : list entry) (co : coord) (offset access_size value : Z) (c : t) : res t :=
  match l with
  | [] => mret c
  | e :: l =>
      if covers co e then
        let addr := u64 (window co e + offset) in
        k ← paging.map_page (paging_info c) addr (to_virt addr) page_flags uncacheable (kernel c);
        mret (mk (paging_info c) (mcfg_entries c) k
          (if bool_decide (access_size ∈ [1; 2; 4]) then mmio_wr addr access_size (value mod 2 ^ (8 * access_size)) (registers c) else registers c))
      else write_loop l co offset access_size value c
  end.

Definition mcfg_pci_read (co : coord) (offset access_size : Z) (c : t) : res (Z * t) := read_loop (mcfg_entries c) co offset access_size c.
Definition mcfg_pci_write (co : coord) (offset access_size value : Z) (c : t) : res t := write_loop (mcfg_entries c) co offset access_size value c.
End access.
Arguments t S V : clear implicits.

#[global] Instance mcfg_access {S V} `{FA : FrameAllocator S} `{HM : MmioHw V} : PciAccess (t S V) :=
  {| internal_read := mcfg_pci_read; internal_write := mcfg_pci_write |}.
End mcfg.

(** ** Devices *)

Module pci.
Record bar := mk_bar { bar_type : Z; number : Z; flags : Z; base : Z; len : Z }.

Definition no_bar : bar := mk_bar 0 0 0 0 0.
Definition bar_type_mem : Z := 0.
Definition bar_type_io : Z := 1.
Definition bar_type_invalid : Z := 0xFF.
Definition bar_flags_prefetchable : Z := 0.

(** A route of a _PRT, as [lai_pci_parse_prt] yields it; function -1 is any. *)
Record route := mk_route { r_slot : Z; r_function : Z; r_pin : Z; r_gsi : Z }.

Record capability := mk_cap { supported : bool; space_offset : Z }.
Record agp_info := mk_agp { agp_supported : bool; minor_ver : Z; major_ver : Z; speed_multiplier : Z }.

(** [parent] is a position in the list of devices, [node] and [prt] are what the
    AML interpreter gives, 0 and [None] for nothing. *)
Record device := mk_device {
  exists_ : bool; is_bridge : bool; coords : coord; vendor_id : Z;
  header_type : Z; class_code : Z; subclass_code : Z; prog_if : Z;
  parent : option nat; node : Z; prt : option (list route);
  msi : capability; msix : capability; agp : agp_info;
  has_irq : bool; gsi : Z; bars : list bar }.

Definition no_cap : capability := mk_cap false 0.
Definition no_agp : agp_info := mk_agp false 0 0 0.

Definition empty_device : device :=
  mk_device false false (mk_coord 0 0 0 0) 0 0 0 0 0 None 0 None no_cap no_cap no_agp false 0 (replicate 6 no_bar).

(** [class_str]. *)
Definition class_str (class_code subclass_code prog_if : Z) : string :=
  match class_code with
  | 0 => "Undefined"
  | 1 =>
      match subclass_code with
      | 0 => "SCSI Bus Controller"
      | 1 => "IDE Controller"
      | 2 => "Floppy Disk Controller"
      | 3 => "IPI Bus Controller"
      | 4 => "RAID Controller"
      | 5 => "ATA Controller"
      | 6 => match prog_if with
             | 0 => "Vendor specific SATA Controller"
             | 1 => "AHCI SATA Controller"
             | 2 => "Serial Storage Bus SATA Controller"
             | _ => "Mass Storage Controller"
             end
      | 7 => "Serial Attached SCSI Controller"
      | 8 => match prog_if with 1 => "NVMHCI Controller" | 2 => "NVMe Controller" | _ => "Mass Storage Controller" end
      | _ => "Mass Storage Controller"
      end
  | 2 =>
      match subclass_code with
      | 0 => "Ethernet Controller"
      | 1 => "Token Ring Controller"
      | 2 => "FDDI Controller"
      | 3 => "ATM Controller"
      | 4 => "ISDN Controller"
      | 5 => "WorldFip Controller"
      | 6 => "PICMG 2.14 Controller"
      | 7 => "InfiniBand Controller"
      | 8 => "Fabric Controller"
      | _ => "Network Controller"
      end
  | 3 =>
      match subclass_code with
      | 0 => "VGA Compatible Controller"
      | 1 => "XGA Controller"
      | 2 => "3D Controller"
      | _ => "Display Controller"
      end
  | 4 => "Multimedia controller"
  | 5 => "Memory Controller"
  | 6 =>
      match subclass_code with
      | 0 => "Host Bridge"
      | 1 => "ISA Bridge"
      | 2 => "EISA Bridge"
      | 3 => "MCA Bridge"
      | 4 => "PCI-to-PCI Bridge"
      | 5 => "PCMCIA Bridge"
      | 6 => "NuBus Bridge"
      | 7 => "CardBus Bridge"
      | 8 => "RACEway Bridge"
      | 9 => "Semi-Transparent PCI-to-PCI Bridge"
      | 10 => "InfiniBand-to-PCI Host Bridge"
      | _ => "Bridge Device"
      end
  | 8 =>
      match subclass_code with
      | 0 => match prog_if with
             | 0 => "8259-Compatible PIC"
             | 1 => "ISA-Compatible PIC"
             | 2 => "EISA-Compatible PIC"
             | 0x10 => "I/O APIC IRQ Controller"
             | 0x20 => "I/O xAPIC IRQ Controller"
             | _ => "Base System Peripheral"
             end
      | 1 => match prog_if with
             | 0 => "8237-Compatible DMA Controller"
             | 1 => "ISA-Compatible DMA Controller"
             | 2 => "EISA-Compatible DMA Controller"
             | _ => "Base System Peripheral"
             end
      | 2 => match prog_if with
             | 0 => "8254-Compatible PIT"
             | 1 => "ISA-Compatible PIT"
             | 2 => "EISA-Compatible PIT"
             | 3 => "HPET"
             | _ => "Base System Peripheral"
             end
      | 3 => "Real Time Clock"
      | 4 => "PCI Hot-Plug Controller"
      | 5 => "SDHCI"
      | 6 => "IOMMU"
      | _ => "Base System Peripheral"
      end
  | 0xC =>
      match subclass_code with
      | 0 => match prog_if with
             | 0 => "Generic FireWire (IEEE 1394) Controller"
             | 0x10 => "OHCI FireWire (IEEE 1394) Controller"
             | _ => "Serial Bus Controller"
             end
      | 1 => "ACCESS Bus Controller"
      | 2 => "SSA Controller"
      | 3 => match prog_if with
             | 0 => "uHCI USB1 Controller"
             | 0x10 => "oHCI USB1 Controller"
             | 0x20 => "eHCI USB2 Controller"
             | 0x30 => "xHCI USB3 Controller"
             | 0xFE => "USB Device"
             | _ => "Serial Bus Controller"
             end
      | 4 => "Fibre Channel Controller"
      | 5 => "SMBus"
      | 6 => "InfiniBand Controller"
      | 7 => "IPMI Interface Controller"
      | _ => "Serial Bus Controller"
      end
  | _ => "Unknown"
  end.

(** [find_device] and [find_device_by_class] return references, the positions. *)
Definition find_device (co : coord) (l : list device) : res nat :=
  match list_find (fun d => coords d = co) l with Some (i, _) => mret i | None => Panic "Couldn't find device by coords" end.

Fixpoint find_by_class (pos : nat) (l : list device) (main_class subclass prog index i : Z) : res nat :=
  match l with
  | [] => Panic "Couldn't find device by class"
  | d :: l =>
      if (class_code d =? main_class) && (subclass_code d =? subclass) && (prog_if d =? prog) then
        if index =? i then mret pos else find_by_class (S pos) l main_class subclass prog index (u64 (i + 1))
      else find_by_class (S pos) l main_class subclass prog index i
  end.

Definition find_device_by_class (main_class subclass prog index : Z) (l : list device) : res nat :=
  find_by_class 0 l main_class subclass prog index 0.

(** [generic::device::device]: the entries of the device list.  [pci_device] is the
    pointer to the PCI device. *)
Record gdevice := mk_gdevice { name : string; contact_pci : bool; pci_device : nat; driver : Z }.

(** [generic::device::add_pci_device]. *)
Definition add_pci_device (i : nat) (d : device) (l : list gdevice) : list gdevice :=
  l ++ [mk_gdevice (class_str (class_code d) (subclass_code d) (prog_if d)) true i 0].

Section access.
Context {C : Type} `{PA : PciAccess C}.

(** The two computations of the size of a window. *)
Definition bar_len (mask r : Z) : Z := u32 (u32 (Z.lnot (Z.land r (u32 (Z.lnot mask)))) + 1).

(** What [read_bar] writes back for a window in memory. *)
Definition written_back (bar : Z) : Z := if bitops.bit_test 32 bar 3 then (bitops.bit_set 32 bar bar_flags_prefetchable).1 else bar.

(** The base of a window in memory, by its type. *)
Definition mem_base (co : coord) (offset bar : Z) (c : C) : res (Z * C) :=
  let bar_type := Z.land (Z.shiftr bar 1) 0x3 in
  if bar_type =? 0 then mret (Z.land bar 0xFFFFFFF0, c)
  else if bar_type =? 2 then
    '(high, c) ← internal_read co (offset + 4) 4 c;
    mret (Z.lor (Z.land bar 0xFFFFFFF0) (u64 (Z.shiftl high 32)), c)
  else mret (0, c).

Definition read_bar (co : coord) (number : Z) (c : C) : res (bar * C) :=
  if 5 <? number then mret (mk_bar bar_type_invalid 0 0 0 0, c)
  else
    let offset := 0x10 + number * 4 in
    '(bar, c) ← internal_read co offset 4 c;
    if bitops.bit_test 32 bar 0 then
      c ← internal_write co offset 4 0xFFFFFFFF c;
      '(r, c) ← internal_read co offset 4 c;
      c ← internal_write co offset 4 bar c;
      mret (mk_bar bar_type_io number 0 (Z.land (Z.land bar 0xFFFFFFFC) 0xFFFF) (Z.land (bar_len 0x3 r) 0xFFFF), c)
    else
      '(base, c) ← mem_base co offset bar c;
      c ← internal_write co offset 4 0xFFFFFFFF c;
      '(r, c) ← internal_read co offset 4 c;
      let len := bar_len 0xF r in
      c ← internal_write co offset 4 (written_back bar) c;
      mret (mk_bar (if (base =? 0) && (len =? 0) then bar_type_invalid else bar_type_mem) number 0 base len, c).

(** The first [n] windows of a function. *)
Fixpoint read_bars (n : nat) (number : Z) (co : coord) (c : C) : res (list bar * C) :=
  match n with
  | O => mret ([], c)
  | S n =>
      '(b, c) ← read_bar co number c;
      '(bs, c) ← read_bars n (number + 1) co c;
      mret (b :: bs, c)
  end.

(** The capabilities that the scan collects. *)
Record caps := mk_caps { caps_msi : capability; caps_msix : capability; caps_agp : agp_info }.

(** The speed that is taken from the AGP status, and the bits of the command. *)
Definition agp_command (status command old : Z) : Z * Z :=
  let command := Z.lor command (Z.shiftl 1 8) in
  if negb (Z.land status (Z.shiftl 1 3) =? 0) then
    let '(speed, command) :=
      if negb (Z.land status (Z.shiftl 1 1) =? 0) then (8, Z.lor command (Z.shiftl 1 1))
      else if negb (Z.land status (Z.shiftl 1 0) =? 0) then (4, Z.lor command (Z.shiftl 1 0)) else (old, command) in
    (speed, Z.lor command (Z.shiftl 1 9))
  else
    let '(speed, command) :=
      if negb (Z.land status (Z.shiftl 1 1) =? 0) then (2, Z.lor command (Z.shiftl 1 1))
      else if negb (Z.land status (Z.shiftl 1 2) =? 0) then (4, Z.lor command (Z.shiftl 1 2)) else (old, command) in
    (speed, if negb (Z.land status (Z.shiftl 1 9) =? 0) then Z.lor command (Z.shiftl 1 9) else command).

Definition enable_agp (co : coord) (next_ptr : Z) (a : agp_info) (c : C) : res (agp_info * C) :=
  '(v, c) ← internal_read co (next_ptr + 2) 1 c;
  let minor := Z.land v 0xFF in
  '(v, c) ← internal_read co (next_ptr + 2) 1 c;
  let major := Z.land (Z.shiftr v 4) 0xFF in
  '(status, c) ← internal_read co (next_ptr + 4) 4 c;
  '(command, c) ← internal_read co (next_ptr + 8) 4 c;
  let '(speed, command) := agp_command status command (speed_multiplier a) in
  c ← internal_write co (next_ptr + 8) 4 command c;
  mret (mk_agp true minor major speed, c).

(** [while(next_ptr)]. *)
Fixpoint scan_caps (fuel : nat) (co : coord) (next_ptr : Z) (a : caps) (c : C) : res (caps * C) :=
  match fuel with
  | O => NoFuel
  | S fuel =>
      if next_ptr =? 0 then mret (a, c)
      else
        '(id, c) ← internal_read co next_ptr 1 c;
        let id := u8 id in
        '(a, c) ←
          (if id =? 0x02 then '(g, c) ← enable_agp co next_ptr (caps_agp a) c; mret (mk_caps (caps_msi a) (caps_msix a) g, c)
           else if id =? 0x05 then mret (mk_caps (mk_cap true next_ptr) (caps_msix a) (caps_agp a), c)
           else if id =? 0x11 then mret (mk_caps (caps_msi a) (mk_cap true next_ptr) (caps_agp a), c)
           else mret (a, c));
        '(n, c) ← internal_read co (next_ptr + 1) 1 c;
        scan_caps fuel co (u8 n) a c
  end.

(** The state of the enumeration. *)
Record machine := mk_machine { pci_devices : list device; device_list : list gdevice; config : C }.

(** The entry before the recursion into a bridge. *)
Definition identify (co : coord) (vendor class sub prog : Z) (par : option nat) : device :=
  mk_device true false co vendor 0 class sub prog par 0 None no_cap no_cap no_agp false 0 (replicate 6 no_bar).

(** The entry at the end of [enumerate_function]. *)
Definition complete (d : device) (bridge : bool) (header : Z) (bs : list bar) (a : caps) : device :=
  mk_device (exists_ d) bridge (coords d) (vendor_id d) header (class_code d) (subclass_code d) (prog_if d) (parent d) (node d) (prt d)
    (caps_msi a) (caps_msix a) (caps_agp a) (has_irq d) (gsi d) (bs ++ drop (length bs) (bars d)).

Section functions.
(** [enumerate_bus] for the bus behind a bridge, and the fuel for capabilities. *)
Context (enumerate_bus : Z -> Z -> option nat -> machine -> res machine) (cap_fuel : nat).

Definition enumerate_function (seg bus slot function : Z) (par : option nat) (s : machine) : res machine :=
  let co := mk_coord seg bus slot function in
  let i := length (pci_devices s) in
  let l := pci_devices s ++ [empty_device] in
  '(v, c) ← internal_read co 0 2 (config s);
  let vendor := u16 v in
  if vendor =? 0xFFFF then mret (mk_machine l (device_list s) c)
  else
    '(v, c) ← internal_read co 11 1 c;
    let class := Z.land v 0xFF in
    '(v, c) ← internal_read co 10 1 c;
    let sub := Z.land v 0xFF in
    '(v, c) ← internal_read co 9 1 c;
    let prog := Z.land v 0xFF in
    let d := identify co vendor class sub prog par in
    let s := mk_machine (<[i := d]> l) (device_list s) c in
    let bridge := (class =? 0x6) && (sub =? 0x4) in
    s ← (if bridge then
           '(v, c) ← internal_read co 0x19 1 (config s);
           enumerate_bus seg (u8 v) (Some i) (mk_machine (pci_devices s) (device_list s) c)
         else mret s);
    '(v, c) ← internal_read (mk_coord seg bus slot 0) 0xE 1 (config s);
    let header := Z.land (Z.land v 0xFF) 0x7F in
    '(bs, c) ← read_bars (if header =? 0 then 6 else if header =? 1 then 3 else 0) 0 co c;
    '(v, c) ← internal_read co 0x6 2 c;
    '(a, c) ←
      (if negb (Z.land (u16 v) (Z.shiftl 1 4) =? 0) then
         '(n, c) ← internal_read co 0x34 1 c;
         scan_caps cap_fuel co (u8 n) (mk_caps no_cap no_cap no_agp) c
       else mret (mk_caps no_cap no_cap no_agp, c));
    let d := complete d bridge header bs a in
    mret (mk_machine (<[i := d]> (pci_devices s)) (add_pci_device i d (device_list s)) c).

Definition enumerate_device (seg bus slot : Z) (par : option nat) (s : machine) : res machine :=
  '(v, c) ← internal_read (mk_coord seg bus slot 0) 0 2 (config s);
  let s := mk_machine (pci_devices s) (device_list s) c in
  if u16 v =? 0xFFFF then mret s
  else
    '(h, c) ← internal_read (mk_coord seg bus slot 0) 0xE 1 (config s);
    let s := mk_machine (pci_devices s) (device_list s) c in
    if bitops.bit_test 8 (u8 h) 7 then for_loop 8 0 (fun i s => enumerate_function seg bus slot i par s) s
    else enumerate_function seg bus slot 0 par s.
End functions.

(** [enumerate_bus]; the fuel bounds the depth of the recursion through bridges. *)
Fixpoint enumerate_bus (fuel cap_fuel : nat) (seg bus : Z) (par : option nat) (s : machine) : res machine :=
  match fuel with
  | O => NoFuel
  | S fuel => for_loop 32 0 (fun i s => enumerate_device (enumerate_bus fuel cap_fuel) cap_fuel seg bus i par s) s
  end.

(** ** Routing of interrupt pins *)

(** [pci_root_busses], whose entries are devices too. *)
Definition pci_get_root_bus (seg bus : Z) (roots : list device) : option device :=
  head (filter (fun r => c_seg (coords r) = seg /\ c_bus (coords r) = bus) roots).

Definition swizzle (pin dev : Z) : Z := u8 (Z.rem ((pin - 1) + Z.rem dev 4) 4 + 1).

Definition with_node (d : device) (n : Z) : device :=
  mk_device (exists_ d) (is_bridge d) (coords d) (vendor_id d) (header_type d) (class_code d) (subclass_code d) (prog_if d) (parent d)
    n (prt d) (msi d) (msix d) (agp d) (has_irq d) (gsi d) (bars d).

Definition with_prt (d : device) (p : option (list route)) : device :=
  mk_device (exists_ d) (is_bridge d) (coords d) (vendor_id d) (header_type d) (class_code d) (subclass_code d) (prog_if d) (parent d)
    (node d) p (msi d) (msix d) (agp d) (has_irq d) (gsi d) (bars d).

Definition with_gsi (d : device) (g : Z) : device :=
  mk_device (exists_ d) (is_bridge d) (coords d) (vendor_id d) (header_type d) (class_code d) (subclass_code d) (prog_if d) (parent d)
    (node d) (prt d) (msi d) (msix d) (agp d) true g (bars d).

(** The namespace: [lai_pci_find_device], and the value of _PRT below a node. *)
Section routing.
Context (lai_pci_find_device : Z -> Z -> Z -> Z) (eval_prt : Z -> option (list route)).

Fixpoint pci_find_node (fuel : nat) (i : nat) (roots l : list device) : res (list device) :=
  match fuel with
  | O => NoFuel
  | S fuel =>
      d ← access (l !! i);
      if negb (node d =? 0) then mret l
      else
        l ← match parent d with Some p => pci_find_node fuel p roots l | None => mret l end;
        bus ← match pci_get_root_bus (c_seg (coords d)) (c_bus (coords d)) roots with
              | None =>
                  match parent d with
                  | None => Panic "PCI Device not on root bus does not have parent node"
                  | Some p => pd ← access (l !! p); mret (node pd)
                  end
              | Some r => mret (node r)
              end;
        if bus =? 0 then mret l
        else mret (<[i := with_node d (lai_pci_find_device bus (c_slot (coords d)) (c_func (coords d)))]> l)
  end.

(** The first loop of [pci_route_all_irqs], for one device. *)
Definition resolve_prt (i : nat) (roots l : list device) : res (list device) :=
  d ← access (l !! i);
  l ← (if is_bridge d then pci_find_node (S (length l)) i roots l else mret l);
  d ← access (l !! i);
  if negb (node d =? 0) then
    match prt d with None => mret (<[i := with_prt d (eval_prt (node d))]> l) | Some _ => mret l end
  else mret l.

(** [while(1)]: up to the first parent with a table of routes; the result is
    [tmp], the pin there, and the routes. *)
Fixpoint climb (fuel : nat) (tmp : nat) (irq_pin : Z) (roots l : list device) : res (nat * Z * list route) :=
  match fuel with
  | O => NoFuel
  | S fuel =>
      d ← access (l !! tmp);
      match parent d with
      | Some p =>
          pd ← access (l !! p);
          match prt pd with
          | None => climb fuel p (swizzle irq_pin (c_slot (coords d))) roots l
          | Some routes => mret (tmp, irq_pin, routes)
          end
      | None =>
          match pci_get_root_bus (c_seg (coords d)) (c_bus (coords d)) roots with
          | None => Panic "Couldn't find root node for device on it"
          | Some r => mret (tmp, irq_pin, default [] (prt r))
          end
      end
  end.

(** The route of a pin of the device [co]. *)
Definition find_route (co : coord) (irq_pin : Z) (routes : list route) : option route :=
  head (filter (fun r => r_slot r = c_slot co /\ (r_function r = c_func co \/ r_function r = -1) /\ r_pin r = irq_pin - 1) routes).

(** The second loop, for one device. *)
Definition route_irq (i : nat) (roots l : list device) (c : C) : res (list device * C) :=
  d ← access (l !! i);
  '(v, c) ← internal_read (coords d) 0x3D 1 c;
  let irq_pin := u8 v in
  if irq_pin =? 0 then mret (l, c)
  else
    '(tmp, pin, routes) ← climb (S (length l)) i irq_pin roots l;
    t ← access (l !! tmp);
    mret (match find_route (coords t) pin routes with Some r => <[i := with_gsi d (r_gsi r)]> l | None => l end, c).

Definition pci_route_all_irqs (roots l : list device) (c : C) : res (list device * C) :=
  l ← foldl (fun l i => l ← l; resolve_prt i roots l) (mret l) (seq 0 (length l));
  foldl (fun s i => '(l, c) ← s; route_irq i roots l c) (mret (l, c)) (seq 0 (length l)).

(** A root bridge of the namespace: the values of _BBN and _SEG, its node and its
    routes. *)
Record root_bridge := mk_root { bbn : Z; root_seg : Z; root_node : Z; root_prt : option (list route) }.

(** The entry of [pci_root_busses] that [parse_pci] makes. *)
Definition root_device (r : root_bridge) : device :=
  mk_device true false (mk_coord (u16 (bbn r)) (u8 (root_seg r)) 0 0) 0 0 0 0 0 None (root_node r) (root_prt r)
    no_cap no_cap no_agp false 0 (replicate 6 no_bar).

Definition parse_pci (fuel cap_fuel : nat) (bridges : list root_bridge) (s : machine) : res (machine * list device) :=
  '(s, roots) ← foldl (fun s r =>
      '(s, roots) ← s;
      s ← enumerate_bus fuel cap_fuel (u16 (root_seg r)) (u8 (bbn r)) None s;
      mret (s, roots ++ [root_device r])) (mret (s, [])) bridges;
  '(l, c) ← pci_route_all_irqs roots (pci_devices s) (config s);
  mret (mk_machine l (device_list s) c, roots).
End routing.

(** ** Message signaled interrupts *)

Definition msi_control_reg : Z := 0x2.
Definition msi_addr_reg_low : Z := 0x4.
Definition msi_data_32 : Z := 0x8.
Definition msi_data_64 : Z := 0xC.
Definition iapc_boot_arch_msi_not_supported : Z := 3.

(** The bit fields of [msi::control], [msi::address] and [msi::data]. *)
Definition mmc (control : Z) : Z := bits 1 3 control.
Definition c64 (control : Z) : bool := negb (bits 7 1 control =? 0).
Definition set_msie (x control : Z) : Z := set_bits 0 1 x control.
Definition set_mme (x control : Z) : Z := set_bits 4 3 x control.
Definition set_destination_id (x address : Z) : Z := set_bits 12 8 x address.
Definition set_base_address (x address : Z) : Z := set_bits 20 12 x address.
Definition set_vector (x data : Z) : Z := set_bits 0 8 x data.
Definition set_delivery_mode (x data : Z) : Z := set_bits 8 3 x data.

(** [install_msi]; [boot_flags] is what [acpi::get_arch_boot_flags] returns. *)
Definition install_msi (boot_flags : Z) (d : device) (dest_id vector : Z) (c : C) : res C :=
  let co := coords d in
  let off := space_offset (msi d) in
  _ ← ASSERT (supported (msi d)) "this->msi.supported";
  _ ← ASSERT (negb (off =? 0)) "this->msi.space_offset";
  _ ← ASSERT (Z.land boot_flags (Z.shiftl 1 iapc_boot_arch_msi_not_supported) =? 0) "MSI supported";
  '(control, c) ← internal_read co (off + msi_control_reg) 2 c;
  let control := u16 control in
  _ ← ASSERT (Z.shiftl 1 (mmc control) <? 32) "(1 << control.mmc) < 32";
  '(addr, c) ← internal_read co (off + msi_addr_reg_low) 2 c;
  let data_reg := if c64 control then msi_data_64 else msi_data_32 in
  '(data, c) ← internal_read co (off + data_reg) 2 c;
  let data := set_delivery_mode 0 (set_vector vector data) in
  let addr := set_destination_id dest_id (set_base_address 0xFEE addr) in
  c ← internal_write co (off + msi_addr_reg_low) 4 addr c;
  c ← internal_write co (off + data_reg) 4 data c;
  let control := set_mme 0 (set_msie 1 control) in
  internal_write co (off + msi_control_reg) 2 control c.
End access.
Arguments machine C : clear implicits.
End pci.

(** ** Lemmas: access through ports *)

(** The ports reach the configuration space: a word with the top bit set written
    to the address port selects a function and a double word, which the data ports
    then read and write. *)
Class PortHwLaws (P V : Type) `{!ConfigHw V, !legacy.PortHw P} := {
  port_view : P -> V;
  port_view_addr a p : port_view (legacy.port_out legacy.config_addr 4 a p) = port_view p;
  port_in_data a k size p :
    Z.testbit a 31 = true -> 0 <= k -> 1 <= size -> k + size <= 4 ->
    legacy.port_in (legacy.config_data + k) size (legacy.port_out legacy.config_addr 4 a p) =
    cfg_rd (mk_coord 0 (bits 16 8 a) (bits 11 5 a) (bits 8 3 a)) (4 * bits 2 6 a + k) size (port_view p);
  port_out_data a k size x p :
    Z.testbit a 31 = true -> 0 <= k -> 1 <= size -> k + size <= 4 ->
    port_view (legacy.port_out (legacy.config_data + k) size x (legacy.port_out legacy.config_addr 4 a p)) =
    cfg_wr (mk_coord 0 (bits 16 8 a) (bits 11 5 a) (bits 8 3 a)) (4 * bits 2 6 a + k) size x (port_view p)
}.

Section port_lemmas.
Import legacy.

(** The address word and what the hardware decodes from it. *)
Lemma make_pci_address_fields bus slot function offset :
  0 <= bus < 256 -> 0 <= slot < 32 -> 0 <= function < 8 -> 0 <= offset < 256 ->
  let a := make_pci_address bus slot function offset in
  Z.testbit a 31 = true /\ bits 16 8 a = bus /\ bits 11 5 a = slot /\ bits 8 3 a = function /\ 4 * bits 2 6 a + offset mod 4 = offset.
Proof.
  intros Hb Hs Hf Ho a.
  assert (Hbb : forall i, 8 <= i -> Z.testbit bus i = false) by (intros i Hi; apply (testbit_small bus 8); lia).
  assert (Hsb : forall i, 5 <= i -> Z.testbit slot i = false) by (intros i Hi; apply (testbit_small slot 5); lia).
  assert (Hfb : forall i, 3 <= i -> Z.testbit function i = false) by (intros i Hi; apply (testbit_small function 3); lia).
  assert (E : bits 2 6 a = offset / 4).
  { rewrite <- (Z.mod_small (offset / 4) (2 ^ 6)) by (Z.to_euclidean_division_equations; lia).
    change 4 with (2 ^ 2) at 1. rewrite <- Z.shiftr_div_pow2, <- Z.land_ones by lia. unfold bits, a, make_pci_address.
    bitwise 6%nat; rewrite ?Z.land_ones by lia; try (apply Z.mod_pos_bound; lia). }
  split_and!; [| | | | rewrite E; Z.to_euclidean_division_equations; lia]; unfold a, make_pci_address, bits.
  - repeat (bit_step; bit_indices; bit_neg). bit_consts. rewrite ?orb_true_r. reflexivity.
  - bitwise 8%nat; rewrite ?Z.land_ones by lia; try (apply Z.mod_pos_bound; lia); try lia; rewrite ?Hsb, ?Hfb by lia; by rewrite ?orb_false_r.
  - bitwise 5%nat; rewrite ?Z.land_ones by lia; try (apply Z.mod_pos_bound; lia); try lia; rewrite ?Hfb by lia; by rewrite ?orb_false_r.
  - bitwise 3%nat; rewrite ?Z.land_ones by lia; try (apply Z.mod_pos_bound; lia); try lia; by rewrite ?orb_false_r.
Qed.

Context {P V : Type} `{HC : ConfigHw V} `{HP : !PortHw P} `{HL : !PortHwLaws P V}.

(** The port method reaches segment 0. *)
#[export] Program Instance port_access_ok : PciAccessOk P V :=
  {| acc_view := port_view; acc_ok _ := True; acc_reach seg := seg = 0 |}.
Next Obligation.
  intros co off size p _ Hseg Hb Hs Hf (Ho & Hsz & Hal). cbn. unfold legacy_read. rewrite bool_decide_true by done.
  destruct (make_pci_address_fields (c_bus co) (c_slot co) (c_func co) off) as (Ha & E1 & E2 & E3 & E4); try done.
  eexists. split; [| split; [done | apply port_view_addr]]. cbn. f_equal. f_equal.
  rewrite port_in_data by (done || (rewrite ?elem_of_cons, ?elem_of_nil in Hsz; Z.to_euclidean_division_equations; lia)). rewrite E1, E2, E3, E4. by destruct co as [sg b sl f]; cbn in *; subst.
Qed.
Next Obligation.
  intros co off size x p _ Hseg Hb Hs Hf (Ho & Hsz & Hal). cbn. unfold legacy_write. rewrite bool_decide_true by done.
  destruct (make_pci_address_fields (c_bus co) (c_slot co) (c_func co) off) as (Ha & E1 & E2 & E3 & E4); try done.
  eexists. split; [done | split; [done |]].
  rewrite port_out_data by (done || (rewrite ?elem_of_cons, ?elem_of_nil in Hsz; Z.to_euclidean_division_equations; lia)). rewrite E1, E2, E3, E4. by destruct co as [sg b sl f]; cbn in *; subst.
Qed.
End port_lemmas.

(** ** Lemmas: windows *)

(** Arithmetic of aligned words. *)
Lemma land_clear x k w : 0 <= x < 2 ^ w -> 0 <= k <= w -> Z.land x (2 ^ w - 2 ^ k) = x - x mod 2 ^ k.
Proof.
  intros Hx Hk. replace (2 ^ w - 2 ^ k) with (Z.shiftl (Z.ones (w - k)) k).
  2: { rewrite Z.shiftl_mul_pow2, Z.ones_equiv by lia. replace (2 ^ w) with (2 ^ (w - k) * 2 ^ k) by (rewrite <- Z.pow_add_r by lia; f_equal; lia). lia. }
  replace (x - x mod 2 ^ k) with (Z.ldiff x (Z.ones k)).
  2: { rewrite Z.ldiff_ones_r, Z.shiftl_mul_pow2, Z.shiftr_div_pow2 by lia. pose proof (Z.div_mod x (2 ^ k)). lia. }
  apply Z.bits_inj'. intros i Hi. rewrite Z.land_spec, Z.ldiff_spec, Z.shiftl_spec by lia.
  destruct (Z.lt_ge_cases i k).
  - rewrite (Z.testbit_neg_r _ (i - k)), Z.ones_spec_low by lia. done.
  - rewrite (Z.ones_spec_high k), andb_true_r by lia. destruct (Z.lt_ge_cases i w).
    + rewrite Z.ones_spec_low, andb_true_r by lia. done.
    + rewrite (testbit_small x w) by lia. done.
Qed.

Lemma lor_aligned b r k : 0 <= k -> b mod 2 ^ k = 0 -> 0 <= r < 2 ^ k -> Z.lor b r = b + r.
Proof.
  intros Hk Hb Hr. assert (E : Z.land b r = 0).
  { apply Z.bits_inj'. intros i Hi. rewrite Z.land_spec, Z.bits_0. destruct (Z.lt_ge_cases i k).
    - rewrite <- (Z.mod_pow2_bits_low b k i) by lia. by rewrite Hb, Z.bits_0.
    - rewrite (testbit_small r k) by lia. apply andb_false_r. }
  rewrite Z.add_nocarry_lxor by done. symmetry. by apply Z.lxor_lor.
Qed.

Lemma bar_len_neg m r : pci.bar_len m r = u32 (- Z.land r (u32 (Z.lnot m))).
Proof. unfold pci.bar_len, Z.lnot. wrap_lia. Qed.

Lemma pow2_aligned b k j : 0 <= j <= k -> b mod 2 ^ k = 0 -> b mod 2 ^ j = 0.
Proof.
  intros Hj Hb. apply Z.mod_divide; [lia |]. apply Z.mod_divide in Hb; [| lia]. apply (Z.divide_trans _ (2 ^ k)); [| done].
  exists (2 ^ (k - j)). rewrite <- Z.pow_add_r by lia. f_equal. lia.
Qed.

(** The size that is read back from a window of [2 ^ k] bytes. *)
Lemma bar_len_window j k w ro :
  0 <= j <= k -> k <= w <= 32 -> 0 <= ro < 2 ^ j ->
  pci.bar_len (2 ^ j - 1) (Z.lor (Z.land 0xFFFFFFFF (2 ^ w - 2 ^ k)) ro) = u32 (2 ^ k - 2 ^ w).
Proof.
  intros Hj Hw Hro. rewrite bar_len_neg.
  assert (Hjk : 2 ^ j <= 2 ^ k) by (apply Z.pow_le_mono_r; lia). assert (Hkw : 2 ^ k <= 2 ^ w) by (apply Z.pow_le_mono_r; lia).
  assert (Hw32 : 2 ^ w <= 2 ^ 32) by (apply Z.pow_le_mono_r; lia). assert (0 < 2 ^ j) by (apply Z.pow_pos_nonneg; lia).
  assert (Hm : (2 ^ w - 2 ^ k) mod 2 ^ j = 0).
  { apply (pow2_aligned _ k); [lia |]. replace (2 ^ w) with (2 ^ (w - k) * 2 ^ k) by (rewrite <- Z.pow_add_r by lia; f_equal; lia).
    rewrite <- (Z.mul_1_l (2 ^ k)) at 2. rewrite <- Z.mul_sub_distr_r. apply Z.mod_mul. lia. }
  replace (u32 (Z.lnot (2 ^ j - 1))) with (2 ^ 32 - 2 ^ j) by (unfold Z.lnot; wrap_lia).
  replace (Z.land 0xFFFFFFFF (2 ^ w - 2 ^ k)) with (2 ^ w - 2 ^ k).
  2: { rewrite Z.land_comm. change 0xFFFFFFFF with (Z.ones 32). rewrite Z.land_ones, Z.mod_small by lia. done. }
  rewrite lor_aligned with (k := j) by (done || lia).
  destruct (Z.eq_dec w k) as [-> | Hne].
  - rewrite land_clear by (cbn in *; lia). rewrite !Z.sub_diag, Z.add_0_l, (Z.mod_small ro) by lia. by rewrite Z.sub_diag.
  - assert (2 ^ k + 2 ^ k <= 2 ^ w).
    { replace (2 ^ k + 2 ^ k) with (2 ^ (k + 1)) by (rewrite Z.pow_add_r by lia; lia). apply Z.pow_le_mono_r; lia. }
    rewrite land_clear by lia. rewrite Z.add_mod, Hm, Z.add_0_l, Z.mod_mod, (Z.mod_small ro) by lia. f_equal. lia.
Qed.

(** States of the configuration space that read the same. *)
Definition same_config {V} `{HC : ConfigHw V} (v v' : V) : Prop := forall co off size, cfg_rd co off size v = cfg_rd co off size v'.

#[export] Instance same_config_equiv {V} `{HC : ConfigHw V} : Equivalence same_config.
Proof. split; [done | by intros x y H co off size | intros x y z H1 H2 co off size; by rewrite H1, H2]. Qed.

(** A register that keeps the bits in [mask] and reads [ro] elsewhere; writing a
    value that reads as before undoes a write. *)
Definition sized_register {V} `{HC : ConfigHw V} (co : coord) (off mask ro : Z) : Prop :=
  (forall x v, cfg_rd co off 4 (cfg_wr co off 4 x v) = Z.lor (Z.land x mask) ro) /\
  (forall x y v, Z.lor (Z.land y mask) ro = cfg_rd co off 4 v -> same_config (cfg_wr co off 4 y (cfg_wr co off 4 x v)) v).

(** What a function decodes: a window of [2 ^ k] bytes at [b] in memory, below 4
    GiB or anywhere, prefetchable or not; a window of ports; nothing. *)
Inductive window := Mem32 (k b : Z) (prefetch : bool) | Mem64 (k b : Z) (prefetch : bool) | Io (k b : Z) | Unused.

Definition window_at {V} `{HC : ConfigHw V} (co : coord) (off : Z) (w : window) (v : V) : Prop :=
  match w with
  | Mem32 k b p =>
      4 <= k < 32 /\ 0 <= b < 2 ^ 32 /\ b mod 2 ^ k = 0 /\ sized_register (V := V) co off (2 ^ 32 - 2 ^ k) (if p then 8 else 0) /\
      cfg_rd co off 4 v = b + (if p then 8 else 0)
  | Mem64 k b p =>
      4 <= k < 64 /\ 0 <= b < 2 ^ 64 /\ b mod 2 ^ k = 0 /\ sized_register (V := V) co off (2 ^ 32 - 2 ^ (k `min` 32)) (if p then 12 else 4) /\
      cfg_rd co off 4 v = b mod 2 ^ 32 + (if p then 12 else 4) /\ cfg_rd co (off + 4) 4 v = b / 2 ^ 32
  | Io k b =>
      2 <= k < 16 /\ 0 <= b < 2 ^ 16 /\ b mod 2 ^ k = 0 /\
      (exists w, 16 <= w <= 32 /\ sized_register (V := V) co off (2 ^ w - 2 ^ k) 1) /\ cfg_rd co off 4 v = b + 1
  | Unused => sized_register (V := V) co off 0 0 /\ cfg_rd co off 4 v = 0
  end.

(** What [read_bar] reports: the size of a window of 4 GiB or more is lost. *)
Definition window_bar (number : Z) (w : window) : pci.bar :=
  match w with
  | Mem32 k b _ => pci.mk_bar pci.bar_type_mem number 0 b (2 ^ k)
  | Mem64 k b _ =>
      if k <? 32 then pci.mk_bar pci.bar_type_mem number 0 b (2 ^ k)
      else pci.mk_bar (if b =? 0 then pci.bar_type_invalid else pci.bar_type_mem) number 0 b 0
  | Io k b => pci.mk_bar pci.bar_type_io number 0 b (2 ^ k)
  | Unused => pci.mk_bar pci.bar_type_invalid number 0 0 0
  end.

Lemma bit_test_bar bar i : 0 <= bar < 2 ^ 32 -> 0 <= i < 32 -> bitops.bit_test 32 bar i = Z.testbit bar i.
Proof.
  intros Hb Hi. unfold bitops.bit_test. rewrite Z.mod_small by (apply word_land; lia).
  rewrite land_bit64_eqb by lia. apply negb_involutive.
Qed.

(** The low bits of an aligned word with flags. *)
Lemma testbit_low b r j i : 0 <= i < j -> b mod 2 ^ j = 0 -> Z.testbit (b + r) i = Z.testbit r i.
Proof.
  intros Hi Hb. rewrite <- (Z.mod_pow2_bits_low (b + r) j), <- (Z.mod_pow2_bits_low r j) by lia. f_equal.
  by rewrite <- Zplus_mod_idemp_l, Hb, Z.add_0_l.
Qed.

Lemma written_back_low b ro k :
  4 <= k <= 32 -> 0 <= b < 2 ^ 32 -> b mod 2 ^ k = 0 -> ro ∈ [0; 4; 8; 12] ->
  Z.lor (Z.land (pci.written_back (b + ro)) (2 ^ 32 - 2 ^ k)) ro = b + ro.
Proof.
  intros Hk Hb Hal Hro. assert (H16 : b mod 2 ^ 4 = 0) by (apply (pow2_aligned _ k); lia). change (2 ^ 4) with 16 in H16.
  assert (Hr : 0 <= ro < 16) by (rewrite !elem_of_cons, elem_of_nil in Hro; lia).
  assert (16 <= 2 ^ k) by (change 16 with (2 ^ 4); apply Z.pow_le_mono_r; lia).
  assert (Hbk : b + 16 <= 2 ^ 32) by (Z.to_euclidean_division_equations; lia).
  assert (E : forall x, 0 <= x < 16 -> Z.lor (Z.land (b + x) (2 ^ 32 - 2 ^ k)) ro = b + ro).
  { intros x Hx. rewrite land_clear by lia. rewrite <- Zplus_mod_idemp_l, Hal, Z.add_0_l, (Z.mod_small x) by lia.
    replace (b + x - x) with b by lia. apply (lor_aligned _ _ 4); [lia | exact H16 | exact Hr]. }
  unfold pci.written_back. rewrite bit_test_bar, (testbit_low _ _ 4) by (lia || done).
  destruct (Z.testbit ro 3) eqn:Eb; [| by apply E]. unfold bitops.bit_set. cbn [fst]. change (bit64 pci.bar_flags_prefetchable) with 1.
  replace (Z.lor (b + ro) 1) with (b + (ro + 1)).
  - rewrite Z.mod_small by (rewrite !elem_of_cons, elem_of_nil in Hro; lia). apply E. rewrite !elem_of_cons, elem_of_nil in Hro. lia.
  - rewrite (lor_aligned _ _ 1); [lia | lia | | lia]. change (2 ^ 1) with 2. rewrite !elem_of_cons, elem_of_nil in Hro.
    Z.to_euclidean_division_equations. lia.
Qed.

Section access_lemmas.
Context {C V : Type} `{HC : ConfigHw V} `{PA : !PciAccess C} `{OK : !PciAccessOk C V}.
Implicit Types (c : C) (v : V) (co : coord).

(** The functions that the access method reaches. *)
Definition reachable_coord co : Prop := acc_reach (c_seg co) /\ 0 <= c_bus co < 256 /\ 0 <= c_slot co < 32 /\ 0 <= c_func co < 8.

Lemma rd_ok co off size c :
  acc_ok c -> reachable_coord co -> aligned_access off size ->
  exists c', internal_read co off size c = Ret (cfg_rd co off size (acc_view c), c') /\ acc_ok c' /\ acc_view c' = acc_view c.
Proof. intros H (? & ? & ? & ?) ?. by apply acc_rd. Qed.

Lemma wr_ok co off size x c :
  acc_ok c -> reachable_coord co -> aligned_access off size ->
  exists c', internal_write co off size x c = Ret c' /\ acc_ok c' /\ acc_view c' = cfg_wr co off size x (acc_view c).
Proof. intros H (? & ? & ? & ?) ?. by apply acc_wr. Qed.

Lemma aligned_word off : 0 <= off < 256 -> off mod 4 = 0 -> aligned_access off 4.
Proof. intros Ho Hm. split_and!; [lia | lia | set_solver | lia]. Qed.

Lemma aligned_byte off : 0 <= off < 256 -> aligned_access off 1.
Proof. intros Ho. split_and!; [lia | lia | set_solver | Z.to_euclidean_division_equations; lia]. Qed.

Lemma aligned_half off : 0 <= off < 256 -> off mod 4 <= 2 -> aligned_access off 2.
Proof. intros Ho Hm. split_and!; [lia | lia | set_solver | lia]. Qed.

(** The probe of a register: all ones, read back, and a value that restores it. *)
Lemma probe_ok co off mask ro y c :
  acc_ok c -> reachable_coord co -> aligned_access off 4 -> sized_register (V := V) co off mask ro ->
  Z.lor (Z.land y mask) ro = cfg_rd co off 4 (acc_view c) ->
  exists c1 c2 c3, internal_write co off 4 0xFFFFFFFF c = Ret c1 /\
    internal_read co off 4 c1 = Ret (Z.lor (Z.land 0xFFFFFFFF mask) ro, c2) /\ internal_write co off 4 y c2 = Ret c3 /\
    acc_ok c3 /\ same_config (acc_view c3) (acc_view c).
Proof.
  intros Hok Hco Hal [R1 R2] Hy.
  destruct (wr_ok co off 4 0xFFFFFFFF c Hok Hco Hal) as (c1 & E1 & Hok1 & V1).
  destruct (rd_ok co off 4 c1 Hok1 Hco Hal) as (c2 & E2 & Hok2 & V2). rewrite V1, R1 in E2.
  destruct (wr_ok co off 4 y c2 Hok2 Hco Hal) as (c3 & E3 & Hok3 & V3). rewrite V2, V1 in V3.
  exists c1, c2, c3. split_and!; [done | done | done | done |]. rewrite V3. by apply R2.
Qed.

Lemma mem_base_ok co off bar c :
  acc_ok c -> reachable_coord co -> aligned_access (off + 4) 4 ->
  exists b c', pci.mem_base co off bar c = Ret (b, c') /\ acc_ok c' /\ acc_view c' = acc_view c.
Proof.
  intros Hok Hco Ha. unfold pci.mem_base. destruct (_ =? 0); [by eexists _, c |]. destruct (_ =? 2); [| by eexists _, c].
  destruct (rd_ok co (off + 4) 4 c Hok Hco Ha) as (c' & E & Hok' & Hv'). rewrite E. by eexists _, c'.
Qed.

(** The memory branch of [read_bar], once the base is known. *)
Lemma read_bar_mem co number bar base k ro c c1 :
  let off := 0x10 + number * 4 in
  0 <= number <= 5 -> reachable_coord co -> acc_ok c -> cfg_rd co off 4 (acc_view c) = bar ->
  4 <= k <= 32 -> ro ∈ [0; 4; 8; 12] -> 0 <= bar - ro < 2 ^ 32 -> (bar - ro) mod 2 ^ k = 0 ->
  sized_register (V := V) co off (2 ^ 32 - 2 ^ k) ro ->
  (forall c0, acc_ok c0 -> acc_view c0 = acc_view c -> internal_read co off 4 c = Ret (bar, c0) -> pci.mem_base co off bar c0 = Ret (base, c1)) ->
  acc_ok c1 -> acc_view c1 = acc_view c ->
  exists c', pci.read_bar co number c =
      Ret (pci.mk_bar (if (base =? 0) && (u32 (2 ^ k) =? 0) then pci.bar_type_invalid else pci.bar_type_mem) number 0 base (u32 (2 ^ k)), c') /\
    acc_ok c' /\ same_config (acc_view c') (acc_view c).
Proof.
  intros off Hn Hco Hok Hbar Hk Hro Hb Hal Hreg Hbase Hok1 Hv1. unfold pci.read_bar. fold off.
  rewrite (proj2 (Z.ltb_ge 5 number)) by lia.
  assert (Ha : aligned_access off 4) by (apply aligned_word; unfold off; Z.to_euclidean_division_equations; lia).
  destruct (rd_ok co off 4 c Hok Hco Ha) as (c0 & E0 & Hok0 & Hv0). rewrite Hbar in E0. rewrite E0. cbn [mbind res_bind].
  assert (Hbit : Z.testbit bar 0 = false).
  { replace bar with (bar - ro + ro) by lia. rewrite (testbit_low _ _ k) by (lia || done).
    rewrite !elem_of_cons, elem_of_nil in Hro. by destruct Hro as [-> | [-> | [-> | [-> | []]]]]. }
  rewrite bit_test_bar, Hbit by (rewrite <- ?Hbar; try apply cfg_rd_range; lia). rewrite (Hbase c0) by done. cbn [mbind res_bind].
  destruct (probe_ok co off (2 ^ 32 - 2 ^ k) ro (pci.written_back bar) c1 Hok1 Hco Ha Hreg) as (c2 & c3 & c4 & E2 & E3 & E4 & Hok4 & Hs).
  { rewrite Hv1, Hbar. replace bar with (bar - ro + ro) by lia. by apply written_back_low. }
  rewrite E2. cbn [mbind res_bind]. rewrite E3. cbn [mbind res_bind]. rewrite E4. cbn [mbind res_bind].
  assert (El := bar_len_window 4 k 32 ro). change (2 ^ 4 - 1) with 0xF in El.
  rewrite El by (rewrite ?elem_of_cons, ?elem_of_nil in Hro; lia).
  replace (u32 (2 ^ k - 2 ^ 32)) with (u32 (2 ^ k)) by (unfold u32; rewrite <- (Z_mod_plus_full (2 ^ k) (-1)); f_equal; lia).
  eexists. split; [reflexivity |]. split; [done |]. by rewrite <- Hv1.
Qed.

Lemma mem_base_32 co off b p c : 0 <= b < 2 ^ 32 -> b mod 16 = 0 ->
  pci.mem_base co off (b + (if p : bool then 8 else 0)) c = Ret (b, c).
Proof.
  intros Hb Hal. unfold pci.mem_base.
  assert (E1 : Z.land (Z.shiftr (b + (if p then 8 else 0)) 1) 3 = 0).
  { change 3 with (Z.ones 2). rewrite Z.land_ones, Z.shiftr_div_pow2 by lia. destruct p; Z.to_euclidean_division_equations; lia. }
  rewrite E1. cbn [Z.eqb]. change 0xFFFFFFF0 with (2 ^ 32 - 2 ^ 4). rewrite land_clear by (destruct p; Z.to_euclidean_division_equations; lia).
  cbv [mret res_ret]. do 2 f_equal. destruct p; Z.to_euclidean_division_equations; lia.
Qed.

Lemma mem_base_64 co off b p c c' : 0 <= b < 2 ^ 64 -> b mod 16 = 0 -> internal_read co (off + 4) 4 c = Ret (b / 2 ^ 32, c') ->
  pci.mem_base co off (b mod 2 ^ 32 + (if p : bool then 12 else 4)) c = Ret (b, c').
Proof.
  intros Hb Hal Hrd. unfold pci.mem_base.
  assert (E1 : Z.land (Z.shiftr (b mod 2 ^ 32 + (if p then 12 else 4)) 1) 3 = 2).
  { change 3 with (Z.ones 2). rewrite Z.land_ones, Z.shiftr_div_pow2 by lia. destruct p; Z.to_euclidean_division_equations; lia. }
  rewrite E1. cbn [Z.eqb]. rewrite Hrd. cbn [mbind res_bind].
  change 0xFFFFFFF0 with (2 ^ 32 - 2 ^ 4). rewrite land_clear by (destruct p; Z.to_euclidean_division_equations; lia).
  cbv [mret res_ret]. do 2 f_equal. rewrite Z.shiftl_mul_pow2, u64_small by (unfold is_u64; Z.to_euclidean_division_equations; lia).
  replace (b mod 2 ^ 32 + (if p then 12 else 4) - (b mod 2 ^ 32 + (if p then 12 else 4)) mod 2 ^ 4) with (b mod 2 ^ 32)
    by (destruct p; Z.to_euclidean_division_equations; lia).
  rewrite Z.lor_comm, (lor_aligned _ _ 32); [| lia | apply Z.mod_mul; lia | Z.to_euclidean_division_equations; lia].
  pose proof (Z.div_mod b (2 ^ 32)). lia.
Qed.

Lemma read_bar_io co number k w b c :
  let off := 0x10 + number * 4 in
  0 <= number <= 5 -> reachable_coord co -> acc_ok c -> cfg_rd co off 4 (acc_view c) = b + 1 ->
  2 <= k < 16 -> 16 <= w <= 32 -> 0 <= b < 2 ^ 16 -> b mod 2 ^ k = 0 -> sized_register (V := V) co off (2 ^ w - 2 ^ k) 1 ->
  exists c', pci.read_bar co number c = Ret (pci.mk_bar pci.bar_type_io number 0 b (2 ^ k), c') /\
    acc_ok c' /\ same_config (acc_view c') (acc_view c).
Proof.
  intros off Hn Hco Hok Hbar Hk Hw Hb Hal Hreg. unfold pci.read_bar. fold off. rewrite (proj2 (Z.ltb_ge 5 number)) by lia.
  assert (Ha : aligned_access off 4) by (apply aligned_word; unfold off; Z.to_euclidean_division_equations; lia).
  assert (H4 : b mod 2 ^ 2 = 0) by (apply (pow2_aligned _ k); [lia | done]).
  assert (Hkw : 2 ^ k < 2 ^ 16) by (apply Z.pow_lt_mono_r; lia). assert (Hk4 : 2 ^ 2 <= 2 ^ k) by (apply Z.pow_le_mono_r; lia).
  assert (Hw32 : 2 ^ 16 <= 2 ^ w <= 2 ^ 32) by (split; apply Z.pow_le_mono_r; lia). change (2 ^ 2) with 4 in *. change (2 ^ 16) with 65536 in *.
  assert (Hb4 : b + 4 <= 65536) by (Z.to_euclidean_division_equations; lia).
  destruct (rd_ok co off 4 c Hok Hco Ha) as (c0 & E0 & Hok0 & Hv0). rewrite Hbar in E0. rewrite E0. cbn [mbind res_bind].
  rewrite bit_test_bar, (testbit_low _ _ 2) by (lia || done). change (Z.testbit 1 0) with true. cbv iota.
  destruct (probe_ok co off (2 ^ w - 2 ^ k) 1 (b + 1) c0 Hok0 Hco Ha Hreg) as (c2 & c3 & c4 & E2 & E3 & E4 & Hok4 & Hs).
  { rewrite Hv0, Hbar, land_clear by lia. rewrite <- Zplus_mod_idemp_l, Hal, Z.add_0_l, Z.mod_small by lia.
    replace (b + 1 - 1) with b by lia. apply (lor_aligned _ _ 2); [lia | exact H4 | lia]. }
  rewrite E2. cbn [mbind res_bind]. rewrite E3. cbn [mbind res_bind]. rewrite E4. cbn [mbind res_bind].
  assert (El := bar_len_window 2 k w 1). change (2 ^ 2 - 1) with 0x3 in El. rewrite El by lia. clear El.
  exists c4. split_and!; [| done | by rewrite <- Hv0]. cbv [mret res_ret]. do 3 f_equal.
  - change 0xFFFFFFFC with (2 ^ 32 - 2 ^ 2). rewrite land_clear by lia. change 0xFFFF with (Z.ones 16). rewrite Z.land_ones by lia.
    change (2 ^ 2) with 4. rewrite Z.mod_small; Z.to_euclidean_division_equations; lia.
  - change 0xFFFF with (Z.ones 16). rewrite Z.land_ones by lia. change (2 ^ 16) with 65536.
    assert (Hm : 2 ^ w mod 65536 = 0) by (change 65536 with (2 ^ 16); apply (pow2_aligned _ w); [lia | apply Z.mod_same; lia]).
    unfold u32. Z.to_euclidean_division_equations. lia.
Qed.

Lemma pow2_small k : 0 <= k < 32 -> u32 (2 ^ k) = 2 ^ k /\ (2 ^ k =? 0) = false.
Proof.
  intros Hk. assert (0 < 2 ^ k) by (apply Z.pow_pos_nonneg; lia). assert (2 ^ k < 2 ^ 32) by (apply Z.pow_lt_mono_r; lia).
  split; [apply Z.mod_small; cbn in *; lia | apply Z.eqb_neq; lia].
Qed.

Lemma read_bar_mem32 co number k b p c :
  0 <= number <= 5 -> reachable_coord co -> acc_ok c -> window_at co (0x10 + number * 4) (Mem32 k b p) (acc_view c) ->
  exists c', pci.read_bar co number c = Ret (window_bar number (Mem32 k b p), c') /\ acc_ok c' /\ same_config (acc_view c') (acc_view c).
Proof.
  intros Hn Hco Hok (Hk & Hb & Hal & Hreg & Hrd).
  assert (Ha : aligned_access (0x10 + number * 4) 4) by (apply aligned_word; Z.to_euclidean_division_equations; lia).
  destruct (rd_ok co _ 4 c Hok Hco Ha) as (c0 & E0 & Hok0 & Hv0). destruct (pow2_small k) as [Ek Ek0]; [lia |].
  destruct (read_bar_mem co number (b + (if p then 8 else 0)) b k (if p then 8 else 0) c c0) as (c' & E & Hok' & Hs'); try done; try lia.
  - destruct p; set_solver.
  - by replace (b + (if p then 8 else 0) - (if p then 8 else 0)) with b by lia.
  - intros c1 _ _ E1. rewrite E0, Hrd in E1. injection E1 as <-. apply mem_base_32; [lia | by apply (pow2_aligned b k 4); [lia |]].
  - exists c'. split; [| done]. by rewrite E, Ek, Ek0, andb_false_r.
Qed.

Lemma read_bar_mem64 co number k b p c :
  0 <= number <= 5 -> reachable_coord co -> acc_ok c -> window_at co (0x10 + number * 4) (Mem64 k b p) (acc_view c) ->
  exists c', pci.read_bar co number c = Ret (window_bar number (Mem64 k b p), c') /\ acc_ok c' /\ same_config (acc_view c') (acc_view c).
Proof.
  intros Hn Hco Hok (Hk & Hb & Hal & Hreg & Hrd & Hhi).
  assert (Ha : aligned_access (0x10 + number * 4) 4) by (apply aligned_word; Z.to_euclidean_division_equations; lia).
  assert (Ha' : aligned_access (0x10 + number * 4 + 4) 4) by (apply aligned_word; Z.to_euclidean_division_equations; lia).
  destruct (rd_ok co _ 4 c Hok Hco Ha) as (c0 & E0 & Hok0 & Hv0).
  destruct (rd_ok co _ 4 c0 Hok0 Hco Ha') as (c1 & E1 & Hok1 & Hv1). rewrite Hv0, Hhi in E1.
  assert (Hlow : b mod 2 ^ 32 mod 2 ^ (k `min` 32) = 0).
  { assert (Hd : b mod 2 ^ (k `min` 32) = 0) by (apply (pow2_aligned b k); [lia | done]).
    rewrite <- Hd. symmetry. apply Znumtheory.Zmod_div_mod; [apply Z.pow_pos_nonneg; lia | lia |].
    exists (2 ^ (32 - k `min` 32)). rewrite <- Z.pow_add_r by lia. f_equal. lia. }
  destruct (read_bar_mem co number (b mod 2 ^ 32 + (if p then 12 else 4)) b (k `min` 32) (if p then 12 else 4) c c1)
    as (c' & E & Hok' & Hs'); try done; try lia.
  - destruct p; set_solver.
  - pose proof (Z.mod_pos_bound b (2 ^ 32)). lia.
  - by replace (b mod 2 ^ 32 + (if p then 12 else 4) - (if p then 12 else 4)) with (b mod 2 ^ 32) by lia.
  - intros c2 _ _ E2. rewrite E0, Hrd in E2. injection E2 as <-. apply mem_base_64; [lia | by apply (pow2_aligned b k 4); [lia |] | done].
  - congruence.
  - exists c'. split; [| done]. rewrite E. cbn [window_bar]. destruct (Z.ltb_spec k 32).
    + rewrite Z.min_l by lia. destruct (pow2_small k) as [Ek Ek0]; [lia |]. by rewrite Ek, Ek0, andb_false_r.
    + rewrite Z.min_r by lia. change (u32 (2 ^ 32)) with 0. cbn [Z.eqb]. by rewrite andb_true_r.
Qed.

Lemma read_bar_unused co number c :
  0 <= number <= 5 -> reachable_coord co -> acc_ok c -> window_at co (0x10 + number * 4) Unused (acc_view c) ->
  exists c', pci.read_bar co number c = Ret (window_bar number Unused, c') /\ acc_ok c' /\ same_config (acc_view c') (acc_view c).
Proof.
  intros Hn Hco Hok [Hreg Hrd].
  assert (Ha : aligned_access (0x10 + number * 4) 4) by (apply aligned_word; Z.to_euclidean_division_equations; lia).
  destruct (rd_ok co _ 4 c Hok Hco Ha) as (c0 & E0 & Hok0 & Hv0).
  destruct (read_bar_mem co number 0 0 32 0 c c0) as (c' & E & Hok' & Hs'); try done; try lia.
  - set_solver.
  - intros c1 _ _ E1. rewrite E0, Hrd in E1. injection E1 as <-. reflexivity.
  - exists c'. split; [| done]. rewrite E. reflexivity.
Qed.
End access_lemmas.

(** ** Lemmas: enumeration *)

Section topology.
Context {V : Type} `{HC : ConfigHw V} (v : V) (seg : Z).

(** What the hardware has at a position, as the code reads it. *)
Definition present (co : coord) : bool := negb (u16 (cfg_rd co 0 2 v) =? 0xFFFF).
Definition multi (bus slot : Z) : bool := bitops.bit_test 8 (u8 (cfg_rd (mk_coord seg bus slot 0) 0xE 1 v)) 7.
Definition func_on (bus slot f : Z) : bool :=
  present (mk_coord seg bus slot 0) && present (mk_coord seg bus slot f) && ((f =? 0) || multi bus slot).
Definition bridge_at (co : coord) : bool := (Z.land (cfg_rd co 11 1 v) 0xFF =? 0x6) && (Z.land (cfg_rd co 10 1 v) 0xFF =? 0x4).
Definition secondary (co : coord) : Z := u8 (cfg_rd co 0x19 1 v).

(** The functions on a bus and behind the bridges on it. *)
Inductive on_bus : Z -> coord -> Prop :=
  | on_here bus slot f : 0 <= slot < 32 -> 0 <= f < 8 -> func_on bus slot f = true -> on_bus bus (mk_coord seg bus slot f)
  | on_behind bus slot f co :
      0 <= slot < 32 -> 0 <= f < 8 -> func_on bus slot f = true -> bridge_at (mk_coord seg bus slot f) = true ->
      on_bus (secondary (mk_coord seg bus slot f)) co -> on_bus bus co.

(** A register that the probe of [read_bar] leaves as it was. *)
Definition sizable (co : coord) (off : Z) : Prop :=
  exists mask ro, sized_register (V := V) co off mask ro /\
    let bar := cfg_rd co off 4 v in
    Z.lor (Z.land (if bitops.bit_test 32 bar 0 then bar else pci.written_back bar) mask) ro = bar.

(** The capabilities from a pointer on: [n] of them, none for AGP. *)
Inductive cap_chain (co : coord) : Z -> nat -> Prop :=
  | chain_end : cap_chain co 0 0
  | chain_next p n :
      0 < p < 255 -> u8 (cfg_rd co p 1 v) <> 0x02 -> cap_chain co (u8 (cfg_rd co (p + 1) 1 v)) n -> cap_chain co p (S n).

(** The number of windows that the code probes; it takes the type of function 0. *)
Definition n_bars (bus slot : Z) : nat :=
  let header := Z.land (Z.land (cfg_rd (mk_coord seg bus slot 0) 0xE 1 v) 0xFF) 0x7F in
  if header =? 0 then 6 else if header =? 1 then 3 else 0.

(** A function that the enumeration can read: the registers it probes can be
    restored, its capabilities end, and a bridge leads to a higher bus. *)
Definition function_ok (cap_fuel : nat) (bus slot f : Z) : Prop :=
  let co := mk_coord seg bus slot f in
  (forall n, 0 <= n < Z.of_nat (n_bars bus slot) -> sizable co (0x10 + n * 4)) /\
  (exists n, cap_chain co (u8 (cfg_rd co 0x34 1 v)) n /\ (n < cap_fuel)%nat) /\
  (bridge_at co = true -> bus < secondary co).

Definition topology_ok (cap_fuel : nat) : Prop :=
  forall bus slot f, 0 <= bus < 256 -> 0 <= slot < 32 -> 0 <= f < 8 -> func_on bus slot f = true -> function_ok cap_fuel bus slot f.
End topology.

Section enumeration.
Context {C V : Type} `{HC : ConfigHw V} `{PA : !PciAccess C} `{OK : !PciAccessOk C V}.
Context (v : V) (seg : Z) (cap_fuel : nat) (Hseg : acc_reach seg) (Htop : topology_ok v seg cap_fuel).
Import pci.

(** The states of the enumeration: the configuration space reads as [v]. *)
Definition inv_cfg (c : C) : Prop := acc_ok c /\ same_config (acc_view c) v.

Lemma rd_inv co off size c :
  inv_cfg c -> reachable_coord co -> aligned_access off size ->
  exists c', internal_read co off size c = Ret (cfg_rd co off size v, c') /\ inv_cfg c'.
Proof.
  intros [Hok Hs] Hco Ha. destruct (rd_ok co off size c Hok Hco Ha) as (c' & E & Hok' & Hv').
  exists c'. rewrite E, Hs. split; [done |]. split; [done |]. by rewrite Hv'.
Qed.

Lemma read_bar_inv co number c :
  0 <= number <= 5 -> reachable_coord co -> inv_cfg c -> sizable v co (0x10 + number * 4) ->
  exists b c', read_bar co number c = Ret (b, c') /\ inv_cfg c'.
Proof.
  intros Hn Hco Hinv (mask & ro & Hreg & Hback). cbv zeta in Hback. unfold read_bar. rewrite (proj2 (Z.ltb_ge 5 number)) by lia.
  set (off := 0x10 + number * 4) in *.
  assert (Ha : aligned_access off 4) by (apply aligned_word; unfold off; Z.to_euclidean_division_equations; lia).
  assert (Ha' : aligned_access (off + 4) 4) by (apply aligned_word; unfold off; Z.to_euclidean_division_equations; lia).
  destruct (rd_inv co off 4 c Hinv Hco Ha) as (c1 & E1 & Hi1). rewrite E1. cbn [mbind res_bind].
  assert (Hprobe : forall y c, inv_cfg c -> Z.lor (Z.land y mask) ro = cfg_rd co off 4 v ->
    exists c1 c2 c3 r, internal_write co off 4 0xFFFFFFFF c = Ret c1 /\ internal_read co off 4 c1 = Ret (r, c2) /\
      internal_write co off 4 y c2 = Ret c3 /\ inv_cfg c3).
  { intros y c0 [Hok0 Hs0] Hy. destruct (probe_ok co off mask ro y c0 Hok0 Hco Ha Hreg) as (d1 & d2 & d3 & F1 & F2 & F3 & Hok3 & Hs3).
    - rewrite Hy. symmetry. apply Hs0.
    - exists d1, d2, d3. eexists. split_and!; [done | done | done |]. split; [done | by rewrite Hs3]. }
  destruct (bitops.bit_test 32 (cfg_rd co off 4 v) 0).
  - destruct (Hprobe _ c1 Hi1 Hback) as (d1 & d2 & d3 & r & F1 & F2 & F3 & Hi3).
    rewrite F1. cbn [mbind res_bind]. rewrite F2. cbn [mbind res_bind]. rewrite F3. cbn [mbind res_bind]. by eexists _, d3.
  - destruct (mem_base_ok co off (cfg_rd co off 4 v) c1) as (b & c2 & E2 & Hok2 & Hv2); [apply Hi1 | done | done |].
    assert (Hi2 : inv_cfg c2) by (split; [done |]; rewrite Hv2; apply Hi1).
    rewrite E2. cbn [mbind res_bind]. destruct (Hprobe _ c2 Hi2 Hback) as (d1 & d2 & d3 & r & F1 & F2 & F3 & Hi3).
    rewrite F1. cbn [mbind res_bind]. rewrite F2. cbn [mbind res_bind]. rewrite F3. cbn [mbind res_bind]. by eexists _, d3.
Qed.

Lemma read_bars_inv n number co c :
  0 <= number -> number + Z.of_nat n <= 6 -> reachable_coord co -> inv_cfg c ->
  (forall i, number <= i < number + Z.of_nat n -> sizable v co (0x10 + i * 4)) ->
  exists bs c', read_bars n number co c = Ret (bs, c') /\ inv_cfg c'.
Proof.
  revert number c. induction n as [| n IH]; intros number c Hn Hn6 Hco Hi Hs; cbn [read_bars]; [by eexists _, c |].
  destruct (read_bar_inv co number c) as (b & c1 & E1 & Hi1); [lia | done | done | apply Hs; lia |]. rewrite E1. cbn [mbind res_bind].
  destruct (IH (number + 1) c1) as (bs & c2 & E2 & Hi2); [lia | lia | done | done | intros i Hr; apply Hs; lia |].
  rewrite E2. cbn [mbind res_bind]. by eexists _, c2.
Qed.

Lemma scan_caps_inv p n fuel co a c :
  cap_chain v co p n -> (n < fuel)%nat -> reachable_coord co -> inv_cfg c ->
  exists a' c', scan_caps fuel co p a c = Ret (a', c') /\ inv_cfg c'.
Proof.
  intros Hc. revert fuel a c. induction Hc as [| p n Hp Hid Hc IH]; intros fuel a c Hf Hco Hi; (destruct fuel as [| fuel]; [lia |]); cbn [scan_caps].
  { by eexists _, c. }
  rewrite (proj2 (Z.eqb_neq p 0)) by lia.
  destruct (rd_inv co p 1 c Hi Hco) as (c1 & E1 & Hi1); [apply aligned_byte; lia |].
  rewrite E1. cbn [mbind res_bind]. rewrite (proj2 (Z.eqb_neq (u8 (cfg_rd co p 1 v)) 2)) by done.
  assert (forall a, exists a' c', ('(n, c) ← internal_read co (p + 1) 1 c1; scan_caps fuel co (u8 n) a c) = Ret (a', c') /\ inv_cfg c') as Hrest.
  { intros a0. destruct (rd_inv co (p + 1) 1 c1 Hi1 Hco) as (c2 & E2 & Hi2);
      [apply aligned_byte; lia |].
    rewrite E2. cbn [mbind res_bind]. apply IH; [lia | done | done]. }
  destruct (_ =? 5); [| destruct (_ =? 0x11)]; cbn [mbind res_bind mret res_ret]; apply Hrest.
Qed.

(** ** The list of devices *)

(** An entry says what the hardware has, its parent is the bridge in front of its
    bus, and it is registered in the device list. *)
Definition matches (d : device) : Prop :=
  vendor_id d = u16 (cfg_rd (coords d) 0 2 v) /\ class_code d = Z.land (cfg_rd (coords d) 11 1 v) 0xFF /\
  subclass_code d = Z.land (cfg_rd (coords d) 10 1 v) 0xFF /\ prog_if d = Z.land (cfg_rd (coords d) 9 1 v) 0xFF /\
  is_bridge d = bridge_at v (coords d).

Definition parent_ok (l : list device) (bus : Z) (par : option nat) : Prop :=
  match par with
  | None => True
  | Some p => exists b, l !! p = Some b /\ exists_ b = true /\ bridge_at v (coords b) = true /\ secondary v (coords b) = bus
  end.

Definition good (l : list device) (gl : list gdevice) (i : nat) (d : device) : Prop :=
  matches d /\ parent_ok l (c_bus (coords d)) (parent d) /\
  mk_gdevice (class_str (class_code d) (subclass_code d) (prog_if d)) true i 0 ∈ gl.

(** The functions found between two states of the enumeration are those in [Q]. *)
Definition extends (Q : coord -> Prop) (s s' : machine C) : Prop :=
  inv_cfg (config s') /\ (exists ext, pci_devices s' = pci_devices s ++ ext) /\ (exists g, device_list s' = device_list s ++ g) /\
  (forall co, (exists i d, (length (pci_devices s) <= i)%nat /\ pci_devices s' !! i = Some d /\ exists_ d = true /\ coords d = co) <-> Q co) /\
  (forall i d, (length (pci_devices s) <= i)%nat -> pci_devices s' !! i = Some d -> exists_ d = true ->
     good (pci_devices s') (device_list s') i d).

(** Entries keep their position, their existence and their coordinates. *)
Definition kept (l l' : list device) : Prop :=
  forall p b, l !! p = Some b -> exists b', l' !! p = Some b' /\ exists_ b' = exists_ b /\ coords b' = coords b.

Lemma kept_app l ext : kept l (l ++ ext).
Proof. intros p b Hb. exists b. split; [by apply lookup_app_l_Some | done]. Qed.

Lemma parent_ok_kept l l' bus par : kept l l' -> parent_ok l bus par -> parent_ok l' bus par.
Proof.
  intros Hk. destruct par as [p |]; [| done]. intros (b & Hb & He & Hbr & Hs). destruct (Hk p b Hb) as (b' & Hb' & Ee & Ec).
  exists b'. by rewrite Ee, Ec.
Qed.

Lemma good_kept l l' gl g i d : kept l l' -> good l gl i d -> good l' (gl ++ g) i d.
Proof. intros Hk (Hm & Hp & Hg). split_and!; [done | by apply (parent_ok_kept l) | apply elem_of_app; by left]. Qed.

Lemma extends_refl s : inv_cfg (config s) -> extends (fun _ => False) s s.
Proof.
  intros Hi. split_and!; [done | exists []; by rewrite app_nil_r | exists []; by rewrite app_nil_r | |].
  - intros co. split; [| done]. intros (i & d & Hle & Hd & _). apply lookup_lt_Some in Hd. lia.
  - intros i d Hle Hd. apply lookup_lt_Some in Hd. lia.
Qed.

Lemma extends_ext (Q Q' : coord -> Prop) s s' : (forall co, Q co <-> Q' co) -> extends Q s s' -> extends Q' s s'.
Proof. intros HQ (Hi & He & Hg & Hf & Hgood). split_and!; [done | done | done | intros co; by rewrite Hf, HQ | done]. Qed.

Lemma extends_trans (Q1 Q2 : coord -> Prop) s s1 s2 :
  extends Q1 s s1 -> extends Q2 s1 s2 -> extends (fun co => Q1 co \/ Q2 co) s s2.
Proof.
  intros (_ & [e1 E1] & [g1 G1] & F1 & H1) (Hi & [e2 E2] & [g2 G2] & F2 & H2).
  split_and!; [done | exists (e1 ++ e2); by rewrite E2, E1, app_assoc | exists (g1 ++ g2); by rewrite G2, G1, app_assoc | |].
  - intros co. rewrite <- F1, <- F2. split.
    + intros (i & d & Hle & Hd & Hr). destruct (decide (i < length (pci_devices s1))%nat) as [Hlt | Hge].
      * left. exists i, d. split; [done |]. rewrite E2, lookup_app_l in Hd by done. done.
      * right. exists i, d. split; [lia | done].
    + intros [(i & d & Hle & Hd & Hr) | (i & d & Hle & Hd & Hr)]; exists i, d; (split; [| split; [| done]]).
      * done.
      * rewrite E2. by apply lookup_app_l_Some.
      * rewrite E1, length_app in Hle. lia.
      * done.
  - intros i d Hle Hd He. destruct (decide (i < length (pci_devices s1))%nat) as [Hlt | Hge]; [| apply H2; [lia | done | done]].
    rewrite E2, G2 in *. rewrite lookup_app_l in Hd by done. apply (good_kept (pci_devices s1)); [apply kept_app | by apply H1].
Qed.

(** A loop finds what its rounds find. *)
Lemma extends_loop (Q : Z -> coord -> Prop) par bus n from body s :
  inv_cfg (config s) -> parent_ok (pci_devices s) bus par ->
  (forall i s, from <= i < from + Z.of_nat n -> inv_cfg (config s) -> parent_ok (pci_devices s) bus par ->
     exists s', body i s = Ret s' /\ extends (Q i) s s') ->
  exists s', for_loop n from body s = Ret s' /\ extends (fun co => exists i, from <= i < from + Z.of_nat n /\ Q i co) s s'.
Proof.
  revert from s. induction n as [| n IH]; intros from s Hi Hp Hb; cbn [for_loop].
  { exists s. split; [done |]. apply (extends_ext (fun _ => False)); [| by apply extends_refl].
    intros co. split; [done | intros (i & ? & _); lia]. }
  destruct (Hb from s) as (s1 & E1 & X1); [lia | done | done |]. rewrite E1. cbn [mbind res_bind].
  assert (X1' := X1). destruct X1' as (Hi1 & [e1 E] & _).
  destruct (IH (from + 1) s1) as (s2 & E2 & X2).
  - done.
  - rewrite E. apply (parent_ok_kept (pci_devices s)); [apply kept_app | done].
  - intros i s0 Hr. apply Hb. lia.
  - exists s2. split; [done |]. refine (extends_ext _ _ _ _ _ (extends_trans _ _ _ _ _ X1 X2)). intros co. split.
    + intros [H | (i & Hr & H)]; [exists from; split; [lia | done] | exists i; split; [lia | done]].
    + intros (i & Hr & H). destruct (Z.eq_dec i from) as [-> | Hne]; [by left | right; exists i; split; [lia | done]].
Qed.

(** An entry, what was found behind it, and its completion. *)
Lemma complete_extends (Q : coord -> Prop) l gl c c1 c' d d' s2 :
  extends Q (mk_machine (l ++ [d]) gl c1) s2 -> inv_cfg c' -> exists_ d' = true -> exists_ d = true -> coords d' = coords d ->
  matches d' -> parent_ok l (c_bus (coords d')) (parent d') ->
  extends (fun co => co = coords d' \/ Q co) (mk_machine l gl c)
    (mk_machine (<[length l := d']> (pci_devices s2)) (add_pci_device (length l) d' (device_list s2)) c').
Proof.
  intros (_ & [e E] & [g G] & F & H) Hi He' He Hc Hm Hp. cbn in E, G, F, H |- *.
  assert (El : <[length l := d']> (pci_devices s2) = l ++ d' :: e) by (by rewrite E, <- app_assoc, insert_app_r_alt, Nat.sub_diag by lia).
  assert (Ed : (l ++ d' :: e) !! length l = Some d') by (by rewrite lookup_app_r, Nat.sub_diag by lia).
  assert (Eo : forall i, i <> length l -> (l ++ d' :: e) !! i = pci_devices s2 !! i).
  { intros i Hne. rewrite <- El. by rewrite list_lookup_insert_ne by done. }
  assert (Hk : kept (pci_devices s2) (l ++ d' :: e)).
  { intros p b Hb. destruct (decide (p = length l)) as [-> | Hne].
    - exists d'. split; [done |]. rewrite E, <- app_assoc, lookup_app_r, Nat.sub_diag in Hb by lia. injection Hb as <-. by rewrite He, He'.
    - exists b. by rewrite Eo. }
  unfold extends, add_pci_device; cbn [pci_devices device_list config]; rewrite El. split_and!.
  - done.
  - by eexists.
  - rewrite G, <- app_assoc. by eexists.
  - intros co. rewrite <- F. split.
    + intros (i & x & Hle & Hx & Hex & <-). destruct (decide (i = length l)) as [-> | Hne].
      * left. rewrite Ed in Hx. by injection Hx as <-.
      * right. exists i, x. rewrite length_app. cbn. rewrite Eo in Hx by done. split; [lia | done].
    + intros [-> | (i & x & Hle & Hx & Hr)]; [by exists (length l), d' |]. rewrite length_app in Hle. cbn in Hle.
      exists i, x. rewrite Eo by lia. split; [lia | done].
  - intros i x Hle Hx Hex. destruct (decide (i = length l)) as [-> | Hne].
    + rewrite Ed in Hx. injection Hx as <-. split_and!; [done | | apply elem_of_app; right; by left].
      apply (parent_ok_kept l); [apply kept_app | done].
    + rewrite Eo in Hx by done. apply (good_kept (pci_devices s2)); [done |]. apply H; [rewrite length_app; cbn; lia | done | done].
Qed.

(** What [enumerate_function] finds. *)
Definition found_at (bus slot f : Z) (co : coord) : Prop :=
  present v (mk_coord seg bus slot f) = true /\
  (co = mk_coord seg bus slot f \/
   (bridge_at v (mk_coord seg bus slot f) = true /\ on_bus v seg (secondary v (mk_coord seg bus slot f)) co)).

Lemma coord_reach bus slot f : 0 <= bus < 256 -> 0 <= slot < 32 -> 0 <= f < 8 -> reachable_coord (mk_coord seg bus slot f).
Proof. done. Qed.

(** The end of [enumerate_function]: windows and capabilities. *)
Lemma probe_function_ok bus slot f c :
  let co := mk_coord seg bus slot f in
  0 <= bus < 256 -> 0 <= slot < 32 -> 0 <= f < 8 -> inv_cfg c -> function_ok v seg cap_fuel bus slot f ->
  exists bs a c1 c2 c3 c4,
    internal_read (mk_coord seg bus slot 0) 0xE 1 c = Ret (cfg_rd (mk_coord seg bus slot 0) 0xE 1 v, c1) /\
    read_bars (n_bars v seg bus slot) 0 co c1 = Ret (bs, c2) /\
    internal_read co 0x6 2 c2 = Ret (cfg_rd co 0x6 2 v, c3) /\
    (if negb (Z.land (u16 (cfg_rd co 0x6 2 v)) (Z.shiftl 1 4) =? 0) then
         '(n, c) ← internal_read co 0x34 1 c3;
         scan_caps cap_fuel co (u8 n) (mk_caps no_cap no_cap no_agp) c
     else mret (mk_caps no_cap no_cap no_agp, c3)) = Ret (a, c4) /\ inv_cfg c4.
Proof.
  intros co Hb Hs Hf Hi (Hbars & (n & Hn & Hcf) & _). assert (Hco : reachable_coord co) by done.
  destruct (rd_inv (mk_coord seg bus slot 0) 0xE 1 c Hi) as (c1 & E1 & Hi1); [by apply coord_reach | apply aligned_byte; lia |].
  destruct (read_bars_inv (n_bars v seg bus slot) 0 co c1) as (bs & c2 & E2 & Hi2); [lia | | done | done | done |].
  { unfold n_bars. destruct (_ =? 0); [lia |]. destruct (_ =? 1); lia. }
  destruct (rd_inv co 0x6 2 c2 Hi2 Hco) as (c3 & E3 & Hi3); [by apply aligned_half |].
  destruct (negb _).
  - destruct (rd_inv co 0x34 1 c3 Hi3 Hco) as (c4 & E4 & Hi4); [apply aligned_byte; lia |].
    destruct (scan_caps_inv _ n cap_fuel co (mk_caps no_cap no_cap no_agp) c4 Hn Hcf Hco Hi4) as (a & c5 & E5 & Hi5).
    exists bs, a, c1, c2, c3, c5. rewrite E4. by cbn [mbind res_bind].
  - by exists bs, (mk_caps no_cap no_cap no_agp), c1, c2, c3, c3.
Qed.

Section function.
Context (rec : Z -> Z -> option nat -> machine C -> res (machine C)) (bus : Z) (Hbus : 0 <= bus < 256).
Context (Hrec : forall bus' par s, bus < bus' < 256 -> inv_cfg (config s) -> parent_ok (pci_devices s) bus' par ->
  exists s', rec seg bus' par s = Ret s' /\ extends (on_bus v seg bus') s s').

(** The recursion into a bridge. *)
Lemma behind_ok slot f d l gl c :
  let co := mk_coord seg bus slot f in
  0 <= slot < 32 -> 0 <= f < 8 -> inv_cfg c -> function_ok v seg cap_fuel bus slot f -> exists_ d = true -> coords d = co ->
  exists s2 c4, (if bridge_at v co then '(w, c) ← internal_read co 0x19 1 c; rec seg (u8 w) (Some (length l)) (mk_machine (l ++ [d]) gl c)
                 else mret (mk_machine (l ++ [d]) gl c)) = Ret s2 /\
    extends (fun co' => bridge_at v co = true /\ on_bus v seg (secondary v co) co') (mk_machine (l ++ [d]) gl c4) s2.
Proof.
  intros co Hs Hf Hi (_ & _ & Hbr) Hex Hd. assert (Hco : reachable_coord co) by done. fold co in Hbr. destruct (bridge_at v co) eqn:Ebr.
  - destruct (rd_inv co 0x19 1 c Hi Hco) as (c4 & E4 & Hi4); [apply aligned_byte; lia |]. rewrite E4. cbn [mbind res_bind].
    destruct (Hrec (secondary v co) (Some (length l)) (mk_machine (l ++ [d]) gl c4)) as (s2 & Es2 & X2).
    + split; [by apply Hbr |]. unfold secondary. apply Z.mod_pos_bound. lia.
    + done.
    + exists d. cbn. by rewrite lookup_app_r, Nat.sub_diag, Hd by lia.
    + exists s2, c4. split; [done |]. eapply extends_ext; [| exact X2]. intros co'. by split; [| intros [_ ?]].
  - eexists _, c. split; [done |]. apply (extends_ext (fun _ => False)); [| by apply extends_refl]. intros co'. by split; [| intros [? _]].
Qed.

Lemma enumerate_function_ok slot f par s :
  0 <= slot < 32 -> 0 <= f < 8 -> inv_cfg (config s) -> parent_ok (pci_devices s) bus par ->
  (present v (mk_coord seg bus slot f) = true -> function_ok v seg cap_fuel bus slot f) ->
  exists s', enumerate_function rec cap_fuel seg bus slot f par s = Ret s' /\ extends (found_at bus slot f) s s'.
Proof.
  intros Hs Hf Hi Hp Hfn. unfold enumerate_function, found_at. set (co := mk_coord seg bus slot f) in *.
  assert (Hco : reachable_coord co) by done. destruct s as [l gl c]; cbn [pci_devices device_list config] in *.
  destruct (rd_inv co 0 2 c Hi Hco) as (c0 & E0 & Hi0); [by apply aligned_half |]. rewrite E0. cbn [mbind res_bind].
  unfold present in *. destruct (u16 (cfg_rd co 0 2 v) =? 0xFFFF) eqn:Epres; cbn [negb] in *.
  { eexists. split; [reflexivity |]. split_and!; cbn.
    - done.
    - by eexists.
    - exists []. by rewrite app_nil_r.
    - intros co'. split; [| by intros []]. intros (i & d & Hle & Hd & Hex & _). rewrite lookup_app_r in Hd by done.
      apply list_lookup_singleton_Some in Hd as [_ <-]. done.
    - intros i d Hle Hd Hex. rewrite lookup_app_r in Hd by done. apply list_lookup_singleton_Some in Hd as [_ <-]. done. }
  specialize (Hfn eq_refl).
  destruct (rd_inv co 11 1 c0 Hi0 Hco) as (c1 & E1 & Hi1); [apply aligned_byte; lia |]. rewrite E1. cbn [mbind res_bind].
  destruct (rd_inv co 10 1 c1 Hi1 Hco) as (c2 & E2 & Hi2); [apply aligned_byte; lia |]. rewrite E2. cbn [mbind res_bind].
  destruct (rd_inv co 9 1 c2 Hi2 Hco) as (c3 & E3 & Hi3); [apply aligned_byte; lia |]. rewrite E3. cbn [mbind res_bind].
  fold (bridge_at v co). set (d := identify co _ _ _ _ par).
  rewrite insert_app_r_alt, Nat.sub_diag by lia. cbn [list_insert insert config pci_devices device_list].
  destruct (behind_ok slot f d l gl c3) as (s2 & c4 & Er & Xr); try done. fold co in Er, Xr.
  rewrite Er. cbn [mbind res_bind]. assert (Hi2' : inv_cfg (config s2)) by apply Xr.
  destruct (probe_function_ok bus slot f (config s2)) as (bs & a & d1 & d2 & d3 & d4 & F1 & F2 & F3 & F4 & Hi4); try done.
  rewrite F1. cbn [mbind res_bind]. unfold n_bars in F2. fold co in F2, F3, F4. rewrite F2. cbn [mbind res_bind]. rewrite F3. cbn [mbind res_bind].
  rewrite F4. cbn [mbind res_bind].
  eexists. split; [reflexivity |]. eapply extends_ext; [| eapply (complete_extends _ l gl c c4 d4 d _ s2 Xr Hi4)]; try done.
  intros co'. cbn. tauto.
Qed.

Lemma enumerate_device_ok slot par s :
  0 <= slot < 32 -> inv_cfg (config s) -> parent_ok (pci_devices s) bus par ->
  exists s', enumerate_device rec cap_fuel seg bus slot par s = Ret s' /\
    extends (fun co => exists f, 0 <= f < 8 /\ func_on v seg bus slot f = true /\ found_at bus slot f co) s s'.
Proof.
  intros Hs Hi Hp. unfold enumerate_device. set (co0 := mk_coord seg bus slot 0). destruct s as [l gl c]; cbn [pci_devices device_list config] in *.
  destruct (rd_inv co0 0 2 c Hi) as (c0 & E0 & Hi0); [done | by apply aligned_half |]. rewrite E0. cbn [mbind res_bind].
  assert (Efun : forall f, func_on v seg bus slot f =
    present v co0 && present v (mk_coord seg bus slot f) && ((f =? 0) || multi v seg bus slot)) by done.
  destruct (u16 (cfg_rd co0 0 2 v) =? 0xFFFF) eqn:Ep.
  { assert (E0' : present v co0 = false) by (unfold present; by rewrite Ep).
    eexists. split; [reflexivity |]. apply (extends_ext (fun _ => False)); [| by apply (extends_refl (mk_machine l gl c0))].
    intros co. split; [done |]. intros (f & _ & Hf & _). by rewrite Efun, E0' in Hf. }
  assert (E0' : present v co0 = true) by (unfold present; by rewrite Ep). cbn [config].
  destruct (rd_inv co0 0xE 1 c0 Hi0) as (c1 & E1 & Hi1); [done | apply aligned_byte; lia |]. rewrite E1. cbn [mbind res_bind pci_devices device_list].
  change (bitops.bit_test 8 (u8 (cfg_rd co0 0xE 1 v)) 7) with (multi v seg bus slot). unfold co0 in *. destruct (multi v seg bus slot) eqn:Em.
  - destruct (extends_loop (found_at bus slot) par bus 8 0 (fun i s => enumerate_function rec cap_fuel seg bus slot i par s) (mk_machine l gl c1))
      as (s' & E' & X'); [done | done | |].
    + intros i s Hr His Hps. apply enumerate_function_ok; try done. intros Hpr. apply Htop; try done. by rewrite Efun, E0', Hpr, orb_true_r.
    + exists s'. split; [exact E' |]. eapply extends_ext; [| exact X']. intros co. split; intros (f & Hf & H).
      * exists f. split; [done |]. split; [| done]. destruct H as [Hpr _]. by rewrite Efun, E0', Hpr, orb_true_r.
      * exists f. split; [done |]. by destruct H.
  - destruct (enumerate_function_ok slot 0 par (mk_machine l gl c1)) as (s' & E' & X'); try done.
    + intros Hpr. apply Htop; try done. by rewrite Efun, E0'.
    + exists s'. split; [done |]. eapply extends_ext; [| exact X']. intros co. split.
      * intros H. exists 0. split; [done |]. split; [| done]. by rewrite Efun, E0'.
      * intros (f & Hf & Hfn & H). rewrite Efun, orb_false_r, andb_true_iff, Z.eqb_eq in Hfn. destruct Hfn as [_ ->]. done.
Qed.
End function.

Lemma on_bus_iff bus co :
  on_bus v seg bus co <-> exists slot, 0 <= slot < 32 /\ exists f, 0 <= f < 8 /\ func_on v seg bus slot f = true /\ found_at bus slot f co.
Proof.
  split.
  - intros H. destruct H as [bus slot f Hs Hf Hfn | bus slot f co Hs Hf Hfn Hbr H]; exists slot; (split; [done |]); exists f; (split; [done |]);
      (split; [done |]); (split; [by unfold func_on in Hfn; rewrite !andb_true_iff in Hfn; destruct Hfn as [[_ ?] _] |]); [by left | by right].
  - intros (slot & Hs & f & Hf & Hfn & _ & [-> | [Hbr H]]); [by apply on_here | by apply (on_behind v seg bus slot f)].
Qed.

Lemma enumerate_bus_ok fuel bus par s :
  0 <= bus < 256 -> 256 <= bus + Z.of_nat fuel -> inv_cfg (config s) -> parent_ok (pci_devices s) bus par ->
  exists s', enumerate_bus fuel cap_fuel seg bus par s = Ret s' /\ extends (on_bus v seg bus) s s'.
Proof.
  revert bus par s. induction fuel as [| fuel IH]; intros bus par s Hb Hf Hi Hp; [lia |]. cbn [enumerate_bus].
  destruct (extends_loop (fun slot co => exists f, 0 <= f < 8 /\ func_on v seg bus slot f = true /\ found_at bus slot f co) par bus 32 0
    (fun i s => enumerate_device (enumerate_bus fuel cap_fuel) cap_fuel seg bus i par s) s Hi Hp) as (s' & E & X).
  - intros i s0 Hr Hi0 Hp0. apply enumerate_device_ok; [done | | lia | done | done].
    intros bus' par' s1 Hb' Hi1 Hp1. apply IH; [lia | lia | done | done].
  - exists s'. split; [exact E |]. eapply extends_ext; [| exact X]. intros co. by rewrite on_bus_iff.
Qed.
End enumeration.

(** ** Lemmas: message signaled interrupts *)

Lemma land_bit_clear x i : Z.testbit x i = false -> 0 <= i -> (Z.land x (Z.shiftl 1 i) =? 0) = true.
Proof.
  intros Hx Hi. apply Z.eqb_eq, Z.bits_inj'. intros j Hj. rewrite Z.land_spec, Z.shiftl_1_l, Z.pow2_bits_eqb, Z.bits_0 by lia.
  destruct (Z.eqb_spec i j) as [-> |]; [by rewrite Hx | apply andb_false_r].
Qed.

Lemma mmc_small control : pci.mmc control < 5 -> Z.shiftl 1 (pci.mmc control) < 32.
Proof.
  intros H. assert (0 <= pci.mmc control < 2 ^ 3) by (apply bits_range; lia). rewrite Z.shiftl_1_l. change 32 with (2 ^ 5).
  apply Z.pow_lt_mono_r; lia.
Qed.

Lemma bits_mod_word lo n w x : 0 <= lo -> 0 <= n -> lo + n <= w -> bits lo n (x mod 2 ^ w) = bits lo n x.
Proof.
  intros Hl Hn Hw. apply Z.bits_inj'. intros i Hi. rewrite !testbit_bits by lia. destruct (Z.ltb_spec i n); [| done]. cbn.
  apply Z.mod_pow2_bits_low. lia.
Qed.

(** Plain registers: they keep what is written, and accesses to other bytes of the
    function do not change them. *)
Definition storage_at {V} `{HC : ConfigHw V} (co : coord) (off size : Z) : Prop :=
  (forall x (v : V), cfg_rd co off size (cfg_wr co off size x v) = x mod 2 ^ (8 * size)) /\
  (forall off' size' x (v : V), 1 <= size' -> off + size <= off' \/ off' + size' <= off -> cfg_rd co off size (cfg_wr co off' size' x v) = cfg_rd co off size v).

(** [install_msi] on a device with one to sixteen
    messages makes it signal the given vector with fixed delivery to the given
    local controller, through one message, and enables it.  For a device with
    64-bit addresses the upper half of the address stays as it was. *)
Lemma install_msi_ok {C V} `{OK : PciAccessOk C V} (boot_flags dest vector : Z) (d : pci.device) (c : C) :
  let co := pci.coords d in
  let off := pci.space_offset (pci.msi d) in
  let control := cfg_rd co (off + 2) 2 (acc_view c) in
  let data_reg := if pci.c64 control then off + 0xC else off + 8 in
  reachable_coord co -> acc_ok c -> pci.supported (pci.msi d) = true -> 0 < off -> off + 0x10 <= 256 -> off mod 4 = 0 ->
  Z.testbit boot_flags 3 = false -> 0 <= control < 2 ^ 16 -> pci.mmc control < 5 -> 0 <= vector < 256 -> 0 <= dest < 256 ->
  storage_at (V := V) co (off + 2) 2 -> storage_at (V := V) co (off + 4) 4 -> storage_at (V := V) co (off + 8) 4 -> storage_at (V := V) co (off + 0xC) 4 ->
  exists c', pci.install_msi boot_flags d dest vector c = Ret c' /\ acc_ok c' /\
    let addr := cfg_rd co (off + 4) 4 (acc_view c') in
    let data := cfg_rd co data_reg 4 (acc_view c') in
    bits 20 12 addr = 0xFEE /\ bits 12 8 addr = dest /\ bits 0 8 data = vector /\ bits 8 3 data = 0 /\
    bits 0 1 (cfg_rd co (off + 2) 2 (acc_view c')) = 1 /\ bits 4 3 (cfg_rd co (off + 2) 2 (acc_view c')) = 0 /\
    (pci.c64 control = true -> cfg_rd co (off + 8) 4 (acc_view c') = cfg_rd co (off + 8) 4 (acc_view c)).
Proof.
  intros co off control data_reg Hco Hok Hsup Ho1 Ho2 Hal Hbf Hctl Hmmc Hv Hd Sc Sa Sl Sh. unfold pci.install_msi. fold co off.
  rewrite Hsup, (proj2 (Z.eqb_neq off 0)) by lia. cbn [ASSERT negb mbind res_bind].
  change pci.iapc_boot_arch_msi_not_supported with 3. rewrite (land_bit_clear boot_flags 3) by done. cbn [ASSERT mbind res_bind]. unfold pci.msi_control_reg, pci.msi_addr_reg_low.
  assert (A2 : aligned_access (off + 2) 2) by (apply aligned_half; Z.to_euclidean_division_equations; lia).
  assert (A4 : forall k, k = 4 \/ k = 8 \/ k = 12 -> aligned_access (off + k) 4) by (intros k Hk; apply aligned_word; Z.to_euclidean_division_equations; lia).
  assert (A4' : forall k, k = 4 \/ k = 8 \/ k = 12 -> aligned_access (off + k) 2) by (intros k Hk; apply aligned_half; Z.to_euclidean_division_equations; lia).
  destruct (rd_ok co (off + 2) 2 c Hok Hco A2) as (c1 & E1 & Hok1 & V1). rewrite E1. cbn [mbind res_bind]. fold control.
  assert (Eu : u16 control = control) by (apply Z.mod_small; exact Hctl). rewrite Eu.
  rewrite (proj2 (Z.ltb_lt (Z.shiftl 1 (pci.mmc control)) 32)) by (by apply mmc_small). cbn [ASSERT mbind res_bind].
  destruct (rd_ok co (off + 4) 2 c1 Hok1 Hco) as (c2 & E2 & Hok2 & V2); [apply A4'; lia |]. rewrite E2. cbn [mbind res_bind].
  set (a0 := cfg_rd co (off + 4) 2 (acc_view c1)). set (k := if pci.c64 control then pci.msi_data_64 else pci.msi_data_32).
  assert (Hk : k = 8 \/ k = 12) by (unfold k; destruct (pci.c64 control); auto).
  assert (Ek : data_reg = off + k) by (unfold data_reg, k; by destruct (pci.c64 control)).
  destruct (rd_ok co (off + k) 2 c2 Hok2 Hco) as (c3 & E3 & Hok3 & V3); [apply A4'; lia |]. rewrite E3. cbn [mbind res_bind].
  set (d0 := cfg_rd co (off + k) 2 (acc_view c2)).
  set (addr := pci.set_destination_id dest _). set (data := pci.set_delivery_mode 0 _). set (ctl := pci.set_mme 0 _).
  destruct (wr_ok co (off + 4) 4 addr c3 Hok3 Hco) as (c4 & E4 & Hok4 & V4); [apply A4; lia |]. rewrite E4. cbn [mbind res_bind].
  destruct (wr_ok co (off + k) 4 data c4 Hok4 Hco) as (c5 & E5 & Hok5 & V5); [apply A4; lia |]. rewrite E5. cbn [mbind res_bind].
  destruct (wr_ok co (off + 2) 2 ctl c5 Hok5 Hco A2) as (c6 & E6 & Hok6 & V6). exists c6. split; [exact E6 |]. split; [done |]. cbv zeta.
  assert (Sd : storage_at (V := V) co (off + k) 4) by (destruct Hk as [-> | ->]; done).
  rewrite Ek, V6, (proj1 Sc), (proj2 Sa), (proj2 Sd), V5, (proj1 Sd), (proj2 Sa), V4, (proj1 Sa) by lia.
  change (2 ^ (8 * 4)) with (2 ^ 32). change (2 ^ (8 * 2)) with (2 ^ 16). rewrite !bits_mod_word by lia.
  unfold addr, data, ctl, pci.set_destination_id, pci.set_base_address, pci.set_delivery_mode, pci.set_vector, pci.set_mme, pci.set_msie.
  split_and!.
  - rewrite bits_set_other, bits_set_same by lia. done.
  - rewrite bits_set_same by lia. apply Z.mod_small. lia.
  - rewrite bits_set_other, bits_set_same by lia. apply Z.mod_small. lia.
  - rewrite bits_set_same by lia. done.
  - rewrite bits_set_other, bits_set_same by lia. done.
  - rewrite bits_set_same by lia. done.
  - intros Hc64. assert (Ek12 : k = 12) by (unfold k; by rewrite Hc64). rewrite !(proj2 Sl) by lia. by rewrite V3, V2, V1.
Qed.

(** ** A machine, for examples *)

(** A host bridge, a bridge to bus 1 and a network card behind it.  Its registers
    are memory but for the windows; functions that do not exist read as ones. *)
Module example.
Definition host : coord := mk_coord 0 0 0 0.
Definition bridge : coord := mk_coord 0 0 1 0.
Definition card : coord := mk_coord 0 1 0 0.

Definition space := coord -> Z -> Z.

(** The bits of a register that can be written, and the others. *)
Definition mask (co : coord) (reg : Z) : Z :=
  if bool_decide (co ∈ [host; bridge; card]) then
    if bool_decide (co = bridge /\ reg = 0x18) then 0xFFFFFFFF
    else if bool_decide (co = card /\ reg = 0x10) then 2 ^ 32 - 2 ^ 17
    else if bool_decide (0x10 <= reg < 0x28) then 0 else 0xFFFFFFFF
  else 0.
Definition ro (co : coord) (reg : Z) : Z := if bool_decide (co ∈ [host; bridge; card]) then 0 else 0xFFFFFFFF.

Definition reg_of (off : Z) : Z := off - off mod 4.
Definition reg_value (co : coord) (reg : Z) (v : space) : Z := Z.lor (Z.land (v co reg) (mask co reg)) (ro co reg).

#[global] Program Instance space_hw : ConfigHw space :=
  {| cfg_rd co off size v := bits (8 * (off mod 4)) (8 * size) (reg_value co (reg_of off) v);
     cfg_wr co off size x v := fun co' reg' =>
       if decide (co' = co /\ reg' = reg_of off) then set_bits (8 * (off mod 4)) (8 * size) x (v co' reg') else v co' reg' |}.
Next Obligation. intros. apply bits_range. lia. Qed.

(** The machine with its ports. *)
Record ports := mk_ports { latch : Z; config_space : space }.

Definition selected (p : ports) : coord := mk_coord 0 (bits 16 8 (latch p)) (bits 11 5 (latch p)) (bits 8 3 (latch p)).

#[global] Instance ports_hw : legacy.PortHw ports :=
  {| legacy.port_in port size p := cfg_rd (selected p) (4 * bits 2 6 (latch p) + (port - legacy.config_data)) size (config_space p);
     legacy.port_out port size x p :=
       if port =? legacy.config_addr then mk_ports x (config_space p)
       else mk_ports (latch p) (cfg_wr (selected p) (4 * bits 2 6 (latch p) + (port - legacy.config_data)) size x (config_space p)) |}.

#[global] Instance ports_laws : PortHwLaws ports space.
Proof.
  refine {| port_view := config_space |}.
  - intros a p. done.
  - intros a k size p _ Hk Hs1 Hs. cbn. by replace (legacy.config_data + k - legacy.config_data) with k by lia.
  - intros a k size x p _ Hk Hs1 Hs. cbn [legacy.port_out ports_hw].
    rewrite (proj2 (Z.eqb_neq (legacy.config_data + k) legacy.config_addr)) by (unfold legacy.config_data, legacy.config_addr; lia).
    cbn. by replace (legacy.config_data + k - legacy.config_data) with k by lia.
Defined.

Definition start : space := fun co reg =>
  if decide (co = host) then (if reg =? 0 then 0x12378086 else if reg =? 8 then 0x06000000 else 0)
  else if decide (co = bridge) then
    (if reg =? 0 then 0x12388086 else if reg =? 8 then 0x06040000 else if reg =? 0xC then 0x00010000 else if reg =? 0x18 then 0x00010100 else 0)
  else
    (if reg =? 0 then 0x100E8086 else if reg =? 4 then 0x00100000 else if reg =? 8 then 0x02000000 else if reg =? 0x10 then 0xFEB80000
     else if reg =? 0x34 then 0x40 else if reg =? 0x40 then 0x00800005 else 0).

Lemma mask_range co reg : 0 <= mask co reg < 2 ^ 32.
Proof. unfold mask. repeat case_bool_decide; lia. Qed.

Lemma ro_range co reg : 0 <= ro co reg < 2 ^ 32.
Proof. unfold ro. case_bool_decide; lia. Qed.

Lemma reg_value_range co reg v : 0 <= reg_value co reg v < 2 ^ 32.
Proof. apply word_lor; [rewrite Z.land_comm; apply word_land; [apply mask_range | lia] | apply ro_range | lia]. Qed.

Lemma bits_all x : 0 <= x < 2 ^ 32 -> bits 0 32 x = x.
Proof. intros Hx. rewrite bits_mod by lia. rewrite Z.pow_0_r, Z.div_1_r. by apply Z.mod_small. Qed.

Lemma land_set_all x y m : 0 <= m < 2 ^ 32 -> Z.land (set_bits 0 32 x y) m = Z.land x m.
Proof.
  intros Hm. apply Z.bits_inj'. intros i Hi. rewrite !Z.land_spec, testbit_set_bits by lia. case_decide as Hd; [f_equal; f_equal; lia |].
  rewrite (testbit_small m 32) by lia. by rewrite !andb_false_r.
Qed.

(** Every register can be probed. *)
Lemma sized co off : off mod 4 = 0 -> sized_register co off (mask co off) (ro co off).
Proof.
  intros Hal. assert (Ereg : reg_of off = off) by (unfold reg_of; lia).
  assert (Ew : forall x (v : space), reg_value co off (cfg_wr co off 4 x v) = Z.lor (Z.land x (mask co off)) (ro co off)).
  { intros x v. unfold reg_value. cbn. rewrite Ereg, Hal, decide_True, land_set_all by (done || apply mask_range). done. }
  split.
  - intros x v. unfold cfg_rd at 1. cbn [space_hw]. rewrite Ereg, Hal, Ew. apply bits_all. rewrite <- (Ew x v). apply reg_value_range.
  - intros x y v Hy co' off' size. cbn [cfg_rd space_hw] in Hy |- *. f_equal. rewrite Ereg, Hal, Z.mul_0_r, bits_all in Hy by apply reg_value_range.
    destruct (decide (co' = co /\ reg_of off' = off)) as [[-> ->] | Hne]; [by rewrite Ew |].
    unfold reg_value. cbn. rewrite Ereg. by rewrite !(decide_False (P := co' = co /\ _)) by done.
Qed.

(** Registers without read-only bits are storage. *)
Lemma plain co off size :
  0 <= off -> 1 <= size -> off mod 4 + size <= 4 -> mask co (reg_of off) = 0xFFFFFFFF -> ro co (reg_of off) = 0 -> storage_at co off size.
Proof.
  intros Ho Hs Hsz Hm Hr. assert (Hb := Z.mod_pos_bound off 4 ltac:(lia)).
  assert (Ev : forall v, bits (8 * (off mod 4)) (8 * size) (reg_value co (reg_of off) v) = bits (8 * (off mod 4)) (8 * size) (v co (reg_of off))).
  { intros v. unfold reg_value. rewrite Hm, Hr, Z.lor_0_r. change 0xFFFFFFFF with (Z.ones 32). rewrite Z.land_ones by lia.
    apply bits_mod_word; lia. }
  split.
  - intros x v. cbn. rewrite Ev, decide_True by done. apply bits_set_same; lia.
  - intros off' size' x v Hs' Hd. cbn. rewrite !Ev. destruct (decide (co = co /\ reg_of off = reg_of off')) as [[_ E] | Hne]; [| done].
    assert (0 <= off' mod 4 < 4) by (apply Z.mod_pos_bound; lia). unfold reg_of in E. apply bits_set_other; lia.
Qed.

(** The bus that the enumeration walks over. *)
Definition restored (co : coord) (off : Z) : bool :=
  let bar := cfg_rd co off 4 start in
  Z.lor (Z.land (if bitops.bit_test 32 bar 0 then bar else pci.written_back bar) (mask co off)) (ro co off) =? bar.

Lemma sizable_here co (k : nat) :
  Forall (fun n => restored co (0x10 + n * 4) = true) (seqZ 0 (Z.of_nat k)) -> forall n, 0 <= n < Z.of_nat k -> sizable start co (0x10 + n * 4).
Proof.
  intros H n Hn. rewrite Forall_forall in H. exists (mask co (0x10 + n * 4)), (ro co (0x10 + n * 4)). split.
  - apply sized. Z.to_euclidean_division_equations. lia.
  - apply Z.eqb_eq, H, elem_of_seqZ. lia.
Qed.

Lemma present_here co : present start co = true -> co ∈ [host; bridge; card].
Proof.
  intros H. destruct (decide (co ∈ [host; bridge; card])) as [| Hne]; [done |]. exfalso. unfold present in H. cbn in H.
  unfold reg_value, mask, ro in H. rewrite !bool_decide_false in H by done. by rewrite Z.land_0_r in H.
Qed.

Lemma topology : topology_ok start 0 8.
Proof.
  intros bus slot f Hb Hs Hf Hfn. unfold func_on in Hfn. rewrite !andb_true_iff in Hfn. destruct Hfn as [[_ Hp] _]. apply present_here in Hp.
  rewrite !elem_of_cons, elem_of_nil in Hp. destruct Hp as [[= -> -> ->] | [[= -> -> ->] | [[= -> -> ->] | []]]]; split_and!.
  - apply sizable_here. by_compute.
  - exists 0%nat. split; [constructor | lia].
  - done.
  - apply sizable_here. by_compute.
  - exists 0%nat. split; [constructor | lia].
  - done.
  - apply sizable_here. by_compute.
  - exists 1%nat. split; [| lia]. apply chain_next; [done | done | constructor].
  - done.
Qed.
End example.

(** ** Theorems *)

(** Probing the windows of a device.  For every kind of window that a function
    can decode, [read_bar] returns its kind, its base and its size and leaves the
    configuration space as it was.  The size of a window of 4 GiB or more is lost,
    and the flag for prefetchable windows is never set: the code sets it in the
    register value instead. *)
Theorem read_bar_sizes {C V} `{OK : PciAccessOk C V} (co : coord) (number : Z) (w : window) (c : C) :
  0 <= number <= 5 -> reachable_coord co -> acc_ok c -> window_at co (0x10 + number * 4) w (acc_view c) ->
  exists c', pci.read_bar co number c = Ret (window_bar number w, c') /\ acc_ok c' /\ same_config (acc_view c') (acc_view c).
Proof.
  intros Hn Hco Hok Hw. destruct w as [k b p | k b p | k b |].
  - by apply read_bar_mem32.
  - by apply read_bar_mem64.
  - destruct Hw as (Hk & Hb & Hal & (w & Hw & Hreg) & Hrd). by apply (read_bar_io co number k w b c).
  - by apply read_bar_unused.
Qed.

Lemma read_bar_sizes_witness :
  exists c', pci.read_bar example.card 0 (example.mk_ports 0 example.start) = Ret (pci.mk_bar pci.bar_type_mem 0 0 0xFEB80000 0x20000, c').
Proof.
  destruct (read_bar_sizes (C := example.ports) (V := example.space) example.card 0 (Mem32 17 0xFEB80000 false) (example.mk_ports 0 example.start))
    as (c' & E & _).
  - lia.
  - split; [reflexivity | cbn; lia].
  - exact I.
  - split_and!; [lia | lia | lia | lia | reflexivity | exact (example.sized example.card 0x10 eq_refl) | reflexivity].
  - exists c'. exact E.
Defined.

(** C9: Enumeration of the bus.  When every bridge leads to a higher bus, the
    capability lists end and the probed registers can be restored, the recursion
    of [enumerate_bus] ends and leaves the configuration space as it was.  The
    devices it adds are exactly the functions on the bus and behind its bridges;
    each has the identification that the hardware reports, the bridge in front of
    its bus as parent, and an entry in the device list under the name of its
    class. *)
Theorem pci_enumerates {C V} `{OK : PciAccessOk C V} (v : V) (seg bus : Z) (cap_fuel : nat) (s : pci.machine C) :
  acc_reach seg -> 0 <= bus < 256 -> topology_ok v seg cap_fuel -> acc_ok (pci.config s) -> same_config (acc_view (pci.config s)) v ->
  pci.pci_devices s = [] -> pci.device_list s = [] ->
  exists s', pci.enumerate_bus 256 cap_fuel seg bus None s = Ret s' /\ same_config (acc_view (pci.config s')) v /\
    (forall co, (exists i d, pci.pci_devices s' !! i = Some d /\ pci.exists_ d = true /\ pci.coords d = co) <-> on_bus v seg bus co) /\
    (forall i d, pci.pci_devices s' !! i = Some d -> pci.exists_ d = true ->
       pci.vendor_id d = u16 (cfg_rd (pci.coords d) 0 2 v) /\ pci.class_code d = Z.land (cfg_rd (pci.coords d) 11 1 v) 0xFF /\
       pci.is_bridge d = bridge_at v (pci.coords d) /\
       (forall p, pci.parent d = Some p -> exists b, pci.pci_devices s' !! p = Some b /\ pci.exists_ b = true /\
          bridge_at v (pci.coords b) = true /\ secondary v (pci.coords b) = c_bus (pci.coords d)) /\
       pci.mk_gdevice (pci.class_str (pci.class_code d) (pci.subclass_code d) (pci.prog_if d)) true i 0 ∈ pci.device_list s').
Proof.
  intros Hseg Hb Htop Hok Hs Hl Hg.
  destruct (enumerate_bus_ok v seg cap_fuel Hseg Htop 256 bus None s) as (s' & E & [_ Hs'] & _ & _ & Hf & Hgood); [lia | lia | done | done |].
  rewrite Hl in Hf, Hgood. exists s'. split_and!; [done | done | |].
  - intros co. rewrite <- Hf. split; intros (i & d & H); [exists i, d; split; [cbn; lia | done] | exists i, d; by destruct H].
  - intros i d Hd Hex. destruct (Hgood i d) as ((M1 & M2 & M3 & M4 & M5) & Hp & Hin); [cbn; lia | done | done |].
    split_and!; try done. intros p Ep. by rewrite Ep in Hp.
Qed.

Lemma pci_enumerates_witness :
  exists s' i d, pci.enumerate_bus 256 8 0 0 None (pci.mk_machine [] [] (example.mk_ports 0 example.start)) = Ret s' /\
    pci.pci_devices s' !! i = Some d /\ pci.exists_ d = true /\ pci.coords d = example.card.
Proof.
  destruct (pci_enumerates (C := example.ports) (V := example.space) example.start 0 0 8 (pci.mk_machine [] [] (example.mk_ports 0 example.start)))
    as (s' & E & _ & H & _).
  - reflexivity.
  - lia.
  - exact example.topology.
  - exact I.
  - reflexivity.
  - reflexivity.
  - reflexivity.
  - exists s'. destruct (proj2 (H example.card)) as (i & d & Hd).
    + apply (on_behind _ _ 0 1 0); [lia | lia | reflexivity | reflexivity |]. apply (on_here _ _ 1 0 0); [lia | lia | reflexivity].
    + exists i, d. split; [exact E | exact Hd].
Defined.

(** The third register of a bridge.  A bridge has two windows, but the code
    probes three: the third register holds its bus numbers.  When bit 3 of the
    primary bus number is set and bit 0 is not, the probe leaves the bridge with
    another primary bus number. *)
Theorem bridge_bus_numbers_change {C V} `{OK : PciAccessOk C V} (co : coord) (primary rest : Z) (c : C) :
  reachable_coord co -> acc_ok c -> sized_register (V := V) co 0x18 0xFFFFFFFF 0 ->
  0 <= primary < 256 -> 0 <= rest < 2 ^ 24 -> cfg_rd co 0x18 4 (acc_view c) = primary + 256 * rest ->
  Z.testbit primary 3 = true -> Z.testbit primary 0 = false ->
  exists b c', pci.read_bar co 2 c = Ret (b, c') /\ cfg_rd co 0x18 4 (acc_view c') = primary + 1 + 256 * rest.
Proof.
  intros Hco Hok [R1 R2] Hp Hr Hrd H3 H0. unfold pci.read_bar. change (5 <? 2) with false. change (0x10 + 2 * 4) with 0x18. cbv iota.
  assert (Ha : aligned_access 0x18 4) by (apply aligned_word; done). set (bar := primary + 256 * rest) in *.
  assert (Hlow : forall i, 0 <= i < 8 -> Z.testbit bar i = Z.testbit primary i).
  { intros i Hi. unfold bar. rewrite Z.add_comm. apply (testbit_low _ _ 8); [lia |]. change (2 ^ 8) with 256. rewrite Z.mul_comm. by apply Z.mod_mul. }
  assert (Ee : bar mod 2 ^ 1 = 0) by (rewrite Z.pow_1_r, Zmod_odd, <- Z.bit0_odd, Hlow, H0 by lia; done).
  assert (Hbar : 0 <= bar /\ bar + 1 < 2 ^ 32).
  { assert (bar < 2 ^ 32) by (unfold bar; lia). split; [unfold bar; lia |]. rewrite Z.pow_1_r in Ee. Z.to_euclidean_division_equations. lia. }
  destruct (rd_ok co 0x18 4 c Hok Hco Ha) as (c0 & E0 & Hok0 & Hv0). rewrite Hrd in E0. rewrite E0. cbn [mbind res_bind].
  rewrite bit_test_bar, Hlow, H0 by lia.
  destruct (mem_base_ok co 0x18 bar c0 Hok0 Hco) as (b & c' & Eb & Hok' & Hv'); [by apply aligned_word |]. rewrite Eb. cbn [mbind res_bind].
  destruct (wr_ok co 0x18 4 0xFFFFFFFF c' Hok' Hco Ha) as (c1 & E1 & Hok1 & V1). rewrite E1. cbn [mbind res_bind].
  destruct (rd_ok co 0x18 4 c1 Hok1 Hco Ha) as (c2 & E2 & Hok2 & V2). rewrite E2. cbn [mbind res_bind].
  assert (Ew : pci.written_back bar = bar + 1).
  { unfold pci.written_back. rewrite bit_test_bar, Hlow, H3 by lia. unfold bitops.bit_set. cbn [fst].
    change (bit64 pci.bar_flags_prefetchable) with 1. by rewrite (lor_aligned _ _ 1), Z.mod_small by (done || lia). }
  rewrite Ew. destruct (wr_ok co 0x18 4 (bar + 1) c2 Hok2 Hco Ha) as (c3 & E3 & Hok3 & V3). rewrite E3. cbn [mbind res_bind].
  eexists _, c3. split; [reflexivity |]. rewrite V3, R1, Z.lor_0_r. change 0xFFFFFFFF with (Z.ones 32). rewrite Z.land_ones, Z.mod_small by lia. unfold bar. lia.
Qed.

(** The bridge of the example with primary bus number 8. *)
Definition bridge_example : example.space := fun co reg => if decide (co = example.bridge /\ reg = 0x18) then 0x00090908 else example.start co reg.

Lemma bridge_bus_numbers_change_witness :
  exists b c', pci.read_bar example.bridge 2 (example.mk_ports 0 bridge_example) = Ret (b, c') /\
    cfg_rd example.bridge 0x18 4 (example.config_space c') = 0x00090909.
Proof.
  destruct (bridge_bus_numbers_change (C := example.ports) (V := example.space) example.bridge 8 0x000909 (example.mk_ports 0 bridge_example))
    as (b & c' & E & H).
  - split; [reflexivity | cbn; lia].
  - exact I.
  - exact (example.sized example.bridge 0x18 eq_refl).
  - lia.
  - lia.
  - reflexivity.
  - reflexivity.
  - reflexivity.
  - exists b, c'. split; [exact E | exact H].
Defined.

(** The interrupt pins of a device on a root bus whose number is not its segment:
    [parse_pci] stores the two in each other's place, the root bus is not found,
    and the routing stops the kernel. *)
Lemma root_bus_swapped {C} `{PA : PciAccess C} (r : pci.root_bridge) (d : pci.device) :
  0 <= pci.bbn r < 256 -> 0 <= pci.root_seg r < 256 -> pci.bbn r <> pci.root_seg r -> pci.parent d = None ->
  c_seg (pci.coords d) = pci.root_seg r -> c_bus (pci.coords d) = pci.bbn r ->
  forall pin, pci.climb 1 0 pin [pci.root_device r] [d] = Panic "Couldn't find root node for device on it".
Proof.
  intros Hb Hs Hne Hp Es Eb pin. unfold pci.climb, pci.pci_get_root_bus. cbn [lookup list_lookup access mbind res_bind]. rewrite Hp.
  rewrite filter_cons_False; [done |]. unfold pci.root_device. cbn. rewrite Es, Eb. intros [E1 E2]. revert E1 E2. wrap_lia.
Qed.
