(* ===== verification/Device.v ===== *)
(** * Device: the devices that drivers see

    Models source/generic/device.cpp with include/Sigma/generic/device.h: the list
    of devices, their resources and the call [devctl] of drivers.  The list and the
    PCI devices behind it are those of Pci.v.  The event of an interrupt handle is
    named by the address of the handle.  The lock makes each call atomic; the call
    that waits for an interrupt gives it back and leaves for the scheduler. *)

From S2P Require Import Prelude Bits Klibc Containers Fields Descriptors Ipc Pci.

Module device.
(** [resource_region]. *)
Definition typeMmio : Z := 0.
Definition typeIo : Z := 1.
Definition originPciBar : Z := 0.

Record resource_region := mk_region { region_type : Z; origin : Z; base : Z; len : Z }.

Definition devctl_cmd_nop : Z := 0.
Definition devctl_cmd_claim : Z := 1.
Definition devctl_cmd_find_pci : Z := 2.
Definition devctl_cmd_find_pci_class : Z := 3.
Definition devctl_cmd_get_resource_region : Z := 4.
Definition devctl_cmd_enable_irq : Z := 5.
Definition devctl_cmd_wait_on_irq : Z := 6.
Definition devctl_cmd_read_pci : Z := 7.
Definition devctl_cmd_write_pci : Z := 8.

(** [operator[]] of the device list. *)
Definition at_index (i : Z) (l : list pci.gdevice) : res pci.gdevice :=
  match l !! Z.to_nat i with Some d => mret d | None => Panic "Tried to access vector out of bounds" end.

(** The PCI device behind an entry, reached through [pci_contact.device], which is
    null for an entry that is not on the bus. *)
Definition pci_of (g : pci.gdevice) (l : list pci.device) : res pci.device :=
  if pci.contact_pci g then access (l !! pci.pci_device g) else Undef.

(** The two searches; the result is the position, or all ones. *)
Definition is_at (co : coord) (l : list pci.device) (g : pci.gdevice) : bool :=
  pci.contact_pci g && match l !! pci.pci_device g with Some d => bool_decide (pci.coords d = co) | None => false end.

Fixpoint find_pci_node (pos : Z) (co : coord) (gl : list pci.gdevice) (l : list pci.device) : Z :=
  match gl with [] => u64_max | g :: gl => if is_at co l g then pos else find_pci_node (pos + 1) co gl l end.

Definition is_class (class sub prog : Z) (l : list pci.device) (g : pci.gdevice) : bool :=
  pci.contact_pci g &&
  match l !! pci.pci_device g with
  | Some d => (pci.class_code d =? class) && (pci.subclass_code d =? sub) && (pci.prog_if d =? prog)
  | None => false
  end.

Fixpoint find_pci_class_node (pos class sub prog index i : Z) (gl : list pci.gdevice) (l : list pci.device) : Z :=
  match gl with
  | [] => u64_max
  | g :: gl =>
      if is_class class sub prog l g then
        if i =? index then pos else find_pci_class_node (pos + 1) class sub prog index (u64 (i + 1)) gl l
      else find_pci_class_node (pos + 1) class sub prog index i gl l
  end.

(** [get_resource_region]: [None] leaves the caller's structure as it is. *)
Definition get_resource_region (dev org index : Z) (gl : list pci.gdevice) (l : list pci.device) : res (bool * option resource_region) :=
  if Z.of_nat (length gl) <=? dev then mret (false, None)
  else
    g ← at_index dev gl;
    if org =? originPciBar then
      _ ← ASSERT (index <=? 6) "index <= 6";
      _ ← ASSERT (pci.contact_pci g) "device.contact.pci";
      d ← pci_of g l;
      b ← access (pci.bars d !! Z.to_nat index);
      mret (true, Some (mk_region (pci.bar_type b) originPciBar (pci.base b) (pci.len b)))
    else mret (true, None).

(** The structure in the caller's memory; the bytes between the fields are kept. *)
Definition write_region (ptr : Z) (r : resource_region) (m : bmem) : bmem :=
  let m := ipc.write_bytes ptr [u8 (region_type r)] m in
  ipc.write_bytes (ptr + 8) (le_bytes 8 (origin r) ++ le_bytes 8 (base r) ++ le_bytes 8 (len r)) m.

Section devctl.
Context {C : Type} `{PA : PciAccess C}.

Record state := mk {
  device_list : list pci.gdevice; pci_devices : list pci.device; handlers : list idt.handler;
  config : C; objs : gmap Z handles.handle; mem : bmem }.

Definition set_list (l : list pci.gdevice) (s : state) : state := mk l (pci_devices s) (handlers s) (config s) (objs s) (mem s).
Definition set_config (c : C) (s : state) : state := mk (device_list s) (pci_devices s) (handlers s) c (objs s) (mem s).

(** A call returns a value, or blocks on the event of a handle. *)
Inductive outcome := Done (v : Z) (cat : handles.handle_catalogue) (s : state) | Wait (h : handles.handle) (s : state).

(** [irq_callback] is the address of the interrupt callback, [new_irq] where
    operator new puts the handle. *)
Context (tid boot_flags irq_callback new_irq : Z).

Definition claim (dev : Z) (s : state) : res (Z * state) :=
  d ← at_index dev (device_list s);
  if pci.driver d =? 0 then
    mret (0, set_list (<[Z.to_nat dev := pci.mk_gdevice (pci.name d) (pci.contact_pci d) (pci.pci_device d) tid]> (device_list s)) s)
  else mret (1, s).

Definition enable_irq (dev : Z) (cat : handles.handle_catalogue) (s : state) : res (Z * handles.handle_catalogue * state) :=
  g ← at_index dev (device_list s);
  _ ← ASSERT (pci.contact_pci g) "device.contact.pci";
  vec ← idt.get_free_vector (handlers s);
  d ← pci_of g (pci_devices s);
  c ← pci.install_msi boot_flags d 0 vec (config s);
  let o := <[new_irq := handles.irq_handle vec event.create]> (objs s) in
  hs ← idt.register_interrupt_handler (idt.mk_handler vec irq_callback new_irq true false) (handlers s);
  '(id, cat) ← handles.push new_irq cat;
  mret (id, cat, mk (device_list s) (pci_devices s) hs c o (mem s)).

Definition devctl (cmd arg1 arg2 arg3 arg4 : Z) (cat : handles.handle_catalogue) (s : state) : res outcome :=
  if cmd =? devctl_cmd_nop then mret (Done u64_max cat s)
  else if cmd =? devctl_cmd_claim then '(r, s) ← claim arg1 s; mret (Done r cat s)
  else if cmd =? devctl_cmd_find_pci then
    mret (Done (find_pci_node 0 (mk_coord (u16 arg1) (u8 arg2) (u8 arg3) (u8 arg4)) (device_list s) (pci_devices s)) cat s)
  else if cmd =? devctl_cmd_find_pci_class then
    mret (Done (find_pci_class_node 0 (u8 arg1) (u8 arg2) (u8 arg3) arg4 0 (device_list s) (pci_devices s)) cat s)
  else if cmd =? devctl_cmd_get_resource_region then
    '(ok, r) ← get_resource_region arg1 arg2 (u8 arg3) (device_list s) (pci_devices s);
    let m := match r with Some r => write_region arg4 r (mem s) | None => mem s end in
    mret (Done (if ok : bool then 1 else 0) cat (mk (device_list s) (pci_devices s) (handlers s) (config s) (objs s) m))
  else if cmd =? devctl_cmd_enable_irq then '(r, cat, s) ← enable_irq arg1 cat s; mret (Done r cat s)
  else if cmd =? devctl_cmd_wait_on_irq then
    h ← handles.get (objs s) handles.irq arg1 cat;
    match h with Some h => mret (Wait h s) | None => Undef end
  else if cmd =? devctl_cmd_read_pci then
    g ← at_index arg1 (device_list s);
    d ← pci_of g (pci_devices s);
    '(v, c) ← internal_read (pci.coords d) (u16 arg2) (u8 arg3) (config s);
    mret (Done v cat (set_config c s))
  else if cmd =? devctl_cmd_write_pci then
    g ← at_index arg1 (device_list s);
    d ← pci_of g (pci_devices s);
    c ← internal_write (pci.coords d) (u16 arg2) (u8 arg3) (u32 arg4) (config s);
    mret (Done u64_max cat (set_config c s))
  else mret (Done u64_max cat s).

(** The interrupt callback: it triggers the event of the handle. *)
Definition trigger_irq (userptr : Z) (o : gmap Z handles.handle) : res (gmap Z handles.handle) :=
  h ← access (o !! userptr);
  match h with
  | handles.irq_handle vector ev => mret (<[userptr := handles.irq_handle vector (event.trigger ev)]> o)
  | _ => Undef
  end.
End devctl.
Arguments state C : clear implicits.
End device.

(** ** Theorems *)

Section device_lemmas.
Import device.

Lemma at_index_Some i l g : l !! Z.to_nat i = Some g -> at_index i l = Ret g.
Proof. intros H. unfold at_index. by rewrite H. Qed.

(** The driver of a device. *)
Definition driver_of (l : list pci.gdevice) (i : nat) : option Z := pci.driver <$> l !! i.

Definition state_of {C} (o : outcome (C := C)) : state C := match o with Done _ _ s => s | Wait _ s => s end.

Lemma claim_driver {C} (tid dev r : Z) (s s' : state C) :
  claim tid dev s = Ret (r, s') ->
  (r = 0 /\ driver_of (device_list s) (Z.to_nat dev) = Some 0 /\
   forall i, driver_of (device_list s') i = if decide (i = Z.to_nat dev) then Some tid else driver_of (device_list s) i) \/
  (r = 1 /\ s' = s /\ exists t, driver_of (device_list s) (Z.to_nat dev) = Some t /\ t <> 0).
Proof.
  unfold claim, at_index. destruct (device_list s !! Z.to_nat dev) as [d |] eqn:Ed; [| done]. cbn [mbind res_bind mret res_ret].
  destruct (Z.eqb_spec (pci.driver d) 0) as [E | E]; cbv [mret res_ret]; intros [= <- <-]; [left | right].
  - split_and!; [done | unfold driver_of; rewrite Ed; cbn; by f_equal |]. intros i. unfold driver_of. cbn.
    destruct (decide (i = Z.to_nat dev)) as [-> | Hne].
    + by rewrite list_lookup_insert_eq by (by eapply lookup_lt_Some).
    + by rewrite list_lookup_insert_ne by done.
  - split_and!; [done | done |]. exists (pci.driver d). unfold driver_of. by rewrite Ed.
Qed.
End device_lemmas.

(** Drivers own their devices.  Whatever command a thread gives, the driver of
    a device changes only from nobody to the thread that claims it: the claim
    succeeds exactly when the device is free, and a claimed device keeps its
    driver. *)
Theorem driver_exclusive {C} `{PA : PciAccess C} (tid boot_flags cb new cmd a1 a2 a3 a4 : Z) (cat : handles.handle_catalogue)
    (s : device.state C) (o : device.outcome) :
  tid <> 0 -> device.devctl tid boot_flags cb new cmd a1 a2 a3 a4 cat s = Ret o ->
  (forall i t, driver_of (device.device_list s) i = Some t -> t <> 0 -> driver_of (device.device_list (state_of o)) i = Some t) /\
  (forall i t, driver_of (device.device_list (state_of o)) i = Some t -> driver_of (device.device_list s) i <> Some t ->
     cmd = device.devctl_cmd_claim /\ i = Z.to_nat a1 /\ t = tid /\ driver_of (device.device_list s) i = Some 0) /\
  (cmd = device.devctl_cmd_claim -> exists r, o = device.Done r cat (state_of o) /\
     (r = 0 <-> driver_of (device.device_list s) (Z.to_nat a1) = Some 0)).
Proof.
  intros Ht H. destruct (Z.eq_dec cmd device.devctl_cmd_claim) as [-> | Hcmd].
  - unfold device.devctl in H. cbn [Z.eqb device.devctl_cmd_nop device.devctl_cmd_claim Pos.eqb] in H. inv_res. cbn [state_of].
    destruct (claim_driver _ _ _ _ _ E) as [(-> & H0 & Hd) | (-> & -> & t & Ht0 & Hne)].
    + split_and!.
      * intros i t Hi Hne. rewrite Hd. destruct (decide _) as [-> | _]; [congruence | done].
      * intros i t Hi Hne. rewrite Hd in Hi. destruct (decide _) as [-> | _]; [| congruence]. injection Hi as <-. done.
      * intros _. exists 0. done.
    + split_and!; [done | by intros i t' Hi Hne' | intros _; exists 1; split; [done |]; split; [done | congruence]].
  - assert (El : device.device_list (state_of o) = device.device_list s).
    { unfold device.devctl in H. rewrite (proj2 (Z.eqb_neq cmd device.devctl_cmd_claim) Hcmd) in H. unfold device.enable_irq in H.
      repeat (destruct (cmd =? _) in H); inv_res; try done; repeat (case_match; inv_res; try done). }
    rewrite El. split_and!; [done | done | done].
Qed.

Definition card_example : pci.device :=
  pci.mk_device true false example.card 0x8086 0 2 0 0 None 0 None (pci.mk_cap true 0x40) pci.no_cap pci.no_agp false 0 [].

Definition devices_example : device.state example.ports :=
  device.mk [pci.mk_gdevice "Ethernet Controller" true 0 0]
    [card_example]
    (replicate idt.idt_max_entries idt.no_handler) (example.mk_ports 0 example.start) ∅ (fun _ => 0).

Lemma driver_exclusive_witness :
  exists o, device.devctl 7 0 0x5000 0x6000 1 0 0 0 0 handles.create devices_example = Ret o /\
    driver_of (device.device_list devices_example) 0 = Some 0 /\
    (forall i t, driver_of (device.device_list (state_of o)) i = Some t -> driver_of (device.device_list devices_example) i <> Some t -> t = 7).
Proof.
  eexists. split; [reflexivity |]. split; [reflexivity |]. intros i t Hi Hne.
  edestruct (driver_exclusive (C := example.ports) 7 0 0x5000 0x6000 1 0 0 0 0 handles.create devices_example) as (_ & H & _);
    [discriminate | reflexivity |].
  destruct (H i t Hi Hne) as (_ & _ & -> & _). reflexivity.
Defined.

(** C13: An interrupt from a device to its driver.  When a driver enables the
    interrupt of a device with message signaled interrupts, it gets a handle; the
    device is programmed with a vector that no handler had; that interrupt runs
    the callback on the handle and ends with the end-of-interrupt message; and the
    callback triggers the event of the handle, on which the driver can wait. *)
Theorem irq_delivery {C V} `{OK : PciAccessOk C V} (tid boot_flags cb new dev : Z) (cat : handles.handle_catalogue) (kvs : list (Z * Z))
    (g : pci.gdevice) (d : pci.device) (s : device.state C) :
  let co := pci.coords d in
  let off := pci.space_offset (pci.msi d) in
  let control := cfg_rd co (off + 2) 2 (acc_view (device.config s)) in
  device.device_list s !! Z.to_nat dev = Some g -> pci.contact_pci g = true -> device.pci_devices s !! pci.pci_device g = Some d ->
  length (device.handlers s) = idt.idt_max_entries -> (exists k h, (1 <= k <= 246)%nat /\ device.handlers s !! k = Some h /\ idt.callback h = 0) ->
  catalogue_ok cat kvs -> handles.id_gen cat + 1 < 2 ^ 64 -> cb <> 0 -> new <> 0 ->
  reachable_coord co -> acc_ok (device.config s) -> pci.supported (pci.msi d) = true -> 0 < off -> off + 0x10 <= 256 -> off mod 4 = 0 ->
  Z.testbit boot_flags 3 = false -> 0 <= control < 2 ^ 16 -> pci.mmc control < 5 ->
  storage_at (V := V) co (off + 2) 2 -> storage_at (V := V) co (off + 4) 4 -> storage_at (V := V) co (off + 8) 4 -> storage_at (V := V) co (off + 0xC) 4 ->
  exists vec id cat' s', device.devctl tid boot_flags cb new device.devctl_cmd_enable_irq dev 0 0 0 cat s = Ret (device.Done id cat' s') /\
    (exists h, 1 <= vec <= 246 /\ device.handlers s !! Z.to_nat vec = Some h /\ idt.callback h = 0) /\
    bits 0 8 (cfg_rd co (if pci.c64 control then off + 0xC else off + 8) 4 (acc_view (device.config s'))) = vec /\
    bits 0 1 (cfg_rd co (off + 2) 2 (acc_view (device.config s'))) = 1 /\
    idt.sigma_isr_handler vec (device.handlers s') (device.handlers s') = Ret [idt.Call cb new; idt.Eoi] /\
    exists o, device.trigger_irq new (device.objs s') = Ret o /\
      handles.get o handles.irq id cat' = Ret (Some (handles.irq_handle vec 1)) /\ event.has_triggered 1 = (true, 0).
Proof.
  intros co off control Hg Hpci Hd Hlen (k & h & Hk & Hh & Hcb) Hcat Hid Hcb0 Hnew Hco Hok Hsup Ho1 Ho2 Hal Hbf Hctl Hmmc S1 S2 S3 S4.
  unfold device.devctl, device.enable_irq. cbn [Z.eqb Pos.eqb device.devctl_cmd_nop device.devctl_cmd_claim device.devctl_cmd_find_pci
    device.devctl_cmd_find_pci_class device.devctl_cmd_get_resource_region device.devctl_cmd_enable_irq].
  rewrite (at_index_Some _ _ _ Hg). cbn [mbind res_bind]. rewrite Hpci. cbn [ASSERT mbind res_bind]. unfold idt.get_free_vector.
  unfold idt.idt_max_entries in Hlen. destruct (free_vector_loop_ok 246 (device.handlers s)) as (vec & Ev & Hcase); [lia |].
  destruct Hcase as [(k' & h' & -> & Hk' & Hh' & Hcb' & _) | [-> Hgap]]; [| exfalso; by apply (Hgap k h Hk Hh)].
  rewrite Ev. cbn [mbind res_bind]. unfold device.pci_of. rewrite Hpci, Hd. cbn [access mbind res_bind].
  destruct (install_msi_ok boot_flags 0 (Z.of_nat k') d (device.config s)) as (c' & Ec & Hok' & _ & _ & B3 & _ & B5 & _); try done; try lia.
  rewrite Ec. cbn [mbind res_bind]. unfold idt.register_interrupt_handler. cbn [idt.vector]. rewrite Nat2Z.id, Hh'. cbn [access mbind res_bind].
  destruct (handle_push_ok cat kvs new Hcat Hid) as (cat' & Ep & Hcat'). rewrite Ep. cbn [mbind res_bind].
  exists (Z.of_nat k'), (handles.id_gen cat), cat'. eexists. split; [reflexivity |]. cbn [device.config device.handlers device.objs].
  split_and!; [exists h'; rewrite Nat2Z.id; split; [lia | done] | exact B3 | exact B5 | |].
  - unfold idt.sigma_isr_handler. replace (Z.land (Z.of_nat k') 0xFF) with (Z.of_nat k').
    2: { change 0xFF with (Z.ones 8). rewrite Z.land_ones by lia. symmetry. apply Z.mod_small. lia. }
    rewrite Nat2Z.id, list_lookup_insert_eq by lia. cbn [access mbind res_bind idt.callback].
    rewrite (proj2 (Z.eqb_neq cb 0) Hcb0), list_lookup_insert_eq by lia. done.
  - unfold device.trigger_irq. rewrite lookup_insert_eq. cbn [access mbind res_bind]. eexists. split; [reflexivity |]. split; [| done].
    assert (Hpos := c_range _ _ Hcat). rewrite (get_ok _ _ _ _ _ Hcat') by lia.
    assert (El : length kvs = Z.to_nat (handles.id_gen cat)) by (rewrite <- (length_fmap fst kvs), (c_ids _ _ Hcat), length_seqZ; done).
    rewrite lookup_app_r, El, Nat.sub_diag by lia. cbn. by rewrite (proj2 (Z.eqb_neq new 0) Hnew), lookup_insert_eq.
Qed.

Lemma irq_delivery_witness :
  exists vec id cat' s', device.devctl 7 0 0x5000 0x6000 device.devctl_cmd_enable_irq 0 0 0 0 handles.create devices_example = Ret (device.Done id cat' s') /\
    idt.sigma_isr_handler vec (device.handlers s') (device.handlers s') = Ret [idt.Call 0x5000 0x6000; idt.Eoi].
Proof.
  edestruct (irq_delivery (C := example.ports) (V := example.space) 7 0 0x5000 0x6000 0 handles.create [] (pci.mk_gdevice "Ethernet Controller" true 0 0)
    card_example devices_example) as (vec & id & cat' & s' & E & _ & _ & _ & H & _).
  - reflexivity.
  - reflexivity.
  - reflexivity.
  - reflexivity.
  - exists 246%nat, idt.no_handler. split; [lia | split; reflexivity].
  - apply create_catalogue_ok.
  - cbn; lia.
  - discriminate.
  - discriminate.
  - split; [reflexivity | cbn; lia].
  - exact I.
  - reflexivity.
  - reflexivity.
  - cbn; lia.
  - reflexivity.
  - reflexivity.
  - vm_compute. split; [discriminate | reflexivity].
  - reflexivity.
  - apply example.plain; (reflexivity || (cbn; lia)).
  - apply example.plain; (reflexivity || (cbn; lia)).
  - apply example.plain; (reflexivity || (cbn; lia)).
  - apply example.plain; (reflexivity || (cbn; lia)).
  - exists vec, id, cat', s'. split; [exact E | exact H].
Defined.

(** The bound on the number of a window is off by one: window 6 is behind the end
    of the array. *)
Lemma region_index_6 (dev : Z) (gl : list pci.gdevice) (l : list pci.device) (g : pci.gdevice) (d : pci.device) :
  0 <= dev -> gl !! Z.to_nat dev = Some g -> pci.contact_pci g = true -> l !! pci.pci_device g = Some d -> length (pci.bars d) = 6%nat ->
  device.get_resource_region dev device.originPciBar 6 gl l = Undef.
Proof.
  intros Hdev Hg Hp Hd Hlen. unfold device.get_resource_region. assert (Hlt := lookup_lt_Some _ _ _ Hg).
  rewrite (proj2 (Z.leb_gt (Z.of_nat (length gl)) dev)) by lia. rewrite (at_index_Some _ _ _ Hg). cbn [mbind res_bind].
  unfold device.pci_of. cbn. rewrite Hp. cbn. rewrite Hd. cbn. by rewrite lookup_ge_None_2 by (rewrite Hlen; done).
Qed.
