(* ===== verification/SlPaging.v ===== *)
(** * SlPaging: the second-level page tables of DMA remapping

    Models source/arch/x86_64/intel/sl_paging.cpp and sl_paging.hpp.  The tables
    live in the physical memory of Paging.v and their frames come from the
    allocator of Frames.v; every new table is entered into the direct mapping of
    the kernel first.

    The entries have their read bit and their address where the entries of the
    CPU's tables have the present bit and the frame, so that the walks of Paging.v
    describe what the hardware does with these tables too.  To the page tables of
    the kernel the frames of a second-level tree are data ([data_frame]): [sl_ok]
    types a tree on its own, apart from the kernel's tables. *)

From S2P Require Import Prelude Bits Fields Frames Pmm Paging.

Module sl_paging.
Definition mapSlPageRead : Z := 1.
Definition mapSlPageWrite : Z := 2.
Definition mapSlPageExecute : Z := 4.

(** [sl_pmle] and [sl_pml1e]: the fields that are used. *)
Definition entry_addr (e : Z) : Z := bits 12 40 e.
Definition set_addr (x e : Z) : Z := set_bits 12 40 x e.
Definition set_r (x e : Z) : Z := set_bits 0 1 x e.
Definition set_w (x e : Z) : Z := set_bits 1 1 x e.
Definition set_x (x e : Z) : Z := set_bits 2 1 x e.

(** [(flags & flag) ? 1 : 0]. *)
Definition flag_bit (flags flag : Z) : Z := if Z.land flags flag =? 0 then 0 else 1.

(** What [map] writes for a page, and for a new table. *)
Definition page_entry (pa flags old : Z) : Z :=
  set_addr (Z.shiftr pa 12)
    (set_x (flag_bit flags mapSlPageExecute) (set_w (flag_bit flags mapSlPageWrite) (set_r (flag_bit flags mapSlPageRead) old))).
Definition table_entry (phys old : Z) : Z := set_w 1 (set_r 1 (set_addr (Z.shiftr phys 12) old)).

(** The table an entry points to, in the direct mapping. *)
Definition entry_table (e : Z) : Z := to_virt (Z.shiftl (entry_addr e) 12).

Definition pml_index (shift iova : Z) : Z := Z.land (Z.shiftr iova shift) 0x1FF.

Record context := mk { level : Z; phys_root : Z }.

Section ops.
Context {S : Type} `{FA : FrameAllocator S} (kernel_info : Z).

Definition table_flags : Z := Z.lor (Z.lor map_page_flags_present map_page_flags_writable) map_page_flags_no_execute.

(** [create_table]: a new frame, mapped in the kernel and cleared. *)
Definition create_table (k : paging.kernel S) : res (Z * paging.kernel S) :=
  '(phys, fr) ← fa_alloc (paging.frames k);
  k ← paging.map_page kernel_info phys (to_virt phys) table_flags normal (paging.mk fr (paging.mem k));
  mret (phys, paging.mk (paging.frames k) (zero_frame (paging.mem k) (to_phys (to_virt phys)))).

Definition delete_table (phys : Z) (k : paging.kernel S) : res (paging.kernel S) := paging.free_frame phys k.

Definition create (level : Z) (k : paging.kernel S) : res (context * paging.kernel S) :=
  _ ← ASSERT ((level <=? 5) && (3 <=? level)) "level <= 5 && level >= 3";
  '(phys, k) ← create_table k;
  mret (mk level phys, k).

(** [clean_tables]: the tables below a table, and the table itself. *)
Fixpoint clean_tables (level : nat) (phys : Z) (k : paging.kernel S) : res (paging.kernel S) :=
  k ← for_loop 512 0 (fun i k =>
        let e := paging.load k (to_virt phys) i in
        if present e then
          let child := Z.shiftl (entry_addr e) 12 in
          match level with
          | Datatypes.S (Datatypes.S (Datatypes.S _) as below) => clean_tables below child k
          | _ => delete_table child k
          end
        else mret k) k;
  delete_table phys k.

Definition destroy (c : context) (k : paging.kernel S) : res (paging.kernel S) := clean_tables (Z.to_nat (level c)) (phys_root c) k.

(** The lambda of [map]: the table below the entry at [index]. *)
Definition get_level_or_create (previous index : Z) (k : paging.kernel S) : res (Z * paging.kernel S) :=
  if present (paging.load k previous index) then mret (entry_table (paging.load k previous index), k)
  else
    '(phys, k) ← create_table k;
    let k := paging.store k previous index (table_entry phys (paging.load k previous index)) in
    mret (entry_table (paging.load k previous index), k).

Definition map (c : context) (pa iova flags : Z) (k : paging.kernel S) : res (paging.kernel S) :=
  let current := to_virt (phys_root c) in
  '(current, k) ← (if 5 <=? level c then get_level_or_create current (pml_index 48 iova) k else mret (current, k));
  '(current, k) ← (if 4 <=? level c then get_level_or_create current (pml_index 39 iova) k else mret (current, k));
  '(current, k) ← get_level_or_create current (pml_index 30 iova) k;
  '(current, k) ← get_level_or_create current (pml_index 21 iova) k;
  let i := pml_index 12 iova in
  mret (paging.store k current i (page_entry pa flags (paging.load k current i))).

Definition get_ptr (c : context) : Z := phys_root c.
End ops.
End sl_paging.

(** ** Lemmas: entries *)

Section entries.
Import sl_paging.

Lemma entry_addr_frame e : Z.shiftl (entry_addr e) 12 = get_frame e.
Proof.
  apply Z.bits_inj'. intros i Hi. rewrite Z.shiftl_spec, testbit_get_frame by lia. unfold entry_addr.
  destruct (Z.leb_spec 12 i); cbn [andb]; [| by rewrite Z.testbit_neg_r by lia].
  rewrite testbit_bits by lia. rewrite Z.sub_add. f_equal. apply eq_true_iff_eq. rewrite !Z.ltb_lt. lia.
Qed.

Lemma entry_table_frame e : entry_table e = to_virt (get_frame e).
Proof. unfold entry_table. by rewrite entry_addr_frame. Qed.

Lemma set_addr_frame pa e : get_frame (set_addr (Z.shiftr pa 12) e) = get_frame pa.
Proof.
  apply Z.bits_inj'. intros i Hi. rewrite !testbit_get_frame by lia. unfold set_addr.
  destruct (Z.leb_spec 12 i), (Z.ltb_spec i 52); cbn [andb]; try done.
  rewrite testbit_set_bits, decide_True, Z.shiftr_spec by lia. by rewrite Z.sub_add.
Qed.

Lemma set_low_frame lo n x e : 0 <= lo -> 0 <= n -> lo + n <= 12 -> get_frame (set_bits lo n x e) = get_frame e.
Proof.
  intros Hl Hn Hw. apply Z.bits_inj'. intros i Hi. rewrite !testbit_get_frame by lia.
  destruct (Z.leb_spec 12 i); cbn [andb]; [| done]. rewrite testbit_set_bits, decide_False by lia. done.
Qed.

Lemma table_entry_ok phys old :
  frame_ok phys -> is_u64 old ->
  is_u64 (table_entry phys old) /\ present (table_entry phys old) = true /\ get_frame (table_entry phys old) = phys.
Proof.
  intros Hp Ho. unfold table_entry, set_w, set_r. split_and!.
  - unfold set_addr. repeat apply (set_bits_range _ _ _ _ 64); lia || exact Ho.
  - unfold present. rewrite !testbit_set_bits by lia. rewrite decide_False, decide_True by lia. done.
  - rewrite !set_low_frame, set_addr_frame by lia. by apply get_frame_id.
Qed.

(** The entry of a page grants what the flags ask for, at the page of [pa]. *)
Lemma page_entry_ok pa flags old :
  is_u64 old ->
  is_u64 (page_entry pa flags old) /\ get_frame (page_entry pa flags old) = get_frame pa /\
  (forall i, 0 <= i < 3 -> Z.testbit (page_entry pa flags old) i = Z.testbit flags i).
Proof.
  intros Ho. unfold page_entry, set_x, set_w, set_r. split_and!.
  - unfold set_addr. repeat apply (set_bits_range _ _ _ _ 64); lia || exact Ho.
  - by rewrite set_addr_frame.
  - intros i Hi. unfold set_addr. rewrite testbit_set_bits, decide_False by lia. rewrite !testbit_set_bits by lia.
    unfold flag_bit. change mapSlPageRead with (2 ^ 0). change mapSlPageWrite with (2 ^ 1). change mapSlPageExecute with (2 ^ 2).
    rewrite !land_flag by lia. assert (i = 0 \/ i = 1 \/ i = 2) as [-> | [-> | ->]] by lia.
    + rewrite decide_False, decide_False, decide_True by lia. by destruct (Z.testbit flags 0).
    + rewrite decide_False, decide_True by lia. by destruct (Z.testbit flags 1).
    + rewrite decide_True by lia. by destruct (Z.testbit flags 2).
Qed.

Lemma page_entry_present pa flags old : is_u64 old -> present (page_entry pa flags old) = Z.testbit flags 0.
Proof. intros Ho. unfold present. apply (page_entry_ok pa flags old Ho). lia. Qed.

(** The page of an I/O virtual address in a tree of [n] levels, and the indices
    [map] takes. *)
Definition io_page (n : nat) (iova : Z) : Z := iova / 4096 mod 512 ^ Z.of_nat n.

Lemma io_page_index n l iova :
  (1 <= l <= n)%nat -> page_index l (io_page n iova) = pml_index (12 + 9 * (Z.of_nat l - 1)) iova.
Proof.
  intros Hl. unfold pml_index, page_index, io_page. rewrite land_1FF, Z.shiftr_div_pow2 by lia.
  rewrite Z.pow_add_r by lia. change (2 ^ 12) with 4096. rewrite <- Z.div_div by lia.
  replace (2 ^ (9 * (Z.of_nat l - 1))) with (512 ^ (Z.of_nat l - 1)) by (rewrite Z.pow_mul_r by lia; done).
  set (x := iova / 4096). set (j := Z.of_nat l - 1).
  replace (512 ^ Z.of_nat n) with (512 ^ j * 512 * 512 ^ (Z.of_nat n - Z.of_nat l)).
  2: { rewrite <- (Z.pow_1_r 512) at 2. rewrite <- !Z.pow_add_r by lia. f_equal. lia. }
  assert (0 < 512 ^ j) by (apply Z.pow_pos_nonneg; lia). assert (0 < 512 ^ (Z.of_nat n - Z.of_nat l)) by (apply Z.pow_pos_nonneg; lia).
  rewrite <- Z.mul_assoc. rewrite Z.rem_mul_r by lia.
  rewrite Z.mul_comm, Z.div_add by lia. rewrite (Z.div_small (x mod 512 ^ j)) by (apply Z.mod_pos_bound; lia). rewrite Z.add_0_l.
  rewrite Z.rem_mul_r by lia. rewrite Z.mul_comm, Z.mod_add by lia. by rewrite Z.mod_mod by lia.
Qed.
End entries.

(** ** Trees *)

Section trees.
Context {S : Type} `{FA : FrameAllocatorLaws S}.
Implicit Types (k : paging.kernel S) (kown own : gmap Z (nat * Z)).
Import sl_paging.

(** A typed tree of [n] levels: its frames are data to the kernel's tables. *)
Record sl_ok kown own (n : nat) (root : Z) k : Prop := {
  l_tables : tables_ok own (paging.mem k) (fa_pages (paging.frames k));
  l_root : own !! root = Some (n, 0);
  l_data : forall f x, own !! f = Some x -> data_frame kown k f }.

(** What a step keeps: every frame of data outside the tree, and its contents. *)
Definition keeps kown own k kown' own' k' : Prop :=
  forall f, data_frame kown k f -> own !! f = None -> data_frame kown' k' f /\ own' !! f = None /\ frame_kept f k k'.

Lemma keeps_trans kown own k kown1 own1 k1 kown2 own2 k2 :
  keeps kown own k kown1 own1 k1 -> keeps kown1 own1 k1 kown2 own2 k2 -> keeps kown own k kown2 own2 k2.
Proof.
  intros H1 H2 f Hf Ho. destruct (H1 f Hf Ho) as (D1 & O1 & K1). destruct (H2 f D1 O1) as (D2 & O2 & K2).
  split_and!; [done | done |]. intros x Hx. by rewrite K2, K1.
Qed.

(** A new table: a zeroed frame that was free; all data is kept. *)
Lemma create_table_ok kown kroot k phys k' :
  space_ok kown kroot k -> create_table (to_virt kroot) k = Ret (phys, k') ->
  exists kown', space_ok kown' kroot k' /\ data_frame kown' k' phys /\ phys ∈ fa_pages (paging.frames k) /\
    (forall x, phys <= x < phys + block_size -> paging.mem k' x = 0) /\ uses 4 k k' /\
    (forall f, data_frame kown k f -> f <> phys /\ data_frame kown' k' f /\ frame_kept f k k') /\
    (forall v, vpn v <> vpn (to_virt phys) -> translate (paging.mem k') kroot v = translate (paging.mem k) kroot v).
Proof.
  intros OK H. unfold create_table in H. inv_res. rename phys into f, a into k0.
  destruct (space_alloc kown kroot k f s OK E) as (OK1 & U1 & Hf & Hin). assert (D1 := alloc_data kown kroot k f s OK E).
  destruct (map_page_ok kown kroot _ f (to_virt f) table_flags normal k0 OK1 E0) as (kown' & _ & OK2 & Htr & _ & U2 & Hdata).
  destruct (Hdata f D1) as [D2 K2]. rewrite direct_map_frame by done.
  destruct (space_data kown' kroot k0 f (zero_frame (paging.mem k0) f) OK2 D2) as [OK3 Htr3].
  { intros x Hx. unfold zero_frame. destruct (Z.leb_spec f x), (Z.ltb_spec x (f + block_size)); try done. lia. }
  { intros x. unfold zero_frame. destruct (_ && _); [apply is_u64_0 | apply (t_word _ _ _ (s_tables _ _ _ OK2))]. }
  exists kown'. split_and!; [exact OK3 | exact D2 | exact Hin | | exact (uses_trans 1 3 _ _ _ U1 U2) | |].
  - intros x Hx. cbn. unfold zero_frame. rewrite (proj2 (Z.leb_le f x)), (proj2 (Z.ltb_lt x (f + block_size))) by lia. done.
  - intros g (G1 & G2 & G3). assert (Hne : g <> f) by (intros ->; done). split; [done |].
    assert (DG : data_frame kown (paging.mk s (paging.mem k)) g).
    { split_and!; [done | done |]. cbn. intros Hg. apply G3. apply fa_alloc_Ret in E as [_ P]; [| apply OK]. rewrite P. set_solver. }
    destruct (Hdata g DG) as [DG2 KG]. split; [exact DG2 |]. intros x Hx. cbn. assert (KG1 := KG x Hx). cbn in KG1. rewrite <- KG1. unfold zero_frame.
    assert (~ (f <= x < f + block_size)) by (by apply (frames_disjoint g)).
    destruct (Z.leb_spec f x), (Z.ltb_spec x (f + block_size)); try done. lia.
  - intros v Hv. cbn [paging.mem]. rewrite Htr3, Htr; [done | apply OK | done].
Qed.

Lemma create_table_success kown kroot k :
  space_ok kown kroot k -> (4 <= length (fa_pages (paging.frames k)))%nat -> exists phys k', create_table (to_virt kroot) k = Ret (phys, k').
Proof.
  intros OK Hl. unfold create_table.
  destruct (fa_alloc_success (paging.frames k)) as (f & s & E); [apply OK | intros Hn; rewrite Hn in Hl; cbn in Hl; lia |].
  rewrite E. cbn [mbind res_bind]. destruct (space_alloc kown kroot k f s OK E) as (OK1 & U1%uses_length & _).
  destruct (map_page_success kown kroot (paging.mk s (paging.mem k)) f (to_virt f) table_flags normal OK1) as [k' E']; [cbn in *; lia |].
  rewrite E'. cbn. eauto.
Qed.

(** Writing a word of a tree is a change of data for the kernel. *)
Lemma kernel_write kown kroot k f i v :
  space_ok kown kroot k -> data_frame kown k f -> 0 <= i < 512 -> is_u64 v ->
  let k' := paging.mk (paging.frames k) (write_word (paging.mem k) (f + 8 * i) v) in
  space_ok kown kroot k' /\ (forall a, translate (paging.mem k') kroot a = translate (paging.mem k) kroot a).
Proof.
  intros OK Hf Hi Hv. apply (space_data kown kroot k f (write_word (paging.mem k) (f + 8 * i) v)); [done | done | |].
  - intros x Hx. unfold write_word. rewrite (proj2 (Z.eqb_neq _ _)); [done |]. unfold block_size in Hx. lia.
  - intros x. unfold write_word. destruct (_ =? _); [done | apply (t_word _ _ _ (s_tables _ _ _ OK))].
Qed.

Lemma word_outside k f g i v x :
  frame_ok f -> frame_ok g -> f <> g -> 0 <= i < 512 -> f <= x < f + block_size -> write_word (paging.mem k) (g + 8 * i) v x = paging.mem k x.
Proof.
  intros Hf Hg Hne Hi Hx. unfold write_word. rewrite (proj2 (Z.eqb_neq _ _)); [done |].
  assert (~ (g <= x < g + block_size)) by (by apply (frames_disjoint f)). unfold block_size in *. lia.
Qed.

Lemma word_in f i : 0 <= i < 512 -> f <= f + 8 * i < f + block_size.
Proof. unfold block_size. lia. Qed.

(** The data frames of a tree survive a new table. *)
Lemma tree_kept kown own n root k kown' k' phys :
  sl_ok kown own n root k -> data_frame kown' k' phys -> uses 4 k k' -> (forall a, is_u64 (paging.mem k' a)) ->
  (forall f, data_frame kown k f -> f <> phys /\ data_frame kown' k' f /\ frame_kept f k k') ->
  sl_ok kown' own n root k' /\ own !! phys = None /\
  (forall t l q j, own !! t = Some (l, q) -> 0 <= j < 512 -> paging.mem k' (t + 8 * j) = paging.mem k (t + 8 * j)).
Proof.
  intros [T R Dt] Hp U Hu Hk.
  assert (Hw : forall t l q j, own !! t = Some (l, q) -> 0 <= j < 512 -> paging.mem k' (t + 8 * j) = paging.mem k (t + 8 * j)).
  { intros t l q j Ht Hj. destruct (Hk t (Dt _ _ Ht)) as (_ & _ & K). apply K. by apply word_in. }
  split_and!; [| | done].
  - constructor; [| done |].
    + constructor; [| | done].
      * intros f l q Hf. destruct (Hk f (Dt _ _ Hf)) as (_ & (F1 & _ & F3) & _). done.
      * intros f l q i Hf Hi. rewrite (Hw _ _ _ _ Hf Hi). by apply (t_child _ _ _ T).
    + intros f x Hf. by apply (Hk f), (Dt _ _ Hf).
  - destruct (own !! phys) as [x |] eqn:E; [| done]. by destruct (Hk phys (Dt _ _ E)) as (? & _).
Qed.
(** A tree whose frames are kept. *)
Lemma sl_ok_kept kown own n root k kown' k' :
  sl_ok kown own n root k -> (forall a, is_u64 (paging.mem k' a)) ->
  (forall f x, own !! f = Some x -> data_frame kown' k' f /\ frame_kept f k k') ->
  sl_ok kown' own n root k' /\ forall page, page_walk n (paging.mem k') root page = page_walk n (paging.mem k) root page.
Proof.
  intros [T R Dt] Hu Hk.
  assert (Hw : forall t l q j, own !! t = Some (l, q) -> 0 <= j < 512 -> paging.mem k' (t + 8 * j) = paging.mem k (t + 8 * j)).
  { intros t l q j Ht Hj. apply (Hk _ _ Ht). by apply word_in. }
  split; [| intros page; by eapply page_walk_ext]. constructor; [constructor; [| | done] | done |].
  - intros f l q Hf. destruct (Hk _ _ Hf) as [(F1 & _ & F3) _]. done.
  - intros f l q i Hf Hi. rewrite (Hw _ _ _ _ Hf Hi). by apply (t_child _ _ _ T).
  - intros f x Hf. by apply (Hk _ _ Hf).
Qed.

(** What the upper levels of [map] do: the tree grows; present entries, walks,
    data outside of the tree and the kernel's mappings are kept. *)
Record extends (kroot : Z) kown own k kown' own' k' : Prop := {
  x_own : own ⊆ own';
  x_entry : forall f l q j, own !! f = Some (l, q) -> 0 <= j < 512 -> present (paging.mem k (f + 8 * j)) = true ->
      paging.mem k' (f + 8 * j) = paging.mem k (f + 8 * j);
  x_walk : forall n t p page, own !! t = Some (n, p) -> page_walk n (paging.mem k') t page = page_walk n (paging.mem k) t page;
  x_keeps : keeps kown own k kown' own' k';
  x_kernel : forall v, (forall f, f ∈ fa_pages (paging.frames k) -> vpn v <> vpn (to_virt f)) ->
      translate (paging.mem k') kroot v = translate (paging.mem k) kroot v }.

Lemma tree_extends_refl kroot kown own k : extends kroot kown own k kown own k.
Proof. by constructor. Qed.

Lemma tree_extends_trans kroot kown own k kown1 own1 k1 kown2 own2 k2 n :
  extends kroot kown own k kown1 own1 k1 -> uses n k k1 -> extends kroot kown1 own1 k1 kown2 own2 k2 ->
  extends kroot kown own k kown2 own2 k2.
Proof.
  intros [A1 B1 C1 D1 K1] U [A2 B2 C2 D2 K2].
  assert (A : forall f x, own !! f = Some x -> own1 !! f = Some x) by (by apply map_subseteq_spec). constructor.
  - by transitivity own1.
  - intros f l q j Hf Hj Hp. rewrite <- (B1 f l q j) in Hp |- * by done. eapply B2; eauto.
  - intros m t p page Ht. erewrite C2, C1; eauto.
  - by eapply keeps_trans.
  - intros v Hv. rewrite K2, K1; [done | done |]. intros f Hf. apply Hv. by eapply uses_elem.
Qed.

(** A new table extends every tree. *)
Lemma create_extends kroot kown own n root k phys k' :
  space_ok kown kroot k -> sl_ok kown own n root k -> create_table (to_virt kroot) k = Ret (phys, k') ->
  exists kown', space_ok kown' kroot k' /\ sl_ok kown' own n root k' /\ data_frame kown' k' phys /\ own !! phys = None /\
    (forall x, phys <= x < phys + block_size -> paging.mem k' x = 0) /\ uses 4 k k' /\ extends kroot kown own k kown' own k' /\
    (forall t l q j, own !! t = Some (l, q) -> 0 <= j < 512 -> paging.mem k' (t + 8 * j) = paging.mem k (t + 8 * j)) /\
    phys ∈ fa_pages (paging.frames k).
Proof.
  intros OK SL H. destruct (create_table_ok kown kroot k phys k' OK H) as (kown' & OK1 & Dp & Hin & Hz & U & Hk & Htr).
  destruct (tree_kept kown own n root k kown' k' phys SL Dp U (t_word _ _ _ (s_tables _ _ _ OK1)) Hk) as (SL1 & Hpo & Hw).
  exists kown'. split_and!; try done. constructor; [done | | | |].
  - intros f l q j Hf Hj _. by eapply Hw.
  - intros m t p page Ht. eapply page_walk_ext; [apply SL | exact Ht | exact Hw].
  - intros f Hf Ho. destruct (Hk f Hf) as (_ & ? & ?). done.
  - intros v Hv. apply Htr. by apply Hv.
Qed.

(** Linking it. *)
Lemma link_extends kroot kown own n root k t l p i phys e :
  space_ok kown kroot k -> sl_ok kown own n root k -> own !! t = Some (Datatypes.S (Datatypes.S l), p) -> 0 <= i < 512 ->
  present (paging.mem k (t + 8 * i)) = false -> data_frame kown k phys -> own !! phys = None ->
  (forall x, phys <= x < phys + block_size -> paging.mem k x = 0) -> is_u64 e -> present e = true -> get_frame e = phys ->
  let k' := paging.mk (paging.frames k) (write_word (paging.mem k) (t + 8 * i) e) in
  let own' := <[phys := (Datatypes.S l, p * 512 + i)]> own in
  space_ok kown kroot k' /\ sl_ok kown own' n root k' /\
  own ⊆ own' /\
  (forall f l q j, own !! f = Some (l, q) -> 0 <= j < 512 -> present (paging.mem k (f + 8 * j)) = true ->
     paging.mem k' (f + 8 * j) = paging.mem k (f + 8 * j)) /\
  (forall n t p page, own !! t = Some (n, p) -> page_walk n (paging.mem k') t page = page_walk n (paging.mem k) t page) /\
  (forall f, data_frame kown k f -> own !! f = None -> frame_kept f k k') /\
  (forall v, translate (paging.mem k') kroot v = translate (paging.mem k) kroot v).
Proof.
  intros OK SL Ht Hi Ha Dp Hpo Hz Eu Ep Ef k' own'. destruct SL as [T R Dt]. assert (Dtt := Dt _ _ Ht).
  destruct (kernel_write kown kroot k t i e OK Dtt Hi Eu) as [OK' Htr]. fold k' in OK', Htr.
  assert (Hpt : phys <> t) by congruence.
  assert (Hval : forall u l q j, own !! u = Some (l, q) -> 0 <= j < 512 -> u + 8 * j <> t + 8 * i -> paging.mem k' (u + 8 * j) = paging.mem k (u + 8 * j)).
  { intros u l' q j Hu Hj Hne. cbn. unfold write_word. by rewrite (proj2 (Z.eqb_neq _ _) Hne). }
  assert (Hzero : forall j, 0 <= j < 512 -> paging.mem k' (get_frame e + 8 * j) = 0).
  { intros j Hj. rewrite Ef. cbn. rewrite (word_outside k phys t) by (try apply Dp; try apply Dtt; done || by apply word_in). apply Hz. by apply word_in. }
  assert (He : paging.mem k' (t + 8 * i) = e) by (cbn; unfold write_word; by rewrite Z.eqb_refl).
  split_and!; [exact OK' | | by apply insert_subseteq | | | | exact Htr].
  - constructor.
    + unfold own'. rewrite <- Ef. eapply tables_link_entry; try done; rewrite ?Ef; try apply Dp; try done. apply (t_word _ _ _ (s_tables _ _ _ OK')).
    + unfold own'. rewrite lookup_insert_ne; [done | congruence].
    + intros f x Hf. destruct (decide (f = phys)) as [-> | Hne]; [exact Dp |]. unfold own' in Hf. rewrite lookup_insert_ne in Hf by done.
      exact (Dt _ _ Hf).
  - intros f l' q j Hf Hj Hp. apply (Hval _ _ _ _ Hf Hj). intros E. rewrite E in Hp. congruence.
  - intros m u q page Hu. eapply page_walk_link; [exact T | exact Hu | exact Ht | done | done | exact He | done | exact Hzero | exact Hval].
  - intros f Hf Ho x Hx. cbn. apply (word_outside k f t); try done; [apply Hf | apply Dtt | congruence].
Qed.

Lemma level_step kroot kown own n root k t l p i cur k' :
  space_ok kown kroot k -> sl_ok kown own n root k -> own !! t = Some (Datatypes.S (Datatypes.S l), p) -> 0 <= i < 512 ->
  get_level_or_create (to_virt kroot) (to_virt t) i k = Ret (cur, k') ->
  exists kown' own', cur = to_virt (get_frame (paging.mem k' (t + 8 * i))) /\ present (paging.mem k' (t + 8 * i)) = true /\
    space_ok kown' kroot k' /\ sl_ok kown' own' n root k' /\
    own' !! get_frame (paging.mem k' (t + 8 * i)) = Some (Datatypes.S l, p * 512 + i) /\ uses 4 k k' /\
    extends kroot kown own k kown' own' k'.
Proof.
  intros OK SL Ht Hi H. assert (Htok := proj1 (t_frame _ _ _ (l_tables _ _ _ _ _ SL) _ _ _ Ht)).
  unfold get_level_or_create in H. rewrite load_word in H by done.
  destruct (present (paging.mem k (t + 8 * i))) eqn:Ep.
  { inv_res. rewrite entry_table_frame. exists kown, own. assert (Hc := t_child _ _ _ (l_tables _ _ _ _ _ SL) _ _ _ _ Ht Hi Ep).
    split_and!; try done; try apply tree_extends_refl. exists []. split; [cbn; lia | done]. }
  inv_res. rename z into phys, k0 into k1.
  destruct (create_extends kroot kown own n root k phys k1 OK SL E) as (kown1 & OK1 & SL1 & Dp & Hpo & Hz & U & X & Hw & Hin).
  assert (Ew := Hw _ _ _ _ Ht Hi). rewrite <- Ew in Ep.
  destruct (table_entry_ok phys (paging.mem k1 (t + 8 * i))) as (Eu & Epr & Ef); [apply Dp | apply (t_word _ _ _ (s_tables _ _ _ OK1)) |].
  destruct (link_extends kroot kown1 own n root k1 t l p i phys _ OK1 SL1 Ht Hi Ep Dp Hpo Hz Eu Epr Ef) as (OK2 & SL2 & X1 & X2 & X3 & X4 & X5).
  assert (Ek : paging.store k1 (to_virt t) i (table_entry phys (paging.load k1 (to_virt t) i)) =
    paging.mk (paging.frames k1) (write_word (paging.mem k1) (t + 8 * i) (table_entry phys (paging.mem k1 (t + 8 * i))))).
  { by rewrite store_word, load_word by done. }
  rewrite Ek. set (k2 := paging.mk _ _) in *.
  assert (He : paging.mem k2 (t + 8 * i) = table_entry phys (paging.mem k1 (t + 8 * i))) by (cbn; unfold write_word; by rewrite Z.eqb_refl).
  rewrite He. eexists kown1, _. split_and!; [| done | exact OK2 | exact SL2 | | exact U |].
  - rewrite entry_table_frame, direct_map_word, load_word by done. unfold write_word. by rewrite Z.eqb_refl.
  - rewrite Ef. apply lookup_insert_eq.
  - destruct X as [_ B1 C1 D1 K1]. constructor; [done | | | |].
    + intros f l' q j Hf Hj Hp. rewrite <- (B1 f l' q j) in Hp |- * by done. by apply (X2 f l' q j).
    + intros m u q page Hu. rewrite (X3 m u q page Hu). by apply (C1 m u q page).
    + intros f Hf Ho. destruct (D1 f Hf Ho) as (Df & _ & Kf). split_and!; [exact Df | | intros x Hx; rewrite (X4 f Df Ho x Hx); by apply Kf].
      rewrite lookup_insert_ne; [done |]. intros <-. destruct Hf as (_ & _ & Hf). by apply Hf.
    + intros v Hv. rewrite X5. by apply K1.
Qed.
Lemma level_success kroot kown own n root k t l p i :
  space_ok kown kroot k -> sl_ok kown own n root k -> own !! t = Some (Datatypes.S (Datatypes.S l), p) -> 0 <= i < 512 ->
  (4 <= length (fa_pages (paging.frames k)))%nat -> exists cur k', get_level_or_create (to_virt kroot) (to_virt t) i k = Ret (cur, k').
Proof.
  intros OK SL Ht Hi Hl. unfold get_level_or_create. destruct (present _); [by eauto |].
  destruct (create_table_success kown kroot k OK Hl) as (phys & k1 & E). rewrite E. cbn. eauto.
Qed.

(** The levels of [map] as a recursion. *)
Fixpoint descend {A} (n : nat) (kernel_info cur iova : Z) (fin : Z -> paging.kernel S -> res A) k : res A :=
  match n with
  | Datatypes.S (Datatypes.S _ as below) =>
      '(cur, k) ← get_level_or_create kernel_info cur (pml_index (12 + 9 * (Z.of_nat n - 1)) iova) k;
      descend below kernel_info cur iova fin k
  | _ => fin cur k
  end.

Lemma descend_unfold {A} n kernel_info cur iova (fin : Z -> paging.kernel S -> res A) k :
  descend (Datatypes.S (Datatypes.S n)) kernel_info cur iova fin k =
    '(cur, k) ← get_level_or_create kernel_info cur (pml_index (12 + 9 * (Z.of_nat (Datatypes.S (Datatypes.S n)) - 1)) iova) k;
    descend (Datatypes.S n) kernel_info cur iova fin k.
Proof. reflexivity. Qed.

Lemma map_descend kernel_info c pa iova flags k :
  3 <= level c <= 5 ->
  map kernel_info c pa iova flags k =
    descend (Z.to_nat (level c)) kernel_info (to_virt (phys_root c)) iova (fun cur k =>
      mret (paging.store k cur (pml_index 12 iova) (page_entry pa flags (paging.load k cur (pml_index 12 iova))))) k.
Proof.
  intros H. unfold map. assert (level c = 3 \/ level c = 4 \/ level c = 5) as [-> | [-> | ->]] by lia; reflexivity.
Qed.

Lemma descend_ok {A} (fin : Z -> paging.kernel S -> res A) kroot N root iova n :
  (1 <= n <= N)%nat -> forall kown own k t,
  space_ok kown kroot k -> sl_ok kown own N root k -> own !! t = Some (n, page_prefix n (io_page N iova)) ->
  (4 * (n - 1) <= length (fa_pages (paging.frames k)))%nat ->
  exists kown' own' t1 k1, descend n (to_virt kroot) (to_virt t) iova fin k = fin (to_virt t1) k1 /\
    space_ok kown' kroot k1 /\ sl_ok kown' own' N root k1 /\ own' !! t1 = Some (1%nat, page_prefix 1 (io_page N iova)) /\
    uses (4 * (n - 1)) k k1 /\ extends kroot kown own k kown' own' k1 /\
    (forall m, same_upper own' (paging.mem k1) m -> page_walk n m t (io_page N iova) = page_walk 1 m t1 (io_page N iova)).
Proof.
  set (page := io_page N iova). induction n as [| n IH]; intros Hn kown own k t OK SL Ht Hl; [lia |]. destruct n as [| n].
  { exists kown, own, t, k. split_and!; try done; try apply tree_extends_refl. exists []. split; [cbn; lia | done]. }
  rewrite descend_unfold, <- (io_page_index N) by lia. fold page. set (i := page_index _ page).
  assert (Hi : 0 <= i < 512) by apply page_index_range.
  destruct (level_success kroot kown own N root k t n _ i OK SL Ht Hi) as (cur & k1 & E); [lia |]. rewrite E. cbn [mbind res_bind].
  destruct (level_step kroot kown own N root k t n _ i cur k1 OK SL Ht Hi E) as (kown1 & own1 & -> & Ep & OK1 & SL1 & O1 & U1 & X1).
  unfold i in O1. rewrite page_prefix_index in O1. fold i in O1.
  destruct (IH ltac:(lia) kown1 own1 k1 _ OK1 SL1 O1) as (kown2 & own2 & t1 & k2 & E2 & OK2 & SL2 & O2 & U2 & X2 & W2).
  { apply uses_length in U1. lia. }
  exists kown2, own2, t1, k2. split_and!; [exact E2 | exact OK2 | exact SL2 | exact O2 | | by eapply tree_extends_trans |].
  - replace (4 * (Datatypes.S (Datatypes.S n) - 1))%nat with (4 + 4 * (Datatypes.S n - 1))%nat by lia. exact (uses_trans _ _ _ _ _ U1 U2).
  - intros m Hm. assert (Ht1 := lookup_weaken _ _ _ _ Ht (x_own _ _ _ _ _ _ _ X1)). assert (Ht2 := lookup_weaken _ _ _ _ Ht1 (x_own _ _ _ _ _ _ _ X2)).
    assert (Em : m (t + 8 * i) = paging.mem k1 (t + 8 * i)).
    { rewrite (Hm _ _ _ _ Ht2 Hi). by apply (x_entry _ _ _ _ _ _ _ X2 t _ _ i Ht1). }
    cbn [page_walk]. fold i. rewrite Em, Ep. by apply W2.
Qed.
(** ** Lemmas: construction and destruction *)

(** A new tree is one empty table: no page has a translation. *)
Lemma sl_create_ok kroot kown k lvl :
  space_ok kown kroot k -> 3 <= lvl <= 5 -> (4 <= length (fa_pages (paging.frames k)))%nat ->
  exists root k' kown', create (to_virt kroot) lvl k = Ret (mk lvl root, k') /\ space_ok kown' kroot k' /\
    sl_ok kown' {[root := (Z.to_nat lvl, 0)]} (Z.to_nat lvl) root k' /\ root ∈ fa_pages (paging.frames k) /\ uses 4 k k' /\
    (forall page, page_walk (Z.to_nat lvl) (paging.mem k') root page = None) /\
    (forall f, data_frame kown k f -> f <> root /\ data_frame kown' k' f /\ frame_kept f k k').
Proof.
  intros OK Hl Hf. unfold create. rewrite (proj2 (Z.leb_le lvl 5)), (proj2 (Z.leb_le 3 lvl)) by lia. cbn [andb ASSERT mbind res_bind].
  destruct (create_table_success kown kroot k OK Hf) as (root & k' & E). rewrite E. cbn [mbind res_bind].
  destruct (create_table_ok kown kroot k root k' OK E) as (kown' & OK' & D & Hin & Hz & U & Hk & _).
  assert (Hw : forall j, 0 <= j < 512 -> paging.mem k' (root + 8 * j) = 0) by (intros j Hj; apply Hz; by apply word_in).
  exists root, k', kown'. split_and!; [done | done | | done | done | | exact Hk].
  - constructor; [| by rewrite lookup_singleton_eq |].
    + constructor; [| | apply (s_tables _ _ _ OK')].
      * intros f m q [<- _]%lookup_singleton_Some. destruct D as (? & _ & ?). done.
      * intros f m q i [<- _]%lookup_singleton_Some Hi. by rewrite Hw.
    + by intros f x [<- _]%lookup_singleton_Some.
  - intros page. destruct (Z.to_nat lvl) as [| n] eqn:En; [lia |]. cbn [page_walk]. by rewrite Hw by apply page_index_range.
Qed.

(** The tables of a tree, in the order in which [clean_tables] frees them. *)
Fixpoint sl_tables (n : nat) (m : memory) (t : Z) : list Z :=
  match n with
  | Datatypes.S (Datatypes.S _ as below) =>
      (seqZ 0 512 ≫= fun i => if present (m (t + 8 * i)) then sl_tables below m (get_frame (m (t + 8 * i))) else []) ++ [t]
  | _ => [t]
  end.

Lemma sl_tables_unfold n m t :
  sl_tables (Datatypes.S (Datatypes.S n)) m t =
    (seqZ 0 512 ≫= fun i => if present (m (t + 8 * i)) then sl_tables (Datatypes.S n) m (get_frame (m (t + 8 * i))) else []) ++ [t].
Proof. reflexivity. Qed.

Lemma clean_tables_unfold n phys k :
  clean_tables (Datatypes.S n) phys k =
    (k ← for_loop 512 0 (fun i k =>
        let e := paging.load k (to_virt phys) i in
        if present e then match n with Datatypes.S (Datatypes.S _) => clean_tables n (Z.shiftl (entry_addr e) 12) k | _ => delete_table (Z.shiftl (entry_addr e) 12) k end
        else mret k) k;
     delete_table phys k).
Proof. destruct n as [| [| n]]; reflexivity. Qed.

Lemma clean_tables_adds n t k k' :
  frame_ok t -> (forall a, is_u64 (paging.mem k a)) -> clean_tables (Datatypes.S (Datatypes.S n)) t k = Ret k' ->
  adds (sl_tables (Datatypes.S (Datatypes.S n)) (paging.mem k) t) k k'.
Proof.
  revert t k k'. induction n as [| n IH]; intros t k k' Ht Hw H; rewrite clean_tables_unfold in H; apply bind_Ret in H as (k1 & H1 & H2);
    rewrite sl_tables_unfold; (eapply adds_trans; [| exact (free_frame_adds t k1 k' Ht H2)]); change (seqZ 0 512) with (seqZ 0 (Z.of_nat 512));
    (eapply (for_loop_adds 512 0 _ _ (paging.mem k)); [| done | exact H1]);
    intros j k2 k3 Hj Hm Hb; cbv beta zeta in Hb; rewrite load_word in Hb by (done || lia); rewrite Hm in Hb;
    (destruct (present (paging.mem k (t + 8 * j))); [| by inv_res; apply adds_nil]); rewrite entry_addr_frame in Hb;
    assert (Hf : frame_ok (get_frame (paging.mem k (t + 8 * j)))) by (apply get_frame_ok, Hw).
  - exact (free_frame_adds _ k2 k3 Hf Hb).
  - rewrite <- Hm at 1. apply IH; [done | by rewrite Hm | done].
Qed.

(** Every table of a typed tree occurs once. *)
Lemma sl_tables_nodup own m free n t p :
  tables_ok own m free -> own !! t = Some (Datatypes.S n, p) ->
  NoDup (sl_tables (Datatypes.S n) m t) /\ forall x, x ∈ sl_tables (Datatypes.S n) m t -> below own (Datatypes.S n) p x.
Proof.
  intros OK. revert t p. induction n as [| n IH]; intros t p Ht.
  { split; [apply NoDup_singleton |]. intros x ->%list_elem_of_singleton. exists 1%nat, p. by rewrite Z.div_1_r. }
  rewrite sl_tables_unfold.
  assert (Hin : forall i x, 0 <= i < 512 -> x ∈ (if present (m (t + 8 * i)) then sl_tables (Datatypes.S n) m (get_frame (m (t + 8 * i))) else []) ->
    below own (Datatypes.S n) (p * 512 + i) x).
  { intros i x Hi Hx. destruct (present _) eqn:P; [| by apply elem_of_nil in Hx]. eapply IH; [| exact Hx]. by eapply (t_child _ _ _ OK). }
  split.
  - apply NoDup_app. split_and!; [| | apply NoDup_singleton].
    + apply NoDup_bind; [| | apply NoDup_seqZ].
      * intros i j x Hi%elem_of_seqZ Hj%elem_of_seqZ Hx Hy. eapply below_inj; eapply Hin; eauto.
      * intros i Hi%elem_of_seqZ. destruct (present _) eqn:P; [| constructor]. eapply IH. by eapply (t_child _ _ _ OK).
    + intros x (i & Hx & Hi%elem_of_seqZ)%list_elem_of_bind ->%list_elem_of_singleton.
      destruct (Hin i t Hi Hx) as (l & q & Hq & Hl & _). rewrite Ht in Hq. injection Hq as <- _. lia.
  - intros x [(i & Hx & Hi%elem_of_seqZ)%list_elem_of_bind | ->%list_elem_of_singleton]%elem_of_app.
    + eapply below_up; [exact Hi |]. by apply Hin.
    + exists (Datatypes.S (Datatypes.S n)), p. split_and!; [done | lia | lia | by rewrite Nat.sub_diag, Z.div_1_r].
Qed.
End trees.

(** [map], with what clients need of it. *)
Lemma sl_map_ok {S : Type} `{FA : FrameAllocatorLaws S} (kown own : gmap Z (nat * Z)) (kroot : Z) (c : sl_paging.context)
    (pa iova flags : Z) (k : paging.kernel S) :
  let n := Z.to_nat (sl_paging.level c) in
  3 <= sl_paging.level c <= 5 -> space_ok kown kroot k -> sl_ok kown own n (sl_paging.phys_root c) k ->
  (4 * (n - 1) <= length (fa_pages (paging.frames k)))%nat ->
  exists k' kown' own' e, sl_paging.map (to_virt kroot) c pa iova flags k = Ret k' /\
    space_ok kown' kroot k' /\ sl_ok kown' own' n (sl_paging.phys_root c) k' /\
    get_frame e = get_frame pa /\ (forall i, 0 <= i < 3 -> Z.testbit e i = Z.testbit flags i) /\
    (forall page, 0 <= page < 512 ^ Z.of_nat n ->
       page_walk n (paging.mem k') (sl_paging.phys_root c) page =
         if decide (page = io_page n iova) then (if Z.testbit flags 0 then Some e else None)
         else page_walk n (paging.mem k) (sl_paging.phys_root c) page) /\
    keeps kown own k kown' own' k'.
Proof.
  intros n Hc OK SL Hl. assert (Hn : (1 <= n <= n)%nat) by lia. rewrite map_descend by done. fold n.
  destruct (descend_ok (fun cur k => mret (paging.store k cur (sl_paging.pml_index 12 iova)
      (sl_paging.page_entry pa flags (paging.load k cur (sl_paging.pml_index 12 iova))))) kroot n (sl_paging.phys_root c) iova n Hn kown own k
      (sl_paging.phys_root c) OK SL) as (kown1 & own1 & t1 & k1 & E & OK1 & SL1 & O1 & U & X & W); [| done |].
  { rewrite (l_root _ _ _ _ _ SL). do 2 f_equal. symmetry. apply Z.div_small, Z.mod_pos_bound. apply Z.pow_pos_nonneg; lia. }
  assert (D1 := l_data _ _ _ _ _ SL1 _ _ O1). assert (T1 := l_tables _ _ _ _ _ SL1).
  assert (Ei := io_page_index n 1 iova ltac:(lia)). set (i := page_index 1 (io_page n iova)) in *. change (12 + 9 * (Z.of_nat 1 - 1)) with 12 in Ei.
  assert (Hi : 0 <= i < 512) by apply page_index_range. rewrite E, <- Ei, store_word, load_word by (done || apply D1). clear E.
  destruct (page_entry_ok pa flags (paging.mem k1 (t1 + 8 * i))) as (Eu & Ef & Eb); [apply (t_word _ _ _ T1) |].
  set (e := sl_paging.page_entry pa flags (paging.mem k1 (t1 + 8 * i))) in *.
  destruct (kernel_write kown1 kroot k1 t1 i e OK1 D1 Hi Eu) as [OK2 _].
  exists (paging.mk (paging.frames k1) (write_word (paging.mem k1) (t1 + 8 * i) e)), kown1, own1, e.
  split_and!; [done | exact OK2 | | done | done | |].
  - destruct SL1 as [_ R1 Dt1]. constructor; [by eapply tables_leaf | done | exact Dt1].
  - intros page Hp. cbn [paging.mem]. case_decide as Hpg.
    + subst page. rewrite W by (by eapply same_upper_leaf). cbn [page_walk]. fold i. unfold write_word. rewrite Z.eqb_refl. unfold present.
      by rewrite Eb by lia.
    + erewrite (page_walk_leaf own1); [| exact T1 | apply SL1 | by apply Z.div_small | exact O1 | done |].
      * by eapply (x_walk _ _ _ _ _ _ _ X), SL.
      * unfold i. by rewrite page_prefix_index, page_prefix_0.
  - intros f Df Hf. destruct (x_keeps _ _ _ _ _ _ _ X f Df Hf) as (Df1 & Hf1 & Kf). split_and!; [exact Df1 | exact Hf1 |].
    intros x Hx. rewrite <- (Kf x Hx). cbn. apply (word_outside k1 f t1); try done; [apply Df1 | apply D1 | congruence].
Qed.

(** ** Theorems *)

(** C24: [context::map] is an update of the translation that the device sees.  In a
    tree of 3, 4 or 5 levels, with four free frames for each level it may have to
    create, [map] returns; the page of the address is then translated to the frame
    of [pa] with exactly the rights in [flags] (to nothing when the right to read
    is missing), and every other page as before; the kernel's page tables stay
    well-formed, and every frame outside the tree keeps its contents. *)
Theorem sl_map_refines {S : Type} `{FA : FrameAllocatorLaws S} (kown own : gmap Z (nat * Z)) (kroot : Z) (c : sl_paging.context)
    (pa iova flags : Z) (k : paging.kernel S) :
  let n := Z.to_nat (sl_paging.level c) in
  3 <= sl_paging.level c <= 5 -> space_ok kown kroot k -> sl_ok kown own n (sl_paging.phys_root c) k ->
  (4 * (n - 1) <= length (fa_pages (paging.frames k)))%nat ->
  exists k' kown' own' e, sl_paging.map (to_virt kroot) c pa iova flags k = Ret k' /\
    space_ok kown' kroot k' /\ sl_ok kown' own' n (sl_paging.phys_root c) k' /\
    get_frame e = get_frame pa /\ (forall i, 0 <= i < 3 -> Z.testbit e i = Z.testbit flags i) /\
    (forall page, 0 <= page < 512 ^ Z.of_nat n ->
       page_walk n (paging.mem k') (sl_paging.phys_root c) page =
         if decide (page = io_page n iova) then (if Z.testbit flags 0 then Some e else None)
         else page_walk n (paging.mem k) (sl_paging.phys_root c) page) /\
    keeps kown own k kown' own' k'.
Proof. apply sl_map_ok. Qed.

(** A context with four levels on the machine of Heap.v's witnesses, just created. *)
Definition sl_machine : paging.kernel pmm.state :=
  paging.mk (pmm.mk ([pmm.mk_entry 0x100000 40] ++ replicate 6 (pmm.mk_entry 0 0)) 1) (fun _ => 0).

Lemma sl_machine_ok : space_ok own_example root_example sl_machine.
Proof.
  constructor; [constructor | ..].
  - unfold own_example. intros f n p [<- _]%lookup_singleton_Some. by_compute.
  - done.
  - intros a. apply is_u64_0.
  - done.
  - change (pmm.wf (paging.frames sl_machine)). by_compute.
  - by_compute.
  - by_compute.
Qed.

Lemma sl_map_refines_witness :
  exists c k1 k2 e, sl_paging.create (to_virt root_example) 4 sl_machine = Ret (c, k1) /\
    sl_paging.map (to_virt root_example) c 0x7000 0x12345000 3 k1 = Ret k2 /\ get_frame e = get_frame 0x7000 /\
    page_walk 4 (paging.mem k2) (sl_paging.phys_root c) 0x12345 = Some e /\
    page_walk 4 (paging.mem k2) (sl_paging.phys_root c) 0x12346 = None.
Proof.
  destruct (sl_create_ok root_example own_example sl_machine 4 sl_machine_ok) as (root & k1 & kown & E & OK & SL & _ & U & Hn & _); [lia | by_compute |].
  assert (Hu := uses_length _ _ _ U). replace (length (fa_pages (paging.frames sl_machine))) with 40%nat in Hu by (vm_compute; reflexivity).
  destruct (sl_map_refines kown {[root := (Z.to_nat 4, 0)]} root_example (sl_paging.mk 4 root) 0x7000 0x12345000 3 k1) as (k2 & kown2 & own2 & e & E2 & _ & _ & He & _ & Hw & _).
  - cbn. lia.
  - exact OK.
  - exact SL.
  - change (12 <= length (fa_pages (paging.frames k1)))%nat. lia.
  - exists (sl_paging.mk 4 root), k1, k2, e. split_and!; [exact E | exact E2 | exact He | |].
    + exact (Hw 0x12345 ltac:(split; [lia | reflexivity])).
    + etransitivity; [exact (Hw 0x12346 ltac:(split; [lia | reflexivity])) | exact (Hn 0x12346)].
Defined.

(** The destructor of a context frees exactly the tables of its tree, each once,
    and no frame that a page of the tree leads to. *)
Theorem sl_destroy_frees {S : Type} `{FA : FrameAllocatorLaws S} (kown own : gmap Z (nat * Z)) (c : sl_paging.context) (k k' : paging.kernel S) :
  let n := Z.to_nat (sl_paging.level c) in
  3 <= sl_paging.level c <= 5 -> fa_wf (paging.frames k) -> sl_ok kown own n (sl_paging.phys_root c) k -> sl_paging.destroy c k = Ret k' ->
  let tables := sl_tables n (paging.mem k) (sl_paging.phys_root c) in
  NoDup tables /\ (forall f, f ∈ tables -> is_Some (own !! f)) /\ paging.mem k' = paging.mem k /\
  fa_wf (paging.frames k') /\ fa_pages (paging.frames k') ≡ₚ tables ++ fa_pages (paging.frames k).
Proof.
  intros n Hc W SL H tables. unfold sl_paging.destroy in H. fold n in H. assert (exists m, n = Datatypes.S (Datatypes.S m)) as [m Em] by (exists (n - 2)%nat; lia).
  assert (T := l_tables _ _ _ _ _ SL). assert (R := l_root _ _ _ _ _ SL). unfold tables. rewrite Em in *.
  apply clean_tables_adds in H as [Hm Ha]; [| by eapply (t_frame _ _ _ T) | apply T]. destruct (Ha W) as [W' P].
  destruct (sl_tables_nodup own _ _ _ _ _ T R) as [N B]. split_and!; [done | | done | done | done].
  intros f Hf. destruct (B f Hf) as (l & q & -> & _). by eexists.
Qed.

Lemma sl_destroy_frees_witness :
  exists c k1 k2, sl_paging.create (to_virt root_example) 3 sl_machine = Ret (c, k1) /\ sl_paging.destroy c k1 = Ret k2 /\
    NoDup (sl_tables 3 (paging.mem k1) (sl_paging.phys_root c)).
Proof.
  destruct (sl_create_ok root_example own_example sl_machine 3 sl_machine_ok) as (root & k1 & kown & E & OK & SL & _); [lia | by_compute |].
  assert (exists k2, sl_paging.destroy (sl_paging.mk 3 root) k1 = Ret k2) as [k2 E2].
  { assert (H : match sl_paging.create (to_virt root_example) 3 sl_machine with
                | Ret (c, k) => match sl_paging.destroy c k with Ret _ => true | _ => false end
                | _ => false
                end = true) by (vm_compute; reflexivity).
    rewrite E in H. destruct (sl_paging.destroy _ _) as [k2 | | |]; [by exists k2 | done..]. }
  exists (sl_paging.mk 3 root), k1, k2. split_and!; [exact E | exact E2 |].
  destruct (sl_destroy_frees kown {[root := (Z.to_nat 3, 0)]} (sl_paging.mk 3 root) k1 k2) as (N & _); [cbn; lia | apply OK | exact SL | exact E2 | exact N].
Defined.
