(* ===== verification/Iommu.v ===== *)
(** * Iommu: the DMA remapping engines

    Models source/arch/x86_64/intel/vt-d.cpp and vt-d.hpp: the tables that lead
    from a device to its second-level page tables, the engines with their
    registers, the interrupt for faults, and the search of the DMAR table for
    engines.  The registers are hardware ([EngineHw]); the output to the debug
    console and the feature flag of the CPU are left out.

    What the tables give a device is [dma_translate], the walk of the hardware: root
    entry of the bus, context entry of device and function, second-level tables.  A
    [rig] adds the IOTLB: the hardware keeps walks there, tagged with the domain of the
    context entry, and may use them for every device of that domain. *)

From S2P Require Import Prelude Bits Containers Fields Frames Pmm Descriptors Acpi Pci Paging SlPaging.

(** The registers of an engine, by address; time passes when one is read. *)
Class EngineHw (D : Type) := {
  eng_rd : Z -> D -> Z * D;
  eng_wr : Z -> Z -> D -> D
}.

Module vt_d.
(** ** Layouts *)

Definition source_id (bus dev func : Z) : Z := set_bits 8 8 bus (set_bits 3 5 dev (set_bits 0 3 func 0)).

(** The entries of [root_table] and [context_table]: two words each.  A table has
    [0xFF] entries. *)
Definition table_size : Z := 0xFF.
Definition set_present (x e : Z) : Z := set_bits 0 1 x e.
Definition set_ptr (x e : Z) : Z := set_bits 12 52 x e.
Definition ptr (e : Z) : Z := u64 (Z.shiftl (bits 12 52 e) 12).
Definition set_translation_type (x e : Z) : Z := set_bits 2 2 x e.
Definition set_address_width (x e : Z) : Z := set_bits 0 3 x e.
Definition set_domain_id (x e : Z) : Z := set_bits 8 16 x e.

(** [dma_remapping_engine] with its [device_context_table]. *)
Record engine := mk {
  root_phys : Z; sl_map : linked_list.t (Z * sl_paging.context);
  pci_segment : Z; n_fault_recording_regs : Z; n_domain_ids : Z;
  secondary_page_levels : Z; regs : Z; fault_recording_regs : Z; iotlb_regs : Z; domain_ids : bitmap.t }.

Definition set_sl_map (l : linked_list.t (Z * sl_paging.context)) (e : engine) : engine :=
  mk (root_phys e) l (pci_segment e) (n_fault_recording_regs e) (n_domain_ids e) (secondary_page_levels e) (regs e)
    (fault_recording_regs e) (iotlb_regs e) (domain_ids e).

Section tables.
Context {S : Type} `{FA : FrameAllocator S} (kernel_info : Z).

(** The first block of [get_translation]: the context table of the bus. *)
Definition ensure_context_table (bus : Z) (e : engine) (k : paging.kernel S) : res (Z * paging.kernel S) :=
  let root := to_virt (root_phys e) in
  if present (paging.load k root (2 * bus)) then mret (to_virt (ptr (paging.load k root (2 * bus))), k)
  else
    '(phys, k) ← sl_paging.create_table kernel_info k;
    let k := paging.store k root (2 * bus) (set_present 1 (set_ptr (Z.shiftr phys 12) (paging.load k root (2 * bus)))) in
    mret (to_virt (ptr (paging.load k root (2 * bus))), k).

(** The second block: the context entry of the device. *)
Definition ensure_context (table index sid : Z) (e : engine) (k : paging.kernel S) : res (engine * paging.kernel S) :=
  if present (paging.load k table (2 * index)) then mret (e, k)
  else
    let k := paging.store k table (2 * index) (set_translation_type 0 (paging.load k table (2 * index))) in
    let k := paging.store k table (2 * index + 1) (set_address_width (secondary_page_levels e - 2) (paging.load k table (2 * index + 1))) in
    domain_id ← bitmap.get_free_bit (domain_ids e);
    _ ← ASSERT (negb (domain_id =? u64 (Z.lnot 1))) "domain_id != ~1ull";
    let k := paging.store k table (2 * index + 1) (set_domain_id domain_id (paging.load k table (2 * index + 1))) in
    '(c, k) ← sl_paging.create kernel_info (secondary_page_levels e) k;
    l ← hash_map.push_back nop_hasher (sl_map e) sid c;
    let k := paging.store k table (2 * index) (set_ptr (Z.shiftr (sl_paging.get_ptr c) 12) (paging.load k table (2 * index))) in
    let k := paging.store k table (2 * index) (set_present 1 (paging.load k table (2 * index))) in
    mret (set_sl_map l e, k).

(** [device_context_table::get_translation].  The arrays have [table_size]
    entries. *)
Definition get_translation (bus dev func : Z) (e : engine) (k : paging.kernel S) : res (sl_paging.context * engine * paging.kernel S) :=
  let sid := source_id bus dev func in
  if table_size <=? bus then Undef
  else
    '(table, k) ← ensure_context_table bus e k;
    let index := Z.land sid 0xFF in
    if table_size <=? index then Undef
    else
      '(e, k) ← ensure_context table index sid e k;
      c ← hash_map.get nop_hasher (sl_map e) sid;
      mret (c, e, k).

Definition get_phys (e : engine) : Z := root_phys e.
End tables.

(** ** Engines *)

(** Offsets of [dma_remapping_engine_regs]. *)
Definition version_reg : Z := 0.
Definition capabilites_reg : Z := 8.
Definition extended_capabilities_reg : Z := 16.
Definition global_command_reg : Z := 24.
Definition global_status_reg : Z := 28.
Definition root_table_address_reg : Z := 32.
Definition context_command_reg : Z := 40.
Definition fault_event_control_reg : Z := 56.
Definition fault_event_data_reg : Z := 60.
Definition fault_event_address_reg : Z := 64.
Definition fault_event_upper_address_reg : Z := 68.

(** [iotlb_reg]: the command is its second word. *)
Definition iotlb_command_off : Z := 8.
Definition iotlb_command : Z := set_bits 60 2 1 (set_bits 63 1 1 (set_bits 48 1 1 (set_bits 49 1 1 0))).

Section engine.
Context {S : Type} `{FA : FrameAllocator S} {D : Type} `{HW : EngineHw D} (kernel_info : Z).

(** [while(bool(reg & mask) != want);]. *)
Fixpoint wait_for (fuel : nat) (address mask : Z) (want : bool) (d : D) : res D :=
  match fuel with
  | O => NoFuel
  | Datatypes.S fuel =>
      let '(v, d) := eng_rd address d in
      if Bool.eqb (negb (Z.land v mask =? 0)) want then mret d else wait_for fuel address mask want d
  end.

Definition wbflush (fuel : nat) (e : engine) (d : D) : res D :=
  let '(cap, d) := eng_rd (regs e + capabilites_reg) d in
  if Z.land cap (Z.shiftl 1 4) =? 0 then mret d
  else wait_for fuel (regs e + global_status_reg) (Z.shiftl 1 27) false (eng_wr (regs e + global_command_reg) (Z.shiftl 1 27) d).

Definition invalidate_global_context (fuel : nat) (e : engine) (d : D) : res D :=
  wait_for fuel (regs e + context_command_reg) (bit64 63) false
    (eng_wr (regs e + context_command_reg) (Z.lor (bit64 63) (bit64 61)) d).

Definition invalidate_iotlb (fuel : nat) (e : engine) (d : D) : res D :=
  d ← wbflush fuel e d;
  wait_for fuel (iotlb_regs e + iotlb_command_off) (bit64 63) false (eng_wr (iotlb_regs e + iotlb_command_off) iotlb_command d).

(** The levels from the capabilities; [garbage] is the uninitialised member. *)
Definition page_levels (cap garbage : Z) : Z :=
  let sagaw := Z.land (Z.shiftr cap 8) 0x1F in
  let l := if Z.land sagaw 2 =? 0 then garbage else 3 in
  let l := if Z.land sagaw 4 =? 0 then l else 4 in
  if Z.land sagaw 8 =? 0 then l else 5.

Definition root_address (phys : Z) : Z := set_bits 10 2 0 (set_bits 12 52 (Z.shiftr phys 12) 0).

(** The message for faults: vector [v] to the first CPU. *)
Definition fault_data (v : Z) : Z := pci.set_vector v (pci.set_delivery_mode 0 0).
Definition fault_address : Z := pci.set_destination_id 0 (pci.set_base_address 0xFEE 0).

(** The constructor.  [def] is the segment and the register base of the DMAR
    entry; [callback] and [self] are the address of the handler for faults and of
    this object. *)
Definition create (fuel : nat) (segment register_base garbage callback self : Z) (k : paging.kernel S) (hs : list idt.handler) (d : D)
  : res (engine * paging.kernel S * list idt.handler * D) :=
  '(root, k) ← sl_paging.create_table kernel_info k;
  k ← paging.map_page kernel_info register_base (to_virt register_base) sl_paging.table_flags normal k;
  let regs := to_virt register_base in
  let '(_, d) := eng_rd (regs + version_reg) d in
  let '(_, d) := eng_rd (regs + version_reg) d in
  let '(cap, d) := eng_rd (regs + capabilites_reg) d in
  let '(ecap, d) := eng_rd (regs + extended_capabilities_reg) d in
  let levels := page_levels cap garbage in
  _ ← ASSERT (negb (levels =? 0)) "[VT-d]: No secondary page levels supported";
  let n_domains := Z.shiftl 1 (2 * Z.land cap 7 + 4) in
  ids ← bitmap.set (bitmap.create n_domains) 0;
  let e := mk root linked_list.create segment (Z.land (Z.shiftr cap 40) 0xFF + 1) n_domains levels regs
             (u64 (regs + 16 * Z.land (Z.shiftr cap 24) 0x3FF)) (u64 (regs + 16 * Z.land (Z.shiftr ecap 8) 0x3FF)) ids in
  d ← wbflush fuel e d;
  let d := eng_wr (regs + root_table_address_reg) (root_address root) d in
  let '(c, d) := eng_rd (regs + global_command_reg) d in
  d ← wait_for fuel (regs + global_status_reg) (bit64 30) true (eng_wr (regs + global_command_reg) (Z.lor c (bit64 30)) d);
  d ← invalidate_global_context fuel e d;
  d ← invalidate_iotlb fuel e d;
  d ← wait_for fuel (regs + global_status_reg) (bit64 31) true (eng_wr (regs + global_command_reg) (bit64 31) d);
  vector ← idt.get_free_vector hs;
  let d := eng_wr (regs + fault_event_data_reg) (fault_data vector) d in
  let d := eng_wr (regs + fault_event_address_reg) fault_address d in
  let d := eng_wr (regs + fault_event_upper_address_reg) 0 d in
  hs ← idt.register_interrupt_handler (idt.mk_handler vector callback self true false) hs;
  let '(c, d) := eng_rd (regs + fault_event_control_reg) d in
  mret (e, k, hs, eng_wr (regs + fault_event_control_reg) (Z.land c (u32 (Z.lnot (bit64 31)))) d).

(** ** Faults *)

(** What the handler reports of a fault: the fields of [fault_recording_reg], and
    the device. *)
Record fault := mk_fault {
  f_index : Z; f_type : Z; f_sid : Z; f_device : nat; f_supervisor : bool; f_execute : bool; f_address : Z; f_reason : Z }.

Definition fault_type (hi : Z) : Z := Z.lor (bits 62 1 hi) (Z.shiftl (bits 28 1 hi) 1).

Definition report (segment i lo hi : Z) (devices : list pci.device) : res fault :=
  let sid := bits 0 16 hi in
  dev ← pci.find_device (mk_coord segment (bits 8 8 sid) (bits 3 5 sid) (bits 0 3 sid)) devices;
  mret (mk_fault i (fault_type hi) sid dev (Z.testbit hi 29) (Z.testbit hi 30) (Z.shiftl (bits 12 52 lo) 12) (bits 32 8 hi)).

(** The handler reports every fault and halts the CPU. *)
Fixpoint fault_loop (n : nat) (i : Z) (e : engine) (devices : list pci.device) (d : D) : res (list fault * D) :=
  match n with
  | O => mret ([], d)
  | Datatypes.S n =>
      let '(lo, d) := eng_rd (fault_recording_regs e + 16 * i) d in
      let '(hi, d) := eng_rd (fault_recording_regs e + 16 * i + 8) d in
      if Z.testbit hi 63 then
        f ← report (pci_segment e) i lo hi devices;
        '(l, d) ← fault_loop n (i + 1) e devices d;
        mret (f :: l, d)
      else fault_loop n (i + 1) e devices d
  end.

Definition fault_handler (e : engine) (devices : list pci.device) (d : D) : res (list fault * D) :=
  fault_loop (Z.to_nat (n_fault_recording_regs e)) 0 e devices d.

(** ** The DMAR table *)

Record iommu := mk_iommu { active : bool; engines : list engine }.

Definition sizeof_dmar : Z := 48.
Definition sizeof_dma_remapping_def : Z := 16.
Definition dma_remapping_def_id : Z := 0.
Definition dmar_signature : list Z := [68; 77; 65; 82].

(** The loop over the device scopes, which only prints them. *)
Fixpoint scope_loop (fuel : nat) (remap device_offset : Z) (m : Z -> Z) : res unit :=
  match fuel with
  | O => NoFuel
  | Datatypes.S fuel =>
      if device_offset <? le_at m (remap + 2) 2 then scope_loop fuel remap (u64 (device_offset + m (remap + device_offset + 1))) m
      else mret tt
  end.

Section search.
Context (fuel : nat) (garbage callback : Z) (new_engine : nat -> Z).

Fixpoint table_loop (n : nat) (table offset : Z) (m : Z -> Z) (l : list engine) (k : paging.kernel S) (hs : list idt.handler) (d : D)
  : res (list engine * paging.kernel S * list idt.handler * D) :=
  match n with
  | O => NoFuel
  | Datatypes.S n =>
      if offset <? acpi.table_length table m then
        let entry := table + offset in
        let next := u64 (offset + le_at m (entry + 2) 2) in
        if le_at m entry 2 =? dma_remapping_def_id then
          _ ← scope_loop fuel entry sizeof_dma_remapping_def m;
          '(e, k, hs, d) ← create fuel (le_at m (entry + 6) 2) (le_at m (entry + 8) 8) garbage callback (new_engine (length l)) k hs d;
          table_loop n table next m (l ++ [e]) k hs d
        else table_loop n table next m l k hs d
      else mret (l, k, hs, d)
  end.

(** The constructor of [iommu]. *)
Definition init (override : Z) (st : acpi.state) (m : Z -> Z) (k : paging.kernel S) (hs : list idt.handler) (d : D)
  : res (iommu * paging.kernel S * list idt.handler * D) :=
  '(table, k) ← acpi.get_table kernel_info override dmar_signature 0 st m k;
  if table =? 0 then mret (mk_iommu false [], k, hs, d)
  else
    '(l, k, hs, d) ← table_loop fuel table sizeof_dmar m [] k hs d;
    mret (mk_iommu true l, k, hs, d).
End search.

Definition is_active (i : iommu) : bool := active i.

(** [iommu::get_translation]: the first engine of the segment. *)
Fixpoint find_engine (seg bus dev func : Z) (l : list engine) (k : paging.kernel S) : res (sl_paging.context * list engine * paging.kernel S) :=
  match l with
  | [] => Panic "Couldn't find iommu for segment"
  | e :: l =>
      if pci_segment e =? seg then '(c, e, k) ← get_translation kernel_info bus dev func e k; mret (c, e :: l, k)
      else '(c, l, k) ← find_engine seg bus dev func l k; mret (c, e :: l, k)
  end.

Definition iommu_get_translation (seg bus dev func : Z) (i : iommu) (k : paging.kernel S) : res (sl_paging.context * iommu * paging.kernel S) :=
  '(c, l, k) ← find_engine seg bus dev func (engines i) k;
  mret (c, mk_iommu (active i) l, k).
End engine.
End vt_d.

(** ** Specification *)

(** The walk of the hardware, without its caches: the second-level entry that the
    tables hold for a request of [sid] for a page. *)
Definition dma_translate (m : memory) (root sid page : Z) : option Z :=
  let re := m (root + 8 * (2 * (sid / 256))) in
  if present re then
    let ce := m (vt_d.ptr re + 8 * (2 * (sid mod 256))) in
    if present ce then
      page_walk (Z.to_nat (bits 0 3 (m (vt_d.ptr re + 8 * (2 * (sid mod 256) + 1))) + 2)) m (vt_d.ptr ce) page
    else None
  else None.

(** The frames of an engine and their owners: the root table, the context table of
    a bus, the second-level tree of a device. *)
Record ghost := mk_ghost { ctabs : gmap Z Z; trees : gmap Z (Z * gmap Z (nat * Z)) }.
Inductive owner := Oroot | Octab (bus : Z) | Otree (sid : Z).

Definition owned (G : ghost) (e : vt_d.engine) (o : owner) (f : Z) : Prop :=
  match o with
  | Oroot => f = vt_d.root_phys e
  | Octab bus => ctabs G !! bus = Some f
  | Otree sid => exists r own, trees G !! sid = Some (r, own) /\ is_Some (own !! f)
  end.

Definition levels (e : vt_d.engine) : nat := Z.to_nat (vt_d.secondary_page_levels e).

(** The invariant of an engine: every frame has one owner; root and context
    entries are present exactly where there is a table, and point to it; the map
    of contexts agrees with the tables. *)
Record engine_ok {S} `{FrameAllocator S} (kown : gmap Z (nat * Z)) (kroot : Z) (G : ghost) (e : vt_d.engine) (k : paging.kernel S) : Prop := {
  e_space : space_ok kown kroot k;
  e_levels : 3 <= vt_d.secondary_page_levels e <= 5;
  e_data : forall o f, owned G e o f -> data_frame kown k f;
  e_disj : forall o o' f, owned G e o f -> owned G e o' f -> o = o';
  e_bus : forall bus, 0 <= bus < 256 ->
    match ctabs G !! bus with
    | Some f => present (paging.mem k (vt_d.root_phys e + 8 * (2 * bus))) = true /\ vt_d.ptr (paging.mem k (vt_d.root_phys e + 8 * (2 * bus))) = f
    | None => present (paging.mem k (vt_d.root_phys e + 8 * (2 * bus))) = false
    end;
  e_ctx : forall bus i f, ctabs G !! bus = Some f -> 0 <= i < 256 ->
    match trees G !! (bus * 256 + i) with
    | Some (r, _) =>
        present (paging.mem k (f + 8 * (2 * i))) = true /\ vt_d.ptr (paging.mem k (f + 8 * (2 * i))) = r /\
        bits 0 3 (paging.mem k (f + 8 * (2 * i + 1))) = vt_d.secondary_page_levels e - 2 /\ bits 8 16 (paging.mem k (f + 8 * (2 * i + 1))) = 1
    | None => present (paging.mem k (f + 8 * (2 * i))) = false
    end;
  e_tree : forall sid r own, trees G !! sid = Some (r, own) ->
    0 <= sid < 65536 /\ is_Some (ctabs G !! (sid / 256)) /\ sl_ok kown own (levels e) r k;
  e_map : exists ids kvs, linked_list.rep (vt_d.sl_map e) ids kvs /\
    forall sid, assoc sid kvs = (fun t => sl_paging.mk (vt_d.secondary_page_levels e) t.1) <$> trees G !! sid;
  e_dom : bitmap.get_free_bit (vt_d.domain_ids e) = Ret 1 }.

(** What the trees say about a request. *)
Definition tree_walk {S} (G : ghost) (e : vt_d.engine) (k : paging.kernel S) (sid page : Z) : option Z :=
  match trees G !! sid with Some (r, _) => page_walk (levels e) (paging.mem k) r page | None => None end.

(** ** Lemmas: entries *)

Section entry_lemmas.
Import vt_d.

Lemma ptr_word w : is_u64 w -> ptr w = w - w mod 4096.
Proof.
  intros Hw. unfold ptr, is_u64 in *. rewrite bits_mod, Z.shiftl_mul_pow2 by lia. change (2 ^ 12) with 4096. change (2 ^ 52) with 4503599627370496. wrap_lia.
Qed.

Lemma set_ptr_ok phys old :
  frame_ok phys -> is_u64 old ->
  is_u64 (set_ptr (Z.shiftr phys 12) old) /\ ptr (set_ptr (Z.shiftr phys 12) old) = phys /\
  present (set_ptr (Z.shiftr phys 12) old) = present old.
Proof.
  intros [Hp Hm] Ho. unfold set_ptr. split_and!.
  - apply (set_bits_range _ _ _ _ 64); lia || exact Ho.
  - unfold ptr. rewrite bits_set_same, Z.shiftr_div_pow2, Z.shiftl_mul_pow2 by lia.
    change (2 ^ 12) with 4096 in *. change (2 ^ 52) with 4503599627370496 in *. unfold block_size in Hm. wrap_lia.
  - unfold present. rewrite testbit_set_bits, decide_False by lia. done.
Qed.

Lemma set_present_ok w : is_u64 w -> is_u64 (set_present 1 w) /\ ptr (set_present 1 w) = ptr w /\ present (set_present 1 w) = true.
Proof.
  intros Hw. unfold set_present. split_and!.
  - apply (set_bits_range _ _ _ _ 64); lia || exact Hw.
  - unfold ptr. by rewrite bits_set_other by lia.
  - unfold present. rewrite testbit_set_bits, decide_True by lia. done.
Qed.

Lemma set_translation_type_ok w : is_u64 w -> is_u64 (set_translation_type 0 w) /\ present (set_translation_type 0 w) = present w.
Proof.
  intros Hw. unfold set_translation_type. split.
  - apply (set_bits_range _ _ _ _ 64); lia || exact Hw.
  - unfold present. rewrite testbit_set_bits, decide_False by lia. done.
Qed.

Lemma context_hi_ok l w :
  3 <= l <= 5 -> is_u64 w ->
  is_u64 (set_address_width (l - 2) w) /\ is_u64 (set_domain_id 1 (set_address_width (l - 2) w)) /\
  bits 0 3 (set_domain_id 1 (set_address_width (l - 2) w)) = l - 2 /\ bits 8 16 (set_domain_id 1 (set_address_width (l - 2) w)) = 1.
Proof.
  intros Hl Hw. unfold set_domain_id, set_address_width.
  assert (H1 : is_u64 (set_bits 0 3 (l - 2) w)) by (apply (set_bits_range _ _ _ _ 64); lia || exact Hw). split_and!.
  - done.
  - apply (set_bits_range _ _ _ _ 64); lia || exact H1.
  - rewrite bits_set_other, bits_set_same by lia. apply Z.mod_small. change (2 ^ 3) with 8. lia.
  - by rewrite bits_set_same by lia.
Qed.

(** Setting a field above all bits of a word adds to it. *)
Lemma set_bits_above lo n x v : 0 <= lo -> 0 <= n -> 0 <= v < 2 ^ lo -> 0 <= x < 2 ^ n -> set_bits lo n x v = x * 2 ^ lo + v.
Proof.
  intros Hlo Hn Hv Hx. unfold set_bits. rewrite Z.land_ones, (Z.mod_small x) by lia.
  replace (Z.ldiff v (Z.shiftl (Z.ones n) lo)) with v.
  - rewrite Z.lor_comm, Z.shiftl_mul_pow2, <- Z.add_lor_land by lia.
    replace (Z.land (x * 2 ^ lo) v) with 0; [lia |]. symmetry. apply Z.bits_inj'. intros i Hi. rewrite Z.land_spec, Z.bits_0.
    destruct (Z.lt_ge_cases i lo); [by rewrite Z.mul_pow2_bits_low by lia | rewrite (testbit_small v lo i) by lia; apply andb_false_r].
  - apply Z.bits_inj'. intros i Hi. rewrite Z.ldiff_spec. destruct (Z.lt_ge_cases i lo).
    + rewrite Z.shiftl_spec, (Z.testbit_neg_r _ (i - lo)) by lia. by rewrite andb_true_r.
    + by rewrite (testbit_small v lo i) by lia.
Qed.

(** The identifier of a device on a bus. *)
Lemma source_id_eq bus dev func : 0 <= bus < 256 -> 0 <= dev < 32 -> 0 <= func < 8 -> source_id bus dev func = bus * 256 + (dev * 8 + func).
Proof.
  intros Hb Hd Hf. unfold source_id. rewrite (set_bits_above 0 3 func 0) by (cbn; lia). rewrite Z.mul_1_r, Z.add_0_r.
  rewrite (set_bits_above 3 5 dev func) by (cbn; lia). rewrite (set_bits_above 8 8 bus) by (cbn; lia). lia.
Qed.
End entry_lemmas.

(** ** Lemmas: the invariant *)

Section engine_lemmas.
Context {S : Type} `{FA : FrameAllocatorLaws S}.
Implicit Types (k : paging.kernel S) (kown : gmap Z (nat * Z)) (G : ghost) (e : vt_d.engine).
Import vt_d.

(** The hardware finds the trees. *)
Lemma dma_tree_walk kown kroot G e k sid page :
  engine_ok kown kroot G e k -> 0 <= sid < 65536 -> dma_translate (paging.mem k) (root_phys e) sid page = tree_walk G e k sid page.
Proof.
  intros OK Hs. unfold dma_translate, tree_walk. assert (Hb : 0 <= sid / 256 < 256) by wrap_lia. assert (Hi : 0 <= sid mod 256 < 256) by wrap_lia.
  assert (Hsid : sid / 256 * 256 + sid mod 256 = sid) by wrap_lia.
  assert (B := e_bus _ _ _ _ _ OK _ Hb). destruct (ctabs G !! (sid / 256)) as [f |] eqn:Ec.
  - destruct B as [-> ->]. assert (C := e_ctx _ _ _ _ _ OK _ _ _ Ec Hi). rewrite Hsid in C.
    destruct (trees G !! sid) as [[r own] |]; [| by rewrite C]. destruct C as (-> & -> & -> & _).
    unfold levels. by rewrite Z.sub_add.
  - rewrite B. destruct (trees G !! sid) as [[r own] |] eqn:Et; [| done].
    destruct (e_tree _ _ _ _ _ OK _ _ _ Et) as (_ & [f Hf] & _). congruence.
Qed.

(** A step that keeps all data keeps the invariant and the trees. *)
Lemma engine_kept kown kroot G e k kown' k' :
  engine_ok kown kroot G e k -> space_ok kown' kroot k' ->
  (forall f, data_frame kown k f -> data_frame kown' k' f /\ frame_kept f k k') ->
  engine_ok kown' kroot G e k' /\ forall sid page, tree_walk G e k' sid page = tree_walk G e k sid page.
Proof.
  intros OK OK' Hk. assert (Hu := t_word _ _ _ (s_tables _ _ _ OK')).
  assert (Hw : forall o f i, owned G e o f -> 0 <= i < 512 -> paging.mem k' (f + 8 * i) = paging.mem k (f + 8 * i)).
  { intros o f i Ho Hi. apply (Hk f (e_data _ _ _ _ _ OK _ _ Ho)). by apply word_in. }
  assert (Ht : forall sid r own, trees G !! sid = Some (r, own) ->
    sl_ok kown' own (levels e) r k' /\ forall page, page_walk (levels e) (paging.mem k') r page = page_walk (levels e) (paging.mem k) r page).
  { intros sid r own Et. destruct (e_tree _ _ _ _ _ OK _ _ _ Et) as (_ & _ & SL). eapply sl_ok_kept; [exact SL | done |].
    intros f x Hf. apply Hk, (e_data _ _ _ _ _ OK (Otree sid)). by exists r, own. }
  split.
  - constructor; try apply OK; [done | | | |].
    + intros o f Ho. apply Hk. by apply (e_data _ _ _ _ _ OK o).
    + intros bus Hb. rewrite (Hw Oroot) by (done || lia). by apply (e_bus _ _ _ _ _ OK).
    + intros bus i f Hc Hi. rewrite !(Hw (Octab bus)) by (done || lia). by apply (e_ctx _ _ _ _ _ OK).
    + intros sid r own Et. destruct (e_tree _ _ _ _ _ OK _ _ _ Et) as (? & ? & _). destruct (Ht _ _ _ Et) as [? _]. done.
  - intros sid page. unfold tree_walk. destruct (trees G !! sid) as [[r own] |] eqn:Et; [| done]. by apply (Ht sid r own).
Qed.

(** A write to a word of a frame of the engine. *)
Lemma write_frame kown kroot k f i v :
  space_ok kown kroot k -> data_frame kown k f -> 0 <= i < 512 -> is_u64 v ->
  let k' := paging.mk (paging.frames k) (write_word (paging.mem k) (f + 8 * i) v) in
  space_ok kown kroot k' /\ (forall g, data_frame kown k g -> g <> f -> frame_kept g k k') /\
  (forall j, 0 <= j < 512 -> paging.mem k' (f + 8 * j) = if decide (j = i) then v else paging.mem k (f + 8 * j)).
Proof.
  intros OK Hf Hi Hv k'. split_and!; [by apply kernel_write | |].
  - intros g Hg Hne x Hx. by apply (word_outside k g f); [apply Hg | apply Hf | ..].
  - intros j Hj. cbn. unfold write_word. case_decide as E; [subst; by rewrite Z.eqb_refl |]. rewrite (proj2 (Z.eqb_neq _ _)); [done | lia].
Qed.

(** The trees are kept by a write to another frame. *)
Lemma trees_write kown kroot G e k o f i v :
  engine_ok kown kroot G e k -> owned G e o f -> (forall sid, o <> Otree sid) -> 0 <= i < 512 -> is_u64 v ->
  let k' := paging.mk (paging.frames k) (write_word (paging.mem k) (f + 8 * i) v) in
  forall sid r own, trees G !! sid = Some (r, own) ->
    sl_ok kown own (levels e) r k' /\ forall page, page_walk (levels e) (paging.mem k') r page = page_walk (levels e) (paging.mem k) r page.
Proof.
  intros OK Ho Hne Hi Hv k' sid r own Et. assert (Df := e_data _ _ _ _ _ OK _ _ Ho).
  destruct (write_frame kown kroot k f i v (e_space _ _ _ _ _ OK) Df Hi Hv) as (OK' & Hk & _).
  destruct (e_tree _ _ _ _ _ OK _ _ _ Et) as (_ & _ & SL). eapply sl_ok_kept; [exact SL | apply (s_tables _ _ _ OK') |].
  intros g x Hg. assert (Og : owned G e (Otree sid) g) by (exists r, own; split; [done | by eexists]).
  assert (Dg := e_data _ _ _ _ _ OK _ _ Og). split; [exact Dg |]. apply Hk; [exact Dg |]. intros ->.
  apply (Hne sid). exact (e_disj _ _ _ _ _ OK _ _ _ Ho Og).
Qed.

(** Writing a context entry that stays absent. *)
Lemma context_write kown kroot G e k bus j f i v :
  engine_ok kown kroot G e k -> ctabs G !! bus = Some f -> 0 <= j < 256 -> trees G !! (bus * 256 + j) = None -> is_u64 v ->
  i = 2 * j /\ present v = false \/ i = 2 * j + 1 ->
  let k' := paging.mk (paging.frames k) (write_word (paging.mem k) (f + 8 * i) v) in
  engine_ok kown kroot G e k' /\ (forall sid page, tree_walk G e k' sid page = tree_walk G e k sid page) /\
  (forall l, 0 <= l < 512 -> paging.mem k' (f + 8 * l) = if decide (l = i) then v else paging.mem k (f + 8 * l)).
Proof.
  intros OK Hc Hj Hn Hv Hw k'. assert (Ho : owned G e (Octab bus) f) by exact Hc. assert (Df := e_data _ _ _ _ _ OK _ _ Ho).
  assert (Hi : 0 <= i < 512) by lia. destruct (write_frame kown kroot k f i v (e_space _ _ _ _ _ OK) Df Hi Hv) as (OK' & Hk & Hself).
  assert (Ht := trees_write kown kroot G e k _ f i v OK Ho ltac:(done) Hi Hv). fold k' in OK', Hk, Hself, Ht.
  assert (Hother : forall o g l, owned G e o g -> o <> Octab bus -> 0 <= l < 512 -> paging.mem k' (g + 8 * l) = paging.mem k (g + 8 * l)).
  { intros o g l Og Hne Hl. apply (Hk g); [by eapply (e_data _ _ _ _ _ OK) | | by apply word_in]. intros ->. apply Hne. exact (e_disj _ _ _ _ _ OK _ _ _ Og Ho). }
  split_and!; [| | exact Hself].
  - constructor; [exact OK' | apply OK | intros o g Og; exact (e_data _ _ _ _ _ OK o g Og) | apply OK | | | | apply OK | apply OK].
    + intros b Hb. rewrite (Hother Oroot) by (done || lia). by apply (e_bus _ _ _ _ _ OK).
    + intros b l g Hg Hl. destruct (decide (b = bus)) as [-> | Hb].
      * assert (g = f) as -> by congruence. rewrite !Hself by lia. assert (C := e_ctx _ _ _ _ _ OK _ _ _ Hc Hl). destruct (decide (l = j)) as [-> | Hlj].
        -- rewrite Hn in C |- *. destruct Hw as [[-> Hp] | ->]; [by rewrite decide_True | by rewrite decide_False by lia].
        -- rewrite !decide_False by (destruct Hw as [[-> _] | ->]; lia). done.
      * rewrite !(Hother (Octab b)) by (done || lia || congruence). by apply (e_ctx _ _ _ _ _ OK).
    + intros sid r own Et. destruct (e_tree _ _ _ _ _ OK _ _ _ Et) as (? & ? & _). destruct (Ht _ _ _ Et) as [? _]. done.
  - intros sid page. unfold tree_walk. destruct (trees G !! sid) as [[r own] |] eqn:Et; [| done]. by apply (Ht sid r own).
Qed.
(** The tables with a context table for [bus]. *)
Definition add_ctab (bus f : Z) G : ghost := mk_ghost (<[bus := f]> (ctabs G)) (trees G).

Lemma owned_add_ctab G e bus f o g :
  owned (add_ctab bus f G) e o g -> (o = Octab bus /\ g = f) \/ owned G e o g.
Proof.
  destruct o as [| b | sid]; cbn; [by right | | by right]. destruct (decide (b = bus)) as [-> | Hne].
  - rewrite lookup_insert_eq. intros [= ->]. by left.
  - rewrite lookup_insert_ne by done. by right.
Qed.

(** Linking a zeroed frame as the context table of a bus. *)
Lemma link_ctab kown kroot G e k bus phys v :
  engine_ok kown kroot G e k -> 0 <= bus < 256 -> ctabs G !! bus = None -> data_frame kown k phys -> (forall o, ~ owned G e o phys) ->
  (forall x, phys <= x < phys + block_size -> paging.mem k x = 0) -> is_u64 v -> present v = true -> ptr v = phys ->
  let k' := paging.mk (paging.frames k) (write_word (paging.mem k) (root_phys e + 8 * (2 * bus)) v) in
  engine_ok kown kroot (add_ctab bus phys G) e k' /\ forall sid page, tree_walk (add_ctab bus phys G) e k' sid page = tree_walk G e k sid page.
Proof.
  intros OK Hb Hn Dp Hno Hz Hv Hp Hptr k'. assert (Ho : owned G e Oroot (root_phys e)) by done. assert (Df := e_data _ _ _ _ _ OK _ _ Ho).
  assert (Hi : 0 <= 2 * bus < 512) by lia. destruct (write_frame kown kroot k _ (2 * bus) v (e_space _ _ _ _ _ OK) Df Hi Hv) as (OK' & Hk & Hself).
  assert (Ht := trees_write kown kroot G e k Oroot _ (2 * bus) v OK Ho ltac:(done) Hi Hv). fold k' in OK', Hk, Hself, Ht.
  assert (Hpr : phys <> root_phys e) by (intros ->; by apply (Hno Oroot)).
  split.
  - constructor; [exact OK' | apply OK | | | | | | apply OK | apply OK].
    + intros o g [[-> ->] | Og]%owned_add_ctab; [exact Dp | exact (e_data _ _ _ _ _ OK o g Og)].
    + intros o o' g [[-> ->] | Og]%owned_add_ctab [[-> Eg] | Og']%owned_add_ctab; [done | by destruct (Hno o') | subst g; by destruct (Hno o) |].
      exact (e_disj _ _ _ _ _ OK _ _ _ Og Og').
    + intros b Hb'. rewrite Hself by lia. cbn. destruct (decide (b = bus)) as [-> | Hne].
      * by rewrite lookup_insert_eq, decide_True by done.
      * rewrite lookup_insert_ne, decide_False by (done || lia). by apply (e_bus _ _ _ _ _ OK).
    + intros b i g Hg Hi'. cbn [add_ctab ctabs trees] in Hg |- *. destruct (decide (b = bus)) as [-> | Hne].
      * rewrite lookup_insert_eq in Hg. injection Hg as <-. destruct (trees G !! (bus * 256 + i)) as [[r own] |] eqn:Et.
        -- destruct (e_tree _ _ _ _ _ OK _ _ _ Et) as (_ & [x Hx] & _). replace ((bus * 256 + i) / 256) with bus in Hx by wrap_lia. congruence.
        -- rewrite (Hk phys Dp Hpr) by (apply word_in; lia). rewrite Hz by (apply word_in; lia). done.
      * rewrite lookup_insert_ne in Hg by done. assert (Og : owned G e (Octab b) g) by exact Hg. assert (Dg := e_data _ _ _ _ _ OK _ _ Og).
        assert (g <> root_phys e) by (intros ->; by discriminate (e_disj _ _ _ _ _ OK _ _ _ Og Ho)).
        rewrite !(Hk g) by (done || (apply word_in; lia)). by apply (e_ctx _ _ _ _ _ OK).
    + intros sid r own Et. cbn in Et. destruct (e_tree _ _ _ _ _ OK _ _ _ Et) as (? & [x Hx] & _). destruct (Ht _ _ _ Et) as [? _].
      split_and!; [lia | lia | | done]. cbn. destruct (decide (sid / 256 = bus)) as [-> |]; [by rewrite lookup_insert_eq | rewrite lookup_insert_ne by done; by eexists].
  - intros sid page. unfold tree_walk. cbn. destruct (trees G !! sid) as [[r own] |] eqn:Et; [| done]. by apply (Ht sid r own).
Qed.

Lemma ensure_context_table_ok kown kroot G e k bus :
  engine_ok kown kroot G e k -> 0 <= bus < 256 -> (4 <= length (fa_pages (paging.frames k)))%nat ->
  exists f k' kown' G', ensure_context_table (to_virt kroot) bus e k = Ret (to_virt f, k') /\ engine_ok kown' kroot G' e k' /\
    ctabs G' !! bus = Some f /\ trees G' = trees G /\ uses 4 k k' /\ forall sid page, tree_walk G' e k' sid page = tree_walk G e k sid page.
Proof.
  intros OK Hb Hl. assert (Ho : owned G e Oroot (root_phys e)) by done. assert (Dr := e_data _ _ _ _ _ OK _ _ Ho).
  assert (B := e_bus _ _ _ _ _ OK _ Hb). unfold ensure_context_table. rewrite load_word by (apply Dr || lia).
  destruct (ctabs G !! bus) as [f |] eqn:Ec.
  { destruct B as [-> ->]. exists f, k, kown, G. split_and!; try done. exists []. split; [cbn; lia | done]. }
  rewrite B. destruct (create_table_success kown kroot k (e_space _ _ _ _ _ OK) Hl) as (phys & k1 & E). rewrite E. cbn [mbind res_bind].
  destruct (create_table_ok kown kroot k phys k1 (e_space _ _ _ _ _ OK) E) as (kown1 & OK1 & Dp & _ & Hz & U & Hk & _).
  destruct (engine_kept kown kroot G e k kown1 k1 OK OK1) as [EOK1 HW1]; [intros f Hf; by apply (Hk f) |].
  assert (Dr1 := e_data _ _ _ _ _ EOK1 _ _ Ho). assert (Hu := t_word _ _ _ (s_tables _ _ _ OK1)).
  rewrite load_word, store_word by (apply Dr1 || lia). set (w := paging.mem k1 (root_phys e + 8 * (2 * bus))).
  destruct (set_ptr_ok phys w) as (P1 & P2 & P3); [apply Dp | apply Hu |]. destruct (set_present_ok _ P1) as (Q1 & Q2 & Q3).
  set (v := set_present 1 (set_ptr (Z.shiftr phys 12) w)) in *. rewrite load_word by (apply Dr1 || lia).
  destruct (link_ctab kown1 kroot G e k1 bus phys v EOK1 Hb Ec Dp) as [EOK2 HW2]; [| done | done | done | congruence |].
  { intros o Hop. by destruct (Hk phys (e_data _ _ _ _ _ OK o phys Hop)) as (? & _). }
  eexists phys, _, kown1, (add_ctab bus phys G). split_and!; [| exact EOK2 | by cbn; rewrite lookup_insert_eq | done | exact U | intros; by rewrite HW2].
  cbn [paging.mem]. unfold write_word at 1. rewrite Z.eqb_refl. fold w v. by rewrite Q2, P2.
Qed.
(** The tables with a tree for [sid]. *)
Definition add_tree (sid r : Z) (own : gmap Z (nat * Z)) G : ghost := mk_ghost (ctabs G) (<[sid := (r, own)]> (trees G)).

Lemma owned_add_tree G e l sid r own o g :
  owned (add_tree sid r own G) (set_sl_map l e) o g -> (o = Otree sid /\ is_Some (own !! g)) \/ owned G e o g.
Proof.
  destruct o as [| b | s]; cbn; [by right | by right |]. intros (r' & own' & Hs & Hg). destruct (decide (s = sid)) as [-> | Hne].
  - rewrite lookup_insert_eq in Hs. injection Hs as <- <-. by left.
  - rewrite lookup_insert_ne in Hs by done. right. by exists r', own'.
Qed.

(** Setting the present bit of a context entry publishes its tree. *)
Lemma publish kown kroot G e k bus j f v r own l kvs ids :
  engine_ok kown kroot G e k -> 0 <= bus < 256 -> ctabs G !! bus = Some f -> 0 <= j < 256 -> trees G !! (bus * 256 + j) = None ->
  is_u64 v -> present v = true -> ptr v = r ->
  bits 0 3 (paging.mem k (f + 8 * (2 * j + 1))) = secondary_page_levels e - 2 -> bits 8 16 (paging.mem k (f + 8 * (2 * j + 1))) = 1 ->
  sl_ok kown own (levels e) r k -> (forall o g, is_Some (own !! g) -> ~ owned G e o g) ->
  linked_list.rep l ids kvs ->
  (forall sid, assoc sid kvs = (fun t => sl_paging.mk (secondary_page_levels e) t.1) <$> trees (add_tree (bus * 256 + j) r own G) !! sid) ->
  let k' := paging.mk (paging.frames k) (write_word (paging.mem k) (f + 8 * (2 * j)) v) in
  let G' := add_tree (bus * 256 + j) r own G in
  engine_ok kown kroot G' (set_sl_map l e) k' /\
  (forall sid page, sid <> bus * 256 + j -> tree_walk G' (set_sl_map l e) k' sid page = tree_walk G e k sid page) /\
  (forall page, page_walk (levels e) (paging.mem k') r page = page_walk (levels e) (paging.mem k) r page).
Proof.
  intros OK Hb Hc Hj Hn Hv Hp Hptr H0 H8 SL Hno Hrep Hmap k' G'. set (sid := bus * 256 + j) in *. set (e' := set_sl_map l e).
  assert (Ho : owned G e (Octab bus) f) by exact Hc. assert (Df := e_data _ _ _ _ _ OK _ _ Ho). assert (Hi : 0 <= 2 * j < 512) by lia.
  destruct (write_frame kown kroot k f (2 * j) v (e_space _ _ _ _ _ OK) Df Hi Hv) as (OK' & Hk & Hself).
  assert (Ht := trees_write kown kroot G e k _ f (2 * j) v OK Ho ltac:(done) Hi Hv). fold k' in OK', Hk, Hself, Ht.
  destruct (sl_ok_kept kown own (levels e) r k kown k' SL (t_word _ _ _ (s_tables _ _ _ OK'))) as [SL' Hw'].
  { intros g x Hg. assert (Dg := l_data _ _ _ _ _ SL _ _ Hg). split; [exact Dg |]. apply Hk; [exact Dg |]. intros ->. by apply (Hno (Octab bus) f). }
  assert (Hother : forall o g i, owned G e o g -> o <> Octab bus -> 0 <= i < 512 -> paging.mem k' (g + 8 * i) = paging.mem k (g + 8 * i)).
  { intros o g i Og Hne Hi'. apply (Hk g); [by eapply (e_data _ _ _ _ _ OK) | | by apply word_in]. intros ->. apply Hne. exact (e_disj _ _ _ _ _ OK _ _ _ Og Ho). }
  split_and!; [| | exact Hw'].
  - constructor; [exact OK' | apply OK | | | | | | by exists ids, kvs | apply OK].
    + intros o g [[-> [x Hx]] | Og]%owned_add_tree; [exact (l_data _ _ _ _ _ SL _ _ Hx) | exact (e_data _ _ _ _ _ OK o g Og)].
    + intros o o' g [[-> Hg] | Og]%owned_add_tree [[-> Hg'] | Og']%owned_add_tree; [done | by destruct (Hno o' g) | by destruct (Hno o g) |].
      exact (e_disj _ _ _ _ _ OK _ _ _ Og Og').
    + intros b Hb'. cbn [e' set_sl_map root_phys]. rewrite (Hother Oroot) by (done || lia). by apply (e_bus _ _ _ _ _ OK).
    + intros b i g Hg Hi'. cbn [G' add_tree ctabs trees] in Hg |- *. destruct (decide (b * 256 + i = sid)) as [E | E].
      * assert (b = bus) as -> by (unfold sid in E; lia). assert (i = j) as -> by (unfold sid in E; lia). assert (g = f) as -> by congruence.
        unfold sid. rewrite lookup_insert_eq, !Hself by lia. by rewrite decide_True, decide_False by lia.
      * rewrite lookup_insert_ne by done. destruct (decide (b = bus)) as [-> | Hne].
        -- assert (g = f) as -> by congruence. rewrite !Hself by lia. rewrite !decide_False by (unfold sid in E; lia). by apply (e_ctx _ _ _ _ _ OK).
        -- rewrite !(Hother (Octab b)) by (done || lia || congruence). by apply (e_ctx _ _ _ _ _ OK).
    + intros s r' own' Et. cbn [G' add_tree trees] in Et. destruct (decide (s = sid)) as [-> | Hne].
      * rewrite lookup_insert_eq in Et. injection Et as <- <-. split_and!; [unfold sid; lia | unfold sid; lia | | exact SL'].
        exists f. cbn. replace (sid / 256) with bus by (unfold sid; wrap_lia). done.
      * rewrite lookup_insert_ne in Et by done. destruct (e_tree _ _ _ _ _ OK _ _ _ Et) as (? & ? & _). destruct (Ht _ _ _ Et) as [? _]. done.
  - intros s page Hs. unfold tree_walk, G'. cbn [add_tree trees]. rewrite lookup_insert_ne by done.
    destruct (trees G !! s) as [[r' own'] |] eqn:Et; [| done]. by apply (Ht s r' own').
Qed.

(** The first three writes of a new context entry. *)
Lemma prepare_context kown kroot G e k bus j f :
  engine_ok kown kroot G e k -> ctabs G !! bus = Some f -> 0 <= j < 256 -> trees G !! (bus * 256 + j) = None ->
  let k1 := paging.store k (to_virt f) (2 * j) (set_translation_type 0 (paging.load k (to_virt f) (2 * j))) in
  let k2 := paging.store k1 (to_virt f) (2 * j + 1) (set_address_width (secondary_page_levels e - 2) (paging.load k1 (to_virt f) (2 * j + 1))) in
  let k3 := paging.store k2 (to_virt f) (2 * j + 1) (set_domain_id 1 (paging.load k2 (to_virt f) (2 * j + 1))) in
  engine_ok kown kroot G e k3 /\ (forall sid page, tree_walk G e k3 sid page = tree_walk G e k sid page) /\
  paging.frames k3 = paging.frames k /\ present (paging.mem k3 (f + 8 * (2 * j))) = false /\
  bits 0 3 (paging.mem k3 (f + 8 * (2 * j + 1))) = secondary_page_levels e - 2 /\ bits 8 16 (paging.mem k3 (f + 8 * (2 * j + 1))) = 1.
Proof.
  intros OK Hc Hj Hn k1 k2 k3. assert (Df := e_data _ _ _ _ _ OK (Octab bus) f Hc). assert (Hf : frame_ok f) by apply Df.
  assert (Hp := e_ctx _ _ _ _ _ OK _ _ _ Hc Hj). rewrite Hn in Hp.
  assert (Hu := t_word _ _ _ (s_tables _ _ _ (e_space _ _ _ _ _ OK))).
  destruct (set_translation_type_ok (paging.mem k (f + 8 * (2 * j)))) as [T1 T2]; [apply Hu |].
  destruct (context_write kown kroot G e k bus j f (2 * j) (set_translation_type 0 (paging.mem k (f + 8 * (2 * j)))) OK Hc Hj Hn T1) as (O1 & W1 & M1);
    [left; split; [done | congruence] |].
  unfold k3, k2, k1. rewrite !(store_word k), (load_word k) by (done || lia). set (ka := paging.mk _ _) in *.
  destruct (context_hi_ok (secondary_page_levels e) (paging.mem ka (f + 8 * (2 * j + 1)))) as (H1 & H2 & H3 & H4);
    [apply OK | apply (s_tables _ _ _ (e_space _ _ _ _ _ O1)) |].
  destruct (context_write kown kroot G e ka bus j f (2 * j + 1) _ O1 Hc Hj Hn H1) as (O2 & W2 & M2); [by right |].
  rewrite !(store_word ka), (load_word ka) by (done || lia). set (kb := paging.mk (paging.frames ka) _) in *.
  destruct (context_write kown kroot G e kb bus j f (2 * j + 1) _ O2 Hc Hj Hn H2) as (O3 & W3 & M3); [by right |].
  rewrite (store_word kb), (load_word kb) by (done || lia). rewrite (M2 (2 * j + 1)), decide_True by lia.
  split_and!; [exact O3 | intros; by rewrite W3, W2, W1 | done | | |].
  - rewrite M3, decide_False, M2, decide_False, M1, decide_True by lia. congruence.
  - by rewrite M3, decide_True by lia.
  - by rewrite M3, decide_True by lia.
Qed.
(** The last two writes: pointer and present bit of a context entry, for a new
    tree. *)
Lemma finish_context kown kroot G e k bus j f r l ids kvs :
  engine_ok kown kroot G e k -> 0 <= bus < 256 -> ctabs G !! bus = Some f -> 0 <= j < 256 -> trees G !! (bus * 256 + j) = None ->
  present (paging.mem k (f + 8 * (2 * j))) = false -> bits 0 3 (paging.mem k (f + 8 * (2 * j + 1))) = secondary_page_levels e - 2 ->
  bits 8 16 (paging.mem k (f + 8 * (2 * j + 1))) = 1 ->
  sl_ok kown {[r := (levels e, 0)]} (levels e) r k -> (forall o, ~ owned G e o r) -> (forall page, page_walk (levels e) (paging.mem k) r page = None) ->
  linked_list.rep l ids kvs ->
  (forall sid, assoc sid kvs = (fun t => sl_paging.mk (secondary_page_levels e) t.1) <$> trees (add_tree (bus * 256 + j) r {[r := (levels e, 0)]} G) !! sid) ->
  let k1 := paging.store k (to_virt f) (2 * j) (set_ptr (Z.shiftr r 12) (paging.load k (to_virt f) (2 * j))) in
  let k2 := paging.store k1 (to_virt f) (2 * j) (set_present 1 (paging.load k1 (to_virt f) (2 * j))) in
  let G' := add_tree (bus * 256 + j) r {[r := (levels e, 0)]} G in
  engine_ok kown kroot G' (set_sl_map l e) k2 /\ paging.frames k2 = paging.frames k /\
  forall sid page, tree_walk G' (set_sl_map l e) k2 sid page = tree_walk G e k sid page.
Proof.
  intros OK Hb Hc Hj Hn Hp H0 H8 SL Hno Hempty Hrep Hmap k1 k2 G'.
  assert (Df := e_data _ _ _ _ _ OK (Octab bus) f Hc). assert (Hf : frame_ok f) by apply Df.
  assert (Dr := l_data _ _ _ _ _ SL r _ (lookup_singleton_eq _ _)). assert (Hrf : r <> f) by (intros ->; by apply (Hno (Octab bus))).
  destruct (set_ptr_ok r (paging.mem k (f + 8 * (2 * j)))) as (P1 & P2 & P3); [apply Dr | apply (s_tables _ _ _ (e_space _ _ _ _ _ OK)) |].
  destruct (context_write kown kroot G e k bus j f (2 * j) _ OK Hc Hj Hn P1) as (O1 & W1 & M1); [left; split; [done | congruence] |].
  unfold k2, k1. rewrite !(store_word k), (load_word k) by (done || lia). set (ka := paging.mk _ _) in *.
  destruct (sl_ok_kept kown _ (levels e) r k kown ka SL (t_word _ _ _ (s_tables _ _ _ (e_space _ _ _ _ _ O1)))) as [SL1 HW1].
  { intros g x [<- _]%lookup_singleton_Some. split; [exact Dr |]. intros x' Hx. apply (word_outside k r f); try done; [apply Dr | lia]. }
  destruct (set_present_ok _ P1) as (Q1 & Q2 & Q3).
  rewrite (store_word ka), (load_word ka) by (done || lia). rewrite (M1 (2 * j)), decide_True by lia.
  destruct (publish kown kroot G e ka bus j f (set_present 1 (set_ptr (Z.shiftr r 12) (paging.mem k (f + 8 * (2 * j))))) r {[r := (levels e, 0)]} l kvs ids O1 Hb Hc Hj Hn Q1 Q3)
    as (O2 & W2 & HW2); [by rewrite Q2 | rewrite M1, decide_False by lia; done | rewrite M1, decide_False by lia; done | exact SL1 | | exact Hrep | exact Hmap |].
  { intros o g [x [<- _]%lookup_singleton_Some]. apply Hno. }
  split_and!; [exact O2 | done |]. intros sid page. destruct (decide (sid = bus * 256 + j)) as [-> | Hne]; [| rewrite W2 by done; apply W1].
  unfold tree_walk at 2. rewrite Hn. unfold tree_walk, G'. cbn [add_tree trees]. rewrite lookup_insert_eq. cbn [levels set_sl_map secondary_page_levels].
  change (levels (set_sl_map l e)) with (levels e). rewrite HW2, HW1. apply Hempty.
Qed.

Lemma ensure_context_ok kown kroot G e k bus j f :
  engine_ok kown kroot G e k -> 0 <= bus < 256 -> ctabs G !! bus = Some f -> 0 <= j < 256 -> (4 <= length (fa_pages (paging.frames k)))%nat ->
  exists e' k' kown' G', ensure_context (to_virt kroot) (to_virt f) j (bus * 256 + j) e k = Ret (e', k') /\ engine_ok kown' kroot G' e' k' /\
    is_Some (trees G' !! (bus * 256 + j)) /\ root_phys e' = root_phys e /\ secondary_page_levels e' = secondary_page_levels e /\ uses 4 k k' /\
    (forall sid page, tree_walk G' e' k' sid page = tree_walk G e k sid page) /\
    forall sid, is_Some (trees G' !! sid) <-> sid = bus * 256 + j \/ is_Some (trees G !! sid).
Proof.
  intros OK Hb Hc Hj Hl. assert (Df := e_data _ _ _ _ _ OK (Octab bus) f Hc). assert (Hf : frame_ok f) by apply Df.
  assert (C := e_ctx _ _ _ _ _ OK _ _ _ Hc Hj). unfold ensure_context. rewrite (load_word k) by (done || lia).
  destruct (trees G !! (bus * 256 + j)) as [[r own] |] eqn:Et.
  { destruct C as (-> & _). exists e, k, kown, G. split_and!; try done; [exists []; split; [cbn; lia | done] |].
    intros sid. split; [by right | intros [-> | ?]; [rewrite Et; by eexists | done]]. }
  rewrite C, (e_dom _ _ _ _ _ OK). cbn [mbind res_bind]. rewrite <- (load_word k f) by (done || lia).
  destruct (prepare_context kown kroot G e k bus j f OK Hc Hj Et) as (O3 & W3 & F3 & P3 & B3 & D3).
  change (negb (1 =? u64 (Z.lnot 1))) with true. cbn [ASSERT mbind res_bind]. set (k3 := paging.store _ _ _ (set_domain_id _ _)) in *.
  destruct (sl_create_ok kroot kown k3 (secondary_page_levels e) (e_space _ _ _ _ _ O3) (e_levels _ _ _ _ _ OK)) as
    (r & k4 & kown4 & E4 & S4 & SL4 & _ & U4 & Hempty & Hk4); [by rewrite F3 |].
  rewrite E4. cbn [mbind res_bind sl_paging.get_ptr sl_paging.phys_root].
  destruct (engine_kept kown kroot G e k3 kown4 k4 O3 S4) as [O4 W4]; [intros g Hg; by apply (Hk4 g) |].
  destruct (e_map _ _ _ _ _ OK) as (ids & kvs & Hrep & Hmap).
  destruct (hash_map_push_rep nop_hasher (sl_map e) ids kvs (bus * 256 + j) (sl_paging.mk (secondary_page_levels e) r) Hrep) as (l & El & Hrep').
  rewrite El. cbn [mbind res_bind].
  assert (K4 : forall i, 0 <= i < 512 -> paging.mem k4 (f + 8 * i) = paging.mem k3 (f + 8 * i)).
  { intros i Hi. apply (Hk4 f (e_data _ _ _ _ _ O3 (Octab bus) f Hc)). by apply word_in. }
  destruct (finish_context kown4 kroot G e k4 bus j f r l (ids ++ [linked_list.fresh (sl_map e)])
    (kvs ++ [(nop_hasher (bus * 256 + j), sl_paging.mk (secondary_page_levels e) r)]) O4 Hb Hc Hj Et) as (O5 & F5 & W5).
  - rewrite K4 by lia. exact P3.
  - rewrite K4 by lia. exact B3.
  - rewrite K4 by lia. exact D3.
  - exact SL4.
  - intros o Ho. by destruct (Hk4 r (e_data _ _ _ _ _ O3 o r Ho)) as (? & _).
  - exact Hempty.
  - exact Hrep'.
  - intros sid. rewrite assoc_app, Hmap. cbn. destruct (decide (nop_hasher (bus * 256 + j) = sid)) as [E | E]; unfold nop_hasher in E.
    + subst sid. by rewrite Et, lookup_insert_eq.
    + rewrite lookup_insert_ne by done. by destruct (trees G !! sid).
  - eexists _, _, kown4, _. split_and!; [reflexivity | exact O5 | | done | done | | intros; by rewrite W5, W4, W3 |].
    + cbn. rewrite lookup_insert_eq. by eexists.
    + destruct U4 as (u & Hu & P). exists u. split; [done |]. by rewrite F5, <- P, F3.
    + intros sid. cbn. destruct (decide (sid = bus * 256 + j)) as [-> | Hne]; [rewrite lookup_insert_eq | rewrite lookup_insert_ne by done]; naive_solver.
Qed.
Lemma get_translation_ok kown kroot G e k bus dev func :
  engine_ok kown kroot G e k -> 0 <= bus < 255 -> 0 <= dev < 32 -> 0 <= func < 8 -> dev * 8 + func < 255 ->
  (8 <= length (fa_pages (paging.frames k)))%nat ->
  exists r own e' k' kown' G', get_translation (to_virt kroot) bus dev func e k = Ret (sl_paging.mk (secondary_page_levels e) r, e', k') /\
    engine_ok kown' kroot G' e' k' /\ trees G' !! source_id bus dev func = Some (r, own) /\ root_phys e' = root_phys e /\
    secondary_page_levels e' = secondary_page_levels e /\ uses 8 k k' /\
    (forall sid page, tree_walk G' e' k' sid page = tree_walk G e k sid page) /\
    forall sid, is_Some (trees G' !! sid) <-> sid = source_id bus dev func \/ is_Some (trees G !! sid).
Proof.
  intros OK Hb Hd Hf Hi Hl. unfold get_translation. rewrite source_id_eq by lia. set (j := dev * 8 + func) in *.
  assert (Hj : 0 <= j < 255) by lia. unfold table_size. rewrite (proj2 (Z.leb_gt 0xFF bus)) by lia.
  destruct (ensure_context_table_ok kown kroot G e k bus OK) as (f & k1 & kown1 & G1 & E1 & O1 & Hc & Ht & U1 & W1); [lia | lia |].
  rewrite E1. cbn [mbind res_bind].
  replace (Z.land (bus * 256 + j) 0xFF) with j by (change 0xFF with (Z.ones 8); rewrite Z.land_ones by lia; change (2 ^ 8) with 256; wrap_lia).
  rewrite (proj2 (Z.leb_gt 0xFF j)) by lia.
  destruct (ensure_context_ok kown1 kroot G1 e k1 bus j f O1 ltac:(lia) Hc ltac:(lia)) as (e2 & k2 & kown2 & G2 & E2 & O2 & [[r own] Hr] & Er & Es & U2 & W2 & T2).
  { apply uses_length in U1. lia. }
  rewrite E2. cbn [mbind res_bind]. destruct (e_map _ _ _ _ _ O2) as (ids & kvs & Hrep & Hmap).
  rewrite (hash_map_get_rep nop_hasher _ _ _ _ Hrep). unfold nop_hasher. rewrite Hmap, Hr. cbn [fmap option_fmap option_map fst mbind res_bind].
  exists r, own, e2, k2, kown2, G2. split_and!; [by rewrite Es | exact O2 | exact Hr | exact Er | exact Es | exact (uses_trans 4 4 _ _ _ U1 U2) | intros; by rewrite W2, W1 |].
  intros sid. rewrite T2, Ht. done.
Qed.

(** Mapping a page in the tree of a device. *)
Lemma map_ok kown kroot G e k sid r own pa iova flags :
  engine_ok kown kroot G e k -> trees G !! sid = Some (r, own) -> (4 * (levels e - 1) <= length (fa_pages (paging.frames k)))%nat ->
  exists k' kown' G' w, sl_paging.map (to_virt kroot) (sl_paging.mk (secondary_page_levels e) r) pa iova flags k = Ret k' /\
    engine_ok kown' kroot G' e k' /\ get_frame w = get_frame pa /\ (forall i, 0 <= i < 3 -> Z.testbit w i = Z.testbit flags i) /\
    (forall sid' page, sid' <> sid -> tree_walk G' e k' sid' page = tree_walk G e k sid' page) /\
    (forall page, 0 <= page < 512 ^ Z.of_nat (levels e) ->
       tree_walk G' e k' sid page = if decide (page = io_page (levels e) iova) then (if Z.testbit flags 0 then Some w else None) else tree_walk G e k sid page) /\
    forall s, is_Some (trees G' !! s) <-> is_Some (trees G !! s).
Proof.
  intros OK Ht Hl. destruct (e_tree _ _ _ _ _ OK _ _ _ Ht) as (Hs & Hct & SL).
  destruct (sl_map_ok kown own kroot (sl_paging.mk (secondary_page_levels e) r) pa iova flags k (e_levels _ _ _ _ _ OK) (e_space _ _ _ _ _ OK) SL Hl)
    as (k' & kown' & own' & w & E & OK' & SL' & Hw1 & Hw2 & Hwalk & Hkeep).
  assert (Hno : forall o f, owned G e o f -> o <> Otree sid -> own !! f = None).
  { intros o f Ho Hne. destruct (own !! f) as [x |] eqn:Ef; [| done]. exfalso. apply Hne. apply (e_disj _ _ _ _ _ OK o (Otree sid) f Ho). exists r, own. split; [done | by eexists]. }
  assert (Hk : forall o f, owned G e o f -> o <> Otree sid -> data_frame kown' k' f /\ own' !! f = None /\ frame_kept f k k').
  { intros o f Ho Hne. apply Hkeep; [by eapply (e_data _ _ _ _ _ OK) | by eapply Hno]. }
  assert (Hword : forall o f i, owned G e o f -> o <> Otree sid -> 0 <= i < 512 -> paging.mem k' (f + 8 * i) = paging.mem k (f + 8 * i)).
  { intros o f i Ho Hne Hi. apply (Hk o f Ho Hne). by apply word_in. }
  assert (Htree : forall s r' o', trees G !! s = Some (r', o') -> s <> sid ->
    sl_ok kown' o' (levels e) r' k' /\ forall page, page_walk (levels e) (paging.mem k') r' page = page_walk (levels e) (paging.mem k) r' page).
  { intros s r' o' Es Hne. destruct (e_tree _ _ _ _ _ OK _ _ _ Es) as (_ & _ & SLs). eapply sl_ok_kept; [exact SLs | apply (s_tables _ _ _ OK') |].
    intros f x Hf. destruct (Hk (Otree s) f) as (? & _ & ?); [by exists r', o' | congruence | done]. }
  set (G' := mk_ghost (ctabs G) (<[sid := (r, own')]> (trees G))).
  assert (Hown : forall o f, owned G' e o f -> (o = Otree sid /\ is_Some (own' !! f)) \/ (owned G e o f /\ o <> Otree sid)).
  { intros [| b | s] f; cbn; [by right | by right |]. intros (r' & o' & Es & Hf). destruct (decide (s = sid)) as [-> | Hne].
    - rewrite lookup_insert_eq in Es. injection Es as <- <-. by left.
    - rewrite lookup_insert_ne in Es by done. right. split; [by exists r', o' | congruence]. }
  exists k', kown', G', w. split_and!; [exact E | | done | done | | |].
  - constructor; [exact OK' | apply OK | | | | | | | apply OK].
    + intros o f [[-> [x Hx]] | [Ho Hne]]%Hown; [exact (l_data _ _ _ _ _ SL' _ _ Hx) | by apply (Hk o f)].
    + intros o o' f [[-> [x Hx]] | [Ho Hne]]%Hown [[-> [y Hy]] | [Ho' Hne']]%Hown; [done | | | exact (e_disj _ _ _ _ _ OK _ _ _ Ho Ho')].
      * destruct (Hk o' f Ho' Hne') as (_ & ? & _). congruence.
      * destruct (Hk o f Ho Hne) as (_ & ? & _). congruence.
    + intros b Hb. rewrite (Hword Oroot) by (done || lia). by apply (e_bus _ _ _ _ _ OK).
    + intros b i f Hc Hi. rewrite !(Hword (Octab b)) by (done || lia). assert (C := e_ctx _ _ _ _ _ OK _ _ _ Hc Hi). cbn.
      destruct (decide (b * 256 + i = sid)) as [Es | Es]; [rewrite Es, Ht in C; by rewrite Es, lookup_insert_eq | by rewrite lookup_insert_ne by done].
    + intros s r' o' Es. cbn in Es. destruct (decide (s = sid)) as [-> | Hne].
      * rewrite lookup_insert_eq in Es. injection Es as <- <-. split_and!; [lia | lia | exact Hct | exact SL'].
      * rewrite lookup_insert_ne in Es by done. destruct (e_tree _ _ _ _ _ OK _ _ _ Es) as (? & ? & _). by destruct (Htree s r' o' Es Hne) as [? _].
    + destruct (e_map _ _ _ _ _ OK) as (ids & kvs & Hrep & Hmap). exists ids, kvs. split; [done |]. intros s. rewrite Hmap. cbn.
      destruct (decide (s = sid)) as [-> | Hne]; [by rewrite Ht, lookup_insert_eq | by rewrite lookup_insert_ne by done].
  - intros s page Hne. unfold tree_walk, G'. cbn. rewrite lookup_insert_ne by done. destruct (trees G !! s) as [[r' o'] |] eqn:Es; [| done]. by apply (Htree s r' o' Es Hne).
  - intros page Hp. unfold tree_walk, G'. cbn. rewrite lookup_insert_eq, Ht. apply Hwalk, Hp.
  - intros s. unfold G'. cbn. destruct (decide (s = sid)) as [-> | Hne]; [rewrite lookup_insert_eq, Ht | rewrite lookup_insert_ne by done]; naive_solver.
Qed.
End engine_lemmas.

(** The identifier of the domain in the context entry of a device. *)
Definition domain_of (m : memory) (root sid : Z) : Z :=
  bits 8 16 (m (vt_d.ptr (m (root + 8 * (2 * (sid / 256)))) + 8 * (2 * (sid mod 256) + 1))).

(** The device has a context entry. *)
Definition has_context (m : memory) (root sid : Z) : bool :=
  present (m (root + 8 * (2 * (sid / 256)))) && present (m (vt_d.ptr (m (root + 8 * (2 * (sid / 256)))) + 8 * (2 * (sid mod 256)))).

(** What a driver asked for: the device, the page of its address space, the
    physical address and the rights. *)
Record grant := mk_grant { g_sid : Z; g_page : Z; g_pa : Z; g_flags : Z }.

(** An entry that carries out a grant. *)
Definition carries_out (g : grant) (w : Z) : Prop :=
  get_frame w = get_frame (g_pa g) /\ forall i, 0 <= i < 3 -> Z.testbit w i = Z.testbit (g_flags g) i.

(** The latest grant of a page; the list has the latest first. *)
Fixpoint latest (sid page : Z) (l : list grant) : option grant :=
  match l with
  | [] => None
  | g :: l => if decide (g_sid g = sid /\ g_page g = page) then Some g else latest sid page l
  end.

Section rig.
Context {S : Type} `{FA : FrameAllocator S} (kernel_info : Z).

(** An engine at work: its tables, the IOTLB, which holds entries by domain and
    page, and the grants so far. *)
Record rig := mk_rig { r_engine : vt_d.engine; r_kernel : paging.kernel S; r_iotlb : list (Z * Z * Z); r_grants : list grant }.

Definition r_walk (r : rig) (sid page : Z) : option Z := dma_translate (paging.mem (r_kernel r)) (vt_d.root_phys (r_engine r)) sid page.
Definition r_domain (r : rig) (sid : Z) : Z := domain_of (paging.mem (r_kernel r)) (vt_d.root_phys (r_engine r)) sid.
Definition r_context (r : rig) (sid : Z) : bool := has_context (paging.mem (r_kernel r)) (vt_d.root_phys (r_engine r)) sid.

(** A driver maps a page for a device (with enough free frames); the hardware
    caches what a walk found, under the domain of the device; or it drops entries.
    The kernel invalidates the cache only before translation is enabled. *)
Inductive dma_step : rig -> rig -> Prop :=
| dma_grant bus dev func pa iova flags c e e' k k1 k2 tlb gs :
    0 <= bus < 255 -> 0 <= dev < 32 -> 0 <= func < 8 -> dev * 8 + func < 255 -> (24 <= length (fa_pages (paging.frames k)))%nat ->
    vt_d.get_translation kernel_info bus dev func e k = Ret (c, e', k1) -> sl_paging.map kernel_info c pa iova flags k1 = Ret k2 ->
    dma_step (mk_rig e k tlb gs) (mk_rig e' k2 tlb (mk_grant (vt_d.source_id bus dev func) (io_page (levels e) iova) pa flags :: gs))
| dma_fill sid page w e k tlb gs :
    0 <= sid < 65536 -> 0 <= page < 512 ^ Z.of_nat (levels e) -> r_walk (mk_rig e k tlb gs) sid page = Some w ->
    dma_step (mk_rig e k tlb gs) (mk_rig e k ((r_domain (mk_rig e k tlb gs) sid, page, w) :: tlb) gs)
| dma_evict e k tlb tlb' gs : (forall x, x ∈ tlb' -> x ∈ tlb) -> dma_step (mk_rig e k tlb gs) (mk_rig e k tlb' gs).

(** A request of a device for a page goes through the entry [w]: found by the walk,
    or cached for the domain of the device. *)
Definition can_access (r : rig) (sid page w : Z) : Prop :=
  r_walk r sid page = Some w \/ (r_context r sid = true /\ (r_domain r sid, page, w) ∈ r_iotlb r).
End rig.
Arguments rig S : clear implicits.

Section rig_lemmas.
Context {S : Type} `{FA : FrameAllocatorLaws S}.
Implicit Types (k : paging.kernel S) (kown : gmap Z (nat * Z)) (G : ghost) (e : vt_d.engine).

Lemma has_context_tree kown kroot G e k sid :
  engine_ok kown kroot G e k -> 0 <= sid < 65536 -> has_context (paging.mem k) (vt_d.root_phys e) sid = true <-> is_Some (trees G !! sid).
Proof.
  intros OK Hs. unfold has_context. assert (Hb : 0 <= sid / 256 < 256) by wrap_lia. assert (Hi : 0 <= sid mod 256 < 256) by wrap_lia.
  assert (Hsid : sid / 256 * 256 + sid mod 256 = sid) by wrap_lia. assert (B := e_bus _ _ _ _ _ OK _ Hb).
  destruct (ctabs G !! (sid / 256)) as [f |] eqn:Ec.
  - destruct B as [-> ->]. assert (C := e_ctx _ _ _ _ _ OK _ _ _ Ec Hi). rewrite Hsid in C. cbn [andb].
    destruct (trees G !! sid) as [[r own] |]; [destruct C as (-> & _); split; eauto | rewrite C; split; [done | by intros [? ?]]].
  - rewrite B. split; [done |]. intros [[r own] Et]. destruct (e_tree _ _ _ _ _ OK _ _ _ Et) as (_ & [f Hf] & _). congruence.
Qed.

(** All devices of an engine share one domain. *)
Lemma domain_one kown kroot G e k sid :
  engine_ok kown kroot G e k -> is_Some (trees G !! sid) -> domain_of (paging.mem k) (vt_d.root_phys e) sid = 1.
Proof.
  intros OK [[r own] Hs]. destruct (e_tree _ _ _ _ _ OK _ _ _ Hs) as (Hr & [f Hf] & _). unfold domain_of.
  assert (B := e_bus _ _ _ _ _ OK (sid / 256)). rewrite Hf in B. destruct B as [_ ->]; [wrap_lia |].
  assert (C := e_ctx _ _ _ _ _ OK _ (sid mod 256) _ Hf ltac:(wrap_lia)). replace (sid / 256 * 256 + sid mod 256) with sid in C by wrap_lia.
  rewrite Hs in C. apply C.
Qed.

(** The two calls that give a device access to a page, [get_translation] and
    [map], return when enough frames are free; the engine's tables stay well-formed.
    Afterwards a walk of that device for that page finds the frame of [pa] with
    exactly the rights asked for, walks of its other pages and of every other
    device what they found before, and the device has a context. *)
Theorem walk_granted kown kroot G e k (bus dev func pa iova flags : Z) :
  engine_ok kown kroot G e k -> 0 <= bus < 255 -> 0 <= dev < 32 -> 0 <= func < 8 -> dev * 8 + func < 255 ->
  (24 <= length (fa_pages (paging.frames k)))%nat ->
  let sid := vt_d.source_id bus dev func in
  let n := levels e in
  exists c e' k1 k2 kown' G' w, vt_d.get_translation (to_virt kroot) bus dev func e k = Ret (c, e', k1) /\
    sl_paging.map (to_virt kroot) c pa iova flags k1 = Ret k2 /\ engine_ok kown' kroot G' e' k2 /\ levels e' = n /\
    get_frame w = get_frame pa /\ (forall i, 0 <= i < 3 -> Z.testbit w i = Z.testbit flags i) /\
    (forall page, 0 <= page < 512 ^ Z.of_nat n ->
       dma_translate (paging.mem k2) (vt_d.root_phys e') sid page =
         if decide (page = io_page n iova) then (if Z.testbit flags 0 then Some w else None)
         else dma_translate (paging.mem k) (vt_d.root_phys e) sid page) /\
    (forall sid' page, 0 <= sid' < 65536 -> sid' <> sid ->
       dma_translate (paging.mem k2) (vt_d.root_phys e') sid' page = dma_translate (paging.mem k) (vt_d.root_phys e) sid' page) /\
    (forall s, is_Some (trees G' !! s) <-> s = sid \/ is_Some (trees G !! s)).
Proof.
  intros OK Hb Hd Hf Hi Hl sid n.
  destruct (get_translation_ok kown kroot G e k bus dev func OK Hb Hd Hf Hi ltac:(lia)) as (r & own & e' & k1 & kown1 & G1 & E1 & O1 & Ht & Er & Es & U & W1 & T1).
  assert (En : levels e' = n) by (unfold levels, n, levels; by rewrite Es). assert (Hn := e_levels _ _ _ _ _ OK). apply uses_length in U.
  destruct (map_ok kown1 kroot G1 e' k1 sid r own pa iova flags O1 Ht) as (k2 & kown2 & G2 & w & E2 & O2 & Hw1 & Hw2 & Hother & Hself & T2).
  { rewrite En. unfold n, levels. lia. }
  assert (Hs : 0 <= sid < 65536) by (unfold sid; rewrite source_id_eq by lia; lia).
  exists (sl_paging.mk (vt_d.secondary_page_levels e) r), e', k1, k2, kown2, G2, w.
  split_and!; [exact E1 | by rewrite <- Es | exact O2 | done | done | done | | | intros s; by rewrite T2, T1].
  - intros page Hp. rewrite (dma_tree_walk kown2 kroot G2) by done. rewrite Hself, En by (by rewrite En).
    rewrite (dma_tree_walk kown kroot G) by done. by rewrite W1.
  - intros s page Hs' Hne. rewrite (dma_tree_walk kown2 kroot G2) by done. rewrite (dma_tree_walk kown kroot G) by done. by rewrite Hother, W1 by done.
Qed.

(** What a run of an engine keeps. *)
Record rig_ok (kroot : Z) (n : nat) (r : rig S) : Prop := {
  rk_engine : exists kown G, engine_ok kown kroot G (r_engine r) (r_kernel r) /\
    forall sid, is_Some (trees G !! sid) <-> exists g, g ∈ r_grants r /\ g_sid g = sid;
  rk_levels : levels (r_engine r) = n;
  rk_walk : forall sid page, 0 <= sid < 65536 -> 0 <= page < 512 ^ Z.of_nat n ->
    match r_walk r sid page with
    | Some w => exists g, latest sid page (r_grants r) = Some g /\ Z.testbit (g_flags g) 0 = true /\ carries_out g w
    | None => forall g, latest sid page (r_grants r) = Some g -> Z.testbit (g_flags g) 0 = false
    end;
  rk_tlb : forall d page w, (d, page, w) ∈ r_iotlb r ->
    exists g, g ∈ r_grants r /\ g_page g = page /\ Z.testbit (g_flags g) 0 = true /\ carries_out g w }.

Lemma latest_in sid page l g : latest sid page l = Some g -> g ∈ l /\ g_sid g = sid /\ g_page g = page.
Proof.
  induction l as [| h l IH]; [done |]. cbn. destruct (decide _) as [[? ?] |]; [intros [= ->]; split; [by left | done] |].
  intros (? & ? & ?)%IH. split; [by right | done].
Qed.

Lemma dma_step_ok kroot n r r' : dma_step (to_virt kroot) r r' -> rig_ok kroot n r -> rig_ok kroot n r'.
Proof.
  intros Hstep [(kown & G & OK & HG) Hn Hw Ht]. destruct Hstep as
    [bus dev func pa iova flags c e e' k k1 k2 tlb gs Hb Hd Hf Hi Hl E1 E2 | sid page w e k tlb gs Hs Hp Hwalk | e k tlb tlb' gs Hsub];
    cbn [r_engine r_kernel r_iotlb r_grants] in *.
  - destruct (walk_granted kown kroot G e k bus dev func pa iova flags OK Hb Hd Hf Hi Hl)
      as (c' & e2 & k1' & k2' & kown' & G' & w & E1' & E2' & OK' & En & Hw1 & Hw2 & Hself & Hother & Htr).
    rewrite E1 in E1'. injection E1' as <- <- <-. rewrite E2 in E2'. injection E2' as <-.
    set (sid := vt_d.source_id bus dev func) in *. set (g := mk_grant sid _ pa flags). constructor; cbn [r_engine r_kernel r_iotlb r_grants].
    + exists kown', G'. split; [done |]. intros s. rewrite Htr, HG. setoid_rewrite elem_of_cons. naive_solver.
    + congruence.
    + intros s page Hs Hp. unfold r_walk in Hw |- *. cbn [r_engine r_kernel latest] in Hw |- *. cbn [g_sid g_page g]. subst n.
      destruct (decide (s = sid)) as [-> | Hne].
      * rewrite Hself by done. destruct (decide (page = io_page (levels e) iova)) as [-> | Hpg].
        -- rewrite decide_True by done. destruct (Z.testbit flags 0) eqn:Ef; [| by intros ? [= <-]]. by exists g.
        -- rewrite decide_False by (intros [_ ?]; congruence). by apply Hw.
      * rewrite Hother by done. rewrite decide_False by (intros [? _]; congruence). by apply Hw.
    + intros d page w' H. destruct (Ht d page w' H) as (g' & ? & ?). exists g'. split; [by right | done].
  - constructor; cbn [r_engine r_kernel r_iotlb r_grants]; [by exists kown, G | done | exact Hw |].
    intros d page' w' [[= -> -> ->] | H]%elem_of_cons; [| by apply (Ht d)].
    subst n. specialize (Hw sid page Hs Hp). unfold r_walk in Hw, Hwalk. cbn [r_engine r_kernel] in *. rewrite Hwalk in Hw.
    destruct Hw as (g & (? & ? & ?)%latest_in & ? & ?). by exists g.
  - constructor; cbn [r_engine r_kernel r_iotlb r_grants]; [by exists kown, G | done | exact Hw |]. intros d page w H. by apply (Ht d), Hsub.
Qed.

Lemma new_rig_ok kown kroot e k : engine_ok kown kroot (mk_ghost ∅ ∅) e k -> rig_ok kroot (levels e) (mk_rig e k [] []).
Proof.
  intros OK. constructor; cbn; [| done | | by intros d page w ?%elem_of_nil].
  - exists kown, (mk_ghost ∅ ∅). split; [done |]. intros sid. cbn. rewrite lookup_empty. split; [by intros [? ?] | by intros (g & ?%elem_of_nil & _)].
  - intros sid page Hs Hp. unfold r_walk. cbn. rewrite (dma_tree_walk kown kroot (mk_ghost ∅ ∅)) by done. unfold tree_walk. cbn. by rewrite lookup_empty.
Qed.

Lemma rig_run_ok kroot n r r' : rtc (dma_step (to_virt kroot)) r r' -> rig_ok kroot n r -> rig_ok kroot n r'.
Proof. induction 1 as [r | r r1 r' H1 _ IH]; intros OK; [done |]. apply IH. by eapply dma_step_ok. Qed.
End rig_lemmas.

(** ** Theorems *)

(** C8: Devices reach only what drivers were given.  However drivers map pages for
    the devices of a new engine and the hardware caches and drops translations:
    the walk for a device and a page finds the frame and the rights of the latest
    mapping of that page for that device, and nothing where there is none or it is
    not readable; whatever a device reaches, by a walk or by the IOTLB, is a frame
    that was mapped for that page, with those rights, for a device of this engine;
    and a device for which nothing was mapped reaches nothing.  The IOTLB separates
    only domains, and all devices share one (see [iotlb_leak]). *)
Theorem dma_confined {S : Type} `{FA : FrameAllocatorLaws S} (kown : gmap Z (nat * Z)) (kroot : Z) (e : vt_d.engine) (k : paging.kernel S) (r : rig S) :
  engine_ok kown kroot (mk_ghost ∅ ∅) e k -> rtc (dma_step (to_virt kroot)) (mk_rig e k [] []) r ->
  forall sid page, 0 <= sid < 65536 -> 0 <= page < 512 ^ Z.of_nat (levels e) ->
    match r_walk r sid page with
    | Some w => exists g, latest sid page (r_grants r) = Some g /\ Z.testbit (g_flags g) 0 = true /\ carries_out g w
    | None => forall g, latest sid page (r_grants r) = Some g -> Z.testbit (g_flags g) 0 = false
    end /\
    (forall w, can_access r sid page w -> exists g, g ∈ r_grants r /\ g_page g = page /\ Z.testbit (g_flags g) 0 = true /\ carries_out g w) /\
    ((forall g, g ∈ r_grants r -> g_sid g <> sid) -> forall w, ~ can_access r sid page w).
Proof.
  intros OK Hrun sid page Hs Hp. destruct (rig_run_ok kroot _ _ _ Hrun (new_rig_ok kown kroot e k OK)) as [(kown' & G & OK' & HG) _ Hw Ht].
  specialize (Hw sid page Hs Hp). split_and!; [exact Hw | |].
  - intros w [E | [_ Hin]]; [| by apply (Ht (r_domain r sid))]. rewrite E in Hw.
    destruct Hw as (g & (? & ? & ?)%latest_in & ? & ?). by exists g.
  - intros Hno w [E | [Hc _]].
    + rewrite E in Hw. destruct Hw as (g & (? & ? & ?)%latest_in & _). by apply (Hno g).
    + unfold r_context in Hc. apply (has_context_tree kown' kroot G) in Hc; [| done | done]. apply HG in Hc as (g & Hg & Hgs). by apply (Hno g).
Qed.

(** A new engine: no device reaches memory. *)
Lemma new_engine_ok {S : Type} `{FA : FrameAllocatorLaws S} (kown : gmap Z (nat * Z)) (kroot : Z) (k k1 k' : paging.kernel S) (e : vt_d.engine) (base : Z) :
  space_ok kown kroot k -> sl_paging.create_table (to_virt kroot) k = Ret (vt_d.root_phys e, k1) ->
  paging.map_page (to_virt kroot) base (to_virt base) sl_paging.table_flags normal k1 = Ret k' ->
  3 <= vt_d.secondary_page_levels e <= 5 -> vt_d.sl_map e = linked_list.create -> bitmap.get_free_bit (vt_d.domain_ids e) = Ret 1 ->
  exists kown', engine_ok kown' kroot (mk_ghost ∅ ∅) e k'.
Proof.
  intros OK E1 E2 Hl Hm Hd. destruct (create_table_ok kown kroot k _ k1 OK E1) as (kown1 & OK1 & Dr & _ & Hz & _).
  destruct (map_page_ok kown1 kroot k1 base (to_virt base) sl_paging.table_flags normal k' OK1 E2) as (kown2 & _ & OK2 & _ & _ & _ & Hk).
  destruct (Hk _ Dr) as [Dr2 Kr]. exists kown2.
  assert (Hown : forall o f, owned (mk_ghost ∅ ∅) e o f -> o = Oroot /\ f = vt_d.root_phys e).
  { intros [| b | s] f; cbn; [done | by rewrite lookup_empty |]. intros (r & own & Hr & _). by rewrite lookup_empty in Hr. }
  constructor; [exact OK2 | exact Hl | | | | | | | exact Hd].
  - intros o f [-> ->]%Hown. exact Dr2.
  - by intros o o' f [-> _]%Hown [-> _]%Hown.
  - intros bus Hb. cbn. rewrite lookup_empty. rewrite Kr by (apply word_in; lia). rewrite Hz by (apply word_in; lia). done.
  - intros bus i f Hf. cbn in Hf. by rewrite lookup_empty in Hf.
  - intros sid r own Hr. cbn in Hr. by rewrite lookup_empty in Hr.
  - exists [], []. rewrite Hm. split; [apply rep_create | done].
Qed.

(** The levels that the constructor takes, and its identifiers of domains. *)
Lemma page_levels_range cap garbage :
  Z.land (Z.land (Z.shiftr cap 8) 0x1F) 14 <> 0 -> 3 <= vt_d.page_levels cap garbage <= 5.
Proof.
  set (s := Z.land (Z.shiftr cap 8) 0x1F). intros Hs. unfold vt_d.page_levels. fold s.
  destruct (Z.eqb_spec (Z.land s 8) 0) as [H8 |]; [| lia]. destruct (Z.eqb_spec (Z.land s 4) 0) as [H4 |]; [| lia].
  destruct (Z.eqb_spec (Z.land s 2) 0) as [H2 |]; [| lia]. exfalso. apply Hs.
  change 14 with (Z.lor (Z.lor 8 4) 2). rewrite !Z.land_lor_distr_r, H8, H4, H2. done.
Qed.

Lemma domain_ids_new c ids : 0 <= c < 8 -> bitmap.set (bitmap.create (Z.shiftl 1 (2 * c + 4))) 0 = Ret ids -> bitmap.get_free_bit ids = Ret 1.
Proof.
  intros Hc. unfold bitmap.set, bitmap.create. set (n := div_ceil _ 8). cbn [bitmap.array bitmap.n_bytes].
  assert (Hn : 2 <= n).
  { unfold n. assert (c = 0 \/ c = 1 \/ c = 2 \/ c = 3 \/ c = 4 \/ c = 5 \/ c = 6 \/ c = 7) as Hcs by lia.
    destruct Hcs as [-> | [-> | [-> | [-> | [-> | [-> | [-> | ->]]]]]]]; vm_compute; discriminate. }
  unfold bitmap.get_free_bit. destruct (Z.to_nat n) as [| m] eqn:Em; [lia |]. cbn. intros [= <-]. cbn. rewrite Em. reflexivity.
Qed.

(** Device 3.1 is given the page 0x12345 and device 4.0 the page 0x1, of an engine
    with four levels on a machine with 80 free frames. *)
Definition rig_machine : paging.kernel pmm.state :=
  paging.mk (pmm.mk ([pmm.mk_entry 0x100000 80] ++ replicate 6 (pmm.mk_entry 0 0)) 1) (fun _ => 0).

Definition rig_start : res (vt_d.engine * paging.kernel pmm.state) :=
  '(root, k) ← sl_paging.create_table (to_virt root_example) rig_machine;
  k ← paging.map_page (to_virt root_example) 0xFED90000 (to_virt 0xFED90000) sl_paging.table_flags normal k;
  ids ← bitmap.set (bitmap.create (Z.shiftl 1 (2 * 0 + 4))) 0;
  mret (vt_d.mk root linked_list.create 0 1 16 4 0 0 0 ids, k).

Definition give (bus dev func pa iova flags : Z) (x : vt_d.engine * paging.kernel pmm.state) : res (vt_d.engine * paging.kernel pmm.state) :=
  '(c, e, k) ← vt_d.get_translation (to_virt root_example) bus dev func x.1 x.2;
  k ← sl_paging.map (to_virt root_example) c pa iova flags k;
  mret (e, k).

Definition enough (x : vt_d.engine * paging.kernel pmm.state) : bool :=
  (levels x.1 =? 4)%nat && (24 <=? length (fa_pages (paging.frames x.2)))%nat.

Lemma rig_machine_ok : space_ok own_example root_example rig_machine.
Proof.
  constructor; [constructor | ..].
  - unfold own_example. intros f n p [<- _]%lookup_singleton_Some. by_compute.
  - done.
  - intros a. apply is_u64_0.
  - done.
  - change (pmm.wf (paging.frames rig_machine)). by_compute.
  - by_compute.
  - by_compute.
Qed.

Lemma rig_computes :
  match x0 ← rig_start; x1 ← give 0 3 1 0x7000 0x12345000 1 x0; x2 ← give 0 4 0 0x9000 0x1000 3 x1; mret (enough x0 && enough x1) with
  | Ret b => b
  | _ => false
  end = true.
Proof. vm_compute. reflexivity. Qed.

Lemma give_step (bus dev func pa iova flags : Z) x x' gs :
  0 <= bus < 255 -> 0 <= dev < 32 -> 0 <= func < 8 -> dev * 8 + func < 255 -> enough x = true -> give bus dev func pa iova flags x = Ret x' ->
  dma_step (to_virt root_example) (mk_rig x.1 x.2 [] gs)
    (mk_rig x'.1 x'.2 [] (mk_grant (vt_d.source_id bus dev func) (io_page 4 iova) pa flags :: gs)).
Proof.
  intros Hb Hd Hf Hi Hl H. apply bind_Ret in H as ([[c e'] k1] & E1 & H). apply bind_Ret in H as (k2 & E2 & H). inv_res.
  apply andb_true_iff in Hl as [Hn%Nat.eqb_eq Hl%Nat.leb_le]. rewrite <- Hn. by eapply dma_grant.
Qed.

Lemma rig_example :
  exists kown e k r, engine_ok kown root_example (mk_ghost ∅ ∅) e k /\ levels e = 4%nat /\
    rtc (dma_step (to_virt root_example)) (mk_rig e k [] []) r /\
    r_grants r = [mk_grant (vt_d.source_id 0 4 0) 0x1 0x9000 3; mk_grant (vt_d.source_id 0 3 1) 0x12345 0x7000 1].
Proof.
  assert (F := rig_computes). destruct rig_start as [x0 | | |] eqn:E0; [| done ..]. cbn [mbind res_bind] in F.
  destruct (give 0 3 1 0x7000 0x12345000 1 x0) as [x1 | | |] eqn:E1; [| done ..]. cbn [mbind res_bind] in F.
  destruct (give 0 4 0 0x9000 0x1000 3 x1) as [x2 | | |] eqn:E2; [| done ..]. apply andb_true_iff in F as [F0 F1].
  unfold rig_start in E0. apply bind_Ret in E0 as ([root k1] & Ea & E0). apply bind_Ret in E0 as (k2 & Eb & E0).
  apply bind_Ret in E0 as (ids & Ei & E0). injection E0 as <-.
  destruct (new_engine_ok own_example root_example rig_machine k1 k2 (vt_d.mk root linked_list.create 0 1 16 4 0 0 0 ids) 0xFED90000 rig_machine_ok Ea Eb)
    as [kown OK]; [cbn; lia | done | exact (domain_ids_new 0 ids ltac:(lia) Ei) |].
  eexists kown, _, k2, (mk_rig x2.1 x2.2 [] _). split_and!; [exact OK | reflexivity | |].
  - eapply rtc_l; [apply (give_step 0 3 1 0x7000 0x12345000 1 (_, k2) x1); (done || exact E1) |].
    apply rtc_once. apply (give_step 0 4 0 0x9000 0x1000 3 x1 x2); (done || exact E2).
  - reflexivity.
Qed.

Lemma dma_confined_witness :
  exists kown e k r, engine_ok kown root_example (mk_ghost ∅ ∅) e k /\ rtc (dma_step (to_virt root_example)) (mk_rig e k [] []) r /\
    (exists w, r_walk r (vt_d.source_id 0 3 1) 0x12345 = Some w /\ get_frame w = get_frame 0x7000) /\
    r_walk r (vt_d.source_id 0 4 0) 0x12345 = None /\ forall v, ~ can_access r 0x100 0x12345 v.
Proof.
  destruct rig_example as (kown & e & k & r & OK & Hl & Hrun & Hg).
  exists kown, e, k, r. split; [exact OK |]. split; [exact Hrun |].
  assert (H := dma_confined kown root_example e k r OK Hrun). rewrite Hl, Hg in H. split_and!.
  - destruct (H (vt_d.source_id 0 3 1) 0x12345 ltac:(by_compute) ltac:(by_compute)) as [H1 _].
    destruct (r_walk r (vt_d.source_id 0 3 1) 0x12345) as [w |]; [| discriminate (H1 _ eq_refl)].
    destruct H1 as (g & Hgl & _ & Hw & _). injection Hgl as <-. by exists w.
  - destruct (H (vt_d.source_id 0 4 0) 0x12345 ltac:(by_compute) ltac:(by_compute)) as [H2 _].
    destruct (r_walk r (vt_d.source_id 0 4 0) 0x12345) as [v |]; [| done]. destruct H2 as (g & Hgl & _). discriminate Hgl.
  - apply (H 0x100 0x12345 ltac:(by_compute) ltac:(by_compute)). intros g Hin.
    apply elem_of_cons in Hin as [-> | Hin]; [discriminate |]. apply elem_of_cons in Hin as [-> | Hin]; [discriminate | by apply elem_of_nil in Hin].
Defined.

(** Every engine starts closed.  When the constructor of an engine returns, on
    hardware that offers three, four or five levels, its tables are well-formed
    and no request of any device is translated. *)
Theorem engine_starts_closed {S : Type} `{FA : FrameAllocatorLaws S} {D : Type} `{HW : EngineHw D} (kown : gmap Z (nat * Z)) (kroot : Z) (fuel : nat)
    (segment base garbage callback self : Z) (k k' : paging.kernel S) (hs hs' : list idt.handler) (d d' : D) (e : vt_d.engine) :
  space_ok kown kroot k ->
  (forall d : D, Z.land (Z.land (Z.shiftr (eng_rd (to_virt base + vt_d.capabilites_reg) d).1 8) 0x1F) 14 <> 0) ->
  vt_d.create (to_virt kroot) fuel segment base garbage callback self k hs d = Ret (e, k', hs', d') ->
  exists kown', engine_ok kown' kroot (mk_ghost ∅ ∅) e k' /\
    forall sid page, 0 <= sid < 65536 -> dma_translate (paging.mem k') (vt_d.root_phys e) sid page = None.
Proof.
  intros OK Hcap H. unfold vt_d.create in H. apply bind_Ret in H as ([root k1] & E1 & H). apply bind_Ret in H as (k2 & E2 & H).
  destruct (eng_rd (to_virt base + vt_d.version_reg) d) as [v1 d1]. destruct (eng_rd _ d1) as [v2 d2].
  assert (Hc := Hcap d2). destruct (eng_rd (to_virt base + vt_d.capabilites_reg) d2) as [cap d3]. destruct (eng_rd _ d3) as [ecap d4].
  apply bind_Ret in H as (u & _ & H). apply bind_Ret in H as (ids & Ei & H). apply page_levels_range with (garbage := garbage) in Hc.
  set (e0 := vt_d.mk _ _ _ _ _ _ _ _ _ _) in H.
  apply bind_Ret in H as (? & _ & H). destruct (eng_rd _ _) as [c d5]. do 6 (apply bind_Ret in H as (? & _ & H)). destruct (eng_rd _ _) as [c2 d6].
  injection H as <- <- _ _.
  destruct (new_engine_ok kown kroot k k1 k2 e0 base OK E1 E2) as [kown' EOK]; [exact Hc | done | |].
  { eapply domain_ids_new; [| exact Ei]. change 7 with (Z.ones 3). rewrite Z.land_ones by lia. change (2 ^ 3) with 8. wrap_lia. }
  exists kown'. split; [exact EOK |]. intros sid page Hs. rewrite (dma_tree_walk kown' kroot (mk_ghost ∅ ∅)) by done. unfold tree_walk. cbn. by rewrite lookup_empty.
Qed.

(** [get_translation] takes a free identifier of a domain and never marks it as
    used, so that all devices get the same one although their tables are different:
    a translation that the hardware caches for one device can be used by another
    device, for which the page was not mapped. *)
Theorem iotlb_leak {S : Type} `{FA : FrameAllocatorLaws S} (kown : gmap Z (nat * Z)) (kroot : Z) (e : vt_d.engine) (k : paging.kernel S) (r : rig S)
    (sid sid' page w : Z) :
  engine_ok kown kroot (mk_ghost ∅ ∅) e k -> rtc (dma_step (to_virt kroot)) (mk_rig e k [] []) r ->
  (exists g, g ∈ r_grants r /\ g_sid g = sid) -> 0 <= sid < 65536 -> 0 <= sid' < 65536 -> 0 <= page < 512 ^ Z.of_nat (levels e) ->
  r_walk r sid' page = Some w ->
  r_domain r sid = r_domain r sid' /\ exists r', dma_step (to_virt kroot) r r' /\ r_grants r' = r_grants r /\ can_access r' sid page w.
Proof.
  intros OK Hrun Hg Hs Hs' Hp Hw. destruct (rig_run_ok kroot _ _ _ Hrun (new_rig_ok kown kroot e k OK)) as [(kown' & G & OK' & HG) Hn Hwalk _].
  assert (H : forall s, is_Some (trees G !! s) -> r_domain r s = 1) by (intros s; by apply (domain_one kown' kroot G)).
  assert (Ht : is_Some (trees G !! sid)) by by apply HG.
  assert (Ht' : is_Some (trees G !! sid')).
  { specialize (Hwalk sid' page Hs' Hp). rewrite Hw in Hwalk. destruct Hwalk as (g & (? & ? & ?)%latest_in & _). apply HG. by exists g. }
  assert (Hd : r_domain r sid = r_domain r sid') by (by rewrite !H). split; [done |].
  destruct r as [e1 k1 tlb gs]. eexists. split; [apply (dma_fill _ sid' page w); [done | cbn in Hn; by rewrite Hn | done] |].
  split; [done |]. right. split; [by apply (has_context_tree kown' kroot G) |]. cbn [r_iotlb]. rewrite <- Hd. by left.
Qed.

Lemma iotlb_leak_witness :
  exists (e : vt_d.engine) (k : paging.kernel pmm.state) (r r' : rig pmm.state) (w : Z), rtc (dma_step (to_virt root_example)) (mk_rig e k [] []) r' /\
    r_grants r' = r_grants r /\ (forall g, g ∈ r_grants r -> g_sid g = vt_d.source_id 0 4 0 -> g_page g <> 0x12345) /\
    can_access r' (vt_d.source_id 0 4 0) 0x12345 w /\ get_frame w = get_frame 0x7000.
Proof.
  destruct rig_example as (kown & e & k & r & OK & Hl & Hrun & Hg).
  assert (Hw := rk_walk _ _ _ (rig_run_ok root_example _ _ _ Hrun (new_rig_ok kown root_example e k OK)) (vt_d.source_id 0 3 1) 0x12345 ltac:(by_compute)).
  rewrite Hl, Hg in Hw. specialize (Hw ltac:(by_compute)).
  destruct (r_walk r (vt_d.source_id 0 3 1) 0x12345) as [w |] eqn:E; [| discriminate (Hw _ eq_refl)].
  destruct Hw as (g & Hgl & _ & Hw & _). injection Hgl as <-.
  destruct (iotlb_leak kown root_example e k r (vt_d.source_id 0 4 0) (vt_d.source_id 0 3 1) 0x12345 w OK Hrun) as (_ & r' & Hs & Hg' & Ha);
    [| by_compute | by_compute | rewrite Hl; by_compute | exact E |].
  - rewrite Hg. eexists. split; [left | reflexivity].
  - exists e, k, r, r', w. split_and!; [by eapply rtc_r | done | | done | done]. rewrite Hg. intros g Hin.
    apply elem_of_cons in Hin as [-> | Hin]; [discriminate |]. apply elem_of_cons in Hin as [-> | Hin]; [discriminate | by apply elem_of_nil in Hin].
Defined.
