(* ===== verification/Tables.v ===== *)
(** * Tables: the structures that the kernel shares with firmware and hardware

    Models the packed structures of include/Sigma/acpi/tables.h, fadt.h and madt.h,
    those of the MCFG and HPET tables in drivers/pci.h and drivers/hpet.h, and those of
    include/Sigma/arch/x86_64/intel/vt-d.hpp, as layouts.

    Acpi.v, Pci.v, Hpet.v and Iommu.v read and write these structures at numbers.  The
    theorems show that the numbers are the places of the fields. *)

From S2P Require Import Prelude Bits Fields Frames Pmm Paging Acpi Pci SlPaging Iommu.

Module tables.
Definition rsdp : layout :=
  [("signature", 64); ("checksum", 8); ("oem_id", 48); ("revision", 8); ("rsdt_address", 32)]%string.
Definition xsdp : layout :=
  [("signature", 64); ("checksum", 8); ("oem_id", 48); ("revision", 8); ("rsdt_address", 32); ("length", 32); ("xsdt_address", 64);
   ("extended_checksum", 8); ("reserved", 24)]%string.
Definition sdt_header : layout :=
  [("signature", 32); ("length", 32); ("revision", 8); ("checksum", 8); ("oem_id", 48); ("oem_tableid", 64); ("oem_revision", 32);
   ("creator_id", 32); ("creator_revision", 32)]%string.
Definition generic_address_structure : layout :=
  [("id", 8); ("bit_width", 8); ("bit_offset", 8); ("access_size", 8); ("address", 64)]%string.

Definition header : string * Z := ("header"%string, layout_size sdt_header).
Definition gas (name : string) : string * Z := (name, layout_size generic_address_structure).

Definition fadt : layout :=
  [header; ("firmware_control", 32); ("dsdt", 32); ("reserved_0", 8); ("preferred_pm_profile", 8); ("sci_int", 16); ("sci_cmd", 32);
   ("acpi_enable", 8); ("acpi_disable", 8); ("s4bios_req", 8); ("pstate_cnt", 8); ("pm1a_evt_blk", 32); ("pm1b_evt_blk", 32);
   ("pm1a_cnt_blk", 32); ("pm1b_cnt_blk", 32); ("pm2_cnt_blk", 32); ("pm_tmr_blk", 32); ("gpe0_blk", 32); ("gpe1_blk", 32);
   ("pm1_evt_len", 8); ("pm1_cnt_len", 8); ("pm2_cnt_len", 8); ("pm_tmr_len", 8); ("gpe0_blk_len", 8); ("gpe1_blk_len", 8);
   ("gpe1_base", 8); ("cst_cnt", 8); ("p_lvl2_lat", 16); ("p_lvl3_lat", 16); ("flush_size", 16); ("flush_stride", 16);
   ("duty_offset", 8); ("duty_width", 8); ("day_alarm", 8); ("month_alarm", 8); ("century", 8); ("iapc_boot_arch", 16);
   ("reserved_1", 8); ("flags", 32); gas "reset_reg"; ("reset_value", 8); ("arm_boot_arch", 16); ("minor_version", 8);
   ("x_firmware_ctrl", 64); ("x_dsdt", 64); gas "x_pm1a_evt_blk"; gas "x_pm1b_evt_blk"; gas "x_pm1a_cnt_blk"; gas "x_pm1b_cnt_blk";
   gas "x_pm2_cnt_blk"; gas "x_pm_tmr_blk"; gas "x_gpe0_blk"; gas "x_gpe1_blk"; gas "sleep_control_reg"; gas "sleep_status_reg";
   ("hypervisor_vendor_identity", 64)]%string.

Definition madt_header : layout := [header; ("lapic_addr", 32); ("flags", 32)]%string.
Definition madt_lapic : layout := [("type", 8); ("length", 8); ("acpi_uid", 8); ("apic_id", 8); ("flags", 32)]%string.
Definition madt_ioapic : layout := [("type", 8); ("length", 8); ("apic_id", 8); ("reserved", 8); ("ioapic_addr", 32); ("gsi_base", 32)]%string.
Definition madt_gsi_override : layout := [("type", 8); ("length", 8); ("bus", 8); ("source", 8); ("gsi", 32); ("flags", 16)]%string.
Definition madt_lapic_override : layout := [("type", 8); ("length", 8); ("reserved", 16); ("address", 64)]%string.
Definition madt_nmi_source : layout := [("type", 8); ("length", 8); ("flags", 16); ("gsi", 32)]%string.
Definition madt_x2apic : layout := [("type", 8); ("length", 8); ("reserved", 16); ("x2apic_id", 32); ("flags", 32); ("acpi_uid", 32)]%string.

Definition mcfg_table_entry : layout :=
  [("base", 64); ("seg", 16); ("start_bus_number", 8); ("end_bus_number", 8); ("reserved", 32)]%string.
Definition mcfg_table : layout := [header; ("reserved", 64)]%string.

Definition hpet_table : layout :=
  [header; ("event_timer_block_id", 32); gas "base_addr_low"; ("hpet_number", 8); ("main_counter_minimum_periodic_clock_tick", 16);
   ("page_protection", 8)]%string.

Definition dmar : layout := [header; ("host_dma_address_width", 8); ("flags", 8); ("reserved", 80)]%string.
Definition device_scope : layout := [("type", 8); ("length", 8); ("reserved", 16); ("enum_id", 8); ("start_bus_num", 8)]%string.
Definition dma_remapping_def : layout :=
  [("type", 16); ("length", 16); ("flags", 8); ("reserved", 8); ("segment_number", 16); ("register_base", 64)]%string.
Definition reserved_mem_region : layout :=
  [("type", 16); ("length", 16); ("reserved", 16); ("segment_number", 16); ("region_base", 64); ("region_limit", 64)]%string.
Definition root_port_ats_cap : layout := [("type", 16); ("length", 16); ("flags", 8); ("reserved", 8); ("segment_number", 16)]%string.
Definition remapping_hw_static_affinity : layout :=
  [("type", 16); ("length", 16); ("reserved", 32); ("register_base", 64); ("proximity_domain", 32)]%string.
Definition acpi_ns_device_decl : layout := [("type", 16); ("length", 16); ("reserved", 24); ("acpi_device_number", 8)]%string.

(** The entries of the tables of vt-d are two words each. *)
Definition root_entry : layout := [("present", 1); ("reserved", 11); ("context_table_ptr", 52)]%string.
Definition context_entry_low : layout :=
  [("present", 1); ("fault_processing_disable", 1); ("translation_type", 2); ("reserved", 8); ("second_level_page_translation_ptr", 52)]%string.
Definition context_entry_high : layout :=
  [("address_width", 3); ("ignored", 4); ("reserved_0", 1); ("domain_id", 16); ("reserved_1", 40)]%string.
Definition fault_recording_low : layout := [("reserved", 12); ("fault_info", 52)]%string.
Definition fault_recording_high : layout :=
  [("sid", 16); ("reserved_0", 12); ("type_bit_2", 1); ("supervisor", 1); ("execute", 1); ("pasid_present", 1); ("reason", 8);
   ("pasid", 20); ("address_type", 2); ("type_bit_1", 1); ("fault", 1)]%string.
Definition iotlb_addr : layout := [("address_mask", 6); ("invalidation_hint", 1); ("reserved", 5); ("addr", 52)]%string.
Definition iotlb_command : layout :=
  [("reserved", 32); ("domain_id", 16); ("drain_writes", 1); ("drain_reads", 1); ("reserved_0", 7); ("invalidation_granularity", 2);
   ("reserved_1", 1); ("request_granularity", 2); ("reserved_2", 1); ("invalidate", 1)]%string.
Definition iotlb_reg : layout := [("addr", 64); ("command", 64)]%string.
Definition root_table_address_t : layout := [("reserved", 10); ("translation_type", 2); ("address", 52)]%string.
Definition fault_event_upper_address_t : layout := [("reserved", 8); ("upper_destination_id", 24)]%string.
Definition source_id : layout := [("func", 3); ("dev", 5); ("bus", 8)]%string.

Definition dma_remapping_engine_regs : layout :=
  [("version", 32); ("reserved", 32); ("capabilites", 64); ("extended_capabilities", 64); ("global_command", 32); ("global_status", 32);
   ("root_table_address", 64); ("context_command", 64); ("reserved_0", 32); ("fault_status", 32); ("fault_event_control", 32);
   ("fault_event_data", 32); ("fault_event_address", 32); ("fault_event_upper_address", 32); ("reserved_1", 64); ("reserved_2", 64);
   ("advanced_fault_log", 64); ("reserved_3", 32); ("protected_mem_enable", 32); ("protected_low_mem_base", 32);
   ("protected_low_mem_limit", 32); ("protected_high_mem_base", 64); ("protected_high_mem_limit", 64); ("invalidation_queue_head", 64);
   ("invalidation_queue_tail", 64); ("invalidation_queue_address", 64); ("reserved_4", 32); ("invalidation_completion_status", 32);
   ("invalidation_completion_event_control", 32); ("invalidation_completion_event_data", 32);
   ("invalidation_completion_event_address", 32); ("invalidation_completion_event_upper_address", 32);
   ("invalidation_queue_event_record", 64); ("irq_remapping_table_base", 64); ("page_request_queue_head", 64);
   ("page_request_queue_tail", 64); ("page_request_queue_address", 64); ("reserved_5", 32); ("page_request_status", 32);
   ("page_request_event_control", 32); ("page_request_event_data", 32); ("page_request_event_address", 32);
   ("page_request_event_upper_address", 32); ("mtrr_cap", 64); ("default_mtrr_type", 64); ("mttrs", 704); ("variable_mttrs", 1280);
   ("virtual_command_capability", 64); ("reserved_6", 64); ("virtual_command", 64); ("reserved_7", 64); ("virtual_command_response", 64);
   ("reserved_8", 64)]%string.

(** A member of the structure at [p]. *)
Definition field (l : layout) (name : string) (p : Z) (m : Z -> Z) : Z := let '(lo, n) := find_field l name 0 in le_at m (p + lo / 8) (Z.to_nat (n / 8)).
End tables.

(** ** Theorems *)

Lemma le_at_1 m a : m a = le_at m a 1.
Proof. cbn [le_at]. lia. Qed.

(** The structures have the sizes that the code asserts or computes with. *)
Theorem table_sizes :
  (fun l => layout_size l / 8) <$>
    [tables.rsdp; tables.xsdp; tables.sdt_header; tables.generic_address_structure; tables.fadt; tables.madt_header; tables.madt_lapic;
     tables.madt_ioapic; tables.madt_gsi_override; tables.madt_lapic_override; tables.madt_nmi_source; tables.madt_x2apic;
     tables.mcfg_table_entry; tables.mcfg_table; tables.dmar; tables.dma_remapping_def; tables.root_entry; tables.context_entry_high;
     tables.fault_recording_high; tables.iotlb_reg] =
    [20; 36; acpi.sizeof_sdt_header; 12; 276; madt.sizeof_madt_header; 8; 12; 10; 12; 8; 16; mcfg.sizeof_entry; acpi.sizeof_sdt_header + 8;
     vt_d.sizeof_dmar; vt_d.sizeof_dma_remapping_def; 8; 8; 8; 16] /\
  layout_size tables.source_id = 16 /\ layout_size tables.root_table_address_t = 64 /\ layout_size tables.fault_event_upper_address_t = 32.
Proof. split_and!; reflexivity. Qed.

(** The tables of the firmware are read at the places of their fields: the lookup of
    tables, the FADT, every entry of the MADT, and the entries of the MCFG. *)
Theorem firmware_tables_typed (m : Z -> Z) (p : Z) :
  acpi.table_length p m = tables.field tables.sdt_header "length" p m /\
  offset_of tables.fadt <$> ["dsdt"; "sci_int"; "iapc_boot_arch"; "x_dsdt"]%string =
    [acpi.dsdt_offset; acpi.sci_int_offset; acpi.iapc_boot_arch_offset; acpi.x_dsdt_offset] /\
  offset_of tables.madt_header <$> ["lapic_addr"; "flags"]%string = [madt.lapic_addr_offset; madt.flags_offset] /\
  (forall c s, madt.parse_lapic c p m s =
     if madt.usable (tables.field tables.madt_lapic "flags" p m) then
       let id := tables.field tables.madt_lapic "apic_id" p m in
       madt.mk (madt.legacy_pic s) (madt.lapic_addr s)
         (madt.cpus s ++ [madt.mk_cpu id false match c with Some b => Z.land (Z.shiftr b 24) 0xFF =? id | None => false end])
         (madt.ioapics s) (madt.isos s)
     else s) /\
  (forall c s, madt.parse_x2apic c p m s =
     if madt.usable (tables.field tables.madt_x2apic "flags" p m) then
       let id := tables.field tables.madt_x2apic "x2apic_id" p m in
       madt.mk (madt.legacy_pic s) (madt.lapic_addr s)
         (madt.cpus s ++ [madt.mk_cpu id true match c with Some d => d =? id | None => false end]) (madt.ioapics s) (madt.isos s)
     else s) /\
  (forall s, madt.ioapics (madt.parse_ioapic p m s) = madt.ioapics s ++
     [(tables.field tables.madt_ioapic "ioapic_addr" p m, tables.field tables.madt_ioapic "gsi_base" p m)]) /\
  (forall s, madt.isos (madt.parse_iso p m s) = madt.isos s ++
     [madt.mk_iso (tables.field tables.madt_gsi_override "source" p m) (tables.field tables.madt_gsi_override "gsi" p m)
        (tables.field tables.madt_gsi_override "flags" p m)]) /\
  (forall s, madt.lapic_addr (madt.parse_lapic_address_override p m s) = tables.field tables.madt_lapic_override "address" p m) /\
  mcfg.read_entry p m =
    mcfg.mk_entry (tables.field tables.mcfg_table_entry "base" p m) (tables.field tables.mcfg_table_entry "seg" p m)
      (tables.field tables.mcfg_table_entry "start_bus_number" p m) (tables.field tables.mcfg_table_entry "end_bus_number" p m).
Proof.
  split_and!; try reflexivity.
  - intros c s. unfold madt.parse_lapic. by rewrite (le_at_1 m (p + 3)).
  - intros s. unfold madt.parse_iso. by rewrite (le_at_1 m (p + 3)).
  - unfold mcfg.read_entry. rewrite (le_at_1 m (p + 10)), (le_at_1 m (p + 11)). unfold tables.field.
    cbn [find_field tables.mcfg_table_entry String.eqb Ascii.eqb Bool.eqb]. change (0 / 8) with 0. by rewrite Z.add_0_r.
Qed.

(** The IOMMU driver writes and reads the fields that it means: the registers of an
    engine, the entries of its tables, the commands, the identifier of a device, and
    what a fault report shows. *)
Theorem iommu_layouts :
  offset_of tables.dma_remapping_engine_regs <$>
    ["version"; "capabilites"; "extended_capabilities"; "global_command"; "global_status"; "root_table_address"; "context_command";
     "fault_event_control"; "fault_event_data"; "fault_event_address"; "fault_event_upper_address"]%string =
    [vt_d.version_reg; vt_d.capabilites_reg; vt_d.extended_capabilities_reg; vt_d.global_command_reg; vt_d.global_status_reg;
     vt_d.root_table_address_reg; vt_d.context_command_reg; vt_d.fault_event_control_reg; vt_d.fault_event_data_reg;
     vt_d.fault_event_address_reg; vt_d.fault_event_upper_address_reg] /\
  offset_of tables.iotlb_reg "command" = vt_d.iotlb_command_off /\
  vt_d.iotlb_command =
    puts tables.iotlb_command [("drain_reads", 1); ("drain_writes", 1); ("invalidate", 1); ("request_granularity", 1)]%string 0 /\
  (forall x e, vt_d.set_present x e = putf tables.root_entry "present" x e /\ vt_d.set_present x e = putf tables.context_entry_low "present" x e /\
     vt_d.set_ptr x e = putf tables.root_entry "context_table_ptr" x e /\
     vt_d.set_ptr x e = putf tables.context_entry_low "second_level_page_translation_ptr" x e /\
     vt_d.set_translation_type x e = putf tables.context_entry_low "translation_type" x e /\
     vt_d.set_address_width x e = putf tables.context_entry_high "address_width" x e /\
     vt_d.set_domain_id x e = putf tables.context_entry_high "domain_id" x e) /\
  (forall phys, vt_d.root_address phys = puts tables.root_table_address_t [("address", Z.shiftr phys 12); ("translation_type", 0)]%string 0) /\
  (forall bus dev func, vt_d.source_id bus dev func = puts tables.source_id [("func", func); ("dev", dev); ("bus", bus)]%string 0) /\
  (forall hi, vt_d.fault_type hi =
     Z.lor (getf tables.fault_recording_high "type_bit_1" hi) (Z.shiftl (getf tables.fault_recording_high "type_bit_2" hi) 1)) /\
  (forall segment i lo hi devices f, vt_d.report segment i lo hi devices = Ret f ->
     vt_d.f_sid f = getf tables.fault_recording_high "sid" hi /\ vt_d.f_reason f = getf tables.fault_recording_high "reason" hi /\
     vt_d.f_address f = Z.shiftl (getf tables.fault_recording_low "fault_info" lo) 12 /\
     Z.b2z (vt_d.f_supervisor f) = getf tables.fault_recording_high "supervisor" hi /\
     Z.b2z (vt_d.f_execute f) = getf tables.fault_recording_high "execute" hi).
Proof.
  split_and!; try reflexivity; [by intros x e | ].
  intros segment i lo hi devices f E. unfold vt_d.report in E. inv_res.
  assert (Hb : forall j v, 0 <= j -> Z.b2z (Z.testbit v j) = bits j 1 v).
  { intros j v Hj. unfold bits. rewrite Z.land_ones, Z.shiftr_div_pow2 by lia. rewrite Z.testbit_spec' by lia. reflexivity. }
  split_and!; [reflexivity | reflexivity | reflexivity | apply (Hb 29 hi); lia | apply (Hb 30 hi); lia].
Qed.
