(* ===== verification/Regions.v ===== *)
(** * Regions: memory for drivers

    Models the parts of source/proc/process.cpp that give physical memory to a
    process together with the devices it drives: [thread::map_anonymous] with its
    path for raw physical memory, and [thread::get_phys_region].  When DMA is
    remapped, a page that a driver maps is also entered into the second-level
    tables of its devices, at its physical address.

    Process.v has [map_anonymous] as it is without an active IOMMU; [mmap_inactive]
    shows that the two agree then. *)

From S2P Require Import Prelude Bits Containers Frames Pmm Process Elf Pci Paging SlPaging Iommu.

Module region.
Section ops.
Context {S : Type} `{FA : FrameAllocator S}.
Import process.

(** The system, the IOMMU, the device list and the PCI devices. *)
Record state := mk_state { r_sys : sys S; r_iommu : vt_d.iommu; r_list : list pci.gdevice; r_pci : list pci.device }.
Definition set_sys (s : sys S) (st : state) : state := mk_state s (r_iommu st) (r_list st) (r_pci st).

Definition dma_flags : Z := Z.lor sl_paging.mapSlPageRead sl_paging.mapSlPageWrite.

(** [for(auto& device : list)]: the page [phys] for the devices driven by [tid]. *)
Fixpoint map_dma (tid phys : Z) (l : list pci.gdevice) (st : state) : res state :=
  match l with
  | [] => mret st
  | g :: l =>
      if pci.driver g =? tid then
        d ← access (r_pci st !! pci.pci_device g);
        '(c, io, k) ← vt_d.iommu_get_translation (kernel_info (r_sys st)) (c_seg (pci.coords d)) (c_bus (pci.coords d)) (c_slot (pci.coords d)) (c_func (pci.coords d)) (r_iommu st) (kern (r_sys st));
        k ← sl_paging.map (kernel_info (r_sys st)) c phys phys dma_flags k;
        map_dma tid phys l (mk_state (set_kern k (r_sys st)) io (r_list st) (r_pci st))
      else map_dma tid phys l st
  end.

(** The loop of [map_anonymous]. *)
Fixpoint map_pages (n : nat) (active : Z) (allocate_phys : bool) (virt phys map_flags : Z) (i : nat) (st : state) : res state :=
  match n with
  | O => mret st
  | Datatypes.S n =>
      t ← access (threads (r_sys st) !! i);
      st ← (if allocate_phys then
              '(block, fr) ← fa_alloc (paging.frames (kern (r_sys st)));
              if block =? 0 then Panic "Couldn't allocate pages for map_anonymous"
              else
                k ← paging.map_page (vmm t) block virt map_flags normal (paging.mk fr (paging.mem (kern (r_sys st))));
                k ← zero_user_page active virt k;
                mret (set_sys (upd i (fun t => set_frames (frames t ++ [block]) t) (set_kern k (r_sys st))) st)
            else
              st ← (if vt_d.is_active (r_iommu st) then map_dma (tid t) phys (r_list st) st else mret st);
              k ← paging.map_page (vmm t) phys virt map_flags normal (kern (r_sys st));
              mret (set_sys (set_kern k (r_sys st)) st));
      map_pages n active allocate_phys (u64 (virt + block_size)) (u64 (phys + block_size)) map_flags i st
  end.

Definition map_anonymous (fuel : nat) (active size virt_base phys_base prot : Z) (i : nat) (st : state) : res (Z * state) :=
  t ← access (threads (r_sys st) !! i);
  virt_base ← (if virt_base =? 0 then paging.get_free_range fuel (vmm t) mmap_bottom mmap_top size (kern (r_sys st)) else mret virt_base);
  if virt_base =? 0 then mret (0, st)
  else
    st ← map_pages (Z.to_nat (div_ceil size block_size)) active (phys_base =? 0) virt_base phys_base (prot_flags prot) i st;
    mret (virt_base, st).

(** [phys_region]. *)
Record phys_region := mk_region { physical_addr : Z; virtual_addr : Z; size : Z }.

(** [get_phys_region]; [alloc_n_blocks] is the call of the frame allocator, which
    panics when there is no memory, so that the path for a null pointer is only
    taken for address 0. *)
Context (alloc_n_blocks : Z -> S -> res (Z * S)).

Definition get_phys_region (fuel : nat) (active sz prot : Z) (i : nat) (st : state) : res (option phys_region * state) :=
  let n_pages := div_ceil sz block_size in
  '(phys, fr) ← alloc_n_blocks n_pages (paging.frames (kern (r_sys st)));
  let st := set_sys (set_kern (paging.mk fr (paging.mem (kern (r_sys st)))) (r_sys st)) st in
  if phys =? 0 then
    k ← for_loop (Z.to_nat n_pages) 0 (fun j k => paging.free_frame (u64 (phys + block_size * j)) k) (kern (r_sys st));
    mret (None, set_sys (set_kern k (r_sys st)) st)
  else
    let blocks := (fun j => u64 (phys + block_size * j)) <$> seqZ 0 n_pages in
    let st := set_sys (upd i (fun t => set_frames (frames t ++ blocks) t) (r_sys st)) st in
    '(virt, st) ← map_anonymous fuel active sz 0 phys prot i st;
    if virt =? 0 then mret (None, st)
    else
      k ← for_loop (Z.to_nat sz) 0 (fun j k => store_byte active (u64 (virt + j)) 0 k) (kern (r_sys st));
      let st := set_sys (set_kern k (r_sys st)) st in
      t ← access (threads (r_sys st) !! i);
      st ← (if vt_d.is_active (r_iommu st) then map_dma (tid t) phys (r_list st) st else mret st);
      mret (Some (mk_region phys virt sz), st).
End ops.
Arguments state S : clear implicits.
End region.

(** ** Lemmas *)

Section lemmas.
Context {S : Type} `{FA : FrameAllocator S}.
Import region.

(** The result of a call on the system, with the rest of the state. *)
Definition lift (st : state S) {A} (r : res (A * process.sys S)) : res (A * state S) := '(a, s) ← r; mret (a, set_sys s st).

Lemma map_pages_inactive n active al virt phys flags i (st : state S) :
  vt_d.active (r_iommu st) = false ->
  map_pages n active al virt phys flags i st = (s ← process.map_pages n active al virt phys flags i (r_sys st); mret (set_sys s st)).
Proof.
  intros Hn. revert virt phys st Hn. induction n as [| n IH]; intros virt phys st Hn; [by destruct st |]. cbn [map_pages process.map_pages].
  destruct (process.threads (r_sys st) !! i) as [t |]; cbn [access mbind res_bind]; [| done]. destruct al.
  - destruct (fa_alloc _) as [[b fr] | | |]; cbn [mbind res_bind]; try done. destruct (b =? 0); [done |].
    destruct (paging.map_page _ _ _ _ _ _) as [k | | |]; cbn [mbind res_bind]; try done.
    destruct (process.zero_user_page _ _ _) as [k' | | |]; cbn [mbind res_bind]; try done. cbn [mbind res_bind mret res_ret]. by rewrite IH.
  - unfold vt_d.is_active. rewrite Hn. cbn [mbind res_bind mret res_ret].
    destruct (paging.map_page _ _ _ _ _ _) as [k | | |]; cbn [mbind res_bind]; try done. cbn [mbind res_bind mret res_ret]. by rewrite IH.
Qed.

(** Without an active IOMMU this is [map_anonymous] of Process.v. *)
Lemma mmap_inactive fuel active size virt phys prot i (st : state S) :
  vt_d.active (r_iommu st) = false ->
  map_anonymous fuel active size virt phys prot i st = lift st (process.map_anonymous fuel active size virt phys prot i (r_sys st)).
Proof.
  intros Hn. unfold map_anonymous, process.map_anonymous, lift. destruct (process.threads (r_sys st) !! i) as [t |]; cbn [access mbind res_bind]; [| done].
  destruct (if virt =? 0 then _ else _) as [v | | |]; cbn [mbind res_bind]; try done. destruct (v =? 0); [by destruct st |].
  rewrite map_pages_inactive by done. by destruct (process.map_pages _ _ _ _ _ _ _ _).
Qed.
End lemmas.
