(* ===== verification/Nvme.v ===== *)
(** * Nvme: the driver for NVMe disks

    Models src/drivers/storage/nvme: the queue pairs of source/queue.cpp, the
    commands and registers of include/nvme/regs.hpp and the operations of
    source/io_controller.cpp that are built on them.  The controller is hardware,
    [Controller]: it takes steps of its own, in which it fetches commands and
    posts completions; what the protocol promises of it is [ControllerLaws].  The
    memory of the queues and the buffers for data are shared with it.  The regions
    of physical memory come from the kernel ([libsigma_get_phys_region]), an
    argument here.  The bitmap of libdriver/bit.hpp is the same code as the
    kernel's and is taken from Bits.v.  The report of a controller is in NvmeInfo.v. *)

From stdpp Require Import pretty.
From S2P Require Import Prelude Bits Fields.

Module nvme.
(** ** Commands and completions *)

(** A command: the fields of the header that the driver sets, and [cdw]. *)
Record command := mk_command { opcode : Z; cid : Z; namespace_id : Z; prp1 : Z; cdw : list Z }.

(** A completion with its status.  The driver reads [phase] and [code] only; what a
    code means depends on [code_type]. *)
Record status_field := mk_status { phase : bool; code : Z; code_type : Z; retry_delay : Z; more_info : bool; do_not_retry : bool }.
Record completion := mk_completion { command_specific : Z; sq_head_pointer : Z; sq_id : Z; command_id : Z; status : status_field }.

Definition identify_opcode : Z := 0x6.
Definition create_completion_queue_opcode : Z := 0x05.
Definition create_submission_queue_opcode : Z := 0x01.
Definition set_features_opcode : Z := 0x09.
Definition n_queues_fid : Z := 0x07.
Definition read_opcode : Z := 0x02.

(** The layouts of the commands. *)
Definition identify_command (cns nsid prp : Z) : command := mk_command identify_opcode 0 nsid prp [u8 cns; 0; 0; 0; 0; 0].

Definition create_completion_queue_command (qid size irq_enable pc prp : Z) : command :=
  mk_command create_completion_queue_opcode 0 0 prp [set_bits 16 16 size (set_bits 0 16 qid 0); set_bits 1 1 irq_enable (set_bits 0 1 pc 0); 0; 0; 0; 0].

Definition create_submission_queue_command (qid size pc priority cqid prp : Z) : command :=
  mk_command create_submission_queue_opcode 0 0 prp
    [set_bits 16 16 size (set_bits 0 16 qid 0); set_bits 16 16 cqid (set_bits 1 2 priority (set_bits 0 1 pc 0)); 0; 0; 0; 0].

Definition set_features_command (fid data : Z) : command := mk_command set_features_opcode 0 0 0 [set_bits 0 8 fid 0; u32 data; 0; 0; 0; 0].

Definition read_command (start_lba n_sectors nsid prp : Z) : command :=
  mk_command read_opcode 0 nsid prp [u32 start_lba; u32 (Z.shiftr start_lba 32); set_bits 0 16 n_sectors 0; 0; 0; 0].

(** ** The controller *)

(** One step of the controller on the two queues, the writes to its doorbells, and
    the memory it shares with the driver. *)
Class Controller (D : Type) := {
  ctl_step : list command -> list completion -> D -> list completion * D;
  ring_sq : Z -> D -> D;
  ring_cq : Z -> D -> D;
  dma : D -> Z -> Z
}.

(** Its registers, by offset; time passes when one is read. *)
Class ControllerRegs (D : Type) := {
  read_reg : Z -> D -> Z * D;
  write_reg : Z -> Z -> D -> D
}.

(** ** Queue pairs *)

Definition n_commands : Z := 65536.

(** [queue_pair]: the positions of the driver and the memory of the queues. *)
Record queue_pair := mk_queue {
  n_entries : Z; qid : Z; available_cids : bitmap.t;
  sq : list command; sq_tail : Z;
  cq : list completion; cq_head : Z; expected_phase : bool;
  submission_phys : Z; completion_phys : Z }.

(** A new pair, in memory that the kernel cleared. *)
Definition no_command : command := mk_command 0 0 0 0 [0; 0; 0; 0; 0; 0].
Definition no_completion : completion := mk_completion 0 0 0 0 (mk_status false 0 0 0 false false).

Definition new_queue (n qid submission_phys completion_phys : Z) : queue_pair :=
  mk_queue n qid (bitmap.create n_commands) (replicate (Z.to_nat n) no_command) 0 (replicate (Z.to_nat n) no_completion) 0 true
    submission_phys completion_phys.

Definition with_cid (c : command) (id : Z) : command := mk_command (opcode c) id (namespace_id c) (prp1 c) (cdw c).

(** The next position in a ring of [n]: an increment on 16 bits. *)
Definition next (n i : Z) : Z := let i := u16 (i + 1) in if i =? n then 0 else i.

Section driver.
Context {D : Type} `{HD : Controller D}.

Definition send_command (cmd : command) (q : queue_pair) (d : D) : res (Z * queue_pair * D) :=
  id ← bitmap.get_free_bit (available_cids q);
  let id := u16 id in
  _ ← access (sq q !! Z.to_nat (sq_tail q));
  let tail := next (n_entries q) (sq_tail q) in
  mret (id,
    mk_queue (n_entries q) (qid q) (available_cids q) (<[Z.to_nat (sq_tail q) := with_cid cmd id]> (sq q)) tail
      (cq q) (cq_head q) (expected_phase q) (submission_phys q) (completion_phys q),
    ring_sq tail d).

(** [while(true)]: the controller takes steps while the driver polls. *)
Fixpoint poll (fuel : nat) (q : queue_pair) (d : D) : res (completion * queue_pair * D) :=
  match fuel with
  | O => NoFuel
  | S fuel =>
      c ← access (cq q !! Z.to_nat (cq_head q));
      if Bool.eqb (phase (status c)) (expected_phase q) then mret (c, q, d)
      else
        let '(l, d) := ctl_step (sq q) (cq q) d in
        poll fuel (mk_queue (n_entries q) (qid q) (available_cids q) (sq q) (sq_tail q) l (cq_head q) (expected_phase q)
                     (submission_phys q) (completion_phys q)) d
  end.

Definition send_and_wait (fuel : nat) (cmd : command) (q : queue_pair) (d : D) : res (bool * queue_pair * D) :=
  let head := cq_head q in
  '(_, q, d) ← send_command cmd q d;
  '(c, q, d) ← poll fuel q d;
  let ret := code (status c) =? 0 in
  let wrapped := u16 (head + 1) =? n_entries q in
  let head := next (n_entries q) head in
  mret (ret,
    mk_queue (n_entries q) (qid q) (available_cids q) (sq q) (sq_tail q) (cq q) head
      (if wrapped then negb (expected_phase q) else expected_phase q) (submission_phys q) (completion_phys q),
    ring_cq head d).

(** ** The controller driver *)

(** [ns] and the state of [io_controller]. *)
Record ns := mk_ns { n_lbas : Z; sector_size : Z; ns_path : string }.

Record io_controller := mk_io {
  weighted_round_robin_supported : bool; doorbell_stride : Z; n_queue_entries : Z; base : Z;
  admin_queue : queue_pair; io_queue : queue_pair; path : string; namespaces : gmap Z ns }.

Definition set_admin (q : queue_pair) (s : io_controller) : io_controller :=
  mk_io (weighted_round_robin_supported s) (doorbell_stride s) (n_queue_entries s) (base s) q (io_queue s) (path s) (namespaces s).
Definition set_io (q : queue_pair) (s : io_controller) : io_controller :=
  mk_io (weighted_round_robin_supported s) (doorbell_stride s) (n_queue_entries s) (base s) (admin_queue s) q (path s) (namespaces s).
Definition set_path (p : string) (s : io_controller) : io_controller :=
  mk_io (weighted_round_robin_supported s) (doorbell_stride s) (n_queue_entries s) (base s) (admin_queue s) (io_queue s) p (namespaces s).

(** [namespaces[nsid]]: the entry, which is created when it is missing, and its
    replacement. *)
Definition ns_at (nsid : Z) (s : io_controller) : ns := default (mk_ns 0 0 EmptyString) (namespaces s !! nsid).
Definition set_ns (nsid : Z) (x : ns) (s : io_controller) : io_controller :=
  mk_io (weighted_round_robin_supported s) (doorbell_stride s) (n_queue_entries s) (base s) (admin_queue s) (io_queue s) (path s)
    (<[nsid := x]> (namespaces s)).

(** [libsigma_get_phys_region]: the physical address of a new region, [None] when
    there is no memory. *)
Context (fuel : nat) (get_phys_region : Z -> D -> option (Z * D)).

(** [n] bytes of a region. *)
Definition buffer (phys : Z) (n : nat) (d : D) : list Z := (fun i => dma d (phys + i)) <$> seqZ 0 (Z.of_nat n).

(** [identify_controller] and [identify_namespace]: the page that was read. *)
Definition identify (cns nsid : Z) (s : io_controller) (d : D) : res (option (list Z) * io_controller * D) :=
  match get_phys_region 0x1000 d with
  | None => mret (None, s, d)
  | Some (phys, d) =>
      '(_, q, d) ← send_and_wait fuel (identify_command cns nsid phys) (admin_queue s) d;
      mret (Some (buffer phys 0x1000 d), set_admin q s, d)
  end.

Definition identify_controller (s : io_controller) (d : D) := identify 1 0 s d.
Definition identify_namespace (nsid : Z) (s : io_controller) (d : D) := identify 0 nsid s d.

(** The identifiers in a page, without the unused ones. *)
Definition nsid_list (phys : Z) (d : D) : list Z := filter (fun x => x <> 0) ((fun j => le_at (dma d) (phys + 4 * j) 4) <$> seqZ 0 1024).

(** [for(nsid_t i = 0; i < max_nsid; i += 1024)]. *)
Fixpoint namespace_loop (rounds : nat) (max_nsid i phys : Z) (acc : list Z) (s : io_controller) (d : D) : res (list Z * io_controller * D) :=
  match rounds with
  | O => NoFuel
  | S rounds =>
      if i <? max_nsid then
        '(_, q, d) ← send_and_wait fuel (identify_command 2 i phys) (admin_queue s) d;
        namespace_loop rounds max_nsid (u32 (i + 1024)) phys (acc ++ nsid_list phys d) (set_admin q s) d
      else mret (acc, s, d)
  end.

Definition get_active_namespaces (rounds : nat) (max_nsid : Z) (s : io_controller) (d : D) : res (list Z * io_controller * D) :=
  match get_phys_region 0x1000 d with
  | None => mret ([], s, d)
  | Some (phys, d) => namespace_loop rounds max_nsid 0 phys [] s d
  end.

Definition set_features (fid data : Z) (s : io_controller) (d : D) : res (bool * io_controller * D) :=
  '(status, q, d) ← send_and_wait fuel (set_features_command fid data) (admin_queue s) d;
  mret (negb status, set_admin q s, d).

Definition register_queue_pair (pair : queue_pair) (s : io_controller) (d : D) : res (bool * io_controller * D) :=
  let size := n_entries pair - 1 in
  '(ok, q, d) ← send_and_wait fuel (create_completion_queue_command (qid pair) size 0 1 (completion_phys pair)) (admin_queue s) d;
  let s := set_admin q s in
  if negb ok then mret (false, s, d)
  else
    '(ok, q, d) ← send_and_wait fuel (create_submission_queue_command (qid pair) size 1 2 (qid pair) (submission_phys pair)) (admin_queue s) d;
    mret (ok, set_admin q s, d).

Definition read_sector (nsid lba : Z) (s : io_controller) (d : D) : res (list Z * io_controller * D) :=
  let s := set_ns nsid (ns_at nsid s) s in
  if n_lbas (ns_at nsid s) <=? lba then mret ([], s, d)
  else
    match get_phys_region 512 d with
    | None => mret ([], s, d)
    | Some (phys, d) =>
        '(_, q, d) ← send_and_wait fuel (read_command lba 0 nsid phys) (io_queue s) d;
        mret (buffer phys 512 d, set_io q s, d)
    end.
End driver.

(** ** Registers *)

(** The fields of [cap_t] that are used, and what the constructor writes. *)
Definition mqes (cap : Z) : Z := bits 0 16 cap.
Definition dstrd (cap : Z) : Z := bits 32 4 cap.
Definition nssrs (cap : Z) : bool := negb (bits 36 1 cap =? 0).
Definition ams (cap : Z) : Z := bits 17 2 cap.

(** The doorbells of queue [q]. *)
Definition sq_doorbell (base stride q : Z) : Z := u64 (base + 0x1000 + 2 * q * Z.shiftl 4 stride).
Definition cq_doorbell (base stride q : Z) : Z := u64 (base + 0x1000 + (2 * q + 1) * Z.shiftl 4 stride).

(** [aqa_t] for a queue of [n] entries. *)
Definition aqa_word (n old : Z) : Z := set_bits 0 12 (n - 1) (set_bits 16 12 (n - 1) old).

(** [cc_t] with the settings of the constructor. *)
Definition cc_word (weighted : bool) (old : Z) : Z :=
  let cc := set_bits 0 1 0 old in
  let cc := if weighted then set_bits 11 3 (Z.lor (bits 11 3 cc) 1) cc else cc in
  set_bits 0 1 1 (set_bits 16 4 6 (set_bits 20 4 4 (set_bits 4 3 0 (set_bits 7 4 0 cc)))).

(** The ways to shut the controller down. *)
Inductive shutdown_types := NormalShutdown | AbruptShutdown.

(** [reset_subsystem]: what is written to the reset register. *)
Definition reset_word (cap : Z) : option Z := if nssrs cap then Some 0x4E564D65 else None.

(** The offsets of [bar]. *)
Definition cap_reg : Z := 0.
Definition vs_reg : Z := 8.
Definition cc_reg : Z := 20.
Definition controller_status_reg : Z := 28.
Definition subsystem_reset_reg : Z := 32.
Definition aqa_reg : Z := 36.
Definition asq_reg : Z := 40.
Definition acq_reg : Z := 48.

Definition get_vs (major minor tertiary : Z) : Z := Z.lor (Z.lor (Z.shiftl major 16) (Z.shiftl minor 8)) tertiary.

(** The fields of the two identify pages that are used. *)
Definition field (page : list Z) (off : Z) (n : nat) : Z := le_at (fun a => nth (Z.to_nat a) page 0) off n.
Definition info_controller_id (page : list Z) : Z := field page 78 2.
Definition info_nn (page : list Z) : Z := field page 516 4.
Definition ns_nsize (page : list Z) : Z := field page 0 8.
Definition ns_flbas (page : list Z) : Z := field page 26 1.
Definition ns_ds (page : list Z) (format : Z) : Z := bits 16 8 (field page (128 + 4 * format) 4).

Section constructor.
Context {D : Type} `{HD : Controller D} `{HR : ControllerRegs D}.
Context (fuel : nat) (get_phys_region : Z -> D -> option (Z * D)).

(** [while(this->base->controller_status & (1 << 0));] and its negation. *)
Fixpoint wait_ready (fuel : nat) (ready : bool) (d : D) : res D :=
  match fuel with
  | O => NoFuel
  | S fuel =>
      let '(csts, d) := read_reg controller_status_reg d in
      if Bool.eqb (negb (Z.land csts 1 =? 0)) ready then mret d else wait_ready fuel ready d
  end.

Definition reset_subsystem (d : D) : D :=
  let '(cap, d) := read_reg cap_reg d in
  match reset_word cap with Some w => write_reg subsystem_reset_reg w d | None => d end.

Definition set_power_state (t : shutdown_types) (d : D) : D :=
  let '(cc, d) := read_reg cc_reg d in
  let d := write_reg cc_reg (Z.land cc (u32 (Z.lnot (Z.shiftl 3 14)))) d in
  let '(cc, d) := read_reg cc_reg d in
  write_reg cc_reg (Z.lor cc (Z.shiftl 1 match t with AbruptShutdown => 15 | NormalShutdown => 14 end)) d.

(** The constructor of [queue_pair].  Without memory its members stay
    uninitialised, and both callers read them next. *)
Definition make_queue (n qid : Z) (d : D) : res (queue_pair * D) :=
  match get_phys_region (64 * n) d with
  | None => Undef
  | Some (sp, d) =>
      match get_phys_region (16 * n) d with
      | None => Undef
      | Some (cp, d) => mret (new_queue n qid sp cp, d)
      end
  end.

(** The loop over the active namespaces. *)
Definition init_namespace (id : Z) (nsid : Z) (s : io_controller) (d : D) : res (io_controller * D) :=
  '(page, s, d) ← identify_namespace fuel get_phys_region nsid s d;
  match page with
  | None => mret (s, d)
  | Some page =>
      let lba_format := Z.land (ns_flbas page) 0xFF in
      if 16 <=? lba_format then Undef
      else if 64 <=? ns_ds page lba_format then Undef
      else
        mret (set_ns nsid (mk_ns (ns_nsize page) (Z.shiftl 1 (ns_ds page lba_format))
                ("/dev/nvme" +:+ pretty id +:+ "n" +:+ pretty nsid)) s, d)
  end.

Fixpoint init_namespaces (id : Z) (l : list Z) (s : io_controller) (d : D) : res (io_controller * D) :=
  match l with
  | [] => mret (s, d)
  | nsid :: l => '(s, d) ← init_namespace id nsid s d; init_namespaces id l s d
  end.

(** The registers, up to the enabled controller: [garbage] is the member that the
    constructor does not initialise. *)
Definition enable_controller (garbage : bool) (b : Z) (d : D) : res (io_controller * D) :=
  let '(_, d) := read_reg vs_reg d in
  let '(cap, d) := read_reg cap_reg d in
  let n := mqes cap + 1 in
  let weighted := if negb (Z.land (ams cap) 1 =? 0) then true else garbage in
  let d := reset_subsystem d in
  let '(cc, d) := read_reg cc_reg d in
  let cc := set_bits 0 1 0 cc in
  d ← wait_ready fuel false (write_reg cc_reg cc d);
  '(q, d) ← make_queue n 0 d;
  let d := write_reg asq_reg (submission_phys q) (write_reg acq_reg (completion_phys q) d) in
  let '(aqa, d) := read_reg aqa_reg d in
  let d := write_reg aqa_reg (aqa_word n aqa) d in
  d ← wait_ready fuel true (write_reg cc_reg (cc_word weighted cc) d);
  mret (mk_io weighted (dstrd cap) n b q (mk_queue 0 0 (bitmap.create n_commands) [] 0 [] 0 false 0 0) EmptyString ∅, d).

(** The rest of the constructor: identification, namespaces and the I/O queue. *)
Definition init (garbage : bool) (rounds : nat) (b : Z) (d : D) : res (io_controller * D) :=
  '(s, d) ← enable_controller garbage b d;
  '(page, s, d) ← identify_controller fuel get_phys_region s d;
  let info := default (replicate (Z.to_nat 0x1000) 0) page in
  let id := info_controller_id info in
  let s := set_path ("/dev/nvme" +:+ pretty id) s in
  let '(vs, d) := read_reg vs_reg d in
  '(active, s, d) ←
    (if get_vs 1 1 0 <=? vs then get_active_namespaces fuel get_phys_region rounds (info_nn info) s d else mret ([1], s, d));
  '(s, d) ← init_namespaces id active s d;
  '(_, s, d) ← set_features fuel n_queues_fid 0xFFFFFFFF s d;
  '(q, d) ← make_queue (n_queue_entries s) 1 d;
  '(_, s, d) ← register_queue_pair fuel q (set_io q s) d;
  mret (s, d).
End constructor.
End nvme.

(** ** The protocol *)

(** The view of the controller: how far it has fetched and completed, the phase it
    writes, and the commands it has executed with the status of each.  Within
    [latency] steps after a doorbell, it executes the command it has to fetch and
    posts its completion; until then it leaves the queue as it is. *)
Fixpoint ctl_steps {D} `{HD : nvme.Controller D} (n : nat) (sq : list nvme.command) (cq : list nvme.completion) (d : D) : list nvme.completion * D :=
  match n with O => (cq, d) | S n => let '(l, d) := nvme.ctl_step sq cq d in ctl_steps n sq l d end.

Class ControllerLaws (D : Type) `{HD : !nvme.Controller D} := {
  ctl_size : D -> Z;
  ctl_sq_head : D -> Z;
  ctl_sq_tail : D -> Z;
  ctl_cq_tail : D -> Z;
  ctl_phase : D -> bool;
  ctl_log : D -> list (nvme.command * nvme.status_field);
  latency : nat;
  ring_sq_view t d :
    ctl_size (nvme.ring_sq t d) = ctl_size d /\ ctl_sq_head (nvme.ring_sq t d) = ctl_sq_head d /\ ctl_sq_tail (nvme.ring_sq t d) = t /\
    ctl_cq_tail (nvme.ring_sq t d) = ctl_cq_tail d /\ ctl_phase (nvme.ring_sq t d) = ctl_phase d /\ ctl_log (nvme.ring_sq t d) = ctl_log d;
  ring_cq_view t d :
    ctl_size (nvme.ring_cq t d) = ctl_size d /\ ctl_sq_head (nvme.ring_cq t d) = ctl_sq_head d /\ ctl_sq_tail (nvme.ring_cq t d) = ctl_sq_tail d /\
    ctl_cq_tail (nvme.ring_cq t d) = ctl_cq_tail d /\ ctl_phase (nvme.ring_cq t d) = ctl_phase d /\ ctl_log (nvme.ring_cq t d) = ctl_log d;
  ctl_completes sq cq d cmd :
    ctl_sq_head d <> ctl_sq_tail d -> sq !! Z.to_nat (ctl_sq_head d) = Some cmd ->
    exists k c d', (k <= latency)%nat /\ (0 < k)%nat /\
      (forall j, (j < k)%nat -> (ctl_steps j sq cq d).1 = cq) /\
      ctl_steps k sq cq d = (<[Z.to_nat (ctl_cq_tail d) := c]> cq, d') /\
      nvme.command_id c = nvme.cid cmd /\ nvme.phase (nvme.status c) = ctl_phase d /\
      ctl_log d' = ctl_log d ++ [(cmd, nvme.status c)] /\ ctl_size d' = ctl_size d /\ ctl_sq_tail d' = ctl_sq_tail d /\
      ctl_sq_head d' = (ctl_sq_head d + 1) mod ctl_size d /\ ctl_cq_tail d' = (ctl_cq_tail d + 1) mod ctl_size d /\
      ctl_phase d' = (if ctl_cq_tail d + 1 =? ctl_size d then negb (ctl_phase d) else ctl_phase d)
}.

Section queue_lemmas.
Context {D : Type} `{HL : ControllerLaws D}.
Import nvme.

(** Driver and controller agree on the positions, and every completion that is not
    yet due has the other phase. *)
Record synced (q : queue_pair) (d : D) : Prop := {
  y_size : n_entries q = ctl_size d;
  y_range : 2 <= n_entries q;
  y_cids : bitmap.get_free_bit (available_cids q) = Ret 0;
  y_sq : Z.of_nat (length (sq q)) = n_entries q;
  y_cq : Z.of_nat (length (cq q)) = n_entries q;
  y_tail : sq_tail q = ctl_sq_tail d /\ ctl_sq_head d = ctl_sq_tail d /\ 0 <= sq_tail q < n_entries q;
  y_head : cq_head q = ctl_cq_tail d /\ 0 <= cq_head q < n_entries q;
  y_phase : expected_phase q = ctl_phase d;
  y_slots : forall i c, cq q !! i = Some c -> phase (status c) = (if Z.of_nat i <? cq_head q then expected_phase q else negb (expected_phase q)) }.

Lemma next_mod n i : 2 <= n < 65536 -> 0 <= i < n -> next n i = (i + 1) mod n /\ (u16 (i + 1) =? n) = (i + 1 =? n).
Proof.
  intros Hn Hi. unfold next. replace (u16 (i + 1)) with (i + 1) by wrap_lia. split; [| done].
  destruct (Z.eqb_spec (i + 1) n) as [-> | Hne]; [by rewrite Z.mod_same by lia | by rewrite Z.mod_small by lia].
Qed.

(** The poll follows the steps of the controller up to the completion. *)
Lemma poll_steps k fuel q d c :
  (k < fuel)%nat ->
  (forall j c, (j < k)%nat -> (ctl_steps j (sq q) (cq q) d).1 !! Z.to_nat (cq_head q) = Some c -> phase (status c) <> expected_phase q) ->
  (forall j, (j < k)%nat -> is_Some ((ctl_steps j (sq q) (cq q) d).1 !! Z.to_nat (cq_head q))) ->
  (ctl_steps k (sq q) (cq q) d).1 !! Z.to_nat (cq_head q) = Some c -> phase (status c) = expected_phase q ->
  poll fuel q d = Ret (c, mk_queue (n_entries q) (qid q) (available_cids q) (sq q) (sq_tail q) (ctl_steps k (sq q) (cq q) d).1 (cq_head q)
    (expected_phase q) (submission_phys q) (completion_phys q), (ctl_steps k (sq q) (cq q) d).2).
Proof.
  revert fuel q d. induction k as [| k IH]; intros fuel q d Hf Hwait Hsome Hc Hph; (destruct fuel as [| fuel]; [lia |]); cbn [poll].
  - cbn in Hc |- *. rewrite Hc. cbn [access mbind res_bind]. rewrite Hph, Bool.eqb_reflx. by destruct q.
  - destruct (Hsome 0%nat) as [c0 Hc0]; [lia |]. assert (Hne := Hwait 0%nat c0 ltac:(lia) Hc0). cbn in Hc0. rewrite Hc0. cbn [access mbind res_bind].
    rewrite (proj2 (Bool.eqb_false_iff _ _) Hne). cbn [ctl_steps] in *. destruct (ctl_step (sq q) (cq q) d) as [l d1] eqn:E.
    rewrite (IH fuel (mk_queue (n_entries q) (qid q) (available_cids q) (sq q) (sq_tail q) l (cq_head q) (expected_phase q)
      (submission_phys q) (completion_phys q)) d1); cbn [sq cq cq_head expected_phase]; [done | lia | | | done | done].
    + intros j c1 Hj Hc1. specialize (Hwait (S j) c1 ltac:(lia)). cbn [ctl_steps] in Hwait. rewrite E in Hwait. by apply Hwait.
    + intros j Hj. specialize (Hsome (S j) ltac:(lia)). cbn [ctl_steps] in Hsome. by rewrite E in Hsome.
Qed.

(** The slots after a completion. *)
Lemma slots_next (l : list completion) n h e c :
  Z.of_nat (length l) = n -> 0 <= h < n -> phase (status c) = e ->
  (forall i c, l !! i = Some c -> phase (status c) = (if Z.of_nat i <? h then e else negb e)) ->
  forall i x, <[Z.to_nat h := c]> l !! i = Some x ->
    phase (status x) = (if Z.of_nat i <? (h + 1) mod n then (if h + 1 =? n then negb e else e) else negb (if h + 1 =? n then negb e else e)).
Proof.
  intros Hl Hh Hc Hs i x Hx. assert (Hi : (i < length l)%nat) by (apply lookup_lt_Some in Hx; by rewrite length_insert in Hx).
  destruct (decide (i = Z.to_nat h)) as [-> | Hne].
  - rewrite list_lookup_insert_eq in Hx by lia. injection Hx as <-. rewrite Hc, Z2Nat.id by lia. destruct (Z.eqb_spec (h + 1) n) as [E | E].
    + rewrite E, Z.mod_same by lia. rewrite (proj2 (Z.ltb_ge h 0)) by lia. by rewrite negb_involutive.
    + rewrite Z.mod_small, (proj2 (Z.ltb_lt h (h + 1))) by lia. done.
  - rewrite list_lookup_insert_ne in Hx by done. rewrite (Hs i x Hx). destruct (Z.eqb_spec (h + 1) n) as [E | E].
    + rewrite E, Z.mod_same by lia. rewrite (proj2 (Z.ltb_ge (Z.of_nat i) 0)), (proj2 (Z.ltb_lt (Z.of_nat i) h)) by lia. by rewrite negb_involutive.
    + rewrite Z.mod_small by lia. destruct (Z.ltb_spec (Z.of_nat i) h), (Z.ltb_spec (Z.of_nat i) (h + 1)); (done || lia).
Qed.

(** One command, from doorbell to doorbell. *)
Lemma send_and_wait_ok cmd q d fuel :
  synced q d -> n_entries q < 65536 -> (latency < fuel)%nat ->
  exists st q' d', send_and_wait fuel cmd q d = Ret (code st =? 0, q', d') /\ synced q' d' /\ n_entries q' = n_entries q /\
    ctl_log d' = ctl_log d ++ [(with_cid cmd 0, st)].
Proof.
  intros Y Hn Hf. destruct Y as [Ysz Yr Yc Ysq Ycq (Yt1 & Yt2 & Yt3) (Yh1 & Yh2) Yp Ys].
  destruct (next_mod (n_entries q) (sq_tail q)) as [Nt _]; [lia | done |]. destruct (next_mod (n_entries q) (cq_head q)) as [Nh Nw]; [lia | done |].
  unfold send_and_wait, send_command. rewrite Yc. cbn [mbind res_bind]. change (u16 0) with 0.
  destruct (lookup_lt_is_Some_2 (sq q) (Z.to_nat (sq_tail q))) as [c0 Hc0]; [lia |]. rewrite Hc0. cbn [access mbind res_bind mret res_ret].
  set (q1 := mk_queue _ _ _ _ _ _ _ _ _ _). destruct (ring_sq_view (next (n_entries q) (sq_tail q)) d) as (V1 & V2 & V3 & V4 & V5 & V6).
  set (d1 := ring_sq (next (n_entries q) (sq_tail q)) d) in *.
  destruct (ctl_completes (sq q1) (cq q1) d1 (with_cid cmd 0)) as (k & c & d2 & Hk & Hk0 & Hidle & Hend & _ & Hph & L1 & L2 & L3 & L4 & L5 & L6).
  { rewrite V2, V3, Nt, Yt2, <- Yt1. destruct (Z.eq_dec (sq_tail q + 1) (n_entries q)) as [E | E]; [rewrite E, Z.mod_same by lia | rewrite Z.mod_small by lia]; lia. }
  { cbn. rewrite V2, Yt2, <- Yt1. apply list_lookup_insert_eq. lia. }
  destruct (lookup_lt_is_Some_2 (cq q) (Z.to_nat (cq_head q))) as [h0 Hh0]; [lia |].
  assert (Hcq : (ctl_steps k (sq q1) (cq q1) d1).1 !! Z.to_nat (cq_head q1) = Some c).
  { rewrite Hend. cbn. rewrite V4, <- Yh1. apply list_lookup_insert_eq. lia. }
  rewrite (poll_steps k fuel q1 d1 c ltac:(lia)); [| | | done | cbn; congruence].
  2: { intros j c' Hj. rewrite Hidle by done. cbn. rewrite Hh0. intros [= <-]. rewrite (Ys _ _ Hh0), Z2Nat.id, Z.ltb_irrefl by lia. by destruct (expected_phase q). }
  2: { intros j Hj. rewrite Hidle by done. by exists h0. }
  rewrite Hend. cbn [mbind res_bind fst snd]. destruct (ring_cq_view (next (n_entries q) (cq_head q)) d2) as (W1 & W2 & W3 & W4 & W5 & W6).
  cbn [n_entries q1]. do 3 eexists. split; [reflexivity |]. split; [| split; [done | by rewrite W6, L1, V6]].
  assert (Hm : 0 <= (cq_head q + 1) mod n_entries q < n_entries q) by (apply Z.mod_pos_bound; lia).
  constructor; cbn [n_entries available_cids sq sq_tail cq cq_head expected_phase q1].
  - by rewrite W1, L2, V1.
  - done.
  - done.
  - by rewrite length_insert.
  - by rewrite length_insert.
  - rewrite W2, W3, L3, L4, V1, V2, V3, Nt, Yt2, <- Yt1, <- Ysz. split_and!; [done | done | apply Z.mod_pos_bound; lia | apply Z.mod_pos_bound; lia].
  - rewrite W4, L5, V1, V4, Nh, <- Yh1, <- Ysz. done.
  - rewrite W5, L6, V1, V4, V5, <- Yh1, <- Ysz, Nw, Yp. done.
  - rewrite V4, <- Yh1, Nh, Nw. apply slots_next; [done | done | congruence | done].
Qed.
End queue_lemmas.

(** ** Theorems *)

(** Commands one after the other. *)
Fixpoint run_commands {D} `{HD : nvme.Controller D} (fuel : nat) (cmds : list nvme.command) (q : nvme.queue_pair) (d : D)
  : res (list bool * nvme.queue_pair * D) :=
  match cmds with
  | [] => mret ([], q, d)
  | cmd :: cmds =>
      '(r, q, d) ← nvme.send_and_wait fuel cmd q d;
      '(rs, q, d) ← run_commands fuel cmds q d;
      mret (r :: rs, q, d)
  end.

(** A command succeeded: code 0 of the generic type. *)
Definition succeeded (st : nvme.status_field) : bool := (nvme.code_type st =? 0) && (nvme.code st =? 0).

(** C14: A queue pair executes commands in order.  With a controller that follows
    the protocol and at most 65535 entries, any number of commands, through any
    number of passes over the rings, are each executed once and in order; the
    driver returns; it reports success for a command exactly when the code in the
    status of that command is 0, which is right for every status of the generic
    type, and never reports a success as a failure (see [code_type_ignored] for
    failures of other types); driver and controller agree on positions and phase at
    the end. *)
Theorem nvme_executes {D} `{HL : ControllerLaws D} (cmds : list nvme.command) (q : nvme.queue_pair) (d : D) (fuel : nat) :
  synced q d -> nvme.n_entries q < 65536 -> (latency < fuel)%nat ->
  exists bs sts q' d', run_commands fuel cmds q d = Ret (bs, q', d') /\ synced q' d' /\
    length sts = length cmds /\ ctl_log d' = ctl_log d ++ zip ((fun c => nvme.with_cid c 0) <$> cmds) sts /\
    bs = (fun st => nvme.code st =? 0) <$> sts /\
    (forall i st, sts !! i = Some st -> nvme.code_type st = 0 -> bs !! i = Some (succeeded st)) /\
    (forall i st, sts !! i = Some st -> succeeded st = true -> bs !! i = Some true).
Proof.
  intros Y Hn Hf.
  assert (exists sts q' d', run_commands fuel cmds q d = Ret ((fun st => nvme.code st =? 0) <$> sts, q', d') /\ synced q' d' /\
    length sts = length cmds /\ ctl_log d' = ctl_log d ++ zip ((fun c => nvme.with_cid c 0) <$> cmds) sts) as (sts & q' & d' & E & Y' & Hlen & L).
  { revert q d Y Hn. induction cmds as [| cmd cmds IH]; intros q d Y Hn; cbn [run_commands].
    { exists [], q, d. split_and!; [done | done | done | by rewrite app_nil_r]. }
    destruct (send_and_wait_ok cmd q d fuel Y Hn Hf) as (st & q1 & d1 & E1 & Y1 & Hn1 & L1). rewrite E1. cbn [mbind res_bind].
    destruct (IH q1 d1 Y1) as (sts & q2 & d2 & E2 & Y2 & Hlen & L2); [lia |]. rewrite E2. cbn [mbind res_bind].
    exists (st :: sts), q2, d2. split_and!; [done | done | cbn; lia |]. rewrite L2, L1, <- app_assoc. done. }
  eexists _, sts, q', d'. split_and!; [exact E | done | done | done | done | |]; intros i st Hi Hst; rewrite list_lookup_fmap, Hi; cbn; f_equal.
  - unfold succeeded. by rewrite Hst.
  - by apply andb_true_iff in Hst as [_ ?].
Qed.

(** A controller that completes every command at once, for examples. *)
Module ideal.
Record t := mk { size : Z; sq_head : Z; tail : Z; cq_tail : Z; ph : bool; log : list (nvme.command * nvme.status_field); answer : nvme.command -> Z * Z }.

Definition answered (cmd : nvme.command) (d : t) : nvme.status_field :=
  nvme.mk_status (ph d) (answer d cmd).2 (answer d cmd).1 0 false false.

Definition step (sq : list nvme.command) (cq : list nvme.completion) (d : t) : list nvme.completion * t :=
  if sq_head d =? tail d then (cq, d)
  else match sq !! Z.to_nat (sq_head d) with
       | Some cmd =>
           (<[Z.to_nat (cq_tail d) := nvme.mk_completion 0 (sq_head d) 1 (nvme.cid cmd) (answered cmd d)]> cq,
            mk (size d) ((sq_head d + 1) mod size d) (tail d) ((cq_tail d + 1) mod size d)
              (if cq_tail d + 1 =? size d then negb (ph d) else ph d) (log d ++ [(cmd, answered cmd d)]) (answer d))
       | None => (cq, d)
       end.

#[global] Instance ideal_controller : nvme.Controller t :=
  {| nvme.ctl_step := step;
     nvme.ring_sq x d := mk (size d) (sq_head d) x (cq_tail d) (ph d) (log d) (answer d);
     nvme.ring_cq x d := d;
     nvme.dma d x := x mod 256 |}.

#[global] Instance ideal_laws : ControllerLaws t.
Proof.
  refine {| ctl_size := size; ctl_sq_head := sq_head; ctl_sq_tail := tail; ctl_cq_tail := cq_tail; ctl_phase := ph; ctl_log := log;
            latency := 1 |}.
  - done.
  - done.
  - intros sq cq d cmd Hne Hcmd. exists 1%nat. eexists _, _. split_and!; [lia | lia | | | ..].
    + intros j Hj. replace j with 0%nat by lia. done.
    + cbn. unfold step. rewrite (proj2 (Z.eqb_neq _ _) Hne), Hcmd. reflexivity.
    + done.
    + done.
    + done.
    + done.
    + done.
    + done.
    + done.
    + done.
Defined.

(** Every command succeeds, unless [answer] says otherwise. *)
Definition start_with (answer : nvme.command -> Z * Z) (n : Z) : t := mk n 0 0 0 true [] answer.
Definition start (n : Z) : t := start_with (fun _ => (0, 0)) n.
End ideal.

Lemma new_queue_synced (n qid sp cp : Z) (answer : nvme.command -> Z * Z) : 2 <= n -> synced (nvme.new_queue n qid sp cp) (ideal.start_with answer n).
Proof.
  intros Hn. constructor; cbn; try done; try lia.
  - by rewrite length_replicate, Z2Nat.id by lia.
  - by rewrite length_replicate, Z2Nat.id by lia.
  - intros i c [-> _]%lookup_replicate. by rewrite (proj2 (Z.ltb_ge (Z.of_nat i) 0)) by lia.
Qed.

(** Reads of sector 8 fail with the generic code 0x80 (LBA out of range). *)
Definition lba_error (cmd : nvme.command) : Z * Z :=
  if (nvme.opcode cmd =? nvme.read_opcode) && (default 0 (nvme.cdw cmd !! 0%nat) =? 8) then (0, 0x80) else (0, 0).

Lemma nvme_executes_witness :
  exists q' d', run_commands 2 [nvme.identify_command 1 0 0x1000; nvme.read_command 7 0 1 0x2000; nvme.read_command 8 0 1 0x2000]
      (nvme.new_queue 2 1 0x5000 0x6000) (ideal.start_with lba_error 2) = Ret ([true; true; false], q', d') /\ synced q' d'.
Proof.
  destruct (nvme_executes [nvme.identify_command 1 0 0x1000; nvme.read_command 7 0 1 0x2000; nvme.read_command 8 0 1 0x2000]
    (nvme.new_queue 2 1 0x5000 0x6000) (ideal.start_with lba_error 2) 2) as (bs & sts & q' & d' & E & Y & _).
  - apply new_queue_synced. lia.
  - reflexivity.
  - cbn. lia.
  - assert (bs = [true; true; false]) as -> by (vm_compute in E; by injection E as <- _ _). exists q', d'. split; [exact E | exact Y].
Defined.

(** The driver does not look at the type of a status.  Code 0 of another type is a
    failure, as code 0 of type 1, which says that the completion queue of a command
    to create a submission queue is invalid; it is reported as a success. *)
Theorem code_type_ignored {D} `{HD : nvme.Controller D} (cmd : nvme.command) (q q1 q2 : nvme.queue_pair) (d d1 d2 : D) (id : Z)
    (c : nvme.completion) (fuel : nat) :
  nvme.send_command cmd q d = Ret (id, q1, d1) -> nvme.poll fuel q1 d1 = Ret (c, q2, d2) ->
  nvme.code (nvme.status c) = 0 -> nvme.code_type (nvme.status c) <> 0 ->
  succeeded (nvme.status c) = false /\ exists q' d', nvme.send_and_wait fuel cmd q d = Ret (true, q', d').
Proof.
  intros E1 E2 Hc Ht. split; [unfold succeeded; by rewrite (proj2 (Z.eqb_neq _ _) Ht) |].
  unfold nvme.send_and_wait. rewrite E1. cbn [mbind res_bind]. rewrite E2. cbn [mbind res_bind]. rewrite Hc. by eexists _, _.
Qed.

Lemma code_type_ignored_witness :
  exists q' d', nvme.send_and_wait 2 (nvme.create_submission_queue_command 1 63 1 0 9 0x5000) (nvme.new_queue 2 0 0x5000 0x6000)
    (ideal.start_with (fun _ => (1, 0)) 2) = Ret (true, q', d').
Proof.
  set (cmd := nvme.create_submission_queue_command 1 63 1 0 9 0x5000). set (q := nvme.new_queue 2 0 0x5000 0x6000). set (d := ideal.start_with (fun _ => (1, 0)) 2).
  destruct (nvme.send_command cmd q d) as [[[id q1] d1] | | |] eqn:E1; try (vm_compute in E1; discriminate).
  destruct (nvme.poll 2 q1 d1) as [[[c q2] d2] | | |] eqn:E2; try (vm_compute in E1; injection E1 as <- <- <-; vm_compute in E2; discriminate).
  apply (code_type_ignored cmd q q1 q2 d d1 d2 id c 2 E1 E2); vm_compute in E1; injection E1 as <- <- <-; vm_compute in E2; injection E2 as <- _ _; [reflexivity | discriminate].
Defined.

(** Queues of 65536 entries.  A controller may support 65536 entries, and the
    driver takes as many as it can.  The positions are 16 bits wide, so that the
    comparison with the size never holds: after a pass over the ring the expected
    phase stays, and the next command is reported as finished, with the status of
    a command of the pass before, without the controller taking a step. *)
Theorem nvme_stale_completion {D} `{HD : nvme.Controller D} (cmd cmd' : nvme.command) (q q1 : nvme.queue_pair) (d d1 : D) (r : bool)
    (fuel : nat) (c0 : nvme.completion) (s0 : nvme.command) :
  nvme.n_entries q = 65536 -> nvme.cq_head q = 65535 -> nvme.send_and_wait fuel cmd q d = Ret (r, q1, d1) ->
  nvme.cq q1 !! 0%nat = Some c0 -> nvme.phase (nvme.status c0) = nvme.expected_phase q ->
  bitmap.get_free_bit (nvme.available_cids q) = Ret 0 -> nvme.sq q1 !! Z.to_nat (nvme.sq_tail q1) = Some s0 ->
  exists q2, nvme.send_and_wait 1 cmd' q1 d1 =
    Ret (nvme.code (nvme.status c0) =? 0, q2, nvme.ring_cq 1 (nvme.ring_sq (nvme.next 65536 (nvme.sq_tail q1)) d1)).
Proof.
  intros Hn Hh E Hc0 Hph Hcid Hs0.
  assert (forall f q d c q' d', nvme.poll f q d = Ret (c, q', d') -> nvme.n_entries q' = nvme.n_entries q /\ nvme.cq_head q' = nvme.cq_head q /\
    nvme.expected_phase q' = nvme.expected_phase q /\ nvme.available_cids q' = nvme.available_cids q) as Hpoll.
  { clear. induction f as [| f IH]; intros q d c q' d' H; cbn [nvme.poll] in H; [done |]. inv_res. destruct (Bool.eqb _ _); inv_res; [done |].
    destruct (nvme.ctl_step _ _ _) as [l d2]. by apply IH in H. }
  unfold nvme.send_and_wait, nvme.send_command in E. rewrite Hcid in E. inv_res.
  match goal with H : nvme.poll _ _ _ = Ret _ |- _ => apply Hpoll in H as (P1 & P2 & P3 & P4) end. cbn in P1, P2, P3, P4, Hc0, Hs0 |- *.
  unfold nvme.send_and_wait, nvme.send_command. cbn. rewrite P4, Hcid. cbn [mbind res_bind]. cbn in Hs0. rewrite Hs0. cbn [access mbind res_bind mret res_ret].
  rewrite P1, Hn, Hh. change (u16 (65535 + 1) =? 65536) with false. change (nvme.next 65536 65535) with 0. cbn -[nvme.next u16 Z.eqb].
  change (Z.to_nat 0) with 0%nat. rewrite Hc0. cbn [access mbind res_bind]. rewrite P3, Hph, Bool.eqb_reflx. cbn -[nvme.next u16 Z.eqb].
  rewrite ?P1, ?Hn. eexists. reflexivity.
Qed.

(** The last slot of a ring of 65536 entries, with the completions [l]. *)
Definition full_pass_example (l : list nvme.completion) : nvme.queue_pair :=
  nvme.mk_queue 65536 1 (bitmap.create 8) [nvme.no_command; nvme.no_command; nvme.no_command] 0 l 65535 true 0 0.

(** All of them completed in this pass. *)
Definition all_completed : list nvme.completion := replicate (Z.to_nat 65536) (nvme.mk_completion 0 0 0 0 (nvme.mk_status true 5 0 0 false false)).

Lemma poll_ready {D} `{HD : nvme.Controller D} (fuel : nat) (q : nvme.queue_pair) (d : D) (c : nvme.completion) :
  nvme.cq q !! Z.to_nat (nvme.cq_head q) = Some c -> nvme.phase (nvme.status c) = nvme.expected_phase q -> nvme.poll (S fuel) q d = Ret (c, q, d).
Proof. intros Hc Hp. cbn [nvme.poll]. rewrite Hc. cbn [access mbind res_bind]. by rewrite Hp, Bool.eqb_reflx. Qed.

Lemma full_pass_send (l : list nvme.completion) :
  l !! Z.to_nat 65535 = Some (nvme.mk_completion 0 0 0 0 (nvme.mk_status true 5 0 0 false false)) ->
  exists q1, nvme.send_and_wait 1 nvme.no_command (full_pass_example l) (ideal.start 65536) = Ret (false, q1, ideal.mk 65536 0 1 0 true [] (fun _ => (0, 0))) /\
    nvme.cq q1 = l /\ nvme.sq q1 !! Z.to_nat (nvme.sq_tail q1) = Some nvme.no_command.
Proof.
  intros Hl. unfold nvme.send_and_wait, nvme.send_command. change (bitmap.get_free_bit (nvme.available_cids (full_pass_example l))) with (Ret 0).
  cbn [mbind res_bind]. change (nvme.sq (full_pass_example l) !! Z.to_nat (nvme.sq_tail (full_pass_example l))) with (Some nvme.no_command).
  cbn [access mbind res_bind mret res_ret]. rewrite (poll_ready 0 _ _ (nvme.mk_completion 0 0 0 0 (nvme.mk_status true 5 0 0 false false))); [| exact Hl | reflexivity].
  cbn [mbind res_bind]. eexists. split; [reflexivity | split; reflexivity].
Qed.

Lemma nvme_stale_completion_witness :
  exists q1 q2 d1 d2, nvme.send_and_wait 1 nvme.no_command (full_pass_example all_completed) (ideal.start 65536) = Ret (false, q1, d1) /\
    nvme.send_and_wait 1 nvme.no_command q1 d1 = Ret (false, q2, d2) /\ ideal.log d2 = [].
Proof.
  destruct (full_pass_send all_completed) as (q1 & E1 & Ec & Es); [apply lookup_replicate_2; lia |].
  destruct (nvme_stale_completion nvme.no_command nvme.no_command (full_pass_example all_completed) q1 (ideal.start 65536) _ _ 1
    (nvme.mk_completion 0 0 0 0 (nvme.mk_status true 5 0 0 false false)) nvme.no_command eq_refl eq_refl E1) as [q2 E2].
  - rewrite Ec. apply lookup_replicate_2. lia.
  - reflexivity.
  - reflexivity.
  - exact Es.
  - exists q1, q2. eexists _, _. split; [exact E1 |]. split; [exact E2 | reflexivity].
Defined.

(** [set_features] takes success for failure: it returns whether the command
    failed. *)
Lemma set_features_inverted {D} `{HL : ControllerLaws D} (fid data : Z) (s : nvme.io_controller) (d : D) (fuel : nat) :
  synced (nvme.admin_queue s) d -> nvme.n_entries (nvme.admin_queue s) < 65536 -> (latency < fuel)%nat ->
  exists st s' d', nvme.set_features fuel fid data s d = Ret (negb (nvme.code st =? 0), s', d') /\
    ctl_log d' = ctl_log d ++ [(nvme.with_cid (nvme.set_features_command fid data) 0, st)].
Proof.
  intros Y Hn Hf. destruct (send_and_wait_ok (nvme.set_features_command fid data) _ d fuel Y Hn Hf) as (st & q' & d' & E & _ & _ & L).
  unfold nvme.set_features. rewrite E. cbn [mbind res_bind]. eexists st, _, d'. done.
Qed.

(** The size of the admin queues is programmed in 12 bits: a controller with more
    than 4096 entries is told another size than the driver uses. *)
Lemma aqa_truncates (n old : Z) : 1 <= n -> bits 0 12 (nvme.aqa_word n old) = (n - 1) mod 4096 /\ bits 16 12 (nvme.aqa_word n old) = (n - 1) mod 4096.
Proof.
  intros Hn. unfold nvme.aqa_word. split.
  - by rewrite bits_set_same by lia.
  - by rewrite bits_set_other, bits_set_same by lia.
Qed.

(** The sectors that [read_sector] reads. *)
Lemma read_sector_ok {D} `{HL : ControllerLaws D} (nsid lba phys : Z) (s : nvme.io_controller) (d d1 : D) (fuel : nat)
    (alloc : Z -> D -> option (Z * D)) :
  (nvme.n_lbas (nvme.ns_at nsid s) <= lba -> exists s', nvme.read_sector fuel alloc nsid lba s d = Ret ([], s', d)) /\
  (lba < nvme.n_lbas (nvme.ns_at nsid s) -> alloc 512 d = Some (phys, d1) -> synced (nvme.io_queue s) d1 ->
   nvme.n_entries (nvme.io_queue s) < 65536 -> (latency < fuel)%nat ->
   exists st s' d', nvme.read_sector fuel alloc nsid lba s d = Ret (nvme.buffer phys 512 d', s', d') /\
     ctl_log d' = ctl_log d1 ++ [(nvme.with_cid (nvme.read_command lba 0 nsid phys) 0, st)] /\ synced (nvme.io_queue s') d').
Proof.
  assert (E0 : nvme.ns_at nsid (nvme.set_ns nsid (nvme.ns_at nsid s) s) = nvme.ns_at nsid s).
  { unfold nvme.ns_at, nvme.set_ns. cbn. by rewrite lookup_insert_eq. }
  unfold nvme.read_sector. rewrite E0. split.
  - intros H. rewrite (proj2 (Z.leb_le _ _) H). by eexists.
  - intros H Ha Y Hn Hf. rewrite (proj2 (Z.leb_gt _ _) H), Ha.
    destruct (send_and_wait_ok (nvme.read_command lba 0 nsid phys) _ d1 fuel Y Hn Hf) as (st & q' & d' & E & Y' & _ & L).
    cbn [nvme.io_queue nvme.set_ns]. rewrite E. cbn [mbind res_bind]. by eexists st, _, d'.
Qed.

(** The format of a namespace is bits 0 to 3 of [flbas]; bit 4 says where the
    metadata is.  The driver takes all eight bits for the index of the format:
    with bit 4 set it reads behind the table of formats. *)
Lemma flbas_metadata {D} `{HD : nvme.Controller D} (fuel : nat) (alloc : Z -> D -> option (Z * D)) (id nsid : Z) (page : list Z)
    (s s' : nvme.io_controller) (d d' : D) :
  nvme.identify_namespace fuel alloc nsid s d = Ret (Some page, s', d') -> Z.testbit (nvme.ns_flbas page) 4 = true ->
  nvme.init_namespace fuel alloc id nsid s d = Undef.
Proof.
  intros E Hb. unfold nvme.init_namespace. rewrite E. cbn [mbind res_bind].
  assert (Hl : Z.testbit (Z.land (nvme.ns_flbas page) 0xFF) 4 = true) by (rewrite Z.land_spec, Hb; reflexivity).
  destruct (Z.leb_spec 16 (Z.land (nvme.ns_flbas page) 0xFF)) as [| Hlt]; [done |].
  rewrite (testbit_small _ 4 4) in Hl; [done | | lia]. split; [apply Z.land_nonneg; lia | lia].
Qed.
