(* ===== verification/NvmeInfo.v ===== *)
(** * NvmeInfo: the structures of the NVMe driver

    Models src/drivers/storage/nvme/include/nvme/regs.hpp, the structures that the
    driver shares with a controller as layouts of bit fields, and the report that
    [print_identify_info] of io_controller.cpp prints, without punctuation.

    Nvme.v reads these structures at numeric offsets: [nvme_layouts] is the proof that
    they are the offsets of the fields. *)

From S2P Require Import Prelude Bits Klibc Fields Nvme.

Module nvme_regs.
Definition cap_t : layout :=
  [("mqes", 16); ("cqr", 1); ("ams", 2); ("reserved", 5); ("to", 8); ("dstrd", 4); ("nssrs", 1); ("css", 8); ("bps", 1); ("reserved_1", 2);
   ("mpsmin", 4); ("mpsmax", 4); ("pmrs", 1); ("cmbs", 1); ("reserved_2", 6)]%string.
Definition vs_t : layout :=
  [("tertiary", 8); ("minor", 8); ("major", 16)]%string.
Definition cc_t : layout :=
  [("en", 1); ("reserved", 3); ("css", 3); ("mps", 4); ("ams", 3); ("shn", 2); ("iosqes", 4); ("iocqes", 4); ("reserved_1", 8)]%string.
Definition aqa_t : layout :=
  [("asqs", 12); ("reserved", 4); ("acqs", 12); ("reserved_1", 4)]%string.
Definition bar : layout :=
  [("cap", 64); ("vs", 32); ("irq_mask_set", 32); ("irq_mask_clear", 32); ("cc", 32); ("reserved", 32); ("controller_status", 32);
   ("subsystem_reset", 32); ("aqa", 32); ("asq", 64); ("acq", 64)]%string.
Definition controller_identify_info : layout :=
  [("pci_vendor_id", 16); ("pci_subsystem_vendor_id", 16); ("serial_number", 160); ("model_number", 320); ("fw_revision", 64); ("rab", 8);
   ("ieee_oui_id", 24); ("cmic", 8); ("mtds", 8); ("controller_id", 16); ("version", 32); ("rtd3r", 32); ("rtd3e", 32); ("oaes", 32);
   ("ctratt", 32); ("rrls", 16); ("reserved", 72); ("cntrltype", 8); ("fguid", 128); ("crdt1", 16); ("crdt2", 16); ("crdt3", 16);
   ("reserved_1", 848); ("management_interface", 128); ("oacs", 16); ("acl", 8); ("aerl", 8); ("frmw", 8); ("lpa", 8); ("elpe", 8);
   ("npss", 8); ("avscc", 8); ("apsta", 8); ("wctemp", 16); ("cctemp", 16); ("mtfa", 16); ("hmpre", 32); ("hmmin", 32); ("tnvmcap", 128);
   ("unvmcap", 128); ("rpmbs", 32); ("edstt", 16); ("dsto", 8); ("fwug", 8); ("kas", 16); ("hctma", 16); ("mntmt", 16); ("mxtmt", 16);
   ("sanicap", 32); ("hmminds", 32); ("hmmaxd", 16); ("nsetidmax", 16); ("endgidmax", 16); ("anatt", 8); ("anacap", 8); ("anagrpmax", 32);
   ("nanagrpid", 32); ("pels", 32); ("reserved_2", 1248); ("sqes", 8); ("cqes", 8); ("maxcmd", 16); ("nn", 32); ("oncs", 16);
   ("fuses", 16); ("fna", 8); ("vwc", 8); ("awun", 16); ("awupf", 16); ("nvscc", 8); ("nwpc", 8); ("acwu", 16); ("reserved_3", 16);
   ("sgls", 32); ("mnan", 32); ("reserved_4", 1792); ("subnqn", 2048); ("reserved_5", 6144); ("over_fabrics", 2048); ("psd0", 8192);
   ("vendor_specific", 8192)]%string.
Definition namespace_identify_info : layout :=
  [("nsize", 64); ("ncap", 64); ("nuse", 64); ("nsfeat", 8); ("nlbaf", 8); ("flbas", 8); ("mc", 8); ("dpc", 8); ("dps", 8); ("nmic", 8);
   ("rescap", 8); ("fpi", 8); ("dlfeat", 8); ("nawun", 16); ("nawupf", 16); ("nacwu", 16); ("nabsn", 16); ("nabo", 16); ("nabspf", 16);
   ("noiob", 16); ("nvmcap", 128); ("npwg", 16); ("npwa", 16); ("npdg", 16); ("npda", 16); ("nows", 16); ("reserved", 144);
   ("anagrpid", 32); ("reserved_1", 24); ("nsattr", 8); ("nvmsetid", 16); ("endgid", 16); ("nguid", 128); ("eui64", 64); ("lba_formats", 512);
   ("reserved_2", 1536); ("vendor_specific", 29696)]%string.

Definition lba_format : layout := [("ms", 16); ("ds", 8); ("rp", 2); ("reserved", 6)]%string.
End nvme_regs.

Module nvme_info.
Import nvme_regs.

(** A line of the report: numbers, a text, or a line that only appears when its bit
    is set. *)
Inductive item := Item (label : string) (values : list Z) | Chars (label : string) (text : list Z) | Flag (label : string).

(** A field of the identify page. *)
Definition get (name : string) (page : list Z) : Z :=
  let '(lo, n) := find_field controller_identify_info name 0 in nvme.field page (lo / 8) (Z.to_nat (n / 8)).
Definition chars (name : string) (page : list Z) : list Z :=
  let '(lo, n) := find_field controller_identify_info name 0 in take (Z.to_nat (n / 8)) (drop (Z.to_nat (lo / 8)) page).

(** [pow2] of libdriver/math.hpp, a shift of an int that is converted to 64 bits. *)
Definition pow2 (power : Z) : res Z :=
  if power <? 31 then mret (Z.shiftl 1 power) else if power =? 31 then mret (u64 (- Z.shiftl 1 31)) else Undef.

Definition oacs_flags : list (Z * string) :=
  [(0, "Security {Send, Receive}"); (1, "Format NVM"); (2, "Firmware {Commit, Image Download}"); (3, "NS management"); (4, "Device Self-test");
   (5, "Directives"); (6, "NVMe-MI {Send, Receive}"); (7, "Virtualization Management"); (8, "Doorbell Buffer Config"); (9, "Get LBA Status")]%string.
Definition oncs_flags : list (Z * string) :=
  [(0, "Compare"); (1, "Write Uncorrectable"); (2, "Dataset Management"); (3, "Write Zeroes");
   (4, "Non-zero {Save, Select} field in Get Features"); (5, "Reservations"); (6, "Timestamp"); (7, "Verify")]%string.
Definition fuses_flags : list (Z * string) := [(0, "Compare and Write")]%string.

Definition flags (v : Z) (l : list (Z * string)) : list item :=
  omap (fun x => if Z.land v (Z.shiftl 1 x.1) =? 0 then None else Some (Flag x.2)) l.
Definition flag_section (title : string) (v : Z) (l : list (Z * string)) : list item :=
  if v =? 0 then [] else Item title [] :: flags v l.

Definition controller_type (t : Z) : list item :=
  if t =? 0 then []
  else [Item "Controller type: " []; Item (if t =? 1 then "I/O Controller" else if t =? 2 then "Discovery Controller"
                                           else if t =? 3 then "Administrative Controller" else "Reserved") []].

(** The report, given the powers of two in it. *)
Definition report (burst : Z) (dma : option Z) (sizes : list Z) (page : list Z) : list item :=
  let g name := get name page in
  [Item "PCI Vendor id, Subsystem Vendor ID: " [g "pci_vendor_id"; g "pci_subsystem_vendor_id"];
   Chars "Model: " (chars "model_number" page); Chars "Serial Number: " (chars "serial_number" page);
   Chars "Firmware Revision: " (chars "fw_revision" page); Item "Organizationally Unique Identifier: " (chars "ieee_oui_id" page)]%string ++
  (if nth 0 (chars "subnqn" page) 0 =? 0 then [] else [Chars "NVM Subsystem Name: " (chars "subnqn" page)]) ++
  [Item "Controller ID: " [g "controller_id"%string]] ++ controller_type (g "cntrltype"%string) ++
  flag_section "Optional Admin Command Support:" (g "oacs"%string) oacs_flags ++
  flag_section "Optional NVM Command Support" (g "oncs"%string) oncs_flags ++
  flag_section "Supported Fused Commands" (g "fuses"%string) fuses_flags ++
  [Item "Recommended Arbitration Burst: " [burst]; Item "Maximum DMA Transfer Size: " (option_list dma)] ++
  (if g "rtd3r"%string =? 0 then [] else [Item "D3 power state -> Normal Latency " [g "rtd3r"%string]]) ++
  (if g "rtd3e"%string =? 0 then [] else [Item "Normal -> D3 power state Latency " [g "rtd3e"%string]]) ++
  [Item "Submission Queue Entry Size: " (take 2 sizes); Item "Completion Queue Entry Size: " (drop 2 sizes);
   Item "Abort Command Limit: " [g "acl"%string + 1]] ++
  (if g "maxcmd"%string =? 0 then [] else [Item "Maximum Commands per Queue: " [g "maxcmd"%string]]) ++
  [Item "Number of Namespaces: " [g "nn"%string];
   Item "Maximum number of NSes in NVM subsystem: " [if g "mnan"%string =? 0 then g "nn"%string else g "mnan"%string]].

(** [print_identify_info]; [cap] is the register of the controller. *)
Definition print_identify_info (cap : Z) (page : list Z) : res (list item) :=
  let g name := get name page in
  burst ← pow2 (g "rab"%string);
  dma ← (if g "mtds"%string =? 0 then mret None
         else unit ← pow2 (12 + getf cap_t "mpsmin" cap); mret (Some (u64 (g "mtds"%string * unit))));
  sq_min ← pow2 (Z.land (g "sqes"%string) 0xF); sq_max ← pow2 (Z.land (Z.shiftr (g "sqes"%string) 4) 0xF);
  cq_min ← pow2 (Z.land (g "cqes"%string) 0xF); cq_max ← pow2 (Z.land (Z.shiftr (g "cqes"%string) 4) 0xF);
  mret (report burst dma [sq_min; sq_max; cq_min; cq_max] page).
End nvme_info.

(** ** Theorems *)

(** The structures have the sizes that the driver asserts, and everything that the
    driver reads or writes at a number is the field of that name: the registers, the
    capabilities, the words it composes, and the fields of the two identify pages. *)
Theorem nvme_layouts :
  layout_size nvme_regs.controller_identify_info = 8 * 0x1000 /\ layout_size nvme_regs.namespace_identify_info = 8 * 0x1000 /\
  layout_size nvme_regs.cap_t = 64 /\ layout_size nvme_regs.vs_t = 32 /\ layout_size nvme_regs.cc_t = 32 /\ layout_size nvme_regs.aqa_t = 32 /\
  layout_size nvme_regs.lba_format = 32 /\
  offset_of nvme_regs.bar <$> ["cap"; "vs"; "cc"; "controller_status"; "subsystem_reset"; "aqa"; "asq"; "acq"]%string =
    [nvme.cap_reg; nvme.vs_reg; nvme.cc_reg; nvme.controller_status_reg; nvme.subsystem_reset_reg; nvme.aqa_reg; nvme.asq_reg; nvme.acq_reg] /\
  (forall cap, nvme.mqes cap = getf nvme_regs.cap_t "mqes" cap /\ nvme.dstrd cap = getf nvme_regs.cap_t "dstrd" cap /\
     nvme.nssrs cap = negb (getf nvme_regs.cap_t "nssrs" cap =? 0) /\ nvme.ams cap = getf nvme_regs.cap_t "ams" cap) /\
  (forall n old, nvme.aqa_word n old = puts nvme_regs.aqa_t [("acqs", n - 1); ("asqs", n - 1)]%string old) /\
  (forall old, nvme.cc_word false old =
     puts nvme_regs.cc_t [("en", 0); ("mps", 0); ("css", 0); ("iocqes", 4); ("iosqes", 6); ("en", 1)]%string old) /\
  (forall page, nvme.info_controller_id page = nvme_info.get "controller_id" page /\ nvme.info_nn page = nvme_info.get "nn" page /\
     nvme.ns_nsize page = nvme.field page (offset_of nvme_regs.namespace_identify_info "nsize") 8 /\
     nvme.ns_flbas page = nvme.field page (offset_of nvme_regs.namespace_identify_info "flbas") 1 /\
     forall format, nvme.ns_ds page format =
       getf nvme_regs.lba_format "ds" (nvme.field page (offset_of nvme_regs.namespace_identify_info "lba_formats" + 4 * format) 4)).
Proof. repeat split; reflexivity. Qed.

Lemma flag_in v l i s : NoDup l.*2 -> (i, s) ∈ l -> 0 <= i -> nvme_info.Flag s ∈ nvme_info.flags v l <-> Z.testbit v i = true.
Proof.
  intros Hn Hin Hi. assert (Hb : forall j, 0 <= j -> (Z.land v (Z.shiftl 1 j) =? 0) = negb (Z.testbit v j)).
  { intros j Hj. rewrite Z.shiftl_1_l. destruct (Z.testbit v j) eqn:E; cbn [negb].
    - apply Z.eqb_neq. intros H. apply (f_equal (fun z => Z.testbit z j)) in H. rewrite Z.land_spec, E, Z.pow2_bits_true, Z.bits_0 in H by done. done.
    - apply Z.eqb_eq, Z.bits_inj'. intros k Hk. rewrite Z.land_spec, Z.pow2_bits_eqb, Z.bits_0 by done.
      destruct (Z.eqb_spec j k) as [<- | _]; [by rewrite E | apply andb_false_r]. }
  unfold nvme_info.flags. rewrite list_elem_of_omap. split.
  - intros ([j t] & Ht & H). cbn [fst snd] in H. destruct (Z.land v (Z.shiftl 1 j) =? 0) eqn:E; [done |]. injection H as ->.
    assert (j = i) as ->.
    { apply list_elem_of_lookup_1 in Hin as [a Ha], Ht as [b Hc]. assert (a = b) as ->; [| congruence].
      eapply (NoDup_lookup l.*2); [done | by rewrite list_lookup_fmap, Ha | by rewrite list_lookup_fmap, Hc]. }
    rewrite Hb in E by done. by destruct (Z.testbit v i).
  - intros E. exists (i, s). split; [done |]. cbn [fst snd]. by rewrite Hb, E.
Qed.

Lemma flag_out v l s : s ∉ l.*2 -> nvme_info.Flag s ∉ nvme_info.flags v l.
Proof.
  intros Hs ([j t] & Ht & H)%list_elem_of_omap. cbn [fst snd] in H. destruct (_ =? 0); [done |]. injection H as ->.
  apply Hs. apply list_elem_of_fmap. by exists (j, s).
Qed.

Lemma flag_section_iff title v l s : nvme_info.Flag s ∈ nvme_info.flag_section title v l <-> nvme_info.Flag s ∈ nvme_info.flags v l.
Proof.
  unfold nvme_info.flag_section. destruct (Z.eqb_spec v 0) as [-> | Hv].
  - split; [by intros ?%not_elem_of_nil |]. intros ([j t] & _ & H)%list_elem_of_omap. by rewrite Z.land_0_l in H.
  - rewrite elem_of_cons. split; [by intros [? | ?] | by right].
Qed.

(** The flags of the report: the field and the texts for its bits. *)
Definition flag_tables : list (string * list (Z * string)) :=
  [("oacs", nvme_info.oacs_flags); ("oncs", nvme_info.oncs_flags); ("fuses", nvme_info.fuses_flags)]%string.

(** No line outside of the three sections is a flag. *)
Definition is_flag (x : nvme_info.item) : bool := match x with nvme_info.Flag _ => true | _ => false end.

Lemma not_flag s l : forallb (fun x => negb (is_flag x)) l = true -> nvme_info.Flag s ∉ l.
Proof. intros H Hin. rewrite forallb_forall in H. apply list_elem_of_In in Hin. by specialize (H _ Hin). Qed.

Lemma report_flags burst dma sizes page s :
  nvme_info.Flag s ∈ nvme_info.report burst dma sizes page <->
    Exists (fun t => nvme_info.Flag s ∈ nvme_info.flags (nvme_info.get t.1 page) t.2) flag_tables.
Proof.
  unfold nvme_info.report, flag_tables. rewrite !Exists_cons, Exists_nil. cbn [fst snd]. rewrite !elem_of_app, !flag_section_iff.
  assert (N : forall l, forallb (fun x => negb (is_flag x)) l = true -> nvme_info.Flag s ∈ l <-> False) by (intros l H; split; [by apply not_flag | done]).
  rewrite !(N [_; _; _; _; _]), !(N [_; _; _]), !(N [_; _]), !(N [_]) by reflexivity.
  rewrite (N (if nth 0 _ 0 =? 0 then _ else _)) by (by case_match). rewrite (N (nvme_info.controller_type _)) by (unfold nvme_info.controller_type; by case_match).
  rewrite !(N (if nvme_info.get _ _ =? 0 then _ else _)) by (by case_match). tauto.
Qed.

Lemma report_exact burst dma sizes page :
  Forall (fun t => Forall (fun x =>
    nvme_info.Flag x.2 ∈ nvme_info.report burst dma sizes page <-> Z.testbit (nvme_info.get t.1 page) x.1 = true) t.2) flag_tables.
Proof.
  assert (Hd : Forall (fun t => NoDup t.2.*2 /\ Forall (fun x => 0 <= x.1 /\ Forall (fun u => u.1 = t.1 \/ x.2 ∉ u.2.*2) flag_tables) t.2) flag_tables)
    by by_compute.
  assert (Hk : Forall (fun t => Forall (fun u => u.1 = t.1 -> u = t) flag_tables) flag_tables).
  { apply Forall_forall. intros t Ht. apply Forall_forall. intros u Hu E. unfold flag_tables in *.
    repeat (apply elem_of_cons in Ht as [-> | Ht] || apply elem_of_nil in Ht as []);
      repeat (apply elem_of_cons in Hu as [-> | Hu] || apply elem_of_nil in Hu as []); (done || discriminate E). }
  rewrite Forall_forall in Hd, Hk |- *. intros t Ht. destruct (Hd t Ht) as [Hn Hl]. specialize (Hk t Ht). cbn beta in Hk. rewrite Forall_forall in Hl |- *. rewrite Forall_forall in Hk.
  intros [i s] Hx. destruct (Hl _ Hx) as [Hi Ho]. cbn [fst snd] in *. rewrite report_flags, Exists_exists, <- (flag_in _ _ i s Hn Hx Hi).
  rewrite Forall_forall in Ho. split; [| intros H; by exists t].
  intros (u & Hu & H). destruct (Ho u Hu) as [E | Hno]; [by rewrite <- (Hk u Hu E) | by apply flag_out in H].
Qed.

Lemma pow2_int p : p < 31 -> nvme_info.pow2 p = Ret (Z.shiftl 1 p).
Proof. intros H. unfold nvme_info.pow2. by rewrite (proj2 (Z.ltb_lt p 31)) by lia. Qed.

Lemma land_nibble v : 0 <= Z.land v 0xF < 16.
Proof. change 0xF with (Z.ones 4). rewrite Z.land_ones by lia. by apply Z.mod_pos_bound. Qed.

(** The report of a controller shows exactly the optional features that it has: each
    text is printed if and only if the bit that it stands for is set in its field of
    the identify page.  It is always printed when the arbitration burst is below 32;
    with a larger one the code shifts an int too far. *)
Theorem identify_report_exact (cap : Z) (page : list Z) :
  if nvme_info.get "rab" page <? 32 then
    exists l, nvme_info.print_identify_info cap page = Ret l /\
      Forall (fun t => Forall (fun x =>
        nvme_info.Flag x.2 ∈ l <-> Z.testbit (nvme_info.get t.1 page) x.1 = true) t.2) flag_tables
  else nvme_info.print_identify_info cap page = Undef.
Proof.
  unfold nvme_info.print_identify_info. destruct (Z.ltb_spec (nvme_info.get "rab" page) 32) as [Hr | Hr].
  - assert (exists b, nvme_info.pow2 (nvme_info.get "rab" page) = Ret b) as [b ->].
    { unfold nvme_info.pow2. destruct (Z.ltb_spec (nvme_info.get "rab" page) 31); [by eexists |].
      rewrite (proj2 (Z.eqb_eq _ 31)) by lia. by eexists. }
    cbn [mbind res_bind]. set (dma := if _ =? 0 then _ else _). assert (exists d, dma = Ret d) as [d ->].
    { unfold dma. destruct (_ =? 0); [by eexists |]. rewrite pow2_int; [by eexists |].
      rewrite <- (getf_at _ _ 48 4) by reflexivity. pose proof (land_nibble (Z.shiftr cap 48)). unfold bits. change (Z.ones 4) with 0xF. lia. }
    cbn [mbind res_bind]. rewrite !pow2_int by (eapply Z.lt_trans; [apply land_nibble | lia]). cbn [mbind res_bind].
    eexists. split; [reflexivity |]. apply report_exact.
  - revert Hr. generalize (nvme_info.get "rab" page). intros r Hr. assert (nvme_info.pow2 r = Undef) as ->; [| reflexivity].
    unfold nvme_info.pow2. by rewrite (proj2 (Z.ltb_ge r 31)), (proj2 (Z.eqb_neq r 31)) by lia.
Qed.
