(* ===== verification/Virt.v ===== *)
(** * Virt: virtual machines

    Models source/generic/virt.cpp (the call [vctl]) and
    source/arch/x86_64/amd/svm.cpp with svm.hpp and svm_low.asm: the control block
    of a virtual CPU, its set-up and tear-down, the switch into a guest and back,
    the exits, the registers that a monitor reads and writes, and the nested page
    table of a guest.  What the processor does between [vmrun] and the next exit is
    a parameter: it gets the registers, the control block, the model-specific
    registers and the SIMD registers, and may change all of them.

    The control block of a virtual CPU is kept as the values of its fields;
    [layout] has their places in the page that the processor sees.  The structures
    that a monitor passes by address are a function of the address. *)

From S2P Require Import Prelude Bits Containers Fields Frames Pmm Paging Ipc Process Elf Descriptors.

(** ** The control block *)

Module vmcb_t.
(** The fields with a name, in the order of the structure. *)
Inductive field :=
| icept_cr_reads | icept_cr_writes | icept_r_reads | icept_dr_writes | icept_exceptions | icept_intr | icept_nmi
| icept_smi | icept_init | icept_vintr | icept_cr0_writes | icept_idtr_reads | icept_gdtr_reads | icept_ldtr_reads
| icept_tr_reads | icept_idtr_writes | icept_gdtr_writes | icept_ldtr_writes | icept_tr_writes | icept_rdtsc
| icept_rdpmc | icept_pushf | icept_popf | icept_cpuid | icept_rsm | icept_iret | icept_int | icept_invd
| icept_pause | icept_hlt | icept_invlpg | icept_invlpga | icept_io | icept_msr | icept_task_switch | ferr_freeze
| icept_shutdown | icept_vmrun | icept_vmmcall | icept_vmload | icept_vmsave | icept_stgi | icept_clgi | icept_skinit
| icept_rdtscp | icept_icebp | icept_wbinvd | icept_monitor | icept_mwait_unconditional | icept_mwait_if_armed
| icept_xsetbv | icept_rdpru | icept_efer_write | icept_cr_writes_after_finish | pause_filter_threshold
| pause_filter_count | iopm_base_phys | msrpm_base_phys | tsc_offset | guest_asid | tlb_control | v_tpr | v_irq
| v_intr_priority | v_ignore_tpr | v_intr_masking | v_intr_vector | irq_shadow | exitcode | exitinfo1 | exitinfo2
| exitintinfo | np_enable | event_inject | n_cr3 | lbr_enable | vmcb_clean | next_rip | instruction_len
| instruction_bytes | cpl | efer | cr4 | cr3 | cr0 | dr7 | dr6 | rflags | rip | rsp | rax | star | lstar | cstar
| sfmask | kernel_gs_base | sysenter_cs | sysenter_esp | sysenter_eip | cr2 | g_pat | debug_control | br_from | br_to
| int_from | int_to.

Inductive sreg := es | cs | ss | ds | fs | gs | gdtr | ldtr | idtr | tr.

Record segment := mk_segment { selector : Z; attrib : Z; limit : Z; base : Z }.
Definition zero_segment : segment := mk_segment 0 0 0 0.

(** The place of a field among them decides equality. *)
Definition tag (f : field) : Z :=
  match f with
  | icept_cr_reads => 0 | icept_cr_writes => 1 | icept_r_reads => 2 | icept_dr_writes => 3 | icept_exceptions => 4
  | icept_intr => 5 | icept_nmi => 6 | icept_smi => 7 | icept_init => 8 | icept_vintr => 9 | icept_cr0_writes => 10
  | icept_idtr_reads => 11 | icept_gdtr_reads => 12 | icept_ldtr_reads => 13 | icept_tr_reads => 14
  | icept_idtr_writes => 15 | icept_gdtr_writes => 16 | icept_ldtr_writes => 17 | icept_tr_writes => 18
  | icept_rdtsc => 19 | icept_rdpmc => 20 | icept_pushf => 21 | icept_popf => 22 | icept_cpuid => 23
  | icept_rsm => 24 | icept_iret => 25 | icept_int => 26 | icept_invd => 27 | icept_pause => 28 | icept_hlt => 29
  | icept_invlpg => 30 | icept_invlpga => 31 | icept_io => 32 | icept_msr => 33 | icept_task_switch => 34
  | ferr_freeze => 35 | icept_shutdown => 36 | icept_vmrun => 37 | icept_vmmcall => 38 | icept_vmload => 39
  | icept_vmsave => 40 | icept_stgi => 41 | icept_clgi => 42 | icept_skinit => 43 | icept_rdtscp => 44
  | icept_icebp => 45 | icept_wbinvd => 46 | icept_monitor => 47 | icept_mwait_unconditional => 48
  | icept_mwait_if_armed => 49 | icept_xsetbv => 50 | icept_rdpru => 51 | icept_efer_write => 52
  | icept_cr_writes_after_finish => 53 | pause_filter_threshold => 54 | pause_filter_count => 55
  | iopm_base_phys => 56 | msrpm_base_phys => 57 | tsc_offset => 58 | guest_asid => 59 | tlb_control => 60
  | v_tpr => 61 | v_irq => 62 | v_intr_priority => 63 | v_ignore_tpr => 64 | v_intr_masking => 65
  | v_intr_vector => 66 | irq_shadow => 67 | exitcode => 68 | exitinfo1 => 69 | exitinfo2 => 70 | exitintinfo => 71
  | np_enable => 72 | event_inject => 73 | n_cr3 => 74 | lbr_enable => 75 | vmcb_clean => 76 | next_rip => 77
  | instruction_len => 78 | instruction_bytes => 79 | cpl => 80 | efer => 81 | cr4 => 82 | cr3 => 83 | cr0 => 84
  | dr7 => 85 | dr6 => 86 | rflags => 87 | rip => 88 | rsp => 89 | rax => 90 | star => 91 | lstar => 92 | cstar => 93
  | sfmask => 94 | kernel_gs_base => 95 | sysenter_cs => 96 | sysenter_esp => 97 | sysenter_eip => 98 | cr2 => 99
  | g_pat => 100 | debug_control => 101 | br_from => 102 | br_to => 103 | int_from => 104 | int_to => 105
  end.

#[export] Instance sreg_eq_dec : EqDecision sreg.
Proof. solve_decision. Defined.

(** The structure: fields with their width in bits, segment registers, and
    reserved bits. *)
Inductive item := Field (f : field) (bits : Z) | Segment (s : sreg) | Reserved (bits : Z).
Definition layout : list item := [
  Field icept_cr_reads 16; Field icept_cr_writes 16; Field icept_r_reads 16; Field icept_dr_writes 16;
  Field icept_exceptions 32; Field icept_intr 1; Field icept_nmi 1; Field icept_smi 1; Field icept_init 1;
  Field icept_vintr 1; Field icept_cr0_writes 1; Field icept_idtr_reads 1; Field icept_gdtr_reads 1;
  Field icept_ldtr_reads 1; Field icept_tr_reads 1; Field icept_idtr_writes 1; Field icept_gdtr_writes 1;
  Field icept_ldtr_writes 1; Field icept_tr_writes 1; Field icept_rdtsc 1; Field icept_rdpmc 1; Field icept_pushf 1;
  Field icept_popf 1; Field icept_cpuid 1; Field icept_rsm 1; Field icept_iret 1; Field icept_int 1;
  Field icept_invd 1; Field icept_pause 1; Field icept_hlt 1; Field icept_invlpg 1; Field icept_invlpga 1;
  Field icept_io 1; Field icept_msr 1; Field icept_task_switch 1; Field ferr_freeze 1; Field icept_shutdown 1;
  Field icept_vmrun 1; Field icept_vmmcall 1; Field icept_vmload 1; Field icept_vmsave 1; Field icept_stgi 1;
  Field icept_clgi 1; Field icept_skinit 1; Field icept_rdtscp 1; Field icept_icebp 1; Field icept_wbinvd 1;
  Field icept_monitor 1; Field icept_mwait_unconditional 1; Field icept_mwait_if_armed 1; Field icept_xsetbv 1;
  Field icept_rdpru 1; Field icept_efer_write 1; Field icept_cr_writes_after_finish 16; Reserved 320;
  Field pause_filter_threshold 16; Field pause_filter_count 16; Field iopm_base_phys 64; Field msrpm_base_phys 64;
  Field tsc_offset 64; Field guest_asid 32; Field tlb_control 8; Reserved 24; Field v_tpr 8; Field v_irq 1;
  Reserved 7; Field v_intr_priority 4; Field v_ignore_tpr 1; Reserved 3; Field v_intr_masking 1; Reserved 7;
  Field v_intr_vector 8; Reserved 24; Field irq_shadow 1; Reserved 63; Field exitcode 64; Field exitinfo1 64;
  Field exitinfo2 64; Field exitintinfo 64; Field np_enable 1; Reserved 63; Reserved 128; Field event_inject 64;
  Field n_cr3 64; Field lbr_enable 1; Reserved 63; Field vmcb_clean 32; Reserved 32; Field next_rip 64;
  Field instruction_len 8; Field instruction_bytes 120; Reserved 6400; Segment es; Segment cs; Segment ss;
  Segment ds; Segment fs; Segment gs; Segment gdtr; Segment ldtr; Segment idtr; Segment tr; Reserved 344;
  Field cpl 8; Reserved 32; Field efer 64; Reserved 896; Field cr4 64; Field cr3 64; Field cr0 64; Field dr7 64;
  Field dr6 64; Field rflags 64; Field rip 64; Reserved 704; Field rsp 64; Reserved 192; Field rax 64; Field star 64;
  Field lstar 64; Field cstar 64; Field sfmask 64; Field kernel_gs_base 64; Field sysenter_cs 64;
  Field sysenter_esp 64; Field sysenter_eip 64; Field cr2 64; Reserved 256; Field g_pat 64; Field debug_control 64;
  Field br_from 64; Field br_to 64; Field int_from 64; Field int_to 64; Reserved 19264].

Definition bits_of (i : item) : Z := match i with Field _ n => n | Segment _ => 16 + 16 + 32 + 64 | Reserved n => n end.
Definition size (l : list item) : Z := foldr (fun i n => bits_of i + n) 0 l.

Fixpoint find (f : field) (at_bit : Z) (l : list item) : Z * Z :=
  match l with
  | [] => (at_bit, 0)
  | Field g n :: l => if tag g =? tag f then (at_bit, n) else find f (at_bit + n) l
  | i :: l => find f (at_bit + bits_of i) l
  end.
Definition offset (f : field) : Z := (find f 0 layout).1.
Definition width (f : field) : Z := (find f 0 layout).2.

(** [vmcb->f] and assignments to it; [vmcb_t{}]. *)
Record t := mk { get : field -> Z; seg : sreg -> segment }.
Definition zero : t := mk (fun _ => 0) (fun _ => zero_segment).
Definition put (f : field) (v : Z) (c : t) : t := mk (fun g => if tag g =? tag f then v else get c g) (seg c).
Definition put_seg (s : sreg) (v : segment) (c : t) : t := mk (get c) (fun r => if decide (r = s) then v else seg c r).

Definition puts (l : list (field * Z)) (c : t) : t := fold_left (fun c '(f, v) => put f v c) l c.
Definition put_segs (l : list (sreg * segment)) (c : t) : t := fold_left (fun c '(s, v) => put_seg s v c) l c.
End vmcb_t.

(** ** What monitors see *)

Module vregs.
Record selector := mk_selector { sel : Z; attrib : Z; limit : Z; base : Z }.
Record dtable := mk_dtable { dt_base : Z; dt_limit : Z }.

Record t := mk {
  rax : Z; rbx : Z; rcx : Z; rdx : Z; rsi : Z; rdi : Z; r8 : Z; r9 : Z; r10 : Z; r11 : Z; r12 : Z; r13 : Z; r14 : Z; r15 : Z;
  rsp : Z; rbp : Z; rip : Z; rflags : Z; cr0 : Z; cr2 : Z; cr3 : Z; cr4 : Z; cr8 : Z; efer : Z;
  cs : selector; ds : selector; ss : selector; es : selector; fs : selector; gs : selector;
  ldtr : selector; tr : selector; gdtr : dtable; idtr : dtable }.
End vregs.

Module vexit.
Definition vCtlExitReasonHlt : Z := 0.
Definition vCtlExitReasonRdtsc : Z := 1.
Definition vCtlExitReasonPortRead : Z := 2.
Definition vCtlExitReasonPortWrite : Z := 3.
Definition vCtlExitReasonHypercall : Z := 9.
Definition vCtlExitReasonInterrupt : Z := 10.
Definition vCtlExitReasonInvalidInternalState : Z := u64 (-1).

(** The union has only its member [port] written by the code. *)
Record port_info := mk_port { port : Z; p_width : Z; repeated : bool; string : bool }.
Record t := mk { reason : Z; opcode : list Z; opcode_length : Z; interrupt_number : Z; port_io : port_info }.

Definition set_reason (r : Z) (x : t) : t := mk r (opcode x) (opcode_length x) (interrupt_number x) (port_io x).
Definition set_length (n : Z) (x : t) : t := mk (reason x) (opcode x) n (interrupt_number x) (port_io x).
Definition set_interrupt (n : Z) (x : t) : t := mk (reason x) (opcode x) (opcode_length x) n (port_io x).
Definition set_port (p : port_info) (x : t) : t := mk (reason x) (opcode x) (opcode_length x) (interrupt_number x) p.

(** [vexit->opcode[i] = b], an array of 15 bytes. *)
Definition put_opcode (i b : Z) (x : t) : res t :=
  _ ← access (opcode x !! Z.to_nat i);
  mret (mk (reason x) (<[Z.to_nat i := b]> (opcode x)) (opcode_length x) (interrupt_number x) (port_io x)).

(** The bytes of an instruction that is known. *)
Definition put_instruction (l : list Z) (x : t) : res t :=
  x ← for_loop (length l) 0 (fun i x => put_opcode i (nth (Z.to_nat i) l 0) x) x;
  mret (set_length (Z.of_nat (length l)) x).
End vexit.

(** ** svm_low.asm *)

Module svm_low.
(** [vm_gpr_state] and the offsets that the code uses for it. *)
Inductive gpr := rbx | rcx | rdx | rsi | rdi | rbp | r8 | r9 | r10 | r11 | r12 | r13 | r14 | r15.
#[export] Instance gpr_eq_dec : EqDecision gpr.
Proof. solve_decision. Defined.

Definition vm_gpr_state : list gpr := [rbx; rcx; rdx; rsi; rdi; rbp; r8; r9; r10; r11; r12; r13; r14; r15].
Definition gpr_offset (g : gpr) : Z := match list_find (eq g) vm_gpr_state with Some (i, _) => 8 * Z.of_nat i | None => 0 end.

(** A register is [None] for rax. *)
Definition reg : Type := option gpr.

Inductive instr :=
| push (r : reg) | pop (r : reg)
| load (r : reg) (base : gpr) (offset : Z)      (* mov r, qword [base + offset] *)
| load_stack (r : reg) (slot : nat)             (* mov r, qword [rsp + 8 * slot] *)
| store (base : gpr) (offset : Z) (r : reg)     (* mov qword [base + offset], r *)
| vm_enter.                                     (* vmload; vmrun; vmsave *)

Definition _vmrun : list instr :=
  [push None; push (Some rbx); push (Some rcx); push (Some rdx); push (Some rdi); push (Some rbp); push (Some r8);
   push (Some r9); push (Some r10); push (Some r11); push (Some r12); push (Some r13); push (Some r14); push (Some r15);
   push (Some rsi);
   load (Some rbx) rdi 0x0; load (Some rcx) rdi 0x8; load (Some rdx) rdi 0x10; load (Some rsi) rdi 0x18;
   load (Some rbp) rdi 0x28; load (Some r8) rdi 0x30; load (Some r9) rdi 0x38; load (Some r10) rdi 0x40;
   load (Some r11) rdi 0x48; load (Some r12) rdi 0x50; load (Some r13) rdi 0x58; load (Some r14) rdi 0x60;
   load (Some r15) rdi 0x68;
   push (Some rdi); load (Some rdi) rdi 0x20;
   load_stack None 1; vm_enter;
   push (Some rdi); load_stack (Some rdi) 1;
   store rdi 0x0 (Some rbx); store rdi 0x8 (Some rcx); store rdi 0x10 (Some rdx); store rdi 0x18 (Some rsi);
   store rdi 0x28 (Some rbp); store rdi 0x30 (Some r8); store rdi 0x38 (Some r9); store rdi 0x40 (Some r10);
   store rdi 0x48 (Some r11); store rdi 0x50 (Some r12); store rdi 0x58 (Some r13); store rdi 0x60 (Some r14);
   store rdi 0x68 (Some r15);
   pop (Some r8); pop (Some r9); store r9 0x20 (Some r8);
   pop (Some rsi); pop (Some r15); pop (Some r14); pop (Some r13); pop (Some r12); pop (Some r11); pop (Some r10);
   pop (Some r9); pop (Some r8); pop (Some rbp); pop (Some rdi); pop (Some rdx); pop (Some rcx); pop (Some rbx);
   pop None].

(** The registers, the words on the stack, the memory that the code accesses
    otherwise, and the rest of the machine. *)
Section exec.
Context {X : Type}.
(** [vmrun] with the physical address of the control block: the processor gives
    rax and rsp of the host back and leaves the guest's other registers. *)
Context (vmrun : Z -> (gpr -> Z) -> X -> (gpr -> Z) * X).

Record machine := mk { regs : reg -> Z; stack : list Z; words : memory; rest : X }.

Definition set_reg (r : reg) (v : Z) (m : machine) : machine :=
  mk (fun q => if decide (q = r) then v else regs m q) (stack m) (words m) (rest m).

Definition step (i : instr) (m : machine) : res machine :=
  match i with
  | push r => mret (mk (regs m) (regs m r :: stack m) (words m) (rest m))
  | pop r =>
      v ← access (head (stack m));
      mret (set_reg r v (mk (regs m) (tail (stack m)) (words m) (rest m)))
  | load r base offset => mret (set_reg r (words m (regs m (Some base) + offset)) m)
  | load_stack r slot => v ← access (stack m !! slot); mret (set_reg r v m)
  | store base offset r => mret (mk (regs m) (stack m) (write_word (words m) (regs m (Some base) + offset) (regs m r)) (rest m))
  | vm_enter =>
      let '(g, x) := vmrun (regs m None) (fun r => regs m (Some r)) (rest m) in
      mret (mk (fun q => match q with None => regs m None | Some r => g r end) (stack m) (words m) x)
  end.

Fixpoint exec (l : list instr) (m : machine) : res machine :=
  match l with [] => mret m | i :: l => m ← step i m; exec l m end.
End exec.
End svm_low.
Import (hints) svm_low.

(** ** svm.cpp *)

Module svm.
Import vmcb_t.

Definition vm_cr : Z := 0xC0010114.
Definition vm_hsave_pa : Z := 0xC0010117.
Definition ia32_pat : Z := 0x277.
Definition ia32_efer : Z := 0xC0000080.
Definition fs_base : Z := 0xC0000100.
Definition gs_base : Z := 0xC0000101.
Definition kernelgs_base : Z := 0xC0000102.
Definition sigma_pat : Z := Z.lor (Z.lor (Z.lor 0x06 (Z.shiftl 0x01 8)) (Z.shiftl 0x04 16)) (Z.shiftl 0x00 24).
Definition default_pat : Z := 0x0007040600070406.

(** In pages. *)
Definition msr_bitmap_size : Z := 2.
Definition io_bitmap_size : Z := (65535 / 8) / 0x1000.

(** The registers that a guest may change, and the rest of a CPU. *)
Record machine := mk_machine { msr : Z -> Z; simd : Z }.
Record host := mk_host {
  cpu : machine; gif : bool; h_gdt : gdt.t; tss_gdt_offset : Z; h_tr : Z; feature_svm : bool }.

Definition set_cpu (m : machine) (h : host) : host := mk_host m (gif h) (h_gdt h) (tss_gdt_offset h) (h_tr h) (feature_svm h).
Definition set_gif (b : bool) (h : host) : host := mk_host (cpu h) b (h_gdt h) (tss_gdt_offset h) (h_tr h) (feature_svm h).
Definition set_tr (g : gdt.t) (s : Z) (h : host) : host := mk_host (cpu h) (gif h) g (tss_gdt_offset h) s (feature_svm h).
Definition set_simd (v : Z) (h : host) : host := set_cpu (mk_machine (msr (cpu h)) v) h.
Definition write_msr (r v : Z) (h : host) : host :=
  set_cpu (mk_machine (fun x => if x =? r then v else msr (cpu h) x) (simd (cpu h))) h.

(** [vcpu]; the pointers [vmcb], [msr_bitmap] and [io_bitmap] are the physical
    ones in the direct mapping.  [npt] is the [paging_info] of the vspace. *)
Record vcpu := mk_vcpu {
  vmcb_phys : Z; vmcb : vmcb_t.t; gpr_state : svm_low.gpr -> Z; host_fs : Z; host_gs : Z; host_kernel_gs : Z;
  msr_bitmap_phys : Z; io_bitmap_phys : Z; host_simd : Z; guest_simd : Z; npt : Z }.

Definition set_vmcb (v : vmcb_t.t) (c : vcpu) : vcpu :=
  mk_vcpu (vmcb_phys c) v (gpr_state c) (host_fs c) (host_gs c) (host_kernel_gs c) (msr_bitmap_phys c) (io_bitmap_phys c)
    (host_simd c) (guest_simd c) (npt c).
Definition put_vmcb (f : field) (v : Z) (c : vcpu) : vcpu := set_vmcb (put f v (vmcb c)) c.

(** *** Registers *)

(** The conversions of [segment]; the constructor from a [dtable] leaves the other
    two members as they are in memory. *)
Definition to_selector (s : segment) : vregs.selector := vregs.mk_selector (selector s) (attrib s) (limit s) (base s).
Definition to_dtable (s : segment) : vregs.dtable := vregs.mk_dtable (base s) (u16 (limit s)).
Definition of_selector (s : vregs.selector) : segment :=
  mk_segment (vregs.sel s) (vregs.attrib s) (vregs.limit s) (vregs.base s).
Definition of_dtable (uninit : Z * Z) (d : vregs.dtable) : segment :=
  mk_segment uninit.1 uninit.2 (vregs.dt_limit d) (vregs.dt_base d).

Definition get_regs (c : vcpu) : vregs.t :=
  let v := get (vmcb c) in
  let g := gpr_state c in
  let s r := to_selector (seg (vmcb c) r) in
  let d r := to_dtable (seg (vmcb c) r) in
  vregs.mk (v rax) (g svm_low.rbx) (g svm_low.rcx) (g svm_low.rdx) (g svm_low.rsi) (g svm_low.rdi) (g svm_low.r8)
    (g svm_low.r9) (g svm_low.r10) (g svm_low.r11) (g svm_low.r12) (g svm_low.r13) (g svm_low.r14) (g svm_low.r15)
    (v rsp) (g svm_low.rbp) (v rip) (v rflags) (v cr0) (v cr2) (v cr3) (v cr4) 0 (v efer)
    (s cs) (s ds) (s ss) (s es) (s fs) (s gs) (s ldtr) (s tr) (d gdtr) (d idtr).

Definition set_gprs (r : vregs.t) : svm_low.gpr -> Z := fun g =>
  match g with
  | svm_low.rbx => vregs.rbx r | svm_low.rcx => vregs.rcx r | svm_low.rdx => vregs.rdx r | svm_low.rsi => vregs.rsi r
  | svm_low.rdi => vregs.rdi r | svm_low.r8 => vregs.r8 r | svm_low.r9 => vregs.r9 r | svm_low.r10 => vregs.r10 r
  | svm_low.r11 => vregs.r11 r | svm_low.r12 => vregs.r12 r | svm_low.r13 => vregs.r13 r | svm_low.r14 => vregs.r14 r
  | svm_low.r15 => vregs.r15 r | svm_low.rbp => vregs.rbp r
  end.

Definition set_regs (uninit : Z * Z) (r : vregs.t) (c : vcpu) : vcpu :=
  let v := puts [(rax, vregs.rax r); (rsp, vregs.rsp r); (rip, vregs.rip r); (rflags, vregs.rflags r); (cr0, vregs.cr0 r);
                 (cr2, vregs.cr2 r); (cr3, vregs.cr3 r); (cr4, vregs.cr4 r); (efer, vregs.efer r)] (vmcb c) in
  let v := put_segs [(cs, of_selector (vregs.cs r)); (ds, of_selector (vregs.ds r)); (es, of_selector (vregs.es r));
                     (ss, of_selector (vregs.ss r)); (fs, of_selector (vregs.fs r)); (gs, of_selector (vregs.gs r));
                     (ldtr, of_selector (vregs.ldtr r)); (tr, of_selector (vregs.tr r));
                     (gdtr, of_dtable uninit (vregs.gdtr r)); (idtr, of_dtable uninit (vregs.idtr r))] v in
  mk_vcpu (vmcb_phys c) v (set_gprs r) (host_fs c) (host_gs c) (host_kernel_gs c) (msr_bitmap_phys c) (io_bitmap_phys c)
    (host_simd c) (guest_simd c) (npt c).

(** *** Set-up *)

(** The control block of a new CPU, which starts at the reset vector. *)
Definition init_selector : segment := mk_segment 0 0x93 0xFFFF 0.

Definition initial_vmcb (n_cr3_phys msr_phys io_phys : Z) : vmcb_t.t :=
  let v := puts [
    (np_enable, 1); (n_cr3, n_cr3_phys); (g_pat, default_pat);
    (icept_exceptions, Z.lor 0 (simd.bits [1; 6; 14; 17; 18])); (icept_cr_writes, Z.lor 0 (simd.bits [8]));
    (icept_vmrun, 1); (icept_vmmcall, 1); (icept_vmload, 1); (icept_vmsave, 1);
    (icept_intr, 1); (icept_nmi, 1); (icept_smi, 1); (icept_task_switch, 1);
    (icept_hlt, 1); (icept_cpuid, 1); (icept_rdpmc, 1); (icept_rdtsc, 1); (icept_invd, 1); (icept_stgi, 1); (icept_clgi, 1);
    (icept_skinit, 1); (icept_xsetbv, 1); (icept_wbinvd, 1); (icept_rdpru, 1); (icept_rsm, 1);
    (icept_efer_write, 1); (v_intr_masking, 1);
    (msrpm_base_phys, msr_phys); (iopm_base_phys, io_phys); (icept_msr, 1);
    (guest_asid, 1); (tlb_control, 1)] zero in
  let v := put_segs [(ds, init_selector); (es, init_selector); (fs, init_selector); (gs, init_selector); (ss, init_selector);
                     (idtr, mk_segment 0 0 0x3ff 0); (cs, mk_segment 0xF000 0x9b 0xFFFF 0xFFFF0000)] v in
  puts [(rip, 0x0000fff0); (efer, simd.bits [12]); (rflags, simd.bits [1]); (dr6, 0xFFFF0FF0); (cr0, simd.bits [29; 30; 4])] v.

(** [memset(p, 0xFF, n)] of whole pages. *)
Definition fill_pages (p n : Z) (m : memory) : memory := fun x => if (p <=? x) && (x <? p + n) then u64_max else m x.

Section ops.
Context {S : Type} `{FA : FrameAllocator S}.
(** The processor, the allocation of contiguous pages, and the kernel's address
    space. *)
Context (vmrun : (svm_low.gpr -> Z) -> vmcb_t.t -> machine -> (svm_low.gpr -> Z) * vmcb_t.t * machine).
Context (alloc_n_blocks : Z -> S -> res (Z * S)) (kernel_info : Z).

(** [init]; [cpuid] returns nothing for a leaf that does not exist. *)
Definition init (cpuid : Z -> option (Z * Z * Z * Z)) (h : host) (s : S) : res (bool * host * S) :=
  match cpuid 0x80000001 with
  | None => mret (false, h, s)
  | Some (_, _, c, _) =>
      if Z.land c (Z.shiftl 1 2) =? 0 then mret (false, h, s)
      else
        match cpuid 0x8000000A with
        | None => Panic "SVM support was detected but the CPUID leaf doesn't exist"
        | Some (_, _, _, d) =>
            if negb (Z.land (msr (cpu h) vm_cr) (Z.shiftl 1 4) =? 0) then mret (false, h, s)
            else if Z.land d (Z.shiftl 1 0) =? 0 then mret (false, h, s)
            else
              let h := write_msr ia32_efer (Z.lor (msr (cpu h) ia32_efer) (Z.shiftl 1 12)) h in
              '(f, s) ← fa_alloc s;
              let h := write_msr vm_hsave_pa f h in
              mret (true, mk_host (cpu h) (gif h) (h_gdt h) (tss_gdt_offset h) (h_tr h) true, s)
        end
  end.

(** A page of the kernel's direct mapping. *)
Definition map_kernel_page (flags phys : Z) (k : paging.kernel S) : res (paging.kernel S) :=
  paging.map_page kernel_info phys (to_virt phys) flags normal k.

Definition map_bitmap (phys n : Z) (k : paging.kernel S) : res (paging.kernel S) :=
  for_loop (Z.to_nat n) 0 (fun i k =>
    map_kernel_page (Z.lor map_page_flags_present map_page_flags_writable) (u64 (phys + i * block_size)) k) k.

(** The constructor of [vcpu] with the [paging_info] of the vspace; without a block
    for the control block, the object stays uninitialised. *)
Definition vcpu_init (space_info : Z) (k : paging.kernel S) : res (option vcpu * paging.kernel S) :=
  '(f, fr) ← fa_alloc (paging.frames k);
  let k := paging.mk fr (paging.mem k) in
  if f =? 0 then mret (None, k)
  else
    k ← map_kernel_page (Z.lor (Z.lor map_page_flags_present map_page_flags_writable) map_page_flags_no_execute) f k;
    '(m, fr) ← alloc_n_blocks msr_bitmap_size (paging.frames k);
    '(i, fr) ← alloc_n_blocks io_bitmap_size fr;
    k ← map_bitmap m msr_bitmap_size (paging.mk fr (paging.mem k));
    k ← map_bitmap i io_bitmap_size k;
    let mem := fill_pages i (io_bitmap_size * block_size) (fill_pages m (msr_bitmap_size * block_size) (paging.mem k)) in
    mret (Some (mk_vcpu f (initial_vmcb (to_phys space_info) m i) (fun _ => 0) 0 0 0 m i simd.default_state simd.default_state space_info),
          paging.mk (paging.frames k) mem).

Definition free_pages (p n : Z) (k : paging.kernel S) : res (paging.kernel S) :=
  for_loop (Z.to_nat n) 0 (fun i k => paging.free_frame (u64 (p + i * block_size)) k) k.

Definition vcpu_deinit (c : vcpu) (k : paging.kernel S) : res (paging.kernel S) :=
  k ← paging.free_frame (vmcb_phys c) k;
  k ← free_pages (msr_bitmap_phys c) msr_bitmap_size k;
  free_pages (io_bitmap_phys c) io_bitmap_size k.

(** [vspace]: the constructor returns the [paging_info] of its context. *)
Definition vspace_init (k : paging.kernel S) : res (Z * paging.kernel S) := paging.init 0 k.
Definition vspace_deinit (space_info : Z) (k : paging.kernel S) : res (paging.kernel S) := paging.deinit space_info k.
Definition vspace_map (space_info host_phys guest_phys : Z) (k : paging.kernel S) : res (paging.kernel S) :=
  paging.map_page space_info host_phys guest_phys
    (Z.lor (Z.lor map_page_flags_present map_page_flags_writable) map_page_flags_user) normal k.

(** *** Running *)

(** [ltr]: the descriptor has to be that of an available task state segment, and
    becomes busy. *)
Definition ltr (offset : Z) (h : host) : res host :=
  e ← gdt.get_entry_by_offset offset (h_gdt h);
  if bits 40 5 e =? 9 then
    g ← gdt.put (offset / 8) (Z.lor e (bit64 41)) (h_gdt h);
    mret (set_tr g offset h)
  else Panic "General protection fault".

Definition reload_tss (h : host) : res host :=
  let offset := tss_gdt_offset h in
  e ← gdt.get_entry_by_offset offset (h_gdt h);
  let e := Z.land e (not64 (Z.shiftl 0x1F 40)) in
  let e := Z.lor e (Z.shiftl 9 40) in
  g ← gdt.put (offset / 8) e (h_gdt h);
  ltr (u16 offset) (set_tr g (h_tr h) h).

(** The loop body of [run] up to the switch on the exit code. *)
Definition world_switch (c : vcpu) (h : host) : res (vcpu * host) :=
  let h := set_gif false h in
  let host_fs := msr (cpu h) fs_base in
  let host_gs := msr (cpu h) gs_base in
  let host_kernel_gs := msr (cpu h) kernelgs_base in
  let host_simd := simd (cpu h) in
  let h := set_simd (guest_simd c) h in
  let '(gpr, v, m) := vmrun (gpr_state c) (vmcb c) (cpu h) in
  let h := set_cpu m h in
  let guest_simd := simd (cpu h) in
  let h := set_simd host_simd h in
  let h := write_msr kernelgs_base host_kernel_gs (write_msr gs_base host_gs (write_msr fs_base host_fs h)) in
  h ← reload_tss h;
  let h := set_gif true (write_msr ia32_pat sigma_pat h) in
  mret (mk_vcpu (vmcb_phys c) v gpr host_fs host_gs host_kernel_gs (msr_bitmap_phys c) (io_bitmap_phys c) host_simd guest_simd (npt c), h).

(** A byte that the kernel reads at an address; addresses that are not canonical
    fault. *)
Definition load_byte (virt : Z) (k : paging.kernel S) : res Z :=
  if is_canonical virt then mret (read_byte (paging.mem k) (to_phys virt)) else Panic "General protection fault".

(** [cli; hlt] stops the CPU, so that the loop has at most one round. *)
Inductive run_result := Exits (x : vexit.t) | Halts.

Definition next_rip_by (n : Z) (c : vcpu) : vcpu := put_vmcb rip (u64 (get (vmcb c) rip + n)) c.

(** An exit for an instruction that is known. *)
Definition exit_at (reason : Z) (opcode : list Z) (x : vexit.t) (c : vcpu) (k : paging.kernel S) : res (run_result * vcpu * paging.kernel S) :=
  x ← vexit.put_instruction opcode (vexit.set_reason reason x);
  mret (Exits x, next_rip_by (Z.of_nat (length opcode)) c, k).

(** The members of [vexit->port]. *)
Definition port_of (exitinfo1 : Z) (p : vexit.port_info) : vexit.port_info :=
  let test n := negb (Z.land exitinfo1 (Z.shiftl 1 n) =? 0) in
  vexit.mk_port (Z.land (Z.shiftr exitinfo1 16) 0xFFFF)
    (if test 4 then 8 else if test 5 then 16 else if test 6 then 32 else vexit.p_width p)
    (test 3) (test 2).

Definition port_exit (x : vexit.t) (c : vcpu) (k : paging.kernel S) : res (run_result * vcpu * paging.kernel S) :=
  let old_rip := get (vmcb c) rip in
  let info := get (vmcb c) exitinfo1 in
  let c := put_vmcb rip (get (vmcb c) exitinfo2) c in
  let x := vexit.set_reason (if Z.land info (Z.shiftl 1 0) =? 0 then vexit.vCtlExitReasonPortWrite else vexit.vCtlExitReasonPortRead) x in
  let x := vexit.set_port (port_of info (vexit.port_io x)) x in
  let x := vexit.set_length (u8 (get (vmcb c) rip - old_rip)) x in
  let host_phys_rip := paging.get_phys (npt c) (u64 (base (seg (vmcb c) cs) + old_rip)) k in
  if host_phys_rip =? not64 1 then Panic "Couldn't find gRIP mapping"
  else
    k ← map_kernel_page map_page_flags_present host_phys_rip k;
    x ← for_loop (Z.to_nat (vexit.opcode_length x)) 0 (fun i x =>
      b ← load_byte (u64 (to_virt host_phys_rip + i)) k; vexit.put_opcode i b x) x;
    mret (Exits x, c, k).

(** A nested page fault is printed, with the bytes of the instruction. *)
Definition nested_page_fault (c : vcpu) (k : paging.kernel S) : res (run_result * vcpu * paging.kernel S) :=
  let rip := u64 (base (seg (vmcb c) cs) + get (vmcb c) rip) in
  let host_phys_rip := paging.get_phys (npt c) rip k in
  if host_phys_rip =? not64 1 then mret (Halts, c, k)
  else
    k ← map_kernel_page map_page_flags_present host_phys_rip k;
    _ ← for_loop 15 0 (fun i _ => _ ← load_byte (u64 (to_virt host_phys_rip + i)) k; mret tt) tt;
    mret (Halts, c, k).

Definition handle_exit (x : vexit.t) (c : vcpu) (k : paging.kernel S) : res (run_result * vcpu * paging.kernel S) :=
  let code := get (vmcb c) exitcode in
  if (0x40 <=? code) && (code <=? 0x5F) then
    mret (Exits (vexit.set_interrupt (u8 (code - 0x40)) (vexit.set_reason vexit.vCtlExitReasonInterrupt x)), c, k)
  else if code =? 0x6e then exit_at vexit.vCtlExitReasonRdtsc [0x0F; 0x31] x c k
  else if code =? 0x78 then exit_at vexit.vCtlExitReasonHlt [0xF4] x c k
  else if code =? 0x7B then port_exit x c k
  else if code =? 0x81 then exit_at vexit.vCtlExitReasonHypercall [0x0F; 0x01; 0xD9] x c k
  else if code =? 0x400 then nested_page_fault c k
  else if code =? 0xFFFFFFFF then mret (Exits (vexit.set_reason vexit.vCtlExitReasonInvalidInternalState x), c, k)
  else mret (Halts, c, k).

Definition run (x : vexit.t) (c : vcpu) (h : host) (k : paging.kernel S) : res (run_result * vcpu * host * paging.kernel S) :=
  '(c, h) ← world_switch c h;
  '(r, c, k) ← handle_exit x c k;
  mret (r, c, h, k).
End ops.
End svm.

(** ** virt.cpp *)

Module virt.
Inductive virt_types := Svm | No_virt.

Definition vCtlCreateVcpu : Z := 0.
Definition vCtlRunVcpu : Z := 1.
Definition vCtlGetRegs : Z := 2.
Definition vCtlSetRegs : Z := 3.
Definition vCtlCreateVspace : Z := 4.
Definition vCtlMapVspace : Z := 5.
Definition vCtlMapVspacePhys : Z := 6.

(** The objects: [ptr] of a vspace as its [paging_info]. *)
Record vspace := mk_vspace { s_type : virt_types; s_ptr : Z }.
Record vcpu := mk_vcpu { c_type : virt_types; c_ptr : option svm.vcpu }.

Section ops.
Context {S : Type} `{FA : FrameAllocator S}.
Context (vmrun : (svm_low.gpr -> Z) -> vmcb_t.t -> svm.machine -> (svm_low.gpr -> Z) * vmcb_t.t * svm.machine).
Context (alloc_n_blocks : Z -> S -> res (Z * S)) (kernel_info : Z) (uninit : Z * Z).

(** Where operator new puts a handle (and the object in it), and the address space
    of the calling thread. *)
Context (new_handle thread_vmm : Z).

Record state := mk {
  kern : paging.kernel S; host : svm.host; vspaces : gmap Z vspace; vcpus : gmap Z vcpu;
  objs : gmap Z handles.handle; user_regs : Z -> vregs.t; user_exits : Z -> vexit.t }.

Definition set_kern (k : paging.kernel S) (s : state) : state :=
  mk k (host s) (vspaces s) (vcpus s) (objs s) (user_regs s) (user_exits s).
Definition set_vcpu (p : Z) (c : vcpu) (s : state) : state :=
  mk (kern s) (host s) (vspaces s) (<[p := c]> (vcpus s)) (objs s) (user_regs s) (user_exits s).

Definition get_type (s : state) : virt_types := if svm.feature_svm (host s) then Svm else No_virt.

(** Constructors and destructors. *)
Definition vspace_create (s : state) : res (vspace * state) :=
  match get_type s with
  | Svm => '(info, k) ← svm.vspace_init (kern s); mret (mk_vspace Svm info, set_kern k s)
  | No_virt => mret (mk_vspace No_virt 0, s)
  end.

Definition vspace_delete (v : vspace) (s : state) : res state :=
  match s_type v with
  | Svm => if s_ptr v =? 0 then mret s else k ← svm.vspace_deinit (s_ptr v) (kern s); mret (set_kern k s)
  | No_virt => mret s
  end.

Definition vspace_map (v : vspace) (host_phys guest_phys : Z) (k : paging.kernel S) : res (paging.kernel S) :=
  match s_type v with Svm => svm.vspace_map (s_ptr v) host_phys guest_phys k | No_virt => mret k end.

(** A null pointer to the vspace is only followed when there is virtualization. *)
Definition vcpu_create (space : option vspace) (s : state) : res (vcpu * state) :=
  match get_type s with
  | Svm =>
      v ← access space;
      _ ← ASSERT (match s_type v with Svm => true | No_virt => false end) "space->type == generic::virt::virt_types::Svm";
      '(c, k) ← svm.vcpu_init alloc_n_blocks kernel_info (s_ptr v) (kern s);
      mret (mk_vcpu Svm c, set_kern k s)
  | No_virt => mret (mk_vcpu No_virt None, s)
  end.

Definition vcpu_delete (c : vcpu) (s : state) : res state :=
  match c_type c with
  | Svm => v ← access (c_ptr c); k ← svm.vcpu_deinit v (kern s); mret (set_kern k s)
  | No_virt => mret s
  end.

(** How a call ends: with a value, or with the CPU stopped. *)
Inductive outcome := Done (v : Z) (cat : handles.handle_catalogue) (s : state) | Stopped (s : state).

Definition vcpu_run (p vexit : Z) (c : vcpu) (cat : handles.handle_catalogue) (s : state) : res outcome :=
  match c_type c with
  | Svm =>
      v ← access (c_ptr c);
      '(r, v, h, k) ← svm.run vmrun kernel_info (user_exits s vexit) v (host s) (kern s);
      let s := mk k h (vspaces s) (<[p := mk_vcpu Svm (Some v)]> (vcpus s)) (objs s) (user_regs s) (user_exits s) in
      match r with
      | svm.Exits x => mret (Done 0 cat (mk (kern s) (host s) (vspaces s) (vcpus s) (objs s) (user_regs s)
                                           (fun a => if a =? vexit then x else user_exits s a)))
      | svm.Halts => mret (Stopped s)
      end
  | No_virt => mret (Done 0 cat s)
  end.

Definition vcpu_get_regs (regs : Z) (c : vcpu) (s : state) : res state :=
  match c_type c with
  | Svm =>
      v ← access (c_ptr c);
      mret (mk (kern s) (host s) (vspaces s) (vcpus s) (objs s) (fun a => if a =? regs then svm.get_regs v else user_regs s a) (user_exits s))
  | No_virt => mret s
  end.

Definition vcpu_set_regs (p regs : Z) (c : vcpu) (s : state) : res state :=
  match c_type c with
  | Svm => v ← access (c_ptr c); mret (set_vcpu p (mk_vcpu Svm (Some (svm.set_regs uninit (user_regs s regs) v))) s)
  | No_virt => mret s
  end.

(** [handle_catalogue.get<T>(id)] and the object in the handle. *)
Definition get_vspace (id : Z) (cat : handles.handle_catalogue) (s : state) : res (option vspace) :=
  h ← handles.get (objs s) handles.vSpace id cat;
  match h with Some (handles.vspace_handle p) => v ← access (vspaces s !! p); mret (Some v) | _ => mret None end.

Definition get_vcpu (id : Z) (cat : handles.handle_catalogue) (s : state) : res (Z * vcpu) :=
  h ← handles.get (objs s) handles.vCpu id cat;
  match h with Some (handles.vcpu_handle p) => c ← access (vcpus s !! p); mret (p, c) | _ => Undef end.

(** [for(i = 0; i < div_ceil(size, block_size); i++)] with the frame for each page;
    the pointer to the vspace is followed in the loop. *)
Definition map_range (v : option vspace) (host_phys : Z -> paging.kernel S -> Z) (guest_base size : Z) (k : paging.kernel S) : res (paging.kernel S) :=
  for_loop (Z.to_nat (div_ceil size block_size)) 0 (fun i k =>
    v ← access v;
    vspace_map v (host_phys i k) (u64 (guest_base + u64 (i * block_size))) k) k.

Definition vctl (cmd arg1 arg2 arg3 arg4 : Z) (cat : handles.handle_catalogue) (s : state) : res outcome :=
  if cmd =? vCtlCreateVcpu then
    v ← get_vspace arg1 cat s;
    '(c, s) ← vcpu_create v s;
    '(id, cat) ← handles.push new_handle cat;
    mret (Done id cat (mk (kern s) (host s) (vspaces s) (<[new_handle := c]> (vcpus s))
                          (<[new_handle := handles.vcpu_handle new_handle]> (objs s)) (user_regs s) (user_exits s)))
  else if cmd =? vCtlRunVcpu then '(p, c) ← get_vcpu arg1 cat s; vcpu_run p arg2 c cat s
  else if cmd =? vCtlGetRegs then '(_, c) ← get_vcpu arg1 cat s; s ← vcpu_get_regs arg2 c s; mret (Done 0 cat s)
  else if cmd =? vCtlSetRegs then '(p, c) ← get_vcpu arg1 cat s; s ← vcpu_set_regs p arg2 c s; mret (Done 0 cat s)
  else if cmd =? vCtlCreateVspace then
    '(v, s) ← vspace_create s;
    '(id, cat) ← handles.push new_handle cat;
    mret (Done id cat (mk (kern s) (host s) (<[new_handle := v]> (vspaces s)) (vcpus s)
                          (<[new_handle := handles.vspace_handle new_handle]> (objs s)) (user_regs s) (user_exits s)))
  else if cmd =? vCtlMapVspace then
    v ← get_vspace arg1 cat s;
    k ← map_range v (fun i k => paging.get_phys thread_vmm (u64 (arg3 + u64 (i * block_size))) k) arg2 arg4 (kern s);
    mret (Done 0 cat (set_kern k s))
  else if cmd =? vCtlMapVspacePhys then
    v ← get_vspace arg1 cat s;
    k ← map_range v (fun i _ => u64 (arg3 + u64 (i * block_size))) arg2 arg4 (kern s);
    mret (Done 0 cat (set_kern k s))
  else mret (Done u64_max cat s).
End ops.
Arguments state S : clear implicits.
Arguments outcome S : clear implicits.
End virt.

(** ** Lemmas: the control block *)

Section control_block.
Import vmcb_t.

(** The structure fills a page, and the processor finds the fields where its manual
    has them. *)
Lemma vmcb_layout :
  size layout = 8 * 0x1000 /\
  (fun f => offset f / 8) <$> [exitcode; exitinfo1; n_cr3; efer; cr0; rip; rsp; rax; cr2; g_pat] =
    [0x70; 0x78; 0xB0; 0x4D0; 0x558; 0x578; 0x5D8; 0x5F8; 0x640; 0x668].
Proof. by vm_compute. Qed.

Lemma tag_inj f g : tag f = tag g -> f = g.
Proof.
  assert (H : exists back : Z -> option field, forall f, back (tag f) = Some f).
  { exists (fun n => nth (Z.to_nat n) (omap (fun i => match i with Field f _ => Some (Some f) | _ => None end) layout) None). by intros []. }
  destruct H as [back Hb]. intros E. apply (f_equal back) in E. rewrite !Hb in E. congruence.
Qed.

#[local] Instance field_eq_dec : EqDecision field.
Proof. intros f g. destruct (decide (tag f = tag g)) as [E | E]; [left; by apply tag_inj | right; congruence]. Defined.

Lemma get_put f v c g : get (put f v c) g = if decide (g = f) then v else get c g.
Proof.
  cbn. destruct (Z.eqb_spec (tag g) (tag f)) as [E | E].
  - by rewrite decide_True by (by apply tag_inj).
  - rewrite decide_False; [done | congruence].
Qed.

(** Values that fit their fields. *)
Definition typed (c : t) : Prop :=
  (forall f, 0 <= get c f < 2 ^ width f) /\
  (forall s, 0 <= selector (seg c s) < 2 ^ 16 /\ 0 <= attrib (seg c s) < 2 ^ 16 /\ 0 <= limit (seg c s) < 2 ^ 32 /\
             0 <= base (seg c s) < 2 ^ 64).

Definition fits (fv : field * Z) : Prop := 0 <= fv.2 < 2 ^ width fv.1.
Definition segment_fits (s : segment) : Prop :=
  0 <= selector s < 2 ^ 16 /\ 0 <= attrib s < 2 ^ 16 /\ 0 <= limit s < 2 ^ 32 /\ 0 <= base s < 2 ^ 64.

Lemma puts_typed l c : Forall fits l -> typed c -> typed (puts l c).
Proof.
  revert c. induction l as [| [f v] l IH]; intros c Hl Hc; [done |]. apply Forall_cons in Hl as [Hv Hl]. apply IH; [done |].
  split; [| apply Hc]. intros g. rewrite get_put. destruct (decide (g = f)) as [-> |]; [apply Hv | apply Hc].
Qed.

Lemma put_segs_typed l c : Forall (fun sv => segment_fits sv.2) l -> typed c -> typed (put_segs l c).
Proof.
  revert c. induction l as [| [s v] l IH]; intros c Hl Hc; [done |]. apply Forall_cons in Hl as [Hv Hl]. apply IH; [done |].
  split; [apply Hc |]. intros r. cbn. destruct (decide (r = s)); [apply Hv | apply Hc].
Qed.

Lemma width_range f : 0 <= width f <= 120.
Proof. by destruct f; vm_compute. Qed.

Lemma zero_typed : typed zero.
Proof. split; [| intros s; cbn; lia]. intros f. cbn. split; [lia |]. apply Z.pow_pos_nonneg; [lia | apply width_range]. Qed.
End control_block.

(** ** The assembly *)

Lemma exec_app {X} (vmrun : Z -> (svm_low.gpr -> Z) -> X -> (svm_low.gpr -> Z) * X) l1 l2 m :
  svm_low.exec vmrun (l1 ++ l2) m = (m ← svm_low.exec vmrun l1 m; svm_low.exec vmrun l2 m).
Proof. revert m. induction l1 as [| i l IH]; intros m; [done |]. cbn. destruct (svm_low.step vmrun i m); cbn; [apply IH | done..]. Qed.

(** Storing registers at their offsets. *)
Definition store_gprs (p : Z) (v : svm_low.gpr -> Z) (l : list svm_low.gpr) (w : memory) : memory :=
  fold_left (fun w g => write_word w (p + svm_low.gpr_offset g) (v g)) l w.

Lemma gpr_offset_inj g g' : svm_low.gpr_offset g = svm_low.gpr_offset g' -> g = g'.
Proof. by destruct g, g'. Qed.

Lemma store_gprs_other p v l w a : (forall g, a <> p + svm_low.gpr_offset g) -> store_gprs p v l w a = w a.
Proof.
  intros Ha. revert w. induction l as [| g l IH]; intros w; [done |]. unfold store_gprs in *. cbn. rewrite IH. unfold write_word.
  by rewrite (proj2 (Z.eqb_neq _ _) (Ha g)).
Qed.

Lemma store_gprs_in p v l w g : g ∈ l -> store_gprs p v l w (p + svm_low.gpr_offset g) = v g.
Proof.
  assert (H : forall l w, g ∈ l \/ w (p + svm_low.gpr_offset g) = v g -> store_gprs p v l w (p + svm_low.gpr_offset g) = v g); [| auto].
  clear l w. intros l. induction l as [| h l IH]; intros w H; [by destruct H as [H%elem_of_nil |] |]. apply IH. unfold write_word.
  destruct (Z.eqb_spec (p + svm_low.gpr_offset g) (p + svm_low.gpr_offset h)) as [E | E].
  - right. f_equal. symmetry. apply gpr_offset_inj. lia.
  - destruct H as [[-> | H]%elem_of_cons | H]; [done | by left | by right].
Qed.

(** C26: The assembly that enters a guest.  The processor is entered with the control
    block in the second argument and with the registers in the structure in the
    first one; afterwards that structure has the registers the guest left, no other
    word of memory has changed, and all registers and the stack of the host are as
    before. *)
Theorem vmrun_asm {X} (vmrun : Z -> (svm_low.gpr -> Z) -> X -> (svm_low.gpr -> Z) * X) (m : svm_low.machine (X := X)) :
  let p := svm_low.regs m (Some svm_low.rdi) in
  exists guest, (forall g, guest g = svm_low.words m (p + svm_low.gpr_offset g)) /\
  let left := vmrun (svm_low.regs m (Some svm_low.rsi)) guest (svm_low.rest m) in
  exists m', svm_low.exec vmrun svm_low._vmrun m = Ret m' /\
    svm_low.rest m' = left.2 /\ svm_low.stack m' = svm_low.stack m /\
    (forall r, svm_low.regs m' r = svm_low.regs m r) /\
    (forall g, svm_low.words m' (p + svm_low.gpr_offset g) = left.1 g) /\
    (forall a, (forall g, a <> p + svm_low.gpr_offset g) -> svm_low.words m' a = svm_low.words m a).
Proof.
  intros p. pose (run l m := match svm_low.exec vmrun l m with Ret m => m | _ => m end).
  assert (Hrun : forall l m, (match svm_low.exec vmrun l m with Ret _ => true | _ => false end) = true -> svm_low.exec vmrun l m = Ret (run l m)).
  { intros l n. unfold run. by destruct (svm_low.exec vmrun l n). }
  set (m1 := run (take 31 svm_low._vmrun) m). exists (fun g => svm_low.regs m1 (Some g)).
  split; [by intros [] |]. intros left.
  set (m2 := svm_low.mk (fun q => match q with None => svm_low.regs m1 None | Some r => left.1 r end) (svm_low.stack m1) (svm_low.words m1) left.2).
  exists (run (drop 32 svm_low._vmrun) m2).
  assert (Hw : svm_low.words (run (drop 32 svm_low._vmrun) m2) =
    store_gprs p left.1 (filter (.≠ svm_low.rdi) svm_low.vm_gpr_state ++ [svm_low.rdi]) (svm_low.words m)) by reflexivity.
  assert (E1 : svm_low.exec vmrun (take 31 svm_low._vmrun) m = Ret m1) by (apply Hrun; reflexivity).
  assert (E2 : svm_low.step vmrun svm_low.vm_enter m1 = Ret m2).
  { unfold svm_low.step, m2, left. destruct (vmrun _ _ (svm_low.rest m1)) as [g x] eqn:E.
    change (vmrun (svm_low.regs m (Some svm_low.rsi))) with (vmrun (svm_low.regs m1 None)).
    change (svm_low.rest m) with (svm_low.rest m1). by rewrite E. }
  split_and!; [| reflexivity | reflexivity | by intros [[] |] | |].
  - change svm_low._vmrun with (take 31 svm_low._vmrun ++ svm_low.vm_enter :: drop 32 svm_low._vmrun). rewrite exec_app.
    rewrite E1. cbn [mbind res_bind]. change (svm_low.exec vmrun (svm_low.vm_enter :: ?l) m1) with (m ← svm_low.step vmrun svm_low.vm_enter m1; svm_low.exec vmrun l m). rewrite E2. apply Hrun. reflexivity.
  - intros g. rewrite Hw. apply store_gprs_in. apply list_elem_of_In. destruct g; vm_compute; tauto.
  - intros a Ha. rewrite Hw. by apply store_gprs_other.
Qed.

(** ** Registers *)

(** The values fit the types of the structure. *)
Definition selector_fits (s : vregs.selector) : Prop :=
  0 <= vregs.sel s < 2 ^ 16 /\ 0 <= vregs.attrib s < 2 ^ 16 /\ 0 <= vregs.limit s < 2 ^ 32 /\ 0 <= vregs.base s < 2 ^ 64.
Definition dtable_fits (d : vregs.dtable) : Prop := 0 <= vregs.dt_base d < 2 ^ 64 /\ 0 <= vregs.dt_limit d < 2 ^ 16.

Definition vregs_fit (r : vregs.t) : Prop :=
  Forall is_u64 [vregs.rax r; vregs.rsp r; vregs.rip r; vregs.rflags r; vregs.cr0 r; vregs.cr2 r; vregs.cr3 r; vregs.cr4 r; vregs.efer r] /\
  Forall selector_fits [vregs.cs r; vregs.ds r; vregs.ss r; vregs.es r; vregs.fs r; vregs.gs r; vregs.ldtr r; vregs.tr r] /\
  dtable_fits (vregs.gdtr r) /\ dtable_fits (vregs.idtr r).

(** The structure without [cr8]. *)
Definition without_cr8 (r : vregs.t) : vregs.t :=
  vregs.mk (vregs.rax r) (vregs.rbx r) (vregs.rcx r) (vregs.rdx r) (vregs.rsi r) (vregs.rdi r) (vregs.r8 r) (vregs.r9 r)
    (vregs.r10 r) (vregs.r11 r) (vregs.r12 r) (vregs.r13 r) (vregs.r14 r) (vregs.r15 r) (vregs.rsp r) (vregs.rbp r)
    (vregs.rip r) (vregs.rflags r) (vregs.cr0 r) (vregs.cr2 r) (vregs.cr3 r) (vregs.cr4 r) 0 (vregs.efer r)
    (vregs.cs r) (vregs.ds r) (vregs.ss r) (vregs.es r) (vregs.fs r) (vregs.gs r) (vregs.ldtr r) (vregs.tr r)
    (vregs.gdtr r) (vregs.idtr r).

(** The fields that [set_regs] writes. *)
Definition register_fields : list vmcb_t.field :=
  [vmcb_t.rax; vmcb_t.rsp; vmcb_t.rip; vmcb_t.rflags; vmcb_t.cr0; vmcb_t.cr2; vmcb_t.cr3; vmcb_t.cr4; vmcb_t.efer].

Lemma puts_other l c f : f ∉ l.*1 -> vmcb_t.get (vmcb_t.puts l c) f = vmcb_t.get c f.
Proof.
  revert c. induction l as [| [g v] l IH]; intros c Hf; [done |]. cbn in Hf. apply not_elem_of_cons in Hf as [Hg Hl].
  change (vmcb_t.puts ((g, v) :: l) c) with (vmcb_t.puts l (vmcb_t.put g v c)). rewrite IH by done. cbn.
  destruct (Z.eqb_spec (vmcb_t.tag f) (vmcb_t.tag g)) as [E%tag_inj |]; done.
Qed.

Lemma put_segs_get l c : vmcb_t.get (vmcb_t.put_segs l c) = vmcb_t.get c.
Proof. revert c. induction l as [| [s v] l IH]; intros c; [done |]. apply (IH (vmcb_t.put_seg s v c)). Qed.

Lemma puts_seg l c : vmcb_t.seg (vmcb_t.puts l c) = vmcb_t.seg c.
Proof. revert c. induction l as [| [s v] l IH]; intros c; [done |]. apply (IH (vmcb_t.put s v c)). Qed.

Lemma selector_id s : svm.to_selector (svm.of_selector s) = s.
Proof. by destruct s. Qed.

Lemma dtable_id u d : dtable_fits d -> svm.to_dtable (svm.of_dtable u d) = d.
Proof. destruct d as [b l]. intros [_ H]. unfold svm.to_dtable, svm.of_dtable, u16. cbn in *. by rewrite Z.mod_small by lia. Qed.

(** What a monitor writes to the registers of a virtual CPU it reads back,
    except for [cr8], which reads as 0; everything else in the control block, the
    intercepts and the nested page table among it, stays as it is, and the block
    stays well typed when the values of the monitor are. *)
Theorem vregs_roundtrip (uninit : Z * Z) (r : vregs.t) (c : svm.vcpu) :
  vregs_fit r -> 0 <= uninit.1 < 2 ^ 16 -> 0 <= uninit.2 < 2 ^ 16 ->
  svm.get_regs (svm.set_regs uninit r c) = without_cr8 r /\
  (forall f, f ∉ register_fields -> vmcb_t.get (svm.vmcb (svm.set_regs uninit r c)) f = vmcb_t.get (svm.vmcb c) f) /\
  (typed (svm.vmcb c) -> typed (svm.vmcb (svm.set_regs uninit r c))).
Proof.
  intros (Hr & Hs & Hg & Hi) Hu1 Hu2. split_and!.
  - unfold svm.get_regs, without_cr8. f_equal; first [reflexivity | exact (selector_id _) | exact (dtable_id uninit _ Hg) | exact (dtable_id uninit _ Hi)].
  - intros f Hf. unfold svm.set_regs. cbn [svm.vmcb]. rewrite put_segs_get. by apply puts_other.
  - intros Hc. unfold svm.set_regs. cbn [svm.vmcb]. apply put_segs_typed; [| apply puts_typed; [| done]].
    + rewrite !Forall_cons in Hs. destruct Hs as (? & ? & ? & ? & ? & ? & ? & ? & _), Hg, Hi.
      repeat apply Forall_cons_2; [done.. | | | apply Forall_nil_2]; split_and!; cbn; (done || lia).
    + rewrite !Forall_cons in Hr. destruct Hr as (? & ? & ? & ? & ? & ? & ? & ? & ? & _). by repeat apply Forall_cons_2.
Qed.

(** A monitor that starts a guest in protected mode at 1 MiB. *)
Definition regs_example : vregs.t :=
  let flat := vregs.mk_selector 8 0xc9b 0xFFFFFFFF 0 in
  let none := vregs.mk_selector 0 0 0 0 in
  vregs.mk 1 2 3 4 5 6 7 8 9 10 11 12 13 14 0x8000 15 0x100000 2 1 0 0 0 9 0x1000 flat flat flat flat flat flat none none
    (vregs.mk_dtable 0x5000 23) (vregs.mk_dtable 0 0).

Definition vcpu_example : svm.vcpu :=
  svm.mk_vcpu 0x110000 (svm.initial_vmcb 0x300000 0x111000 0x113000) (fun _ => 0) 0 0 0 0x111000 0x113000
    simd.default_state simd.default_state (to_virt root_example).

Lemma initial_typed a b c : is_u64 a -> is_u64 b -> is_u64 c -> typed (svm.initial_vmcb a b c).
Proof.
  intros Ha Hb Hc. unfold svm.initial_vmcb.
  apply puts_typed; [| apply put_segs_typed; [| apply puts_typed; [| apply zero_typed]]].
  - by_compute.
  - repeat apply Forall_cons_2; (apply Forall_nil_2 || (split_and!; cbn; lia)).
  - repeat apply Forall_cons_2; first [apply Forall_nil_2 | exact Ha | exact Hb | exact Hc | by_compute].
Qed.

Lemma vregs_roundtrip_witness :
  svm.get_regs (svm.set_regs (0, 0) regs_example vcpu_example) = without_cr8 regs_example /\
  (forall f, f ∉ register_fields ->
     vmcb_t.get (svm.vmcb (svm.set_regs (0, 0) regs_example vcpu_example)) f = vmcb_t.get (svm.vmcb vcpu_example) f) /\
  (typed (svm.vmcb vcpu_example) -> typed (svm.vmcb (svm.set_regs (0, 0) regs_example vcpu_example))).
Proof.
  apply (vregs_roundtrip (0, 0) regs_example vcpu_example); [| cbn; lia..].
  split_and!; [repeat apply Forall_cons_2; (apply Forall_nil_2 || (unfold is_u64; cbn; lia)) | | split; cbn; lia..].
  repeat apply Forall_cons_2; (apply Forall_nil_2 || (split_and!; cbn; lia)).
Defined.

(** ** The world switch *)

(** The type of a segment descriptor, bits 40 to 44. *)
Lemma make_available e : is_u64 e -> Z.lor (Z.land e (not64 (Z.shiftl 0x1F 40))) (Z.shiftl 9 40) = set_bits 40 5 9 e.
Proof.
  intros He. unfold set_bits. f_equal. apply Z.bits_inj'. intros i Hi. rewrite Z.ldiff_spec, Z.land_spec. unfold not64.
  rewrite testbit_u64, Z.lnot_spec by lia. change (Z.ones 5) with 0x1F. destruct (Z.ltb_spec i 64); [done |].
  by rewrite (testbit_small e 64 i) by (unfold is_u64 in He; lia).
Qed.

Lemma make_busy e : Z.lor (set_bits 40 5 9 e) (bit64 41) = set_bits 40 5 11 e.
Proof.
  apply Z.bits_inj'. intros i Hi. rewrite Z.lor_spec, !testbit_set_bits by lia. change (bit64 41) with (2 ^ 41).
  destruct (decide (i = 41)) as [-> | Hne]; [done |]. rewrite (Z.pow2_bits_false 41 i) by lia. rewrite orb_false_r.
  destruct (decide _) as [Hd |]; [| done].
  assert (i - 40 = 0 \/ i - 40 = 2 \/ i - 40 = 3 \/ i - 40 = 4) as [-> | [-> | [-> | ->]]] by lia; done.
Qed.

Lemma reload_tss_ok h e :
  gdt.entries (svm.h_gdt h) !! Z.to_nat (svm.tss_gdt_offset h / 8) = Some e -> is_u64 e -> 0 <= svm.tss_gdt_offset h < 2 ^ 16 ->
  svm.reload_tss h =
    Ret (svm.set_tr (gdt.mk (<[Z.to_nat (svm.tss_gdt_offset h / 8) := set_bits 40 5 11 e]> (gdt.entries (svm.h_gdt h)))
                            (gdt.entry_index (svm.h_gdt h))) (svm.tss_gdt_offset h) h).
Proof.
  intros He Hu Ho. unfold svm.reload_tss, gdt.get_entry_by_offset, gdt.put, svm.ltr, gdt.get_entry_by_offset, gdt.put.
  assert (Hl := lookup_lt_Some _ _ _ He). rewrite He. cbn [access mbind res_bind svm.h_gdt svm.set_tr gdt.entries mret res_ret].
  unfold u16. rewrite Z.mod_small by lia. rewrite make_available by done.
  rewrite list_lookup_insert_eq by done. cbn [access mbind res_bind mret res_ret]. rewrite bits_set_same by lia.
  change (9 mod 2 ^ 5 =? 9) with true. cbn iota. rewrite make_busy, list_insert_insert_eq. done.
Qed.

Section running.
Context {S : Type} `{FA : FrameAllocator S}.
Import svm.

Lemma world_switch_ok (vmrun : (svm_low.gpr -> Z) -> vmcb_t.t -> machine -> (svm_low.gpr -> Z) * vmcb_t.t * machine) c h e :
  let slot := Z.to_nat (tss_gdt_offset h / 8) in
  gdt.entries (h_gdt h) !! slot = Some e -> is_u64 e -> 0 <= tss_gdt_offset h < 2 ^ 16 ->
  let left := vmrun (gpr_state c) (vmcb c) (mk_machine (msr (cpu h)) (guest_simd c)) in
  let back := set_gif false (set_simd (simd (cpu h)) (set_cpu left.2 h)) in
  let bases := write_msr kernelgs_base (msr (cpu h) kernelgs_base) (write_msr gs_base (msr (cpu h) gs_base) (write_msr fs_base (msr (cpu h) fs_base) back)) in
  world_switch vmrun c h =
    Ret (mk_vcpu (vmcb_phys c) left.1.2 left.1.1 (msr (cpu h) fs_base) (msr (cpu h) gs_base) (msr (cpu h) kernelgs_base)
           (msr_bitmap_phys c) (io_bitmap_phys c) (simd (cpu h)) (simd left.2) (npt c),
         set_gif true (write_msr ia32_pat sigma_pat
           (set_tr (gdt.mk (<[slot := set_bits 40 5 11 e]> (gdt.entries (h_gdt h))) (gdt.entry_index (h_gdt h))) (tss_gdt_offset h) bases))).
Proof.
  intros slot He Hu Ho left. destruct left as [[g v] m] eqn:E. unfold left in E.
  unfold world_switch. cbn [cpu set_simd set_gif set_cpu]. change (msr (cpu (set_gif false h))) with (msr (cpu h)).
  rewrite E. rewrite (reload_tss_ok _ e) by done. reflexivity.
Qed.

(** C25: Running a guest gives the host its own state back, whatever the guest does
    to the registers, the model-specific registers and the SIMD registers: the FS,
    GS and kernel GS bases and the SIMD registers are those from before, the page
    attributes are those of the kernel, interrupts are on again, and the task
    register is loaded without a fault from a descriptor that differs in its type
    only.  The guest continues later with exactly the state it left. *)
Theorem run_restores_host (vmrun : (svm_low.gpr -> Z) -> vmcb_t.t -> machine -> (svm_low.gpr -> Z) * vmcb_t.t * machine)
    (kernel_info : Z) (c : vcpu) (h : host) (e : Z) :
  let slot := Z.to_nat (tss_gdt_offset h / 8) in
  gdt.entries (h_gdt h) !! slot = Some e -> is_u64 e -> 0 <= tss_gdt_offset h < 2 ^ 16 ->
  let left := vmrun (gpr_state c) (vmcb c) (mk_machine (msr (cpu h)) (guest_simd c)) in
  exists c' h',
    (forall x (k : paging.kernel S), run vmrun kernel_info x c h k =
       ('(r, c2, k) ← handle_exit kernel_info x c' k; mret (r, c2, h', k))) /\
    (forall r, r ∈ [fs_base; gs_base; kernelgs_base] -> msr (cpu h') r = msr (cpu h) r) /\
    msr (cpu h') ia32_pat = sigma_pat /\ simd (cpu h') = simd (cpu h) /\ gif h' = true /\ h_tr h' = tss_gdt_offset h /\
    gdt.entries (h_gdt h') = <[slot := set_bits 40 5 11 e]> (gdt.entries (h_gdt h)) /\
    gpr_state c' = left.1.1 /\ vmcb c' = left.1.2 /\ guest_simd c' = simd left.2.
Proof.
  intros slot He Hu Ho left. eexists _, _. split.
  { intros x k. unfold run. rewrite (world_switch_ok _ _ _ e) by done. cbn [mbind res_bind]. reflexivity. }
  cbn. split_and!; try done. intros r Hr. rewrite !elem_of_cons, elem_of_nil in Hr. by destruct Hr as [-> | [-> | [-> | []]]].
Qed.
End running.

(** ** Guest memory and the calls of a monitor *)

Section calls.
Context {S : Type} `{FA : FrameAllocatorLaws S}.
Context (vmrun : (svm_low.gpr -> Z) -> vmcb_t.t -> svm.machine -> (svm_low.gpr -> Z) * vmcb_t.t * svm.machine).
Context (alloc_n_blocks : Z -> S -> res (Z * S)) (kernel_info : Z) (uninit : Z * Z) (new_handle thread_vmm : Z).

Definition guest_flags : Z := Z.lor (Z.lor map_page_flags_present map_page_flags_writable) map_page_flags_user.

Lemma vpn_pages a i : 0 <= i -> 0 <= a -> a mod block_size = 0 -> a + i * block_size < 2 ^ 48 -> vpn (a + i * block_size) = a / 4096 + i.
Proof. intros Hi Ha Hal Hb. unfold vpn, block_size in *. rewrite Z.div_add by lia. rewrite Z.mod_small; [done |]. Z.to_euclidean_division_equations. lia. Qed.

(** [vCtlMapVspacePhys] gives a guest its memory.  With three free frames per
    page the call succeeds: page [i] of the range translates in the nested page
    table to frame [i] from the host address on, writable and accessible to the
    guest, and all other guest addresses translate as before. *)
Theorem map_vspace_phys (own : gmap Z (nat * Z)) (root id guest host size : Z) cat (s : virt.state S) :
  virt.get_vspace id cat s = Ret (Some (virt.mk_vspace virt.Svm (to_virt root))) ->
  space_ok own root (virt.kern s) ->
  let n := div_ceil size block_size in
  (3 * Z.to_nat n <= length (fa_pages (paging.frames (virt.kern s))))%nat ->
  0 <= guest -> guest mod block_size = 0 -> guest + n * block_size <= 2 ^ 48 ->
  exists k', virt.vctl vmrun alloc_n_blocks kernel_info uninit new_handle thread_vmm virt.vCtlMapVspacePhys id guest host size cat s = Ret (virt.Done 0 cat (virt.set_kern k' s)) /\
    (exists own', space_ok own' root k') /\
    (forall i v, 0 <= i < n -> vpn v = vpn (guest + i * block_size) ->
       translate (paging.mem k') root v = Some (make_pte (u64 (host + i * block_size)) guest_flags normal)) /\
    (forall v, (forall i, 0 <= i < n -> vpn v <> vpn (guest + i * block_size)) ->
       translate (paging.mem k') root v = translate (paging.mem (virt.kern s)) root v).
Proof.
  intros Hget OK n Hl Hg Hal Hend.
  destruct (map_loop_ok (Z.to_nat n) 0 (fun i => u64 (host + u64 (i * block_size))) (fun i => u64 (guest + u64 (i * block_size)))
    guest_flags normal own root (virt.kern s) OK Hl eq_refl) as (k' & own' & E & OK' & _ & Hv).
  assert (Hn0 : 0 <= n) by (unfold n, div_ceil, block_size; wrap_lia).
  assert (Hu : forall a i, u64 (a + u64 (i * block_size)) = u64 (a + i * block_size)) by (intros a i; unfold u64; by rewrite Z.add_mod_idemp_r by lia).
  assert (Hgi : forall i, 0 <= i < n -> u64 (guest + i * block_size) = guest + i * block_size).
  { intros i Hi. apply u64_small. unfold is_u64, block_size in *. nia. }
  exists k'. split_and!; [| by exists own' | |].
  - unfold virt.vctl. change (virt.vCtlMapVspacePhys =? _) with false at 1.
    cbn [Z.eqb Pos.eqb virt.vCtlCreateVcpu virt.vCtlRunVcpu virt.vCtlGetRegs virt.vCtlSetRegs virt.vCtlCreateVspace virt.vCtlMapVspace virt.vCtlMapVspacePhys].
    rewrite Hget. cbn [mbind res_bind]. unfold virt.map_range. fold n. cbn [access mbind res_bind virt.vspace_map virt.s_type virt.s_ptr svm.vspace_map].
    unfold virt.vspace_map, svm.vspace_map. cbn [virt.s_type virt.s_ptr]. fold guest_flags. by rewrite E.
  - intros i v Hi Hvi. destruct (Hv v) as [(j & Hj & Hvj & Ht) | [Hno _]].
    + rewrite !Hu in *. rewrite Hgi in Hvj by lia. rewrite Hvi, !vpn_pages in Hvj by (done || (unfold block_size in *; nia)).
      by replace i with j by lia.
    + exfalso. apply (Hno i ltac:(lia)). rewrite Hu, Hgi by lia. done.
  - intros v Hno. destruct (Hv v) as [(j & Hj & Hvj & _) | [_ Ht]]; [| done].
    exfalso. apply (Hno j ltac:(lia)). rewrite Hu, Hgi in Hvj by lia. done.
Qed.

(** The processor refuses a control block whose EFER.SVME is clear: it exits with
    the code -1, a 64-bit number. *)
Definition refuses_invalid : Prop :=
  forall g v m, Z.testbit (vmcb_t.get v vmcb_t.efer) 12 = false -> vmcb_t.get (vmrun g v m).1.2 vmcb_t.exitcode = u64_max.

(** A monitor can stop the CPU it runs on.  [vCtlSetRegs] takes any value for
    EFER; when its SVME bit is clear, the processor reports an invalid control
    block, and since [run] compares the exit code with the 32-bit number -1, the
    call does not return [vCtlExitReasonInvalidInternalState] but reaches the default
    case, which halts with interrupts off. *)
Theorem set_regs_stops_host (id p regs vexit a3 a4 e : Z) (c : svm.vcpu) cat (s : virt.state S) :
  refuses_invalid ->
  virt.get_vcpu id cat s = Ret (p, virt.mk_vcpu virt.Svm (Some c)) ->
  Z.testbit (vregs.efer (virt.user_regs s regs)) 12 = false ->
  gdt.entries (svm.h_gdt (virt.host s)) !! Z.to_nat (svm.tss_gdt_offset (virt.host s) / 8) = Some e -> is_u64 e ->
  0 <= svm.tss_gdt_offset (virt.host s) < 2 ^ 16 ->
  exists s1 s2,
    virt.vctl vmrun alloc_n_blocks kernel_info uninit new_handle thread_vmm virt.vCtlSetRegs id regs a3 a4 cat s = Ret (virt.Done 0 cat s1) /\
    virt.vctl vmrun alloc_n_blocks kernel_info uninit new_handle thread_vmm virt.vCtlRunVcpu id vexit a3 a4 cat s1 = Ret (virt.Stopped s2).
Proof.
  intros Href Hget Hefer He Hu Ho. set (c1 := svm.set_regs uninit (virt.user_regs s regs) c).
  set (s1 := virt.set_vcpu p (virt.mk_vcpu virt.Svm (Some c1)) s).
  assert (Hget1 : virt.get_vcpu id cat s1 = Ret (p, virt.mk_vcpu virt.Svm (Some c1))).
  { unfold virt.get_vcpu in *. cbn [virt.objs virt.set_vcpu s1]. destruct (handles.get _ _ _ _) as [[[q | | |] |] | | |]; try done.
    cbn [mbind res_bind] in *. destruct (virt.vcpus s !! q); [| done]. cbn in Hget. injection Hget as -> _.
    unfold s1. cbn [virt.vcpus virt.set_vcpu]. by rewrite lookup_insert_eq. }
  assert (Hsw : exists c' h', svm.world_switch vmrun c1 (virt.host s) = Ret (c', h') /\ vmcb_t.get (svm.vmcb c') vmcb_t.exitcode = u64_max).
  { eexists _, _. split; [by apply (world_switch_ok vmrun c1 (virt.host s) e) |]. apply Href. exact Hefer. }
  destruct Hsw as (c' & h' & Hsw & Hcode).
  exists s1. eexists. split.
  - unfold virt.vctl. cbn [Z.eqb Pos.eqb virt.vCtlCreateVcpu virt.vCtlRunVcpu virt.vCtlGetRegs virt.vCtlSetRegs]. rewrite Hget. done.
  - unfold virt.vctl. cbn [Z.eqb Pos.eqb virt.vCtlCreateVcpu virt.vCtlRunVcpu]. rewrite Hget1. cbn [mbind res_bind].
    unfold virt.vcpu_run. cbn [virt.c_type virt.c_ptr access mbind res_bind]. change (virt.host s1) with (virt.host s). unfold svm.run. rewrite Hsw.
    cbn [mbind res_bind]. unfold svm.handle_exit. rewrite Hcode. cbn. reflexivity.
Qed.
End calls.

(** ** Witnesses *)

(** A processor that accepts blocks with EFER.SVME and then meets hlt, after it has
    changed every register it can. *)
Definition vmrun_example (g : svm_low.gpr -> Z) (v : vmcb_t.t) (m : svm.machine) : (svm_low.gpr -> Z) * vmcb_t.t * svm.machine :=
  (fun _ => 7, vmcb_t.put vmcb_t.exitcode (if Z.testbit (vmcb_t.get v vmcb_t.efer) 12 then 0x78 else u64_max) v,
   svm.mk_machine (fun _ => 7) 7).

Definition host_example : svm.host :=
  svm.mk_host (svm.mk_machine (fun r => r) 42) true (gdt.mk (replicate 5 0 ++ [0x8B0000000067; 0; 0; 0; 0]) 7) 0x28 0x28 true.

Lemma run_restores_host_witness :
  exists c' h',
    (forall x (k : paging.kernel pmm.state), svm.run vmrun_example 0 x vcpu_example host_example k =
       ('(r, c2, k) ← svm.handle_exit 0 x c' k; mret (r, c2, h', k))) /\
    (forall r, r ∈ [svm.fs_base; svm.gs_base; svm.kernelgs_base] -> svm.msr (svm.cpu h') r = r) /\
    svm.msr (svm.cpu h') svm.ia32_pat = svm.sigma_pat /\ svm.simd (svm.cpu h') = 42.
Proof.
  destruct (run_restores_host (S := pmm.state) vmrun_example 0 vcpu_example host_example 0x8B0000000067) as (c' & h' & H1 & H2 & H3 & H4 & _);
    [reflexivity | split; vm_compute; (discriminate || reflexivity) | cbn; lia |]. exists c', h'. split_and!; done.
Defined.

(** A thread with a virtual CPU (handle 0) and a guest address space (handle 1). *)
Definition virt_cat_example : handles.handle_catalogue :=
  match ('(_, c) ← handles.push 0x100 handles.create; '(_, c) ← handles.push 0x200 c; mret c) with Ret c => c | _ => handles.create end.

Definition virt_example : virt.state pmm.state :=
  virt.mk paging_example host_example {[ 0x200 := virt.mk_vspace virt.Svm (to_virt root_example) ]}
    {[ 0x100 := virt.mk_vcpu virt.Svm (Some vcpu_example) ]}
    {[ 0x100 := handles.vcpu_handle 0x100; 0x200 := handles.vspace_handle 0x200 ]}
    (fun _ => vregs.mk 0 0 0 0 0 0 0 0 0 0 0 0 0 0 0 0 0 0 0 0 0 0 0 0 (vregs.cs regs_example) (vregs.cs regs_example) (vregs.cs regs_example)
                (vregs.cs regs_example) (vregs.cs regs_example) (vregs.cs regs_example) (vregs.tr regs_example) (vregs.tr regs_example)
                (vregs.gdtr regs_example) (vregs.gdtr regs_example))
    (fun _ => vexit.mk 0 (replicate 15 0) 0 0 (vexit.mk_port 0 0 false false)).

Lemma map_vspace_phys_witness :
  exists k', virt.vctl vmrun_example pmm.alloc_n_blocks 0 (0, 0) 0x300 0 virt.vCtlMapVspacePhys 1 0x8000 0x5000 0x2000 virt_cat_example virt_example =
      Ret (virt.Done 0 virt_cat_example (virt.set_kern k' virt_example)) /\
    translate (paging.mem k') root_example 0x9004 = Some (make_pte 0x6000 guest_flags normal).
Proof.
  assert (Hi : 0 <= 1 < div_ceil 0x2000 block_size) by (vm_compute; split; (discriminate || reflexivity)).
  assert (Hp : vpn 0x9004 = vpn (0x8000 + 1 * block_size)) by (vm_compute; reflexivity).
  destruct (map_vspace_phys vmrun_example pmm.alloc_n_blocks 0 (0, 0) 0x300 0 own_example root_example 1 0x8000 0x5000 0x2000
    virt_cat_example virt_example) as (k' & E & _ & Hv & _);
    [reflexivity | apply paging_example_ok | vm_compute; lia | lia | reflexivity | vm_compute; discriminate |].
  exists k'. split; [exact E |]. exact (Hv 1 0x9004 Hi Hp).
Defined.

Lemma set_regs_stops_host_witness :
  exists s1 s2,
    virt.vctl vmrun_example pmm.alloc_n_blocks 0 (0, 0) 0x300 0 virt.vCtlSetRegs 0 0x7000 0 0 virt_cat_example virt_example =
      Ret (virt.Done 0 virt_cat_example s1) /\
    virt.vctl vmrun_example pmm.alloc_n_blocks 0 (0, 0) 0x300 0 virt.vCtlRunVcpu 0 0x8000 0 0 virt_cat_example s1 = Ret (virt.Stopped s2).
Proof.
  apply (set_regs_stops_host (S := pmm.state) vmrun_example pmm.alloc_n_blocks 0 (0, 0) 0x300 0 0 0x100 0x7000 0x8000 0 0 0x8B0000000067 vcpu_example);
    [| reflexivity | reflexivity | reflexivity | split; vm_compute; (discriminate || reflexivity) | cbn; lia].
  intros g v m H. unfold vmrun_example. cbn [fst snd]. rewrite H. reflexivity.
Defined.

(** One page of the permission map for ports covers half of them. *)
Lemma io_bitmap_half : svm.io_bitmap_size * block_size * 8 = 65536 / 2.
Proof. reflexivity. Qed.
