(* ===== verification/Syscall.v ===== *)
(** * Syscall: the system calls

    Models source/proc/syscall.cpp: the pointer check, all the calls, the table and
    the dispatcher.  The state of the kernel behind a call is [world]: the threads
    and address spaces of Process.v, the rings and handles of Ipc.v, the ramdisk of
    Initrd.v, the devices of Device.v, the IOMMU of Iommu.v and the virtual machines
    of Virt.v; a call of one of them works on its part of the world.

    A counter that threads wait on is stored in the ring or the interrupt handle it
    belongs to.  The scheduler reaches it through a pointer: [load_events] is what
    those pointers lead to, [store_events] what a run of the scheduler leaves there.
    The addresses are a parameter, of which only is assumed that different objects
    are at different ones.

    Memory behind user pointers is the byte memory of the IPC store.  At the end is
    the other side of the interface, libs/libsigma. *)

From S2P Require Import Prelude Bits Klibc Containers Frames Pmm Paging Initrd Ipc Process Fields Descriptors Pci Device SlPaging Iommu Regions Virt.

(** The addresses of [_a_queue._receive_event] and [_b_queue._receive_event] in the
    ring at an address and of [event] in the interrupt handle at an address. *)
Class EventAddr := { a_event : Z -> Z; b_event : Z -> Z; irq_event : Z -> Z }.

Class EventAddrLaws `{EventAddr} := {
  a_event_inj :: Inj (=) (=) a_event;
  b_event_inj :: Inj (=) (=) b_event;
  irq_event_inj :: Inj (=) (=) irq_event;
  a_not_b : forall p q, a_event p <> b_event q;
  a_not_irq : forall p q, a_event p <> irq_event q;
  b_not_irq : forall p q, b_event p <> irq_event q }.

Module syscall.
Import process.

Section calls.
Context {S C : Type} `{FA : FrameAllocator S} `{PA : PciAccess C} `{EA : EventAddr}.

(** The system, the shared objects with the memory of the caller, the headers of
    the ramdisk, the devices with their interrupt handlers and configuration space,
    the IOMMU, and the host and guests of the virtual machines. *)
Record world := mk_world {
  w_sys : sys S; w_store : ipc_calls.store; w_headers : vector.t Z;
  w_list : list pci.gdevice; w_pci : list pci.device; w_handlers : list idt.handler; w_config : C; w_iommu : vt_d.iommu;
  w_host : svm.host; w_vspaces : gmap Z virt.vspace; w_vcpus : gmap Z virt.vcpu;
  w_regs : Z -> vregs.t; w_exits : Z -> vexit.t }.

Definition set_sys (s : sys S) (w : world) : world :=
  mk_world s (w_store w) (w_headers w) (w_list w) (w_pci w) (w_handlers w) (w_config w) (w_iommu w)
    (w_host w) (w_vspaces w) (w_vcpus w) (w_regs w) (w_exits w).
Definition set_store (st : ipc_calls.store) (w : world) : world :=
  mk_world (w_sys w) st (w_headers w) (w_list w) (w_pci w) (w_handlers w) (w_config w) (w_iommu w)
    (w_host w) (w_vspaces w) (w_vcpus w) (w_regs w) (w_exits w).

(** The parts that devctl, the calls for memory and vctl work on. *)
Definition device_view (w : world) : device.state C :=
  device.mk (w_list w) (w_pci w) (w_handlers w) (w_config w) (ipc_calls.objs (w_store w)) (ipc_calls.mem (w_store w)).
Definition put_device (d : device.state C) (w : world) : world :=
  mk_world (w_sys w) (ipc_calls.mk (device.objs d) (ipc_calls.rings (w_store w)) (device.mem d)) (w_headers w)
    (device.device_list d) (device.pci_devices d) (device.handlers d) (device.config d) (w_iommu w)
    (w_host w) (w_vspaces w) (w_vcpus w) (w_regs w) (w_exits w).

Definition region_view (w : world) : region.state S := region.mk_state (w_sys w) (w_iommu w) (w_list w) (w_pci w).
Definition put_region (r : region.state S) (w : world) : world :=
  mk_world (region.r_sys r) (w_store w) (w_headers w) (w_list w) (w_pci w) (w_handlers w) (w_config w) (region.r_iommu r)
    (w_host w) (w_vspaces w) (w_vcpus w) (w_regs w) (w_exits w).

Definition virt_view (w : world) : virt.state S :=
  virt.mk (kern (w_sys w)) (w_host w) (w_vspaces w) (w_vcpus w) (ipc_calls.objs (w_store w)) (w_regs w) (w_exits w).
Definition put_virt (v : virt.state S) (w : world) : world :=
  mk_world (set_kern (virt.kern v) (w_sys w)) (ipc_calls.mk (virt.objs v) (ipc_calls.rings (w_store w)) (ipc_calls.mem (w_store w)))
    (w_headers w) (w_list w) (w_pci w) (w_handlers w) (w_config w) (w_iommu w)
    (virt.host v) (virt.vspaces v) (virt.vcpus v) (virt.user_regs v) (virt.user_exits v).

(** The counters behind the pointers of the scheduler. *)
Definition irq_count (h : handles.handle) : option Z := match h with handles.irq_handle _ ev => Some ev | _ => None end.

Definition load_events (st : ipc_calls.store) : gmap Z Z :=
  kmap a_event ((fun r => ipc._receive_event (ipc._a_queue r)) <$> ipc_calls.rings st) ∪
  (kmap b_event ((fun r => ipc._receive_event (ipc._b_queue r)) <$> ipc_calls.rings st) ∪
   kmap irq_event (omap irq_count (ipc_calls.objs st))).

Definition set_count (e : Z) (q : ipc.queue) : ipc.queue := ipc.mk_queue e (ipc._queue q) (ipc._sender q) (ipc._receiver q).
Definition set_irq_count (e : Z) (h : handles.handle) : handles.handle :=
  match h with handles.irq_handle v _ => handles.irq_handle v e | _ => h end.

Definition store_events (ev : gmap Z Z) (st : ipc_calls.store) : ipc_calls.store :=
  let count e old := default old (ev !! e) in
  ipc_calls.mk
    (map_imap (fun p h => Some (set_irq_count (count (irq_event p) (default 0 (irq_count h))) h)) (ipc_calls.objs st))
    (map_imap (fun p r => Some (ipc.mk_ring (ipc.a r) (ipc.b r)
       (set_count (count (a_event p) (ipc._receive_event (ipc._a_queue r))) (ipc._a_queue r))
       (set_count (count (b_event p) (ipc._receive_event (ipc._b_queue r))) (ipc._b_queue r)))) (ipc_calls.rings st))
    (ipc_calls.mem st).

(** The scheduler as it sees the world, and the world after it ran. *)
Definition scheduler_view (w : world) : sys S := set_events (load_events (w_store w)) (w_sys w).
Definition put_scheduler (s : sys S) (w : world) : world := set_store (store_events (events s) (w_store w)) (set_sys s w).

(** The CPU that makes the call, the bounds for string comparisons and for the
    search of free pages, the flags of the boot process, the addresses of the
    interrupt callback and of the next object that operator new returns, the
    allocator for several pages, the guest, and the fields of a descriptor table
    that are not initialised. *)
Context (apic : Z) (name_fuel search_fuel : nat) (boot_flags irq_callback new_handle : Z).
Context (alloc_n_blocks : Z -> S -> res (Z * S)).
Context (vmrun : (svm_low.gpr -> Z) -> vmcb_t.t -> svm.machine -> (svm_low.gpr -> Z) * vmcb_t.t * svm.machine) (uninit : Z * Z).

(** [SYSCALL_GET_ARG0] to [SYSCALL_GET_ARG4]. *)
Definition ARG0 (r : registers) : Z := rbx r.
Definition ARG1 (r : registers) : Z := rcx r.
Definition ARG2 (r : registers) : Z := rdx r.
Definition ARG3 (r : registers) : Z := rsi r.
Definition ARG4 (r : registers) : Z := rdi r.

Definition PTR_IS_USERLAND (ptr : Z) : bool := ptr <=? 0x8000000000000000.

Definition CHECK_PTR (ptr : Z) : res unit :=
  if negb (is_canonical ptr) || negb (PTR_IS_USERLAND ptr) || (ptr =? 0) then Panic "" else mret tt.

(** A call returns a value and the interrupt frame, or leaves for the idle loop; a
    guest that the kernel gives up on stops the CPU. *)
Inductive call := Returns (v : Z) (r : registers) (h : hw) (w : world) | Leaves (h : hw) (w : world) | Stops (w : world).

Definition after (v : Z) (o : outcome) (w : world) : call :=
  match o with Resume r h => Returns v r h w | Idle h => Leaves h w end.

Definition current (w : world) : res nat := c ← get_current_thread apic (w_sys w); access c.

Definition syscall_early_klog (r : registers) (h : hw) (w : world) : res call :=
  _ ← CHECK_PTR (ARG0 r); mret (Returns 0 r h w).

Definition syscall_set_fsbase (r : registers) (h : hw) (w : world) : res call :=
  _ ← CHECK_PTR (ARG0 r);
  i ← current w;
  '(h, s) ← set_fsbase (ARG0 r) i h (w_sys w);
  mret (Returns 0 r h (set_sys s w)).

Definition syscall_kill (r : registers) (h : hw) (w : world) : res call :=
  '(o, s) ← kill apic r h (scheduler_view w); mret (after 0 o (put_scheduler s w)).

(** [privilege < DRIVER]. *)
Definition unprivileged (p : thread_privilege_level) : bool :=
  match p with APPLICATION => true | _ => false end.

Definition syscall_vm_map (r : registers) (h : hw) (w : world) : res call :=
  if negb (PTR_IS_USERLAND (ARG0 r)) then mret (Returns 1 r h w)
  else
    i ← current w;
    t ← access (threads (w_sys w) !! i);
    if negb (ARG1 r =? 0) && unprivileged (privilege t) then mret (Returns 1 r h w)
    else
      '(ret, st) ← region.map_anonymous search_fuel (to_virt (hw_cr3 h)) (ARG2 r) (ARG0 r) (ARG1 r) (ARG3 r) i (region_view w);
      _ ← CHECK_PTR ret;
      mret (Returns ret r h (put_region st w)).

Definition syscall_initrd_read (r : registers) (h : hw) (w : world) : res call :=
  _ ← CHECK_PTR (ARG0 r);
  _ ← CHECK_PTR (ARG1 r);
  '(ok, m) ← initrd.read_file name_fuel (ARG0 r) (ARG1 r) (ARG2 r) (ARG3 r) (w_headers w) (ipc_calls.mem (w_store w));
  let st := ipc_calls.mk (ipc_calls.objs (w_store w)) (ipc_calls.rings (w_store w)) m in
  mret (Returns (if ok : bool then 0 else 1) r h (set_store st w)).

Definition syscall_initrd_get_size (r : registers) (h : hw) (w : world) : res call :=
  _ ← CHECK_PTR (ARG0 r);
  n ← initrd.get_size name_fuel (ARG0 r) (w_headers w) (ipc_calls.mem (w_store w));
  mret (Returns n r h w).

(** The calling thread as [proc::ipc] sees it. *)
Definition ipc_caller (w : world) : res ipc_calls.caller :=
  i ← current w;
  t ← access (threads (w_sys w) !! i);
  mret (ipc_calls.mk_caller (tid t) (handle_catalogue t)).

Definition syscall_ipc_send (r : registers) (h : hw) (w : world) : res call :=
  _ ← CHECK_PTR (ARG1 r);
  c ← ipc_caller w;
  '(ok, st) ← ipc_calls.send (ARG0 r) (ARG1 r) (ARG2 r) c (w_store w);
  mret (Returns (if ok : bool then 0 else 1) r h (set_store st w)).

Definition syscall_ipc_receive (r : registers) (h : hw) (w : world) : res call :=
  _ ← CHECK_PTR (ARG1 r);
  c ← ipc_caller w;
  '(ok, st) ← ipc_calls.receive (ARG0 r) (ARG1 r) c (w_store w);
  mret (Returns (if ok : bool then 0 else 1) r h (set_store st w)).

Definition syscall_ipc_get_message_size (r : registers) (h : hw) (w : world) : res call :=
  c ← ipc_caller w;
  n ← ipc_calls.get_message_size (ARG0 r) c (w_store w);
  mret (Returns n r h w).

(** The address of the event that [proc::ipc::get_receive_event] returns. *)
Definition receive_event (ring : Z) (w : world) : res Z :=
  c ← ipc_caller w;
  '(p, r) ← ipc_calls.get_ring ring c (w_store w);
  if ipc_calls.tid c =? ipc.a r then mret (a_event p)
  else if ipc_calls.tid c =? ipc.b r then mret (b_event p)
  else Panic "Tried to get event size on non-owned IPC ring".

Definition blockForever : Z := 0.
Definition blockWaitForIpc : Z := 1.

Definition syscall_block_thread (r : registers) (h : hw) (w : world) : res call :=
  i ← current w;
  let r := set_rax 0 r in
  if ARG0 r =? blockForever then
    mret (Returns 0 r h (set_sys (upd i (set_state SILENT) (w_sys w)) w))
  else if ARG0 r =? blockWaitForIpc then
    e ← receive_event (ARG1 r) w;
    '(o, s) ← block i e apic r h (scheduler_view w);
    mret (after 0 o (put_scheduler s w))
  else mret (Returns 0 r h w).

Definition syscall_fork (r : registers) (h : hw) (w : world) : res call :=
  '(id, s) ← fork apic r h (w_sys w); mret (Returns id r h (set_sys s w)).

(** The handles of a thread. *)
Definition put_handles (i : nat) (cat : handles.handle_catalogue) (w : world) : world :=
  set_sys (upd i (set_handles cat) (w_sys w)) w.

(** When the command waits for an interrupt, [block] has replaced the frame by the
    one of another thread when devctl returns all ones. *)
Definition syscall_devctl (r : registers) (h : hw) (w : world) : res call :=
  i ← current w;
  t ← access (threads (w_sys w) !! i);
  o ← device.devctl (tid t) boot_flags irq_callback new_handle (ARG0 r) (ARG1 r) (ARG2 r) (ARG3 r) (ARG4 r) (handle_catalogue t) (device_view w);
  match o with
  | device.Done v cat d => mret (Returns v r h (put_handles i cat (put_device d w)))
  | device.Wait _ d =>
      p ← hash_map.get nop_hasher (handles.catalogue (handle_catalogue t)) (ARG1 r);
      let w := put_device d w in
      '(o, s) ← block i (irq_event p) apic r h (scheduler_view w);
      mret (after u64_max o (put_scheduler s w))
  end.

Definition syscall_get_current_tid (r : registers) (h : hw) (w : world) : res call :=
  id ← get_current_tid apic (w_sys w); mret (Returns id r h w).

(** [*region = {...}]. *)
Definition write_phys_region (ptr : Z) (p : region.phys_region) (w : world) : world :=
  let st := w_store w in
  set_store (ipc_calls.mk (ipc_calls.objs st) (ipc_calls.rings st)
    (ipc.write_bytes ptr (le_bytes 8 (region.physical_addr p) ++ le_bytes 8 (region.virtual_addr p) ++ le_bytes 8 (region.size p))
       (ipc_calls.mem st))) w.

Definition syscall_get_phys_region (r : registers) (h : hw) (w : world) : res call :=
  if negb (PTR_IS_USERLAND (ARG3 r)) then mret (Returns 1 r h w)
  else
    i ← current w;
    t ← access (threads (w_sys w) !! i);
    if unprivileged (privilege t) then mret (Returns 1 r h w)
    else
      '(p, st) ← region.get_phys_region alloc_n_blocks search_fuel (to_virt (hw_cr3 h)) (ARG0 r) (ARG1 r) i (region_view w);
      let w := put_region st w in
      match p with
      | None => mret (Returns 1 r h w)
      | Some p => mret (Returns 0 r h (write_phys_region (ARG3 r) p w))
      end.

Definition syscall_vctl (r : registers) (h : hw) (w : world) : res call :=
  i ← current w;
  t ← access (threads (w_sys w) !! i);
  o ← virt.vctl vmrun alloc_n_blocks (kernel_info (w_sys w)) uninit new_handle (vmm t) (ARG0 r) (ARG1 r) (ARG2 r) (ARG3 r) (ARG4 r)
        (handle_catalogue t) (virt_view w);
  match o with
  | virt.Done v cat s => mret (Returns v r h (put_handles i cat (put_virt s w)))
  | virt.Stopped s => mret (Stops (put_virt s w))
  end.

Definition syscall_yield (r : registers) (h : hw) (w : world) : res call :=
  '(o, s) ← yield apic r h (scheduler_view w); mret (after 0 o (put_scheduler s w)).

(** The table [syscalls], with the names. *)
Definition kernel_syscall : Type := (registers -> hw -> world -> res call) * string.

Definition syscalls : list kernel_syscall :=
  [(syscall_early_klog, "early_klog"); (syscall_set_fsbase, "set_fsbase"); (syscall_kill, "kill"); (syscall_fork, "fork");
   (syscall_yield, "yield"); (syscall_get_current_tid, "get_current_tid"); (syscall_block_thread, "block_thread");
   (syscall_vm_map, "vm_map"); (syscall_get_phys_region, "get_phys_region"); (syscall_initrd_read, "initrd_read");
   (syscall_initrd_get_size, "initrd_get_size"); (syscall_ipc_send, "ipc_send"); (syscall_ipc_receive, "ipc_receive");
   (syscall_ipc_get_message_size, "ipc_get_message_size"); (syscall_devctl, "devctl"); (syscall_vctl, "vctl")]%string.

Definition syscall_count : Z := Z.of_nat (length syscalls).

(** Where the CPU goes on after a call: as after an interrupt, or not at all. *)
Inductive result := Continues (o : outcome) (w : world) | Stopped (w : world).

(** The value that the call returns goes to [rax] of the frame as the call leaves
    it. *)
Definition finish (c : call) : result :=
  match c with
  | Returns v r h w => Continues (Resume (set_rax v r) h) w
  | Leaves h w => Continues (Idle h) w
  | Stops w => Stopped w
  end.

Definition syscall_handler (r : registers) (h : hw) (w : world) : res result :=
  if syscall_count <=? rax r then mret (Continues (Resume (set_rax 1 r) h) w)
  else
    '(func, _) ← access (syscalls !! Z.to_nat (rax r));
    c ← func r h w;
    mret (finish c).
End calls.
Arguments world S C : clear implicits.
Arguments call S C : clear implicits.
Arguments result S C : clear implicits.
End syscall.

(** ** libsigma

    The C functions that programs use for the calls.  Each of them is modelled by
    the interrupt frame that [int $249] leaves for the dispatcher, given the
    registers before it; its result is [rax] afterwards, cut to an [int] where the
    function returns one. *)

Module libsigma.
Import process.

Definition sigmaSyscallEarlyKlog : Z := 0.
Definition sigmaSyscallSetFsBase : Z := 1.
Definition sigmaSyscallKill : Z := 2.
Definition sigmaSyscallFork : Z := 3.
Definition sigmaSyscallYield : Z := 4.
Definition sigmaSyscallGetCurrentTid : Z := 5.
Definition sigmaSyscallBlockThread : Z := 6.
Definition sigmaSyscallVmMap : Z := 7.
Definition sigmaSyscallGetPhysRegion : Z := 8.
Definition sigmaSyscallReadInitrd : Z := 9.
Definition sigmaSyscallInitrdSize : Z := 10.
Definition sigmaSyscallIpcSend : Z := 11.
Definition sigmaSyscallIpcReceive : Z := 12.
Definition sigmaSyscallIpcGetSize : Z := 13.
Definition sigmaSyscallDevCtl : Z := 14.
Definition sigmaSyscallVCtl : Z := 15.

Definition SIGMA_BLOCK_FOREVER : Z := 0.
Definition SIGMA_BLOCK_WAITING_FOR_IPC : Z := 1.

(** The registers that the constraints of the assembly set; the others keep what
    they had. *)
Definition load (a b c d si di : Z) (r : registers) : registers :=
  mk_regs a b c d si di (rbp r) (rsp r) (r8 r) (r9 r) (r10 r) (r11 r) (r12 r) (r13 r) (r14 r) (r15 r) (rip r) (rflags r) (ss r) (ds r) (cs r).

Definition libsigma_syscall0 (n : Z) (r : registers) : registers := load n (rbx r) (rcx r) (rdx r) (rsi r) (rdi r) r.
Definition libsigma_syscall1 (n a1 : Z) (r : registers) : registers := load n a1 (rcx r) (rdx r) (rsi r) (rdi r) r.
Definition libsigma_syscall2 (n a1 a2 : Z) (r : registers) : registers := load n a1 a2 (rdx r) (rsi r) (rdi r) r.
Definition libsigma_syscall3 (n a1 a2 a3 : Z) (r : registers) : registers := load n a1 a2 a3 (rsi r) (rdi r) r.
Definition libsigma_syscall4 (n a1 a2 a3 a4 : Z) (r : registers) : registers := load n a1 a2 a3 a4 (rdi r) r.
Definition libsigma_syscall5 (n a1 a2 a3 a4 a5 : Z) (r : registers) : registers := load n a1 a2 a3 a4 a5 r.

(** An [int] as a 64-bit argument. *)
Definition of_int (n : Z) : Z := u64 n.

Definition devctl (command arg1 arg2 arg3 arg4 : Z) := libsigma_syscall5 sigmaSyscallDevCtl command arg1 arg2 arg3 arg4.
Definition vctl (cmd arg1 arg2 arg3 arg4 : Z) := libsigma_syscall5 sigmaSyscallVCtl cmd arg1 arg2 arg3 arg4.
Definition libsigma_read_initrd_file (filename buffer offset len : Z) := libsigma_syscall4 sigmaSyscallReadInitrd filename buffer offset len.
Definition libsigma_initrd_get_file_size (filename : Z) := libsigma_syscall1 sigmaSyscallInitrdSize filename.
Definition libsigma_ipc_send (ring msg msg_size : Z) := libsigma_syscall3 sigmaSyscallIpcSend ring msg msg_size.
Definition libsigma_ipc_receive (ring msg : Z) := libsigma_syscall2 sigmaSyscallIpcReceive ring msg.
Definition libsigma_ipc_get_msg_size (ring : Z) := libsigma_syscall1 sigmaSyscallIpcGetSize ring.
Definition libsigma_klog (str : Z) := libsigma_syscall1 sigmaSyscallEarlyKlog str.
Definition libsigma_vm_map (size virt_addr phys_addr prot flags : Z) :=
  libsigma_syscall5 sigmaSyscallVmMap virt_addr phys_addr size (of_int prot) (of_int flags).
Definition libsigma_get_phys_region (size prot flags region : Z) :=
  libsigma_syscall4 sigmaSyscallGetPhysRegion size (of_int prot) (of_int flags) region.
Definition libsigma_set_fsbase (fs : Z) := libsigma_syscall1 sigmaSyscallSetFsBase fs.
Definition libsigma_kill := libsigma_syscall0 sigmaSyscallKill.
Definition libsigma_get_current_tid := libsigma_syscall0 sigmaSyscallGetCurrentTid.
Definition libsigma_block_thread (reason handle : Z) := libsigma_syscall2 sigmaSyscallBlockThread reason handle.
Definition libsigma_fork := libsigma_syscall0 sigmaSyscallFork.
Definition libsigma_yield := libsigma_syscall0 sigmaSyscallYield.
End libsigma.

(** ** Theorems *)

(** The pointer check accepts exactly the addresses of the lower half except
    null; every other argument panics the kernel. *)
Theorem check_ptr_exact (ptr : Z) :
  is_u64 ptr ->
  syscall.CHECK_PTR ptr = if bool_decide (1 <= ptr <= 0x7fffffffffff) then Ret tt else Panic "".
Proof.
  intros Hp. unfold syscall.CHECK_PTR, is_canonical, syscall.PTR_IS_USERLAND, is_u64 in *.
  case_bool_decide;
    destruct (Z.leb_spec ptr 0x00007fffffffffff), (Z.leb_spec 0xffff800000000000 ptr), (Z.leb_spec ptr 0xffffffffffffffff),
      (Z.leb_spec ptr 0x8000000000000000), (Z.eqb_spec ptr 0); cbn; (done || lia).
Qed.

Lemma check_ptr_exact_witness : syscall.CHECK_PTR 0x7fffffffffff = Ret tt.
Proof.
  rewrite (check_ptr_exact 0x7fffffffffff) by (split; vm_compute; (discriminate || reflexivity)). vm_compute. reflexivity.
Defined.

(** ** Events *)

Section event_lemmas.
Context `{EL : EventAddrLaws}.
Import syscall.

Definition side_event (s : side) (p : Z) : Z := match s with A => a_event p | B => b_event p end.

(** What the scheduler finds behind the pointer to the event of a ring. *)
Lemma load_ring st s p :
  load_events st !! side_event s p = (fun r => ipc._receive_event (incoming r s)) <$> ipc_calls.rings st !! p.
Proof.
  unfold load_events. destruct s; cbn.
  - rewrite lookup_union_l.
    + by rewrite lookup_kmap, lookup_fmap by apply _.
    + apply lookup_union_None. split; apply lookup_kmap_None; try apply _; intros q Hq; exfalso;
        [exact (a_not_b p q Hq) | exact (a_not_irq p q Hq)].
  - rewrite lookup_union_r by (apply lookup_kmap_None; [apply _ |]; intros q Hq; exfalso; exact (a_not_b q p (eq_sym Hq))).
    rewrite lookup_union_l by (apply lookup_kmap_None; [apply _ |]; intros q Hq; exfalso; exact (b_not_irq p q Hq)).
    by rewrite lookup_kmap, lookup_fmap by apply _.
Qed.

(** ... and of an interrupt handle. *)
Lemma load_irq st p : load_events st !! irq_event p = ipc_calls.objs st !! p ≫= irq_count.
Proof.
  unfold load_events.
  rewrite lookup_union_r by (apply lookup_kmap_None; [apply _ |]; intros q Hq; exfalso; exact (a_not_irq q p (eq_sym Hq))).
  rewrite lookup_union_r by (apply lookup_kmap_None; [apply _ |]; intros q Hq; exfalso; exact (b_not_irq q p (eq_sym Hq))).
  by rewrite lookup_kmap, lookup_omap by apply _.
Qed.

(** A ring after the scheduler ran: the counters are what it left there. *)
Definition recount (ev : gmap Z Z) (p : Z) (r : ipc.ring) : ipc.ring :=
  ipc.mk_ring (ipc.a r) (ipc.b r)
    (set_count (default (ipc._receive_event (ipc._a_queue r)) (ev !! a_event p)) (ipc._a_queue r))
    (set_count (default (ipc._receive_event (ipc._b_queue r)) (ev !! b_event p)) (ipc._b_queue r)).

Lemma store_ring ev st p : ipc_calls.rings (store_events ev st) !! p = recount ev p <$> ipc_calls.rings st !! p.
Proof. cbn. rewrite map_lookup_imap. by destruct (ipc_calls.rings st !! p). Qed.

(** What the scheduler leaves behind a pointer, it finds there the next time. *)
Lemma load_store ev st e : is_Some (load_events st !! e) -> is_Some (ev !! e) -> load_events (store_events ev st) !! e = ev !! e.
Proof.
  intros [n Hn] [v Hv]. unfold load_events in Hn. rewrite Hv.
  apply lookup_union_Some_raw in Hn as [Hn | [_ Hn]]; [| apply lookup_union_Some_raw in Hn as [Hn | [_ Hn]]];
    apply lookup_kmap_Some in Hn as (p & -> & Hn); try apply _.
  - rewrite lookup_fmap in Hn. rewrite (load_ring _ A p : load_events _ !! a_event p = _), store_ring. destruct (ipc_calls.rings st !! p); [| done].
    cbn [fmap option_fmap option_map incoming recount ipc._a_queue ipc._b_queue ipc._receive_event set_count]. unfold event.t. by rewrite Hv.
  - rewrite lookup_fmap in Hn. rewrite (load_ring _ B p : load_events _ !! b_event p = _), store_ring. destruct (ipc_calls.rings st !! p); [| done].
    cbn [fmap option_fmap option_map incoming recount ipc._a_queue ipc._b_queue ipc._receive_event set_count]. unfold event.t. by rewrite Hv.
  - rewrite lookup_omap in Hn. rewrite load_irq. cbn [store_events ipc_calls.objs]. rewrite map_lookup_imap.
    destruct (ipc_calls.objs st !! p) as [[| | |] |]; try done. cbn [mbind option_bind irq_count set_irq_count]. unfold event.t. by rewrite Hv.
Qed.
End event_lemmas.

(** ** Theorems about the calls *)

Section call_theorems.
Import process.
Context {S C : Type} `{FA : FrameAllocator S} `{PA : PciAccess C} `{EL : EventAddrLaws}.
Context (nf sf : nat) (bf cb nh : Z) (alloc_n_blocks : Z -> S -> res (Z * S)).
Context (vmrun : (svm_low.gpr -> Z) -> vmcb_t.t -> svm.machine -> (svm_low.gpr -> Z) * vmcb_t.t * svm.machine) (uninit : Z * Z).
Implicit Types (w : syscall.world S C) (r : registers) (h : hw).

Notation handler apic := (syscall.syscall_handler apic nf sf bf cb nh alloc_n_blocks vmrun uninit).

Lemma handler_call apic (n : nat) f name r h w :
  rax r = Z.of_nat n -> syscall.syscalls apic nf sf bf cb nh alloc_n_blocks vmrun uninit !! n = Some (f, name) ->
  handler apic r h w = (c ← f r h w; mret (syscall.finish c)).
Proof.
  intros Hr Hn. assert (Hl := lookup_lt_Some _ _ _ Hn). unfold syscall.syscall_handler, syscall.syscall_count.
  rewrite Hr, Nat2Z.id, (proj2 (Z.leb_gt _ _)) by (by apply Nat2Z.inj_lt). by rewrite Hn.
Qed.

Lemma current_cur apic c i w :
  get_current_managed_cpu apic (syscall.w_sys w) = Some c -> cur (syscall.w_sys w) c = Some i -> syscall.current apic w = Ret i.
Proof.
  intros Hm Hc. unfold syscall.current, get_current_thread. rewrite Hm. cbn [access mbind res_bind].
  unfold cur in Hc. destruct (cpus (syscall.w_sys w) !! c) as [cpu |]; [| done]. cbn in *. by rewrite Hc.
Qed.

(** A thread that is switched to by another thread's yield call gets its own
    registers, address space, FS base and SIMD state back, except for [rax]: the
    dispatcher writes the return value of the call into the frame of the thread
    that was switched to, so that a thread that was interrupted with a value in
    [rax] continues with 0. *)
Theorem yield_clobbers_rax (apic : Z) (c i j : nat) (t : thread) r h w :
  sched_ok (syscall.scheduler_view w) -> get_current_managed_cpu apic (syscall.w_sys w) = Some c ->
  first_ready (syscall.scheduler_view w) (rr_order (cur (syscall.w_sys w) c) (length (threads (syscall.w_sys w)))) = Some j ->
  threads (syscall.w_sys w) !! j = Some t -> cr3 (context t) = to_phys (vmm t) -> rax r = 4 ->
  exists w', handler apic r h w =
      Ret (syscall.Continues (Resume (set_rax 0 (regs (context t))) (mk_hw (cr3 (context t)) (fs (context t)) (simd_state (context t)))) w') /\
    cur (syscall.w_sys w') c = Some j /\
    (rax (regs (context t)) <> 0 -> set_rax 0 (regs (context t)) <> regs (context t)).
Proof.
  intros OK Hm Hj Ht Hcr Hr. set (s := syscall.scheduler_view w) in *.
  destruct (tick_ok apic c r h s (sched_weaken _ _ OK) Hm) as (o & Ho & _ & Hrel & Hready & _).
  change (cur (syscall.w_sys w) c) with (cur s c) in *. change (threads (syscall.w_sys w)) with (threads s) in *.
  rewrite Hj in *. set (s' := after_switch s c (cur s c) (Some j) (saved r h)) in *.
  assert (Hc' : cur s' c = Some j) by (rewrite (rl_cur _ _ _ _ Hrel); by rewrite decide_True).
  assert (Hk : Process.keeps (context t) (vmm t) j s).
  { exists t. split_and!; try done. intros E. assert (Hd := Hready j eq_refl). unfold ready in Hd. by rewrite Ht, E in Hd. }
  assert (Hres := tick_resumes apic c j r h (context t) (vmm t) s o s' OK Hm Hk (eq_sym Hcr) Ho Hc').
  exists (syscall.put_scheduler s' w). split; [| split; [exact Hc' | intros Hne E; apply (f_equal rax) in E; cbn in E; congruence]].
  rewrite (handler_call apic 4 (syscall.syscall_yield apic) "yield") by done.
  unfold syscall.syscall_yield, yield. fold s. rewrite Ho. cbn [mbind res_bind]. rewrite Hres. done.
Qed.

(** *** Waiting for messages *)

(** A thread that waits for messages on its end of a ring. *)
Definition waits_on (i : nat) (sd : side) (p : Z) w : Prop :=
  exists t, threads (syscall.w_sys w) !! i = Some t /\ state t = BLOCKED /\ event t = side_event sd p.

Lemma waits_ready i sd p rg w :
  waits_on i sd p w -> ipc_calls.rings (syscall.w_store w) !! p = Some rg ->
  ready (syscall.scheduler_view w) i = negb (ipc._receive_event (incoming rg sd) =? 0).
Proof.
  intros (t & Ht & Hs & He) Hp. unfold ready, syscall.scheduler_view. cbn [threads set_events events]. rewrite Ht, Hs, He.
  rewrite load_ring, Hp. done.
Qed.

(** The ring behind a handle of thread [i], which is at the end [sd]. *)
Definition has_end (i : nat) (id : Z) (sd : side) (p : Z) (rg : ipc.ring) w : Prop :=
  exists t, threads (syscall.w_sys w) !! i = Some t /\ tid t = Ipc.owner rg sd /\ ipc.a rg <> ipc.b rg /\
    ipc_calls.get_ring id (ipc_calls.mk_caller (tid t) (handle_catalogue t)) (syscall.w_store w) = Ret (p, rg).

Lemma get_ring_lookup id c st p rg : ipc_calls.get_ring id c st = Ret (p, rg) -> ipc_calls.rings st !! p = Some rg.
Proof. unfold ipc_calls.get_ring. intros H1. inv_res. repeat (case_match; inv_res; try done). Qed.

(** Sending triggers the event of the other end and changes nothing else that the
    scheduler looks at. *)
Lemma send_triggers apic c i id sd p rg ptr sz r h w :
  get_current_managed_cpu apic (syscall.w_sys w) = Some c -> cur (syscall.w_sys w) c = Some i -> has_end i id sd p rg w ->
  rax r = 11 -> rbx r = id -> rcx r = ptr -> rdx r = sz -> 1 <= ptr <= 0x7fffffffffff -> 0 < sz ->
  exists w' rg', handler apic r h w = Ret (syscall.Continues (Resume (set_rax 0 r) h) w') /\
    syscall.w_sys w' = syscall.w_sys w /\ ipc_calls.rings (syscall.w_store w') !! p = Some rg' /\
    ipc._receive_event (incoming rg' (other sd)) = event.trigger (ipc._receive_event (incoming rg (other sd))).
Proof.
  intros Hm Hc (t & Ht & Ho & Hd & Hg) Hr <- <- <- Hp Hs.
  rewrite (handler_call apic 11 (syscall.syscall_ipc_send apic) "ipc_send") by done.
  unfold syscall.syscall_ipc_send, syscall.ARG0, syscall.ARG1, syscall.ARG2.
  rewrite check_ptr_exact, bool_decide_true by (unfold is_u64; lia). cbn [mbind res_bind].
  unfold syscall.ipc_caller. rewrite (current_cur apic c i w Hm Hc). cbn [mbind res_bind]. rewrite Ht. cbn [access mbind res_bind mret res_ret].
  unfold ipc_calls.send. rewrite Hg. cbn [mbind res_bind ipc_calls.tid]. unfold ipc.ring_send, ipc.queue_send.
  rewrite Ho, (proj2 (Z.eqb_neq (rdx r) 0)) by lia.
  destruct sd; cbn [Ipc.owner]; rewrite ?Z.eqb_refl, ?(proj2 (Z.eqb_neq (ipc.b rg) (ipc.a rg))) by congruence;
    cbn [mbind res_bind mret res_ret]; eexists _, _; (split; [reflexivity |]); cbn [syscall.w_sys syscall.set_store]; (split; [done |]);
    cbn; rewrite lookup_insert_eq; done.
Qed.

(** The address that [get_receive_event] returns is the one of the own end. *)
Lemma receive_event_ok apic c i id sd p rg w :
  get_current_managed_cpu apic (syscall.w_sys w) = Some c -> cur (syscall.w_sys w) c = Some i -> has_end i id sd p rg w ->
  syscall.receive_event apic id w = Ret (side_event sd p).
Proof.
  intros Hm Hc (t & Ht & Ho & Hd & Hg). unfold syscall.receive_event, syscall.ipc_caller.
  rewrite (current_cur apic c i w Hm Hc). cbn [mbind res_bind]. rewrite Ht. cbn [access mbind res_bind mret res_ret].
  rewrite Hg. cbn [mbind res_bind ipc_calls.tid]. rewrite Ho.
  destruct sd; cbn [Ipc.owner]; rewrite ?Z.eqb_refl, ?(proj2 (Z.eqb_neq (ipc.b rg) (ipc.a rg))) by congruence; done.
Qed.

(** A switch takes nothing from an event that is not pending. *)
Lemma switch_keeps_zero (s : sys S) c old new ctx e :
  (forall j, new = Some j -> ready s j = true) -> events s !! e = Some 0 -> events (after_switch s c old new ctx) !! e = Some 0.
Proof.
  intros Hready He. unfold after_switch. destruct new as [j |], old as [o |]; cbn; try done;
    specialize (Hready j eq_refl); unfold ready in Hready; unfold pick;
    destruct (threads s !! j) as [t |]; try done; destruct (state t); try done; destruct (events s !! event t) as [n |] eqn:En; try done;
    cbn; (rewrite lookup_insert_ne; [done |]); intros E; rewrite E in En; rewrite He in En; injection En as <-; done.
Qed.

(** A thread that asks to wait while no event is pending stops running and waits. *)
Lemma block_waits apic c i id sd p rg t r h w :
  sched_ok (syscall.scheduler_view w) -> get_current_managed_cpu apic (syscall.w_sys w) = Some c -> cur (syscall.w_sys w) c = Some i ->
  has_end i id sd p rg w -> threads (syscall.w_sys w) !! i = Some t -> state t = RUNNING ->
  ipc._receive_event (incoming rg sd) = 0 -> rax r = 6 -> rbx r = syscall.blockWaitForIpc -> rcx r = id ->
  exists o w', handler apic r h w = Ret (syscall.Continues o w') /\ sched_ok (syscall.w_sys w') /\
    waits_on i sd p w' /\ (forall c', cur (syscall.w_sys w') c' <> Some i) /\
    exists rg', ipc_calls.rings (syscall.w_store w') !! p = Some rg' /\ ipc._receive_event (incoming rg' sd) = 0.
Proof.
  intros OK Hm Hc He Ht Hs H0 Hr Hb <-. set (s := syscall.scheduler_view w) in *. set (e := side_event sd p).
  assert (Hp : ipc_calls.rings (syscall.w_store w) !! p = Some rg) by (destruct He as (? & _ & _ & _ & Hg); by eapply get_ring_lookup).
  assert (Hev : events s !! e = Some 0).
  { unfold s, syscall.scheduler_view, e. cbn [events set_events]. rewrite load_ring, Hp. cbn. by f_equal. }
  set (s1 := block_mark i e s). set (r0 := set_rax 0 r).
  assert (W : sched_weak (eq c) s1) by (eapply block_mark_own; eauto; by eexists).
  destruct (tick_ok apic c r0 h s1 W Hm) as (o & Ho & OK' & Hrel & Hready & _).
  set (new := first_ready s1 _) in *. set (s' := after_switch _ _ _ _ _) in *.
  assert (Hi : threads s1 !! i = Some (set_state BLOCKED (set_event e t))) by (unfold s1, block_mark; cbn; by rewrite list_lookup_alter_eq, Ht).
  assert (Hnew : new <> Some i).
  { intros E. assert (Hb' := Hready i E). unfold ready in Hb'. rewrite Hi in Hb'. cbn [state set_state event set_event] in Hb'.
    change (events s1) with (events s) in Hb'. by rewrite Hev in Hb'. }
  exists (match o with Resume r' h' => Resume (set_rax 0 r') h' | Idle h' => Idle h' end), (syscall.put_scheduler s' w). split_and!.
  - rewrite (handler_call apic 6 (syscall.syscall_block_thread apic) "block_thread") by done.
    unfold syscall.syscall_block_thread. rewrite (current_cur apic c i w Hm Hc). cbn [mbind res_bind]. fold r0.
    change (syscall.ARG0 r0) with (rbx r). rewrite Hb. cbn [Z.eqb syscall.blockForever syscall.blockWaitForIpc Pos.eqb].
    change (syscall.ARG1 r0) with (rcx r). rewrite (receive_event_ok apic c i _ sd p rg w Hm Hc He). cbn [mbind res_bind].
    unfold block. fold s e s1. rewrite Ho. cbn [mbind res_bind]. by destruct o.
  - done.
  - destruct (lookup_lt_is_Some_2 (threads s') i) as [t' Ht']. { rewrite (rl_length _ _ _ _ Hrel). by eapply lookup_lt_Some. }
    destruct (rl_thread _ _ _ _ Hrel i t' Ht') as (t0 & Ht0 & He0 & Hs0). rewrite Hi in Ht0. injection Ht0 as <-.
    exists t'. split_and!; [done | | done]. rewrite Hs0. unfold switched. rewrite decide_False by done. cbn. by rewrite decide_False by naive_solver.
  - intros c'. change (syscall.w_sys (syscall.put_scheduler s' w)) with s'. rewrite (rl_cur _ _ _ _ Hrel). destruct (decide (c' = c)) as [-> | Hne]; [done |].
    intros Hc'. change (cur s1 c') with (cur s c') in Hc'. apply Hne. eapply (so_unique _ _ OK c' c i t); eauto. congruence.
  - assert (Hev' : events s' !! e = Some 0) by (apply switch_keeps_zero; done).
    exists (recount (events s') p rg). cbn [syscall.put_scheduler syscall.set_store syscall.w_store]. rewrite store_ring, Hp.
    split; [done |]. unfold e, event.t in *. destruct sd; cbn [incoming recount ipc._a_queue ipc._b_queue syscall.set_count ipc._receive_event side_event] in *;
      unfold event.t; by rewrite Hev'.
Qed.

(** C11: A message wakes the thread that waits for it.  A thread that asks to be
    blocked until a message arrives on its end of a ring, with none announced, gives
    up its CPU and is not picked by the scheduler; once the thread at the other end
    has sent a message to it, on any CPU and through its own handle, it is ready to
    run again.  Both calls return, and the sender is told that it succeeded. *)
Theorem ipc_wakeup (apic apic' : Z) (c c' i j : nat) (id id' : Z) (sd : side) (p : Z) (rg rg1 : ipc.ring) (t : thread) r r' h h' w o w1 :
  sched_ok (syscall.scheduler_view w) -> get_current_managed_cpu apic (syscall.w_sys w) = Some c -> cur (syscall.w_sys w) c = Some i ->
  has_end i id sd p rg w -> threads (syscall.w_sys w) !! i = Some t -> state t = RUNNING ->
  ipc._receive_event (incoming rg sd) = 0 -> rax r = 6 -> rbx r = syscall.blockWaitForIpc -> rcx r = id ->
  handler apic r h w = Ret (syscall.Continues o w1) ->
  get_current_managed_cpu apic' (syscall.w_sys w1) = Some c' -> cur (syscall.w_sys w1) c' = Some j -> has_end j id' (other sd) p rg1 w1 ->
  rax r' = 11 -> rbx r' = id' -> 1 <= rcx r' <= 0x7fffffffffff -> 0 < rdx r' ->
  ready (syscall.scheduler_view w1) i = false /\ (forall k, cur (syscall.w_sys w1) k <> Some i) /\
  exists w2, handler apic' r' h' w1 = Ret (syscall.Continues (Resume (set_rax 0 r') h') w2) /\ ready (syscall.scheduler_view w2) i = true.
Proof.
  intros OK Hm Hc He Ht Hs H0 Hr Hb Hi Hh Hm' Hc' He' Hr' Hi' Hp Hz.
  destruct (block_waits apic c i id sd p rg t r h w OK Hm Hc He Ht Hs H0 Hr Hb Hi) as (o1 & w1' & Hh1 & _ & Hw & Hcur & rg' & Hp' & H0').
  rewrite Hh in Hh1. injection Hh1 as <- <-.
  assert (Hp1 : ipc_calls.rings (syscall.w_store w1) !! p = Some rg1) by (destruct He' as (? & _ & _ & _ & Hg); by eapply get_ring_lookup).
  rewrite Hp1 in Hp'. injection Hp' as <-.
  split_and!; [by rewrite (waits_ready i sd p rg1 w1 Hw Hp1), H0' | done |].
  destruct (send_triggers apic' c' j id' (other sd) p rg1 (rcx r') (rdx r') r' h' w1) as (w2 & rg2 & Hh2 & Hsys & Hp2 & Hev); try done.
  exists w2. split; [done |]. replace (other (other sd)) with sd in Hev by (by destruct sd).
  rewrite (waits_ready i sd p rg2 w2); [by rewrite Hev, H0' | | done].
  destruct Hw as (t' & Ht' & Hs' & He2). exists t'. by rewrite Hsys.
Qed.

(** *** The library and the kernel agree *)

(** The frame [f] makes the dispatcher run [call] with the arguments [args]. *)
Definition reaches (apic : Z) (f : registers) (call : registers -> hw -> syscall.world S C -> res (syscall.call S C)) (args : list Z) : Prop :=
  (forall h w, handler apic f h w = (c ← call f h w; mret (syscall.finish c))) /\
  take (length args) [syscall.ARG0 f; syscall.ARG1 f; syscall.ARG2 f; syscall.ARG3 f; syscall.ARG4 f] = args.

(** C12: Every function of libsigma makes the kernel run the call that it is named
    for, with its arguments where that call looks for them: the numbers in
    libsigma/syscall.h are the positions in the table of the kernel, and the
    registers and the order of the arguments agree, for all sixteen calls. *)
Theorem libsigma_reaches (apic a1 a2 a3 a4 a5 : Z) r :
  0 <= a4 < 2 ^ 31 -> 0 <= a5 < 2 ^ 31 ->
  reaches apic (libsigma.devctl a1 a2 a3 a4 a5 r) (syscall.syscall_devctl apic bf cb nh) [a1; a2; a3; a4; a5] /\
  reaches apic (libsigma.vctl a1 a2 a3 a4 a5 r) (syscall.syscall_vctl apic nh alloc_n_blocks vmrun uninit) [a1; a2; a3; a4; a5] /\
  reaches apic (libsigma.libsigma_read_initrd_file a1 a2 a3 a4 r) (syscall.syscall_initrd_read nf) [a1; a2; a3; a4] /\
  reaches apic (libsigma.libsigma_initrd_get_file_size a1 r) (syscall.syscall_initrd_get_size nf) [a1] /\
  reaches apic (libsigma.libsigma_ipc_send a1 a2 a3 r) (syscall.syscall_ipc_send apic) [a1; a2; a3] /\
  reaches apic (libsigma.libsigma_ipc_receive a1 a2 r) (syscall.syscall_ipc_receive apic) [a1; a2] /\
  reaches apic (libsigma.libsigma_ipc_get_msg_size a1 r) (syscall.syscall_ipc_get_message_size apic) [a1] /\
  reaches apic (libsigma.libsigma_klog a1 r) syscall.syscall_early_klog [a1] /\
  reaches apic (libsigma.libsigma_vm_map a1 a2 a3 a4 a5 r) (syscall.syscall_vm_map apic sf) [a2; a3; a1; a4; a5] /\
  reaches apic (libsigma.libsigma_get_phys_region a1 a4 a5 a2 r) (syscall.syscall_get_phys_region apic sf alloc_n_blocks) [a1; a4; a5; a2] /\
  reaches apic (libsigma.libsigma_set_fsbase a1 r) (syscall.syscall_set_fsbase apic) [a1] /\
  reaches apic (libsigma.libsigma_kill r) (syscall.syscall_kill apic) [] /\
  reaches apic (libsigma.libsigma_get_current_tid r) (syscall.syscall_get_current_tid apic) [] /\
  reaches apic (libsigma.libsigma_block_thread a1 a2 r) (syscall.syscall_block_thread apic) [a1; a2] /\
  reaches apic (libsigma.libsigma_fork r) (syscall.syscall_fork apic) [] /\
  reaches apic (libsigma.libsigma_yield r) (syscall.syscall_yield apic) [].
Proof.
  intros H4 H5. assert (E4 : libsigma.of_int a4 = a4) by (unfold libsigma.of_int, u64; apply Z.mod_small; lia).
  assert (E5 : libsigma.of_int a5 = a5) by (unfold libsigma.of_int, u64; apply Z.mod_small; lia).
  split_and!; (split; [intros h w; reflexivity |]); cbn [length take]; cbv [syscall.ARG0 syscall.ARG1 syscall.ARG2 syscall.ARG3 syscall.ARG4]; cbn;
    rewrite ?E4, ?E5; done.
Qed.

(** *** Privileges *)

(** A thread of an application gets no physical memory of its choice: [vm_map] with
    a physical address and [get_phys_region] fail and change nothing. *)
Theorem physical_memory_guard (apic : Z) (c i : nat) (t : thread) r h w :
  get_current_managed_cpu apic (syscall.w_sys w) = Some c -> cur (syscall.w_sys w) c = Some i ->
  threads (syscall.w_sys w) !! i = Some t -> privilege t = APPLICATION ->
  rax r = libsigma.sigmaSyscallVmMap /\ rcx r <> 0 \/ rax r = libsigma.sigmaSyscallGetPhysRegion ->
  handler apic r h w = Ret (syscall.Continues (Resume (set_rax 1 r) h) w).
Proof.
  intros Hm Hc Ht Hp [[Hr Hcx] | Hr].
  - rewrite (handler_call apic 7 (syscall.syscall_vm_map apic sf) "vm_map") by done. unfold syscall.syscall_vm_map.
    destruct (negb _); [done |]. rewrite (current_cur apic c i w Hm Hc). cbn [mbind res_bind]. rewrite Ht. cbn [access mbind res_bind].
    rewrite Hp. change (syscall.ARG1 r) with (rcx r). by rewrite (proj2 (Z.eqb_neq (rcx r) 0)) by done.
  - rewrite (handler_call apic 8 (syscall.syscall_get_phys_region apic sf alloc_n_blocks) "get_phys_region") by done.
    unfold syscall.syscall_get_phys_region. destruct (negb _); [done |]. rewrite (current_cur apic c i w Hm Hc). cbn [mbind res_bind]. rewrite Ht.
    cbn [access mbind res_bind]. by rewrite Hp.
Qed.
End call_theorems.

(** ** Witnesses *)

#[export] Instance addr_example : EventAddr :=
  {| a_event p := 4 * p; b_event p := 4 * p + 1; irq_event p := 4 * p + 2 |}.
#[export] Instance addr_example_laws : EventAddrLaws.
Proof. split; first [intros p q; cbn; lia | intros p q E; cbn in *; lia]. Qed.

Definition cat_example : handles.handle_catalogue :=
  match handles.push 0x900 handles.create with Ret (_, c) => c | _ => handles.create end.

(** Thread 3 waits with 42 in [rax]; threads 1 and 2 run on two CPUs and have a ring
    between them, behind handle 0 of both. *)
Definition world_example : syscall.world pmm.state example.ports :=
  let with_handles i := process.upd i (process.set_handles cat_example) in
  syscall.mk_world
    (with_handles 1%nat (with_handles 2%nat
       (process.upd 3 (process.set_context (process.mk_ctx r_example 0x403000 3 simd.default_state)) sys_example)))
    (ipc_calls.mk {[ 0x900 := handles.ipc_ring_handle 0x180 ]} {[ 0x140 := ipc.new_ring 7 8; 0x180 := ipc.new_ring 1 2 ]} (fun _ => 65))
    (vector.create 0) (device.device_list devices_example) (device.pci_devices devices_example) (device.handlers devices_example)
    (device.config devices_example) (vt_d.mk_iommu false []) host_example ∅ ∅
    (fun _ => vregs.mk 0 0 0 0 0 0 0 0 0 0 0 0 0 0 0 0 0 0 0 0 0 0 0 0 (vregs.cs regs_example) (vregs.cs regs_example) (vregs.cs regs_example)
                (vregs.cs regs_example) (vregs.cs regs_example) (vregs.cs regs_example) (vregs.tr regs_example) (vregs.tr regs_example)
                (vregs.gdtr regs_example) (vregs.gdtr regs_example))
    (fun _ => vexit.mk 0 (replicate 15 0) 0 0 (vexit.mk_port 0 0 false false)).

Lemma world_example_ok : sched_ok (syscall.scheduler_view world_example).
Proof.
  apply (sched_ext _ (syscall.w_sys world_example)); try done; [| repeat (apply upd_same_ok; [done |]); apply sys_example_ok].
  intros e [n Hn]. change (process.events _) with ({[0x500 := 0; 0x600 := 0]} : gmap Z Z) in Hn.
  destruct (decide (e = 0x500)) as [-> | H5]; [by eexists |]. destruct (decide (e = 0x600)) as [-> | H6]; [by eexists |].
  rewrite lookup_insert_ne, lookup_singleton_ne in Hn by congruence. done.
Qed.

(** The dispatcher of the witnesses. *)
Notation handler_example apic :=
  (syscall.syscall_handler (S := pmm.state) (C := example.ports) apic 0 0 0 0 0xA00 pmm.alloc_n_blocks vmrun_example (0, 0)).

Lemma yield_clobbers_rax_witness :
  exists w', handler_example 0 (libsigma.libsigma_yield process.zero_regs) (hw_example 1) world_example =
      Ret (syscall.Continues (process.Resume (process.set_rax 0 r_example) (hw_example 3)) w') /\
    cur (syscall.w_sys w') 0%nat = Some 3%nat /\
    (process.rax r_example <> 0 -> process.set_rax 0 r_example <> r_example).
Proof.
  apply (yield_clobbers_rax 0 0 0 0 0xA00 pmm.alloc_n_blocks vmrun_example (0, 0) 0 0 1 3
    (process.set_context (process.mk_ctx r_example 0x403000 3 simd.default_state) (thread_example 3 process.IDLE))
    (libsigma.libsigma_yield process.zero_regs) (hw_example 1) world_example); try (vm_compute; reflexivity). apply world_example_ok.
Defined.

(** Thread 1 waits for a message, thread 2 sends one byte. *)
Definition wait_example : process.registers := libsigma.libsigma_block_thread libsigma.SIGMA_BLOCK_WAITING_FOR_IPC 0 process.zero_regs.
Definition send_example : process.registers := libsigma.libsigma_ipc_send 0 0x1000 1 process.zero_regs.

Definition waiting_example : process.outcome * syscall.world pmm.state example.ports :=
  match handler_example 0 wait_example (hw_example 1) world_example with
  | Ret (syscall.Continues o w) => (o, w)
  | _ => (process.Idle (hw_example 1), world_example)
  end.

Lemma waiting_example_ok :
  handler_example 0 wait_example (hw_example 1) world_example = Ret (syscall.Continues waiting_example.1 waiting_example.2).
Proof.
  assert (Hb : match handler_example 0 wait_example (hw_example 1) world_example with Ret (syscall.Continues _ _) => true | _ => false end = true)
    by (vm_compute; reflexivity).
  unfold waiting_example. by destruct (handler_example 0 wait_example (hw_example 1) world_example) as [[o w | w] | | |].
Qed.

Lemma ipc_wakeup_witness :
  ready (syscall.scheduler_view waiting_example.2) 1 = false /\
  exists w2, handler_example 1 send_example (hw_example 2) waiting_example.2 =
      Ret (syscall.Continues (process.Resume (process.set_rax 0 send_example) (hw_example 2)) w2) /\
    ready (syscall.scheduler_view w2) 1 = true.
Proof.
  assert (H := ipc_wakeup 0 0 0 0 0xA00 pmm.alloc_n_blocks vmrun_example (0, 0) 0 1 0 1 1 2 0 0 A 0x180 (ipc.new_ring 1 2) (ipc.new_ring 1 2)
    (process.set_handles cat_example (thread_example 1 process.RUNNING)) wait_example send_example (hw_example 1) (hw_example 2) world_example
    waiting_example.1 waiting_example.2 world_example_ok).
  assert (He : has_end 1 0 A 0x180 (ipc.new_ring 1 2) world_example).
  { eexists. split_and!; [vm_compute; reflexivity | reflexivity | discriminate | vm_compute; reflexivity]. }
  assert (He' : has_end 2 0 B 0x180 (ipc.new_ring 1 2) waiting_example.2).
  { eexists. split_and!; [vm_compute; reflexivity | reflexivity | discriminate | vm_compute; reflexivity]. }
  destruct H as (H1 & _ & H2); [vm_compute; reflexivity.. | exact He | vm_compute; reflexivity | reflexivity | reflexivity | reflexivity | reflexivity |
    reflexivity | apply waiting_example_ok | vm_compute; reflexivity | vm_compute; reflexivity | exact He' | reflexivity | reflexivity |
    vm_compute; split; discriminate | reflexivity |]. split; [exact H1 | exact H2].
Defined.

Lemma libsigma_reaches_witness :
  reaches (S := pmm.state) (C := example.ports) 0 0 0 0 0xA00 pmm.alloc_n_blocks vmrun_example (0, 0) 0
    (libsigma.libsigma_vm_map 1 2 3 4 5 process.zero_regs) (syscall.syscall_vm_map 0 0) [2; 3; 1; 4; 5].
Proof.
  assert (H4 : 0 <= 4 < 2 ^ 31) by lia. assert (H5 : 0 <= 5 < 2 ^ 31) by lia.
  destruct (libsigma_reaches (S := pmm.state) (C := example.ports) 0 0 0 0 0xA00 pmm.alloc_n_blocks vmrun_example (0, 0) 0 1 2 3 4 5
    process.zero_regs H4 H5) as (_ & _ & _ & _ & _ & _ & _ & _ & H & _). exact H.
Defined.

Lemma physical_memory_guard_witness :
  handler_example 0 (libsigma.libsigma_vm_map 0x1000 0 0x5000 3 0 process.zero_regs) (hw_example 1) world_example =
  Ret (syscall.Continues (process.Resume (process.set_rax 1 (libsigma.libsigma_vm_map 0x1000 0 0x5000 3 0 process.zero_regs)) (hw_example 1)) world_example).
Proof.
  apply (physical_memory_guard 0 0 0 0 0xA00 pmm.alloc_n_blocks vmrun_example (0, 0) 0 0 1
    (process.set_handles cat_example (thread_example 1 process.RUNNING)));
    [vm_compute; reflexivity | vm_compute; reflexivity | vm_compute; reflexivity | reflexivity | left; split; [reflexivity | discriminate]].
Defined.

Definition vspace_example : process.registers := libsigma.vctl virt.vCtlCreateVspace 0 0 0 0 process.zero_regs.
Definition map_example : process.registers := libsigma.vctl virt.vCtlMapVspacePhys 1 0x8000 0x5000 0x1000 process.zero_regs.

(** The same thread gets at that memory through a virtual machine, for which the
    kernel does not ask for a privilege: it creates a guest address space (handle 1)
    and has the page 0x5000 of the machine mapped there. *)
Theorem unprivileged_physical_memory :
  process.privilege <$> process.threads (syscall.w_sys world_example) !! 1%nat = Some process.APPLICATION /\
  match handler_example 0 vspace_example (hw_example 1) world_example with
  | Ret (syscall.Continues (process.Resume r _) w1) =>
      process.rax r = 1 /\
      match handler_example 0 map_example (hw_example 1) w1 with
      | Ret (syscall.Continues (process.Resume r _) w2) =>
          process.rax r = 0 /\
          match syscall.w_vspaces w2 !! 0xA00 with
          | Some v => translate (paging.mem (process.kern (syscall.w_sys w2))) (to_phys (virt.s_ptr v)) 0x8000 =
                        Some (make_pte 0x5000 guest_flags normal)
          | None => False
          end
      | _ => False
      end
  | _ => False
  end.
Proof. vm_compute. repeat split. Qed.
