(* ===== verification/Video.v ===== *)
(** * Video: the drivers of graphics cards

    Models src/drivers/video: [bga] (bga.hpp, bga.cpp), the virtual machine for the
    firmware of the card ([rm_cpu] of vbe/real_mode.hpp) and the VESA driver on top
    of it ([vbe], vbe.hpp and vbe.cpp).

    The parts are joined by classes.  [WordPorts] are the 16-bit ports, with the
    registers of the card in [BgaLaws].  [Hypervisor] is what the driver asks the
    kernel for (libsigma_vm_map and the calls of vctl); [kernel_calls] implements the
    calls of vctl with those of Virt.v.  [GuestLaws] says how a guest runs under it,
    and [VbeFirmware] what the VESA standard promises for interrupt 10h.  Text that
    the drivers print is left out, except that the strings are mapped. *)

From S2P Require Import Prelude Bits Klibc Containers Fields Frames Pmm Paging Ipc Process Descriptors Virt.

(** ** bga *)

Class WordPorts (D : Type) := { io_inw : Z -> D -> Z * D; io_outw : Z -> Z -> D -> D }.

Module bga.
Definition bgaMaxXres : Z := 2560.
Definition bgaMaxYres : Z := 1600.
Definition bgaMaxBpp : Z := 32.
Definition bgaIoIndex : Z := 0x1CE.
Definition bgaIoData : Z := 0x1CF.
Definition bgaIndexId : Z := 0.
Definition bgaIndexXres : Z := 1.
Definition bgaIndexYres : Z := 2.
Definition bgaIndexBpp : Z := 3.
Definition bgaIndexEnable : Z := 4.
Definition bgaId0 : Z := 0xB0C0.
Definition bgaDisabled : Z := 0.
Definition bgaEnabled : Z := 1.
Definition bgaGetCaps : Z := 2.
Definition bgaLfbEnabled : Z := 0x40.
Definition bgaLfbBase : Z := 0xE0000000.

Section ops.
Context {D : Type} `{WordPorts D}.

Record t := mk { index : Z; data : Z; lfb : Z; max_x : Z; max_y : Z; max_bpp : Z; ports : D }.

Definition set_ports (d : D) (b : t) : t := mk (index b) (data b) (lfb b) (max_x b) (max_y b) (max_bpp b) d.

Definition write (reg val : Z) (b : t) : t := set_ports (io_outw (data b) val (io_outw (index b) reg (ports b))) b.
Definition read (reg : Z) (b : t) : Z * t :=
  let '(v, d) := io_inw (data b) (io_outw (index b) reg (ports b)) in (v, set_ports d b).

(** [if(read(reg) > limit) max = limit; else max = read(reg);] *)
Definition read_max (reg limit : Z) (b : t) : Z * t :=
  let '(v, b) := read reg b in if limit <? v then (limit, b) else read reg b.

Definition set_max (x y bpp : Z) (b : t) : t := mk (index b) (data b) (lfb b) x y bpp (ports b).

(** The constructor; [junk] is what the members hold that it does not set when it
    finds no controller. *)
Definition create (junk : Z * Z * Z) (d : D) : t :=
  let b := mk bgaIoIndex bgaIoData bgaLfbBase junk.1.1 junk.1.2 junk.2 d in
  let '(version, b) := read bgaIndexId b in
  if negb (Z.land version 0xFFF0 =? bgaId0) then b
  else
    let b := write bgaIndexEnable bgaGetCaps b in
    let '(x, b) := read_max bgaIndexXres bgaMaxXres b in
    let '(y, b) := read_max bgaIndexYres bgaMaxYres b in
    let '(bpp, b) := read_max bgaIndexBpp bgaMaxBpp b in
    write bgaIndexEnable bgaDisabled (set_max x y bpp b).

Definition set_mode (x y bpp : Z) (b : t) : t :=
  if (max_x b <? x) || (max_y b <? y) || (max_bpp b <? bpp) then b
  else
    let b := write bgaIndexEnable bgaDisabled b in
    let b := write bgaIndexXres x b in
    let b := write bgaIndexYres y b in
    let b := write bgaIndexBpp bpp b in
    write bgaIndexEnable (Z.lor bgaEnabled bgaLfbEnabled) b.

Definition get_lfb_phys (b : t) : Z := lfb b.
End ops.
Arguments t D : clear implicits.
End bga.

(** The card: an index and registers of 16 bits; with [bgaGetCaps], the registers of
    the mode read as the largest values. *)
Record card := mk_card { c_id : Z; c_caps : Z * Z * Z; c_x : Z; c_y : Z; c_bpp : Z; c_enable : Z }.

Definition card_reg (r : Z) (c : card) : Z :=
  let caps := Z.testbit (c_enable c) 1 in
  if r =? 0 then c_id c else if r =? 1 then (if caps then (c_caps c).1.1 else c_x c)
  else if r =? 2 then (if caps then (c_caps c).1.2 else c_y c) else if r =? 3 then (if caps then (c_caps c).2 else c_bpp c)
  else c_enable c.

Definition card_write (r v : Z) (c : card) : card :=
  if r =? 1 then mk_card (c_id c) (c_caps c) v (c_y c) (c_bpp c) (c_enable c)
  else if r =? 2 then mk_card (c_id c) (c_caps c) (c_x c) v (c_bpp c) (c_enable c)
  else if r =? 3 then mk_card (c_id c) (c_caps c) (c_x c) (c_y c) v (c_enable c)
  else if r =? 4 then mk_card (c_id c) (c_caps c) (c_x c) (c_y c) (c_bpp c) v
  else c.

Class BgaLaws (D : Type) `{WordPorts D} := {
  card_of : D -> card;
  card_access (r : Z) (d : D) : 0 <= r <= 4 ->
    (io_inw bga.bgaIoData (io_outw bga.bgaIoIndex r d)).1 = card_reg r (card_of d) /\
    card_of (io_inw bga.bgaIoData (io_outw bga.bgaIoIndex r d)).2 = card_of d /\
    (forall v, card_of (io_outw bga.bgaIoData v (io_outw bga.bgaIoIndex r d)) = card_write r v (card_of d)) }.

Section bga_theorems.
Context {D : Type} `{BL : BgaLaws D}.

Definition wired (b : bga.t D) : Prop := bga.index b = bga.bgaIoIndex /\ bga.data b = bga.bgaIoData.

Lemma write_ok r v (b : bga.t D) : wired b -> 0 <= r <= 4 ->
  exists d, bga.write r v b = bga.set_ports d b /\ card_of d = card_write r v (card_of (bga.ports b)).
Proof.
  intros [Hi Hd] Hr. unfold bga.write. rewrite Hi, Hd. eexists. split; [reflexivity |]. by apply card_access.
Qed.

Lemma read_ok r (b : bga.t D) : wired b -> 0 <= r <= 4 ->
  exists d, bga.read r b = (card_reg r (card_of (bga.ports b)), bga.set_ports d b) /\ card_of d = card_of (bga.ports b).
Proof.
  intros [Hi Hd] Hr. unfold bga.read. rewrite Hi, Hd. destruct (card_access r (bga.ports b) Hr) as (H1 & H2 & _).
  destruct (io_inw _ _) as [v d]. cbn [fst snd] in *. subst v. by eexists.
Qed.

Lemma read_max_ok r limit (b : bga.t D) : wired b -> 0 <= r <= 4 ->
  exists d, bga.read_max r limit b = (Z.min limit (card_reg r (card_of (bga.ports b))), bga.set_ports d b) /\
    card_of d = card_of (bga.ports b).
Proof.
  intros Hw Hr. unfold bga.read_max. destruct (read_ok r b Hw Hr) as (d & -> & Ed).
  destruct (Z.ltb_spec limit (card_reg r (card_of (bga.ports b)))).
  - exists d. split; [| done]. f_equal. lia.
  - destruct (read_ok r (bga.set_ports d b) Hw Hr) as (d' & -> & Ed'). cbn [bga.ports bga.set_ports] in *. rewrite Ed.
    exists d'. split; [| congruence]. f_equal. lia.
Qed.

(** One access of the card and what it leaves. *)
Ltac card_step L d E :=
  edestruct L as (d & -> & E); [first [eassumption | split; reflexivity] | cbv; split; congruence |];
  cbn [bga.set_ports bga.ports bga.index bga.data bga.lfb bga.max_x bga.max_y bga.max_bpp bga.set_max] in *.

(** The driver of a card that is there knows its limits, cut down to those of the
    driver, and switches to a mode exactly when it is within them: the card then
    shows the resolution and the depth with the linear frame buffer enabled. *)
Theorem bga_modes (junk : Z * Z * Z) (d : D) (x y bpp : Z) :
  Z.land (c_id (card_of d)) 0xFFF0 = bga.bgaId0 ->
  card_of (bga.ports (bga.set_mode x y bpp (bga.create junk d))) =
    let c := card_of d in let caps := c_caps c in
    if (x <=? Z.min 2560 caps.1.1) && (y <=? Z.min 1600 caps.1.2) && (bpp <=? Z.min 32 caps.2)
    then mk_card (c_id c) caps x y bpp 0x41 else mk_card (c_id c) caps (c_x c) (c_y c) (c_bpp c) 0.
Proof.
  intros Hid. set (c := card_of d) in *. cbv zeta. destruct (c_caps c) as [[cx cy] cbpp] eqn:Ec. cbn [fst snd]. set (b := bga.create junk d).
  assert (Hb : wired b /\ card_of (bga.ports b) = mk_card (c_id c) (c_caps c) (c_x c) (c_y c) (c_bpp c) 0 /\
               bga.max_x b = Z.min 2560 cx /\ bga.max_y b = Z.min 1600 cy /\ bga.max_bpp b = Z.min 32 cbpp).
  { unfold b, bga.create. set (b0 := bga.mk _ _ _ _ _ _ d). assert (W : forall e, wired (bga.set_ports e b0)) by done.
    change b0 with (bga.set_ports d b0).
    card_step (read_ok bga.bgaIndexId (bga.set_ports d b0)) d1 E1. fold c in E1 |- *.
    change (card_reg bga.bgaIndexId c) with (c_id c). rewrite Hid, Z.eqb_refl. cbn [negb].
    card_step (write_ok bga.bgaIndexEnable bga.bgaGetCaps) d2 E2. rewrite E1 in E2.
    card_step (read_max_ok bga.bgaIndexXres bga.bgaMaxXres) d3 E3. rewrite E2 in E3 |- *.
    card_step (read_max_ok bga.bgaIndexYres bga.bgaMaxYres) d4 E4. rewrite E3 in E4 |- *.
    card_step (read_max_ok bga.bgaIndexBpp bga.bgaMaxBpp) d5 E5. rewrite E4 in E5 |- *.
    card_step (write_ok bga.bgaIndexEnable bga.bgaDisabled) d6 E6. rewrite E5 in E6.
    split_and!; [split; reflexivity | rewrite E6 | ..]; unfold card_write, card_reg; cbn; rewrite ?Ec; reflexivity. }
  destruct Hb as (W & Eb & Hx & Hy & Hp). clearbody b. unfold bga.set_mode. rewrite Hx, Hy, Hp.
  replace ((_ <? x) || _ || _) with (negb ((x <=? Z.min 2560 cx) && (y <=? Z.min 1600 cy) && (bpp <=? Z.min 32 cbpp))).
  2: { rewrite !negb_andb, <- !Z.ltb_antisym. done. }
  destruct ((x <=? _) && _ && _); cbn [negb]; [| by rewrite Eb, Ec].
  card_step (write_ok bga.bgaIndexEnable bga.bgaDisabled b) d1 E1. card_step (write_ok bga.bgaIndexXres x) d2 E2.
  card_step (write_ok bga.bgaIndexYres y) d3 E3. card_step (write_ok bga.bgaIndexBpp bpp) d4 E4.
  card_step (write_ok bga.bgaIndexEnable (Z.lor bga.bgaEnabled bga.bgaLfbEnabled)) d5 E5.
  rewrite E5, E4, E3, E2, E1, Eb, Ec. reflexivity.
Qed.
End bga_theorems.

(** ** vbe: the virtual machine *)

(** What the driver uses of libsigma: the calls of vctl, whose structures are local
    variables of the driver ([user_regs], [user_exit] by address), a mapping of
    memory, and the memory itself.  A call that does not return is [NoFuel]. *)
Class Hypervisor (W : Type) := {
  vctl : Z -> Z -> Z -> Z -> Z -> W -> res (Z * W);
  vm_map : Z -> Z -> W -> res (Z * W);                (* size and physical address *)
  user_regs : Z -> W -> vregs.t; put_regs : Z -> vregs.t -> W -> W;
  user_exit : Z -> W -> vexit.t; put_exit : Z -> vexit.t -> W -> W;
  mem : W -> bmem; put_mem : bmem -> W -> W }.

Record rm_regs := mk_rm { eflags : Z; ebp : Z; edi : Z; esi : Z; edx : Z; ecx : Z; ebx : Z; eax : Z }.
Definition zero_rm : rm_regs := mk_rm 0 0 0 0 0 0 0 0.

Module rm_cpu.
Record t := mk { data_section : Z; data_section_addr : Z; vspace : Z; vcpu : Z; payload : Z }.

Section ops.
Context {W : Type} `{Hypervisor W}.

(** The address of the structures of [intn]. *)
Context (regs_ptr exit_ptr : Z) (zero_vregs : vregs.t) (zero_exit : vexit.t).

Definition create (w : W) : res (t * W) :=
  '(vspace, w) ← vctl virt.vCtlCreateVspace 0 0 0 0 w;
  '(_, w) ← vctl virt.vCtlMapVspacePhys vspace 0x0 0x0 0xFFFFFFFF w;
  '(ram, w) ← vm_map 0x8000 0 w;
  '(_, w) ← vctl virt.vCtlMapVspace vspace 0x5000 ram 0x8000 w;
  '(vcpu, w) ← vctl virt.vCtlCreateVcpu 0 0 0 0 w;
  mret (mk (ram + 0x2D00) 0x7d00 vspace vcpu (ram + 0x2C00), w).

(** [int n; vmmcall] *)
Definition code (n : Z) : list Z := [0xCD; u8 n; 0x0F; 0x01; 0xd9].
Definition put_bytes (p : Z) (l : list Z) (m : bmem) : bmem :=
  (fix go p l m := match l with [] => m | c :: l => go (p + 1) l (write m p c) end) p l m.

Definition flat (s : vregs.selector) : vregs.selector := vregs.mk_selector (vregs.sel s) (vregs.attrib s) 0xFFFFFFFF (vregs.base s).
Definition at_zero (s : vregs.selector) : vregs.selector := vregs.mk_selector 0 (vregs.attrib s) (vregs.limit s) 0.

(** The assignments to [cpu_regs]. *)
Definition call_regs (regs : rm_regs) (r : vregs.t) : vregs.t :=
  vregs.mk (eax regs) (ebx regs) (ecx regs) (edx regs) (esi regs) (edi regs) (vregs.r8 r) (vregs.r9 r) (vregs.r10 r) (vregs.r11 r)
    (vregs.r12 r) (vregs.r13 r) (vregs.r14 r) (vregs.r15 r) 0x7C00 (vregs.rbp r) 0x7C00 (eflags regs) (vregs.cr0 r) (vregs.cr2 r)
    (vregs.cr3 r) (vregs.cr4 r) (vregs.cr8 r) (vregs.efer r) (at_zero (vregs.cs r)) (flat (vregs.ds r)) (flat (vregs.ss r))
    (flat (vregs.es r)) (flat (vregs.fs r)) (flat (vregs.gs r)) (vregs.ldtr r) (vregs.tr r) (vregs.gdtr r) (vregs.idtr r).

Definition return_regs (r : vregs.t) (regs : rm_regs) : rm_regs :=
  mk_rm (u32 (vregs.rflags r)) (ebp regs) (u32 (vregs.rdi r)) (u32 (vregs.rsi r)) (u32 (vregs.rdx r)) (u32 (vregs.rcx r))
    (u32 (vregs.rbx r)) (u32 (vregs.rax r)).

(** The loop over the exits of the guest.  No opcode of a port access is known: the
    code stops there in an endless loop. *)
Fixpoint run_loop (fuel : nat) (vcpu : Z) (w : W) : res W :=
  match fuel with
  | O => NoFuel
  | S fuel =>
      '(_, w) ← vctl virt.vCtlRunVcpu vcpu exit_ptr 0 0 w;
      let reason := vexit.reason (user_exit exit_ptr w) in
      if reason =? vexit.vCtlExitReasonInterrupt then mret w
      else if (reason =? vexit.vCtlExitReasonPortRead) || (reason =? vexit.vCtlExitReasonPortWrite) then NoFuel
      else if reason =? vexit.vCtlExitReasonHypercall then mret w
      else run_loop fuel vcpu w
  end.

Definition intn (fuel : nat) (c : t) (n : Z) (regs : rm_regs) (w : W) : res (rm_regs * W) :=
  let w := put_mem (put_bytes (payload c) (code n) (mem w)) w in
  let w := put_regs regs_ptr zero_vregs w in
  '(_, w) ← vctl virt.vCtlGetRegs (vcpu c) regs_ptr 0 0 w;
  let w := put_regs regs_ptr (call_regs regs (user_regs regs_ptr w)) w in
  '(_, w) ← vctl virt.vCtlSetRegs (vcpu c) regs_ptr 0 0 w;
  let w := put_exit exit_ptr zero_exit w in
  w ← run_loop fuel (vcpu c) w;
  '(_, w) ← vctl virt.vCtlGetRegs (vcpu c) regs_ptr 0 0 w;
  mret (return_regs (user_regs regs_ptr w) regs, w).
End ops.
End rm_cpu.

(** How a guest runs: its registers are those of the last set_regs; started at 0x7C00
    on [int n; vmmcall], it does what the handler of the firmware does with the
    registers ([bios_regs]) and the memory ([bios_mem]), and then calls the
    hypervisor.  [cpu] is the driver's machine. *)
Class GuestLaws (W : Type) `{Hypervisor W} (cpu : rm_cpu.t)
    (bios_regs : Z -> vregs.t -> bmem -> vregs.t) (bios_mem : Z -> vregs.t -> bmem -> bmem) := {
  guest : W -> vregs.t;
  put_mem_laws m w : mem (put_mem m w) = m /\ guest (put_mem m w) = guest w;
  put_regs_laws p r w : mem (put_regs p r w) = mem w /\ guest (put_regs p r w) = guest w /\ user_regs p (put_regs p r w) = r;
  put_exit_laws p x w : mem (put_exit p x w) = mem w /\ guest (put_exit p x w) = guest w;
  get_law p w : exists w', vctl virt.vCtlGetRegs (rm_cpu.vcpu cpu) p 0 0 w = Ret (0, w') /\
    user_regs p w' = guest w /\ guest w' = guest w /\ mem w' = mem w;
  set_law p w : exists w', vctl virt.vCtlSetRegs (rm_cpu.vcpu cpu) p 0 0 w = Ret (0, w') /\ guest w' = user_regs p w /\ mem w' = mem w;
  run_law n p w :
    vregs.rip (guest w) = 0x7C00 -> vregs.base (vregs.cs (guest w)) = 0 ->
    bytes_at (mem w) (rm_cpu.payload cpu) (rm_cpu.code n) ->
    exists w', vctl virt.vCtlRunVcpu (rm_cpu.vcpu cpu) p 0 0 w = Ret (0, w') /\
      vexit.reason (user_exit p w') = vexit.vCtlExitReasonHypercall /\
      guest w' = bios_regs n (guest w) (mem w) /\ mem w' = bios_mem n (guest w) (mem w) }.

Lemma put_bytes_at p l m : bytes_at (rm_cpu.put_bytes p l m) p l /\ forall a, ~ (p <= a < p + Z.of_nat (length l)) -> rm_cpu.put_bytes p l m a = m a.
Proof.
  revert p m. induction l as [| c l IH]; intros p m; [split; [by intros [] | done] |].
  destruct (IH (p + 1) (write m p c)) as [H1 H2]. change (rm_cpu.put_bytes p (c :: l) m) with (rm_cpu.put_bytes (p + 1) l (write m p c)). split.
  - apply bytes_at_cons. split; [| done]. rewrite H2 by lia. apply write_eq.
  - intros a Ha. cbn [length] in Ha. rewrite H2 by lia. apply write_ne. lia.
Qed.

Section guest.
Context {W : Type} (cpu : rm_cpu.t) `{GL : GuestLaws W cpu bios_regs bios_mem}.
Context (regs_ptr exit_ptr : Z) (zero_vregs : vregs.t) (zero_exit : vexit.t).

(** [intn] is the interrupt of the firmware: its handler runs with the registers of
    the caller, at most the five bytes of the payload differ from the memory before,
    and the caller gets the lower halves of the registers that the handler leaves,
    except for ebp, which is not passed in either direction. *)
Theorem intn_runs_handler (fuel : nat) (n : Z) (regs : rm_regs) (w : W) :
  let r := rm_cpu.call_regs regs (guest w) in
  let m := rm_cpu.put_bytes (rm_cpu.payload cpu) (rm_cpu.code n) (mem w) in
  exists w', rm_cpu.intn regs_ptr exit_ptr zero_vregs zero_exit (S fuel) cpu n regs w =
      Ret (rm_cpu.return_regs (bios_regs n r m) regs, w') /\
    guest w' = bios_regs n r m /\ mem w' = bios_mem n r m.
Proof.
  intros r m. unfold rm_cpu.intn. fold m. destruct (put_mem_laws m w) as [M1 G1].
  destruct (put_regs_laws regs_ptr zero_vregs (put_mem m w)) as (M2 & G2 & _).
  destruct (get_law regs_ptr (put_regs regs_ptr zero_vregs (put_mem m w))) as (w3 & -> & U3 & G3 & M3). cbn [mbind res_bind].
  set (r3 := rm_cpu.call_regs regs (user_regs regs_ptr w3)). assert (E3 : r3 = r) by (unfold r3, r; congruence).
  destruct (put_regs_laws regs_ptr r3 w3) as (M4 & G4 & U4).
  destruct (set_law regs_ptr (put_regs regs_ptr r3 w3)) as (w5 & -> & G5 & M5). cbn [mbind res_bind].
  destruct (put_exit_laws exit_ptr zero_exit w5) as [M6 G6].
  assert (G : guest (put_exit exit_ptr zero_exit w5) = r) by congruence. assert (M : mem (put_exit exit_ptr zero_exit w5) = m) by congruence.
  destruct (run_law n exit_ptr (put_exit exit_ptr zero_exit w5)) as (w7 & E7 & R7 & G7 & M7);
    [by rewrite G | by rewrite G | rewrite M; apply put_bytes_at |].
  cbn [rm_cpu.run_loop]. rewrite E7. cbn [mbind res_bind]. rewrite R7. cbn [Z.eqb orb].
  change (vexit.vCtlExitReasonHypercall =? vexit.vCtlExitReasonInterrupt) with false.
  change (vexit.vCtlExitReasonHypercall =? vexit.vCtlExitReasonPortRead) with false.
  change (vexit.vCtlExitReasonHypercall =? vexit.vCtlExitReasonPortWrite) with false. rewrite Z.eqb_refl. cbn [orb mret res_ret mbind res_bind].
  destruct (get_law regs_ptr w7) as (w8 & -> & U8 & G8 & M8). cbn [mbind res_bind]. exists w8.
  split; [repeat f_equal; congruence |]. split; congruence.
Qed.
End guest.

(** ** vbe: the kernel behind it *)

Section kernel.
Context {S : Type} `{FA : FrameAllocator S}.
Context (vmrun : (svm_low.gpr -> Z) -> vmcb_t.t -> svm.machine -> (svm_low.gpr -> Z) * vmcb_t.t * svm.machine).
Context (alloc_n_blocks : Z -> S -> res (Z * S)) (kernel_info : Z) (uninit : Z * Z) (thread_vmm : Z).
Context (new_handle : virt.state S -> Z).

(** The thread of the driver: its handles, the virtual machines of the kernel, its
    memory. *)
Record kworld := mk_kworld { k_cat : handles.handle_catalogue; k_state : virt.state S; k_mem : bmem }.
Context (map : Z -> Z -> kworld -> res (Z * kworld)).

Definition set_user_regs (f : Z -> vregs.t) (s : virt.state S) : virt.state S :=
  virt.mk (virt.kern s) (virt.host s) (virt.vspaces s) (virt.vcpus s) (virt.objs s) f (virt.user_exits s).
Definition set_user_exits (f : Z -> vexit.t) (s : virt.state S) : virt.state S :=
  virt.mk (virt.kern s) (virt.host s) (virt.vspaces s) (virt.vcpus s) (virt.objs s) (virt.user_regs s) f.

Definition kernel_vctl (cmd a1 a2 a3 a4 : Z) (w : kworld) : res (Z * kworld) :=
  o ← virt.vctl vmrun alloc_n_blocks kernel_info uninit (new_handle (k_state w)) thread_vmm cmd a1 a2 a3 a4 (k_cat w) (k_state w);
  match o with virt.Done v cat s => mret (v, mk_kworld cat s (k_mem w)) | virt.Stopped _ => NoFuel end.

#[local] Instance kernel_calls : Hypervisor kworld := {|
  vctl := kernel_vctl; vm_map := map;
  user_regs p w := virt.user_regs (k_state w) p;
  put_regs p r w := mk_kworld (k_cat w) (set_user_regs (fun a => if a =? p then r else virt.user_regs (k_state w) a) (k_state w)) (k_mem w);
  user_exit p w := virt.user_exits (k_state w) p;
  put_exit p x w := mk_kworld (k_cat w) (set_user_exits (fun a => if a =? p then x else virt.user_exits (k_state w) a) (k_state w)) (k_mem w);
  mem := k_mem; put_mem m w := mk_kworld (k_cat w) (k_state w) m |}.

(** Handle 0 of the thread is [h], at address [p]. *)
Definition first_handle (p : Z) (h : handles.handle) (w : kworld) : Prop :=
  (exists kvs, catalogue_ok (k_cat w) kvs /\ snd <$> kvs !! 0%nat = Some p) /\ virt.objs (k_state w) !! p = Some h /\
  handles.id_gen (k_cat w) + 1 < 2 ^ 64.

Lemma vspace_call_keeps p h w v w' :
  new_handle (k_state w) <> p -> first_handle p h w -> kernel_vctl virt.vCtlCreateVspace 0 0 0 0 w = Ret (v, w') ->
  handles.id_gen (k_cat w) + 2 < 2 ^ 64 -> first_handle p h w'.
Proof.
  intros Hp ((kvs & OK & H0) & Ho & Hb) E Hb2. unfold kernel_vctl, virt.vctl in E.
  unfold virt.vCtlCreateVspace, virt.vCtlCreateVcpu, virt.vCtlRunVcpu, virt.vCtlGetRegs, virt.vCtlSetRegs in E. cbn [Z.eqb Pos.eqb] in E.
  destruct (virt.vspace_create (k_state w)) as [[vs s] | | |] eqn:Ev; try discriminate E. cbn [mbind res_bind] in E.
  destruct (handle_push_ok _ _ (new_handle (k_state w)) OK Hb) as (c' & Ep & OK'). rewrite Ep in E. cbn in E. injection E as <- <-.
  assert (Hs : virt.objs s = virt.objs (k_state w)).
  { unfold virt.vspace_create in Ev. destruct (virt.get_type _); [| by injection Ev as _ <-].
    destruct (svm.vspace_init _) as [[? ?] | | |]; try discriminate Ev. cbn in Ev. by injection Ev as _ <-. }
  unfold first_handle. cbn [k_cat k_state virt.objs]. split_and!.
  - eexists. split; [exact OK' |]. by destruct kvs.
  - rewrite lookup_insert_ne, Hs by done. done.
  - unfold handles.push in Ep. destruct (hash_map.push_back _ _ _ _); try discriminate Ep. injection Ep as <-. cbn [handles.id_gen].
    pose proof (c_range _ _ OK). rewrite u64_small by (unfold is_u64; lia). lia.
Qed.

Lemma map_call_keeps p h cmd a1 a2 a3 a4 w v w' :
  cmd = virt.vCtlMapVspace \/ cmd = virt.vCtlMapVspacePhys ->
  first_handle p h w -> kernel_vctl cmd a1 a2 a3 a4 w = Ret (v, w') -> first_handle p h w'.
Proof.
  intros Hc H E. unfold kernel_vctl, virt.vctl in E. unfold virt.vCtlMapVspace, virt.vCtlMapVspacePhys in Hc.
  assert (Hk : exists k, w' = mk_kworld (k_cat w) (virt.set_kern k (k_state w)) (k_mem w)).
  { unfold virt.vCtlMapVspace, virt.vCtlMapVspacePhys, virt.vCtlCreateVspace, virt.vCtlCreateVcpu, virt.vCtlRunVcpu, virt.vCtlGetRegs, virt.vCtlSetRegs in E.
    destruct Hc as [-> | ->]; cbn [Z.eqb Pos.eqb] in E; destruct (virt.get_vspace a1 _ (k_state w)) as [o | | |]; try discriminate E; cbn [mbind res_bind] in E;
      destruct (virt.map_range o _ _ _ _) as [k | | |]; try discriminate E; cbn in E; injection E as _ <-; by exists k. }
  destruct Hk as [k ->]. exact H.
Qed.

(** The driver passes 0 instead of the address space it has made to the creation of
    its CPU.  When handle 0 of its thread is something else, as it is for every
    thread that got a ring before, the kernel stops with a failed assertion. *)
Theorem rm_cpu_needs_first_handle (p : Z) (h : handles.handle) (w : kworld) :
  p <> 0 -> (forall s, new_handle s <> p) ->
  first_handle p h w -> handles.type h <> handles.vSpace -> handles.id_gen (k_cat w) + 2 < 2 ^ 64 ->
  (forall a b w v w', map a b w = Ret (v, w') -> first_handle p h w -> first_handle p h w') ->
  forall r w', rm_cpu.create w <> Ret (r, w').
Proof.
  intros Hp0 Hnew H0 Ht Hb Hmap r w' E. unfold rm_cpu.create in E. cbn [vctl vm_map kernel_calls] in E.
  destruct (kernel_vctl virt.vCtlCreateVspace _ _ _ _ w) as [[vs w1] | | |] eqn:E1; try discriminate E. cbn [mbind res_bind] in E.
  assert (H1 := vspace_call_keeps p h w vs w1 (Hnew _) H0 E1 Hb).
  destruct (kernel_vctl virt.vCtlMapVspacePhys _ _ _ _ w1) as [[v2 w2] | | |] eqn:E2; try discriminate E. cbn [mbind res_bind] in E.
  assert (H2 := map_call_keeps p h _ _ _ _ _ _ _ _ (or_intror eq_refl) H1 E2).
  destruct (map _ _ w2) as [[ram w3] | | |] eqn:E3; try discriminate E. cbn [mbind res_bind] in E. assert (H3 := Hmap _ _ _ _ _ E3 H2).
  destruct (kernel_vctl virt.vCtlMapVspace _ _ _ _ w3) as [[v4 w4] | | |] eqn:E4; try discriminate E. cbn [mbind res_bind] in E.
  assert (H4 := map_call_keeps p h _ _ _ _ _ _ _ _ (or_introl eq_refl) H3 E4). clear - H4 Ht Hp0 E.
  destruct H4 as ((kvs & OK & Hk) & Ho & _). revert E. unfold kernel_vctl, virt.vctl. rewrite Z.eqb_refl. unfold virt.get_vspace.
  rewrite (get_ok _ _ _ _ _ OK) by lia. change (Z.to_nat 0) with 0%nat. rewrite Hk, (proj2 (Z.eqb_neq p 0) Hp0), Ho.
  rewrite decide_False by done. discriminate.
Qed.
End kernel.

(** ** vbe: the VESA driver *)

Module vbe.
(** Sizes in bits, in the order of the structures. *)
Definition vbe_info_block : layout :=
  [("sig", 32); ("minor_ver", 8); ("major_ver", 8); ("oem", 32); ("cap", 32); ("mode_info", 32); ("total_mem", 16); ("software_revision", 16);
   ("vendor_string", 32); ("product_name", 32); ("product_revision", 32); ("reserved", 1776); ("oem_data", 2048)]%string.
Definition vbe_mode_info_block : layout :=
  [("attr", 16); ("window_a", 8); ("window_b", 8); ("granularity", 16); ("window_size", 16); ("seg_a", 16); ("seg_b", 16); ("win_func_ptr", 32);
   ("pitch", 16); ("width", 16); ("height", 16); ("w_char", 8); ("y_char", 8); ("planes", 8); ("bpp", 8); ("banks", 8); ("mmodel", 8);
   ("bank_size", 8); ("image_pages", 8); ("reserved", 8); ("red_mask", 8); ("red_pos", 8); ("green_mask", 8); ("green_pos", 8);
   ("blue_mask", 8); ("blue_pos", 8); ("reserved_mask", 8); ("reserved_pos", 8); ("colour_attr", 8); ("framebuffer", 32);
   ("off_screen_mem_off", 32); ("off_screen_mem_size", 16); ("reserved_0", 1648)]%string.
Definition edid_block : layout :=
  [("fixed_header", 64); ("manufacturer_id", 16); ("manufacturer_product_code", 16); ("serial_number", 32); ("week_of_manufacture", 8);
   ("year_of_manufacture", 8); ("major_rev", 8); ("minor_rev", 8); ("video_input_param_bitmap", 8); ("horizontal_screen_size", 8);
   ("vertical_screen_size", 8); ("display_gamma", 8); ("features", 8); ("rg_lsb", 8); ("bw_lsb", 8); ("red_msb", 8); ("red_msb_8", 8);
   ("green_msb_8", 16); ("blue_msb_8", 16); ("white_msb_8", 16); ("established_timing_bitmap", 24); ("standard_timing_info", 128);
   ("detailed_timing_info", 576); ("n_extensions", 8); ("checksum", 8)]%string.
Definition info_size : Z := layout_size vbe_info_block / 8.
Definition mode_info_size : nat := 256.
Definition edid_size : nat := 128.

(** A copy of a structure is its bytes. *)
Definition block := list Z.
Definition zero_block (n : nat) : block := replicate n 0.
Definition read_block (p : Z) (n : nat) (m : bmem) : block := stdio.print p (Z.of_nat n) m.
Definition byte_of (b : block) (i : Z) : Z := nth (Z.to_nat i) b 0.
Definition field (l : layout) (name : string) (n : nat) (b : block) : Z := le_at (byte_of b) (offset_of l name) n.
Definition width : block -> Z := field vbe_mode_info_block "width" 2.
Definition height : block -> Z := field vbe_mode_info_block "height" 2.
Definition bpp : block -> Z := field vbe_mode_info_block "bpp" 1.

(** [vbe_far_ptr] at [p], and [phys]. *)
Definition phys (p : Z) (m : bmem) : Z := u32 (Z.shiftl (le_at m (p + 2) 2) 4 + le_at m p 2).

Section ops.
Context {W : Type} `{Hypervisor W}.

(** [cpu->intn], the data section of the machine, and a bound for the length of the
    list of modes. *)
Context (intn : Z -> rm_regs -> W -> res (rm_regs * W)) (cpu : rm_cpu.t) (fuel : nat).

(** The global variables. *)
Record state := mk { supported_modes : list (Z * block); initialized : bool }.

Definition set_ax (v : Z) (r : rm_regs) : rm_regs := mk_rm (eflags r) (ebp r) (edi r) (esi r) (edx r) (ecx r) (ebx r) v.
Definition failed (r : rm_regs) : bool := negb (eax r =? 0x4F) || Z.testbit (eflags r) 0.

(** [print_bios_string] without the text. *)
Definition print_bios_string (name : string) (w : W) : res W :=
  '(_, w) ← vm_map 0x1000 (phys (rm_cpu.data_section cpu + offset_of vbe_info_block name) (mem w)) w; mret w.

(** The array of modes up to 0xFFFF. *)
Fixpoint read_modes (n : nat) (p : Z) (m : bmem) : res (list Z) :=
  match n with
  | O => NoFuel
  | S n => let v := le_at m p 2 in if v =? 0xFFFF then mret [] else l ← read_modes n (p + 2) m; mret (v :: l)
  end.

(** The body of the loop over the modes: the registers are those of the last call. *)
Definition fetch_mode (mode : Z) (info : block) (regs : rm_regs) (w : W) : res (block * rm_regs * W) :=
  let regs := mk_rm (eflags regs) (ebp regs) (rm_cpu.data_section_addr cpu) (esi regs) (edx regs) mode (ebx regs) 0x4f01 in
  '(regs, w) ← intn 0x10 regs w;
  if failed regs then mret (info, regs, w)
  else mret (read_block (rm_cpu.data_section cpu) mode_info_size (mem w), regs, w).

Fixpoint fetch_modes (l : list (Z * block)) (regs : rm_regs) (w : W) : res (list (Z * block) * W) :=
  match l with
  | [] => mret ([], w)
  | (mode, info) :: l =>
      '(info, regs, w) ← fetch_mode mode info regs w;
      '(l, w) ← fetch_modes l regs w;
      mret ((mode, info) :: l, w)
  end.

Definition find_modes (w : W) : res (Z * W) :=
  let data := rm_cpu.data_section cpu in let addr := rm_cpu.data_section_addr cpu in
  let modes_phys := phys (data + offset_of vbe_info_block "mode_info") (mem w) in
  if (addr <=? modes_phys) && (modes_phys <=? addr + info_size) then mret (data + (modes_phys - addr), w)
  else '(p, w) ← vm_map 0x1000 modes_phys w; mret (p + Z.land modes_phys 0xFFF, w).

Definition init (s : state) (w : W) : res (bool * state * W) :=
  let w := put_mem (rm_cpu.put_bytes (rm_cpu.data_section cpu) [86; 66; 69; 50] (mem w)) w in
  let regs := mk_rm 0 0 (rm_cpu.data_section_addr cpu) 0 0 0 0 0x4f00 in
  '(regs, w) ← intn 0x10 regs w;
  if failed regs then mret (false, s, w)
  else
    w ← print_bios_string "oem" w; w ← print_bios_string "vendor_string" w;
    w ← print_bios_string "product_name" w; w ← print_bios_string "product_revision" w;
    '(p, w) ← find_modes w;
    l ← read_modes fuel p (mem w);
    '(modes, w) ← fetch_modes (supported_modes s ++ ((fun m => (m, zero_block mode_info_size)) <$> l)) regs w;
    mret (true, mk modes true, w).

(** The last mode that fits; 0 for none. *)
Definition matches (x y depth : Z) (e : Z * block) : bool := (width e.2 =? x) && (height e.2 =? y) && (bpp e.2 =? depth).
Definition mode_to_set (x y depth : Z) (l : list (Z * block)) : Z :=
  foldl (fun m e => if matches x y depth e then e.1 else m) 0 l.

Definition set_mode (x y depth : Z) (s : state) (w : W) : res (Z * W) :=
  if negb (initialized s) then mret (0xFFFF, w)
  else
    let mode := mode_to_set x y depth (supported_modes s) in
    if mode =? 0 then mret (0xFFFF, w)
    else
      '(_, w) ← intn 0x10 (mk_rm 0 0 0 0 0 0 (Z.lor mode (Z.shiftl 1 14)) 0x4f02) w;
      mret (mode, w).

Definition get_mode_info (mode : Z) (s : state) : option block :=
  snd ∘ snd <$> list_find (fun e => e.1 = mode) (supported_modes s).

Definition edid_supported (w : W) : res (bool * W) :=
  '(regs, w) ← intn 0x10 (mk_rm 0 0 0 0 0 0 0 0x4f15) w;
  mret (negb (negb (Z.land (eax regs) 0xFFFF =? 0x4F) || Z.testbit (eflags regs) 0), w).

(** The checksum is only reported. *)
Definition checksum (b : block) : Z := foldl (fun c v => u8 (c + v)) 0 b.
Definition get_edid_block (w : W) : res (block * W) :=
  '(regs, w) ← intn 0x10 (mk_rm 0 0 (rm_cpu.data_section_addr cpu) 0 0 0 1 0x4f15) w;
  if failed regs then mret (zero_block edid_size, w)
  else mret (read_block (rm_cpu.data_section cpu) edid_size (mem w), w).
End ops.

Definition get_display_native_res (edid : block) : Z * Z :=
  let timing i := byte_of edid (offset_of edid_block "detailed_timing_info" + i) in
  let width := u16 (timing 2 + Z.shiftl (Z.land (timing 4) 0xF0) 4) in
  let height := u16 (timing 5 + Z.shiftl (Z.land (timing 7) 0xF0) 4) in
  if (width =? 0) || (height =? 0) then (1024, 768) else (width, height).
End vbe.

Lemma vbe_layouts :
  vbe.info_size = 512 /\ layout_size vbe.vbe_mode_info_block = 8 * Z.of_nat vbe.mode_info_size /\
  layout_size vbe.edid_block = 8 * Z.of_nat vbe.edid_size.
Proof. split_and!; reflexivity. Qed.

(** ** What the firmware promises *)

Section firmware.
Context {W : Type} `{Hypervisor W} (cpu : rm_cpu.t).

Notation data := (rm_cpu.data_section cpu).
Notation addr := (rm_cpu.data_section_addr cpu).

Definition words (l : list Z) : list Z := concat (le_bytes 2 <$> l).

(** The list of modes, which ends with 0xFFFF, at the address in the block of
    information: inside of the block, or inside of a page of the firmware. *)
Definition mode_list_at (rom : bmem) (modes : list Z) (m : bmem) : Prop :=
  let p := vbe.phys (data + 14) m in
  (addr <= p /\ p + Z.of_nat (length (words (modes ++ [0xFFFF]))) <= addr + 512 /\ bytes_at m (data + (p - addr)) (words (modes ++ [0xFFFF]))) \/
  (~ (addr <= p <= addr + 512) /\ p mod 4096 + Z.of_nat (length (words (modes ++ [0xFFFF]))) <= 4096 /\ bytes_at rom p (words (modes ++ [0xFFFF]))).

Class VbeFirmware (intn : Z -> rm_regs -> W -> res (rm_regs * W)) (rom : bmem) (modes : list Z) (info : Z -> option vbe.block) := {
  vbe_put m w : mem (put_mem m w) = m;
  vbe_map phys w : 0 <= phys -> exists p w', vm_map 0x1000 phys w = Ret (p, w') /\
    (forall i, 0 <= i < 4096 -> mem w' (p + i) = rom (phys - phys mod 4096 + i)) /\
    (forall i, 0 <= i < 512 -> mem w' (data + i) = mem w (data + i));
  vbe_info regs w : eax regs = 0x4f00 -> edi regs = addr -> exists regs' w',
    intn 0x10 regs w = Ret (regs', w') /\ vbe.failed regs' = false /\ mode_list_at rom modes (mem w');
  vbe_mode regs w : eax regs = 0x4f01 -> edi regs = addr -> exists regs' w',
    intn 0x10 regs w = Ret (regs', w') /\
    match info (ecx regs) with
    | Some b => vbe.failed regs' = false /\ bytes_at (mem w') data b
    | None => vbe.failed regs' = true
    end;
  vbe_blocks mode b : info mode = Some b -> length b = vbe.mode_info_size;
  vbe_modes : Forall (fun m => 0 <= m < 0xFFFF) modes }.

Lemma read_modes_ok modes n p m :
  Forall (fun v => 0 <= v < 0xFFFF) modes -> bytes_at m p (words (modes ++ [0xFFFF])) -> (length modes < n)%nat ->
  vbe.read_modes n p m = Ret modes.
Proof.
  intros Hf. revert n p. induction Hf as [| v modes Hv Hf IH]; intros n p Hb Hn; (destruct n as [| n]; [lia |]); cbn [vbe.read_modes].
  - rewrite (le_at_bytes m p 2 0xFFFF); [done | cbn; lia | exact Hb].
  - change (words ((v :: modes) ++ [0xFFFF])) with (le_bytes 2 v ++ words (modes ++ [0xFFFF])) in Hb. apply bytes_at_app in Hb as [H1 H2].
    rewrite (le_at_bytes m p 2 v) by (first [exact H1 | cbn; lia]). rewrite (proj2 (Z.eqb_neq v 0xFFFF)) by lia.
    rewrite (IH n (p + 2)); [done | exact H2 | cbn in Hn; lia].
Qed.

Lemma print_bytes_at m p l : bytes_at m p l -> stdio.print p (Z.of_nat (length l)) m = l.
Proof.
  intros Hb. unfold stdio.print. apply list_eq. intros i. rewrite list_lookup_fmap. destruct (decide (i < length l)%nat) as [Hi | Hi].
  - rewrite lookup_seqZ_lt by lia. destruct (lookup_lt_is_Some_2 l i Hi) as [c Hc]. cbn. rewrite Hc. f_equal. by apply Hb.
  - rewrite lookup_seqZ_ge by lia. by rewrite lookup_ge_None_2 by lia.
Qed.

Section driver.
Context (intn : Z -> rm_regs -> W -> res (rm_regs * W)) (rom : bmem) (modes : list Z) (info : Z -> option vbe.block).
Context `{VF : !VbeFirmware intn rom modes info}.

Definition found (m : Z) : Z * vbe.block := (m, default (vbe.zero_block vbe.mode_info_size) (info m)).

Lemma fetch_modes_ok l regs w : exists w',
  vbe.fetch_modes intn cpu ((fun m => (m, vbe.zero_block vbe.mode_info_size)) <$> l) regs w = Ret (found <$> l, w').
Proof.
  revert regs w. induction l as [| mode l IH]; intros regs w; [by eexists |]. cbn [fmap list_fmap vbe.fetch_modes]. unfold vbe.fetch_mode.
  destruct (vbe_mode (mk_rm (eflags regs) (ebp regs) addr (esi regs) (edx regs) mode (ebx regs) 0x4f01) w) as (regs' & w' & -> & Hi);
    [done | done |]. cbn [ecx] in Hi. cbn [mbind res_bind]. destruct (info mode) as [b |] eqn:Ei.
  - destruct Hi as [Hf Hb]. rewrite Hf. cbn [mbind res_bind mret res_ret]. destruct (IH regs' w') as (w2 & E2). cbn [fmap] in E2. rewrite E2.
    cbn. exists w2. unfold found. rewrite Ei. cbn [default]. unfold vbe.read_block. rewrite <- (vbe_blocks _ _ Ei), (print_bytes_at _ _ _ Hb). done.
  - rewrite Hi. cbn [mbind res_bind mret res_ret]. destruct (IH regs' w') as (w2 & E2). cbn [fmap] in E2. rewrite E2.
    cbn. exists w2. unfold found. by rewrite Ei.
Qed.

(** The block of information after mappings is the one before. *)
Lemma mode_list_keep m m' : (forall i, 0 <= i < 512 -> m' (data + i) = m (data + i)) -> mode_list_at rom modes m -> mode_list_at rom modes m'.
Proof.
  intros Hm. assert (Hp : vbe.phys (data + 14) m' = vbe.phys (data + 14) m).
  { unfold vbe.phys. assert (He : forall k, 0 <= k < 510 -> le_at m' (data + k) 2 = le_at m (data + k) 2).
    { intros k Hk. apply le_at_ext. intros x Hx. replace x with (data + (x - data)) by lia. apply Hm. lia. }
    rewrite <- !Z.add_assoc, !He by lia. done. }
  unfold mode_list_at. rewrite Hp. intros [(H1 & H2 & H3) | H3]; [left | by right]. split_and!; [done | done |].
  intros i c Hi. rewrite <- (H3 i c Hi), <- Z.add_assoc. apply Hm. apply lookup_lt_Some in Hi. lia.
Qed.

Lemma print_string_ok name w : mode_list_at rom modes (mem w) -> exists w', vbe.print_bios_string cpu name w = Ret w' /\ mode_list_at rom modes (mem w').
Proof.
  intros Hm. unfold vbe.print_bios_string. set (p := vbe.phys _ _). assert (0 <= p) by apply u32_range.
  destruct (vbe_map p w) as (q & w' & -> & _ & Hd); [done |]. cbn. exists w'. split; [done |]. by eapply mode_list_keep.
Qed.

Lemma find_modes_ok w : mode_list_at rom modes (mem w) ->
  exists p w', vbe.find_modes cpu w = Ret (p, w') /\ bytes_at (mem w') p (words (modes ++ [0xFFFF])).
Proof.
  intros Hm. unfold vbe.find_modes. change (offset_of vbe.vbe_info_block "mode_info") with 14. change vbe.info_size with 512. unfold mode_list_at in Hm.
  set (p := vbe.phys _ _) in *. destruct Hm as [(H1 & H2 & H3) | (H1 & H2 & H3)].
  - rewrite (proj2 (Z.leb_le _ _)), (proj2 (Z.leb_le p _)) by lia. by eexists _, _.
  - destruct (vbe_map p w) as (q & w' & -> & Hr & _); [apply u32_range |].
    assert (E : (addr <=? p) && (p <=? addr + 512) = false) by (apply andb_false_iff; rewrite !Z.leb_gt; lia). rewrite E. cbn.
    eexists _, _. split; [done |]. intros i c Hi. change 0xFFF with (Z.ones 12). rewrite (Z.land_ones p 12) by lia. change (2 ^ 12) with 4096.
    rewrite <- Z.add_assoc, Hr; [| apply lookup_lt_Some in Hi; pose proof (Z.mod_pos_bound p 4096); lia].
    replace (p - p mod 4096 + (p mod 4096 + Z.of_nat i)) with (p + Z.of_nat i) by lia. by apply H3.
Qed.

(** C38: The driver finds what the firmware has: init succeeds, and the supported modes
    are exactly the modes of the list, in order, each with the description that the
    firmware gives for it, or with zeros when it gives none. *)
Theorem vbe_init_lists_modes (fuel : nat) (w : W) :
  (length modes < fuel)%nat ->
  exists w', vbe.init intn cpu fuel (vbe.mk [] false) w = Ret (true, vbe.mk (found <$> modes) true, w').
Proof.
  intros Hn. unfold vbe.init. set (w0 := put_mem _ w).
  destruct (vbe_info (mk_rm 0 0 addr 0 0 0 0 0x4f00) w0) as (regs & w1 & -> & Hf & M1); [done | done |]. cbn [mbind res_bind]. rewrite Hf.
  destruct (print_string_ok "oem" w1 M1) as (w2 & -> & M2). cbn [mbind res_bind].
  destruct (print_string_ok "vendor_string" w2 M2) as (w3 & -> & M3). cbn [mbind res_bind].
  destruct (print_string_ok "product_name" w3 M3) as (w4 & -> & M4). cbn [mbind res_bind].
  destruct (print_string_ok "product_revision" w4 M4) as (w5 & -> & M5). cbn [mbind res_bind].
  destruct (find_modes_ok w5 M5) as (p & w6 & -> & M6). cbn [mbind res_bind].
  rewrite (read_modes_ok modes) by (first [apply vbe_modes | exact M6 | exact Hn]). cbn [mbind res_bind vbe.supported_modes app].
  destruct (fetch_modes_ok modes regs w6) as (w7 & E7). rewrite E7. by exists w7.
Qed.

(** A mode of the list fits a request. *)
Definition fits (x y depth : Z) (m : Z) : bool :=
  match info m with Some b => (vbe.width b =? x) && (vbe.height b =? y) && (vbe.bpp b =? depth) | None => false end.

Lemma mode_to_set_last x y depth l m0 : x <> 0 ->
  foldl (fun m e => if vbe.matches x y depth e then e.1 else m) m0 (found <$> l) = default m0 (last (List.filter (fits x y depth) l)).
Proof.
  intros Hx. induction l as [| m l IH] using rev_ind; [done |]. rewrite fmap_app, foldl_app, List.filter_app. cbn [fmap list_fmap foldl List.filter].
  assert (E : vbe.matches x y depth (found m) = fits x y depth m).
  { unfold vbe.matches, fits, found. cbn [snd]. destruct (info m) as [b |]; cbn [default]; [done |].
    assert (Hw : vbe.width (vbe.zero_block vbe.mode_info_size) = 0) by reflexivity. rewrite Hw. by rewrite (proj2 (Z.eqb_neq 0 x)). }
  rewrite E. destruct (fits x y depth m); [by rewrite last_snoc | by rewrite app_nil_r].
Qed.

(** Setting a mode of a real resolution picks the last mode of the list that the
    firmware describes with that resolution and depth and asks the firmware for it
    with the linear frame buffer; without one, nothing happens and the result is
    0xFFFF.  The answer of the firmware makes no difference: a mode that it refuses
    is returned as well. *)
Theorem vbe_set_mode_picks (x y depth : Z) (w : W) :
  x <> 0 ->
  vbe.set_mode intn x y depth (vbe.mk (found <$> modes) true) w =
    match last (List.filter (fits x y depth) modes) with
    | Some m => if m =? 0 then Ret (0xFFFF, w)
                else '(_, w') ← intn 0x10 (mk_rm 0 0 0 0 0 0 (Z.lor m (Z.shiftl 1 14)) 0x4f02) w; Ret (m, w')
    | None => Ret (0xFFFF, w)
    end.
Proof.
  intros Hx. unfold vbe.set_mode, vbe.mode_to_set. cbn [vbe.initialized vbe.supported_modes negb]. rewrite mode_to_set_last by done.
  by destruct (last _) as [m |].
Qed.
End driver.
End firmware.

(** The resolution in the first detailed timing of an EDID block is read back, for all
    sizes that the format can hold and whatever its other bits are. *)
Theorem native_res_roundtrip (edid : vbe.block) (w h hblank vblank : Z) :
  0 <= w < 4096 -> 0 <= h < 4096 -> 0 <= hblank < 16 -> 0 <= vblank < 16 ->
  vbe.byte_of edid 56 = w mod 256 -> vbe.byte_of edid 58 = w / 256 * 16 + hblank ->
  vbe.byte_of edid 59 = h mod 256 -> vbe.byte_of edid 61 = h / 256 * 16 + vblank ->
  vbe.get_display_native_res edid = if (w =? 0) || (h =? 0) then (1024, 768) else (w, h).
Proof.
  intros Hw Hh Hb Hv E2 E4 E5 E7. unfold vbe.get_display_native_res. change (offset_of vbe.edid_block "detailed_timing_info") with 54.
  cbv zeta. change (54 + 2) with 56. change (54 + 4) with 58. change (54 + 5) with 59. change (54 + 7) with 61. rewrite E2, E4, E5, E7.
  assert (Hp : forall v b, 0 <= v < 4096 -> 0 <= b < 16 -> u16 (v mod 256 + Z.shiftl (Z.land (v / 256 * 16 + b) 0xF0) 4) = v).
  { intros v b H1 H2. assert (Hd : 0 <= v / 256 < 16) by (split; [apply Z.div_pos | apply Z.div_lt_upper_bound]; lia).
    assert (El : Forall (fun a => Forall (fun b => Z.land (a * 16 + b) 0xF0 = a * 16) (seqZ 0 16)) (seqZ 0 16)) by by_compute.
    rewrite Forall_forall in El. specialize (El (v / 256) ltac:(apply elem_of_seqZ; lia)). rewrite Forall_forall in El.
    specialize (El b ltac:(apply elem_of_seqZ; lia)). cbn beta in El.
    rewrite El, Z.shiftl_mul_pow2 by lia. unfold u16. pose proof (Z.div_mod v 256). rewrite Z.mod_small; lia. }
  rewrite !Hp by done. done.
Qed.

(** ** Composition: the driver on the machine *)

Section composition.
Context {W : Type} (cpu : rm_cpu.t) `{GL : GuestLaws W cpu bios_regs bios_mem}.
Context (regs_ptr exit_ptr : Z) (zero_vregs : vregs.t) (zero_exit : vexit.t) (fuel : nat).
Context (rom : bmem) (modes : list Z) (info : Z -> option vbe.block).

(** The handler of interrupt 10h reports success. *)
Definition answered (r : vregs.t) : bool := (u32 (vregs.rax r) =? 0x4F) && negb (Z.testbit (u32 (vregs.rflags r)) 0).

(** The firmware as a program of the guest. *)
Class VesaRom := {
  rom_map phys w : 0 <= phys -> exists p w', vm_map 0x1000 phys w = Ret (p, w') /\
    (forall i, 0 <= i < 4096 -> mem w' (p + i) = rom (phys - phys mod 4096 + i)) /\
    (forall i, 0 <= i < 512 -> mem w' (rm_cpu.data_section cpu + i) = mem w (rm_cpu.data_section cpu + i));
  rom_info r m : vregs.rax r = 0x4f00 -> vregs.rdi r = rm_cpu.data_section_addr cpu ->
    answered (bios_regs 0x10 r m) = true /\ mode_list_at cpu rom modes (bios_mem 0x10 r m);
  rom_mode r m : vregs.rax r = 0x4f01 -> vregs.rdi r = rm_cpu.data_section_addr cpu ->
    match info (vregs.rcx r) with
    | Some b => answered (bios_regs 0x10 r m) = true /\ bytes_at (bios_mem 0x10 r m) (rm_cpu.data_section cpu) b
    | None => answered (bios_regs 0x10 r m) = false
    end;
  rom_blocks mode b : info mode = Some b -> length b = vbe.mode_info_size;
  rom_modes : Forall (fun m => 0 <= m < 0xFFFF) modes }.

Lemma answered_failed r regs : vbe.failed (rm_cpu.return_regs r regs) = negb (answered r).
Proof. unfold vbe.failed, answered, rm_cpu.return_regs. cbn [eax eflags]. by destruct (_ =? _), (Z.testbit _ _). Qed.

(** The interrupts of the machine are those that the driver expects. *)
#[export] Instance machine_firmware `{!VesaRom} :
  VbeFirmware cpu (rm_cpu.intn regs_ptr exit_ptr zero_vregs zero_exit (S fuel) cpu) rom modes info.
Proof.
  split.
  - intros m w. apply put_mem_laws.
  - apply rom_map.
  - intros regs w Ha Hd. destruct (intn_runs_handler cpu regs_ptr exit_ptr zero_vregs zero_exit fuel 0x10 regs w) as (w' & E & _ & M).
    edestruct rom_info as [Hok Hl]; [| | eexists _, w'; split; [exact E |]; rewrite answered_failed, M; by rewrite Hok]; done.
  - intros regs w Ha Hd. destruct (intn_runs_handler cpu regs_ptr exit_ptr zero_vregs zero_exit fuel 0x10 regs w) as (w' & E & _ & M).
    eexists _, w'. split; [exact E |]. rewrite answered_failed, M.
    pose proof (rom_mode (rm_cpu.call_regs regs (guest w)) (rm_cpu.put_bytes (rm_cpu.payload cpu) (rm_cpu.code 16) (mem w)) Ha Hd) as Hm.
    cbn [vregs.rcx rm_cpu.call_regs] in Hm. destruct (info (ecx regs)); [destruct Hm as [-> ?] | rewrite Hm]; done.
  - apply rom_blocks.
  - apply rom_modes.
Qed.
End composition.

(** ** Witnesses *)

Record sim_card := mk_sim_card { sc_index : Z; sc_card : card }.
#[export] Instance sim_card_ports : WordPorts sim_card := {|
  io_inw p d := (if p =? bga.bgaIoData then card_reg (sc_index d) (sc_card d) else 0, d);
  io_outw p v d := if p =? bga.bgaIoIndex then mk_sim_card v (sc_card d)
                   else if p =? bga.bgaIoData then mk_sim_card (sc_index d) (card_write (sc_index d) v (sc_card d)) else d |}.
#[export] Instance sim_card_laws : BgaLaws sim_card.
Proof. exists sc_card. intros r d Hr. by split_and!. Defined.

Definition card_example : card := mk_card 0xB0C5 (1920, 1080, 32) 640 480 8 0.

Lemma bga_modes_witness :
  card_of (bga.ports (bga.set_mode 1024 768 32 (bga.create (0, 0, 0) (mk_sim_card 0 card_example)))) =
    mk_card 0xB0C5 (1920, 1080, 32) 1024 768 32 0x41.
Proof. rewrite (bga_modes (0, 0, 0) (mk_sim_card 0 card_example) 1024 768 32); reflexivity. Defined.

(** A machine whose firmware has two modes and describes the second. *)
Record sim := mk_sim { s_guest : vregs.t; s_regs : Z -> vregs.t; s_exits : Z -> vexit.t; s_mem : bmem }.

Definition cpu_example : rm_cpu.t := rm_cpu.mk 0x402D00 0x7D00 1 0 0x402C00.
Definition exit_example : vexit.t := vexit.mk vexit.vCtlExitReasonHypercall (replicate 15 0) 3 0 (vexit.mk_port 0 0 false false).

Definition set_at {A} (p : Z) (v : A) (f : Z -> A) : Z -> A := fun a => if a =? p then v else f a.

Definition mode_example : vbe.block :=
  replicate 18 0 ++ le_bytes 2 1024 ++ le_bytes 2 768 ++ replicate 3 0 ++ [32] ++ replicate 230 0.
Definition info_example (mode : Z) : option vbe.block := if mode =? 0x118 then Some mode_example else None.

Definition bios_mem_example (n : Z) (r : vregs.t) (m : bmem) : bmem :=
  if vregs.rax r =? 0x4f00 then rm_cpu.put_bytes 0x402D0E [0; 0; 0xD2; 0x07] (rm_cpu.put_bytes 0x402D20 (words [0x101; 0x118; 0xFFFF]) m)
  else match info_example (vregs.rcx r) with Some b => rm_cpu.put_bytes 0x402D00 b m | None => m end.

Definition with_rax (v : Z) (r : vregs.t) : vregs.t :=
  vregs.mk v (vregs.rbx r) (vregs.rcx r) (vregs.rdx r) (vregs.rsi r) (vregs.rdi r) (vregs.r8 r) (vregs.r9 r) (vregs.r10 r) (vregs.r11 r)
    (vregs.r12 r) (vregs.r13 r) (vregs.r14 r) (vregs.r15 r) (vregs.rsp r) (vregs.rbp r) (vregs.rip r) 2 (vregs.cr0 r) (vregs.cr2 r)
    (vregs.cr3 r) (vregs.cr4 r) (vregs.cr8 r) (vregs.efer r) (vregs.cs r) (vregs.ds r) (vregs.ss r) (vregs.es r) (vregs.fs r) (vregs.gs r)
    (vregs.ldtr r) (vregs.tr r) (vregs.gdtr r) (vregs.idtr r).
Definition bios_regs_example (n : Z) (r : vregs.t) (m : bmem) : vregs.t :=
  with_rax (if (vregs.rax r =? 0x4f01) && negb (vregs.rcx r =? 0x118) then 0x14F else 0x4F) r.

Definition sim_vctl (cmd vcpu p a3 a4 : Z) (w : sim) : res (Z * sim) :=
  if cmd =? virt.vCtlGetRegs then mret (0, mk_sim (s_guest w) (set_at p (s_guest w) (s_regs w)) (s_exits w) (s_mem w))
  else if cmd =? virt.vCtlSetRegs then mret (0, mk_sim (s_regs w p) (s_regs w) (s_exits w) (s_mem w))
  else mret (0, mk_sim (bios_regs_example 0 (s_guest w) (s_mem w)) (s_regs w) (set_at p exit_example (s_exits w))
                  (bios_mem_example 0 (s_guest w) (s_mem w))).

#[export] Instance sim_calls : Hypervisor sim := {|
  vctl := sim_vctl;
  vm_map size phys w := mret (0x500000, mk_sim (s_guest w) (s_regs w) (s_exits w)
    (fun a => if (0x500000 <=? a) && (a <? 0x501000) then 0 else s_mem w a));
  user_regs p w := s_regs w p; put_regs p r w := mk_sim (s_guest w) (set_at p r (s_regs w)) (s_exits w) (s_mem w);
  user_exit p w := s_exits w p; put_exit p x w := mk_sim (s_guest w) (s_regs w) (set_at p x (s_exits w)) (s_mem w);
  mem := s_mem; put_mem m w := mk_sim (s_guest w) (s_regs w) (s_exits w) m |}.

Lemma set_at_eq {A} p (v : A) f : set_at p v f p = v.
Proof. unfold set_at. by rewrite Z.eqb_refl. Qed.

#[export] Instance sim_guest : GuestLaws sim cpu_example bios_regs_example bios_mem_example.
Proof.
  exists s_guest.
  - done.
  - intros p r w. cbn. by rewrite set_at_eq.
  - done.
  - intros p w. eexists. split; [reflexivity |]. cbn. by rewrite set_at_eq.
  - intros p w. by eexists.
  - intros n p w _ _ _. eexists. split; [reflexivity |]. cbn. by rewrite set_at_eq.
Defined.

#[export] Instance sim_rom : VesaRom cpu_example (bios_regs := bios_regs_example) (bios_mem := bios_mem_example) (fun _ => 0) [0x101; 0x118] info_example.
Proof.
  split.
  - intros phys w _. eexists _, _. split; [reflexivity |]. cbn. split; intros i Hi.
    + by rewrite (proj2 (Z.leb_le _ _)), (proj2 (Z.ltb_lt _ _)) by lia.
    + by rewrite (proj2 (Z.leb_gt _ _)) by lia.
  - intros r m Ha Hd. unfold bios_regs_example, bios_mem_example, answered. rewrite Ha. cbn [Z.eqb Pos.eqb andb]. split; [reflexivity |].
    left. split_and!; [vm_compute; discriminate | vm_compute; discriminate |].
    intros i c Hi. do 6 (destruct i as [| i]; [injection Hi as <-; reflexivity |]). discriminate Hi.
  - intros r m Ha Hd. unfold bios_regs_example, bios_mem_example, answered, info_example. rewrite Ha. destruct (vregs.rcx r =? 0x118); [| done].
    split; [reflexivity |]. apply put_bytes_at.
  - intros mode b. unfold info_example. destruct (_ =? _); [| done]. by intros [= <-].
  - by_compute.
Defined.

Notation sim_intn := (rm_cpu.intn (W := sim) 0x7000 0x7100 regs_example exit_example 4 cpu_example).

Definition sim_example : sim := mk_sim regs_example (fun _ => regs_example) (fun _ => exit_example) (fun _ => 0).

Lemma intn_runs_handler_witness : exists w',
  sim_intn 0x10 (vbe.set_ax 0x4f15 zero_rm) sim_example = Ret (mk_rm 2 0 0 0 0 0 0 0x4F, w') /\
  s_guest w' = bios_regs_example 0x10 (rm_cpu.call_regs (vbe.set_ax 0x4f15 zero_rm) regs_example) (fun _ => 0).
Proof.
  destruct (intn_runs_handler cpu_example 0x7000 0x7100 regs_example exit_example 3 0x10 (vbe.set_ax 0x4f15 zero_rm) sim_example) as (w' & E & G & _).
  exists w'. split; [exact E | exact G].
Defined.

Lemma vbe_init_lists_modes_witness : exists w',
  vbe.init sim_intn cpu_example 3 (vbe.mk [] false) sim_example =
    Ret (true, vbe.mk [(0x101, vbe.zero_block 256); (0x118, mode_example)] true, w').
Proof. apply (vbe_init_lists_modes cpu_example sim_intn (fun _ => 0) [0x101; 0x118] info_example 3). cbn. lia. Defined.

Lemma vbe_set_mode_picks_witness :
  vbe.set_mode sim_intn 1024 768 32 (vbe.mk (found info_example <$> [0x101; 0x118]) true) sim_example =
    ('(_, w') ← sim_intn 0x10 (mk_rm 0 0 0 0 0 0 0x4118 0x4f02) sim_example; Ret (0x118, w')) /\
  vbe.set_mode sim_intn 800 600 32 (vbe.mk (found info_example <$> [0x101; 0x118]) true) sim_example = Ret (0xFFFF, sim_example).
Proof. split; (etransitivity; [apply vbe_set_mode_picks; discriminate | reflexivity]). Defined.

Definition edid_example : vbe.block := replicate 54 0 ++ [0; 0; 0x80; 0x18; 0x71; 0x38; 0x2D; 0x40] ++ replicate 66 0.

Lemma native_res_roundtrip_witness : vbe.get_display_native_res edid_example = (1920, 1080).
Proof. apply (native_res_roundtrip edid_example 1920 1080 1 0); (lia || reflexivity). Defined.

(** A thread whose handle 0 is a ring. *)
Definition ring_cat_example : handles.handle_catalogue :=
  match handles.push 0x900 handles.create with Ret (_, c) => c | _ => handles.create end.
Definition kworld_example : kworld (S := pmm.state) :=
  mk_kworld ring_cat_example
    (virt.mk (virt.kern virt_example) host_example ∅ ∅ {[ 0x900 := handles.ipc_ring_handle 0x180 ]} (fun _ => regs_example) (fun _ => exit_example))
    (fun _ => 0).

Lemma rm_cpu_needs_first_handle_witness : forall r w',
  rm_cpu.create (H := kernel_calls vmrun_example pmm.alloc_n_blocks 0 (0, 0) 0x300 (fun _ => 0xA00) (fun _ _ w => Ret (0x400000, w))) kworld_example
    <> Ret (r, w').
Proof.
  apply (rm_cpu_needs_first_handle vmrun_example pmm.alloc_n_blocks 0 (0, 0) 0x300 (fun _ => 0xA00) (fun _ _ w => Ret (0x400000, w)) 0x900
    (handles.ipc_ring_handle 0x180)); [discriminate | discriminate | | discriminate | reflexivity | by intros a b w v w' [= <- <-]].
  destruct (handle_push_ok handles.create [] 0x900 create_catalogue_ok eq_refl) as (c & E & OK). unfold first_handle, kworld_example, ring_cat_example.
  rewrite E. cbn [k_cat k_state virt.objs]. split_and!; [by eexists | reflexivity |].
  unfold handles.push in E. destruct (hash_map.push_back _ _ _ _); try discriminate E. injection E as <-. reflexivity.
Defined.
