(* ===== verification/Xhci.v ===== *)
(** * Xhci: the driver for USB 3 host controllers

    Models src/drivers/usb/xhci (xhci.cpp, xhci.hpp, trb.hpp, context.hpp) and the
    packets of src/drivers/usb/usb.hpp: the registers and structures with their
    layout, the rings, commands with their completions, control transfers, the
    ports and the constructor that brings the controller up.

    The controller, the memory it shares with the driver, the calls of the kernel
    and the passing of time are one parameter, [XhciHw].  Shared memory consists of
    32-bit words at physical addresses; a pointer of the driver into a region is
    its virtual address, from which the place in the region is computed.  What the
    protocol promises of the controller is stated with the theorems that rely on
    it.  The output to the console is left out. *)

From S2P Require Import Prelude Bits Fields.

(** ** Registers *)

Module xhci_regs.
Definition hci_version_t : layout := [("subminor", 4); ("minor", 4); ("major", 8)].
Definition hcs_params_1_t : layout := [("max_slots", 8); ("n_irqs", 11); ("reserved", 5); ("max_ports", 8)].
Definition hcs_params_2_t : layout :=
  [("iso_sheduling_threshold", 4); ("erst_max", 4); ("reserved", 13); ("max_scratchpad_hi", 5);
   ("scratchpad_restore", 1); ("max_scratchpad_low", 5)].
Definition hcs_params_3_t : layout :=
  [("u1_device_exit_latency", 8); ("reserved", 8); ("u2_device_exit_latency", 16)].
Definition hcc_params_1_t : layout :=
  [("addressing_64", 1); ("bw_negotiation", 1); ("context_size", 1); ("port_power_control", 1);
   ("port_indicators", 1); ("light_hc_reset", 1); ("latency_tolerance_messaging", 1); ("no_secondary_sid", 1);
   ("parse_all_event_data", 1); ("short_packed", 1); ("stopped_edtla", 1); ("contiguous_frame_id", 1);
   ("max_psa_size", 4); ("extended_cap_ptr", 16)].
Definition usbcmd : layout :=
  [("run", 1); ("reset", 1); ("irq_enable", 1); ("host_system_error_enable", 1); ("reserved", 3);
   ("light_host_controller_reset", 1); ("controller_save_state", 1); ("controller_restore_state", 1);
   ("enable_wrap_event", 1); ("enable_u3_stop", 1); ("reserved_0", 1); ("cem_enable", 1); ("ext_tbc_enable", 1);
   ("ext_tbc_status_enable", 1); ("vtio_enable", 1); ("reserved_1", 15)].
Definition usbsts : layout :=
  [("halted", 1); ("reserved", 1); ("host_system_error", 1); ("event_irq", 1); ("port_change", 1); ("reserved_0", 3);
   ("save_state_status", 1); ("restore_state_status", 1); ("save_restore_error", 1); ("controller_not_ready", 1);
   ("host_controller_error", 1)].
Definition crcr : layout :=
  [("ring_cycle_state", 1); ("command_stop", 1); ("command_abort", 1); ("command_ring_running", 1); ("reserved", 2);
   ("command_ring_ptr", 58)].
Definition config_reg : layout :=
  [("slot_enable", 8); ("u3_entry_enable", 1); ("configuration_info_enable", 1); ("reserved", 22)].
Definition control_reg : layout :=
  [("connect_status", 1); ("enabled", 1); ("reserved", 1); ("over_current_active", 1); ("port_reset", 1);
   ("port_link_state", 4); ("port_power", 1); ("port_speed", 4); ("port_indicator_control", 2);
   ("port_link_state_write_strobe", 1); ("connect_status_change", 1); ("port_enabled_change", 1);
   ("warm_port_reset_change", 1); ("over_current_change", 1); ("port_reset_change", 1);
   ("port_link_state_change", 1); ("port_config_error_change", 1); ("cold_attach_status", 1);
   ("wake_on_connect_enable", 1); ("wake_on_disconnect_enable", 1); ("wake_on_over_current_enable", 1);
   ("reserved_0", 2); ("device_removable", 1); ("warm_port_reset", 1)].
Definition iman_t : layout := [("irq_pending", 1); ("irq_enable", 1); ("reserved", 30)].
Definition imod_t : layout := [("interval", 16); ("counter", 16)].
Definition erst_size_t : layout := [("size", 16); ("reserved", 16)].
Definition erst_dequeue_t : layout := [("segment_index", 3); ("event_handler_busy", 1); ("dequeue", 60)].
Definition doorbell_reg : layout := [("target", 8); ("reserved", 8); ("task_id", 16)].
Definition capability_reg : layout :=
  [("cap_id", 8); ("next_cap", 8); ("bios_owned_semaphore", 1); ("reserved", 7); ("os_owned_semaphore", 1);
   ("reserved_1", 7)].
Definition version_t : layout := [("cap_id", 8); ("next", 8); ("minor_rev", 8); ("major_rev", 8)].
Definition name_t : layout := [("name_string", 32)].
Definition ports_info_t : layout :=
  [("compatible_port_offset", 8); ("compatible_port_count", 8); ("protocol_defined", 12);
   ("protocol_speed_id_count", 4)].
Definition slot_type_t : layout := [("protocol_slot_type", 5); ("reserved", 27)].

(** The register blocks. *)
Definition cap_regs : layout :=
  [("cap_length", 8); ("reserved", 8); ("hci_version", 16); ("hcs_params", 96); ("hcc_params_1", 32);
   ("doorbell_offset", 32); ("runtime_offset", 32); ("hcc_params_2", 32)].
Definition operational_regs : layout :=
  [("command", 32); ("status", 32); ("page_size", 32); ("reserved", 64); ("notification_control", 32);
   ("command_ring_control", 64); ("reserved_0", 128); ("device_context_base", 64); ("config", 32);
   ("reserved_1", 8 * 0x3C4); ("ports", 0xFF * 128)].
Definition port_regs : layout := [("control", 32); ("power_management", 32); ("link_info", 32); ("lpm_control", 32)].
Definition runtime_regs : layout := [("microframe_index", 32); ("reserved", 8 * 0x1C); ("interrupter", 1024 * 256)].
Definition interrupter_t : layout :=
  [("iman", 32); ("imod", 32); ("erst_size", 32); ("reserved", 32); ("erst_base", 64); ("erst_dequeue", 64)].
Definition event_ring_segment_table_entry : layout := [("base", 64); ("size", 16); ("reserved", 16); ("reserved_0", 32)].
Definition supported_protocol_cap : layout := [("version", 32); ("name", 32); ("ports_info", 32); ("slot_type", 32)].

Definition speedFull : Z := 1.
Definition speedLow : Z := 2.
Definition speedHi : Z := 3.
Definition speedSuper : Z := 4.
End xhci_regs.

(** ** Transfer request blocks *)

Module trb.
Definition setupStage : Z := 2.
Definition dataStage : Z := 3.
Definition statusStage : Z := 4.
Definition link : Z := 6.
Definition enableSlotCommand : Z := 9.
Definition addressDeviceCommand : Z := 11.
Definition configureEndpointCommand : Z := 12.
Definition transferEvent : Z := 32.
Definition commandCompletionEvent : Z := 33.
Definition portStatusChangeEvent : Z := 34.

Definition success : Z := 1.

Definition setup_stage_trb : layout :=
  [("bmRequestType", 8); ("bRequest", 8); ("wValue", 16); ("wIndex", 16); ("wLength", 16); ("trb_transfer_len", 16);
   ("reserved", 7); ("interrupter", 9); ("cycle", 1); ("reserved_0", 4); ("irq_on_completion", 1);
   ("immediate_data", 1); ("reserved_1", 3); ("trb_type", 6); ("transfer_type", 2); ("reserved_2", 14)].
Definition data_stage_trb : layout :=
  [("data_ptr", 64); ("transfer_len", 16); ("td_size", 7); ("interrupter", 9); ("cycle", 1);
   ("evaluate_next_trb", 1); ("irq_on_short_packet", 1); ("no_snoop", 1); ("chain", 1); ("irq_on_completion", 1);
   ("immediate_data", 1); ("reserved", 3); ("trb_type", 6); ("direction", 1); ("reserved_0", 15)].
Definition status_stage_trb : layout :=
  [("reserved", 64); ("reserved_0", 22); ("interrupter", 10); ("cycle", 1); ("evaluate_next_trb", 1);
   ("reserved_1", 2); ("chain", 1); ("irq_on_completion", 1); ("reserved_2", 4); ("trb_type", 6); ("direction", 1);
   ("reserved_3", 15)].
Definition command_completion_event_trb : layout :=
  [("trb_ptr", 64); ("parameter", 24); ("code", 8); ("cycle", 1); ("reserved", 9); ("trb_type", 6); ("vfid", 8);
   ("slot_id", 8)].
Definition transfer_completion_event_trb : layout :=
  [("trb_ptr", 64); ("trb_transfer_length", 24); ("code", 8); ("cycle", 1); ("reserved", 1); ("event_data", 1);
   ("reserved_0", 7); ("trb_type", 6); ("endpoint_id", 5); ("reserved_1", 3); ("slot_id", 8)].
Definition noop_command_trb : layout :=
  [("reserved_1", 96); ("cycle", 1); ("reserved", 9); ("trb_type", 6); ("reserved_0", 16)].
Definition enable_slot_command_trb : layout :=
  [("reserved", 96); ("cycle", 1); ("reserved_0", 9); ("trb_type", 6); ("slot_type", 5); ("reserved_1", 11)].
Definition disable_slot_command_trb : layout :=
  [("reserved_1", 96); ("cycle", 1); ("reserved", 9); ("trb_type", 6); ("reserved_0", 8); ("slot_id", 8)].
Definition address_device_command_trb : layout :=
  [("in_ctx_ptr", 64); ("reserved", 32); ("cycle", 1); ("reserved_0", 8); ("block_set_address_req", 1);
   ("trb_type", 6); ("reserved_1", 8); ("slot_id", 8)].
Definition configure_ep_trb : layout :=
  [("in_ctx_ptr", 64); ("reserved", 32); ("cycle", 1); ("reserved_0", 8); ("deconfigure", 1); ("trb_type", 6);
   ("reserved_1", 8); ("slot_id", 8)].
Definition link_trb : layout :=
  [("ring_segment_ptr", 64); ("reserved", 22); ("interrupter_target", 10); ("cycle", 1); ("toggle_cycle", 1);
   ("reserved_0", 2); ("chain", 1); ("irq_on_completion", 1); ("reserved_1", 4); ("trb_type", 6); ("reserved_2", 16)].
Definition raw_trb : layout :=
  [("reserved_1", 96); ("cycle", 1); ("reserved", 9); ("trb_type", 6); ("reserved_0", 16)].
End trb.

(** ** Contexts and packets *)

Module xhci_context.
Definition slot_context : layout :=
  [("route_string", 20); ("speed", 4); ("reserved", 1); ("multi_tt", 1); ("hub", 1); ("context_entries", 5);
   ("max_exit_latency", 16); ("root_hub_port_number", 8); ("number_of_ports", 8); ("parent_hub_slot_id", 8);
   ("parent_port_number", 8); ("tt_think_time", 2); ("reserved_0", 4); ("interrupter_target", 10);
   ("usb_device_address", 8); ("reserved_1", 19); ("slot_state", 5); ("reserved_2", 128)].
Definition ep_context : layout :=
  [("ep_state", 3); ("reserved", 5); ("mult", 2); ("max_primary_streams", 5); ("linear_stream_array", 1);
   ("interval", 8); ("max_esit_payload_hi", 8); ("reserved_0", 1); ("error_count", 2); ("endpoint_type", 3);
   ("reserved_1", 1); ("host_initiate_disable", 1); ("max_burst_size", 8); ("max_packet_size", 16);
   ("tr_dequeue_ptr", 64); ("average_trb_len", 16); ("max_esit_payload_low", 16); ("reserved_3", 128)].
Definition input_control_ctx : layout := [("drop_flags", 32); ("add_flags", 32); ("reserved", 192)].

Definition epTypeControlBi : Z := 4.
End xhci_context.

Module usb.
Definition requestDirectionDeviceToHost : Z := Z.shiftl 1 7.
Definition requestGetDescriptor : Z := 6.
Definition descriptorTypeString : Z := 3.

Record packet := mk_packet { request_type : Z; request : Z; value : Z; index : Z; length : Z }.

Definition device_descriptor : layout :=
  [("length", 8); ("descriptor_type", 8); ("usb_version", 16); ("device_class", 8); ("device_sub_class", 8); ("protocol", 8);
   ("max_packet_size", 8); ("vendor_id", 16); ("product_id", 16); ("device_release", 16); ("manufacturer", 8); ("product", 8);
   ("serial_number", 8); ("num_configs", 8)].
Definition sizeof_device_descriptor : Z := layout_size device_descriptor / 8.
Definition sizeof_string_unicode_descriptor : Z := 2 + (256 - 2) / 2 * 2.
End usb.

(** ** The controller and its surroundings *)

(** Accesses to the registers, by offset from the start of the window, which may
    take time and have effects; the words of shared memory; the call that waits for
    an interrupt; the configuration space; a new region of shared memory (physical
    and virtual address); and delays. *)
Class XhciHw (D : Type) := {
  rd32 : Z -> D -> Z * D;
  wr32 : Z -> Z -> D -> D;
  wr64 : Z -> Z -> D -> D;
  dma : D -> Z -> Z;
  dma_write : Z -> Z -> D -> D;
  wait_irq : D -> D;
  pci_read : Z -> Z -> D -> Z * D;
  pci_write : Z -> Z -> Z -> D -> D;
  get_phys_region : Z -> D -> option (Z * Z) * D;
  enable_irq : D -> D;
  delay : Z -> D -> D
}.

Module xhci.
Import xhci_regs trb xhci_context.
Section driver.
Context {D : Type} `{HW : XhciHw D}.

(** *** Shared structures *)

(** The assignment of a member of a structure in shared memory: a field of one word,
    or two words. *)
Definition put_member (base : Z) (l : layout) (name : string) (x : Z) (d : D) : D :=
  let '(lo, n) := find_field l name 0 in
  if n =? 64 then dma_write (base + lo / 8 + 4) (bits 32 32 x) (dma_write (base + lo / 8) (bits 0 32 x) d)
  else let a := base + 4 * (lo / 32) in dma_write a (set_bits (lo mod 32) n x (dma d a)) d.

(** The request block at a physical address. *)
Definition read_trb (p : Z) (d : D) : Z :=
  dma d p + 2 ^ 32 * dma d (p + 4) + 2 ^ 64 * dma d (p + 8) + 2 ^ 96 * dma d (p + 12).
Definition write_trb (p v : Z) (d : D) : D :=
  dma_write (p + 12) (bits 96 32 v) (dma_write (p + 8) (bits 64 32 v) (dma_write (p + 4) (bits 32 32 v) (dma_write p (bits 0 32 v) d))).

(** *** Rings *)

Inductive ring_type := ringTypeCommand | ringTypeTransfer | ringTypeEvent.

Record tlb_ring := mk_ring {
  type : ring_type; n_entries : Z; entries : Z; ring_phys : Z; enqueue : Z; dequeue : Z; cycle : Z }.

Definition set_enqueue (e c : Z) (r : tlb_ring) : tlb_ring := mk_ring (type r) (n_entries r) (entries r) (ring_phys r) e (dequeue r) c.
Definition set_dequeue (e c : Z) (r : tlb_ring) : tlb_ring := mk_ring (type r) (n_entries r) (entries r) (ring_phys r) (enqueue r) e c.

(** The physical address behind a pointer into the ring. *)
Definition phys_of (ptr : Z) (r : tlb_ring) : Z := ring_phys r + (ptr - entries r).

(** The link at the end of the ring. *)
Definition write_link (r : tlb_ring) (d : D) : D :=
  let p := phys_of (entries r + 16 * (n_entries r - 1)) r in
  let d := write_trb p 0 d in
  let d := put_member p link_trb "ring_segment_ptr" (ring_phys r) d in
  let d := put_member p link_trb "cycle" 1 d in
  put_member p link_trb "trb_type" link d.

(** The constructor; without memory the members stay uninitialised. *)
Definition make_ring (n : Z) (ty : ring_type) (d : D) : option tlb_ring * D :=
  match get_phys_region (u64 (n * 16)) d with
  | (None, d) => (None, d)
  | (Some (phys, virt), d) =>
      let r := mk_ring ty n virt phys virt virt 1 in
      (Some r, match ty with ringTypeEvent => d | _ => write_link r d end)
  end.

(** [cycle ^= cycle] at the wrap-around. *)
Definition get_trb (r : tlb_ring) (d : D) : Z * Z * tlb_ring * D :=
  let enq := enqueue r in
  let index := u64 (u64 (enq - entries r) / 16 + 1) in
  if index =? u64 (n_entries r - 1) then (enq, u64 (index - 1), set_enqueue (entries r) (Z.lxor (cycle r) (cycle r)) r, write_link r d)
  else (enq, u64 (index - 1), set_enqueue (u64 (enq + 16)) (cycle r) r, d).

Definition ring_size : Z := 0x1000.

(** [trb_event] and the map of them; a missing entry is created as zeroes. *)
Record trb_event := mk_event { ev_trb : Z; finished : bool }.
Definition event_at (i : Z) (e : gmap Z trb_event) : trb_event := default (mk_event 0 false) (e !! i).

(** [enqueue_trb]. *)
Definition enqueue_trb (t : Z) (first : bool) (r : tlb_ring) (d : D) : Z * tlb_ring * D :=
  let '(entry, index, r, d) := get_trb r d in
  let p := phys_of entry r in
  let d := write_trb p t d in
  let d := if first then d
           else let state := if Z.land (dma d (p + 12)) 1 =? 0 then 1 else 0 in
                dma_write (p + 12) (Z.lor (dma d (p + 12)) state) d in
  (index, r, d).

(** *** The state of the driver *)

Record supported_protocol := mk_protocol { major : Z; minor : Z; port_offset : Z; port_count : Z; slot_type : Z }.

(** [protocol] points to an element of [supported_protocols]; [in_ctx] and [out_ctx]
    are the physical addresses of the contexts. *)
Record port := mk_port {
  protocol : option nat; offset : Z; active : bool; has_pair : bool; other_port_num : Z; slot_id : Z; packet_size : Z; speed : Z;
  in_ctx : option Z; out_ctx : option Z; command : option tlb_ring; port_events : gmap Z trb_event }.

Record controller := mk_controller {
  operation : Z; runtime : Z; doorbells : Z; supported_protocols : list supported_protocol; ports : list port;
  port_by_slot_id : gmap Z nat; page_size : Z; n_scratchpads : Z; n_ports : Z; context_size : Z; dcbaap : Z;
  cmd_ring : tlb_ring; cmd_events : gmap Z trb_event; evt_ring : tlb_ring; quirks : Z }.

Definition set_cmd (r : tlb_ring) (e : gmap Z trb_event) (c : controller) : controller :=
  mk_controller (operation c) (runtime c) (doorbells c) (supported_protocols c) (ports c) (port_by_slot_id c) (page_size c)
    (n_scratchpads c) (n_ports c) (context_size c) (dcbaap c) r e (evt_ring c) (quirks c).
Definition set_evt (r : tlb_ring) (c : controller) : controller :=
  mk_controller (operation c) (runtime c) (doorbells c) (supported_protocols c) (ports c) (port_by_slot_id c) (page_size c)
    (n_scratchpads c) (n_ports c) (context_size c) (dcbaap c) (cmd_ring c) (cmd_events c) r (quirks c).
Definition set_ports (l : list port) (m : gmap Z nat) (c : controller) : controller :=
  mk_controller (operation c) (runtime c) (doorbells c) (supported_protocols c) l m (page_size c)
    (n_scratchpads c) (n_ports c) (context_size c) (dcbaap c) (cmd_ring c) (cmd_events c) (evt_ring c) (quirks c).
Definition upd_port (i : nat) (f : port -> port) (c : controller) : controller := set_ports (alter f i (ports c)) (port_by_slot_id c) c.

Definition set_command (r : tlb_ring) (e : gmap Z trb_event) (p : port) : port :=
  mk_port (protocol p) (offset p) (active p) (has_pair p) (other_port_num p) (slot_id p) (packet_size p) (speed p) (in_ctx p) (out_ctx p) (Some r) e.
Definition set_active (b : bool) (p : port) : port :=
  mk_port (protocol p) (offset p) b (has_pair p) (other_port_num p) (slot_id p) (packet_size p) (speed p) (in_ctx p) (out_ctx p) (command p) (port_events p).
Definition set_pair (n : Z) (p : port) : port :=
  mk_port (protocol p) (offset p) (active p) true n (slot_id p) (packet_size p) (speed p) (in_ctx p) (out_ctx p) (command p) (port_events p).
Definition set_protocol (k : nat) (n : Z) (p : port) : port :=
  mk_port (Some k) n (active p) (has_pair p) (other_port_num p) (slot_id p) (packet_size p) (speed p) (in_ctx p) (out_ctx p) (command p) (port_events p).
Definition set_speed (v : Z) (size : Z) (p : port) : port :=
  mk_port (protocol p) (offset p) (active p) (has_pair p) (other_port_num p) (slot_id p) size v (in_ctx p) (out_ctx p) (command p) (port_events p).
Definition set_slot (s : Z) (i o : option Z) (r : option tlb_ring) (p : port) : port :=
  mk_port (protocol p) (offset p) (active p) (has_pair p) (other_port_num p) s (packet_size p) (speed p) i o r ∅.

(** The registers of the three blocks. *)
Definition op_reg (name : string) (c : controller) : Z := operation c + offset_of operational_regs name.
Definition port_reg (i : Z) (c : controller) : Z := op_reg "ports" c + 16 * i + offset_of port_regs "control".
Definition irq_reg (name : string) (c : controller) : Z := runtime c + offset_of runtime_regs "interrupter" + offset_of interrupter_t name.

(** *** Events and commands *)

(** The conversion to [int]. *)
Definition s32 (x : Z) : Z := let y := u32 x in if y <? 2 ^ 31 then y else y - 2 ^ 32.

(** The switch on the type of an event. *)
Definition handle_event (ev : Z) (c : controller) : res controller :=
  let ty := getf raw_trb "trb_type" ev in
  if ty =? transferEvent then
    if getf transfer_completion_event_trb "endpoint_id" ev =? 1 then
      i ← access (port_by_slot_id c !! getf transfer_completion_event_trb "slot_id" ev);
      p ← access (ports c !! i);
      r ← access (command p);
      let index := u64 (getf transfer_completion_event_trb "trb_ptr" ev - ring_phys r) / 0x10 in
      let index := if index =? 0xfe then u64 (-1) else index in
      mret (upd_port i (set_command r (<[u64 (index + 1) := mk_event ev true]> (port_events p))) c)
    else mret c
  else if ty =? commandCompletionEvent then
    let index := s32 (u64 (getf command_completion_event_trb "trb_ptr" ev - ring_phys (cmd_ring c)) / 0x10) in
    mret (set_cmd (cmd_ring c) (<[u64 index := mk_event ev true]> (cmd_events c)) c)
  else mret c.

(** Past the event at the dequeue pointer: the value for the register and the
    ring. *)
Definition advance (r : tlb_ring) : Z * tlb_ring :=
  let dq := u64 (dequeue r + 16) in
  let index := u64 (dq - entries r) in
  (u64 (ring_phys r + index mod 0x1000),
   if index mod 4096 =? 0 then set_dequeue (entries r) (if cycle r =? 0 then 1 else 0) r else set_dequeue dq (cycle r) r).

Fixpoint event_loop (fuel : nat) (deq : Z) (c : controller) (d : D) : res (Z * controller) :=
  match fuel with
  | O => NoFuel
  | S fuel =>
      let ev := read_trb (phys_of (dequeue (evt_ring c)) (evt_ring c)) d in
      if getf raw_trb "cycle" ev =? cycle (evt_ring c) then
        c ← handle_event ev c;
        let '(deq, r) := advance (evt_ring c) in
        event_loop fuel deq (set_evt r c) d
      else mret (deq, c)
  end.

Definition handle_irq (fuel : nat) (c : controller) (d : D) : res (controller * D) :=
  let d := wait_irq d in
  '(deq, c) ← event_loop fuel 0 c d;
  let '(iman, d) := rd32 (irq_reg "iman" c) d in
  let d := wr32 (irq_reg "iman" c) (Z.lor iman 1) d in
  mret (c, wr64 (irq_reg "erst_dequeue" c) (Z.lor deq (Z.shiftl 1 3)) d).

(** [while(!cmd_ring.events[index].finished)]. *)
Fixpoint wait_command (rounds fuel : nat) (index : Z) (c : controller) (d : D) : res (Z * controller * D) :=
  let e := event_at index (cmd_events c) in
  if finished e then mret (ev_trb e, c, d)
  else
    match rounds with
    | O => NoFuel
    | S rounds => '(c, d) ← handle_irq fuel c d; wait_command rounds fuel index c d
    end.

Definition send_command (rounds fuel : nat) (t : Z) (c : controller) (d : D) : res (Z * controller * D) :=
  let '(index, r, d) := enqueue_trb t false (cmd_ring c) d in
  let d := wr32 (doorbells c) 0 d in
  wait_command rounds fuel index (set_cmd r (cmd_events c) c) d.

(** *** Control transfers *)

(** [state | (data[3] & ~1)] with the other cycle state. *)
Definition toggle_cycle (p : Z) (d : D) : D :=
  let w := dma d (p + 12) in
  let state := if Z.land w 1 =? 0 then 1 else 0 in
  dma_write (p + 12) (Z.lor state (Z.land w (u32 (Z.lnot 1)))) d.

Definition dma_byte (a : Z) (d : D) : Z := bits (8 * (a mod 4)) 8 (dma d (a - a mod 4)).
Definition put_byte (a b : Z) (d : D) : D := dma_write (a - a mod 4) (set_bits (8 * (a mod 4)) 8 b (dma d (a - a mod 4))) d.

Fixpoint put_bytes (a : Z) (l : list Z) (d : D) : D := match l with [] => d | b :: l => put_bytes (a + 1) l (put_byte a b d) end.
Definition get_bytes (a n : Z) (d : D) : list Z := (fun i => dma_byte (a + i) d) <$> seqZ 0 n.

Definition fill_setup (p : Z) (k : usb.packet) (d : D) : D :=
  let put name x d := put_member p setup_stage_trb name x d in
  let d := put "trb_type" setupStage d in
  let d := put "bmRequestType" (usb.request_type k) d in
  let d := put "bRequest" (usb.request k) d in
  let d := put "wValue" (usb.value k) d in
  let d := put "wIndex" (usb.index k) d in
  let d := put "wLength" (usb.length k) d in
  let d := put "trb_transfer_len" 8 d in
  let d := put "transfer_type" 3 d in
  let d := put "immediate_data" 1 d in
  toggle_cycle p d.

Definition fill_data (p phys : Z) (k : usb.packet) (write : bool) (d : D) : D :=
  let put name x d := put_member p data_stage_trb name x d in
  let d := put "trb_type" dataStage d in
  let d := put "data_ptr" phys d in
  let d := put "transfer_len" (usb.length k) d in
  let d := put "direction" (if write then 0 else 1) d in
  toggle_cycle p d.

Definition fill_status (p : Z) (write : bool) (d : D) : D :=
  let put name x d := put_member p status_stage_trb name x d in
  let d := put "trb_type" statusStage d in
  let d := put "irq_on_completion" 1 d in
  let d := put "direction" (if write then 0 else 1) d in
  toggle_cycle p d.

(** The data stage: the physical address of the buffer, or 0 without data. *)
Definition data_stage (k : usb.packet) (data : list Z) (write : bool) (r : tlb_ring) (d : D) : option (Z * tlb_ring) * D :=
  if usb.length k =? 0 then (Some (0, r), d)
  else
    match get_phys_region (usb.length k) d with
    | (None, d) => (None, d)
    | (Some (phys, _), d) =>
        let d := if write then put_bytes phys (take (Z.to_nat (usb.length k)) data) d else d in
        let '(entry, _, r, d) := get_trb r d in
        (Some (phys, r), fill_data (phys_of entry r) phys k write d)
    end.

Fixpoint wait_transfer (rounds fuel : nat) (i : nat) (index : Z) (c : controller) (d : D) : res (controller * D) :=
  p ← access (ports c !! i);
  if finished (event_at index (port_events p)) then mret (c, d)
  else
    match rounds with
    | O => NoFuel
    | S rounds => '(c, d) ← handle_irq fuel c d; wait_transfer rounds fuel i index c d
    end.

(** The bytes that were read; [None] when there was no memory. *)
Definition send_control (rounds fuel : nat) (i : nat) (k : usb.packet) (data : list Z) (write : bool) (c : controller) (d : D)
  : res (option (list Z) * controller * D) :=
  p ← access (ports c !! i);
  r ← access (command p);
  let '(entry, _, r, d) := get_trb r d in
  let d := fill_setup (phys_of entry r) k d in
  match data_stage k data write r d with
  | (None, d) => mret (None, upd_port i (set_command r (port_events p)) c, d)
  | (Some (phys, r), d) =>
      let '(entry, _, r, d) := get_trb r d in
      let d := fill_status (phys_of entry r) write d in
      let index := u32 (u64 (enqueue r - entries r) / 0x10) in
      let d := wr32 (doorbells c + 4 * slot_id p) 1 d in
      '(c, d) ← wait_transfer rounds fuel i index (upd_port i (set_command r (port_events p)) c) d;
      mret (Some (if write then [] else get_bytes phys (usb.length k) d), c, d)
  end.

(** *** Ports *)

(** The loop over the protocols of one major revision; [n] counts their ports. *)
Definition assign_ports (rev : Z) (c : controller) : res controller :=
  r ← for_loop (length (supported_protocols c)) 0 (fun k '(n, l) =>
    p ← access (supported_protocols c !! Z.to_nat k);
    if major p =? rev then
      for_loop (Z.to_nat (port_count p)) 0 (fun i '(n, l) =>
        let j := Z.to_nat (u64 (port_offset p + i)) in
        _ ← access (l !! j);
        mret (u32 (n + 1), alter (set_protocol (Z.to_nat k) n) j l)) (n, l)
    else mret (n, l)) (0, ports c);
  mret (set_ports r.2 (port_by_slot_id c) c).

Definition pair_up (i j : nat) (l : list port) : res (list port) :=
  a ← access (l !! i);
  b ← access (l !! j);
  if (offset a =? offset b) && negb (bool_decide (protocol a = protocol b))
  then mret (alter (set_pair (Z.of_nat i)) j (alter (set_pair (Z.of_nat j)) i l))
  else mret l.

Definition pair_ports (n : nat) (l : list port) : res (list port) :=
  for_loop n 0 (fun i l => for_loop n 0 (fun j l => pair_up (Z.to_nat i) (Z.to_nat j) l) l) l.

(** [ports[i].protocol->major]. *)
Definition port_major (p : port) (c : controller) : res Z :=
  k ← access (protocol p); x ← access (supported_protocols c !! k); mret (major x).

Definition activate_ports (c : controller) : res controller :=
  for_loop (Z.to_nat (n_ports c)) 0 (fun i c =>
    p ← access (ports c !! Z.to_nat i);
    m ← port_major p c;
    mret (if (m =? 3) || (m =? 2) && negb (has_pair p) then upd_port (Z.to_nat i) (set_active true) c else c)) c.

Definition setup_port_protocols (c : controller) : res controller :=
  c ← assign_ports 2 c;
  c ← assign_ports 3 c;
  l ← pair_ports (Z.to_nat (n_ports c)) (ports c);
  activate_ports (set_ports l (port_by_slot_id c) c).

(** The status bits that are cleared by writing ones, with the power bit. *)
Definition clear_changes : Z := Z.lor (Z.shiftl 1 9) (foldr (fun b x => Z.lor (Z.shiftl 1 b) x) 0 [17; 18; 20; 21; 22]).

Definition test32 (reg bit : Z) (d : D) : bool * D :=
  let '(v, d) := rd32 reg d in (negb (Z.land v (Z.shiftl 1 bit) =? 0), d).

(** [while(timeout)]: whether the reset finished in time. *)
Fixpoint wait_reset (timeout : nat) (reg : Z) (d : D) : bool * D :=
  match timeout with
  | O => (false, d)
  | S timeout =>
      let '(b, d) := test32 reg 21 d in
      if b then (true, d) else wait_reset timeout reg (delay 20000 d)
  end.

Definition power_port (reg : Z) (d : D) : bool * D :=
  let '(powered, d) := test32 reg 9 d in
  if powered then (true, d) else test32 reg 9 (delay 200000 (wr32 reg (Z.shiftl 1 9) d)).

Definition finish_reset (reg : Z) (in_time : bool) (d : D) : bool * D :=
  if in_time then
    let '(enabled, d) := test32 reg 1 (delay 30000 d) in
    if enabled then (true, wr32 reg clear_changes d) else (false, d)
  else (false, d).

Definition reset_port (i : nat) (c : controller) (d : D) : res (bool * controller * D) :=
  p ← access (ports c !! i);
  let reg := port_reg (Z.of_nat i) c in
  let '(powered, d) := power_port reg d in
  if negb powered then mret (false, c, d)
  else
    let d := wr32 reg clear_changes d in
    m ← port_major p c;
    if negb ((m =? 3) || (m =? 2)) then mret (false, c, d)
    else
      let d := wr32 reg (Z.lor (Z.shiftl 1 9) (Z.shiftl 1 (if m =? 3 then 31 else 4))) d in
      let '(in_time, d) := wait_reset 500 reg d in
      let '(ok, d) := finish_reset reg in_time d in
      let other := Z.to_nat (other_port_num p) in
      c ← (if ok && (m =? 2) then
             let c := upd_port i (set_active true) c in
             if has_pair p then _ ← access (ports c !! other); mret (upd_port other (set_active false) c) else mret c
           else if negb ok && (m =? 3) then
             _ ← access (ports c !! other);
             mret (upd_port other (set_active true) (upd_port i (set_active false) c))
           else mret c);
      mret (ok, c, d).

(** The two loops that reset the ports of one revision. *)
Definition reset_ports (rev : Z) (c : controller) (d : D) : res (controller * D) :=
  for_loop (Z.to_nat (n_ports c)) 0 (fun i '(c, d) =>
    p ← access (ports c !! Z.to_nat i);
    if active p then
      m ← port_major p c;
      if m =? rev then
        '(ok, c, d) ← reset_port (Z.to_nat i) c d;
        mret (upd_port (Z.to_nat i) (set_active ok) c, d)
      else mret (c, d)
    else mret (c, d)) (c, d).

(** A command on the stack: its constructor sets the type only, so that the other
    members have the bits that were there. *)
Definition fresh_trb (garbage : Z) (l : layout) (ty : Z) : Z := putf l "trb_type" ty garbage.

Definition enable_slot_cmd (garbage slot_ty : Z) : Z :=
  putf enable_slot_command_trb "slot_type" slot_ty (fresh_trb garbage enable_slot_command_trb enableSlotCommand).
Definition address_device_cmd (garbage slot ctx : Z) : Z :=
  putf address_device_command_trb "block_set_address_req" 0
    (putf address_device_command_trb "in_ctx_ptr" ctx
      (putf address_device_command_trb "slot_id" slot (fresh_trb garbage address_device_command_trb addressDeviceCommand))).
Definition configure_ep_cmd (garbage slot ctx : Z) : Z :=
  putf configure_ep_trb "in_ctx_ptr" ctx (putf configure_ep_trb "slot_id" slot (fresh_trb garbage configure_ep_trb configureEndpointCommand)).

Definition completion_code (t : Z) : Z := getf command_completion_event_trb "code" t.

(** The packet size of a speed; for full speed and unknown speeds it stays. *)
Definition packet_size_of (speed old : Z) : Z :=
  if speed =? speedLow then 8 else if speed =? speedHi then 64 else if speed =? speedSuper then 512 else old.

(** [in_context] and [out_context]: the physical address of the region. *)
Definition make_context (size : Z) (d : D) : option Z * D :=
  match get_phys_region size d with (Some (phys, _), d) => (Some phys, d) | (None, d) => (None, d) end.

(** The contexts of the input for [AddressDevice]. *)
Definition fill_contexts (ctx size i : Z) (p : port) (r : tlb_ring) (d : D) : D :=
  let d := put_member ctx input_control_ctx "add_flags" 0x3 d in
  let d := put_member ctx input_control_ctx "drop_flags" 0 d in
  let slot := ctx + size in
  let d := put_member slot slot_context "context_entries" 1 d in
  let d := put_member slot slot_context "speed" (speed p) d in
  let d := put_member slot slot_context "root_hub_port_number" (i + 1) d in
  let ep0 := ctx + size * 2 in
  let d := put_member ep0 ep_context "endpoint_type" epTypeControlBi d in
  let d := put_member ep0 ep_context "error_count" 3 d in
  let d := put_member ep0 ep_context "max_burst_size" 0 d in
  let d := put_member ep0 ep_context "max_packet_size" (packet_size p) d in
  let d := put_member ep0 ep_context "average_trb_len" 8 d in
  put_member ep0 ep_context "tr_dequeue_ptr" (Z.lor (ring_phys r) (cycle r)) d.

Context (rounds fuel : nat) (garbage : Z).

Definition get_descriptor_packet (value index length : Z) : usb.packet :=
  usb.mk_packet usb.requestDirectionDeviceToHost usb.requestGetDescriptor value index length.

(** [print_str]: the string is only printed. *)
Definition print_str (i : nat) (str : Z) (c : controller) (d : D) : res (controller * D) :=
  if str =? 0 then mret (c, d)
  else
    '(_, c, d) ← send_control rounds fuel i
      (get_descriptor_packet (Z.shiftl usb.descriptorTypeString 8 + str) 0x0409 usb.sizeof_string_unicode_descriptor) [] false c d;
    mret (c, d).

(** The device descriptor and its strings. *)
Definition read_device (i : nat) (c : controller) (d : D) : res (controller * D) :=
  '(bytes, c, d) ← send_control rounds fuel i (get_descriptor_packet (Z.shiftl 1 8) 0 usb.sizeof_device_descriptor) [] false c d;
  let desc := foldr (fun b v => b + 256 * v) 0 (default [] bytes) in
  '(c, d) ← print_str i (getf usb.device_descriptor "manufacturer" desc) c d;
  '(c, d) ← print_str i (getf usb.device_descriptor "product" desc) c d;
  print_str i (getf usb.device_descriptor "serial_number" desc) c d.

(** After [EnableSlot]: the contexts and the ring of the slot. *)
Definition address_device (i : nat) (c : controller) (d : D) : res (controller * D) :=
  p ← access (ports c !! i);
  r ← access (command p);
  ctx ← access (in_ctx p);
  out ← access (out_ctx p);
  let d := dma_write (dcbaap c + 8 * slot_id p + 4) (bits 32 32 out) (dma_write (dcbaap c + 8 * slot_id p) (bits 0 32 out) d) in
  let d := fill_contexts ctx (context_size c) (Z.of_nat i) p r d in
  '(t, c, d) ← send_command rounds fuel (address_device_cmd garbage (slot_id p) ctx) c d;
  if negb (completion_code t =? success) then mret (c, d)
  else
    let d := put_member ctx input_control_ctx "add_flags" 1 d in
    '(t, c, d) ← send_command rounds fuel (configure_ep_cmd garbage (slot_id p) ctx) c d;
    if negb (completion_code t =? success) then mret (c, d)
    else read_device i (set_ports (ports c) (<[slot_id p := i]> (port_by_slot_id c)) c) d.

(** The body of the last loop of [init_ports]. *)
Definition configure_port (i : nat) (c : controller) (d : D) : res (controller * D) :=
  p ← access (ports c !! i);
  if negb (active p) then mret (c, d)
  else
    let '(control, d) := rd32 (port_reg (Z.of_nat i) c) d in
    let v := getf control_reg "port_speed" control in
    let c := upd_port i (set_speed v (packet_size_of v (packet_size p))) c in
    k ← access (protocol p);
    x ← access (supported_protocols c !! k);
    '(t, c, d) ← send_command rounds fuel (enable_slot_cmd garbage (slot_type x)) c d;
    if negb (completion_code t =? success) then mret (c, d)
    else
      let '(ic, d) := make_context 0x1000 d in
      let '(oc, d) := make_context 0x1000 d in
      let '(r, d) := make_ring ring_size ringTypeTransfer d in
      address_device i (upd_port i (set_slot (getf command_completion_event_trb "slot_id" t) ic oc r) c) d.

Definition init_ports (c : controller) (d : D) : res (controller * D) :=
  c ← setup_port_protocols c;
  '(c, d) ← reset_ports 3 c d;
  '(c, d) ← reset_ports 2 c d;
  for_loop (Z.to_nat (n_ports c)) 0 (fun i '(c, d) => configure_port (Z.to_nat i) c d) (c, d).

(** *** The constructor *)

(** Poll a register until the field has the value. *)
Fixpoint poll (n : nat) (reg : Z) (l : layout) (name : string) (v : Z) (d : D) : res D :=
  match n with
  | O => NoFuel
  | S n => let '(x, d) := rd32 reg d in if getf l name x =? v then mret d else poll n reg l name v d
  end.

Context (patience : nat).

Definition stop_execution (c : controller) (d : D) : res D :=
  let '(cmd, d) := rd32 (op_reg "command" c) d in
  let d := wr32 (op_reg "command" c) (putf usbcmd "run" 0 cmd) d in
  let '(_, d) := rd32 (op_reg "status" c) d in
  poll patience (op_reg "status" c) usbsts "halted" 1 d.

Definition start_execution (c : controller) (d : D) : res D :=
  let '(cmd, d) := rd32 (op_reg "command" c) d in
  let d := wr32 (op_reg "command" c) (putf usbcmd "run" 1 cmd) d in
  let '(_, d) := rd32 (op_reg "status" c) d in
  poll patience (op_reg "status" c) usbsts "halted" 0 d.

Definition reset_controller (c : controller) (d : D) : res D :=
  let '(sts, d) := rd32 (op_reg "status" c) d in
  let '(cmd, d) := rd32 (op_reg "command" c) d in
  _ ← ASSERT (negb (getf usbsts "halted" sts =? 0)) "sts.halted";
  poll patience (op_reg "command" c) usbcmd "reset" 0 (wr32 (op_reg "command" c) (putf usbcmd "reset" 1 cmd) d).

Definition do_bios_os_handoff (reg : Z) (d : D) : res D :=
  let '(cap, d) := rd32 reg d in
  if getf capability_reg "bios_owned_semaphore" cap =? 0 then mret d
  else poll patience reg capability_reg "bios_owned_semaphore" 0 (wr32 reg (putf capability_reg "os_owned_semaphore" 1 cap) d).

Definition intel_enable_xhci_ports (d : D) : D :=
  let switch d :=
    let '(usb3, d) := pci_read 0xDC 4 d in
    let d := pci_write 0xD8 4 (u32 usb3) d in
    let '(usb2, d) := pci_read 0xD4 4 d in
    let d := pci_write 0xD0 4 (u32 usb2) d in
    (pci_read 0xD0 4 d).2 in
  let '(vendor, d) := pci_read 0x2C 2 d in
  if vendor =? 0x104D then let '(device, d) := pci_read 0x2E 2 d in if device =? 0x90A8 then d else switch d
  else switch d.

(** The protocol of an extended capability; [minor] is set from the major
    revision. *)
Definition read_protocol (ext : Z) (d : D) : supported_protocol * D :=
  let '(version, d) := rd32 (ext + offset_of supported_protocol_cap "version") d in
  let '(_, d) := rd32 (ext + offset_of supported_protocol_cap "name") d in
  let '(info, d) := rd32 (ext + offset_of supported_protocol_cap "ports_info") d in
  let '(slot, d) := rd32 (ext + offset_of supported_protocol_cap "slot_type") d in
  (mk_protocol (getf version_t "major_rev" version) (getf version_t "major_rev" version)
     (u32 (getf ports_info_t "compatible_port_offset" info - 1)) (getf ports_info_t "compatible_port_count" info)
     (getf slot_type_t "protocol_slot_type" slot), d).

(** The list of extended capabilities. *)
Fixpoint extended_caps (n : nat) (ext : Z) (acc : list supported_protocol) (d : D) : res (list supported_protocol * D) :=
  match n with
  | O => NoFuel
  | S n =>
      let '(w, d) := rd32 ext d in
      let ty := Z.land w 0xFF in
      let '(w, d) := rd32 ext d in
      let next_ptr := Z.land (Z.shiftr w 8) 0xFF in
      let '(w, d) := rd32 ext d in
      if w =? 0xFFFFFFFF then mret (acc, d)
      else
        '(acc, d) ← (if ty =? 1 then d ← do_bios_os_handoff ext d; mret (acc, d)
                     else if ty =? 2 then let '(p, d) := read_protocol ext d in mret (acc ++ [p], d)
                     else mret (acc, d));
        if next_ptr =? 0 then mret (acc, d) else extended_caps n (ext + 4 * next_ptr) acc d
  end.

(** The lowest bit of the page size register. *)
Fixpoint page_bit (n : nat) (i reg : Z) (d : D) : Z * D :=
  match n with
  | O => (0, d)
  | S n => let '(v, d) := rd32 reg d in if Z.land v (Z.shiftl 1 i) =? 0 then page_bit n (i + 1) reg d else (i, d)
  end.

Definition scratchpads (hcs_2 : Z) : Z := Z.lor (Z.land (Z.shiftr hcs_2 16) 0x3e0) (Z.land (Z.shiftr hcs_2 27) 0x1f).

Definition put64 (a v : Z) (d : D) : D := dma_write (a + 4) (bits 32 32 v) (dma_write a (bits 0 32 v) d).

(** The array of scratchpad buffers; [None] when there is no memory. *)
Definition make_scratchpads (c : controller) (d : D) : option unit * D :=
  match get_phys_region (n_scratchpads c * 8) d with
  | (None, d) => (None, d)
  | (Some (array, _), d) =>
      let d := put64 (dcbaap c) array d in
      (fix go (n : nat) (i : Z) (d : D) : option unit * D :=
         match n with
         | O => (Some tt, d)
         | S n =>
             match get_phys_region (page_size c) d with
             | (None, d) => (None, d)
             | (Some (pad, _), d) => go n (i + 1) (put64 (array + 8 * i) pad d)
             end
         end) (Z.to_nat (n_scratchpads c)) 0 d
  end.

(** The rings and the interrupter, after the memory of the contexts. *)
Definition start_rings (c : controller) (erst : Z) (d : D) : res D :=
  let d := put_member erst event_ring_segment_table_entry "base" (ring_phys (evt_ring c)) d in
  let d := put_member erst event_ring_segment_table_entry "size" (n_entries (evt_ring c)) d in
  let d := wr64 (irq_reg "erst_dequeue" c) (ring_phys (evt_ring c)) d in
  let d := wr32 (irq_reg "erst_size" c) 1 d in
  let d := wr64 (irq_reg "erst_base" c) erst d in
  let '(iman, d) := rd32 (irq_reg "iman" c) d in
  let d := wr32 (irq_reg "iman" c) (putf iman_t "irq_enable" 1 (putf iman_t "irq_pending" 0 iman)) d in
  d ← start_execution c d;
  let '(cmd, d) := rd32 (op_reg "command" c) d in
  mret (wr32 (op_reg "command" c) (putf usbcmd "irq_enable" 1 cmd) d).

(** [ports.resize(n_ports)]: zeroed ports, each with a new ring. *)
Fixpoint make_ports (n : nat) (d : D) : list port * D :=
  match n with
  | O => ([], d)
  | S n =>
      let '(r, d) := make_ring ring_size ringTypeTransfer d in
      let '(l, d) := make_ports n d in
      (mk_port None 0 false false 0 0 0 0 None None r ∅ :: l, d)
  end.

(** The registers that describe the controller. *)
Definition read_capabilities (cmd evt : tlb_ring) (quirks0 : Z) (d : D) : res (controller * Z * D) :=
  let '(cl, d) := rd32 (offset_of cap_regs "cap_length") d in
  let '(rt, d) := rd32 (offset_of cap_regs "runtime_offset") d in
  let '(db, d) := rd32 (offset_of cap_regs "doorbell_offset") d in
  let '(hcs_1, d) := rd32 (offset_of cap_regs "hcs_params") d in
  let '(hcs_2, d) := rd32 (offset_of cap_regs "hcs_params" + 4) d in
  let '(_, d) := rd32 (offset_of cap_regs "hcs_params" + 8) d in
  let '(hcc_1, d) := rd32 (offset_of cap_regs "hcc_params_1") d in
  let operation := Z.land cl 0xFF in
  let '(bit_set, d) := page_bit 16 0 (operation + offset_of operational_regs "page_size") d in
  let d := enable_irq d in
  '(protocols, d) ← extended_caps patience (4 * getf hcc_params_1_t "extended_cap_ptr" hcc_1) [] d;
  mret (mk_controller operation rt db protocols [] ∅ (Z.shiftl 1 (bit_set + 12)) (scratchpads hcs_2)
          (getf hcs_params_1_t "max_ports" hcs_1) (if getf hcc_params_1_t "context_size" hcc_1 =? 0 then 32 else 64) 0 cmd ∅ evt quirks0,
        getf hcs_params_1_t "max_slots" hcs_1, d).

(** The device context array; [None] when there is no memory. *)
Definition make_contexts (max_slots : Z) (c : controller) (d : D) : res (option controller * D) :=
  let d := wr32 (op_reg "config" c) (putf config_reg "slot_enable" max_slots 0) d in
  let dcbaap_size := max_slots + 1 + 1 in
  _ ← ASSERT (dcbaap_size <=? 256) "this->dcbaap_size <= 256";
  match get_phys_region (dcbaap_size * 8) d with
  | (None, d) => mret (None, d)
  | (Some (phys, _), d) =>
      let c := mk_controller (operation c) (runtime c) (doorbells c) (supported_protocols c) (ports c) (port_by_slot_id c) (page_size c)
                 (n_scratchpads c) (n_ports c) (context_size c) phys (cmd_ring c) (cmd_events c) (evt_ring c) (quirks c) in
      let d := wr64 (op_reg "device_context_base" c) phys d in
      if n_scratchpads c =? 0 then mret (Some c, d)
      else match make_scratchpads c d with (None, d) => mret (None, d) | (Some _, d) => mret (Some c, d) end
  end.

(** The constructor; [quirks0] is the member that is not initialised. *)
Definition init (quirks0 : Z) (d : D) : res (controller * D) :=
  let '(cmd, d) := make_ring ring_size ringTypeCommand d in
  let '(evt, d) := make_ring ring_size ringTypeEvent d in
  cmd ← access cmd;
  evt ← access evt;
  '(c, max_slots, d) ← read_capabilities cmd evt quirks0 d;
  let '(vendor, d) := pci_read 0 2 d in
  let intel := (u16 vendor =? 0x8086) || negb (Z.land quirks0 1 =? 0) in
  let d := if intel then intel_enable_xhci_ports d else d in
  d ← stop_execution c d;
  d ← reset_controller c d;
  let '(_, d) := rd32 (op_reg "status" c) d in
  d ← poll patience (op_reg "status" c) usbsts "controller_not_ready" 0 d;
  '(o, d) ← make_contexts max_slots c d;
  match o with
  | None => mret (c, d)
  | Some c =>
      let d := wr64 (op_reg "command_ring_control" c) (Z.lor (ring_phys (cmd_ring c)) 1) d in
      match get_phys_region 4096 d with
      | (None, d) => mret (c, d)
      | (Some (erst, _), d) =>
          d ← start_rings c erst d;
          let '(l, d) := make_ports (Z.to_nat (n_ports c)) d in
          init_ports (set_ports l ∅ c) d
      end
  end.
End driver.
End xhci.

(** ** What the controller promises *)

(** The event ring is at [evt_base], with as many entries as the driver asked for;
    [history] has the events the controller has posted.  On its first way through the
    ring, event [j] is in slot [j] with the cycle bit set, and it is clear in the
    slots behind.  The driver's own accesses do not take events back, and words
    outside of the event ring keep what the driver writes there.  [next_cmd] is the
    slot of the command ring that the controller executes next. *)
Class XhciLaws (D : Type) `{HW : XhciHw D} := {
  evt_base : Z;
  history : D -> list Z;
  next_cmd : D -> Z;
  in_event_ring (a : Z) : bool := (evt_base <=? a) && (a <? evt_base + 16 * xhci.ring_size);
  law_dma a v d x : in_event_ring a = false -> a mod 4 = 0 -> x mod 4 = 0 -> dma (dma_write a v d) x = if x =? a then v else dma d x;
  law_dma_history a v d : history (dma_write a v d) = history d;
  law_dma_next a v d : next_cmd (dma_write a v d) = next_cmd d;
  law_posted d j ev : (length (history d) <= 4096)%nat -> history d !! j = Some ev ->
    xhci.read_trb (evt_base + 16 * Z.of_nat j) d = ev /\ getf trb.raw_trb "cycle" ev = 1;
  law_empty d j : (length (history d) <= j < 4096)%nat -> getf trb.raw_trb "cycle" (xhci.read_trb (evt_base + 16 * Z.of_nat j) d) = 0;
  law_wait d : history d `prefix_of` history (wait_irq d);
  law_rd a d : history d `prefix_of` history (rd32 a d).2;
  law_wr32 a v d : history d `prefix_of` history (wr32 a v d);
  law_wr64 a v d : history d `prefix_of` history (wr64 a v d) }.

(** What happens in shared memory and registers between two looks at the events: the
    wait, then the acknowledgement, which clears the pending bit and writes the
    address [deq] of the next event with the busy bit. *)
Definition irq_round {D} `{HW : XhciHw D} (iman erdp deq : Z) (d d' : D) : Prop :=
  let '(v, d1) := rd32 iman (wait_irq d) in d' = wr64 erdp (Z.lor deq (Z.shiftl 1 3)) (wr32 iman (Z.lor v 1) d1).

(** Rounds in which the driver consumes all events that are there, at least one in
    each: [k] and [k'] are the numbers of events consumed before and after. *)
Inductive irq_rounds {D} `{HL : XhciLaws D} (iman erdp : Z) : nat -> nat -> D -> nat -> D -> Prop :=
| rounds_zero k d : irq_rounds iman erdp 0 k d k d
| rounds_more n k k' d d1 d2 :
    (k < length (history (wait_irq d)))%nat ->
    irq_round iman erdp (u64 (evt_base + 16 * Z.of_nat (length (history (wait_irq d))))) d d1 ->
    irq_rounds iman erdp n (length (history (wait_irq d))) d1 k' d2 -> irq_rounds iman erdp (S n) k d k' d2.

(** Rounds in which the driver sees no event. *)
Inductive blind_rounds {D} `{HW : XhciHw D} (iman erdp : Z) : nat -> D -> D -> Prop :=
| blind_zero d : blind_rounds iman erdp 0 d d
| blind_more n d d1 d2 : irq_round iman erdp 0 d d1 -> blind_rounds iman erdp n d1 d2 -> blind_rounds iman erdp (S n) d d2.

(** ** Lemmas: words *)

Lemma trb_words t : 0 <= t < 2 ^ 128 -> bits 0 32 t + 2 ^ 32 * bits 32 32 t + 2 ^ 64 * bits 64 32 t + 2 ^ 96 * bits 96 32 t = t.
Proof.
  intros Ht. rewrite !bits_mod by lia. change (2 ^ 0) with 1. rewrite Z.div_1_r.
  assert (H1 : t / 2 ^ 64 = t / 2 ^ 32 / 2 ^ 32) by (rewrite Z.div_div by lia; done).
  assert (H2 : t / 2 ^ 96 = t / 2 ^ 32 / 2 ^ 32 / 2 ^ 32) by (rewrite !Z.div_div by lia; done).
  assert (H3 : t / 2 ^ 32 / 2 ^ 32 / 2 ^ 32 < 2 ^ 32).
  { rewrite !Z.div_div by lia. apply Z.div_lt_upper_bound; lia. }
  assert (H4 : 0 <= t / 2 ^ 32 / 2 ^ 32 / 2 ^ 32) by (repeat apply Z.div_pos; lia).
  rewrite H1, H2. rewrite (Z.mod_small _ _ (conj H4 H3)).
  pose proof (Z.div_mod t (2 ^ 32)). pose proof (Z.div_mod (t / 2 ^ 32) (2 ^ 32)). pose proof (Z.div_mod (t / 2 ^ 32 / 2 ^ 32) (2 ^ 32)).
  lia.
Qed.

(** A word of a block after an assignment to a field in another word or in it. *)
Lemma set_bits_word lo n x t k : 0 <= lo -> 0 <= n -> 0 <= k -> lo + n <= k \/ k + 32 <= lo -> bits k 32 (set_bits lo n x t) = bits k 32 t.
Proof. intros. apply bits_set_other; lia. Qed.

Lemma or_cycle w : Z.lor w (if Z.land w 1 =? 0 then 1 else 0) = set_bits 0 1 1 w.
Proof.
  change 1 with (bit64 0) at 1. rewrite land_bit64_eqb by lia. apply Z.bits_inj'. intros i Hi.
  rewrite testbit_set_bits, Z.lor_spec by lia. destruct (decide (0 <= i < 0 + 1)) as [Hd | Hd].
  - assert (i = 0) as -> by lia. by destruct (Z.testbit w 0).
  - destruct (Z.testbit w 0); cbn [negb].
    + by rewrite Z.bits_0, orb_false_r.
    + assert (Hb : Z.testbit (2 ^ 0) i = false) by (apply Z.pow2_bits_false; lia). change (2 ^ 0) with 1 in Hb. by rewrite Hb, orb_false_r.
Qed.

Lemma word_cycle t : set_bits 0 1 1 (bits 96 32 t) = bits 96 32 (putf trb.raw_trb "cycle" 1 t).
Proof.
  change (putf trb.raw_trb "cycle" 1 t) with (set_bits 96 1 1 t). apply Z.bits_inj'. intros i Hi.
  rewrite testbit_set_bits, !testbit_bits, testbit_set_bits by lia.
  destruct (decide (0 <= i < 0 + 1)), (decide (96 <= i + 96 < 96 + 1)); try lia; [| done].
  assert (i = 0) as -> by lia. done.
Qed.

Section shared.
Context {D : Type} `{XL : XhciLaws D}.
Implicit Types (d : D) (r : xhci.tlb_ring).

(** Regions that are not part of the event ring. *)
Definition outside (a n : Z) : Prop := a + n <= evt_base \/ evt_base + 16 * xhci.ring_size <= a.

Lemma outside_word a n x : outside a n -> a <= x < a + n -> in_event_ring x = false.
Proof.
  intros Ho Hx. unfold in_event_ring, outside in *. destruct (Z.leb_spec evt_base x); [| done].
  destruct (Z.ltb_spec x (evt_base + 16 * xhci.ring_size)); [lia | done].
Qed.

(** Writing a block: its words, and no others. *)
Lemma write_trb_words p v d x :
  outside p 16 -> p mod 4 = 0 -> x mod 4 = 0 ->
  dma (xhci.write_trb p v d) x =
    if x =? p + 12 then bits 96 32 v else if x =? p + 8 then bits 64 32 v else if x =? p + 4 then bits 32 32 v
    else if x =? p then bits 0 32 v else dma d x.
Proof.
  intros Ho Hp Hx. unfold xhci.write_trb. assert (Hm : forall k, (p + 4 * k) mod 4 = 0) by (intros k; rewrite (Z.mul_comm 4), Z.mod_add by lia; done).
  assert (H1 := Hm 1). assert (H2 := Hm 2). assert (H3 := Hm 3).
  rewrite !law_dma; try done; apply (outside_word p 16); (done || lia).
Qed.

Lemma write_trb_read p v d : outside p 16 -> p mod 4 = 0 -> 0 <= v < 2 ^ 128 -> xhci.read_trb p (xhci.write_trb p v d) = v.
Proof.
  intros Ho Hp Hv. unfold xhci.read_trb. rewrite !write_trb_words by (done || (Z.to_euclidean_division_equations; lia)).
  rewrite !Z.eqb_refl. repeat match goal with |- context [?a =? ?b] => rewrite (proj2 (Z.eqb_neq a b)) by lia end. by apply trb_words.
Qed.

(** Blocks that share no word. *)
Lemma read_trb_ext p d d' : (forall k, 0 <= k < 4 -> dma d' (p + 4 * k) = dma d (p + 4 * k)) -> xhci.read_trb p d' = xhci.read_trb p d.
Proof.
  intros H. unfold xhci.read_trb. assert (H0 := H 0). assert (H1 := H 1). assert (H2 := H 2). assert (H3 := H 3).
  change (4 * 0) with 0 in H0. rewrite Z.add_0_r in H0. change (4 * 1) with 4 in H1. change (4 * 2) with 8 in H2. change (4 * 3) with 12 in H3.
  by rewrite H0, H1, H2, H3 by lia.
Qed.

Lemma write_trb_history p v d : history (xhci.write_trb p v d) = history d.
Proof. unfold xhci.write_trb. by rewrite !law_dma_history. Qed.

Lemma write_trb_next p v d : next_cmd (xhci.write_trb p v d) = next_cmd d.
Proof. unfold xhci.write_trb. by rewrite !law_dma_next. Qed.

(** ** Rings *)

(** The enqueue pointer of a ring for commands or transfers is at slot [i]; the last
    slot is kept for the link. *)
Record ring_ok (i : Z) r : Prop := {
  ro_size : 2 <= xhci.n_entries r < 2 ^ 31;
  ro_slot : 0 <= i < xhci.n_entries r - 1;
  ro_enqueue : xhci.enqueue r = xhci.entries r + 16 * i;
  ro_virt : 0 <= xhci.entries r /\ xhci.entries r + 16 * xhci.n_entries r < 2 ^ 64;
  ro_align : xhci.ring_phys r mod 4 = 0;
  ro_outside : outside (xhci.ring_phys r) (16 * xhci.n_entries r) }.

Definition slot (j : Z) r d : Z := xhci.read_trb (xhci.ring_phys r + 16 * j) d.
Definition link_at r : Z := xhci.ring_phys r + 16 * (xhci.n_entries r - 1).

(** Two rings in the same memory. *)
Definition same_place r r' : Prop :=
  xhci.ring_phys r' = xhci.ring_phys r /\ xhci.n_entries r' = xhci.n_entries r /\ xhci.entries r' = xhci.entries r.

Lemma ring_slot_outside i r j : ring_ok i r -> 0 <= j < xhci.n_entries r -> outside (xhci.ring_phys r + 16 * j) 16.
Proof. intros R Hj. destruct (ro_outside _ _ R); [left | right]; lia. Qed.

Lemma word_align p k : p mod 4 = 0 -> (p + 4 * k) mod 4 = 0.
Proof. intros Hp. rewrite (Z.mul_comm 4), Z.mod_add by lia. done. Qed.

Lemma slot_align i r j : ring_ok i r -> (xhci.ring_phys r + 16 * j) mod 4 = 0.
Proof. intros R. replace (16 * j) with (4 * (4 * j)) by lia. apply word_align, R. Qed.

Lemma write_link_words i r d x :
  ring_ok i r -> x mod 4 = 0 ->
  dma (xhci.write_link r d) x =
    if x =? link_at r + 12 then 0x1801 else if x =? link_at r + 8 then 0 else if x =? link_at r + 4 then bits 32 32 (xhci.ring_phys r)
    else if x =? link_at r then bits 0 32 (xhci.ring_phys r) else dma d x.
Proof.
  intros R Hx. set (p := link_at r). assert (Hp : p mod 4 = 0) by (eapply slot_align, R).
  assert (Ho : outside p 16) by (apply (ring_slot_outside i); [done | pose proof (ro_size _ _ R); lia]).
  assert (Hin : forall k, 0 <= k < 16 -> in_event_ring (p + k) = false) by (intros k Hk; apply (outside_word p 16); (done || lia)).
  assert (H4 := word_align p 1 Hp). assert (H12 := word_align p 3 Hp). change (4 * 1) with 4 in H4. change (4 * 3) with 12 in H12.
  unfold xhci.write_link. replace (xhci.phys_of (xhci.entries r + 16 * (xhci.n_entries r - 1)) r) with p by (unfold xhci.phys_of, p, link_at; lia).
  unfold xhci.put_member. change (find_field trb.link_trb "ring_segment_ptr" 0) with (0, 64). change (find_field trb.link_trb "cycle" 0) with (96, 1).
  change (find_field trb.link_trb "trb_type" 0) with (106, 6). cbn [Z.eqb Pos.eqb].
  change (0 / 8) with 0. change (4 * (96 / 32)) with 12. change (4 * (106 / 32)) with 12. rewrite !Z.add_0_r.
  rewrite !law_dma by (done || (apply Hin; lia) || (specialize (Hin 0); rewrite Z.add_0_r in Hin; apply Hin; lia)).
  rewrite !write_trb_words, !Z.eqb_refl by done.
  rewrite (proj2 (Z.eqb_neq (p + 12) (p + 4))), (proj2 (Z.eqb_neq (p + 12) p)) by lia.
  destruct (Z.eqb_spec x (p + 12)); [reflexivity |]. destruct (Z.eqb_spec x (p + 4)), (Z.eqb_spec x p), (Z.eqb_spec x (p + 8)); (done || lia).
Qed.

Lemma write_link_ghost r d : history (xhci.write_link r d) = history d /\ next_cmd (xhci.write_link r d) = next_cmd d.
Proof.
  unfold xhci.write_link, xhci.put_member. change (find_field trb.link_trb "ring_segment_ptr" 0) with (0, 64).
  change (find_field trb.link_trb "cycle" 0) with (96, 1). change (find_field trb.link_trb "trb_type" 0) with (106, 6). cbn [Z.eqb Pos.eqb].
  by rewrite !law_dma_history, !law_dma_next, write_trb_history, write_trb_next.
Qed.

Definition next_slot r (i : Z) : Z := (i + 1) mod (xhci.n_entries r - 1).

(** [get_trb] hands out the slots in turn; it only writes to the link. *)
Lemma get_trb_ok i r d :
  ring_ok i r ->
  exists r' d', xhci.get_trb r d = (xhci.entries r + 16 * i, i, r', d') /\ ring_ok (next_slot r i) r' /\ same_place r r' /\
    (forall x, x mod 4 = 0 -> ~ (link_at r <= x < link_at r + 16) -> dma d' x = dma d x) /\
    history d' = history d /\ next_cmd d' = next_cmd d.
Proof.
  intros R. destruct (ro_size _ _ R) as [Hn1 Hn2]. pose proof (ro_slot _ _ R) as Hi. destruct (ro_virt _ _ R) as [Hv1 Hv2].
  assert (Hidx : u64 (u64 (xhci.enqueue r - xhci.entries r) / 16 + 1) = i + 1).
  { rewrite (ro_enqueue _ _ R). replace (xhci.entries r + 16 * i - xhci.entries r) with (i * 16) by lia.
    rewrite (u64_small (i * 16)) by (unfold is_u64; lia). rewrite Z.div_mul by lia. apply u64_small. unfold is_u64. lia. }
  assert (H1 : u64 (i + 1 - 1) = i) by (replace (i + 1 - 1) with i by lia; apply u64_small; unfold is_u64; lia).
  unfold xhci.get_trb. rewrite Hidx, H1, (ro_enqueue _ _ R), (u64_small (xhci.n_entries r - 1)) by (unfold is_u64; lia).
  destruct (Z.eqb_spec (i + 1) (xhci.n_entries r - 1)) as [E | E]; eexists _, _; (split; [reflexivity |]).
  - split_and!; try done; [| | apply write_link_ghost..].
    + unfold next_slot. rewrite E, Z.mod_same by lia. destruct R. constructor; cbn; (done || lia).
    + intros x Hx Hl. rewrite (write_link_words i) by done. set (p := link_at r) in *.
      by rewrite !(proj2 (Z.eqb_neq _ _)) by lia.
  - split_and!; try done. unfold next_slot. rewrite Z.mod_small by lia. destruct R.
    constructor; cbn; try (done || lia). rewrite u64_small by (unfold is_u64; lia). lia.
Qed.

(** A command goes to the slot of the enqueue pointer, with the cycle bit set; the
    other slots keep their commands. *)
Lemma enqueue_ok i r d t :
  ring_ok i r -> 0 <= t < 2 ^ 128 ->
  exists r' d', xhci.enqueue_trb t false r d = (i, r', d') /\ ring_ok (next_slot r i) r' /\ same_place r r' /\
    slot i r d' = putf trb.raw_trb "cycle" 1 t /\
    (forall j, 0 <= j < xhci.n_entries r - 1 -> j <> i -> slot j r d' = slot j r d) /\
    (forall x, x mod 4 = 0 -> ~ (xhci.ring_phys r <= x < xhci.ring_phys r + 16 * xhci.n_entries r) -> dma d' x = dma d x) /\
    history d' = history d /\ next_cmd d' = next_cmd d.
Proof.
  intros R Ht. destruct (get_trb_ok i r d R) as (r' & d1 & E & R' & (Hph & Hn & Hen) & Hd & Hh & Hx). pose proof (ro_slot _ _ R) as Hi.
  unfold xhci.enqueue_trb. rewrite E. cbn iota beta.
  set (p := xhci.phys_of (xhci.entries r + 16 * i) r').
  assert (Hp : p = xhci.ring_phys r + 16 * i) by (unfold p, xhci.phys_of; rewrite Hph, Hen; lia).
  assert (Hpm : p mod 4 = 0) by (rewrite Hp; by eapply slot_align). assert (Hpm12 := word_align p 3 Hpm). change (4 * 3) with 12 in Hpm12.
  assert (Ho : outside p 16) by (rewrite Hp; apply (ring_slot_outside i); [done | lia]).
  assert (Hin : in_event_ring (p + 12) = false) by (apply (outside_word p 16); (done || lia)).
  rewrite or_cycle, (write_trb_words p t d1 (p + 12)), Z.eqb_refl, word_cycle by done.
  eexists _, _. split; [reflexivity |].
  assert (Hw : forall x, x mod 4 = 0 -> ~ (p <= x < p + 16) -> ~ (link_at r <= x < link_at r + 16) ->
     dma (dma_write (p + 12) (bits 96 32 (putf trb.raw_trb "cycle" 1 t)) (xhci.write_trb p t d1)) x = dma d x).
  { intros x Hxm Hxp Hxl. rewrite law_dma, write_trb_words by done. rewrite !(proj2 (Z.eqb_neq _ _)) by lia. by apply Hd. }
  split_and!; try done.
  - set (t' := putf trb.raw_trb "cycle" 1 t). unfold slot. rewrite <- Hp.
    assert (Ht' : 0 <= t' < 2 ^ 128) by (apply (putf_range trb.raw_trb "cycle" 1 t 96 1 128); [reflexivity | lia..]).
    etransitivity; [| exact (trb_words t' Ht')].
    unfold xhci.read_trb. rewrite !law_dma, !write_trb_words by (done || (Z.to_euclidean_division_equations; lia)).
    rewrite !Z.eqb_refl. repeat match goal with |- context [?a =? ?b] => rewrite (proj2 (Z.eqb_neq a b)) by lia end.
    unfold t'. change (putf trb.raw_trb "cycle" 1 t) with (set_bits 96 1 1 t).
    by rewrite (set_bits_word 96 1 1 t 0), (set_bits_word 96 1 1 t 32), (set_bits_word 96 1 1 t 64) by lia.
  - intros j Hj Hne. unfold slot. apply read_trb_ext. intros k Hk. apply Hw; [| lia | unfold link_at; lia].
    apply word_align. by eapply slot_align.
  - intros x Hxm Hxr. apply Hw; [done | lia | unfold link_at; lia].
  - by rewrite law_dma_history, write_trb_history.
  - by rewrite law_dma_next, write_trb_next.
Qed.

(** Several commands; the indices are those that [enqueue_trb] returns. *)
Fixpoint enqueue_all (ts : list Z) r d : list Z * xhci.tlb_ring * D :=
  match ts with
  | [] => ([], r, d)
  | t :: ts =>
      let '(i, r, d) := xhci.enqueue_trb t false r d in
      let '(l, r, d) := enqueue_all ts r d in
      (i :: l, r, d)
  end.

Definition nth_slot r (i k : Z) : Z := (i + k) mod (xhci.n_entries r - 1).

Lemma nth_slot_next r i k : 2 <= xhci.n_entries r -> nth_slot r (next_slot r i) k = nth_slot r i (k + 1).
Proof. intros Hn. unfold nth_slot, next_slot. rewrite Z.add_mod_idemp_l by lia. f_equal. lia. Qed.

Lemma same_place_slot r r' j d : same_place r r' -> slot j r' d = slot j r d.
Proof. intros (E & _). unfold slot. by rewrite E. Qed.

Lemma enqueue_all_ok ts i r d :
  ring_ok i r -> Forall (fun t => 0 <= t < 2 ^ 128) ts ->
  exists r' d', enqueue_all ts r d = (nth_slot r i <$> seqZ 0 (Z.of_nat (length ts)), r', d') /\
    ring_ok (nth_slot r i (Z.of_nat (length ts))) r' /\ same_place r r' /\
    (forall j, 0 <= j < xhci.n_entries r - 1 ->
       (exists k t, ts !! k = Some t /\ nth_slot r i (Z.of_nat k) = j /\ slot j r d' = putf trb.raw_trb "cycle" 1 t /\
          forall k', (k < k' < length ts)%nat -> nth_slot r i (Z.of_nat k') <> j) \/
       ((forall k, (k < length ts)%nat -> nth_slot r i (Z.of_nat k) <> j) /\ slot j r d' = slot j r d)).
Proof.
  revert i r d. induction ts as [| t ts IH]; intros i r d R Hts; cbn [enqueue_all length].
  - pose proof (ro_slot _ _ R). exists r, d. split_and!; try done.
    + unfold nth_slot. by rewrite Z.add_0_r, Z.mod_small by lia.
    + intros j Hj. right. split; [lia | done].
  - apply Forall_cons in Hts as [Ht Hts]. destruct (enqueue_ok i r d t R Ht) as (r1 & d1 & E1 & R1 & P1 & S1 & O1 & _).
    destruct (IH _ _ d1 R1 Hts) as (r2 & d2 & E2 & R2 & P2 & Hs). rewrite E1, E2.
    destruct (ro_size _ _ R) as [Hn _]. pose proof (ro_slot _ _ R) as Hi.
    assert (Hnx : forall k, nth_slot r1 (next_slot r i) k = nth_slot r i (k + 1)).
    { intros k. unfold nth_slot at 1. destruct P1 as (_ & -> & _). by apply nth_slot_next. }
    assert (H0 : nth_slot r i 0 = i) by (unfold nth_slot; rewrite Z.add_0_r, Z.mod_small; lia).
    exists r2, d2. split_and!.
    + do 2 f_equal. rewrite (seqZ_cons 0 (Z.of_nat (S (length ts)))) by lia. rewrite Nat2Z.inj_succ. cbn [fmap list_fmap]. rewrite H0. f_equal.
      replace (Z.pred (Z.succ (Z.of_nat (length ts)))) with (Z.of_nat (length ts)) by lia. change (Z.succ 0) with (1 + 0).
      rewrite <- fmap_add_seqZ, <- list_fmap_compose. apply list_fmap_ext. intros k x _. cbn. rewrite Hnx. f_equal. lia.
    + rewrite Hnx in R2. by replace (Z.of_nat (S (length ts))) with (Z.of_nat (length ts) + 1) by lia.
    + unfold same_place in *. intuition congruence.
    + intros j Hj. assert (Hj1 : 0 <= j < xhci.n_entries r1 - 1) by (destruct P1 as (_ & -> & _); done).
      destruct (Hs j Hj1) as [(k & t' & Hk & Hkj & Hsl & Hlast) | [Hno Hsl]]; rewrite !(same_place_slot r r1) in Hsl by done; rewrite Hsl.
      * left. exists (S k), t'. rewrite Hnx in Hkj. split_and!; [done | by replace (Z.of_nat (S k)) with (Z.of_nat k + 1) by lia | done |].
        intros k' Hk'. destruct k' as [| k']; [lia |]. specialize (Hlast k'). rewrite Hnx in Hlast.
        replace (Z.of_nat (S k')) with (Z.of_nat k' + 1) by lia. apply Hlast. lia.
      * assert (Hno' : forall k, (k < length ts)%nat -> nth_slot r i (Z.of_nat (S k)) <> j).
        { intros k Hk. specialize (Hno k Hk). rewrite Hnx in Hno. by replace (Z.of_nat (S k)) with (Z.of_nat k + 1) by lia. }
        destruct (decide (j = i)) as [-> | Hne].
        -- left. exists 0%nat, t. split_and!; [done | done | done |]. intros k' Hk'. destruct k' as [| k']; [lia | apply Hno'; lia].
        -- right. split; [| by apply O1]. intros k Hk. destruct k as [| k]; [change (Z.of_nat 0) with 0; congruence | apply Hno'; lia].
Qed.

Lemma nth_slot_inj r i k k' : 2 <= xhci.n_entries r -> 0 <= k < xhci.n_entries r - 1 -> 0 <= k' < xhci.n_entries r - 1 ->
  nth_slot r i k = nth_slot r i k' -> k = k'.
Proof.
  intros Hn Hk Hk' E. unfold nth_slot in E. set (m := xhci.n_entries r - 1) in *.
  assert (H1 := Z.div_mod (i + k) m ltac:(lia)). assert (H2 := Z.div_mod (i + k') m ltac:(lia)). rewrite E in H1.
  assert (H3 : k - k' = m * ((i + k) / m - (i + k') / m)) by lia. assert ((i + k) / m - (i + k') / m = 0) by nia. lia.
Qed.

Lemma nth_slot_onto r i j : 0 <= i < xhci.n_entries r - 1 -> 0 <= j < xhci.n_entries r - 1 ->
  exists k, 0 <= k < xhci.n_entries r - 1 /\ nth_slot r i k = j.
Proof.
  intros Hi Hj. unfold nth_slot. set (m := xhci.n_entries r - 1) in *. exists ((j - i) mod m).
  split; [apply Z.mod_pos_bound; lia |]. rewrite Z.add_mod_idemp_r by lia. replace (i + (j - i)) with j by lia. by apply Z.mod_small.
Qed.

(** The command ring is a queue in a circular buffer.  Commands get consecutive
    slots modulo the size without the link, and the slot of a command has its words
    with the cycle bit set.  As long as no more commands are added than there are
    slots, all of them are there and the other slots are as before. *)
Theorem command_ring_queue (ts : list Z) (i : Z) (r : xhci.tlb_ring) (d : D) :
  ring_ok i r -> Forall (fun t => 0 <= t < 2 ^ 128) ts -> Z.of_nat (length ts) <= xhci.n_entries r - 1 ->
  exists r' d', enqueue_all ts r d = (nth_slot r i <$> seqZ 0 (Z.of_nat (length ts)), r', d') /\
    ring_ok (nth_slot r i (Z.of_nat (length ts))) r' /\
    (forall k t, ts !! k = Some t -> slot (nth_slot r i (Z.of_nat k)) r d' = putf trb.raw_trb "cycle" 1 t) /\
    (forall j, 0 <= j < xhci.n_entries r - 1 -> (forall k, (k < length ts)%nat -> nth_slot r i (Z.of_nat k) <> j) ->
       slot j r d' = slot j r d).
Proof.
  intros R Hts Hl. destruct (enqueue_all_ok ts i r d R Hts) as (r' & d' & E & R' & _ & Hs). exists r', d'.
  destruct (ro_size _ _ R) as [Hn _]. pose proof (ro_slot _ _ R). split_and!; [done | done | |].
  - intros k t Hk. assert (Hkl := lookup_lt_Some _ _ _ Hk).
    assert (Hr : 0 <= nth_slot r i (Z.of_nat k) < xhci.n_entries r - 1) by (apply Z.mod_pos_bound; lia).
    destruct (Hs _ Hr) as [(k2 & t2 & Hk2 & Hkj & -> & _) | [Hno _]]; [| by destruct (Hno k)].
    apply nth_slot_inj in Hkj; [| lia | pose proof (lookup_lt_Some _ _ _ Hk2); lia | lia].
    assert (k2 = k) as -> by lia. congruence.
  - intros j Hj Hno. destruct (Hs j Hj) as [(k & t & Hk & Hkj & _) | [_ Heq]]; [| done].
    exfalso. apply (Hno k); [by eapply lookup_lt_Some | done].
Qed.

(** The command ring does not survive its first wrap-around.  Once as many
    commands have been added as there are slots, the cycle bit of every slot is set,
    for ever, and the link does not tell the controller to change its cycle state:
    the controller cannot see where the new commands end and executes the old ones
    again. *)
Theorem command_ring_stale (ts : list Z) (i : Z) (r : xhci.tlb_ring) (d : D) :
  ring_ok i r -> Forall (fun t => 0 <= t < 2 ^ 128) ts -> xhci.n_entries r - 1 <= Z.of_nat (length ts) ->
  exists l r' d', enqueue_all ts r d = (l, r', d') /\
    (forall j, 0 <= j < xhci.n_entries r - 1 -> getf trb.raw_trb "cycle" (slot j r d') = 1) /\
    getf trb.link_trb "toggle_cycle" (slot (xhci.n_entries r - 1) r (xhci.write_link r' d')) = 0.
Proof.
  intros R Hts Hl. destruct (enqueue_all_ok ts i r d R Hts) as (r' & d' & E & R' & (Hp & Hn' & _) & Hs). eexists _, r', d'. split; [exact E |].
  destruct (ro_size _ _ R) as [Hn _]. pose proof (ro_slot _ _ R) as Hi. split.
  - intros j Hj. destruct (Hs j Hj) as [(k & t & _ & _ & -> & _) | [Hno _]]; [by fields |].
    exfalso. destruct (nth_slot_onto r i j Hi Hj) as (k & Hk & Hkj). apply (Hno (Z.to_nat k)); [lia |]. by rewrite Z2Nat.id by lia.
  - assert (Hlk : xhci.ring_phys r + 16 * (xhci.n_entries r - 1) = link_at r') by (unfold link_at; rewrite Hp, Hn'; lia).
    assert (Ha : link_at r' mod 4 = 0) by (eapply slot_align, R'). unfold slot. rewrite Hlk. unfold xhci.read_trb.
    rewrite !(write_link_words _ r' d' _ R') by (done || (Z.to_euclidean_division_equations; lia)). rewrite !Z.eqb_refl.
    repeat match goal with |- context [?a =? ?b] => rewrite (proj2 (Z.eqb_neq a b)) by lia end.
    change (getf trb.link_trb "toggle_cycle") with (bits 97 1). rewrite bits_mod by lia.
    assert (B0 := bits_range 0 32 (xhci.ring_phys r') 32). assert (B1 := bits_range 32 32 (xhci.ring_phys r') 32).
    set (a := bits 0 32 _) in *. set (b := bits 32 32 _) in *. clearbody a b.
    replace (a + 2 ^ 32 * b + 2 ^ 64 * 0 + 2 ^ 96 * 6145) with ((a + 2 ^ 32 * b) + 3072 * 2 ^ 97 + 2 ^ 96) by lia.
    replace ((a + 2 ^ 32 * b) + 3072 * 2 ^ 97 + 2 ^ 96) with ((a + 2 ^ 32 * b + 2 ^ 96) + 3072 * 2 ^ 97) by lia.
    rewrite Z.div_add, (Z.div_small (a + 2 ^ 32 * b + 2 ^ 96)) by lia. reflexivity.
Qed.

(** ** Events *)

Implicit Types (c : xhci.controller).

Definition trb_type_of (ev : Z) : Z := getf trb.raw_trb "trb_type" ev.

(** The index under which a completion is recorded. *)
Definition cmd_key c (ev : Z) : Z :=
  u64 (xhci.s32 (u64 (getf trb.command_completion_event_trb "trb_ptr" ev - xhci.ring_phys (xhci.cmd_ring c)) / 0x10)).

Definition record (phys_key : Z -> Z) (e : gmap Z xhci.trb_event) (ev : Z) : gmap Z xhci.trb_event :=
  if trb_type_of ev =? trb.commandCompletionEvent then <[phys_key ev := xhci.mk_event ev true]> e else e.

(** The driver has consumed [k] events on its first way through the ring. *)
Record evt_ok (k : nat) c : Prop := {
  eo_phys : xhci.ring_phys (xhci.evt_ring c) = evt_base;
  eo_virt : 0 <= xhci.entries (xhci.evt_ring c) /\ xhci.entries (xhci.evt_ring c) + 4096 < 2 ^ 64;
  eo_dequeue : xhci.dequeue (xhci.evt_ring c) = xhci.entries (xhci.evt_ring c) + 16 * Z.of_nat k;
  eo_cycle : xhci.cycle (xhci.evt_ring c) = 1;
  eo_range : (k < 256)%nat }.

Lemma handle_event_ok ev c :
  trb_type_of ev <> trb.transferEvent ->
  xhci.handle_event ev c = Ret (xhci.set_cmd (xhci.cmd_ring c) (record (cmd_key c) (xhci.cmd_events c) ev) c).
Proof.
  intros Ht. unfold xhci.handle_event, record. fold (trb_type_of ev). rewrite (proj2 (Z.eqb_neq _ _) Ht).
  destruct (trb_type_of ev =? trb.commandCompletionEvent); [done | by destruct c].
Qed.

Lemma advance_ok k c : evt_ok k c -> (S k < 256)%nat ->
  xhci.advance (xhci.evt_ring c) =
    (u64 (evt_base + 16 * Z.of_nat (S k)), xhci.set_dequeue (xhci.entries (xhci.evt_ring c) + 16 * Z.of_nat (S k)) 1 (xhci.evt_ring c)).
Proof.
  intros [Hp [Hv1 Hv2] Hd Hc Hr] Hk. unfold xhci.advance. rewrite Hd, Hc, Hp.
  set (e := xhci.entries _) in *. rewrite (u64_small (e + 16 * Z.of_nat k + 16)) by (unfold is_u64; lia).
  replace (e + 16 * Z.of_nat k + 16 - e) with (16 * Z.of_nat (S k)) by lia. rewrite (u64_small (16 * _)) by (unfold is_u64; lia).
  rewrite (Z.mod_small (16 * Z.of_nat (S k)) 0x1000) by lia. rewrite (proj2 (Z.eqb_neq (16 * Z.of_nat (S k)) 0)) by lia.
  do 2 f_equal. lia.
Qed.

(** [event_loop] records the events that are there and stops behind the last. *)
Lemma event_loop_ok n fuel k deq c d :
  evt_ok k c -> length (history d) = (k + n)%nat -> (k + n < 256)%nat -> (n < fuel)%nat ->
  Forall (fun ev => trb_type_of ev <> trb.transferEvent) (drop k (history d)) ->
  exists deq' c', xhci.event_loop fuel deq c d = Ret (deq', c') /\ evt_ok (k + n) c' /\
    deq' = (if (n =? 0)%nat then deq else u64 (evt_base + 16 * Z.of_nat (k + n))) /\
    xhci.cmd_events c' = fold_left (record (cmd_key c)) (drop k (history d)) (xhci.cmd_events c) /\
    xhci.cmd_ring c' = xhci.cmd_ring c /\ xhci.runtime c' = xhci.runtime c.
Proof.
  revert fuel k deq c. induction n as [| n IH]; intros fuel k deq c EO Hl Hb Hf Hty; (destruct fuel as [| fuel]; [lia |]);
    cbn [xhci.event_loop]; destruct EO as [Hp Hv Hd Hc Hr] eqn:HEO; clear HEO;
    replace (xhci.phys_of (xhci.dequeue (xhci.evt_ring c)) (xhci.evt_ring c)) with (evt_base + 16 * Z.of_nat k) by (unfold xhci.phys_of; lia).
  - rewrite law_empty by lia. rewrite Hc. cbn [Z.eqb]. exists deq, c. rewrite drop_ge by lia. cbn. rewrite Nat.add_0_r. by split_and!.
  - destruct (lookup_lt_is_Some_2 (history d) k ltac:(lia)) as [ev Hev]. destruct (law_posted d k ev ltac:(lia) Hev) as [-> Hcy].
    rewrite Hcy, Hc. cbn [Z.eqb Pos.eqb]. rewrite (drop_S _ _ _ Hev) in Hty |- *. apply Forall_cons in Hty as [Ht Hty].
    rewrite handle_event_ok by done. cbn [mbind res_bind].
    change (xhci.evt_ring (xhci.set_cmd _ _ _)) with (xhci.evt_ring c). rewrite (advance_ok k) by (done || lia).
    match goal with |- context [xhci.event_loop fuel ?q ?x d] =>
      assert (EO1 : evt_ok (S k) x) by (constructor; cbn; (done || lia));
      destruct (IH fuel (S k) q x EO1 ltac:(lia) ltac:(lia) ltac:(lia) Hty) as (deq' & c' & E & EO' & Hdq & He & Hcr & Hrt) end.
    exists deq', c'. replace (k + S n)%nat with (S k + n)%nat by lia. rewrite E. split_and!; try done.
    rewrite Hdq. destruct n; [by rewrite Nat.add_0_r | done].
Qed.

Lemma event_at_insert (e : gmap Z xhci.trb_event) i j v : xhci.event_at i (<[j := v]> e) = if decide (j = i) then v else xhci.event_at i e.
Proof. unfold xhci.event_at. destruct (decide (j = i)) as [-> | Hne]; [by rewrite lookup_insert_eq | by rewrite lookup_insert_ne]. Qed.

(** What the map has after recording a list of events. *)
Lemma record_all key l e i :
  let e' := fold_left (record key) l e in
  ((exists ev, ev ∈ l /\ trb_type_of ev = trb.commandCompletionEvent /\ key ev = i /\ xhci.event_at i e' = xhci.mk_event ev true) \/
   (xhci.event_at i e' = xhci.event_at i e /\ forall ev, ev ∈ l -> trb_type_of ev = trb.commandCompletionEvent -> key ev <> i)).
Proof.
  revert e. induction l as [| ev l IH]; intros e; cbn [fold_left]; [right; split; [done | intros ev Hev; by apply elem_of_nil in Hev] |].
  destruct (IH (record key e ev)) as [(x & Hx & Ht & Hk & He) | [He Hno]].
  - left. exists x. split_and!; try done. by apply elem_of_cons; right.
  - rewrite He. unfold record. destruct (Z.eqb_spec (trb_type_of ev) trb.commandCompletionEvent) as [Ht | Ht].
    + rewrite event_at_insert. destruct (decide (key ev = i)) as [E | Hne].
      * left. exists ev. split_and!; try done. by apply elem_of_cons; left.
      * right. split; [done |]. intros x [-> | Hx]%elem_of_cons; [done | by apply Hno].
    + right. split; [done |]. intros x [-> | Hx]%elem_of_cons; [done | by apply Hno].
Qed.

Definition iman_reg c : Z := xhci.irq_reg "iman" c.
Definition erdp_reg c : Z := xhci.irq_reg "erst_dequeue" c.

(** Fewer than 256 events, and none of a transfer. *)
Definition few_events d : Prop := (length (history d) < 256)%nat /\ Forall (fun ev => trb_type_of ev <> trb.transferEvent) (history d).

Lemma handle_irq_ok k fuel c d :
  evt_ok k c -> (k < length (history (wait_irq d)))%nat -> few_events (wait_irq d) -> (256 <= fuel)%nat ->
  exists c' d', xhci.handle_irq fuel c d = Ret (c', d') /\
    irq_round (iman_reg c) (erdp_reg c) (u64 (evt_base + 16 * Z.of_nat (length (history (wait_irq d))))) d d' /\
    evt_ok (length (history (wait_irq d))) c' /\ history (wait_irq d) `prefix_of` history d' /\
    xhci.cmd_events c' = fold_left (record (cmd_key c)) (drop k (history (wait_irq d))) (xhci.cmd_events c) /\
    xhci.cmd_ring c' = xhci.cmd_ring c /\ xhci.runtime c' = xhci.runtime c.
Proof.
  intros EO Hk [Hb Hty] Hf.
  destruct (event_loop_ok (length (history (wait_irq d)) - k) fuel k 0 c (wait_irq d) EO) as (deq & c' & E & EO' & Hdq & He & Hcr & Hrt);
    [lia | lia | lia | by apply Forall_drop |].
  unfold xhci.handle_irq. rewrite E. cbn [mbind res_bind]. unfold iman_reg, erdp_reg, xhci.irq_reg. rewrite Hrt.
  destruct (rd32 _ (wait_irq d)) as [iman d1] eqn:Erd. eexists c', _. split; [reflexivity |].
  replace (k + (length (history (wait_irq d)) - k))%nat with (length (history (wait_irq d))) in EO', Hdq by lia.
  destruct (length (history (wait_irq d)) - k)%nat eqn:El; [lia |]. cbn [Nat.eqb] in Hdq. subst deq.
  split_and!; try done.
  - unfold irq_round. by rewrite Erd.
  - etransitivity; [| apply law_wr64]. etransitivity; [| apply law_wr32]. change d1 with (iman, d1).2. rewrite <- Erd. apply law_rd.
Qed.

(** A completion for the command in slot [i]. *)
Definition completion_of c (i : Z) (ev : Z) : Prop := trb_type_of ev = trb.commandCompletionEvent /\ cmd_key c ev = i.

(** During the next [n] rounds there are few events, and as long as the driver has
    not consumed the completion for slot [i], the next interrupt brings an event. *)
Definition calm c (i : Z) (n k : nat) d : Prop :=
  forall m k' d', (m <= n)%nat -> irq_rounds (iman_reg c) (erdp_reg c) m k d k' d' ->
    few_events (wait_irq d') /\
    ((forall ev, ev ∈ take k' (history d') -> ~ completion_of c i ev) -> (k' < length (history (wait_irq d')))%nat).

(** The loop that waits for slot [i], with [k] events consumed: a completion among
    them is recorded, and what is recorded is a completion. *)
Record waiting (i : Z) (k : nat) c d : Prop := {
  w_evt : evt_ok k c;
  w_k : (k <= length (history d))%nat;
  w_seen : forall ev, ev ∈ take k (history d) -> completion_of c i ev -> xhci.finished (xhci.event_at i (xhci.cmd_events c)) = true;
  w_recorded : xhci.finished (xhci.event_at i (xhci.cmd_events c)) = true ->
     xhci.ev_trb (xhci.event_at i (xhci.cmd_events c)) ∈ history d /\ completion_of c i (xhci.ev_trb (xhci.event_at i (xhci.cmd_events c))) }.

Lemma wait_round i k fuel c d :
  waiting i k c d -> few_events (wait_irq d) -> (k < length (history (wait_irq d)))%nat -> (256 <= fuel)%nat ->
  exists c1 d1, let k1 := length (history (wait_irq d)) in xhci.handle_irq fuel c d = Ret (c1, d1) /\
    irq_round (iman_reg c) (erdp_reg c) (u64 (evt_base + 16 * Z.of_nat k1)) d d1 /\ waiting i k1 c1 d1 /\
    ((exists ev, ev ∈ history d /\ completion_of c i ev) -> xhci.finished (xhci.event_at i (xhci.cmd_events c1)) = true) /\
    xhci.cmd_ring c1 = xhci.cmd_ring c /\ xhci.runtime c1 = xhci.runtime c.
Proof.
  intros [EO Hk Hseen Hrec] Hfew Hnew Hf. destruct (handle_irq_ok k fuel c d EO Hnew Hfew Hf) as (c1 & d1 & E & Hround & EO1 & Hpre & He1 & Hcr & Hrt).
  set (h := history (wait_irq d)) in *. assert (Hw := law_wait d : history d `prefix_of` h).
  assert (Hle := prefix_length _ _ Hw). assert (Hlp := prefix_length _ _ Hpre).
  assert (Htake : take k h = take k (history d)) by (destruct Hw as [t ->]; by rewrite take_app_le by lia).
  assert (Hall := record_all (cmd_key c) (drop k h) (xhci.cmd_events c) i). cbn zeta in Hall. rewrite <- He1 in Hall.
  assert (Hfin : forall ev, ev ∈ h -> completion_of c i ev -> xhci.finished (xhci.event_at i (xhci.cmd_events c1)) = true).
  { intros ev Hev Hco. destruct Hall as [(x & _ & _ & _ & ->) | [-> Hno]]; [done |].
    rewrite <- (take_drop k h), Htake in Hev. apply elem_of_app in Hev as [Hev | Hev]; [by apply (Hseen ev) |].
    destruct Hco as [Ht Hkey]. by destruct (Hno ev Hev Ht). }
  assert (Hsame : forall ev, completion_of c1 i ev <-> completion_of c i ev) by (intros ev; unfold completion_of, cmd_key; by rewrite Hcr).
  exists c1, d1. cbn zeta. split_and!; try done.
  - constructor; [done | done | |].
    + intros ev Hev Hco%Hsame. destruct Hpre as [t Ht]. rewrite Ht, take_app_length in Hev. by apply (Hfin ev).
    + intros Hd. destruct Hall as [(x & Hx & Ht & Hkey & Ex) | [Ex _]].
      * rewrite Ex. cbn. split; [| by apply Hsame]. eapply elem_of_prefix; [| exact Hpre].
        rewrite <- (take_drop k h). by apply elem_of_app; right.
      * rewrite Ex in Hd |- *. destruct (Hrec Hd) as [Hin Hco]. split; [| by apply Hsame].
        eapply elem_of_prefix; [eapply elem_of_prefix; [exact Hin | exact Hw] | exact Hpre].
  - intros (ev & Hev & Hco). apply (Hfin ev); [by eapply elem_of_prefix | done].
Qed.

Lemma wait_command_ok n fuel i : forall k c d,
  waiting i k c d -> (256 <= fuel)%nat -> calm c i n k d ->
  (forall k' d', irq_rounds (iman_reg c) (erdp_reg c) n k d k' d' -> exists ev, ev ∈ history d' /\ completion_of c i ev) ->
  exists ev c' d' m k', xhci.wait_command (S n) fuel i c d = Ret (ev, c', d') /\ ev ∈ history d' /\ completion_of c i ev /\
    (m <= S n)%nat /\ irq_rounds (iman_reg c) (erdp_reg c) m k d k' d'.
Proof.
  induction n as [| n IH]; intros k c d W Hf Hcalm Hdone;
    (destruct (xhci.finished (xhci.event_at i (xhci.cmd_events c))) eqn:Efin;
     [exists (xhci.ev_trb (xhci.event_at i (xhci.cmd_events c))), c, d, 0%nat, k; cbn [xhci.wait_command]; rewrite Efin;
      destruct (w_recorded _ _ _ _ W Efin) as [? ?]; split; [reflexivity |]; split; [done |]; split; [done |]; split; [lia | apply rounds_zero] |]);
    (destruct (Hcalm 0%nat k d) as [Hfew Hnew]; [lia | apply rounds_zero |]);
    (assert (Hkn : (k < length (history (wait_irq d)))%nat)
       by (apply Hnew; intros ev Hev Hco; rewrite (w_seen _ _ _ _ W ev Hev Hco) in Efin; discriminate Efin));
    destruct (wait_round i k fuel c d W Hfew Hkn Hf) as (c1 & d1 & E & Hround & W1 & Hfin & Hcr & Hrt);
    assert (Hsame : forall ev, completion_of c1 i ev <-> completion_of c i ev) by (intros ev; unfold completion_of, cmd_key; by rewrite Hcr).
  - cbn [xhci.wait_command]. rewrite Efin, E. cbn [mbind res_bind]. rewrite Hfin by (eapply Hdone, rounds_zero).
    eexists _, c1, d1, 1%nat, _. destruct (w_recorded _ _ _ _ W1) as [? ?%Hsame]; [by eapply Hfin, Hdone, rounds_zero |].
    split; [reflexivity |]. split; [done |]. split; [done |]. split; [lia |]. eapply rounds_more; [done | done | apply rounds_zero].
  - assert (Hr : iman_reg c1 = iman_reg c /\ erdp_reg c1 = erdp_reg c) by (unfold iman_reg, erdp_reg, xhci.irq_reg; by rewrite Hrt).
    destruct Hr as [Hr1 Hr2]. destruct (IH _ c1 d1 W1 Hf) as (ev & c' & d' & m & k' & E' & Hev & Hco%Hsame & Hm & Hrs).
    + intros m k' d' Hm Hr'. rewrite Hr1, Hr2 in Hr'. destruct (Hcalm (S m) k' d') as [? Hn]; [lia | by eapply rounds_more |].
      split; [done |]. intros Hno. apply Hn. intros ev Hev Hco. by apply (Hno ev Hev), Hsame.
    + intros k' d' Hr'. rewrite Hr1, Hr2 in Hr'. destruct (Hdone k' d') as (ev & Hev & Hco); [by eapply rounds_more |].
      exists ev. split; [done | by apply Hsame].
    + exists ev, c', d', (S m), k'. cbn [xhci.wait_command] in E' |- *. rewrite Efin, E. cbn [mbind res_bind].
      split; [done |]. split; [done |]. split; [done |]. split; [lia |]. rewrite Hr1, Hr2 in Hrs. by eapply rounds_more.
Qed.

Lemma cmd_key_slot c i ev :
  ring_ok i (xhci.cmd_ring c) -> getf trb.command_completion_event_trb "trb_ptr" ev = xhci.ring_phys (xhci.cmd_ring c) + 16 * i -> cmd_key c ev = i.
Proof.
  intros R E. pose proof (ro_size _ _ R). pose proof (ro_slot _ _ R). unfold cmd_key. rewrite E.
  replace (xhci.ring_phys (xhci.cmd_ring c) + 16 * i - xhci.ring_phys (xhci.cmd_ring c)) with (i * 16) by lia.
  rewrite (u64_small (i * 16)) by (unfold is_u64; lia). rewrite Z.div_mul by lia. unfold xhci.s32, u32.
  rewrite Z.mod_small by lia. rewrite (proj2 (Z.ltb_lt i (2 ^ 31))) by lia. apply u64_small. unfold is_u64. lia.
Qed.

(** The controller executes commands: when the doorbell is rung while its next slot
    has a command with the cycle bit set, then within [latency] interrupts, each
    acknowledged with the address of the next event, it has posted a completion for
    that slot, and every completion it posts for the slot answers this command. *)
Definition executes (answers : Z -> Z -> Prop) (latency : nat) (k : nat) c : Prop :=
  forall d i, next_cmd d = i -> 0 <= i < xhci.n_entries (xhci.cmd_ring c) - 1 ->
    getf trb.raw_trb "cycle" (slot i (xhci.cmd_ring c) d) = 1 ->
    let d0 := wr32 (xhci.doorbells c) 0 d in
    (forall k' d', irq_rounds (iman_reg c) (erdp_reg c) latency k d0 k' d' ->
       exists ev, ev ∈ history d' /\ trb_type_of ev = trb.commandCompletionEvent /\
         getf trb.command_completion_event_trb "trb_ptr" ev = xhci.ring_phys (xhci.cmd_ring c) + 16 * i) /\
    (forall m k' d' ev, (m <= S latency)%nat -> irq_rounds (iman_reg c) (erdp_reg c) m k d0 k' d' ->
       ev ∈ history d' -> completion_of c i ev -> ev ∉ history d -> answers (slot i (xhci.cmd_ring c) d) ev).


(** The event ring is lost after 256 events.  It has 4096 entries, but the driver
    goes back to the first one after 256, with the other cycle state; the controller
    goes on with entry 256.  From then on the driver sees no event, tells the
    controller the address 8, and [send_command] waits for ever. *)
Theorem event_ring_lost (c : xhci.controller) (d : D) (i : Z) :
  evt_ok 255 c -> xhci.finished (xhci.event_at i (xhci.cmd_events c)) = false ->
  (forall m d', blind_rounds (iman_reg c) (erdp_reg c) m d d' -> (1 <= length (history (wait_irq d')) <= 4096)%nat) ->
  let c1 := xhci.set_evt (xhci.advance (xhci.evt_ring c)).2 c in
  forall n fuel, xhci.wait_command n (S fuel) i c1 d = NoFuel.
Proof.
  intros [Hp [Hv1 Hv2] Hd Hc _] Hfin Hmany c1 n fuel.
  assert (Hr : (xhci.advance (xhci.evt_ring c)).2 = xhci.set_dequeue (xhci.entries (xhci.evt_ring c)) 0 (xhci.evt_ring c)).
  { unfold xhci.advance. rewrite Hd, Hc. set (e := xhci.entries _) in *. rewrite (u64_small (e + 16 * Z.of_nat 255 + 16)) by (unfold is_u64; lia).
    replace (e + 16 * Z.of_nat 255 + 16 - e) with 4096 by lia. reflexivity. }
  revert d Hmany. induction n as [| n IH]; intros d Hmany; cbn [xhci.wait_command]; change (xhci.cmd_events c1) with (xhci.cmd_events c);
    rewrite Hfin; [done |].
  assert (Hirq : exists d', xhci.handle_irq (S fuel) c1 d = Ret (c1, d') /\ irq_round (iman_reg c) (erdp_reg c) 0 d d').
  { assert (Hlen := Hmany 0%nat d ltac:(apply blind_zero)). destruct (lookup_lt_is_Some_2 (history (wait_irq d)) 0 ltac:(lia)) as [ev Hev].
    destruct (law_posted (wait_irq d) 0 ev ltac:(lia) Hev) as [Hread Hcy]. rewrite Z.mul_0_r, Z.add_0_r in Hread.
    unfold xhci.handle_irq. cbn [xhci.event_loop]. unfold c1 at 1 2 3. rewrite Hr. cbn [xhci.evt_ring xhci.set_evt xhci.dequeue xhci.set_dequeue xhci.cycle].
    unfold xhci.phys_of. cbn [xhci.ring_phys xhci.entries xhci.set_dequeue]. rewrite Z.sub_diag, Z.add_0_r, Hp, Hread, Hcy. cbn [Z.eqb mbind res_bind mret res_ret].
    change (xhci.irq_reg "iman" c1) with (iman_reg c). change (xhci.irq_reg "erst_dequeue" c1) with (erdp_reg c).
    destruct (rd32 (iman_reg c) (wait_irq d)) as [v d1] eqn:Erd. eexists. split; [reflexivity |]. unfold irq_round. by rewrite Erd. }
  destruct Hirq as (d' & -> & Hround). cbn [mbind res_bind]. apply IH. intros m d2 Hm. apply (Hmany (S m)). by eapply blind_more.
Qed.
End shared.

(** ** A controller *)

(** A controller that executes one command per doorbell and interrupt: its memory,
    the slots it has completed, the doorbell and the next slot. *)
Module xhci_sim.
Record t := mk { memory : Z -> Z; posted : list Z; bell : bool; next : Z }.

Definition evt_at : Z := 0x100000.
Definition cmd_at : Z := 0x200000.
Definition doorbell : Z := 0x2000.

Definition event (i : Z) : Z :=
  putf trb.raw_trb "cycle" 1 (putf trb.command_completion_event_trb "trb_type" trb.commandCompletionEvent
    (putf trb.command_completion_event_trb "code" trb.success (putf trb.command_completion_event_trb "trb_ptr" (cmd_at + 16 * i) 0))).

Definition word (d : t) (x : Z) : Z :=
  if (evt_at <=? x) && (x <? evt_at + 16 * xhci.ring_size) then
    match posted d !! Z.to_nat ((x - evt_at) / 16) with Some i => bits (8 * ((x - evt_at) mod 16)) 32 (event i) | None => 0 end
  else memory d x.

#[export] Instance hw : XhciHw t := {
  rd32 := fun _ d => (0, d);
  wr32 := fun a _ d => if a =? doorbell then mk (memory d) (posted d) true (next d) else d;
  wr64 := fun _ _ d => d;
  dma := word;
  dma_write := fun a v d => mk (fun x => if x =? a then v else memory d x) (posted d) (bell d) (next d);
  wait_irq := fun d => if bell d then mk (memory d) (posted d ++ [next d]) false (next d + 1) else d;
  pci_read := fun _ _ d => (0, d);
  pci_write := fun _ _ _ d => d;
  get_phys_region := fun _ d => (Some (cmd_at, cmd_at), d);
  enable_irq := fun d => d;
  delay := fun _ d => d }.

Lemma event_range i : 0 <= event i < 2 ^ 128.
Proof.
  apply (putf_range _ _ _ _ 96 1 128); [reflexivity | lia.. |]. apply (putf_range _ _ _ _ 106 6 128); [reflexivity | lia.. |].
  apply (putf_range _ _ _ _ 88 8 128); [reflexivity | lia.. |]. apply (putf_range _ _ _ _ 0 64 128); [reflexivity | lia..].
Qed.

(** The words of slot [j] of the event ring. *)
Lemma word_slot d j k : (j < 4096)%nat -> 0 <= k < 4 ->
  word d (evt_at + 16 * Z.of_nat j + 4 * k) = match posted d !! j with Some i => bits (32 * k) 32 (event i) | None => 0 end.
Proof.
  intros Hj Hk. unfold word, evt_at, xhci.ring_size. rewrite (proj2 (Z.leb_le _ _)), (proj2 (Z.ltb_lt _ _)) by lia. cbn [andb].
  replace (0x100000 + 16 * Z.of_nat j + 4 * k - 0x100000) with (4 * k + Z.of_nat j * 16) by lia.
  rewrite Z.div_add, Z.mod_add, (Z.div_small (4 * k)), (Z.mod_small (4 * k)), Z.add_0_l, Nat2Z.id by lia.
  by replace (8 * (4 * k)) with (32 * k) by lia.
Qed.

Lemma read_slot d j : (j < 4096)%nat -> xhci.read_trb (evt_at + 16 * Z.of_nat j) d = match posted d !! j with Some i => event i | None => 0 end.
Proof.
  intros Hj. unfold xhci.read_trb. cbn [dma hw]. assert (H0 := word_slot d j 0 Hj). assert (H1 := word_slot d j 1 Hj).
  assert (H2 := word_slot d j 2 Hj). assert (H3 := word_slot d j 3 Hj). rewrite Z.mul_0_r, Z.add_0_r in H0.
  change (4 * 1) with 4 in H1. change (4 * 2) with 8 in H2. change (4 * 3) with 12 in H3. rewrite H0, H1, H2, H3 by lia.
  destruct (posted d !! j); [apply trb_words, event_range | done].
Qed.

#[export, refine] Instance laws : XhciLaws t := { evt_base := evt_at; history := fun d => event <$> posted d; next_cmd := next }.
Proof.
  - intros a v d x Ha _ _. cbn [dma hw]. unfold word. cbn [posted memory dma_write hw]. change (evt_at <=? x) with (evt_at <=? x).
    destruct (Z.eqb_spec x a) as [-> |]; [by rewrite Ha | done].
  - done.
  - done.
  - intros d j ev Hl Hj. rewrite list_lookup_fmap in Hj. rewrite length_fmap in Hl. destruct (posted d !! j) as [i |] eqn:E; [| done].
    assert (Hlt := lookup_lt_Some _ _ _ E). injection Hj as <-. rewrite read_slot, E by lia. split; [done |]. unfold event. by fields.
  - intros d j Hj. rewrite length_fmap in Hj. rewrite read_slot by lia. by rewrite lookup_ge_None_2 by lia.
  - intros d. cbn. destruct (bell d); [| done]. cbn [posted]. rewrite fmap_app. by eexists.
  - done.
  - intros a v d. cbn. by destruct (a =? doorbell).
  - done.
Defined.
End xhci_sim.

(** ** Witnesses *)

Section witnesses.
Import xhci_sim.

Definition cmd_example : xhci.tlb_ring := xhci.mk_ring xhci.ringTypeCommand 4 0x5000 cmd_at 0x5000 0x5000 1.
Definition evt_example (k : Z) : xhci.tlb_ring := xhci.mk_ring xhci.ringTypeEvent xhci.ring_size 0x10000 evt_at 0x10000 (0x10000 + 16 * k) 1.
Definition xhci_example (k : Z) : xhci.controller :=
  xhci.mk_controller 0x20 0x1000 doorbell [] [] ∅ 4096 0 0 32 0 cmd_example ∅ (evt_example k) 0.
Definition sim_example : xhci_sim.t := xhci_sim.mk (fun _ => 0) [] false 0.

Lemma cmd_example_ok : ring_ok 0 cmd_example.
Proof. constructor; cbn; try (done || lia). right. vm_compute. discriminate. Qed.

Lemma evt_example_ok k : (k < 256)%nat -> evt_ok k (xhci_example (Z.of_nat k)).
Proof. intros Hk. constructor; cbn; (done || lia). Qed.

Lemma command_ring_queue_witness :
  exists r' d', enqueue_all [5; 6] cmd_example sim_example = ([0; 1], r', d') /\ slot 1 cmd_example d' = putf trb.raw_trb "cycle" 1 6.
Proof.
  destruct (command_ring_queue [5; 6] 0 cmd_example sim_example cmd_example_ok) as (r' & d' & E & _ & Hs & _);
    [repeat constructor; lia | cbn; lia |].
  exists r', d'. split; [exact E |]. exact (Hs 1%nat 6 eq_refl).
Defined.

Lemma command_ring_stale_witness :
  exists l r' d', enqueue_all [5; 6; 7; 8] cmd_example sim_example = (l, r', d') /\
    (forall j, 0 <= j < 3 -> getf trb.raw_trb "cycle" (slot j cmd_example d') = 1).
Proof.
  destruct (command_ring_stale [5; 6; 7; 8] 0 cmd_example sim_example cmd_example_ok) as (l & r' & d' & E & Hs & _);
    [repeat constructor; lia | cbn; lia |].
  exists l, r', d'. split; [exact E | exact Hs].
Defined.

(** The doorbell is not one of the registers of the interrupter. *)
Lemma sim_round k q (d d' : xhci_sim.t) : irq_round (iman_reg (xhci_example k)) (erdp_reg (xhci_example k)) q d d' -> d' = wait_irq d.
Proof. intros ->. done. Qed.

Lemma sim_quiet k m (d d' : xhci_sim.t) :
  bell d = false -> blind_rounds (iman_reg (xhci_example k)) (erdp_reg (xhci_example k)) m d d' -> d' = d.
Proof.
  intros Hb Hr. induction Hr as [| n d d1 d2 Hr1 Hr IH]; [done |]. apply sim_round in Hr1. cbn in Hr1. rewrite Hb in Hr1. subst d1. by apply IH.
Qed.

(** After the doorbell at most one round finds an event. *)
Lemma sim_rounds j m k k' (d d' : xhci_sim.t) :
  (length (posted d) <= k)%nat -> irq_rounds (iman_reg (xhci_example j)) (erdp_reg (xhci_example j)) m k d k' d' ->
  (m = 0%nat /\ k' = k /\ d' = d) \/ (m = 1%nat /\ k' = S (length (posted d)) /\ bell d = true /\ d' = wait_irq d).
Proof.
  intros Hk Hr. inversion Hr as [| n k1 k2 d1 d2 d3 Hlt Hr1 Hr2]; subst; [by left |]. apply sim_round in Hr1. subst d2. right.
  cbn [history laws wait_irq hw] in Hlt, Hr2. destruct (bell d) eqn:Hb; [| rewrite length_fmap in Hlt; lia].
  cbn [posted] in Hlt, Hr2. rewrite length_fmap, length_app in Hlt, Hr2. cbn in Hlt, Hr2.
  inversion Hr2 as [| n' k1' k2' d1' d2' d3' Hlt' Hr1' Hr2']; subst.
  - split_and!; [done | lia | done |]. cbn. by rewrite Hb.
  - exfalso. cbn in Hlt'. rewrite length_fmap, length_app in Hlt'. cbn in Hlt'. lia.
Qed.

Lemma event_answers j : 0 <= cmd_at + 16 * j < 2 ^ 64 ->
  trb_type_of (event j) = trb.commandCompletionEvent /\ getf trb.command_completion_event_trb "trb_ptr" (event j) = cmd_at + 16 * j.
Proof.
  intros Hj. unfold event, trb_type_of. split.
  - change (getf trb.raw_trb "trb_type") with (getf trb.command_completion_event_trb "trb_type"). by fields.
  - fields. by apply Z.mod_small.
Qed.

Definition succeeds (_ ev : Z) : Prop := getf trb.command_completion_event_trb "code" ev = trb.success.

Lemma event_succeeds t j : succeeds t (event j).
Proof. unfold succeeds, event. by fields. Qed.

Lemma sim_executes : executes succeeds 1 0 (xhci_example 0).
Proof.
  intros d i Hn Hi _ d0. split.
  - intros k' d' Hr. inversion Hr as [| n k1 k2 d1 d2 d3 _ Hr1 Hr2]; subst. inversion Hr2; subst. rewrite (sim_round 0 _ _ _ Hr1).
    exists (event (next d)). split.
    + unfold d0. cbn [history laws wait_irq wr32 hw]. change (xhci.doorbells (xhci_example 0) =? doorbell) with true. cbn [bell posted next].
      rewrite fmap_app. apply elem_of_app. right. by apply list_elem_of_singleton.
    + apply event_answers. change (xhci.n_entries (xhci.cmd_ring (xhci_example 0))) with 4 in Hi. unfold cmd_at. lia.
  - intros m k' d' ev _ _ Hev _ _. cbn [history laws] in Hev. apply list_elem_of_fmap in Hev as (j & -> & _). apply event_succeeds.
Qed.

Lemma sim_few (d : xhci_sim.t) : (length (posted d) < 256)%nat -> few_events d.
Proof.
  intros Hl. split; [cbn; by rewrite length_fmap |]. cbn [history laws]. apply Forall_fmap, Forall_true. intros i.
  unfold compose, event, trb_type_of. change (getf trb.raw_trb "trb_type") with (getf trb.command_completion_event_trb "trb_type"). by fields.
Qed.


Lemma event_ring_lost_witness :
  xhci.wait_command 1000 4096 0 (xhci.set_evt (xhci.advance (evt_example 255)).2 (xhci_example 255))
    (xhci_sim.mk (fun _ => 0) (replicate 256 0) false 0) = NoFuel.
Proof.
  apply (event_ring_lost (xhci_example 255) (xhci_sim.mk (fun _ => 0) (replicate 256 0) false 0) 0) with (n := 1000%nat) (fuel := 4095%nat).
  - apply (evt_example_ok 255). lia.
  - reflexivity.
  - intros m d' Hr. apply sim_quiet in Hr; [| done]. rewrite Hr. cbn. lia.
Defined.
End witnesses.
