(* ===== verification/Ahci.v ===== *)
(** * Ahci: the driver for SATA host controllers

    Models src/drivers/storage/ahci (ahci.cpp, ahci.hpp): the registers and the
    structures in shared memory with their layout, the allocation of command slots,
    the commands to identify a device, to ask for its capacity and to read a sector,
    and the constructor that brings up the ports.

    The controller, the drives, the memory they share with the driver and the calls
    of the kernel are one parameter, [AhciHw].  Shared memory consists of bytes at
    physical addresses; a pointer of the driver into a region stands for the
    physical address behind it.  What the standard promises of controller and drive
    is stated in [AhciLaws]: it reads a command from memory with [fetch], which is
    written with the offsets of the standard and not with the driver's structures; and
    a port whose command has failed has stopped, until software restarts it, which the
    driver never does ([stopped_port_fails]).  The output to the console is left out. *)

From S2P Require Import Prelude Bits Fields.

(** ** Registers and structures *)

Module ahci_regs.
Definition cap_t : layout :=
  [("np", 5); ("sxs", 1); ("ems", 1); ("cccs", 1); ("ncs", 5); ("psc", 1); ("ssc", 1); ("pmd", 1); ("fbss", 1);
   ("spm", 1); ("sam", 1); ("reserved", 1); ("iss", 4); ("sclo", 1); ("sal", 1); ("salp", 1); ("sss", 1);
   ("smps", 1); ("ssntf", 1); ("sncq", 1); ("s64a", 1)].
Definition ghc_t : layout := [("hr", 1); ("ie", 1); ("mrsm", 1); ("reserved", 28); ("ea", 1)].
Definition vs_t : layout := [("subminor", 8); ("minor", 8); ("major", 16)].
Definition ccc_ctl_t : layout := [("en", 1); ("reserved", 2); ("interrupt", 5); ("cc", 8); ("tv", 16)].
Definition em_loc_t : layout := [("size", 16); ("offset", 16)].
Definition em_ctl_t : layout :=
  [("mr", 1); ("reserved", 7); ("tm", 1); ("reset", 1); ("reserved_0", 6); ("led", 1); ("safte", 1); ("ses2", 1);
   ("sgpio", 1); ("reserved_1", 4); ("smb", 1); ("xmt", 1); ("alhd", 1); ("pm", 1)].
Definition cap2_t : layout :=
  [("boh", 1); ("nvmp", 1); ("apst", 1); ("sds", 1); ("sadm", 1); ("deso", 1); ("reserved", 26)].
Definition bohc_t : layout := [("bos", 1); ("oos", 1); ("sooe", 1); ("ooc", 1); ("bb", 1); ("reserved", 27)].

(** The registers of the controller. *)
Definition ghcr_t : layout :=
  [("cap", 32); ("ghc", 32); ("is", 32); ("pi", 32); ("vs", 32); ("ccc_ctl", 32); ("ccc_ports", 32); ("em_loc", 32);
   ("em_ctl", 32); ("cap2", 32); ("bohc", 32)].

(** [is_pending] and [is_implemented]. *)
Definition is_pending (port irq_pending : Z) : bool := negb (Z.land irq_pending (u32 (Z.shiftl 1 port)) =? 0).
Definition is_implemented (port implemented : Z) : bool := negb (Z.land implemented (u32 (Z.shiftl 1 port)) =? 0).

Definition is_t : layout :=
  [("dhrs", 1); ("pss", 1); ("dss", 1); ("sdbs", 1); ("ufs", 1); ("pds", 1); ("pcs", 1); ("dmps", 1);
   ("reserved", 14); ("prcs", 1); ("imps", 1); ("ofs", 1); ("reserved_0", 1); ("infs", 1); ("ifs", 1); ("hbds", 1);
   ("hbfs", 1); ("tfes", 1); ("cpds", 1)].
Definition ie_t : layout :=
  [("dhre", 1); ("pse", 1); ("dse", 1); ("sdbe", 1); ("ufe", 1); ("pde", 1); ("pce", 1); ("dmpe", 1);
   ("reserved", 14); ("prce", 1); ("impe", 1); ("ofe", 1); ("reserved_0", 1); ("infe", 1); ("ife", 1); ("hbde", 1);
   ("hbfe", 1); ("tfee", 1); ("cpde", 1)].
Definition cmd_t : layout :=
  [("st", 1); ("sud", 1); ("pod", 1); ("clo", 1); ("fre", 1); ("reserved", 3); ("ccs", 5); ("mpss", 1); ("fr", 1);
   ("cr", 1); ("cps", 1); ("pma", 1); ("hpcp", 1); ("mpsp", 1); ("cpd", 1); ("esp", 1); ("fbscp", 1); ("apste", 1);
   ("atapi", 1); ("dlae", 1); ("alpe", 1); ("asp", 1); ("icc", 4)].
Definition tfd_t : layout :=
  [("error", 1); ("command_specific", 2); ("drq", 1); ("command_specific_1", 3); ("busy", 1); ("err", 8);
   ("reserved", 16)].
Definition ssts_t : layout := [("det", 4); ("spd", 4); ("ipm", 4); ("reserved", 20)].
Definition sctl_t : layout := [("det", 4); ("spd", 4); ("ipm", 4); ("spm", 4); ("pmp", 4); ("reserved", 12)].
Definition serr_t : layout := [("err", 16); ("diag", 16)].
Definition sntf_t : layout := [("pmn", 16); ("reserved", 16)].
Definition fbs_t : layout :=
  [("en", 1); ("dec", 1); ("sde", 1); ("reserved", 5); ("dev", 4); ("ado", 4); ("dwe", 4); ("reserved_0", 12)].
Definition dev_sleep_t : layout :=
  [("adse", 1); ("dsp", 1); ("deto", 8); ("mdat", 5); ("dito", 10); ("reserved", 3)].

(** The registers of a port, and where the ports start. *)
Definition prs_t : layout :=
  [("clb", 32); ("clbu", 32); ("fb", 32); ("fbu", 32); ("is", 32); ("ie", 32); ("cmd", 32); ("reserved", 32);
   ("tfd", 32); ("sig", 32); ("ssts", 32); ("sctl", 32); ("serr", 32); ("sact", 32); ("ci", 32); ("sntf", 32);
   ("fbs", 32); ("dev_sleep", 32); ("reserved_0", 320); ("vendor_specific", 128)].
Definition hba_t : layout := [("ghcr", 352); ("reserved", 416); ("nvmhci", 512); ("vendor_specific", 768); ("ports", 0)].

(** [sig_t::device_types] and [sig_t::get_type]. *)
Inductive device_types := Nothing | SATA | SATAPI | EnclosureManagementBridge | PortMultiplier | Default.
Definition get_type (raw : Z) : device_types :=
  if raw =? 0x0 then Nothing
  else if raw =? 0x0101 then SATA
  else if raw =? 0xEB140101 then SATAPI
  else if raw =? 0xC33C0101 then EnclosureManagementBridge
  else if raw =? 0x96690101 then PortMultiplier
  else if raw =? 0xFFFFFFFF then Default
  else Nothing.

Definition cmd_header : layout :=
  [("cfl", 5); ("atapi", 1); ("write", 1); ("prefetchable", 1); ("srst_control", 1); ("bist", 1); ("clear", 1);
   ("reserved", 1); ("pmp", 4); ("prdtl", 16); ("prdbc", 32); ("ctba", 32); ("ctbau", 32); ("reserved_0", 128)].
Definition h2d_register_fis : layout :=
  [("type", 8); ("pm_port", 4); ("reserved", 3); ("c", 1); ("command", 8); ("features", 8); ("lba_0", 8); ("lba_1", 8);
   ("lba_2", 8); ("dev_head", 8); ("lba_3", 8); ("lba_4", 8); ("lba_5", 8); ("features_exp", 8);
   ("sector_count_low", 8); ("sector_count_high", 8); ("reserved_0", 8); ("control", 8); ("reserved_1", 32)].
Definition prdt_t : layout :=
  [("low", 32); ("high", 32); ("reserved", 32); ("byte_count", 22); ("reserved_0", 9); ("irq_on_completion", 1)].
Definition command_table_t : layout := [("fis", 512); ("packet", 128); ("reserved", 384); ("prdts", 0)].

(** [prdt_t::calculate_bytecount] and [command_table_t::calculate_length]. *)
Definition calculate_bytecount (count : Z) : res Z :=
  _ ← ASSERT (count mod 2 =? 0) "(count % 2) == 0";
  _ ← ASSERT (count <=? 0x3FFFFF) "count <= 0x3FFFFF";
  mret (Z.land (u64 (Z.land (u64 (count + 1)) (not64 1) - 1)) 0x3FFFFF).
Definition calculate_length (n_prdts : Z) : Z := u64 (layout_size command_table_t / 8 + u64 (layout_size prdt_t / 8 * n_prdts)).
End ahci_regs.

Module ahci_commands.
Definition read : Z := 0x20.
Definition read_dma : Z := 0xC8.
Definition read_extended : Z := 0x24.
Definition read_extended_dma : Z := 0x25.
Definition write : Z := 0x30.
Definition write_dma : Z := 0xCA.
Definition write_extended : Z := 0x34.
Definition write_extended_dma : Z := 0x35.
Definition identify : Z := 0xEC.
Definition identify_packet_interface : Z := 0xA1.
Definition send_packet : Z := 0xA0.

(** [packet_commands::read_capacity]. *)
Definition read_capacity : Z := 0x25.
Definition packet : layout :=
  [("command", 8); ("reserved", 8); ("lba", 32); ("reserved_0", 8); ("reserved_1", 8); ("reserved_2", 8);
   ("control_2", 8); ("zero", 8); ("zero_0", 8)].
Definition response : layout := [("lba", 32); ("block_size", 32)].
End ahci_commands.

(** [bswap32] of libdriver/bit.hpp. *)
Definition bswap32 (dword : Z) : Z :=
  Z.lor (Z.lor (Z.lor (Z.land (Z.shiftr dword 24) 0xFF) (Z.land (u32 (Z.shiftl dword 8)) 0xFF0000))
               (Z.land (Z.shiftr dword 8) 0xFF00)) (Z.land (u32 (Z.shiftl dword 24)) 0xFF000000).

(** ** The controller and its surroundings *)

(** Accesses to the registers, by offset from the start of the window, which may
    take time and have effects; the bytes of shared memory; a new region of shared
    memory (its physical address), or none; delays. *)
Class AhciHw (D : Type) := {
  rd : Z -> D -> Z * D;
  wr : Z -> Z -> D -> D;
  mem : D -> Z -> Z;
  mem_write : Z -> Z -> D -> D;
  new_region : Z -> D -> option Z * D;
  pause : Z -> D -> D
}.

Module ahci.
Import ahci_regs.
Section driver.
Context {D : Type} `{HW : AhciHw D}.

(** *** Shared structures *)

Fixpoint write_le (a : Z) (n : nat) (v : Z) (d : D) : D :=
  match n with O => d | S n => write_le (a + 1) n (v / 256) (mem_write a (v mod 256) d) end.

(** The assignment of a member: the bytes that hold it are read and written back. *)
Definition put_member (base : Z) (l : layout) (name : string) (x : Z) (d : D) : D :=
  let '(lo, n) := find_field l name 0 in
  let a := base + lo / 8 in
  let k := Z.to_nat ((lo mod 8 + n + 7) / 8) in
  write_le a k (set_bits (lo mod 8) n x (le_at (mem d) a k)) d.

(** The value of a member. *)
Definition get_member (base : Z) (l : layout) (name : string) (d : D) : Z :=
  let '(lo, n) := find_field l name 0 in bits (lo mod 8) n (le_at (mem d) (base + lo / 8) (Z.to_nat ((lo mod 8 + n + 7) / 8))).

Definition bytes_at (m : Z -> Z) (a : Z) (n : nat) : list Z := (fun k => m (a + Z.of_nat k)) <$> seq 0 n.

(** *** State *)

(** [regs] is the offset of the port's registers, [region] the physical address of
    its command headers. *)
Record port := mk_port {
  regs : Z; type : device_types; region : Z; identification : list Z; lba48 : bool; removeable : bool; n_sectors : Z;
  bytes_per_sector : Z }.

Record controller := mk_controller {
  major_version : Z; minor_version : Z; subminor_version : Z; n_allocated_ports : Z; n_command_slots : Z;
  addressing_64bit : bool; ports : list port }.

Definition set_version (a b s : Z) (c : controller) : controller :=
  mk_controller (u8 a) (u8 b) (u8 s) (n_allocated_ports c) (n_command_slots c) (addressing_64bit c) (ports c).
Definition set_ports (l : list port) (c : controller) : controller :=
  mk_controller (major_version c) (minor_version c) (subminor_version c) (n_allocated_ports c) (n_command_slots c) (addressing_64bit c) l.

Definition set_regs (r : Z) (p : port) : port :=
  mk_port r (type p) (region p) (identification p) (lba48 p) (removeable p) (n_sectors p) (bytes_per_sector p).
Definition set_type (t : device_types) (p : port) : port :=
  mk_port (regs p) t (region p) (identification p) (lba48 p) (removeable p) (n_sectors p) (bytes_per_sector p).
Definition set_region (r : Z) (p : port) : port :=
  mk_port (regs p) (type p) r (identification p) (lba48 p) (removeable p) (n_sectors p) (bytes_per_sector p).
Definition set_identification (l : list Z) (p : port) : port :=
  mk_port (regs p) (type p) (region p) l (lba48 p) (removeable p) (n_sectors p) (bytes_per_sector p).
Definition set_lba48 (b : bool) (p : port) : port :=
  mk_port (regs p) (type p) (region p) (identification p) b (removeable p) (n_sectors p) (bytes_per_sector p).
Definition set_removeable (b : bool) (p : port) : port :=
  mk_port (regs p) (type p) (region p) (identification p) (lba48 p) b (n_sectors p) (bytes_per_sector p).
Definition set_capacity (n b : Z) (p : port) : port :=
  mk_port (regs p) (type p) (region p) (identification p) (lba48 p) (removeable p) (u64 n) (u32 b).

Definition ghcr_reg (name : string) : Z := offset_of ghcr_t name.
Definition prs_reg (name : string) (p : port) : Z := regs p + offset_of prs_t name.

(** *** Waiting *)

(** [bios_gain_ownership]. *)
Definition bios_gain_ownership (c : controller) (d : D) : bool * D :=
  if (1 <=? major_version c) && (2 <=? minor_version c) then
    let '(cap2, d) := rd (ghcr_reg "cap2") d in
    if negb (getf cap2_t "boh" cap2 =? 0) then
      let '(bohc, d) := rd (ghcr_reg "bohc") d in
      let d := wr (ghcr_reg "bohc") (putf bohc_t "oos" 1 bohc) d in
      let d := pause 100000 d in
      let '(bohc, d) := rd (ghcr_reg "bohc") d in
      let d := if negb (getf bohc_t "bb" bohc =? 0) then pause 800000 d else d in
      let '(bohc, d) := rd (ghcr_reg "bohc") d in
      if (getf bohc_t "oos" bohc =? 0) && (negb (getf bohc_t "bos" bohc =? 0) || negb (getf bohc_t "bb" bohc =? 0)) then (false, d)
      else (true, wr (ghcr_reg "bohc") (putf bohc_t "ooc" 0 bohc) d)
    else (true, d)
  else (true, d).

(** [while(1){ poll{cmd}; if(!poll.field) break; }] *)
Fixpoint poll_cmd (fuel : nat) (field : string) (p : port) (d : D) : res D :=
  match fuel with
  | O => NoFuel
  | S fuel =>
      let '(poll, d) := rd (prs_reg "cmd" p) d in
      if getf cmd_t field poll =? 0 then mret d else poll_cmd fuel field p d
  end.

Definition wait_idle (fuel : nat) (p : port) (d : D) : res D :=
  let '(cmd, d) := rd (prs_reg "cmd" p) d in
  let d := wr (prs_reg "cmd" p) (putf cmd_t "st" 0 cmd) d in
  d ← poll_cmd fuel "cr" p d;
  let '(cmd, d) := rd (prs_reg "cmd" p) d in
  let d := wr (prs_reg "cmd" p) (putf cmd_t "fre" 0 cmd) d in
  poll_cmd fuel "fr" p d.

(** The drive takes a command: neither [busy] nor [drq]. *)
Definition ready (tfd : Z) : bool := (getf tfd_t "busy" tfd =? 0) && (getf tfd_t "drq" tfd =? 0).

Fixpoint wait_ready (fuel : nat) (p : port) (d : D) : res D :=
  match fuel with
  | O => NoFuel
  | S fuel =>
      let '(tfd, d) := rd (prs_reg "tfd" p) d in
      if ready tfd then mret d else wait_ready fuel p (pause 1 d)
  end.

(** *** Command slots *)

(** [get_free_command_slot]: [n] slots from [i] on are left to look at. *)
Fixpoint free_slot_from (n : nat) (i : Z) (p : port) (d : D) : Z * D :=
  match n with
  | O => (-1, d)
  | S n =>
      let '(ci, d) := rd (prs_reg "ci" p) d in
      if Z.land ci (u32 (Z.shiftl 1 i)) =? 0 then (i, d) else free_slot_from n (i + 1) p d
  end.
Definition get_free_command_slot (c : controller) (p : port) (d : D) : Z * D := free_slot_from (Z.to_nat (n_command_slots c)) 0 p d.

(** [port.region->command_headers[index]]. *)
Definition header (index : Z) (p : port) : Z := region p + layout_size cmd_header / 8 * index.

(** [allocate_command]: the slot and the command table, or [None] for [{-1, nullptr}]. *)
Definition allocate_command (c : controller) (p : port) (fis_size : Z) (d : D) : res (option (Z * Z) * D) :=
  let '(index, d) := get_free_command_slot c p d in
  if index =? -1 then mret (None, d)
  else
    _ ← ASSERT (index <? 32) "index < 32";
    match new_region fis_size d with
    | (None, d) => mret (None, d)
    | (Some phys, d) =>
        let d := put_member (header index p) cmd_header "ctba" (Z.land phys 0xFFFFFFFF) d in
        let d := if addressing_64bit c then put_member (header index p) cmd_header "ctbau" (Z.land (Z.shiftr phys 32) 0xFFFFFFFF) d else d in
        mret (Some (index, phys), d)
    end.

(** The three lines on the command header that all commands start with. *)
Definition start_header (h : Z) (d : D) : D :=
  let d := put_member h cmd_header "prdtl" 1 d in
  let d := put_member h cmd_header "write" 0 d in
  put_member h cmd_header "cfl" 5 d.

(** [slot.second->prdts[0]] and the address in it. *)
Definition prdt_of (table : Z) : Z := table + offset_of command_table_t "prdts".
Definition set_buffer (prdt phys : Z) (d : D) : D :=
  let d := put_member prdt prdt_t "low" (Z.land phys 0xFFFFFFFF) d in
  put_member prdt prdt_t "high" (Z.land (Z.shiftr phys 32) 0xFFFFFFFF) d.

(** The loop that waits for the end of a command; [false] when the drive reports an
    error. *)
Fixpoint wait_done (fuel : nat) (index : Z) (p : port) (d : D) : res (bool * D) :=
  match fuel with
  | O => NoFuel
  | S fuel =>
      let '(ci, d) := rd (prs_reg "ci" p) d in
      if Z.land ci (u32 (Z.shiftl 1 index)) =? 0 then mret (true, d)
      else
        let '(isr, d) := rd (prs_reg "is" p) d in
        if negb (getf is_t "tfes" isr =? 0) then
          let '(tfd, d) := rd (prs_reg "tfd" p) d in
          if negb (getf tfd_t "error" tfd =? 0) then mret (false, d) else wait_done fuel index p d
        else wait_done fuel index p d
  end.

(** [wait_ready], [ci |= 1 << index] and that loop. *)
Definition run_command (fuel : nat) (index : Z) (p : port) (d : D) : res (bool * D) :=
  d ← wait_ready fuel p d;
  let '(ci, d) := rd (prs_reg "ci" p) d in
  let d := wr (prs_reg "ci" p) (Z.lor ci (u32 (Z.shiftl 1 index))) d in
  wait_done fuel index p d.

(** *** Commands *)

(** [verify_region_integrity]. *)
Definition verify_region_integrity (identity : list Z) : bool :=
  let byte i := default 0 (identity !! i) in
  if byte 510%nat =? 0xA5 then
    let checksum := foldl (fun sum i => u8 (sum + byte i)) 0 (seq 0 511) in
    u8 (- checksum) =? byte 511%nat
  else if negb (byte 510%nat =? 0) then false
  else true.

Definition identify (fuel : nat) (packet_device : bool) (c : controller) (p : port) (d : D) : res (port * D) :=
  '(slot, d) ← allocate_command c p (calculate_length 1) d;
  match slot with
  | None => Panic "command_index != -1"
  | Some (index, table) =>
      let d := start_header (header index p) d in
      let fis := table + offset_of command_table_t "fis" in
      let d := put_member fis h2d_register_fis "type" 0x27 d in
      let d := put_member fis h2d_register_fis "c" 1 d in
      let d := put_member fis h2d_register_fis "command" (if packet_device then ahci_commands.identify_packet_interface else ahci_commands.identify) d in
      let d := put_member fis h2d_register_fis "control" 0x08 d in
      let d := put_member fis h2d_register_fis "dev_head" 0xA0 d in
      count ← calculate_bytecount 512;
      let d := put_member (prdt_of table) prdt_t "byte_count" count d in
      match new_region 512 d with
      | (None, d) => mret (p, d)
      | (Some phys, d) =>
          let d := set_buffer (prdt_of table) phys d in
          '(ok, d) ← run_command fuel index p d;
          if ok : bool then
            let p := set_identification (bytes_at (mem d) phys 512) p in
            _ ← ASSERT (verify_region_integrity (identification p)) "verify_region_integrity(port.identification)";
            mret (p, d)
          else mret (p, d)
      end
  end.

Definition pi_read_capacity (fuel : nat) (c : controller) (p : port) (d : D) : res (Z * Z * D) :=
  '(slot, d) ← allocate_command c p (calculate_length 1) d;
  match slot with
  | None => Panic "command_index != -1"
  | Some (index, table) =>
      let d := start_header (header index p) d in
      let d := put_member (header index p) cmd_header "atapi" 1 d in
      let fis := table + offset_of command_table_t "fis" in
      let d := put_member fis h2d_register_fis "type" 0x27 d in
      let d := put_member fis h2d_register_fis "c" 1 d in
      let d := put_member fis h2d_register_fis "command" ahci_commands.send_packet d in
      let d := put_member fis h2d_register_fis "control" 0x08 d in
      let d := put_member fis h2d_register_fis "dev_head" 0xA0 d in
      let d := put_member fis h2d_register_fis "features" 0x1 d in
      count ← calculate_bytecount 8;
      let d := put_member (prdt_of table) prdt_t "byte_count" count d in
      match new_region 8 d with
      | (None, d) => mret (0, 0, d)
      | (Some phys, d) =>
          let d := set_buffer (prdt_of table) phys d in
          let d := put_member (table + offset_of command_table_t "packet") ahci_commands.packet "command" ahci_commands.read_capacity d in
          '(ok, d) ← run_command fuel index p d;
          if ok : bool then
            mret (bswap32 (get_member phys ahci_commands.response "lba" d), bswap32 (get_member phys ahci_commands.response "block_size" d), d)
          else mret (0, 0, d)
      end
  end.

(** The command FIS of [read_sector]. *)
Definition read_fis (fis lba : Z) (d : D) : D :=
  let d := put_member fis h2d_register_fis "type" 0x27 d in
  let d := put_member fis h2d_register_fis "c" 1 d in
  let d := put_member fis h2d_register_fis "command" ahci_commands.read_extended_dma d in
  let d := put_member fis h2d_register_fis "control" 0x08 d in
  let d := put_member fis h2d_register_fis "dev_head" (Z.lor 0xA0 (Z.shiftl 1 6)) d in
  let d := put_member fis h2d_register_fis "sector_count_low" 1 d in
  let d := put_member fis h2d_register_fis "sector_count_high" 0 d in
  let d := put_member fis h2d_register_fis "lba_0" (Z.land lba 0xFF) d in
  let d := put_member fis h2d_register_fis "lba_1" (Z.land (Z.shiftr lba 8) 0xFF) d in
  let d := put_member fis h2d_register_fis "lba_2" (Z.land (Z.shiftr lba 16) 0xFF) d in
  let d := put_member fis h2d_register_fis "lba_3" (Z.land (Z.shiftr lba 24) 0xFF) d in
  let d := put_member fis h2d_register_fis "lba_4" (Z.land (Z.shiftr lba 32) 0xFF) d in
  put_member fis h2d_register_fis "lba_5" (Z.land (Z.shiftr lba 40) 0xFF) d.

Definition read_sector (fuel : nat) (c : controller) (p : port) (lba : Z) (d : D) : res (list Z * D) :=
  '(slot, d) ← allocate_command c p (calculate_length 1) d;
  match slot with
  | None => Panic "command_index != -1"
  | Some (index, table) =>
      let d := start_header (header index p) d in
      let d := read_fis (table + offset_of command_table_t "fis") lba d in
      count ← calculate_bytecount (bytes_per_sector p);
      let d := put_member (prdt_of table) prdt_t "byte_count" count d in
      match new_region (bytes_per_sector p) d with
      | (None, d) => mret ([], d)
      | (Some phys, d) =>
          let d := set_buffer (prdt_of table) phys d in
          '(ok, d) ← run_command fuel index p d;
          mret (if ok : bool then bytes_at (mem d) phys (Z.to_nat (bytes_per_sector p)) else [], d)
      end
  end.

(** *** The constructor *)

(** The names in the identification: the bytes of each 16-bit word are swapped. *)
Fixpoint swap_pairs (l : list Z) : list Z :=
  match l with x :: y :: l => y :: x :: swap_pairs l | _ => l end.
Definition serial_number (p : port) : list Z := swap_pairs (take 20 (drop 20 (identification p))).
Definition fw_revision (p : port) : list Z := swap_pairs (take 8 (drop 46 (identification p))).
Definition model (p : port) : list Z := swap_pairs (take 40 (drop 54 (identification p))).

Definition id_byte (i : nat) (p : port) : Z := default 0 (identification p !! i).

(** What is read from the identification. *)
Definition id_lba48 (p : port) : bool := negb (Z.land (id_byte 167 p) 4 =? 0) && negb (Z.land (id_byte 173 p) 4 =? 0).
Definition id_sectors (p : port) : Z :=
  let at_ (a : nat) n := le_at (fun x => id_byte (Z.to_nat x) p) (Z.of_nat a) n in
  if at_ 200%nat 8%nat =? 0 then at_ 120%nat 4%nat else at_ 200%nat 8%nat.

(** The port's addresses, and the start of its command engine. *)
Definition install_region (c : controller) (phys : Z) (p : port) (d : D) : D :=
  let d := wr (prs_reg "clb" p) (Z.land phys 0xFFFFFFFF) d in
  let d := if addressing_64bit c then wr (prs_reg "clbu" p) (Z.land (Z.shiftr phys 32) 0xFFFFFFFF) d else d in
  let d := wr (prs_reg "fb" p) (u32 (Z.land phys 0xFFFFFFFF + layout_size cmd_header / 8 * 32)) d in
  if addressing_64bit c then wr (prs_reg "fbu" p) (Z.land (Z.shiftr phys 32) 0xFFFFFFFF) d else d.
Definition start_engine (p : port) (d : D) : bool * D :=
  let '(cmd, d) := rd (prs_reg "cmd" p) d in
  let d := wr (prs_reg "cmd" p) (putf cmd_t "st" 1 (putf cmd_t "fre" 1 cmd)) d in
  let d := wr (prs_reg "is" p) 0xFFFFFFFF d in
  let d := pause 100000 d in
  let '(cmd, d) := rd (prs_reg "cmd" p) d in
  (negb (getf cmd_t "cr" cmd =? 0) && negb (getf cmd_t "fr" cmd =? 0), d).

(** The end of the loop's body, once the engine runs. *)
Definition examine (fuel : nat) (c : controller) (p : port) (d : D) : res (port * D) :=
  '(p, d) ← identify fuel (match type p with SATAPI => true | _ => false end) c p d;
  let p := set_lba48 (id_lba48 p) p in
  match type p with
  | SATA => mret (set_capacity (id_sectors p) 512 p, d)
  | SATAPI =>
      let p := set_removeable (Z.shiftr (id_byte 0 p) 7 =? 1) p in
      '(n, b, d) ← pi_read_capacity fuel c p d;
      mret (set_capacity n b p, d)
  | _ => mret (p, d)
  end.

(** What happens after the body of the loop: [continue], or [break] and [return]. *)
Inductive flow := Next | Leave.

(** One pass of the loop over the ports. *)
Definition init_port (fuel : nat) (c : controller) (pi i : Z) (p : port) (d : D) : res (flow * port * D) :=
  if is_implemented i pi then
    let p := set_regs (offset_of hba_t "ports" + layout_size prs_t / 8 * i) p in
    let '(ssts, d) := rd (prs_reg "ssts" p) d in
    if negb (getf ssts_t "det" ssts =? 3) then mret (if getf ssts_t "det" ssts =? 1 then Leave else Next, p, d)
    else if negb (getf ssts_t "ipm" ssts =? 1) then mret (Next, p, d)
    else
      let '(sig, d) := rd (prs_reg "sig" p) d in
      let p := set_type (get_type sig) p in
      match type p with
      | Nothing => mret (Leave, p, d)
      | _ =>
          match new_region 0x1000 d with
          | (None, d) => mret (Next, p, d)
          | (Some phys, d) =>
              d ← wait_idle fuel p d;
              let p := set_region phys p in
              let d := install_region c phys p d in
              let '(started, d) := start_engine p d in
              if started : bool then '(p, d) ← examine fuel c p d; mret (Next, p, d)
              else mret (Next, p, d)
          end
      end
  else mret (Next, p, d).

Fixpoint init_ports (fuel : nat) (c : controller) (pi i : Z) (done todo : list port) (d : D) : res (list port * D) :=
  match todo with
  | [] => mret (done, d)
  | p :: todo =>
      '(f, p, d) ← init_port fuel c pi i p d;
      match f with
      | Next => init_ports fuel c pi (i + 1) (done ++ [p]) todo d
      | Leave => mret (done ++ p :: todo, d)
      end
  end.

(** [controller::controller].  [fresh] has the contents of the memory that the object
    and its ports are made in. *)
Definition make_controller (fuel : nat) (fresh : controller) (fresh_ports : nat -> port) (d : D) : res (controller * D) :=
  let '(vs, d) := rd (ghcr_reg "vs") d in
  let c := if getf vs_t "major" vs =? 0
           then set_version (getf vs_t "major" vs) (Z.shiftl (getf vs_t "minor" vs) 4 + getf vs_t "subminor" vs) 0 fresh
           else set_version (getf vs_t "major" vs) (getf vs_t "minor" vs) (getf vs_t "subminor" vs) fresh in
  let '(owner, d) := bios_gain_ownership c d in
  if negb owner then mret (c, d)
  else
    let '(ghc, d) := rd (ghcr_reg "ghc") d in
    let d := wr (ghcr_reg "ghc") (putf ghc_t "ea" 1 ghc) d in
    let '(cap, d) := rd (ghcr_reg "cap") d in
    let d := if (1 <=? major_version c) && (2 <=? minor_version c) then (rd (ghcr_reg "cap2") d).2 else d in
    let n := getf cap_t "np" cap + 1 in
    let c := mk_controller (major_version c) (minor_version c) (subminor_version c) n (getf cap_t "ncs" cap + 1)
               (negb (getf cap_t "s64a" cap =? 0)) (fresh_ports <$> seq 0 (Z.to_nat n)) in
    let '(pi, d) := rd (ghcr_reg "pi") d in
    '(l, d) ← init_ports fuel c pi 0 [] (ports c) d;
    mret (set_ports l c, d).
End driver.
End ahci.

(** ** What the standard promises *)

(** A command as the controller reads it from the command list at [clb]: the fields
    of the header (length of the FIS, ATAPI, write, reset, self test, port of a
    multiplier, number of buffers), of the register FIS (type, flags, command,
    LBA mode, address, number of sectors) and of the first buffer. *)
Record request := mk_request {
  q_cfl : Z; q_atapi : Z; q_write : Z; q_reset : Z; q_bist : Z; q_pmp : Z; q_prdtl : Z;
  q_type : Z; q_flags : Z; q_command : Z; q_lba_mode : Z; q_lba : Z; q_count : Z; q_buffer : Z; q_bytes : Z }.

Definition header_at (clb slot : Z) : Z := clb + 32 * slot.

Definition fetch (m : Z -> Z) (clb slot : Z) : request :=
  let hd := le_at m (header_at clb slot) 16 in
  let table := 128 * (bits 64 64 hd / 128) in
  let fis := le_at m table 20 in
  let byte k := bits (8 * k) 8 fis in
  let prd := le_at m (table + 0x80) 16 in
  mk_request (bits 0 5 hd) (bits 5 1 hd) (bits 6 1 hd) (bits 8 1 hd) (bits 9 1 hd) (bits 12 4 hd) (bits 16 16 hd)
    (byte 0) (byte 1) (byte 2) (bits 6 1 (byte 7))
    (byte 4 + 2 ^ 8 * byte 5 + 2 ^ 16 * byte 6 + 2 ^ 24 * byte 8 + 2 ^ 32 * byte 9 + 2 ^ 40 * byte 10)
    (byte 12 + 256 * byte 13) (2 * (bits 0 64 prd / 2)) (bits 96 22 prd + 1).

(** READ DMA EXT for one sector. *)
Definition read_request (lba buffer bytes : Z) : request := mk_request 5 0 0 0 0 0 1 0x27 0x80 0x25 1 lba 1 buffer bytes.

(** What one can observe of the controller and the kernel: the bytes the driver was
    given and those the controller may write; the command list of the port whose
    registers are at an offset; the commands that are issued; whether the port has
    stopped, as it does when a command fails, until software restarts it and clears
    the error; the requests it has taken; the steps until the work at hand is done, and how many a command adds;
    how many regions the kernel still has; and the sectors of the drives, [None] for
    one that cannot be read. *)
Class AhciView (D : Type) := {
  owned : D -> Z -> bool;
  target : D -> Z -> bool;
  clb_of : Z -> D -> Z;
  issued : Z -> D -> Z -> bool;
  stopped : Z -> D -> bool;
  serving : Z -> Z -> request -> D -> Prop;
  work : D -> nat;
  latency : nat;
  regions_left : D -> nat;
  medium : Z -> Z -> option (list Z)
}.

Section view.
Context {D : Type} `{HW : AhciHw D} `{AV : AhciView D}.

(** What stays while a command is prepared: the controller takes no new work. *)
Record calm (d d' : D) : Prop := {
  calm_owned x : owned d x = true -> owned d' x = true;
  calm_target x : target d' x = true -> target d x = true;
  calm_clb r : clb_of r d' = clb_of r d;
  calm_issued r s : issued r d' s = true -> issued r d s = true;
  calm_idle r : stopped r d = false -> (forall s, 0 <= s < 32 -> issued r d s = false) -> stopped r d' = false;
  calm_stopped r : stopped r d = true -> stopped r d' = true /\ (forall s, issued r d s = true -> issued r d' s = true);
  calm_work : (work d' <= work d)%nat }.

(** Time passes, as it does with each access to a register. *)
Record passes (d d' : D) : Prop := {
  passes_calm : calm d d';
  passes_mem x : target d x = false -> mem d' x = mem d x;
  passes_regions : regions_left d' = regions_left d;
  passes_serving r s q : serving r s q d -> serving r s q d' }.

(** No other command of the port is issued. *)
Definition alone (r s : Z) (d : D) : Prop := forall s', 0 <= s' < 32 -> s' <> s -> issued r d s' = false.
End view.

(** The registers are named by their offsets in the standard: 0x10 is the interrupt
    status, 0x20 the task file, 0x38 the command issue register; the registers of a
    port start at a multiple of 0x80.  A port that runs takes the commands that are
    issued.  When one fails, TFES and ERR are set and the port stops: it takes no
    further commands, and what is issued stays so. *)
Class AhciLaws (D : Type) `{HW : AhciHw D} `{AV : AhciView D} := {
  law_byte d x : 0 <= mem d x < 256;
  law_mem a v d x : mem (mem_write a v d) x = if x =? a then u8 v else mem d x;
  law_mem_calm a v d : calm d (mem_write a v d);
  law_mem_regions a v d : regions_left (mem_write a v d) = regions_left d;
  law_rd a d : passes d (rd a d).2;
  law_pause n d : passes d (pause n d);
  law_target d x : target d x = true -> owned d x = true;
  law_region n d phys d' : 0 <= n -> new_region n d = (Some phys, d') ->
    calm d d' /\ 0 < phys < 2 ^ 64 - n /\ phys mod 4096 = 0 /\
    (forall x, phys <= x < phys + n -> owned d x = false /\ owned d' x = true /\ mem d' x = 0) /\
    (forall x, owned d x = true -> mem d' x = mem d x) /\ regions_left d = S (regions_left d');
  law_available n d : (0 < regions_left d)%nat -> 0 <= n <= 0x400000 -> is_Some (new_region n d).1;
  law_ready r d : r mod 128 = 0 -> ahci.ready (rd (r + 0x20) d).1 = false -> (work (rd (r + 0x20) d).2 < work d)%nat;
  law_ci r d s : r mod 128 = 0 -> 0 <= s < 32 -> Z.testbit (rd (r + 0x38) d).1 s = issued r (rd (r + 0x38) d).2 s;
  law_issue r s d : r mod 128 = 0 -> 0 <= s < 32 -> Z.testbit (rd (r + 0x38) d).1 s = false ->
    let d1 := (rd (r + 0x38) d).2 in stopped r d1 = false ->
    let d2 := wr (r + 0x38) (Z.lor (rd (r + 0x38) d).1 (2 ^ s)) d1 in
    let q := fetch (mem d1) (clb_of r d1) s in
    (forall x, q_buffer q <= x < q_buffer q + q_bytes q -> owned d1 x = true) ->
    serving r s q d2 /\ (work d2 <= work d1 + latency)%nat /\ (forall r, clb_of r d2 = clb_of r d1) /\
    (forall s', issued r d2 s' = true -> s' = s \/ issued r d1 s' = true) /\
    (forall x, owned d1 x = true -> owned d2 x = true) /\ (forall x, target d2 x = false -> mem d2 x = mem d1 x) /\
    (forall x, target d2 x = true -> target d1 x = true \/ q_buffer q <= x < q_buffer q + q_bytes q \/
                                     header_at (clb_of r d1) s + 4 <= x < header_at (clb_of r d1) s + 8);
  law_done r s lba buf n d : r mod 128 = 0 -> 0 <= s < 32 -> serving r s (read_request lba buf (Z.of_nat n)) d -> alone r s d ->
    Z.testbit (rd (r + 0x38) d).1 s = false ->
    stopped r (rd (r + 0x38) d).2 = false /\
    exists data, medium r lba = Some data /\ (length data = n -> ahci.bytes_at (mem (rd (r + 0x38) d).2) buf n = data);
  law_progress r s lba buf n d : r mod 128 = 0 -> 0 <= s < 32 -> serving r s (read_request lba buf n) d -> alone r s d ->
    Z.testbit (rd (r + 0x38) d).1 s = true ->
    let d1 := (rd (r + 0x38) d).2 in (work d1 < work d)%nat \/ (medium r lba = None /\ stopped r d1 = true);
  law_error r s lba buf n d : r mod 128 = 0 -> serving r s (read_request lba buf n) d -> alone r s d ->
    Z.testbit (rd (r + 0x10) d).1 30 = true -> Z.testbit (rd (r + 0x20) (rd (r + 0x10) d).2).1 0 = true ->
    medium r lba = None /\ stopped r (rd (r + 0x20) (rd (r + 0x10) d).2).2 = true;
  law_stopped r d : r mod 128 = 0 -> stopped r d = true -> Z.testbit (rd (r + 0x10) d).1 30 = true /\ Z.testbit (rd (r + 0x20) d).1 0 = true;
  law_stopped_issue r s v d : r mod 128 = 0 -> 0 <= s < 32 -> stopped r d = true ->
    let d' := wr (r + 0x38) (Z.lor v (2 ^ s)) d in
    stopped r d' = true /\ issued r d' s = true /\ (forall s', issued r d s' = true -> issued r d' s' = true) /\ (work d' <= work d)%nat }.

(** A port that takes commands: it runs and no command is issued, the controller knows
    its command list, leaves the headers alone except for the byte counts, and the
    flags that the driver never clears are clear. *)
Record port_ready {D} `{HW : AhciHw D} `{AV : AhciView D} (p : ahci.port) (d : D) : Prop := {
  pr_regs : ahci.regs p mod 128 = 0;
  pr_runs : stopped (ahci.regs p) d = false;
  pr_idle s : 0 <= s < 32 -> issued (ahci.regs p) d s = false;
  pr_clb : clb_of (ahci.regs p) d = ahci.region p;
  pr_owned x : ahci.region p <= x < ahci.region p + 1024 -> owned d x = true;
  pr_target s x : 0 <= s < 32 -> header_at (ahci.region p) s <= x < header_at (ahci.region p) s + 16 -> target d x = true ->
    header_at (ahci.region p) s + 4 <= x < header_at (ahci.region p) s + 8;
  pr_clean s : 0 <= s < 32 -> let hd := le_at (mem d) (header_at (ahci.region p) s) 16 in
    bits 5 1 hd = 0 /\ bits 8 1 hd = 0 /\ bits 9 1 hd = 0 /\ bits 12 4 hd = 0 }.

(** ** Lemmas: structures in memory *)

(** A field depends on the bytes it is in. *)
Lemma bits_le_at_ext m m' a N lo n :
  (forall x, 0 <= m x < 256) -> (forall x, 0 <= m' x < 256) -> 0 <= lo -> 0 <= n ->
  (forall x, a + lo / 8 <= x <= a + (lo + n - 1) / 8 -> m' x = m x) -> bits lo n (le_at m' a N) = bits lo n (le_at m a N).
Proof.
  intros Hm Hm' Hl Hn H. apply Z.bits_inj'. intros i Hi. rewrite !testbit_bits by lia. destruct (Z.ltb_spec i n); [| done]. cbn [andb].
  rewrite !testbit_le_at by (done || lia). f_equal. rewrite H; [done |].
  split; [apply Z.add_le_mono_l, Z.div_le_mono; lia | apply Z.add_le_mono_l, Z.div_le_mono; lia].
Qed.

(** ** Lemmas: the request of [read_sector] *)

Lemma bits_small lo n v : 0 <= n -> bits lo n v mod 2 ^ n = bits lo n v.
Proof. intros Hn. apply Z.mod_small, bits_range. lia. Qed.

Lemma bits_whole n v : 0 <= n -> 0 <= v < 2 ^ n -> bits 0 n v = v.
Proof. intros Hn Hv. rewrite bits_mod by lia. change (2 ^ 0) with 1. rewrite Z.div_1_r. by apply Z.mod_small. Qed.

(** Six bytes of a block address. *)
Lemma lba_bytes lba :
  0 <= lba < 2 ^ 48 ->
  bits 0 8 lba + 2 ^ 8 * bits 8 8 lba + 2 ^ 16 * bits 16 8 lba + 2 ^ 24 * bits 24 8 lba + 2 ^ 32 * bits 32 8 lba + 2 ^ 40 * bits 40 8 lba = lba.
Proof.
  intros Hl. transitivity (bits 0 48 lba); [| by apply bits_whole].
  rewrite (bits_split 0 8 40), (bits_split (0 + 8) 8 32), (bits_split (0 + 8 + 8) 8 24), (bits_split (0 + 8 + 8 + 8) 8 16), (bits_split (0 + 8 + 8 + 8 + 8) 8 8) by lia.
  change (0 + 8 + 8 + 8 + 8 + 8) with 40. change (0 + 8 + 8 + 8 + 8) with 32. change (0 + 8 + 8 + 8) with 24. change (0 + 8 + 8) with 16.
  change (0 + 8) with 8. lia.
Qed.

(** The two address_halves of an address. *)
Lemma address_halves v : 0 <= v < 2 ^ 64 -> bits 0 32 v + 2 ^ 32 * bits 32 32 v = v.
Proof. intros Hv. rewrite <- (bits_split 0 32 32) by lia. by apply bits_whole. Qed.

(** [read_sector]'s header, FIS and buffer: what is assigned to the members. *)
Definition header_value (table : Z) : list (string * Z) :=
  [("ctba", bits 0 32 table); ("ctbau", bits 32 32 table); ("prdtl", 1); ("write", 0); ("cfl", 5)].
Definition fis_value (lba : Z) : list (string * Z) :=
  [("type", 0x27); ("c", 1); ("command", 0x25); ("control", 0x08); ("dev_head", 0xE0); ("sector_count_low", 1); ("sector_count_high", 0);
   ("lba_0", bits 0 8 lba); ("lba_1", bits 8 8 lba); ("lba_2", bits 16 8 lba); ("lba_3", bits 24 8 lba); ("lba_4", bits 32 8 lba);
   ("lba_5", bits 40 8 lba)].
Definition prdt_value (count buffer : Z) : list (string * Z) :=
  [("byte_count", count); ("low", bits 0 32 buffer); ("high", bits 32 32 buffer)].

(** A field of a structure after assignments, by its name. *)
Ltac read_back l name :=
  let f := eval vm_compute in (find_field l name 0) in
  match f with (?lo, ?n) =>
    match goal with |- context [bits lo n (puts ?l' ?xs ?v)] =>
      rewrite (getf_at l name lo n (puts l' xs v) eq_refl), (getf_puts l name xs v lo n) by (first [reflexivity | lia | (repeat constructor; cbn; lia)]);
      let r := eval cbv -[bits] in (assigned name xs) in change (assigned name xs) with r; cbv match
    end
  end.

Lemma header_fields table hd :
  let v := puts ahci_regs.cmd_header (header_value table) hd in
  bits 0 5 v = 5 /\ bits 5 1 v = bits 5 1 hd /\ bits 6 1 v = 0 /\ bits 8 1 v = bits 8 1 hd /\ bits 9 1 v = bits 9 1 hd /\
  bits 12 4 v = bits 12 4 hd /\ bits 16 16 v = 1 /\ (0 <= table < 2 ^ 64 -> bits 64 64 v = table).
Proof.
  intros v. subst v. assert (Hs : forall v, bits 64 64 v = bits 64 32 v + 2 ^ 32 * bits 96 32 v) by (intros v; apply (bits_split 64 32 32); lia).
  rewrite Hs. read_back ahci_regs.cmd_header "cfl". read_back ahci_regs.cmd_header "atapi". read_back ahci_regs.cmd_header "write".
  read_back ahci_regs.cmd_header "srst_control". read_back ahci_regs.cmd_header "bist". read_back ahci_regs.cmd_header "pmp".
  read_back ahci_regs.cmd_header "prdtl". read_back ahci_regs.cmd_header "ctba". read_back ahci_regs.cmd_header "ctbau".
  split_and!; try reflexivity. intros Ht. rewrite !bits_small by lia. by apply address_halves.
Qed.

Lemma fis_fields lba :
  0 <= lba < 2 ^ 48 ->
  let v := puts ahci_regs.h2d_register_fis (fis_value lba) 0 in
  bits 0 8 v = 0x27 /\ bits 8 8 v = 0x80 /\ bits 16 8 v = 0x25 /\ bits 56 8 v = 0xE0 /\ bits 96 8 v = 1 /\ bits 104 8 v = 0 /\
  bits 32 8 v + 2 ^ 8 * bits 40 8 v + 2 ^ 16 * bits 48 8 v + 2 ^ 24 * bits 64 8 v + 2 ^ 32 * bits 72 8 v + 2 ^ 40 * bits 80 8 v = lba.
Proof.
  intros Hl v. subst v.
  assert (Hs : forall v, bits 8 8 v = bits 8 4 v + 2 ^ 4 * (bits 12 3 v + 2 ^ 3 * bits 15 1 v)).
  { intros v. rewrite <- (bits_split 12 3 1), <- (bits_split 8 4 4) by lia. reflexivity. }
  rewrite Hs. read_back ahci_regs.h2d_register_fis "type". read_back ahci_regs.h2d_register_fis "pm_port". read_back ahci_regs.h2d_register_fis "reserved".
  read_back ahci_regs.h2d_register_fis "c". read_back ahci_regs.h2d_register_fis "command". read_back ahci_regs.h2d_register_fis "dev_head".
  read_back ahci_regs.h2d_register_fis "sector_count_low". read_back ahci_regs.h2d_register_fis "sector_count_high".
  read_back ahci_regs.h2d_register_fis "lba_0". read_back ahci_regs.h2d_register_fis "lba_1". read_back ahci_regs.h2d_register_fis "lba_2".
  read_back ahci_regs.h2d_register_fis "lba_3". read_back ahci_regs.h2d_register_fis "lba_4". read_back ahci_regs.h2d_register_fis "lba_5".
  split_and!; try reflexivity. rewrite !bits_small by lia. by apply lba_bytes.
Qed.

Lemma prdt_fields count buffer :
  0 <= buffer < 2 ^ 64 -> 0 <= count < 2 ^ 22 ->
  let v := puts ahci_regs.prdt_t (prdt_value count buffer) 0 in bits 0 64 v = buffer /\ bits 96 22 v = count.
Proof.
  intros Hb Hc v. subst v. assert (Hs : forall v, bits 0 64 v = bits 0 32 v + 2 ^ 32 * bits 32 32 v) by (intros v; apply (bits_split 0 32 32); lia).
  rewrite Hs. read_back ahci_regs.prdt_t "low". read_back ahci_regs.prdt_t "high". read_back ahci_regs.prdt_t "byte_count".
  rewrite !bits_small by lia. split; [by apply address_halves | by apply Z.mod_small].
Qed.

(** The controller reads the request that the driver meant. *)
Lemma fetch_read m clb s table hd lba buffer n :
  le_at m (header_at clb s) 16 = puts ahci_regs.cmd_header (header_value table) hd ->
  le_at m table 20 = puts ahci_regs.h2d_register_fis (fis_value lba) 0 ->
  le_at m (table + 0x80) 16 = puts ahci_regs.prdt_t (prdt_value (n - 1) buffer) 0 ->
  bits 5 1 hd = 0 /\ bits 8 1 hd = 0 /\ bits 9 1 hd = 0 /\ bits 12 4 hd = 0 ->
  0 <= table < 2 ^ 64 -> table mod 128 = 0 -> 0 <= buffer < 2 ^ 64 -> buffer mod 2 = 0 -> 0 <= lba < 2 ^ 48 -> 0 < n <= 0x3FFFFF ->
  fetch m clb s = read_request lba buffer n.
Proof.
  intros Hh Hf Hp (F1 & F2 & F3 & F4) Ht Ha Hb Hba Hl Hn. unfold fetch.
  destruct (header_fields table hd) as (H1 & H2 & H3 & H4 & H5 & H6 & H7 & H8). rewrite Hh, H1, H2, H3, H4, H5, H6, H7, (H8 Ht), F1, F2, F3, F4.
  replace (128 * (table / 128)) with table by (pose proof (Z.div_mod table 128); lia). rewrite Hf, Hp.
  destruct (prdt_fields (n - 1) buffer Hb) as [-> ->]; [change (2 ^ 22) with 4194304; lia |].
  replace (2 * (buffer / 2)) with buffer by (pose proof (Z.div_mod buffer 2); lia).
  destruct (fis_fields lba Hl) as (G1 & G2 & G3 & G4 & G5 & G6 & G7). set (v := puts _ _ _) in *.
  change (8 * 0) with 0. change (8 * 1) with 8. change (8 * 2) with 16. change (8 * 7) with 56. change (8 * 12) with 96. change (8 * 13) with 104.
  change (8 * 4) with 32. change (8 * 5) with 40. change (8 * 6) with 48. change (8 * 8) with 64. change (8 * 9) with 72. change (8 * 10) with 80.
  rewrite G1, G2, G3, G4, G5, G6, G7. unfold read_request. f_equal. lia.
Qed.

(** [fetch] reads the header without the byte count, the FIS and the first buffer. *)
Lemma fetch_ext m m' clb s :
  (forall x, 0 <= m x < 256) -> (forall x, 0 <= m' x < 256) ->
  let h := header_at clb s in
  let table := 128 * (bits 64 64 (le_at m h 16) / 128) in
  (forall x, h <= x < h + 4 \/ h + 8 <= x < h + 16 \/ table <= x < table + 144 -> m' x = m x) -> fetch m' clb s = fetch m clb s.
Proof.
  intros Hm Hm' h table H. unfold fetch. fold h.
  assert (Hb : forall lo n, 0 <= lo -> 0 < n -> lo + n <= 32 \/ 64 <= lo /\ lo + n <= 128 -> bits lo n (le_at m' h 16) = bits lo n (le_at m h 16)).
  { intros lo n Hl Hn Hr. apply bits_le_at_ext; [done.. | lia | lia |]. intros x Hx. apply H. Z.to_euclidean_division_equations. lia. }
  rewrite !Hb by lia. fold table.
  rewrite (le_at_ext m' m table 20) by (intros x Hx; apply H; lia).
  by rewrite (le_at_ext m' m (table + 0x80) 16) by (intros x Hx; apply H; lia).
Qed.

Section shared.
Context {D : Type} `{AL : AhciLaws D}.
Implicit Types (d : D) (p : ahci.port).

Lemma calm_refl d : calm d d.
Proof. by constructor. Qed.

Lemma calm_trans d1 d2 d3 : calm d1 d2 -> calm d2 d3 -> calm d1 d3.
Proof.
  intros [A1 A2 A3 A4 A5 A6 A7] [B1 B2 B3 B4 B5 B6 B7]. constructor; auto; [intros r; by rewrite B3 | | | lia].
  - intros r Hr Hi. apply B5; [by apply A5 |]. intros s Hs. destruct (issued r d2 s) eqn:E; [| done]. apply A4 in E. by rewrite Hi in E.
  - intros r Hr. apply A6 in Hr as [Hr Hi]. destruct (B6 r Hr) as [Hr' Hi']. split; auto.
Qed.

Lemma passes_trans d1 d2 d3 : passes d1 d2 -> passes d2 d3 -> passes d1 d3.
Proof.
  intros [A1 A2 A3 A4] [B1 B2 B3 B4]. constructor; [by eapply calm_trans | | congruence | auto].
  intros x Hx. rewrite B2, A2; [done.. |]. destruct (target d2 x) eqn:E; [| done]. apply (calm_target _ _ A1) in E. congruence.
Qed.

(** Writing a number: its bytes, and no others. *)
Lemma write_le_mem n a v d x :
  mem (ahci.write_le a n v d) x = if decide (a <= x < a + Z.of_nat n) then bits (8 * (x - a)) 8 v else mem d x.
Proof.
  revert a v d. induction n as [| n IH]; intros a v d; cbn [ahci.write_le]; [by rewrite decide_False by lia |].
  rewrite IH. destruct (decide (a + 1 <= x < a + 1 + Z.of_nat n)).
  - rewrite decide_True by lia. rewrite !bits_mod by lia. change 256 with (2 ^ 8). rewrite Z.div_div, <- Z.pow_add_r by lia.
    do 3 f_equal. lia.
  - rewrite law_mem. destruct (Z.eqb_spec x a) as [-> | Hne].
    + rewrite decide_True by lia. rewrite bits_mod by lia. rewrite Z.sub_diag, Z.mul_0_r. change (2 ^ 0) with 1. rewrite Z.div_1_r.
      unfold u8. by rewrite Z.mod_mod by lia.
    + by rewrite decide_False by lia.
Qed.

Lemma write_le_calm n a v d : calm d (ahci.write_le a n v d).
Proof.
  revert a v d. induction n as [| n IH]; intros a v d; [apply calm_refl |]. eapply calm_trans; [apply law_mem_calm | apply IH].
Qed.

Lemma put_member_calm base l name x d : calm d (ahci.put_member base l name x d).
Proof. unfold ahci.put_member. destruct (find_field l name 0). apply write_le_calm. Qed.

Lemma put_member_regions base l name x d : regions_left (ahci.put_member base l name x d) = regions_left d.
Proof.
  unfold ahci.put_member. destruct (find_field l name 0) as [lo n]. generalize (base + lo / 8), (Z.to_nat ((lo mod 8 + n + 7) / 8)).
  intros a k. generalize (set_bits (lo mod 8) n x (le_at (mem d) a k)). revert a d.
  induction k as [| k IH]; intros a d v; cbn [ahci.write_le]; [done |]. by rewrite IH, law_mem_regions.
Qed.

(** An assignment keeps the bytes outside of the structure. *)
Lemma put_member_frame base l name x d lo n N y :
  find_field l name 0 = (lo, n) -> 0 <= lo -> 0 <= n -> lo + n <= 8 * N -> y < base \/ base + N <= y ->
  mem (ahci.put_member base l name x d) y = mem d y.
Proof.
  intros E Hl Hn HN Hy. unfold ahci.put_member. rewrite E, write_le_mem, decide_False; [done |].
  assert (0 <= lo / 8) by (apply Z.div_pos; lia). rewrite Z2Nat.id by (apply Z.div_pos; [pose proof (Z.mod_pos_bound lo 8) |]; lia).
  destruct Hy; [lia |]. Z.to_euclidean_division_equations. lia.
Qed.

Lemma put_member_le_frame base l name x d lo n N a k :
  find_field l name 0 = (lo, n) -> 0 <= lo -> 0 <= n -> lo + n <= 8 * N -> a + Z.of_nat k <= base \/ base + N <= a ->
  le_at (mem (ahci.put_member base l name x d)) a k = le_at (mem d) a k.
Proof. intros E Hl Hn HN Ha. apply le_at_ext. intros y Hy. eapply put_member_frame; [done.. |]. lia. Qed.

(** The structure that holds the member changes as a value of bit fields does. *)
Lemma put_member_value base l name x d lo n (N : nat) :
  find_field l name 0 = (lo, n) -> 0 <= lo -> 0 < n -> lo + n <= 8 * Z.of_nat N ->
  le_at (mem (ahci.put_member base l name x d)) base N = putf l name x (le_at (mem d) base N).
Proof.
  intros E Hl Hn HN. unfold putf, ahci.put_member. rewrite E. set (k := Z.to_nat _).
  assert (Hk : Z.of_nat k = (lo mod 8 + n + 7) / 8) by (apply Z2Nat.id, Z.div_pos; [pose proof (Z.mod_pos_bound lo 8) |]; lia).
  assert (Hlo : lo = 8 * (lo / 8) + lo mod 8) by (apply Z.div_mod; lia). pose proof (Z.mod_pos_bound lo 8).
  apply Z.bits_inj'. intros i Hi. rewrite testbit_set_bits, !testbit_le_at by (apply law_byte || lia).
  assert (Hi8 : i = 8 * (i / 8) + i mod 8) by (apply Z.div_mod; lia). pose proof (Z.mod_pos_bound i 8).
  rewrite write_le_mem. destruct (decide (base + lo / 8 <= base + i / 8 < base + lo / 8 + Z.of_nat k)) as [Hin | Hout].
  - rewrite testbit_bits by lia. rewrite testbit_set_bits, testbit_le_at by (apply law_byte || lia).
    rewrite (proj2 (Z.ltb_lt (i mod 8) 8)) by lia. cbn [andb].
    replace (i mod 8 + 8 * (base + i / 8 - (base + lo / 8))) with (i mod 8 + (i / 8 - lo / 8) * 8) by lia.
    rewrite Z.div_add, Z.mod_add, (Z.div_small (i mod 8)), (Z.mod_small (i mod 8)), Z.add_0_l by lia.
    destruct (decide (lo <= i < lo + n)) as [Hf | Hf].
    + rewrite decide_True by lia. rewrite (proj2 (Z.ltb_lt i _)) by lia. cbn [andb]. f_equal. lia.
    + rewrite decide_False by lia. rewrite (proj2 (Z.ltb_lt _ (8 * Z.of_nat k))) by lia. cbn [andb]. do 3 f_equal. lia.
  - destruct (decide (lo <= i < lo + n)) as [Hf | Hf]; [| done]. exfalso. apply Hout. rewrite Hk. Z.to_euclidean_division_equations. lia.
Qed.

(** ** Lemmas: waiting *)

Lemma passes_refl d : passes d d.
Proof. constructor; [apply calm_refl | done..]. Qed.

Lemma slot_bit s : 0 <= s < 32 -> u32 (Z.shiftl 1 s) = 2 ^ s.
Proof.
  intros Hs. rewrite Z.shiftl_1_l. apply Z.mod_small. split; [apply Z.pow_nonneg; lia |]. change 4294967296 with (2 ^ 32).
  apply Z.pow_lt_mono_r; lia.
Qed.

Lemma slot_test ci s : 0 <= s < 32 -> (Z.land ci (u32 (Z.shiftl 1 s)) =? 0) = negb (Z.testbit ci s).
Proof.
  intros Hs. rewrite slot_bit by done. replace (2 ^ s) with (bit64 s) by (unfold bit64; rewrite Z.shiftl_1_l; apply u64_small; split; [apply Z.pow_nonneg; lia | change 18446744073709551616 with (2 ^ 64); apply Z.pow_lt_mono_r; lia]).
  apply land_bit64_eqb. lia.
Qed.

(** The slot that is found is free; when none is, all are in use. *)
Lemma free_slot_spec n i p d s d' :
  ahci.regs p mod 128 = 0 -> 0 <= i -> i + Z.of_nat n <= 32 -> ahci.free_slot_from n i p d = (s, d') ->
  passes d d' /\ (s <> -1 -> i <= s < i + Z.of_nat n /\ issued (ahci.regs p) d' s = false) /\
  (s = -1 -> forall k, i <= k < i + Z.of_nat n -> issued (ahci.regs p) d k = true).
Proof.
  intros Hr. revert i d. induction n as [| n IH]; intros i d Hi Hn E; cbn [ahci.free_slot_from] in E.
  { injection E as <- <-. split_and!; [apply passes_refl | done | lia]. }
  change (ahci.prs_reg "ci" p) with (ahci.regs p + 0x38) in E. assert (Hp := law_rd (ahci.regs p + 0x38) d). assert (Hci := law_ci (ahci.regs p) d i Hr ltac:(lia)).
  destruct (rd _ d) as [ci d1]. cbn [fst snd] in *. rewrite slot_test in E by lia. destruct (Z.testbit ci i) eqn:Eb; cbn [negb] in E.
  - apply IH in E as (Hp' & Hs & Hnone); [| lia..]. split_and!; [by eapply passes_trans | intros Hne; destruct (Hs Hne); split; [lia | done] |].
    intros -> k Hk. apply (calm_issued _ _ (passes_calm _ _ Hp)). destruct (decide (k = i)) as [-> | Hki]; [done |]. apply Hnone; lia.
  - injection E as <- <-. split_and!; [done | intros _; split; [lia | done] | lia].
Qed.

Lemma slot_of_idle c p d : port_ready p d -> 0 < ahci.n_command_slots c <= 32 ->
  exists s d', ahci.get_free_command_slot c p d = (s, d') /\ passes d d' /\ 0 <= s < 32.
Proof.
  intros PR Hc. unfold ahci.get_free_command_slot. destruct (ahci.free_slot_from _ 0 p d) as [s d'] eqn:E. exists s, d'. split; [done |].
  apply free_slot_spec in E as (P & Hs & Hnone); [| apply PR | lia..]. split; [done |]. destruct (decide (s = -1)) as [-> | Hne].
  - specialize (Hnone eq_refl 0 ltac:(lia)). by rewrite (pr_idle _ _ PR) in Hnone.
  - destruct (Hs Hne). lia.
Qed.

Lemma wait_ready_ok fuel p d : ahci.regs p mod 128 = 0 -> (work d < fuel)%nat -> exists d', ahci.wait_ready fuel p d = Ret d' /\ passes d d'.
Proof.
  intros Hreg. revert d. induction fuel as [| fuel IH]; intros d Hf; [lia |]. cbn [ahci.wait_ready]. change (ahci.prs_reg "tfd" p) with (ahci.regs p + 0x20).
  assert (Hp := law_rd (ahci.regs p + 0x20) d). assert (Hr := law_ready (ahci.regs p) d Hreg). destruct (rd _ d) as [tfd d1]. cbn [fst snd] in *.
  destruct (ahci.ready tfd); [by exists d1 |]. specialize (Hr eq_refl). assert (Hp1 := law_pause 1 d1).
  destruct (IH (pause 1 d1)) as (d' & E & Hp').
  { pose proof (calm_work _ _ (passes_calm _ _ Hp1)). lia. }
  exists d'. split; [done |]. by eapply passes_trans; [eapply passes_trans |].
Qed.

Lemma field_bit l name v lo : find_field l name 0 = (lo, 1) -> 0 <= lo -> (getf l name v =? 0) = negb (Z.testbit v lo).
Proof.
  intros E Hl. unfold getf. rewrite E. assert (Hb := bits_range lo 1 v 1 ltac:(lia)). assert (Ht := testbit_bits lo 1 v 0 Hl ltac:(lia) ltac:(lia)).
  rewrite Z.add_0_l in Ht. change (0 <? 1) with true in Ht. cbn [andb] in Ht. rewrite <- Ht.
  assert (bits lo 1 v = 0 \/ bits lo 1 v = 1) as [-> | ->] by lia; done.
Qed.

(** How a command ends: with the data of the sector and a port that runs, or with an
    error and a port that has stopped. *)
Definition outcome (r lba buf : Z) (n : nat) (ok : bool) (d : D) : Prop :=
  if ok then stopped r d = false /\ exists data, medium r lba = Some data /\ (length data = n -> ahci.bytes_at (mem d) buf n = data)
  else medium r lba = None /\ stopped r d = true.

Lemma alone_passes r s d d' : passes d d' -> alone r s d -> alone r s d'.
Proof.
  intros P A s' Hs Hne. destruct (issued r d' s') eqn:E; [| done]. apply (calm_issued _ _ (passes_calm _ _ P)) in E. by rewrite A in E.
Qed.

Lemma wait_done_ok fuel s p lba buf n d :
  ahci.regs p mod 128 = 0 -> 0 <= s < 32 -> serving (ahci.regs p) s (read_request lba buf (Z.of_nat n)) d -> alone (ahci.regs p) s d ->
  (work d < fuel)%nat ->
  exists (ok : bool) d', ahci.wait_done fuel s p d = Ret (ok, d') /\ passes d d' /\ outcome (ahci.regs p) lba buf n ok d' /\
    (ok = true -> issued (ahci.regs p) d' s = false).
Proof.
  intros Hr Hs. revert d. induction fuel as [| fuel IH]; intros d Hq HA Hf; [lia |]. cbn [ahci.wait_done].
  change (ahci.prs_reg "ci" p) with (ahci.regs p + 0x38). change (ahci.prs_reg "is" p) with (ahci.regs p + 0x10). change (ahci.prs_reg "tfd" p) with (ahci.regs p + 0x20).
  assert (Hp := law_rd (ahci.regs p + 0x38) d). assert (Hd := law_done _ _ _ _ _ _ Hr Hs Hq HA). assert (Hw := law_progress _ _ _ _ _ _ Hr Hs Hq HA).
  assert (Hci := law_ci (ahci.regs p) d s Hr Hs).
  destruct (rd _ d) as [ci d1]. cbn [fst snd] in *. rewrite slot_test by done. destruct (Z.testbit ci s); cbn [negb].
  2: { exists true, d1. split; [done |]. split; [done |]. split; [by apply Hd | done]. }
  specialize (Hw eq_refl). clear Hd Hci. assert (Hq1 := passes_serving _ _ Hp _ _ _ Hq). assert (He := law_error _ _ _ _ _ _ Hr Hq1 (alone_passes _ _ _ _ Hp HA)).
  assert (Hst := fun H => proj1 (law_stopped (ahci.regs p) d1 Hr H)).
  assert (Hp1 := law_rd (ahci.regs p + 0x10) d1). destruct (rd _ d1) as [isr d2]. cbn [fst snd] in *. rewrite (field_bit _ _ _ 30) by (done || lia).
  assert (Hst2 := fun H => proj2 (law_stopped (ahci.regs p) d2 Hr H)).
  assert (Hp2 := law_rd (ahci.regs p + 0x20) d2). destruct (rd _ d2) as [tfd d3]. cbn [fst snd] in *.
  assert (P2 : passes d d2) by (by eapply passes_trans). assert (P3 : passes d d3) by (by eapply passes_trans).
  assert (Hmore : forall d', passes d d' -> (work d' <= work d1)%nat -> (work d1 < work d)%nat ->
    exists (ok : bool) d'', ahci.wait_done fuel s p d' = Ret (ok, d'') /\ passes d d'' /\ outcome (ahci.regs p) lba buf n ok d'' /\
      (ok = true -> issued (ahci.regs p) d'' s = false)).
  { intros d' P L1 L2. destruct (IH d' (passes_serving _ _ P _ _ _ Hq) (alone_passes _ _ _ _ P HA) ltac:(lia)) as (ok & d'' & E & P' & H).
    exists ok, d''. split; [done |]. split; [by eapply passes_trans | done]. }
  assert (W2 := calm_work _ _ (passes_calm _ _ Hp1)). assert (W3 := calm_work _ _ (passes_calm _ _ Hp2)).
  destruct (Z.testbit isr 30); cbn [negb].
  - rewrite (field_bit _ _ _ 0) by (done || lia). destruct (Z.testbit tfd 0); cbn [negb].
    + exists false, d3. specialize (He eq_refl eq_refl). done.
    + destruct Hw as [Hw | (_ & Hw)]; [apply Hmore; (done || lia) |]. apply (calm_stopped _ _ (passes_calm _ _ Hp1)) in Hw as [Hw _]. by apply Hst2 in Hw.
  - destruct Hw as [Hw | (_ & Hw)]; [apply Hmore; (done || lia) |]. by apply Hst in Hw.
Qed.

(** ** Lemmas: a command in memory *)

(** A list of assignments to members. *)
Fixpoint put_members (base : Z) (l : layout) (xs : list (string * Z)) (d : D) : D :=
  match xs with [] => d | (name, x) :: xs => put_members base l xs (ahci.put_member base l name x d) end.

Definition fits (l : layout) (N : nat) (xs : list (string * Z)) : bool :=
  forallb (fun f => let '(lo, n) := find_field l f.1 0 in (0 <=? lo) && (0 <? n) && (lo + n <=? 8 * Z.of_nat N)) xs.

Lemma fits_cons l N name x xs : fits l N ((name, x) :: xs) = true ->
  exists lo n, find_field l name 0 = (lo, n) /\ 0 <= lo /\ 0 < n /\ lo + n <= 8 * Z.of_nat N /\ fits l N xs = true.
Proof.
  unfold fits. cbn [forallb fst]. destruct (find_field l name 0) as [lo n]. intros H. exists lo, n. split; [done |].
  repeat (apply andb_prop in H as [H ?]). rewrite <- Z.leb_le, <- Z.ltb_lt, <- Z.leb_le. repeat (apply andb_prop in H as [H ?]). done.
Qed.

Lemma put_members_calm base l xs d : calm d (put_members base l xs d).
Proof.
  revert d. induction xs as [| [name x] xs IH]; intros d; [apply calm_refl |]. eapply calm_trans; [apply put_member_calm | apply IH].
Qed.

Lemma put_members_value base l xs N d : fits l N xs = true ->
  le_at (mem (put_members base l xs d)) base N = puts l xs (le_at (mem d) base N).
Proof.
  revert d. induction xs as [| [name x] xs IH]; intros d Hf; [done |]. apply fits_cons in Hf as (lo & n & E & ? & ? & ? & Hf).
  cbn [put_members puts]. rewrite IH by done. f_equal. by eapply put_member_value.
Qed.

Lemma put_members_frame base l xs (N : nat) d y : fits l N xs = true -> y < base \/ base + Z.of_nat N <= y -> mem (put_members base l xs d) y = mem d y.
Proof.
  revert d. induction xs as [| [name x] xs IH]; intros d Hf Hy; [done |]. apply fits_cons in Hf as (lo & n & E & ? & ? & ? & Hf).
  cbn [put_members]. rewrite IH by done. eapply put_member_frame; [done | done | lia | done | done].
Qed.

Lemma bytecount n : 0 < n <= 0x3FFFFF -> n mod 2 = 0 -> ahci_regs.calculate_bytecount n = Ret (n - 1).
Proof.
  intros Hn He. unfold ahci_regs.calculate_bytecount. rewrite He, (proj2 (Z.leb_le n _)) by lia. cbn [Z.eqb ASSERT mbind res_bind mret res_ret].
  f_equal. change (Z.land (u64 (n + 1)) (not64 1)) with (ALIGN_DOWN (n + 1) (2 ^ 1)). rewrite ALIGN_DOWN_pow2 by (unfold is_u64; lia).
  replace (n + 1 - (n + 1) mod 2 ^ 1) with n by (change (2 ^ 1) with 2; Z.to_euclidean_division_equations; lia).
  rewrite u64_small by (unfold is_u64; lia). change 0x3FFFFF with (Z.ones 22). rewrite Z.land_ones by lia. apply Z.mod_small. change (2 ^ 22) with 4194304. lia.
Qed.

Lemma le_at_zero m a n : (forall x, a <= x < a + Z.of_nat n -> m x = 0) -> le_at m a n = 0.
Proof. revert a. induction n as [| n IH]; intros a H; cbn; [done |]. rewrite H, IH; [done | intros x Hx; apply H; lia | lia]. Qed.

(** The state of a command of [read_sector] before it is issued. *)
Record prepared (p : ahci.port) (s lba buf n : Z) (d d' : D) : Prop := {
  pp_calm : calm d d';
  pp_fetch : fetch (mem d') (ahci.region p) s = read_request lba buf n;
  pp_table : exists table, 128 * (bits 64 64 (le_at (mem d') (header_at (ahci.region p) s) 16) / 128) = table /\
             forall x, table <= x < table + 144 -> owned d x = false;
  pp_buffer x : buf <= x < buf + n -> owned d x = false /\ owned d' x = true;
  pp_headers s' : 0 <= s' < 32 -> s' <> s ->
    forall x, header_at (ahci.region p) s' <= x < header_at (ahci.region p) s' + 16 -> mem d' x = mem d x;
  pp_clean : let hd := le_at (mem d') (header_at (ahci.region p) s) 16 in bits 5 1 hd = 0 /\ bits 8 1 hd = 0 /\ bits 9 1 hd = 0 /\ bits 12 4 hd = 0 }.

Lemma fresh_disjoint d a n b m :
  (forall x, a <= x < a + n -> owned d x = true) -> (forall x, b <= x < b + m -> owned d x = false) -> 0 < n -> 0 < m -> a + n <= b \/ b + m <= a.
Proof.
  intros Ha Hb Hn Hm. destruct (Z.le_gt_cases (a + n) b); [by left |]. destruct (Z.le_gt_cases (b + m) a); [by right |].
  specialize (Ha (Z.max a b) ltac:(lia)). specialize (Hb (Z.max a b) ltac:(lia)). congruence.
Qed.

(** The writes of [read_sector], in their order: the command table at [table] is
    new, header and FIS are written, the buffer at [buf] is new, its address is
    written. *)
Section prepare.
Context (p : ahci.port) (s lba n : Z) (d : D) (table : Z) (d1 : D) (buf : Z) (d3 : D).
Hypothesis PR : port_ready p d.
Hypothesis Hs : 0 <= s < 32.
Hypothesis Hl : 0 <= lba < 2 ^ 48.
Hypothesis Hn : 0 < n <= 0x3FFFFF.
Hypothesis E1 : new_region 144 d = (Some table, d1).
Let h := header_at (ahci.region p) s.
Let dh := put_members h ahci_regs.cmd_header (header_value table) d1.
Let df := put_members table ahci_regs.h2d_register_fis (fis_value lba) dh.
Let d2 := put_members (table + 0x80) ahci_regs.prdt_t [("byte_count", n - 1)] df.
Hypothesis E3 : new_region n d2 = (Some buf, d3).
Let d4 := put_members (table + 0x80) ahci_regs.prdt_t [("low", bits 0 32 buf); ("high", bits 32 32 buf)] d3.

Lemma prepare_header : ahci.region p <= h /\ h + 16 <= ahci.region p + 1024.
Proof. unfold h, header_at. lia. Qed.

Lemma prepare_calm : calm d d1 /\ calm d1 d2 /\ calm d d4.
Proof.
  destruct (law_region 144 d table d1 ltac:(lia) E1) as (C1 & _). destruct (law_region n d2 buf d3 ltac:(lia) E3) as (C3 & _).
  assert (C2 : calm d1 d2) by (unfold d2, df, dh; repeat (eapply calm_trans; [| apply put_members_calm]); apply calm_refl).
  split_and!; [done.. |]. eapply calm_trans; [eapply calm_trans; [eapply calm_trans |] | apply put_members_calm]; eauto.
Qed.

(** The table is not in the region of the headers. *)
Lemma prepare_table : ahci.region p + 1024 <= table \/ table + 144 <= ahci.region p.
Proof.
  destruct (law_region 144 d table d1 ltac:(lia) E1) as (_ & _ & _ & Hfresh & _).
  apply (fresh_disjoint d); [apply PR | intros x Hx; by apply Hfresh | lia..].
Qed.

(** The new buffer changes nothing that was written before. *)
Lemma prepare_kept x : table <= x < table + 144 \/ owned d x = true -> mem d3 x = mem d2 x.
Proof.
  intros Hx. destruct prepare_calm as (C1 & C2 & _). destruct (law_region 144 d table d1 ltac:(lia) E1) as (_ & _ & _ & Hfresh & _).
  destruct (law_region n d2 buf d3 ltac:(lia) E3) as (_ & _ & _ & _ & Hkeep & _). apply Hkeep, (calm_owned _ _ C2).
  destruct Hx; [by apply Hfresh | by apply (calm_owned _ _ C1)].
Qed.

Lemma prepare_frame x : owned d x = true -> x < h \/ h + 16 <= x -> mem d4 x = mem d x.
Proof.
  intros Ho Hx. destruct (law_region 144 d table d1 ltac:(lia) E1) as (_ & _ & _ & Hfresh & Hkeep & _).
  assert (x < table \/ table + 144 <= x).
  { destruct (Z.lt_ge_cases x table); [by left |]. destruct (Z.lt_ge_cases x (table + 144)); [| by right]. destruct (Hfresh x ltac:(lia)); congruence. }
  unfold d4. rewrite (put_members_frame _ _ _ 16) by (done || lia). rewrite prepare_kept by (by right).
  unfold d2, df, dh. rewrite (put_members_frame _ _ _ 16) by (done || lia). rewrite (put_members_frame _ _ _ 20) by (done || lia).
  rewrite (put_members_frame _ _ _ 16) by (done || lia). by apply Hkeep.
Qed.

Lemma prepare_header_value : le_at (mem d4) h 16 = puts ahci_regs.cmd_header (header_value table) (le_at (mem d) h 16).
Proof.
  assert (Hh := prepare_header). assert (Ht := prepare_table). destruct (law_region 144 d table d1 ltac:(lia) E1) as (_ & _ & _ & _ & Hkeep & _).
  assert (Ho : forall x, h <= x < h + 16 -> owned d x = true) by (intros x Hx; apply (pr_owned _ _ PR); lia).
  transitivity (le_at (mem dh) h 16).
  - apply le_at_ext. intros x Hx. unfold d4. rewrite (put_members_frame _ _ _ 16) by (done || lia). rewrite prepare_kept by (right; apply Ho; lia).
    unfold d2, df. rewrite (put_members_frame _ _ _ 16) by (done || lia). by rewrite (put_members_frame _ _ _ 20) by (done || lia).
  - unfold dh. rewrite put_members_value by done. f_equal. apply le_at_ext. intros x Hx. apply Hkeep, Ho. lia.
Qed.

Lemma prepare_fis_value : le_at (mem d4) table 20 = puts ahci_regs.h2d_register_fis (fis_value lba) 0.
Proof.
  assert (Hh := prepare_header). assert (Ht := prepare_table). destruct (law_region 144 d table d1 ltac:(lia) E1) as (_ & _ & _ & Hfresh & _).
  transitivity (le_at (mem df) table 20).
  - apply le_at_ext. intros x Hx. unfold d4. rewrite (put_members_frame _ _ _ 16) by (done || lia). rewrite prepare_kept by lia.
    unfold d2. by rewrite (put_members_frame _ _ _ 16) by (done || lia).
  - unfold df, dh. rewrite put_members_value by done. f_equal. apply le_at_zero. intros x Hx.
    rewrite (put_members_frame _ _ _ 16) by (done || lia). apply Hfresh. lia.
Qed.

Lemma prepare_prdt_value : le_at (mem d4) (table + 0x80) 16 = puts ahci_regs.prdt_t (prdt_value (n - 1) buf) 0.
Proof.
  assert (Hh := prepare_header). assert (Ht := prepare_table). destruct (law_region 144 d table d1 ltac:(lia) E1) as (_ & _ & _ & Hfresh & _).
  unfold d4. rewrite put_members_value by done. rewrite (le_at_ext _ (mem d2)) by (intros x Hx; apply prepare_kept; lia).
  unfold d2, df, dh. rewrite put_members_value by done. rewrite le_at_zero; [done |]. intros x Hx.
  rewrite (put_members_frame _ _ _ 20) by (done || lia). rewrite (put_members_frame _ _ _ 16) by (done || lia). apply Hfresh. lia.
Qed.

Lemma prepare_ok : prepared p s lba buf n d d4.
Proof.
  destruct prepare_calm as (C1 & C2 & C). destruct (law_region 144 d table d1 ltac:(lia) E1) as (_ & Ht & Hta & Hfresh & _).
  destruct (law_region n d2 buf d3 ltac:(lia) E3) as (_ & Hb & Hba & Hbfresh & _). assert (C4 : calm d3 d4) by apply put_members_calm.
  assert (Hcl := pr_clean _ _ PR s Hs). assert (Vh := prepare_header_value).
  destruct (header_fields table (le_at (mem d) h 16)) as (_ & F1 & _ & F2 & F3 & F4 & _ & F5).
  constructor; fold h.
  - done.
  - eapply fetch_read; [exact Vh | exact prepare_fis_value | exact prepare_prdt_value | exact Hcl | lia | | lia | | done | done];
      Z.to_euclidean_division_equations; lia.
  - exists table. split; [| intros x Hx; by apply Hfresh]. rewrite Vh, F5 by lia. Z.to_euclidean_division_equations. lia.
  - intros x Hx. destruct (Hbfresh x Hx) as (Hb1 & Hb2 & _). split; [| by apply (calm_owned _ _ C4)].
    destruct (owned d x) eqn:Eo; [| done]. apply (calm_owned _ _ C1), (calm_owned _ _ C2) in Eo. congruence.
  - intros s' Hs' Hne x Hx. unfold header_at in *. apply prepare_frame; [apply (pr_owned _ _ PR) |]; unfold h, header_at; lia.
  - cbv zeta. rewrite Vh, F1, F2, F3, F4. exact Hcl.
Qed.
End prepare.

(** ** Lemmas: running a command *)

Definition flags_clean (m : Z -> Z) (h : Z) : Prop :=
  let hd := le_at m h 16 in bits 5 1 hd = 0 /\ bits 8 1 hd = 0 /\ bits 9 1 hd = 0 /\ bits 12 4 hd = 0.

Lemma flags_clean_ext d d' h : (forall x, h <= x < h + 4 -> mem d' x = mem d x) -> flags_clean (mem d) h -> flags_clean (mem d') h.
Proof.
  intros H (H1 & H2 & H3 & H4). unfold flags_clean.
  assert (Hb : forall lo n, 0 <= lo -> 0 < n -> lo + n <= 32 -> bits lo n (le_at (mem d') h 16) = bits lo n (le_at (mem d) h 16)).
  { intros lo n Hl Hn Hr. apply bits_le_at_ext; [apply law_byte | apply law_byte | lia | lia |]. intros x Hx. apply H. Z.to_euclidean_division_equations. lia. }
  by rewrite !Hb by lia.
Qed.

(** The bytes of the headers that the controller leaves alone. *)
Lemma header_untouched p d s x :
  port_ready p d -> 0 <= s < 32 -> let h := header_at (ahci.region p) s in h <= x < h + 4 \/ h + 8 <= x < h + 16 -> target d x = false.
Proof.
  intros PR Hs h Hx. destruct (target d x) eqn:E; [| done]. assert (H := pr_target _ _ PR s x Hs). fold h in H. specialize (H ltac:(lia) E). lia.
Qed.

Lemma idle_calm p d d' : calm d d' -> port_ready p d ->
  stopped (ahci.regs p) d' = false /\ (forall s, 0 <= s < 32 -> issued (ahci.regs p) d' s = false).
Proof.
  intros C PR. split; [apply (calm_idle _ _ C); apply PR |]. intros s Hs. destruct (issued (ahci.regs p) d' s) eqn:E; [| done].
  apply (calm_issued _ _ C) in E. by rewrite (pr_idle _ _ PR) in E.
Qed.

Lemma port_ready_passes p d d' : passes d d' -> port_ready p d -> port_ready p d'.
Proof.
  intros P PR. assert (C := passes_calm _ _ P). destruct (idle_calm p d d' C PR). constructor; [| done | done | ..].
  - apply PR.
  - by rewrite (calm_clb _ _ C), (pr_clb _ _ PR).
  - intros x Hx. by apply (calm_owned _ _ C), PR.
  - intros s x Hs Hx Ht. apply (pr_target _ _ PR); [done.. |]. by apply (calm_target _ _ C).
  - intros s Hs. apply (flags_clean_ext d); [| by apply PR]. intros x Hx. apply (passes_mem _ _ P). eapply header_untouched; [done.. |]. lia.
Qed.

Lemma calm_no_target d d' x : calm d d' -> target d x = false -> target d' x = false.
Proof. intros C H. destruct (target d' x) eqn:E; [| done]. apply (calm_target _ _ C) in E. congruence. Qed.

(** While the controller has not been told, it does not change a prepared command. *)
Lemma prepared_passes p s lba buf n d d1 d2 :
  port_ready p d -> 0 <= s < 32 -> prepared p s lba buf n d d1 -> passes d1 d2 ->
  fetch (mem d2) (ahci.region p) s = read_request lba buf n /\ (forall s', 0 <= s' < 32 -> flags_clean (mem d2) (header_at (ahci.region p) s')).
Proof.
  intros PR Hs PP P. assert (Hh : forall s' x, 0 <= s' < 32 -> let h := header_at (ahci.region p) s' in h <= x < h + 4 \/ h + 8 <= x < h + 16 -> mem d2 x = mem d1 x).
  { intros s' x Hs' h Hx. apply (passes_mem _ _ P), (calm_no_target d); [apply PP |]. by eapply header_untouched. }
  split.
  - rewrite <- (pp_fetch _ _ _ _ _ _ _ PP). apply fetch_ext; [apply law_byte | apply law_byte |].
    destruct (pp_table _ _ _ _ _ _ _ PP) as (table & -> & Htable). intros x [Hx | [Hx | Hx]]; [apply (Hh s); auto.. |].
    apply (passes_mem _ _ P), (calm_no_target d); [apply PP |]. destruct (target d x) eqn:E; [| done]. apply law_target in E. rewrite Htable in E by done. congruence.
  - intros s' Hs'. apply (flags_clean_ext d1); [intros x Hx; apply (Hh s'); auto |]. destruct (decide (s' = s)) as [-> | Hne]; [apply PP |].
    apply (flags_clean_ext d); [| by apply PR]. intros x Hx. eapply (pp_headers _ _ _ _ _ _ _ PP s'); (done || lia).
Qed.

(** What is left of [port_ready] when the port runs or has stopped. *)
Definition port_after (p : ahci.port) (ok : bool) (d : D) : Prop :=
  if ok then port_ready p d else stopped (ahci.regs p) d = true.

Lemma run_command_ok fuel p s lba buf n d d1 :
  port_ready p d -> 0 <= s < 32 -> prepared p s lba buf (Z.of_nat n) d d1 -> (work d + latency < fuel)%nat ->
  exists (ok : bool) d', ahci.run_command fuel s p d1 = Ret (ok, d') /\ port_after p ok d' /\ outcome (ahci.regs p) lba buf n ok d'.
Proof.
  intros PR Hs PP Hf. assert (C1 := pp_calm _ _ _ _ _ _ _ PP). assert (W1 := calm_work _ _ C1).
  destruct (wait_ready_ok fuel p d1 (pr_regs _ _ PR) ltac:(lia)) as (d2 & E2 & P2). unfold ahci.run_command. rewrite E2. cbn [mbind res_bind].
  change (ahci.prs_reg "ci" p) with (ahci.regs p + 0x38). assert (P3 := law_rd (ahci.regs p + 0x38) d2).
  assert (Hci := law_ci (ahci.regs p) d2 s (pr_regs _ _ PR) Hs). assert (HI := law_issue (ahci.regs p) s d2 (pr_regs _ _ PR) Hs). destruct (rd _ d2) as [ci d3]. cbn [fst snd] in *.
  assert (P13 : passes d1 d3) by (by eapply passes_trans). assert (C3 : calm d d3) by (eapply calm_trans; [exact C1 | apply P13]).
  destruct (idle_calm p d d3 C3 PR) as [Hrun Hidle]. rewrite Hidle in Hci by done. specialize (HI Hci Hrun).
  destruct (prepared_passes _ _ _ _ _ _ _ _ PR Hs PP P13) as [Hq Hcl]. assert (Hclb : clb_of (ahci.regs p) d3 = ahci.region p) by (rewrite (calm_clb _ _ C3); apply PR).
  rewrite Hclb, Hq in HI. cbn [q_buffer q_bytes read_request] in HI.
  destruct HI as (Hserv & Hwork & Hclb' & Hiss & Hown & Hmem & Htgt); [intros x Hx; by apply (calm_owned _ _ (passes_calm _ _ P13)), (pp_buffer _ _ _ _ _ _ _ PP) |].
  rewrite slot_bit by done. set (d4 := wr _ _ d3) in *. assert (W3 := calm_work _ _ C3).
  assert (HA : alone (ahci.regs p) s d4).
  { intros s' Hs' Hne. destruct (issued (ahci.regs p) d4 s') eqn:E; [| done]. apply Hiss in E as [-> | E]; [done |]. by rewrite Hidle in E. }
  destruct (wait_done_ok fuel s p lba buf n d4 (pr_regs _ _ PR) Hs Hserv HA ltac:(lia)) as (ok & d' & -> & P' & Hok & Hfin). exists ok, d'. split; [done |]. split; [| done].
  destruct ok; [| apply Hok]. specialize (Hfin eq_refl). destruct Hok as [Hrun' _]. clear Hserv.
  assert (Ht : forall s' x, 0 <= s' < 32 -> header_at (ahci.region p) s' <= x < header_at (ahci.region p) s' + 16 -> target d4 x = true ->
               header_at (ahci.region p) s' + 4 <= x < header_at (ahci.region p) s' + 8).
  { intros s' x Hs' Hx [Hx1 | [Hx1 | Hx1]]%Htgt.
    - apply (pr_target _ _ PR); [done.. |]. by apply (calm_target _ _ C3).
    - assert (Ho : owned d x = true) by (apply PR; unfold header_at in Hx; lia). destruct (pp_buffer _ _ _ _ _ _ _ PP x Hx1). congruence.
    - unfold header_at in *. lia. }
  assert (C' := passes_calm _ _ P'). constructor.
  - apply PR.
  - done.
  - intros s' Hs'. destruct (decide (s' = s)) as [-> | Hne]; [done |]. by apply (alone_passes _ _ _ _ P' HA).
  - by rewrite (calm_clb _ _ C'), Hclb'.
  - intros x Hx. by apply (calm_owned _ _ C'), Hown, (calm_owned _ _ C3), PR.
  - intros s' x Hs' Hx Hx'. apply Ht; [done.. |]. by apply (calm_target _ _ C').
  - intros s' Hs'. apply (flags_clean_ext d3); [| by apply Hcl]. intros x Hx.
    assert (Hnt : target d4 x = false) by (destruct (target d4 x) eqn:E; [| done]; specialize (Ht s' x Hs' ltac:(lia) E); lia).
    rewrite (passes_mem _ _ P' x Hnt). by apply Hmem.
Qed.

(** On a port that has stopped, a command fails at once and stays issued. *)
Lemma run_stopped fuel p s d :
  ahci.regs p mod 128 = 0 -> 0 <= s < 32 -> stopped (ahci.regs p) d = true -> (work d < fuel)%nat ->
  exists d', ahci.run_command fuel s p d = Ret (false, d') /\ stopped (ahci.regs p) d' = true /\ issued (ahci.regs p) d' s = true /\
    (forall s', issued (ahci.regs p) d s' = true -> issued (ahci.regs p) d' s' = true).
Proof.
  intros Hr Hs Hst Hf. destruct (wait_ready_ok fuel p d Hr Hf) as (d1 & E & P1). unfold ahci.run_command. rewrite E. cbn [mbind res_bind].
  change (ahci.prs_reg "ci" p) with (ahci.regs p + 0x38). assert (P2 := law_rd (ahci.regs p + 0x38) d1). destruct (rd _ d1) as [ci d2]. cbn [snd] in P2.
  rewrite slot_bit by done. assert (P : passes d d2) by (by eapply passes_trans). destruct (calm_stopped _ _ (passes_calm _ _ P) _ Hst) as [Hst2 Hi2].
  destruct (law_stopped_issue (ahci.regs p) s ci d2 Hr Hs Hst2) as (Hst3 & Hi3 & Hk3 & _). set (d3 := wr _ _ d2) in *.
  destruct fuel as [| fuel]; [lia |]. cbn [ahci.wait_done].
  change (ahci.prs_reg "ci" p) with (ahci.regs p + 0x38). change (ahci.prs_reg "is" p) with (ahci.regs p + 0x10). change (ahci.prs_reg "tfd" p) with (ahci.regs p + 0x20).
  assert (P4 := law_rd (ahci.regs p + 0x38) d3). assert (Hci := law_ci (ahci.regs p) d3 s Hr Hs). destruct (rd _ d3) as [ci' d4]. cbn [fst snd] in *.
  destruct (calm_stopped _ _ (passes_calm _ _ P4) _ Hst3) as [Hst4 Hi4]. rewrite slot_test, Hci, (Hi4 s) by done. cbn [negb].
  destruct (law_stopped _ d4 Hr Hst4) as [H30 _]. assert (P5 := law_rd (ahci.regs p + 0x10) d4). destruct (rd _ d4) as [isr d5]. cbn [fst snd] in *.
  rewrite (field_bit _ _ _ 30), H30 by (done || lia). cbn [negb]. destruct (calm_stopped _ _ (passes_calm _ _ P5) _ Hst4) as [Hst5 Hi5].
  destruct (law_stopped _ d5 Hr Hst5) as [_ H0]. assert (P6 := law_rd (ahci.regs p + 0x20) d5). destruct (rd _ d5) as [tfd d6]. cbn [fst snd] in *.
  rewrite (field_bit _ _ _ 0), H0 by (done || lia). cbn [negb]. destruct (calm_stopped _ _ (passes_calm _ _ P6) _ Hst5) as [Hst6 Hi6].
  exists d6. split_and!; [done | done | by auto |]. intros s' Hs'. by auto 10.
Qed.

(** C16: [read_sector] on a port that runs and has no commands outstanding asks the
    drive for exactly the sector it was called for.  A sector that can be read comes
    back byte for byte, and the port is ready for the next command; for a sector that
    cannot be read no bytes come back, and the port has stopped.  The call returns
    within the work that is left and the latency of a command. *)
Theorem read_sector_correct (fuel : nat) (c : ahci.controller) (p : ahci.port) (lba : Z) (d : D) :
  port_ready p d -> 0 < ahci.n_command_slots c <= 32 -> ahci.addressing_64bit c = true ->
  0 <= lba < 2 ^ 48 -> 0 < ahci.bytes_per_sector p <= 0x3FFFFF -> ahci.bytes_per_sector p mod 2 = 0 ->
  (forall data, medium (ahci.regs p) lba = Some data -> length data = Z.to_nat (ahci.bytes_per_sector p)) ->
  (2 <= regions_left d)%nat -> (work d + latency < fuel)%nat ->
  exists d', ahci.read_sector fuel c p lba d = Ret (default [] (medium (ahci.regs p) lba), d') /\
    match medium (ahci.regs p) lba with Some _ => port_ready p d' | None => stopped (ahci.regs p) d' = true end.
Proof.
  intros PR Hc H64 Hl Hn He Hlen Hreg Hf. unfold ahci.read_sector, ahci.allocate_command.
  destruct (slot_of_idle c p d PR Hc) as (s & d1 & -> & P1 & Hs1).
  rewrite (proj2 (Z.eqb_neq s (-1))) by lia. rewrite (proj2 (Z.ltb_lt s 32)) by lia. cbn [ASSERT mbind res_bind].
  change (ahci_regs.calculate_length 1) with 144. rewrite <- (passes_regions _ _ P1) in Hreg. assert (Hr1 := law_available 144 d1 ltac:(lia) ltac:(lia)).
  destruct (new_region 144 d1) as [[table |] d2] eqn:E1; [| by destruct Hr1].
  rewrite H64. cbn [mbind res_bind mret res_ret]. rewrite bytecount by done. cbn [mbind res_bind].
  assert (Hfis : table + offset_of ahci_regs.command_table_t "fis" = table) by apply Z.add_0_r. rewrite Hfis.
  set (d3 := ahci.put_member (ahci.prdt_of table) ahci_regs.prdt_t _ _ _). destruct (law_region 144 d1 table d2 ltac:(lia) E1) as (_ & _ & _ & _ & _ & Hleft).
  assert (Hr2 : is_Some (new_region (ahci.bytes_per_sector p) d3).1).
  { apply law_available; [| lia]. unfold d3, ahci.read_fis, ahci.start_header. rewrite !put_member_regions. lia. }
  destruct (new_region _ d3) as [[buf |] d4] eqn:E2; [| by destruct Hr2]. assert (PR1 := port_ready_passes _ _ _ P1 PR).
  assert (PP := prepare_ok p s lba _ d1 table d2 buf d4 PR1 ltac:(lia) Hl Hn E1 E2).
  rewrite <- (Z2Nat.id (ahci.bytes_per_sector p)) in PP by lia. assert (W := calm_work _ _ (passes_calm _ _ P1)).
  destruct (run_command_ok fuel p s lba buf _ d1 _ PR1 ltac:(lia) PP ltac:(lia)) as (ok & d' & E & PR' & Hok).
  change (ahci.set_buffer (ahci.prdt_of table) buf d4) with (put_members (table + 0x80) ahci_regs.prdt_t [("low", bits 0 32 buf); ("high", bits 32 32 buf)] d4).
  rewrite E. cbn [mbind res_bind mret res_ret]. exists d'. destruct ok.
  - destruct Hok as (_ & data & Hm & Hdata). rewrite Hm. cbn [default]. by rewrite Hdata by by apply Hlen.
  - destruct Hok as [-> Hst]. done.
Qed.

(** Nothing restarts a port: once a command has failed, every further read of it comes
    back without bytes, also of sectors that can be read, and uses up a command slot
    for good. *)
Theorem stopped_port_fails (fuel : nat) (c : ahci.controller) (p : ahci.port) (lba : Z) (d : D) :
  ahci.regs p mod 128 = 0 -> stopped (ahci.regs p) d = true -> 0 < ahci.n_command_slots c <= 32 -> ahci.addressing_64bit c = true ->
  0 < ahci.bytes_per_sector p <= 0x3FFFFF -> ahci.bytes_per_sector p mod 2 = 0 ->
  (2 <= regions_left d)%nat -> (work d < fuel)%nat ->
  (ahci.read_sector fuel c p lba d = Panic "command_index != -1" /\ (forall s, 0 <= s < ahci.n_command_slots c -> issued (ahci.regs p) d s = true)) \/
  exists s d', ahci.read_sector fuel c p lba d = Ret ([], d') /\ stopped (ahci.regs p) d' = true /\
    0 <= s < ahci.n_command_slots c /\ issued (ahci.regs p) d s = false /\ issued (ahci.regs p) d' s = true /\
    (forall s', issued (ahci.regs p) d s' = true -> issued (ahci.regs p) d' s' = true).
Proof.
  intros Hr Hst Hc H64 Hn He Hreg Hf. unfold ahci.read_sector, ahci.allocate_command, ahci.get_free_command_slot.
  destruct (ahci.free_slot_from _ 0 p d) as [s d1] eqn:Es. apply free_slot_spec in Es as (P1 & Hs & Hnone); [| done | lia..].
  destruct (Z.eqb_spec s (-1)) as [-> | Hne]; [left; split; [done | intros k Hk; apply Hnone; lia] | right]. destruct (Hs Hne) as [Hs1 Hfree].
  rewrite (proj2 (Z.ltb_lt s 32)) by lia. cbn [ASSERT mbind res_bind].
  change (ahci_regs.calculate_length 1) with 144. rewrite <- (passes_regions _ _ P1) in Hreg. assert (Hr1 := law_available 144 d1 ltac:(lia) ltac:(lia)).
  destruct (new_region 144 d1) as [[table |] d2] eqn:E1; [| by destruct Hr1].
  rewrite H64. cbn [mbind res_bind mret res_ret]. rewrite bytecount by done. cbn [mbind res_bind].
  set (d3 := ahci.put_member (ahci.prdt_of table) ahci_regs.prdt_t _ _ _). destruct (law_region 144 d1 table d2 ltac:(lia) E1) as (C2 & _ & _ & _ & _ & Hleft).
  assert (C3 : calm d1 d3) by (eapply calm_trans; [exact C2 | unfold d3, ahci.read_fis, ahci.start_header; repeat (eapply calm_trans; [| apply put_member_calm]); apply calm_refl]).
  assert (Hr2 : is_Some (new_region (ahci.bytes_per_sector p) d3).1).
  { apply law_available; [| lia]. unfold d3, ahci.read_fis, ahci.start_header. rewrite !put_member_regions. lia. }
  destruct (new_region _ d3) as [[buf |] d4] eqn:E2; [| by destruct Hr2]. destruct (law_region (ahci.bytes_per_sector p) d3 buf d4 ltac:(lia) E2) as (C4 & _).
  set (d5 := ahci.set_buffer _ _ d4).
  assert (C5 : calm d d5) by (eapply calm_trans; [apply P1 | eapply calm_trans; [exact C3 | eapply calm_trans; [exact C4 |]]];
    unfold d5, ahci.set_buffer; repeat (eapply calm_trans; [| apply put_member_calm]); apply calm_refl).
  destruct (run_stopped fuel p s d5 Hr ltac:(lia)) as (d' & -> & Hst' & Hi' & Hkeep).
  { by apply (calm_stopped _ _ C5). }
  { pose proof (calm_work _ _ C5). lia. }
  exists s, d'. split_and!; [done | done | lia | lia | | done |].
  - destruct (issued (ahci.regs p) d s) eqn:E; [| done]. apply (calm_stopped _ _ (passes_calm _ _ P1)) in E; [congruence | done].
  - intros s' Hs'. apply Hkeep. by apply (calm_stopped _ _ C5).
Qed.
End shared.

(** ** A controller *)

(** A controller with drives whose first hundred sectors can be read: memory, the
    number of regions that are left, the bytes it was given, the commands that stay
    issued, whether a command of a port has failed, and the command lists. *)
Module ahci_sim.
Record t := mk { memory : Z -> Z; left : nat; given : Z -> bool; stuck : Z -> Z; failed : Z -> bool; lists : Z -> Z }.

Definition region_bytes : Z := 0x800000.
Definition sector (_ lba : Z) : option (list Z) := if (0 <=? lba) && (lba <? 100) then Some (replicate 512 lba) else None.
Definition byte (d : t) (x : Z) : Z := memory d x mod 256.
Definition owns (d : t) (x : Z) : bool := region_bytes * (Z.of_nat (left d) + 1) <=? x.

Definition reg (a : Z) (d : t) : Z :=
  if a mod 128 =? 0x38 then stuck d (a - 0x38)
  else if a mod 128 =? 0x10 then if failed d (a - 0x10) then 2 ^ 30 else 0
  else if a mod 128 =? 0x20 then if failed d (a - 0x20) then 1 else 0
  else 0.

Definition upd {A} (k : Z) (v : A) (f : Z -> A) (x : Z) : A := if x =? k then v else f x.

(** The command in the slot that is new in the issue register; a port that has failed
    takes none. *)
Definition execute (r v : Z) (d : t) : t :=
  let q := fetch (byte d) (lists d r) (Z.log2 (Z.ldiff v (stuck d r))) in
  if failed d r then mk (memory d) (left d) (given d) (upd r (Z.lor (stuck d r) v) (stuck d)) (failed d) (lists d) else
  match sector r (q_lba q) with
  | Some data =>
      let inside x := (q_buffer q <=? x) && (x <? q_buffer q + q_bytes q) in
      mk (fun x => if inside x then default 0 (data !! Z.to_nat (x - q_buffer q)) else memory d x) (left d)
         (fun x => given d x || inside x) (stuck d) (failed d) (lists d)
  | None => mk (memory d) (left d) (given d) (upd r (Z.lor (stuck d r) v) (stuck d)) (upd r true (failed d)) (lists d)
  end.

Definition allocate (n : Z) (d : t) : option Z * t :=
  if (0 <? left d)%nat && (left d <=? 1000)%nat && (n <=? 0x400000) then
    let phys := region_bytes * Z.of_nat (left d) in
    (Some phys, mk (fun x => if (phys <=? x) && (x <? phys + n) then 0 else memory d x) (pred (left d)) (fun x => given d x && owns d x)
                   (stuck d) (failed d) (lists d))
  else (None, d).

#[export] Instance hw : AhciHw t := {
  rd := fun a d => (reg a d, d);
  wr := fun a v d => if a mod 128 =? 0x38 then execute (a - 0x38) v d else d;
  mem := byte;
  mem_write := fun a v d => mk (upd a v (memory d)) (left d) (given d) (stuck d) (failed d) (lists d);
  new_region := allocate;
  pause := fun _ d => d }.

#[export] Instance view : AhciView t := {
  owned := owns;
  target := fun d x => given d x && owns d x;
  clb_of := fun r d => lists d r;
  issued := fun r d s => Z.testbit (stuck d r) s;
  stopped := fun r d => failed d r;
  serving := fun r s q d => forall lba buf n, q = read_request lba buf n ->
    match sector r lba with
    | Some data => (n = Z.of_nat (length data) -> ahci.bytes_at (byte d) buf (length data) = data) /\ Z.testbit (stuck d r) s = false /\ failed d r = false
    | None => Z.testbit (stuck d r) s = true /\ failed d r = true
    end;
  work := fun _ => 0%nat;
  latency := 0%nat;
  regions_left := fun d => if (left d <=? 1000)%nat then left d else 0%nat;
  medium := sector }.

Lemma reg_ci r d : r mod 128 = 0 -> reg (r + 0x38) d = stuck d r.
Proof. intros Hr. unfold reg. replace ((r + 0x38) mod 128) with 0x38 by (Z.to_euclidean_division_equations; lia). by replace (r + 0x38 - 0x38) with r by lia. Qed.
Lemma reg_is r d : r mod 128 = 0 -> reg (r + 0x10) d = if failed d r then 2 ^ 30 else 0.
Proof. intros Hr. unfold reg. replace ((r + 0x10) mod 128) with 0x10 by (Z.to_euclidean_division_equations; lia). by replace (r + 0x10 - 0x10) with r by lia. Qed.
Lemma reg_tfd r d : r mod 128 = 0 -> reg (r + 0x20) d = if failed d r then 1 else 0.
Proof. intros Hr. unfold reg. replace ((r + 0x20) mod 128) with 0x20 by (Z.to_euclidean_division_equations; lia). by replace (r + 0x20 - 0x20) with r by lia. Qed.

Lemma new_slot c s : 0 <= s < 32 -> Z.testbit c s = false -> Z.log2 (Z.ldiff (Z.lor c (2 ^ s)) c) = s.
Proof.
  intros Hs Hc. replace (Z.ldiff (Z.lor c (2 ^ s)) c) with (2 ^ s); [by rewrite Z.log2_pow2 by lia |].
  apply Z.bits_inj'. intros i Hi. rewrite Z.ldiff_spec, Z.lor_spec, Z.pow2_bits_eqb by lia. destruct (Z.eqb_spec s i) as [<- |]; [by rewrite Hc |].
  by destruct (Z.testbit c i).
Qed.

Lemma sector_bytes r lba data : sector r lba = Some data -> length data = 512%nat /\ Forall (fun b => 0 <= b < 256) data.
Proof.
  unfold sector. destruct (_ && _) eqn:E; [| done]. apply andb_prop in E as [?%Z.leb_le ?%Z.ltb_lt]. intros H1.
  assert (data = replicate 512 lba) as -> by congruence. split; [by rewrite length_replicate |]. apply Forall_replicate. lia.
Qed.

(** The data of a sector arrives. *)
Lemma bytes_at_data m buf data :
  Forall (fun b => 0 <= b < 256) data -> (forall k, (k < length data)%nat -> m (buf + Z.of_nat k) = default 0 (data !! k)) ->
  ahci.bytes_at m buf (length data) = data.
Proof.
  intros Hd Hm. apply list_eq. intros i. unfold ahci.bytes_at. rewrite list_lookup_fmap. destruct (decide (i < length data)%nat) as [Hi | Hi].
  - rewrite lookup_seq_lt by done. cbn. rewrite Hm by lia. destruct (lookup_lt_is_Some_2 _ _ Hi) as [b ->]. done.
  - rewrite lookup_seq_ge by lia. cbn. by rewrite lookup_ge_None_2 by lia.
Qed.

Lemma passes_id (d : t) : passes d d.
Proof. constructor; [by constructor | done..]. Qed.

Lemma execute_issue r s d :
  0 <= s < 32 -> Z.testbit (stuck d r) s = false -> failed d r = false -> let q := fetch (mem d) (clb_of r d) s in
  let d' := execute r (Z.lor (stuck d r) (2 ^ s)) d in
  (forall x, q_buffer q <= x < q_buffer q + q_bytes q -> owned d x = true) ->
  serving r s q d' /\ (forall r, clb_of r d' = clb_of r d) /\
  (forall s', issued r d' s' = true -> s' = s \/ issued r d s' = true) /\ (forall x, owned d x = true -> owned d' x = true) /\
  (forall x, target d' x = false -> mem d' x = mem d x) /\
  (forall x, target d' x = true -> target d x = true \/ q_buffer q <= x < q_buffer q + q_bytes q \/
                                   header_at (clb_of r d) s + 4 <= x < header_at (clb_of r d) s + 8).
Proof.
  intros Hs Hc Hf q d' Hown. unfold d', execute. rewrite new_slot, Hf by done. change (fetch (byte d) (lists d r) s) with q. clearbody q.
  cbn [owned target mem clb_of view hw] in *. destruct (sector r (q_lba q)) as [data |] eqn:E.
  - destruct (sector_bytes _ _ _ E) as [Hl Hd]. split_and!; try done.
    + intros lba buf n Hq. rewrite Hq in E. cbn [q_lba read_request] in E. rewrite E. rewrite Hq. cbn [q_buffer q_bytes read_request stuck failed].
      split_and!; [| done | done]. intros Hn. apply bytes_at_data; [done |]. intros k Hk. unfold byte. cbn [memory].
      rewrite (proj2 (Z.leb_le _ _)), (proj2 (Z.ltb_lt _ _)) by lia. cbn [andb]. replace (buf + Z.of_nat k - buf) with (Z.of_nat k) by lia.
      rewrite Nat2Z.id. destruct (lookup_lt_is_Some_2 _ _ Hk) as [b Hb]. rewrite Hb. apply Z.mod_small. by eapply Forall_lookup_1 in Hd.
    + by right.
    + intros x. cbn [given]. unfold owns. cbn [left]. fold (owns d x). unfold byte. cbn [memory].
      destruct ((q_buffer q <=? x) && (x <? q_buffer q + q_bytes q)) eqn:Ei; [| done]. apply andb_prop in Ei as [?%Z.leb_le ?%Z.ltb_lt].
      rewrite Hown, orb_true_r by lia. done.
    + intros x. cbn [given]. unfold owns. cbn [left]. fold (owns d x). intros [H1 H2]%andb_prop. apply orb_prop in H1 as [H1 | H1]; [left; by rewrite H1, H2 |].
      right. left. apply andb_prop in H1 as [?%Z.leb_le ?%Z.ltb_lt]. lia.
  - split_and!; try done; [| | by left].
    2: { intros s'. cbn [issued view stuck]. unfold upd. rewrite Z.eqb_refl. destruct (decide (0 <= s')) as [Hp | Hneg]; [| by rewrite !Z.testbit_neg_r by lia].
      rewrite !Z.lor_spec, Z.pow2_bits_eqb by lia. intros [H | [H | H%Z.eqb_eq]%orb_prop]%orb_prop; auto. }
    intros lba buf n Hq. rewrite Hq in E. cbn [q_lba read_request] in E. rewrite E. cbn [stuck failed]. unfold upd.
    rewrite Z.eqb_refl, !Z.lor_spec, Z.pow2_bits_true, !orb_true_r by lia. done.
Qed.

Lemma allocate_spec n d phys d' :
  0 <= n -> allocate n d = (Some phys, d') ->
  calm d d' /\ 0 < phys < 2 ^ 64 - n /\ phys mod 4096 = 0 /\
  (forall x, phys <= x < phys + n -> owns d x = false /\ owns d' x = true /\ byte d' x = 0) /\
  (forall x, owns d x = true -> byte d' x = byte d x) /\ regions_left d = S (regions_left d').
Proof.
  intros Hn E. unfold allocate in E. destruct (_ && _) eqn:Eg; [| done]. apply andb_prop in Eg as [[H1%Nat.ltb_lt H2%Nat.leb_le]%andb_prop H3%Z.leb_le].
  injection E as <- <-. assert (Hm : forall x, owns d x = true -> region_bytes * (Z.of_nat (left d) + 1) <= x) by (intros x; apply Z.leb_le).
  split_and!; unfold owns, region_bytes, byte in *; cbn [left memory given regions_left view].
  - constructor; cbn [owned target clb_of issued work view]; unfold owns, region_bytes; cbn [left given stuck lists]; [| | done.. | lia].
    + intros x Hx%Z.leb_le. apply Z.leb_le. lia.
    + intros x [Hx _]%andb_prop. exact Hx.
  - lia.
  - lia.
  - replace (0x800000 * Z.of_nat (left d)) with (Z.of_nat (left d) * 2048 * 4096) by lia. by apply Z.mod_mul.
  - intros x Hx. rewrite (proj2 (Z.leb_le (0x800000 * Z.of_nat (left d)) x)), (proj2 (Z.ltb_lt x _)) by lia. split_and!; [apply Z.leb_gt; lia | apply Z.leb_le; lia | done].
  - intros x Hx%Hm. rewrite (proj2 (Z.ltb_ge x _)) by lia. by rewrite andb_false_r.
  - rewrite (proj2 (Nat.leb_le _ _)), (proj2 (Nat.leb_le (pred (left d)) _)) by lia. lia.
Qed.

#[export, refine] Instance laws : AhciLaws t := { }.
Proof.
  - intros d x. apply Z.mod_pos_bound. lia.
  - intros a v d x. cbn. unfold byte, upd. cbn [memory]. by destruct (x =? a).
  - by constructor.
  - done.
  - intros a d. apply passes_id.
  - intros n d. apply passes_id.
  - intros d x [_ Hx]%andb_prop. exact Hx.
  - intros n d phys d'. apply allocate_spec.
  - intros n d Hl Hn. cbn [new_region hw]. unfold allocate. cbn [regions_left view] in Hl. destruct (Nat.leb_spec (left d) 1000); [| lia].
    rewrite (proj2 (Nat.ltb_lt 0 _)), (proj2 (Z.leb_le n _)) by lia. by eexists.
  - intros r d Hr. cbn [rd hw fst]. rewrite reg_tfd by done. by destruct (failed d r).
  - intros r d s Hr Hs. cbn [rd hw fst snd issued view]. by rewrite reg_ci.
  - intros r s d Hr Hs Hc. cbn [rd hw fst snd] in *. rewrite reg_ci in * by done. cbn [wr hw].
    replace ((r + 0x38) mod 128) with 0x38 by (Z.to_euclidean_division_equations; lia). cbn [Z.eqb Pos.eqb]. replace (r + 0x38 - 0x38) with r by lia.
    cbv zeta. intros Hrun Hown. destruct (execute_issue r s d Hs Hc Hrun Hown) as (H1 & H2 & H3 & H4 & H5 & H6).
    split_and!; [exact H1 | done | exact H2 | exact H3 | exact H4 | exact H5 | exact H6].
  - intros r s lba buf n d Hr Hs Hq _ Hc. cbn [rd hw fst snd] in *. rewrite reg_ci in Hc by done. specialize (Hq _ _ _ eq_refl). cbn [medium stopped view].
    destruct (sector r lba) as [data |]; [| destruct Hq; congruence]. destruct Hq as (Hq & _ & Hrun). split; [done |]. exists data. split; [done |].
    intros <-. by apply Hq.
  - intros r s lba buf n d Hr Hs Hq _ Hc. cbn [rd hw fst snd] in *. rewrite reg_ci in Hc by done. specialize (Hq _ _ _ eq_refl). cbn [medium stopped view].
    destruct (sector r lba) as [data |]; [destruct Hq as (_ & Hq & _); congruence |]. right. by destruct Hq.
  - intros r s lba buf n d Hr Hq _ H1 H2. cbn [rd hw fst snd] in *. rewrite reg_tfd in H2 by done. specialize (Hq _ _ _ eq_refl). cbn [medium stopped view].
    destruct (sector r lba) as [data |]; [| by destruct Hq]. destruct Hq as (_ & _ & Hq). by rewrite Hq in H2.
  - intros r d Hr Hst. cbn [rd hw fst snd stopped view] in *. by rewrite reg_is, reg_tfd, Hst by done.
  - intros r s v d Hr Hs Hst d'. assert (E : d' = mk (memory d) (left d) (given d) (upd r (Z.lor (stuck d r) (Z.lor v (2 ^ s))) (stuck d)) (failed d) (lists d)).
    { unfold d'. cbn [wr hw]. replace ((r + 0x38) mod 128) with 0x38 by (Z.to_euclidean_division_equations; lia). cbn [Z.eqb Pos.eqb].
      replace (r + 0x38 - 0x38) with r by lia. unfold execute. cbn [stopped view] in Hst. by rewrite Hst. }
    rewrite E. cbn [stopped issued work view failed stuck]. unfold upd. rewrite Z.eqb_refl. split_and!; [done | rewrite !Z.lor_spec, Z.pow2_bits_true by lia; by rewrite !orb_true_r | | lia].
    intros s' Hs'. destruct (decide (0 <= s')) as [Hp | Hneg]; [| by rewrite Z.testbit_neg_r in Hs' by lia]. by rewrite Z.lor_spec, Hs'.
Defined.
End ahci_sim.

(** ** The identification *)

Definition sum_bytes (l : list Z) : Z := foldr Z.add 0 l.

Lemma sum_app l1 l2 : sum_bytes (l1 ++ l2) = sum_bytes l1 + sum_bytes l2.
Proof. induction l1 as [| x l1 IH]; cbn in *; [done |]. unfold sum_bytes in *. lia. Qed.

(** The loop adds up the first bytes, modulo 256. *)
Lemma checksum_loop (l : list Z) (n : nat) :
  (n <= length l)%nat -> foldl (fun sum i => u8 (sum + default 0 (l !! i))) 0 (seq 0 n) = u8 (sum_bytes (take n l)).
Proof.
  induction n as [| n IH]; intros Hn; [done |]. rewrite seq_S, foldl_app, IH by lia. cbn [foldl Nat.add].
  destruct (lookup_lt_is_Some_2 l n ltac:(lia)) as [x Hx]. rewrite (take_S_r _ _ _ Hx), sum_app, Hx. cbn. unfold u8. rewrite Z.add_0_r, Zplus_mod_idemp_l. done.
Qed.

(** An identification with the signature 0xA5 is accepted exactly when all its 512
    bytes add up to a multiple of 256, as the ATA standard asks. *)
Theorem identity_checksum (identity : list Z) :
  length identity = 512%nat -> Forall (fun b => 0 <= b < 256) identity -> identity !! 510%nat = Some 0xA5 ->
  ahci.verify_region_integrity identity = (sum_bytes identity mod 256 =? 0).
Proof.
  intros Hl Hb H510. unfold ahci.verify_region_integrity. rewrite H510. change (default 0 (Some 0xA5)) with 0xA5. cbn [Z.eqb Pos.eqb]. rewrite checksum_loop by lia.
  destruct (lookup_lt_is_Some_2 identity 511 ltac:(lia)) as [x Hx]. rewrite Hx. change (default 0 (Some x)) with x.
  assert (Hs : sum_bytes identity = sum_bytes (take 511 identity) + x).
  { rewrite <- (take_drop 511 identity) at 1. rewrite (drop_S _ _ _ Hx), drop_ge, sum_app by lia. cbn. lia. }
  rewrite Hs. eapply Forall_lookup_1 in Hb; [| exact Hx]. cbn in Hb. generalize (sum_bytes (take 511 identity)). intros z. unfold u8.
  apply Bool.eq_iff_eq_true. rewrite !Z.eqb_eq. split; intros H; Z.to_euclidean_division_equations; lia.
Qed.

(** ** Ports that are not brought up *)

(** A port whose device is there but not communicating ends the search: the ports
    behind it stay as they were allocated. *)
Lemma scan_stops {D} `{HW : AhciHw D} fuel c pi i done p todo (d : D) :
  ahci_regs.is_implemented i pi = true -> let q := ahci.set_regs (0x100 + 128 * i) p in
  getf ahci_regs.ssts_t "det" (rd (ahci.prs_reg "ssts" q) d).1 = 1 ->
  ahci.init_ports fuel c pi i done (p :: todo) d = Ret (done ++ q :: todo, (rd (ahci.prs_reg "ssts" q) d).2).
Proof.
  intros Hi q Hdet. cbn [ahci.init_ports]. unfold ahci.init_port. rewrite Hi.
  change (ahci.set_regs (offset_of ahci_regs.hba_t "ports" + layout_size ahci_regs.prs_t / 8 * i) p) with q.
  destruct (rd (ahci.prs_reg "ssts" q) d) as [ssts d1]. cbn [fst snd] in *. by rewrite Hdet.
Qed.

(** ** Witnesses *)

Section witnesses.
Import ahci_sim.

Definition ahci_example : ahci.controller := ahci.mk_controller 1 3 1 1 32 true [].
Definition port_example : ahci.port := ahci.mk_port 0x100 ahci_regs.SATA (0x800000 * 11) [] true false 100 512.
Definition disk_example : ahci_sim.t :=
  ahci_sim.mk (fun _ => 0) 10 (fun _ => false) (fun _ => 0) (fun _ => false) (fun _ => 0x800000 * 11).

Lemma port_example_ready : port_ready port_example disk_example.
Proof.
  constructor; [done | done | | done | | done |].
  - intros s Hs. apply Z.bits_0.
  - intros x Hx. apply Z.leb_le. cbn in *. unfold region_bytes. lia.
  - intros s Hs. cbv zeta. by rewrite le_at_zero.
Qed.

(** Sector 7 can be read, sector 200 cannot. *)
Lemma read_sector_correct_witness :
  (exists d', ahci.read_sector 1 ahci_example port_example 7 disk_example = Ret (replicate 512 7, d') /\ port_ready port_example d') /\
  (exists d', ahci.read_sector 1 ahci_example port_example 200 disk_example = Ret ([], d') /\ stopped 0x100 d' = true).
Proof.
  split.
  - apply (read_sector_correct 1 ahci_example port_example 7 disk_example port_example_ready); cbn [ahci.n_command_slots ahci_example ahci.bytes_per_sector port_example]; try lia.
    + done.
    + done.
    + intros data Hd. by destruct (sector_bytes _ _ _ Hd).
    + vm_compute. lia.
    + vm_compute. lia.
  - apply (read_sector_correct 1 ahci_example port_example 200 disk_example port_example_ready); cbn [ahci.n_command_slots ahci_example ahci.bytes_per_sector port_example]; try lia.
    + done.
    + done.
    + intros data Hd. by destruct (sector_bytes _ _ _ Hd).
    + vm_compute. lia.
    + vm_compute. lia.
Defined.

(** The disk after sector 200 has failed: sector 7 cannot be read any more. *)
Definition failed_disk : ahci_sim.t :=
  match ahci.read_sector 1 ahci_example port_example 200 disk_example with Ret (_, d) => d | _ => disk_example end.

Lemma stopped_port_fails_witness :
  medium 0x100 7 = Some (replicate 512 7) /\ exists d', ahci.read_sector 1 ahci_example port_example 7 failed_disk = Ret ([], d').
Proof.
  split; [done |].
  assert (H : ahci.read_sector 1 ahci_example port_example 7 failed_disk = Panic "command_index != -1" /\
      (forall s, 0 <= s < 32 -> issued 0x100 failed_disk s = true) \/ exists s d', ahci.read_sector 1 ahci_example port_example 7 failed_disk = Ret ([], d') /\
      stopped 0x100 d' = true /\ 0 <= s < 32 /\ issued 0x100 failed_disk s = false /\ issued 0x100 d' s = true /\
      (forall s', issued 0x100 failed_disk s' = true -> issued 0x100 d' s' = true)).
  { apply (stopped_port_fails 1 ahci_example port_example 7 failed_disk); cbn [ahci.n_command_slots ahci_example ahci.bytes_per_sector port_example]; first [done | lia | vm_compute; lia]. }
  destruct H as [[_ H] | (s & d' & H & _)]; [| by exists d']. specialize (H 1 ltac:(lia)). by vm_compute in H.
Defined.

Lemma identity_checksum_witness :
  ahci.verify_region_integrity (replicate 510 1 ++ [0xA5; 0x5D]) = true.
Proof.
  rewrite (identity_checksum (replicate 510 1 ++ [0xA5; 0x5D])).
  - reflexivity.
  - reflexivity.
  - apply Forall_app. split; [apply Forall_replicate; lia |]. repeat constructor; lia.
  - reflexivity.
Defined.
End witnesses.
