(* ===== verification/Hpet.v ===== *)
(** * Hpet: the high precision event timer

    Models source/arch/x86_64/drivers/hpet.cpp with the constants of hpet.h.  The
    registers are hardware, [HpetHw]; a read may take time.  The objects of the
    firmware's AML code are read by the interpreter, which is not part of the
    repository: [aml_node] has what its answers are about a device.  The theorems on
    the counter rely on [HpetTime]: it counts, and it does not stand still. *)

From S2P Require Import Prelude Bits Fields Frames Paging.

Class HpetHw (D : Type) := {
  hp_read : Z -> D -> Z * D;
  hp_write : Z -> Z -> D -> D
}.

Module hpet.
Definition general_capabilities_and_id_reg : Z := 0x0.
Definition general_configuration_reg : Z := 0x10.
Definition general_interrupt_status_reg : Z := 0x20.
Definition main_counter_reg : Z := 0xF0.
Definition hpet_timer_configuration_and_capabilities_reg (n : Z) : Z := 0x100 + 0x20 * n.
Definition hpet_timer_comparator_value_reg (n : Z) : Z := 0x108 + 0x20 * n.
Definition hpet_timer_fsb_interrupt_routing_reg (n : Z) : Z := 0x110 + 0x20 * n.
Definition femto_per_nano : Z := 1000000.
Definition femto_per_micro : Z := femto_per_nano * 1000.
Definition femto_per_milli : Z := femto_per_micro * 1000.

Inductive hpet_timer_types := ONE_SHOT | PERIODIC.

(** The static variables. *)
Record t := mk { base : Z; main_counter_clk : Z; n_counters : Z; supports_64bit_counter : bool }.

(** A device of the namespace: whether it has the identifier of a timer, the value of
    [_UID] when it can be evaluated, and [_CRS]: missing, not to be evaluated, or
    resources of which some are memory at a base. *)
Record aml_node := mk_node { is_hpet : bool; uid : option Z; crs : option (option (list (bool * Z))) }.

(** [acpi_table]: the identifier of the address space and the address. *)
Record table := mk_table { address_id : Z; address : Z }.
Definition generic_address_structure_id_system_memory : Z := 0.

(** The search for the device. *)
Fixpoint find_node (l : list aml_node) : option aml_node :=
  match l with
  | [] => None
  | n :: l =>
      if negb (is_hpet n) then find_node l
      else match uid n with
           | Some u => if u =? 0 then Some n else find_node l
           | None => Some n
           end
  end.

(** The loop over the resources: the last memory resource counts. *)
Definition crs_base (l : list (bool * Z)) (b : Z) : Z := foldl (fun b r => if r.1 : bool then r.2 else b) b l.

Definition find_base (nodes : list aml_node) (tbl : option table) : res Z :=
  match find_node nodes with
  | None => Panic "[HPET]: Couldn't find HPET timer in AML"
  | Some node =>
      match tbl with
      | None =>
          match crs node with
          | None => Panic "No HPET table and no _CRS, can't initialize HPET"
          | Some None => Panic "Couldn't evaluate HPET _CRS"
          | Some (Some l) => mret (crs_base l 0)
          end
      | Some tb => _ ← ASSERT (address_id tb =? generic_address_structure_id_system_memory) ""; mret (address tb)
      end
  end.

Definition map_flags : Z :=
  Z.lor (Z.lor (Z.lor map_page_flags_present map_page_flags_writable) map_page_flags_global) map_page_flags_no_execute.

Section device.
Context {D : Type} `{HW : HpetHw D}.

(** The registers: their values are checked, the counter is started at 0. *)
Definition start (b : Z) (d : D) : res (t * D) :=
  let '(v, d) := hp_read general_capabilities_and_id_reg d in
  if Z.land (Z.shiftr v 16) 0xFFFF =? 0xFFFF then Panic "[HPET]: No HPET detected, need HPET to further boot"
  else
    let '(cap, d) := hp_read general_capabilities_and_id_reg d in
    let clk := Z.land (Z.shiftr cap 32) 0xFFFFFFFF in
    if negb (clk <=? 0x05F5E100) || (clk =? 0) then Panic ""
    else if Z.land cap 0xFF =? 0 then Panic ""
    else
      let s := mk b clk (Z.land (Z.shiftr cap 8) 0xF + 1) (bitops.bit_test 64 cap 13) in
      let d := hp_write general_configuration_reg 0 d in
      let d := hp_write main_counter_reg 0 d in
      let d := hp_write general_configuration_reg 1 d in
      mret (s, d).

Definition init_hpet {S} `{FA : FrameAllocator S} (paging_info : Z) (nodes : list aml_node) (tbl : option table) (k : paging.kernel S) (d : D)
  : res (t * paging.kernel S * D) :=
  b ← find_base nodes tbl;
  if b =? 0 then Panic "[HPET]: Wasn't able to find HPET base"
  else
    k ← paging.map_page paging_info b (to_virt b) map_flags uncacheable k;
    '(s, d) ← start b d;
    mret (s, k, d).

(** [create_timer]; a division by zero is undefined. *)
Definition create_timer (comparator : Z) (type : hpet_timer_types) (ms : Z) (s : t) (d : D) : res (bool * D) :=
  if n_counters s <? comparator then mret (false, d)
  else
    let reg := hpet_timer_configuration_and_capabilities_reg comparator in
    let '(cap, d) := hp_read reg d in
    let periodic := match type with PERIODIC => true | ONE_SHOT => false end in
    if negb (bitops.bit_test 64 cap 4) && periodic then mret (false, d)
    else
      let cap := Z.lor cap (Z.lor (Z.lor (Z.shiftl 1 2) (Z.shiftl (if periodic then 1 else 0) 3)) (Z.shiftl (if periodic then 1 else 0) 6)) in
      let d := hp_write reg cap d in
      if main_counter_clk s / femto_per_milli =? 0 then Undef
      else
        let ticks := ms / (main_counter_clk s / femto_per_milli) in
        let '(now, d) := hp_read main_counter_reg d in
        let d := hp_write (hpet_timer_comparator_value_reg comparator) (u64 (now + ticks)) d in
        mret (true, hp_write (hpet_timer_comparator_value_reg comparator) ticks d).

(** [while(hpet_read(main_counter_reg) < goal)]. *)
Fixpoint wait_counter (fuel : nat) (goal : Z) (d : D) : res D :=
  match fuel with
  | O => NoFuel
  | S fuel => let '(now, d) := hp_read main_counter_reg d in if now <? goal then wait_counter fuel goal d else mret d
  end.

Definition poll_sleep (fuel : nat) (ms : Z) (s : t) (d : D) : res D :=
  let '(now, d) := hp_read main_counter_reg d in
  wait_counter fuel (u64 (now + u64 (ms * femto_per_milli) / main_counter_clk s)) d.
End device.
End hpet.

(** ** The counter *)

(** [elapsed] is the number of periods since the counter was started; its register
    has [width] bits of it.  A read of the counter takes time, and [per_tick] reads
    take a period or more. *)
Class HpetTime (D : Type) `{HW : HpetHw D} := {
  elapsed : D -> Z;
  width : Z;
  per_tick : nat;
  look (d : D) : D := (hp_read hpet.main_counter_reg d).2;
  time_counter d : (hp_read hpet.main_counter_reg d).1 = elapsed d mod 2 ^ width;
  time_monotone d : elapsed d <= elapsed (look d);
  time_passes d : elapsed d < elapsed (Nat.iter per_tick look d);
  time_start d : 0 <= elapsed d
}.

(** ** Theorems *)

Section time.
Context {D : Type} `{HT : HpetTime D}.

Lemma iter_look n d : look (Nat.iter n look d) = Nat.iter n look (look d).
Proof. symmetry. apply Nat.iter_swap. Qed.

(** After [n] periods' worth of reads, [n] periods are over. *)
Lemma elapsed_periods n d : elapsed d + Z.of_nat n <= elapsed (Nat.iter (n * per_tick) look d).
Proof.
  induction n as [| n IH]; cbn [Nat.mul]; [cbn; lia |]. rewrite Nat.iter_add. pose proof (time_passes (Nat.iter (n * per_tick) look d)). lia.
Qed.

(** The loop ends at the first read that has reached the goal. *)
Lemma wait_counter_ends fuel goal n d :
  (n < fuel)%nat -> goal <= elapsed (Nat.iter n look d) -> (forall m, (m <= n)%nat -> elapsed (Nat.iter m look d) < 2 ^ width) ->
  exists m, (m <= n)%nat /\ hpet.wait_counter fuel goal d = Ret (look (Nat.iter m look d)) /\ goal <= elapsed (Nat.iter m look d).
Proof.
  revert n d. induction fuel as [| fuel IH]; intros n d Hf Hg Hw; [lia |]. cbn [hpet.wait_counter].
  assert (Hc := time_counter d). change (look d) with (hp_read hpet.main_counter_reg d).2 in *. assert (Hl : look d = (hp_read hpet.main_counter_reg d).2) by done.
  assert (H0 := Hw 0%nat ltac:(lia)). cbn in H0. rewrite Z.mod_small in Hc by (pose proof (time_start d); lia).
  destruct (hp_read hpet.main_counter_reg d) as [now d1]. cbn [fst snd] in *. subst now. destruct (Z.ltb_spec (elapsed d) goal) as [Hlt | Hge].
  - destruct n as [| n]; [cbn in Hg; lia |]. destruct (IH n d1) as (m & Hm & E & Hr).
    + lia.
    + rewrite <- Hl, <- iter_look. exact Hg.
    + intros m Hm. rewrite <- Hl, <- iter_look. apply (Hw (S m)). lia.
    + exists (S m). split; [lia |]. cbn [Nat.iter]. change (Nat.iter (S m) look d) with (look (Nat.iter m look d)) in *. rewrite iter_look, Hl. done.
  - exists 0%nat. split; [lia |]. split; [by rewrite <- Hl | done].
Qed.


(** With a counter of 32 bits, [poll_sleep] never returns when its goal is past the
    largest value of the counter. *)
Theorem poll_sleep_hangs (ms : Z) (s : hpet.t) (d : D) :
  width = 32 -> 0 < hpet.main_counter_clk s -> 0 <= ms -> ms * hpet.femto_per_milli < 2 ^ 63 ->
  2 ^ 32 <= elapsed d mod 2 ^ 32 + ms * hpet.femto_per_milli / hpet.main_counter_clk s ->
  forall fuel, hpet.poll_sleep fuel ms s d = NoFuel.
Proof.
  intros Hw Hc Hms Hov Hgoal fuel. unfold hpet.poll_sleep. assert (Hr := time_counter d). rewrite Hw in Hr.
  assert (Hp : 0 <= hpet.femto_per_milli) by discriminate.
  destruct (hp_read hpet.main_counter_reg d) as [now d1]. cbn [fst] in Hr. subst now.
  assert (Hq : 0 <= ms * hpet.femto_per_milli / hpet.main_counter_clk s <= ms * hpet.femto_per_milli).
  { split; [apply Z.div_pos; nia | apply Z.div_le_upper_bound; nia]. }
  pose proof (Z.mod_pos_bound (elapsed d) (2 ^ 32) ltac:(lia)).
  rewrite (u64_small (ms * _)) by (unfold is_u64; nia). rewrite u64_small by (unfold is_u64; lia). set (goal := _ + _) in *. clearbody goal.
  clear - HT Hw Hgoal. revert d1. induction fuel as [| fuel IH]; intros d1; cbn [hpet.wait_counter]; [done |].
  assert (Hr := time_counter d1). rewrite Hw in Hr. destruct (hp_read hpet.main_counter_reg d1) as [now d2]. cbn [fst] in Hr. subst now.
  pose proof (Z.mod_pos_bound (elapsed d1) (2 ^ 32) ltac:(lia)). rewrite (proj2 (Z.ltb_lt _ _)) by lia. apply IH.
Qed.
End time.

(** The period of a timer that [init_hpet] accepts is less than a millisecond, which
    [create_timer] divides by: it is undefined for each comparator that supports the
    mode. *)
Lemma create_timer_undefined {D} `{HW : HpetHw D} comparator type ms s (d : D) :
  0 < hpet.main_counter_clk s <= 0x05F5E100 -> comparator <= hpet.n_counters s -> type = hpet.ONE_SHOT ->
  hpet.create_timer comparator type ms s d = Undef.
Proof.
  intros Hc Hn ->. unfold hpet.create_timer. rewrite (proj2 (Z.ltb_ge _ _)) by lia. destruct (hp_read _ d) as [cap d1]. rewrite andb_false_r.
  rewrite Z.div_small; [done |]. unfold hpet.femto_per_milli, hpet.femto_per_micro, hpet.femto_per_nano. lia.
Qed.

(** What [init_hpet] accepts. *)
Lemma start_clock {D} `{HW : HpetHw D} b (d : D) s d' : hpet.start b d = Ret (s, d') ->
  0 < hpet.main_counter_clk s <= 0x05F5E100 /\ 1 <= hpet.n_counters s <= 16 /\ hpet.base s = b.
Proof.
  unfold hpet.start. destruct (hp_read _ d) as [v d1]. destruct (_ =? 0xFFFF); [done |]. destruct (hp_read _ d1) as [cap d2].
  set (clk := Z.land (Z.shiftr cap 32) 0xFFFFFFFF). destruct (_ || _) eqn:E; [done |]. apply orb_false_elim in E as [E1 E2].
  destruct (Z.land cap 0xFF =? 0); [done |]. intros [= <- _]. cbn. apply negb_false_iff, Z.leb_le in E1. apply Z.eqb_neq in E2.
  assert (0 <= clk) by (apply Z.land_nonneg; lia). change 0xF with (Z.ones 4). rewrite Z.land_ones by lia. pose proof (Z.mod_pos_bound (Z.shiftr cap 8) (2 ^ 4)). lia.
Qed.

(** ** A timer *)

(** It counts once with each read. *)
Module hpet_sim.
Definition t : Type := N.
#[export] Instance hw : HpetHw t := { hp_read := fun _ d => (Z.of_N d mod 2 ^ 32, N.succ d); hp_write := fun _ _ d => d }.
#[export, refine] Instance time : HpetTime t := { elapsed := Z.of_N; width := 32; per_tick := 1%nat }.
Proof. all: intros; cbn; (done || lia). Defined.

Lemma look_iter m (d : t) : Nat.iter m look d = (N.of_nat m + d)%N.
Proof. induction m as [| m IH]; [done |]. rewrite Nat.iter_succ, IH. unfold look. cbn [hp_read hw snd]. lia. Qed.
End hpet_sim.

Section witnesses.
Import hpet_sim.
Definition hpet_example : hpet.t := hpet.mk 0xFED00000 100000000 3 false.


(** Five milliseconds, 40000 periods before the counter wraps around. *)
Lemma poll_sleep_hangs_witness :
  hpet.poll_sleep 1000 5 hpet_example (Z.to_N (2 ^ 32 - 40000) : hpet_sim.t) = NoFuel.
Proof.
  apply (poll_sleep_hangs 5 hpet_example (Z.to_N (2 ^ 32 - 40000) : hpet_sim.t)).
  - reflexivity.
  - cbn. lia.
  - lia.
  - by vm_compute.
  - cbn [elapsed time]. rewrite Z2N.id by lia. vm_compute. discriminate.
Defined.
End witnesses.
