(* ===== verification/Lai.v ===== *)
(** * Lai: the kernel and the AML interpreter

    Models source/acpi/laihost.cpp, the services that the kernel offers to the
    interpreter, and the rest of source/acpi/acpi.cpp: how the interpreter is started,
    the embedded controllers, and the system control interrupt.  The interpreter is
    not part of the repository: its constants are parameters, its calls are recorded
    in order, and what it answers about the objects of the firmware is data. *)

From S2P Require Import Prelude Bits Klibc Fields Frames Pmm Paging Heap Containers Initrd Descriptors Acpi Apic Pci Hpet Ipc Process Elf Boot Tables.

(** ** laihost.cpp *)

Module laihost.
Section memory.
Context {S : Type} `{FA : FrameAllocator S}.

Definition malloc (sz : Z) (h : alloc.heap S) : res (Z * alloc.heap S) := alloc.alloc (if sz =? 0 then 1 else sz) h.
Definition realloc (ptr size : Z) (h : alloc.heap S) : res (Z * alloc.heap S) := alloc.realloc ptr size h.
Definition free (ptr : Z) (h : alloc.heap S) : res (alloc.heap S) := alloc.free ptr h.

Definition scan (info override : Z) (signature : list Z) (index : Z) (st : acpi.state) (m : bmem) (k : paging.kernel S)
  : res (Z * paging.kernel S) := acpi.get_table info override signature index st m k.

Definition map_flags : Z :=
  Z.lor (Z.lor (Z.lor map_page_flags_present map_page_flags_writable) map_page_flags_no_execute) map_page_flags_global.

Definition map (info addr bytes : Z) (k : paging.kernel S) : res (Z * paging.kernel S) :=
  k ← for_loop (Z.to_nat (div_ceil bytes block_size)) 0 (fun i k =>
    let offset := i * block_size in
    paging.map_page info (u64 (addr + offset)) (u64 (addr + offset + KERNEL_PHYSICAL_VIRTUAL_MAPPING_BASE)) map_flags normal k) k;
  mret (u64 (addr + KERNEL_PHYSICAL_VIRTUAL_MAPPING_BASE), k).

(** Mappings are kept. *)
Definition unmap (addr bytes : Z) (k : paging.kernel S) : paging.kernel S := k.
End memory.

(** What is printed, on the console or only on the debug port. *)
Inductive line := Console (format msg : string) | Debug (format msg : string).

Definition log (LAI_DEBUG_LOG LAI_WARN_LOG level : Z) (msg : string) : list line :=
  if level =? LAI_DEBUG_LOG then [Debug "[LAI]: Debug: %s" msg]
  else if level =? LAI_WARN_LOG then [Console "[LAI]: Warning: %s" msg; Debug "[LAI] Warning: %s" msg]
  else [Debug "[LAI]: Unknown : %s" msg].

Definition panic {A} (msg : string) : res A := Panic msg.

Section ports.
Context {P : Type} `{HP : legacy.PortHw P}.
Definition outb (port val : Z) (p : P) : P := legacy.port_out port 1 val p.
Definition outw (port val : Z) (p : P) : P := legacy.port_out port 2 val p.
Definition outd (port val : Z) (p : P) : P := legacy.port_out port 4 val p.
Definition inb (port : Z) (p : P) : Z := legacy.port_in port 1 p.
Definition inw (port : Z) (p : P) : Z := legacy.port_in port 2 p.
Definition ind (port : Z) (p : P) : Z := legacy.port_in port 4 p.
End ports.

Section config.
Context {C : Type} `{PA : PciAccess C}.
Definition pci_writeb (co : coord) (offset value : Z) (c : C) : res C := internal_write co offset 1 value c.
Definition pci_writew (co : coord) (offset value : Z) (c : C) : res C := internal_write co offset 2 value c.
Definition pci_writed (co : coord) (offset value : Z) (c : C) : res C := internal_write co offset 4 value c.
Definition pci_readb (co : coord) (offset : Z) (c : C) : res (Z * C) := '(v, c) ← internal_read co offset 1 c; mret (u8 v, c).
Definition pci_readw (co : coord) (offset : Z) (c : C) : res (Z * C) := '(v, c) ← internal_read co offset 2 c; mret (u16 v, c).
Definition pci_readd (co : coord) (offset : Z) (c : C) : res (Z * C) := internal_read co offset 4 c.
End config.

Definition sleep {D} `{HpetHw D} (fuel : nat) (ms : Z) (s : hpet.t) (d : D) : res D := hpet.poll_sleep fuel ms s d.
End laihost.

(** ** The interpreter *)

Module aml.
(** The calls of the interpreter, in order.  Drivers of embedded controllers are
    numbered by their allocation. *)
Inductive call :=
| enable_tracing (flags : Z) | set_acpi_revision (r : Z) | create_namespace
| init_ec (node driver : nat) | override_opregion (node child driver : nat) | eval_reg (node : nat) (address_space enable : Z)
| enable_acpi (mode : Z) | enter_sleep (state : Z).

(** What the interpreter answers about a child of a device, and about a device: it is
    an embedded controller, and it has a method _REG.  Whether the method can be
    evaluated makes no difference for what the code does. *)
Record child := mk_child { opregion : bool; ec_space : bool }.
Record node := mk_node { is_ec : bool; children : list child; reg : bool }.

(** The loop over the children. *)
Fixpoint override_loop (n i d : nat) (l : list child) : list call :=
  match l with
  | [] => []
  | c :: l => (if opregion c && ec_space c then [override_opregion n i d] else []) ++ override_loop n (S i) d l
  end.

(** The body of the loop for a controller. *)
Definition start_ec (n d : nat) (x : node) : list call :=
  init_ec n d :: override_loop n 0 d (children x) ++
  (if reg x then [eval_reg n 3 1] else []).

(** [init_ec]: node [n] is next, [d] drivers are allocated. *)
Fixpoint ec_loop (n d : nat) (l : list node) : list call :=
  match l with
  | [] => []
  | x :: l => if is_ec x then start_ec n d x ++ ec_loop (S n) (S d) l else ec_loop (S n) d l
  end.
Definition init_ecs (l : list node) : list call := ec_loop 0 0 l.

(** The end of [acpi::init].  The flags say what the command line asks for. *)
Definition start (LAI_TRACE_OP LAI_TRACE_NS LAI_TRACE_IO : Z) (op ns io : bool) (rsdp : Z) (l : list node) (m : bmem) : list call :=
  let trace := 0 in
  let trace := if op then Z.lor trace LAI_TRACE_OP else trace in
  let trace := if ns then Z.lor trace LAI_TRACE_NS else trace in
  let trace := if io then Z.lor trace LAI_TRACE_IO else trace in
  [enable_tracing trace; set_acpi_revision (tables.field tables.rsdp "revision" rsdp m); create_namespace] ++ init_ecs l.

(** [acpi_sci_handler]; [event] is what the interpreter reports. *)
Definition acpi_sci_handler (ACPI_POWER_BUTTON event : Z) : list call :=
  if negb (Z.land event ACPI_POWER_BUTTON =? 0) then [enter_sleep 5] else [].

(** [init_sci].  A missing FADT is a null pointer that the code reads through. *)
Definition init_sci {D} `{HW : RegHw D} (st : acpi.state) (sci_handler lapic_id : Z) (mt : madt.t) (l : list (ioapic.device * Z))
    (hs : list idt.handler) (m : bmem) (d : D) : res (list idt.handler * D * list call) :=
  let fadt := acpi.find_table (acpi.acpi_tables st) acpi.fadt_signature 0 0 m in
  if fadt =? 0 then Undef
  else
    '(hs, d) ← ioapic.init_sci (le_at m (fadt + acpi.sci_int_offset) 2) sci_handler lapic_id mt l hs d;
    mret (hs, d, [enable_acpi 1]).
End aml.

(** ** Theorems: the services *)

(** [laihost_map] of [bytes] bytes from [addr] on: every byte in the pages that are
    counted translates to its own frame, writable and not executable, at the address
    that is returned, and no other page changes.  The pages are counted from the
    number of bytes alone, so these are all bytes when [addr] is on a page boundary,
    and otherwise at least those up to the last boundary. *)
Theorem laihost_map_ok {S} `{FA : FrameAllocatorLaws S} (own : gmap Z (nat * Z)) (root addr bytes : Z) (k : paging.kernel S) :
  space_ok own root k -> 0 <= addr -> 0 <= bytes -> addr + bytes <= 2 ^ 46 ->
  (3 * Z.to_nat (div_ceil bytes block_size) <= length (fa_pages (paging.frames k)))%nat ->
  exists k', laihost.map (to_virt root) addr bytes k = Ret (map_virt addr, k') /\ (exists own', space_ok own' root k') /\
    (forall i, 0 <= i -> addr mod 4096 + i < 4096 * div_ceil bytes block_size ->
       let e := make_pte (addr + 4096 * ((addr + i) / 4096 - addr / 4096)) laihost.map_flags normal in
       translate (paging.mem k') root (map_virt (addr + i)) = Some e /\ Z.testbit e 1 = true /\ Z.testbit e 63 = true) /\
    (forall v, (forall j, 0 <= j < div_ceil bytes block_size -> vpn v <> vpn (map_virt (addr + 4096 * j))) ->
       translate (paging.mem k') root v = translate (paging.mem k) root v).
Proof.
  intros OK Ha Hb Hm Hl. set (n := div_ceil bytes block_size) in *.
  assert (Hn : 0 <= n /\ bytes <= n * 4096 < bytes + 4096) by (unfold n, div_ceil, block_size; wrap_lia).
  destruct (map_loop_ok (Z.to_nat n) 0 (fun j => u64 (addr + j * block_size)) (fun j => u64 (addr + j * block_size + KERNEL_PHYSICAL_VIRTUAL_MAPPING_BASE))
    laihost.map_flags normal own root k OK Hl eq_refl) as (k' & own' & E & OK' & _ & Hv). rewrite Z2Nat.id, Z.add_0_l in Hv by lia.
  assert (Hu : forall j, 0 <= j < n -> u64 (addr + j * block_size) = addr + 4096 * j /\
    u64 (addr + j * block_size + KERNEL_PHYSICAL_VIRTUAL_MAPPING_BASE) = map_virt (addr + 4096 * j)).
  { intros j Hj. unfold map_virt. split; (rewrite u64_small; [unfold block_size; lia |]); unfold is_u64, KERNEL_PHYSICAL_VIRTUAL_MAPPING_BASE, block_size; lia. }
  assert (Hpage : forall x j, 0 <= x < 2 ^ 46 + 4096 -> 0 <= j < n -> vpn (map_virt x) = vpn (map_virt (addr + 4096 * j)) <-> x / 4096 = addr / 4096 + j).
  { intros x j Hx Hj. unfold map_virt. rewrite !vpn_kernel by (unfold KERNEL_PHYSICAL_VIRTUAL_MAPPING_BASE; lia).
    unfold KERNEL_PHYSICAL_VIRTUAL_MAPPING_BASE. Z.to_euclidean_division_equations. lia. }
  exists k'. split_and!.
  - unfold laihost.map. cbn zeta. fold n. rewrite E. cbn [mbind res_bind mret res_ret]. do 2 f_equal.
    apply u64_small. unfold map_virt, is_u64, KERNEL_PHYSICAL_VIRTUAL_MAPPING_BASE. lia.
  - by exists own'.
  - intros i Hi Hin e. set (j := (addr + i) / 4096 - addr / 4096) in *.
    assert (Hj : 0 <= j < n) by (unfold j; Z.to_euclidean_division_equations; lia). split; [| split].
    + destruct (Hv (map_virt (addr + i))) as [(j' & Hj' & Hjv & ->) | [Hno _]].
      * destruct (Hu j' Hj') as [E1 E2]. rewrite E2 in Hjv. apply Hpage in Hjv; [| | done].
        -- rewrite E1. unfold e. do 2 f_equal. unfold j in *. lia.
        -- unfold j in *. Z.to_euclidean_division_equations. lia.
      * exfalso. apply (Hno j Hj). destruct (Hu j Hj) as [_ ->]. apply Hpage; [| done | unfold j; lia].
        unfold j in *. Z.to_euclidean_division_equations. lia.
    + unfold e. rewrite testbit_make_pte, testbit_entry_flags, testbit_flags_mask by lia. reflexivity.
    + unfold e. rewrite testbit_make_pte, testbit_entry_flags, testbit_flags_mask by lia. reflexivity.
  - intros v Hno. destruct (Hv v) as [(j & Hj & Hjv & _) | [_ Ht]]; [| done]. destruct (Hu j Hj) as [_ E2]. rewrite E2 in Hjv. by edestruct Hno.
Qed.

Lemma laihost_map_ok_witness :
  exists k', laihost.map (to_virt root_example) 0x5800 0x1000 paging_example = Ret (map_virt 0x5800, k') /\
    translate (paging.mem k') root_example (map_virt 0x5FFF) = Some (make_pte 0x5800 laihost.map_flags normal).
Proof.
  destruct (laihost_map_ok own_example root_example 0x5800 0x1000 paging_example) as (k' & E & _ & Ht & _);
    [apply paging_example_ok | lia | lia | lia | vm_compute; lia |].
  exists k'. split; [exact E |]. apply (Ht 0x7FF); [lia | vm_compute; reflexivity].
Defined.

(** 4096 bytes from the middle of a page: the second half is not mapped. *)
Example laihost_map_unaligned :
  match laihost.map (to_virt root_example) 0x5800 0x1000 paging_example with
  | Ret (p, k') => translate (paging.mem k') root_example (p + 0xFFF) = None
  | _ => False
  end.
Proof. vm_compute. reflexivity. Qed.

(** The interpreter never gets a null pointer for an allocation of no bytes: whatever
    the size, it gets a new block of at least that size and of at least one byte. *)
Theorem laihost_malloc_fresh {S} `{FA : FrameAllocatorLaws S} (own : gmap Z (nat * Z)) (root : Z)
    (h : alloc.heap S) (L : list (Z * alloc.header)) (sz : Z) :
  heap_ok own root h L -> 0 <= sz -> room 6 (Z.max 1 sz + alloc.sizeof_header) h ->
  exists p n h' own' L', laihost.malloc sz h = Ret (p, h') /\ heap_ok own' root h' L' /\
    p <> 0 /\ Z.max 1 sz <= n /\ live L' ≡ₚ (p, n) :: live L.
Proof.
  intros OK Hs Hr. unfold laihost.malloc. replace (if sz =? 0 then 1 else sz) with (Z.max 1 sz) by (destruct (Z.eqb_spec sz 0); lia).
  destruct (alloc_ok own root h L (Z.max 1 sz) OK) as (p & n & h' & own' & L' & E & OK' & Hp & Hn & HP & _); [lia | done |].
  by exists p, n, h', own', L'.
Qed.

Lemma laihost_malloc_fresh_witness :
  exists h own, heap_ok own root_example h [] /\
  exists p n h' own' L', laihost.malloc 0 h = Ret (p, h') /\ heap_ok own' root_example h' L' /\
    p <> 0 /\ 1 <= n /\ live L' ≡ₚ (p, n) :: live [].
Proof.
  destruct heap_example as (h & own & OK & _ & _ & Hr). exists h, own. split; [exact OK |].
  apply (laihost_malloc_fresh own root_example h [] 0); [exact OK | lia | apply Hr; unfold alloc.sizeof_header; lia].
Defined.

(** The accessors for the configuration space do what the hardware does, at all three
    widths, whichever method the kernel uses to reach it. *)
Theorem laihost_pci_exact {C V} `{OK : PciAccessOk C V} (co : coord) (offset value : Z) (c : C) :
  acc_ok c -> reachable_coord (C := C) (V := V) co -> 0 <= offset < 256 ->
  (exists c', laihost.pci_readb co offset c = Ret (u8 (cfg_rd co offset 1 (acc_view c)), c') /\ acc_ok c' /\ acc_view c' = acc_view c) /\
  (exists c', laihost.pci_writeb co offset value c = Ret c' /\ acc_ok c' /\ acc_view c' = cfg_wr co offset 1 value (acc_view c)) /\
  (offset mod 4 <= 2 ->
   (exists c', laihost.pci_readw co offset c = Ret (u16 (cfg_rd co offset 2 (acc_view c)), c') /\ acc_ok c' /\ acc_view c' = acc_view c) /\
   (exists c', laihost.pci_writew co offset value c = Ret c' /\ acc_ok c' /\ acc_view c' = cfg_wr co offset 2 value (acc_view c))) /\
  (offset mod 4 = 0 ->
   (exists c', laihost.pci_readd co offset c = Ret (cfg_rd co offset 4 (acc_view c), c') /\ acc_ok c' /\ acc_view c' = acc_view c) /\
   (exists c', laihost.pci_writed co offset value c = Ret c' /\ acc_ok c' /\ acc_view c' = cfg_wr co offset 4 value (acc_view c))).
Proof.
  intros Hc Hco Ho. unfold laihost.pci_readb, laihost.pci_readw, laihost.pci_readd, laihost.pci_writeb, laihost.pci_writew, laihost.pci_writed.
  assert (Hrd : forall size (f : Z -> Z), aligned_access offset size -> exists c',
    ('(v, c) ← internal_read co offset size c; mret (f v, c)) = Ret (f (cfg_rd co offset size (acc_view c)), c') /\ acc_ok c' /\ acc_view c' = acc_view c).
  { intros size f Hs. destruct (rd_ok co offset size c Hc Hco Hs) as (c' & -> & H). by exists c'. }
  split_and!; [| | intros Hm; split | intros Hm; split].
  - by apply Hrd, aligned_byte.
  - by apply wr_ok; [| | apply aligned_byte].
  - by apply Hrd, aligned_half.
  - by apply wr_ok; [| | apply aligned_half].
  - by apply rd_ok; [| | apply aligned_word].
  - by apply wr_ok; [| | apply aligned_word].
Qed.

Lemma laihost_pci_exact_witness : exists c',
  laihost.pci_readb example.card 0x0E (example.mk_ports 0 example.start) =
    Ret (u8 (cfg_rd example.card 0x0E 1 (acc_view (example.mk_ports 0 example.start))), c').
Proof.
  destruct (laihost_pci_exact (C := example.ports) (V := example.space) example.card 0x0E 0 (example.mk_ports 0 example.start))
    as ((c' & E & _) & _); [exact I | split; [reflexivity | cbn; lia] | lia |].
  exists c'. exact E.
Defined.

(** ** Theorems: the interpreter *)

(** The embedded controllers among the first [n] devices. *)
Definition ecs_before (l : list aml.node) (n : nat) : nat := length (filter (fun x => aml.is_ec x = true) (take n l)).

Lemma override_loop_in n i d l x : x ∈ aml.override_loop n i d l <->
  exists j c, l !! j = Some c /\ aml.opregion c = true /\ aml.ec_space c = true /\ x = aml.override_opregion n (i + j) d.
Proof.
  revert i. induction l as [| c l IH]; intros i; cbn [aml.override_loop].
  - rewrite elem_of_nil. split; [done |]. by intros (j & c & ? & _).
  - rewrite elem_of_app, IH. split.
    + intros [H | (j & c' & Hj & Ho & He & ->)].
      * destruct (aml.opregion c) eqn:Eo, (aml.ec_space c) eqn:Ee; cbn in H; try (by apply elem_of_nil in H).
        apply list_elem_of_singleton in H as ->. exists 0%nat, c. by rewrite Nat.add_0_r.
      * exists (S j), c'. split_and!; [done | done | done | f_equal; lia].
    + intros ([| j] & c' & Hj & Ho & He & ->).
      * injection Hj as ->. left. rewrite Ho, He, Nat.add_0_r. apply list_elem_of_here.
      * right. exists j, c'. split_and!; [done | done | done | f_equal; lia].
Qed.

Lemma start_ec_in n d x c : c ∈ aml.start_ec n d x <->
  c = aml.init_ec n d \/
  (exists i y, aml.children x !! i = Some y /\ aml.opregion y = true /\ aml.ec_space y = true /\ c = aml.override_opregion n i d) \/
  (aml.reg x = true /\ c = aml.eval_reg n 3 1).
Proof.
  unfold aml.start_ec. rewrite elem_of_cons, elem_of_app, override_loop_in. cbn [Nat.add].
  destruct (aml.reg x); [rewrite list_elem_of_singleton | rewrite elem_of_nil]; naive_solver.
Qed.

Lemma ec_loop_in n d l c : c ∈ aml.ec_loop n d l <->
  exists i x, l !! i = Some x /\ aml.is_ec x = true /\ c ∈ aml.start_ec (n + i) (d + ecs_before l i) x.
Proof.
  revert n d. induction l as [| x l IH]; intros n d; cbn [aml.ec_loop].
  - rewrite elem_of_nil. split; [done |]. by intros (i & x & ? & _).
  - assert (Hb : forall i, ecs_before (x :: l) (S i) = ((if aml.is_ec x then 1 else 0) + ecs_before l i)%nat).
    { intros i. unfold ecs_before. cbn [take]. rewrite filter_cons. destruct (decide _) as [H | H]; [by rewrite H |].
      destruct (aml.is_ec x); [by destruct H | done]. }
    transitivity ((aml.is_ec x = true /\ c ∈ aml.start_ec n d x) \/ c ∈ aml.ec_loop (S n) ((if aml.is_ec x then 1 else 0) + d) l).
    { destruct (aml.is_ec x); [rewrite elem_of_app; naive_solver | naive_solver]. }
    rewrite IH. split.
    + intros [[He Hc] | (i & y & Hi & He & Hc)].
      * exists 0%nat, x. rewrite !Nat.add_0_r. done.
      * exists (S i), y. split_and!; [done | done |]. rewrite Hb. replace (n + S i)%nat with (S n + i)%nat by lia.
        by replace (d + ((if aml.is_ec x then 1 else 0) + ecs_before l i))%nat with ((if aml.is_ec x then 1 else 0) + d + ecs_before l i)%nat by lia.
    + intros ([| i] & y & Hi & He & Hc).
      * injection Hi as ->. left. by rewrite !Nat.add_0_r in Hc.
      * right. exists i, y. split_and!; [done | done |]. rewrite Hb in Hc. replace (S n + i)%nat with (n + S i)%nat by lia.
        by replace ((if aml.is_ec x then 1 else 0) + d + ecs_before l i)%nat with (d + ((if aml.is_ec x then 1 else 0) + ecs_before l i))%nat by lia.
Qed.

(** The embedded controllers are started exactly: each one, and nothing else, gets a
    driver of its own; exactly its operation regions in the space of the controller are
    redirected to that driver; and exactly its method _REG, if it has one, is told that
    the space (number 3) is there. *)
Theorem embedded_controllers (l : list aml.node) :
  (forall n d, aml.init_ec n d ∈ aml.init_ecs l <-> exists x, l !! n = Some x /\ aml.is_ec x = true /\ d = ecs_before l n) /\
  (forall n i d, aml.override_opregion n i d ∈ aml.init_ecs l <->
     exists x c, l !! n = Some x /\ aml.is_ec x = true /\ d = ecs_before l n /\ aml.children x !! i = Some c /\
       aml.opregion c = true /\ aml.ec_space c = true) /\
  (forall n a e, aml.eval_reg n a e ∈ aml.init_ecs l <->
     exists x, l !! n = Some x /\ aml.is_ec x = true /\ aml.reg x = true /\ a = 3 /\ e = 1) /\
  (forall n n' d, aml.init_ec n d ∈ aml.init_ecs l -> aml.init_ec n' d ∈ aml.init_ecs l -> n = n').
Proof.
  assert (H1 : forall n d, aml.init_ec n d ∈ aml.init_ecs l <-> exists x, l !! n = Some x /\ aml.is_ec x = true /\ d = ecs_before l n).
  { intros n d. unfold aml.init_ecs. rewrite ec_loop_in. setoid_rewrite start_ec_in. cbn [Nat.add]. naive_solver. }
  split_and!; [exact H1 | ..].
  - intros n i d. unfold aml.init_ecs. rewrite ec_loop_in. setoid_rewrite start_ec_in. cbn [Nat.add]. naive_solver.
  - intros n a e. unfold aml.init_ecs. rewrite ec_loop_in. setoid_rewrite start_ec_in. cbn [Nat.add]. naive_solver.
  - assert (Hlt : forall n n' x, (n < n')%nat -> l !! n = Some x -> aml.is_ec x = true -> (ecs_before l n < ecs_before l n')%nat).
    { intros n n' x Hlt Hn He. unfold ecs_before. rewrite <- (take_drop n (take n' l)), take_take, Nat.min_l by lia.
      rewrite filter_app, length_app. rewrite skipn_firstn_comm. rewrite (drop_S l x n Hn).
      destruct (n' - n)%nat as [| k] eqn:Ek; [lia |]. cbn [take]. rewrite filter_cons, decide_True by done. cbn [length]. lia. }
    intros n n' d (x & Hn & He & Hd)%H1 (x' & Hn' & He' & Hd')%H1. destruct (Nat.lt_trichotomy n n') as [H | [H | H]]; [| done |].
    + specialize (Hlt n n' x H Hn He). lia.
    + specialize (Hlt n' n x' H Hn' He'). lia.
Qed.

(** The system control interrupt: its number is read from the FADT, and the
    interpreter is told after the route and the handler are in place; the power button
    switches the machine off (state S5), and no other event does. *)
Theorem sci_started {D} `{HW : RegHw D} (st : acpi.state) (handler n fadt button event : Z) (mt : madt.t) (l : list (ioapic.device * Z))
    (hs : list idt.handler) (m : bmem) (d : D) :
  acpi.find_table (acpi.acpi_tables st) acpi.fadt_signature 0 0 m = fadt -> fadt <> 0 ->
  aml.init_sci st handler n mt l hs m d =
    ('(hs, d) ← ioapic.init_sci (tables.field tables.fadt "sci_int" fadt m) handler n mt l hs d; Ret (hs, d, [aml.enable_acpi 1])) /\
  (aml.enter_sleep 5 ∈ aml.acpi_sci_handler button event <-> Z.land event button <> 0) /\
  Forall (fun c => c = aml.enter_sleep 5) (aml.acpi_sci_handler button event).
Proof.
  intros Hf Hz. split_and!.
  - unfold aml.init_sci. rewrite Hf, (proj2 (Z.eqb_neq fadt 0) Hz). reflexivity.
  - unfold aml.acpi_sci_handler. destruct (Z.eqb_spec (Z.land event button) 0) as [E | E]; cbn [negb].
    + rewrite elem_of_nil. done.
    + split; [done | intros _; apply list_elem_of_here].
  - unfold aml.acpi_sci_handler. destruct (Z.land event button =? 0); cbn [negb]; by repeat constructor.
Qed.

Definition fadt_example : bmem := fun a => nth (Z.to_nat (a - 0x1000)) [70; 65; 67; 80] (if a =? 0x1000 + 46 then 9 else 0).

Lemma sci_started_witness :
  aml.init_sci (D := loc -> Z) (acpi.mk 2 [0x1000] 0) 1 0 madt.create ioapics_example (replicate 256 idt.no_handler) fadt_example (fun _ => 0) =
    ('(hs, d) ← ioapic.init_sci 9 1 0 madt.create ioapics_example (replicate 256 idt.no_handler) (fun _ => 0); Ret (hs, d, [aml.enable_acpi 1])) /\
  (aml.enter_sleep 5 ∈ aml.acpi_sci_handler 0x100 0x100 <-> Z.land 0x100 0x100 <> 0) /\
  Forall (fun c => c = aml.enter_sleep 5) (aml.acpi_sci_handler 0x100 0x100).
Proof.
  apply (sci_started (D := loc -> Z) (acpi.mk 2 [0x1000] 0) 1 0 0x1000 0x100 0x100 madt.create ioapics_example (replicate 256 idt.no_handler) fadt_example (fun _ => 0));
    [vm_compute; reflexivity | lia].
Defined.
