(* ===== verification/Cpu.v ===== *)
(** * Cpu: the features of the processor

    Models the first half of source/arch/x86_64/cpu.cpp with include/Sigma/arch/
    x86_64/cpu.h: the protections that are switched on in CR4, the page attribute
    table, XCR0, memory encryption, the guards around accesses to user memory, and
    the decoding of the processor's signature.  [cpuid] is a parameter, as is what the
    kernel's command line says ([kernel_args::get_bool] is in Klibc.v); the model
    specific registers and [svm::init] are those of Virt.v.  What is printed
    about the processor is in Identify.v. *)

From S2P Require Import Prelude Bits Fields Frames Pmm Paging Virt.

(** ** Registers *)

Module cpu_regs.
Definition cr4 : layout :=
  [("vme", 1); ("pvi", 1); ("tsd", 1); ("de", 1); ("pse", 1); ("pae", 1); ("mce", 1); ("pge", 1); ("pce", 1);
   ("osfxsr", 1); ("osxmmexcpt", 1); ("umip", 1); ("la57", 1); ("vmxe", 1); ("smxe", 1); ("res_1", 1); ("fsgsbase", 1);
   ("pcide", 1); ("osxsave", 1); ("res_2", 1); ("smep", 1); ("smap", 1); ("pke", 1); ("res_3", 41)].
Definition xcr0 : layout :=
  [("fpu_mmx", 1); ("sse", 1); ("avx", 1); ("bndreg", 1); ("bndcsr", 1); ("opmask", 1); ("zmm_hi256", 1); ("zmm_hi16", 1);
   ("pkru", 1)].
End cpu_regs.

Module cpuid_bits.
Definition PCID : Z := 0x00020000.
Definition XSAVE : Z := 0x04000000.
Definition AVX : Z := 0x10000000.
Definition PAT : Z := 0x00010000.
Definition SSE : Z := 0x02000000.
Definition SMEP : Z := 0x00000080.
Definition INVPCID : Z := 0x00000400.
Definition SMAP : Z := 0x100000.
Definition UMIP : Z := 0x4.
Definition TME : Z := 0x2000.
End cpuid_bits.

Module pat.
Definition uncacheable : Z := 0x00.
Definition write_combining : Z := 0x01.
Definition write_through : Z := 0x04.
Definition write_back : Z := 0x06.
Definition sigma_pat : Z :=
  Z.lor (Z.lor (Z.lor write_back (Z.shiftl write_combining 8)) (Z.shiftl write_through 16)) (Z.shiftl uncacheable 24).
End pat.

(** ** The initialisation *)

Module cpu.
Import cpuid_bits.
Definition ia32_pat : Z := 0x277.
Definition ia32_tme_capability : Z := 0x981.
Definition ia32_tme_activate : Z := 0x982.

(** The vendor's signature in [cpuid.h]. *)
Definition signature_AMD_ebx : Z := 0x68747541.
Definition signature_AMD_ecx : Z := 0x444d4163.
Definition signature_AMD_edx : Z := 0x69746e65.

(** The registers, the flag AC, the members of [features] that are set here, and the
    rest of the processor with the frame allocator. *)
Record state (S : Type) := mk {
  cr4 : Z; xcr0 : Z; ac : bool; f_pcid : bool; f_invpcid : bool; f_smap : bool; host : svm.host; frames : S }.
Arguments mk {S}. Arguments cr4 {S}. Arguments xcr0 {S}. Arguments ac {S}. Arguments f_pcid {S}. Arguments f_invpcid {S}.
Arguments f_smap {S}. Arguments host {S}. Arguments frames {S}.

Section ops.
Context {S : Type} `{FA : FrameAllocator S}.
Implicit Types c : state S.
(** [cpuid(leaf, subleaf)]: EAX, EBX, ECX and EDX of a leaf that exists. *)
Context (cpuid : Z -> Z -> option (Z * Z * Z * Z)) (arg : string -> bool).

Definition set_cr4 (name : string) c : state S :=
  mk (putf cpu_regs.cr4 name 1 (cr4 c)) (xcr0 c) (ac c) (f_pcid c) (f_invpcid c) (f_smap c) (host c) (frames c).
Definition set_ac (b : bool) c : state S := mk (cr4 c) (xcr0 c) b (f_pcid c) (f_invpcid c) (f_smap c) (host c) (frames c).
Definition set_xcr0 (v : Z) c : state S := mk (cr4 c) v (ac c) (f_pcid c) (f_invpcid c) (f_smap c) (host c) (frames c).
Definition set_f_smap c : state S := mk (cr4 c) (xcr0 c) (ac c) (f_pcid c) (f_invpcid c) true (host c) (frames c).
Definition set_f_pcid (p i : bool) c : state S := mk (cr4 c) (xcr0 c) (ac c) p i (f_smap c) (host c) (frames c).
Definition set_host (h : svm.host) (s : S) c : state S := mk (cr4 c) (xcr0 c) (ac c) (f_pcid c) (f_invpcid c) (f_smap c) h s.
Definition write_msr (r v : Z) c : state S := set_host (svm.write_msr r v (host c)) (frames c) c.
Definition read_msr (r : Z) c : Z := svm.msr (svm.cpu (host c)) r.

(** A bit of EBX, ECX or EDX of a leaf; absent leaves have none. *)
Definition ebx7 (mask : Z) : bool := match cpuid 0x7 0 with Some (_, b, _, _) => negb (Z.land b mask =? 0) | None => false end.
Definition ecx7 (mask : Z) : bool := match cpuid 0x7 0 with Some (_, _, c, _) => negb (Z.land c mask =? 0) | None => false end.
Definition ecx1 (mask : Z) : bool := match cpuid 1 0 with Some (_, _, c, _) => negb (Z.land c mask =? 0) | None => false end.

(** [smap_guard]: constructor and destructor. *)
Definition smap_enter c : state S := if f_smap c then set_ac true c else c.
Definition smap_leave c : state S := if f_smap c then set_ac false c else c.

Definition smep_init c : state S := if arg "nosmep" then c else if ebx7 SMEP then set_cr4 "smep" c else c.
Definition smap_init c : state S :=
  if arg "nosmap" then c else if ebx7 SMAP then set_ac false (set_f_smap (set_cr4 "smap" c)) else c.
Definition umip_init c : state S := if arg "noumip" then c else if ecx7 UMIP then set_cr4 "umip" c else c.
Definition pat_init c : res (state S) :=
  match cpuid 1 0 with
  | Some (_, _, _, d) => if Z.land d PAT =? 0 then Panic "PAT is not available" else mret (write_msr ia32_pat pat.sigma_pat c)
  | None => mret c
  end.
Definition pcid_init c : state S :=
  let supports_pcid := negb (arg "nopcid") && ecx1 PCID in
  let supports_invpcid := negb (arg "noinvpcid") && ebx7 INVPCID in
  if supports_pcid then set_f_pcid supports_pcid supports_invpcid (set_cr4 "pcide" c) else c.
Definition tsd_init c : state S := if arg "enable_tsd" then set_cr4 "tsd" c else c.

(** [tme::init] and [tme::restore_key]: the same but for the way the key is made. *)
Definition tme_activate (key : Z) c : state S :=
  if arg "notme" then c
  else if ecx7 TME then
    if bitops.bit_test 32 (u32 (read_msr ia32_tme_activate c)) 0 then c
    else if bitops.bit_test 32 (u32 (read_msr ia32_tme_capability c)) 0 then write_msr ia32_tme_activate (Z.lor (Z.shiftl 1 1) (Z.shiftl 1 key)) c
    else c
  else c.
Definition tme_init c : state S := tme_activate 3 c.
Definition tme_restore_key c : state S := tme_activate 2 c.
Definition misc_bsp_late_features_init c : state S := tme_init c.

(** XCR0, with what leaf 1 says in ECX and EDX. *)
Definition xcr0_init (ecx edx : Z) c : state S :=
  if Z.land ecx XSAVE =? 0 then c
  else
    let xcr := putf cpu_regs.xcr0 "fpu_mmx" 1 (xcr0 c) in
    let xcr := if Z.land edx SSE =? 0 then xcr else putf cpu_regs.xcr0 "sse" 1 xcr in
    let xcr := if Z.land ecx AVX =? 0 then xcr else putf cpu_regs.xcr0 "avx" 1 xcr in
    set_xcr0 xcr c.

(** [misc_early_features_init]; [stale] is what the variables hold when leaf 0 does
    not exist. *)
Definition misc_early_features_init (stale : Z * Z * Z * Z) c : res (state S) :=
  let c := umip_init (smap_init (smep_init (tsd_init c))) in
  c ← pat_init c;
  let c := pcid_init c in
  let leaf0 := default stale (cpuid 0 0) in
  c ← (let '(_, b, cx, d) := leaf0 in
       if (b =? signature_AMD_ebx) && (cx =? signature_AMD_ecx) && (d =? signature_AMD_edx) then
         '(_, h, s) ← svm.init (fun leaf => cpuid leaf 0) (host c) (frames c); mret (set_host h s c)
       else mret c);
  let '(_, _, cx, d) := default leaf0 (cpuid 1 0) in
  mret (xcr0_init cx d c).
End ops.

(** *** The signature of the processor *)

(** [identify_cpu]: family, model, stepping and type, from EAX of leaf 1. *)
Definition family_id (a : Z) : Z :=
  let basic := Z.land (Z.shiftr a 8) 0xF in if basic =? 15 then basic + Z.land (Z.shiftr a 20) 0xFF else basic.
Definition model_id (a : Z) : Z :=
  let basic_family := Z.land (Z.shiftr a 8) 0xF in
  let basic := Z.land (Z.shiftr a 4) 0xF in
  if (basic_family =? 6) || (basic_family =? 15) then Z.lor (u8 (Z.shiftl (Z.land (Z.shiftr a 16) 0xF) 4)) basic else basic.
Definition stepping (a : Z) : Z := Z.land a 0xF.
Definition processor_type (a : Z) : Z := Z.land (Z.shiftr a 12) 0x3.
End cpu.

(** *** Kernel stacks *)

(** [kernel_stack]: its size, and the addresses of its bottom and top. *)
Module kernel_stack.
Record t := mk { size : Z; bottom : Z; top : Z }.
Definition default_size : Z := 0x8000.
(** The constructor, on the memory that [new uint8_t[size]] returned; [reset]. *)
Definition create (sz mem : Z) : t := mk sz mem (u64 (mem + sz)).
Definition reset (s : t) : t := mk (size s) (bottom s) (u64 (bottom s + size s)).
(** [push<T>]: the stack and the address of the new object. *)
Definition push (sizeof alignof : Z) (s : t) : t * Z :=
  let top := u64 (top s - ALIGN_UP sizeof (if 16 <? alignof then alignof else 16)) in (mk (size s) (bottom s) top, top).
End kernel_stack.

(** ** Theorems: CR4 *)

Section cr4.
Context {S : Type} `{FA : FrameAllocator S}.
Context (cpuid : Z -> Z -> option (Z * Z * Z * Z)) (arg : string -> bool).
Implicit Types c : cpu.state S.

(** The bits of CR4 that the processor supports and the command line allows. *)
Definition protections : list (Z * bool) :=
  [(2, arg "enable_tsd"); (20, negb (arg "nosmep") && cpu.ebx7 cpuid cpuid_bits.SMEP);
   (21, negb (arg "nosmap") && cpu.ebx7 cpuid cpuid_bits.SMAP); (11, negb (arg "noumip") && cpu.ecx7 cpuid cpuid_bits.UMIP);
   (17, negb (arg "nopcid") && cpu.ecx1 cpuid cpuid_bits.PCID)].

Definition wanted (l : list (Z * bool)) (i : Z) : bool := existsb (fun p => p.2 && (p.1 =? i)) l.

Lemma set_cr4_bit name lo c i :
  find_field cpu_regs.cr4 name 0 = (lo, 1) -> 0 <= lo -> 0 <= i ->
  Z.testbit (cpu.cr4 (cpu.set_cr4 name c)) i = Z.testbit (cpu.cr4 c) i || (lo =? i).
Proof.
  intros E Hl Hi. cbn. unfold putf. rewrite E, testbit_set_bits by lia. destruct (Z.eqb_spec lo i) as [-> | Hne].
  - rewrite decide_True by lia. by rewrite Z.sub_diag, orb_true_r.
  - rewrite decide_False by lia. by rewrite orb_false_r.
Qed.

(** One step of the initialisation adds its bit when it is wanted. *)
Definition adds (lo : Z) (b : bool) (c c' : cpu.state S) : Prop :=
  forall i, 0 <= i -> Z.testbit (cpu.cr4 c') i = Z.testbit (cpu.cr4 c) i || (b && (lo =? i)).

Lemma adds_set name lo (b : bool) c c' :
  find_field cpu_regs.cr4 name 0 = (lo, 1) -> 0 <= lo -> cpu.cr4 c' = cpu.cr4 (if b then cpu.set_cr4 name c else c) -> adds lo b c c'.
Proof.
  intros E Hl H i Hi. rewrite H. destruct b; cbn [andb]; [by apply set_cr4_bit | by rewrite orb_false_r].
Qed.

Lemma steps_add c :
  adds 2 (arg "enable_tsd") c (cpu.tsd_init arg c) /\
  adds 20 (negb (arg "nosmep") && cpu.ebx7 cpuid cpuid_bits.SMEP) c (cpu.smep_init cpuid arg c) /\
  adds 21 (negb (arg "nosmap") && cpu.ebx7 cpuid cpuid_bits.SMAP) c (cpu.smap_init cpuid arg c) /\
  adds 11 (negb (arg "noumip") && cpu.ecx7 cpuid cpuid_bits.UMIP) c (cpu.umip_init cpuid arg c) /\
  adds 17 (negb (arg "nopcid") && cpu.ecx1 cpuid cpuid_bits.PCID) c (cpu.pcid_init cpuid arg c).
Proof.
  split_and!; [apply (adds_set "tsd") | apply (adds_set "smep") | apply (adds_set "smap") | apply (adds_set "umip") | apply (adds_set "pcide")];
    try reflexivity; try lia.
  - unfold cpu.smep_init. destruct (arg "nosmep"), (cpu.ebx7 cpuid _); reflexivity.
  - unfold cpu.smap_init. destruct (arg "nosmap"), (cpu.ebx7 cpuid _); reflexivity.
  - unfold cpu.umip_init. destruct (arg "noumip"), (cpu.ecx7 cpuid _); reflexivity.
  - unfold cpu.pcid_init. destruct (arg "nopcid"), (cpu.ecx1 cpuid _); reflexivity.
Qed.

(** After the initialisation, CR4 has exactly the bits it had and those of the
    protections that the processor supports and the command line does not switch off;
    the flag that the guards around user memory look at says whether accesses are
    prevented, and the page attribute table is the kernel's. *)
Theorem early_features_exact (stale : Z * Z * Z * Z) (c : cpu.state S) (a b cx d : Z) :
  cpuid 1 0 = Some (a, b, cx, d) -> Z.land d cpuid_bits.PAT <> 0 -> cpu.f_smap c = false ->
  (forall h s, exists r, svm.init (fun leaf => cpuid leaf 0) h s = Ret r /\ svm.msr (svm.cpu r.1.2) cpu.ia32_pat = svm.msr (svm.cpu h) cpu.ia32_pat) ->
  exists c', cpu.misc_early_features_init cpuid arg stale c = Ret c' /\
    (forall i, 0 <= i -> Z.testbit (cpu.cr4 c') i = Z.testbit (cpu.cr4 c) i || wanted protections i) /\
    cpu.f_smap c' = (negb (arg "nosmap") && cpu.ebx7 cpuid cpuid_bits.SMAP) /\
    cpu.read_msr cpu.ia32_pat c' = pat.sigma_pat.
Proof.
  intros H1 Hpat Hsmap Hsvm. unfold cpu.misc_early_features_init. destruct (steps_add c) as (A1 & _). set (c1 := cpu.tsd_init arg c) in *.
  destruct (steps_add c1) as (_ & A2 & _). set (c2 := cpu.smep_init cpuid arg c1) in *. destruct (steps_add c2) as (_ & _ & A3 & _).
  set (c3 := cpu.smap_init cpuid arg c2) in *. destruct (steps_add c3) as (_ & _ & _ & A4 & _). set (c4 := cpu.umip_init cpuid arg c3) in *.
  unfold cpu.pat_init. rewrite H1, (proj2 (Z.eqb_neq _ _)) by done. cbn [mbind res_bind mret res_ret]. set (c5 := cpu.write_msr cpu.ia32_pat pat.sigma_pat c4).
  destruct (steps_add c5) as (_ & _ & _ & _ & A5). set (c6 := cpu.pcid_init cpuid arg c5) in *.
  assert (F : cpu.f_smap c6 = (negb (arg "nosmap") && cpu.ebx7 cpuid cpuid_bits.SMAP) /\ cpu.read_msr cpu.ia32_pat c6 = pat.sigma_pat).
  { assert (F2 : cpu.f_smap c2 = false).
    { unfold c2, cpu.smep_init. assert (cpu.f_smap c1 = false) by (unfold c1, cpu.tsd_init; by destruct (arg "enable_tsd")). by destruct (arg "nosmep"), (cpu.ebx7 cpuid _). }
    unfold c6, cpu.pcid_init. split; [| by destruct (negb (arg "nopcid") && cpu.ecx1 cpuid cpuid_bits.PCID)]. transitivity (cpu.f_smap c4); [by destruct (negb (arg "nopcid") && cpu.ecx1 cpuid cpuid_bits.PCID) |].
    transitivity (cpu.f_smap c3); [unfold c4, cpu.umip_init; by destruct (arg "noumip"), (cpu.ecx7 cpuid _) |].
    unfold c3, cpu.smap_init. destruct (arg "nosmap"); [exact F2 |]. destruct (cpu.ebx7 cpuid cpuid_bits.SMAP); [reflexivity | exact F2]. }
  assert (B : forall i, 0 <= i -> Z.testbit (cpu.cr4 c6) i = Z.testbit (cpu.cr4 c) i || wanted protections i).
  { intros i Hi. rewrite A5 by done. change (cpu.cr4 c5) with (cpu.cr4 c4). rewrite A4, A3, A2, A1 by done. unfold wanted, protections. cbn [existsb fst snd].
    by rewrite !orb_false_r, !orb_assoc. }
  destruct F as [F1 F2].
  assert (Hend : forall c7, cpu.cr4 c7 = cpu.cr4 c6 -> cpu.f_smap c7 = cpu.f_smap c6 -> cpu.read_msr cpu.ia32_pat c7 = cpu.read_msr cpu.ia32_pat c6 ->
    exists c', mret (cpu.xcr0_init cx d c7) = Ret c' /\ (forall i, 0 <= i -> Z.testbit (cpu.cr4 c') i = Z.testbit (cpu.cr4 c) i || wanted protections i) /\
    cpu.f_smap c' = (negb (arg "nosmap") && cpu.ebx7 cpuid cpuid_bits.SMAP) /\ cpu.read_msr cpu.ia32_pat c' = pat.sigma_pat).
  { intros c7 E1 E2 E3. eexists. split; [done |]. unfold cpu.xcr0_init. destruct (Z.land cx _ =? 0); cbn; rewrite ?E1, ?E2;
      (split_and!; [exact B | exact F1 | by rewrite <- F2, <- E3]). }
  destruct (default stale (cpuid 0 0)) as [[[a0 b0] c0] d0]. cbn [default].
  destruct ((b0 =? cpu.signature_AMD_ebx) && (c0 =? cpu.signature_AMD_ecx) && (d0 =? cpu.signature_AMD_edx)); cbn [mbind res_bind mret res_ret]; [| by apply Hend].
  destruct (Hsvm (cpu.host c6) (cpu.frames c6)) as ([[r h] s] & -> & Hr). cbn [mbind res_bind mret res_ret fst snd] in *. by apply Hend.
Qed.
End cr4.

(** ** Theorems: memory types *)

(** The entry of the table that a page-table entry selects: the bits PAT, PCD and PWT. *)
Definition memory_type (pat_msr pte : Z) : Z :=
  let index := 4 * bits 7 1 pte + 2 * bits 4 1 pte + bits 3 1 pte in bits (8 * index) 8 pat_msr.

Definition type_of (cache : map_page_cache_types) : Z :=
  match cache with
  | normal | Paging.write_back => pat.write_back
  | Paging.uncacheable => pat.uncacheable
  | Paging.write_through => pat.write_through
  | Paging.write_combining => pat.write_combining
  end.

(** C21: A page that [map_page] maps with a cache type has that memory type, whatever
    its address and its other flags are: the bits in the page-table entry fit the table
    that [pat::init] sets up. *)
Theorem cache_types_effective (phys flags : Z) (cache : map_page_cache_types) :
  is_u64 phys -> memory_type pat.sigma_pat (make_pte phys flags cache) = type_of cache.
Proof.
  intros Hp. assert (Hb : forall i, i = 3 \/ i = 4 \/ i = 7 -> Z.testbit (set_flags (set_frame 0 phys) (entry_flags_of flags)) i = false).
  { intros i Hi. unfold set_flags, set_frame. rewrite !Z.lor_spec, !Z.land_spec, Z.bits_0.
    assert (Hf : Z.testbit frame_mask i = false) by (destruct Hi as [-> | [-> | ->]]; reflexivity).
    rewrite Hf, andb_false_r, !orb_false_l. unfold entry_flags_of, set_if.
    repeat match goal with |- context [if ?b then _ else _] => destruct b end; destruct Hi as [-> | [-> | ->]]; by vm_compute. }
  assert (H1 : forall i v, 0 <= i -> (i = 3 \/ i = 4 \/ i = 7) -> bits i 1 (Z.lor (set_flags (set_frame 0 phys) (entry_flags_of flags)) v) = bits i 1 v).
  { intros i v Hi0 Hi. apply Z.bits_inj'. intros j Hj. rewrite !testbit_bits by lia. destruct (Z.ltb_spec j 1); [| done]. assert (j = 0) as -> by lia.
    cbn [andb]. rewrite Z.add_0_l, Z.lor_spec, Hb by done. done. }
  unfold memory_type, make_pte. rewrite !H1 by (auto; lia). destruct cache; by vm_compute.
Qed.

(** ** Theorems: guards *)

(** A guard inside of another one takes its permission away: after the inner
    guard's end, user memory is out of reach for the rest of the outer guard. *)
Theorem nested_guard_revokes {S} (c : cpu.state S) :
  cpu.f_smap c = true -> cpu.ac (cpu.smap_leave (cpu.smap_enter (cpu.smap_enter c))) = false /\ cpu.ac (cpu.smap_enter c) = true.
Proof. destruct c as [? ? ? ? ? smap ? ?]. cbn. intros ->. done. Qed.

(** ** Theorems: kernel stacks *)

(** An object that is pushed lies inside of the stack, below what was pushed
    before, at an address that is a multiple of 16. *)
Theorem push_inside (sizeof alignof : Z) (s : kernel_stack.t) :
  0 < sizeof -> alignof = 8 \/ alignof = 16 -> 0 <= kernel_stack.bottom s -> kernel_stack.top s < 2 ^ 64 -> kernel_stack.top s mod 16 = 0 ->
  kernel_stack.bottom s + sizeof + 16 <= kernel_stack.top s ->
  let '(s', p) := kernel_stack.push sizeof alignof s in
  kernel_stack.bottom s' <= p /\ p + sizeof <= kernel_stack.top s /\ p mod 16 = 0 /\ kernel_stack.top s' = p.
Proof.
  intros Hs Ha Hb Ht Hm Hr. unfold kernel_stack.push. assert (16 <? alignof = false) as -> by (apply Z.ltb_ge; lia). cbn [kernel_stack.bottom kernel_stack.top].
  unfold ALIGN_UP. rewrite (u64_small sizeof), (u64_small (sizeof + 16)), (u64_small (sizeof + 16 - 1)) by (unfold is_u64; lia).
  assert (Hd := ALIGN_DOWN_pow2 (sizeof + 16 - 1) 4 ltac:(unfold is_u64; lia) ltac:(lia)). change (2 ^ 4) with 16 in Hd. rewrite Hd.
  assert (Hx := Z.mod_pos_bound (sizeof + 16 - 1) 16). rewrite u64_small by (unfold is_u64; lia). split_and!; try lia.
  Z.to_euclidean_division_equations. lia.
Qed.

(** ** Witnesses *)

Section witnesses.
(** A processor with PAT, PCID, SMEP and UMIP. *)
Definition cpuid_example (leaf subleaf : Z) : option (Z * Z * Z * Z) :=
  if leaf =? 0 then Some (7, 0x756e6547, 0x6c65746e, 0x49656e69)
  else if leaf =? 1 then Some (0x000906EA, 0, cpuid_bits.PCID, cpuid_bits.PAT)
  else if leaf =? 7 then Some (0, cpuid_bits.SMEP, cpuid_bits.UMIP, 0) else None.
Definition arg_example (s : string) : bool := String.eqb s "noumip".
Definition cpu_example : cpu.state pmm.state := cpu.mk 0x6A0 1 false false false false host_example (paging.frames paging_example).

Lemma early_features_exact_witness :
  exists c', cpu.misc_early_features_init cpuid_example arg_example (0, 0, 0, 0) cpu_example = Ret c' /\
    (forall i, 0 <= i -> Z.testbit (cpu.cr4 c') i = Z.testbit 0x6A0 i || wanted (protections cpuid_example arg_example) i) /\
    cpu.f_smap c' = false /\ cpu.read_msr cpu.ia32_pat c' = pat.sigma_pat.
Proof.
  apply (early_features_exact cpuid_example arg_example (0, 0, 0, 0) cpu_example 0x000906EA 0 cpuid_bits.PCID cpuid_bits.PAT).
  - reflexivity.
  - discriminate.
  - reflexivity.
  - intros h s. by exists (false, h, s).
Defined.

Lemma cache_types_effective_witness :
  memory_type pat.sigma_pat (make_pte 0xFED00000 0x1B uncacheable) = pat.uncacheable.
Proof. apply (cache_types_effective 0xFED00000 0x1B uncacheable). split; lia. Defined.

Lemma push_inside_witness :
  kernel_stack.bottom (kernel_stack.push 40 8 (kernel_stack.create 0x8000 0x10000)).1 <= (kernel_stack.push 40 8 (kernel_stack.create 0x8000 0x10000)).2.
Proof. apply (push_inside 40 8 (kernel_stack.create 0x8000 0x10000)); vm_compute; try discriminate; auto. Defined.

Lemma nested_guard_revokes_witness :
  cpu.ac (cpu.smap_leave (cpu.smap_enter (cpu.smap_enter (cpu.set_f_smap cpu_example)))) = false /\ cpu.ac (cpu.smap_enter (cpu.set_f_smap cpu_example)) = true.
Proof. apply (nested_guard_revokes (cpu.set_f_smap cpu_example)). reflexivity. Defined.
End witnesses.
