(* ===== verification/Identify.v ===== *)
(** * Identify: the report about the processor

    Models [x86_64::identify_cpu] of arch/x86_64/cpu.cpp with [cpuid_bits] of cpu.h:
    the vendor, family, model and stepping, the name of the model, the widths of
    addresses and the list of features.  CPUID is a parameter; a leaf that is not
    supported leaves the variables as they were.  The report is the list of what is
    printed.  Family, model and stepping are those of Cpu.v. *)

From S2P Require Import Prelude Bits Fields Cpu.

(** A call of [debug_printf]: a format with its numbers, without the indentation and
    the line break, a string of bytes, or a line break. *)
Inductive shown := Line (format : string) (args : list Z) | Bytes (l : list Z) | Newline.

Module identify.
Import cpu.

(** ** cpuid_bits *)

(** Features in %ecx for leaf 1. *)
Definition bits_1_ecx : list (string * Z) :=
  [("SSE3", 0x1); ("PCLMULQDQ", 0x2); ("PCLMUL", 0x2); ("DTES64", 0x4); ("MONITOR", 0x8); ("DSCPL", 0x10); ("VMX", 0x20);
   ("SMX", 0x40); ("EIST", 0x80); ("TM2", 0x100); ("SSSE3", 0x200); ("CNXTID", 0x400); ("SDBG", 0x800); ("FMA", 0x1000);
   ("CMPXCHG16B", 0x2000); ("xTPR", 0x4000); ("PDCM", 0x8000); ("PCID", 0x20000); ("DCA", 0x40000); ("SSE41", 0x80000);
   ("SSE4_1", 0x80000); ("SSE42", 0x100000); ("SSE4_2", 0x100000); ("x2APIC", 0x200000); ("MOVBE", 0x400000); ("POPCNT", 0x800000);
   ("TSCDeadline", 0x1000000); ("AESNI", 0x2000000); ("AES", 0x2000000); ("XSAVE", 0x4000000); ("OSXSAVE", 0x8000000);
   ("AVX", 0x10000000); ("F16C", 0x20000000); ("RDRND", 0x40000000)]%string.

(** Features in %edx for leaf 1. *)
Definition bits_1_edx : list (string * Z) :=
  [("FPU", 0x1); ("VME", 0x2); ("DE", 0x4); ("PSE", 0x8); ("TSC", 0x10); ("MSR", 0x20); ("PAE", 0x40); ("MCE", 0x80);
   ("CX8", 0x100); ("CMPXCHG8B", 0x100); ("APIC", 0x200); ("SEP", 0x800); ("MTRR", 0x1000); ("PGE", 0x2000); ("MCA", 0x4000);
   ("CMOV", 0x8000); ("PAT", 0x10000); ("PSE36", 0x20000); ("PSN", 0x40000); ("CLFSH", 0x80000); ("DS", 0x200000);
   ("ACPI", 0x400000); ("MMX", 0x800000); ("FXSR", 0x1000000); ("FXSAVE", 0x1000000); ("SSE", 0x2000000); ("SSE2", 0x4000000);
   ("SS", 0x8000000); ("HTT", 0x10000000); ("TM", 0x20000000); ("IA64", 0x40000000); ("PBE", 0x80000000)]%string.

(** Features in %ebx for leaf 7 sub-leaf 0. *)
Definition bits_7_0_ebx : list (string * Z) :=
  [("FSGSBASE", 0x1); ("IA32_TSC_ADJUST", 0x2); ("SGX", 0x4); ("BMI1", 0x8); ("HLE", 0x10); ("AVX2", 0x20); ("SMEP", 0x80);
   ("BMI2", 0x100); ("ENH_MOVSB", 0x200); ("INVPCID", 0x400); ("RTM", 0x800); ("MPX", 0x4000); ("AVX512F", 0x10000);
   ("AVX512DQ", 0x20000); ("RDSEED", 0x40000); ("ADX", 0x80000); ("SMAP", 0x100000); ("AVX512IFMA", 0x200000);
   ("CLFLUSHOPT", 0x800000); ("CLWB", 0x1000000); ("AVX512PF", 0x4000000); ("AVX512ER", 0x8000000); ("AVX512CD", 0x10000000);
   ("SHA", 0x20000000); ("AVX512BW", 0x40000000); ("AVX512VL", 0x80000000)]%string.

(** Features in %ecx for leaf 7 sub-leaf 0. *)
Definition bits_7_0_ecx : list (string * Z) :=
  [("PREFTCHWT1", 0x1); ("AVX512VBMI", 0x2); ("UMIP", 0x4); ("PKU", 0x8); ("OSPKE", 0x10); ("WAITPKG", 0x20);
   ("AVX512VBMI2", 0x40); ("SHSTK", 0x80); ("GFNI", 0x100); ("VAES", 0x200); ("VPCLMULQDQ", 0x400); ("AVX512VNNI", 0x800);
   ("AVX512BITALG", 0x1000); ("TME", 0x2000); ("AVX512VPOPCNTDQ", 0x4000); ("RDPID", 0x400000); ("CLDEMOTE", 0x2000000);
   ("MOVDIRI", 0x8000000); ("MOVDIR64B", 0x10000000)]%string.

(** Features in %edx for leaf 7 sub-leaf 0. *)
Definition bits_7_0_edx : list (string * Z) :=
  [("AVX5124VNNIW", 0x4); ("AVX5124FMAPS", 0x8); ("PCONFIG", 0x40000); ("IBT", 0x100000)]%string.

(** Features in %eax for leaf 13 sub-leaf 1. *)
Definition bits_13_1_eax : list (string * Z) :=
  [("XSAVEOPT", 0x1); ("XSAVEC", 0x2); ("XSAVES", 0x8)]%string.

(** Features in %eax for leaf 0x14 sub-leaf 0. *)
Definition bits_14_0_eax : list (string * Z) :=
  [("PTWRITE", 0x10)]%string.

(** Features in %ecx for leaf 0x80000001. *)
Definition bits_80000001_ecx : list (string * Z) :=
  [("LAHF_LM", 0x1); ("SVM", 0x4); ("ABM", 0x20); ("LZCNT", 0x20); ("SSE4a", 0x40); ("PRFCHW", 0x100); ("XOP", 0x800);
   ("LWP", 0x8000); ("FMA4", 0x10000); ("TBM", 0x200000); ("MWAITX", 0x20000000)]%string.

(** Features in %edx for leaf 0x80000001. *)
Definition bits_80000001_edx : list (string * Z) :=
  [("SYSCALL", 0x800); ("NX", 0x100000); ("MMXEXT", 0x400000); ("FFXSR", 0x2000000); ("PDPE1GB", 0x4000000); ("RDTSCP", 0x8000000);
   ("LM", 0x20000000); ("n3DNOWP", 0x40000000); ("n3DNOW", 0x80000000)]%string.

(** Features in %ebx for leaf 0x80000008. *)
Definition bits_80000008_ebx : list (string * Z) :=
  [("CLZERO", 0x1); ("WBNOINVD", 0x200)]%string.

(** All constants, by name. *)
Definition cpuid_bits : list (string * Z) :=
  bits_1_ecx ++ bits_1_edx ++ bits_7_0_ebx ++ bits_7_0_ecx ++ bits_7_0_edx ++ bits_13_1_eax ++ bits_14_0_eax ++
  bits_80000001_ecx ++ bits_80000001_edx ++ bits_80000008_ebx.

Definition mask_of (name : string) : Z := match list_find (fun x => x.1 = name) cpuid_bits with Some (_, (_, v)) => v | None => 0 end.

(** ** The features that are printed, with the constants that are tested *)

Definition features_1_d : list (string * string) :=
  [("FPU", "fpu "); ("VME", "vme "); ("DE", "de "); ("PSE", "pse "); ("TSC", "tsc "); ("MSR", "msr "); ("PAE", "pae ");
   ("MCE", "mce "); ("CX8", "cx8 "); ("APIC", "apic "); ("SEP", "sep "); ("MTRR", "mtrr "); ("PGE", "pge "); ("MCA", "mca ");
   ("CMOV", "cmovcc "); ("PAT", "pat "); ("PSE36", "pse36 "); ("PSN", "psn "); ("CLFSH", "clflush "); ("DS", "ds ");
   ("ACPI", "acpi "); ("MMX", "mmx "); ("FXSAVE", "fxsave "); ("SSE", "sse "); ("SSE2", "sse2 "); ("SS", "ss "); ("HTT", "htt ");
   ("TM", "tm "); ("IA64", "ia64 "); ("PBE", "#pbe ")]%string.

Definition features_1_c : list (string * string) :=
  [("SSE3", "sse3 "); ("PCLMUL", "pclmul "); ("DTES64", "dtes64 "); ("MONITOR", "monitor "); ("DSCPL", "ds-cpl "); ("VMX", "vmx ");
   ("SMX", "smx "); ("EIST", "est "); ("TM2", "TM2 "); ("SSSE3", "ssse3 "); ("CNXTID", "cid "); ("SDBG", "sdbg "); ("FMA", "fma ");
   ("CMPXCHG16B", "cx16 "); ("xTPR", "xtptr "); ("PDCM", "pdcm "); ("PCID", "pcid "); ("DCA", "dca "); ("SSE4_1", "sse4.1 ");
   ("SSE4_2", "sse4.2 "); ("x2APIC", "x2apic "); ("MOVBE", "movbe "); ("POPCNT", "popcnt "); ("TSCDeadline", "tsc-deadline ");
   ("AES", "aes "); ("XSAVE", "xsave "); ("OSXSAVE", "osxsave "); ("AVX", "avx "); ("F16C", "f16c "); ("RDRND", "rdrand ")]%string.

Definition features_7_b : list (string * string) :=
  [("FSGSBASE", "fsgsbase "); ("IA32_TSC_ADJUST", "IA32_TSC_ADJUST "); ("SGX", "sgx "); ("BMI1", "bmi "); ("HLE", "hle ");
   ("AVX2", "avx2 "); ("SMEP", "smep "); ("BMI2", "bmi2 "); ("ENH_MOVSB", "enhanced-movsb "); ("INVPCID", "invpcid ");
   ("RTM", "rtm "); ("MPX", "mpx "); ("AVX512F", "avx-512f "); ("AVX512DQ", "avx-512dq "); ("RDSEED", "rdseed "); ("ADX", "adx ");
   ("SMAP", "smap "); ("AVX512IFMA", "avx-512ifma "); ("CLFLUSHOPT", "clflushopt "); ("CLWB", "clwb "); ("AVX512PF", "avx-512pf ");
   ("AVX512ER", "avx-512er "); ("AVX512CD", "avx-512cd "); ("SHA", "sha "); ("AVX512BW", "avx-512bw "); ("AVX512VL", "avx-512vl ")]%string.

Definition features_7_c : list (string * string) :=
  [("PREFTCHWT1", "prefetchwt1 "); ("AVX512VBMI", "avx-512vbmi "); ("UMIP", "umip "); ("PKU", "pku "); ("OSPKE", "ospke ");
   ("WAITPKG", "waitpkg "); ("AVX512VBMI2", "avx-512vbmi2 "); ("GFNI", "gfni "); ("VAES", "vector-avx "); ("VPCLMULQDQ", "clmul ");
   ("AVX512VNNI", "avx-512vnni "); ("TME", "TME "); ("AVX512BITALG", "avx-512bitalg "); ("AVX512VPOPCNTDQ", "avx-512vpopcntdq ");
   ("RDPID", "rdpid ")]%string.

Definition features_80000001_d : list (string * string) :=
  [("SYSCALL", "syscall "); ("NX", "nx "); ("FFXSR", "fast-fxsave "); ("PDPE1GB", "pdpe1gb "); ("RDTSCP", "rdtscp ");
   ("LM", "lm ")]%string.

Definition features_80000001_c : list (string * string) :=
  [("SVM", "svm ")]%string.

(** [if(reg & BIT) debug_printf(name)]. *)
Definition print_features (reg : Z) (l : list (string * string)) : list shown :=
  omap (fun x => if Z.land reg (mask_of x.1) =? 0 then None else Some (Line x.2 [])) l.

(** ** Models *)

Definition unknown_model : string := "Model: Unknown [%x]".

(** The line of a table, or the one for an unknown model. *)
Definition print_model (l : list (Z * string)) (model : Z) : shown :=
  match list_find (fun x => x.1 = model) l with Some (_, (_, s)) => Line s [] | None => Line unknown_model [model] end.

Definition family_4_models : list (Z * string) :=
  [(0, "Model: Intel i80486DX-25/33"); (1, "Model: Intel i80486DX-50"); (2, "Model: Intel i80486SX");
   (3, "Model: Intel i80486DX2"); (4, "Model: Intel i80486SL"); (5, "Model: Intel i80486SX2"); (7, "Model: Intel i80486DX2WB");
   (8, "Model: Intel i80486DX4"); (9, "Model: Intel i80486DX4WB")]%string.
Definition family_5_models : list (Z * string) :=
  [(0, "Model: P5 A-step"); (1, "Model: P5"); (2, "Model: P54C"); (3, "Model: P24T Overdrive"); (4, "Model: P54C");
   (7, "Model: P54C"); (8, "Model: P55C (0,25 micrometer)")]%string.
Definition family_6_models : list (Z * string) :=
  [(0, "Model: P6 A-step"); (1, "Model: P6"); (3, "Model: P2 (0,28 micrometer)"); (5, "Model: P2 (0,25 micrometer)");
   (6, "Model: P2 with on-die L2 cache"); (7, "Model: P3 (0.25 micrometer)");
   (8, "Model: P3 (0.18 micrometer) with 256 KB on-die L2"); (0xA, "Model: P3 (0.18 micrometer) with 2 MB on-die L2");
   (0x7E, "Model: Ice Lake U/Y"); (0x4E, "Model: Skylake U/Y"); (0x5E, "Model: Skylake DT/H/S")]%string.
Definition family_23_models : list (Z * string) :=
  [(1, "Model: Naples, Whitehaven, Summit Ridge, Snowy Owl"); (0x11, "Model: Raven Ridge"); (0x8, "Model: Pinnacle Ridge");
   (0x18, "Model: Picasso"); (0x71, "Model: Matisse")]%string.

Definition identify_family_4 (model stepping : Z) : list shown :=
  [Line "Family: Intel 486" []; print_model family_4_models model; Line "Stepping: %x" [stepping]].
Definition identify_family_5 (model stepping : Z) : list shown :=
  [Line "Family: Intel P5" []; print_model family_5_models model; Line "Stepping: %x" [stepping]].

(** Two of the models are told apart by their stepping. *)
Definition by_stepping (nine ten : string) (model stepping : Z) : shown :=
  if stepping =? 0x9 then Line nine [] else if stepping =? 0xA then Line ten []
  else Line "Model: Unknown [Model: %x] [Stepping: %x]" [model; stepping].
Definition identify_family_6 (model stepping : Z) : list shown :=
  [Line "Family: Intel P6 and newer" [];
   if model =? 0x8E then by_stepping "Model: Kaby Lake Y/U/R" "Model: Coffee Lake U" model stepping
   else if model =? 0x9E then by_stepping "Model: Kaby Lake DT/H/S/X" "Model: Coffee Lake S/H" model stepping
   else print_model family_6_models model;
   Line "Stepping: %x" [stepping]].

Definition identify_intel (family model stepping : Z) : list shown :=
  if family =? 4 then identify_family_4 model stepping
  else if family =? 5 then identify_family_5 model stepping
  else if family =? 6 then identify_family_6 model stepping
  else [Line "Family: Unknown [%x]" [family]].

Definition identify_family_23 (model stepping : Z) : list shown :=
  [Line "Family: AMD Zen" []; print_model family_23_models model; Line "Stepping: %x" [stepping]].
Definition identify_amd (family model stepping : Z) : list shown :=
  if family =? 23 then identify_family_23 model stepping else [Line "Family: Unknown [%x]" [family]].

(** ** identify_cpu *)

Definition signature_INTEL_ebx : Z := 0x756e6547.
Definition signature_INTEL_ecx : Z := 0x6c65746e.
Definition signature_INTEL_edx : Z := 0x49656e69.

Definition regs : Type := Z * Z * Z * Z.

(** What [%s] shows of bytes that are followed by a zero. *)
Fixpoint text (l : list Z) : list Z := match l with [] => [] | c :: l => if c =? 0 then [] else c :: text l end.

Definition print_regs (r : regs) : shown :=
  let '(a, b, c, d) := r in Bytes (text (le_bytes 4 a ++ le_bytes 4 b ++ le_bytes 4 c ++ le_bytes 4 d)).

Definition print_type (type : Z) : shown :=
  if type =? 0 then Line "Type: Main Processor" [] else if type =? 1 then Line "Type: Overdrive Processor" []
  else if type =? 2 then Line "Type: MP processor" [] else Line "Type: Unknown" [].

Section report.
Context (cpuid : Z -> Z -> option regs) (lapic_id : Z).

(** [x86_64::cpuid(leaf, a, b, c, d)]: whether the leaf exists, and the variables. *)
Definition call (leaf sub : Z) (r : regs) : bool * regs := match cpuid leaf sub with Some r => (true, r) | None => (false, r) end.

Definition vendor (r : regs) : shown := let '(_, b, c, d) := r in Bytes (text (le_bytes 4 b ++ le_bytes 4 d ++ le_bytes 4 c)).

Definition identify_model (family model stepping : Z) (r : regs) : list shown :=
  let '(_, b, c, d) := r in
  if (b =? signature_INTEL_ebx) && (c =? signature_INTEL_ecx) && (d =? signature_INTEL_edx) then identify_intel family model stepping
  else if (b =? signature_AMD_ebx) && (c =? signature_AMD_ecx) && (d =? signature_AMD_edx) then identify_amd family model stepping
  else [Line "Unknown vendorID, can't identify further" []].

Definition model_string (r : regs) : list shown * regs :=
  let '(ok, r) := call 0x80000000 0 r in
  if ok && (0x80000004 <=? r.1.1.1) then
    let r1 := (call 0x80000002 0 r).2 in let r2 := (call 0x80000003 0 r1).2 in let r3 := (call 0x80000004 0 r2).2 in
    ([Line "Model: " []; print_regs r1; print_regs r2; print_regs r3; Newline], r3)
  else ([], r).

Definition address_bits (r : regs) : list shown * regs :=
  let '(ok, r) := call 0x80000000 0 r in
  if ok && (0x80000008 <=? r.1.1.1) then
    let r := (call 0x80000008 0 r).2 in
    ([Line "Physical address space bits: %d" [Z.land r.1.1.1 0xFF];
      Line "Virtual address space bits: %d" [Z.land (Z.shiftr r.1.1.1 8) 0xFF]], r)
  else ([], r).

Definition features (r : regs) : list shown :=
  let '(ok, r) := call 1 0 r in
  let l1 := if ok then print_features r.2 features_1_d ++ print_features r.1.2 features_1_c else [] in
  let '(ok, r) := call 7 0 r in
  let l7 := if ok then print_features r.1.1.2 features_7_b ++ print_features r.1.2 features_7_c else [] in
  let '(ok, r) := call 0x80000001 0 r in
  let l8 := if ok then print_features r.2 features_80000001_d ++ print_features r.1.2 features_80000001_c else [] in
  l1 ++ l7 ++ l8.

Definition identify_cpu : list shown :=
  let r0 := (call 0 0 (0, 0, 0, 0)).2 in
  let r1 := (call 1 0 r0).2 in
  let a := r1.1.1.1 in
  let r2 := (call 0 0 r1).2 in
  let '(name, r3) := model_string r2 in
  let '(widths, r4) := address_bits r3 in
  [Line "[CPU]: Detecting CPU with id: %d" [lapic_id]; Line "VendorID: " []; vendor r0; Newline; print_type (processor_type a)] ++
  identify_model (family_id a) (model_id a) (stepping a) r2 ++ name ++ widths ++
  [Line "Features: " []] ++ features r4 ++ [Newline].
End report.
End identify.

(** ** Theorems *)

Section features.
Import identify.

(** A mask with one bit. *)
Definition single (v : Z) : bool := (0 <? v) && (v =? 2 ^ Z.log2 v).

(** The bits that a list of features names, and those that a report shows. *)
Definition named (l : list (string * string)) : Z := foldr (fun x v => Z.lor (mask_of x.1) v) 0 l.
Definition reported (out : list shown) (l : list (string * string)) : Z :=
  foldr (fun x v => if existsb (fun s => match s with Line n [] => String.eqb n x.2 | _ => false end) out then Z.lor (mask_of x.1) v else v) 0 l.

(** Each list with the constants of the leaf and the register it is tested against. *)
Definition feature_tables : list (list (string * string) * list (string * Z)) :=
  [(features_1_d, bits_1_edx); (features_1_c, bits_1_ecx); (features_7_b, bits_7_0_ebx); (features_7_c, bits_7_0_ecx);
   (features_80000001_d, bits_80000001_edx); (features_80000001_c, bits_80000001_ecx)].

Lemma land_single r v : single v = true -> Z.land r v = if Z.land r v =? 0 then 0 else v.
Proof.
  intros H. apply andb_true_iff in H as [Hp Hv]. apply Z.ltb_lt in Hp. apply Z.eqb_eq in Hv. rewrite Hv. set (k := Z.log2 v).
  assert (Hk : 0 <= k) by apply Z.log2_nonneg. assert (E : Z.land r (2 ^ k) = if Z.testbit r k then 2 ^ k else 0).
  { apply Z.bits_inj'. intros i Hi. rewrite Z.land_spec, Z.pow2_bits_eqb by lia. destruct (Z.eqb_spec k i) as [<- | Hne].
    - rewrite andb_true_r. destruct (Z.testbit r k); [by rewrite Z.pow2_bits_true | by rewrite Z.bits_0].
    - rewrite andb_false_r. destruct (Z.testbit r k); [by rewrite Z.pow2_bits_false | by rewrite Z.bits_0]. }
  rewrite E. destruct (Z.testbit r k); [| done]. rewrite (proj2 (Z.eqb_neq _ 0)); [done |]. assert (0 < 2 ^ k) by (by apply Z.pow_pos_nonneg). lia.
Qed.

Lemma shown_iff r l (x : string * string) :
  NoDup l.*2 -> x ∈ l -> existsb (fun s => match s with Line n [] => String.eqb n x.2 | _ => false end) (print_features r l) = negb (Z.land r (mask_of x.1) =? 0).
Proof.
  intros Hn Hx. apply eq_iff_eq_true. rewrite existsb_exists. split.
  - intros (s & Hs & Hm). apply list_elem_of_In, list_elem_of_omap in Hs as (y & Hy & Hs). destruct (Z.land r (mask_of y.1) =? 0) eqn:E; [done |].
    injection Hs as <-. apply String.eqb_eq in Hm.
    assert (y = x) as ->; [| by rewrite E].
    apply list_elem_of_lookup_1 in Hx as [i Hi], Hy as [j Hj]. assert (i = j) as ->; [| congruence].
    eapply (NoDup_lookup l.*2); [done | by rewrite list_lookup_fmap, Hi | by rewrite list_lookup_fmap, Hj; cbn; f_equal].
  - intros H. exists (Line x.2 []). split; [| by rewrite String.eqb_refl]. apply list_elem_of_In, list_elem_of_omap. exists x. split; [done |].
    by apply negb_true_iff in H as ->.
Qed.

Lemma report_reads_back r l : NoDup l.*2 -> Forall (fun x => single (mask_of x.1) = true) l -> reported (print_features r l) l = Z.land r (named l).
Proof.
  intros Hn Hs. assert (H : forall l', Forall (fun x => x ∈ l) l' -> reported (print_features r l) l' = Z.land r (named l')).
  { induction 1 as [| x l' Hx Hl IH]; cbn [reported named foldr]; [by rewrite Z.land_0_r |].
    rewrite (shown_iff r l x Hn Hx). rewrite Z.land_lor_distr_r. rewrite Forall_forall in Hs. pose proof (land_single r _ (Hs x Hx)) as E.
    unfold reported, named in IH. rewrite <- IH. destruct (Z.land r (mask_of x.1) =? 0); rewrite E; reflexivity. }
  apply H. by apply Forall_forall.
Qed.

(** The list of features is exact.  Every feature is tested with a constant of the
    leaf and the register it belongs to, which has one bit; and whatever the register
    contains, the bits of the names that are printed are exactly the bits of the
    register that have a name. *)
Theorem feature_report_exact (r : Z) :
  Forall (fun t => Forall (fun x => x.1 ∈ t.2.*1 /\ single (mask_of x.1) = true) t.1 /\
                   reported (print_features r t.1) t.1 = Z.land r (named t.1)) feature_tables.
Proof.
  assert (H : Forall (fun t : list (string * string) * list (string * Z) =>
      Forall (fun x => x.1 ∈ t.2.*1 /\ single (mask_of x.1) = true) t.1 /\ NoDup t.1.*2) feature_tables) by by_compute.
  eapply Forall_impl; [exact H |]. intros [l bits] [H1 H2]. cbn [fst snd] in *. split; [done |].
  apply report_reads_back; [done |]. eapply Forall_impl; [exact H1 |]. by intros x [_ ?].
Qed.
End features.

(** A Kaby Lake of the desktop. *)
Example kaby_lake :
  identify.identify_model (cpu.family_id 0x906E9) (cpu.model_id 0x906E9) (cpu.stepping 0x906E9)
    (0, identify.signature_INTEL_ebx, identify.signature_INTEL_ecx, identify.signature_INTEL_edx) =
  [Line "Family: Intel P6 and newer" []; Line "Model: Kaby Lake DT/H/S/X" []; Line "Stepping: %x" [9]].
Proof. reflexivity. Qed.
