(* ===== verification/Simd.v ===== *)
(** * Simd: the save areas of the SIMD registers

    Models source/proc/simd.cpp with include/Sigma/proc/simd.h, and the two routines
    of source/proc/process_low.asm that it calls.  An area is a block of the kernel's
    heap (Heap.v); the instructions that save and restore registers are a class.

    Process.v and Virt.v keep the registers of a thread or a guest as a value in its
    context.  [simd_switch_refines] and the theorems around it show that the areas
    implement such values. *)

From S2P Require Import Prelude Bits Klibc Fields Frames Pmm Paging Heap Process Virt Cpu.

(** The instructions: fxsave and fxrstor, or, when the flag is set, xsave and xrstor
    with all features that XCR0 enables.  [X] is the contents of the registers. *)
Class SimdHw (X : Type) := {
  x_save : bool -> Z -> X -> bmem -> bmem;
  x_restore : bool -> Z -> bmem -> X }.

(** ** process_low.asm *)

Module process_low.
Inductive reg := rax | rdx | rdi.
#[export] Instance reg_eq_dec : EqDecision reg.
Proof. solve_decision. Defined.

Inductive instr := push (r : reg) | pop (r : reg) | xor_self (r : reg) | mov32 (r : reg) (v : Z) | xsave (r : reg) | xrstor (r : reg).

Definition xsave_int : list instr :=
  [push rax; push rdx; xor_self rax; xor_self rdx; mov32 rax 0xFFFFFFFF; mov32 rdx 0xFFFFFFFF; xsave rdi; pop rdx; pop rax].
Definition xrstor_int : list instr :=
  [push rax; push rdx; xor_self rax; xor_self rdx; mov32 rax 0xFFFFFFFF; mov32 rdx 0xFFFFFFFF; xrstor rdi; pop rdx; pop rdx].

Section machine.
Context {X : Type} `{SimdHw X}.

Record state := mk { gpr : reg -> Z; stack : list Z; simd : X; mem : bmem }.

Definition put (r : reg) (v : Z) (s : state) : state := mk (fun x => if decide (x = r) then v else gpr s x) (stack s) (simd s) (mem s).

Definition step (i : instr) (s : state) : res state :=
  match i with
  | push r => mret (mk (gpr s) (gpr s r :: stack s) (simd s) (mem s))
  | pop r =>
      match stack s with
      | v :: l => mret (put r v (mk (gpr s) l (simd s) (mem s)))
      | [] => Undef
      end
  | xor_self r => mret (put r 0 s)
  | mov32 r v => mret (put r v s)
  | xsave r => mret (mk (gpr s) (stack s) (simd s) (x_save true (gpr s r) (simd s) (mem s)))
  | xrstor r => mret (mk (gpr s) (stack s) (x_restore true (gpr s r) (mem s)) (mem s))
  end.

Fixpoint exec (l : list instr) (s : state) : res state :=
  match l with
  | [] => mret s
  | i :: l => s ← step i s; exec l s
  end.
End machine.
Arguments state X : clear implicits.
End process_low.

(** ** simd.cpp *)

Module simd_state.
Definition mm_entry : layout := [("low", 64); ("high", 16); ("res", 32); ("res_0", 16)]%string.
Definition xmm_entry : layout := [("low", 64); ("high", 64)]%string.
Definition fxsave_area : layout :=
  [("fcw", 16); ("fsw", 16); ("ftw", 8); ("reserved", 8); ("fop", 16); ("fip", 64); ("fdp", 64); ("mxcsr", 32); ("mxcsr_mask", 32);
   ("mm", 8 * layout_size mm_entry); ("xmm", 16 * layout_size xmm_entry); ("reserved_0", 384); ("available", 384)]%string.

(** The static variables: [global_save] and [global_restore] are the flag. *)
Record globals := mk { xsave : bool; save_size : Z; save_align : Z; default_state : Z }.

Definition FXSAVE : Z := 0x1000000.

(** Little-endian stores, and [field |= v]. *)
Fixpoint put_le (n : nat) (p v : Z) (m : bmem) : bmem :=
  match n with O => m | S n => put_le n (p + 1) (v / 256) (write m p (v mod 256)) end.
Definition or_le (n : nat) (p v : Z) (m : bmem) : bmem := put_le n p (Z.lor (le_at m p n) v) m.

Section ops.
Context {S X : Type} `{FA : FrameAllocator S} `{SimdHw X}.

(** An area is its address, 0 when there is none; the operations return the address
    that they leave in [data]. *)
Definition allocate (g : globals) (h : alloc.heap S) : res (Z * alloc.heap S) :=
  '(p, h) ← alloc.alloc_a (save_size g) (save_align g) h;
  if p =? 0 then Panic "Couldn't allocate data for simd_state"
  else if negb (p mod save_align g =? 0) then Panic "mm::hmm::kmalloc_a didn't allocate sufficiently aligned pointer"
  else mret (p, h).

Definition init (g : globals) (data : Z) (h : alloc.heap S) : res (Z * alloc.heap S) :=
  '(data, h) ← (if data =? 0 then allocate g h else mret (data, h));
  m ← string.memcpy data (default_state g) (save_size g) (alloc.bytes h);
  mret (data, alloc.set_bytes m h).

Definition deinit (data : Z) (h : alloc.heap S) : res (Z * alloc.heap S) :=
  if data =? 0 then mret (data, h) else h ← alloc.free data h; mret (0, h).

Definition save (g : globals) (data : Z) (x : X) (h : alloc.heap S) : res (Z * alloc.heap S) :=
  '(data, h) ← (if data =? 0 then init g data h else mret (data, h));
  mret (data, alloc.set_bytes (x_save (xsave g) data x (alloc.bytes h)) h).

Definition restore (g : globals) (data : Z) (h : alloc.heap S) : res (Z * X * alloc.heap S) :=
  '(data, h) ← (if data =? 0 then init g data h else mret (data, h));
  mret (data, x_restore (xsave g) data (alloc.bytes h), h).

(** [operator=]; a copy from a null pointer is undefined. *)
Definition assign (g : globals) (data other : Z) (h : alloc.heap S) : res (Z * alloc.heap S) :=
  '(data, h) ← init g data h;
  if other =? 0 then Undef
  else
    m ← string.memcpy data other (save_size g) (alloc.bytes h);
    mret (data, alloc.set_bytes m h).

(** [init] of the namespace.  [leaf1] are ecx and edx of leaf 1 of cpuid, [leafD] is
    ecx of leaf 0xD, sub-leaf 0; a leaf can be missing. *)
Definition mechanism (leaf1 : option (Z * Z)) (leafD : option Z) : res (bool * Z * Z) :=
  match leaf1 with
  | None => Panic "Default CPUID leaf does not exist"
  | Some (c1, d1) =>
      if negb (Z.land c1 cpuid_bits.XSAVE =? 0) then
        match leafD with
        | None => Panic "XSAVE exists but CPUID leaf 0xD doesnt exist"
        | Some c2 => mret (true, c2, 64)
        end
      else if negb (Z.land d1 FXSAVE =? 0) then mret (false, 512, 16)
      else Panic "no known SIMD save mechanism available"
  end.

(** The assignments to [fcw] and [mxcsr]. *)
Definition fcw_bits : list Z := ((Z.shiftl 1) <$> [0; 1; 2; 3; 4; 5]) ++ [Z.lor (Z.shiftl 1 8) (Z.shiftl 1 9)].
Definition mxcsr_bits : list Z := (Z.shiftl 1) <$> [7; 8; 9; 10; 11; 12].
Definition set_defaults (p : Z) (m : bmem) : bmem :=
  let m := foldl (fun m v => or_le 2 (p + offset_of fxsave_area "fcw") v m) m fcw_bits in
  foldl (fun m v => or_le 4 (p + offset_of fxsave_area "mxcsr") v m) m mxcsr_bits.

Definition start (leaf1 : option (Z * Z)) (leafD : option Z) (h : alloc.heap S) : res (globals * alloc.heap S) :=
  '(x, size, align) ← mechanism leaf1 leafD;
  '(p, h) ← alloc.alloc_a size align h;
  if p =? 0 then Undef
  else
    m ← string.memset p 0 size (alloc.bytes h);
    mret (mk x size align p, alloc.set_bytes (set_defaults p m) h).
End ops.
End simd_state.

(** ** Lemmas *)

(** How the processor saves: only the area is written, an aligned area gives back
    what was saved, and it does so at every place its bytes are copied to.  (xsave does
    not write the reserved bytes of the header of the area, which have to be zero for
    xrstor; every area starts as zeros or as a copy of the default one, where they
    are.) *)
Class SimdHwLaws (X : Type) `{!SimdHw X} (g : simd_state.globals) := {
  save_area p (x : X) m : only_at p (simd_state.save_size g) m (x_save (simd_state.xsave g) p x m);
  restore_saved p (x : X) m : p mod simd_state.save_align g = 0 ->
    x_restore (simd_state.xsave g) p (x_save (simd_state.xsave g) p x m) = x;
  restore_bytes p q m m' : p mod simd_state.save_align g = 0 -> q mod simd_state.save_align g = 0 ->
    (forall i, 0 <= i < simd_state.save_size g -> m (p + i) = m' (q + i)) ->
    x_restore (simd_state.xsave g) p m = x_restore (simd_state.xsave g) q m' :> X }.

Lemma memset_ok n i p c m : exists m', for_loop n i (fun i m => mret (write m (p + i) (u8 c))) m = Ret m' /\
  forall x, m' x = if bool_decide (p + i <= x < p + i + Z.of_nat n) then u8 c else m x.
Proof.
  revert i m. induction n as [| n IH]; intros i m; cbn [for_loop].
  - exists m. split; [done |]. intros x. by rewrite bool_decide_false by lia.
  - cbn [mbind res_bind mret res_ret]. destruct (IH (i + 1) (write m (p + i) (u8 c))) as (m' & Hr & Hm'). exists m'. split; [exact Hr |].
    intros x. rewrite Hm'. destruct (decide (x = p + i)) as [-> | Hne].
    + rewrite write_eq. by case_bool_decide; rewrite bool_decide_true by lia.
    + rewrite write_ne by done. by destruct (decide (p + i <= x < p + i + Z.of_nat (S n))); [rewrite !bool_decide_true by lia | rewrite !bool_decide_false by lia].
Qed.

Lemma put_le_ok n p v m : bytes_at (simd_state.put_le n p v m) p (le_bytes n v) /\ only_at p (Z.of_nat n) m (simd_state.put_le n p v m).
Proof.
  revert p v m. induction n as [| n IH]; intros p v m; [by split |]. cbn [simd_state.put_le le_bytes].
  destruct (IH (p + 1) (v / 256) (write m p (v mod 256))) as [H1 H2]. split.
  - apply bytes_at_cons. split; [rewrite H2 by lia; apply write_eq | exact H1].
  - apply (only_at_trans _ _ _ (write m p (v mod 256))); [apply only_at_write; lia |]. eapply only_at_mono; [exact H2 | lia | lia].
Qed.

Lemma or_all_ok n p vs v m :
  0 <= v < 256 ^ Z.of_nat n -> Forall (fun x => 0 <= x < 256 ^ Z.of_nat n) vs -> bytes_at m p (le_bytes n v) ->
  let m' := foldl (fun m v => simd_state.or_le n p v m) m vs in
  bytes_at m' p (le_bytes n (foldl Z.lor v vs)) /\ only_at p (Z.of_nat n) m m'.
Proof.
  cbv zeta. revert v m. induction vs as [| w vs IH]; intros v m Hv Hvs Hb; [by split |]. apply Forall_cons in Hvs as [Hw Hvs]. cbn [foldl].
  unfold simd_state.or_le at 2 4. rewrite (le_at_bytes m p n v) by (done || exact Hb).
  destruct (put_le_ok n p (Z.lor v w) m) as [P1 P2]. destruct (IH (Z.lor v w) (simd_state.put_le n p (Z.lor v w) m)) as [I1 I2]; [| done | done |].
  - change 256 with (2 ^ 8) in *. rewrite <- Z.pow_mul_r in * by lia. apply word_lor; [exact Hv | exact Hw | lia].
  - split; [exact I1 | eapply only_at_trans; [exact P2 | exact I2]].
Qed.

(** The abstract value of a new area: the number that Process.v gives to new threads. *)
Definition default_byte (i : Z) : Z := Z.shiftr simd.default_state (8 * i) mod 256.

Lemma set_defaults_ok p m n : 28 <= n -> (forall i, 0 <= i < n -> m (p + i) = 0) ->
  (forall i, 0 <= i < n -> simd_state.set_defaults p m (p + i) = default_byte i) /\ only_at p n m (simd_state.set_defaults p m).
Proof.
  intros Hn Hz. unfold simd_state.set_defaults. change (offset_of simd_state.fxsave_area "fcw") with 0.
  change (offset_of simd_state.fxsave_area "mxcsr") with 24. rewrite Z.add_0_r.
  assert (Hzero : forall k a (m : bmem), (forall i, 0 <= i < Z.of_nat k -> m (a + i) = 0) -> bytes_at m a (le_bytes k 0)).
  { intros k a m0 H i b Hi. assert (Hk := lookup_lt_Some _ _ _ Hi). rewrite length_le_bytes in Hk. rewrite H by lia.
    clear -Hi. revert i Hi. induction k as [| k IH]; intros [| i] Hi; cbn in Hi; [done | done | by injection Hi |]. by eapply IH. }
  destruct (or_all_ok 2 p simd_state.fcw_bits 0 m) as [F1 F2]; [lia | by_compute | apply Hzero; intros i Hi; apply Hz; lia |].
  set (m1 := foldl (fun m v => simd_state.or_le 2 p v m) m simd_state.fcw_bits) in *.
  destruct (or_all_ok 4 (p + 24) simd_state.mxcsr_bits 0 m1) as [M1 M2]; [lia | by_compute | |].
  { apply Hzero. intros i Hi. rewrite F2 by lia. rewrite <- Z.add_assoc. apply Hz. lia. }
  set (m2 := foldl (fun m v => simd_state.or_le 4 (p + 24) v m) m1 simd_state.mxcsr_bits) in *.
  assert (Hm : forall j b, le_bytes 4 (foldl Z.lor 0 simd_state.mxcsr_bits) !! j = Some b -> m2 (p + (24 + Z.of_nat j)) = b)
    by (intros j b Hj; rewrite Z.add_assoc; by apply M1).
  split.
  - intros i Hi. destruct (decide (i < 2)); [| destruct (decide (24 <= i < 28))].
    + rewrite M2 by lia. assert (i = 0 \/ i = 1) as [-> | ->] by lia; [apply (F1 0%nat) | apply (F1 1%nat)]; reflexivity.
    + assert (i = 24 \/ i = 25 \/ i = 26 \/ i = 27) as [-> | [-> | [-> | ->]]] by lia;
        [apply (Hm 0%nat) | apply (Hm 1%nat) | apply (Hm 2%nat) | apply (Hm 3%nat)]; reflexivity.
    + rewrite M2, F2, Hz by lia. symmetry. destruct (decide (i < 28)) as [Hi' |].
      * assert (H : Forall (fun i => i < 2 \/ default_byte i = 0) (seqZ 0 24)) by by_compute. rewrite Forall_forall in H.
        destruct (H i) as [| E]; [apply elem_of_seqZ; lia | lia | exact E].
      * unfold default_byte. rewrite Z.shiftr_div_pow2 by lia. rewrite Z.div_small; [done |]. split; [by vm_compute |].
        eapply Z.lt_le_trans; [| apply (Z.pow_le_mono_r 2 224); lia]. by vm_compute.
  - eapply only_at_trans; eapply only_at_mono; [exact F2 | lia | lia | exact M2 | lia | lia].
Qed.

Section area_lemmas.
Context {S : Type} `{FA : FrameAllocatorLaws S}.
Implicit Types (h : alloc.heap S) (L : list (Z * alloc.header)).

(** Up to 64 bytes, the alignment that [alloc_a] gives to the header is the one of the
    block as well. *)
Lemma alloc_a_aligned own root h L sz k :
  heap_ok own root h L -> 0 <= sz -> 0 <= k <= 6 -> room k (sz + alloc.sizeof_header) h ->
  exists p h' own' L', alloc.alloc_a sz (2 ^ k) h = Ret (p, h') /\ heap_ok own' root h' L' /\
    live L' ≡ₚ (p, sz) :: live L /\ p mod 2 ^ k = 0 /\ p <> 0 /\
    (forall q m i, (q, m) ∈ live L -> 0 <= i < m -> alloc.bytes h' (q + i) = alloc.bytes h (q + i)).
Proof.
  intros OK Hsz Hk Hr.
  destruct (fresh_ok own root h L k sz) as (b & h1 & h' & own' & Hm & Hb & Ha & Hu & Hal & OK' & Hby); [done | lia | done | done |].
  unfold alloc.alloc_a. rewrite Hm. cbn [mbind res_bind]. rewrite (proj2 (Z.eqb_neq b 0) Hb), Ha. cbn [mbind res_bind]. rewrite Hu.
  assert (HP := live_append L b sz). eexists _, h', own', _. split_and!; [reflexivity | exact OK' | exact HP | ..].
  - rewrite <- Zplus_mod_idemp_l, Hal. assert (H : Forall (fun k => (0 + alloc.sizeof_header) mod 2 ^ k = 0) (seqZ 0 7)) by by_compute.
    rewrite Forall_forall in H. apply H, elem_of_seqZ. lia.
  - destruct (live_bounds _ _ _ (b + alloc.sizeof_header) sz (ok_spans _ _ _ _ OK')) as [H _]; [rewrite HP; apply list_elem_of_here |].
    unfold alloc.heap_base in H. lia.
  - intros q m i Hq Hi. apply Hby. destruct (live_bounds _ _ _ _ _ (ok_spans _ _ _ _ OK) Hq). lia.
Qed.

Lemma live_apart own root h L p n q m :
  heap_ok own root h L -> (p, n) ∈ live L -> (q, m) ∈ live L -> q <> p -> q + m <= p \/ p + n <= q.
Proof.
  intros OK [R HP]%elem_of_Permutation Hq Hne. rewrite HP in Hq. apply elem_of_cons in Hq as [[= -> ->] | Hq]; [done |].
  destruct (live_disjoint _ _ _ _ _ _ _ _ (ok_spans _ _ _ _ OK) HP Hq); lia.
Qed.

(** Writing into a live block keeps the heap and all other blocks. *)
Lemma write_block own root h L p n m :
  heap_ok own root h L -> (p, n) ∈ live L -> only_at p n (alloc.bytes h) m ->
  heap_ok own root (alloc.set_bytes m h) L /\
  (forall q k i, (q, k) ∈ live L -> q <> p -> 0 <= i < k -> m (q + i) = alloc.bytes h (q + i)).
Proof.
  intros OK Hp Ho. split; [by apply set_bytes_ok |]. intros q k i Hq Hne Hi. apply Ho.
  destruct (live_apart _ _ _ _ _ _ _ _ OK Hp Hq Hne); lia.
Qed.

Lemma copy_block own root h L p q n :
  heap_ok own root h L -> (p, n) ∈ live L -> (q, n) ∈ live L ->
  exists m, string.memcpy p q n (alloc.bytes h) = Ret m /\ only_at p n (alloc.bytes h) m /\
    (forall i, 0 <= i < n -> m (p + i) = alloc.bytes h (q + i)).
Proof.
  intros OK Hp Hq. destruct (live_bounds _ _ _ _ _ (ok_spans _ _ _ _ OK) Hp) as (_ & Hn & _).
  destruct (memmove_correct p q n (alloc.bytes h) Hn) as [_ H]. destruct H as (m & E & Hm).
  { destruct (decide (q = p)) as [-> | Hne]; [lia |]. destruct (live_apart _ _ _ _ _ _ _ _ OK Hp Hq Hne); lia. }
  exists m. split_and!; [exact E | |].
  - intros x Hx. by rewrite Hm, bool_decide_false.
  - intros i Hi. rewrite Hm, bool_decide_true by lia. f_equal. lia.
Qed.
End area_lemmas.

(** ** Specification *)

(** The areas are blocks of the heap, aligned as the instructions need it. *)
Definition area (g : simd_state.globals) (L : list (Z * alloc.header)) (p : Z) : Prop :=
  (p, simd_state.save_size g) ∈ live L /\ p mod simd_state.save_align g = 0.

(** The registers that an area stands for. *)
Definition contents {X S} `{SimdHw X} `{FrameAllocator S} (g : simd_state.globals) (h : alloc.heap S) (p : Z) : X :=
  x_restore (simd_state.xsave g) p (alloc.bytes h).

Record simd_ok {S} `{FrameAllocator S} (own : gmap Z (nat * Z)) (root : Z) (g : simd_state.globals) (ps : list Z)
    (h : alloc.heap S) (L : list (Z * alloc.header)) : Prop := {
  s_heap : heap_ok own root h L;
  s_align : exists k, 0 <= k <= 6 /\ simd_state.save_align g = 2 ^ k;
  s_size : 28 <= simd_state.save_size g;
  s_areas : Forall (area g L) (simd_state.default_state g :: ps);
  s_nodup : NoDup (simd_state.default_state g :: ps);
  s_default : forall i, 0 <= i < simd_state.save_size g -> alloc.bytes h (simd_state.default_state g + i) = default_byte i }.

(** [p] holds [x] now; all other blocks have the bytes they had. *)
Record updated {X S} `{SimdHw X} `{FrameAllocator S} (g : simd_state.globals) (ps : list Z) (L : list (Z * alloc.header)) (p : Z) (x : X)
    (h h' : alloc.heap S) : Prop := {
  u_new : contents g h' p = x;
  u_areas : forall q, q ∈ ps -> q <> p -> contents g h' q = contents g h q :> X;
  u_bytes : forall q m i, (q, m) ∈ live L -> q <> p -> 0 <= i < m -> alloc.bytes h' (q + i) = alloc.bytes h (q + i) }.

Section operations.
Context {S X : Type} `{FA : FrameAllocatorLaws S} `{HW : SimdHw X} (g : simd_state.globals) `{SL : !SimdHwLaws X g}.
Context (root : Z).
Implicit Types (own : gmap Z (nat * Z)) (h : alloc.heap S) (L : list (Z * alloc.header)) (ps : list Z).

Lemma area_nonzero own ps h L p : simd_ok own root g ps h L -> p ∈ simd_state.default_state g :: ps ->
  (p, simd_state.save_size g) ∈ live L /\ p mod simd_state.save_align g = 0 /\ (p =? 0) = false.
Proof.
  intros OK Hp. destruct (proj1 (Forall_forall _ _) (s_areas _ _ _ _ _ _ OK) p Hp) as [Hl Ha]. split_and!; [done | done |].
  destruct (live_bounds _ _ _ _ _ (ok_spans _ _ _ _ (s_heap _ _ _ _ _ _ OK)) Hl) as [H _]. apply Z.eqb_neq.
  unfold alloc.heap_base in H. lia.
Qed.

Lemma contents_kept own ps h h' L p : simd_ok own root g ps h L -> p ∈ simd_state.default_state g :: ps ->
  (forall i, 0 <= i < simd_state.save_size g -> alloc.bytes h' (p + i) = alloc.bytes h (p + i)) ->
  contents g h' p = contents g h p :> X.
Proof. intros OK Hp Hb. destruct (area_nonzero own ps h L p OK Hp) as (_ & Ha & _). by apply restore_bytes. Qed.

(** A write into the area of [p]. *)
Lemma write_updated own ps h L p x m :
  simd_ok own root g ps h L -> p ∈ ps -> only_at p (simd_state.save_size g) (alloc.bytes h) m -> x_restore (simd_state.xsave g) p m = x ->
  simd_ok own root g ps (alloc.set_bytes m h) L /\ updated g ps L p x h (alloc.set_bytes m h).
Proof.
  intros OK Hp Ho Hx. assert (Hp' : p ∈ simd_state.default_state g :: ps) by (by apply list_elem_of_further).
  destruct (area_nonzero own ps h L p OK Hp') as (Hl & _ & _).
  destruct (write_block own root h L p _ m (s_heap _ _ _ _ _ _ OK) Hl Ho) as [OK' Hk].
  assert (Hd : simd_state.default_state g <> p).
  { intros E. assert (Hn := s_nodup _ _ _ _ _ _ OK). apply NoDup_cons in Hn as [Hn _]. apply Hn. by rewrite E. }
  split.
  - destruct OK as [Hh Hal Hs Har Hn Hdef]. constructor; try done. intros i Hi. rewrite <- Hdef by done. cbn.
    eapply Hk; [| exact Hd | exact Hi]. by apply Forall_cons in Har as [[? _] _].
  - constructor; [exact Hx | | exact Hk]. intros q Hq Hne. assert (Hq' : q ∈ simd_state.default_state g :: ps) by (by apply list_elem_of_further).
    eapply contents_kept; [exact OK | exact Hq' |]. intros i Hi. cbn. destruct (area_nonzero own ps h L q OK Hq') as (Hlq & _ & _). by eapply Hk.
Qed.

Lemma save_ok own ps h L p (x : X) : simd_ok own root g ps h L -> p ∈ ps ->
  exists h', simd_state.save g p x h = Ret (p, h') /\ simd_ok own root g ps h' L /\ updated g ps L p x h h'.
Proof.
  intros OK Hp. destruct (area_nonzero own ps h L p OK) as (_ & Ha & Hz); [by apply list_elem_of_further |].
  unfold simd_state.save. rewrite Hz. cbn [mbind res_bind mret res_ret]. eexists. split; [reflexivity |].
  apply write_updated; [done | done | apply save_area | by apply restore_saved].
Qed.

Lemma restore_ok own ps h L p : simd_ok own root g ps h L -> p ∈ ps -> simd_state.restore g p h = Ret (p, contents g h p : X, h).
Proof.
  intros OK Hp. destruct (area_nonzero own ps h L p OK) as (_ & _ & Hz); [by apply list_elem_of_further |]. unfold simd_state.restore. by rewrite Hz.
Qed.

(** A copy from one area to another. *)
Lemma copy_area_ok own ps h L p q : simd_ok own root g ps h L -> p ∈ ps -> q ∈ simd_state.default_state g :: ps ->
  exists m, string.memcpy p q (simd_state.save_size g) (alloc.bytes h) = Ret m /\
    simd_ok own root g ps (alloc.set_bytes m h) L /\ updated g ps L p (contents g h q : X) h (alloc.set_bytes m h).
Proof.
  intros OK Hp Hq. destruct (area_nonzero own ps h L p OK) as (Hlp & Ha & _); [by apply list_elem_of_further |].
  destruct (area_nonzero own ps h L q OK Hq) as (Hlq & Haq & _).
  destruct (copy_block own root h L p q _ (s_heap _ _ _ _ _ _ OK) Hlp Hlq) as (m & E & Ho & Hm). exists m. split; [exact E |].
  apply write_updated; [done | done | exact Ho |]. unfold contents. by apply restore_bytes.
Qed.

Lemma init_area_ok own ps h L p : simd_ok own root g ps h L -> p ∈ ps ->
  exists h', simd_state.init g p h = Ret (p, h') /\ simd_ok own root g ps h' L /\
    updated g ps L p (contents g h (simd_state.default_state g) : X) h h'.
Proof.
  intros OK Hp. destruct (area_nonzero own ps h L p OK) as (_ & _ & Hz); [by apply list_elem_of_further |].
  destruct (copy_area_ok own ps h L p (simd_state.default_state g) OK Hp) as (m & E & H); [apply list_elem_of_here |].
  unfold simd_state.init. rewrite Hz. cbn [mbind res_bind mret res_ret]. rewrite E. by eexists.
Qed.

(** [operator=] first gives the target its default contents. *)
Lemma assign_ok own ps h L p q : simd_ok own root g ps h L -> p ∈ ps -> q ∈ ps -> p <> q ->
  exists h', simd_state.assign g p q h = Ret (p, h') /\ simd_ok own root g ps h' L /\ updated g ps L p (contents g h q : X) h h'.
Proof.
  intros OK Hp Hq Hne. destruct (init_area_ok own ps h L p OK Hp) as (h1 & E1 & OK1 & U1).
  assert (Hq' : q ∈ simd_state.default_state g :: ps) by (by apply list_elem_of_further).
  destruct (copy_area_ok own ps h1 L p q OK1 Hp Hq') as (m & E2 & OK2 & U2). destruct (area_nonzero own ps h L q OK Hq') as (_ & _ & Hz).
  unfold simd_state.assign. rewrite E1. cbn [mbind res_bind]. rewrite Hz, E2. cbn [mbind res_bind mret res_ret]. eexists. split; [reflexivity |]. split; [exact OK2 |].
  destruct U1 as [_ A1 B1], U2 as [N2 A2 B2]. constructor.
  - rewrite N2. by apply A1.
  - intros r Hr Hn. rewrite A2, A1 by done. done.
  - intros r k i Hr Hn Hi. rewrite (B2 r k) by done. by apply (B1 r k).
Qed.

Lemma deinit_area_ok own ps h L p : simd_ok own root g (p :: ps) h L ->
  exists h' L', simd_state.deinit p h = Ret (0, h') /\ simd_ok own root g ps h' L' /\ live L ≡ₚ (p, simd_state.save_size g) :: live L' /\
    (forall q, q ∈ ps -> contents g h' q = contents g h q :> X).
Proof.
  intros OK. destruct (area_nonzero own _ h L p OK) as (Hl & _ & Hz); [apply list_elem_of_further, list_elem_of_here |].
  destruct (free_ok own root h L p _ (s_heap _ _ _ _ _ _ OK) Hl) as (h' & L' & E & OK' & HP & Hb).
  unfold simd_state.deinit. rewrite Hz, E. cbn [mbind res_bind mret res_ret]. exists h', L'. split; [reflexivity |].
  destruct OK as [Hh Hal Hs Har Hn Hdef]. apply Forall_cons in Har as [Hd Har]. apply Forall_cons in Har as [_ Har].
  rewrite NoDup_cons, not_elem_of_cons, NoDup_cons in Hn. destruct Hn as ([Hdp Hdn] & Hpn & Hn).
  assert (Hkeep : forall q, q <> p -> area g L q -> area g L' q).
  { intros q Hq [Hin Ha]. split; [| done]. rewrite HP in Hin. by apply elem_of_cons in Hin as [[= ->] |]. }
  split; [| split; [exact HP |]].
  - constructor; [exact OK' | done | done | | by apply NoDup_cons | by rewrite Hb].
    apply Forall_cons. split; [by apply Hkeep |]. rewrite Forall_forall in Har |- *. intros q Hq. apply Hkeep; [by intros -> | by apply Har].
  - intros q Hq. unfold contents. by rewrite Hb.
Qed.

(** A new area. *)
Lemma new_area_ok own ps h L k : simd_ok own root g ps h L -> simd_state.save_align g = 2 ^ k -> 0 <= k <= 6 ->
  room k (simd_state.save_size g + alloc.sizeof_header) h ->
  exists p h' own' L', simd_state.init g 0 h = Ret (p, h') /\ simd_ok own' root g (p :: ps) h' L' /\
    live L' ≡ₚ (p, simd_state.save_size g) :: live L /\ contents g h' p = contents g h (simd_state.default_state g) :> X /\
    (forall q, q ∈ ps -> contents g h' q = contents g h q :> X) /\
    (forall q m i, (q, m) ∈ live L -> 0 <= i < m -> alloc.bytes h' (q + i) = alloc.bytes h (q + i)).
Proof.
  intros OK Ek Hk Hr. assert (OK0 := OK). destruct OK as [Hh Hal Hs Har Hn Hdef].
  destruct (alloc_a_aligned own root h L (simd_state.save_size g) k Hh ltac:(lia) Hk Hr) as (p & h1 & own' & L' & E & OK' & HP & Hpa & Hz & Hb).
  assert (Hnp : ~ exists m, (p, m) ∈ live L).
  { intros [m Hin]. assert (Hnd := live_nodup _ _ _ (ok_spans _ _ _ _ OK')). rewrite HP in Hnd. apply NoDup_cons in Hnd as [Hnd _].
    apply Hnd, list_elem_of_fmap. by exists (p, m). }
  assert (Hnew : forall q, area g L q -> q <> p /\ area g L' q).
  { intros q [Hin Ha]. split; [intros ->; apply Hnp; by eexists |]. split; [| done]. rewrite HP. by apply list_elem_of_further. }
  rewrite Forall_forall in Har. assert (OK1 : simd_ok own' root g (p :: ps) h1 L').
  { constructor; [exact OK' | done | done | | |].
    - apply Forall_forall. intros q Hq. rewrite !elem_of_cons in Hq. destruct Hq as [-> | [-> | Hq]].
      + by apply Hnew, Har, list_elem_of_here.
      + split; [rewrite HP; apply list_elem_of_here | by rewrite Ek].
      + by apply Hnew, Har, list_elem_of_further.
    - rewrite NoDup_cons in Hn. destruct Hn as [Hd Hn]. rewrite !NoDup_cons, not_elem_of_cons. split_and!; [| exact Hd | | exact Hn].
      + apply Hnew, Har, list_elem_of_here.
      + intros Hin. destruct (Hnew p) as [Hne _]; [by apply Har, list_elem_of_further | done].
    - intros i Hi. rewrite <- Hdef by done. eapply Hb; [| exact Hi]. apply (Har (simd_state.default_state g)), list_elem_of_here. }
  destruct (copy_area_ok own' (p :: ps) h1 L' p (simd_state.default_state g) OK1) as (m & E2 & OK2 & U2); [apply list_elem_of_here.. |].
  unfold simd_state.init, simd_state.allocate. rewrite Ek, E. cbn [Z.eqb mbind res_bind]. rewrite (proj2 (Z.eqb_neq p 0) Hz), Hpa, Z.eqb_refl.
  cbn [negb mbind res_bind mret res_ret]. rewrite E2. cbn [mbind res_bind mret res_ret]. exists p, (alloc.set_bytes m h1), own', L'.
  assert (Hsame : forall q, q ∈ simd_state.default_state g :: ps -> contents g h1 q = contents g h q :> X).
  { intros q Hq. eapply contents_kept; [exact OK0 | exact Hq |]. intros i Hi. eapply Hb; [apply (Har q Hq) | exact Hi]. }
  destruct U2 as [U1 U2 U3]. split_and!; [reflexivity | exact OK2 | exact HP | | |].
  - rewrite U1. apply Hsame, list_elem_of_here.
  - intros q Hq. rewrite U2 by (first [by apply list_elem_of_further | by apply Hnew, Har, list_elem_of_further]). by apply Hsame, list_elem_of_further.
  - intros q n i Hq Hi. rewrite (U3 q n) by (done || (rewrite HP; by apply list_elem_of_further) || (intros ->; apply Hnp; by eexists)).
    by eapply Hb.
Qed.
End operations.

(** ** Theorems *)

(** C35: The save areas implement values.  With the areas [ps] of threads and guests on the
    heap: saving makes an area hold the registers, restoring loads what it holds,
    assignment copies, a reset and a new area hold the default of the static area; in
    every case all other areas hold what they held and all other blocks of the heap
    keep their bytes, and an area that is given up is a free block again. *)
Theorem simd_areas_refine {S X} `{FA : FrameAllocatorLaws S} `{HW : SimdHw X} (g : simd_state.globals) `{SL : !SimdHwLaws X g}
    (own : gmap Z (nat * Z)) (root : Z) (ps : list Z) (h : alloc.heap S) (L : list (Z * alloc.header)) :
  simd_ok own root g ps h L ->
  (forall p (x : X), p ∈ ps ->
     exists h', simd_state.save g p x h = Ret (p, h') /\ simd_ok own root g ps h' L /\ updated g ps L p x h h') /\
  (forall p, p ∈ ps -> simd_state.restore g p h = Ret (p, contents g h p : X, h)) /\
  (forall p q, p ∈ ps -> q ∈ ps -> p <> q ->
     exists h', simd_state.assign g p q h = Ret (p, h') /\ simd_ok own root g ps h' L /\ updated g ps L p (contents g h q : X) h h') /\
  (forall p, p ∈ ps ->
     exists h', simd_state.init g p h = Ret (p, h') /\ simd_ok own root g ps h' L /\
       updated g ps L p (contents g h (simd_state.default_state g) : X) h h') /\
  (forall k, simd_state.save_align g = 2 ^ k -> 0 <= k <= 6 -> room k (simd_state.save_size g + alloc.sizeof_header) h ->
     exists p h' own' L', simd_state.init g 0 h = Ret (p, h') /\ simd_ok own' root g (p :: ps) h' L' /\
       live L' ≡ₚ (p, simd_state.save_size g) :: live L /\ contents g h' p = contents g h (simd_state.default_state g) :> X /\
       (forall q, q ∈ ps -> contents g h' q = contents g h q :> X) /\
       (forall q m i, (q, m) ∈ live L -> 0 <= i < m -> alloc.bytes h' (q + i) = alloc.bytes h (q + i))) /\
  (forall p ps', ps = p :: ps' ->
     exists h' L', simd_state.deinit p h = Ret (0, h') /\ simd_ok own root g ps' h' L' /\
       live L ≡ₚ (p, simd_state.save_size g) :: live L' /\ (forall q, q ∈ ps' -> contents g h' q = contents g h q :> X)).
Proof.
  intros OK. split_and!.
  - intros p x Hp. by eapply save_ok.
  - intros p Hp. by eapply restore_ok.
  - intros p q Hp Hq Hne. by eapply assign_ok.
  - intros p Hp. by eapply init_area_ok.
  - intros k Ek Hk Hr. by eapply new_area_ok.
  - intros p ps' ->. by eapply deinit_area_ok.
Qed.

(** A context switch: whatever is in the registers when a thread is left comes back
    when the area of that thread is restored, also after the registers of another
    thread were saved and restored in between. *)
Theorem simd_switch_roundtrip {S X} `{FA : FrameAllocatorLaws S} `{HW : SimdHw X} (g : simd_state.globals) `{SL : !SimdHwLaws X g}
    (own : gmap Z (nat * Z)) (root : Z) (ps : list Z) (h : alloc.heap S) (L : list (Z * alloc.header)) (p q : Z) (x y : X) :
  simd_ok own root g ps h L -> p ∈ ps -> q ∈ ps -> p <> q ->
  exists h1 h2, simd_state.save g p x h = Ret (p, h1) /\ simd_state.restore g q h1 = Ret (q, contents g h q : X, h1) /\
    simd_state.save g q y h1 = Ret (q, h2) /\ simd_state.restore g p h2 = Ret (p, x, h2) /\
    simd_state.restore g q h2 = Ret (q, y, h2).
Proof.
  intros OK Hp Hq Hne. destruct (save_ok g root own ps h L p x OK Hp) as (h1 & E1 & OK1 & [N1 A1 _]).
  destruct (save_ok g root own ps h1 L q y OK1 Hq) as (h2 & E2 & OK2 & [N2 A2 _]). exists h1, h2. split_and!; [exact E1 | | exact E2 | |].
  - rewrite (restore_ok g root own ps h1 L) by done. by rewrite A1 by done.
  - rewrite (restore_ok g root own ps h2 L) by done. by rewrite A2, N1 by done.
  - rewrite (restore_ok g root own ps h2 L) by done. by rewrite N2.
Qed.

(** The start: the processor's mechanism is chosen, xsave before fxsave, and the static
    area holds exactly the number that Process.v gives to new threads, the state of
    reset registers with all exceptions masked and double extended precision. *)
Theorem simd_start_ok {S} `{FA : FrameAllocatorLaws S} (own : gmap Z (nat * Z)) (root : Z) (h : alloc.heap S) (L : list (Z * alloc.header))
    (c1 d1 c2 : Z) :
  heap_ok own root h L -> 28 <= c2 -> Z.testbit c1 26 || Z.testbit d1 24 = true ->
  let x := Z.testbit c1 26 in let size := if x then c2 else 512 in let k := if x then 6 else 4 in
  room k (size + alloc.sizeof_header) h ->
  exists g h' own' L', simd_state.start (Some (c1, d1)) (Some c2) h = Ret (g, h') /\
    simd_state.xsave g = x /\ simd_state.save_size g = size /\ simd_state.save_align g = 2 ^ k /\
    simd_ok own' root g [] h' L' /\
    (forall q m i, (q, m) ∈ live L -> 0 <= i < m -> alloc.bytes h' (q + i) = alloc.bytes h (q + i)).
Proof.
  intros OK Hc Hcpu x size k Hr.
  assert (Hbit : forall v i, 0 <= i -> (Z.land v (Z.shiftl 1 i) =? 0) = negb (Z.testbit v i)).
  { intros v i Hi. apply Bool.eq_iff_eq_true. rewrite Z.eqb_eq, negb_true_iff, Z.shiftl_1_l. split; intros H.
    - apply (f_equal (fun z => Z.testbit z i)) in H. by rewrite Z.land_spec, Z.pow2_bits_true, Z.bits_0, andb_true_r in H.
    - apply Z.bits_inj'. intros j Hj. rewrite Z.land_spec, Z.pow2_bits_eqb, Z.bits_0 by done.
      destruct (Z.eqb_spec i j) as [<- | _]; [by rewrite H | apply andb_false_r]. }
  assert (Hm : simd_state.mechanism (Some (c1, d1)) (Some c2) = Ret (x, size, 2 ^ k)).
  { unfold simd_state.mechanism. change cpuid_bits.XSAVE with (Z.shiftl 1 26). change simd_state.FXSAVE with (Z.shiftl 1 24).
    rewrite !Hbit, !negb_involutive by lia. unfold x, size, k. destruct (Z.testbit c1 26); [done |]. cbn [orb] in Hcpu. by rewrite Hcpu. }
  assert (Hs : 28 <= size) by (unfold size; destruct x; lia). assert (Hk : 0 <= k <= 6) by (unfold k; destruct x; lia).
  destruct (alloc_a_aligned own root h L size k OK ltac:(lia) Hk Hr) as (p & h1 & own' & L' & E & OK' & HP & Ha & Hz & Hb).
  assert (Hl : (p, size) ∈ live L') by (rewrite HP; apply list_elem_of_here).
  destruct (memset_ok (Z.to_nat size) 0 p 0 (alloc.bytes h1)) as (m & Em & Hm').
  destruct (set_defaults_ok p m size Hs) as [D1 D2]; [intros i Hi; by rewrite Hm', bool_decide_true by lia |].
  assert (Ho : only_at p size (alloc.bytes h1) (simd_state.set_defaults p m)).
  { eapply only_at_trans; [| exact D2]. intros y Hy. by rewrite Hm', bool_decide_false by lia. }
  destruct (write_block own' root h1 L' p size _ OK' Hl Ho) as [OK2 Hk2].
  unfold simd_state.start. rewrite Hm. cbn [mbind res_bind]. rewrite E. cbn [mbind res_bind]. rewrite (proj2 (Z.eqb_neq p 0) Hz).
  unfold string.memset. rewrite Em. cbn [mbind res_bind mret res_ret]. eexists _, _, own', L'. split; [reflexivity |].
  split_and!; [done | done | done | |].
  - constructor; [exact OK2 | by exists k | exact Hs | | apply NoDup_singleton | exact D1]. apply Forall_singleton. by split.
  - intros q n i Hq Hi. cbn [alloc.bytes alloc.set_bytes]. rewrite (Hk2 q n) by (done || (rewrite HP; by apply list_elem_of_further) || (intros ->;
      assert (Hn := live_nodup _ _ _ (ok_spans _ _ _ _ OK')); rewrite HP in Hn; apply NoDup_cons in Hn as [Hn _]; apply Hn, list_elem_of_fmap; by exists (p, n))).
    by eapply Hb.
Qed.

(** The routines save and load the area that rdi points to and leave the stack as it
    was.  xsave_int keeps all registers; xrstor_int pops rdx twice, so rdx gets what
    was in rax and rax stays at its mask.  Callers lose nothing, because these two
    are registers that a call may change. *)
Theorem simd_routines {X} `{SimdHw X} (s : process_low.state X) :
  (exists s', process_low.exec process_low.xsave_int s = Ret s' /\
     (forall r, process_low.gpr s' r = process_low.gpr s r) /\ process_low.stack s' = process_low.stack s /\ process_low.simd s' = process_low.simd s /\
     process_low.mem s' = x_save true (process_low.gpr s process_low.rdi) (process_low.simd s) (process_low.mem s)) /\
  (exists s', process_low.exec process_low.xrstor_int s = Ret s' /\
     process_low.gpr s' process_low.rdi = process_low.gpr s process_low.rdi /\
     process_low.gpr s' process_low.rdx = process_low.gpr s process_low.rax /\ process_low.gpr s' process_low.rax = 0xFFFFFFFF /\
     process_low.stack s' = process_low.stack s /\ process_low.mem s' = process_low.mem s /\
     process_low.simd s' = x_restore true (process_low.gpr s process_low.rdi) (process_low.mem s)).
Proof. split; eexists; (split; [reflexivity |]); split_and!; try reflexivity. by intros []. Qed.

(** The layout is the one that the processor expects. *)
Theorem simd_layout :
  layout_size simd_state.mm_entry = 8 * 16 /\ layout_size simd_state.xmm_entry = 8 * 16 /\ layout_size simd_state.fxsave_area = 8 * 512 /\
  offset_of simd_state.fxsave_area <$> ["fcw"; "fsw"; "ftw"; "fop"; "fip"; "fdp"; "mxcsr"; "mxcsr_mask"; "mm"; "xmm"]%string =
    [0; 2; 4; 6; 8; 16; 24; 28; 32; 160] /\
  foldl Z.lor 0 simd_state.fcw_bits = 0x33F /\ foldl Z.lor 0 simd_state.mxcsr_bits = 0x1F80.
Proof. repeat split. Qed.

(** ** Witnesses *)

(** A processor with one register, which is saved at the start of the area. *)
#[export] Instance sim_simd : SimdHw Z := {| x_save := fun _ p x m => write m p x; x_restore := fun _ p m => m p |}.

(** A heap with three areas for xsave: the static one and those of two threads. *)
Definition area_example (i : Z) : Z := alloc.heap_base + 64 + 896 * i.
Definition blocks_example : list (Z * alloc.header) :=
  let block i n := (area_example i - 64, alloc.with_next n (alloc.new_header 832)) in
  [block 0 (area_example 1 - 64); block 1 (area_example 2 - 64); block 2 0].
Definition globals_example : simd_state.globals := simd_state.mk true 832 64 (area_example 0).

#[export] Instance sim_simd_laws : SimdHwLaws Z globals_example.
Proof.
  constructor.
  - intros p x m y Hy. apply write_ne. cbn in Hy. lia.
  - intros p x m _. apply write_eq.
  - intros p q m m' _ _ H. specialize (H 0). rewrite !Z.add_0_r in H. apply H. cbn. lia.
Qed.

Lemma simd_example : exists h own, simd_ok (S := pmm.state) own root_example globals_example [area_example 1; area_example 2] h blocks_example.
Proof.
  destruct heap_example as (h & own & [[A B C D] _ _ _ _ _ _] & Ho & Hp & Hr).
  exists (alloc.set_bytes (fun x => default_byte (x - area_example 0)) (alloc.set_offset (alloc.heap_base + 2688)
           (alloc.set_headers (list_to_map blocks_example) (alloc.set_list (area_example 0 - 64) (area_example 2 - 64) h)))), own.
  constructor.
  - constructor.
    + by constructor.
    + reflexivity.
    + vm_compute. repeat split.
    + vm_compute. reflexivity.
    + vm_compute. reflexivity.
    + cbn [alloc.current_heap_offset alloc.set_bytes alloc.set_offset]. vm_compute. repeat split; discriminate.
    + cbn [alloc.current_heap_offset alloc.current_heap_page_offset alloc.set_bytes alloc.set_offset alloc.set_headers alloc.set_list]. rewrite Hp. lia.
  - by exists 6.
  - cbn. lia.
  - by_compute.
  - by_compute.
  - intros i Hi. cbn [alloc.bytes alloc.set_bytes]. change (simd_state.default_state globals_example) with (area_example 0). f_equal. lia.
Qed.

Lemma simd_areas_refine_witness : exists h own,
  (exists h', simd_state.save globals_example (area_example 1) 7 h = Ret (area_example 1, h') /\
     simd_ok own root_example globals_example [area_example 1; area_example 2] h' blocks_example /\
     updated (S := pmm.state) globals_example [area_example 1; area_example 2] blocks_example (area_example 1) 7 h h').
Proof.
  destruct simd_example as (h & own & OK). exists h, own.
  apply (simd_areas_refine globals_example own root_example [area_example 1; area_example 2] h blocks_example OK). apply list_elem_of_here.
Defined.

Lemma simd_switch_roundtrip_witness : exists h : alloc.heap pmm.state,
  exists h1 h2, simd_state.save globals_example (area_example 1) 7 h = Ret (area_example 1, h1) /\
    simd_state.restore globals_example (area_example 2) h1 = Ret (area_example 2, contents globals_example h (area_example 2) : Z, h1) /\
    simd_state.save globals_example (area_example 2) 9 h1 = Ret (area_example 2, h2) /\
    simd_state.restore globals_example (area_example 1) h2 = Ret (area_example 1, 7, h2) /\
    simd_state.restore globals_example (area_example 2) h2 = Ret (area_example 2, 9, h2).
Proof.
  destruct simd_example as (h & own & OK). exists h.
  apply (simd_switch_roundtrip globals_example own root_example [area_example 1; area_example 2] h blocks_example);
    [exact OK | by_compute | by_compute | by_compute].
Defined.

Lemma simd_start_ok_witness : exists h own, heap_ok own root_example h [] /\
  exists g h' own' L', simd_state.start (Some (0x04000000, 0x01000000)) (Some 832) h = Ret (g, h') /\
    simd_state.xsave g = true /\ simd_state.save_size g = 832 /\ simd_state.save_align g = 64 /\
    simd_ok own' root_example g [] h' L' /\
    (forall q m i, (q, m) ∈ live [] -> 0 <= i < m -> alloc.bytes h' (q + i) = alloc.bytes h (q + i)).
Proof.
  destruct heap_example as (h & own & OK & _ & _ & Hr). exists h, own. split; [exact OK |].
  apply (simd_start_ok own root_example h [] 0x04000000 0x01000000 832); [exact OK | lia | reflexivity | apply (Hr 6); [lia | vm_compute; split; discriminate]].
Defined.
