(* ===== verification/Smp.v ===== *)
(** * Smp: further processors and the interrupts between them

    Models source/smp/smp.cpp and source/smp/ipi.cpp.  The start of a processor goes
    through the local APIC of Apic.v; what the other processor does, until it sets
    the flag [trampoline_booted], is hardware ([SmpHw]).

    The shootdown of TLB entries is a system of processors that take an interrupt and
    run its handler in any order: the variables [shootdown_addr] and
    [shootdown_length] are shared, and the handler reads them in each pass of its loop. *)

From S2P Require Import Prelude Bits Containers Fields Frames Pmm Paging Acpi Apic.

(** ** Starting processors *)

Class SmpHw (D : Type) := {
  trampoline_booted : D -> Z;
  set_booted : Z -> D -> D;
  set_stack : Z -> D -> D;
  set_paging : Z -> D -> D;
  nops : Z -> D -> D;
  icr_tick : D -> D
}.

Module smp.
Definition smp_trampoline_base : Z := 0x1000.
Definition lapic_icr_tm_level : Z := 0x8000.
Definition lapic_icr_levelassert : Z := 0x4000.
Definition lapic_icr_dm_init : Z := 0x500.
Definition lapic_icr_dm_sipi : Z := 0x600.
Definition ap_stack_size : Z := 4.

Section ops.
Context {D : Type} `{RH : RegHw D} `{SH : SmpHw D}.
Context {S : Type} `{FA : FrameAllocator S} (alloc_n_blocks : Z -> S -> res (Z * S)).

(** [wait_for_boot], with [timeout] rounds left. *)
Fixpoint wait_for_boot (timeout : nat) (d : D) : bool * D :=
  match timeout with
  | O => (false, d)
  | Datatypes.S timeout => if trampoline_booted d =? 1 then (true, d) else wait_for_boot timeout (nops 100000 d)
  end.

Definition sipi : Z := Z.lor lapic_icr_dm_sipi (Z.land (Z.shiftr smp_trampoline_base 12) 0xFF).

Definition boot_apic (fuel : nat) (lapic_id : Z) (l : lapic.t) (d : D) : res D :=
  d ← lapic.send_ipi_raw fuel icr_tick lapic_id (Z.lor (Z.lor lapic_icr_tm_level lapic_icr_levelassert) lapic_icr_dm_init) l d;
  d ← lapic.send_ipi_raw fuel icr_tick lapic_id sipi l d;
  let '(booted, d) := wait_for_boot 100 d in
  if booted : bool then mret d else lapic.send_ipi_raw fuel icr_tick lapic_id sipi l d.

(** [boot_cpu]; [paging_info] is that of the kernel. *)
Definition boot_cpu (fuel : nat) (paging_info : Z) (e : madt.cpu_entry) (l : lapic.t) (s : S) (d : D) : res (S * D) :=
  '(cpu_stack, s) ← alloc_n_blocks ap_stack_size s;
  if cpu_stack =? 0 then mret (s, d)
  else
    let d := set_stack (u64 (cpu_stack + block_size * ap_stack_size + KERNEL_PHYSICAL_VIRTUAL_MAPPING_BASE)) d in
    let d := set_paging (to_phys paging_info) d in
    d ← boot_apic fuel (madt.lapic_id e) l d;
    let '(_, d) := wait_for_boot 100 d in
    mret (s, set_booted 0 d).

Fixpoint boot_aps (fuel : nat) (paging_info : Z) (cpus : list madt.cpu_entry) (l : lapic.t) (s : S) (d : D) : res (S * D) :=
  match cpus with
  | [] => mret (s, d)
  | e :: cpus =>
      '(s, d) ← (if madt.bsp e then mret (s, d) else boot_cpu fuel paging_info e l s d);
      boot_aps fuel paging_info cpus l s d
  end.

(** The constructor: the pages of the trampoline, [size] bytes.  The copy of its code
    and the registration of the handlers are left out. *)
Definition map_trampoline (paging_info size : Z) (k : paging.kernel S) : res (paging.kernel S) :=
  for_loop (Z.to_nat (div_ceil size block_size)) 0 (fun i k =>
    let off := block_size * i in
    paging.map_page paging_info (smp_trampoline_base + off) (u64 (smp_trampoline_base + KERNEL_PHYSICAL_VIRTUAL_MAPPING_BASE + off))
      (Z.lor map_page_flags_present map_page_flags_writable) normal k) k.
End ops.
End smp.

(** ** Interrupts between processors *)

Module ipi.
Definition ping_ipi_vector : Z := 250.
Definition shootdown_ipi_vector : Z := 251.

Section send.
Context {D : Type} `{RH : RegHw D} `{SH : SmpHw D}.

(** [send_ping] to one processor and to all others; the interrupt of
    [send_shootdown], to all. *)
Definition send_ping (fuel : nat) (apic_id : Z) (l : lapic.t) (d : D) : res D := lapic.send_ipi fuel icr_tick apic_id ping_ipi_vector l d.
Definition send_ping_all (fuel : nat) (l : lapic.t) (d : D) : res D :=
  lapic.send_ipi_raw fuel icr_tick 0 (Z.lor (Z.lor (Z.shiftl 1 19) (Z.shiftl 1 18)) ping_ipi_vector) l d.
Definition send_shootdown_ipi (fuel : nat) (l : lapic.t) (d : D) : res D :=
  lapic.send_ipi_raw fuel icr_tick 0 (Z.lor (Z.shiftl 1 19) shootdown_ipi_vector) l d.
End send.

(** A processor: whether the interrupt is pending, the offset that the loop of the
    handler is at, and the addresses that were invalidated. *)
Record cpu := mk_cpu { pending : bool; handling : option Z; flushed : list Z }.
Record system := mk { shootdown_addr : Z; shootdown_length : Z; cpus : list cpu }.

Definition raise (c : cpu) : cpu := mk_cpu true (handling c) (flushed c).

(** What happens: a call of [send_shootdown], which holds the mutex and raises the
    interrupt everywhere; the start of a handler; one pass of its loop. *)
Inductive event := Send (address length : Z) | Take (i : nat) | Pass (i : nat).

Definition send_shootdown (address length : Z) (s : system) : system := mk address length (raise <$> cpus s).

(** The handler, [shootdown_ipi]: the head of the loop with its body. *)
Definition take (c : cpu) : option cpu :=
  match handling c with None => if pending c then Some (mk_cpu false (Some 0) (flushed c)) else None | Some _ => None end.
Definition pass (addr len : Z) (c : cpu) : option cpu :=
  match handling c with
  | None => None
  | Some offset =>
      if offset <? len then Some (mk_cpu (pending c) (Some (u64 (offset + block_size))) (flushed c ++ [u64 (addr + offset)]))
      else Some (mk_cpu (pending c) None (flushed c))
  end.

Definition update (i : nat) (f : cpu -> option cpu) (s : system) : option system :=
  c ← cpus s !! i; c' ← f c; mret (mk (shootdown_addr s) (shootdown_length s) (<[i := c']> (cpus s))).

Definition exec (e : event) (s : system) : option system :=
  match e with
  | Send a l => Some (send_shootdown a l s)
  | Take i => update i take s
  | Pass i => update i (pass (shootdown_addr s) (shootdown_length s)) s
  end.

Fixpoint run (es : list event) (s : system) : option system :=
  match es with [] => Some s | e :: es => s ← exec e s; run es s end.

Definition idle (s : system) : Prop := Forall (fun c => pending c = false /\ handling c = None) (cpus s).
Definition no_send (e : event) : Prop := match e with Send _ _ => False | _ => True end.
End ipi.

(** ** Theorems: starting processors *)

Section boot.
Context {D : Type} `{SH : SmpHw D}.

(** A processor that sets its flag within 99 rounds is noticed. *)
Lemma wait_for_boot_notices n m (d : D) :
  (m < n)%nat -> trampoline_booted (Nat.iter m (nops 100000) d) = 1 -> exists k, (k <= m)%nat /\ smp.wait_for_boot n d = (true, Nat.iter k (nops 100000) d).
Proof.
  revert m d. induction n as [| n IH]; intros m d Hm Hb; [lia |]. cbn [smp.wait_for_boot]. destruct (Z.eqb_spec (trampoline_booted d) 1) as [E | E].
  - exists 0%nat. split; [lia | done].
  - destruct m as [| m]; [done |]. rewrite Nat.iter_succ_r in Hb. destruct (IH m _ ltac:(lia) Hb) as (k & Hk & ->). exists (S k). split; [lia |].
    by rewrite Nat.iter_succ_r.
Qed.
End boot.

(** ** Theorems: shootdown *)

Section shootdown.
Import ipi.
Context (a l : Z).

(** The addresses of the pages below an offset. *)
Definition covered (upto : Z) (fl : list Z) : Prop := forall k, 0 <= k -> block_size * k < upto -> u64 (a + block_size * k) ∈ fl.

(** What a processor has done for the shootdown of [a] and [l]. *)
Definition cpu_ok (c : cpu) : Prop :=
  match handling c with
  | Some off => (exists k, 0 <= k /\ off = block_size * k /\ off < l + block_size) /\ (pending c = false -> covered off (flushed c))
  | None => pending c = false -> covered l (flushed c)
  end.

Definition inv (s : system) : Prop := shootdown_addr s = a /\ shootdown_length s = l /\ Forall cpu_ok (cpus s).

Lemma covered_app upto fl x : covered upto fl -> covered upto (fl ++ [x]).
Proof. intros H k Hk Hl. apply elem_of_app. left. by apply H. Qed.

Lemma take_ok c c' : take c = Some c' -> 0 <= l -> cpu_ok c'.
Proof.
  unfold take. destruct (handling c); [done |]. destruct (pending c); [| done]. intros [= <-] Hl. cbn. split.
  - exists 0. unfold block_size. lia.
  - intros _ k Hk Hlt. unfold block_size in *. lia.
Qed.

Lemma pass_ok c c' : l <= 2 ^ 64 - block_size -> pass a l c = Some c' -> cpu_ok c -> cpu_ok c'.
Proof.
  unfold pass, cpu_ok. intros Hl E Hc. destruct (handling c) as [off |]; [| done]. destruct Hc as [(k & Hk & -> & Hlt) Hcov].
  destruct (Z.ltb_spec (block_size * k) l) as [H | H]; injection E as <-; cbn.
  - unfold block_size in *. rewrite u64_small by (unfold is_u64; lia). split; [exists (k + 1); lia |]. intros Hp j Hj Hjl. unfold block_size in Hjl. apply elem_of_app.
    destruct (Z.lt_ge_cases j k); [left; apply Hcov; (done || unfold block_size; lia) | right]. assert (j = k) as -> by lia. by apply list_elem_of_singleton.
  - intros Hp j Hj Hjl. apply Hcov; (done || lia).
Qed.

Lemma update_ok i f s s' : (forall c c', f c = Some c' -> cpu_ok c -> cpu_ok c') -> update i f s = Some s' -> inv s -> inv s'.
Proof.
  intros Hf E (H1 & H2 & H3). unfold update in E. destruct (cpus s !! i) as [c |] eqn:Ec; [| done]. cbn in E. destruct (f c) as [c' |] eqn:Ef; [| done].
  injection E as <-. split_and!; [done.. |]. cbn. apply Forall_insert; [done |]. apply (Hf c c' Ef). by eapply Forall_lookup_1.
Qed.

Lemma run_inv es s s' : 0 <= l <= 2 ^ 64 - block_size -> Forall no_send es -> run es s = Some s' -> inv s -> inv s'.
Proof.
  intros Hl Hes. revert s. induction Hes as [| e es He Hes IH]; intros s E Hi; cbn in E; [by injection E as <- |].
  destruct (exec e s) as [s1 |] eqn:Ee; [| done]. apply (IH s1 E). destruct e as [| i | i]; [done | |]; cbn in Ee.
  - eapply update_ok; [| exact Ee | done]. intros c c' Hc _. eapply take_ok; [done | lia].
  - destruct Hi as (H1 & H2 & H3). rewrite H1, H2 in Ee. eapply update_ok; [| exact Ee | done]. intros c c' Hc. apply pass_ok; [lia | done].
Qed.

(** A shootdown reaches all processors, in whatever order they run: when it
    starts on an idle system and no other one starts before all handlers are done, each
    processor has invalidated every page of the range. *)
Theorem shootdown_complete (s s' : system) (es : list event) :
  0 <= l <= 2 ^ 64 - block_size -> idle s -> Forall no_send es -> run (Send a l :: es) s = Some s' -> idle s' ->
  Forall (fun c => covered l (flushed c)) (cpus s').
Proof.
  intros Hl Hi Hes E Hi'. cbn in E. apply run_inv in E as (_ & _ & H); [| done | done |].
  - apply Forall_forall. intros c Hc. rewrite Forall_forall in H. unfold idle in Hi'. rewrite Forall_forall in Hi'. specialize (H c Hc). destruct (Hi' c Hc) as [Hp Hh].
    unfold cpu_ok in H. rewrite Hh in H. by apply H.
  - split_and!; [done.. |]. cbn. apply Forall_fmap, Forall_forall. intros c Hc. unfold idle in Hi. rewrite Forall_forall in Hi. destruct (Hi c Hc) as [_ Hh].
    unfold compose, cpu_ok. cbn. by rewrite Hh.
Qed.
End shootdown.

(** [send_shootdown] does not wait for the handlers.  When a second shootdown starts
    before a processor has taken the interrupt, the first one is lost there: all
    handlers finish and the address was never invalidated. *)
Theorem shootdown_lost :
  exists es s', ipi.run (ipi.Send 0x1000 0x1000 :: es) (ipi.mk 0 0 [ipi.mk_cpu false None []; ipi.mk_cpu false None []]) = Some s' /\
    ipi.idle s' /\ exists c, ipi.cpus s' !! 1%nat = Some c /\ (0x1000 ∉ ipi.flushed c) /\ ipi.flushed c <> [].
Proof.
  exists [ipi.Take 0; ipi.Pass 0; ipi.Pass 0; ipi.Send 0x5000 0x1000; ipi.Take 1; ipi.Pass 1; ipi.Pass 1; ipi.Take 0; ipi.Pass 0; ipi.Pass 0].
  exists (ipi.mk 0x5000 0x1000 [ipi.mk_cpu false None [0x1000; 0x5000]; ipi.mk_cpu false None [0x5000]]). split; [reflexivity |].
  split; [repeat constructor |]. exists (ipi.mk_cpu false None [0x5000]). split; [reflexivity |]. split; [| discriminate].
  apply not_elem_of_cons. split; [discriminate | apply not_elem_of_nil].
Qed.

(** ** Witnesses *)

Lemma shootdown_complete_witness :
  Forall (fun c => covered 0x7000 0x2000 (ipi.flushed c)) [ipi.mk_cpu false None [0x7000; 0x8000]; ipi.mk_cpu false None [0x7000; 0x8000]].
Proof.
  apply (shootdown_complete 0x7000 0x2000 (ipi.mk 0 0 [ipi.mk_cpu false None []; ipi.mk_cpu false None []])
           (ipi.mk 0x7000 0x2000 [ipi.mk_cpu false None [0x7000; 0x8000]; ipi.mk_cpu false None [0x7000; 0x8000]])
           [ipi.Take 0; ipi.Take 1; ipi.Pass 1; ipi.Pass 0; ipi.Pass 0; ipi.Pass 0; ipi.Pass 1; ipi.Pass 1]).
  - unfold block_size. lia.
  - repeat constructor.
  - repeat constructor.
  - reflexivity.
  - repeat constructor.
Defined.
