(* ===== verification/Ata.v ===== *)
(** * Ata: the driver for IDE controllers

    Models src/drivers/storage/ata (ata.cpp, ata.hpp): the waits on the status
    register, the selection of a drive, the identification with 16- and 32-bit
    accesses, and the initialisation of the two drives of a channel.  The ports are
    hardware, [PortHw].  Loops that wait for the hardware take fuel.  The output to
    the console is left out. *)

From S2P Require Import Prelude Bits Fields Ahci.

Class PortHw (D : Type) := {
  inb : Z -> D -> Z * D;
  outb : Z -> Z -> D -> D;
  inw : Z -> D -> Z * D;
  ind : Z -> D -> Z * D;
  pauses : Z -> D -> D
}.

Module ata.
Definition isa_ata1_base : Z * Z := (0x1F0, 0x3F4).
Definition isa_ata2_base : Z * Z := (0x170, 0x374).

(** [command_registers] and [control_registers]. *)
Definition r_data : Z := 0.
Definition r_error : Z := 1.
Definition r_features : Z := 1.
Definition r_sector_count : Z := 2.
Definition r_sector_number : Z := 3.
Definition r_lba_low : Z := 3.
Definition r_lba_mid : Z := 4.
Definition r_lba_high : Z := 5.
Definition r_drive_select : Z := 6.
Definition r_status : Z := 7.
Definition r_command : Z := 7.
Definition alt_status : Z := 2.
Definition r_device_control : Z := 2.

Definition status : layout :=
  [("error", 1); ("obsolete", 2); ("drq", 1); ("command_specific", 1); ("drive_fault", 1); ("ready", 1); ("busy", 1)].
Definition drive_select : layout := [("lba28_high_nibble", 4); ("channel_select", 1); ("obsolete", 1); ("chs_lba", 1); ("obsolete1", 1)].
Definition device_control : layout := [("reserved", 1); ("irq_enable", 1); ("reset", 1); ("reserved1", 4); ("high_order_byte", 1)].
Definition c_identify : Z := 0xEC.

Record disk := mk_disk {
  slave : bool; exists_ : bool; lba : bool; lba48 : bool; pio32 : bool; id : Z * Z; identity : list Z }.
Definition new_disk (s : bool) : disk := mk_disk s false false false false (0, 0) (replicate 512 0).

Section ops.
Context {D : Type} `{PH : PortHw D}.

(** The two bases of a channel; [cur] below is the static variable of
    [select_drive]. *)
Context (base : Z * Z).

Definition read_cmd (reg : Z) (d : D) : Z * D := inb (base.1 + reg) d.
Definition read_control (reg : Z) (d : D) : Z * D := inb (base.2 + reg) d.
Definition write_cmd (reg v : Z) (d : D) : D := outb (base.1 + reg) v d.
Definition write_control (reg v : Z) (d : D) : D := outb (base.2 + reg) v d.

Definition ns_wait (d : D) : D := Nat.iter 4 (fun d => (read_control alt_status d).2) d.

Definition flag (name : string) (v : Z) : bool := negb (getf status name v =? 0).

Fixpoint wait_busy_clear (fuel : nat) (d : D) : res (bool * D) :=
  match fuel with
  | O => NoFuel
  | S fuel =>
      let '(st, d) := read_control alt_status d in
      if negb (flag "busy" st) then mret (true, d)
      else if flag "error" st || flag "drive_fault" st then mret (false, d)
      else wait_busy_clear fuel d
  end.

Fixpoint wait_for_clear (fuel : nat) (bit : Z) (d : D) : res (bool * D) :=
  match fuel with
  | O => NoFuel
  | S fuel =>
      let '(st, d) := read_control alt_status d in
      if flag "busy" st then wait_for_clear fuel bit d
      else if Z.land st (Z.shiftl 1 bit) =? 0 then mret (true, d)
      else if flag "error" st || flag "drive_fault" st then mret (false, d)
      else wait_for_clear fuel bit d
  end.

Fixpoint wait_for_set (fuel : nat) (bit : Z) (d : D) : res (bool * D) :=
  match fuel with
  | O => NoFuel
  | S fuel =>
      let '(st, d) := read_control alt_status d in
      if flag "busy" st then wait_for_set fuel bit d
      else if negb (Z.land st (Z.shiftl 1 bit) =? 0) then mret (true, d)
      else if flag "error" st || flag "drive_fault" st then mret (false, d)
      else wait_for_set fuel bit d
  end.

Definition selection (slave lba : bool) (nibble : Z) : Z :=
  puts drive_select [("chs_lba", if lba then 1 else 0); ("channel_select", if slave then 1 else 0); ("lba28_high_nibble", nibble);
                     ("obsolete1", 1); ("obsolete", 1)] 0.

Definition select_drive (slave lba : bool) (nibble cur : Z) (d : D) : Z * D :=
  let val := selection slave lba nibble in
  if val =? cur then (cur, d)
  else
    let '(st, d) := read_cmd r_status d in
    if flag "busy" st || flag "drq" st then (cur, d)
    else
      let d := ns_wait (write_cmd r_drive_select val d) in
      let '(_, d) := read_cmd r_status d in
      let '(st, d) := read_cmd r_status d in
      if flag "busy" st || flag "drq" st then (cur, d) else (val, d).

(** [while(!(read_control(alt_status) & 0x08));] *)
Fixpoint wait_drq (fuel : nat) (d : D) : res D :=
  match fuel with
  | O => NoFuel
  | S fuel => let '(st, d) := read_control alt_status d in if Z.land st 0x08 =? 0 then wait_drq fuel d else mret d
  end.

(** The reads of the data: words of [size] bytes from the port [cmd::data]. *)
Fixpoint read_data (n size : nat) (get : D -> Z * D) (d : D) : list Z * D :=
  match n with
  | O => ([], d)
  | S n => let '(v, d) := get d in let '(l, d) := read_data n size get d in (le_bytes size v ++ l, d)
  end.

(** The command, up to the point where the data is read. *)
Definition send_identify (fuel : nat) (slave : bool) (cur : Z) (d : D) : res (Z * D) :=
  let '(cur, d) := select_drive slave false 0 cur d in
  '(_, d) ← wait_busy_clear fuel d;
  let d := write_cmd r_features 0 d in
  let d := write_cmd r_sector_count 0 d in
  let d := write_cmd r_lba_low 0 d in
  let d := write_cmd r_lba_mid 0 d in
  let d := write_cmd r_lba_high 0 d in
  let d := ns_wait (write_cmd r_command c_identify d) in
  d ← wait_drq fuel d;
  mret (cur, d).

Definition identify_16 (fuel : nat) (slave : bool) (cur : Z) (d : D) : res (list Z * Z * D) :=
  '(cur, d) ← send_identify fuel slave cur d;
  let '(data, d) := read_data 256 2 (inw r_data) d in mret (data, cur, d).

Definition identify_32 (fuel : nat) (slave : bool) (cur : Z) (d : D) : res (list Z * Z * D) :=
  '(cur, d) ← send_identify fuel slave cur d;
  let '(data, d) := read_data 128 4 (ind r_data) d in mret (data, cur, d).

(** [check_identity]; the code is that of [verify_region_integrity] in ahci.cpp. *)
Definition check_identity (data : list Z) : bool :=
  let byte i := default 0 (data !! i) in
  if byte 510%nat =? 0xA5 then
    let check := foldl (fun sum i => u8 (sum + byte i)) 0 (seq 0 511) in
    u8 (- check) =? byte 511%nat
  else if negb (byte 510%nat =? 0) then false
  else true.

Definition init_drive (fuel : nat) (k : disk) (cur : Z) (d : D) : res (disk * Z * D) :=
  let d := ns_wait (write_cmd r_drive_select (if slave k then Z.shiftl 1 4 else 0) d) in
  let d := pauses 10000 (write_control r_device_control (Z.shiftl 1 2) d) in
  let d := pauses 20000 (write_control r_device_control 0 d) in
  '(_, d) ← wait_busy_clear fuel d;
  let d := pauses 50000 d in
  let '(err, d) := read_cmd r_error d in
  if negb (Z.land err (Z.shiftl 1 7) =? 0) then mret (k, cur, d)
  else
    let '(high, d) := read_cmd r_lba_high d in
    let '(mid, d) := read_cmd r_lba_mid d in
    let k := mk_disk (slave k) (exists_ k) (lba k) (lba48 k) (pio32 k) (high, mid) (identity k) in
    if negb ((high =? 0) && (mid =? 0)) then mret (k, cur, d)
    else
      '(data, cur, d) ← identify_16 fuel (slave k) cur d;
      let k := mk_disk (slave k) (exists_ k) (lba k) (lba48 k) (pio32 k) (id k) data in
      if negb (check_identity data) then mret (k, cur, d)
      else
        '(data32, cur, d) ← identify_32 fuel (slave k) cur d;
        let byte i := default 0 (data !! i) in
        mret (mk_disk (slave k) true true (negb (Z.land (byte 167%nat) 4 =? 0) && negb (Z.land (byte 173%nat) 4 =? 0))
                (pio32 k || bool_decide (data = data32)) (id k) data, cur, d).

(** [init]: the drives of the channel, or [None] when the channel is empty. *)
Definition init (fuel : nat) (cur : Z) (d : D) : res (option (disk * disk) * Z * D) :=
  let '(st, d) := read_cmd r_status d in
  if st =? 0xFF then mret (None, cur, d)
  else
    let d := write_cmd r_sector_number 0x55 (write_cmd r_sector_count 0x2A d) in
    let d := pauses 150000 d in
    let '(count, d) := read_cmd r_sector_count d in
    if negb (count =? 0x2A) then mret (None, cur, d)
    else
      let '(number, d) := read_cmd r_sector_number d in
      if negb (number =? 0x55) then mret (None, cur, d)
      else
        '(k0, cur, d) ← init_drive fuel (new_disk false) cur d;
        '(k1, cur, d) ← init_drive fuel (new_disk true) cur d;
        mret (Some (k0, k1), cur, d).
End ops.
End ata.

(** ** Theorems *)

(** The checks of the two drivers are the same. *)
Lemma check_identity_verify data : ata.check_identity data = ahci.verify_region_integrity data.
Proof. reflexivity. Qed.

Section drives.
Context {D : Type} `{PH : PortHw D}.

Lemma read_data_length (n size : nat) get (d : D) : length (ata.read_data n size get d).1 = (n * size)%nat.
Proof.
  revert d. induction n as [| n IH]; intros d; cbn; [done |]. destruct (get d) as [v d1]. specialize (IH d1).
  destruct (ata.read_data n size get d1) as [l d2]. cbn in *. by rewrite length_app, length_le_bytes, IH.
Qed.

(** What is read when the port answers with ones. *)
Lemma read_data_ones (n : nat) (d : D) :
  (forall d, (inw ata.r_data d).1 = 0xFFFF) -> (ata.read_data n 2 (inw ata.r_data) d).1 = replicate (n * 2) 0xFF.
Proof.
  intros Hw. revert d. induction n as [| n IH]; intros d; cbn [ata.read_data]; [done |]. specialize (Hw d).
  destruct (inw ata.r_data d) as [v d1]. cbn in Hw. subst v. specialize (IH d1). destruct (ata.read_data n 2 _ d1) as [l d2]. cbn in *. by rewrite IH.
Qed.

(** The identification is read from I/O port 0, not from the data port of the
    channel: on a machine where nothing answers there, no drive is ever detected,
    whatever drives are attached. *)
Theorem no_drive_detected (fuel : nat) (base : Z * Z) (k : ata.disk) (cur : Z) (d : D) :
  (forall d, (inw ata.r_data d).1 = 0xFFFF) -> ata.exists_ k = false ->
  match ata.init_drive base fuel k cur d with Ret (k', _, _) => ata.exists_ k' = false | NoFuel => True | _ => False end.
Proof.
  intros Hw Hk. unfold ata.init_drive. set (d1 := pauses 20000 _).
  assert (HN : forall d, match ata.wait_busy_clear base fuel d with Ret _ | NoFuel => True | _ => False end).
  { clear. induction fuel as [| fuel IH]; intros d; cbn; [done |]. destruct (ata.read_control base _ d). destruct (negb _); [done |].
    destruct (_ || _); [done | apply IH]. }
  assert (HQ : forall d, match ata.wait_drq base fuel d with Ret _ | NoFuel => True | _ => False end).
  { clear. induction fuel as [| fuel IH]; intros d; cbn; [done |]. destruct (ata.read_control base _ d). destruct (_ =? 0); [apply IH | done]. }
  specialize (HN d1) as H1. destruct (ata.wait_busy_clear base fuel d1) as [[b d2] | | |]; cbn [mbind res_bind]; try done.
  destruct (ata.read_cmd base _ _) as [err d3]. destruct (negb _); [done |]. destruct (ata.read_cmd base _ d3) as [high d4]. destruct (ata.read_cmd base _ d4) as [mid d5].
  destruct (negb _); [done |]. unfold ata.identify_16, ata.send_identify. cbn [ata.slave]. destruct (ata.select_drive _ _ _ _ _ _) as [cur' d6].
  specialize (HN d6). destruct (ata.wait_busy_clear base fuel d6) as [[b' d7] | | |]; cbn [mbind res_bind]; try done.
  set (d8 := ata.ns_wait base _). specialize (HQ d8). destruct (ata.wait_drq base fuel d8) as [d9 | | |]; cbn [mbind res_bind mret res_ret]; try done.
  assert (Hr := read_data_ones 256 d9 Hw). destruct (ata.read_data 256 2 _ d9) as [data d10]. cbn [fst] in Hr. cbn [mbind res_bind mret res_ret].
  assert (Hc : ata.check_identity data = false) by (rewrite Hr; by vm_compute). rewrite Hc. exact Hk.
Qed.
End drives.

(** ** Witness *)

(** A bus with a drive that is ready at the ports of the first channel, and nothing at
    port 0. *)
#[local] Instance idle_bus : PortHw unit := {
  inb := fun p _ => (if p =? 0x3F6 then 0x48 else 0, tt); outb := fun _ _ _ => tt; inw := fun _ _ => (0xFFFF, tt); ind := fun _ _ => (0xFFFFFFFF, tt);
  pauses := fun _ _ => tt }.

Lemma no_drive_detected_witness :
  (forall d, (inw ata.r_data d).1 = 0xFFFF) /\
  match ata.init_drive ata.isa_ata1_base 10 (ata.new_disk false) 0 tt with Ret (k', _, _) => ata.exists_ k' = false | NoFuel => True | _ => False end.
Proof. split; [done |]. apply (no_drive_detected 10 ata.isa_ata1_base (ata.new_disk false) 0 tt); done. Defined.
