(* ===== verification/Devfs.v ===== *)
(** * Devfs: the device file system

    Models zeta/include/Zeta/devfs.h and what zeta/source/main.cpp does with it, on the
    server of Vfs.v: the files of /dev with their operations, and the registration and
    mount at start-up.  Nodes are allocated in a store; a pointer to one is its
    position.  The loop that serves requests is disabled in the source. *)

From S2P Require Import Prelude Vfs.

Module devfs.

(** The members of [calls] that a factory sets: reads give the bytes that are written
    to the buffer and the result, writes the text for the kernel's log and the
    result.  An empty [std::function] throws when it is called. *)
Record node := mk_node {
  n_path : path; n_mountpoint : bool;
  n_read : option (Z -> list Z * Z);
  n_write : option (list Z -> option (list Z) * Z) }.

(** [EOF] and [ENOSPC] of the C library. *)
Definition EOF : Z := -1.
Definition ENOSPC : Z := 28.

Definition fill (b n : Z) : list Z := replicate (Z.to_nat n) (u8 b).

Definition kmsg_node_factory : node := mk_node (str "/kmesg") false None (Some (fun buf => (Some buf, 0))).
Definition null_node_factory : node := mk_node (str "/null") false (Some (fun n => (fill EOF n, 0))) (Some (fun _ => (None, 0))).
Definition zero_node_factory : node := mk_node (str "/zero") false (Some (fun n => (fill 0 n, 0))) (Some (fun _ => (None, 0))).
Definition full_node_factory : node := mk_node (str "/full") false (Some (fun n => (fill 0 n, 0))) (Some (fun _ => (None, ENOSPC))).

Record t := mk { store : list node; files : list (path * nat) }.

(** [this->files[path]]: an assignment replaces the value of a key. *)
Fixpoint find_file (p : path) (l : list (path * nat)) : option nat :=
  match l with [] => None | (q, n) :: l => if decide (q = p) then Some n else find_file p l end.
Definition add_file (p : path) (n : node) (d : t) : t :=
  mk (store d ++ [mk_node p (n_mountpoint n) (n_read n) (n_write n)]) ((p, length (store d)) :: files d).

(** [calls.open]: the result and the node, a null pointer being 0 and the node at a
    position one more. *)
Definition open (d : t) (p : path) : Z * Z :=
  match find_file p (files d) with None => (-1, 0) | Some n => (0, Z.of_nat n + 1) end.

(** The identifier of the calls of devfs in the table of the server. *)
Definition calls : Z := 1.

Definition init (v : vfs.t) : res (t * vfs.t) :=
  let v := vfs.register_fs "devfs" calls v in
  let d := mk [mk_node (str "/dev") true None None] [] in
  v ← vfs.mount_type 1 (str "/dev") "devfs" v;
  let d := add_file (str "/kmsg") kmsg_node_factory d in
  let d := add_file (str "/null") null_node_factory d in
  let d := add_file (str "/zero") zero_node_factory d in
  let d := add_file (str "/full") full_node_factory d in
  let d := add_file (str "/stdout") kmsg_node_factory d in
  let d := add_file (str "/stderr") kmsg_node_factory d in
  mret (d, v).

(** The operations of a node behind a pointer. *)
Definition node_at (d : t) (n : Z) : res node := access (if n =? 0 then None else store d !! Z.to_nat (n - 1)).
Definition node_read (d : t) (n count : Z) : res (list Z * Z) :=
  k ← node_at d n; match n_read k with Some f => mret (f count) | None => Panic "bad_function_call" end.
Definition node_write (d : t) (n : Z) (buf : list Z) : res (option (list Z) * Z) :=
  k ← node_at d n; match n_write k with Some f => mret (f buf) | None => Panic "bad_function_call" end.

(** [main]. *)
Definition main : res (t * vfs.t) := init vfs.create.

(** The server with this file system: [open], and the reads and writes of a
    descriptor. *)
Definition fs_open (d : t) (c : Z) (p : path) (_ : Z) : Z * Z := if c =? calls then open d p else (-1, 0).

Section server.
Context (O_WRONLY : Z).
Definition vfs_open (d : t) (i : Z) (p : path) (md : Z) (v : vfs.t) : res (Z * vfs.t) := vfs.open (fs_open d) O_WRONLY i p md v.
Definition vfs_read (d : t) (i n count : Z) (v : vfs.t) : res (list Z * Z) :=
  v ← vfs.get_thread_entry (fs_open d) O_WRONLY i v;
  let k := vfs.descriptor n (vfs.entry i v) in if vfs.open_ k then node_read d (vfs.node k) count else mret ([], -1).
Definition vfs_write (d : t) (i n : Z) (buf : list Z) (v : vfs.t) : res (option (list Z) * Z) :=
  v ← vfs.get_thread_entry (fs_open d) O_WRONLY i v;
  let k := vfs.descriptor n (vfs.entry i v) in if vfs.open_ k then node_write d (vfs.node k) buf else mret (None, -1).
End server.
End devfs.

(** ** Theorems *)

Section server.
Context (O_WRONLY : Z).

(** The mount point of the file system. *)
Definition dev_mount : vfs.vfs_entry := vfs.mk_mount (str "/dev") 1 (vfs.Registered "devfs").
Definition mounted (v : vfs.t) : Prop := vfs.mount_list v = [dev_mount] /\ vfs.filesystems v !! "devfs" = Some devfs.calls.

Lemma main_returns : exists d v, devfs.main = Ret (d, v) /\ mounted v /\ vfs.thread_data v = ∅ /\
  devfs.open d (str "/kmsg") = (0, 2) /\ devfs.open d (str "/null") = (0, 3) /\ devfs.open d (str "/zero") = (0, 4) /\
  devfs.open d (str "/full") = (0, 5) /\ devfs.open d (str "/stdout") = (0, 6) /\ devfs.open d (str "/stderr") = (0, 7) /\
  (forall buf, devfs.node_write d 6 buf = Ret (Some buf, 0) /\ devfs.node_write d 7 buf = Ret (Some buf, 0)).
Proof. eexists _, _. split; [reflexivity |]. by repeat split. Qed.

Lemma dev_matches f : vfs.mount_matches (str "/dev" ++ path_separator :: f) dev_mount 0 = true.
Proof.
  unfold vfs.mount_matches. cbn [vfs.name dev_mount]. rewrite bool_decide_eq_false_2 by (rewrite length_app; cbn; lia).
  rewrite take_app_length, bool_decide_eq_true_2 by done. change (vfs.char_at _ _) with path_separator. by rewrite (bool_decide_eq_true_2 (_ = path_separator)).
Qed.

(** A thread finds a file of /dev. *)
Lemma open_dev d v i (f : path) (nd md : Z) :
  mounted v -> vfs.make_path_absolute (vfs.cwd (vfs.entry i v)) (str "/dev" ++ path_separator :: f) = Ret (str "/dev" ++ path_separator :: f) ->
  devfs.open d (path_separator :: f) = (0, nd) ->
  let e := vfs.entry i v in
  vfs.open_enabled (devfs.fs_open d) i (str "/dev" ++ path_separator :: f) md v =
    Ret (vfs.free_fd e, vfs.set_entry i (vfs.mk_entry (vfs.tid e) (vfs.free_fd e + 1)
           (<[vfs.free_fd e := vfs.mk_fd true (vfs.free_fd e) nd md 0]> (vfs.fd_map e)) (vfs.cwd e) (vfs.enabled e)) v).
Proof.
  intros [Hl Hf] Habs Hopen e. unfold vfs.open_enabled, vfs.get_mountpoint. rewrite Habs. cbn [mbind res_bind]. rewrite Hl.
  cbn [vfs.find_mount]. rewrite dev_matches. unfold vfs.local_path. rewrite decide_True by (cbn; lia). rewrite decide_False by (rewrite length_app; cbn; lia).
  cbn [vfs.name dev_mount]. rewrite drop_app_length. cbn [mbind res_bind mret res_ret]. rewrite decide_False by discriminate.
  change (vfs.fs <$> Some dev_mount) with (Some (vfs.Registered "devfs")). cbn [mbind res_bind mret res_ret vfs.deref]. rewrite Hf. cbn [access mbind res_bind]. unfold devfs.fs_open.
  change (devfs.calls =? devfs.calls) with true. cbv match. rewrite Hopen. reflexivity.
Qed.

Lemma dup2_fresh i old new v (e : vfs.thread_vfs_entry) (k : vfs.fd_data) :
  vfs.entry i v = e -> vfs.descriptor old e = k -> vfs.open_ k = true -> (old =? new) = false -> vfs.open_ (vfs.descriptor new e) = false ->
  (vfs.dup2_enabled i old new v).2 = vfs.set_entry i (vfs.set_descriptor new (vfs.mk_fd (vfs.open_ k) new (vfs.node k) (vfs.mode k) (vfs.offset k)) e) v.
Proof. intros <- <- H1 H2 H3. unfold vfs.dup2_enabled. rewrite H1, H2, H3. cbn. by rewrite H1. Qed.

(** A thread that calls the server for the first time has its standard output and
    error connected to the log of the kernel: what it writes to descriptor 1 or 2 is
    logged, byte for byte. *)
Theorem standard_streams (d : devfs.t) (v : vfs.t) (i n : Z) (buf : list Z) :
  devfs.main = Ret (d, v) -> n = 1 \/ n = 2 -> devfs.vfs_write O_WRONLY d i n buf v = Ret (Some buf, 0).
Proof.
  intros Hm Hn. destruct main_returns as (d0 & v0 & E & Hmt & Htd & _ & _ & _ & _ & H1 & H2 & Hlog). rewrite E in Hm. injection Hm as -> ->.
  assert (Hset : forall e w, vfs.entry i (vfs.set_entry i e w) = e) by (intros e w; unfold vfs.entry; cbn; by rewrite lookup_insert_eq).
  assert (He0 : vfs.entry i v = vfs.new_entry) by (unfold vfs.entry; by rewrite Htd, lookup_empty).
  unfold devfs.vfs_write, vfs.get_thread_entry. rewrite He0. cbn [vfs.enabled vfs.new_entry].
  set (v1 := vfs.set_entry i _ v). assert (He1 : vfs.entry i v1 = vfs.init i vfs.new_entry) by apply Hset.
  change (str "/dev/stdout") with (str "/dev" ++ path_separator :: str "stdout"). change (str "/dev/stderr") with (str "/dev" ++ path_separator :: str "stderr").
  rewrite (open_dev d v1 i (str "stdout") 6) by (done || by rewrite He1). rewrite He1. cbn [mbind res_bind vfs.init vfs.new_entry vfs.free_fd vfs.tid vfs.cwd vfs.enabled vfs.fd_map].
  erewrite dup2_fresh; [| apply Hset | reflexivity..]. cbn [vfs.set_descriptor vfs.free_fd vfs.tid vfs.cwd vfs.enabled vfs.fd_map].
  erewrite open_dev; [| done | by rewrite Hset | exact H2]. rewrite Hset. cbn [mbind res_bind vfs.free_fd vfs.tid vfs.cwd vfs.enabled vfs.fd_map mret res_ret].
  erewrite dup2_fresh; [| apply Hset | reflexivity..]. rewrite Hset. destruct (Hlog buf) as [L1 L2]. by destruct Hn as [-> | ->].
Qed.
End server.

(** Reads of /dev/null do not say that the end is reached: they fill the buffer with
    ones and return 0, as successful reads of the other devices do. *)
Lemma null_reads_ones d v n :
  devfs.main = Ret (d, v) -> devfs.node_read d 3 n = Ret (replicate (Z.to_nat n) 0xFF, 0) /\ devfs.node_read d 4 n = Ret (replicate (Z.to_nat n) 0, 0) /\
  devfs.node_read d 2 n = Panic "bad_function_call".
Proof. intros [= <- _]. done. Qed.

(** ** Witness *)

Lemma standard_streams_witness :
  exists d v, devfs.main = Ret (d, v) /\ devfs.vfs_write 1 d 7 2 [104; 105] v = Ret (Some [104; 105], 0).
Proof.
  destruct devfs.main as [[d v] | | |] eqn:E; [| discriminate E..]. exists d, v. split; [done |].
  apply (standard_streams 1 d v 7 2 [104; 105]); [exact E | by right].
Defined.
